(* ===== verification/_CoqProject ===== *)
-Q . S2P
Prelude.v
ByteBuffer.v
Multimap.v
StdMap.v
Util.v
Columns.v
Names.v
ObjectGuid.v
LfgRoles.v
LfgData.v
LfgDungeons.v
LfgQueue.v
LfgMatch.v
LfgMgr.v
LfgInvariant.v
LfgScripts.v
WorldPacket.v
LfgPackets.v
ActionLogic.v
GroupTypes.v
GroupMgr.v
GroupLoot.v
GroupLootInv.v
GroupWorld.v
Group.v
GroupFrame.v
GroupCore.v
GroupView.v
GroupFinder.v
GroupOps.v
GroupInv.v
GroupHandler.v
GroupReach.v
GroupRequests.v
GroupPlay.v
GroupForm.v
GroupRuns.v
GroupFates.v
Channel.v
ChannelMgr.v
Social.v
SocialRuns.v
Calendar.v
CalendarHandler.v
CalendarInv.v
CalendarSteps.v
CalendarRuns.v
CalendarLoad.v
CalendarFates.v
EventMap.v
Timer.v
EventProcessor.v
RBAC.v
