(* ===== verification/Prelude.v ===== *)
(** * TrinityCore server: verification library

    TrinityCore is the server of an online role-playing game, in C++
    (src/server/): a login server and a world server over shared libraries.
    This library models parts of its own logic that keep state, decide rights or
    exchange bytes with clients and the database, and proves them correct.

    ** The parts and the files

    - [Prelude] (this file): machine integers ([uwrap], [swrap], [is_u]),
      lemmas on bits, the outcomes and the state monad of stateful code
      ([outcome], [action], [let!], [do!]), tactics and the hint database
      [trinity].
    - [ByteBuffer]: src/server/shared/Packets/ByteBuffer.h.  A growing byte array
      with a read and a write cursor; every operation is an [action] on the
      buffer with the code's exceptions as [Throw] and a failed [ASSERT] or an
      access outside the vector as [Crash].  The class [Wire] is the interface of
      a type that can be written and read back; integers, C strings and vectors
      are instances.
    - [Multimap]: the [std::multimap] from times that the timers use, a list
      sorted by key that keeps the order of insertion among equal keys.
    - [StdMap]: [std::map] and [std::set] as finite maps that are walked in the
      order of their keys; the dungeon finder and the groups walk them.
    - [Util]: src/server/shared/Utilities/Util.h and Util.cpp: the tokenizer,
      the text clean-up, durations and money as text, character classes and case
      maps, the 96-bit flags.
    - [Names]: the name checks of src/server/game/Globals/ObjectMgr.cpp and
      [GetMainPartOfName] of Util.cpp.
    - [ObjectGuid]: src/server/game/Entities/Object/ObjectDefines.h.
    - [LfgRoles], [LfgData], [LfgDungeons], [LfgQueue], [LfgMatch], [LfgMgr],
      [LfgInvariant], [LfgScripts], [LfgPackets]: the dungeon finder,
      src/server/game/DungeonFinding/ and Handlers/LFGHandler.cpp.  In this order:
      the assignment of roles (LFGMgr.cpp, CheckGroupRoles); the data of players
      and groups; the tables of dungeons, locks and rewards; the queue
      (LFGQueue.cpp), which asks the manager through the class [LfgView]; the
      claims on its search; the manager (LFGMgr.cpp), whose questions to the rest
      of the server are the class [LfgWorld]; its reachable states; teleports,
      rewards and the hooks of groups and players (LFGScripts.cpp); the packets.
    - [ActionLogic]: combinators and triples for programs that return.
    - [GroupTypes], [GroupMgr], [GroupLoot], [GroupLootInv]:
      src/server/game/Groups/.  The record of a group with its members, icons,
      looter and sub groups, and what looks only at it; the manager that numbers,
      finds and loads groups; the loot rolls (the loot system of Group.cpp, with the
      items of Loot/LootMgr.h): how a roll is started, voted on and counted, and its
      reachable states.  Players and inventories are the class [LootView].
    - [GroupWorld], [Group]: the membership of groups, Group.cpp and the group parts of
      Entities/Player/Player.cpp.  The state [GW] is the heap of groups, the players
      who are connected with their references, the manager, the loots, the two tables
      and the groups of the battlegrounds' sides; each function of the source is a
      program on it, and what it sends or calls is in the trace.  The scripts of a
      group are the class [GroupScripts] with its laws; [GroupFinder] makes the manager
      of [LfgMgr] with the hooks of [LfgScripts] its instance.
    - [GroupHandler]: Handlers/GroupHandler.cpp, logging in and out (Player.cpp
      _LoadGroup, WorldSession.cpp LogoutPlayer) and the groups of battlegrounds
      (Battlegrounds/Battleground.cpp), as programs over [Group].
    - [GroupCore], [GroupView], [GroupOps]: the specification of these programs.  The
      core is what memberships depend on, the view what is seen of it from outside;
      each operation is shown to return and to change the view as a short function
      says.  [GroupInv] has the invariant on views and that those functions keep it,
      [GroupReach], [GroupRequests] and [GroupPlay] that every request returns and
      keeps it; [GroupForm] is MakeNewGroup of DungeonFinding/LFGMgr.cpp over the same
      operations, and [GroupFrame] what it needs, that nobody comes into the world in
      between; [GroupRuns] has the runs of requests, and [GroupFates] what single
      requests do, in the words of the source.
    - [WorldPacket]: src/server/shared/Packets/WorldPacket.h and
      [ChatHandler::BuildChatPacket] of src/server/game/Chat/Chat.cpp; the
      relation [writes] describes what a sequence of [<<] appends.
    - [Channel]: src/server/game/Chat/Channels/Channel.h and Channel.cpp.  A
      channel is the record [Channel]; its operations are programs on the state
      [St], the channel and the trace of the packets, player calls and database
      statements that left it.
    - [ChannelMgr]: src/server/game/Chat/Channels/ChannelMgr.cpp and the handlers
      of src/server/game/Handlers/ChannelHandler.cpp, from the received bytes to
      the two managers.
    - [Social], [SocialRuns]: src/server/game/Entities/Player/SocialMgr.h and
      SocialMgr.cpp, the friend and ignore handlers of Handlers/MiscHandler.cpp and
      what logging in and out does with the lists.  The state [SW] has the lists of
      those who are connected, the table, the players and the sessions with the
      answers of the database they wait for.
    - [Calendar], [CalendarHandler]: src/server/game/Calendar/ and
      Handlers/CalendarHandler.cpp.  The state [CalendarMgr] has the events, the
      vectors of invitations with the objects they point to, the free numbers and the
      two tables.  [CalendarInv] is its invariant and what a change of each part does
      to it, [CalendarSteps] what the operations do, [CalendarRuns] that every request
      returns and keeps it, [CalendarLoad] the loading of the tables, [CalendarFates]
      the runs of requests and restarts and the claims.
    - [EventMap]: the timer of creature scripts, class EventMap of Util.h.
    - [Timer]: the timers of src/server/shared/Utilities/Timer.h.
    - [EventProcessor]: EventProcessor.h and EventProcessor.cpp beside it, the
      delayed events of objects.  The objects are a heap, the virtual methods of
      an event are parameters whose effect on the processor is a list of actions.
    - [RBAC]: src/server/game/Accounts/RBAC.h, RBAC.cpp and the loading part of
      AccountMgr.cpp: permissions, links between them, accounts and their table.

    [ByteBuffer] carries the packets of [WorldPacket], which the channels send;
    [Channel] stores its bans as text printed and tokenized by [Util]; the
    handlers of [ChannelMgr] read a [ByteBuffer], find a channel by the
    lower-case name of [Util] and run an operation of [Channel]; the
    permissions a channel asks a player for are numbers of [RBAC].  The queue of
    the dungeon finder calls the manager through [LfgView], and [LfgMgr] is the
    instance; [LfgPackets] reads a request from a [ByteBuffer] and runs the manager.
    Loading a group ([GroupMgr]) hands its members to the manager of [LfgMgr].
    [Group] calls the manager of groups, runs the rolls of [GroupLoot] when a member
    leaves, and calls the dungeon finder through [GroupScripts]; when a proposal is
    accepted the finder calls back, which [GroupForm] states with [FormScripts].

    ** What the theorems show

    - Bytes: a buffer is a first-in first-out queue of bytes whatever is read
      and written; no read leaves the vector; packed guids, packed times, vectors
      and strings are read back; a chat packet has its layout and returns the
      place of the receiver.
    - Rights: the expansion of permissions is the reachability over links; grant,
      deny and revoke keep memory and table equal; the sets of an account stay
      disjoint and known; the tables are loaded as they describe.  The denied
      permissions turn out to have no effect.
    - Timers: draining an event map runs exactly the due, unblocked events in
      order; all operations keep it sorted; the data word keeps its fields apart;
      delaying shifts every event.  An update of an event processor handles every
      due event once and ends, as long as events schedule into the future; killing
      all events aborts each once.  Interval and periodic timers do not drift; the
      millisecond difference is one short after a wrap.
    - Channels: over every sequence of operations the members stay consistent,
      except when an owner kicks himself, which leaves a ghost member; only those
      entitled change anything; joining, leaving and the succession of owners;
      every change of the settings reaches the database and is loaded back; the
      member list packet; a request touches only the channel it names.
    - Dungeon finder: roles are assigned exactly when they can be; the search of
      the queue ends, takes guids greedily and makes only valid groups; over every
      sequence of operations what waits can be matched, every role check is open
      and every proposal undecided; the update returns; role checks, proposals
      and votes end as they should; leaving removes every trace; players noted
      with a group are among its members; rewards are given once; join requests.
    - Groups: a group is stored under the smallest free number; loading rebuilds
      members and counters; a target has one icon and clients see it; the turns of
      the looter go round.  Loot rolls: over every sequence of operations they are
      sound and nothing fails; who wins a roll and what he gets; the end of the rolls
      of a loot ends; repeated votes are counted, and nobody's leaving ends a roll.
    - Membership: over every run of requests of players and the server, players,
      groups, invitations, the manager and the tables agree ([linked]), the fields
      have values of their types ([typed]), and every request returns: nothing that
      was deleted is used and no counter leaves its array.  How a member leaves, who
      leads after him and when the group ends; when there is room; a login restores
      what a logout left; the end of a battleground's group; whom an accepted proposal
      of the dungeon finder brings together, and who leads them.  A player who invites
      himself, which only his client prevents, leaves a dangling pointer.
    - Social lists: over every run of requests, logins and logouts a list in memory is
      what a reload from the table gives, and is not longer than allowed.
    - Calendar: over every run of requests events have numbers of their own, the table
      has their rows and no vector dangles; without announcements and invitations in
      advance the same holds for invitations, and a restart loads what was there.  What
      removing an event does.  Three ways it goes wrong: an invitation in advance makes
      a number be used twice, deleting a character who created an event crashes, and
      players without a guild are shown everybody's events.
    - Text: durations and money as text, the tokenizer, the in-place clean-up,
      case maps, name checks.

    Every operation of a channel is proved equal to a pure description of its
    effect ([command_result]), and the claims are consequences of that; the same
    scheme (detailed program, abstract view, claims) is used for the buffer and
    the event map.

    ** Bounds and fuel

    Unsigned integers are wrapped at their width where the code computes with
    them.  The buffer's [ASSERT(size() < 10000000)] is modelled, so writers have
    a size hypothesis below it.  Loops with fuel: [dec] (20 digits hold 2^64),
    [read_chars] (one step per byte left in the buffer), [expand_loop] (one step
    per permission not expanded yet, proved enough by a measure), the packed guid
    loops (eight bytes), [update_loop] and [kill_loop] (one step per due or queued
    event, proved enough for events that keep their contract), the role search
    (three steps per player), the search of the queue (one step per guid), the walk
    of the new queue (its length), the dungeons of a request (the bytes left), the
    search for a free group number (one step per number used), the end of the rolls of
    a loot (the square of their number, since the search restarts).  The programs of
    [Group] have no fuel: their loops run over the members, references and invitees.

    ** What the runs of requests assume

    [allowed] says which requests may come when: a request comes from a player who is
    connected, logging in is by one who is not and finds the groups loaded; nobody
    invites himself or accepts the invitation he made, which the client does not
    offer; there are numbers left for new groups; who enters a battleground is in no
    other one's group.  A battleground lives longer than its groups.  The scripts
    answer ([GroupScriptLaws]), which [GroupFinder] proves of the dungeon finder.
    A proposal whose group is made ([formable]) has a known dungeon and at most five
    players, none of them invited anywhere or in a battleground's group; if it
    completes a group, the members of that group are among them, and otherwise one of
    them is in the world, or the assertion of MakeNewGroup would fail.

    ** What is not modelled

    Code outside the components above is listed with its reason in the manifest:
    units, spells, maps, movement and collision (floating-point geometry over
    client data), game content (AI, scripts, battlegrounds), the database,
    network, threading and cryptography layers, and the vendored libraries.  The
    utf8 library, the clock and the local time zone are parameters.  Players,
    the world configuration and the object lookup appear to a channel as the
    record [World].  Of groups, the binds to instances (calls in the trace), the
    statistics of members, ready checks, the minimap ping, battlefields and the rolls
    a destructor deletes are left out; the updates of the dungeon finder and the
    requests to it are not requests of the runs, only the groups it makes.  Of the social
    lists the removal of deleted characters, of the calendar the invitations of whole
    guilds and arena teams and the requests about saved instances are left out; the rows
    of the instances in its packet are parameters.  Guilds, auctions, mail and
    reputation are mostly rows of the database and were not reached. *)

From stdpp Require Import base gmap list strings sorting.
From Stdlib Require Import ZArith Lia.

#[global] Open Scope Z_scope.

(** ** Machine integers

    A C++ unsigned integer of [w] bits is a [Z] in [0, 2^w); a signed one is
    in [-2^(w-1), 2^(w-1)).  Every conversion and every unsigned arithmetic
    operation of the source is written with the wrapping functions below. *)

Definition uwrap (w z : Z) : Z := z mod 2 ^ w.
Definition swrap (w z : Z) : Z := (z + 2 ^ (w - 1)) mod 2 ^ w - 2 ^ (w - 1).

Abbreviation u8 := (uwrap 8).
Abbreviation u16 := (uwrap 16).
Abbreviation u32 := (uwrap 32).
Abbreviation u64 := (uwrap 64).
Abbreviation s8 := (swrap 8).
Abbreviation s16 := (swrap 16).
Abbreviation s32 := (swrap 32).
Abbreviation s64 := (swrap 64).

Definition is_u (w z : Z) : Prop := 0 <= z < 2 ^ w.
Definition is_s (w z : Z) : Prop := - 2 ^ (w - 1) <= z < 2 ^ (w - 1).

#[export] Instance is_u_dec w z : Decision (is_u w z).
Proof. unfold is_u; apply _. Defined.
#[export] Instance is_s_dec w z : Decision (is_s w z).
Proof. unfold is_s; apply _. Defined.

(** The proof automation the components share. *)
Create HintDb trinity.

Lemma uwrap_range w z : 0 <= w -> is_u w (uwrap w z).
Proof. intros; apply Z.mod_pos_bound, Z.pow_pos_nonneg; lia. Qed.

Lemma uwrap_id w z : is_u w z -> uwrap w z = z.
Proof. intros; apply Z.mod_small; assumption. Qed.

Lemma uwrap_uwrap w z : uwrap w (uwrap w z) = uwrap w z.
Proof. apply Zmod_mod. Qed.

Lemma uwrap_add_l w a b : uwrap w (uwrap w a + b) = uwrap w (a + b).
Proof. apply Zplus_mod_idemp_l. Qed.

Lemma uwrap_add_r w a b : uwrap w (a + uwrap w b) = uwrap w (a + b).
Proof. apply Zplus_mod_idemp_r. Qed.

Lemma swrap_range w z : 0 < w -> is_s w (swrap w z).
Proof.
  intros Hw; unfold swrap, is_s.
  replace (2 ^ w) with (2 * 2 ^ (w - 1)) by (rewrite <- Z.pow_succ_r by lia; f_equal; lia).
  pose proof (Z.pow_pos_nonneg 2 (w - 1) ltac:(lia) ltac:(lia)).
  pose proof (Z.mod_pos_bound (z + 2 ^ (w - 1)) (2 * 2 ^ (w - 1)) ltac:(lia)). lia.
Qed.

Lemma swrap_id w z : 0 < w -> is_s w z -> swrap w z = z.
Proof.
  unfold swrap, is_s; intros Hw Hz.
  replace (2 ^ w) with (2 * 2 ^ (w - 1)) by (rewrite <- Z.pow_succ_r by lia; f_equal; lia).
  rewrite Z.mod_small; lia.
Qed.

Lemma swrap_uwrap w z : 0 < w -> swrap w (uwrap w z) = swrap w z.
Proof. intros; unfold swrap, uwrap. now rewrite Zplus_mod_idemp_l. Qed.

#[export] Hint Resolve uwrap_range swrap_range uwrap_id swrap_id : trinity.

(** ** Bits *)

(** [Z.testbit] facts for masks and shifts, with every side condition left to
    [lia]; [zbits] reduces an equation between machine words to one bit. *)
Lemma testbit_pow2 n i : 0 <= n -> Z.testbit (2 ^ n) i = bool_decide (i = n).
Proof.
  intros Hn. case_bool_decide as E.
  - subst. now apply Z.pow2_bits_true.
  - apply Z.pow2_bits_false. lia.
Qed.

Lemma testbit_shiftl1 n i : 0 <= n -> Z.testbit (Z.shiftl 1 n) i = bool_decide (i = n).
Proof. intros Hn. rewrite Z.shiftl_1_l. now apply testbit_pow2. Qed.

Lemma testbit_above w z i : is_u w z -> 0 <= w -> w <= i -> Z.testbit z i = false.
Proof.
  intros [H1 H2] Hw Hi. destruct (Z.eq_dec z 0) as [->|Hz]; [apply Z.bits_0|].
  apply Z.bits_above_log2; [lia|].
  apply Z.lt_le_trans with w; [|lia]. apply Z.log2_lt_pow2; lia.
Qed.

Lemma testbit_uwrap w z i : 0 <= w -> Z.testbit (uwrap w z) i = bool_decide (i < w) && Z.testbit z i.
Proof.
  intros Hw. unfold uwrap. case_bool_decide.
  - destruct (decide (0 <= i)).
    + rewrite Z.mod_pow2_bits_low by lia. reflexivity.
    + now rewrite !Z.testbit_neg_r by lia.
  - now rewrite Z.mod_pow2_bits_high by lia.
Qed.

Lemma land_pow2_nonzero z n :
  0 <= n -> (Z.land z (2 ^ n) =? 0) = negb (Z.testbit z n).
Proof.
  intros Hn. destruct (Z.testbit z n) eqn:E; cbn.
  - apply Z.eqb_neq. intros H. apply (f_equal (fun v => Z.testbit v n)) in H.
    rewrite Z.land_spec, E, Z.pow2_bits_true, Z.bits_0 in H by lia. discriminate.
  - apply Z.eqb_eq, Z.bits_inj'. intros i Hi.
    rewrite Z.land_spec, testbit_pow2, Z.bits_0 by lia.
    case_bool_decide; subst; rewrite ?E; now rewrite ?andb_false_r.
Qed.

(** A word whose low [n] bits are clear and a word of [n] bits: [|] is [+]. *)
Lemma lor_disjoint_add a b n :
  0 <= n -> a mod 2 ^ n = 0 -> 0 <= b < 2 ^ n -> Z.lor a b = a + b.
Proof.
  intros Hn Ha Hb. symmetry.
  rewrite Z.add_nocarry_lxor; [apply Z.lxor_lor|]; apply Z.bits_inj'; intros i Hi;
    rewrite Z.land_spec, Z.bits_0.
  all: destruct (decide (i < n)).
  all: try (rewrite (testbit_above n b i) by (unfold is_u; lia); apply andb_false_r).
  all: apply (f_equal (fun v => Z.testbit v i)) in Ha;
       rewrite Z.mod_pow2_bits_low, Z.bits_0 in Ha by lia; now rewrite Ha.
Qed.

(** The bits of a word put together from two fields. *)
Lemma testbit_add_mul a b n i :
  is_u n a -> 0 <= n -> 0 <= i ->
  Z.testbit (a + b * 2 ^ n) i = if i <? n then Z.testbit a i else Z.testbit b (i - n).
Proof.
  intros Ha Hn Hi. destruct (Z.ltb_spec i n) as [H|H].
  - rewrite <- (Z.mod_pow2_bits_low _ n) by lia. rewrite Z.mod_add by lia. now rewrite Z.mod_small.
  - replace i with ((i - n) + n) at 1 by lia. rewrite <- Z.div_pow2_bits by lia.
    rewrite Z.div_add, Z.div_small by (try lia; exact Ha). done.
Qed.

(** ** Outcomes of stateful code

    A C++ member function that can throw is a function from the object's state
    to an outcome and the state it leaves: the state survives an exception, so
    what was done before the throw stays done.  [Crash] is a failed [ASSERT] or
    an access outside an array: the process stops there. *)

Inductive outcome (E A : Type) : Type :=
| Ret (a : A)
| Throw (e : E)
| Crash.
Arguments Ret {E A} a.
Arguments Throw {E A} e.
Arguments Crash {E A}.

Definition action (S E A : Type) : Type := S -> outcome E A * S.

Definition ret {S E A} (a : A) : action S E A := fun s => (Ret a, s).
Definition throw {S E A} (e : E) : action S E A := fun s => (Throw e, s).
Definition crash {S E A} : action S E A := fun s => (Crash, s).
Definition get {S E} : action S E S := fun s => (Ret s, s).
Definition put {S E} (s' : S) : action S E unit := fun _ => (Ret tt, s').
Definition bind {S E A B} (m : action S E A) (k : A -> action S E B) : action S E B :=
  fun s => match m s with
           | (Ret a, s') => k a s'
           | (Throw e, s') => (Throw e, s')
           | (Crash, s') => (Crash, s')
           end.

Declare Scope action_scope.
Delimit Scope action_scope with action.
Notation "'let!' x := m 'in' k" := (bind m (fun x => k))
  (at level 10, x name, m at level 100, k at level 200) : action_scope.
Notation "'do!' m 'in' k" := (bind m (fun _ => k))
  (at level 10, m at level 100, k at level 200) : action_scope.
#[global] Open Scope action_scope.

Lemma bind_ret {S E A B} (m : action S E A) (k : A -> action S E B) s a s' :
  m s = (Ret a, s') -> bind m k s = k a s'.
Proof. intros H; unfold bind; now rewrite H. Qed.

Lemma bind_throw {S E A B} (m : action S E A) (k : A -> action S E B) s e s' :
  m s = (Throw e, s') -> bind m k s = (Throw e, s').
Proof. intros H; unfold bind; now rewrite H. Qed.

(** Linear arithmetic with divisions and remainders by constants. *)
Ltac div_lia := Z.to_euclidean_division_equations; lia.

(** ** Lists as C++ vectors *)

Definition zlen {A} (l : list A) : Z := Z.of_nat (length l).

Lemma length_zlength {A} (l : list A) : 0 <= Z.of_nat (length l).
Proof. lia. Qed.

(** Case analysis on the boolean tests of the code. *)
Ltac case_if :=
  match goal with
  | |- context [if ?b then _ else _] => let E := fresh "E" in destruct b eqn:E
  | H : context [if ?b then _ else _] |- _ => let E := fresh "E" in destruct b eqn:E
  end.

(** Turn every boolean comparison in the context into its proposition. *)
Ltac zbool :=
  repeat match goal with
  | H : (_ && _) = true |- _ => apply andb_prop in H as [? ?]
  | H : (_ && _) = false |- _ => apply andb_false_iff in H
  | H : (_ || _) = true |- _ => apply orb_true_iff in H
  | H : (_ || _) = false |- _ => apply orb_false_iff in H as [? ?]
  | H : negb _ = true |- _ => apply negb_true_iff in H
  | H : negb _ = false |- _ => apply negb_false_iff in H
  | H : (_ =? _) = true |- _ => apply Z.eqb_eq in H
  | H : (_ =? _) = false |- _ => apply Z.eqb_neq in H
  | H : (_ <? _) = true |- _ => apply Z.ltb_lt in H
  | H : (_ <? _) = false |- _ => apply Z.ltb_ge in H
  | H : (_ <=? _) = true |- _ => apply Z.leb_le in H
  | H : (_ <=? _) = false |- _ => apply Z.leb_gt in H
  | H : bool_decide _ = true |- _ => apply bool_decide_eq_true in H
  | H : bool_decide _ = false |- _ => apply bool_decide_eq_false in H
  end.
