(* ===== verification/ByteBuffer.v ===== *)
(** * ByteBuffer: the packet buffer (src/server/shared/Packets/ByteBuffer.h)

    The buffer object with its two cursors, every append, put and read of the
    class, the packed GUID and packed time encodings and the vector and string
    operators.  The refinement theorem shows that a well-formed buffer is a byte
    queue; the class [Wire] is the contract an element type offers to the
    container operators. *)

From stdpp Require Import base gmap list strings.
From Stdlib Require Import ZArith Lia.
From S2P Require Import Prelude.
#[local] Open Scope Z_scope.

(** ** State and exceptions *)

Record ByteBuffer := mkByteBuffer {
  _rpos : Z;
  _wpos : Z;
  _storage : list Z
}.

(** The exception classes, with the constructor arguments in the order of the
    constructors' parameters (add, pos, size, valueSize). *)
Inductive exn :=
| ByteBufferException
| ByteBufferPositionException (add : bool) (pos size valueSize : Z)
| ByteBufferSourceException (pos size valueSize : Z).

Abbreviation BB := (action ByteBuffer exn).

Definition size (b : ByteBuffer) : Z := Z.of_nat (length (_storage b)).
Definition empty (b : ByteBuffer) : bool := size b =? 0.
Definition new_buffer : ByteBuffer := mkByteBuffer 0 0 [].

Definition rpos : BB Z := let! b := get in ret (_rpos b).
Definition wpos : BB Z := let! b := get in ret (_wpos b).
Definition set_rpos (p : Z) : BB Z :=
  let! b := get in do! put (mkByteBuffer p (_wpos b) (_storage b)) in ret p.
Definition set_wpos (p : Z) : BB Z :=
  let! b := get in do! put (mkByteBuffer (_rpos b) p (_storage b)) in ret p.
Definition rfinish : BB unit :=
  let! b := get in put (mkByteBuffer (_wpos b) (_wpos b) (_storage b)).
Definition clear : BB unit := put (mkByteBuffer 0 0 []).
Definition resize_buffer (newsize : Z) : BB unit :=
  let! b := get in
  let st := resize (Z.to_nat newsize) 0 (_storage b) in
  put (mkByteBuffer 0 (Z.of_nat (length st)) st).

(** [std::memcpy(&l[pos], src, n)] inside the vector. *)
Definition write_at (pos : nat) (src l : list Z) : list Z :=
  take pos l ++ src ++ drop (pos + length src) l.

(** [append(const uint8* src, size_t cnt)]: [src] is [None] for a null pointer. *)
Definition append (src : option (list Z)) (cnt : Z) : BB unit :=
  let! b := get in
  if cnt =? 0 then throw (ByteBufferSourceException (_wpos b) (size b) cnt)
  else match src with
  | None => throw (ByteBufferSourceException (_wpos b) (size b) cnt)
  | Some bytes =>
    if negb (size b <? 10000000) then crash
    else
      let fin := u64 (_wpos b + cnt) in
      let st := if size b <? fin then resize (Z.to_nat fin) 0 (_storage b) else _storage b in
      if (Z.of_nat (length bytes) <? cnt) || (Z.of_nat (length st) <? _wpos b + cnt) then crash
      else put (mkByteBuffer (_rpos b) fin
                 (write_at (Z.to_nat (_wpos b)) (take (Z.to_nat cnt) bytes) st))
  end.

(** [put(size_t pos, const uint8* src, size_t cnt)]. *)
Definition put_at (pos : Z) (src : option (list Z)) (cnt : Z) : BB unit :=
  let! b := get in
  if size b <? u64 (pos + cnt) then throw (ByteBufferPositionException true pos cnt (size b))
  else match src with
  | None => throw (ByteBufferSourceException (_wpos b) (size b) cnt)
  | Some bytes =>
    if (Z.of_nat (length bytes) <? cnt) || (size b <? pos + cnt) then crash
    else put (mkByteBuffer (_rpos b) (_wpos b)
               (write_at (Z.to_nat pos) (take (Z.to_nat cnt) bytes) (_storage b)))
  end.

(** The [n] bytes of an integer in wire order (little endian; [EndianConvert]
    swaps on the other platforms). *)
Fixpoint le_bytes (n : nat) (v : Z) : list Z :=
  match n with
  | O => []
  | S n => v mod 256 :: le_bytes n (v / 256)
  end.

Fixpoint le_value (l : list Z) : Z :=
  match l with
  | [] => 0
  | b :: l => b + 256 * le_value l
  end.

(** [append<T>(value)] and [put<T>(pos, value)] for an integral [T] of [n] bytes. *)
Definition append_int (n : nat) (v : Z) : BB unit := append (Some (le_bytes n v)) (Z.of_nat n).
Definition put_int (n : nat) (pos v : Z) : BB unit := put_at pos (Some (le_bytes n v)) (Z.of_nat n).

Definition write_uint8 (v : Z) : BB unit := append_int 1 v.
Definition write_uint16 (v : Z) : BB unit := append_int 2 v.
Definition write_uint32 (v : Z) : BB unit := append_int 4 v.
Definition write_uint64 (v : Z) : BB unit := append_int 8 v.

(** [operator<<(std::string const&)]: the bytes of the string, then a zero. *)
Definition write_string (s : list Z) : BB unit :=
  do! (if Z.of_nat (length s) =? 0 then ret tt else append (Some s) (Z.of_nat (length s))) in
  append_int 1 0.

(** [append(ByteBuffer const&)]. *)
Definition contents (b : ByteBuffer) : option (list Z) :=
  if empty b then None else Some (_storage b).
Definition append_buffer (src : ByteBuffer) : BB unit :=
  if _wpos src =? 0 then ret tt
  else match contents src with
       | None => throw ByteBufferException
       | Some bytes => append (Some bytes) (_wpos src)
       end.

(** [operator[]]: the byte at a position. *)
Definition at_pos (pos : Z) : BB Z :=
  let! b := get in
  if size b <=? pos then throw (ByteBufferPositionException false pos 1 (size b))
  else match _storage b !! Z.to_nat pos with Some v => ret v | None => crash end.

(** ** Reading *)

(** [read<T>(size_t pos) const] for an unsigned [T] of [n] bytes; the
    arguments of the exception stand where the code puts them. *)
Definition read_at (n : nat) (pos : Z) : BB Z :=
  let! b := get in
  if size b <? u64 (pos + Z.of_nat n)
  then throw (ByteBufferPositionException false pos (Z.of_nat n) (size b))
  else if size b <? pos + Z.of_nat n then crash
  else ret (le_value (take n (drop (Z.to_nat pos) (_storage b)))).

(** [read<T>()]: read at the cursor and advance it. *)
Definition read (n : nat) : BB Z :=
  let! b := get in
  let! r := read_at n (_rpos b) in
  do! put (mkByteBuffer (u64 (_rpos b + Z.of_nat n)) (_wpos b) (_storage b)) in
  ret r.

(** [read(uint8* dest, size_t len)]. *)
Definition read_bytes (len : Z) : BB (list Z) :=
  let! b := get in
  if size b <? u64 (_rpos b + len)
  then throw (ByteBufferPositionException false (_rpos b) len (size b))
  else if size b <? _rpos b + len then crash
  else
    do! put (mkByteBuffer (u64 (_rpos b + len)) (_wpos b) (_storage b)) in
    ret (take (Z.to_nat len) (drop (Z.to_nat (_rpos b)) (_storage b))).

Definition read_skip (skip : Z) : BB unit :=
  let! b := get in
  if size b <? u64 (_rpos b + skip)
  then throw (ByteBufferPositionException false (_rpos b) skip (size b))
  else put (mkByteBuffer (u64 (_rpos b + skip)) (_wpos b) (_storage b)).

Definition read_uint8 : BB Z := read 1.
Definition read_uint16 : BB Z := read 2.
Definition read_uint32 : BB Z := read 4.
Definition read_uint64 : BB Z := read 8.
(** signed reads: the same bytes in two's complement *)
Definition read_int (n : nat) : BB Z :=
  let! v := read n in ret (swrap (8 * Z.of_nat n) v).
(** [operator>>(bool&)]: [read<char>() > 0], with a signed [char]. *)
Definition read_bool : BB bool :=
  let! c := read_int 1 in ret (0 <? c).

(** [operator>>(float&)] on the value's bits: infinities and NaNs are refused
    after the cursor moved. *)
Definition isfinite32 (bits : Z) : bool := negb (Z.land (Z.shiftr bits 23) 255 =? 255).
Definition read_float : BB Z :=
  let! v := read 4 in
  if isfinite32 v then ret v else throw ByteBufferException.
Definition isfinite64 (bits : Z) : bool := negb (Z.land (Z.shiftr bits 52) 2047 =? 2047).
Definition read_double : BB Z :=
  let! v := read 8 in
  if isfinite64 v then ret v else throw ByteBufferException.

(** [operator>>(std::string&)]: up to the first zero or the end of the data.
    Each turn moves the cursor, so the bytes left are enough fuel. *)
Fixpoint read_chars (fuel : nat) (acc : list Z) : BB (list Z) :=
  match fuel with
  | O => ret acc
  | S fuel =>
    let! b := get in
    if _rpos b <? size b then
      let! c := read 1 in
      if c =? 0 then ret acc else read_chars fuel (acc ++ [c])
    else ret acc
  end.
Definition read_string : BB (list Z) :=
  let! b := get in read_chars (S (Z.to_nat (size b - _rpos b))) [].

(** ** Packed GUIDs *)

Fixpoint readPackGUID_loop (steps : nat) (i guidmark guid : Z) : BB Z :=
  match steps with
  | O => ret guid
  | S steps =>
    if negb (Z.land guidmark (u8 (Z.shiftl 1 i)) =? 0) then
      let! b := get in
      if size b <? u64 (_rpos b + 1)
      then throw (ByteBufferPositionException false (_rpos b) 1 (size b))
      else
        let! bit := read_uint8 in
        readPackGUID_loop steps (i + 1) guidmark
          (Z.lor guid (u64 (Z.shiftl bit (i * 8))))
    else readPackGUID_loop steps (i + 1) guidmark guid
  end.
Definition readPackGUID : BB Z :=
  let! b := get in
  if size b <? u64 (_rpos b + 1)
  then throw (ByteBufferPositionException false (_rpos b) 1 (size b))
  else
    let! guidmark := read_uint8 in
    readPackGUID_loop 8 0 guidmark 0.

(** The loop of [appendPackGUID]: the mark and the non-zero bytes.  A 64-bit
    GUID is zero after eight shifts. *)
Fixpoint packGUID_loop (steps : nat) (i guid mark : Z) (packed : list Z) : Z * list Z :=
  match steps with
  | O => (mark, packed)
  | S steps =>
    if guid =? 0 then (mark, packed)
    else if negb (Z.land guid 255 =? 0)
    then packGUID_loop steps (i + 1) (Z.shiftr guid 8)
           (Z.lor mark (u8 (Z.shiftl 1 i))) (packed ++ [Z.land guid 255])
    else packGUID_loop steps (i + 1) (Z.shiftr guid 8) mark packed
  end.
Definition packGUID (guid : Z) : list Z :=
  let '(mark, packed) := packGUID_loop 8 0 guid 0 [] in mark :: packed.
Definition appendPackGUID (guid : Z) : BB unit :=
  let p := packGUID guid in append (Some p) (Z.of_nat (length p)).

(** ** Packed times *)

(** The broken-down time of [<time.h>], the fields the encoding uses. *)
Record tm := mk_tm {
  tm_min : Z; tm_hour : Z; tm_mday : Z; tm_wday : Z; tm_mon : Z; tm_year : Z
}.

Definition pack_tm (lt : tm) : Z :=
  Z.lor (Z.lor (Z.lor (Z.lor (Z.lor
    (Z.shiftl (tm_year lt - 100) 24) (Z.shiftl (tm_mon lt) 20))
    (Z.shiftl (tm_mday lt - 1) 14)) (Z.shiftl (tm_wday lt) 11))
    (Z.shiftl (tm_hour lt) 6)) (tm_min lt).

Definition unpack_tm (packedDate : Z) : tm :=
  {| tm_min := Z.land packedDate 0x3F;
     tm_hour := Z.land (Z.shiftr packedDate 6) 0x1F;
     tm_mday := Z.land (Z.shiftr packedDate 14) 0x3F + 1;
     tm_wday := 0;
     tm_mon := Z.land (Z.shiftr packedDate 20) 0xF;
     tm_year := Z.land (Z.shiftr packedDate 24) 0x1F + 100 |}.

Section PackedTime.
(** the C library's calendar functions and the process' time zone *)
Context (localtime_r : Z -> tm) (mktime : tm -> Z) (timezone : Z).

Definition AppendPackedTime (time : Z) : BB unit := append_int 4 (pack_tm (localtime_r time)).
Definition ReadPackedTime : BB Z :=
  let! packedDate := read 4 in ret (u32 (mktime (unpack_tm packedDate) + timezone)).
End PackedTime.

(** ** The invariant and the abstract view

    What a buffer built by appends and consumed by reads satisfies: the write
    cursor is at the end, the read cursor inside, every cell is a byte. *)
Record wf (b : ByteBuffer) : Prop := {
  wf_wpos : _wpos b = size b;
  wf_rpos : 0 <= _rpos b <= size b;
  wf_bytes : Forall (is_u 8) (_storage b);
  wf_size : size b < 2 ^ 63
}.

Definition unread (b : ByteBuffer) : list Z := drop (Z.to_nat (_rpos b)) (_storage b).
Definition pushed (b : ByteBuffer) (bs : list Z) : ByteBuffer :=
  mkByteBuffer (_rpos b) (_wpos b + Z.of_nat (length bs)) (_storage b ++ bs).
Definition advanced (b : ByteBuffer) (k : nat) : ByteBuffer :=
  mkByteBuffer (_rpos b + Z.of_nat k) (_wpos b) (_storage b).

(** ** Containers

    [Wire A] is what the container operators need of an element type: its
    [operator<<] and [operator>>], the bytes it stands for and the values it
    can carry. *)
Class Wire (A : Type) := {
  wput : A -> BB unit;
  wget : BB A;
  wenc : A -> list Z;
  wok : A -> Prop;
  wenc_bytes : forall a, wok a -> Forall (is_u 8) (wenc a);
  wput_ok : forall a b, wok a -> wf b -> size b + Z.of_nat (length (wenc a)) <= 10000000 ->
    wput a b = (Ret tt, pushed b (wenc a));
  wget_ok : forall a b rest, wok a -> wf b -> unread b = wenc a ++ rest ->
    wget b = (Ret a, advanced b (length (wenc a)))
}.

Section Containers.
Context {A : Type} `{Wire A}.

Fixpoint write_elements (v : list A) : BB unit :=
  match v with
  | [] => ret tt
  | a :: v => do! wput a in write_elements v
  end.
(** [operator<<(ByteBuffer&, std::vector<T>)] (and the [std::list] one). *)
Definition write_vector (v : list A) : BB unit :=
  do! append_int 4 (u32 (Z.of_nat (length v))) in write_elements v.

Fixpoint read_elements (vsize : nat) (v : list A) : BB (list A) :=
  match vsize with
  | O => ret v
  | S vsize => let! t := wget in read_elements vsize (v ++ [t])
  end.
(** [operator>>(ByteBuffer&, std::vector<T>&)]. *)
Definition read_vector : BB (list A) :=
  let! vsize := read 4 in read_elements (Z.to_nat vsize) [].
End Containers.

(** An unsigned integer of [n] bytes and a C string, as element types. *)
Record uint (n : nat) := U { uval : Z }.
Arguments U {n} uval.
Arguments uval {n} _.
Record cstring := Str { chars : list Z }.

(** ** Commands against the queue

    A caller that writes byte blocks and reads integers, catching the exceptions
    of failed commands; the results are the outcomes, so that a value, each kind
    of exception with its arguments, and an access outside of the vector differ.
    The abstract machine is a first-in first-out byte queue and the number of
    bytes taken from it so far, which the exceptions show. *)
Inductive cmd := CWrite (bs : list Z) | CRead (n : nat).

Definition exec_cmd (c : cmd) : BB Z :=
  match c with
  | CWrite bs => do! append (Some bs) (Z.of_nat (length bs)) in ret 0
  | CRead n => read n
  end.
Fixpoint exec_cmds (cs : list cmd) (b : ByteBuffer) : list (outcome exn Z) :=
  match cs with
  | [] => []
  | c :: cs => let '(o, b') := exec_cmd c b in o :: exec_cmds cs b'
  end.
Fixpoint queue_cmds (cs : list cmd) (taken : Z) (q : list Z) : list (outcome exn Z) :=
  let all := taken + Z.of_nat (length q) in
  match cs with
  | [] => []
  | CWrite [] :: cs => Throw (ByteBufferSourceException all all 0) :: queue_cmds cs taken q
  | CWrite bs :: cs => Ret 0 :: queue_cmds cs taken (q ++ bs)
  | CRead n :: cs =>
    if (n <=? length q)%nat
    then Ret (le_value (take n q)) :: queue_cmds cs (taken + Z.of_nat n) (drop n q)
    else Throw (ByteBufferPositionException false taken (Z.of_nat n) all) :: queue_cmds cs taken q
  end.
Definition cmd_ok (c : cmd) : Prop :=
  match c with CWrite bs => Forall (is_u 8) bs | CRead n => Z.of_nat n < 2 ^ 62 end.
Definition cmd_bytes (c : cmd) : Z :=
  match c with CWrite bs => Z.of_nat (length bs) | CRead _ => 0 end.
Definition cmds_bytes (cs : list cmd) : Z := foldr (fun c n => cmd_bytes c + n) 0 cs.

(** ** Lemmas: wire order *)

Lemma length_le_bytes n v : length (le_bytes n v) = n.
Proof. revert v; induction n; intros; cbn; auto. Qed.

Lemma le_bytes_bytes n v : Forall (is_u 8) (le_bytes n v).
Proof.
  revert v; induction n; intros; cbn; constructor; auto.
  red; change (2 ^ 8) with 256; apply Z.mod_pos_bound; lia.
Qed.

Lemma le_value_bytes n v : le_value (le_bytes n v) = v mod 2 ^ (8 * Z.of_nat n).
Proof.
  revert v; induction n as [|n IH]; intros v; [cbn; now rewrite Z.mod_1_r|].
  cbn [le_bytes le_value]. rewrite IH.
  replace (8 * Z.of_nat (S n)) with (8 + 8 * Z.of_nat n) by lia.
  rewrite Z.pow_add_r by lia. change (2 ^ 8) with 256.
  rewrite Z.rem_mul_r by (try apply Z.pow_nonzero; lia). reflexivity.
Qed.

Lemma le_value_range l : Forall (is_u 8) l -> is_u (8 * Z.of_nat (length l)) (le_value l).
Proof.
  induction 1 as [|x l Hx Hl IH]; [unfold is_u; cbn; lia|].
  unfold is_u in *. cbn [le_value length].
  replace (8 * Z.of_nat (S (length l))) with (8 + 8 * Z.of_nat (length l)) by lia.
  rewrite Z.pow_add_r by lia. change (2 ^ 8) with 256 in *. lia.
Qed.

(** ** Lemmas: one operation on a well-formed buffer *)

Lemma length_unread b : wf b -> Z.of_nat (length (unread b)) = size b - _rpos b.
Proof. intros [? ? ? ?]; unfold unread; rewrite length_drop; unfold size in *; lia. Qed.

Lemma wf_new : wf new_buffer.
Proof. split; unfold size; cbn; try lia; constructor. Qed.

Lemma wf_pushed b bs :
  wf b -> Forall (is_u 8) bs -> size b + Z.of_nat (length bs) < 2 ^ 63 -> wf (pushed b bs).
Proof.
  intros [] ? ?; split; cbn; unfold size in *; cbn; rewrite ?length_app; try lia.
  now apply Forall_app.
Qed.

Lemma wf_advanced b k : wf b -> (k <= length (unread b))%nat -> wf (advanced b k).
Proof.
  intros Hwf Hk; pose proof (length_unread b Hwf); destruct Hwf.
  split; cbn; unfold size in *; cbn; auto; lia.
Qed.

Lemma unread_pushed b bs : wf b -> unread (pushed b bs) = unread b ++ bs.
Proof. intros []; unfold unread; cbn. rewrite drop_app_le; [done|]. unfold size in *; lia. Qed.

Lemma unread_advanced b k : wf b -> unread (advanced b k) = drop k (unread b).
Proof. intros []; unfold unread; cbn. rewrite drop_drop. f_equal. lia. Qed.

Lemma pushed_pushed b l1 l2 : pushed (pushed b l1) l2 = pushed b (l1 ++ l2).
Proof. unfold pushed; cbn. rewrite length_app, <- app_assoc. f_equal; lia. Qed.

Lemma advanced_advanced b j k : advanced (advanced b j) k = advanced b (j + k).
Proof. unfold advanced; cbn. f_equal; lia. Qed.

Lemma size_pushed b bs : size (pushed b bs) = size b + Z.of_nat (length bs).
Proof. unfold size; cbn. rewrite length_app; lia. Qed.

Lemma write_at_end (l src : list Z) (k : nat) :
  length src = k -> write_at (length l) src (resize (length l + k) 0 l) = l ++ src.
Proof.
  intros <-. unfold write_at. rewrite resize_ge by lia.
  replace (length l + length src - length l)%nat with (length src) by lia.
  rewrite take_app_length, drop_ge, app_nil_r by (rewrite length_app, length_replicate; lia).
  done.
Qed.

Lemma append_spec b bs :
  wf b -> bs <> [] -> size b < 10000000 -> size b + Z.of_nat (length bs) < 2 ^ 63 ->
  append (Some bs) (Z.of_nat (length bs)) b = (Ret tt, pushed b bs).
Proof.
  intros [Hw Hr Hb Hs] Hne Hsz Hmax. unfold append, bind, get.
  assert (0 < Z.of_nat (length bs)) by (destruct bs; cbn; [done|lia]).
  rewrite (proj2 (Z.eqb_neq _ _)) by lia.
  rewrite (proj2 (Z.ltb_lt (size b) 10000000)) by lia. cbn [negb].
  rewrite Hw, uwrap_id by (split; unfold size in *; lia).
  rewrite (proj2 (Z.ltb_lt (size b) _)) by lia.
  rewrite length_resize, Z2Nat.id, !Z.ltb_irrefl by (unfold size in *; lia). cbn [orb].
  unfold put, pushed. rewrite Hw, Nat2Z.id, take_ge by lia. do 2 f_equal.
  unfold size. rewrite Nat2Z.id.
  replace (Z.to_nat (Z.of_nat (length (_storage b)) + Z.of_nat (length bs)))
    with (length (_storage b) + length bs)%nat by lia.
  now apply write_at_end.
Qed.

Lemma append_int_spec b n v :
  wf b -> (0 < n)%nat -> size b + Z.of_nat n <= 10000000 ->
  append_int n v b = (Ret tt, pushed b (le_bytes n v)).
Proof.
  intros Hwf Hn Hs. unfold append_int. rewrite <- (length_le_bytes n v) at 2.
  apply append_spec; auto; rewrite ?length_le_bytes; try lia.
  intros E; apply (f_equal length) in E; rewrite length_le_bytes in E; cbn in E; lia.
Qed.

Lemma read_spec b n :
  wf b -> (n <= length (unread b))%nat ->
  read n b = (Ret (le_value (take n (unread b))), advanced b n).
Proof.
  intros Hwf Hn. pose proof (length_unread b Hwf) as Hl. destruct Hwf as [Hw Hr Hb Hs].
  unfold read, read_at, bind, get.
  rewrite uwrap_id by (split; lia).
  rewrite (proj2 (Z.ltb_ge (size b) _)) by lia. reflexivity.
Qed.

Lemma read_short b n :
  wf b -> (length (unread b) < n)%nat -> Z.of_nat n < 2 ^ 62 ->
  read n b = (Throw (ByteBufferPositionException false (_rpos b) (Z.of_nat n) (size b)), b).
Proof.
  intros Hwf Hn Hmax. pose proof (length_unread b Hwf) as Hl. destruct Hwf as [Hw Hr Hb Hs].
  unfold read, read_at, bind, get.
  rewrite uwrap_id by (split; lia).
  rewrite (proj2 (Z.ltb_lt (size b) _)) by lia. reflexivity.
Qed.

(** ** Element types *)

#[local] Obligation Tactic := idtac.

#[export] Program Instance uint_wire (n : nat) : Wire (uint (S n)) := {
  wput a := append_int (S n) (uval a);
  wget := let! v := read (S n) in ret (U v);
  wenc a := le_bytes (S n) (uval a);
  wok a := is_u (8 * Z.of_nat (S n)) (uval a)
}.
Next Obligation. intros; apply le_bytes_bytes. Qed.
Next Obligation.
  intros n a b _ Hwf Hs. cbv beta in Hs. rewrite length_le_bytes in Hs. apply append_int_spec; auto; lia.
Qed.
Next Obligation.
  intros n [v] b rest Hok Hwf E. cbv beta in *. cbn [uval] in *. unfold bind.
  assert (Hl : (S n <= length (unread b))%nat).
  { rewrite E, length_app, length_le_bytes; lia. }
  rewrite read_spec by assumption. unfold ret.
  rewrite E, take_app_le, take_ge, length_le_bytes by (rewrite length_le_bytes; lia).
  rewrite le_value_bytes, Z.mod_small by exact Hok. reflexivity.
Qed.

Lemma read_chars_spec s fuel acc b rest :
  wf b -> unread b = s ++ 0 :: rest -> Forall (fun c => is_u 8 c /\ c <> 0) s ->
  (length s < fuel)%nat ->
  read_chars fuel acc b = (Ret (acc ++ s), advanced b (length s + 1)).
Proof.
  revert fuel acc b; induction s as [|c s IH]; intros fuel acc b Hwf E Hs Hf;
    destruct fuel as [|fuel]; try (cbn in Hf; lia); cbn [read_chars]; unfold bind, get.
  all: pose proof (length_unread b Hwf) as Hl; rewrite E, ?length_app in Hl; cbn in Hl.
  all: rewrite (proj2 (Z.ltb_lt (_rpos b) (size b))) by lia.
  all: rewrite read_spec by (auto; rewrite E, ?length_app; cbn; lia); rewrite E.
  all: cbn [app take le_value]; rewrite Z.mul_0_r, Z.add_0_r.
  - cbn. now rewrite app_nil_r.
  - inversion_clear Hs as [|? ? [Hc Hc0] Hs'].
    rewrite (proj2 (Z.eqb_neq c 0)) by lia.
    rewrite (IH fuel (acc ++ [c]) (advanced b 1)); auto; try lia.
    + now rewrite <- app_assoc, advanced_advanced.
    + apply wf_advanced; auto. rewrite E, ?length_app; cbn; lia.
    + rewrite unread_advanced by auto. now rewrite E.
    + cbn in Hf; lia.
Qed.

Lemma write_string_spec b s :
  wf b -> Forall (is_u 8) s -> size b + Z.of_nat (length s) + 1 <= 10000000 ->
  write_string s b = (Ret tt, pushed b (s ++ [0])).
Proof.
  intros Hwf Hs Hsz. unfold write_string, bind.
  destruct s as [|c s].
  - transitivity (append_int 1 0 b); [reflexivity|]. cbn in Hsz.
    rewrite append_int_spec; auto; lia.
  - rewrite (proj2 (Z.eqb_neq _ _)) by (cbn; lia).
    rewrite append_spec by (auto; cbn in *; lia).
    rewrite append_int_spec, pushed_pushed; auto; rewrite ?size_pushed; try lia.
    apply wf_pushed; auto; lia.
Qed.

#[export] Program Instance cstring_wire : Wire cstring := {
  wput a := write_string (chars a);
  wget := let! s := read_string in ret (Str s);
  wenc a := chars a ++ [0];
  wok a := Forall (fun c => is_u 8 c /\ c <> 0) (chars a)
}.
Next Obligation.
  intros a Ha. apply Forall_app; split.
  - eapply Forall_impl; [apply Ha|]; cbn; tauto.
  - repeat constructor; unfold is_u; lia.
Qed.
Next Obligation.
  intros a b Ha Hwf Hs. apply write_string_spec; auto.
  - eapply Forall_impl; [apply Ha|]; cbn; tauto.
  - cbv beta in Hs. rewrite length_app in Hs; cbn in Hs; lia.
Qed.
Next Obligation.
  intros [s] b rest Ha Hwf E. cbn [chars] in *. rewrite <- app_assoc in E. cbn in E.
  unfold read_string, bind, get. pose proof (length_unread b Hwf) as Hl.
  rewrite E, length_app in Hl; cbn in Hl.
  rewrite (read_chars_spec s _ _ _ rest) by (auto; lia). cbn. now rewrite length_app.
Qed.

Section ContainerLemmas.
Context {A : Type} `{Wire A}.

Lemma write_elements_spec (v : list A) b :
  wf b -> Forall wok v -> size b + Z.of_nat (length (v ≫= wenc)) <= 10000000 ->
  write_elements v b = (Ret tt, pushed b (v ≫= wenc)).
Proof.
  revert b; induction v as [|a v IH]; intros b Hwf Hv Hs; cbn.
  - destruct b; unfold pushed; cbn. rewrite app_nil_r. unfold ret; do 2 f_equal; lia.
  - cbn in Hs. rewrite length_app in Hs. inversion_clear Hv.
    rewrite (bind_ret _ _ _ tt (pushed b (wenc a))) by (apply wput_ok; auto; lia).
    rewrite IH, pushed_pushed; auto.
    + apply wf_pushed; auto using wenc_bytes; lia.
    + rewrite size_pushed; lia.
Qed.

Lemma read_elements_spec (v acc : list A) b rest :
  wf b -> Forall wok v -> unread b = (v ≫= wenc) ++ rest ->
  read_elements (length v) acc b = (Ret (acc ++ v), advanced b (length (v ≫= wenc))).
Proof.
  revert acc b; induction v as [|a v IH]; intros acc b Hwf Hv E; cbn.
  - rewrite app_nil_r. destruct b; unfold advanced; cbn. unfold ret; do 2 f_equal; lia.
  - cbn in E. rewrite <- app_assoc in E. inversion_clear Hv.
    assert (Hlen : (length (wenc a) <= length (unread b))%nat) by (rewrite E, length_app; lia).
    erewrite bind_ret by (eapply wget_ok; eauto).
    rewrite IH; auto using wf_advanced.
    + now rewrite <- app_assoc, advanced_advanced, length_app.
    + rewrite unread_advanced by auto. now rewrite E, drop_app_length.
Qed.
End ContainerLemmas.

(** The bytes of a vector: its length in four bytes, then the elements. *)
#[export] Program Instance vector_wire {A} `{Wire A} : Wire (list A) := {
  wput := write_vector;
  wget := read_vector;
  wenc v := le_bytes 4 (Z.of_nat (length v)) ++ (v ≫= wenc);
  wok v := Forall wok v /\ Z.of_nat (length v) < 2 ^ 32
}.
Next Obligation.
  intros A HA v [Hv _]. apply Forall_app; split; [apply le_bytes_bytes|].
  induction Hv; cbn; [constructor|]. apply Forall_app; auto using wenc_bytes.
Qed.
Next Obligation.
  intros A HA v b [Hv Hn] Hwf Hs. cbv beta in Hs. rewrite length_app, length_le_bytes in Hs.
  unfold write_vector. rewrite uwrap_id by (split; lia).
  erewrite bind_ret by (apply append_int_spec; auto; lia).
  rewrite write_elements_spec, pushed_pushed; auto.
  - apply wf_pushed; auto using le_bytes_bytes. rewrite length_le_bytes; lia.
  - rewrite size_pushed, length_le_bytes; lia.
Qed.
Next Obligation.
  intros A HA v b rest [Hv Hn] Hwf E. cbv beta in *. rewrite <- app_assoc in E.
  assert (Hl : (4 <= length (unread b))%nat) by (rewrite E, length_app, length_le_bytes; lia).
  unfold read_vector. erewrite bind_ret by (apply read_spec; auto).
  rewrite E, take_app_le, take_ge by (rewrite length_le_bytes; lia).
  rewrite le_value_bytes, Z.mod_small, Nat2Z.id by lia.
  rewrite (read_elements_spec v [] _ rest); auto using wf_advanced.
  - now rewrite advanced_advanced, length_app, length_le_bytes.
  - rewrite unread_advanced, E by auto. reflexivity.
Qed.

(** ** Packed GUIDs: what the loops compute *)

Fixpoint guid_mark (k : nat) (i g : Z) : Z :=
  match k with
  | O => 0
  | S k => Z.lor (if Z.land g 255 =? 0 then 0 else 2 ^ i) (guid_mark k (i + 1) (Z.shiftr g 8))
  end.
Fixpoint guid_bytes (k : nat) (g : Z) : list Z :=
  match k with
  | O => []
  | S k => (if Z.land g 255 =? 0 then [] else [Z.land g 255]) ++ guid_bytes k (Z.shiftr g 8)
  end.

Lemma guid_mark_zero k i : guid_mark k i 0 = 0.
Proof. revert i; induction k as [|k IH]; intros; cbn; [done|]. now rewrite IH. Qed.
Lemma guid_bytes_zero k : guid_bytes k 0 = [].
Proof. induction k; cbn; auto. Qed.

Lemma guid_mark_low k i g j : 0 <= i -> j < i -> Z.testbit (guid_mark k i g) j = false.
Proof.
  revert i g; induction k as [|k IH]; intros i g Hi Hj; cbn; [apply Z.bits_0|].
  rewrite Z.lor_spec, IH by lia. rewrite orb_false_r.
  case_if; [apply Z.bits_0|]. rewrite testbit_pow2 by lia. apply bool_decide_eq_false; lia.
Qed.

Lemma guid_mark_range k i g : 0 <= i -> is_u (i + Z.of_nat k) (guid_mark k i g).
Proof.
  revert i g; induction k as [|k IH]; intros i g Hi; cbn [guid_mark].
  - split; [lia|]. apply Z.pow_pos_nonneg; lia.
  - specialize (IH (i + 1) (Z.shiftr g 8) ltac:(lia)).
    replace (i + 1 + Z.of_nat k) with (i + Z.of_nat (S k)) in IH by lia.
    case_if; [now rewrite Z.lor_0_l|]. destruct IH as [IH1 IH2].
    pose proof (Z.pow_pos_nonneg 2 i ltac:(lia) Hi). split; [apply Z.lor_nonneg; lia|].
    destruct (Z.eq_dec (guid_mark k (i + 1) (Z.shiftr g 8)) 0) as [->|Hnz].
    { rewrite Z.lor_0_r. apply Z.pow_lt_mono_r; lia. }
    apply Z.log2_lt_pow2.
    { assert (0 <= Z.lor (2 ^ i) (guid_mark k (i + 1) (Z.shiftr g 8)))
        by (apply Z.lor_nonneg; lia).
      assert (Z.lor (2 ^ i) (guid_mark k (i + 1) (Z.shiftr g 8)) <> 0); [|lia].
      rewrite Z.lor_eq_0_iff. lia. }
    rewrite Z.log2_lor, Z.log2_pow2 by lia. apply Z.max_lub_lt; [lia|].
    apply Z.log2_lt_pow2; lia.
Qed.

Lemma packGUID_loop_spec k i g mark packed :
  0 <= g -> 0 <= i -> i + Z.of_nat k <= 8 ->
  packGUID_loop k i g mark packed =
  (Z.lor mark (guid_mark k i g), packed ++ guid_bytes k g).
Proof.
  revert i g mark packed; induction k as [|k IH]; intros i g mark packed Hg Hi Hk; cbn.
  - now rewrite Z.lor_0_r, app_nil_r.
  - destruct (g =? 0) eqn:E0; zbool.
    { subst. cbn. rewrite guid_mark_zero, guid_bytes_zero. now rewrite Z.lor_0_r, app_nil_r. }
    assert (0 <= Z.shiftr g 8) by now apply Z.shiftr_nonneg.
    destruct (Z.land g 255 =? 0) eqn:E1; cbn [negb]; rewrite IH by lia.
    + now rewrite Z.lor_0_l.
    + rewrite Z.shiftl_1_l, uwrap_id by (split; [apply Z.pow_nonneg; lia|apply Z.pow_lt_mono_r; lia]).
      now rewrite Z.lor_assoc, <- app_assoc.
Qed.

Lemma packGUID_spec g : is_u 64 g -> packGUID g = guid_mark 8 0 g :: guid_bytes 8 g.
Proof.
  intros [Hg _]. unfold packGUID. rewrite packGUID_loop_spec by lia. now rewrite Z.lor_0_l.
Qed.

Lemma guid_bytes_length k g : (length (guid_bytes k g) <= k)%nat.
Proof.
  revert g; induction k as [|k IH]; intros; cbn; [lia|].
  rewrite length_app. specialize (IH (Z.shiftr g 8)). case_if; cbn; lia.
Qed.

Lemma land255_byte g : is_u 8 (Z.land g 255).
Proof. change 255 with (Z.ones 8). rewrite Z.land_ones by lia. apply uwrap_range; lia. Qed.

Lemma guid_bytes_bytes k g : Forall (is_u 8) (guid_bytes k g).
Proof.
  revert g; induction k; intros; cbn; [constructor|]. apply Forall_app; split; auto.
  case_if; repeat constructor; apply land255_byte.
Qed.

(** the GUID as its low byte and the rest, shifted to byte [i] *)
Lemma guid_split g i :
  0 <= i -> Z.lor (Z.shiftl (Z.land g 255) (i * 8)) (Z.shiftl (Z.shiftr g 8) ((i + 1) * 8))
            = Z.shiftl g (i * 8).
Proof.
  intros Hi. apply Z.bits_inj'. intros j Hj. change 255 with (Z.ones 8).
  rewrite Z.lor_spec, !Z.shiftl_spec, Z.land_spec by lia.
  destruct (decide (j < i * 8)); [now rewrite !(Z.testbit_neg_r _ _) by lia|].
  rewrite Z.testbit_ones_nonneg by lia.
  destruct (j - i * 8 <? 8) eqn:E; zbool.
  - rewrite andb_true_r, (Z.testbit_neg_r (Z.shiftr g 8)) by lia. now rewrite orb_false_r.
  - rewrite andb_false_r, Z.shiftr_spec, orb_false_l by lia. f_equal; lia.
Qed.

(** the mark's lowest bit and the rest of it *)
Lemma guid_mark_head k i g :
  0 <= i -> Z.testbit (guid_mark (S k) i g) i = negb (Z.land g 255 =? 0).
Proof.
  intros Hi. cbn [guid_mark]. rewrite Z.lor_spec, guid_mark_low by lia.
  case_if; cbn; [now rewrite Z.bits_0|]. now rewrite Z.pow2_bits_true by lia.
Qed.
Lemma guid_mark_tail k i g j :
  0 <= i -> i + 1 <= j ->
  Z.testbit (guid_mark (S k) i g) j = Z.testbit (guid_mark k (i + 1) (Z.shiftr g 8)) j.
Proof.
  intros Hi Hj. cbn [guid_mark]. rewrite Z.lor_spec.
  case_if; [now rewrite Z.bits_0|]. rewrite testbit_pow2 by lia.
  rewrite bool_decide_eq_false_2 by lia. reflexivity.
Qed.

Lemma shiftr8_range k g : is_u (8 * Z.of_nat (S k)) g -> is_u (8 * Z.of_nat k) (Z.shiftr g 8).
Proof.
  unfold is_u. rewrite Z.shiftr_div_pow2 by lia. change (2 ^ 8) with 256.
  replace (8 * Z.of_nat (S k)) with (8 + 8 * Z.of_nat k) by lia.
  rewrite Z.pow_add_r by lia. change (2 ^ 8) with 256. intros.
  split; [apply Z.div_pos; lia|apply Z.div_lt_upper_bound; lia].
Qed.

Lemma pow2_u8 i : 0 <= i < 8 -> u8 (2 ^ i) = 2 ^ i.
Proof. intros. apply uwrap_id; split; [apply Z.pow_nonneg; lia|apply Z.pow_lt_mono_r; lia]. Qed.

Lemma byte_shift_u64 v i : is_u 8 v -> 0 <= i < 8 -> u64 (Z.shiftl v (i * 8)) = Z.shiftl v (i * 8).
Proof.
  intros Hv Hi. apply uwrap_id. unfold is_u in *. rewrite Z.shiftl_mul_pow2 by lia.
  assert (2 ^ (i * 8) <= 2 ^ 56) by (apply Z.pow_le_mono_r; lia).
  assert (0 < 2 ^ (i * 8)) by (apply Z.pow_pos_nonneg; lia).
  change (2 ^ 64) with (2 ^ 8 * 2 ^ 56). nia.
Qed.

(** the code's test before each byte read never fires on data that is there *)
Lemma one_byte_left b : wf b -> unread b <> [] -> (size b <? u64 (_rpos b + 1)) = false.
Proof.
  intros Hwf Hne. pose proof (length_unread b Hwf). destruct Hwf as [? ? ? ?].
  destruct (unread b); [done|]. cbn [length] in *. rewrite uwrap_id by (split; lia).
  apply Z.ltb_ge; lia.
Qed.

Lemma readPackGUID_loop_spec k i g m acc b rest :
  wf b -> 0 <= i -> i + Z.of_nat k <= 8 -> is_u (8 * Z.of_nat k) g ->
  (forall j, i <= j -> Z.testbit m j = Z.testbit (guid_mark k i g) j) ->
  unread b = guid_bytes k g ++ rest ->
  readPackGUID_loop k i m acc b =
  (Ret (Z.lor acc (Z.shiftl g (i * 8))), advanced b (length (guid_bytes k g))).
Proof.
  revert i g acc b; induction k as [|k IH]; intros i g acc b Hwf Hi Hk Hg Hm E.
  - cbn. replace g with 0 by (unfold is_u in Hg; cbn in Hg; lia).
    rewrite Z.shiftl_0_l, Z.lor_0_r. destruct b; unfold advanced, ret; cbn. do 2 f_equal; lia.
  - assert (Hm' : forall j, i + 1 <= j ->
              Z.testbit m j = Z.testbit (guid_mark k (i + 1) (Z.shiftr g 8)) j).
    { intros j Hj. rewrite Hm by lia. apply guid_mark_tail; lia. }
    pose proof (shiftr8_range k g Hg) as Hg'.
    cbn [readPackGUID_loop]. rewrite Z.shiftl_1_l, pow2_u8, land_pow2_nonzero by lia.
    rewrite Hm, guid_mark_head, !negb_involutive by lia.
    cbn [guid_bytes] in *. destruct (Z.land g 255 =? 0) eqn:E1; cbn [negb app length] in *.
    + rewrite (IH (i + 1) (Z.shiftr g 8)) by (auto; lia). rewrite <- (guid_split g i) by lia.
      zbool. rewrite E1, Z.shiftl_0_l, Z.lor_0_l. reflexivity.
    + unfold bind at 1, get at 1. rewrite one_byte_left by (first [assumption | rewrite E; discriminate]).
      unfold read_uint8. erewrite bind_ret by (apply read_spec; auto; rewrite E; cbn; lia).
      rewrite E. cbn [take le_value app]. rewrite Z.mul_0_r, Z.add_0_r.
      rewrite byte_shift_u64 by (auto using land255_byte; lia).
      rewrite (IH (i + 1) (Z.shiftr g 8)); auto; try lia.
      * rewrite advanced_advanced, <- Z.lor_assoc, guid_split by lia. reflexivity.
      * apply wf_advanced; auto. rewrite E; cbn; lia.
      * rewrite unread_advanced, E by auto. reflexivity.
Qed.

Lemma appendPackGUID_spec b g :
  wf b -> is_u 64 g -> size b < 10000000 ->
  appendPackGUID g b = (Ret tt, pushed b (packGUID g)).
Proof.
  intros Hwf Hg Hs. unfold appendPackGUID. pose proof (guid_bytes_length 8 g).
  apply append_spec; auto; rewrite packGUID_spec by auto; [done|]. cbn [length]; lia.
Qed.

Lemma packGUID_bytes g : is_u 64 g -> Forall (is_u 8) (packGUID g).
Proof.
  intros Hg. rewrite packGUID_spec by auto. constructor; [|apply guid_bytes_bytes].
  exact (guid_mark_range 8 0 g ltac:(lia)).
Qed.

Lemma readPackGUID_spec b g rest :
  wf b -> is_u 64 g -> unread b = packGUID g ++ rest ->
  readPackGUID b = (Ret g, advanced b (length (packGUID g))).
Proof.
  intros Hwf Hg E. rewrite packGUID_spec in * by auto.
  unfold readPackGUID. unfold bind at 1, get at 1. rewrite one_byte_left by (first [assumption | rewrite E; discriminate]).
  unfold read_uint8. erewrite bind_ret by (apply read_spec; auto; rewrite E; cbn [app length]; lia).
  rewrite E. cbn [take le_value app]. rewrite Z.mul_0_r, Z.add_0_r.
  rewrite (readPackGUID_loop_spec 8 0 g _ 0 _ rest); auto; try lia.
  - rewrite advanced_advanced, Z.lor_0_l, Z.shiftl_0_r. reflexivity.
  - apply wf_advanced; auto. rewrite E; cbn [app length]; lia.
  - rewrite unread_advanced, E by auto. reflexivity.
Qed.

(** ** Safe operations: they keep the invariant and never leave the vector *)

Definition safe {A} (m : BB A) : Prop :=
  forall b, wf b -> fst (m b) <> Crash /\ wf (snd (m b)).

Lemma safe_ret {A} (a : A) : safe (ret a).
Proof. intros b Hb; now split. Qed.
Lemma safe_throw {A} e : safe (throw e : BB A).
Proof. intros b Hb; now split. Qed.
Lemma safe_get : safe get.
Proof. intros b Hb; now split. Qed.
Lemma safe_bind {A B} (m : BB A) (k : A -> BB B) :
  safe m -> (forall a, safe (k a)) -> safe (bind m k).
Proof.
  intros Hm Hk b Hb. unfold bind. destruct (Hm b Hb) as [H1 H2].
  destruct (m b) as [[a|e|] b'] eqn:E; cbn in *; [now apply Hk|now split|done].
Qed.
Lemma safe_if {A} (c : bool) (m1 m2 : BB A) : safe m1 -> safe m2 -> safe (if c then m1 else m2).
Proof. now destruct c. Qed.
Lemma safe_read n : Z.of_nat n < 2 ^ 62 -> safe (read n).
Proof.
  intros Hn b Hb. destruct (decide (n <= length (unread b))%nat) as [Hl|Hl].
  - rewrite read_spec by auto. split; [done|]. now apply wf_advanced.
  - rewrite read_short by (auto; lia). now split.
Qed.
#[export] Hint Resolve safe_ret safe_throw safe_get safe_bind safe_if : trinity.

Lemma safe_read_bytes len : 0 <= len < 2 ^ 62 -> safe (read_bytes len).
Proof.
  intros Hl b Hb. pose proof Hb as [Hw Hr Hy Hs].
  unfold read_bytes, bind, get. rewrite uwrap_id by (split; lia).
  destruct (size b <? _rpos b + len) eqn:E; zbool; split; try done.
  split; cbn; unfold size in *; cbn; auto; lia.
Qed.
Lemma safe_read_skip len : 0 <= len < 2 ^ 62 -> safe (read_skip len).
Proof.
  intros Hl b Hb. pose proof Hb as [Hw Hr Hy Hs].
  unfold read_skip, bind, get. rewrite uwrap_id by (split; lia).
  destruct (size b <? _rpos b + len) eqn:E; zbool; split; try done.
  split; cbn; unfold size in *; cbn; auto; lia.
Qed.
Lemma safe_read_chars fuel acc : safe (read_chars fuel acc).
Proof.
  revert acc; induction fuel as [|fuel IH]; intros acc; cbn [read_chars]; auto with trinity.
  apply safe_bind; [apply safe_get|]; intros b. apply safe_if; [|apply safe_ret].
  apply safe_bind; [apply safe_read; lia|]; intros c. auto with trinity.
Qed.
Lemma safe_readPackGUID_loop k i m acc : safe (readPackGUID_loop k i m acc).
Proof.
  revert i acc; induction k as [|k IH]; intros i acc; cbn [readPackGUID_loop]; auto with trinity.
  apply safe_if; auto. apply safe_bind; [apply safe_get|]; intros b.
  apply safe_if; [apply safe_throw|]. apply safe_bind; [apply safe_read; lia|]; auto.
Qed.

Lemma safe_read_string : safe read_string.
Proof. apply safe_bind; auto using safe_read_chars with trinity. Qed.
Lemma safe_readPackGUID : safe readPackGUID.
Proof.
  apply safe_bind; [apply safe_get|]; intros b. apply safe_if; [apply safe_throw|].
  apply safe_bind; [apply safe_read; lia|]; auto using safe_readPackGUID_loop.
Qed.
Lemma safe_read_check {A} (n : nat) (k : Z -> BB A) :
  Z.of_nat n < 2 ^ 62 -> (forall v, safe (k v)) -> safe (let! v := read n in k v).
Proof. intros; apply safe_bind; auto using safe_read. Qed.

Lemma cmds_bytes_nonneg cs : 0 <= cmds_bytes cs.
Proof. induction cs as [|[bs|n] cs IH]; unfold cmds_bytes in *; cbn; lia. Qed.

(** ** Theorems *)

(** C25. A byte buffer refines a first-in first-out byte queue: for every
    sequence of block writes and integer reads (a read that fails is caught and
    the caller goes on) whose writes stay within the 10,000,000 byte limit of
    the class, the outcomes the buffer gives are those of the queue that holds
    the unread bytes.  A read that asks for more than is there throws the
    position exception with the cursor, the bytes asked for and the bytes there
    are, an empty block throws the source exception, both change nothing, and
    nothing else throws or reaches outside of the vector. *)
Theorem bytebuffer_refines_queue cs b :
  wf b -> Forall cmd_ok cs -> size b + cmds_bytes cs <= 10000000 ->
  exec_cmds cs b = queue_cmds cs (_rpos b) (unread b).
Proof.
  revert b; induction cs as [|[bs|n] cs IH]; intros b Hwf Hok Hs; cbn [exec_cmds exec_cmd]; auto.
  all: pose proof (length_unread b Hwf) as Hl.
  - inversion_clear Hok as [|? ? Hbs Hcs]. cbn in Hs, Hbs. fold (cmds_bytes cs) in Hs.
    pose proof (cmds_bytes_nonneg cs).
    destruct bs as [|x bs].
    + assert (E : append (Some []) 0 b = (Throw (ByteBufferSourceException (_wpos b) (size b) 0), b)) by done.
      rewrite (bind_throw _ _ _ _ _ E), (wf_wpos b Hwf). cbn [queue_cmds].
      f_equal; [do 2 f_equal; lia|now apply IH].
    + erewrite bind_ret by (apply append_spec; auto; cbn in *; lia).
      cbn -[pushed]. f_equal. rewrite IH, unread_pushed; auto.
      * apply wf_pushed; auto; cbn in *; lia.
      * rewrite size_pushed; cbn in *; lia.
  - inversion_clear Hok as [|? ? Hn Hcs]. cbn in Hs, Hn. cbn [queue_cmds].
    destruct (Nat.leb_spec n (length (unread b))).
    + rewrite read_spec by auto. f_equal.
      rewrite IH, unread_advanced; auto using wf_advanced.
    + rewrite read_short by auto. f_equal; [do 2 f_equal; lia|now apply IH].
Qed.

Definition cmds_example : list cmd := [CRead 1; CWrite [1; 2; 3]; CRead 2; CRead 2; CWrite [4]; CRead 2].
Lemma bytebuffer_refines_queue_witness :
  exec_cmds cmds_example new_buffer =
    [Throw (ByteBufferPositionException false 0 1 0); Ret 0; Ret 513;
     Throw (ByteBufferPositionException false 2 2 3); Ret 0; Ret 1027].
Proof.
  rewrite (bytebuffer_refines_queue cmds_example new_buffer wf_new); [reflexivity| |].
  - repeat constructor; unfold is_u; lia.
  - vm_compute; discriminate.
Defined.

(** Every read of the class keeps a well-formed buffer well formed and
    never touches memory outside the vector, whatever bytes a client sent: raw
    reads, skips, strings, packed GUIDs, floats. *)
Theorem reads_are_safe (n : nat) (len : Z) :
  Z.of_nat n < 2 ^ 62 -> 0 <= len < 2 ^ 62 ->
  safe (read n) /\ safe (read_bytes len) /\ safe (read_skip len) /\
  safe read_string /\ safe readPackGUID /\ safe read_float /\ safe read_double /\ safe read_bool.
Proof.
  intros Hn Hl.
  split_and!; auto using safe_read, safe_read_bytes, safe_read_skip, safe_read_string,
    safe_readPackGUID.
  1,2: apply safe_read_check; auto with trinity; lia.
  apply safe_bind; [apply safe_read_check|]; auto with trinity; lia.
Qed.

Lemma reads_are_safe_witness : safe (read 4) /\ safe (read_bytes 16) /\ safe readPackGUID.
Proof. destruct (reads_are_safe 4 16 ltac:(lia) ltac:(lia)) as (? & ? & _ & _ & ? & _); auto. Defined.

(** A vector written with [operator<<] is read back by [operator>>] as the
    same vector, for every element type that keeps the [Wire] contract (the
    integers, the strings and, since the instance nests, vectors of vectors):
    the buffer's whole unread content is consumed. *)
Theorem vector_roundtrip {A} `{Wire A} (v : list A) b :
  wf b -> unread b = [] -> Forall wok v -> Z.of_nat (length v) < 2 ^ 32 ->
  size b + Z.of_nat (length (wenc v)) <= 10000000 ->
  exists b1 b2, write_vector v b = (Ret tt, b1) /\ read_vector b1 = (Ret v, b2) /\
                wf b2 /\ unread b2 = [].
Proof.
  intros Hwf He Hv Hn Hs. assert (Hok : wok v) by now split.
  pose proof (wput_ok v b Hok Hwf Hs) as Hput. cbn in Hput.
  assert (Hwf1 : wf (pushed b (wenc v))) by (apply wf_pushed; auto using wenc_bytes; lia).
  assert (E1 : unread (pushed b (wenc v)) = wenc v ++ [])
    by now rewrite unread_pushed, He, app_nil_r.
  pose proof (wget_ok v _ [] Hok Hwf1 E1) as Hget.
  rewrite app_nil_r in E1. do 2 eexists. split_and!; [apply Hput|apply Hget|..].
  - apply wf_advanced; auto. now rewrite E1.
  - rewrite unread_advanced by auto. rewrite E1. now rewrite drop_ge.
Qed.

Definition names_example : list (list cstring) := [[Str [65; 66]; Str []]; []; [Str [67]]].
Lemma vector_roundtrip_witness :
  exists b1 b2, write_vector names_example new_buffer = (Ret tt, b1) /\
                read_vector b1 = (Ret names_example, b2) /\ wf b2 /\ unread b2 = [].
Proof.
  apply (vector_roundtrip names_example new_buffer wf_new); try reflexivity.
  - repeat constructor; cbn; unfold is_u; lia.
  - vm_compute; discriminate.
Defined.

(** A GUID written packed is read back unchanged, and takes one mark byte
    and at most eight more. *)
Theorem packGUID_roundtrip g b :
  wf b -> unread b = [] -> is_u 64 g -> size b < 10000000 ->
  exists b1 b2, appendPackGUID g b = (Ret tt, b1) /\ readPackGUID b1 = (Ret g, b2) /\
                unread b2 = [] /\ size b + 1 <= size b1 <= size b + 9.
Proof.
  intros Hwf He Hg Hs. pose proof (guid_bytes_length 8 g) as Hlen.
  assert (Hl : (1 <= length (packGUID g) <= 9)%nat)
    by (rewrite packGUID_spec by auto; cbn [length]; lia).
  assert (Hwf1 : wf (pushed b (packGUID g))) by (apply wf_pushed; auto using packGUID_bytes; lia).
  assert (E1 : unread (pushed b (packGUID g)) = packGUID g)
    by now rewrite unread_pushed, He.
  do 2 eexists. split_and!.
  - now apply appendPackGUID_spec.
  - apply (readPackGUID_spec _ g []); auto. now rewrite app_nil_r.
  - rewrite unread_advanced by auto. rewrite E1. now rewrite drop_ge.
  - rewrite size_pushed; lia.
  - rewrite size_pushed; lia.
Qed.

Lemma packGUID_roundtrip_witness :
  exists b1 b2, appendPackGUID 0xF130000A00000001 new_buffer = (Ret tt, b1) /\
    readPackGUID b1 = (Ret 0xF130000A00000001, b2) /\ unread b2 = [] /\ 1 <= size b1 <= 9.
Proof.
  apply (packGUID_roundtrip 0xF130000A00000001 new_buffer wf_new); [reflexivity|split; lia|].
  reflexivity.
Defined.

(** Every calendar minute of the years 2000 to 2031 survives the packed
    time encoding: the fields read back are the fields written (the week day is
    written and not read). *)
Theorem packed_time_roundtrip lt :
  0 <= tm_min lt < 60 -> 0 <= tm_hour lt < 24 -> 1 <= tm_mday lt <= 31 ->
  0 <= tm_wday lt < 7 -> 0 <= tm_mon lt < 12 -> 100 <= tm_year lt < 132 ->
  is_u 32 (pack_tm lt) /\
  unpack_tm (pack_tm lt) =
    mk_tm (tm_min lt) (tm_hour lt) (tm_mday lt) 0 (tm_mon lt) (tm_year lt).
Proof.
  destruct lt as [mi h d w mo y]; cbn [tm_min tm_hour tm_mday tm_wday tm_mon tm_year].
  intros. unfold pack_tm, is_u; cbn [tm_min tm_hour tm_mday tm_wday tm_mon tm_year].
  rewrite !Z.shiftl_mul_pow2 by lia.
  rewrite (lor_disjoint_add ((y - 100) * 2 ^ 24) (mo * 2 ^ 20) 24) by div_lia.
  rewrite (lor_disjoint_add _ ((d - 1) * 2 ^ 14) 20) by div_lia.
  rewrite (lor_disjoint_add _ (w * 2 ^ 11) 14) by div_lia.
  rewrite (lor_disjoint_add _ (h * 2 ^ 6) 11) by div_lia.
  rewrite (lor_disjoint_add _ mi 6) by div_lia.
  split; [lia|]. unfold unpack_tm.
  change 0x3F with (Z.ones 6). change 0x1F with (Z.ones 5). change 0xF with (Z.ones 4).
  rewrite !Z.land_ones, !Z.shiftr_div_pow2 by lia. f_equal; div_lia.
Qed.

Lemma packed_time_roundtrip_witness :
  unpack_tm (pack_tm (mk_tm 59 23 31 6 11 131)) = mk_tm 59 23 31 0 11 131.
Proof.
  destruct (packed_time_roundtrip (mk_tm 59 23 31 6 11 131)) as [_ H]; cbn; try lia. exact H.
Defined.
