(* ===== verification/Multimap.v ===== *)
(** * std::multimap with integer keys

    The ordered multimap that [EventMap] and [EventProcessor] keep their events
    in: a list of key/value pairs in key order, equal keys in insertion order
    (an insertion goes to the upper bound of its key).  The operations are the
    ones the sources use; the lemmas are the ones the two schedulers share. *)

From stdpp Require Import base gmap list sorting.
From Stdlib Require Import ZArith Lia.
From S2P Require Import Prelude.
#[local] Open Scope Z_scope.

Section Multimap.
Context {V : Type}.
Implicit Types (l : list (Z * V)).

Fixpoint mm_insert (k : Z) (v : V) l : list (Z * V) :=
  match l with
  | [] => [(k, v)]
  | (k', v') :: l => if k <? k' then (k, v) :: (k', v') :: l else (k', v') :: mm_insert k v l
  end.

(** [m.insert(first, last)]: one insertion after the other. *)
Definition mm_insert_all (news l : list (Z * V)) : list (Z * V) :=
  foldl (fun m e => mm_insert e.1 e.2 m) l news.

(** Erasing, in a pass over the map, what a test selects. *)
Definition mm_erase_if (f : Z * V -> bool) l : list (Z * V) := filter (fun e => f e = false) l.

Definition mm_sorted l : Prop := StronglySorted (fun a b => a.1 <= b.1) l.

Lemma mm_insert_perm k v l : mm_insert k v l ≡ₚ (k, v) :: l.
Proof.
  induction l as [|[k' v'] l IH]; cbn; [done|]. case_if; [done|].
  rewrite IH. constructor.
Qed.

Lemma mm_insert_all_perm news l : mm_insert_all news l ≡ₚ news ++ l.
Proof.
  unfold mm_insert_all. revert l; induction news as [|[k v] news IH]; intros l; cbn; [done|].
  rewrite IH, mm_insert_perm. now rewrite Permutation_middle.
Qed.

Lemma mm_insert_sorted k v l : mm_sorted l -> mm_sorted (mm_insert k v l).
Proof.
  unfold mm_sorted. induction 1 as [|[k' v'] l Hl IH Hall]; cbn; [repeat constructor|].
  case_if; zbool.
  - constructor; [now constructor|]. constructor; [cbn; lia|].
    eapply Forall_impl; [apply Hall|]. cbn; lia.
  - constructor; [assumption|]. rewrite mm_insert_perm. constructor; [cbn; lia|done].
Qed.

Lemma mm_insert_all_sorted news l : mm_sorted l -> mm_sorted (mm_insert_all news l).
Proof.
  unfold mm_insert_all. revert l; induction news as [|[k v] news IH]; intros l Hl; cbn;
    auto using mm_insert_sorted.
Qed.

Lemma mm_erase_if_sorted f l : mm_sorted l -> mm_sorted (mm_erase_if f l).
Proof.
  unfold mm_sorted, mm_erase_if. induction 1 as [|e l Hl IH Hall]; [constructor|].
  rewrite filter_cons. case_decide; [|done]. constructor; [done|].
  rewrite Forall_forall in *. intros x [_ Hx]%list_elem_of_filter. now apply Hall.
Qed.

Lemma mm_sublist_sorted l1 l2 : sublist l1 l2 -> mm_sorted l2 -> mm_sorted l1.
Proof.
  unfold mm_sorted. induction 1 as [|e l1 l2 Hs IH|e l1 l2 Hs IH]; [constructor|inversion_clear 1..]; auto.
  constructor; [auto|]. rewrite Forall_forall in *. intros x Hx.
  eapply elem_of_sublist in Hx; eauto.
Qed.

Lemma mm_tail_sorted e l : mm_sorted (e :: l) -> mm_sorted l.
Proof. now inversion 1. Qed.

Lemma mm_head_least e l x : mm_sorted (e :: l) -> x ∈ l -> e.1 <= x.1.
Proof. inversion_clear 1 as [|? ? ? Hall]. rewrite Forall_forall in Hall. apply Hall. Qed.

Lemma elem_of_mm_insert k v l x : x ∈ mm_insert k v l <-> x = (k, v) \/ x ∈ l.
Proof. rewrite mm_insert_perm. apply elem_of_cons. Qed.

Lemma mm_insert_Forall (P : Z * V -> Prop) k v l : P (k, v) -> Forall P l -> Forall P (mm_insert k v l).
Proof. intros. rewrite mm_insert_perm. now constructor. Qed.

Lemma elem_of_mm_erase_if f l x : x ∈ mm_erase_if f l <-> f x = false /\ x ∈ l.
Proof. unfold mm_erase_if. now rewrite list_elem_of_filter. Qed.

Lemma mm_erase_if_split f l : l ≡ₚ mm_erase_if f l ++ filter (fun e => f e = true) l.
Proof.
  unfold mm_erase_if. induction l as [|e l IH]; [done|]. rewrite !filter_cons.
  destruct (f e) eqn:E; repeat case_decide; try done.
  - rewrite <- Permutation_middle. now constructor.
  - cbn. now constructor.
Qed.
End Multimap.

#[export] Hint Resolve mm_insert_sorted mm_insert_all_sorted mm_erase_if_sorted mm_tail_sorted : trinity.
