(* ===== verification/StdMap.v ===== *)
(** * std::map and std::set as finite maps walked in key order

    A [std::map] is a [gmap]; what the C++ code adds to it is that a walk visits
    the entries in the order of the keys.  [keys] and [entries] are that walk for
    any total order on the keys; the orders used are [Z.le] and the byte-wise
    order [text_le] of [std::string].  [entry_at] is [operator[]], which makes a
    default element for a missing key. *)

From stdpp Require Import base gmap list sorting.
From Stdlib Require Import ZArith Lia.
From S2P Require Import Prelude.
#[local] Open Scope Z_scope.

(** ** The order of texts *)

Fixpoint text_leb (a b : list Z) : bool :=
  match a, b with
  | [], _ => true
  | _ :: _, [] => false
  | x :: a, y :: b => (x <? y) || ((x =? y) && text_leb a b)
  end.
Definition text_le (a b : list Z) : Prop := text_leb a b = true.

#[export] Instance text_le_dec : RelDecision text_le.
Proof. intros a b. unfold text_le. apply _. Defined.
#[export] Instance text_le_total : Total text_le.
Proof.
  intros a; induction a as [|x a IH]; intros [|y b]; [now left|now left|now right|].
  unfold text_le; cbn. destruct (Z.lt_trichotomy x y) as [H|[->|H]].
  - left. now apply Z.ltb_lt in H as ->.
  - rewrite Z.ltb_irrefl, Z.eqb_refl. apply IH.
  - right. now apply Z.ltb_lt in H as ->.
Qed.
#[export] Instance text_le_trans : Transitive text_le.
Proof.
  unfold text_le. intros a; induction a as [|x a IH]; intros [|y b] [|z c]; cbn; try easy.
  rewrite !orb_true_iff, !andb_true_iff, !Z.ltb_lt, !Z.eqb_eq.
  intros [?|[-> ?]] [?|[-> ?]]; [left; lia|now left|now left|].
  right. split; [done|]. now apply (IH b).
Qed.
#[export] Instance text_le_antisym : AntiSymm (=) text_le.
Proof.
  unfold text_le. intros a; induction a as [|x a IH]; intros [|y b]; cbn; try easy.
  rewrite !orb_true_iff, !andb_true_iff, !Z.ltb_lt, !Z.eqb_eq.
  intros [?|[-> ?]] [?|[? ?]]; try lia. f_equal. now apply IH.
Qed.

(** ** Walks *)

Section Walk.
Context `{Countable K} (R : relation K) `{!RelDecision R}.

Definition set_order (X : gset K) : list K := merge_sort R (elements X).
Definition keys {A} (m : gmap K A) : list K := set_order (dom m).
Definition entries {A} (m : gmap K A) : list (K * A) :=
  omap (fun k => pair k <$> m !! k) (keys m).

Lemma elem_of_set_order X k : k ∈ set_order X <-> k ∈ X.
Proof. unfold set_order. now rewrite merge_sort_Permutation, elem_of_elements. Qed.
Lemma NoDup_set_order X : NoDup (set_order X).
Proof. unfold set_order. rewrite merge_sort_Permutation. apply NoDup_elements. Qed.
Lemma length_set_order X : length (set_order X) = base.size X.
Proof. unfold set_order. now rewrite merge_sort_Permutation. Qed.

Lemma elem_of_keys {A} (m : gmap K A) k : k ∈ keys m <-> is_Some (m !! k).
Proof. unfold keys. rewrite elem_of_set_order. apply elem_of_dom. Qed.
Lemma NoDup_keys {A} (m : gmap K A) : NoDup (keys m).
Proof. apply NoDup_set_order. Qed.
Lemma length_keys {A} (m : gmap K A) : length (keys m) = base.size m.
Proof. unfold keys. now rewrite length_set_order, size_dom. Qed.

Lemma elem_of_entries {A} (m : gmap K A) k v : (k, v) ∈ entries m <-> m !! k = Some v.
Proof.
  unfold entries. rewrite list_elem_of_omap. split.
  - intros (k' & _ & E). destruct (m !! k') eqn:Ek; cbn in E; [|done]. congruence.
  - intros E. exists k. rewrite elem_of_keys, E. eauto.
Qed.

Lemma omap_fst {A} (m : gmap K A) l :
  (forall k, k ∈ l -> is_Some (m !! k)) -> map fst (omap (fun k => pair k <$> m !! k) l) = l.
Proof.
  induction l as [|k l IH]; intros Hl; [done|]. cbn.
  destruct (Hl k) as [v ->]; [left|]. cbn. f_equal. apply IH. intros k' Hk. apply Hl. now right.
Qed.
Lemma entries_fst {A} (m : gmap K A) : map fst (entries m) = keys m.
Proof. apply omap_fst. intros k. now rewrite elem_of_keys. Qed.
Lemma NoDup_entries_fst {A} (m : gmap K A) : NoDup (map fst (entries m)).
Proof. rewrite entries_fst. apply NoDup_keys. Qed.
Lemma length_entries {A} (m : gmap K A) : length (entries m) = base.size m.
Proof. rewrite <- (length_map fst), entries_fst. apply length_keys. Qed.
Lemma list_to_map_entries {A} (m : gmap K A) : list_to_map (entries m) = m.
Proof.
  apply map_eq. intros k. destruct (m !! k) as [v|] eqn:E.
  - apply elem_of_list_to_map_1; [apply NoDup_entries_fst|]. now apply elem_of_entries.
  - apply not_elem_of_list_to_map_1. change (list_fmap _ _ fst (entries m)) with (map fst (entries m)).
    rewrite entries_fst, elem_of_keys, E. now intros [? ?].
Qed.

(** Writing new values in the order of a walk. *)
Definition with_values {A} (m : gmap K A) (l : list A) : gmap K A := list_to_map (zip (keys m) l).

Lemma entries_nil {A} (m : gmap K A) : entries m = [] <-> m = ∅.
Proof.
  rewrite <- map_size_empty_iff, <- length_entries. destruct (entries m); cbn; split; congruence.
Qed.
Lemma entries_empty {A} : entries (∅ : gmap K A) = [].
Proof. now apply entries_nil. Qed.

Lemma omap_entries {A} (m : gmap K A) (z : list (K * A)) :
  (forall e, e ∈ z -> m !! e.1 = Some e.2) -> omap (fun k => pair k <$> m !! k) (map fst z) = z.
Proof.
  induction z as [|[k v] z IH]; intros Hz; [done|].
  cbn. rewrite (Hz (k, v) (list_elem_of_here _ _) : m !! k = Some v). cbn. f_equal. apply IH. intros e He. apply Hz. now right.
Qed.

Lemma entries_with_values {A} (m : gmap K A) (l : list A) :
  length l = base.size m -> entries (with_values m l) = zip (keys m) l.
Proof.
  intros Hl. assert (Hf : map fst (zip (keys m) l) = keys m) by (apply fst_zip; rewrite length_keys; lia).
  assert (Hn : NoDup (map fst (zip (keys m) l))) by (rewrite Hf; apply NoDup_keys).
  assert (Hk : keys (with_values m l) = keys m).
  { unfold keys. f_equal. unfold with_values. rewrite dom_list_to_map_L.
    change (fst <$> zip (keys m) l) with (map fst (zip (keys m) l)). rewrite Hf.
    unfold keys. apply set_eq. intros k. now rewrite elem_of_list_to_set, elem_of_set_order. }
  unfold entries. rewrite Hk. rewrite <- Hf at 1. apply omap_entries.
  intros [k v] He. now apply elem_of_list_to_map_1.
Qed.
End Walk.

(** [m\[k\]] as a value; the element it would insert is the default one. *)
Definition entry_at `{Countable K} {A} (d : A) (m : gmap K A) (k : K) : A := default d (m !! k).
