(* ===== verification/Columns.v ===== *)
(** * Text columns of the databases (sql/base/characters_database.sql)

    A [varchar] or [text] column keeps as much of a text as it has room for.  What the
    database does is outside of the program; the components that store texts use this
    class of it, for a server that is not in its strict mode: a statement with a
    longer text is carried out and the end of the text is left out. *)

From stdpp Require Import base list.
From Stdlib Require Import ZArith Lia.
From S2P Require Import Prelude.
#[local] Open Scope Z_scope.

(** [held n s]: what a column for [n] characters has of the text [s]. *)
Class TextColumns := held : Z -> list Z -> list Z.
(** Characters of one byte are kept as they are, the beginning of a longer text, and
    what was kept once. *)
Class TextColumnLaws `{columns : TextColumns} : Prop := mkTextColumnLaws {
  held_short n s : Forall (fun c => 0 < c < 128) s -> zlen s <= n -> held n s = s;
  held_prefix n s : held n s `prefix_of` s;
  held_again n s : held n (held n s) = held n s
}.

Section Held.
Context `{laws : TextColumnLaws}.
Lemma held_less n s : zlen (held n s) <= zlen s.
Proof. destruct (held_prefix n s) as [t E]. rewrite E at 2. unfold zlen. rewrite length_app. lia. Qed.
Lemma held_nil n : held n [] = [].
Proof. destruct (held_prefix n []) as [t E]. now destruct (held n []). Qed.
End Held.

(** The first [n] bytes. *)
Definition cut_columns : TextColumns := fun n s => take (Z.to_nat n) s.
Lemma cut_laws : TextColumnLaws (columns := cut_columns).
Proof.
  split; unfold held, cut_columns.
  - intros n s _ H. apply take_ge. unfold zlen in H. lia.
  - intros n s. apply prefix_take.
  - intros n s. rewrite take_take. f_equal. lia.
Qed.
