(* ===== verification/Names.v ===== *)
(** * Names of characters, pets and charters
    (src/server/game/Globals/ObjectMgr.cpp, Util.cpp)

    The checks a name must pass and the forms in which it is compared.
    [Utf8toWStr] and [WStrToUtf8] end in the utf8 library of dep/, which is a
    parameter: a decoder of byte strings to code units, undefined on invalid
    input.  The configuration of the realm is a record. *)

From stdpp Require Import base list gmap.
From Stdlib Require Import ZArith Lia.
From S2P Require Import Prelude Util.
#[local] Open Scope Z_scope.

Record NameConfig := {
  CONFIG_REALM_ZONE : Z;
  CONFIG_STRICT_PLAYER_NAMES : Z; CONFIG_MIN_PLAYER_NAME : Z;
  CONFIG_STRICT_CHARTER_NAMES : Z; CONFIG_MIN_CHARTER_NAME : Z;
  CONFIG_STRICT_PET_NAMES : Z; CONFIG_MIN_PET_NAME : Z
}.

(** ** The alphabet of the realm *)

Definition LT_BASIC_LATIN : Z := 0x0000.
Definition LT_EXTENDEN_LATIN : Z := 0x0001.
Definition LT_CYRILLIC : Z := 0x0002.
Definition LT_EAST_ASIA : Z := 0x0004.
Definition LT_ANY : Z := 0xFFFF.

Definition GetRealmLanguageType (zone : Z) (create : bool) : Z :=
  if bool_decide (zone ∈ [0; 1; 26; 28]) then LT_ANY
  else if bool_decide (zone ∈ [2; 3; 4; 8; 9; 10; 11]) then LT_EXTENDEN_LATIN
  else if bool_decide (zone ∈ [6; 14; 16]) then LT_EAST_ASIA
  else if zone =? 12 then LT_CYRILLIC
  else if create then LT_BASIC_LATIN else LT_ANY.

Definition has_bit (mask bit : Z) : bool := negb (Z.land mask bit =? 0).

Definition isValidString (cfg : NameConfig) (wstr : list Z) (strictMask : Z)
    (numericOrSpace create : bool) : bool :=
  if strictMask =? 0 then
    if isExtendedLatinString wstr numericOrSpace then true
    else if isCyrillicString wstr numericOrSpace then true
    else if isEastAsianString wstr numericOrSpace then true
    else false
  else if has_bit strictMask 2 &&
          (let lt := GetRealmLanguageType (CONFIG_REALM_ZONE cfg) create in
           (has_bit lt LT_EXTENDEN_LATIN && isExtendedLatinString wstr numericOrSpace) ||
           (has_bit lt LT_CYRILLIC && isCyrillicString wstr numericOrSpace) ||
           (has_bit lt LT_EAST_ASIA && isEastAsianString wstr numericOrSpace)) then true
  else if has_bit strictMask 1 && isBasicLatinString wstr numericOrSpace then true
  else false.

(** ** The name checks *)

Inductive CharNameResult :=
  CHAR_NAME_SUCCESS | CHAR_NAME_TOO_SHORT | CHAR_NAME_TOO_LONG | CHAR_NAME_INVALID_CHARACTER
| CHAR_NAME_MIXED_LANGUAGES | CHAR_NAME_THREE_CONSECUTIVE.
Inductive PetNameInvalidReason :=
  PET_NAME_SUCCESS | PET_NAME_INVALID | PET_NAME_TOO_SHORT | PET_NAME_TOO_LONG
| PET_NAME_MIXED_LANGUAGES.

Definition MAX_PLAYER_NAME : Z := 12.
Definition MAX_CHARTER_NAME : Z := 24.
Definition MAX_PET_NAME : Z := 12.

(** The loop of [CheckPlayerName] from index 2 on. *)
Fixpoint three_consecutive (w : list Z) : bool :=
  match w with
  | a :: ((b :: c :: _) as w') => ((c =? b) && (c =? a)) || three_consecutive w'
  | _ => false
  end.

Section Checks.
Context (Utf8toWStr : list Z -> option (list Z)) (cfg : NameConfig).

Definition CheckPlayerName (name : list Z) (create : bool) : CharNameResult :=
  match Utf8toWStr name with
  | None => CHAR_NAME_INVALID_CHARACTER
  | Some wname =>
    if MAX_PLAYER_NAME <? zlen wname then CHAR_NAME_TOO_LONG
    else if zlen wname <? CONFIG_MIN_PLAYER_NAME cfg then CHAR_NAME_TOO_SHORT
    else if negb (isValidString cfg wname (CONFIG_STRICT_PLAYER_NAMES cfg) false create)
    then CHAR_NAME_MIXED_LANGUAGES
    else if three_consecutive (wstrToLower wname) then CHAR_NAME_THREE_CONSECUTIVE
    else CHAR_NAME_SUCCESS
  end.

Definition IsValidCharterName (name : list Z) : bool :=
  match Utf8toWStr name with
  | None => false
  | Some wname =>
    if MAX_CHARTER_NAME <? zlen wname then false
    else if zlen wname <? CONFIG_MIN_CHARTER_NAME cfg then false
    else isValidString cfg wname (CONFIG_STRICT_CHARTER_NAMES cfg) true false
  end.

Definition CheckPetName (name : list Z) : PetNameInvalidReason :=
  match Utf8toWStr name with
  | None => PET_NAME_INVALID
  | Some wname =>
    if MAX_PET_NAME <? zlen wname then PET_NAME_TOO_LONG
    else if zlen wname <? CONFIG_MIN_PET_NAME cfg then PET_NAME_TOO_SHORT
    else if negb (isValidString cfg wname (CONFIG_STRICT_PET_NAMES cfg) false false)
    then PET_NAME_MIXED_LANGUAGES
    else PET_NAME_SUCCESS
  end.

(** ** Reserved names: the store holds lower-case wide strings *)

Definition LoadReservedPlayersNames (rows : list (list Z)) : gset (list Z) :=
  foldl (fun store name => match Utf8toWStr name with
                           | None => store
                           | Some wstr => {[ wstrToLower wstr ]} ∪ store
                           end) ∅ rows.
Definition IsReservedName (store : gset (list Z)) (name : list Z) : bool :=
  match Utf8toWStr name with
  | None => false
  | Some wstr => bool_decide (wstrToLower wstr ∈ store)
  end.

(** ** Declined names *)

(** The endings of [dropEnds], one row per declension; the length stored before
    each of them is the length of the list. *)
Definition dropEnds (declension : Z) : list (list Z) :=
  if declension =? 0 then [[0x0430]; [0x043E]; [0x044F]; [0x0435]; [0x044C]; [0x0439]]
  else if declension =? 1 then [[0x0430]; [0x044F]; [0x044B]; [0x0438]]
  else if declension =? 2 then [[0x0435]; [0x0443]; [0x044E]; [0x0438]]
  else if declension =? 3 then [[0x0443]; [0x044E]; [0x043E]; [0x0435]; [0x044C]; [0x044F]; [0x0430]]
  else if declension =? 4 then [[0x043E; 0x0439]; [0x0451; 0x0439]; [0x0435; 0x0439];
                                [0x043E; 0x043C]; [0x0451; 0x043C]; [0x0435; 0x043C]; [0x044E]]
  else [[0x0435]; [0x0438]].

Inductive std_exception := out_of_range.

(** [s.substr(pos, len)]: it throws when [pos > s.size()]. *)
Definition substr (s : list Z) (pos len : Z) : outcome std_exception (list Z) :=
  if zlen s <? pos then Throw out_of_range
  else Ret (take (Z.to_nat len) (drop (Z.to_nat pos) s)).

Fixpoint drop_end (wname : list Z) (ends : list (list Z)) : outcome std_exception (list Z) :=
  match ends with
  | [] => Ret wname
  | e :: ends =>
    let len := zlen e in
    match substr wname (u64 (zlen wname - len)) len with
    | Ret tail => if bool_decide (tail = e) then substr wname 0 (u64 (zlen wname - len))
                  else drop_end wname ends
    | Throw x => Throw x
    | Crash => Crash
    end
  end.

Definition GetMainPartOfName (wname : list Z) (declension : Z) : outcome std_exception (list Z) :=
  if (zlen wname <? 1) || negb (isCyrillicCharacter (default 0 (head wname))) || (5 <? declension)
  then Ret wname
  else drop_end wname (dropEnds declension).

(** [CheckDeclinedNames]: the loop over the cases from [i] on. *)
Fixpoint check_cases (w_ownname mainpart : list Z) (i : Z) (x y : bool) (names : list (list Z))
    : outcome std_exception bool :=
  match names with
  | [] => Ret (x || y)
  | name :: names =>
    match Utf8toWStr name with
    | None => Ret false
    | Some wname =>
      match GetMainPartOfName wname (i + 1) with
      | Ret part => check_cases w_ownname mainpart (i + 1)
                      (if bool_decide (mainpart = part) then x else false)
                      (if bool_decide (w_ownname = wname) then y else false) names
      | Throw e => Throw e
      | Crash => Crash
      end
    end
  end.
Definition CheckDeclinedNames (w_ownname : list Z) (names : list (list Z)) : outcome std_exception bool :=
  match GetMainPartOfName w_ownname 0 with
  | Ret mainpart => check_cases w_ownname mainpart 0 true true names
  | Throw e => Throw e
  | Crash => Crash
  end.
End Checks.

(** ** Specification *)

(** The alphabets a name may be written in. *)
Definition alphabets (cfg : NameConfig) (strictMask : Z) (create : bool) : list (Z -> bool) :=
  let lt := GetRealmLanguageType (CONFIG_REALM_ZONE cfg) create in
  if strictMask =? 0 then [isExtendedLatinCharacter; isCyrillicCharacter; isEastAsianCharacter]
  else (if has_bit strictMask 2 then
          (if has_bit lt LT_EXTENDEN_LATIN then [isExtendedLatinCharacter] else []) ++
          (if has_bit lt LT_CYRILLIC then [isCyrillicCharacter] else []) ++
          (if has_bit lt LT_EAST_ASIA then [isEastAsianCharacter] else []) else []) ++
       (if has_bit strictMask 1 then [isBasicLatinCharacter] else []).

Definition written_in (ok : Z -> bool) (numericOrSpace : bool) (w : list Z) : Prop :=
  Forall (fun c => ok c = true \/ (numericOrSpace = true /\ isNumericOrSpace c = true)) w.

Lemma all_chars_spec ok w nos : all_chars ok w nos = true <-> written_in ok nos w.
Proof.
  unfold written_in. induction w as [|c w IH]; cbn; [easy|].
  rewrite Forall_cons, <- IH. destruct (ok c), nos, (isNumericOrSpace c); cbn; intuition congruence.
Qed.

Lemma isValidString_spec cfg w mask nos create :
  isValidString cfg w mask nos create = true
  <-> exists ok, In ok (alphabets cfg mask create) /\ written_in ok nos w.
Proof.
  unfold isValidString, alphabets, isExtendedLatinString, isCyrillicString, isEastAsianString, isBasicLatinString.
  assert (Hin : forall oks, (exists ok, In ok oks /\ written_in ok nos w)
            <-> existsb (fun ok => all_chars ok w nos) oks = true).
  { intros oks. rewrite existsb_exists. split; intros (ok & H & Hw); exists ok; (split; [done|]);
      now apply all_chars_spec. }
  rewrite Hin. clear Hin.
  set (lt := GetRealmLanguageType _ _).
  destruct (mask =? 0), (has_bit mask 2), (has_bit mask 1), (has_bit lt LT_EXTENDEN_LATIN),
    (has_bit lt LT_CYRILLIC), (has_bit lt LT_EAST_ASIA); cbn;
    repeat match goal with |- context [all_chars ?ok w nos] => destruct (all_chars ok w nos) end;
    cbn; easy.
Qed.

Lemma three_consecutive_spec w :
  three_consecutive w = true
  <-> exists (i : nat) c, w !! i = Some c /\ w !! S i = Some c /\ w !! S (S i) = Some c.
Proof.
  induction w as [|a [|b [|c w]] IH]; cbn [three_consecutive].
  - split; [easy|]. intros (i & c & H & _). now rewrite lookup_nil in H.
  - split; [easy|]. intros ([|i] & c & _ & H & _); cbn in H; now rewrite ?lookup_nil in H.
  - split; [easy|]. intros ([|[|i]] & c & _ & _ & H); cbn in H; now rewrite ?lookup_nil in H.
  - rewrite orb_true_iff, IH, andb_true_iff, !Z.eqb_eq. split.
    + intros [[-> ->]|(i & d & H)]; [exists 0%nat, a; done|exists (S i), d; exact H].
    + intros ([|i] & d & H1 & H2 & H3); [left|right; exists i, d; done].
      cbn in *. split; congruence.
Qed.

Lemma some_iff {A} (w : A) (P : A -> Prop) : (exists w', Some w = Some w' /\ P w') <-> P w.
Proof. split; [intros (? & [= <-] & ?)|]; eauto. Qed.

(** ** Claims *)

(** A player name is accepted exactly when it decodes, has between the
    configured minimum and twelve characters, is written in one of the alphabets
    the configuration allows, and has no letter three times in a row whatever
    the case; and a pet or charter name under the same rules for its own limits. *)
Theorem name_checks_correct dec_utf8 cfg name create :
  (CheckPlayerName dec_utf8 cfg name create = CHAR_NAME_SUCCESS <->
   exists w, dec_utf8 name = Some w /\ CONFIG_MIN_PLAYER_NAME cfg <= zlen w <= 12 /\
     (exists ok, In ok (alphabets cfg (CONFIG_STRICT_PLAYER_NAMES cfg) create) /\ written_in ok false w) /\
     ~ (exists i c, wstrToLower w !! i = Some c /\ wstrToLower w !! S i = Some c /\
          wstrToLower w !! S (S i) = Some c)) /\
  (CheckPetName dec_utf8 cfg name = PET_NAME_SUCCESS <->
   exists w, dec_utf8 name = Some w /\ CONFIG_MIN_PET_NAME cfg <= zlen w <= 12 /\
     exists ok, In ok (alphabets cfg (CONFIG_STRICT_PET_NAMES cfg) false) /\ written_in ok false w) /\
  (IsValidCharterName dec_utf8 cfg name = true <->
   exists w, dec_utf8 name = Some w /\ CONFIG_MIN_CHARTER_NAME cfg <= zlen w <= 24 /\
     exists ok, In ok (alphabets cfg (CONFIG_STRICT_CHARTER_NAMES cfg) false) /\ written_in ok true w).
Proof.
  unfold CheckPlayerName, CheckPetName, IsValidCharterName, MAX_PLAYER_NAME, MAX_PET_NAME, MAX_CHARTER_NAME.
  destruct (dec_utf8 name) as [w|]; [|repeat split; try easy; now intros (? & ? & _)].
  rewrite !some_iff, <- !isValidString_spec, <- three_consecutive_spec.
  repeat match goal with
  | |- context [?a <? ?b] => destruct (Z.ltb_spec a b)
  | |- context [isValidString cfg w ?m ?n ?c] => destruct (isValidString cfg w m n c)
  | |- context [three_consecutive ?l] => destruct (three_consecutive l)
  end; cbn [negb]; repeat split; try easy; intros; intuition (try congruence; try lia).
Qed.

Lemma substr_tail (w e : list Z) :
  (length e <= length w)%nat -> zlen w < 2 ^ 64 ->
  substr w (u64 (zlen w - zlen e)) (zlen e) = Ret (drop (length w - length e) w).
Proof.
  intros H Hw. unfold substr, zlen in *. rewrite uwrap_id by (unfold is_u; lia).
  rewrite (proj2 (Z.ltb_ge _ _)) by lia.
  replace (Z.to_nat (Z.of_nat (length w) - Z.of_nat (length e))) with (length w - length e)%nat by lia.
  rewrite take_ge; [done|]. rewrite length_drop. lia.
Qed.

Lemma drop_end_long w ends :
  zlen w < 2 ^ 64 -> Forall (fun e => (length e <= length w)%nat) ends ->
  exists part, drop_end w ends = Ret part /\
    (part = w \/ exists e, In e ends /\ w = part ++ e).
Proof.
  intros Hw. induction 1 as [|e ends He _ IH]; cbn [drop_end]; [eauto|].
  rewrite substr_tail by done. destruct (bool_decide _) eqn:E; zbool.
  - unfold substr. rewrite uwrap_id by (unfold is_u, zlen in *; lia).
    rewrite (proj2 (Z.ltb_ge _ _)) by (unfold zlen; lia).
    eexists; split; [done|]. right; exists e. split; [now left|].
    rewrite <- E at 2. replace (Z.to_nat (zlen w - zlen e)) with (length w - length e)%nat by (unfold zlen; lia).
    rewrite Z2Nat.inj_0, drop_0. symmetry; apply take_drop.
  - destruct IH as (part & -> & H). exists part; split; [done|].
    destruct H as [?|(e' & ? & ?)]; [auto|right; exists e'; split; [now right|done]].
Qed.

Lemma dropEnds_lengths d : 0 <= d <= 5 ->
  Forall (fun e => (length e <= if (d =? 4)%Z then 2 else 1)%nat) (dropEnds d).
Proof.
  intros H. assert (d = 0 \/ d = 1 \/ d = 2 \/ d = 3 \/ d = 4 \/ d = 5) as [->|[->|[->|[->|[->| ->]]]]] by lia.
  all: apply (bool_decide_unpack _); vm_compute; exact I.
Qed.

(** The main part of a name is the name without one ending of its
    declension, or the whole name; the only failure is a single Cyrillic letter
    in the fourth declension, where the position of the two-letter ending wraps
    below zero and [std::out_of_range] leaves the function. *)
Theorem GetMainPartOfName_correct w d :
  0 <= d -> zlen w < 2 ^ 64 ->
  (GetMainPartOfName w d = Throw out_of_range /\ d = 4 /\
     exists c, w = [c] /\ isCyrillicCharacter c = true) \/
  (exists part, GetMainPartOfName w d = Ret part /\
     (part = w \/ exists e, In e (dropEnds d) /\ w = part ++ e) /\
     ~ (d = 4 /\ exists c, w = [c] /\ isCyrillicCharacter c = true)).
Proof.
  intros Hd Hw. unfold GetMainPartOfName.
  destruct w as [|c w]; [right; exists []; split; [reflexivity|split; [now left|]]; now intros [_ (? & ? & _)]|].
  rewrite (proj2 (Z.ltb_ge (zlen (c :: w)) 1)) by (unfold zlen; cbn; lia). cbn [orb].
  change (default 0 (head (c :: w))) with c.
  destruct (isCyrillicCharacter c) eqn:Hc; cbn [negb orb].
  2: { right. exists (c :: w). split; [reflexivity|split; [now left|]]. intros [_ (x & [= -> _] & H)]. congruence. }
  destruct (Z.ltb_spec 5 d).
  { right. exists (c :: w). split; [reflexivity|split; [now left|]]. intros [-> _]. lia. }
  destruct (decide (d = 4 /\ w = [])) as [[-> ->]|Hn]; [left; repeat split; eauto|].
  right. pose proof (dropEnds_lengths d ltac:(lia)) as Hl.
  destruct (drop_end_long (c :: w) (dropEnds d) Hw) as (part & Hp & Hform).
  - eapply Forall_impl; [exact Hl|]. cbn. intros e He. destruct (Z.eqb_spec d 4); [|lia].
    destruct w; [now destruct Hn|cbn; lia].
  - exists part. split; [exact Hp|split; [exact Hform|]]. intros [-> (x & [= _ ->] & _)]. now apply Hn.
Qed.

Lemma GetMainPartOfName_correct_witness :
  GetMainPartOfName [0x0410] 4 = Throw out_of_range.
Proof.
  destruct (GetMainPartOfName_correct [0x0410] 4) as [[H _]|(p & _ & _ & H)]; [lia|now vm_compute|exact H|].
  exfalso. apply H. split; [reflexivity|]. exists 0x0410. split; reflexivity.
Defined.

(** On a realm of a tournament zone, where a new name is meant to be basic
    Latin, the zone-specific name mode refuses every name at creation. *)
Theorem zone_mode_refuses_all cfg w numericOrSpace :
  GetRealmLanguageType (CONFIG_REALM_ZONE cfg) true = LT_BASIC_LATIN ->
  isValidString cfg w 2 numericOrSpace true = false.
Proof.
  intros H. apply not_true_iff_false. rewrite isValidString_spec. unfold alphabets. rewrite H.
  intros (ok & Hin & _). exact Hin.
Qed.

Definition tournament_realm : NameConfig := Build_NameConfig 5 2 2 2 2 2 2.
Lemma zone_mode_refuses_all_witness :
  isValidString tournament_realm [65; 114; 116] 2 false true = false.
Proof. apply zone_mode_refuses_all. reflexivity. Defined.

(** A name is reserved exactly when it is equal, up to the case of its
    letters, to a name of the table that decodes. *)
Theorem reserved_names_correct dec_utf8 rows name :
  IsReservedName dec_utf8 (LoadReservedPlayersNames dec_utf8 rows) name = true <->
  exists w row w', dec_utf8 name = Some w /\ row ∈ rows /\ dec_utf8 row = Some w' /\
    wstrToLower w = wstrToLower w'.
Proof.
  unfold IsReservedName, LoadReservedPlayersNames.
  assert (H : forall (x : list Z) (s : gset (list Z)), x ∈ foldl (fun store name => match dec_utf8 name with
      | None => store | Some wstr => {[ wstrToLower wstr ]} ∪ store end) s rows <->
    x ∈ s \/ exists row w', row ∈ rows /\ dec_utf8 row = Some w' /\ x = wstrToLower w').
  { intros x. induction rows as [|r rows IH]; intros s; cbn [foldl].
    - split; [auto|]. intros [?|(? & ? & Hr & _)]; [done|now apply elem_of_nil in Hr].
    - rewrite IH. setoid_rewrite elem_of_cons. destruct (dec_utf8 r) as [w'|] eqn:E.
      + rewrite elem_of_union, elem_of_singleton. split.
        * intros [[->|?]|(row & w2 & ? & ?)]; [right; exists r, w'; auto|left; assumption|right; exists row, w2; tauto].
        * intros [?|(row & w2 & [-> |?] & Hr & ->)]; [left; right; assumption|left; left; congruence|right; exists row, w2; auto].
      + split; [|intros [?|(row & w2 & [-> |?] & Hr & ->)]; [left; assumption|congruence|right; exists row, w2; auto]].
        intros [?|(row & w2 & ? & ?)]; [auto|right; exists row, w2; tauto]. }
  destruct (dec_utf8 name) as [w|].
  - rewrite bool_decide_eq_true, H. split.
    + intros [Hx|(row & w' & ? & ? & ?)]; [now apply elem_of_empty in Hx|]. exists w, row, w'. done.
    + intros (w2 & row & w' & [= <-] & ? & ? & ?). right. exists row, w'. done.
  - split; [easy|]. now intros (? & ? & ? & ? & _).
Qed.
