(* ===== verification/ObjectGuid.v ===== *)
(** * Object guids (src/server/game/Entities/Object/ObjectDefines.h)

    A guid is a 64-bit word: the kind of the object in the high 16 bits and,
    for the kinds that have an entry, the entry and the counter in 24 bits
    each, otherwise the counter in the low 32 bits.  The claim: the fields are
    read back and the classification is that of the kind. *)

From stdpp Require Import base list strings.
From Stdlib Require Import ZArith Lia.
From S2P Require Import Prelude Util.
#[local] Open Scope Z_scope.

Definition HIGHGUID_ITEM : Z := 0x4000.
Definition HIGHGUID_CONTAINER : Z := 0x4000.
Definition HIGHGUID_PLAYER : Z := 0x0000.
Definition HIGHGUID_GAMEOBJECT : Z := 0xF110.
Definition HIGHGUID_TRANSPORT : Z := 0xF120.
Definition HIGHGUID_UNIT : Z := 0xF130.
Definition HIGHGUID_PET : Z := 0xF140.
Definition HIGHGUID_VEHICLE : Z := 0xF150.
Definition HIGHGUID_DYNAMICOBJECT : Z := 0xF100.
Definition HIGHGUID_CORPSE : Z := 0xF101.
Definition HIGHGUID_MO_TRANSPORT : Z := 0x1FC0.
Definition HIGHGUID_GROUP : Z := 0x1F50.

Definition MAKE_PAIR64 (l h : Z) : Z := u64 (Z.lor l (u64 (Z.shiftl h 32))).
Definition PAIR64_HIPART (x : Z) : Z := u32 (Z.land (Z.shiftr x 32) 0xFFFFFFFF).
Definition PAIR64_LOPART (x : Z) : Z := u32 (Z.land x 0xFFFFFFFF).
Definition MAKE_PAIR16 (l h : Z) : Z := u16 (Z.lor l (Z.shiftl h 8)).
Definition MAKE_PAIR32 (l h : Z) : Z := u32 (Z.lor l (u32 (Z.shiftl h 16))).
Definition PAIR32_HIPART (x : Z) : Z := u16 (Z.land (Z.shiftr x 16) 0xFFFF).
Definition PAIR32_LOPART (x : Z) : Z := u16 (Z.land x 0xFFFF).

Definition GUID_HIPART (guid : Z) : Z := u32 (Z.land (Z.shiftr guid 48) 0xFFFF).

Definition IsGuidHaveEnPart (guid : Z) : bool :=
  negb (bool_decide (GUID_HIPART guid ∈
    [HIGHGUID_ITEM; HIGHGUID_PLAYER; HIGHGUID_DYNAMICOBJECT; HIGHGUID_CORPSE; HIGHGUID_GROUP])).

Definition GUID_ENPART (x : Z) : Z :=
  if IsGuidHaveEnPart x then u32 (Z.land (Z.shiftr x 24) 0xFFFFFF) else 0.
Definition GUID_LOPART (x : Z) : Z :=
  if IsGuidHaveEnPart x then u32 (Z.land x 0xFFFFFF) else u32 (Z.land x 0xFFFFFFFF).
Definition MAKE_NEW_GUID (l e h : Z) : Z :=
  u64 (Z.lor (Z.lor l (u64 (Z.shiftl e 24))) (u64 (Z.shiftl h 48))).

Definition IS_EMPTY_GUID (guid : Z) : bool := guid =? 0.
Definition IS_CREATURE_GUID (guid : Z) : bool := GUID_HIPART guid =? HIGHGUID_UNIT.
Definition IS_PET_GUID (guid : Z) : bool := GUID_HIPART guid =? HIGHGUID_PET.
Definition IS_VEHICLE_GUID (guid : Z) : bool := GUID_HIPART guid =? HIGHGUID_VEHICLE.
Definition IS_CRE_OR_VEH_GUID (guid : Z) : bool := IS_CREATURE_GUID guid || IS_VEHICLE_GUID guid.
Definition IS_CRE_OR_VEH_OR_PET_GUID (guid : Z) : bool := IS_CRE_OR_VEH_GUID guid || IS_PET_GUID guid.
Definition IS_PLAYER_GUID (guid : Z) : bool := negb (guid =? 0) && (GUID_HIPART guid =? HIGHGUID_PLAYER).
Definition IS_UNIT_GUID (guid : Z) : bool := IS_CRE_OR_VEH_OR_PET_GUID guid || IS_PLAYER_GUID guid.
Definition IS_ITEM_GUID (guid : Z) : bool := GUID_HIPART guid =? HIGHGUID_ITEM.
Definition IS_GAMEOBJECT_GUID (guid : Z) : bool := GUID_HIPART guid =? HIGHGUID_GAMEOBJECT.
Definition IS_DYNAMICOBJECT_GUID (guid : Z) : bool := GUID_HIPART guid =? HIGHGUID_DYNAMICOBJECT.
Definition IS_CORPSE_GUID (guid : Z) : bool := GUID_HIPART guid =? HIGHGUID_CORPSE.
Definition IS_TRANSPORT_GUID (guid : Z) : bool := GUID_HIPART guid =? HIGHGUID_TRANSPORT.
Definition IS_MO_TRANSPORT_GUID (guid : Z) : bool := GUID_HIPART guid =? HIGHGUID_MO_TRANSPORT.
Definition IS_GROUP_GUID (guid : Z) : bool := GUID_HIPART guid =? HIGHGUID_GROUP.

Definition GetLogNameForGuid (guid : Z) : list Z :=
  let h := GUID_HIPART guid in
  if h =? HIGHGUID_ITEM then str "item"
  else if h =? HIGHGUID_PLAYER then (if negb (guid =? 0) then str "player" else str "none")
  else if h =? HIGHGUID_GAMEOBJECT then str "gameobject"
  else if h =? HIGHGUID_TRANSPORT then str "transport"
  else if h =? HIGHGUID_UNIT then str "creature"
  else if h =? HIGHGUID_PET then str "pet"
  else if h =? HIGHGUID_VEHICLE then str "vehicle"
  else if h =? HIGHGUID_DYNAMICOBJECT then str "dynobject"
  else if h =? HIGHGUID_CORPSE then str "corpse"
  else if h =? HIGHGUID_MO_TRANSPORT then str "mo_transport"
  else if h =? HIGHGUID_GROUP then str "group"
  else str "<unknown>".

(** ** Lemmas *)

Lemma land_low x n : 0 <= n -> Z.land x (2 ^ n - 1) = x mod 2 ^ n.
Proof.
  intros. replace (2 ^ n - 1) with (Z.ones n) by (rewrite Z.ones_equiv; lia). now apply Z.land_ones.
Qed.

Lemma land_16 x : Z.land x 0xFFFF = x mod 2 ^ 16.
Proof. now apply (land_low x 16). Qed.
Lemma land_24 x : Z.land x 0xFFFFFF = x mod 2 ^ 24.
Proof. now apply (land_low x 24). Qed.
Lemma land_32 x : Z.land x 0xFFFFFFFF = x mod 2 ^ 32.
Proof. now apply (land_low x 32). Qed.

(** [a | (b << n)] for a field [a] of [n] bits. *)
Lemma lor_fields a b n : is_u n a -> 0 <= n -> Z.lor a (b * 2 ^ n) = a + b * 2 ^ n.
Proof.
  intros Ha Hn. rewrite Z.lor_comm, (lor_disjoint_add _ _ n); [lia|lia|now apply Z.mod_mul; lia|exact Ha].
Qed.

Lemma pair_value w n a b : 0 <= n -> is_u n a -> 0 <= b -> a + b * 2 ^ n < 2 ^ w ->
  uwrap w (Z.lor a (uwrap w (Z.shiftl b n))) = a + b * 2 ^ n.
Proof.
  intros Hn Ha Hb Hw. pose proof (Z.pow_pos_nonneg 2 n ltac:(lia) Hn).
  rewrite Z.shiftl_mul_pow2 by done. unfold is_u in Ha.
  rewrite (uwrap_id w (b * _)) by (unfold is_u; nia).
  rewrite lor_fields by done. apply uwrap_id. unfold is_u; nia.
Qed.

Lemma guid_value l e h :
  is_u 16 h -> 0 <= e -> 0 <= l -> (is_u 24 l /\ is_u 24 e \/ is_u 32 l /\ e = 0) ->
  MAKE_NEW_GUID l e h = l + e * 2 ^ 24 + h * 2 ^ 48.
Proof.
  intros Hh He0 Hl0 H. unfold MAKE_NEW_GUID.
  assert (E : Z.lor l (u64 (Z.shiftl e 24)) = l + e * 2 ^ 24).
  { destruct H as [[Hl He]| [Hl ->]]; unfold is_u in *.
    - rewrite Z.shiftl_mul_pow2, uwrap_id by (unfold is_u; lia). apply lor_fields; [exact Hl|lia].
    - rewrite Z.shiftl_0_l. change (u64 0) with 0. rewrite Z.lor_0_r. lia. }
  rewrite E. apply pair_value; unfold is_u in *; [lia| |lia|]; destruct H as [[? ?]|[? ->]]; lia.
Qed.

(** A player's guid is his number. *)
Lemma player_low p : is_u 32 p -> GUID_LOPART p = p.
Proof.
  intros H. unfold is_u in H. assert (Hh : GUID_HIPART p = 0).
  { unfold GUID_HIPART, uwrap. rewrite Z.shiftr_div_pow2, land_16 by lia. rewrite Z.div_small by lia. done. }
  unfold GUID_LOPART, IsGuidHaveEnPart. rewrite Hh, bool_decide_true by (right; left). cbn [negb].
  unfold uwrap. rewrite land_32, Z.mod_mod, Z.mod_small by lia. done.
Qed.
Lemma player_guid p : is_u 32 p -> MAKE_NEW_GUID p 0 HIGHGUID_PLAYER = p.
Proof. unfold is_u. intros H. rewrite guid_value; unfold is_u, HIGHGUID_PLAYER; lia. Qed.

(** The fields of a guid are read back: the kind, the entry of the kinds
    that have one and the counter, for every counter and entry of the widths the
    layout has room for; and the packed pairs of 16, 32 and 64 bits likewise. *)
Theorem guid_roundtrip l e h :
  is_u 16 h ->
  (if negb (bool_decide (h ∈ [HIGHGUID_ITEM; HIGHGUID_PLAYER; HIGHGUID_DYNAMICOBJECT; HIGHGUID_CORPSE; HIGHGUID_GROUP]))
   then is_u 24 l /\ is_u 24 e else is_u 32 l /\ e = 0) ->
  GUID_HIPART (MAKE_NEW_GUID l e h) = h /\
  GUID_ENPART (MAKE_NEW_GUID l e h) = e /\
  GUID_LOPART (MAKE_NEW_GUID l e h) = l /\
  (forall a b, is_u 32 a -> is_u 32 b ->
     PAIR64_LOPART (MAKE_PAIR64 a b) = a /\ PAIR64_HIPART (MAKE_PAIR64 a b) = b) /\
  (forall a b, is_u 16 a -> is_u 16 b ->
     PAIR32_LOPART (MAKE_PAIR32 a b) = a /\ PAIR32_HIPART (MAKE_PAIR32 a b) = b).
Proof.
  intros Hh Hf.
  assert (Hle : is_u 24 l /\ is_u 24 e \/ is_u 32 l /\ e = 0) by (destruct (negb _); auto).
  assert (Hpos : 0 <= e /\ 0 <= l) by (unfold is_u in Hle; lia).
  rewrite (guid_value l e h) by tauto.
  assert (Hhi : GUID_HIPART (l + e * 2 ^ 24 + h * 2 ^ 48) = h).
  { unfold GUID_HIPART, uwrap. rewrite land_16, Z.shiftr_div_pow2 by lia. unfold is_u in *. div_lia. }
  unfold GUID_ENPART, GUID_LOPART, IsGuidHaveEnPart. rewrite Hhi. split; [done|].
  split; [|split; [|split; intros a b Ha Hb]].
  - destruct (negb _); [|lia]. unfold uwrap. rewrite land_24, Z.shiftr_div_pow2 by lia. unfold is_u in *. div_lia.
  - destruct (negb _); unfold uwrap; rewrite ?land_24, ?land_32; unfold is_u in *; div_lia.
  - unfold MAKE_PAIR64. rewrite pair_value by (unfold is_u in *; lia).
    unfold PAIR64_LOPART, PAIR64_HIPART, uwrap. rewrite !land_32, Z.shiftr_div_pow2 by lia.
    unfold is_u in *. div_lia.
  - unfold MAKE_PAIR32. rewrite pair_value by (unfold is_u in *; lia).
    unfold PAIR32_LOPART, PAIR32_HIPART, uwrap. rewrite !land_16, Z.shiftr_div_pow2 by lia.
    unfold is_u in *. div_lia.
Qed.

Lemma guid_roundtrip_witness :
  GUID_ENPART (MAKE_NEW_GUID 7 448 HIGHGUID_UNIT) = 448 /\
  GUID_LOPART (MAKE_NEW_GUID 123456789 0 HIGHGUID_PLAYER) = 123456789.
Proof.
  assert (H1 : is_u 24 7 /\ is_u 24 448) by (unfold is_u; lia).
  assert (H2 : is_u 32 123456789 /\ 0 = 0) by (unfold is_u; lia).
  assert (U : is_u 16 HIGHGUID_UNIT) by (unfold is_u, HIGHGUID_UNIT; lia).
  assert (P : is_u 16 HIGHGUID_PLAYER) by (unfold is_u, HIGHGUID_PLAYER; lia).
  destruct (guid_roundtrip 7 448 HIGHGUID_UNIT U H1) as (_ & E1 & _).
  destruct (guid_roundtrip 123456789 0 HIGHGUID_PLAYER P H2) as (_ & _ & E2 & _).
  split; [exact E1|exact E2].
Defined.
