(* ===== verification/LfgRoles.v ===== *)
(** * Dungeon finder: roles (src/server/game/DungeonFinding/LFG.h and
    [LFGMgr::CheckGroupRoles] of LFGMgr.cpp)

    Each player offers a set of roles, a bit mask.  [CheckGroupRoles] looks for
    an assignment of one role to each with at most one tank, one healer and
    three damage dealers: it removes an offered role, calls itself on the changed
    map, and puts the role back when that fails.  [check_roles] is the call on
    the masks in the order of the map; its fuel bounds the depth of the calls.

    The claim: it ends, answers yes exactly when there is such an assignment,
    leaves one in the map then, and leaves the map unchanged otherwise. *)

From stdpp Require Import base gmap list sorting.
From Stdlib Require Import ZArith Lia.
From S2P Require Import Prelude StdMap Util.
#[local] Open Scope Z_scope.

Definition LFG_TANKS_NEEDED : Z := 1.
Definition LFG_HEALERS_NEEDED : Z := 1.
Definition LFG_DPS_NEEDED : Z := 3.
Definition PLAYER_ROLE_NONE : Z := 0x00.
Definition PLAYER_ROLE_LEADER : Z := 0x01.
Definition PLAYER_ROLE_TANK : Z := 0x02.
Definition PLAYER_ROLE_HEALER : Z := 0x04.
Definition PLAYER_ROLE_DAMAGE : Z := 0x08.

Abbreviation LfgRolesMap := (gmap Z Z).
Definition has_role (r role : Z) : bool := negb (Z.land r role =? 0).

(** ** The search *)

Inductive tried :=
| Returns (b : bool) (l : list Z)
| Goes_on (n : Z) (l : list Z).

(** One of the three blocks of the loop, for the player at [i]: [n] players have
    just this role so far and [needed] may have it. *)
Definition try_role (call : list Z -> option (bool * list Z)) (role needed : Z)
    (n : Z) (l : list Z) (i : nat) : option tried :=
  match l !! i with
  | None => None
  | Some r =>
    if has_role r role then
      if negb (r =? role) then
        match call (<[i := u8 (r - role)]> l) with
        | None => None
        | Some (true, l') => Some (Returns true l')
        | Some (false, l') => Some (Goes_on n (alter (fun r => u8 (r + role)) i l'))
        end
      else if n =? needed then Some (Returns false l)
      else Some (Goes_on (u8 (n + 1)) l)
    else Some (Goes_on n l)
  end.

(** The loop from the player at [i] on, [todo] players from the end. *)
Fixpoint scan (call : list Z -> option (bool * list Z)) (todo : nat) (l : list Z) (i : nat)
    (damage healer tank : Z) : option (bool * list Z) :=
  match todo with
  | O => Some (tank + healer + damage =? u8 (Z.of_nat (length l)), l)
  | S todo =>
    match l !! i with
    | None => None
    | Some r =>
      if r =? PLAYER_ROLE_NONE then Some (false, l)
      else
        match try_role call PLAYER_ROLE_DAMAGE LFG_DPS_NEEDED damage l i with
        | None => None
        | Some (Returns b l) => Some (b, l)
        | Some (Goes_on damage l) =>
          match try_role call PLAYER_ROLE_HEALER LFG_HEALERS_NEEDED healer l i with
          | None => None
          | Some (Returns b l) => Some (b, l)
          | Some (Goes_on healer l) =>
            match try_role call PLAYER_ROLE_TANK LFG_TANKS_NEEDED tank l i with
            | None => None
            | Some (Returns b l) => Some (b, l)
            | Some (Goes_on tank l) => scan call todo l (S i) damage healer tank
            end
          end
        end
    end
  end.

(** [CheckGroupRoles(groles, false)]. *)
Fixpoint check_roles (fuel : nat) (l : list Z) : option (bool * list Z) :=
  match fuel with
  | O => None
  | S fuel => if bool_decide (l = []) then Some (false, l)
              else scan (check_roles fuel) (length l) l 0 0 0 0
  end.

Definition clear_leader (r : Z) : Z := u8 (Z.land r (Z.lnot PLAYER_ROLE_LEADER)).
Definition roles_of (m : LfgRolesMap) : list Z := map snd (entries Z.le m).
(** [CheckGroupRoles(groles)]; three calls deep per player are enough. *)
Definition CheckGroupRoles (m : LfgRolesMap) : bool * LfgRolesMap :=
  let l := map clear_leader (roles_of m) in
  match check_roles (S (3 * length l)) l with
  | Some (b, l') => (b, with_values Z.le m l')
  | None => (false, m)
  end.

(** ** What it should find *)

Definition all_roles : list Z := [PLAYER_ROLE_TANK; PLAYER_ROLE_HEALER; PLAYER_ROLE_DAMAGE].
(** A player who offers [r] can be given the role [x]; bits that are no role
    make a player unfit. *)
Definition plays (r x : Z) : bool :=
  bool_decide (x ∈ all_roles) && has_role r x && (Z.land r (Z.lnot 14) =? 0).
Record solves (l l' : list Z) : Prop := mk_solves {
  solves_some : l <> [];
  solves_plays : Forall2 (fun r x => plays r x = true) l l';
  solves_tanks : count PLAYER_ROLE_TANK l' <= LFG_TANKS_NEEDED;
  solves_healers : count PLAYER_ROLE_HEALER l' <= LFG_HEALERS_NEEDED;
  solves_damage : count PLAYER_ROLE_DAMAGE l' <= LFG_DPS_NEEDED
}.
Definition solvable (l : list Z) : Prop := exists l', solves l l'.
Definition byte_roles (l : list Z) : Prop := Forall (is_u 8) l /\ Z.of_nat (length l) < 256.

(** ** Facts of masks, by cases on the 256 bytes *)

Lemma byte_cases (P : Z -> bool) r : forallb P (seqZ 0 256) = true -> is_u 8 r -> P r = true.
Proof.
  rewrite forallb_forall. intros HP Hr. apply HP, list_elem_of_In, elem_of_seqZ.
  unfold is_u in Hr. lia.
Qed.
Ltac by_byte r P Hr :=
  let H := fresh in assert (H := byte_cases P r ltac:(vm_compute; reflexivity) Hr); cbn beta in H.

Definition role_bits (r : Z) : Z :=
  (if has_role r 2 then 1 else 0) + (if has_role r 4 then 1 else 0) + (if has_role r 8 then 1 else 0).

Lemma remove_role r X : is_u 8 r -> X ∈ all_roles -> has_role r X = true ->
  is_u 8 (u8 (r - X)) /\ u8 (u8 (r - X) + X) = r /\ role_bits (u8 (r - X)) = role_bits r - 1.
Proof.
  intros Hr HX Hh. split; [now apply uwrap_range|].
  by_byte r (fun r => forallb (fun X => implb (has_role r X)
    ((u8 (u8 (r - X) + X) =? r) && (role_bits (u8 (r - X)) =? role_bits r - 1))) all_roles) Hr.
  rewrite forallb_forall in H. apply list_elem_of_In in HX. specialize (H X HX). rewrite Hh in H.
  cbn [implb] in H. zbool. auto.
Qed.

Lemma plays_remove r X x : is_u 8 r -> X ∈ all_roles -> has_role r X = true ->
  plays (u8 (r - X)) x = true -> plays r x = true.
Proof.
  intros Hr HX Hh Hp. assert (Hx : x ∈ all_roles) by (unfold plays in Hp; zbool; done).
  by_byte r (fun r => forallb (fun X => forallb (fun x =>
    implb (has_role r X && plays (u8 (r - X)) x) (plays r x)) all_roles) all_roles) Hr.
  rewrite forallb_forall in H. specialize (H X (proj1 (list_elem_of_In _ _) HX)).
  rewrite forallb_forall in H. specialize (H x (proj1 (list_elem_of_In _ _) Hx)).
  now rewrite Hh, Hp in H.
Qed.

(** A player with more than one bit can still play [x] after losing another. *)
Lemma plays_other r x : is_u 8 r -> plays r x = true ->
  r = x \/ exists X, X ∈ all_roles /\ has_role r X = true /\ plays (u8 (r - X)) x = true.
Proof.
  intros Hr Hp. assert (Hx : x ∈ all_roles) by (unfold plays in Hp; zbool; done).
  by_byte r (fun r => forallb (fun x => implb (plays r x) ((r =? x) ||
    existsb (fun X => has_role r X && plays (u8 (r - X)) x) all_roles)) all_roles) Hr.
  rewrite forallb_forall in H. specialize (H x (proj1 (list_elem_of_In _ _) Hx)).
  rewrite Hp in H. cbn [implb] in H. zbool. destruct H as [H|H]; [zbool; now left|right].
  apply existsb_exists in H as (X & HX & H). zbool. exists X. now rewrite list_elem_of_In.
Qed.

Lemma plays_single X x : X ∈ all_roles -> plays X x = true -> x = X.
Proof.
  intros HX Hp. assert (Hx : x ∈ all_roles) by (unfold plays in Hp; zbool; done).
  set_unfold. destruct HX as [-> | [-> | [-> | []]]], Hx as [-> | [-> | [-> | []]]]; done.
Qed.
Lemma plays_self X : X ∈ all_roles -> plays X X = true.
Proof. intros HX. set_unfold. destruct HX as [-> | [-> | [-> | []]]]; reflexivity. Qed.

(** ** Assignments and single changes of the map *)

Lemma solves_insert l l' i r r' :
  l !! i = Some r -> (forall x, plays r' x = true -> l' !! i = Some x -> plays r x = true) ->
  solves (<[i := r']> l) l' -> solves l l'.
Proof.
  intros Hi Hp [Hn Hf ? ? ?]. split; auto.
  - intros ->. now rewrite lookup_nil in Hi.
  - rewrite Forall2_lookup in *. intros j. specialize (Hf j).
    destruct (decide (j = i)) as [->|Hj].
    + rewrite list_lookup_insert_eq in Hf by (eapply lookup_lt_Some; eassumption). rewrite Hi.
      inversion Hf as [? x Hx E|]; subst. constructor. now apply Hp.
    + now rewrite list_lookup_insert_ne in Hf by done.
Qed.

Lemma solves_lookup l l' i r : solves l l' -> l !! i = Some r -> exists x, l' !! i = Some x /\ plays r x = true.
Proof.
  intros [_ Hf _ _ _] Hi. rewrite Forall2_lookup in Hf. specialize (Hf i). rewrite Hi in Hf.
  inversion Hf; subst. eauto.
Qed.

Lemma byte_roles_lookup l i r : byte_roles l -> l !! i = Some r -> is_u 8 r.
Proof. intros [Hf _] Hi. rewrite Forall_lookup in Hf. now apply (Hf i). Qed.

Lemma solves_remove l l' i r X :
  byte_roles l -> l !! i = Some r -> X ∈ all_roles -> has_role r X = true ->
  solves (<[i := u8 (r - X)]> l) l' -> solves l l'.
Proof.
  intros Hl Hi HX Hh. apply solves_insert with r; [done|]. intros x Hx _.
  apply (plays_remove r X); auto. now apply (byte_roles_lookup l i).
Qed.

Lemma solvable_remove l i r :
  byte_roles l -> l !! i = Some r -> (r ∉ all_roles) -> solvable l ->
  exists X, X ∈ all_roles /\ has_role r X = true /\ solvable (<[i := u8 (r - X)]> l).
Proof.
  intros Hl Hi Hr [l' Hs]. destruct (solves_lookup _ _ _ _ Hs Hi) as (x & Hx & Hp).
  destruct (plays_other r x) as [->|(X & HX & Hh & HX2)]; [now apply (byte_roles_lookup l i)|done| |].
  - unfold plays in Hp. zbool. done.
  - exists X. split; [done|]. split; [done|]. exists l'. apply (solves_insert _ _ i (u8 (r - X)) r).
    + apply list_lookup_insert_eq. eapply lookup_lt_Some; eassumption.
    + intros. rewrite Hx in *. congruence.
    + rewrite list_insert_insert_eq, list_insert_id by done. done.
Qed.

(** Players with a single role have that role in every assignment. *)
Lemma solves_singles l l' i : solves l l' -> Forall (.∈ all_roles) (take i l) -> take i l' = take i l.
Proof.
  intros [_ Hf _ _ _]. revert i. induction Hf as [|r x l l' Hp _ IH]; intros [|i]; try done.
  cbn [take]. rewrite Forall_cons. intros [Hr Hi]. f_equal; [now apply plays_single|now apply IH].
Qed.
Lemma solves_self l : l <> [] -> Forall (.∈ all_roles) l -> count PLAYER_ROLE_TANK l <= 1 ->
  count PLAYER_ROLE_HEALER l <= 1 -> count PLAYER_ROLE_DAMAGE l <= 3 -> solves l l.
Proof.
  intros Hn Hl ? ? ?. split; [done| |done..].
  apply Forall_Forall2_diag. eapply Forall_impl; [exact Hl|]. apply plays_self.
Qed.

(** ** The search is right *)

Definition total_bits (l : list Z) : Z := foldr (fun r n => role_bits r + n) 0 l.

Lemma total_bits_cons r l : total_bits (r :: l) = role_bits r + total_bits l.
Proof. reflexivity. Qed.
Lemma total_bits_insert l i r r' :
  l !! i = Some r -> total_bits (<[i := r']> l) = total_bits l - role_bits r + role_bits r'.
Proof.
  revert i; induction l as [|x l IH]; intros [|i]; cbn [lookup list_lookup]; try done.
  - intros [= ->]. cbn [insert list_insert]. rewrite !total_bits_cons. lia.
  - intros Hi. change (<[S i:=r']> (x :: l)) with (x :: <[i:=r']> l). rewrite !total_bits_cons, (IH i Hi). lia.
Qed.
Lemma role_bits_range r : 0 <= role_bits r <= 3.
Proof. unfold role_bits. destruct (has_role r 2), (has_role r 4), (has_role r 8); lia. Qed.
Lemma total_bits_range l : 0 <= total_bits l <= 3 * Z.of_nat (length l).
Proof.
  induction l as [|r l IH]; [cbn; lia|].
  rewrite total_bits_cons. cbn [length]. pose proof (role_bits_range r). lia.
Qed.

Lemma byte_roles_insert l i r : byte_roles l -> is_u 8 r -> byte_roles (<[i := r]> l).
Proof. intros [Hf Hl] Hr. split; [now apply Forall_insert|]. now rewrite length_insert. Qed.

(** The answer of a call for [l]. *)
Definition answers (l : list Z) (o : option (bool * list Z)) : Prop :=
  match o with
  | None => False
  | Some (true, l') => solves l l'
  | Some (false, l') => l' = l /\ ~ solvable l
  end.

Lemma alter_insert {A} (f : A -> A) i x (l : list A) : alter f i (<[i := x]> l) = <[i := f x]> l.
Proof. revert i; induction l as [|y l IH]; intros [|i]; cbn; try done. now f_equal. Qed.

Section Scan.
Context (call : list Z -> option (bool * list Z)) (l : list Z).
Hypothesis Hl : byte_roles l.
(** The calls are made on maps with fewer offered roles. *)
Hypothesis Hcall : forall l1, length l1 = length l -> byte_roles l1 -> total_bits l1 < total_bits l ->
  answers l1 (call l1).

Lemma call_removed i r X : l !! i = Some r -> X ∈ all_roles -> has_role r X = true ->
  answers (<[i := u8 (r - X)]> l) (call (<[i := u8 (r - X)]> l)).
Proof.
  intros Hi HX Hh. destruct (remove_role r X) as (Hu & _ & Hb); [now apply (byte_roles_lookup l i)|done|done|].
  apply Hcall.
  - apply length_insert.
  - now apply byte_roles_insert.
  - rewrite (total_bits_insert _ _ _ _ Hi). lia.
Qed.

(** A block that tries to take a role from a player who offers more. *)
Lemma try_multi i r X needed n : l !! i = Some r -> X ∈ all_roles -> (r ∉ all_roles) ->
  (exists l', try_role call X needed n l i = Some (Returns true l') /\ solves l l') \/
  (try_role call X needed n l i = Some (Goes_on n l) /\
   (has_role r X = true -> ~ solvable (<[i := u8 (r - X)]> l))).
Proof.
  intros Hi HX Hr. unfold try_role. rewrite Hi. destruct (has_role r X) eqn:Hh; [|now right].
  destruct (Z.eqb_spec r X) as [->|Hne]; [done|]. cbn [negb].
  pose proof (call_removed i r X Hi HX Hh) as Ha. destruct (call _) as [[[] l']|]; [|right|done].
  - left. exists l'. split; [done|]. now apply (solves_remove l l' i r X).
  - destruct Ha as [-> Hs]. split; [|done]. f_equal. f_equal.
    destruct (remove_role r X) as (_ & He & _); [now apply (byte_roles_lookup l i)|done|done|].
    rewrite alter_insert, He. now apply list_insert_id.
Qed.

Lemma try_single i r X needed n : l !! i = Some r -> r ∈ all_roles -> X ∈ all_roles ->
  try_role call X needed n l i =
    Some (if r =? X then (if n =? needed then Returns false l else Goes_on (u8 (n + 1)) l) else Goes_on n l).
Proof.
  intros Hi Hr HX. unfold try_role. rewrite Hi.
  assert (Hh : has_role r X = (r =? X))
    by (set_unfold in Hr; set_unfold in HX; repeat destruct Hr as [-> | Hr]; try done;
        repeat destruct HX as [-> | HX]; done).
  rewrite Hh. destruct (r =? X) eqn:E; cbn [negb]; [|done]. now case_if.
Qed.

(** What is known when the loop reaches the player at [i]. *)
Record scanned (i : nat) (damage healer tank : Z) : Prop := mk_scanned {
  sc_damage : 0 <= damage <= 3; sc_healer : 0 <= healer <= 1; sc_tank : 0 <= tank <= 1;
  sc_known :
    (Forall (.∈ all_roles) (take i l) /\ damage + healer + tank = Z.of_nat i /\
     damage = count PLAYER_ROLE_DAMAGE (take i l) /\ healer = count PLAYER_ROLE_HEALER (take i l) /\
     tank = count PLAYER_ROLE_TANK (take i l)) \/
    (damage + healer + tank < Z.of_nat i /\ ~ solvable l)
}.

Lemma scanned_end d h t : l <> [] -> scanned (length l) d h t ->
  answers l (Some (t + h + d =? u8 (Z.of_nat (length l)), l)).
Proof.
  intros Hn [? ? ? Hk]. rewrite take_ge in Hk by lia. rewrite uwrap_id by (destruct Hl; unfold is_u; lia).
  destruct Hk as [(Hf & Hsum & -> & -> & ->)|[Hlt Hs]].
  - replace (_ =? _) with true by (symmetry; apply Z.eqb_eq; lia). cbn. apply solves_self; [done|done|lia..].
  - replace (_ =? _) with false by (symmetry; apply Z.eqb_neq; lia). done.
Qed.

Lemma scanned_multi i r d h t :
  l !! i = Some r -> (r ∉ all_roles) ->
  (forall X, X ∈ all_roles -> has_role r X = true -> ~ solvable (<[i := u8 (r - X)]> l)) ->
  scanned i d h t -> scanned (S i) d h t.
Proof.
  intros Hi Hr Hno [? ? ? Hk]. split; [done..|right]. split; [destruct Hk as [(_ & ? & _)|[? _]]; lia|].
  intros Hs. destruct (solvable_remove l i r Hl Hi Hr Hs) as (X & HX & Hh & HX2). now apply (Hno X).
Qed.

Lemma role_count_app c (l1 l2 : list Z) : count c (l1 ++ l2) = count c l1 + count c l2.
Proof. unfold count. rewrite filter_app, length_app. lia. Qed.
Lemma count_take_S c i r : l !! i = Some r -> count c (take (S i) l) = count c (take i l) + (if decide (r = c) then 1 else 0).
Proof.
  intros Hi. rewrite (take_S_r _ _ _ Hi), role_count_app, count_cons. change (count c []) with 0. lia.
Qed.

(** No room for one more player with just the role [X]. *)
Lemma single_full i X l' :
  Forall (.∈ all_roles) (take i l) -> l !! i = Some X -> X ∈ all_roles -> solves l l' ->
  count X (take i l) + 1 <= count X l'.
Proof.
  intros Hf Hi HX Hs.
  assert (Hf' : Forall (.∈ all_roles) (take (S i) l)) by (rewrite (take_S_r _ _ _ Hi); apply Forall_app; auto).
  rewrite <- (take_drop (S i) l'), role_count_app, (solves_singles _ _ _ Hs Hf'), (count_take_S _ _ _ Hi).
  rewrite decide_True by done.
  assert (0 <= count X (drop (S i) l')) by (unfold count; lia). lia.
Qed.

(** The loop after a player with a single role: the counter of that role. *)
Lemma scanned_single i r d h t : l !! i = Some r -> r ∈ all_roles -> scanned i d h t ->
  (r = 8 -> d = 3 -> ~ solvable l) /\ (r = 4 -> h = 1 -> ~ solvable l) /\ (r = 2 -> t = 1 -> ~ solvable l) /\
  ((r = 8 -> d <> 3) -> (r = 4 -> h <> 1) -> (r = 2 -> t <> 1) ->
   scanned (S i) (if r =? 8 then u8 (d + 1) else d) (if r =? 4 then u8 (h + 1) else h)
     (if r =? 2 then u8 (t + 1) else t)).
Proof.
  intros Hi Hr [Hd Hh Ht [(Hf & Hsum & Hcd & Hch & Hct)|[Hlt Hno]]].
  - assert (Hfull : forall c, r = c -> (forall l', solves l l' -> count c l' <= count c (take i l)) -> ~ solvable l).
    { intros c <- Hle [l' Hs]. pose proof (single_full i r l' Hf Hi Hr Hs). pose proof (Hle l' Hs). lia. }
    assert (Hall : Forall (.∈ all_roles) (take (S i) l)) by (rewrite (take_S_r _ _ _ Hi); apply Forall_app; auto).
    repeat split; try (intros Hrc Hn; apply (Hfull _ Hrc); intros l' []; unfold PLAYER_ROLE_DAMAGE, PLAYER_ROLE_HEALER,
      PLAYER_ROLE_TANK, LFG_DPS_NEEDED, LFG_HEALERS_NEEDED, LFG_TANKS_NEEDED in *; lia).
    all: set_unfold in Hr; unfold PLAYER_ROLE_DAMAGE, PLAYER_ROLE_HEALER, PLAYER_ROLE_TANK in *.
    all: destruct Hr as [-> | [-> | [-> | []]]]; cbn [Z.eqb Pos.eqb]; rewrite ?uwrap_id by (unfold is_u; lia); try lia.
    all: left; rewrite !(count_take_S _ _ _ Hi); repeat split; try done; try lia; case_decide; lia.
  - repeat split; try (intros _ _; done).
    all: set_unfold in Hr; unfold PLAYER_ROLE_DAMAGE, PLAYER_ROLE_HEALER, PLAYER_ROLE_TANK in *.
    all: destruct Hr as [-> | [-> | [-> | []]]]; cbn [Z.eqb Pos.eqb]; rewrite ?uwrap_id by (unfold is_u; lia); try lia.
    all: right; split; [lia|done].
Qed.

Lemma in_roles8 : 8 ∈ all_roles. Proof. set_solver. Qed.
Lemma in_roles4 : 4 ∈ all_roles. Proof. set_solver. Qed.
Lemma in_roles2 : 2 ∈ all_roles. Proof. set_solver. Qed.

Lemma scan_answers todo i d h t :
  l <> [] -> (i + todo)%nat = length l -> scanned i d h t -> answers l (scan call todo l i d h t).
Proof.
  intros Hn. revert i d h t. induction todo as [|todo IH]; intros i d h t Hlen Hs; cbn [scan].
  - apply scanned_end; [done|]. now replace (length l) with i by lia.
  - destruct (lookup_lt_is_Some_2 l i) as [r Hi]; [lia|]. rewrite Hi. unfold PLAYER_ROLE_NONE.
    destruct (Z.eqb_spec r 0) as [->|Hr0].
    { split; [done|]. intros [l' Hsol]. destruct (solves_lookup _ _ _ _ Hsol Hi) as (x & _ & Hp).
      unfold plays, has_role in Hp. now rewrite Z.land_0_l, andb_false_r in Hp. }
    unfold PLAYER_ROLE_DAMAGE, PLAYER_ROLE_HEALER, PLAYER_ROLE_TANK, LFG_DPS_NEEDED, LFG_HEALERS_NEEDED, LFG_TANKS_NEEDED.
    destruct (decide (r ∈ all_roles)) as [Hin|Hnin].
    + pose proof (scanned_single i r d h t Hi Hin Hs) as (H8 & H4 & H2 & Hgo).
      rewrite (try_single i r 8) by auto using in_roles8.
      destruct (Z.eqb_spec r 8) as [E8|E8]; [destruct (Z.eqb_spec d 3); [now cbn; auto|]|].
      all: rewrite (try_single i r 4) by auto using in_roles4.
      all: destruct (Z.eqb_spec r 4) as [E4|E4]; [destruct (Z.eqb_spec h 1); [now cbn; auto|]|].
      all: rewrite (try_single i r 2) by auto using in_roles2.
      all: destruct (Z.eqb_spec r 2) as [E2|E2]; [destruct (Z.eqb_spec t 1); [now cbn; auto|]|].
      all: apply IH; [lia|]; apply Hgo; congruence.
    + destruct (try_multi i r 8 3 d Hi in_roles8 Hnin) as [(l' & -> & Hsol)|[-> H8]]; [done|].
      destruct (try_multi i r 4 1 h Hi in_roles4 Hnin) as [(l' & -> & Hsol)|[-> H4]]; [done|].
      destruct (try_multi i r 2 1 t Hi in_roles2 Hnin) as [(l' & -> & Hsol)|[-> H2]]; [done|].
      apply IH; [lia|]. apply (scanned_multi i r); [done..| |done].
      intros X HX. set_unfold in HX. destruct HX as [-> | [-> | [-> | []]]]; assumption.
Qed.
End Scan.

Lemma scanned_start l : scanned l 0 0 0 0.
Proof. split; [lia..|]. left. rewrite take_0. repeat split; constructor. Qed.

Lemma check_roles_answers fuel l :
  byte_roles l -> total_bits l < Z.of_nat fuel -> answers l (check_roles fuel l).
Proof.
  revert l; induction fuel as [|fuel IH]; intros l Hl Hf.
  - pose proof (total_bits_range l). lia.
  - cbn [check_roles]. case_bool_decide as Hn.
    + split; [done|]. intros [l' []]. done.
    + apply scan_answers; [done| |done|done|apply scanned_start].
      intros l1 _ Hl1 Hb. apply IH; [done|lia].
Qed.

(** ** The claims *)

Definition role_bytes (m : LfgRolesMap) : Prop := map_Forall (fun _ r => is_u 8 r) m /\ Z.of_nat (base.size m) < 256.

Lemma roles_of_bytes m : role_bytes m -> byte_roles (map clear_leader (roles_of m)).
Proof.
  intros [Hm Hs]. split.
  - apply Forall_map, Forall_true. intros r. now apply uwrap_range.
  - unfold roles_of. now rewrite !length_map, length_entries.
Qed.

(** An assignment for the players of a map: each one is given a role that he
    offers, and no role too often. *)
Record role_assignment (m m' : LfgRolesMap) : Prop := mk_role_assignment {
  ra_some : m <> ∅;
  ra_players : dom m' = dom m;
  ra_plays : forall g r x, m !! g = Some r -> m' !! g = Some x -> plays (clear_leader r) x = true;
  ra_tanks : count PLAYER_ROLE_TANK (roles_of m') <= LFG_TANKS_NEEDED;
  ra_healers : count PLAYER_ROLE_HEALER (roles_of m') <= LFG_HEALERS_NEEDED;
  ra_damage : count PLAYER_ROLE_DAMAGE (roles_of m') <= LFG_DPS_NEEDED
}.

(** Two maps over the same players, value by value. *)
Lemma Forall2_roles (P : Z -> Z -> Prop) (m m' : LfgRolesMap) :
  dom m' = dom m ->
  (forall g r x, m !! g = Some r -> m' !! g = Some x -> P r x) <-> Forall2 P (roles_of m) (roles_of m').
Proof.
  intros Hd. unfold roles_of, entries. assert (Hk : keys Z.le m' = keys Z.le m) by (unfold keys; now rewrite Hd).
  rewrite Hk. assert (Hm : forall g, g ∈ keys Z.le m -> is_Some (m !! g)) by (intros g; now rewrite elem_of_keys).
  assert (Hm' : forall g, g ∈ keys Z.le m -> is_Some (m' !! g)) by (intros g; rewrite <- Hk; now rewrite elem_of_keys).
  transitivity (forall g, g ∈ keys Z.le m -> forall r x, m !! g = Some r -> m' !! g = Some x -> P r x).
  { split; intros H g; [intros _; apply H|]. intros r x Hr Hx. apply (H g); [|done..]. rewrite elem_of_keys. eauto. }
  revert Hm Hm'. generalize (keys Z.le m). intros ks. induction ks as [|k ks IH]; intros Hm Hm'.
  - split; [constructor|]. intros _ g Hg. set_solver.
  - destruct (Hm k) as [r Hr]; [left|]. destruct (Hm' k) as [x Hx]; [left|]. cbn. rewrite Hr, Hx. cbn.
    rewrite Forall2_cons, <- IH by (intros g Hg; (apply Hm || apply Hm'); now right). split.
    + intros H. split; [apply (H k); [left|done..]|]. intros g Hg. apply H. now right.
    + intros [Hp H] g [-> |Hg]%elem_of_cons; [|now apply H]. intros ? ?. rewrite Hr, Hx. now intros [= <-] [= <-].
Qed.

Lemma roles_of_with_values m l : length l = base.size m -> roles_of (with_values Z.le m l) = l.
Proof.
  intros Hl. unfold roles_of. rewrite entries_with_values by done. apply snd_zip. now rewrite length_keys, Hl.
Qed.
Lemma dom_with_values (m : LfgRolesMap) l : length l = base.size m -> dom (with_values Z.le m l) = dom m.
Proof.
  intros Hl. unfold with_values. rewrite dom_list_to_map_L. change (fst <$> zip (keys Z.le m) l) with (map fst (zip (keys Z.le m) l)).
  rewrite fst_zip by (rewrite length_keys; lia). apply set_eq. intros g. now rewrite elem_of_list_to_set, elem_of_keys, elem_of_dom.
Qed.
Lemma length_roles_of m : length (roles_of m) = base.size m.
Proof. unfold roles_of. now rewrite length_map, length_entries. Qed.
Lemma roles_of_nil m : roles_of m = [] <-> m = ∅.
Proof. rewrite <- map_size_empty_iff, <- length_roles_of. destruct (roles_of m); cbn; split; congruence. Qed.

Lemma assignment_solves m m' : role_assignment m m' -> solves (map clear_leader (roles_of m)) (roles_of m').
Proof.
  intros []. split; try done.
  - intros Hn. apply map_eq_nil, roles_of_nil in Hn. done.
  - apply Forall2_fmap_l, Forall2_roles; [done|]. exact ra_plays0.
Qed.
Lemma solves_assignment m l : solves (map clear_leader (roles_of m)) l -> role_assignment m (with_values Z.le m l).
Proof.
  intros [Hn Hf ? ? ?].
  assert (Hl : length l = base.size m) by (apply Forall2_length in Hf; now rewrite length_map, length_roles_of in Hf).
  split; rewrite ?roles_of_with_values by done; try done.
  - intros ->. done.
  - now apply dom_with_values.
  - apply (Forall2_roles (fun r x => plays (clear_leader r) x = true)); [now apply dom_with_values|].
    rewrite roles_of_with_values by done. now apply Forall2_fmap_l in Hf.
Qed.
Lemma with_values_clear m : with_values Z.le m (map clear_leader (roles_of m)) = clear_leader <$> m.
Proof.
  assert (Hd : dom (clear_leader <$> m) = dom m) by apply dom_fmap_L.
  rewrite <- (list_to_map_entries Z.le (clear_leader <$> m)). unfold with_values. f_equal.
  assert (Hk : keys Z.le (clear_leader <$> m) = keys Z.le m) by (unfold keys; now rewrite Hd).
  rewrite <- Hk, <- (entries_fst Z.le (clear_leader <$> m)).
  assert (Hr : map clear_leader (roles_of m) = roles_of (clear_leader <$> m)).
  { apply list_eq_Forall2, Forall2_fmap_l. apply (Forall2_roles (fun r x => clear_leader r = x)); [done|].
    intros g r x Hr. rewrite lookup_fmap, Hr. cbn. congruence. }
  rewrite Hr. unfold roles_of. generalize (entries Z.le (clear_leader <$> m)). intros es.
  induction es as [|[k v] es IH]; cbn; [done|]. now rewrite IH.
Qed.

Lemma CheckGroupRoles_spec m : role_bytes m ->
  let '(b, m') := CheckGroupRoles m in
  (b = true <-> exists m1, role_assignment m m1) /\
  (if b then role_assignment m m' else m' = clear_leader <$> m).
Proof.
  intros Hm. unfold CheckGroupRoles.
  assert (Ha : answers (map clear_leader (roles_of m))
                 (check_roles (S (3 * length (map clear_leader (roles_of m)))) (map clear_leader (roles_of m)))).
  { apply check_roles_answers; [now apply roles_of_bytes|].
    pose proof (total_bits_range (map clear_leader (roles_of m))). lia. }
  destruct (check_roles _ _) as [[[] l']|]; [| |done].
  - apply solves_assignment in Ha. split; [|done]. split; [|done]. intros _. eexists. exact Ha.
  - destruct Ha as [-> Hn]. split; [|apply with_values_clear]. split; [done|].
    intros [m1 H1]. destruct Hn. exists (roles_of m1). apply assignment_solves, H1.
Qed.

(** C10. [CheckGroupRoles] decides whether the players of a map can be given
    roles: it ends, answers yes exactly when there is an assignment of offered
    roles with at most one tank, one healer and three damage dealers, leaves such
    an assignment in the map, and otherwise only clears the leader flags. *)
Theorem CheckGroupRoles_correct m : role_bytes m ->
  let '(b, m') := CheckGroupRoles m in
  (b = true <-> exists m1, role_assignment m m1) /\
  (if b then role_assignment m m' else m' = clear_leader <$> m).
Proof. apply CheckGroupRoles_spec. Qed.

(** Five players: a tank, a healer, and three who offer everything. *)
Definition sample_roles : LfgRolesMap := list_to_map [(11, 3); (12, 14); (13, 4); (14, 14); (15, 14)].
Lemma CheckGroupRoles_correct_witness :
  role_bytes sample_roles /\ role_assignment sample_roles (CheckGroupRoles sample_roles).2.
Proof.
  assert (H : role_bytes sample_roles).
  { split; [|vm_compute; reflexivity]. apply map_Forall_to_list. vm_compute. repeat (constructor; [split; [discriminate|reflexivity]|]). constructor. }
  split; [exact H|]. pose proof (CheckGroupRoles_correct sample_roles H) as Hc.
  destruct (CheckGroupRoles sample_roles) as [b m'] eqn:E. destruct Hc as [_ Hc].
  assert (Hb : b = true) by (change b with (b, m').1; rewrite <- E; vm_compute; reflexivity).
  rewrite Hb in Hc. exact Hc.
Defined.
