(* ===== verification/LfgData.v ===== *)
(** * Dungeon finder: the data (src/server/game/DungeonFinding/LFG.h, LFG.cpp,
    LFGGroupData.cpp, LFGPlayerData.cpp and the structures of LFGMgr.h)

    States, answers and proposals as inductive types and records; what the
    finder keeps for a group and for a player, with their state machines.  The
    names of roles and states come from the locale, a parameter.

    The lemmas: the old state, to which a failed role check or proposal returns,
    is always one of no state, in a dungeon and finished dungeon, and restoring
    undoes exactly the transient states entered since. *)

From stdpp Require Import base gmap list strings.
From Stdlib Require Import ZArith Lia.
From S2P Require Import Prelude StdMap Util LfgRoles.
#[local] Open Scope Z_scope.

Inductive LfgState :=
| LFG_STATE_NONE | LFG_STATE_ROLECHECK | LFG_STATE_QUEUED | LFG_STATE_PROPOSAL | LFG_STATE_BOOT
| LFG_STATE_DUNGEON | LFG_STATE_FINISHED_DUNGEON | LFG_STATE_RAIDBROWSER.
#[export] Instance LfgState_eq_dec : EqDecision LfgState.
Proof. solve_decision. Defined.

Inductive LfgAnswer := LFG_ANSWER_PENDING | LFG_ANSWER_DENY | LFG_ANSWER_AGREE.
#[export] Instance LfgAnswer_eq_dec : EqDecision LfgAnswer.
Proof. solve_decision. Defined.
(** [LfgAnswer(accept)]. *)
Definition answer_of (accept : bool) : LfgAnswer := if accept then LFG_ANSWER_AGREE else LFG_ANSWER_DENY.

Inductive LfgUpdateType :=
| LFG_UPDATETYPE_DEFAULT | LFG_UPDATETYPE_LEADER_UNK1 | LFG_UPDATETYPE_ROLECHECK_ABORTED
| LFG_UPDATETYPE_JOIN_QUEUE | LFG_UPDATETYPE_ROLECHECK_FAILED | LFG_UPDATETYPE_REMOVED_FROM_QUEUE
| LFG_UPDATETYPE_PROPOSAL_FAILED | LFG_UPDATETYPE_PROPOSAL_DECLINED | LFG_UPDATETYPE_GROUP_FOUND
| LFG_UPDATETYPE_ADDED_TO_QUEUE | LFG_UPDATETYPE_PROPOSAL_BEGIN | LFG_UPDATETYPE_UPDATE_STATUS
| LFG_UPDATETYPE_GROUP_MEMBER_OFFLINE | LFG_UPDATETYPE_GROUP_DISBAND_UNK16.
#[export] Instance LfgUpdateType_eq_dec : EqDecision LfgUpdateType.
Proof. solve_decision. Defined.

(** ** Texts *)

(** [o << a << sep << b << ...] for numbers. *)
Definition join_numbers (sep : list Z) (l : list Z) : list Z :=
  match l with
  | [] => []
  | x :: l => dec x ++ concat (map (fun y => sep ++ dec y) l)
  end.
Definition ConcatenateDungeons (dungeons : gset Z) : list Z := join_numbers (str ", ") (set_order Z.le dungeons).

Definition LANG_LFG_STATE_NONE : Z := 9986.
Definition LANG_LFG_ROLE_TANK : Z := 9994.
Definition LANG_LFG_ROLE_HEALER : Z := 9995.
Definition LANG_LFG_ROLE_DAMAGE : Z := 9996.
Definition LANG_LFG_ROLE_LEADER : Z := 9997.
Definition LANG_LFG_ROLE_NONE : Z := 9998.

Section Locale.
Context (GetTrinityStringForDBCLocale : Z -> list Z).

Definition append_role (roles role lang : Z) (s : list Z) : list Z :=
  if has_role roles role
  then (match s with [] => [] | _ => s ++ str ", " end) ++ GetTrinityStringForDBCLocale lang
  else s.
Definition GetRolesString (roles : Z) : list Z :=
  let s := if has_role roles PLAYER_ROLE_TANK then GetTrinityStringForDBCLocale LANG_LFG_ROLE_TANK else [] in
  let s := append_role roles PLAYER_ROLE_HEALER LANG_LFG_ROLE_HEALER s in
  let s := append_role roles PLAYER_ROLE_DAMAGE LANG_LFG_ROLE_DAMAGE s in
  let s := append_role roles PLAYER_ROLE_LEADER LANG_LFG_ROLE_LEADER s in
  match s with [] => GetTrinityStringForDBCLocale LANG_LFG_ROLE_NONE | _ => s end.

Definition state_lang (state : LfgState) : Z :=
  match state with
  | LFG_STATE_NONE => LANG_LFG_STATE_NONE | LFG_STATE_ROLECHECK => 9987 | LFG_STATE_QUEUED => 9988
  | LFG_STATE_PROPOSAL => 9989 | LFG_STATE_DUNGEON => 9991 | LFG_STATE_BOOT => 9990
  | LFG_STATE_FINISHED_DUNGEON => 9992 | LFG_STATE_RAIDBROWSER => 9993
  end.
Definition GetStateString (state : LfgState) : list Z := GetTrinityStringForDBCLocale (state_lang state).
End Locale.

(** ** Groups *)

Definition LFG_GROUP_MAX_KICKS : Z := 3.

Module GroupData.
Record LfgGroupData := mkLfgGroupData {
  m_State : LfgState; m_OldState : LfgState; m_Leader : Z; m_Players : gset Z; m_Dungeon : Z; m_KicksLeft : Z
}.
Definition new : LfgGroupData := mkLfgGroupData LFG_STATE_NONE LFG_STATE_NONE 0 ∅ 0 LFG_GROUP_MAX_KICKS.

Definition IsLfgGroup (d : LfgGroupData) : bool := negb (bool_decide (m_OldState d = LFG_STATE_NONE)).
Definition SetState (state : LfgState) (d : LfgGroupData) : LfgGroupData :=
  match state with
  | LFG_STATE_NONE => mkLfgGroupData state state (m_Leader d) (m_Players d) 0 LFG_GROUP_MAX_KICKS
  | LFG_STATE_FINISHED_DUNGEON | LFG_STATE_DUNGEON =>
      mkLfgGroupData state state (m_Leader d) (m_Players d) (m_Dungeon d) (m_KicksLeft d)
  | _ => mkLfgGroupData state (m_OldState d) (m_Leader d) (m_Players d) (m_Dungeon d) (m_KicksLeft d)
  end.
Definition RestoreState (d : LfgGroupData) : LfgGroupData :=
  mkLfgGroupData (m_OldState d) (m_OldState d) (m_Leader d) (m_Players d) (m_Dungeon d) (m_KicksLeft d).
Definition with_m_players (d : LfgGroupData) (X : gset Z) : LfgGroupData :=
  mkLfgGroupData (m_State d) (m_OldState d) (m_Leader d) X (m_Dungeon d) (m_KicksLeft d).
Definition AddPlayer (guid : Z) (d : LfgGroupData) : LfgGroupData := with_m_players d ({[guid]} ∪ m_Players d).
Definition RemovePlayer (guid : Z) (d : LfgGroupData) : Z * LfgGroupData :=
  let d' := with_m_players d (m_Players d ∖ {[guid]}) in (u8 (Z.of_nat (base.size (m_Players d'))), d').
Definition RemoveAllPlayers (d : LfgGroupData) : LfgGroupData := with_m_players d ∅.
Definition SetLeader (guid : Z) (d : LfgGroupData) : LfgGroupData :=
  mkLfgGroupData (m_State d) (m_OldState d) guid (m_Players d) (m_Dungeon d) (m_KicksLeft d).
Definition SetDungeon (dungeon : Z) (d : LfgGroupData) : LfgGroupData :=
  mkLfgGroupData (m_State d) (m_OldState d) (m_Leader d) (m_Players d) dungeon (m_KicksLeft d).
Definition DecreaseKicksLeft (d : LfgGroupData) : LfgGroupData :=
  mkLfgGroupData (m_State d) (m_OldState d) (m_Leader d) (m_Players d) (m_Dungeon d)
    (if negb (m_KicksLeft d =? 0) then u8 (m_KicksLeft d - 1) else m_KicksLeft d).
Definition GetPlayerCount (d : LfgGroupData) : Z := u8 (Z.of_nat (base.size (m_Players d))).
Definition GetDungeon (asId : bool) (d : LfgGroupData) : Z :=
  if asId then Z.land (m_Dungeon d) 0x00FFFFFF else m_Dungeon d.
End GroupData.

(** ** Players *)

Module PlayerData.
Record LfgPlayerData := mkLfgPlayerData {
  m_State : LfgState; m_OldState : LfgState; m_Team : Z; m_Group : Z; m_Roles : Z; m_Comment : list Z;
  m_SelectedDungeons : gset Z
}.
Definition new : LfgPlayerData := mkLfgPlayerData LFG_STATE_NONE LFG_STATE_NONE 0 0 0 [] ∅.

Definition SetState (state : LfgState) (d : LfgPlayerData) : LfgPlayerData :=
  match state with
  | LFG_STATE_NONE | LFG_STATE_FINISHED_DUNGEON => mkLfgPlayerData state state (m_Team d) (m_Group d) 0 [] ∅
  | LFG_STATE_DUNGEON =>
      mkLfgPlayerData state state (m_Team d) (m_Group d) (m_Roles d) (m_Comment d) (m_SelectedDungeons d)
  | _ => mkLfgPlayerData state (m_OldState d) (m_Team d) (m_Group d) (m_Roles d) (m_Comment d) (m_SelectedDungeons d)
  end.
Definition RestoreState (d : LfgPlayerData) : LfgPlayerData :=
  let none := bool_decide (m_OldState d = LFG_STATE_NONE) in
  mkLfgPlayerData (m_OldState d) (m_OldState d) (m_Team d) (m_Group d)
    (if none then 0 else m_Roles d) (m_Comment d) (if none then ∅ else m_SelectedDungeons d).
Definition SetTeam (team : Z) (d : LfgPlayerData) : LfgPlayerData :=
  mkLfgPlayerData (m_State d) (m_OldState d) team (m_Group d) (m_Roles d) (m_Comment d) (m_SelectedDungeons d).
Definition SetGroup (group : Z) (d : LfgPlayerData) : LfgPlayerData :=
  mkLfgPlayerData (m_State d) (m_OldState d) (m_Team d) group (m_Roles d) (m_Comment d) (m_SelectedDungeons d).
Definition SetRoles (roles : Z) (d : LfgPlayerData) : LfgPlayerData :=
  mkLfgPlayerData (m_State d) (m_OldState d) (m_Team d) (m_Group d) roles (m_Comment d) (m_SelectedDungeons d).
Definition SetComment (comment : list Z) (d : LfgPlayerData) : LfgPlayerData :=
  mkLfgPlayerData (m_State d) (m_OldState d) (m_Team d) (m_Group d) (m_Roles d) comment (m_SelectedDungeons d).
Definition SetSelectedDungeons (dungeons : gset Z) (d : LfgPlayerData) : LfgPlayerData :=
  mkLfgPlayerData (m_State d) (m_OldState d) (m_Team d) (m_Group d) (m_Roles d) (m_Comment d) dungeons.
End PlayerData.

(** ** Proposals *)

Inductive LfgProposalState := LFG_PROPOSAL_INITIATING | LFG_PROPOSAL_FAILED | LFG_PROPOSAL_SUCCESS.
#[export] Instance LfgProposalState_eq_dec : EqDecision LfgProposalState.
Proof. solve_decision. Defined.

Record LfgProposalPlayer := mkLfgProposalPlayer { role : Z; accept : LfgAnswer; group_of : Z }.
Definition new_proposal_player : LfgProposalPlayer := mkLfgProposalPlayer 0 LFG_ANSWER_PENDING 0.

Record LfgProposal := mkLfgProposal {
  p_id : Z; dungeonId : Z; p_state : LfgProposalState; p_group : Z; p_leader : Z; p_cancelTime : Z;
  encounters : Z; isNew : bool; queues : list Z; showorder : list Z; p_players : gmap Z LfgProposalPlayer
}.

(** ** The two state machines *)

(** The states that are remembered; the others are left by [RestoreState]. *)
Definition stable (st : LfgState) : bool :=
  match st with LFG_STATE_NONE | LFG_STATE_DUNGEON | LFG_STATE_FINISHED_DUNGEON => true | _ => false end.

Lemma group_old_stable st d : stable (GroupData.m_OldState d) = true ->
  stable (GroupData.m_OldState (GroupData.SetState st d)) = true.
Proof. now destruct st. Qed.
Lemma player_old_stable st d : stable (PlayerData.m_OldState d) = true ->
  stable (PlayerData.m_OldState (PlayerData.SetState st d)) = true.
Proof. now destruct st. Qed.

Lemma group_set_state st d : GroupData.m_State (GroupData.SetState st d) = st.
Proof. now destruct st. Qed.
Lemma player_set_state st d : PlayerData.m_State (PlayerData.SetState st d) = st.
Proof. now destruct st. Qed.
Lemma group_old_state st d : GroupData.m_OldState (GroupData.SetState st d)
  = if stable st then st else GroupData.m_OldState d.
Proof. now destruct st. Qed.
Lemma player_old_state st d : PlayerData.m_OldState (PlayerData.SetState st d)
  = if stable st then st else PlayerData.m_OldState d.
Proof. now destruct st. Qed.

(** Transient states, however many, are undone by one restore. *)
Lemma group_restore_transients sts d :
  Forall (fun st => stable st = false) sts ->
  GroupData.RestoreState (foldl (fun d st => GroupData.SetState st d) d sts) = GroupData.RestoreState d.
Proof. intros H. revert d. induction H as [|st sts Hst _ IH]; intros d; cbn; [done|]. rewrite IH. now destruct st. Qed.
Lemma player_restore_transients sts d :
  Forall (fun st => stable st = false) sts ->
  PlayerData.RestoreState (foldl (fun d st => PlayerData.SetState st d) d sts) = PlayerData.RestoreState d.
Proof. intros H. revert d. induction H as [|st sts Hst _ IH]; intros d; cbn; [done|]. rewrite IH. now destruct st. Qed.
