(* ===== verification/LfgDungeons.v ===== *)
(** * Dungeon finder: dungeons, locks and rewards (the tables of
    src/server/game/DungeonFinding/LFGMgr.h and LFGMgr.cpp)

    The dungeons of the client's table with the teleport places of the database,
    the dungeons of each random group, the rewards of random dungeons, and which
    dungeons are locked for a player.  Rows of the database are lists in the order
    of the query; coordinates are the bit patterns of floats, which are only
    compared with zero and handed on.

    The claims: the dungeons that a group may enter are those that are locked for
    none of its players, and a player is told why only if none is left; a reload
    of the dungeons forgets all random groups. *)

From stdpp Require Import base gmap list strings.
From Stdlib Require Import ZArith Lia.
From S2P Require Import Prelude StdMap Util LfgRoles LfgData.
#[local] Open Scope Z_scope.

Definition LFG_TYPE_NONE : Z := 0.
Definition LFG_TYPE_DUNGEON : Z := 1.
Definition LFG_TYPE_RAID : Z := 2.
Definition LFG_TYPE_HEROIC : Z := 5.
Definition LFG_TYPE_RANDOM : Z := 6.
Definition LFG_FLAG_SEASONAL : Z := 0x4.
Definition REGULAR_DIFFICULTY : Z := 0.
Definition DUNGEON_DIFFICULTY_NORMAL : Z := 0.
Definition DUNGEON_DIFFICULTY_HEROIC : Z := 1.

Definition LFG_LOCKSTATUS_INSUFFICIENT_EXPANSION : Z := 1.
Definition LFG_LOCKSTATUS_TOO_LOW_LEVEL : Z := 2.
Definition LFG_LOCKSTATUS_TOO_HIGH_LEVEL : Z := 3.
Definition LFG_LOCKSTATUS_TOO_LOW_GEAR_SCORE : Z := 4.
Definition LFG_LOCKSTATUS_RAID_LOCKED : Z := 6.
Definition LFG_LOCKSTATUS_QUEST_NOT_COMPLETED : Z := 1022.
Definition LFG_LOCKSTATUS_MISSING_ITEM : Z := 1025.
Definition LFG_LOCKSTATUS_NOT_IN_SEASON : Z := 1031.
Definition LFG_LOCKSTATUS_MISSING_ACHIEVEMENT : Z := 1034.

(** ** Dungeons *)

(** A row of the client's table, the fields that are read. *)
Record LFGDungeonEntry := mkLFGDungeonEntry {
  ID : Z; e_name : list Z; e_minlevel : Z; e_maxlevel : Z; e_map : Z; e_difficulty : Z; e_flags : Z; e_type : Z;
  e_expansion : Z; grouptype : Z
}.
Record LFGDungeonData := mkLFGDungeonData {
  d_id : Z; d_name : list Z; d_map : Z; d_type : Z; d_expansion : Z; d_group : Z; minlevel : Z; maxlevel : Z;
  difficulty : Z; seasonal : bool; d_x : Z; d_y : Z; d_z : Z; d_o : Z
}.
Definition new_dungeon_data (dbc : LFGDungeonEntry) : LFGDungeonData :=
  mkLFGDungeonData (ID dbc) (e_name dbc) (u16 (e_map dbc)) (u8 (e_type dbc)) (u8 (e_expansion dbc))
    (u8 (grouptype dbc)) (u8 (e_minlevel dbc)) (u8 (e_maxlevel dbc)) (e_difficulty dbc)
    (negb (Z.land (e_flags dbc) LFG_FLAG_SEASONAL =? 0)) 0 0 0 0.
(** [id + (type << 24)], computed with 32 bits. *)
Definition Entry (d : LFGDungeonData) : Z := u32 (d_id d + u32 (Z.shiftl (d_type d) 24)).

Definition with_place (d : LFGDungeonData) (map x y z o : Z) : LFGDungeonData :=
  mkLFGDungeonData (d_id d) (d_name d) map (d_type d) (d_expansion d) (d_group d) (minlevel d) (maxlevel d)
    (difficulty d) (seasonal d) x y z o.

Record LfgReward := mkLfgReward { maxLevel : Z; firstQuest : Z; otherQuest : Z }.

(** The tables of the manager. *)
Record Dungeons := mkDungeons {
  LfgDungeonStore : gmap Z LFGDungeonData;
  CachedDungeonMapStore : gmap Z (gset Z);
  (** a multimap: the rewards by dungeon, in the order of insertion *)
  RewardMapStore : list (Z * LfgReward)
}.
Definition no_dungeons : Dungeons := mkDungeons ∅ ∅ [].

Definition GetLFGDungeon (t : Dungeons) (id : Z) : option LFGDungeonData := LfgDungeonStore t !! id.
Definition GetDungeonType (t : Dungeons) (dungeonId : Z) : Z :=
  match GetLFGDungeon t dungeonId with None => LFG_TYPE_NONE | Some d => d_type d end.
Definition GetDungeonsByRandom (t : Dungeons) (randomdungeon : Z) : gset Z :=
  let group := match GetLFGDungeon t randomdungeon with Some d => d_group d | None => 0 end in
  entry_at ∅ (CachedDungeonMapStore t) group.
Definition GetLFGDungeonEntry (t : Dungeons) (id : Z) : Z :=
  if id =? 0 then 0 else match GetLFGDungeon t id with Some d => Entry d | None => 0 end.

(** ** Loading *)

(** [x == 0.0f] on the bits of a float: zero and minus zero. *)
Definition float_is_zero (bits : Z) : bool := Z.land bits 0x7FFFFFFF =? 0.

Definition load_dbc (store : gmap Z LFGDungeonData) (dungeon : LFGDungeonEntry) : gmap Z LFGDungeonData :=
  if bool_decide (e_type dungeon ∈ [LFG_TYPE_DUNGEON; LFG_TYPE_HEROIC; LFG_TYPE_RAID; LFG_TYPE_RANDOM])
  then <[ID dungeon := new_dungeon_data dungeon]> store else store.
(** A row of [lfg_entrances]. *)
Definition load_entrance (store : gmap Z LFGDungeonData) (row : Z * (Z * Z * Z * Z)) : gmap Z LFGDungeonData :=
  let '(dungeonId, (x, y, z, o)) := row in
  alter (fun d => with_place d (d_map d) x y z o) dungeonId store.

(** [GetMapEntranceTrigger]: the map and place of the area trigger. *)
Record AreaTrigger := mkAreaTrigger {
  target_mapId : Z; target_X : Z; target_Y : Z; target_Z : Z; target_Orientation : Z
}.
Definition place_dungeon (GetMapEntranceTrigger : Z -> option AreaTrigger) (d : LFGDungeonData) : option LFGDungeonData :=
  if negb (d_type d =? LFG_TYPE_RANDOM) && float_is_zero (d_x d) && float_is_zero (d_y d) && float_is_zero (d_z d)
  then (fun at_ => with_place d (u16 (target_mapId at_)) (target_X at_) (target_Y at_) (target_Z at_)
                     (target_Orientation at_)) <$> GetMapEntranceTrigger (d_map d)
  else Some d.
Definition add_cached (group id : Z) (m : gmap Z (gset Z)) : gmap Z (gset Z) :=
  <[group := {[id]} ∪ entry_at ∅ m group]> m.
(** One dungeon of the last loop: its place, and the groups it belongs to.  A
    dungeon without a place is skipped. *)
Definition place_step (GetMapEntranceTrigger : Z -> option AreaTrigger) (t : Dungeons) (e : Z * LFGDungeonData) : Dungeons :=
  match place_dungeon GetMapEntranceTrigger e.2 with
  | None => t
  | Some d =>
    let cached := if negb (d_type d =? LFG_TYPE_RANDOM) then add_cached (d_group d) (d_id d) (CachedDungeonMapStore t)
                  else CachedDungeonMapStore t in
    mkDungeons (<[e.1 := d]> (LfgDungeonStore t)) (add_cached 0 (d_id d) cached) (RewardMapStore t)
  end.
(** [entrances] is [None] when the query has no result. *)
Definition LoadLFGDungeons (dbc : list LFGDungeonEntry) (entrances : option (list (Z * (Z * Z * Z * Z))))
    (GetMapEntranceTrigger : Z -> option AreaTrigger) (reload : bool) (t : Dungeons) : Dungeons :=
  let store := foldl load_dbc ∅ dbc in
  match entrances with
  | None => mkDungeons store (CachedDungeonMapStore t) (RewardMapStore t)
  | Some rows =>
    let store := foldl load_entrance store rows in
    let t := foldl (place_step GetMapEntranceTrigger) (mkDungeons store (CachedDungeonMapStore t) (RewardMapStore t))
               (map_to_list store) in
    if reload then mkDungeons (LfgDungeonStore t) ∅ (RewardMapStore t) else t
  end.

(** A row of [lfg_dungeon_rewards], checked against the other tables. *)
Definition load_reward (t : Dungeons) (max_player_level : Z) (has_quest : Z -> bool) (row : Z * Z * Z * Z) : option (Z * LfgReward) :=
  let '(dungeonId, maxLevel, firstQuestId, otherQuestId) := row in
  if GetLFGDungeonEntry t dungeonId =? 0 then None
  else
    let maxLevel := if (maxLevel =? 0) || (max_player_level <? maxLevel) then max_player_level else maxLevel in
    if (firstQuestId =? 0) || negb (has_quest firstQuestId) then None
    else
      let otherQuestId := if negb (otherQuestId =? 0) && negb (has_quest otherQuestId) then 0 else otherQuestId in
      Some (dungeonId, mkLfgReward maxLevel firstQuestId otherQuestId).
Definition LoadRewards (max_player_level : Z) (has_quest : Z -> bool) (rows : option (list (Z * Z * Z * Z))) (t : Dungeons) : Dungeons :=
  mkDungeons (LfgDungeonStore t) (CachedDungeonMapStore t)
    (match rows with None => [] | Some rows => omap (load_reward t max_player_level has_quest) rows end).

(** The rewards of a dungeon, in the order of the table. *)
Definition rewards_of (t : Dungeons) (dungeon : Z) : list LfgReward :=
  map snd (filter (fun e => e.1 = Z.land dungeon 0x00FFFFFF) (RewardMapStore t)).
Fixpoint first_reward (level : Z) (rew : option LfgReward) (l : list LfgReward) : option LfgReward :=
  match l with
  | [] => rew
  | r :: l => if level <=? maxLevel r then Some r else first_reward level (Some r) l
  end.
Definition GetRandomDungeonReward (t : Dungeons) (dungeon level : Z) : option LfgReward :=
  first_reward level None (rewards_of t dungeon).

(** ** Locks *)

Record AccessRequirement := mkAccessRequirement {
  ar_item_level : Z; ar_achievement : Z; ar_quest_A : Z; ar_quest_H : Z; ar_item : Z; ar_item2 : Z
}.
Inductive team := ALLIANCE | HORDE | OTHER_TEAM.
#[export] Instance team_eq_dec : EqDecision team.
Proof. solve_decision. Defined.

(** What the locks ask of a player in the game. *)
Record PlayerView := mkPlayerView {
  pv_level : Z; pv_expansion : Z; pv_may_join : bool; pv_team : team;
  pv_map_disabled : Z -> bool;          (** [DisableMgr::IsDisabledFor] *)
  pv_bound : Z -> Z -> bool;            (** [GetBoundInstance] *)
  pv_gear_below : Z -> bool;            (** [GetAverageItemLevel() < level] *)
  pv_achieved : Z -> bool; pv_quest_rewarded : Z -> bool; pv_has_item : Z -> bool
}.

Section Locks.
Context (IsHolidayActive : Z -> bool).
Context (GetAccessRequirement : Z -> Z -> option AccessRequirement).

Definition HOLIDAY_FIRE_FESTIVAL : Z := 341.
Definition HOLIDAY_HALLOWS_END : Z := 324.
Definition HOLIDAY_BREWFEST : Z := 372.
Definition HOLIDAY_LOVE_IS_IN_THE_AIR : Z := 423.
Definition IsSeasonActive (dungeonId : Z) : bool :=
  if dungeonId =? 285 then IsHolidayActive HOLIDAY_HALLOWS_END
  else if dungeonId =? 286 then IsHolidayActive HOLIDAY_FIRE_FESTIVAL
  else if dungeonId =? 287 then IsHolidayActive HOLIDAY_BREWFEST
  else if dungeonId =? 288 then IsHolidayActive HOLIDAY_LOVE_IS_IN_THE_AIR
  else false.

Definition access_lock (p : PlayerView) (ar : AccessRequirement) : Z :=
  if negb (ar_item_level ar =? 0) && pv_gear_below p (ar_item_level ar) then LFG_LOCKSTATUS_TOO_LOW_GEAR_SCORE
  else if negb (ar_achievement ar =? 0) && negb (pv_achieved p (ar_achievement ar))
  then LFG_LOCKSTATUS_MISSING_ACHIEVEMENT
  else if bool_decide (pv_team p = ALLIANCE) && negb (ar_quest_A ar =? 0) && negb (pv_quest_rewarded p (ar_quest_A ar))
  then LFG_LOCKSTATUS_QUEST_NOT_COMPLETED
  else if bool_decide (pv_team p = HORDE) && negb (ar_quest_H ar =? 0) && negb (pv_quest_rewarded p (ar_quest_H ar))
  then LFG_LOCKSTATUS_QUEST_NOT_COMPLETED
  else if negb (ar_item ar =? 0) then
    if negb (pv_has_item p (ar_item ar)) && ((ar_item2 ar =? 0) || negb (pv_has_item p (ar_item2 ar)))
    then LFG_LOCKSTATUS_MISSING_ITEM else 0
  else if negb (ar_item2 ar =? 0) && negb (pv_has_item p (ar_item2 ar)) then LFG_LOCKSTATUS_MISSING_ITEM
  else 0.
Definition lock_status (p : PlayerView) (d : LFGDungeonData) : Z :=
  if negb (pv_may_join p) then LFG_LOCKSTATUS_RAID_LOCKED
  else if pv_expansion p <? d_expansion d then LFG_LOCKSTATUS_INSUFFICIENT_EXPANSION
  else if pv_map_disabled p (d_map d) then LFG_LOCKSTATUS_RAID_LOCKED
  else if (DUNGEON_DIFFICULTY_NORMAL <? difficulty d) && pv_bound p (d_map d) (difficulty d)
  then LFG_LOCKSTATUS_RAID_LOCKED
  else if pv_level p <? minlevel d then LFG_LOCKSTATUS_TOO_LOW_LEVEL
  else if maxlevel d <? pv_level p then LFG_LOCKSTATUS_TOO_HIGH_LEVEL
  else if seasonal d && negb (IsSeasonActive (d_id d)) then LFG_LOCKSTATUS_NOT_IN_SEASON
  else match GetAccessRequirement (d_map d) (difficulty d) with
       | Some ar => access_lock p ar
       | None => 0
       end.
Definition add_lock (t : Dungeons) (p : PlayerView) (lock : gmap Z Z) (id : Z) : gmap Z Z :=
  match GetLFGDungeon t id with
  | None => lock
  | Some d => let lockData := lock_status p d in if lockData =? 0 then lock else <[Entry d := lockData]> lock
  end.
(** The player is [None] when not in the game. *)
Definition GetLockedDungeons (t : Dungeons) (player : option PlayerView) : gmap Z Z :=
  match player with
  | None => ∅
  | Some p => foldl (add_lock t p) ∅ (set_order Z.le (GetDungeonsByRandom t 0))
  end.

Definition random_or_seasonal (level expansion : Z) (d : LFGDungeonData) : bool :=
  ((d_type d =? LFG_TYPE_RANDOM) || (seasonal d && IsSeasonActive (d_id d)))
  && (d_expansion d <=? expansion) && (minlevel d <=? level) && (level <=? maxlevel d).
Definition GetRandomAndSeasonalDungeons (t : Dungeons) (level expansion : Z) : gset Z :=
  list_to_set (map (fun e => Entry e.2) (filter (fun e => random_or_seasonal level expansion e.2 = true)
                                           (map_to_list (LfgDungeonStore t)))).

(** ** The dungeons that all players may enter *)

Definition LfgLockPartyMap : Type := gmap Z (gmap Z Z).
Definition lock_one (guid : Z) (acc : gset Z * LfgLockPartyMap) (e : Z * Z) : gset Z * LfgLockPartyMap :=
  let '(dungeons, lockMap) := acc in
  let dungeonId := Z.land e.1 0x00FFFFFF in
  if bool_decide (dungeonId ∈ dungeons)
  then (dungeons ∖ {[dungeonId]}, <[guid := <[dungeonId := e.2]> (entry_at ∅ lockMap guid)]> lockMap)
  else acc.
(** The loops stop when no dungeon is left. *)
Definition lock_player (locked : Z -> gmap Z Z) (acc : gset Z * LfgLockPartyMap) (guid : Z) : gset Z * LfgLockPartyMap :=
  foldl (fun acc e => if bool_decide (acc.1 = ∅) then acc else lock_one guid acc e) acc (entries Z.le (locked guid)).
Definition GetCompatibleDungeons (locked : Z -> gmap Z Z) (dungeons players : gset Z) : gset Z * LfgLockPartyMap :=
  let '(dungeons, lockMap) :=
    foldl (fun acc guid => if bool_decide (acc.1 = ∅) then acc else lock_player locked acc guid)
      (dungeons, ∅) (set_order Z.le players) in
  (dungeons, if bool_decide (dungeons = ∅) then lockMap else ∅).
End Locks.

(** ** The lists of dungeons are right *)

Section Compatible.
Context (locked : Z -> gmap Z Z) (dungeons players : gset Z).

(** The client's number of a dungeon has its type in the high byte. *)
Definition locked_for (guid d s : Z) : Prop := exists e, locked guid !! e = Some s /\ Z.land e 0x00FFFFFF = d.
Definition told (lockMap : LfgLockPartyMap) (guid d : Z) : option Z := entry_at ∅ lockMap guid !! d.

(** What the loops keep: dungeons are only taken out, and each that is taken out
    is told to one player for whom it is locked. *)
Record narrowed (acc : gset Z * LfgLockPartyMap) : Prop := mk_narrowed {
  na_sub : acc.1 ⊆ dungeons;
  na_told : forall d, d ∈ dungeons -> d ∉ acc.1 -> exists guid s, told acc.2 guid d = Some s;
  na_why : forall guid d s, told acc.2 guid d = Some s ->
    d ∈ dungeons /\ (d ∉ acc.1) /\ guid ∈ players /\ locked_for guid d s
}.

Lemma told_empty g d : told ∅ g d = None.
Proof. reflexivity. Qed.
Lemma told_insert M guid d s g' d' :
  told (<[guid := <[d := s]> (entry_at ∅ M guid)]> M) g' d'
  = if decide (g' = guid /\ d' = d) then Some s else told M g' d'.
Proof.
  unfold told, entry_at. destruct (decide (g' = guid)) as [->|Hg].
  - rewrite lookup_insert_eq. cbn. case_decide as E; [destruct E as [_ ->]; now rewrite lookup_insert_eq|].
    rewrite lookup_insert_ne; [done|]. intros ->. tauto.
  - rewrite lookup_insert_ne by done. now rewrite decide_False by tauto.
Qed.

Lemma lock_one_narrowed guid acc e : guid ∈ players -> locked guid !! e.1 = Some e.2 -> narrowed acc ->
  narrowed (lock_one guid acc e) /\ (lock_one guid acc e).1 ⊆ acc.1 /\ (Z.land e.1 0x00FFFFFF ∉ (lock_one guid acc e).1).
Proof.
  intros Hg He [Hs Ht Hw]. destruct acc as [X M]. unfold lock_one. cbn [fst snd] in *.
  case_bool_decide as Hin; cbn [fst snd]; [|split_and!; [by constructor|done|done]].
  set (x := Z.land e.1 0x00FFFFFF) in *. split_and!; [constructor; cbn [fst snd]|set_solver|set_solver].
  - set_solver.
  - intros d Hd Hd'. destruct (decide (d = x)) as [->|Hne].
    + exists guid, e.2. rewrite told_insert. now rewrite decide_True.
    + destruct (Ht d Hd ltac:(set_solver)) as (g & s & Hgs). exists g, s. rewrite told_insert. rewrite decide_False; [done|tauto].
  - intros g d s. rewrite told_insert. case_decide as E; [destruct E as [-> ->]; intros [= <-]|].
    + split_and!; [set_solver|set_solver|done|now exists e.1].
    + intros Hgs. destruct (Hw g d s Hgs) as (? & ? & ? & ?). split_and!; try done. set_solver.
Qed.

Lemma lock_entries_narrowed guid l acc : guid ∈ players -> Forall (fun e => locked guid !! e.1 = Some e.2) l -> narrowed acc ->
  let acc' := foldl (fun acc e => if bool_decide (acc.1 = ∅) then acc else lock_one guid acc e) acc l in
  narrowed acc' /\ acc'.1 ⊆ acc.1 /\ Forall (fun e => Z.land e.1 0x00FFFFFF ∉ acc'.1) l.
Proof.
  intros Hg Hl. revert acc. induction Hl as [|e l He _ IH]; intros acc Ha; cbn; [split_and!; [done|done|constructor]|].
  assert (Hstep : let acc1 := if bool_decide (acc.1 = ∅) then acc else lock_one guid acc e in
    narrowed acc1 /\ acc1.1 ⊆ acc.1 /\ (Z.land e.1 0x00FFFFFF ∉ acc1.1)).
  { cbn. case_bool_decide as E; [rewrite E; split_and!; [done|set_solver|apply not_elem_of_empty]|].
    now apply lock_one_narrowed. }
  destruct Hstep as (H1 & H2 & H3). destruct (IH _ H1) as (H4 & H5 & H6). split_and!; [done|set_solver|].
  constructor; [set_solver|done].
Qed.

Lemma lock_players_narrowed l acc : Forall (.∈ players) l -> narrowed acc ->
  let acc' := foldl (fun acc guid => if bool_decide (acc.1 = ∅) then acc else lock_player locked acc guid) acc l in
  narrowed acc' /\ acc'.1 ⊆ acc.1 /\ Forall (fun guid => forall d s, locked_for guid d s -> d ∉ acc'.1) l.
Proof.
  intros Hl. revert acc. induction Hl as [|g l Hg _ IH]; intros acc Ha; cbn; [split_and!; [done|done|constructor]|].
  assert (Hstep : let acc1 := if bool_decide (acc.1 = ∅) then acc else lock_player locked acc g in
    narrowed acc1 /\ acc1.1 ⊆ acc.1 /\ forall d s, locked_for g d s -> d ∉ acc1.1).
  { cbn. case_bool_decide as E; [rewrite E; split_and!; [done|set_solver|intros; apply not_elem_of_empty]|].
    assert (Hes : Forall (fun e => locked g !! e.1 = Some e.2) (entries Z.le (locked g)))
      by (apply Forall_forall; intros [e s] He; now apply elem_of_entries in He).
    destruct (lock_entries_narrowed g (entries Z.le (locked g)) acc Hg Hes Ha) as (H1 & H2 & H3).
    unfold lock_player. split_and!; [done|done|]. intros d s (e & He & <-).
    rewrite Forall_forall in H3. apply (H3 (e, s)). now apply elem_of_entries. }
  destruct Hstep as (H1 & H2 & H3). destruct (IH _ H1) as (H4 & H5 & H6). split_and!; [done|set_solver|].
  constructor; [|done]. intros d s Hd. specialize (H3 d s Hd). set_solver.
Qed.

(** The dungeons that are left are those locked for no player.  If one is left
    nobody is told of a lock; if none is left each of the dungeons is told, with
    its status, to a player for whom it is locked, and nothing else is told. *)
Theorem GetCompatibleDungeons_correct :
  let '(remaining, lockMap) := GetCompatibleDungeons locked dungeons players in
  (forall d, d ∈ remaining <-> d ∈ dungeons /\ forall guid s, guid ∈ players -> ~ locked_for guid d s) /\
  (remaining <> ∅ -> lockMap = ∅) /\
  (remaining = ∅ ->
     (forall d, d ∈ dungeons -> exists guid s, told lockMap guid d = Some s) /\
     (forall guid d s, told lockMap guid d = Some s -> d ∈ dungeons /\ guid ∈ players /\ locked_for guid d s)).
Proof.
  unfold GetCompatibleDungeons.
  assert (Hp : Forall (.∈ players) (set_order Z.le players))
    by (apply Forall_forall; intros g; now rewrite elem_of_set_order).
  assert (H0 : narrowed (dungeons, ∅)) by (constructor; [done|done|]; intros ? ? ?; now rewrite told_empty).
  destruct (lock_players_narrowed _ _ Hp H0) as ([Hs Ht Hw] & _ & Hl).
  destruct (foldl _ _ _) as [X M]. cbn [fst snd] in *. split_and!.
  - intros d. split.
    + intros Hd. split; [set_solver|]. intros g s Hg Hlk. rewrite Forall_forall in Hl.
      now apply (Hl g ltac:(now apply elem_of_set_order) d s Hlk).
    + intros [Hd Hn]. apply dec_stable. intros Hx. destruct (Ht d Hd Hx) as (g & s & Hgs).
      destruct (Hw g d s Hgs) as (_ & _ & Hg & Hlk). now apply (Hn g s).
  - intros Hne. now rewrite bool_decide_eq_false_2.
  - intros ->. rewrite bool_decide_eq_true_2 by done. split.
    + intros d Hd. apply Ht; [done|set_solver].
    + intros g d s Hgs. destruct (Hw g d s Hgs) as (? & _ & ? & ?). done.
Qed.
End Compatible.

(** A reload of the dungeons leaves no random group behind: the sets are filled
    and then cleared, so nobody can join a random dungeon any more. *)
Lemma reload_forgets_groups dbc rows trigger t id :
  GetDungeonsByRandom (LoadLFGDungeons dbc (Some rows) trigger true t) id = ∅.
Proof.
  unfold GetDungeonsByRandom, LoadLFGDungeons, entry_at. cbn. now rewrite lookup_empty.
Qed.

(** ** Rewards *)

Lemma first_reward_spec level l rew :
  first_reward level rew l =
    match List.find (fun r => level <=? maxLevel r) l with
    | Some r => Some r
    | None => match last l with Some r => Some r | None => rew end
    end.
Proof.
  revert rew. induction l as [|r l IH]; intros rew; cbn; [done|].
  case_if; [done|]. rewrite IH. destruct (List.find _ l); [done|]. destruct l as [|r' l]; [done|].
  rewrite (last_cons_cons r r' l). destruct (last (r' :: l)) eqn:El; [done|]. now apply last_None in El.
Qed.
