(* ===== verification/LfgQueue.v ===== *)
(** * Dungeon finder: the queue (src/server/game/DungeonFinding/LFGQueue.h and
    LFGQueue.cpp)

    A queue keeps the players and groups that wait ([QueueDataStore]), the order
    in which they are tried, and a cache of the combinations checked so far, keyed
    by the guids in decimal.  What the queue asks the manager is the class
    [LfgView]; the manager's file gives the instance.  The state of the
    operations, [QState], is the queue with the manager's proposals and the
    number of random numbers drawn.

    The claims: the search for a group ends and is one greedy pass over the
    queue, so it misses groups; every proposal made is a valid group; a cached
    combination that becomes available is reported as a match without a
    proposal; leaving removes every trace of a guid. *)

From stdpp Require Import base gmap list strings.
From Stdlib Require Import ZArith Lia.
From S2P Require Import Prelude StdMap Util LfgRoles LfgData ObjectGuid.
#[local] Open Scope Z_scope.

Definition MAXGROUPSIZE : Z := 5.
Definition LFG_TIME_PROPOSAL : Z := 45.

Inductive LfgCompatibility :=
| LFG_COMPATIBILITY_PENDING
| LFG_INCOMPATIBLES_WRONG_GROUP_SIZE
| LFG_INCOMPATIBLES_TOO_MUCH_PLAYERS
| LFG_INCOMPATIBLES_MULTIPLE_LFG_GROUPS
| LFG_INCOMPATIBLES_HAS_IGNORES
| LFG_INCOMPATIBLES_NO_ROLES
| LFG_INCOMPATIBLES_NO_DUNGEONS
| LFG_COMPATIBLES_WITH_LESS_PLAYERS
| LFG_COMPATIBLES_BAD_STATES
| LFG_COMPATIBLES_MATCH.
#[export] Instance LfgCompatibility_eq_dec : EqDecision LfgCompatibility.
Proof. solve_decision. Defined.

(** [c < LFG_COMPATIBLES_WITH_LESS_PLAYERS]. *)
Definition not_compatible (c : LfgCompatibility) : bool :=
  match c with
  | LFG_COMPATIBLES_WITH_LESS_PLAYERS | LFG_COMPATIBLES_BAD_STATES | LFG_COMPATIBLES_MATCH => false
  | _ => true
  end.

Definition GetCompatibleString (c : LfgCompatibility) : list Z :=
  str (match c with
       | LFG_COMPATIBILITY_PENDING => "Pending"
       | LFG_COMPATIBLES_BAD_STATES => "Compatibles (Bad States)"
       | LFG_COMPATIBLES_MATCH => "Match"
       | LFG_COMPATIBLES_WITH_LESS_PLAYERS => "Compatibles (Not enough players)"
       | LFG_INCOMPATIBLES_HAS_IGNORES => "Has ignores"
       | LFG_INCOMPATIBLES_MULTIPLE_LFG_GROUPS => "Multiple Lfg Groups"
       | LFG_INCOMPATIBLES_NO_DUNGEONS => "Incompatible dungeons"
       | LFG_INCOMPATIBLES_NO_ROLES => "Incompatible roles"
       | LFG_INCOMPATIBLES_TOO_MUCH_PLAYERS => "Too much players"
       | LFG_INCOMPATIBLES_WRONG_GROUP_SIZE => "Wrong group size"
       end)%string.

Definition ConcatenateGuids (check : list Z) : list Z :=
  join_numbers (str "|") (set_order Z.le (list_to_set check : gset Z)).

Record LfgCompatibilityData := mkLfgCompatibilityData { compatibility : LfgCompatibility; c_roles : LfgRolesMap }.
Definition new_compatibility (c : LfgCompatibility) : LfgCompatibilityData := mkLfgCompatibilityData c ∅.

Record LfgQueueData := mkLfgQueueData {
  joinTime : Z; tanks : Z; healers : Z; dps : Z; dungeons : gset Z; roles : LfgRolesMap; bestCompatible : list Z
}.
Definition new_queue_data (joinTime : Z) (dungeons : gset Z) (roles : LfgRolesMap) : LfgQueueData :=
  mkLfgQueueData joinTime LFG_TANKS_NEEDED LFG_HEALERS_NEEDED LFG_DPS_NEEDED dungeons roles [].
(** [QueueDataStore\[guid\]] of an unknown guid. *)
Definition no_queue_data (now : Z) : LfgQueueData := new_queue_data now ∅ ∅.

Record LfgWaitTime := mkLfgWaitTime { wt_time : Z; wt_number : Z }.
Definition new_wait_time : LfgWaitTime := mkLfgWaitTime (-1) 0.

Record LFGQueue := mkLFGQueue {
  QueueDataStore : gmap Z LfgQueueData;
  CompatibleMapStore : gmap (list Z) LfgCompatibilityData;
  waitTimesAvgStore : gmap Z LfgWaitTime; waitTimesTankStore : gmap Z LfgWaitTime;
  waitTimesHealerStore : gmap Z LfgWaitTime; waitTimesDpsStore : gmap Z LfgWaitTime;
  currentQueueStore : list Z; newToQueueStore : list Z
}.
Definition new_queue : LFGQueue := mkLFGQueue ∅ ∅ ∅ ∅ ∅ ∅ [] [].

Definition with_data (q : LFGQueue) (m : gmap Z LfgQueueData) : LFGQueue :=
  mkLFGQueue m (CompatibleMapStore q) (waitTimesAvgStore q) (waitTimesTankStore q)
    (waitTimesHealerStore q) (waitTimesDpsStore q) (currentQueueStore q) (newToQueueStore q).
Definition with_compatibles (q : LFGQueue) (m : gmap (list Z) LfgCompatibilityData) : LFGQueue :=
  mkLFGQueue (QueueDataStore q) m (waitTimesAvgStore q) (waitTimesTankStore q)
    (waitTimesHealerStore q) (waitTimesDpsStore q) (currentQueueStore q) (newToQueueStore q).
Definition with_current (q : LFGQueue) (l : list Z) : LFGQueue :=
  mkLFGQueue (QueueDataStore q) (CompatibleMapStore q) (waitTimesAvgStore q) (waitTimesTankStore q)
    (waitTimesHealerStore q) (waitTimesDpsStore q) l (newToQueueStore q).
Definition with_new (q : LFGQueue) (l : list Z) : LFGQueue :=
  mkLFGQueue (QueueDataStore q) (CompatibleMapStore q) (waitTimesAvgStore q) (waitTimesTankStore q)
    (waitTimesHealerStore q) (waitTimesDpsStore q) (currentQueueStore q) l.

(** ** The lists and the cache *)

(** [std::list::remove]. *)
Definition list_remove_all (guid : Z) (l : list Z) : list Z := filter (fun g => g <> guid) l.

Definition AddToNewQueue (guid : Z) (q : LFGQueue) : LFGQueue := with_new q (newToQueueStore q ++ [guid]).
Definition RemoveFromNewQueue (guid : Z) (q : LFGQueue) : LFGQueue :=
  with_new q (list_remove_all guid (newToQueueStore q)).
Definition AddToCurrentQueue (guid : Z) (q : LFGQueue) : LFGQueue := with_current q (currentQueueStore q ++ [guid]).
Definition RemoveFromCurrentQueue (guid : Z) (q : LFGQueue) : LFGQueue :=
  with_current q (list_remove_all guid (currentQueueStore q)).
Definition AddToQueue (guid : Z) (q : LFGQueue) : LFGQueue :=
  if bool_decide (is_Some (QueueDataStore q !! guid)) then AddToNewQueue guid q else q.
Definition AddQueueData (guid joinTime : Z) (dungeons : gset Z) (roles : LfgRolesMap) (q : LFGQueue) : LFGQueue :=
  AddToQueue guid (with_data q (<[guid := new_queue_data joinTime dungeons roles]> (QueueDataStore q))).
Definition RemoveQueueData (guid : Z) (q : LFGQueue) : LFGQueue := with_data q (delete guid (QueueDataStore q)).

Definition RemoveFromCompatibles (guid : Z) (q : LFGQueue) : LFGQueue :=
  with_compatibles q (filter (fun e => contains (dec guid) e.1 = false) (CompatibleMapStore q)).
Definition SetCompatibles (key : list Z) (c : LfgCompatibility) (q : LFGQueue) : LFGQueue :=
  let data := default (new_compatibility LFG_COMPATIBILITY_PENDING) (CompatibleMapStore q !! key) in
  with_compatibles q (<[key := mkLfgCompatibilityData c (c_roles data)]> (CompatibleMapStore q)).
Definition SetCompatibilityData (key : list Z) (data : LfgCompatibilityData) (q : LFGQueue) : LFGQueue :=
  with_compatibles q (<[key := data]> (CompatibleMapStore q)).
Definition GetCompatibles (key : list Z) (q : LFGQueue) : LfgCompatibility :=
  match CompatibleMapStore q !! key with Some d => compatibility d | None => LFG_COMPATIBILITY_PENDING end.
Definition GetCompatibilityData (key : list Z) (q : LFGQueue) : option LfgCompatibilityData :=
  CompatibleMapStore q !! key.

(** ** The best combination so far, shown to the waiting players *)

Definition key_size (key : list Z) : Z := u8 (count 124 key + 1).

Definition count_role (d : LfgQueueData) (role : Z) : LfgQueueData :=
  if has_role role PLAYER_ROLE_TANK
  then mkLfgQueueData (joinTime d) (u8 (tanks d - 1)) (healers d) (dps d) (dungeons d) (roles d) (bestCompatible d)
  else if has_role role PLAYER_ROLE_HEALER
  then mkLfgQueueData (joinTime d) (tanks d) (u8 (healers d - 1)) (dps d) (dungeons d) (roles d) (bestCompatible d)
  else mkLfgQueueData (joinTime d) (tanks d) (healers d) (u8 (dps d - 1)) (dungeons d) (roles d) (bestCompatible d).
Definition update_best (key : list Z) (group_roles : LfgRolesMap) (d : LfgQueueData) : LfgQueueData :=
  let storedSize := match bestCompatible d with [] => 0 | best => key_size best end in
  if key_size key <=? storedSize then d
  else foldl count_role
         (mkLfgQueueData (joinTime d) LFG_TANKS_NEEDED LFG_HEALERS_NEEDED LFG_DPS_NEEDED (dungeons d) (roles d) key)
         (roles_of group_roles).
(** The iterator of [QueueDataStore] is the guid. *)
Definition UpdateBestCompatibleInQueue (guid : Z) (key : list Z) (group_roles : LfgRolesMap) (q : LFGQueue) : LFGQueue :=
  with_data q (alter (update_best key group_roles) guid (QueueDataStore q)).
Definition FindBestCompatibleInQueue (guid : Z) (q : LFGQueue) : LFGQueue :=
  foldl (fun q '(key, data) =>
           if bool_decide (compatibility data = LFG_COMPATIBLES_WITH_LESS_PLAYERS) && contains (dec guid) key
           then UpdateBestCompatibleInQueue guid key (c_roles data) q else q)
    q (entries text_le (CompatibleMapStore q)).

Definition clear_best (d : LfgQueueData) : LfgQueueData :=
  mkLfgQueueData (joinTime d) (tanks d) (healers d) (dps d) (dungeons d) (roles d) [].
Definition RemoveFromQueue (guid : Z) (q : LFGQueue) : LFGQueue :=
  let q := RemoveFromCompatibles guid (RemoveFromCurrentQueue guid (RemoveFromNewQueue guid q)) in
  let q := foldl (fun q g =>
             if negb (g =? guid) && contains (dec guid) (default [] (bestCompatible <$> QueueDataStore q !! g))
             then FindBestCompatibleInQueue g (with_data q (alter clear_best g (QueueDataStore q)))
             else q) q (keys Z.le (QueueDataStore q)) in
  with_data q (delete guid (QueueDataStore q)).

(** ** Waiting times *)

(** [wt.time] is a signed and the number an unsigned word: the sum is unsigned. *)
Definition update_wait (waitTime : Z) (wt : LfgWaitTime) : LfgWaitTime :=
  let old_number := wt_number wt in
  let number := u32 (old_number + 1) in
  mkLfgWaitTime (s32 (u32 (wt_time wt * old_number + waitTime) / number)) number.
Definition bump_wait (waitTime dungeonId : Z) (m : gmap Z LfgWaitTime) : gmap Z LfgWaitTime :=
  <[dungeonId := update_wait waitTime (entry_at new_wait_time m dungeonId)]> m.
Definition UpdateWaitTimeAvg (waitTime dungeonId : Z) (q : LFGQueue) : LFGQueue :=
  mkLFGQueue (QueueDataStore q) (CompatibleMapStore q) (bump_wait waitTime dungeonId (waitTimesAvgStore q))
    (waitTimesTankStore q) (waitTimesHealerStore q) (waitTimesDpsStore q) (currentQueueStore q) (newToQueueStore q).
Definition UpdateWaitTimeTank (waitTime dungeonId : Z) (q : LFGQueue) : LFGQueue :=
  mkLFGQueue (QueueDataStore q) (CompatibleMapStore q) (waitTimesAvgStore q)
    (bump_wait waitTime dungeonId (waitTimesTankStore q)) (waitTimesHealerStore q) (waitTimesDpsStore q)
    (currentQueueStore q) (newToQueueStore q).
Definition UpdateWaitTimeHealer (waitTime dungeonId : Z) (q : LFGQueue) : LFGQueue :=
  mkLFGQueue (QueueDataStore q) (CompatibleMapStore q) (waitTimesAvgStore q) (waitTimesTankStore q)
    (bump_wait waitTime dungeonId (waitTimesHealerStore q)) (waitTimesDpsStore q)
    (currentQueueStore q) (newToQueueStore q).
Definition UpdateWaitTimeDps (waitTime dungeonId : Z) (q : LFGQueue) : LFGQueue :=
  mkLFGQueue (QueueDataStore q) (CompatibleMapStore q) (waitTimesAvgStore q) (waitTimesTankStore q)
    (waitTimesHealerStore q) (bump_wait waitTime dungeonId (waitTimesDpsStore q))
    (currentQueueStore q) (newToQueueStore q).

(** [QueueDataStore\[guid\].joinTime]; a missing entry is made, with the time now. *)
Definition GetJoinTime (now guid : Z) (q : LFGQueue) : Z * LFGQueue :=
  match QueueDataStore q !! guid with
  | Some d => (joinTime d, q)
  | None => (now, with_data q (<[guid := no_queue_data now]> (QueueDataStore q)))
  end.

(** The status of one waiting player or group; [None] is the element of an empty
    set of dungeons. *)
Record LfgQueueStatusData := mkLfgQueueStatusData {
  s_dungeonId : Z; s_waitTime : Z; s_waitTimeAvg : Z; s_waitTimeTank : Z; s_waitTimeHealer : Z; s_waitTimeDps : Z;
  s_queuedTime : Z; s_tanks : Z; s_healers : Z; s_dps : Z
}.
Definition wait_of (m : gmap Z LfgWaitTime) (dungeonId : Z) : Z := wt_time (entry_at new_wait_time m dungeonId).
Definition wait_for_role (role tank healer damage avg : Z) : Z :=
  if role =? PLAYER_ROLE_NONE then -1
  else if role =? PLAYER_ROLE_TANK then tank
  else if role =? PLAYER_ROLE_HEALER then healer
  else if role =? PLAYER_ROLE_DAMAGE then damage
  else avg.
Definition queue_status (q : LFGQueue) (currTime : Z) (before after : LfgQueueData) : option LfgQueueStatusData :=
  match set_order Z.le (dungeons before) with
  | [] => None
  | dungeonId :: _ =>
    let role := clear_leader (foldl Z.lor PLAYER_ROLE_NONE (roles_of (roles before))) in
    let wtTank := wait_of (waitTimesTankStore q) dungeonId in
    let wtHealer := wait_of (waitTimesHealerStore q) dungeonId in
    let wtDps := wait_of (waitTimesDpsStore q) dungeonId in
    let wtAvg := wait_of (waitTimesAvgStore q) dungeonId in
    Some (mkLfgQueueStatusData dungeonId (wait_for_role role wtTank wtHealer wtDps wtAvg) wtAvg wtTank wtHealer wtDps
            (u32 (currTime - joinTime before)) (tanks after) (healers after) (dps after))
  end.
(** The statuses sent, in order. *)
Fixpoint queue_timers (currTime : Z) (guids : list Z) (q : LFGQueue) : option (list (Z * LfgQueueStatusData) * LFGQueue) :=
  match guids with
  | [] => Some ([], q)
  | g :: guids =>
    match QueueDataStore q !! g with
    | None => None
    | Some d =>
      let q1 := match bestCompatible d with [] => FindBestCompatibleInQueue g q | _ => q end in
      match queue_status q currTime d (default d (QueueDataStore q1 !! g)), queue_timers currTime guids q1 with
      | Some status, Some (sent, q2) => Some (map (fun p => (p, status)) (keys Z.le (roles d)) ++ sent, q2)
      | _, _ => None
      end
    end
  end.
Definition UpdateQueueTimers (currTime : Z) (q : LFGQueue) : option (list (Z * LfgQueueStatusData) * LFGQueue) :=
  queue_timers currTime (keys Z.le (QueueDataStore q)) q.

(** ** Looking for a group *)

(** What the queue asks the manager, the clock and the random numbers:
    [urand n lo hi] is the [n]-th number drawn. *)
Class LfgView := mkLfgView {
  AllQueued : list Z -> bool;
  IsLfgGroup : Z -> bool;
  GetOldState : Z -> LfgState;
  HasIgnore : Z -> Z -> bool;
  GetPlayerCount : Z -> Z;
  now : Z;
  urand : nat -> Z -> Z -> Z
}.
Record QState := mkQState {
  queue : LFGQueue; m_lfgProposalId : Z; ProposalsStore : gmap Z LfgProposal; drawn : nat
}.
Definition on_queue (f : LFGQueue -> LFGQueue) (s : QState) : QState :=
  mkQState (f (queue s)) (m_lfgProposalId s) (ProposalsStore s) (drawn s).
Definition draw (s : QState) : QState :=
  mkQState (queue s) (m_lfgProposalId s) (ProposalsStore s) (S (drawn s)).

(** [LFGMgr::AddProposal]. *)
Definition AddProposal (p : LfgProposal) (s : QState) : QState :=
  let id := u32 (m_lfgProposalId s + 1) in
  mkQState (queue s) id
    (<[id := mkLfgProposal id (dungeonId p) (p_state p) (p_group p) (p_leader p) (p_cancelTime p) (encounters p)
               (isNew p) (queues p) (showorder p) (p_players p)]> (ProposalsStore s)) (drawn s).

Section Find.
Context {view : LfgView}.

(** [SelectRandomContainerElement]. *)
Definition select_random (X : gset Z) (s : QState) : Z * QState :=
  let l := set_order Z.le X in
  (default 0 (l !! Z.to_nat (urand (drawn s) 0 (Z.of_nat (length l) - 1))), draw s).

(** The first loop: the number of players and of dungeon groups, the group of
    each player and of the proposal; [inl] is a guid that is not queued. *)
Record counted := mkCounted { numPlayers : Z; numLfgGroups : Z; proposalGroups : gmap Z Z; proposal_group : Z }.
Fixpoint count_players (q : LFGQueue) (check : list Z) (c : counted) : Z + counted :=
  match check with
  | [] => inr c
  | guid :: check =>
    if (numLfgGroups c <? 2) && (numPlayers c <=? MAXGROUPSIZE) then
      match QueueDataStore q !! guid with
      | None => inl guid
      | Some d =>
        let groups := foldl (fun m p => <[p := if IS_GROUP_GUID guid then guid else 0]> m)
                        (proposalGroups c) (keys Z.le (roles d)) in
        let players := u8 (numPlayers c + Z.of_nat (base.size (roles d))) in
        count_players q check
          (if IsLfgGroup guid
           then mkCounted players (u8 (numLfgGroups c + 1)) groups
                  (if numLfgGroups c =? 0 then guid else proposal_group c)
           else mkCounted players (numLfgGroups c) groups (proposal_group c))
      end
    else inr c
  end.

(** The players who do not ignore one that was taken before. *)
Definition add_player (m : LfgRolesMap) (e : Z * Z) : LfgRolesMap :=
  if existsb (fun p => negb (e.1 =? p) && HasIgnore e.1 p) (keys Z.le m) then m else <[e.1 := e.2]> m.
Definition collect_roles (q : LFGQueue) (check : list Z) : LfgRolesMap :=
  foldl (fun m guid => foldl add_player m (entries Z.le (roles (default (no_queue_data now) (QueueDataStore q !! guid)))))
    ∅ check.
Definition dungeons_of (q : LFGQueue) (guid : Z) : gset Z :=
  dungeons (default (no_queue_data now) (QueueDataStore q !! guid)).
Definition common_dungeons (q : LFGQueue) (check : list Z) : gset Z :=
  match check with
  | [] => ∅
  | guid :: check => foldl (fun X g => X ∩ dungeons_of q g) (dungeons_of q guid) check
  end.

(** The leader and the players of a proposal. *)
Definition choose_leader (acc : (bool * Z) * QState) (e : Z * Z) : (bool * Z) * QState :=
  let '((found, leader), s) := acc in
  if has_role e.2 PLAYER_ROLE_LEADER then
    if negb found || (leader =? 0) then ((true, e.1), s)
    else ((true, if negb (urand (drawn s) 0 1 =? 0) then e.1 else leader), draw s)
  else if negb found then
    if leader =? 0 then ((found, e.1), s)
    else ((found, if negb (urand (drawn s) 0 1 =? 0) then e.1 else leader), draw s)
  else acc.
Definition proposal_player (is_new : bool) (group : Z) (groups : gmap Z Z) (e : Z * Z) : Z * LfgProposalPlayer :=
  let g := default 0 (groups !! e.1) in
  (e.1, mkLfgProposalPlayer e.2
          (if negb is_new && negb (g =? 0) && (g =? group) then LFG_ANSWER_AGREE else LFG_ANSWER_PENDING) g).

Definition make_proposal (key : list Z) (check : list Z) (c : counted) (proposalDungeons : gset Z)
    (proposalRoles : LfgRolesMap) (s : QState) : LfgCompatibility * QState :=
  let is_new := negb (numLfgGroups c =? 1)
                || negb (bool_decide (GetOldState (default 0 (head check)) = LFG_STATE_DUNGEON)) in
  if negb (AllQueued check) then
    (LFG_COMPATIBLES_BAD_STATES, on_queue (SetCompatibles key LFG_COMPATIBLES_BAD_STATES) s)
  else
    let '(dungeon, s) := select_random proposalDungeons s in
    let '((_, leader), s) := foldl choose_leader ((false, 0), s) (entries Z.le proposalRoles) in
    let players := list_to_map (map (proposal_player is_new (proposal_group c) (proposalGroups c))
                                  (entries Z.le proposalRoles)) in
    let s := on_queue (fun q => foldl (fun q guid => RemoveFromCurrentQueue guid (RemoveFromNewQueue guid q)) q check) s in
    let s := AddProposal (mkLfgProposal 0 dungeon LFG_PROPOSAL_INITIATING (proposal_group c) leader
                            (now + LFG_TIME_PROPOSAL) 0 is_new check [] players) s in
    (LFG_COMPATIBLES_MATCH, on_queue (SetCompatibles key LFG_COMPATIBLES_MATCH) s).

Definition incompatible (key : list Z) (c : LfgCompatibility) (s : QState) : LfgCompatibility * QState :=
  (c, on_queue (SetCompatibles key c) s).

(** Enough players or not: the end of [CheckCompatibility]. *)
Definition check_size (key : list Z) (check : list Z) (c : counted) (proposalDungeons : gset Z)
    (proposalRoles : LfgRolesMap) (s : QState) : LfgCompatibility * QState :=
  if negb (numPlayers c =? MAXGROUPSIZE) then
    (LFG_COMPATIBLES_WITH_LESS_PLAYERS,
     on_queue (fun q =>
       SetCompatibilityData key (mkLfgCompatibilityData LFG_COMPATIBLES_WITH_LESS_PLAYERS proposalRoles)
         (foldl (fun q guid => UpdateBestCompatibleInQueue guid key proposalRoles q) q check)) s)
  else make_proposal key check c proposalDungeons proposalRoles s.

(** [CheckCompatibility] after the check of all but the first. *)
Definition check_all (check : list Z) (s : QState) : LfgCompatibility * QState :=
  let key := ConcatenateGuids check in
  let q := queue s in
  match count_players q check (mkCounted 0 0 ∅ 0) with
  | inl guid => (LFG_COMPATIBILITY_PENDING, on_queue (RemoveFromQueue guid) s)
  | inr c =>
    let front := default (no_queue_data now) (QueueDataStore q !! default 0 (head check)) in
    if (length check =? 1)%nat && negb (numPlayers c =? MAXGROUPSIZE) then
      let data := mkLfgCompatibilityData LFG_COMPATIBLES_WITH_LESS_PLAYERS (CheckGroupRoles (roles front)).2 in
      (LFG_COMPATIBLES_WITH_LESS_PLAYERS,
       on_queue (fun q => SetCompatibilityData key data
                            (UpdateBestCompatibleInQueue (default 0 (head check)) key (c_roles data) q)) s)
    else if 1 <? numLfgGroups c then incompatible key LFG_INCOMPATIBLES_MULTIPLE_LFG_GROUPS s
    else if MAXGROUPSIZE <? numPlayers c then incompatible key LFG_INCOMPATIBLES_TOO_MUCH_PLAYERS s
    else if (1 <? length check)%nat then
      let collected := collect_roles q check in
      if negb (u8 (numPlayers c - Z.of_nat (base.size collected)) =? 0)
      then incompatible key LFG_INCOMPATIBLES_HAS_IGNORES s
      else
        let '(ok, proposalRoles) := CheckGroupRoles collected in
        if negb ok then incompatible key LFG_INCOMPATIBLES_NO_ROLES s
        else
          let proposalDungeons := common_dungeons q check in
          if bool_decide (proposalDungeons = ∅) then incompatible key LFG_INCOMPATIBLES_NO_DUNGEONS s
          else check_size key check c proposalDungeons proposalRoles s
    else check_size key check c (dungeons front) (CheckGroupRoles (roles front)).2 s
  end.

Fixpoint CheckCompatibility (check : list Z) (s : QState) : LfgCompatibility * QState :=
  if (5 <? length check)%nat then (LFG_INCOMPATIBLES_WRONG_GROUP_SIZE, s)
  else
    match check with
    | [] => (LFG_INCOMPATIBLES_WRONG_GROUP_SIZE, s)
    | _ :: rest =>
      if (2 <? length check)%nat then
        let '(child, s) := CheckCompatibility rest s in
        if not_compatible child then (child, on_queue (SetCompatibles (ConcatenateGuids check) child) s)
        else check_all check s
      else check_all check s
    end.

(** The head of [FindNewGroups]: the cached or computed answer; a match if that
    was all but for the states and they are good now. *)
Definition eval_check (check : list Z) (s : QState) : LfgCompatibility * QState :=
  let key := ConcatenateGuids check in
  let cached := GetCompatibles key (queue s) in
  let '(c, s) := if bool_decide (cached = LFG_COMPATIBILITY_PENDING) then CheckCompatibility check s else (cached, s) in
  if bool_decide (c = LFG_COMPATIBLES_BAD_STATES) && AllQueued check
  then (LFG_COMPATIBLES_MATCH, on_queue (SetCompatibles key LFG_COMPATIBLES_MATCH) s)
  else (c, s).

(** The loop of [FindNewGroups] over the rest of the queue; [n] bounds its
    rounds.  [check] and [all] are references: both are returned. *)
Definition found : Type := LfgCompatibility * list Z * list Z * QState.
Fixpoint match_loop (find : list Z -> list Z -> QState -> option found) (n : nat)
    (check all : list Z) (s : QState) : option found :=
  match all, n with
  | [], _ => Some (LFG_COMPATIBLES_WITH_LESS_PLAYERS, check, [], s)
  | _, O => None
  | guid :: all, S n =>
    match find (check ++ [guid]) all s with
    | None => None
    | Some (sub, check, all, s) =>
      if bool_decide (sub = LFG_COMPATIBLES_MATCH) then Some (LFG_COMPATIBLES_MATCH, check, all, s)
      else match_loop find n (removelast check) all s
    end
  end.
Fixpoint FindNewGroups (fuel : nat) (check all : list Z) (s : QState) : option found :=
  match fuel with
  | O => None
  | S fuel =>
    let '(c, s) := eval_check check s in
    if negb (bool_decide (c = LFG_COMPATIBLES_WITH_LESS_PLAYERS)) then Some (c, check, all, s)
    else match_loop (FindNewGroups fuel) fuel check all s
  end.

Fixpoint find_groups (fuel : nat) (found : Z) (s : QState) : option (Z * QState) :=
  match newToQueueStore (queue s), fuel with
  | [], _ => Some (found, s)
  | _, O => None
  | frontguid :: _, S fuel =>
    let s := on_queue (RemoveFromNewQueue frontguid) s in
    let all := currentQueueStore (queue s) in
    match FindNewGroups (S (length all)) [frontguid] all s with
    | None => None
    | Some (c, _, _, s) =>
      if bool_decide (c = LFG_COMPATIBLES_MATCH) then find_groups fuel (u8 (found + 1)) s
      else find_groups fuel found (on_queue (AddToCurrentQueue frontguid) s)
    end
  end.
Definition FindGroups (s : QState) : option (Z * QState) :=
  find_groups (length (newToQueueStore (queue s))) 0 s.

(** ** For the operators *)

Definition dump_one (acc : Z * Z * Z) (guid : Z) : Z * Z * Z :=
  let '(players, groups, playersInGroup) := acc in
  if IS_GROUP_GUID guid then (players, u32 (groups + 1), u32 (playersInGroup + GetPlayerCount guid))
  else (u32 (players + 1), groups, playersInGroup).
Definition DumpQueueInfo (q : LFGQueue) : list Z :=
  let '(players, groups, playersInGroup) := foldl dump_one (0, 0, 0) (currentQueueStore q ++ newToQueueStore q) in
  str "Queued Players: " ++ dec players ++ str " (in group: " ++ dec playersInGroup ++ str ") Groups: " ++ dec groups
    ++ [10].
Definition DumpCompatibleInfo (full : bool) (q : LFGQueue) : list Z :=
  str "Compatible Map size: " ++ dec (Z.of_nat (base.size (CompatibleMapStore q))) ++ [10]
  ++ if full
     then concat (map (fun '(key, d) => str "(" ++ key ++ str "): " ++ GetCompatibleString (compatibility d) ++ [10])
                    (entries text_le (CompatibleMapStore q)))
     else [].
End Find.

(** ** The search is one greedy pass *)

(** One pass over the queue: each guid is tried with those taken so far, kept
    when more players are needed, and never given back. *)
Fixpoint greedy_pass `{LfgView} (check all : list Z) (s : QState) : found :=
  match all with
  | [] => (LFG_COMPATIBLES_WITH_LESS_PLAYERS, check, [], s)
  | guid :: all =>
    let '(c, s) := eval_check (check ++ [guid]) s in
    if bool_decide (c = LFG_COMPATIBLES_MATCH) then (c, check ++ [guid], all, s)
    else if bool_decide (c = LFG_COMPATIBLES_WITH_LESS_PLAYERS) then greedy_pass (check ++ [guid]) all s
    else greedy_pass check all s
  end.
(** What the search makes of a pass: without a match [check] is as before. *)
Definition pass_result (check : list Z) (r : found) : found :=
  let '(c, taken, rest, s) := r in
  if bool_decide (c = LFG_COMPATIBLES_MATCH) then r else (LFG_COMPATIBLES_WITH_LESS_PLAYERS, check, [], s).

Section Greedy.
Context `{LfgView}.

Lemma match_loop_greedy (find : list Z -> list Z -> QState -> option found) n check all s :
  (length all <= n)%nat ->
  (forall check' all' s', (length all' < length all)%nat ->
     find check' all' s' = Some (let '(c, s1) := eval_check check' s' in
       if bool_decide (c = LFG_COMPATIBLES_WITH_LESS_PLAYERS)
       then pass_result check' (greedy_pass check' all' s1) else (c, check', all', s1))) ->
  match_loop find n check all s = Some (pass_result check (greedy_pass check all s)).
Proof.
  revert check all s. induction n as [|n IH]; intros check [|guid all] s Hn Hf; cbn in Hn; try lia;
    cbn [match_loop]; [done|done|].
  rewrite Hf by (cbn; lia). cbn [greedy_pass].
  destruct (eval_check (check ++ [guid]) s) as [c s1].
  destruct (decide (c = LFG_COMPATIBLES_WITH_LESS_PLAYERS)) as [->|Hc].
  - rewrite !(bool_decide_eq_true_2 (LFG_COMPATIBLES_WITH_LESS_PLAYERS = _)) by done.
    rewrite (bool_decide_eq_false_2 (LFG_COMPATIBLES_WITH_LESS_PLAYERS = LFG_COMPATIBLES_MATCH)) by done.
    destruct (greedy_pass (check ++ [guid]) all s1) as [[[c2 taken] rest] s2]. unfold pass_result.
    case_bool_decide as Hm; [subst c2; now rewrite bool_decide_eq_true_2|].
    rewrite bool_decide_eq_false_2 by done. rewrite removelast_last. now destruct n.
  - rewrite !(bool_decide_eq_false_2 _ Hc). case_bool_decide as Hm.
    + subst c. unfold pass_result. now rewrite bool_decide_eq_true_2.
    + rewrite removelast_last. apply IH; [lia|]. intros. apply Hf. cbn. lia.
Qed.

Lemma FindNewGroups_pass fuel check all s : (length all < fuel)%nat ->
  FindNewGroups fuel check all s = Some (let '(c, s1) := eval_check check s in
    if bool_decide (c = LFG_COMPATIBLES_WITH_LESS_PLAYERS)
    then pass_result check (greedy_pass check all s1) else (c, check, all, s1)).
Proof.
  revert check all s. induction fuel as [|fuel IH]; intros check all s Hf; [lia|]. cbn [FindNewGroups].
  destruct (eval_check check s) as [c s1]. case_bool_decide; cbn [negb]; [|done].
  apply match_loop_greedy; [lia|]. intros. apply IH. lia.
Qed.

(** The search for a group ends, and although it is written as a backtracking
    search it is one pass over the queue: as the recursive calls share the list of
    the others, a guid that was taken is never given up for a later one. *)
Theorem FindNewGroups_greedy check all s :
  let '(c, s1) := eval_check check s in
  FindNewGroups (S (length all)) check all s =
    Some (if bool_decide (c = LFG_COMPATIBLES_WITH_LESS_PLAYERS)
          then pass_result check (greedy_pass check all s1) else (c, check, all, s1)).
Proof. rewrite FindNewGroups_pass by lia. now destruct (eval_check check s). Qed.
End Greedy.

(** A view in which everybody is queued and nobody ignores anybody. *)
Definition open_view : LfgView :=
  mkLfgView (fun _ => true) (fun _ => false) (fun _ => LFG_STATE_NONE) (fun _ _ => false) (fun _ => 1) 1000
    (fun _ lo _ => lo).
Definition start_state : QState := mkQState new_queue 0 ∅ 0.
(** A player joins and the queue is updated. *)
Definition joins (s : option QState) (e : Z * Z * list Z) : option QState :=
  let '(guid, role, ds) := e in
  match s with
  | None => None
  | Some s => option_map snd
      (FindGroups (view := open_view) (on_queue (AddQueueData guid 0 (list_to_set ds) {[guid := role]}) s))
  end.
(** Healers for dungeon 1 and for dungeon 2, three damage dealers for dungeon 2,
    and then a tank for both. *)
Definition missed_queue : option QState :=
  foldl joins (Some start_state)
    [(1, 4, [1]); (2, 4, [2]); (3, 8, [2]); (4, 8, [2]); (5, 8, [2]); (6, 2, [1; 2])].

(** A group that the search misses: no proposal is made, although the tank, the
    second healer and the damage dealers are a match. *)
Lemma FindGroups_misses_group :
  match missed_queue with
  | None => False
  | Some s => ProposalsStore s = ∅ /\ newToQueueStore (queue s) = [] /\ currentQueueStore (queue s) = [1; 2; 3; 4; 5; 6] /\
              (CheckCompatibility (view := open_view) [6; 2; 3; 4; 5] s).1 = LFG_COMPATIBLES_MATCH
  end.
Proof. vm_compute. repeat split. Qed.

(** ** Leaving the queue *)

Lemma prefix_of_app p b : prefix_of p (p ++ b) = true.
Proof. induction p as [|x p IH]; cbn; [done|]. now rewrite Z.eqb_refl. Qed.
Lemma contains_app a p b : contains p (a ++ p ++ b) = true.
Proof.
  induction a as [|x a IH]; cbn.
  - destruct (p ++ b) eqn:E; cbn; rewrite <- E, prefix_of_app; done.
  - rewrite IH. apply orb_true_r.
Qed.

Lemma join_numbers_contains sep l g : g ∈ l -> exists a b, join_numbers sep l = a ++ dec g ++ b.
Proof.
  destruct l as [|x l]; [set_solver|]. unfold join_numbers. intros [-> |Hg]%elem_of_cons; [now eexists [], _|].
  assert (exists a b, concat (map (fun y => sep ++ dec y) l) = a ++ dec g ++ b) as (a & b & ->).
  { induction l as [|y l IH]; [set_solver|]. cbn [map concat]. apply elem_of_cons in Hg as [-> |Hg].
    - exists sep. eexists. now rewrite <- app_assoc.
    - destruct (IH Hg) as (a & b & ->). exists ((sep ++ dec y) ++ a), b. now rewrite <- !app_assoc. }
  exists (dec x ++ a), b. now rewrite <- app_assoc.
Qed.
Lemma key_contains check g : g ∈ check -> contains (dec g) (ConcatenateGuids check) = true.
Proof.
  intros Hg. destruct (join_numbers_contains (str "|") (set_order Z.le (list_to_set check : gset Z)) g) as (a & b & E).
  { rewrite elem_of_set_order. now apply elem_of_list_to_set. }
  unfold ConcatenateGuids. rewrite E. apply contains_app.
Qed.

Lemma elem_of_list_remove_all g x l : x ∈ list_remove_all g l <-> x <> g /\ x ∈ l.
Proof. unfold list_remove_all. now rewrite list_elem_of_filter. Qed.

(** What an update of the shown combinations leaves alone. *)
Record same_but_best (q q' : LFGQueue) : Prop := mk_same_but_best {
  sb_compat : CompatibleMapStore q' = CompatibleMapStore q;
  sb_current : currentQueueStore q' = currentQueueStore q;
  sb_new : newToQueueStore q' = newToQueueStore q;
  sb_data : forall g, fmap (fun d => (joinTime d, dungeons d, roles d)) (QueueDataStore q' !! g)
                      = fmap (fun d => (joinTime d, dungeons d, roles d)) (QueueDataStore q !! g)
}.
#[export] Instance same_but_best_preorder : PreOrder same_but_best.
Proof.
  split; [split; auto|]. intros q1 q2 q3 [] []. split; congruence.
Qed.

Lemma alter_best q f g :
  (forall d, (joinTime (f d), dungeons (f d), roles (f d)) = (joinTime d, dungeons d, roles d)) ->
  same_but_best q (with_data q (alter f g (QueueDataStore q))).
Proof.
  intros Hf. split; try done. intros g'. cbn. destruct (decide (g = g')) as [->|Hne].
  - rewrite lookup_alter_eq. destruct (QueueDataStore q !! g'); [cbn; now rewrite Hf|done].
  - now rewrite lookup_alter_ne.
Qed.
Lemma update_best_same key rs d :
  (joinTime (update_best key rs d), dungeons (update_best key rs d), roles (update_best key rs d))
  = (joinTime d, dungeons d, roles d).
Proof.
  unfold update_best. case_if; [done|].
  assert (H : forall l d, (joinTime (foldl count_role d l), dungeons (foldl count_role d l), roles (foldl count_role d l))
    = (joinTime d, dungeons d, roles d)).
  { induction l as [|r l IH]; intros d0; cbn; [done|]. rewrite IH. unfold count_role. now repeat case_if. }
  now rewrite H.
Qed.

Lemma UpdateBest_same g key rs q : same_but_best q (UpdateBestCompatibleInQueue g key rs q).
Proof. apply alter_best. apply update_best_same. Qed.
Lemma foldl_same {A} (f : LFGQueue -> A -> LFGQueue) l q :
  (forall q x, same_but_best q (f q x)) -> same_but_best q (foldl f q l).
Proof.
  intros Hf. revert q. induction l as [|x l IH]; intros q; cbn; [done|]. etransitivity; [apply Hf|apply IH].
Qed.
Lemma FindBest_same g q : same_but_best q (FindBestCompatibleInQueue g q).
Proof.
  unfold FindBestCompatibleInQueue. apply foldl_same. intros q0 [key data]. case_if; [apply UpdateBest_same|done].
Qed.
#[export] Hint Resolve UpdateBest_same FindBest_same : trinity.

(** The shown combination of [g] contains no text that the cache does not. *)
Lemma count_role_best d r : bestCompatible (count_role d r) = bestCompatible d.
Proof. unfold count_role. now repeat case_if. Qed.
Lemma update_best_best key rs d : bestCompatible (update_best key rs d) = bestCompatible d \/ bestCompatible (update_best key rs d) = key.
Proof.
  unfold update_best. case_if; [now left|right].
  assert (H : forall l d, bestCompatible (foldl count_role d l) = bestCompatible d).
  { induction l as [|r l IH]; intros d0; cbn; [done|]. rewrite IH. apply count_role_best. }
  now rewrite H.
Qed.

Definition best_of (q : LFGQueue) (g : Z) : list Z := default [] (bestCompatible <$> QueueDataStore q !! g).
Definition lacks (pat s : list Z) : Prop := contains pat s = false.
(** Nothing of the cache contains [pat]. *)
Definition cache_lacks (pat : list Z) (q : LFGQueue) : Prop := map_Forall (fun key _ => lacks pat key) (CompatibleMapStore q).

Lemma UpdateBest_lacks pat g key rs q g' :
  lacks pat key -> (g' = g \/ lacks pat (best_of q g')) -> (g' = g -> lacks pat (best_of q g)) ->
  lacks pat (best_of (UpdateBestCompatibleInQueue g key rs q) g').
Proof.
  intros Hk Hg' Hg. unfold best_of, UpdateBestCompatibleInQueue in *. cbn. destruct (decide (g' = g)) as [->|Hne].
  - rewrite lookup_alter_eq. specialize (Hg eq_refl). destruct (QueueDataStore q !! g) as [d|]; [|done]. cbn in *.
    destruct (update_best_best key rs d) as [-> | ->]; assumption.
  - rewrite lookup_alter_ne by done. now destruct Hg'.
Qed.

Lemma FindBest_lacks pat g q g' :
  cache_lacks pat q -> lacks pat (best_of q g) -> lacks pat (best_of q g') ->
  lacks pat (best_of (FindBestCompatibleInQueue g q) g').
Proof.
  intros Hc. unfold FindBestCompatibleInQueue.
  assert (Hk : forall e, e ∈ entries text_le (CompatibleMapStore q) -> lacks pat e.1)
    by (intros [key data] He; apply elem_of_entries in He; now apply Hc in He).
  revert q Hc Hk. intros q0 _. generalize (entries text_le (CompatibleMapStore q0)). intros l Hk. revert q0 Hk.
  induction l as [|[key data] l IH]; intros q Hk Hg Hg'; cbn; [done|].
  apply IH; [intros e He; apply Hk; now right| |]; case_if; try done;
    apply UpdateBest_lacks; auto; apply (Hk (key, data)); left.
Qed.

Lemma contains_nil p : p <> [] -> contains p [] = false.
Proof. now destruct p. Qed.
Lemma dec_nonempty n : dec n <> [].
Proof.
  unfold dec. assert (H : forall fuel n acc, (acc <> [] \/ fuel <> O) -> dec_loop fuel n acc <> []).
  { induction fuel as [|fuel IH]; intros m acc Ha; cbn; [now destruct Ha|].
    case_if; [done|]. apply IH. now left. }
  apply H. now right.
Qed.

(** The clean-up of the shown combinations in [RemoveFromQueue]. *)
Definition forget_one (guid : Z) (q : LFGQueue) (g : Z) : LFGQueue :=
  if negb (g =? guid) && contains (dec guid) (best_of q g)
  then FindBestCompatibleInQueue g (with_data q (alter clear_best g (QueueDataStore q))) else q.
Lemma forget_one_same guid q g : same_but_best q (forget_one guid q g).
Proof.
  unfold forget_one. case_if; [|done]. etransitivity; [|apply FindBest_same]. now apply alter_best.
Qed.
Lemma forget_one_lacks guid q g g' :
  cache_lacks (dec guid) q -> g <> guid -> (g' = g \/ lacks (dec guid) (best_of q g')) ->
  lacks (dec guid) (best_of (forget_one guid q g) g').
Proof.
  intros Hc Hg Hg'. unfold forget_one. rewrite (proj2 (Z.eqb_neq g guid)) by done. cbn [negb andb].
  destruct (contains (dec guid) (best_of q g)) eqn:E.
  - assert (Hcl : forall x, (x = g \/ lacks (dec guid) (best_of q x)) ->
      lacks (dec guid) (best_of (with_data q (alter clear_best g (QueueDataStore q))) x)).
    { intros x Hx. unfold best_of in *; cbn. destruct (decide (x = g)) as [->|Hne].
      - rewrite lookup_alter_eq. destruct (QueueDataStore q !! g); apply contains_nil, dec_nonempty.
      - rewrite lookup_alter_ne by done. now destruct Hx. }
    apply FindBest_lacks; auto.
  - destruct Hg' as [-> |]; done.
Qed.

Lemma forget_all_lacks guid gs q g' :
  cache_lacks (dec guid) q -> g' <> guid -> (g' ∈ gs \/ lacks (dec guid) (best_of q g')) ->
  lacks (dec guid) (best_of (foldl (forget_one guid) q gs) g').
Proof.
  intros Hc Hne. revert q Hc. induction gs as [|g gs IH]; intros q Hc Hg'; cbn.
  { destruct Hg' as [Hg'|]; [now apply not_elem_of_nil in Hg'|done]. }
  apply IH.
  - pose proof (sb_compat _ _ (forget_one_same guid q g)) as E. unfold cache_lacks. now rewrite E.
  - destruct (decide (g' ∈ gs)) as [|Hni]; [now left|right].
    destruct (decide (g = guid)) as [->|Hg].
    + unfold forget_one. rewrite Z.eqb_refl. cbn. destruct Hg' as [[-> |]%elem_of_cons|]; done.
    + apply forget_one_lacks; [done..|]. destruct Hg' as [[-> |]%elem_of_cons|]; auto. done.
Qed.

Lemma RemoveFromQueue_eq guid q :
  RemoveFromQueue guid q =
    let q1 := RemoveFromCompatibles guid (RemoveFromCurrentQueue guid (RemoveFromNewQueue guid q)) in
    let q2 := foldl (forget_one guid) q1 (keys Z.le (QueueDataStore q1)) in
    with_data q2 (delete guid (QueueDataStore q2)).
Proof. reflexivity. Qed.

(** Nothing of the data of the others changes but the shown combination. *)
Lemma RemoveFromQueue_data guid q g d' :
  QueueDataStore (RemoveFromQueue guid q) !! g = Some d' ->
  exists d, QueueDataStore q !! g = Some d /\ roles d = roles d' /\ dungeons d = dungeons d'.
Proof.
  rewrite RemoveFromQueue_eq. cbn zeta. cbn [QueueDataStore with_data].
  set (q1 := RemoveFromCompatibles guid (RemoveFromCurrentQueue guid (RemoveFromNewQueue guid q))).
  assert (Hsame : same_but_best q1 (foldl (forget_one guid) q1 (keys Z.le (QueueDataStore q1))))
    by (apply foldl_same; intros; apply forget_one_same).
  intros [_ Hd]%lookup_delete_Some. pose proof (sb_data _ _ Hsame g) as E. rewrite Hd in E.
  change (QueueDataStore q1) with (QueueDataStore q) in E.
  destruct (QueueDataStore q !! g) as [d|]; [|done]. cbn in E. exists d. naive_solver.
Qed.

(** Whose data is left, and the lists. *)
Lemma RemoveFromQueue_view guid q g :
  fmap (fun d => (joinTime d, dungeons d, roles d)) (QueueDataStore (RemoveFromQueue guid q) !! g)
  = if decide (g = guid) then None else fmap (fun d => (joinTime d, dungeons d, roles d)) (QueueDataStore q !! g).
Proof.
  rewrite RemoveFromQueue_eq. cbn zeta. cbn [QueueDataStore with_data].
  set (q1 := RemoveFromCompatibles guid (RemoveFromCurrentQueue guid (RemoveFromNewQueue guid q))).
  assert (Hsame : same_but_best q1 (foldl (forget_one guid) q1 (keys Z.le (QueueDataStore q1))))
    by (apply foldl_same; intros; apply forget_one_same).
  case_decide as E; [subst; now rewrite lookup_delete_eq|]. rewrite lookup_delete_ne by done. apply (sb_data _ _ Hsame g).
Qed.
Lemma RemoveFromQueue_lists guid q :
  newToQueueStore (RemoveFromQueue guid q) = list_remove_all guid (newToQueueStore q) /\
  currentQueueStore (RemoveFromQueue guid q) = list_remove_all guid (currentQueueStore q).
Proof.
  rewrite RemoveFromQueue_eq. cbn zeta. cbn [newToQueueStore currentQueueStore with_data].
  set (q1 := RemoveFromCompatibles guid (RemoveFromCurrentQueue guid (RemoveFromNewQueue guid q))).
  assert (Hsame : same_but_best q1 (foldl (forget_one guid) q1 (keys Z.le (QueueDataStore q1))))
    by (apply foldl_same; intros; apply forget_one_same).
  split; [apply (sb_new _ _ Hsame)|apply (sb_current _ _ Hsame)].
Qed.

(** Leaving the queue removes every trace of a guid: its data, its place in
    both lists, every cached combination that contains it and its mention in the
    combinations shown to others.  What the others asked for stays. *)
Theorem RemoveFromQueue_complete guid q :
  let q' := RemoveFromQueue guid q in
  QueueDataStore q' !! guid = None /\
  (guid ∉ newToQueueStore q') /\ (guid ∉ currentQueueStore q') /\
  (forall check, guid ∈ check -> CompatibleMapStore q' !! ConcatenateGuids check = None) /\
  (forall g d, QueueDataStore q' !! g = Some d -> contains (dec guid) (bestCompatible d) = false) /\
  (forall g, g <> guid -> fmap (fun d => (joinTime d, dungeons d, roles d)) (QueueDataStore q' !! g)
                          = fmap (fun d => (joinTime d, dungeons d, roles d)) (QueueDataStore q !! g)).
Proof.
  intros q'. unfold q'. rewrite RemoveFromQueue_eq. cbn zeta.
  set (q1 := RemoveFromCompatibles guid (RemoveFromCurrentQueue guid (RemoveFromNewQueue guid q))).
  set (q2 := foldl (forget_one guid) q1 (keys Z.le (QueueDataStore q1))).
  assert (Hsame : same_but_best q1 q2) by (apply foldl_same; intros; apply forget_one_same).
  assert (Hc : cache_lacks (dec guid) q1).
  { intros key data Hk. cbn in Hk. apply map_lookup_filter_Some in Hk as [_ Hk]. exact Hk. }
  destruct Hsame as [Ec Ecur En Ed]. split_and!.
  - cbn. apply lookup_delete_eq.
  - cbn. rewrite En. cbn. rewrite elem_of_list_remove_all. now intros [? _].
  - cbn. rewrite Ecur. change (guid ∉ list_remove_all guid (currentQueueStore q)). rewrite elem_of_list_remove_all. now intros [? _].
  - intros check Hg. cbn. rewrite Ec. cbn. apply map_lookup_filter_None. right. intros data _ Hf.
    pose proof (key_contains check guid Hg) as Hk. change (contains (dec guid) (ConcatenateGuids check) = false) in Hf. congruence.
  - intros g d Hd. cbn in Hd. destruct (decide (g = guid)) as [->|Hg].
    { now rewrite lookup_delete_eq in Hd. }
    rewrite lookup_delete_ne in Hd by done.
    assert (H := forget_all_lacks guid (keys Z.le (QueueDataStore q1)) q1 g Hc Hg). fold q2 in H.
    unfold best_of, lacks in H. rewrite Hd in H. apply H. left. apply elem_of_keys.
    specialize (Ed g). rewrite Hd in Ed. destruct (QueueDataStore q1 !! g) as [d1|]; [now exists d1|done].
  - intros g Hg. cbn. rewrite lookup_delete_ne by done. rewrite Ed. done.
Qed.

(** The text search also finds a guid inside a longer one: the combination shown
    to player 5 is one of players 15 and 25, and a player who leaves clears the
    cached combinations of others. *)
Definition longer_guids : option QState := foldl joins (Some start_state) [(15, 2, [1]); (25, 4, [1]); (5, 8, [2])].
Lemma best_of_another_player :
  match longer_guids with
  | None => False
  | Some s => best_of (FindBestCompatibleInQueue 5 (with_data (queue s) (alter clear_best 5 (QueueDataStore (queue s))))) 5
              = str "15|25" /\
              CompatibleMapStore (queue s) !! ConcatenateGuids [15; 25] <> None /\
              CompatibleMapStore (RemoveFromQueue 5 (queue s)) !! ConcatenateGuids [15; 25] = None
  end.
Proof. vm_compute. repeat split. discriminate. Qed.
