(* ===== verification/LfgMatch.v ===== *)
(** * Dungeon finder: the groups that are proposed

    Theorems about the search of [LfgQueue]: every proposal it makes is a valid
    group, and what happens to a combination whose members were not all queued
    when it was first checked.  [evolves] is the relation between the states
    before and after any part of the search. *)

From stdpp Require Import base gmap list.
From Stdlib Require Import ZArith Lia.
From S2P Require Import Prelude StdMap Util ObjectGuid LfgRoles LfgData LfgQueue.
#[local] Open Scope Z_scope.

(** ** Valid groups *)

(** What joining checks: at most five players, some dungeons, and a full group
    has passed its role check. *)
Record data_ok (d : LfgQueueData) : Prop := mk_data_ok {
  do_size : Z.of_nat (base.size (roles d)) <= MAXGROUPSIZE;
  do_bytes : map_Forall (fun _ r => is_u 8 r) (roles d);
  do_dungeons : dungeons d <> ∅;
  do_full : Z.of_nat (base.size (roles d)) = MAXGROUPSIZE -> exists m, role_assignment (roles d) m
}.
Definition queue_ok (q : LFGQueue) : Prop := map_Forall (fun _ => data_ok) (QueueDataStore q).

Section Match.
Context `{view : LfgView}.
Hypothesis urand_range : forall n lo hi, lo <= hi -> lo <= urand n lo hi <= hi.
Hypothesis HasIgnore_sym : forall a b, HasIgnore a b = HasIgnore b a.

(** The group noted for a player: that of a group of [check] he waits with, or 0
    when he waits alone. *)
Definition from_group (q : LFGQueue) (check : list Z) (who v : Z) : Prop :=
  exists g d, g ∈ check /\ QueueDataStore q !! g = Some d /\ who ∈ dom (roles d) /\ v = if IS_GROUP_GUID g then g else 0.

(** A proposal of the groups [queues p]: five players, each with his group and a
    role that he offered, one tank, one healer, three damage dealers, a dungeon that every
    group selected, no two players from different groups that ignore each other,
    and at most one group that is in a dungeon already. *)
Record good_group (q : LFGQueue) (p : LfgProposal) : Prop := mk_good_group {
  gg_size : base.size (p_players p) = 5%nat;
  gg_offered : forall who pp, p_players p !! who = Some pp -> exists g d r,
    g ∈ queues p /\ QueueDataStore q !! g = Some d /\ roles d !! who = Some r /\ plays (clear_leader r) (role pp) = true;
  gg_from : forall who pp, p_players p !! who = Some pp -> from_group q (queues p) who (group_of pp);
  gg_tank : count PLAYER_ROLE_TANK (roles_of (role <$> p_players p)) = LFG_TANKS_NEEDED;
  gg_healer : count PLAYER_ROLE_HEALER (roles_of (role <$> p_players p)) = LFG_HEALERS_NEEDED;
  gg_damage : count PLAYER_ROLE_DAMAGE (roles_of (role <$> p_players p)) = LFG_DPS_NEEDED;
  gg_dungeon : forall g, g ∈ queues p -> exists d, QueueDataStore q !! g = Some d /\ dungeonId p ∈ dungeons d;
  gg_ignore : (1 < length (queues p))%nat -> forall a b, a ∈ dom (p_players p) -> b ∈ dom (p_players p) -> a <> b ->
    HasIgnore a b = false;
  gg_queued : AllQueued (queues p) = true;
  gg_groups : (length (filter (fun g => IsLfgGroup g = true) (queues p)) <= 1)%nat;
  gg_leader : p_leader p ∈ dom (p_players p);
  gg_state : p_state p = LFG_PROPOSAL_INITIATING /\ p_cancelTime p = now + LFG_TIME_PROPOSAL
}.

(** ** Counting the players *)

Definition players_in (q : LFGQueue) (check : list Z) : Z :=
  foldr (fun g n => Z.of_nat (base.size (roles (default (no_queue_data now) (QueueDataStore q !! g)))) + n) 0 check.

Lemma foldl_insert_const (l : list Z) (v : Z) (m : gmap Z Z) who :
  foldl (fun m p => <[p := v]> m) m l !! who = if decide (who ∈ l) then Some v else m !! who.
Proof.
  revert m. induction l as [|p l IH]; intros m; cbn [foldl]; [now rewrite decide_False by apply not_elem_of_nil|].
  rewrite IH. destruct (decide (who ∈ l)) as [Hl|Hl].
  - now rewrite decide_True by now right.
  - destruct (decide (who = p)) as [->|Hp].
    + rewrite lookup_insert_eq. now rewrite decide_True by left.
    + rewrite lookup_insert_ne by done. now rewrite decide_False by (intros [-> |?]%elem_of_cons; done).
Qed.
(** What the loop notes as the groups of the players. *)
Definition groups_noted (q : LFGQueue) (check : list Z) (m0 m : gmap Z Z) : Prop :=
  forall who,
    (exists v, m !! who = Some v /\ from_group q check who v)
    \/ (m !! who = m0 !! who /\ forall g d, g ∈ check -> QueueDataStore q !! g = Some d -> who ∉ dom (roles d)).
Lemma groups_noted_cons q g d check m0 m :
  QueueDataStore q !! g = Some d ->
  groups_noted q check (foldl (fun m p => <[p := if IS_GROUP_GUID g then g else 0]> m) m0 (keys Z.le (roles d))) m ->
  groups_noted q (g :: check) m0 m.
Proof.
  intros Hg Hm who. destruct (Hm who) as [(v & Hv & g' & d' & Hg' & Hd' & Hw & ->)|[Hv Hn]].
  - left. eexists. split; [exact Hv|]. exists g', d'. split; [now right|done].
  - rewrite foldl_insert_const in Hv. case_decide as Hw.
    + left. eexists. split; [exact Hv|]. exists g, d. split; [left|]. split; [done|]. split; [|done].
      apply elem_of_dom. now apply (elem_of_keys Z.le).
    + right. split; [exact Hv|]. intros g' d' [->|Hg']%elem_of_cons Hd'; [|now apply (Hn g')].
      replace d' with d by congruence. intros Hin. apply Hw. apply (elem_of_keys Z.le). now apply elem_of_dom.
Qed.

Lemma count_players_all q check c0 c :
  queue_ok q -> 0 <= numPlayers c0 <= MAXGROUPSIZE -> 0 <= numLfgGroups c0 <= 1 ->
  count_players q check c0 = inr c -> numPlayers c <= MAXGROUPSIZE -> numLfgGroups c <= 1 ->
  Forall (fun g => is_Some (QueueDataStore q !! g)) check /\
  numPlayers c = numPlayers c0 + players_in q check /\
  numLfgGroups c = numLfgGroups c0 + Z.of_nat (length (filter (fun g => IsLfgGroup g = true) check)) /\
  groups_noted q check (proposalGroups c0) (proposalGroups c).
Proof.
  intros Hq. revert c0. induction check as [|g check IH]; intros c0 Hp Hg Hc Hle Hgr.
  { cbn in Hc. injection Hc as <-. split; [constructor|]. cbn. split; [lia|]. split; [lia|].
    intros who. right. split; [done|]. intros g d Hin. now apply not_elem_of_nil in Hin. }
  cbn [count_players] in Hc. unfold MAXGROUPSIZE in *.
  rewrite (proj2 (Z.ltb_lt _ _)), (proj2 (Z.leb_le _ _)) in Hc by lia. cbn [andb] in Hc.
  destruct (QueueDataStore q !! g) as [d|] eqn:Ed; [|done].
  assert (Hd : data_ok d) by now apply (Hq g). pose proof (do_size _ Hd) as Hsize. unfold MAXGROUPSIZE in Hsize.
  rewrite uwrap_id in Hc by (unfold is_u; lia).
  assert (Hpl : players_in q (g :: check) = Z.of_nat (base.size (roles d)) + players_in q check)
    by (cbn; now rewrite Ed).
  (* the loop only stops early where the numbers are too large already *)
  assert (Hstop : forall c1, count_players q check c1 = inr c ->
    numPlayers c1 <= 5 /\ numLfgGroups c1 <= 1).
  { intros c1 Hc1. destruct (decide (numPlayers c1 <= 5 /\ numLfgGroups c1 <= 1)) as [|Hbad]; [done|].
    destruct check as [|g2 check]; cbn [count_players] in Hc1; [injection Hc1 as <-; lia|].
    destruct ((numLfgGroups c1 <? 2) && (numPlayers c1 <=? MAXGROUPSIZE)) eqn:E; zbool; unfold MAXGROUPSIZE in *; [lia|].
    injection Hc1 as <-. lia. }
  assert (Hfil : Z.of_nat (length (filter (fun g => IsLfgGroup g = true) (g :: check)))
                 = (if IsLfgGroup g then 1 else 0) + Z.of_nat (length (filter (fun g => IsLfgGroup g = true) check)))
    by (rewrite filter_cons; case_decide as Hl; [rewrite Hl; cbn; lia|destruct (IsLfgGroup g); [done|lia]]).
  rewrite Hfil, Hpl. destruct (IsLfgGroup g).
  all: pose proof (Hstop _ Hc) as [Hs1 Hs2]; cbn [numPlayers numLfgGroups] in Hs1, Hs2.
  all: rewrite ?uwrap_id in * by (unfold is_u; lia).
  all: edestruct IH as (Hall & Hn & Hl & Hnote); [| |exact Hc|exact Hle|exact Hgr|]; cbn [numPlayers numLfgGroups] in *; try lia.
  all: split; [constructor; [now exists d|done]|]; split; [lia|]; split; [lia|].
  all: now apply (groups_noted_cons q g d).
Qed.

(** ** Collecting the roles *)

Lemma players_in_cons q g check :
  players_in q (g :: check)
  = Z.of_nat (base.size (roles (default (no_queue_data now) (QueueDataStore q !! g)))) + players_in q check.
Proof. reflexivity. Qed.

Definition comes_from (q : LFGQueue) (check : list Z) (who r : Z) : Prop :=
  exists g d, g ∈ check /\ QueueDataStore q !! g = Some d /\ roles d !! who = Some r.
Definition no_ignores (m : LfgRolesMap) : Prop :=
  forall a b, a ∈ dom m -> b ∈ dom m -> a <> b -> HasIgnore a b = false.

Lemma add_player_spec m e (P : Z -> Z -> Prop) :
  P e.1 e.2 -> map_Forall P m -> no_ignores m ->
  map_Forall P (add_player m e) /\ no_ignores (add_player m e) /\
  (base.size (add_player m e) <= S (base.size m))%nat.
Proof.
  intros He Hm Hn. unfold add_player. destruct (existsb _ _) eqn:E; [repeat split; auto|]. repeat split.
  - now apply map_Forall_insert_2.
  - assert (Hno : forall p, p ∈ dom m -> e.1 <> p -> HasIgnore e.1 p = false).
    { intros p Hp Hne. apply not_true_iff_false. intros Hi. apply not_true_iff_false in E. apply E.
      apply existsb_exists. exists p. rewrite Hi, (proj2 (Z.eqb_neq _ _)) by done. split; [|done].
      apply list_elem_of_In, elem_of_keys. now apply elem_of_dom. }
    intros a b Ha Hb Hab. rewrite dom_insert in Ha, Hb.
    apply elem_of_union in Ha as [->%elem_of_singleton|Ha], Hb as [->%elem_of_singleton|Hb]; [done| | |now apply Hn].
    + now apply Hno.
    + rewrite HasIgnore_sym. now apply Hno.
  - rewrite map_size_insert. destruct (m !! e.1); cbn; lia.
Qed.

Lemma add_players_spec l m (P : Z -> Z -> Prop) :
  Forall (fun e => P e.1 e.2) l -> map_Forall P m -> no_ignores m ->
  map_Forall P (foldl add_player m l) /\ no_ignores (foldl add_player m l) /\
  (base.size (foldl add_player m l) <= length l + base.size m)%nat.
Proof.
  intros Hl. revert m. induction Hl as [|e l He _ IH]; intros m Hm Hn; cbn; [done|].
  destruct (add_player_spec m e P He Hm Hn) as (H1 & H2 & H3).
  destruct (IH _ H1 H2) as (H4 & H5 & H6). repeat split; try done. lia.
Qed.

Lemma collect_roles_spec q check :
  map_Forall (comes_from q check) (collect_roles q check) /\ no_ignores (collect_roles q check) /\
  Z.of_nat (base.size (collect_roles q check)) <= players_in q check.
Proof.
  assert (H : forall check0 m, Forall (.∈ check) check0 -> map_Forall (comes_from q check) m -> no_ignores m ->
    let m' := foldl (fun m guid => foldl add_player m
                (entries Z.le (roles (default (no_queue_data now) (QueueDataStore q !! guid))))) m check0 in
    map_Forall (comes_from q check) m' /\ no_ignores m' /\
    Z.of_nat (base.size m') <= players_in q check0 + Z.of_nat (base.size m)).
  { induction check0 as [|g check0 IH]; intros m Hc Hm Hn; cbn [foldl]; [repeat split; try done; lia|].
    apply Forall_cons in Hc as [Hg Hc].
    set (rs := roles (default (no_queue_data now) (QueueDataStore q !! g))).
    destruct (add_players_spec (entries Z.le rs) m (comes_from q check)) as (H1 & H2 & H3); [|done|done|].
    { apply Forall_forall. intros [who r] He. apply elem_of_entries in He. cbn. unfold rs in He.
      destruct (QueueDataStore q !! g) as [d|] eqn:Ed; cbn in He; [now exists g, d|now rewrite lookup_empty in He]. }
    destruct (IH _ Hc H1 H2) as (H4 & H5 & H6). repeat split; try done.
    rewrite length_entries in H3. fold rs in H6. cbn zeta in H6. rewrite players_in_cons. fold rs. lia. }
  destruct (H check ∅) as (H1 & H2 & H3).
  - now apply Forall_forall.
  - apply map_Forall_empty.
  - intros a b Ha. set_solver.
  - repeat split; try done. rewrite map_size_empty in H3. unfold collect_roles. lia.
Qed.

Lemma comes_from_byte q check who r : queue_ok q -> comes_from q check who r -> is_u 8 r.
Proof. intros Hq (g & d & _ & Hd & Hr). apply (do_bytes d (Hq g d Hd) who r Hr). Qed.

(** ** The dungeon and the leader *)

Lemma common_dungeons_in q check x g : x ∈ common_dungeons q check -> g ∈ check -> x ∈ dungeons_of q g.
Proof.
  destruct check as [|g0 check]; cbn; [set_solver|].
  assert (H : forall l X, x ∈ foldl (fun X g => X ∩ dungeons_of q g) X l -> x ∈ X /\ forall g, g ∈ l -> x ∈ dungeons_of q g).
  { induction l as [|g1 l IH]; intros X Hx; cbn in Hx; [set_solver|].
    destruct (IH _ Hx) as [Hx1 Hl]. split; [set_solver|]. intros g2 [-> |Hg]%elem_of_cons; [set_solver|now apply Hl]. }
  intros Hx. destruct (H _ _ Hx) as [H0 Hl]. intros [-> |Hg]%elem_of_cons; auto.
Qed.

Lemma select_random_in X s : X <> ∅ -> (select_random X s).1 ∈ X.
Proof.
  intros HX. unfold select_random; cbn. set (l := set_order Z.le X).
  assert (Hl : (0 < length l)%nat).
  { unfold l. rewrite length_set_order. apply Nat.neq_0_lt_0. intros H0. apply HX. now apply size_empty_inv_L in H0 || (apply size_empty_inv in H0; set_solver). }
  pose proof (urand_range (drawn s) 0 (Z.of_nat (length l) - 1) ltac:(lia)) as Hu.
  destruct (lookup_lt_is_Some_2 l (Z.to_nat (urand (drawn s) 0 (Z.of_nat (length l) - 1)))) as [x Hx]; [lia|].
  rewrite Hx. cbn. apply (elem_of_set_order Z.le). now apply list_elem_of_lookup_2 in Hx.
Qed.

Lemma choose_leader_in l s : l <> [] -> (foldl choose_leader ((false, 0), s) l).1.2 ∈ map fst l.
Proof.
  assert (H : forall l acc pre, acc.1.2 ∈ pre -> (foldl choose_leader acc l).1.2 ∈ pre ++ map fst l).
  { clear l. induction l as [|e l IH]; intros [[found leader] s0] pre Hp; cbn [foldl map]; [now rewrite app_nil_r|].
    rewrite cons_middle, app_assoc. apply IH. rewrite elem_of_app, list_elem_of_singleton.
    unfold choose_leader. repeat case_if; cbn in *; auto. }
  destruct l as [|e l]; [done|]. intros _. cbn [foldl map].
  change (e.1 :: map fst l) with ([e.1] ++ map fst l). apply H.
  unfold choose_leader; cbn. case_if; cbn; apply list_elem_of_singleton; done.
Qed.

(** ** A proposal is a valid group *)

Lemma counts_sum l : Forall (.∈ all_roles) l ->
  count PLAYER_ROLE_TANK l + count PLAYER_ROLE_HEALER l + count PLAYER_ROLE_DAMAGE l = Z.of_nat (length l).
Proof.
  induction 1 as [|r l Hr _ IH]; [reflexivity|]. rewrite !count_cons. cbn [length].
  set_unfold in Hr. destruct Hr as [-> | [-> | [-> | []]]]; repeat case_decide; try done; lia.
Qed.
Lemma assignment_roles m rs : role_assignment m rs -> Forall (.∈ all_roles) (roles_of rs).
Proof.
  intros [_ Hd Hp _ _ _]. apply Forall_forall. intros x Hx. unfold roles_of in Hx.
  apply list_elem_of_fmap in Hx as ([who x'] & -> & He). apply elem_of_entries in He. cbn.
  assert (is_Some (m !! who)) as [r Hr] by (apply elem_of_dom; rewrite <- Hd; apply elem_of_dom; eauto).
  specialize (Hp who r x' Hr He). unfold plays in Hp. zbool. done.
Qed.
(** Five players fill the group exactly. *)
Lemma full_assignment m rs : role_assignment m rs -> base.size m = 5%nat ->
  count PLAYER_ROLE_TANK (roles_of rs) = 1 /\ count PLAYER_ROLE_HEALER (roles_of rs) = 1 /\
  count PLAYER_ROLE_DAMAGE (roles_of rs) = 3 /\ base.size rs = 5%nat.
Proof.
  intros Ha Hs. pose proof (counts_sum _ (assignment_roles _ _ Ha)) as Hc.
  assert (Hrs : base.size rs = 5%nat) by (rewrite <- Hs, <- !size_dom; f_equal; apply Ha).
  rewrite length_roles_of, Hrs in Hc. destruct Ha as [_ _ _ Ht Hh Hd].
  unfold LFG_TANKS_NEEDED, LFG_HEALERS_NEEDED, LFG_DPS_NEEDED in *. lia.
Qed.

Definition built_players (is_new : bool) (group : Z) (groups : gmap Z Z) (rs : LfgRolesMap) : gmap Z LfgProposalPlayer :=
  list_to_map (map (proposal_player is_new group groups) (entries Z.le rs)).
Lemma built_players_lookup is_new group groups rs who :
  built_players is_new group groups rs !! who = (fun r => (proposal_player is_new group groups (who, r)).2) <$> rs !! who.
Proof.
  transitivity ((fun r => (proposal_player is_new group groups (who, r)).2) <$> (list_to_map (entries Z.le rs) : gmap Z Z) !! who);
    [|now rewrite list_to_map_entries].
  unfold built_players. generalize (entries Z.le rs). intros l.
  induction l as [|[k r] l IH]; [done|]. cbn [map list_to_map foldr]. cbn.
  destruct (decide (k = who)) as [->|Hne]; [now rewrite !lookup_insert_eq|]. now rewrite !lookup_insert_ne by done.
Qed.
Lemma built_players_roles is_new group groups rs : role <$> built_players is_new group groups rs = rs.
Proof.
  apply map_eq. intros who. rewrite lookup_fmap, built_players_lookup. now destruct (rs !! who).
Qed.

Record evolves (s s' : QState) : Prop := mk_evolves {
  ev_data : forall g d', QueueDataStore (queue s') !! g = Some d' ->
    exists d, QueueDataStore (queue s) !! g = Some d /\ roles d = roles d' /\ dungeons d = dungeons d';
  ev_proposals : forall id p, ProposalsStore s' !! id = Some p -> ProposalsStore s !! id = Some p \/ good_group (queue s) p
}.

Lemma make_proposal_good key check c X rs s m :
  role_assignment m rs -> base.size m = 5%nat -> map_Forall (comes_from (queue s) check) m ->
  X <> ∅ -> (forall x g, x ∈ X -> g ∈ check -> exists d, QueueDataStore (queue s) !! g = Some d /\ x ∈ dungeons d) ->
  ((1 < length check)%nat -> no_ignores m) ->
  (length (filter (fun g => IsLfgGroup g = true) check) <= 1)%nat ->
  (forall who, who ∈ dom m -> from_group (queue s) check who (default 0 (proposalGroups c !! who))) ->
  let s' := (make_proposal key check c X rs s).2 in
  QueueDataStore (queue s') = QueueDataStore (queue s) /\
  forall id p, ProposalsStore s' !! id = Some p -> ProposalsStore s !! id = Some p \/ good_group (queue s) p.
Proof.
  intros Ha Hm Hfrom HX Hin Hign Hgr Hgroup. unfold make_proposal. destruct (AllQueued check) eqn:Hq; cbn [negb].
  2: { cbn. auto. }
  destruct (select_random X s) as [dungeon s1] eqn:Esel.
  assert (Hdun : dungeon ∈ X) by (pose proof (select_random_in X s HX) as H; now rewrite Esel in H).
  assert (Es1 : s1 = draw s) by (unfold select_random in Esel; now injection Esel).
  destruct (full_assignment m rs Ha Hm) as (Ht & Hh & Hd & Hrs).
  assert (Hne : entries Z.le rs <> []) by (intros H0; apply entries_nil in H0; subst rs; now rewrite map_size_empty in Hrs).
  pose proof (choose_leader_in (entries Z.le rs) s1 Hne) as Hlead.
  assert (Hs2 : forall l acc, queue (foldl choose_leader acc l).2 = queue acc.2 /\
                              ProposalsStore (foldl choose_leader acc l).2 = ProposalsStore acc.2).
  { induction l as [|e l IH]; intros [[b x] t]; cbn [foldl]; [done|]. destruct (IH (choose_leader ((b, x), t) e)) as [-> ->].
    unfold choose_leader. now repeat case_if. }
  destruct (Hs2 (entries Z.le rs) ((false, 0), s1)) as [Hs2q Hs2p].
  destruct (foldl choose_leader ((false, 0), s1) (entries Z.le rs)) as [[b leader] s2]. cbn in Hlead, Hs2q, Hs2p.
  rewrite Es1 in Hs2q, Hs2p. cbn in Hs2q, Hs2p.
  set (is_new := negb _ || negb _).
  change (list_to_map (map (proposal_player is_new (proposal_group c) (proposalGroups c)) (entries Z.le rs)))
    with (built_players is_new (proposal_group c) (proposalGroups c) rs).
  set (players := built_players _ _ _ _). cbn [snd].
  assert (Hdata : forall l q, QueueDataStore (foldl (fun q guid => RemoveFromCurrentQueue guid (RemoveFromNewQueue guid q)) q l)
                              = QueueDataStore q).
  { induction l as [|g l IH]; intros q; cbn [foldl]; [done|]. now rewrite IH. }
  split; [cbn; rewrite Hdata, Hs2q; done|].
  intros id p Hp. cbn in Hp. apply lookup_insert_Some in Hp as [[_ <-]|[_ Hp]]; [right|left; now rewrite Hs2p in Hp].
  assert (Hdom : dom players = dom rs).
  { rewrite <- (built_players_roles is_new (proposal_group c) (proposalGroups c) rs) at 1. symmetry. apply dom_fmap_L. }
  constructor; cbn [p_players queues dungeonId p_leader p_state p_cancelTime]; unfold players;
    rewrite ?built_players_roles; fold players; try done.
  - now rewrite <- size_dom, Hdom, size_dom.
  - intros who pp Hpp. unfold players in Hpp. rewrite built_players_lookup in Hpp.
    destruct (rs !! who) as [x|] eqn:Ex; [|done]. injection Hpp as <-. cbn.
    assert (is_Some (m !! who)) as [r Hr].
    { apply elem_of_dom. rewrite <- (ra_players _ _ Ha). apply elem_of_dom. eauto. }
    destruct (Hfrom who r Hr) as (g & d & Hg & Hgd & Hgr'). exists g, d, r. repeat split; try done.
    now apply (ra_plays _ _ Ha who).
  - intros who pp Hpp. unfold players in Hpp. rewrite built_players_lookup in Hpp.
    destruct (rs !! who) as [x|] eqn:Ex; [|done]. injection Hpp as <-. cbn.
    apply Hgroup. rewrite <- (ra_players _ _ Ha). apply elem_of_dom. eauto.
  - intros g Hg. now apply Hin.
  - rewrite Hdom, (ra_players _ _ Ha). exact Hign.
  - rewrite Hdom. apply elem_of_dom, (elem_of_keys Z.le). now rewrite entries_fst in Hlead.
Qed.

(** ** Every step of the search *)

Lemma data_ok_same d d' : roles d = roles d' -> dungeons d = dungeons d' -> data_ok d -> data_ok d'.
Proof. intros Hr Hd []. split; rewrite <- ?Hr, <- ?Hd; assumption. Qed.
Lemma evolves_ok s s' : evolves s s' -> queue_ok (queue s) -> queue_ok (queue s').
Proof.
  intros [Hd _] Hq g d' Hd'. destruct (Hd g d' Hd') as (d & Hg & Hr & Hdun). now apply (data_ok_same d), (Hq g).
Qed.
Lemma evolves_refl s : evolves s s.
Proof. split; eauto. Qed.
Lemma good_group_evolves s s' p : evolves s s' -> good_group (queue s') p -> good_group (queue s) p.
Proof.
  intros [Hd _] [? Hoff Hfrom ? ? ? Hdun ? ? ? ? ?]. split; try done.
  - intros who pp Hpp. destruct (Hoff who pp Hpp) as (g & d' & r & Hg & Hd' & Hr & Hp).
    destruct (Hd g d' Hd') as (d & Hgd & Er & _). exists g, d, r. now rewrite Er.
  - intros who pp Hpp. destruct (Hfrom who pp Hpp) as (g & d' & Hg & Hd' & Hr & Hv).
    destruct (Hd g d' Hd') as (d & Hgd & Er & _). exists g, d. rewrite Er. exact (conj Hg (conj Hgd (conj Hr Hv))).
  - intros g Hg. destruct (Hdun g Hg) as (d' & Hd' & Hin). destruct (Hd g d' Hd') as (d & Hgd & _ & Ed).
    exists d. now rewrite Ed.
Qed.
Lemma evolves_trans s1 s2 s3 : evolves s1 s2 -> evolves s2 s3 -> evolves s1 s3.
Proof.
  intros H12 [Hd Hp]. split.
  - intros g d3 H3. destruct (Hd g d3 H3) as (d2 & H2 & Er & Ed). destruct (ev_data _ _ H12 g d2 H2) as (d1 & H1 & Er1 & Ed1).
    exists d1. split; [done|]. split; congruence.
  - intros id p H3. destruct (Hp id p H3) as [H2|Hg]; [now apply (ev_proposals _ _ H12)|].
    right. now apply (good_group_evolves s1 s2).
Qed.
(** A change of the queue that keeps what the members asked for. *)
Lemma evolves_on f s :
  (forall g d', QueueDataStore (f (queue s)) !! g = Some d' ->
     exists d, QueueDataStore (queue s) !! g = Some d /\ roles d = roles d' /\ dungeons d = dungeons d') ->
  evolves s (on_queue f s).
Proof. intros Hf. split; [exact Hf|]. now left. Qed.
Lemma evolves_same f s : same_but_best (queue s) (f (queue s)) -> evolves s (on_queue f s).
Proof.
  intros Hs. apply evolves_on. intros g d' Hd'. pose proof (sb_data _ _ Hs g) as E. rewrite Hd' in E.
  destruct (QueueDataStore (queue s) !! g) as [d|]; [|done]. cbn in E. exists d. naive_solver.
Qed.
Lemma evolves_data f s : QueueDataStore (f (queue s)) = QueueDataStore (queue s) -> evolves s (on_queue f s).
Proof. intros Hs. apply evolves_on. intros g d'. rewrite Hs. eauto. Qed.
Lemma evolves_set key c s : evolves s (on_queue (SetCompatibles key c) s).
Proof. now apply evolves_data. Qed.
Lemma evolves_best key data (l : list Z) rs s :
  evolves s (on_queue (fun q => SetCompatibilityData key data
                         (foldl (fun q guid => UpdateBestCompatibleInQueue guid key rs q) q l)) s).
Proof.
  apply evolves_on. intros g d' Hd'. cbn in Hd'.
  assert (Hs : same_but_best (queue s) (foldl (fun q guid => UpdateBestCompatibleInQueue guid key rs q) (queue s) l))
    by (apply foldl_same; intros; apply UpdateBest_same).
  pose proof (sb_data _ _ Hs g) as E. rewrite Hd' in E.
  destruct (QueueDataStore (queue s) !! g) as [d|]; [|done]. cbn in E. exists d. naive_solver.
Qed.
Lemma evolves_make key check c X rs s m :
  role_assignment m rs -> base.size m = 5%nat -> map_Forall (comes_from (queue s) check) m ->
  X <> ∅ -> (forall x g, x ∈ X -> g ∈ check -> exists d, QueueDataStore (queue s) !! g = Some d /\ x ∈ dungeons d) ->
  ((1 < length check)%nat -> no_ignores m) ->
  (length (filter (fun g => IsLfgGroup g = true) check) <= 1)%nat ->
  (forall who, who ∈ dom m -> from_group (queue s) check who (default 0 (proposalGroups c !! who))) ->
  evolves s (make_proposal key check c X rs s).2.
Proof.
  intros. destruct (make_proposal_good key check c X rs s m) as [Hd Hp]; try done. split; [|exact Hp].
  intros g d'. rewrite Hd. eauto.
Qed.
#[local] Hint Resolve evolves_refl evolves_set evolves_best : core.

Lemma check_all_evolves check s : queue_ok (queue s) -> check <> [] -> evolves s (check_all check s).2.
Proof.
  intros Hq Hne. unfold check_all. set (key := ConcatenateGuids check).
  destruct (count_players (queue s) check (mkCounted 0 0 ∅ 0)) as [guid|c] eqn:Ec; cbn zeta.
  { cbn [snd]. apply evolves_on. intros g d'. apply RemoveFromQueue_data. }
  set (front := default (no_queue_data now) (QueueDataStore (queue s) !! default 0 (head check))).
  destruct ((length check =? 1)%nat && negb (numPlayers c =? MAXGROUPSIZE)) eqn:E1; cbn [snd].
  { apply (evolves_best key _ [default 0 (head check)]). }
  destruct (1 <? numLfgGroups c) eqn:E2; [cbn; auto|]. destruct (MAXGROUPSIZE <? numPlayers c) eqn:E3; [cbn; auto|].
  apply Z.ltb_ge in E2, E3. destruct (count_players_all (queue s) check (mkCounted 0 0 ∅ 0) c Hq ltac:(cbn; unfold MAXGROUPSIZE; lia) ltac:(cbn; lia) Ec E3 E2)
    as (Hall & Hn & Hl & Hnote). cbn [numPlayers numLfgGroups proposalGroups] in Hn, Hl, Hnote. rewrite Z.add_0_l in Hn, Hl.
  assert (Hgr : (length (filter (fun g => IsLfgGroup g = true) check) <= 1)%nat) by lia.
  rewrite Forall_forall in Hall.
  destruct (1 <? length check)%nat eqn:E4.
  - destruct (collect_roles_spec (queue s) check) as (Hfrom & Hign & Hsize).
    set (collected := collect_roles (queue s) check) in *.
    destruct (negb (u8 (numPlayers c - Z.of_nat (base.size collected)) =? 0)) eqn:E5; [cbn; auto|].
    destruct (CheckGroupRoles collected) as [ok rs] eqn:Er. destruct ok; cbn [negb]; [|cbn; auto].
    case_bool_decide as Hdun; [cbn; auto|].
    unfold check_size. destruct (numPlayers c =? MAXGROUPSIZE) eqn:E6; cbn [negb]; [|cbn; auto]. zbool.
    unfold MAXGROUPSIZE in *. rewrite uwrap_id in E5 by (unfold is_u; lia).
    assert (Hrb : role_bytes collected).
    { split; [|lia]. intros who r Hr. now apply (comes_from_byte (queue s) check who r Hq), Hfrom. }
    apply (evolves_make _ _ _ _ _ _ collected).
    + pose proof (CheckGroupRoles_spec collected Hrb) as Hc. rewrite Er in Hc. apply Hc.
    + lia.
    + exact Hfrom.
    + exact Hdun.
    + intros x g Hx Hg. pose proof (common_dungeons_in _ _ _ _ Hx Hg) as Hxd. unfold dungeons_of in Hxd.
      destruct (Hall g Hg) as [d Hd]. rewrite Hd in Hxd. now exists d.
    + done.
    + exact Hgr.
    + intros who [r Hr]%elem_of_dom. destruct (Hfrom who r Hr) as (g & d & Hg & Hd & Hrd).
      destruct (Hnote who) as [(v & -> & Hv)|[_ Hno]]; [exact Hv|]. exfalso. apply (Hno g d Hg Hd). apply elem_of_dom. eauto.
  - destruct check as [|g [|g2 check]]; [done| |done]. cbn [head] in front.
    destruct (Hall g ltac:(left)) as [d Hd]. cbn in front. subst front. rewrite Hd. cbn [default id option_rect from_option].
    change (id d) with d.
    assert (Hdok : data_ok d) by now apply (Hq g).
    change ((length [g] =? 1)%nat) with true in E1. cbn [andb] in E1. apply negb_false_iff, Z.eqb_eq in E1.
    assert (Hrb : role_bytes (roles d)).
    { split; [apply Hdok|]. pose proof (do_size _ Hdok). unfold MAXGROUPSIZE in *. lia. }
    assert (Hfull : Z.of_nat (base.size (roles d)) = MAXGROUPSIZE).
    { rewrite players_in_cons, Hd in Hn. cbn in Hn. lia. }
    pose proof (CheckGroupRoles_spec (roles d) Hrb) as Hc.
    destruct (CheckGroupRoles (roles d)) as [ok rs]. destruct Hc as [Hiff Hrs].
    rewrite (proj2 Hiff (do_full _ Hdok Hfull)) in Hrs. cbn [snd].
    unfold check_size. rewrite (proj2 (Z.eqb_eq _ _) E1). cbn [negb].
    apply (evolves_make _ _ _ _ _ _ (roles d)); try done.
    + unfold MAXGROUPSIZE in Hfull. lia.
    + intros who r Hr. exists g, d. repeat split; try done. left.
    + apply (do_dungeons _ Hdok).
    + intros x g0 Hx ->%list_elem_of_singleton. exists d. split; [exact Hd|exact Hx].
    + cbn. lia.
    + intros who Hw. destruct (Hnote who) as [(v & -> & Hv)|[_ Hno]]; [exact Hv|]. exfalso.
      now apply (Hno g d ltac:(left) Hd).
Qed.

Lemma CheckCompatibility_evolves check s : queue_ok (queue s) -> evolves s (CheckCompatibility check s).2.
Proof.
  revert s. induction check as [|g check IH]; intros s Hq; cbn [CheckCompatibility]; case_if; try apply evolves_refl.
  destruct (2 <? length (g :: check))%nat; [|now apply check_all_evolves].
  specialize (IH s Hq). destruct (CheckCompatibility check s) as [child s1]. cbn [snd] in IH.
  destruct (not_compatible child); cbn [snd]; eapply evolves_trans; [exact IH|apply evolves_set|exact IH|].
  apply check_all_evolves; [now apply (evolves_ok s)|done].
Qed.
Lemma eval_check_evolves check s : queue_ok (queue s) -> evolves s (eval_check check s).2.
Proof.
  intros Hq. unfold eval_check.
  assert (H : forall r : LfgCompatibility * QState, evolves s r.2 ->
    evolves s (let '(c, s0) := r in
      if bool_decide (c = LFG_COMPATIBLES_BAD_STATES) && AllQueued check
      then (LFG_COMPATIBLES_MATCH, on_queue (SetCompatibles (ConcatenateGuids check) LFG_COMPATIBLES_MATCH) s0)
      else (c, s0)).2).
  { intros [c s0] Hs. case_if; [|exact Hs]. eapply evolves_trans; [exact Hs|apply evolves_set]. }
  apply H. case_if; [now apply CheckCompatibility_evolves|apply evolves_refl].
Qed.
Lemma greedy_pass_evolves check all s : queue_ok (queue s) -> evolves s (greedy_pass check all s).2.
Proof.
  revert check s. induction all as [|g all IH]; intros check s Hq; cbn [greedy_pass]; [apply evolves_refl|].
  pose proof (eval_check_evolves (check ++ [g]) s Hq) as He. destruct (eval_check (check ++ [g]) s) as [c s1]. cbn in He.
  assert (Hq1 : queue_ok (queue s1)) by now apply (evolves_ok s).
  repeat case_if; [exact He| |]; eapply evolves_trans; try exact He; now apply IH.
Qed.
Lemma FindNewGroups_evolves fuel check all s r :
  queue_ok (queue s) -> (length all < fuel)%nat -> FindNewGroups fuel check all s = Some r -> evolves s r.2.
Proof.
  intros Hq Hf. rewrite FindNewGroups_pass by done.
  pose proof (eval_check_evolves check s Hq) as He. destruct (eval_check check s) as [c s1]. cbn in He. intros [= <-].
  case_if; [|exact He]. assert (Hq1 : queue_ok (queue s1)) by now apply (evolves_ok s).
  eapply evolves_trans; [exact He|]. pose proof (greedy_pass_evolves check all s1 Hq1) as Hg.
  destruct (greedy_pass check all s1) as [[[c2 taken] rest] s2]. unfold pass_result. now case_if.
Qed.

(** The new-queue gets shorter: nothing of the search adds to it. *)
Definition fewer_new (s s' : QState) : Prop := newToQueueStore (queue s') `sublist_of` newToQueueStore (queue s).
Lemma fewer_new_refl s : fewer_new s s.
Proof. unfold fewer_new. done. Qed.
Lemma removed_sublist g l : list_remove_all g l `sublist_of` l.
Proof. apply sublist_filter. Qed.
Lemma RemoveFromQueue_new g q : newToQueueStore (RemoveFromQueue g q) `sublist_of` newToQueueStore q.
Proof.
  rewrite RemoveFromQueue_eq. cbn zeta. cbn [newToQueueStore with_data].
  match goal with |- newToQueueStore (foldl _ ?q1 ?l) `sublist_of` _ =>
    assert (Hs : same_but_best q1 (foldl (forget_one g) q1 l)) by (apply foldl_same; intros; apply forget_one_same) end.
  rewrite (sb_new _ _ Hs). apply removed_sublist.
Qed.

Lemma foldl_queue_new {A} (f : LFGQueue -> A -> LFGQueue) l q :
  (forall q x, newToQueueStore (f q x) `sublist_of` newToQueueStore q) ->
  newToQueueStore (foldl f q l) `sublist_of` newToQueueStore q.
Proof.
  intros Hf. revert q. induction l as [|x l IH]; intros q; cbn [foldl]; [done|]. etransitivity; [apply IH|apply Hf].
Qed.
Lemma make_proposal_new key check c X rs s : fewer_new s (make_proposal key check c X rs s).2.
Proof.
  unfold fewer_new, make_proposal. destruct (AllQueued check); cbn [negb]; [|done].
  destruct (select_random X s) as [dungeon s1] eqn:Esel.
  assert (Es1 : s1 = draw s) by (unfold select_random in Esel; now injection Esel). subst s1.
  assert (Hs2 : forall l acc, queue (foldl choose_leader acc l).2 = queue acc.2).
  { induction l as [|e l IH]; intros [[b x] t]; cbn [foldl]; [done|]. rewrite IH. unfold choose_leader. now repeat case_if. }
  specialize (Hs2 (entries Z.le rs) ((false, 0), draw s)).
  destruct (foldl choose_leader ((false, 0), draw s) (entries Z.le rs)) as [[b leader] s2]. cbn in Hs2 |- *. rewrite Hs2.
  apply foldl_queue_new. intros q g. cbn. apply removed_sublist.
Qed.
Lemma check_all_new check s : fewer_new s (check_all check s).2.
Proof.
  unfold check_all, fewer_new.
  destruct (count_players _ _ _) as [guid|c]; cbn zeta; [apply RemoveFromQueue_new|].
  assert (Hup : forall l key rs, newToQueueStore (foldl (fun q guid => UpdateBestCompatibleInQueue guid key rs q) (queue s) l)
    `sublist_of` newToQueueStore (queue s)) by (intros; now apply foldl_queue_new).
  repeat match goal with |- context [if ?b then _ else _] => destruct b end; cbn; try done;
    try (destruct (CheckGroupRoles _) as [ok rs]; destruct ok; cbn; try done;
         repeat match goal with |- context [if ?b then _ else _] => destruct b end; try done);
    unfold check_size; repeat match goal with |- context [if ?b then _ else _] => destruct b end;
    try apply make_proposal_new; try apply Hup.
Qed.
Lemma CheckCompatibility_new check s : fewer_new s (CheckCompatibility check s).2.
Proof.
  revert s. induction check as [|g check IH]; intros s; cbn [CheckCompatibility]; case_if; try apply fewer_new_refl.
  destruct (2 <? length (g :: check))%nat; [|apply check_all_new].
  specialize (IH s). destruct (CheckCompatibility check s) as [child s1]. cbn [snd] in IH.
  destruct (not_compatible child); cbn [snd]; [exact IH|]. unfold fewer_new in *. etransitivity; [apply check_all_new|exact IH].
Qed.
Lemma eval_check_new check s : fewer_new s (eval_check check s).2.
Proof.
  unfold eval_check.
  assert (H : forall r : LfgCompatibility * QState, fewer_new s r.2 ->
    fewer_new s (let '(c, s0) := r in
      if bool_decide (c = LFG_COMPATIBLES_BAD_STATES) && AllQueued check
      then (LFG_COMPATIBLES_MATCH, on_queue (SetCompatibles (ConcatenateGuids check) LFG_COMPATIBLES_MATCH) s0)
      else (c, s0)).2) by (intros [c s0] Hs; case_if; exact Hs).
  apply H. case_if; [apply CheckCompatibility_new|]. unfold fewer_new. done.
Qed.
Lemma FindNewGroups_new fuel check all s r :
  (length all < fuel)%nat -> FindNewGroups fuel check all s = Some r -> fewer_new s r.2.
Proof.
  intros Hf. rewrite FindNewGroups_pass by done.
  pose proof (eval_check_new check s) as He. destruct (eval_check check s) as [c s1]. cbn in He. intros [= <-].
  assert (Hg : forall all check s0, fewer_new s s0 -> fewer_new s (greedy_pass check all s0).2).
  { clear - view. induction all as [|g all IH]; intros check s0 Hs; cbn [greedy_pass]; [exact Hs|].
    pose proof (eval_check_new (check ++ [g]) s0) as He. destruct (eval_check (check ++ [g]) s0) as [c s1]. cbn in He.
    assert (fewer_new s s1) by (unfold fewer_new in *; etransitivity; [exact He|exact Hs]). repeat case_if; auto. }
  case_if; [|exact He]. specialize (Hg all check s1 He).
  destruct (greedy_pass check all s1) as [[[c2 taken] rest] s2]. unfold pass_result. now case_if.
Qed.

Lemma length_removed g l : (length (list_remove_all g (g :: l)) <= length l)%nat.
Proof.
  unfold list_remove_all. rewrite filter_cons_False by (intros Hn; now apply Hn).
  apply length_filter.
Qed.

Lemma find_groups_ends fuel n s : (length (newToQueueStore (queue s)) <= fuel)%nat -> queue_ok (queue s) ->
  exists n' s', find_groups fuel n s = Some (n', s') /\ evolves s s' /\ newToQueueStore (queue s') = [].
Proof.
  revert n s. induction fuel as [|fuel IH]; intros n s Hf Hq; cbn [find_groups];
    destruct (newToQueueStore (queue s)) as [|g rest] eqn:E; cbn in Hf; try lia.
  1, 2: exists n, s; repeat split; eauto.
  set (s1 := on_queue (RemoveFromNewQueue g) s).
  assert (E1 : evolves s s1) by now apply evolves_data.
  assert (Hq1 : queue_ok (queue s1)) by now apply (evolves_ok s).
  assert (Hn1 : (length (newToQueueStore (queue s1)) <= length rest)%nat).
  { change (newToQueueStore (queue s1)) with (list_remove_all g (newToQueueStore (queue s))). rewrite E. apply length_removed. }
  destruct (FindNewGroups (S (length (currentQueueStore (queue s1)))) [g] (currentQueueStore (queue s1)) s1)
    as [[[[c check] all] s2]|] eqn:Ef; [|rewrite FindNewGroups_pass in Ef by lia; now destruct (eval_check [g] s1)].
  assert (E2 : evolves s1 s2) by (apply (FindNewGroups_evolves _ _ _ _ _ Hq1) in Ef; [exact Ef|lia]).
  assert (Hn2 : (length (newToQueueStore (queue s2)) <= fuel)%nat).
  { apply FindNewGroups_new in Ef; [|lia]. apply sublist_length in Ef. cbn [snd] in Ef. lia. }
  assert (Hq2 : queue_ok (queue s2)) by now apply (evolves_ok s1).
  case_if.
  - destruct (IH (u8 (n + 1)) s2 Hn2 Hq2) as (n' & s' & -> & E3 & Hnil). exists n', s'. split; [done|]. split; [|done].
    eapply evolves_trans; [exact E1|]. now eapply evolves_trans; [exact E2|].
  - set (s3 := on_queue (AddToCurrentQueue g) s2). assert (E3 : evolves s2 s3) by now apply evolves_data.
    destruct (IH n s3 Hn2 (evolves_ok _ _ E3 Hq2)) as (n' & s' & -> & E4 & Hnil). exists n', s'. split; [done|]. split; [|done].
    eapply evolves_trans; [exact E1|]. eapply evolves_trans; [exact E2|]. now eapply evolves_trans; [exact E3|].
Qed.

(** C9. The search of the queue always ends with the new-queue empty, and every
    proposal it makes is a valid group of the members that were waiting: five
    players with an assignment of offered roles, a dungeon all selected, no
    ignored players, all queued, at most one group from a dungeon. *)
Theorem FindGroups_proposals_valid s : queue_ok (queue s) ->
  exists n s', FindGroups s = Some (n, s') /\ newToQueueStore (queue s') = [] /\ queue_ok (queue s') /\
    forall id p, ProposalsStore s' !! id = Some p ->
      ProposalsStore s !! id = Some p \/ good_group (queue s) p.
Proof.
  intros Hq. destruct (find_groups_ends (length (newToQueueStore (queue s))) 0 s (le_n _) Hq) as (n & s' & E & Hev & Hnil).
  exists n, s'. split; [exact E|]. split; [done|]. split; [now apply (evolves_ok s)|]. apply Hev.
Qed.

(** ** Combinations that were not all queued *)

Lemma eval_check_bad check s data :
  CompatibleMapStore (queue s) !! ConcatenateGuids check = Some data ->
  compatibility data = LFG_COMPATIBLES_BAD_STATES -> AllQueued check = true ->
  eval_check check s = (LFG_COMPATIBLES_MATCH, on_queue (SetCompatibles (ConcatenateGuids check) LFG_COMPATIBLES_MATCH) s).
Proof.
  intros Hc Hb Hq. unfold eval_check, GetCompatibles. rewrite Hc, Hb, Hq.
  rewrite bool_decide_eq_false_2, bool_decide_eq_true_2 by done. reflexivity.
Qed.

(** The guids the search still tries. *)
Definition in_lists (q : LFGQueue) : list Z := newToQueueStore q ++ currentQueueStore q.

(** A full group that was checked while its members were not queued is
    cached as such.  When it is tried again with everybody queued, the search
    reports a match and takes the group from the new-queue, but makes no proposal
    and does not put it back: it waits in no list. *)
Theorem bad_states_match_without_proposal g s data :
  newToQueueStore (queue s) = [g] ->
  CompatibleMapStore (queue s) !! ConcatenateGuids [g] = Some data ->
  compatibility data = LFG_COMPATIBLES_BAD_STATES -> AllQueued [g] = true ->
  exists s', FindGroups s = Some (1, s') /\
    ProposalsStore s' = ProposalsStore s /\ m_lfgProposalId s' = m_lfgProposalId s /\
    in_lists (queue s') = currentQueueStore (queue s) /\ QueueDataStore (queue s') = QueueDataStore (queue s).
Proof.
  intros Hn Hc Hb Hq. unfold FindGroups. rewrite Hn. cbn [length find_groups]. rewrite Hn.
  rewrite FindNewGroups_pass by lia. rewrite (eval_check_bad [g] (on_queue (RemoveFromNewQueue g) s) data Hc Hb Hq).
  rewrite bool_decide_eq_false_2, bool_decide_eq_true_2 by done.
  set (s2 := on_queue _ (on_queue _ s)).
  assert (Hr : newToQueueStore (queue s2) = []).
  { change (newToQueueStore (queue s2)) with (list_remove_all g (newToQueueStore (queue s))).
    rewrite Hn. apply nil_length_inv. pose proof (length_removed g []). cbn [length] in *. lia. }
  rewrite Hr. exists s2. repeat split. unfold in_lists. now rewrite Hr.
Qed.
End Match.

(** ** Instances *)

(** Five players in one group; everybody queued or not. *)
Definition five_roles : LfgRolesMap := list_to_map [(11, 2); (12, 4); (13, 8); (14, 8); (15, 8)].
Definition closed_view : LfgView :=
  mkLfgView (fun _ => false) (fun _ => false) (fun _ => LFG_STATE_NONE) (fun _ _ => false) (fun _ => 1) 1000
    (fun _ lo _ => lo).
Definition waiting (g : Z) : QState := on_queue (AddQueueData g 0 {[1]} five_roles) start_state.

Lemma five_ok : data_ok (new_queue_data 0 {[1]} five_roles).
Proof.
  assert (Hb : role_bytes five_roles).
  { split; [|vm_compute; reflexivity]. apply map_Forall_to_list. vm_compute.
    repeat (constructor; [split; [discriminate|reflexivity]|]). constructor. }
  split; [vm_compute; discriminate|apply Hb|vm_compute; discriminate|].
  intros _. pose proof (CheckGroupRoles_spec five_roles Hb) as Hc.
  destruct (CheckGroupRoles five_roles) as [b m] eqn:E. destruct Hc as [Hc _]. apply Hc.
  change b with (b, m).1. rewrite <- E. vm_compute. reflexivity.
Qed.

Lemma AddToQueue_data g q : QueueDataStore (AddToQueue g q) = QueueDataStore q.
Proof. unfold AddToQueue. now case_if. Qed.
Lemma waiting_ok g : queue_ok (queue (waiting g)).
Proof.
  unfold waiting, on_queue, AddQueueData, queue_ok. cbn [queue]. rewrite AddToQueue_data.
  apply map_Forall_insert_2; [apply five_ok|]. apply map_Forall_empty.
Qed.

Lemma FindGroups_proposals_valid_witness :
  exists n s', FindGroups (view := open_view) (waiting 7) = Some (n, s') /\ newToQueueStore (queue s') = [] /\
    queue_ok (queue s') /\
    forall id p, ProposalsStore s' !! id = Some p -> good_group (view := open_view) (queue (waiting 7)) p.
Proof.
  destruct (FindGroups_proposals_valid (view := open_view) (fun _ lo hi H => conj (Z.le_refl lo) H)
              (fun _ _ => eq_refl) (waiting 7)) as (n & s' & E & Hn & Hq & Hp).
  { apply waiting_ok. }
  exists n, s'. split; [exact E|]. split; [exact Hn|]. split; [exact Hq|]. intros id p Hid. destruct (Hp id p Hid) as [H|H]; [|exact H].
  cbn in H. now rewrite lookup_empty in H.
Defined.
(** One proposal is made, with the tank as the first choice of leader. *)
Example FindGroups_makes_proposal :
  option_map (fun r => (r.1, map p_leader (map snd (entries Z.le (ProposalsStore r.2)))))
    (FindGroups (view := open_view) (waiting 7)) = Some (1, [11]).
Proof. vm_compute. reflexivity. Qed.

(** The group is checked when nobody is queued, and queued again. *)
Definition checked_early : option QState :=
  match FindGroups (view := closed_view) (waiting 7) with
  | Some (_, s) => Some (on_queue (fun q => AddToQueue 7 (RemoveFromCurrentQueue 7 q)) s)
  | None => None
  end.
Lemma bad_states_match_without_proposal_witness :
  match checked_early with
  | None => False
  | Some s => exists s', FindGroups (view := open_view) s = Some (1, s') /\ ProposalsStore s' = ProposalsStore s /\
                in_lists (queue s') = []
  end.
Proof.
  destruct checked_early as [s|] eqn:E; [|vm_compute in E; discriminate].
  assert (Hs : (newToQueueStore (queue s), currentQueueStore (queue s),
                compatibility <$> CompatibleMapStore (queue s) !! ConcatenateGuids [7])
               = ([7], [], Some LFG_COMPATIBLES_BAD_STATES)).
  { assert (H : option_map (fun s => (newToQueueStore (queue s), currentQueueStore (queue s),
       compatibility <$> CompatibleMapStore (queue s) !! ConcatenateGuids [7])) checked_early
       = Some ([7], [], Some LFG_COMPATIBLES_BAD_STATES)) by (vm_compute; reflexivity).
    rewrite E in H. now inversion H. }
  injection Hs as Hn Hc Hd. destruct (CompatibleMapStore (queue s) !! ConcatenateGuids [7]) as [data|] eqn:Ec; [|done].
  injection Hd as Hd.
  destruct (bad_states_match_without_proposal (view := open_view) 7 s data Hn Ec Hd eq_refl)
    as (s' & E1 & E2 & _ & E3 & _).
  exists s'. split; [exact E1|]. split; [exact E2|]. congruence.
Defined.

(** Every role that [CheckGroupRoles] leaves is without the leader flag, so the
    leader of a proposal is never one who asked to lead. *)
Lemma leader_flags_are_gone m who r : role_bytes m ->
  (CheckGroupRoles m).2 !! who = Some r -> has_role r PLAYER_ROLE_LEADER = false.
Proof.
  intros Hm. pose proof (CheckGroupRoles_spec m Hm) as Hc. destruct (CheckGroupRoles m) as [[] m']; destruct Hc as [_ Hc].
  - cbn. intros Hr. pose proof (assignment_roles _ _ Hc) as Hall. rewrite Forall_forall in Hall.
    assert (Hin : r ∈ all_roles).
    { apply Hall. unfold roles_of. apply list_elem_of_fmap. exists (who, r). split; [done|]. now apply elem_of_entries. }
    set_unfold in Hin. destruct Hin as [-> | [-> | [-> | []]]]; reflexivity.
  - cbn. intros Hr. rewrite Hc, lookup_fmap in Hr. destruct (m !! who) as [r0|] eqn:E; [|done]. injection Hr as <-.
    assert (H8 : is_u 8 r0) by now apply (proj1 Hm who r0).
    by_byte r0 (fun r => negb (has_role (clear_leader r) PLAYER_ROLE_LEADER)) H8. now apply negb_true_iff.
Qed.
