(* ===== verification/LfgMgr.v ===== *)
(** * Dungeon finder: the manager (src/server/game/DungeonFinding/LFGMgr.h and
    LFGMgr.cpp)

    The manager keeps what it knows of players and groups, the queues (one for
    each team), the role checks, the proposals and the votes to kick somebody.
    Its operations are functions on the record [Mgr], with the messages to players
    and the calls of the group code as a trace.  [None] is undefined behaviour:
    the first element of an empty set, an iterator that is no longer valid.

    [operator\[\]] of the stores makes a default entry for an unknown guid; no
    operation tells that entry from none, so reading leaves the model's stores as
    they are.  What the manager asks of the rest of the server is the class
    [LfgWorld]; the clock stands still during an operation.  [MakeNewGroup], which
    moves the players of an accepted proposal to one group, is the event
    [NewGroup]: it belongs to the class Group. *)

From stdpp Require Import base gmap list strings.
From Stdlib Require Import ZArith Lia.
From S2P Require Import Prelude StdMap Util ObjectGuid LfgRoles LfgData LfgDungeons LfgQueue.
#[local] Open Scope Z_scope.

Module LFGMgr.

Definition LFG_OPTION_ENABLE_DUNGEON_FINDER : Z := 0x01.
Definition LFG_OPTION_ENABLE_RAID_BROWSER : Z := 0x02.
Definition IN_MILLISECONDS : Z := 1000.
Definition LFG_TIME_ROLECHECK : Z := 45 * IN_MILLISECONDS.
Definition LFG_TIME_BOOT : Z := 120.
Definition LFG_QUEUEUPDATE_INTERVAL : Z := 15 * IN_MILLISECONDS.
Definition LFG_GROUP_KICK_VOTES_NEEDED : Z := 3.

(** ** Data *)

Inductive LfgJoinResult :=
| LFG_JOIN_OK | LFG_JOIN_FAILED | LFG_JOIN_GROUPFULL | LFG_JOIN_INTERNAL_ERROR | LFG_JOIN_NOT_MEET_REQS
| LFG_JOIN_PARTY_NOT_MEET_REQS | LFG_JOIN_MIXED_RAID_DUNGEON | LFG_JOIN_MULTI_REALM | LFG_JOIN_DISCONNECTED
| LFG_JOIN_PARTY_INFO_FAILED | LFG_JOIN_DUNGEON_INVALID | LFG_JOIN_DESERTER | LFG_JOIN_PARTY_DESERTER
| LFG_JOIN_RANDOM_COOLDOWN | LFG_JOIN_PARTY_RANDOM_COOLDOWN | LFG_JOIN_TOO_MUCH_MEMBERS | LFG_JOIN_USING_BG_SYSTEM.
#[export] Instance LfgJoinResult_eq_dec : EqDecision LfgJoinResult.
Proof. solve_decision. Defined.

Inductive LfgRoleCheckState :=
| LFG_ROLECHECK_DEFAULT | LFG_ROLECHECK_FINISHED | LFG_ROLECHECK_INITIALITING | LFG_ROLECHECK_MISSING_ROLE
| LFG_ROLECHECK_WRONG_ROLES | LFG_ROLECHECK_ABORTED | LFG_ROLECHECK_NO_ROLE.
#[export] Instance LfgRoleCheckState_eq_dec : EqDecision LfgRoleCheckState.
Proof. solve_decision. Defined.

Record LfgJoinResultData := mkLfgJoinResultData {
  result : LfgJoinResult; jr_state : LfgRoleCheckState; lockmap : LfgLockPartyMap
}.
Record LfgUpdateData := mkLfgUpdateData {
  updateType : LfgUpdateType; u_state : LfgState; u_dungeons : gset Z; u_comment : list Z
}.
(** [LfgUpdateData(type)] and [LfgUpdateData(type, dungeons, comment)]. *)
Definition update (ty : LfgUpdateType) : LfgUpdateData := mkLfgUpdateData ty LFG_STATE_NONE ∅ [].
Definition update_with (ty : LfgUpdateType) (dungeons : gset Z) (comment : list Z) : LfgUpdateData :=
  mkLfgUpdateData ty LFG_STATE_NONE dungeons comment.

Record LfgRoleCheck := mkLfgRoleCheck {
  rc_cancelTime : Z; rc_roles : LfgRolesMap; rc_state : LfgRoleCheckState; rc_dungeons : gset Z; rDungeonId : Z;
  rc_leader : Z
}.
Definition new_role_check : LfgRoleCheck := mkLfgRoleCheck 0 ∅ LFG_ROLECHECK_DEFAULT ∅ 0 0.
Definition with_rc_state (rc : LfgRoleCheck) (st : LfgRoleCheckState) : LfgRoleCheck :=
  mkLfgRoleCheck (rc_cancelTime rc) (rc_roles rc) st (rc_dungeons rc) (rDungeonId rc) (rc_leader rc).
Definition with_rc_roles (rc : LfgRoleCheck) (rs : LfgRolesMap) : LfgRoleCheck :=
  mkLfgRoleCheck (rc_cancelTime rc) rs (rc_state rc) (rc_dungeons rc) (rDungeonId rc) (rc_leader rc).

Record LfgPlayerBoot := mkLfgPlayerBoot {
  b_cancelTime : Z; inProgress : bool; votes : gmap Z LfgAnswer; victim : Z; reason : list Z
}.
Definition new_boot : LfgPlayerBoot := mkLfgPlayerBoot 0 false ∅ 0 [].

(** What leaves the manager. *)
Inductive message :=
| RoleChosen (guid roles : Z)
| RoleCheckUpdate (rc : LfgRoleCheck)
| UpdatePlayer (data : LfgUpdateData)
| UpdateParty (data : LfgUpdateData)
| JoinResult (data : LfgJoinResultData)
| BootProposalUpdate (boot : LfgPlayerBoot)
| ProposalUpdate (proposal : LfgProposal)
| QueueStatus (data : LfgQueueStatusData)
| PlayerReward (rdungeonEntry sdungeonEntry : Z) (done : bool) (quest : Z)
| TeleportError (error : Z)
| OfferContinue (entry : Z)
| LfrList (b : bool).
Inductive event :=
| Sent (guid : Z) (m : message)
| NewGroup (proposal : LfgProposal)              (** [MakeNewGroup] *)
| KickFromGroup (gguid victim : Z)               (** [Player::RemoveFromGroup], a kick by vote *)
| SaveLfgData (db_guid dungeon : Z) (state : LfgState)
| RewardQuest (guid quest : Z)
| LfgAchievement (guid : Z)
| CastSpell (guid spell : Z) | RemoveAuras (guid spell : Z)
| TeleportToBGEntryPoint (guid : Z) | TeleportHome (guid : Z) | SetBattlegroundEntryPoint (guid : Z)
| LeaveFlight (guid : Z) | TeleportTo (guid map x y z o : Z)
| NameQuery (guid other : Z) | Disband (gguid : Z).

Record Mgr := mkMgr {
  m_QueueTimer : Z; m_options : Z; m_lfgProposalId : Z; drawn : nat;
  tables : Dungeons;
  QueuesStore : gmap Z LFGQueue;
  RoleChecksStore : gmap Z LfgRoleCheck;
  ProposalsStore : gmap Z LfgProposal;
  BootsStore : gmap Z LfgPlayerBoot;
  PlayersStore : gmap Z PlayerData.LfgPlayerData;
  GroupsStore : gmap Z GroupData.LfgGroupData;
  trace : list event
}.
Definition new_mgr (options : Z) : Mgr := mkMgr 0 options 1 0 no_dungeons ∅ ∅ ∅ ∅ ∅ ∅ [].

Definition with_timer (m : Mgr) (t : Z) : Mgr :=
  mkMgr t (m_options m) (m_lfgProposalId m) (drawn m) (tables m) (QueuesStore m) (RoleChecksStore m) (ProposalsStore m)
    (BootsStore m) (PlayersStore m) (GroupsStore m) (trace m).
Definition with_options (m : Mgr) (o : Z) : Mgr :=
  mkMgr (m_QueueTimer m) o (m_lfgProposalId m) (drawn m) (tables m) (QueuesStore m) (RoleChecksStore m)
    (ProposalsStore m) (BootsStore m) (PlayersStore m) (GroupsStore m) (trace m).
Definition with_queues (m : Mgr) (q : gmap Z LFGQueue) : Mgr :=
  mkMgr (m_QueueTimer m) (m_options m) (m_lfgProposalId m) (drawn m) (tables m) q (RoleChecksStore m)
    (ProposalsStore m) (BootsStore m) (PlayersStore m) (GroupsStore m) (trace m).
Definition with_role_checks (m : Mgr) (r : gmap Z LfgRoleCheck) : Mgr :=
  mkMgr (m_QueueTimer m) (m_options m) (m_lfgProposalId m) (drawn m) (tables m) (QueuesStore m) r
    (ProposalsStore m) (BootsStore m) (PlayersStore m) (GroupsStore m) (trace m).
Definition with_proposals (m : Mgr) (p : gmap Z LfgProposal) : Mgr :=
  mkMgr (m_QueueTimer m) (m_options m) (m_lfgProposalId m) (drawn m) (tables m) (QueuesStore m) (RoleChecksStore m)
    p (BootsStore m) (PlayersStore m) (GroupsStore m) (trace m).
Definition with_boots (m : Mgr) (b : gmap Z LfgPlayerBoot) : Mgr :=
  mkMgr (m_QueueTimer m) (m_options m) (m_lfgProposalId m) (drawn m) (tables m) (QueuesStore m) (RoleChecksStore m)
    (ProposalsStore m) b (PlayersStore m) (GroupsStore m) (trace m).
Definition with_players (m : Mgr) (p : gmap Z PlayerData.LfgPlayerData) : Mgr :=
  mkMgr (m_QueueTimer m) (m_options m) (m_lfgProposalId m) (drawn m) (tables m) (QueuesStore m) (RoleChecksStore m)
    (ProposalsStore m) (BootsStore m) p (GroupsStore m) (trace m).
Definition with_groups (m : Mgr) (g : gmap Z GroupData.LfgGroupData) : Mgr :=
  mkMgr (m_QueueTimer m) (m_options m) (m_lfgProposalId m) (drawn m) (tables m) (QueuesStore m) (RoleChecksStore m)
    (ProposalsStore m) (BootsStore m) (PlayersStore m) g (trace m).
Definition emit (e : event) (m : Mgr) : Mgr :=
  mkMgr (m_QueueTimer m) (m_options m) (m_lfgProposalId m) (drawn m) (tables m) (QueuesStore m) (RoleChecksStore m)
    (ProposalsStore m) (BootsStore m) (PlayersStore m) (GroupsStore m) (trace m ++ [e]).

(** What the manager asks of the rest of the server. *)
Class LfgWorld := mkLfgWorld {
  time : Z;                                        (** [time(NULL)] *)
  connected : Z -> bool;                           (** [FindConnectedPlayer] *)
  social_ignores : Z -> Z -> bool;                 (** [GetSocial()->HasIgnore(lowguid)] *)
  random : nat -> Z -> Z -> Z;                     (** [urand], by the number of draws *)
  two_side_group : bool;                           (** CONFIG_ALLOW_TWO_SIDE_INTERACTION_GROUP *)
  player_view : Z -> option PlayerView;            (** [FindPlayer], for the locks *)
  holiday : Z -> bool;
  access_requirement : Z -> Z -> option AccessRequirement;
  group_exists : Z -> bool                         (** [GetGroupByGUID] of the low part *)
}.

(** ** Players and groups *)

Definition player_of (m : Mgr) (guid : Z) : PlayerData.LfgPlayerData := entry_at PlayerData.new (PlayersStore m) guid.
Definition group_of (m : Mgr) (guid : Z) : GroupData.LfgGroupData := entry_at GroupData.new (GroupsStore m) guid.
Definition on_player (f : PlayerData.LfgPlayerData -> PlayerData.LfgPlayerData) (guid : Z) (m : Mgr) : Mgr :=
  with_players m (<[guid := f (player_of m guid)]> (PlayersStore m)).
Definition on_group (f : GroupData.LfgGroupData -> GroupData.LfgGroupData) (guid : Z) (m : Mgr) : Mgr :=
  with_groups m (<[guid := f (group_of m guid)]> (GroupsStore m)).

Definition GetState (m : Mgr) (guid : Z) : LfgState :=
  if IS_GROUP_GUID guid then GroupData.m_State (group_of m guid) else PlayerData.m_State (player_of m guid).
Definition GetOldState (m : Mgr) (guid : Z) : LfgState :=
  if IS_GROUP_GUID guid then GroupData.m_OldState (group_of m guid) else PlayerData.m_OldState (player_of m guid).
Definition GetDungeon (m : Mgr) (guid : Z) (asId : bool) : Z := GroupData.GetDungeon asId (group_of m guid).
Definition GetDungeonMapId (m : Mgr) (guid : Z) : Z :=
  let dungeonId := GetDungeon m guid true in
  if dungeonId =? 0 then 0 else match GetLFGDungeon (tables m) dungeonId with Some d => d_map d | None => 0 end.
Definition GetRoles (m : Mgr) (guid : Z) : Z := PlayerData.m_Roles (player_of m guid).
Definition GetComment (m : Mgr) (guid : Z) : list Z := PlayerData.m_Comment (player_of m guid).
Definition GetSelectedDungeons (m : Mgr) (guid : Z) : gset Z := PlayerData.m_SelectedDungeons (player_of m guid).
Definition GetKicksLeft (m : Mgr) (guid : Z) : Z := GroupData.m_KicksLeft (group_of m guid).
Definition GetTeam (m : Mgr) (guid : Z) : Z := PlayerData.m_Team (player_of m guid).
Definition GetGroup (m : Mgr) (guid : Z) : Z := PlayerData.m_Group (player_of m guid).
Definition GetPlayers (m : Mgr) (guid : Z) : gset Z := GroupData.m_Players (group_of m guid).
Definition GetPlayerCount (m : Mgr) (guid : Z) : Z := GroupData.GetPlayerCount (group_of m guid).
Definition GetLeader (m : Mgr) (guid : Z) : Z := GroupData.m_Leader (group_of m guid).
Definition IsLfgGroup (m : Mgr) (guid : Z) : bool :=
  negb (guid =? 0) && IS_GROUP_GUID guid && GroupData.IsLfgGroup (group_of m guid).
Definition GetLfgStatus (m : Mgr) (guid : Z) : LfgUpdateData :=
  mkLfgUpdateData LFG_UPDATETYPE_UPDATE_STATUS (PlayerData.m_State (player_of m guid)) (GetSelectedDungeons m guid) [].
Definition isOptionEnabled (m : Mgr) (option : Z) : bool := negb (Z.land (m_options m) option =? 0).
Definition SetOptions (options : Z) (m : Mgr) : Mgr := with_options m options.

Definition RestoreState (guid : Z) (m : Mgr) : Mgr :=
  if IS_GROUP_GUID guid then on_group GroupData.RestoreState guid m else on_player PlayerData.RestoreState guid m.
Definition SetState (guid : Z) (state : LfgState) (m : Mgr) : Mgr :=
  if IS_GROUP_GUID guid then on_group (GroupData.SetState state) guid m
  else on_player (PlayerData.SetState state) guid m.
Definition SetDungeon (guid dungeon : Z) (m : Mgr) : Mgr := on_group (GroupData.SetDungeon dungeon) guid m.
Definition SetRoles (guid roles : Z) (m : Mgr) : Mgr := on_player (PlayerData.SetRoles roles) guid m.
Definition SetComment (guid : Z) (comment : list Z) (m : Mgr) : Mgr := on_player (PlayerData.SetComment comment) guid m.
Definition SetSelectedDungeons (guid : Z) (dungeons : gset Z) (m : Mgr) : Mgr :=
  on_player (PlayerData.SetSelectedDungeons dungeons) guid m.
Definition DecreaseKicksLeft (guid : Z) (m : Mgr) : Mgr := on_group GroupData.DecreaseKicksLeft guid m.
Definition RemovePlayerData (guid : Z) (m : Mgr) : Mgr := with_players m (delete guid (PlayersStore m)).
Definition RemovePlayerFromGroup (gguid guid : Z) (m : Mgr) : Z * Mgr :=
  ((GroupData.RemovePlayer guid (group_of m gguid)).1, on_group (fun d => (GroupData.RemovePlayer guid d).2) gguid m).
Definition AddPlayerToGroup (gguid guid : Z) (m : Mgr) : Mgr := on_group (GroupData.AddPlayer guid) gguid m.
Definition SetLeader (gguid leader : Z) (m : Mgr) : Mgr := on_group (GroupData.SetLeader leader) gguid m.
Definition SetGroup (guid group : Z) (m : Mgr) : Mgr := on_player (PlayerData.SetGroup group) guid m.
Definition SetupGroupMember (guid gguid : Z) (m : Mgr) : Mgr :=
  let m := SetSelectedDungeons guid {[GetDungeon m gguid true]} m in
  let m := SetState guid (GetState m gguid) m in
  AddPlayerToGroup gguid guid (SetGroup guid gguid m).

(** [case LFG_STATE_DUNGEON: case LFG_STATE_FINISHED_DUNGEON:] of the stored state. *)
Definition LfgState_of (z : Z) : option LfgState :=
  [LFG_STATE_NONE; LFG_STATE_ROLECHECK; LFG_STATE_QUEUED; LFG_STATE_PROPOSAL; LFG_STATE_BOOT; LFG_STATE_DUNGEON;
   LFG_STATE_FINISHED_DUNGEON; LFG_STATE_RAIDBROWSER] !! Z.to_nat z.
(** The row has the leader's number, the dungeon and the state. *)
Definition LoadFromDB (row : option (Z * Z * Z)) (guid : Z) (m : Mgr) : Mgr :=
  match row with
  | None => m
  | Some (leader, dungeon, state) =>
    if negb (IS_GROUP_GUID guid) then m
    else
      let m := SetLeader guid (MAKE_NEW_GUID leader 0 HIGHGUID_PLAYER) m in
      if (dungeon =? 0) || (state =? 0) then m
      else
        let m := SetDungeon guid dungeon m in
        match LfgState_of state with
        | Some LFG_STATE_DUNGEON => SetState guid LFG_STATE_DUNGEON m
        | Some LFG_STATE_FINISHED_DUNGEON => SetState guid LFG_STATE_FINISHED_DUNGEON m
        | _ => m
        end
  end.
Definition SaveToDB (guid db_guid : Z) (m : Mgr) : Mgr :=
  if negb (IS_GROUP_GUID guid) then m
  else emit (SaveLfgData db_guid (GetDungeon m guid true) (GetState m guid)) m.

Definition selectedRandomLfgDungeon (m : Mgr) (guid : Z) : bool :=
  negb (bool_decide (GetState m guid = LFG_STATE_NONE)) &&
  match set_order Z.le (GetSelectedDungeons m guid) with
  | [] => false
  | id :: _ => match GetLFGDungeon (tables m) id with
               | Some d => (d_type d =? LFG_TYPE_RANDOM) || seasonal d
               | None => false
               end
  end.
Definition inLfgDungeonMap (m : Mgr) (guid map diff : Z) : bool :=
  let guid := if negb (IS_GROUP_GUID guid) then GetGroup m guid else guid in
  let dungeonId := GetDungeon m guid true in
  negb (dungeonId =? 0) &&
  match GetLFGDungeon (tables m) dungeonId with
  | Some d => (d_map d =? map) && (difficulty d =? diff)
  | None => false
  end.

(** ** The queues *)

Definition queue_id (m : Mgr) (guid : Z) : Z :=
  if IS_GROUP_GUID guid then
    match set_order Z.le (GetPlayers m guid) with
    | pguid :: _ => if pguid =? 0 then 0 else GetTeam m pguid
    | [] => 0
    end
  else GetTeam m guid.
Definition queue_at (m : Mgr) (queueId : Z) : LFGQueue := entry_at new_queue (QueuesStore m) queueId.
Definition GetQueue (m : Mgr) (guid : Z) : LFGQueue := queue_at m (queue_id m guid).
(** Changing the queue a reference stands for. *)
Definition on_queue_at (f : LFGQueue -> LFGQueue) (queueId : Z) (m : Mgr) : Mgr :=
  with_queues m (<[queueId := f (queue_at m queueId)]> (QueuesStore m)).
Definition Clean (m : Mgr) : Mgr := with_queues m ∅.

Section Mgr.
Context {world : LfgWorld}.

Definition SetTeam (guid team : Z) (m : Mgr) : Mgr := on_player (PlayerData.SetTeam (if two_side_group then 0 else team)) guid m.

Definition HasIgnore (guid1 guid2 : Z) : bool :=
  connected guid1 && connected guid2
  && (social_ignores guid1 (GUID_LOPART guid2) || social_ignores guid2 (GUID_LOPART guid1)).
Definition AllQueued (m : Mgr) (check : list Z) : bool :=
  match check with
  | [] => false
  | _ => forallb (fun guid => bool_decide (GetState m guid = LFG_STATE_QUEUED)) check
  end.

(** What the queues see of the manager. *)
Definition view_of (m : Mgr) : LfgView :=
  mkLfgView (AllQueued m) (IsLfgGroup m) (GetOldState m) HasIgnore (GetPlayerCount m) time random.
(** [FindGroups] of a queue runs on the queue and the manager's proposals. *)
Definition queue_state (m : Mgr) (q : LFGQueue) : QState := mkQState q (m_lfgProposalId m) (ProposalsStore m) (drawn m).
Definition with_queue_state (m : Mgr) (queueId : Z) (s : QState) : Mgr :=
  mkMgr (m_QueueTimer m) (m_options m) (LfgQueue.m_lfgProposalId s) (LfgQueue.drawn s) (tables m)
    (<[queueId := queue s]> (QueuesStore m)) (RoleChecksStore m) (LfgQueue.ProposalsStore s) (BootsStore m)
    (PlayersStore m) (GroupsStore m) (trace m).

(** [SendLfg...]: nothing for a player who is not connected. *)
Definition send (guid : Z) (msg : message) (m : Mgr) : Mgr := if connected guid then emit (Sent guid msg) m else m.

Definition DumpQueueInfo (m : Mgr) (full : bool) : list Z :=
  str "Number of Queues: " ++ dec (Z.of_nat (base.size (QueuesStore m))) ++ [10]
  ++ concat (map (fun e => LfgQueue.DumpQueueInfo (view := view_of m) e.2 ++ DumpCompatibleInfo full e.2)
               (entries Z.le (QueuesStore m))).

Definition remove_group_member (state : LfgState) (m : Mgr) (guid : Z) : Mgr :=
  let m := SetGroup guid 0 m in
  if bool_decide (state = LFG_STATE_PROPOSAL) then m
  else send guid (UpdateParty (update LFG_UPDATETYPE_REMOVED_FROM_QUEUE)) (SetState guid LFG_STATE_NONE m).
Definition RemoveGroupData (guid : Z) (m : Mgr) : Mgr :=
  match GroupsStore m !! guid with
  | None => m
  | Some d =>
    let m := foldl (remove_group_member (GetState m guid)) m (set_order Z.le (GroupData.m_Players d)) in
    with_groups m (delete guid (GroupsStore m))
  end.

(** ** Role checks *)

(** The first half of [UpdateRoleCheck]: the answer of a player; guid 0 gives up. *)
Definition role_check_answer (rc : LfgRoleCheck) (guid roles : Z) : LfgRoleCheck :=
  if guid =? 0 then with_rc_state rc LFG_ROLECHECK_ABORTED
  else if roles <? PLAYER_ROLE_TANK then with_rc_state rc LFG_ROLECHECK_NO_ROLE
  else
    let rc := with_rc_roles rc (<[guid := roles]> (rc_roles rc)) in
    if forallb (fun r => negb (r =? PLAYER_ROLE_NONE)) (roles_of (rc_roles rc))
    then with_rc_state rc (if (CheckGroupRoles (rc_roles rc)).1 then LFG_ROLECHECK_FINISHED else LFG_ROLECHECK_WRONG_ROLES)
    else rc.
(** What the players are shown: the random dungeon instead of its expansion. *)
Definition shown_dungeons (rc : LfgRoleCheck) : gset Z := if negb (rDungeonId rc =? 0) then {[rDungeonId rc]} else rc_dungeons rc.
Definition role_check_player (rc : LfgRoleCheck) (chosen : option (Z * Z)) (m : Mgr) (e : Z * Z) : Mgr :=
  let pguid := e.1 in
  let m := match chosen with Some (guid, roles) => send pguid (RoleChosen guid roles) m | None => m end in
  let m := send pguid (RoleCheckUpdate rc) m in
  match rc_state rc with
  | LFG_ROLECHECK_INITIALITING => m
  | LFG_ROLECHECK_FINISHED =>
      let m := SetRoles pguid e.2 (SetState pguid LFG_STATE_QUEUED m) in
      send pguid (UpdateParty (update_with LFG_UPDATETYPE_ADDED_TO_QUEUE (shown_dungeons rc) (GetComment m pguid))) m
  | _ =>
      let m := if rc_leader rc =? pguid
               then send pguid (JoinResult (mkLfgJoinResultData LFG_JOIN_FAILED (rc_state rc) ∅)) m else m in
      RestoreState pguid (send pguid (UpdateParty (update LFG_UPDATETYPE_ROLECHECK_FAILED)) m)
  end.
Definition UpdateRoleCheck (gguid guid roles : Z) (m : Mgr) : Mgr :=
  if gguid =? 0 then m
  else
    match RoleChecksStore m !! gguid with
    | None => m
    | Some rc =>
      let chosen := if negb (bool_decide (rc_state rc = LFG_ROLECHECK_DEFAULT)) && negb (guid =? 0)
                    then Some (guid, roles) else None in
      let rc := role_check_answer rc guid roles in
      let m := foldl (role_check_player rc chosen) m (entries Z.le (rc_roles rc)) in
      match rc_state rc with
      | LFG_ROLECHECK_FINISHED =>
          let m := SetState gguid LFG_STATE_QUEUED m in
          let m := on_queue_at (AddQueueData gguid time (rc_dungeons rc) (rc_roles rc)) (queue_id m gguid) m in
          with_role_checks m (delete gguid (RoleChecksStore m))
      | LFG_ROLECHECK_INITIALITING => with_role_checks m (<[gguid := rc]> (RoleChecksStore m))
      | _ =>
          let m := RestoreState gguid m in
          with_role_checks m (delete gguid (RoleChecksStore m))
      end
    end.

(** ** Proposals *)

(** [ProposalsStore\[id\].players] with new answers. *)
Definition with_p_players (p : LfgProposal) (players : gmap Z LfgProposalPlayer) : LfgProposal :=
  mkLfgProposal (p_id p) (dungeonId p) (p_state p) (p_group p) (p_leader p) (p_cancelTime p) (encounters p) (isNew p)
    (queues p) (showorder p) players.
Definition with_p_state (p : LfgProposal) (st : LfgProposalState) : LfgProposal :=
  mkLfgProposal (p_id p) (dungeonId p) st (p_group p) (p_leader p) (p_cancelTime p) (encounters p) (isNew p)
    (queues p) (showorder p) (p_players p).
Definition with_p_queues (p : LfgProposal) (l : list Z) : LfgProposal :=
  mkLfgProposal (p_id p) (dungeonId p) (p_state p) (p_group p) (p_leader p) (p_cancelTime p) (encounters p) (isNew p)
    l (showorder p) (p_players p).
Definition with_accept (pp : LfgProposalPlayer) (a : LfgAnswer) : LfgProposalPlayer :=
  mkLfgProposalPlayer (role pp) a (LfgData.group_of pp).
(** The guid a player is queued with: that of his group, or his own. *)
Definition queued_as (guid : Z) (pp : LfgProposalPlayer) : Z := if negb (LfgData.group_of pp =? 0) then LfgData.group_of pp else guid.

(** The loops that mark who did not accept. *)
Definition mark_pending (ty : LfgUpdateType) (pp : LfgProposalPlayer) : LfgProposalPlayer :=
  if bool_decide (ty = LFG_UPDATETYPE_PROPOSAL_FAILED) && bool_decide (accept pp = LFG_ANSWER_PENDING)
  then with_accept pp LFG_ANSWER_DENY else pp.
Definition mark_step (ty : LfgUpdateType) (acc : gmap Z LfgProposalPlayer * gset Z) (e : Z * LfgProposalPlayer)
    : gmap Z LfgProposalPlayer * gset Z :=
  let '(players, toRemove) := acc in
  if bool_decide (accept e.2 = LFG_ANSWER_AGREE) then acc
  else if bool_decide (accept e.2 = LFG_ANSWER_DENY) || bool_decide (ty = LFG_UPDATETYPE_PROPOSAL_FAILED)
  then (<[e.1 := with_accept e.2 LFG_ANSWER_DENY]> players, {[queued_as e.1 e.2]} ∪ toRemove)
  else acc.
Definition mark_players (ty : LfgUpdateType) (players : gmap Z LfgProposalPlayer) : gmap Z LfgProposalPlayer * gset Z :=
  let players := mark_pending ty <$> players in
  foldl (mark_step ty) (players, ∅) (entries Z.le players).

(** One player is told that the proposal failed. *)
Definition removal_update (ty : LfgUpdateType) (pp : LfgProposalPlayer) : LfgUpdateData :=
  update (if bool_decide (accept pp = LFG_ANSWER_DENY) then ty else LFG_UPDATETYPE_REMOVED_FROM_QUEUE).
Definition notify_removed (ty : LfgUpdateType) (p : LfgProposal) (toRemove : gset Z) (m : Mgr) (e : Z * LfgProposalPlayer) : Mgr :=
  let '(guid, pp) := e in
  let gguid := queued_as guid pp in
  let m := send guid (ProposalUpdate p) m in
  if bool_decide (gguid ∈ toRemove) then
    let m := RestoreState guid m in
    if negb (gguid =? guid)
    then send guid (UpdateParty (removal_update ty pp)) (RestoreState (LfgData.group_of pp) m)
    else send guid (UpdatePlayer (removal_update ty pp)) m
  else
    let m := SetState guid LFG_STATE_QUEUED m in
    let added m := update_with LFG_UPDATETYPE_ADDED_TO_QUEUE (GetSelectedDungeons m guid) (GetComment m guid) in
    if negb (gguid =? guid)
    then let m := SetState gguid LFG_STATE_QUEUED m in send guid (UpdateParty (added m)) m
    else send guid (UpdatePlayer (added m)) m.
Definition RemoveProposal (id : Z) (ty : LfgUpdateType) (m : Mgr) : option Mgr :=
  match ProposalsStore m !! id with
  | None => None
  | Some p =>
    let '(players, toRemove) := mark_players ty (p_players p) in
    let p := with_p_players (with_p_state p LFG_PROPOSAL_FAILED) players in
    let m := foldl (notify_removed ty p toRemove) m (entries Z.le players) in
    match keys Z.le players with
    | [] => None
    | first :: _ =>
      let removed := set_order Z.le toRemove in
      let queues := foldl (fun l guid => list_remove_all guid l) (queues p) removed in
      let m := on_queue_at (fun q => foldl (fun q guid => AddToQueue guid q)
                                       (foldl (fun q guid => RemoveFromQueue guid q) q removed) queues)
                 (queue_id m first) m in
      Some (with_proposals m (delete id (ProposalsStore m)))
    end
  end.

Definition MakeNewGroup (p : LfgProposal) (m : Mgr) : option Mgr :=
  match GetLFGDungeon (tables m) (dungeonId p) with
  | None => None                                       (* ASSERT(dungeon) *)
  | Some _ => Some (emit (NewGroup p) m)
  end.

(** One player of an accepted proposal.  The update that is sent is changed for
    all players after the first. *)
Definition count_wait (role waitTime dungeonId : Z) (q : LFGQueue) : LFGQueue :=
  if role =? PLAYER_ROLE_DAMAGE then UpdateWaitTimeDps waitTime dungeonId q
  else if role =? PLAYER_ROLE_HEALER then UpdateWaitTimeHealer waitTime dungeonId q
  else if role =? PLAYER_ROLE_TANK then UpdateWaitTimeTank waitTime dungeonId q
  else UpdateWaitTimeAvg waitTime dungeonId q.
Definition accepted_player (p : LfgProposal) (queueId : Z) (sendUpdate : bool) (acc : option (LfgUpdateType * Mgr))
    (e : Z * LfgProposalPlayer) : option (LfgUpdateType * Mgr) :=
  match acc with
  | None => None
  | Some (updateType, m) =>
    let '(pguid, pp) := e in
    match set_order Z.le (GetSelectedDungeons m pguid) with
    | [] => None
    | dungeonId :: _ =>
      let m := if sendUpdate then send pguid (ProposalUpdate p) m else m in
      let '(joined, q) := GetJoinTime time (queued_as pguid pp) (queue_at m queueId) in
      let m := on_queue_at (fun _ => q) queueId m in
      let waitTime := s32 (Z.quot (time - joined) IN_MILLISECONDS) in
      let m := if negb (LfgData.group_of pp =? 0) then send pguid (UpdateParty (update updateType)) m
               else send pguid (UpdatePlayer (update updateType)) m in
      let removed := update LFG_UPDATETYPE_REMOVED_FROM_QUEUE in
      let m := send pguid (UpdateParty removed) (send pguid (UpdatePlayer removed) m) in
      let m := on_queue_at (count_wait (clear_leader (GetRoles m pguid)) waitTime dungeonId) queueId m in
      Some (LFG_UPDATETYPE_REMOVED_FROM_QUEUE, SetState pguid LFG_STATE_DUNGEON m)
    end
  end.
Definition UpdateProposal (proposalId guid : Z) (accepts : bool) (m : Mgr) : option Mgr :=
  match ProposalsStore m !! proposalId with
  | None => Some m
  | Some p =>
    match p_players p !! guid with
    | None => Some m
    | Some player =>
      let p := with_p_players p (<[guid := with_accept player (answer_of accepts)]> (p_players p)) in
      let m := with_proposals m (<[proposalId := p]> (ProposalsStore m)) in
      if negb accepts then RemoveProposal proposalId LFG_UPDATETYPE_PROPOSAL_DECLINED m
      else if negb (forallb (fun e => bool_decide (accept e.2 = LFG_ANSWER_AGREE)) (entries Z.le (p_players p)))
      then Some (foldl (fun m pguid => send pguid (ProposalUpdate p) m) m (keys Z.le (p_players p)))
      else
        let sendUpdate := negb (bool_decide (p_state p = LFG_PROPOSAL_SUCCESS)) in
        let p := with_p_state p LFG_PROPOSAL_SUCCESS in
        let m := with_proposals m (<[proposalId := p]> (ProposalsStore m)) in
        let queueId := queue_id m guid in
        match foldl (accepted_player p queueId sendUpdate) (Some (LFG_UPDATETYPE_GROUP_FOUND, m))
                (entries Z.le (p_players p)) with
        | None => None
        | Some (_, m) =>
          let m := on_queue_at (fun q => foldl (fun q guid => RemoveFromQueue guid q) q (queues p)) queueId m in
          match MakeNewGroup p m with
          | None => None
          | Some m => Some (with_proposals m (delete proposalId (ProposalsStore m)))
          end
        end
    end
  end.

(** ** Votes to kick a player *)

Definition with_votes (b : LfgPlayerBoot) (v : gmap Z LfgAnswer) : LfgPlayerBoot :=
  mkLfgPlayerBoot (b_cancelTime b) (inProgress b) v (victim b) (reason b).
Definition stopped (b : LfgPlayerBoot) : LfgPlayerBoot :=
  mkLfgPlayerBoot (b_cancelTime b) false (votes b) (victim b) (reason b).

Definition InitBoot (gguid kicker vict : Z) (why : list Z) (m : Mgr) : Mgr :=
  let m := SetState gguid LFG_STATE_BOOT m in
  let players := set_order Z.le (GetPlayers m gguid) in
  let '(m, v) := foldl (fun '(m, v) guid => (SetState guid LFG_STATE_BOOT m, <[guid := LFG_ANSWER_PENDING]> v))
                   (m, votes (entry_at new_boot (BootsStore m) gguid)) players in
  let boot := mkLfgPlayerBoot (time + LFG_TIME_BOOT) true
                (<[kicker := LFG_ANSWER_AGREE]> (<[vict := LFG_ANSWER_DENY]> v)) vict why in
  let m := with_boots m (<[gguid := boot]> (BootsStore m)) in
  foldl (fun m guid => send guid (BootProposalUpdate boot) m) m players.

(** [votesNum] and [agreeNum], counted in bytes. *)
Definition count_votes (v : gmap Z LfgAnswer) : Z * Z :=
  foldl (fun '(votesNum, agreeNum) a =>
           if bool_decide (a = LFG_ANSWER_PENDING) then (votesNum, agreeNum)
           else (u8 (votesNum + 1), if bool_decide (a = LFG_ANSWER_AGREE) then u8 (agreeNum + 1) else agreeNum))
    (0, 0) (map snd (entries Z.le v)).
(** A vote that is not there is made, as the answer no. *)
Definition UpdateBoot (guid : Z) (accepts : bool) (m : Mgr) : Mgr :=
  let gguid := GetGroup m guid in
  if gguid =? 0 then m
  else
    match BootsStore m !! gguid with
    | None => m
    | Some boot =>
      let boot := with_votes boot (<[guid := default LFG_ANSWER_DENY (votes boot !! guid)]> (votes boot)) in
      if negb (bool_decide (votes boot !! guid = Some LFG_ANSWER_PENDING))
      then with_boots m (<[gguid := boot]> (BootsStore m))
      else
        let boot := with_votes boot (<[guid := answer_of accepts]> (votes boot)) in
        let '(votesNum, agreeNum) := count_votes (votes boot) in
        if (agreeNum <? LFG_GROUP_KICK_VOTES_NEEDED) && (votesNum - agreeNum <? LFG_GROUP_KICK_VOTES_NEEDED)
        then with_boots m (<[gguid := boot]> (BootsStore m))
        else
          let boot := stopped boot in
          let m := foldl (fun m pguid =>
                     if negb (pguid =? victim boot)
                     then send pguid (BootProposalUpdate boot) (SetState pguid LFG_STATE_DUNGEON m) else m)
                     m (keys Z.le (votes boot)) in
          let m := SetState gguid LFG_STATE_DUNGEON m in
          let m := if agreeNum =? LFG_GROUP_KICK_VOTES_NEEDED
                   then DecreaseKicksLeft gguid
                          (if group_exists (GUID_LOPART gguid) then emit (KickFromGroup gguid (victim boot)) m else m)
                   else m in
          with_boots m (delete gguid (BootsStore m))
    end.

(** ** Leaving *)

Definition LeaveLfg (guid : Z) (m : Mgr) : option Mgr :=
  let gguid := if IS_GROUP_GUID guid then guid else GetGroup m guid in
  match GetState m guid with
  | LFG_STATE_QUEUED =>
    Some (if negb (gguid =? 0) then
            let m := on_queue_at (RemoveFromQueue gguid) (queue_id m gguid) m in
            let m := SetState gguid LFG_STATE_NONE m in
            foldl (fun m pguid => send pguid (UpdateParty (update LFG_UPDATETYPE_REMOVED_FROM_QUEUE))
                                    (SetState pguid LFG_STATE_NONE m)) m (set_order Z.le (GetPlayers m gguid))
          else
            let m := on_queue_at (RemoveFromQueue guid) (queue_id m guid) m in
            SetState guid LFG_STATE_NONE (send guid (UpdatePlayer (update LFG_UPDATETYPE_REMOVED_FROM_QUEUE)) m))
  | LFG_STATE_ROLECHECK => Some (if negb (gguid =? 0) then UpdateRoleCheck gguid 0 PLAYER_ROLE_NONE m else m)
  | LFG_STATE_PROPOSAL =>
    let pguid := if gguid =? guid then GetLeader m gguid else guid in
    match List.find (fun e => bool_decide (is_Some (p_players e.2 !! pguid))) (entries Z.le (ProposalsStore m)) with
    | None => Some m
    | Some (id, p) =>
      let p := with_p_players p (alter (fun pp => with_accept pp LFG_ANSWER_DENY) pguid (p_players p)) in
      RemoveProposal id LFG_UPDATETYPE_PROPOSAL_DECLINED (with_proposals m (<[id := p]> (ProposalsStore m)))
    end
  | LFG_STATE_NONE | LFG_STATE_RAIDBROWSER => Some m
  | LFG_STATE_DUNGEON | LFG_STATE_FINISHED_DUNGEON | LFG_STATE_BOOT =>
    Some (if negb (guid =? gguid) then SetState guid LFG_STATE_NONE m else m)
  end.

(** ** Joining *)

(** What joining asks of a player, and of his group: its members that are online. *)
Record Joiner := mkJoiner {
  j_guid : Z; j_may_join : bool;          (** RBAC_PERM_JOIN_DUNGEON_FINDER *)
  j_in_bg : bool;                         (** [InBattleground() || InArena() || InBattlegroundQueue()] *)
  j_deserter : bool; j_cooldown : bool    (** the two auras *)
}.
Record JoinGroup := mkJoinGroup { jg_guid : Z; jg_isLFG : bool; jg_count : Z; jg_members : list Joiner }.

Definition is_ok (r : LfgJoinResult) : bool := bool_decide (r = LFG_JOIN_OK).
(** The checks of one member: the later ones overwrite the permission's result. *)
Definition member_result (plrg : Joiner) : LfgJoinResult :=
  let r := if negb (j_may_join plrg) then LFG_JOIN_PARTY_NOT_MEET_REQS else LFG_JOIN_OK in
  if j_deserter plrg then LFG_JOIN_PARTY_DESERTER
  else if j_cooldown plrg then LFG_JOIN_PARTY_RANDOM_COOLDOWN
  else if j_in_bg plrg then LFG_JOIN_USING_BG_SYSTEM
  else r.
(** The loop over the members: the result, their number and the players so far. *)
Fixpoint check_members (l : list Joiner) (acc : LfgJoinResult * Z * gset Z) : LfgJoinResult * Z * gset Z :=
  match l with
  | [] => acc
  | plrg :: l =>
    let '(r, memberCount, players) := acc in
    if negb (is_ok r) then acc
    else check_members l (member_result plrg, u8 (memberCount + 1), {[j_guid plrg]} ∪ players)
  end.
Definition restrictions (player : Joiner) (grp : option JoinGroup) (dungeons : gset Z) : LfgJoinResult * gset Z :=
  if negb (j_may_join player) then (LFG_JOIN_NOT_MEET_REQS, ∅)
  else if j_in_bg player then (LFG_JOIN_USING_BG_SYSTEM, ∅)
  else if j_deserter player then (LFG_JOIN_DESERTER, ∅)
  else if j_cooldown player then (LFG_JOIN_RANDOM_COOLDOWN, ∅)
  else if bool_decide (dungeons = ∅) then (LFG_JOIN_NOT_MEET_REQS, ∅)
  else match grp with
       | None => (LFG_JOIN_OK, {[j_guid player]})
       | Some g =>
         if MAXGROUPSIZE <? jg_count g then (LFG_JOIN_TOO_MUCH_MEMBERS, ∅)
         else
           let '(r, memberCount, players) := check_members (jg_members g) (LFG_JOIN_OK, 0, ∅) in
           (if is_ok r && negb (memberCount =? jg_count g) then LFG_JOIN_DISCONNECTED else r, players)
       end.

(** The loop over the selected dungeons. *)
Record kinds := mkKinds { k_result : LfgJoinResult; isRaid : bool; isDungeon : bool; k_random : Z }.
Definition dungeon_kind (t : Dungeons) (dungeons : gset Z) (k : kinds) (id : Z) : kinds :=
  if negb (is_ok (k_result k)) then k
  else
    let ty := GetDungeonType t id in
    if ty =? LFG_TYPE_RANDOM then
      let k := if (1 <? Z.of_nat (base.size dungeons)) then mkKinds LFG_JOIN_DUNGEON_INVALID (isRaid k) (isDungeon k) (k_random k)
               else mkKinds (k_result k) (isRaid k) (isDungeon k) (default 0 (head (set_order Z.le dungeons))) in
      mkKinds (if isRaid k then LFG_JOIN_MIXED_RAID_DUNGEON else k_result k) (isRaid k) true (k_random k)
    else if (ty =? LFG_TYPE_HEROIC) || (ty =? LFG_TYPE_DUNGEON) then
      mkKinds (if isRaid k then LFG_JOIN_MIXED_RAID_DUNGEON else k_result k) (isRaid k) true (k_random k)
    else if ty =? LFG_TYPE_RAID then
      mkKinds (if isDungeon k then LFG_JOIN_MIXED_RAID_DUNGEON else k_result k) true (isDungeon k) (k_random k)
    else mkKinds LFG_JOIN_DUNGEON_INVALID (isRaid k) (isDungeon k) (k_random k).
Definition dungeon_kinds (t : Dungeons) (dungeons : gset Z) : kinds :=
  foldl (dungeon_kind t dungeons) (mkKinds LFG_JOIN_OK false false 0) (set_order Z.le dungeons).

(** [GetLockedDungeons(guid)]. *)
Definition locked_dungeons (m : Mgr) (guid : Z) : gmap Z Z :=
  GetLockedDungeons holiday access_requirement (tables m) (player_view guid).

(** The checks before joining: the result, the dungeons left, the locks, whether
    a raid was chosen and the random dungeon. *)
Record join_check := mkJoinCheck {
  jc_result : LfgJoinResult; jc_dungeons : gset Z; jc_lockmap : LfgLockPartyMap; jc_raid : bool; jc_random : Z
}.
Definition check_join (m : Mgr) (player : Joiner) (grp : option JoinGroup) (dungeons : gset Z) : join_check :=
  let '(r, players) := restrictions player grp dungeons in
  if negb (is_ok r) then mkJoinCheck r dungeons ∅ false 0
  else
    let k := dungeon_kinds (tables m) dungeons in
    if negb (is_ok (k_result k)) then mkJoinCheck (k_result k) dungeons ∅ (isRaid k) (k_random k)
    else
      let dungeons := if negb (k_random k =? 0) then GetDungeonsByRandom (tables m) (k_random k) else dungeons in
      let '(dungeons, lockMap) := GetCompatibleDungeons (locked_dungeons m) dungeons players in
      let r := if bool_decide (dungeons = ∅)
               then match grp with Some _ => LFG_JOIN_PARTY_NOT_MEET_REQS | None => LFG_JOIN_NOT_MEET_REQS end
               else LFG_JOIN_OK in
      mkJoinCheck r dungeons lockMap (isRaid k) (k_random k).

(** The members of a group enter the role check. *)
Definition begin_member (isContinue : bool) (data : LfgUpdateData) (acc : Mgr * LfgRolesMap) (plrg : Joiner) : Mgr * LfgRolesMap :=
  let '(m, rs) := acc in
  let pguid := j_guid plrg in
  let m := SetState pguid LFG_STATE_ROLECHECK (emit (Sent pguid (UpdateParty data)) m) in
  let m := if negb isContinue then SetSelectedDungeons pguid (u_dungeons data) m else m in
  (m, <[pguid := 0]> rs).
Definition begin_role_check (g : JoinGroup) (guid roles : Z) (isContinue : bool) (dungeons : gset Z) (rDungeonId : Z)
    (comment : list Z) (m : Mgr) : Mgr :=
  let gguid := jg_guid g in
  let shown := if negb (rDungeonId =? 0) then {[rDungeonId]} else dungeons in
  let m := SetState gguid LFG_STATE_ROLECHECK m in
  let '(m, rs) := foldl (begin_member isContinue (update_with LFG_UPDATETYPE_JOIN_QUEUE shown comment))
                    (m, rc_roles (entry_at new_role_check (RoleChecksStore m) gguid)) (jg_members g) in
  let rc := mkLfgRoleCheck (time + LFG_TIME_ROLECHECK) rs LFG_ROLECHECK_INITIALITING dungeons rDungeonId guid in
  UpdateRoleCheck gguid guid roles (with_role_checks m (<[gguid := rc]> (RoleChecksStore m))).
Definition join_alone (guid roles : Z) (isContinue : bool) (dungeons : gset Z) (rDungeonId : Z) (comment : list Z)
    (joinData : LfgJoinResultData) (m : Mgr) : Mgr :=
  let m := on_queue_at (AddQueueData guid time dungeons {[guid := roles]}) (queue_id m guid) m in
  let shown := if negb isContinue && negb (rDungeonId =? 0) then {[rDungeonId]} else dungeons in
  let m := if negb isContinue then SetSelectedDungeons guid shown m else m in
  let m := emit (Sent guid (JoinResult joinData)) m in
  let m := emit (Sent guid (UpdatePlayer (update_with LFG_UPDATETYPE_JOIN_QUEUE shown comment))) m in
  SetRoles guid roles (SetState guid LFG_STATE_QUEUED m).

Definition JoinLfg (player : Joiner) (grp : option JoinGroup) (roles : Z) (dungeons : gset Z) (comment : list Z) (m : Mgr) : Mgr :=
  if bool_decide (dungeons = ∅) then m
  else
    let guid := j_guid player in
    let gguid := match grp with Some g => jg_guid g | None => guid end in
    let isContinue := match grp with
                      | Some g => jg_isLFG g && negb (bool_decide (GetState m gguid = LFG_STATE_FINISHED_DUNGEON))
                      | None => false
                      end in
    let dungeons := if isContinue then {[GetDungeon m gguid true]} else dungeons in
    let m := if bool_decide (GetState m gguid = LFG_STATE_QUEUED)
             then on_queue_at (RemoveFromQueue gguid) (queue_id m gguid) m else m in
    let c := check_join m player grp dungeons in
    let joinData := mkLfgJoinResultData (jc_result c) LFG_ROLECHECK_DEFAULT (jc_lockmap c) in
    if negb (is_ok (jc_result c)) then
      let lockmap := if negb (bool_decide (jc_dungeons c = ∅)) then ∅ else jc_lockmap c in
      emit (Sent guid (JoinResult (mkLfgJoinResultData (jc_result c) LFG_ROLECHECK_DEFAULT lockmap))) m
    else
      let m := SetComment guid comment m in
      if jc_raid c then m
      else match grp with
           | Some g => begin_role_check g guid roles isContinue (jc_dungeons c) (jc_random c) comment m
           | None => join_alone guid roles isContinue (jc_dungeons c) (jc_random c) comment joinData m
           end.

(** ** The update *)

Definition expired_check_player (rc : LfgRoleCheck) (m : Mgr) (guid : Z) : Mgr :=
  let m := send guid (RoleCheckUpdate rc) (RestoreState guid m) in
  if guid =? rc_leader rc
  then send guid (JoinResult (mkLfgJoinResultData LFG_JOIN_FAILED LFG_ROLECHECK_MISSING_ROLE ∅)) m else m.
Definition expire_role_check (m : Mgr) (e : Z * LfgRoleCheck) : Mgr :=
  let '(gguid, rc) := e in
  if time <? rc_cancelTime rc then m
  else
    let rc := with_rc_state rc LFG_ROLECHECK_MISSING_ROLE in
    let m := foldl (expired_check_player rc) m (keys Z.le (rc_roles rc)) in
    let m := RestoreState gguid m in
    with_role_checks m (delete gguid (RoleChecksStore m)).
Definition expire_proposal (m : option Mgr) (e : Z * LfgProposal) : option Mgr :=
  match m with
  | None => None
  | Some m => if p_cancelTime e.2 <? time then RemoveProposal e.1 LFG_UPDATETYPE_PROPOSAL_FAILED m else Some m
  end.
Definition expire_boot (m : Mgr) (e : Z * LfgPlayerBoot) : Mgr :=
  let '(gguid, boot) := e in
  if b_cancelTime boot <? time then
    let boot := stopped boot in
    let m := foldl (fun m pguid =>
               SetState pguid LFG_STATE_DUNGEON
                 (if negb (pguid =? victim boot) then send pguid (BootProposalUpdate boot) m else m))
               m (keys Z.le (votes boot)) in
    let m := SetState gguid LFG_STATE_DUNGEON m in
    with_boots m (delete gguid (BootsStore m))
  else m.

Definition find_groups_in (m : option Mgr) (queueId : Z) : option Mgr :=
  match m with
  | None => None
  | Some m =>
    match FindGroups (view := view_of m) (queue_state m (queue_at m queueId)) with
    | None => None
    | Some (_, s) => Some (with_queue_state m queueId s)
    end
  end.

(** A new proposal is shown to its players. *)
Definition announce_player (p : LfgProposal) (m : Mgr) (guid : Z) : Mgr :=
  let m := SetState guid LFG_STATE_PROPOSAL m in
  let gguid := GetGroup m guid in
  let data m := update_with LFG_UPDATETYPE_PROPOSAL_BEGIN (GetSelectedDungeons m guid) (GetComment m guid) in
  let m := if negb (gguid =? 0)
           then let m := SetState gguid LFG_STATE_PROPOSAL m in send guid (UpdateParty (data m)) m
           else send guid (UpdatePlayer (data m)) m in
  send guid (ProposalUpdate p) m.
(** The iterator is no longer valid when the proposal was accepted and erased. *)
Definition announce (m : option Mgr) (e : Z * LfgProposal) : option Mgr :=
  match m with
  | None => None
  | Some m =>
    let '(proposalId, p) := e in
    let guids := keys Z.le (p_players p) in
    let m := foldl (announce_player p) m guids in
    if bool_decide (p_state p = LFG_PROPOSAL_SUCCESS) then
      match UpdateProposal proposalId (default 0 (last guids)) true m with
      | Some m => if bool_decide (is_Some (ProposalsStore m !! proposalId)) then Some m else None
      | None => None
      end
    else Some m
  end.
(** From [ProposalsStore.find(m_lfgProposalId)] to the end. *)
Definition announced (m : Mgr) : list (Z * LfgProposal) :=
  if bool_decide (is_Some (ProposalsStore m !! m_lfgProposalId m))
  then filter (fun e => m_lfgProposalId m <= e.1) (entries Z.le (ProposalsStore m)) else [].

Definition update_queue_timers (m : option Mgr) (queueId : Z) : option Mgr :=
  match m with
  | None => None
  | Some m =>
    match UpdateQueueTimers time (queue_at m queueId) with
    | None => None
    | Some (statuses, q) =>
      let m := foldl (fun m '(guid, data) => send guid (QueueStatus data) m) m statuses in
      Some (on_queue_at (fun _ => q) queueId m)
    end
  end.

Definition Update (diff : Z) (m : Mgr) : option Mgr :=
  if negb (isOptionEnabled m (Z.lor LFG_OPTION_ENABLE_DUNGEON_FINDER LFG_OPTION_ENABLE_RAID_BROWSER)) then Some m
  else
    let m := foldl expire_role_check m (entries Z.le (RoleChecksStore m)) in
    match foldl expire_proposal (Some m) (entries Z.le (ProposalsStore m)) with
    | None => None
    | Some m =>
      let m := foldl expire_boot m (entries Z.le (BootsStore m)) in
      let lastProposalId := m_lfgProposalId m in
      match foldl find_groups_in (Some m) (keys Z.le (QueuesStore m)) with
      | None => None
      | Some m =>
        match (if negb (lastProposalId =? m_lfgProposalId m) then foldl announce (Some m) (announced m) else Some m) with
        | None => None
        | Some m =>
          if LFG_QUEUEUPDATE_INTERVAL <? m_QueueTimer m
          then foldl update_queue_timers (Some (with_timer m 0)) (keys Z.le (QueuesStore m))
          else Some (with_timer m (u32 (m_QueueTimer m + diff)))
        end
      end
    end.
End Mgr.

(** ** What the small operations leave alone *)

(** Only the data of players and groups and the trace differ. *)
Record only_people (m m' : Mgr) : Prop := mk_only_people {
  op_timer : m_QueueTimer m' = m_QueueTimer m; op_options : m_options m' = m_options m;
  op_id : m_lfgProposalId m' = m_lfgProposalId m; op_drawn : drawn m' = drawn m; op_tables : tables m' = tables m;
  op_queues : QueuesStore m' = QueuesStore m; op_checks : RoleChecksStore m' = RoleChecksStore m;
  op_proposals : ProposalsStore m' = ProposalsStore m; op_boots : BootsStore m' = BootsStore m
}.
#[export] Instance only_people_preorder : PreOrder only_people.
Proof. split; [now split|]. intros ? ? ? [] []. split; congruence. Qed.

Lemma people_on_player f g m : only_people m (on_player f g m).
Proof. now split. Qed.
Lemma people_on_group f g m : only_people m (on_group f g m).
Proof. now split. Qed.
Lemma people_emit e m : only_people m (emit e m).
Proof. now split. Qed.
Lemma people_SetState g st m : only_people m (SetState g st m).
Proof. unfold SetState. now case_if. Qed.
Lemma people_RestoreState g m : only_people m (RestoreState g m).
Proof. unfold RestoreState. now case_if. Qed.
#[export] Hint Resolve people_on_player people_on_group people_emit people_SetState people_RestoreState : trinity.
Lemma people_foldl {A} (f : Mgr -> A -> Mgr) l m :
  (forall m x, only_people m (f m x)) -> only_people m (foldl f m l).
Proof.
  intros Hf. revert m. induction l as [|x l IH]; intros m; cbn [foldl]; [reflexivity|]. etransitivity; [apply Hf|apply IH].
Qed.
Lemma people_send `{LfgWorld} g msg m : only_people m (send g msg m).
Proof. unfold send. now case_if. Qed.
(** [m'] written as small operations on [m]. *)
Ltac people := repeat match goal with
  | |- only_people ?m ?m => reflexivity
  | |- only_people _ (if ?b then _ else _) => destruct b
  | |- only_people _ (match ?c with Some _ => _ | None => _ end) => destruct c
  | |- only_people _ (let '(_, _) := ?c in _) => destruct c
  | |- only_people _ (send _ _ _) => etransitivity; [|apply people_send]
  | |- only_people _ (SetState _ _ _) => etransitivity; [|apply people_SetState]
  | |- only_people _ (RestoreState _ _) => etransitivity; [|apply people_RestoreState]
  | |- only_people _ (emit _ _) => etransitivity; [|apply people_emit]
  | |- only_people _ (on_player _ _ _) => etransitivity; [|apply people_on_player]
  | |- only_people _ (on_group _ _ _) => etransitivity; [|apply people_on_group]
  | |- only_people _ (SetRoles _ _ _) => etransitivity; [|apply people_on_player]
  | |- only_people _ (SetComment _ _ _) => etransitivity; [|apply people_on_player]
  | |- only_people _ (SetGroup _ _ _) => etransitivity; [|apply people_on_player]
  | |- only_people _ (SetSelectedDungeons _ _ _) => etransitivity; [|apply people_on_player]
  | |- only_people _ (DecreaseKicksLeft _ _) => etransitivity; [|apply people_on_group]
  | |- only_people _ (foldl _ _ _) => etransitivity; [|apply people_foldl; intros]
  end.

Lemma player_of_on_player f g m x : player_of (on_player f g m) x = if decide (x = g) then f (player_of m g) else player_of m x.
Proof.
  unfold player_of, on_player, entry_at. cbn. case_decide as E; [subst; now rewrite lookup_insert_eq|]. now rewrite lookup_insert_ne.
Qed.
Lemma group_of_on_group f g m x : group_of (on_group f g m) x = if decide (x = g) then f (group_of m g) else group_of m x.
Proof.
  unfold group_of, on_group, entry_at. cbn. case_decide as E; [subst; now rewrite lookup_insert_eq|]. now rewrite lookup_insert_ne.
Qed.
Lemma player_of_on_group f g m x : player_of (on_group f g m) x = player_of m x.
Proof. reflexivity. Qed.
Lemma group_of_on_player f g m x : group_of (on_player f g m) x = group_of m x.
Proof. reflexivity. Qed.

(** A change of one player, and one that leaves the groups alone. *)
Definition moves_player (F : Mgr -> Mgr) (g : Z) (h : PlayerData.LfgPlayerData -> PlayerData.LfgPlayerData) : Prop :=
  forall m x, player_of (F m) x = if decide (x = g) then h (player_of m x) else player_of m x.
Definition changes_player (F : Mgr -> Mgr) (g : Z) (h : PlayerData.LfgPlayerData -> PlayerData.LfgPlayerData) : Prop :=
  forall m, (forall x, player_of (F m) x = if decide (x = g) then h (player_of m x) else player_of m x) /\
            (forall x, group_of (F m) x = group_of m x).

(** One walk that changes each player of a list once. *)
Lemma walk_moves {A} (F : Mgr -> A -> Mgr) (k : A -> Z) (h : A -> PlayerData.LfgPlayerData -> PlayerData.LfgPlayerData) l m :
  (forall e, e ∈ l -> moves_player (fun m => F m e) (k e) (h e)) -> NoDup (map k l) ->
  (forall e, e ∈ l -> player_of (foldl F m l) (k e) = h e (player_of m (k e))) /\
  (forall x, x ∉ map k l -> player_of (foldl F m l) x = player_of m x).
Proof.
  intros Hl Hn. revert m. induction l as [|e l IH]; intros m; cbn [foldl].
  { split; [intros e He; now apply not_elem_of_nil in He|done]. }
  cbn in Hn. apply NoDup_cons in Hn as [Hk Hn]. pose proof (Hl e (list_elem_of_here _ _) m) as Hp.
  destruct (IH (fun e' He' => Hl e' (list_elem_of_further _ _ _ He')) Hn (F m e)) as (H1 & H2). split.
  - intros e' [->|He']%elem_of_cons.
    + rewrite H2 by done. rewrite Hp. now rewrite decide_True.
    + rewrite H1 by done. rewrite Hp. rewrite decide_False; [done|]. intros Hk'. apply Hk. rewrite <- Hk'.
      apply list_elem_of_In, in_map, list_elem_of_In, He'.
  - intros x Hx. cbn in Hx. apply not_elem_of_cons in Hx as [Hx1 Hx2]. rewrite H2 by done. rewrite Hp. now rewrite decide_False.
Qed.
Lemma walk_players {A} (F : Mgr -> A -> Mgr) (k : A -> Z) (h : A -> PlayerData.LfgPlayerData -> PlayerData.LfgPlayerData) l m :
  (forall e, e ∈ l -> changes_player (fun m => F m e) (k e) (h e)) -> NoDup (map k l) ->
  (forall e, e ∈ l -> player_of (foldl F m l) (k e) = h e (player_of m (k e))) /\
  (forall x, x ∉ map k l -> player_of (foldl F m l) x = player_of m x) /\
  (forall x, group_of (foldl F m l) x = group_of m x).
Proof.
  intros Hl Hn. destruct (walk_moves F k h l m) as [H1 H2]; [intros e He m0; apply (Hl e He)|done|].
  split_and!; [done..|]. clear H1 H2 Hn. revert m. induction l as [|e l IH]; intros m x; cbn [foldl]; [done|].
  rewrite IH by (intros e' He'; apply Hl; now right). apply (Hl e (list_elem_of_here _ _) m).
Qed.
Lemma entries_keys_NoDup {A} (m : gmap Z A) : NoDup (map fst (entries Z.le m)).
Proof. apply NoDup_entries_fst. Qed.

(** ** Counting votes *)

Definition tally (a : LfgAnswer) (v : gmap Z LfgAnswer) : Z := Z.of_nat (base.size (filter (fun e => e.2 = a) v)).

Lemma tally_insert a b k v : v !! k = Some b -> a <> b ->
  forall x, tally x (<[k := a]> v) = if decide (x = a) then tally x v + 1 else if decide (x = b) then tally x v - 1 else tally x v.
Proof.
  intros Hk Hab x. unfold tally. destruct (decide (x = a)) as [->|Hxa].
  - rewrite map_filter_insert_True by done. rewrite map_size_insert_None; [lia|].
    apply map_lookup_filter_None. right. intros y Hy. cbn. congruence.
  - rewrite map_filter_insert_False by (cbn; congruence).
    destruct (decide (x = b)) as [->|Hxb].
    + rewrite map_filter_delete. rewrite map_size_delete_Some; [|exists b; now apply map_lookup_filter_Some_2].
      assert (Hne : filter (fun e : Z * LfgAnswer => e.2 = b) v !! k = Some b) by now apply map_lookup_filter_Some_2.
      assert (base.size (filter (fun e : Z * LfgAnswer => e.2 = b) v) <> 0%nat).
      { intros E. apply map_size_empty_iff in E. rewrite E, lookup_empty in Hne. done. }
      lia.
    + rewrite map_filter_delete, delete_id; [done|]. apply map_lookup_filter_None. right. intros y Hy. cbn. congruence.
Qed.
Lemma tally_nonneg a v : 0 <= tally a v.
Proof. unfold tally. lia. Qed.

Lemma count_votes_list l n0 a0 :
  foldl (fun '(votesNum, agreeNum) a =>
           if bool_decide (a = LFG_ANSWER_PENDING) then (votesNum, agreeNum)
           else (u8 (votesNum + 1), if bool_decide (a = LFG_ANSWER_AGREE) then u8 (agreeNum + 1) else agreeNum))
    (u8 n0, u8 a0) l
  = (u8 (n0 + Z.of_nat (length (filter (fun a => a = LFG_ANSWER_DENY) l)) + Z.of_nat (length (filter (fun a => a = LFG_ANSWER_AGREE) l))),
     u8 (a0 + Z.of_nat (length (filter (fun a => a = LFG_ANSWER_AGREE) l)))).
Proof.
  revert n0 a0. induction l as [|a l IH]; intros n0 a0; cbn [foldl].
  { cbn. now rewrite !Z.add_0_r. }
  destruct a; repeat (rewrite bool_decide_eq_false_2 by done); repeat (rewrite bool_decide_eq_true_2 by done);
    repeat (rewrite bool_decide_eq_false_2 by done); rewrite ?uwrap_add_l;
    rewrite IH, !filter_cons; repeat case_decide; try done; cbn [length]; f_equal; f_equal; lia.
Qed.
Lemma length_filter_snd a (v : gmap Z LfgAnswer) :
  Z.of_nat (length (filter (fun x => x = a) (map snd (entries Z.le v)))) = tally a v.
Proof.
  unfold tally. rewrite <- (length_entries Z.le (filter _ v)). f_equal. rewrite <- (length_map snd).
  rewrite <- (list_to_map_entries Z.le v) at 2. pose proof (entries_keys_NoDup v) as Hn. revert Hn.
  generalize (entries Z.le v). intros l Hn. rewrite length_map, length_entries.
  induction l as [|[k x] l IH]; [done|]. cbn [map fst snd] in *. apply NoDup_cons in Hn as [Hk Hn].
  cbn [list_to_map foldr uncurry]. change (foldr (uncurry insert) ∅ l) with (list_to_map l : gmap Z LfgAnswer).
  assert (Hnone : (list_to_map l : gmap Z LfgAnswer) !! k = None) by now apply not_elem_of_list_to_map_1.
  destruct (decide (x = a)) as [->|Hx].
  - rewrite filter_cons_True by done. rewrite map_filter_insert_True by done.
    rewrite map_size_insert_None; [cbn; f_equal; now apply IH|]. apply map_lookup_filter_None. now left.
  - rewrite filter_cons_False by done. rewrite map_filter_insert_False by done. rewrite delete_id by done. now apply IH.
Qed.
Lemma count_votes_spec v : count_votes v = (u8 (tally LFG_ANSWER_DENY v + tally LFG_ANSWER_AGREE v), u8 (tally LFG_ANSWER_AGREE v)).
Proof.
  unfold count_votes. pose proof (count_votes_list (map snd (entries Z.le v)) 0 0) as H.
  change (u8 0) with 0 in H. rewrite H. now rewrite !length_filter_snd.
Qed.

Section Theorems.
Context {world : LfgWorld}.

Lemma player_of_send g msg m x : player_of (send g msg m) x = player_of m x.
Proof. unfold send. now case_if. Qed.
Lemma group_of_send g msg m x : group_of (send g msg m) x = group_of m x.
Proof. unfold send. now case_if. Qed.

(** The players kicked so far. *)
Definition is_kick (e : event) : bool := match e with KickFromGroup _ _ => true | _ => false end.
Definition kicks (m : Mgr) : list event := filter (fun e => is_kick e = true) (trace m).
Lemma kicks_emit e m : kicks (emit e m) = kicks m ++ (if is_kick e then [e] else []).
Proof.
  unfold kicks. cbn. rewrite filter_app. f_equal. destruct (is_kick e) eqn:E; [now rewrite filter_cons_True|].
  rewrite filter_cons_False; [done|]. now rewrite E.
Qed.
Lemma kicks_send g msg m : kicks (send g msg m) = kicks m.
Proof. unfold send. case_if; [|done]. rewrite kicks_emit. apply app_nil_r. Qed.
Lemma kicks_SetState g st m : kicks (SetState g st m) = kicks m.
Proof. unfold SetState. now case_if. Qed.
Lemma kicks_foldl {A} (f : Mgr -> A -> Mgr) l m : (forall m x, kicks (f m x) = kicks m) -> kicks (foldl f m l) = kicks m.
Proof. intros Hf. revert m. induction l as [|x l IH]; intros m; cbn [foldl]; [done|]. now rewrite IH. Qed.

Lemma SetState_player g st m : IS_GROUP_GUID g = false -> SetState g st m = on_player (PlayerData.SetState st) g m.
Proof. intros H. unfold SetState. now rewrite H. Qed.
Lemma SetState_group g st m : IS_GROUP_GUID g = true -> SetState g st m = on_group (GroupData.SetState st) g m.
Proof. intros H. unfold SetState. now rewrite H. Qed.
Lemma RestoreState_player g m : IS_GROUP_GUID g = false -> RestoreState g m = on_player PlayerData.RestoreState g m.
Proof. intros H. unfold RestoreState. now rewrite H. Qed.
Lemma RestoreState_group g m : IS_GROUP_GUID g = true -> RestoreState g m = on_group GroupData.RestoreState g m.
Proof. intros H. unfold RestoreState. now rewrite H. Qed.
Lemma GetState_player m g : IS_GROUP_GUID g = false -> GetState m g = PlayerData.m_State (player_of m g).
Proof. intros H. unfold GetState. now rewrite H. Qed.
Lemma GetState_group m g : IS_GROUP_GUID g = true -> GetState m g = GroupData.m_State (group_of m g).
Proof. intros H. unfold GetState. now rewrite H. Qed.

(** ** Votes *)

Definition boot_step (boot : LfgPlayerBoot) (m : Mgr) (pguid : Z) : Mgr :=
  if negb (pguid =? victim boot)
  then send pguid (BootProposalUpdate boot) (SetState pguid LFG_STATE_DUNGEON m) else m.
Lemma boot_step_changes boot g : IS_GROUP_GUID g = false ->
  changes_player (fun m => boot_step boot m g) g
    (if g =? victim boot then id else PlayerData.SetState LFG_STATE_DUNGEON).
Proof.
  intros Hg m. unfold boot_step. destruct (g =? victim boot); cbn [negb].
  - split; [|done]. intros x. case_decide; [now subst|done].
  - split; intros x; rewrite ?player_of_send, ?group_of_send, SetState_player by done.
    + rewrite player_of_on_player. case_decide; [now subst|done].
    + apply group_of_on_player.
Qed.

(** C28. A vote to kick: with an answer outstanding and neither side at three, the
    answer is recorded; the third yes kicks the victim, once, and uses up one
    kick of the group; the third no ends the vote without; otherwise the vote goes
    on.  When it ends all who could vote except the victim are back in the
    dungeon; the victim's state is left alone. *)
Theorem UpdateBoot_correct guid accepts m gguid boot :
  GetGroup m guid = gguid -> IS_GROUP_GUID gguid = true -> BootsStore m !! gguid = Some boot ->
  votes boot !! guid = Some LFG_ANSWER_PENDING ->
  tally LFG_ANSWER_AGREE (votes boot) < 3 -> tally LFG_ANSWER_DENY (votes boot) < 3 ->
  (forall g, g ∈ dom (votes boot) -> IS_GROUP_GUID g = false) ->
  let m' := UpdateBoot guid accepts m in
  let v := <[guid := answer_of accepts]> (votes boot) in
  let passed := tally LFG_ANSWER_AGREE v =? 3 in
  let ended := passed || (tally LFG_ANSWER_DENY v =? 3) in
  BootsStore m' = (if ended then delete gguid (BootsStore m) else <[gguid := with_votes boot v]> (BootsStore m)) /\
  kicks m' = kicks m ++ (if passed && group_exists (GUID_LOPART gguid) then [KickFromGroup gguid (victim boot)] else []) /\
  group_of m' gguid =
    (if passed then GroupData.DecreaseKicksLeft (GroupData.SetState LFG_STATE_DUNGEON (group_of m gguid))
     else if ended then GroupData.SetState LFG_STATE_DUNGEON (group_of m gguid) else group_of m gguid) /\
  (forall g, g ∈ dom (votes boot) -> GetState m' g = if ended && negb (g =? victim boot) then LFG_STATE_DUNGEON else GetState m g).
Proof.
  intros Hgg Hgr Hb Hv Ha Hd Hpl m' v passed ended. unfold m', UpdateBoot. rewrite Hgg.
  assert (Hnz : (gguid =? 0) = false) by (apply Z.eqb_neq; intros ->; done).
  rewrite Hnz, Hb, Hv. cbn [default from_option]. change (id LFG_ANSWER_PENDING) with LFG_ANSWER_PENDING.
  rewrite insert_id by done. assert (Hwv : with_votes boot (votes boot) = boot) by now destruct boot. rewrite Hwv, Hv.
  rewrite bool_decide_eq_true_2 by done. cbn [negb]. fold v.
  assert (Ht : forall x, tally x v = if decide (x = answer_of accepts) then tally x (votes boot) + 1
                         else if decide (x = LFG_ANSWER_PENDING) then tally x (votes boot) - 1 else tally x (votes boot))
    by (apply tally_insert; [done|now destruct accepts]).
  cbn [votes with_votes]. rewrite count_votes_spec.
  pose proof (tally_nonneg LFG_ANSWER_AGREE (votes boot)) as Ha0. pose proof (tally_nonneg LFG_ANSWER_DENY (votes boot)) as Hd0.
  set (ag := tally LFG_ANSWER_AGREE v) in *. set (dn := tally LFG_ANSWER_DENY v) in *.
  assert (Hrange : 0 <= ag <= 3 /\ 0 <= dn <= 3).
  { unfold ag, dn. rewrite !Ht. destruct accepts; cbn [answer_of]; repeat case_decide; try done; lia. }
  rewrite !uwrap_id by (unfold is_u; lia). unfold LFG_GROUP_KICK_VOTES_NEEDED.
  replace (dn + ag - ag) with dn by lia.
  assert (Hend : (ag <? 3) && (dn <? 3) = negb ended).
  { unfold ended, passed. destruct (Z.eqb_spec ag 3), (Z.eqb_spec dn 3), (Z.ltb_spec ag 3), (Z.ltb_spec dn 3); cbn; try done; lia. }
  rewrite Hend. assert (Hdom : dom v = dom (votes boot)).
  { unfold v. rewrite dom_insert_L. apply elem_of_dom_2 in Hv. set_solver. }
  assert (Hstep : forall g, g ∈ keys Z.le v -> IS_GROUP_GUID g = false).
  { intros g Hg. apply Hpl. rewrite <- Hdom. apply elem_of_dom. now apply (elem_of_keys Z.le). }
  destruct ended eqn:Ee; cbn [negb].
  2: { assert (passed = false) as -> by (unfold ended in Ee; now destruct passed).
       split_and!; [done|now rewrite app_nil_r|done|done]. }
  cbn zeta. fold (boot_step (stopped (with_votes boot v))).
  change (votes (stopped (with_votes boot v))) with v.
  change (victim (stopped (with_votes boot v))) with (victim boot).
  pose proof (walk_players (boot_step (stopped (with_votes boot v))) (fun g => g)
    (fun g => if g =? victim boot then id else PlayerData.SetState LFG_STATE_DUNGEON) (keys Z.le v) m) as Hw.
  destruct Hw as (Hw1 & Hw2 & Hw3); [intros g Hg; apply (boot_step_changes (stopped (with_votes boot v)) g), Hstep, Hg|rewrite map_id; apply NoDup_keys|].
  assert (Hpe : only_people m (foldl (boot_step (stopped (with_votes boot v))) m (keys Z.le v))).
  { apply people_foldl. intros m0 x. unfold boot_step. people. }
  assert (Hk : kicks (foldl (boot_step (stopped (with_votes boot v))) m (keys Z.le v)) = kicks m).
  { apply kicks_foldl. intros m0 x. unfold boot_step. case_if; [|done]. now rewrite kicks_send, kicks_SetState. }
  set (m1 := foldl _ _ _) in *. rewrite SetState_group by done. fold passed.
  split_and!.
  - cbn. rewrite <- (op_boots _ _ Hpe). now destruct passed, (group_exists (GUID_LOPART gguid)).
  - destruct passed; cbn [andb]; [|change (kicks m1 = kicks m ++ []); now rewrite app_nil_r].
    destruct (group_exists (GUID_LOPART gguid)); [|change (kicks m1 = kicks m ++ []); now rewrite app_nil_r].
    change (kicks (emit (KickFromGroup gguid (victim boot)) m1) = kicks m ++ [KickFromGroup gguid (victim boot)]).
    now rewrite kicks_emit, Hk.
  - assert (H1 : group_of (on_group (GroupData.SetState LFG_STATE_DUNGEON) gguid m1) gguid
                 = GroupData.SetState LFG_STATE_DUNGEON (group_of m gguid))
      by (rewrite group_of_on_group, decide_True by done; now rewrite Hw3).
    destruct passed; [|exact H1].
    transitivity (group_of (DecreaseKicksLeft gguid (on_group (GroupData.SetState LFG_STATE_DUNGEON) gguid m1)) gguid);
      [now destruct (group_exists (GUID_LOPART gguid))|].
    unfold DecreaseKicksLeft. now rewrite group_of_on_group, decide_True, H1 by done.
  - intros g Hg. assert (Hg' : IS_GROUP_GUID g = false) by now apply Hpl. rewrite !GetState_player by done.
    transitivity (PlayerData.m_State (player_of m1 g)); [now destruct passed, (group_exists (GUID_LOPART gguid))|].
    rewrite Hw1 by (apply (elem_of_keys Z.le), elem_of_dom; now rewrite Hdom).
    destruct (g =? victim boot); cbn [negb]; [done|]. now rewrite player_set_state.
Qed.

(** Who is not asked has no say: his answer is recorded as no whatever it was. *)
Lemma late_vote_is_no guid accepts m gguid boot :
  GetGroup m guid = gguid -> gguid <> 0 -> BootsStore m !! gguid = Some boot -> votes boot !! guid = None ->
  UpdateBoot guid accepts m = with_boots m (<[gguid := with_votes boot (<[guid := LFG_ANSWER_DENY]> (votes boot))]> (BootsStore m)).
Proof.
  intros Hg Hnz Hb Hv. unfold UpdateBoot. rewrite Hg, (proj2 (Z.eqb_neq _ _) Hnz), Hb, Hv. cbn [votes with_votes default from_option].
  rewrite lookup_insert_eq, bool_decide_eq_false_2 by done. reflexivity.
Qed.
(** Nobody votes twice. *)
Lemma UpdateBoot_once guid accepts m gguid boot a :
  GetGroup m guid = gguid -> gguid <> 0 -> BootsStore m !! gguid = Some boot -> votes boot !! guid = Some a ->
  a <> LFG_ANSWER_PENDING -> UpdateBoot guid accepts m = with_boots m (<[gguid := boot]> (BootsStore m)).
Proof.
  intros Hg Hnz Hb Hv Ha. unfold UpdateBoot. rewrite Hg, (proj2 (Z.eqb_neq _ _) Hnz), Hb, Hv. cbn [default from_option].
  change (id a) with a. rewrite insert_id by done. assert (Hwv : with_votes boot (votes boot) = boot) by now destruct boot.
  rewrite Hwv, Hv, bool_decide_eq_false_2 by congruence. reflexivity.
Qed.

(** ** Role checks *)

(** What one step of the walk over the players does to his data. *)
Definition role_check_effect (rc : LfgRoleCheck) (r : Z) (d : PlayerData.LfgPlayerData) : PlayerData.LfgPlayerData :=
  match rc_state rc with
  | LFG_ROLECHECK_INITIALITING => d
  | LFG_ROLECHECK_FINISHED => PlayerData.SetRoles r (PlayerData.SetState LFG_STATE_QUEUED d)
  | _ => PlayerData.RestoreState d
  end.
Lemma role_check_player_changes rc chosen e : IS_GROUP_GUID e.1 = false ->
  changes_player (fun m => role_check_player rc chosen m e) e.1 (role_check_effect rc e.2).
Proof.
  intros Hg m.
  assert (Hsame : forall m', (forall x, player_of m' x = player_of m x) -> (forall x, group_of m' x = group_of m x) ->
    (forall x, player_of (send e.1 (RoleCheckUpdate rc) m') x = player_of m x) /\
    (forall x, group_of (send e.1 (RoleCheckUpdate rc) m') x = group_of m x)).
  { intros m' Hp Hq. split; intros x; [now rewrite player_of_send|now rewrite group_of_send]. }
  unfold role_check_player, role_check_effect.
  set (m1 := match chosen with Some _ => _ | None => _ end).
  assert (Hm1 : (forall x, player_of m1 x = player_of m x) /\ (forall x, group_of m1 x = group_of m x)).
  { unfold m1. destruct chosen as [[]|]; [|done]. split; intros; [apply player_of_send|apply group_of_send]. }
  destruct (Hsame m1 (proj1 Hm1) (proj2 Hm1)) as [Hp Hq]. set (m2 := send e.1 (RoleCheckUpdate rc) m1) in *.
  destruct (rc_state rc);
    (split; intros x; unfold SetRoles; rewrite ?SetState_player, ?RestoreState_player by done;
     repeat (rewrite ?player_of_send, ?group_of_send, ?player_of_on_player, ?group_of_on_player, ?Hp, ?Hq; try case_if; try case_decide);
     subst; try done; congruence).
Qed.
Lemma role_check_player_people rc chosen m e : only_people m (role_check_player rc chosen m e).
Proof.
  unfold role_check_player. destruct (rc_state rc); cbn zeta; people.
Qed.

(** The answers of a role check after that of [guid]. *)
Definition answered (rc : LfgRoleCheck) (guid roles : Z) : LfgRolesMap := <[guid := roles]> (rc_roles rc).
Definition all_chosen (rs : LfgRolesMap) : Prop := forall g r, rs !! g = Some r -> r <> PLAYER_ROLE_NONE.

Inductive verdict := Waiting | Passed | Failed.
(** When a role check waits, passes and fails. *)
Definition role_check_verdict (rc : LfgRoleCheck) (guid roles : Z) (v : verdict) : Prop :=
  match v with
  | Waiting => guid <> 0 /\ PLAYER_ROLE_TANK <= roles /\ ~ all_chosen (answered rc guid roles)
  | Passed => guid <> 0 /\ PLAYER_ROLE_TANK <= roles /\ all_chosen (answered rc guid roles)
              /\ exists rs, role_assignment (answered rc guid roles) rs
  | Failed => guid = 0 \/ roles < PLAYER_ROLE_TANK \/
              (all_chosen (answered rc guid roles) /\ forall rs, ~ role_assignment (answered rc guid roles) rs)
  end.

Lemma all_chosen_spec rs : forallb (fun r => negb (r =? PLAYER_ROLE_NONE)) (roles_of rs) = true <-> all_chosen rs.
Proof.
  unfold roles_of, all_chosen. rewrite forallb_forall. split.
  - intros H g r Hr ->. assert (He : In PLAYER_ROLE_NONE (map snd (entries Z.le rs))); [|now specialize (H _ He)].
    apply in_map_iff. exists (g, PLAYER_ROLE_NONE). split; [done|]. apply list_elem_of_In. now apply elem_of_entries.
  - intros H r Hr. apply in_map_iff in Hr as ([g r'] & <- & He). apply list_elem_of_In, elem_of_entries in He.
    apply negb_true_iff, Z.eqb_neq, (H g _ He).
Qed.
Lemma role_check_answer_spec rc guid roles v : role_bytes (answered rc guid roles) -> rc_state rc = LFG_ROLECHECK_INITIALITING ->
  role_check_verdict rc guid roles v ->
  let rc' := role_check_answer rc guid roles in
  match v with
  | Waiting => rc' = with_rc_roles rc (answered rc guid roles)
  | Passed => rc' = with_rc_state (with_rc_roles rc (answered rc guid roles)) LFG_ROLECHECK_FINISHED
  | Failed => (rc_state rc' <> LFG_ROLECHECK_INITIALITING /\ rc_state rc' <> LFG_ROLECHECK_FINISHED)
              /\ dom (rc_roles rc) ⊆ dom (rc_roles rc') /\ dom (rc_roles rc') ⊆ {[guid]} ∪ dom (rc_roles rc)
  end.
Proof.
  intros Hb Hs Hv. unfold role_check_answer. fold (answered rc guid roles).
  cbn [rc_roles with_rc_roles]. pose proof (CheckGroupRoles_spec _ Hb) as Hc.
  destruct (CheckGroupRoles (answered rc guid roles)) as [ok rs]. cbn [fst]. destruct Hc as [Hc _].
  pose proof (all_chosen_spec (answered rc guid roles)) as Hall.
  destruct (forallb _ _) eqn:Ef; [pose proof (proj1 Hall eq_refl) as Hch|
    assert (Hch : ~ all_chosen (answered rc guid roles)) by (intros H; apply Hall in H; done)].
  all: destruct v; cbn in Hv; cbn zeta.
  all: try (destruct Hv as (Hg & Hr & Hrest); rewrite (proj2 (Z.eqb_neq _ _) Hg), (proj2 (Z.ltb_ge _ _) Hr)); try tauto.
  - destruct Hrest as [_ He]. apply Hc in He as ->. done.
  - destruct (Z.eqb_spec guid 0) as [->|Hg]; [cbn; split; [done|split; set_solver]|].
    destruct (Z.ltb_spec roles PLAYER_ROLE_TANK); [cbn; split; [done|split; set_solver]|].
    destruct Hv as [|[|[_ Hno]]]; [done|lia|]. destruct ok; [destruct (proj1 Hc eq_refl) as [rs' Hrs']; now destruct (Hno rs')|].
    cbn. split; [done|]. unfold answered. rewrite dom_insert. set_solver.
  - destruct (Z.eqb_spec guid 0) as [->|Hg]; [cbn; split; [done|split; set_solver]|].
    destruct (Z.ltb_spec roles PLAYER_ROLE_TANK); [cbn; split; [done|split; set_solver]|]. destruct Hv as [|[|[? _]]]; [done|lia|done].
Qed.

(** What a verdict does to the players of the check. *)
Lemma role_check_walk rc chosen m : (forall g, g ∈ dom (rc_roles rc) -> IS_GROUP_GUID g = false) ->
  let m1 := foldl (role_check_player rc chosen) m (entries Z.le (rc_roles rc)) in
  only_people m m1 /\ (forall x, group_of m1 x = group_of m x) /\
  (forall g r, rc_roles rc !! g = Some r -> player_of m1 g = role_check_effect rc r (player_of m g)).
Proof.
  intros Hg m1. assert (Hent : forall e, e ∈ entries Z.le (rc_roles rc) -> rc_roles rc !! e.1 = Some e.2)
    by (intros [k r] He; now apply elem_of_entries in He).
  destruct (walk_players (role_check_player rc chosen) fst (fun e => role_check_effect rc e.2)
    (entries Z.le (rc_roles rc)) m) as (H1 & _ & H3).
  { intros e He. apply role_check_player_changes, Hg, elem_of_dom. rewrite (Hent e He). eauto. }
  { apply entries_keys_NoDup. }
  split_and!; [apply people_foldl; intros; apply role_check_player_people|exact H3|].
  intros g r Hr. apply (H1 (g, r)). now apply elem_of_entries.
Qed.

Lemma GetQueue_on_queue f m g : GetQueue (on_queue_at f (queue_id m g) m) g = f (GetQueue m g).
Proof.
  unfold GetQueue. change (queue_id (on_queue_at f (queue_id m g) m) g) with (queue_id m g).
  unfold queue_at at 1, entry_at, on_queue_at. cbn. now rewrite lookup_insert_eq.
Qed.
Lemma AddQueueData_spec g t ds rs q :
  QueueDataStore (AddQueueData g t ds rs q) !! g = Some (new_queue_data t ds rs) /\ g ∈ newToQueueStore (AddQueueData g t ds rs q).
Proof.
  unfold AddQueueData, AddToQueue. cbn. rewrite lookup_insert_eq. rewrite bool_decide_eq_true_2 by eauto. cbn.
  rewrite lookup_insert_eq. split; [done|]. apply elem_of_app. right. left.
Qed.

(** A role check after the answer of one member.  It waits for the others;
    it passes exactly when all have chosen and a group can be formed: then all are
    queued with their roles and the group is in the queue with the dungeons of the
    check; it fails otherwise, or when somebody leaves: then all are back in the
    state from before and nothing is queued. *)
Theorem UpdateRoleCheck_correct gguid guid roles m rc v :
  IS_GROUP_GUID gguid = true -> RoleChecksStore m !! gguid = Some rc -> rc_state rc = LFG_ROLECHECK_INITIALITING ->
  role_bytes (answered rc guid roles) -> (forall g, g ∈ dom (answered rc guid roles) -> IS_GROUP_GUID g = false) ->
  role_check_verdict rc guid roles v ->
  let m' := UpdateRoleCheck gguid guid roles m in
  match v with
  | Waiting =>
      RoleChecksStore m' = <[gguid := with_rc_roles rc (answered rc guid roles)]> (RoleChecksStore m) /\
      QueuesStore m' = QueuesStore m /\ (forall g, g = gguid \/ g ∈ dom (answered rc guid roles) -> GetState m' g = GetState m g)
  | Passed =>
      RoleChecksStore m' = delete gguid (RoleChecksStore m) /\ GetState m' gguid = LFG_STATE_QUEUED /\
      (forall g r, answered rc guid roles !! g = Some r -> GetState m' g = LFG_STATE_QUEUED /\ GetRoles m' g = r) /\
      QueueDataStore (GetQueue m' gguid) !! gguid = Some (new_queue_data time (rc_dungeons rc) (answered rc guid roles)) /\
      gguid ∈ newToQueueStore (GetQueue m' gguid)
  | Failed =>
      RoleChecksStore m' = delete gguid (RoleChecksStore m) /\ QueuesStore m' = QueuesStore m /\
      (forall g, g = gguid \/ g ∈ dom (rc_roles rc) -> GetState m' g = GetOldState m g)
  end.
Proof.
  intros Hgr Hrc Hst Hb Hpl Hv m'. unfold m', UpdateRoleCheck.
  assert (Hnz : (gguid =? 0) = false) by (apply Z.eqb_neq; intros ->; done). rewrite Hnz, Hrc.
  pose proof (role_check_answer_spec rc guid roles v Hb Hst Hv) as Ha. cbn zeta in Ha |- *.
  set (rc' := role_check_answer rc guid roles) in *. match goal with |- context [if ?b then Some (guid, roles) else None] => set (chosen := if b then Some (guid, roles) else None) end.
  assert (Hdom : forall g, g ∈ dom (rc_roles rc') -> IS_GROUP_GUID g = false).
  { intros g Hg. apply Hpl. unfold answered in *. rewrite dom_insert. destruct v; [rewrite Ha in Hg|rewrite Ha in Hg|];
      [cbn in Hg; now rewrite dom_insert in Hg|cbn in Hg; now rewrite dom_insert in Hg|set_solver]. }
  destruct (role_check_walk rc' chosen m Hdom) as (Hpe & Hgg & Hpp). set (m1 := foldl _ _ _) in *.
  unfold role_check_effect in Hpp. pose proof (op_checks _ _ Hpe) as Hck. pose proof (op_queues _ _ Hpe) as Hqs.
  assert (Hplayer : forall g, g ∈ dom (rc_roles rc') -> GetState m1 g = PlayerData.m_State (player_of m1 g))
    by (intros g Hg; now apply GetState_player, Hdom).
  destruct v.
  - rewrite Ha in *. cbn [rc_state with_rc_roles rc_roles] in *. rewrite Hst in *. split_and!; [cbn; now rewrite Hck|exact Hqs|].
    intros g [->|Hg]; [rewrite !GetState_group by done; cbn; f_equal; apply Hgg|].
    rewrite !GetState_player by now apply Hdom. apply elem_of_dom in Hg as [r Hr]. f_equal. apply (Hpp g r Hr).
  - rewrite Ha in *. cbn [rc_state with_rc_state with_rc_roles rc_roles rc_dungeons] in *. rewrite SetState_group by done.
    split_and!; [cbn; now rewrite Hck| | | |].
    + rewrite GetState_group by done. cbn. change (GroupData.m_State (group_of (on_group (GroupData.SetState LFG_STATE_QUEUED) gguid m1) gguid) = LFG_STATE_QUEUED).
      rewrite group_of_on_group, decide_True by done. apply group_set_state.
    + intros g r Hr. rewrite GetState_player by (apply Hdom, elem_of_dom; eauto). unfold GetRoles.
      change (PlayerData.m_State (player_of m1 g) = LFG_STATE_QUEUED /\ PlayerData.m_Roles (player_of m1 g) = r).
      rewrite (Hpp g r Hr). done.
    + match goal with |- QueueDataStore (GetQueue ?mm _) !! _ = _ => set (m2 := mm) end.
      change (GetQueue m2 gguid) with (GetQueue (on_queue_at (AddQueueData gguid time (rc_dungeons rc) (answered rc guid roles))
        (queue_id (on_group (GroupData.SetState LFG_STATE_QUEUED) gguid m1) gguid) (on_group (GroupData.SetState LFG_STATE_QUEUED) gguid m1)) gguid).
      rewrite GetQueue_on_queue. apply AddQueueData_spec.
    + match goal with |- _ ∈ newToQueueStore (GetQueue ?mm _) => set (m2 := mm) end.
      change (GetQueue m2 gguid) with (GetQueue (on_queue_at (AddQueueData gguid time (rc_dungeons rc) (answered rc guid roles))
        (queue_id (on_group (GroupData.SetState LFG_STATE_QUEUED) gguid m1) gguid) (on_group (GroupData.SetState LFG_STATE_QUEUED) gguid m1)) gguid).
      rewrite GetQueue_on_queue. apply AddQueueData_spec.
  - destruct Ha as ([Hn1 Hn2] & Hsub & _).
    assert (Hfail : forall r d, match rc_state rc' with
        | LFG_ROLECHECK_INITIALITING => d | LFG_ROLECHECK_FINISHED => PlayerData.SetRoles r (PlayerData.SetState LFG_STATE_QUEUED d)
        | _ => PlayerData.RestoreState d end = PlayerData.RestoreState d) by (intros; now destruct (rc_state rc')).
    assert (Hm' : forall (a b c : Mgr), match rc_state rc' with LFG_ROLECHECK_FINISHED => a | LFG_ROLECHECK_INITIALITING => b | _ => c end = c)
      by (intros; now destruct (rc_state rc')).
    rewrite Hm', RestoreState_group by done. split_and!; [cbn; now rewrite Hck|exact Hqs|].
    intros g [->|Hg].
    + rewrite GetState_group by done. unfold GetOldState. rewrite Hgr.
      change (GroupData.m_State (group_of (on_group GroupData.RestoreState gguid m1) gguid) = GroupData.m_OldState (group_of m gguid)).
      rewrite group_of_on_group, decide_True by done. cbn. f_equal. apply Hgg.
    + assert (Hg2 : g ∈ dom (rc_roles rc')) by set_solver. rewrite GetState_player by now apply Hdom.
      unfold GetOldState. rewrite (Hdom g Hg2). apply elem_of_dom in Hg2 as [r Hr].
      change (PlayerData.m_State (player_of m1 g) = PlayerData.m_OldState (player_of m g)). now rewrite (Hpp g r Hr), Hfail.
Qed.

(** ** Proposals that fail *)

(** Who did not accept, and the guids that lose their place. *)
Definition declines (ty : LfgUpdateType) (pp : LfgProposalPlayer) : Prop :=
  accept pp = LFG_ANSWER_DENY \/ (ty = LFG_UPDATETYPE_PROPOSAL_FAILED /\ accept pp = LFG_ANSWER_PENDING).
Definition declined (ty : LfgUpdateType) (players : gmap Z LfgProposalPlayer) (g : Z) : Prop :=
  exists who pp, players !! who = Some pp /\ queued_as who pp = g /\ declines ty pp.

Lemma mark_pending_deny ty pp : accept (mark_pending ty pp) = LFG_ANSWER_DENY <-> declines ty pp.
Proof.
  unfold mark_pending, declines. destruct (decide (ty = LFG_UPDATETYPE_PROPOSAL_FAILED)) as [->|Hty].
  - rewrite (bool_decide_eq_true_2 (LFG_UPDATETYPE_PROPOSAL_FAILED = _)) by done. cbn [andb].
    destruct (decide (accept pp = LFG_ANSWER_PENDING)) as [Ea|Ea].
    + rewrite bool_decide_eq_true_2 by done. cbn. tauto.
    + rewrite bool_decide_eq_false_2 by done. tauto.
  - rewrite bool_decide_eq_false_2 by done. cbn [andb]. tauto.
Qed.
Lemma queued_as_mark ty who pp : queued_as who (mark_pending ty pp) = queued_as who pp.
Proof. unfold mark_pending. now case_if. Qed.
Lemma with_accept_same pp : with_accept pp (accept pp) = pp.
Proof. now destruct pp. Qed.

Lemma mark_step_walk ty players l R :
  (forall e, e ∈ l -> players !! e.1 = Some e.2 /\ (ty = LFG_UPDATETYPE_PROPOSAL_FAILED -> accept e.2 <> LFG_ANSWER_PENDING)) ->
  exists R', foldl (mark_step ty) (players, R) l = (players, R') /\
    forall g, g ∈ R' <-> g ∈ R \/ exists e, e ∈ l /\ queued_as e.1 e.2 = g /\ accept e.2 = LFG_ANSWER_DENY.
Proof.
  revert R. induction l as [|e l IH]; intros R Hl; cbn [foldl].
  { exists R. split; [done|]. intros g. split; [now left|]. intros [|(e & He & _)]; [done|now apply not_elem_of_nil in He]. }
  destruct (Hl e (list_elem_of_here _ _)) as [He Hf].
  assert (Hstep : mark_step ty (players, R) e
    = (players, if decide (accept e.2 = LFG_ANSWER_DENY) then {[queued_as e.1 e.2]} ∪ R else R)).
  { unfold mark_step. destruct (accept e.2) eqn:Ea.
    - rewrite !(bool_decide_eq_false_2 (LFG_ANSWER_PENDING = _)) by done. cbn [orb].
      rewrite bool_decide_eq_false_2 by (intros H; now destruct (Hf H)). done.
    - rewrite bool_decide_eq_false_2, bool_decide_eq_true_2 by done. cbn [orb].
      replace (with_accept e.2 LFG_ANSWER_DENY) with e.2 by (rewrite <- Ea; now rewrite with_accept_same).
      now rewrite insert_id.
    - now rewrite bool_decide_eq_true_2. }
  rewrite Hstep. destruct (IH (if decide (accept e.2 = LFG_ANSWER_DENY) then {[queued_as e.1 e.2]} ∪ R else R)
    (fun e' He' => Hl e' (list_elem_of_further _ _ _ He'))) as (R' & -> & HR'). exists R'. split; [done|].
  intros g. rewrite HR'. split.
  - intros [Hg|(e' & He' & Hg)]; [|right; exists e'; split; [now right|done]].
    case_decide; [|now left]. apply elem_of_union in Hg as [->%elem_of_singleton|Hg]; [|now left].
    right. exists e. split; [left|done].
  - intros [Hg|(e' & [->|He']%elem_of_cons & Hq & Ha)].
    + left. case_decide; [set_solver|done].
    + left. rewrite decide_True by done. set_solver.
    + right. now exists e'.
Qed.
Lemma mark_players_spec ty players : exists toRemove,
  mark_players ty players = (mark_pending ty <$> players, toRemove) /\
  forall g, g ∈ toRemove <-> declined ty players g.
Proof.
  unfold mark_players. destruct (mark_step_walk ty (mark_pending ty <$> players) (entries Z.le (mark_pending ty <$> players)) ∅)
    as (R & -> & HR).
  { intros [k pp] He. apply elem_of_entries in He. split; [exact He|]. intros -> Ha. cbn in Ha.
    rewrite lookup_fmap in He. destruct (players !! k) as [pp0|]; [|done]. injection He as <-.
    revert Ha. unfold mark_pending. rewrite (bool_decide_eq_true_2 (LFG_UPDATETYPE_PROPOSAL_FAILED = _)) by done. cbn [andb].
    case_bool_decide; cbn; congruence. }
  exists R. split; [done|]. intros g. rewrite HR. split.
  - intros [Hg|([k pp] & He & Hq & Ha)]; [now apply not_elem_of_empty in Hg|]. apply elem_of_entries in He. cbn in Hq, Ha.
    rewrite lookup_fmap in He. destruct (players !! k) as [pp0|] eqn:E; [|done]. injection He as <-.
    exists k, pp0. rewrite queued_as_mark in Hq. now rewrite mark_pending_deny in Ha.
  - intros (who & pp & Hw & Hq & Hd). right. exists (who, mark_pending ty pp). split_and!.
    + apply elem_of_entries. now rewrite lookup_fmap, Hw.
    + cbn. now rewrite queued_as_mark.
    + cbn. now apply mark_pending_deny.
Qed.

(** *** The queue of a failed proposal *)

Lemma remove_all_queue l q :
  let q' := foldl (fun q guid => RemoveFromQueue guid q) q l in
  (forall g, is_Some (QueueDataStore q' !! g) <-> is_Some (QueueDataStore q !! g) /\ g ∉ l) /\
  (forall g, g ∈ newToQueueStore q' <-> g ∈ newToQueueStore q /\ g ∉ l) /\
  (forall g, g ∈ currentQueueStore q' <-> g ∈ currentQueueStore q /\ g ∉ l).
Proof.
  revert q. induction l as [|x l IH]; intros q; cbn [foldl].
  { split_and!; intros g; (split; [intros H; split; [exact H|apply not_elem_of_nil]|now intros [? _]]). }
  destruct (IH (RemoveFromQueue x q)) as (H1 & H2 & H3). destruct (RemoveFromQueue_lists x q) as [En Ec].
  split_and!; intros g; [rewrite H1|rewrite H2, En, elem_of_list_remove_all|rewrite H3, Ec, elem_of_list_remove_all].
  2, 3: rewrite not_elem_of_cons; tauto.
  pose proof (RemoveFromQueue_view x q g) as Hv. rewrite not_elem_of_cons.
  assert (Hs : is_Some (QueueDataStore (RemoveFromQueue x q) !! g) <-> g <> x /\ is_Some (QueueDataStore q !! g)).
  { case_decide as E.
    - destruct (QueueDataStore (RemoveFromQueue x q) !! g); [done|]. split; [now intros [? ?]|now intros [? _]].
    - destruct (QueueDataStore (RemoveFromQueue x q) !! g), (QueueDataStore q !! g); cbn in Hv; try done; split; eauto.
      + now intros [_ ?]. }
  rewrite Hs. tauto.
Qed.
Lemma add_all_queue l q :
  let q' := foldl (fun q guid => AddToQueue guid q) q l in
  QueueDataStore q' = QueueDataStore q /\ currentQueueStore q' = currentQueueStore q /\
  (forall g, g ∈ newToQueueStore q' <-> g ∈ newToQueueStore q \/ (g ∈ l /\ is_Some (QueueDataStore q !! g))).
Proof.
  revert q. induction l as [|x l IH]; intros q; cbn [foldl].
  { split_and!; [done..|]. intros g. split; [now left|]. intros [|[Hg _]]; [done|now apply not_elem_of_nil in Hg]. }
  destruct (IH (AddToQueue x q)) as (H1 & H2 & H3).
  assert (Hd : QueueDataStore (AddToQueue x q) = QueueDataStore q) by (unfold AddToQueue; now case_if).
  assert (Hc : currentQueueStore (AddToQueue x q) = currentQueueStore q) by (unfold AddToQueue; now case_if).
  rewrite H1, H2, Hd, Hc. split_and!; [done..|]. intros g. rewrite H3, Hd.
  assert (Hn : g ∈ newToQueueStore (AddToQueue x q) <-> g ∈ newToQueueStore q \/ (g = x /\ is_Some (QueueDataStore q !! x))).
  { unfold AddToQueue. case_bool_decide; [cbn; rewrite elem_of_app, list_elem_of_singleton|]; tauto. }
  rewrite Hn, elem_of_cons. split.
  - intros [[|[-> ?]]|[? ?]]; auto.
  - intros [|[[->|] ?]]; auto.
Qed.
Lemma remove_all_list (removed l : list Z) g :
  g ∈ foldl (fun l guid => list_remove_all guid l) l removed <-> g ∈ l /\ g ∉ removed.
Proof.
  revert l. induction removed as [|x removed IH]; intros l; cbn [foldl].
  { split; [intros H; split; [exact H|apply not_elem_of_nil]|now intros [? _]]. }
  rewrite IH, elem_of_list_remove_all, not_elem_of_cons. tauto.
Qed.

(** *** The players of a failed proposal *)

Definition notify_effect (toRemove : gset Z) (e : Z * LfgProposalPlayer) : PlayerData.LfgPlayerData -> PlayerData.LfgPlayerData :=
  if bool_decide (queued_as e.1 e.2 ∈ toRemove) then PlayerData.RestoreState else PlayerData.SetState LFG_STATE_QUEUED.
Lemma group_SetState_player g st m x : IS_GROUP_GUID g = true -> player_of (SetState g st m) x = player_of m x.
Proof. intros H. now rewrite SetState_group. Qed.
Lemma group_RestoreState_player g m x : IS_GROUP_GUID g = true -> player_of (RestoreState g m) x = player_of m x.
Proof. intros H. now rewrite RestoreState_group. Qed.
(** A player's group is a group. *)
Definition player_ok (who : Z) (pp : LfgProposalPlayer) : Prop :=
  IS_GROUP_GUID who = false /\ (LfgData.group_of pp = 0 \/ IS_GROUP_GUID (LfgData.group_of pp) = true).
#[export] Instance player_ok_dec who pp : Decision (player_ok who pp).
Proof. unfold player_ok. apply _. Defined.
Lemma notify_moves ty p toRemove e : player_ok e.1 e.2 ->
  moves_player (fun m => notify_removed ty p toRemove m e) e.1 (notify_effect toRemove e).
Proof.
  destruct e as [who pp]. cbn [fst snd]. intros [Hw Hg] m x. unfold notify_removed, notify_effect. cbn [fst snd].
  assert (Hgr : queued_as who pp = who \/ (queued_as who pp = LfgData.group_of pp /\ IS_GROUP_GUID (LfgData.group_of pp) = true)).
  { unfold queued_as. destruct (Z.eqb_spec (LfgData.group_of pp) 0) as [->|Hne]; cbn [negb]; [now left|right]. now destruct Hg. }
  case_bool_decide; destruct (Z.eqb_spec (queued_as who pp) who) as [Eq|Eq]; cbn [negb];
    destruct Hgr as [?|[Eg Hgg]]; try done; rewrite ?player_of_send, ?Eg;
    rewrite ?group_SetState_player, ?group_RestoreState_player by done;
    rewrite ?RestoreState_player, ?SetState_player by done; rewrite player_of_on_player, ?player_of_send;
    case_decide; now subst.
Qed.
Lemma notify_people ty p toRemove m e : only_people m (notify_removed ty p toRemove m e).
Proof.
  destruct e as [who pp]. unfold notify_removed. cbn zeta. people.
Qed.

(** The groups of the players. *)
Definition group_effect (gone : bool) : GroupData.LfgGroupData -> GroupData.LfgGroupData :=
  if gone then GroupData.RestoreState else GroupData.SetState LFG_STATE_QUEUED.
Lemma group_effect_twice b d : group_effect b (group_effect b d) = group_effect b d.
Proof. now destruct b. Qed.
Lemma notify_group ty p toRemove m e g : player_ok e.1 e.2 -> IS_GROUP_GUID g = true ->
  group_of (notify_removed ty p toRemove m e) g =
  if decide (LfgData.group_of e.2 = g) then group_effect (bool_decide (g ∈ toRemove)) (group_of m g) else group_of m g.
Proof.
  destruct e as [who pp]. cbn [fst snd]. intros [Hw Hg] Hgg. unfold notify_removed.
  assert (Hq : (queued_as who pp = who /\ LfgData.group_of pp = 0) \/ (queued_as who pp = LfgData.group_of pp /\ IS_GROUP_GUID (LfgData.group_of pp) = true)).
  { unfold queued_as. destruct (Z.eqb_spec (LfgData.group_of pp) 0) as [->|Hne]; cbn [negb]; [now left|right]. now destruct Hg. }
  destruct Hq as [[Eq E0]|[Eq Ht]]; rewrite Eq.
  - rewrite E0, decide_False by (intros <-; discriminate). rewrite Z.eqb_refl. cbn [negb].
    case_bool_decide; rewrite group_of_send, ?RestoreState_player, ?SetState_player by done; now rewrite group_of_on_player, group_of_send.
  - assert (Hne : LfgData.group_of pp <> who) by congruence. rewrite (proj2 (Z.eqb_neq _ _) Hne). cbn [negb].
    destruct (decide (LfgData.group_of pp = g)) as [<-|Hg'].
    + case_bool_decide; rewrite group_of_send, ?RestoreState_group, ?SetState_group, group_of_on_group, decide_True by done;
        rewrite ?RestoreState_player, ?SetState_player by done; now rewrite group_of_on_player, group_of_send.
    + case_bool_decide; rewrite group_of_send, ?RestoreState_group, ?SetState_group, group_of_on_group, decide_False by done;
        rewrite ?RestoreState_player, ?SetState_player by done; now rewrite group_of_on_player, group_of_send.
Qed.
Lemma walk_groups ty p toRemove l m g : (forall e, e ∈ l -> player_ok e.1 e.2) -> IS_GROUP_GUID g = true ->
  (exists e, e ∈ l /\ LfgData.group_of e.2 = g) ->
  group_of (foldl (notify_removed ty p toRemove) m l) g = group_effect (bool_decide (g ∈ toRemove)) (group_of m g).
Proof.
  intros Hok Hg.
  assert (H : forall m, let d := group_of (foldl (notify_removed ty p toRemove) m l) g in
    ((exists e, e ∈ l /\ LfgData.group_of e.2 = g) -> d = group_effect (bool_decide (g ∈ toRemove)) (group_of m g)) /\
    (d = group_of m g \/ d = group_effect (bool_decide (g ∈ toRemove)) (group_of m g))); [|apply H].
  clear m. induction l as [|e l IH]; intros m; cbn [foldl].
  { split; [intros (e & He & _); now apply not_elem_of_nil in He|now left]. }
  destruct (IH (fun e' He' => Hok e' (list_elem_of_further _ _ _ He')) (notify_removed ty p toRemove m e)) as [H1 H2].
  pose proof (notify_group ty p toRemove m e g (Hok e (list_elem_of_here _ _)) Hg) as E. cbv zeta. rewrite E in H1, H2.
  case_decide as Hd; (split; [|destruct H2 as [->| ->]; rewrite ?group_effect_twice; auto]).
  - intros _. destruct H2 as [->| ->]; now rewrite ?group_effect_twice.
  - intros (e' & [->|He']%elem_of_cons & Eg); [done|]. apply H1. now exists e'.
Qed.

(** What a player of a proposal that failed is told: the proposal, and that he is
    out, or back in the queue with what he had chosen. *)
Definition deny_if_open (ty : LfgUpdateType) (pp : LfgProposalPlayer) : LfgProposalPlayer :=
  mkLfgProposalPlayer (LfgData.role pp)
    (match accept pp with LFG_ANSWER_PENDING => if bool_decide (ty = LFG_UPDATETYPE_PROPOSAL_FAILED) then LFG_ANSWER_DENY else LFG_ANSWER_PENDING | a => a end)
    (LfgData.group_of pp).
Definition told (ty : LfgUpdateType) (p : LfgProposal) (gone : Z -> bool) (m : Mgr) (e : Z * LfgProposalPlayer) : list event :=
  let g := if LfgData.group_of e.2 =? 0 then e.1 else LfgData.group_of e.2 in
  let data := if gone g then update (match accept e.2 with LFG_ANSWER_DENY => ty | _ => LFG_UPDATETYPE_REMOVED_FROM_QUEUE end)
              else update_with LFG_UPDATETYPE_ADDED_TO_QUEUE (GetSelectedDungeons m e.1) (GetComment m e.1) in
  if connected e.1
  then [Sent e.1 (ProposalUpdate p); Sent e.1 (if LfgData.group_of e.2 =? 0 then UpdatePlayer data else UpdateParty data)] else [].
Lemma mark_pending_eq ty pp : mark_pending ty pp = deny_if_open ty pp.
Proof. unfold mark_pending, deny_if_open, with_accept. destruct pp as [r a g]. cbn. repeat case_bool_decide; cbn; subst; try done; now destruct a. Qed.
Lemma trace_SetState g st m : trace (SetState g st m) = trace m.
Proof. unfold SetState. now case_if. Qed.
Lemma trace_RestoreState g m : trace (RestoreState g m) = trace m.
Proof. unfold RestoreState. now case_if. Qed.
Lemma trace_send g msg m : trace (send g msg m) = trace m ++ if connected g then [Sent g msg] else [].
Proof. unfold send. case_if; [done|]. symmetry. apply app_nil_r. Qed.
Lemma queued_chosen g m x : GetSelectedDungeons (SetState g LFG_STATE_QUEUED m) x = GetSelectedDungeons m x /\ GetComment (SetState g LFG_STATE_QUEUED m) x = GetComment m x.
Proof.
  unfold GetSelectedDungeons, GetComment, SetState. case_if; [done|]. rewrite player_of_on_player. case_decide; subst; now split.
Qed.
Lemma notify_told ty p toRemove m e : player_ok e.1 e.2 ->
  trace (notify_removed ty p toRemove m e) = trace m ++ told ty p (fun g => bool_decide (g ∈ toRemove)) m e.
Proof.
  destruct e as [who pp]. cbn [fst snd]. intros [Hw Hg]. unfold notify_removed, told, queued_as, removal_update. cbn [fst snd].
  assert (Es : forall m0 x, GetSelectedDungeons (send who (ProposalUpdate p) m0) x = GetSelectedDungeons m0 x /\ GetComment (send who (ProposalUpdate p) m0) x = GetComment m0 x).
  { intros m0 x. unfold GetSelectedDungeons, GetComment. now rewrite player_of_send. }
  assert (Ea : (if bool_decide (accept pp = LFG_ANSWER_DENY) then ty else LFG_UPDATETYPE_REMOVED_FROM_QUEUE) =
               match accept pp with LFG_ANSWER_DENY => ty | _ => LFG_UPDATETYPE_REMOVED_FROM_QUEUE end) by now destruct (accept pp).
  rewrite Ea. clear Ea. destruct (Z.eqb_spec (LfgData.group_of pp) 0) as [E0|E0]; cbn [negb].
  - rewrite Z.eqb_refl. cbn [negb]. case_bool_decide; rewrite trace_send, ?trace_RestoreState, ?trace_SetState, trace_send;
      rewrite ?(proj1 (queued_chosen _ _ _)), ?(proj2 (queued_chosen _ _ _)), ?(proj1 (Es _ _)), ?(proj2 (Es _ _)), <- app_assoc; (destruct (connected who); reflexivity).
  - assert (Hne : LfgData.group_of pp <> who) by (destruct Hg; congruence). rewrite (proj2 (Z.eqb_neq _ _) Hne). cbn [negb].
    case_bool_decide; rewrite trace_send, ?trace_RestoreState, ?trace_SetState, trace_send;
      rewrite ?(proj1 (queued_chosen _ _ _)), ?(proj2 (queued_chosen _ _ _)), ?(proj1 (Es _ _)), ?(proj2 (Es _ _)), <- app_assoc; (destruct (connected who); reflexivity).
Qed.
Lemma walk_told ty p toRemove l m : (forall e, e ∈ l -> player_ok e.1 e.2) -> NoDup (map fst l) ->
  trace (foldl (notify_removed ty p toRemove) m l) = trace m ++ concat (map (told ty p (fun g => bool_decide (g ∈ toRemove)) m) l).
Proof.
  revert m. induction l as [|e l IH]; intros m Hok Hn; cbn [foldl map concat]; [now rewrite app_nil_r|]. apply NoDup_cons in Hn as [Hk Hn].
  assert (He : player_ok e.1 e.2) by (apply Hok; left). rewrite IH; [|intros e' He'; apply Hok; now right|exact Hn].
  rewrite (notify_told _ _ _ _ _ He), <- app_assoc. do 3 f_equal. apply map_ext_in. intros e' He'%list_elem_of_In.
  unfold told, GetSelectedDungeons, GetComment. rewrite (notify_moves ty p toRemove e He m e'.1), decide_False; [done|].
  intros E. apply Hk. rewrite <- E. apply list_elem_of_In, in_map, list_elem_of_In, He'.
Qed.
Lemma entries_fmap {A B} (f : A -> B) (m : gmap Z A) : entries Z.le (f <$> m) = map (fun e => (e.1, f e.2)) (entries Z.le m).
Proof.
  unfold entries, keys. rewrite dom_fmap_L. induction (set_order Z.le (dom m)) as [|k l IH]; cbn [omap list_omap]; [done|].
  cbn. rewrite lookup_fmap. destruct (m !! k); cbn; [now f_equal|done].
Qed.

(** C27. A proposal that is declined or runs out is removed.  A group with a player
    who did not accept is taken from the queue, the group and all its players return
    to the state from before; every other group, whose players all agreed or were
    still free to, is queued again, and it and its players wait in the state queued.
    The queue is that of the team of the proposal's first player, and no other queue
    changes.  Each player who is connected is told that the proposal failed, and that
    he is out, for the reason given when he did not accept himself, or that he is back
    in the queue with the dungeons he had chosen. *)
Theorem RemoveProposal_correct id ty m p :
  ProposalsStore m !! id = Some p -> p_players p <> ∅ -> map_Forall player_ok (p_players p) ->
  exists m' first rest gone, RemoveProposal id ty m = Some m' /\ keys Z.le (p_players p) = first :: rest /\
    (forall g, gone g = true <-> declined ty (p_players p) g) /\
    let queueId := GetTeam m first in
    ProposalsStore m' = delete id (ProposalsStore m) /\
    (forall i, i <> queueId -> QueuesStore m' !! i = QueuesStore m !! i) /\
    (let q := queue_at m queueId in
     let q' := queue_at m' queueId in
     (forall g, declined ty (p_players p) g ->
        QueueDataStore q' !! g = None /\ (g ∉ newToQueueStore q') /\ (g ∉ currentQueueStore q')) /\
     (forall g, ~ declined ty (p_players p) g ->
        (is_Some (QueueDataStore q' !! g) <-> is_Some (QueueDataStore q !! g)) /\
        (g ∈ queues p -> is_Some (QueueDataStore q !! g) -> g ∈ newToQueueStore q'))) /\
    (forall who pp, p_players p !! who = Some pp ->
       forall x, x = who \/ (x = LfgData.group_of pp /\ x <> 0) ->
       (declined ty (p_players p) (queued_as who pp) -> GetState m' x = GetOldState m x) /\
       (~ declined ty (p_players p) (queued_as who pp) -> GetState m' x = LFG_STATE_QUEUED)) /\
    (let failed := with_p_players (with_p_state p LFG_PROPOSAL_FAILED) (deny_if_open ty <$> p_players p) in
     trace m' = trace m ++ concat (map (told ty failed gone m) (entries Z.le (p_players failed)))).
Proof.
  intros Hp Hne Hok. unfold RemoveProposal. rewrite Hp.
  destruct (mark_players_spec ty (p_players p)) as (toRemove & -> & Hrem).
  set (players := mark_pending ty <$> p_players p). set (pf := with_p_players (with_p_state p LFG_PROPOSAL_FAILED) players).
  assert (Hpl : forall e, e ∈ entries Z.le players -> player_ok e.1 e.2).
  { intros [k pp] He. apply elem_of_entries in He. unfold players in He. rewrite lookup_fmap in He.
    destruct (p_players p !! k) as [pp0|] eqn:Ek; [|done]. injection He as <-. destruct (Hok k pp0 Ek) as [H1 H2].
    split; [done|]. unfold mark_pending. now case_if. }
  destruct (walk_moves (notify_removed ty pf toRemove) fst (notify_effect toRemove) (entries Z.le players) m) as [Hw _];
    [intros e He; now apply notify_moves, Hpl|apply entries_keys_NoDup|].
  assert (Hpe : only_people m (foldl (notify_removed ty pf toRemove) m (entries Z.le players)))
    by (apply people_foldl; intros; apply notify_people).
  set (m1 := foldl _ _ _) in *. destruct (keys Z.le players) as [|first rest] eqn:Ek.
  { exfalso. apply Hne. assert (Hk0 : entries Z.le players = []) by (apply map_eq_nil with (f := fst); now rewrite entries_fst).
    apply entries_nil in Hk0. unfold players in Hk0. now apply fmap_empty_inv in Hk0. }
  assert (Hfirst : IS_GROUP_GUID first = false /\ exists pp, (first, pp) ∈ entries Z.le players).
  { assert (Hin : first ∈ keys Z.le players) by (rewrite Ek; left). apply elem_of_keys in Hin as [pp Hpp]. pose proof (proj2 (elem_of_entries Z.le players first pp) Hpp) as He.
    split; [exact (proj1 (Hpl _ He))|now exists pp]. }
  assert (Ekeys : keys Z.le (p_players p) = first :: rest) by (unfold keys in *; unfold players in Ek; now rewrite dom_fmap_L in Ek).
  assert (Eqid : queue_id m1 first = GetTeam m first).
  { destruct Hfirst as [Hf (pp & He)]. unfold queue_id. rewrite Hf. unfold GetTeam. pose proof (Hw _ He) as E. cbn [fst] in E. rewrite E. unfold notify_effect. now case_bool_decide. }
  cbn zeta. eexists _, first, rest, (fun g => bool_decide (g ∈ toRemove)). split; [reflexivity|]. split; [done|].
  split; [intros g; rewrite bool_decide_eq_true; apply Hrem|]. rewrite <- Eqid.
  set (removed := set_order Z.le toRemove). set (i := queue_id m1 first).
  set (again := foldl (fun l guid => list_remove_all guid l) (queues p) removed).
  change (queues pf) with (queues p). fold again.
  assert (Hin : forall g, g ∈ removed <-> declined ty (p_players p) g) by (intros g; unfold removed; now rewrite elem_of_set_order).
  assert (Eq0 : queue_at m1 i = queue_at m i) by (unfold queue_at; now rewrite (op_queues _ _ Hpe)).
  match goal with |- context [with_proposals (on_queue_at ?f i m1) ?x] => set (m' := with_proposals (on_queue_at f i m1) x) end.
  assert (Eq' : queue_at m' i = foldl (fun q guid => AddToQueue guid q)
                  (foldl (fun q guid => RemoveFromQueue guid q) (queue_at m i) removed) again).
  { unfold queue_at at 1, entry_at, m', on_queue_at. cbn. rewrite lookup_insert_eq. cbn. now rewrite Eq0. }
  destruct (remove_all_queue removed (queue_at m i)) as (Hd1 & Hn1 & Hc1).
  destruct (add_all_queue again (foldl (fun q guid => RemoveFromQueue guid q) (queue_at m i) removed)) as (Hd2 & Hc2 & Hn2).
  split_and!.
  - cbn. now rewrite (op_proposals _ _ Hpe).
  - intros j Hj. unfold m', on_queue_at. cbn. rewrite lookup_insert_ne by done. now rewrite (op_queues _ _ Hpe).
  - intros g Hg%Hin. cbn zeta. rewrite Eq', Hd2, Hc2, Hn2, Hc1, Hn1. split_and!; [| |tauto].
    + apply eq_None_not_Some. rewrite Hd1. tauto.
    + rewrite Hd1. unfold again. rewrite remove_all_list. tauto.
  - intros g Hg. cbn zeta. rewrite Eq', Hd2. rewrite Hn2. rewrite <- Hin in Hg. rewrite Hd1. split; [tauto|].
    intros Hq Hs. right. unfold again. rewrite remove_all_list. tauto.
  - intros who pp Hpp x Hx. assert (He : (who, mark_pending ty pp) ∈ entries Z.le players)
      by (apply elem_of_entries; unfold players; now rewrite lookup_fmap, Hpp).
    destruct (Hok who pp Hpp) as [Hwho Hgr]. rewrite <- Hrem.
    destruct Hx as [->|[-> Hx]].
    + rewrite GetState_player by done. unfold GetOldState. rewrite Hwho.
      change (player_of m' who) with (player_of m1 who). specialize (Hw _ He). cbn [fst] in Hw. rewrite Hw.
      unfold notify_effect. cbn [fst snd]. rewrite queued_as_mark.
      split; intros Hd; [rewrite bool_decide_eq_true_2 by done|rewrite bool_decide_eq_false_2 by done]; reflexivity.
    + destruct Hgr as [?|Hgr]; [done|]. assert (Eq2 : queued_as who pp = LfgData.group_of pp) by (unfold queued_as; now rewrite (proj2 (Z.eqb_neq _ _) Hx)).
      unfold GetState, GetOldState. rewrite Hgr, Eq2. change (group_of m' (LfgData.group_of pp)) with (group_of m1 (LfgData.group_of pp)).
      unfold m1. rewrite walk_groups; [|done..|exists (who, mark_pending ty pp); split; [done|rewrite mark_pending_eq; done]].
      unfold group_effect. split; intros Hd; [rewrite bool_decide_eq_true_2 by done|rewrite bool_decide_eq_false_2 by done]; reflexivity.
  - assert (Epl : players = deny_if_open ty <$> p_players p) by (unfold players; apply map_fmap_ext; intros; apply mark_pending_eq).
    change (trace m') with (trace m1). unfold m1. rewrite walk_told; [|done|apply entries_keys_NoDup].
    cbv zeta. rewrite <- Epl. reflexivity.
Qed.
End Theorems.

(** ** Instances *)

(** Everybody is connected, nobody ignores anybody, no dungeon is locked. *)
Definition sample_world : LfgWorld :=
  mkLfgWorld 1000 (fun _ => true) (fun _ _ => false) (fun _ lo _ => lo) true (fun _ => None) (fun _ => false)
    (fun _ _ => None) (fun _ => true).
#[local] Existing Instance sample_world.

(** Groups number 7 and 8, and players who are in the state [st] with them. *)
Definition group7 : Z := MAKE_NEW_GUID 7 0 HIGHGUID_GROUP.
Definition group8 : Z := MAKE_NEW_GUID 8 0 HIGHGUID_GROUP.
Definition enter (gguid : Z) (st : LfgState) (m : Mgr) (guid : Z) : Mgr :=
  SetState guid st (SetSelectedDungeons guid {[1]} (AddPlayerToGroup gguid guid (SetGroup guid gguid m))).
Definition with_group (gguid : Z) (st : LfgState) (guids : list Z) (m : Mgr) : Mgr :=
  SetState gguid st (foldl (enter gguid st) m guids).

(** Five players in a dungeon; player 2 wants player 1 out, and player 3 agrees. *)
Definition boot_sample : Mgr :=
  UpdateBoot 3 true (InitBoot group7 2 1 (str "afk") (with_group group7 LFG_STATE_DUNGEON [1; 2; 3; 4; 5] (new_mgr 3))).
Definition boot_of (m : Mgr) : LfgPlayerBoot := entry_at new_boot (BootsStore m) group7.
Lemma not_groups (X : gset Z) : bool_decide (set_Forall (fun g => IS_GROUP_GUID g = false) X) = true ->
  forall g, g ∈ X -> IS_GROUP_GUID g = false.
Proof. intros H%bool_decide_eq_true g Hg. now apply H. Qed.
Lemma UpdateBoot_correct_witness :
  let m' := UpdateBoot 4 true boot_sample in
  kicks m' = [KickFromGroup group7 1] /\ BootsStore m' !! group7 = None /\
  GetState m' 5 = LFG_STATE_DUNGEON /\ GetState m' 1 = LFG_STATE_BOOT.
Proof.
  intros m'. destruct (UpdateBoot_correct 4 true boot_sample group7 (boot_of boot_sample)) as (Hb & Hk & _ & Hs);
    [vm_compute; reflexivity..| |].
  { apply not_groups. vm_compute. reflexivity. }
  split_and!.
  - etransitivity; [exact Hk|]. vm_compute. reflexivity.
  - unfold m'. rewrite Hb. vm_compute. reflexivity.
  - etransitivity; [apply (Hs 5); apply elem_of_dom; vm_compute; eauto|]. vm_compute. reflexivity.
  - etransitivity; [apply (Hs 1); apply elem_of_dom; vm_compute; eauto|]. vm_compute. reflexivity.
Defined.

(** Two players of a group that looks for dungeon 1: one has chosen, the other
    chooses to heal. *)
Definition check_sample : LfgRoleCheck :=
  mkLfgRoleCheck 2000 (list_to_map [(1, 3); (2, 0)]) LFG_ROLECHECK_INITIALITING {[1]} 0 1.
Definition checking : Mgr :=
  with_role_checks (with_group group7 LFG_STATE_ROLECHECK [1; 2] (new_mgr 3)) {[group7 := check_sample]}.
Lemma check_sample_bytes : role_bytes (answered check_sample 2 4).
Proof.
  split; [|vm_compute; reflexivity]. apply map_Forall_to_list. vm_compute.
  repeat (constructor; [split; [discriminate|reflexivity]|]). constructor.
Qed.
Lemma UpdateRoleCheck_correct_witness :
  let m' := UpdateRoleCheck group7 2 4 checking in
  RoleChecksStore m' !! group7 = None /\ GetState m' 2 = LFG_STATE_QUEUED /\
  QueueDataStore (GetQueue m' group7) !! group7 = Some (new_queue_data 1000 {[1]} (answered check_sample 2 4)).
Proof.
  intros m'. destruct (UpdateRoleCheck_correct group7 2 4 checking check_sample Passed) as (Hc & _ & Hp & Hq & _);
    [vm_compute; reflexivity..|apply check_sample_bytes| | |].
  { apply not_groups. vm_compute. reflexivity. }
  { split; [discriminate|]. split; [discriminate|]. split; [apply all_chosen_spec; vm_compute; reflexivity|].
    pose proof (CheckGroupRoles_spec _ check_sample_bytes) as H. destruct (CheckGroupRoles (answered check_sample 2 4)) as [ok rs] eqn:E.
    assert (ok = true) as -> by (change ok with (ok, rs).1; rewrite <- E; vm_compute; reflexivity). destruct H as [_ H]. now exists rs. }
  split_and!; [unfold m'; rewrite Hc; vm_compute; reflexivity|apply (Hp 2 4); vm_compute; reflexivity|exact Hq].
Defined.

(** A proposal of group 7, two players, and player 3; player 2 has declined. *)
Definition declined_sample : LfgProposal :=
  mkLfgProposal 2 1 LFG_PROPOSAL_INITIATING 0 1 1045 0 true [group7; 3] []
    (list_to_map [(1, mkLfgProposalPlayer 2 LFG_ANSWER_AGREE group7); (2, mkLfgProposalPlayer 4 LFG_ANSWER_DENY group7);
                  (3, mkLfgProposalPlayer 8 LFG_ANSWER_PENDING 0)]).
Definition proposing : Mgr :=
  let m := SetState 3 LFG_STATE_PROPOSAL (with_group group7 LFG_STATE_PROPOSAL [1; 2] (new_mgr 3)) in
  with_proposals
    (on_queue_at (fun q => with_data q (list_to_map [(group7, new_queue_data 0 {[1]} (list_to_map [(1, 2); (2, 4)]));
                                                      (3, new_queue_data 0 {[1]} {[3 := 8]})])) 0 m)
    {[2 := declined_sample]}.
Lemma RemoveProposal_correct_witness : exists m',
  RemoveProposal 2 LFG_UPDATETYPE_PROPOSAL_DECLINED proposing = Some m' /\ ProposalsStore m' = ∅ /\
  (group7 ∉ newToQueueStore (queue_at m' 0)) /\
  GetState m' 1 = LFG_STATE_NONE /\ GetState m' group7 = LFG_STATE_NONE /\ GetState m' 3 = LFG_STATE_QUEUED.
Proof.
  destruct (RemoveProposal_correct 2 LFG_UPDATETYPE_PROPOSAL_DECLINED proposing declined_sample)
    as (m' & first & rest & gone & E & Ek & _ & Hp & _ & [Hd _] & Hs & _); [vm_compute; reflexivity|discriminate| |].
  { apply (bool_decide_eq_true (map_Forall player_ok _)). vm_compute. reflexivity. }
  assert (Hdec : declined LFG_UPDATETYPE_PROPOSAL_DECLINED (p_players declined_sample) group7)
    by (exists 2; eexists; split; [vm_compute; reflexivity|]; split; [vm_compute; reflexivity|now left]).
  assert (Ek' : keys Z.le (p_players declined_sample) = [1; 2; 3]) by (vm_compute; reflexivity). rewrite Ek in Ek'. injection Ek' as -> _.
  exists m'. split_and!; [exact E|rewrite Hp; vm_compute; reflexivity| | | |].
  - assert (Et : GetTeam proposing 1 = 0) by (vm_compute; reflexivity). rewrite Et in Hd. now apply Hd.
  - etransitivity; [apply (proj1 (Hs 1 _ eq_refl 1 (or_introl eq_refl))), Hdec|]. vm_compute. reflexivity.
  - etransitivity; [apply (proj1 (Hs 1 _ eq_refl group7 ltac:(right; split; [reflexivity|vm_compute; discriminate]))), Hdec|]. vm_compute. reflexivity.
  - apply (proj2 (Hs 3 _ eq_refl 3 (or_introl eq_refl))). intros (who & pp & Hw & Hq & Hdn).
    assert (Hcase : bool_decide (map_Forall (fun who pp => queued_as who pp = 3 -> accept pp = LFG_ANSWER_PENDING) (p_players declined_sample)) = true)
      by (vm_compute; reflexivity).
    apply bool_decide_eq_true in Hcase. specialize (Hcase who pp Hw Hq). destruct Hdn as [Hx|[Hx _]]; [congruence|discriminate].
Defined.

(** Two full groups are waiting when the queues are updated: both get a proposal,
    but only the one made last is shown to its players.  The others stay queued
    and are never asked. *)
Definition full_roles (n : Z) : LfgRolesMap := list_to_map [(n + 1, 2); (n + 2, 4); (n + 3, 8); (n + 4, 8); (n + 5, 8)].
Definition two_groups : Mgr :=
  let m := with_group group8 LFG_STATE_QUEUED [21; 22; 23; 24; 25]
             (with_group group7 LFG_STATE_QUEUED [11; 12; 13; 14; 15] (new_mgr 3)) in
  on_queue_at (fun q => AddQueueData group8 900 {[1]} (full_roles 20) (AddQueueData group7 900 {[1]} (full_roles 10) q)) 0 m.
Definition told_of_proposal (m : Mgr) : list Z :=
  omap (fun e => match e with Sent guid (ProposalUpdate _) => Some guid | _ => None end) (trace m).
Lemma only_last_proposal_announced :
  match Update 0 two_groups with
  | None => False
  | Some m => keys Z.le (ProposalsStore m) = [2; 3] /\ told_of_proposal m = [21; 22; 23; 24; 25] /\
              map (GetState m) [11; 12; 13; 14; 15] = repeat LFG_STATE_QUEUED 5
  end.
Proof. vm_compute. repeat split. Qed.

(** A proposal that everybody accepts: only the first of its players is told that
    a group was found. *)
Definition accepted_sample : Mgr :=
  with_proposals
    (mkMgr 0 3 2 0 (mkDungeons {[1 := mkLFGDungeonData 1 [] 0 LFG_TYPE_DUNGEON 0 0 0 80 0 false 0 0 0 0]} ∅ [])
       (QueuesStore proposing) ∅ ∅ ∅ (<[3 := PlayerData.SetSelectedDungeons {[1]} (player_of proposing 3)]> (PlayersStore proposing))
       (GroupsStore proposing) [])
    {[2 := with_p_players declined_sample ((fun pp => with_accept pp LFG_ANSWER_AGREE) <$> p_players declined_sample)]}.
Definition found_messages (m : Mgr) : list Z :=
  omap (fun e => match e with
                 | Sent guid (UpdateParty d) | Sent guid (UpdatePlayer d) =>
                     if bool_decide (updateType d = LFG_UPDATETYPE_GROUP_FOUND) then Some guid else None
                 | _ => None
                 end) (trace m).
Lemma only_first_told_group_found :
  match UpdateProposal 2 3 true accepted_sample with
  | None => False
  | Some m => found_messages m = [1] /\ map (GetState m) [1; 2; 3] = repeat LFG_STATE_DUNGEON 3
  end.
Proof. vm_compute. repeat split. Qed.
End LFGMgr.
