(* ===== verification/LfgInvariant.v ===== *)
(** * Dungeon finder: what holds in every state the manager can reach

    [Inv] says that every queue waits with data that can be matched, every role
    check is open, and every proposal is a group of five that can play, whose
    places in the queue are those of the proposal.  [step] has every operation of
    the manager that changes a queue, a role check or a proposal, with what its
    callers guarantee, and one rule for all that change anything else.

    The claims: [Inv] is an invariant; in every reachable state an update returns,
    that is, it terminates and uses no invalid iterator. *)

From stdpp Require Import base gmap list.
From Stdlib Require Import ZArith Lia.
From S2P Require Import Prelude StdMap Util ObjectGuid LfgRoles LfgData LfgDungeons LfgQueue LfgMatch LfgMgr.
#[local] Open Scope Z_scope.

Import LFGMgr.

(** ** The invariant *)

(** The players a guid waits with: a player waits alone. *)
Definition entry_ok (g : Z) (d : LfgQueueData) : Prop :=
  data_ok d /\ (IS_GROUP_GUID g = false -> dom (roles d) ⊆ {[g]}).
Definition queue_wf (q : LFGQueue) : Prop := map_Forall entry_ok (QueueDataStore q).
Definition check_wf (gguid : Z) (rc : LfgRoleCheck) : Prop :=
  IS_GROUP_GUID gguid = true /\ rc_dungeons rc <> ∅ /\ map_Forall (fun _ r => is_u 8 r) (rc_roles rc) /\
  rc_state rc = LFG_ROLECHECK_INITIALITING.
Record proposal_wf (p : LfgProposal) : Prop := mk_proposal_wf {
  pw_size : base.size (p_players p) = 5%nat;
  pw_tank : count PLAYER_ROLE_TANK (roles_of (role <$> p_players p)) = LFG_TANKS_NEEDED;
  pw_healer : count PLAYER_ROLE_HEALER (roles_of (role <$> p_players p)) = LFG_HEALERS_NEEDED;
  pw_damage : count PLAYER_ROLE_DAMAGE (roles_of (role <$> p_players p)) = LFG_DPS_NEEDED;
  pw_leader : p_leader p ∈ dom (p_players p);
  pw_queues : map_Forall (fun who pp => queued_as who pp ∈ queues p) (p_players p);
  pw_state : p_state p = LFG_PROPOSAL_INITIATING
}.
Record Inv (m : Mgr) : Prop := mk_Inv {
  inv_queues : map_Forall (fun _ q => queue_wf q) (QueuesStore m);
  inv_checks : map_Forall check_wf (RoleChecksStore m);
  inv_proposals : map_Forall (fun _ p => proposal_wf p) (ProposalsStore m)
}.

(** Neither queue, role check nor proposal differs. *)
Definition same_core (m m' : Mgr) : Prop :=
  QueuesStore m' = QueuesStore m /\ RoleChecksStore m' = RoleChecksStore m /\ ProposalsStore m' = ProposalsStore m.
Lemma people_core m m' : only_people m m' -> same_core m m'.
Proof. intros []. now split_and!. Qed.
Lemma core_Inv m m' : same_core m m' -> Inv m -> Inv m'.
Proof. intros (Eq & Ec & Ep) []. split; rewrite ?Eq, ?Ec, ?Ep; done. Qed.

(** ** Queues *)

Lemma entry_ok_same g d d' : roles d = roles d' -> dungeons d = dungeons d' -> entry_ok g d -> entry_ok g d'.
Proof. intros Hr Hd [H1 H2]. split; [now apply (data_ok_same d)|now rewrite <- Hr]. Qed.
Lemma queue_wf_ok q : queue_wf q -> queue_ok q.
Proof. intros H g d Hd. now apply (H g d Hd). Qed.
Lemma queue_wf_from q q' :
  (forall g d', QueueDataStore q' !! g = Some d' ->
     exists d, QueueDataStore q !! g = Some d /\ roles d = roles d' /\ dungeons d = dungeons d') -> queue_wf q -> queue_wf q'.
Proof. intros H Hq g d' Hd'. destruct (H g d' Hd') as (d & Hd & Er & Ed). apply (entry_ok_same g d); auto. Qed.
Lemma wf_RemoveFromQueue guid q : queue_wf q -> queue_wf (RemoveFromQueue guid q).
Proof. apply queue_wf_from. intros g d'. apply RemoveFromQueue_data. Qed.
Lemma wf_AddToQueue guid q : queue_wf q -> queue_wf (AddToQueue guid q).
Proof. unfold queue_wf. now rewrite AddToQueue_data. Qed.
Lemma wf_AddQueueData guid t ds rs q : entry_ok guid (new_queue_data t ds rs) -> queue_wf q -> queue_wf (AddQueueData guid t ds rs q).
Proof.
  intros He Hq. unfold queue_wf, AddQueueData. rewrite AddToQueue_data. cbn. now apply map_Forall_insert_2.
Qed.
Lemma wf_foldl {A} (f : LFGQueue -> A -> LFGQueue) l q :
  (forall q x, queue_wf q -> queue_wf (f q x)) -> queue_wf q -> queue_wf (foldl f q l).
Proof. intros Hf. revert q. induction l as [|x l IH]; intros q Hq; cbn [foldl]; [done|]. apply IH, Hf, Hq. Qed.
Lemma queue_wf_new : queue_wf new_queue.
Proof. intros g d Hd. done. Qed.
Lemma wf_same q q' : same_but_best q q' -> queue_wf q -> queue_wf q'.
Proof.
  intros Hs. apply queue_wf_from. intros g d' Hd'. pose proof (sb_data _ _ Hs g) as E. rewrite Hd' in E.
  destruct (QueueDataStore q !! g) as [d|]; [|done]. cbn in E. exists d. naive_solver.
Qed.
#[local] Hint Resolve wf_RemoveFromQueue wf_AddToQueue queue_wf_new : core.

Lemma Inv_queue_at m i : Inv m -> queue_wf (queue_at m i).
Proof.
  intros H. unfold queue_at, entry_at. destruct (QueuesStore m !! i) eqn:E; cbn; [|apply queue_wf_new]. now apply (inv_queues _ H i).
Qed.
Lemma Inv_on_queue f i m : (queue_wf (queue_at m i) -> queue_wf (f (queue_at m i))) -> Inv m -> Inv (on_queue_at f i m).
Proof.
  intros Hf Hm. pose proof (Inv_queue_at m i Hm) as Hq. destruct Hm. split; try done.
  cbn. apply map_Forall_insert_2; auto.
Qed.
Lemma Inv_proposals m ps : map_Forall (fun _ p => proposal_wf p) ps -> Inv m -> Inv (with_proposals m ps).
Proof. intros Hp []. now split. Qed.
Lemma Inv_checks m cs : map_Forall check_wf cs -> Inv m -> Inv (with_role_checks m cs).
Proof. intros Hc []. now split. Qed.

(** ** Role checks *)

Lemma assignment_size m rs : role_assignment m rs -> Z.of_nat (base.size m) <= MAXGROUPSIZE.
Proof.
  intros Ha. pose proof (counts_sum _ (assignment_roles _ _ Ha)) as Hc. rewrite length_roles_of in Hc.
  assert (base.size rs = base.size m) as Hs by (rewrite <- !size_dom; f_equal; apply Ha).
  destruct Ha as [_ _ _ Ht Hh Hd]. unfold LFG_TANKS_NEEDED, LFG_HEALERS_NEEDED, LFG_DPS_NEEDED, MAXGROUPSIZE in *. lia.
Qed.

Section Reachable.
Context {world : LfgWorld}.
Hypothesis random_range : forall n lo hi, lo <= hi -> lo <= random n lo hi <= hi.

Lemma answer_wf gguid rc guid roles : check_wf gguid rc -> is_u 8 roles -> (guid <> 0 -> Z.of_nat (base.size (rc_roles rc)) < 255) ->
  let rc' := role_check_answer rc guid roles in
  rc_dungeons rc' <> ∅ /\ map_Forall (fun _ r => is_u 8 r) (rc_roles rc') /\
  (rc_state rc' = LFG_ROLECHECK_FINISHED -> exists rs, role_assignment (rc_roles rc') rs).
Proof.
  intros (_ & Hd & Hb & Hs) Hr Hsize. unfold role_check_answer.
  destruct (Z.eqb_spec guid 0) as [->|Hg]; [now split_and!|]. case_if; [now split_and!|].
  assert (Hb' : map_Forall (fun _ r => is_u 8 r) (<[guid := roles]> (rc_roles rc))) by now apply map_Forall_insert_2.
  cbn [rc_roles with_rc_roles rc_state]. case_if; cbn; [|split_and!; try done; congruence].
  split_and!; [done|done|]. assert (Hrb : role_bytes (<[guid := roles]> (rc_roles rc))).
  { split; [done|]. pose proof (map_size_insert guid roles (rc_roles rc)) as Hi. specialize (Hsize Hg).
    rewrite Hi. destruct (rc_roles rc !! guid); cbn; lia. }
  pose proof (CheckGroupRoles_spec _ Hrb) as Hc. destruct (CheckGroupRoles _) as [ok rs]. destruct Hc as [_ Hc].
  destruct ok; [intros _; now exists rs|done].
Qed.

Lemma UpdateRoleCheck_inv gguid guid roles m :
  is_u 8 roles -> (forall rc, guid <> 0 -> RoleChecksStore m !! gguid = Some rc -> Z.of_nat (base.size (rc_roles rc)) < 255) ->
  Inv m -> Inv (UpdateRoleCheck gguid guid roles m).
Proof.
  intros Hr Hsize Hm. unfold UpdateRoleCheck. case_if; [done|]. destruct (RoleChecksStore m !! gguid) as [rc|] eqn:Erc; [|done].
  pose proof (inv_checks _ Hm gguid rc Erc) as Hwf.
  destruct (answer_wf gguid rc guid roles Hwf Hr (fun Hg => Hsize rc Hg eq_refl)) as (Hd & Hb & Hf).
  cbn zeta. set (rc' := role_check_answer rc guid roles) in *.
  match goal with |- context [foldl ?f m ?l] => assert (Hpe : only_people m (foldl f m l)) by
    (apply people_foldl; intros; apply role_check_player_people); set (m1 := foldl f m l) in * end.
  assert (Hm1 : Inv m1) by now apply (core_Inv m), Hm; apply people_core.
  assert (Hdel : forall m2, Inv m2 -> Inv (with_role_checks m2 (delete gguid (RoleChecksStore m2)))).
  { intros m2 Hm2. apply Inv_checks; [|done]. apply map_Forall_delete, Hm2. }
  assert (Hfail : Inv (with_role_checks (RestoreState gguid m1) (delete gguid (RoleChecksStore (RestoreState gguid m1))))).
  { apply Hdel. apply (core_Inv m1); [apply people_core, people_RestoreState|done]. }
  destruct (rc_state rc') eqn:Est; try exact Hfail.
  - apply Hdel, Inv_on_queue; [|apply (core_Inv m1); [apply people_core, people_SetState|done]].
    apply wf_AddQueueData. destruct (Hf eq_refl) as [rs Hrs]. split.
    + split; cbn; [now apply (assignment_size _ rs)|done|done|intros _; now exists rs].
    + intros Hng. destruct Hwf as [Hgr _]. congruence.
  - apply Inv_checks; [|done]. apply map_Forall_insert_2; [|apply Hm1]. destruct Hwf as [Hgr _]. now split_and!.
Qed.

(** ** Proposals *)

Lemma removed_wf l (q : LFGQueue) : queue_wf q -> queue_wf (foldl (fun q guid => RemoveFromQueue guid q) q l).
Proof. apply wf_foldl. auto. Qed.
Lemma RemoveProposal_inv id ty m m' : RemoveProposal id ty m = Some m' -> Inv m -> Inv m'.
Proof.
  unfold RemoveProposal. destruct (ProposalsStore m !! id) as [p|]; [|done].
  destruct (mark_players ty (p_players p)) as [players toRemove].
  match goal with |- context [foldl ?f m ?l] => assert (Hpe : only_people m (foldl f m l)) by
    (apply people_foldl; intros; apply notify_people); set (m1 := foldl f m l) in * end.
  destruct (keys Z.le players); [done|]. cbn zeta. intros [= <-] Hm.
  assert (Hm1 : Inv m1) by (apply (core_Inv m); [now apply people_core|done]).
  apply Inv_proposals; [apply map_Forall_delete, Hm1|]. apply Inv_on_queue; [|done].
  intros Hq. apply wf_foldl; [auto|]. now apply removed_wf.
Qed.
Lemma RemoveProposal_some id ty m p : ProposalsStore m !! id = Some p -> p_players p <> ∅ -> exists m', RemoveProposal id ty m = Some m'.
Proof.
  intros Hp Hne. unfold RemoveProposal. rewrite Hp. destruct (mark_players_spec ty (p_players p)) as (R & -> & _).
  destruct (keys Z.le (mark_pending ty <$> p_players p)) eqn:Ek; [|eauto]. exfalso. apply Hne.
  assert (Hk0 : entries Z.le (mark_pending ty <$> p_players p) = []) by (apply map_eq_nil with (f := fst); now rewrite entries_fst).
  apply entries_nil in Hk0. now apply fmap_empty_inv in Hk0.
Qed.

Lemma proposal_wf_answer p guid pp a : p_players p !! guid = Some pp -> proposal_wf p ->
  proposal_wf (with_p_players p (<[guid := with_accept pp a]> (p_players p))).
Proof.
  intros Hg []. assert (Hr : role <$> <[guid := with_accept pp a]> (p_players p) = role <$> p_players p).
  { rewrite fmap_insert. apply insert_id. now rewrite lookup_fmap, Hg. }
  split; cbn [p_players with_p_players queues p_leader p_state]; rewrite ?Hr; try done.
  - rewrite map_size_insert, Hg. done.
  - rewrite dom_insert. set_solver.
  - intros who pp' [[<- <-]|[_ Hw]]%lookup_insert_Some; [apply (pw_queues0 guid pp Hg)|now apply (pw_queues0 who)].
Qed.

(** While a proposal is accepted, asking for a join time makes entries for guids
    of the proposal that had left the queue; they go when the proposal does. *)
Definition queue_wf_but (l : list Z) (q : LFGQueue) : Prop :=
  forall g d, QueueDataStore q !! g = Some d -> g ∈ l \/ entry_ok g d.
Record Inv_but (i : Z) (l : list Z) (m0 m : Mgr) : Prop := mk_Inv_but {
  ib_queue : queue_wf_but l (queue_at m i);
  ib_others : forall j, j <> i -> QueuesStore m !! j = QueuesStore m0 !! j;
  ib_checks : RoleChecksStore m = RoleChecksStore m0;
  ib_proposals : ProposalsStore m = ProposalsStore m0
}.
Lemma but_people i l m0 m m' : only_people m m' -> Inv_but i l m0 m -> Inv_but i l m0 m'.
Proof.
  intros Hpe [H1 H2 H3 H4]. split; [|intros j Hj; rewrite (op_queues _ _ Hpe); auto|
    now rewrite (op_checks _ _ Hpe)|now rewrite (op_proposals _ _ Hpe)].
  unfold queue_at. rewrite (op_queues _ _ Hpe). exact H1.
Qed.
Lemma but_on_queue i l m0 m f : (queue_wf_but l (queue_at m i) -> queue_wf_but l (f (queue_at m i))) ->
  Inv_but i l m0 m -> Inv_but i l m0 (on_queue_at f i m).
Proof.
  intros Hf [H1 H2 H3 H4]. split; try done.
  - unfold queue_at at 1, entry_at, on_queue_at. cbn. rewrite lookup_insert_eq. cbn. auto.
  - intros j Hj. unfold on_queue_at. cbn. rewrite lookup_insert_ne by done. auto.
Qed.
Lemma wf_but_data l q q' : QueueDataStore q' = QueueDataStore q -> queue_wf_but l q -> queue_wf_but l q'.
Proof. intros E. unfold queue_wf_but. now rewrite E. Qed.
Lemma count_wait_data r w d q : QueueDataStore (count_wait r w d q) = QueueDataStore q.
Proof. unfold count_wait. now repeat case_if. Qed.
Lemma wf_but_join t g l q : g ∈ l -> queue_wf_but l q -> queue_wf_but l (GetJoinTime t g q).2.
Proof.
  intros Hg Hq. unfold GetJoinTime. destruct (QueueDataStore q !! g); [done|].
  intros g' d Hd. change (<[g := no_queue_data t]> (QueueDataStore q) !! g' = Some d) in Hd.
  apply lookup_insert_Some in Hd as [[<- _]|[_ Hd]]; [now left|now apply Hq].
Qed.
Lemma wf_but_remove l q : queue_wf_but l q -> queue_wf (foldl (fun q guid => RemoveFromQueue guid q) q l).
Proof.
  intros Hq g d Hd.
  assert (H : forall l q d, QueueDataStore (foldl (fun q guid => RemoveFromQueue guid q) q l) !! g = Some d ->
    exists d0, QueueDataStore q !! g = Some d0 /\ roles d0 = roles d /\ dungeons d0 = dungeons d).
  { clear. induction l as [|x l IH]; intros q d Hd; cbn [foldl] in Hd; [eauto|].
    destruct (IH _ _ Hd) as (d1 & H1 & E1 & E2). destruct (RemoveFromQueue_data x q g d1 H1) as (d2 & H2 & E3 & E4).
    exists d2. split; [done|]. split; congruence. }
  destruct (remove_all_queue l q) as (Hs & _ & _). destruct (proj1 (Hs g) (mk_is_Some _ _ Hd)) as [_ Hnl].
  destruct (H l q d Hd) as (d0 & H0 & E1 & E2). destruct (Hq g d0 H0) as [|He]; [done|]. now apply (entry_ok_same g d0).
Qed.

Lemma accepted_walk p i upd m0 es acc m' ty' :
  (forall e, e ∈ es -> queued_as e.1 e.2 ∈ queues p) -> Inv_but i (queues p) m0 acc.2 ->
  foldl (accepted_player p i upd) (Some acc) es = Some (ty', m') -> Inv_but i (queues p) m0 m'.
Proof.
  revert acc. induction es as [|[who pp] es IH]; intros [ty m] Hes Hm; cbn [foldl]; [now intros [= <- <-]|].
  cbn [accepted_player]. destruct (set_order Z.le (GetSelectedDungeons m who)) as [|dun rest].
  { intros H. exfalso. clear - H. induction es as [|e es IH]; [done|]. apply IH, H. }
  cbn zeta. set (ma := if upd then send who (ProposalUpdate p) m else m).
  assert (Ha : Inv_but i (queues p) m0 ma) by (unfold ma; case_if; [eapply but_people; [apply people_send|]|]; done).
  pose proof (wf_but_join time (queued_as who pp) (queues p) (queue_at ma i) (Hes _ (list_elem_of_here _ _)) (ib_queue _ _ _ _ Ha)) as Hj.
  destruct (GetJoinTime time (queued_as who pp) (queue_at ma i)) as [joined q]. cbn [snd] in Hj.
  apply IH; [intros e He; apply Hes; now right|]. cbn [snd].
  eapply but_people; [apply people_SetState|]. apply but_on_queue; [apply wf_but_data, count_wait_data|].
  eapply but_people; [apply people_send|]. eapply but_people; [apply people_send|].
  assert (Hb : Inv_but i (queues p) m0 (on_queue_at (fun _ => q) i ma)) by now apply but_on_queue.
  case_if; (eapply but_people; [apply people_send|exact Hb]).
Qed.

Lemma UpdateProposal_inv id guid a m m' : UpdateProposal id guid a m = Some m' -> Inv m -> Inv m'.
Proof.
  intros H Hm. unfold UpdateProposal in H. destruct (ProposalsStore m !! id) as [p|] eqn:Ep; [|now injection H as <-].
  destruct (p_players p !! guid) as [pp|] eqn:Epp; [|now injection H as <-].
  pose proof (inv_proposals _ Hm id p Ep) as Hpw. cbn beta in Hpw.
  pose proof (proposal_wf_answer p guid pp (answer_of a) Epp Hpw) as Hw.
  cbn zeta in H. set (p1 := with_p_players p _) in *. set (m1 := with_proposals m _) in *.
  assert (Hm1 : Inv m1) by (apply Inv_proposals; [apply map_Forall_insert_2; [done|apply Hm]|done]).
  destruct a; cbn [negb] in H; [|now apply (RemoveProposal_inv _ _ _ _ H)].
  destruct (negb _); [injection H as <-; apply (core_Inv m1); [apply people_core; people|done]|].
  destruct (foldl _ _ _) as [[ty' m3]|] eqn:Ef; [|done].
  match type of Ef with foldl _ (Some (_, ?mm)) _ = _ => set (m2 := mm) in * end.
  set (i := queue_id m1 guid) in *. set (p2 := with_p_state p1 LFG_PROPOSAL_SUCCESS) in *.
  assert (Hb : Inv_but i (queues p2) m2 m3).
  { apply (accepted_walk _ _ _ m2) in Ef; [exact Ef| |].
    - intros [who q] He. apply elem_of_entries in He. exact (pw_queues _ Hw who q He).
    - split; try done. intros g d Hd. right. now apply (Inv_queue_at m i Hm). }
  unfold MakeNewGroup in H. destruct (GetLFGDungeon _ _); [|done]. injection H as <-.
  destruct Hb as [Hq Ho Hc Hp]. split; cbn.
  - intros j q Hj. apply lookup_insert_Some in Hj as [[<- <-]|[Hne Hj]]; [now apply wf_but_remove|].
    rewrite Ho in Hj by done. now apply (inv_queues _ Hm j).
  - rewrite Hc. apply Hm.
  - rewrite Hp. cbn. rewrite !delete_insert_eq. apply map_Forall_delete, Hm.
Qed.

(** ** Leaving and joining *)

Lemma alter_as_insert {A} (f : A -> A) i (m : gmap Z A) x : m !! i = Some x -> alter f i m = <[i := f x]> m.
Proof.
  intros Hx. apply map_eq. intros j. destruct (decide (i = j)) as [->|Hne].
  - now rewrite lookup_alter_eq, Hx, lookup_insert_eq.
  - now rewrite lookup_alter_ne, lookup_insert_ne.
Qed.
Lemma LeaveLfg_inv guid m m' : LeaveLfg guid m = Some m' -> Inv m -> Inv m'.
Proof.
  intros H Hm. unfold LeaveLfg in H.
  assert (Hout : forall g, Inv (on_queue_at (RemoveFromQueue g) (queue_id m g) m)) by (intros g; apply Inv_on_queue; auto).
  assert (Hset : Inv (SetState guid LFG_STATE_NONE m)) by (apply (core_Inv m); [apply people_core, people_SetState|done]).
  destruct (GetState m guid).
  1, 8: apply (inj Some) in H as <-; exact Hm.
  - apply (inj Some) in H as <-. destruct (negb _); [|exact Hm]. apply UpdateRoleCheck_inv; [unfold is_u, PLAYER_ROLE_NONE; lia|intros rc Hn; now destruct Hn|exact Hm].
  - apply (inj Some) in H as <-. destruct (negb _); (eapply core_Inv; [apply people_core; cbn zeta; people; reflexivity|apply Hout]).
  - destruct (List.find _ _) as [[id p]|] eqn:Ef; [|now apply (inj Some) in H as <-].
    apply RemoveProposal_inv in H; [exact H|]. apply Inv_proposals; [|done].
    apply find_some in Ef as [Hin Hs]. apply list_elem_of_In, elem_of_entries in Hin. cbn [snd] in Hs.
    apply bool_decide_eq_true in Hs as [pp Hpp]. apply map_Forall_insert_2; [|apply Hm].
    rewrite (alter_as_insert _ _ _ _ Hpp). apply proposal_wf_answer; [exact Hpp|]. now apply (inv_proposals _ Hm id).
  - apply (inj Some) in H as <-. now destruct (negb _).
  - apply (inj Some) in H as <-. now destruct (negb _).
  - apply (inj Some) in H as <-. now destruct (negb _).
Qed.

(** What the caller of [JoinLfg] guarantees of a group. *)
Definition join_ok (grp : option JoinGroup) (m : Mgr) : Prop :=
  match grp with
  | None => True
  | Some g => IS_GROUP_GUID (jg_guid g) = true /\
      Z.of_nat (base.size (rc_roles (entry_at new_role_check (RoleChecksStore m) (jg_guid g)))) + Z.of_nat (length (jg_members g)) < 255
  end.

Lemma begin_members_walk b data l m rs m' rs' :
  foldl (begin_member b data) (m, rs) l = (m', rs') -> map_Forall (fun _ r => is_u 8 r) rs ->
  only_people m m' /\ map_Forall (fun _ r => is_u 8 r) rs' /\
  Z.of_nat (base.size rs') <= Z.of_nat (base.size rs) + Z.of_nat (length l).
Proof.
  revert m rs. induction l as [|j l IH]; intros m rs H Hb; cbn [foldl] in H.
  { injection H as <- <-. split_and!; [reflexivity|done|cbn; lia]. }
  unfold begin_member at 2 in H. cbn zeta in H. apply IH in H as (Hpe & Hb' & Hs); [|apply map_Forall_insert_2; [unfold is_u; lia|done]].
  split_and!; [|done|].
  - etransitivity; [|exact Hpe]. people.
  - rewrite map_size_insert in Hs. cbn [length]. destruct (rs !! j_guid j); cbn in Hs; lia.
Qed.

Lemma role_check_begun gguid (g : JoinGroup) guid roles c d r comment m :
  gguid = jg_guid g -> is_u 8 roles -> join_ok (Some g) m -> d <> ∅ -> Inv m ->
  Inv (begin_role_check g guid roles c d r comment m).
Proof.
  intros -> Hr [Hg Hs] Hd Hm. unfold begin_role_check. cbn zeta.
  set (ent := entry_at new_role_check (RoleChecksStore m) (jg_guid g)) in *.
  assert (Hent : map_Forall (fun _ r => is_u 8 r) (rc_roles ent)).
  { unfold ent, entry_at. destruct (RoleChecksStore m !! jg_guid g) eqn:E; cbn; [apply (inv_checks _ Hm _ _ E)|done]. }
  change (RoleChecksStore (SetState (jg_guid g) LFG_STATE_ROLECHECK m)) with (RoleChecksStore (SetState (jg_guid g) LFG_STATE_ROLECHECK m)).
  rewrite (op_checks _ _ (people_SetState (jg_guid g) LFG_STATE_ROLECHECK m)). fold ent.
  destruct (foldl _ _ _) as [m1 rs] eqn:Ef. apply begin_members_walk in Ef as (Hpe & Hb & Hsz); [|done].
  assert (Hm1 : Inv m1).
  { apply (core_Inv m); [apply people_core; etransitivity; [apply people_SetState|exact Hpe]|done]. }
  apply UpdateRoleCheck_inv; [done| |].
  - intros rc _ Hrc. cbn in Hrc. rewrite lookup_insert_eq in Hrc. injection Hrc as <-. cbn [rc_roles]. lia.
  - apply Inv_checks; [|done]. apply map_Forall_insert_2; [|apply Hm1]. split_and!; done.
Qed.

Lemma check_join_ok m player grp ds : jc_result (check_join m player grp ds) = LFG_JOIN_OK ->
  jc_dungeons (check_join m player grp ds) <> ∅.
Proof.
  unfold check_join. destruct (restrictions player grp ds) as [r players].
  unfold is_ok. case_bool_decide; cbn [negb]; [|done].
  destruct (bool_decide (k_result _ = LFG_JOIN_OK)) eqn:Ek; cbn [negb]; [|cbn; intros E; rewrite E in Ek; now apply bool_decide_eq_false in Ek].
  destruct (GetCompatibleDungeons _ _ _) as [remaining lockMap]. clear Ek. cbn. case_bool_decide; [destruct grp; discriminate|intros _; assumption].
Qed.

Lemma JoinLfg_inv player grp roles ds comment m :
  is_u 8 roles -> join_ok grp m -> Inv m -> Inv (JoinLfg player grp roles ds comment m).
Proof.
  intros Hr Hj Hm. unfold JoinLfg. case_if; [done|]. cbn zeta.
  match goal with |- context [check_join ?mm _ _ _] => set (m1 := mm) end.
  assert (Hm1 : Inv m1) by (unfold m1; case_if; [apply Inv_on_queue; auto|done]).
  assert (Hj1 : join_ok grp m1) by (unfold m1; case_if; exact Hj).
  match goal with |- context [check_join m1 player grp ?dd] => pose proof (check_join_ok m1 player grp dd) as Hc;
    set (c := check_join m1 player grp dd) in * end.
  destruct (is_ok (jc_result c)) eqn:Hok; cbn [negb]; [apply bool_decide_eq_true in Hok|apply (core_Inv m1); [apply people_core, people_emit|exact Hm1]].
  specialize (Hc Hok).
  assert (Hm2 : Inv (SetComment (j_guid player) comment m1)) by (apply (core_Inv m1); [apply people_core, people_on_player|exact Hm1]).
  case_if; [done|]. destruct grp as [g|]; [now apply (role_check_begun (jg_guid g))|].
  unfold join_alone. cbn zeta.
  eapply core_Inv; [apply people_core; people; reflexivity|]. apply Inv_on_queue; [|done]. apply wf_AddQueueData.
  split; [|intros _; cbn; now rewrite dom_singleton].
  split; cbn; [rewrite map_size_singleton; unfold MAXGROUPSIZE; lia| |done|rewrite map_size_singleton; unfold MAXGROUPSIZE; lia].
  now apply map_Forall_singleton.
Qed.

(** ** The update *)

Lemma only_foldl {A} (P : Mgr -> Prop) (f : Mgr -> A -> Mgr) l m : (forall m x, P m -> P (f m x)) -> P m -> P (foldl f m l).
Proof. intros Hf. revert m. induction l as [|x l IH]; intros m Hp; cbn [foldl]; [done|]. apply IH, Hf, Hp. Qed.
(** A loop of steps that return. *)
Lemma some_foldl {A} (P : Mgr -> Prop) (Q : A -> Prop) (f : option Mgr -> A -> option Mgr) l m :
  (forall m x, P m -> Q x -> exists m', f (Some m) x = Some m' /\ P m') -> Forall Q l -> P m ->
  exists m', foldl f (Some m) l = Some m' /\ P m'.
Proof.
  intros Hf Hl. revert m. induction Hl as [|x l Hx _ IH]; intros m Hp; cbn [foldl]; [eauto|].
  destruct (Hf m x Hp Hx) as (m' & -> & Hp'). now apply IH.
Qed.

Lemma expire_role_check_inv m e : Inv m -> Inv (expire_role_check m e).
Proof.
  intros Hm. destruct e as [gguid rc]. unfold expire_role_check. case_if; [done|]. cbn zeta.
  match goal with |- Inv (with_role_checks (RestoreState _ ?mm) _) => assert (Hpe : only_people m mm) by
    (apply people_foldl; intros; unfold expired_check_player; cbn zeta; people); set (m1 := mm) in * end.
  assert (Hm1 : Inv (RestoreState gguid m1))
    by (apply (core_Inv m); [apply people_core; etransitivity; [exact Hpe|apply people_RestoreState]|done]).
  apply Inv_checks; [apply map_Forall_delete, Hm1|done].
Qed.
Lemma expire_boot_inv m e : Inv m -> Inv (expire_boot m e).
Proof.
  intros Hm. destruct e as [gguid b]. unfold expire_boot. case_if; [|done]. cbn zeta.
  match goal with |- Inv (with_boots ?mm _) => assert (Hpe : only_people m mm) by people; set (m1 := mm) in * end.
  assert (Hm1 : Inv m1) by (apply (core_Inv m); [now apply people_core|done]). destruct Hm1. now split.
Qed.

Lemma expire_proposal_returns m e : Inv m /\ ProposalsStore m !! e.1 = Some e.2 ->
  exists m', expire_proposal (Some m) e = Some m' /\ Inv m' /\
    forall j, j <> e.1 -> ProposalsStore m' !! j = ProposalsStore m !! j.
Proof.
  intros [Hm Hp]. unfold expire_proposal. case_if; [|now exists m].
  pose proof (inv_proposals _ Hm _ _ Hp) as Hw. cbn beta in Hw.
  assert (Hne : p_players e.2 <> ∅) by (intros E0; pose proof (pw_size _ Hw) as Hs; now rewrite E0, map_size_empty in Hs).
  destruct (RemoveProposal_some e.1 LFG_UPDATETYPE_PROPOSAL_FAILED m e.2 Hp Hne) as [m' Hm']. exists m'. split; [done|].
  split; [now apply (RemoveProposal_inv _ _ _ _ Hm')|]. intros j Hj. unfold RemoveProposal in Hm'. rewrite Hp in Hm'.
  destruct (mark_players _ _) as [players R]. destruct (keys Z.le players); [done|]. cbn zeta in Hm'.
  apply (inj Some) in Hm' as <-. cbn.
  match goal with |- delete _ (ProposalsStore ?mm) !! _ = _ => assert (Hpe : only_people m mm) by (apply people_foldl; intros; apply notify_people) end.
  rewrite lookup_delete_ne by done. now rewrite (op_proposals _ _ Hpe).
Qed.
Lemma expire_proposals_return l m : NoDup (map fst l) -> (forall e, e ∈ l -> ProposalsStore m !! e.1 = Some e.2) -> Inv m ->
  exists m', foldl expire_proposal (Some m) l = Some m' /\ Inv m'.
Proof.
  revert m. induction l as [|e l IH]; intros m Hn Hl Hm; [now exists m|]. cbn [foldl]. cbn in Hn. apply NoDup_cons in Hn as [Hk Hn].
  destruct (expire_proposal_returns m e (conj Hm (Hl e (list_elem_of_here _ _)))) as (m' & -> & Hm' & Hsame).
  apply IH; [done| |done]. intros e' He'. rewrite Hsame; [apply Hl; now right|]. intros E. apply Hk. rewrite <- E.
  apply list_elem_of_In, in_map, list_elem_of_In, He'.
Qed.

(** A proposal of the search is well formed. *)
Lemma good_group_wf m q p : queue_wf q -> good_group (view := view_of m) q p -> proposal_wf p.
Proof.
  intros Hq Hg. destruct Hg. split; try done; [|apply gg_state].
  intros who pp Hw. destruct (gg_from who pp Hw) as (g & d & Hg & Hd & Hwho & Hv). unfold queued_as. rewrite Hv.
  destruct (IS_GROUP_GUID g) eqn:Eg.
  - destruct (Z.eqb_spec g 0) as [->|]; [done|exact Hg].
  - cbn. destruct (Hq g d Hd) as [_ Hs]. specialize (Hs Eg). replace who with g; [exact Hg|]. set_solver.
Qed.
Lemma HasIgnore_sym_mgr a b : HasIgnore a b = HasIgnore b a.
Proof. unfold HasIgnore. now rewrite (andb_comm (connected a)), orb_comm. Qed.

Lemma find_groups_in_returns m i : Inv m -> exists m', find_groups_in (Some m) i = Some m' /\ Inv m'.
Proof.
  intros Hm. unfold find_groups_in. pose proof (Inv_queue_at m i Hm) as Hq.
  destruct (find_groups_ends (view := view_of m) random_range HasIgnore_sym_mgr
    (length (newToQueueStore (queue (queue_state m (queue_at m i))))) 0 (queue_state m (queue_at m i)) (le_n _) (queue_wf_ok _ Hq))
    as (n & s & E & Hev & _).
  unfold FindGroups. rewrite E. eexists. split; [reflexivity|]. split; cbn.
  - intros j q Hj. apply lookup_insert_Some in Hj as [[_ <-]|[_ Hj]]; [|now apply (inv_queues _ Hm j)].
    apply (queue_wf_from (queue_at m i)); [|done]. intros g d'. apply (ev_data _ _ Hev).
  - apply Hm.
  - intros id p Hp. destruct (ev_proposals _ _ Hev id p Hp) as [Ho|Hg]; [now apply (inv_proposals _ Hm id)|].
    now apply (good_group_wf m (queue_at m i)).
Qed.

Lemma announce_returns m e : Inv m -> proposal_wf e.2 -> exists m', announce (Some m) e = Some m' /\ Inv m'.
Proof.
  intros Hm Hw. destruct e as [id p]. unfold announce. cbn [snd] in Hw. rewrite (pw_state _ Hw).
  rewrite bool_decide_eq_false_2 by done. cbn zeta. eexists. split; [reflexivity|].
  apply (core_Inv m); [|done]. apply people_core. apply people_foldl. intros m0 g. unfold announce_player. cbn zeta. people.
Qed.

Lemma queue_timers_return now guids q :
  (forall g, g ∈ guids -> is_Some (QueueDataStore q !! g)) -> queue_ok q ->
  exists sent q', queue_timers now guids q = Some (sent, q') /\ same_but_best q q'.
Proof.
  revert q. induction guids as [|g guids IH]; intros q Hg Hq; cbn [queue_timers]; [now exists [], q|].
  destruct (Hg g (list_elem_of_here _ _)) as [d Hd]. rewrite Hd.
  set (q1 := match bestCompatible d with [] => FindBestCompatibleInQueue g q | _ => q end).
  assert (H1 : same_but_best q q1) by (unfold q1; destruct (bestCompatible d); [apply FindBest_same|reflexivity]).
  unfold queue_status. destruct (set_order Z.le (dungeons d)) as [|dun rest] eqn:Ed.
  { exfalso. apply (do_dungeons _ (Hq g d Hd)). apply set_eq. intros x. rewrite <- (elem_of_set_order Z.le), Ed.
    split; intros H; exfalso; revert H; [apply not_elem_of_nil|apply not_elem_of_empty]. }
  destruct (IH q1) as (sent & q' & -> & H2).
  - intros g' Hg'. pose proof (sb_data _ _ H1 g') as E. destruct (Hg g' (list_elem_of_further _ _ _ Hg')) as [d' Hd'].
    rewrite Hd' in E. destruct (QueueDataStore q1 !! g'); [eauto|done].
  - intros g' d' Hd'. pose proof (sb_data _ _ H1 g') as E. rewrite Hd' in E.
    destruct (QueueDataStore q !! g') as [d0|] eqn:E0; [|done]. cbn in E. apply (data_ok_same d0); [naive_solver..|now apply (Hq g')].
  - eexists _, q'. split; [reflexivity|]. etransitivity; [exact H1|exact H2].
Qed.
Lemma update_queue_timers_returns m i : Inv m -> exists m', update_queue_timers (Some m) i = Some m' /\ Inv m'.
Proof.
  intros Hm. unfold update_queue_timers, UpdateQueueTimers. pose proof (Inv_queue_at m i Hm) as Hq.
  destruct (queue_timers_return time (keys Z.le (QueueDataStore (queue_at m i))) (queue_at m i)) as (sent & q' & -> & Hs);
    [intros g; apply elem_of_keys|now apply queue_wf_ok|].
  eexists. split; [reflexivity|].
  match goal with |- Inv (on_queue_at _ _ ?mm) => assert (Hpe : only_people m mm) by (apply people_foldl; intros ? []; apply people_send) end.
  apply Inv_on_queue; [intros _; now apply (wf_same (queue_at m i))|]. apply (core_Inv m); [now apply people_core|done].
Qed.

(** An update returns and keeps the invariant. *)
Lemma Update_spec diff m : Inv m -> exists m', Update diff m = Some m' /\ Inv m'.
Proof.
  intros Hm. unfold Update. case_if; [now exists m|]. cbn zeta.
  set (m1 := foldl expire_role_check m (entries Z.le (RoleChecksStore m))).
  assert (H1 : Inv m1) by (apply only_foldl; [apply expire_role_check_inv|done]).
  destruct (expire_proposals_return (entries Z.le (ProposalsStore m1)) m1) as (m2 & -> & H2);
    [apply entries_keys_NoDup|intros [k p]; now rewrite elem_of_entries|done|].
  set (m3 := foldl expire_boot m2 (entries Z.le (BootsStore m2))).
  assert (H3 : Inv m3) by (apply only_foldl; [apply expire_boot_inv|done]).
  destruct (some_foldl Inv (fun _ => True) find_groups_in (keys Z.le (QueuesStore m3)) m3) as (m4 & -> & H4);
    [intros; now apply find_groups_in_returns|now apply Forall_forall|done|].
  assert (H5 : exists m5, (if negb (m_lfgProposalId m3 =? m_lfgProposalId m4) then foldl announce (Some m4) (announced m4) else Some m4)
    = Some m5 /\ Inv m5).
  { case_if; [|now exists m4]. apply (some_foldl Inv (fun e => proposal_wf e.2)); [intros; now apply announce_returns| |done].
    unfold announced. case_bool_decide; [|constructor]. apply Forall_forall. intros [k p] Hin.
    apply list_elem_of_filter in Hin as [_ Hin]. apply elem_of_entries in Hin. now apply (inv_proposals _ H4 k). }
  destruct H5 as (m5 & -> & H5). case_if.
  - apply (some_foldl Inv (fun _ => True)); [intros; now apply update_queue_timers_returns|now apply Forall_forall|].
    now apply (core_Inv m5).
  - eexists. split; [reflexivity|]. now apply (core_Inv m5).
Qed.

(** ** Reachable states *)

Inductive step : Mgr -> Mgr -> Prop :=
| step_join player grp roles ds comment m :
    is_u 8 roles -> join_ok grp m -> step m (JoinLfg player grp roles ds comment m)
| step_leave guid m m' : LeaveLfg guid m = Some m' -> step m m'
| step_role gguid guid roles m :
    is_u 8 roles -> (forall rc, RoleChecksStore m !! gguid = Some rc -> Z.of_nat (base.size (rc_roles rc)) < 255) ->
    step m (UpdateRoleCheck gguid guid roles m)
| step_answer id guid a m m' : UpdateProposal id guid a m = Some m' -> step m m'
| step_update diff m m' : Update diff m = Some m' -> step m m'
| step_clean m : step m (Clean m)
| step_other m m' : same_core m m' -> step m m'.
Inductive reachable (options : Z) : Mgr -> Prop :=
| reachable_new : reachable options (new_mgr options)
| reachable_step m m' : reachable options m -> step m m' -> reachable options m'.

(** The votes are among the others. *)
Lemma InitBoot_other gguid kicker vict why m : same_core m (InitBoot gguid kicker vict why m).
Proof.
  unfold InitBoot. cbn zeta. destruct (foldl _ _ _) as [m1 v] eqn:Ef.
  assert (Hf : forall l (acc : Mgr * gmap Z LfgAnswer), only_people acc.1
    (foldl (fun '(m, v) guid => (SetState guid LFG_STATE_BOOT m, <[guid := LFG_ANSWER_PENDING]> v)) acc l).1).
  { induction l as [|g l IH]; intros [m0 v0]; cbn [foldl]; [reflexivity|]. etransitivity; [apply people_SetState|apply (IH (_, _))]. }
  specialize (Hf (set_order Z.le (GetPlayers (SetState gguid LFG_STATE_BOOT m) gguid))
    (SetState gguid LFG_STATE_BOOT m, votes (entry_at new_boot (BootsStore (SetState gguid LFG_STATE_BOOT m)) gguid))).
  rewrite Ef in Hf. cbn [fst] in Hf. pose proof (people_SetState gguid LFG_STATE_BOOT m) as H0.
  match goal with |- same_core _ (foldl ?f ?mm ?l) => assert (H1 : only_people mm (foldl f mm l)) by (apply people_foldl; intros; apply people_send) end.
  destruct H0, Hf, H1. cbn in *. split_and!; congruence.
Qed.
Lemma UpdateBoot_other guid a m : same_core m (UpdateBoot guid a m).
Proof.
  unfold UpdateBoot. case_if; [done|]. destruct (BootsStore m !! GetGroup m guid) as [b|]; [|done]. cbn zeta. case_if; [done|].
  destruct (count_votes _) as [n k]. case_if; [done|].
  match goal with |- same_core m (with_boots ?mm _) => assert (H1 : only_people m mm) by people end.
  destruct H1. now split_and!.
Qed.

Lemma reachable_Inv options m : reachable options m -> Inv m.
Proof.
  induction 1 as [|m m' _ IH Hs]; [now split|]. destruct Hs.
  - now apply JoinLfg_inv.
  - now apply (LeaveLfg_inv guid m).
  - apply UpdateRoleCheck_inv; auto.
  - now apply (UpdateProposal_inv id guid a m).
  - destruct (Update_spec diff m IH) as (m2 & E & H2). congruence.
  - destruct IH. now split.
  - now apply (core_Inv m).
Qed.

(** C7. In every state that the manager can reach, whoever joins, leaves, answers
    or times out in whatever order: what waits in a queue can be matched, every
    role check is open, and every proposal has five players with one tank, one
    healer and three damage dealers, who are queued with the guids it lists. *)
Theorem reachable_invariant options m : reachable options m -> Inv m.
Proof. apply reachable_Inv. Qed.

(** C8. In every reachable state the update of the manager returns: its loops end,
    and it never uses an erased proposal or the first element of an empty set. *)
Theorem Update_returns options m diff : reachable options m -> exists m', Update diff m = Some m' /\ reachable options m'.
Proof.
  intros Hm. destruct (Update_spec diff m (reachable_Inv _ _ Hm)) as (m' & E & _). exists m'. split; [exact E|].
  exact (reachable_step options m m' Hm (step_update diff m m' E)).
Qed.
End Reachable.

(** ** A run *)

#[local] Existing Instance sample_world.
Lemma sample_random : forall n lo hi, lo <= hi -> lo <= random n lo hi <= hi.
Proof. intros n lo hi H. cbn. lia. Qed.

(** Five friends in a group; the dungeon finder knows dungeon 1. *)
Definition friends : list Z := [11; 12; 13; 14; 15].
Definition friend (guid : Z) : Joiner := mkJoiner guid true false false false.
Definition party : JoinGroup := mkJoinGroup group7 false 5 (map friend friends).
Definition at_home : Mgr :=
  let m := with_group group7 LFG_STATE_NONE friends (new_mgr 3) in
  mkMgr 0 3 1 0 (mkDungeons {[1 := mkLFGDungeonData 1 [] 0 LFG_TYPE_DUNGEON 0 0 0 80 0 false 0 0 0 0]} ∅ [])
    ∅ ∅ ∅ ∅ (PlayersStore m) (GroupsStore m) [].
(** The leader joins as a tank, the others choose their roles. *)
Definition joining : Mgr := JoinLfg (friend 11) (Some party) 2 {[1]} [] at_home.
Definition choose (m : Mgr) (e : Z * Z) : Mgr := UpdateRoleCheck group7 e.1 e.2 m.
Definition chosen : Mgr := foldl choose joining [(12, 4); (13, 8); (14, 8); (15, 8)].

Lemma reachable_choose l m : reachable 3 m ->
  forallb (fun e => (0 <=? e.2) && (e.2 <? 256)) l = true ->
  forallb (fun m => Z.of_nat (base.size (rc_roles (entry_at new_role_check (RoleChecksStore m) group7))) <? 255)
    (map (fun k => foldl choose m (take k l)) (seq 0 (length l))) = true ->
  reachable 3 (foldl choose m l).
Proof.
  revert m. induction l as [|e l IH]; intros m Hm Hb Hs; cbn [foldl]; [done|].
  cbn [forallb] in Hb. zbool. cbn [length seq map forallb take foldl] in Hs. rewrite <- seq_shift, map_map in Hs. zbool. apply IH; [|done|done].
  eapply reachable_step; [exact Hm|]. apply step_role; [unfold is_u; lia|]. intros rc Hrc.
  unfold entry_at in *. rewrite Hrc in *. cbn in *. lia.
Qed.
Lemma chosen_reachable : reachable 3 chosen.
Proof.
  apply reachable_choose; [|vm_compute; reflexivity..].
  eapply reachable_step; [eapply (reachable_step _ _ at_home); [apply reachable_new|now apply step_other]|].
  apply step_join; [unfold is_u; lia|]. split; vm_compute; reflexivity.
Qed.
Lemma reachable_invariant_witness : reachable 3 chosen /\ Inv chosen.
Proof. split; [exact chosen_reachable|]. exact (reachable_invariant sample_random 3 chosen chosen_reachable). Defined.
(** The update makes a proposal for the five. *)
Lemma Update_returns_witness : exists m',
  Update 0 chosen = Some m' /\ map (fun e => keys Z.le (p_players e.2)) (entries Z.le (ProposalsStore m')) = [friends].
Proof.
  destruct (Update_returns sample_random 3 chosen 0 chosen_reachable) as (m' & E & _). exists m'. split; [exact E|].
  assert (H : map (fun e => keys Z.le (p_players e.2)) (entries Z.le (ProposalsStore (default chosen (Update 0 chosen)))) = [friends])
    by (vm_compute; reflexivity).
  now rewrite E in H.
Defined.
