(* ===== verification/LfgScripts.v ===== *)
(** * Dungeon finder: in and out of the dungeon, and the hooks of the group code
    (src/server/game/DungeonFinding/LFGMgr.cpp, TeleportPlayer and FinishDungeon,
    and LFGScripts.cpp)

    What the operations ask of a player or a group is a record; positions are the
    bits of floats that are handed on.

    The claims: a dungeon is rewarded once; over all hooks and operations a player
    who is noted with a group is one of its members. *)

From stdpp Require Import base gmap list.
From Stdlib Require Import ZArith Lia.
From S2P Require Import Prelude StdMap Util ObjectGuid LfgRoles LfgData LfgDungeons LfgQueue LfgMgr.
#[local] Open Scope Z_scope.

Import LFGMgr.

Definition LFG_TELEPORTERROR_OK : Z := 0.
Definition LFG_TELEPORTERROR_PLAYER_DEAD : Z := 1.
Definition LFG_TELEPORTERROR_FALLING : Z := 2.
Definition LFG_TELEPORTERROR_IN_VEHICLE : Z := 3.
Definition LFG_TELEPORTERROR_FATIGUE : Z := 4.
Definition LFG_TELEPORTERROR_INVALID_LOCATION : Z := 6.
Definition LFG_TELEPORTERROR_CHARMING : Z := 8.
Definition LFG_SPELL_DUNGEON_COOLDOWN : Z := 71328.
Definition LFG_SPELL_DUNGEON_DESERTER : Z := 71041.
Definition LFG_SPELL_LUCK_OF_THE_DRAW : Z := 72221.

(** A member of a group who is in the game, and where. *)
Record Place := mkPlace { pl_guid : Z; pl_map : Z; pl_x : Z; pl_y : Z; pl_z : Z; pl_o : Z }.
Record GroupView := mkGroupView {
  gv_guid : Z; gv_leader : Z; gv_isLFG : bool; gv_count : Z; gv_members : list Place
}.
(** A player who is to be teleported. *)
Record Traveller := mkTraveller {
  tr_guid : Z; tr_map : Z; tr_alive : bool; tr_falling : bool; tr_fatigue : bool; tr_vehicle : bool; tr_charming : bool;
  tr_in_dungeon : bool;   (** [GetMap()->IsDungeon()] *)
  tr_in_flight : bool;
  tr_teleports : bool     (** what [TeleportTo] returns *)
}.

(** ** Teleporting *)

Definition dungeon_of_group (grp : option GroupView) (m : Mgr) : option LFGDungeonData :=
  match grp with
  | Some g => if gv_isLFG g then GetLFGDungeon (tables m) (GetDungeon m (gv_guid g) true) else None
  | None => None
  end.
(** The first member inside; the loop is only entered while no map is chosen. *)
Definition destination (player : Traveller) (members : list Place) (fromOpcode : bool) (d : LFGDungeonData) : Place :=
  let entrance := mkPlace 0 (d_map d) (d_x d) (d_y d) (d_z d) (d_o d) in
  if negb fromOpcode && (d_map d =? 0)
  then default entrance (List.find (fun p => negb (pl_guid p =? tr_guid player) && (pl_map p =? d_map d)) members)
  else entrance.
Definition teleport_error (player : Traveller) (d : LFGDungeonData) : Z :=
  if negb (tr_alive player) then LFG_TELEPORTERROR_PLAYER_DEAD
  else if tr_falling player then LFG_TELEPORTERROR_FALLING
  else if tr_fatigue player then LFG_TELEPORTERROR_FATIGUE
  else if tr_vehicle player then LFG_TELEPORTERROR_IN_VEHICLE
  else if tr_charming player then LFG_TELEPORTERROR_CHARMING
  else if negb (tr_map player =? d_map d)
  then if tr_teleports player then LFG_TELEPORTERROR_OK else LFG_TELEPORTERROR_INVALID_LOCATION
  else LFG_TELEPORTERROR_INVALID_LOCATION.
(** The player is moved only when nothing speaks against it. *)
Definition teleport_in (player : Traveller) (members : list Place) (fromOpcode : bool) (d : LFGDungeonData) (m : Mgr) : Mgr :=
  let guid := tr_guid player in
  if tr_alive player && negb (tr_falling player) && negb (tr_fatigue player) && negb (tr_vehicle player)
     && negb (tr_charming player) && negb (tr_map player =? d_map d)
  then
    let p := destination player members fromOpcode d in
    let m := if negb (tr_in_dungeon player) then emit (SetBattlegroundEntryPoint guid) m else m in
    let m := if tr_in_flight player then emit (LeaveFlight guid) m else m in
    emit (TeleportTo guid (pl_map p) (pl_x p) (pl_y p) (pl_z p) (pl_o p)) m
  else m.
Definition TeleportPlayer (player : Traveller) (grp : option GroupView) (out fromOpcode : bool) (m : Mgr) : Mgr :=
  let guid := tr_guid player in
  match dungeon_of_group grp m with
  | None => emit (Sent guid (TeleportError LFG_TELEPORTERROR_INVALID_LOCATION)) m
  | Some d =>
    if out then (if tr_map player =? d_map d then emit (TeleportToBGEntryPoint guid) m else m)
    else
      let m := teleport_in player (match grp with Some g => gv_members g | None => [] end) fromOpcode d m in
      let error := teleport_error player d in
      if negb (error =? LFG_TELEPORTERROR_OK) then emit (Sent guid (TeleportError error)) m else m
  end.

(** ** The end of a dungeon *)

(** A player in the game, for the rewards. *)
Record Finisher := mkFinisher { fi_map : Z; fi_mapId : Z; fi_level : Z; fi_can_reward : Z -> bool }.

Section Finish.
Context (FindPlayer : Z -> option Finisher) (has_quest : Z -> bool).

Definition give_reward (gguid dungeonId guid : Z) (player : Finisher) (dungeon : LFGDungeonData) (rDungeonId : Z) (m : Mgr) : Mgr :=
  let m := if difficulty dungeon =? DUNGEON_DIFFICULTY_HEROIC then emit (LfgAchievement guid) m else m in
  match GetRandomDungeonReward (tables m) rDungeonId (fi_level player) with
  | None => m
  | Some reward =>
    if negb (has_quest (firstQuest reward)) then m
    else
      let done := negb (fi_can_reward player (firstQuest reward)) in
      let quest := if done then otherQuest reward else firstQuest reward in
      if done && negb (has_quest quest) then m
      else emit (Sent guid (PlayerReward (Entry dungeon) (GetDungeon m gguid false) done quest))
             (emit (RewardQuest guid quest) m)
  end.
Definition finish_player (gguid dungeonId currMap : Z) (m : Mgr) (guid : Z) : Mgr :=
  if bool_decide (GetState m guid = LFG_STATE_FINISHED_DUNGEON) then m
  else
    let rDungeonId := default 0 (head (set_order Z.le (GetSelectedDungeons m guid))) in
    let m := SetState guid LFG_STATE_FINISHED_DUNGEON m in
    match GetLFGDungeon (tables m) rDungeonId with
    | None => m
    | Some dungeon =>
      if negb (d_type dungeon =? LFG_TYPE_RANDOM) && negb (seasonal dungeon) then m
      else
        match FindPlayer guid with
        | None => m
        | Some player =>
          if negb (fi_map player =? currMap) then m
          else
            let mapId := match GetLFGDungeon (tables m) dungeonId with Some d => d_map d | None => 0 end in
            if negb (fi_mapId player =? mapId) then m
            else give_reward gguid dungeonId guid player dungeon rDungeonId m
        end
    end.
Definition FinishDungeon (gguid dungeonId currMap : Z) (m : Mgr) : Mgr :=
  if negb (GetDungeon m gguid true =? dungeonId) then m
  else if bool_decide (GetState m gguid = LFG_STATE_FINISHED_DUNGEON) then m
  else
    let m := SetState gguid LFG_STATE_FINISHED_DUNGEON m in
    foldl (finish_player gguid dungeonId currMap) m (set_order Z.le (GetPlayers m gguid)).
End Finish.

(** ** The hooks *)

Inductive RemoveMethod :=
| GROUP_REMOVEMETHOD_DEFAULT | GROUP_REMOVEMETHOD_KICK | GROUP_REMOVEMETHOD_LEAVE | GROUP_REMOVEMETHOD_KICK_LFG.
#[export] Instance RemoveMethod_eq_dec : EqDecision RemoveMethod.
Proof. solve_decision. Defined.

Section Hooks.
Context {world : LfgWorld}.

(** All hooks but [OnMapChanged] do nothing when the finder is disabled. *)
Definition lfg_enabled (m : Mgr) : bool := isOptionEnabled m (Z.lor LFG_OPTION_ENABLE_DUNGEON_FINDER LFG_OPTION_ENABLE_RAID_BROWSER).

Definition OnLogout (guid : Z) (in_group : bool) (m : Mgr) : option Mgr :=
  if negb (lfg_enabled m) then Some m
  else if negb in_group then LeaveLfg guid (emit (Sent guid (LfrList false)) m) else Some m.
Definition OnLogin (guid : Z) (grp : option GroupView) (team : Z) (m : Mgr) : Mgr :=
  if negb (lfg_enabled m) then m
  else
    let m := match grp with
             | Some g => if negb (GetGroup m guid =? gv_guid g) then SetupGroupMember guid (gv_guid g) m else m
             | None => m
             end in
    SetTeam guid team m.
Definition OnMapChanged (guid map diff : Z) (grp : option GroupView) (m : Mgr) : option Mgr :=
  if inLfgDungeonMap m guid map diff then
    match grp with
    | None =>
      match LeaveLfg guid m with
      | None => None
      | Some m => Some (emit (TeleportHome guid) (emit (RemoveAuras guid LFG_SPELL_LUCK_OF_THE_DRAW) m))
      end
    | Some g =>
      let m := foldl (fun m p => emit (NameQuery guid (pl_guid p)) m) m (gv_members g) in
      Some (if selectedRandomLfgDungeon m guid then emit (CastSpell guid LFG_SPELL_LUCK_OF_THE_DRAW) m else m)
    end
  else
    let left := match grp with
                | Some g => if gv_count g =? 1
                            then match LeaveLfg (gv_guid g) m with
                                 | Some m => Some (emit (Disband (gv_guid g)) m)
                                 | None => None
                                 end
                            else Some m
                | None => Some m
                end in
    match left with
    | None => None
    | Some m => Some (emit (RemoveAuras guid LFG_SPELL_LUCK_OF_THE_DRAW) m)
    end.

Definition OnAddMember (gguid leader guid : Z) (m : Mgr) : option Mgr :=
  if negb (lfg_enabled m) then Some m
  else
    let joined :=
      if leader =? guid then Some (SetLeader gguid guid m)
      else
        let gstate := GetState m gguid in
        let state := GetState m guid in
        match (if bool_decide (state = LFG_STATE_QUEUED) then LeaveLfg guid m else Some m) with
        | None => None
        | Some m => if bool_decide (gstate = LFG_STATE_QUEUED) then LeaveLfg gguid m else Some m
        end in
    match joined with
    | None => None
    | Some m => Some (AddPlayerToGroup gguid guid (SetGroup guid gguid m))
    end.

(** The player who was removed, when in the game, and the group as he sees it. *)
Definition removed_player (method : RemoveMethod) (state : LfgState) (players : Z) (isLFG : bool) (guid : Z)
    (player : option (Traveller * option GroupView)) (m : Mgr) : Mgr :=
  match player with
  | None => m
  | Some (p, grp) =>
    let m := if bool_decide (method = GROUP_REMOVEMETHOD_LEAVE) && bool_decide (state = LFG_STATE_DUNGEON)
                && (LFG_GROUP_KICK_VOTES_NEEDED <=? players)
             then emit (CastSpell guid LFG_SPELL_DUNGEON_DESERTER) m else m in
    let m := emit (Sent guid (UpdateParty (update LFG_UPDATETYPE_LEADER_UNK1))) m in
    if isLFG && tr_in_dungeon p then TeleportPlayer p grp true false m else m
  end.
Definition OnRemoveMember (gguid : Z) (isLFG : bool) (guid : Z) (method : RemoveMethod) (kicker : Z)
    (why : option (list Z)) (player : option (Traveller * option GroupView)) (m : Mgr) : option Mgr :=
  if negb (lfg_enabled m) then Some m
  else if isLFG && bool_decide (method = GROUP_REMOVEMETHOD_KICK) then Some (InitBoot gguid kicker guid (default [] why) m)
  else
    let state := GetState m gguid in
    if bool_decide (state = LFG_STATE_PROPOSAL) && bool_decide (method = GROUP_REMOVEMETHOD_DEFAULT)
    then Some (RemovePlayerFromGroup gguid guid (SetGroup guid 0 m)).2
    else
      match LeaveLfg guid m with
      | None => None
      | Some m =>
        let '(players, m) := RemovePlayerFromGroup gguid guid (SetGroup guid 0 m) in
        let m := removed_player method state players isLFG guid player m in
        Some (if isLFG && negb (bool_decide (state = LFG_STATE_FINISHED_DUNGEON))
              then send (GetLeader m gguid) (OfferContinue (GetDungeon m gguid false)) m else m)
      end.
Definition OnDisband (gguid : Z) (m : Mgr) : Mgr := if negb (lfg_enabled m) then m else RemoveGroupData gguid m.
Definition OnChangeLeader (gguid newLeader : Z) (m : Mgr) : Mgr := if negb (lfg_enabled m) then m else SetLeader gguid newLeader m.
Definition OnInviteMember (gguid leader : Z) (m : Mgr) : option Mgr :=
  if negb (lfg_enabled m) then Some m
  else if negb (leader =? 0) && (gguid =? 0) then LeaveLfg leader m else Some m.
End Hooks.

(** ** A dungeon is rewarded once *)

Section Rewards.
Context (FindPlayer : Z -> option Finisher) (has_quest : Z -> bool).

Definition is_reward (guid : Z) (e : event) : bool := match e with RewardQuest g _ => g =? guid | _ => false end.
Definition rewarded (guid : Z) (m : Mgr) : nat := length (filter (fun e => is_reward guid e = true) (trace m)).
Lemma rewarded_emit guid e m : rewarded guid (emit e m) = (rewarded guid m + if is_reward guid e then 1 else 0)%nat.
Proof.
  unfold rewarded. cbn. rewrite filter_app, length_app. f_equal. rewrite filter_cons. destruct (is_reward guid e); [|done].
  now rewrite decide_True.
Qed.
Lemma rewarded_people guid g st m : rewarded guid (SetState g st m) = rewarded guid m.
Proof. unfold SetState. now case_if. Qed.

Lemma give_reward_once guid gguid d g p dun r m : let m' := give_reward has_quest gguid d g p dun r m in
  (rewarded guid m' <= rewarded guid m + if Z.eqb guid g then 1 else 0)%nat /\ only_people m m' /\
  (forall x, player_of m' x = player_of m x) /\ (forall x, group_of m' x = group_of m x).
Proof.
  unfold give_reward. set (m1 := if difficulty dun =? _ then _ else m).
  assert (H1 : rewarded guid m1 = rewarded guid m /\ only_people m m1 /\ (forall x, player_of m1 x = player_of m x)
               /\ (forall x, group_of m1 x = group_of m x)).
  { unfold m1. case_if; [|now split_and!]. rewrite rewarded_emit. cbn. split_and!; [lia|now split|done|done]. }
  destruct H1 as (Er & Hpe & Hp & Hg). destruct (GetRandomDungeonReward _ _ _) as [rw|]; [|split_and!; [lia|done..]].
  case_if; [split_and!; [lia|done..]|]. cbn zeta. case_if; [split_and!; [lia|done..]|]. split_and!; [|people; done|done|done].
  rewrite !rewarded_emit. cbn [is_reward]. rewrite Er. rewrite (Z.eqb_sym g). case_if; lia.
Qed.

Definition finished (m : Mgr) (guid : Z) : Prop := GetState m guid = LFG_STATE_FINISHED_DUNGEON.
#[export] Instance finished_dec m guid : Decision (finished m guid).
Proof. unfold finished. apply _. Defined.
Lemma finish_player_once gguid d map m g x : IS_GROUP_GUID g = false -> IS_GROUP_GUID gguid = true ->
  let m' := finish_player FindPlayer has_quest gguid d map m g in
  (rewarded x m' <= rewarded x m + if Z.eqb x g && negb (bool_decide (finished m x)) then 1 else 0)%nat /\
  (finished m x -> finished m' x) /\ (finished m gguid -> finished m' gguid) /\ (x <> g -> GetState m' x = GetState m x).
Proof.
  intros Hg Hgr. unfold finish_player. case_bool_decide as Ef; [split_and!; [lia|done..]|].
  cbn zeta. set (m1 := SetState g LFG_STATE_FINISHED_DUNGEON m).
  assert (H1 : forall m2, rewarded x m2 = rewarded x m1 \/ (rewarded x m2 <= rewarded x m1 + if Z.eqb x g then 1 else 0)%nat ->
    (forall y, player_of m2 y = player_of m1 y) -> (forall y, group_of m2 y = group_of m1 y) ->
    (rewarded x m2 <= rewarded x m + if Z.eqb x g && negb (bool_decide (finished m x)) then 1 else 0)%nat /\
    (finished m x -> finished m2 x) /\ (finished m gguid -> finished m2 gguid) /\ (x <> g -> GetState m2 x = GetState m x)).
  { intros m2 Hr Hp Hq. assert (Hst : forall y, GetState m2 y = if decide (y = g) then LFG_STATE_FINISHED_DUNGEON else GetState m y).
    { intros y. transitivity (GetState m1 y); [unfold GetState; case_if; [now rewrite Hq|now rewrite Hp]|].
      unfold m1. rewrite SetState_player by done. unfold GetState. case_decide as E.
      - subst y. rewrite Hg. rewrite player_of_on_player, decide_True by done. apply player_set_state.
      - case_if; [done|]. now rewrite player_of_on_player, decide_False. }
    assert (E1 : rewarded x m1 = rewarded x m) by apply rewarded_people. rewrite E1 in Hr. split_and!.
    - destruct (Z.eqb_spec x g) as [->|Hne]; cbn [andb]; [|lia]. rewrite bool_decide_eq_false_2 by exact Ef. cbn. lia.
    - unfold finished. rewrite Hst. now case_decide.
    - unfold finished. rewrite Hst. now case_decide.
    - intros Hne. rewrite Hst. now rewrite decide_False. }
  destruct (GetLFGDungeon _ _) as [dun|]; [|apply H1; auto]. case_if; [apply H1; auto|].
  destruct (FindPlayer g) as [p|]; [|apply H1; auto]. case_if; [apply H1; auto|]. case_if; [apply H1; auto|].
  destruct (give_reward_once x gguid d g p dun (default 0 (head (set_order Z.le (GetSelectedDungeons m g)))) m1) as (? & _ & ? & ?).
  apply H1; auto.
Qed.

Lemma finish_players_once gguid d map l m x : (forall g, g ∈ l -> IS_GROUP_GUID g = false) -> IS_GROUP_GUID gguid = true -> NoDup l ->
  let m' := foldl (finish_player FindPlayer has_quest gguid d map) m l in
  (rewarded x m' <= rewarded x m + if bool_decide (x ∈ l) && negb (bool_decide (finished m x)) then 1 else 0)%nat /\
  (finished m gguid -> finished m' gguid).
Proof.
  intros Hl Hg Hn. revert m. induction Hn as [|g l Hni Hn IH]; intros m; cbn [foldl]; [split; [lia|done]|].
  destruct (finish_player_once gguid d map m g x (Hl g (list_elem_of_here _ _)) Hg) as (H1 & H2 & H3 & H4).
  destruct (IH (fun y Hy => Hl y (list_elem_of_further _ _ _ Hy)) (finish_player FindPlayer has_quest gguid d map m g)) as [H5 H6].
  split; [|auto]. destruct (Z.eqb_spec x g) as [->|Hne]; cbn [andb] in H1.
  - rewrite (bool_decide_eq_false_2 (g ∈ l)) in H5 by done. cbn [andb] in H5.
    rewrite (bool_decide_eq_true_2 (g ∈ g :: l)) by left. cbn [andb]. lia.
  - assert (Hfin : finished (finish_player FindPlayer has_quest gguid d map m g) x <-> finished m x) by (unfold finished; now rewrite H4).
    rewrite (bool_decide_ext _ _ Hfin) in H5.
    assert (Hin : x ∈ g :: l <-> x ∈ l) by (rewrite elem_of_cons; tauto). rewrite (bool_decide_ext _ _ Hin). lia.
Qed.

(** The end of a dungeon is rewarded once: reporting it again changes
    nothing, and each player is given at most one quest, none if he had finished
    before or is not of the group. *)
Theorem FinishDungeon_once gguid dungeonId currMap m :
  IS_GROUP_GUID gguid = true -> (forall g, g ∈ GetPlayers m gguid -> IS_GROUP_GUID g = false) ->
  let m' := FinishDungeon FindPlayer has_quest gguid dungeonId currMap m in
  FinishDungeon FindPlayer has_quest gguid dungeonId currMap m' = m' /\
  forall guid, (rewarded guid m' <= rewarded guid m +
    if bool_decide (guid ∈ GetPlayers m gguid) && negb (bool_decide (finished m guid)) then 1 else 0)%nat.
Proof.
  intros Hg Hpl m'. unfold m', FinishDungeon. destruct (GetDungeon m gguid true =? dungeonId) eqn:Ed; cbn [negb].
  2: { rewrite Ed. split; [done|]. lia. }
  case_bool_decide as Ef.
  { rewrite Ed. cbn [negb]. rewrite bool_decide_eq_true_2 by done. split; [done|]. lia. }
  cbn zeta. set (m1 := SetState gguid LFG_STATE_FINISHED_DUNGEON m).
  assert (Em : m1 = on_group (GroupData.SetState LFG_STATE_FINISHED_DUNGEON) gguid m) by now apply SetState_group.
  assert (Hplayers : GetPlayers m1 gguid = GetPlayers m gguid).
  { rewrite Em. unfold GetPlayers. now rewrite group_of_on_group, decide_True. }
  assert (Hf1 : finished m1 gguid).
  { unfold finished. rewrite GetState_group by done. rewrite Em, group_of_on_group, decide_True by done. apply group_set_state. }
  rewrite Hplayers. set (l := set_order Z.le (GetPlayers m gguid)).
  assert (Hl : forall x, x ∈ l <-> x ∈ GetPlayers m gguid) by (intros x; apply elem_of_set_order).
  assert (Hfold : forall x, _) by (intros x; exact (finish_players_once gguid dungeonId currMap l m1 x
    (fun y Hy => Hpl y (proj1 (Hl y) Hy)) Hg (NoDup_set_order Z.le _))). cbn zeta in Hfold.
  set (m2 := foldl _ m1 l) in *. split.
  - case_if; [done|]. rewrite bool_decide_eq_true_2; [done|]. now apply (Hfold 0).
  - intros x. destruct (Hfold x) as [Hx _]. assert (E1 : rewarded x m1 = rewarded x m) by apply rewarded_people. rewrite E1 in Hx.
    rewrite (bool_decide_ext _ _ (Hl x)) in Hx. destruct (decide (x = gguid)) as [->|Hne].
    + destruct (bool_decide (gguid ∈ GetPlayers m gguid)) eqn:Eb; [|cbn [andb] in *; exact Hx].
      apply bool_decide_eq_true in Eb. apply Hpl in Eb. congruence.
    + assert (Hfin : finished m1 x <-> finished m x); [|now rewrite (bool_decide_ext _ _ Hfin) in Hx].
      unfold finished, GetState. rewrite Em. rewrite group_of_on_group, player_of_on_group. now rewrite decide_False.
Qed.
End Rewards.

(** ** The members of a group *)

(** The group of every player and the members of every group are the same. *)
Definition same_members (m m' : Mgr) : Prop :=
  (forall p, GetGroup m' p = GetGroup m p) /\ (forall g, GetPlayers m' g = GetPlayers m g).
#[export] Instance same_members_preorder : PreOrder same_members.
Proof. split; [now split|]. intros m1 m2 m3 [Hp Hg] [Hp' Hg']. split; intros x; [now rewrite Hp'|now rewrite Hg']. Qed.

Lemma members_stores m m' : PlayersStore m' = PlayersStore m -> GroupsStore m' = GroupsStore m -> same_members m m'.
Proof.
  intros Hp Hg. split; intros x; unfold GetGroup, GetPlayers, player_of, group_of; [now rewrite Hp|now rewrite Hg].
Qed.
Lemma members_on_player f g m : (forall d, PlayerData.m_Group (f d) = PlayerData.m_Group d) -> same_members m (on_player f g m).
Proof. intros Hf. split; intros x; [|done]. unfold GetGroup. rewrite player_of_on_player. case_decide; [subst; apply Hf|done]. Qed.
Lemma members_on_group f g m : (forall d, GroupData.m_Players (f d) = GroupData.m_Players d) -> same_members m (on_group f g m).
Proof. intros Hf. split; intros x; [done|]. unfold GetPlayers. rewrite group_of_on_group. case_decide; [subst; apply Hf|done]. Qed.
Lemma members_SetState g st m : same_members m (SetState g st m).
Proof. unfold SetState. case_if; [apply members_on_group|apply members_on_player]; now destruct st. Qed.
Lemma members_RestoreState g m : same_members m (RestoreState g m).
Proof. unfold RestoreState. case_if; [now apply members_on_group|now apply members_on_player]. Qed.
Lemma members_foldl {A} (f : Mgr -> A -> Mgr) l m : (forall m x, same_members m (f m x)) -> same_members m (foldl f m l).
Proof.
  intros Hf. revert m. induction l as [|x l IH]; intros m; cbn [foldl]; [reflexivity|]. etransitivity; [apply Hf|apply IH].
Qed.
(** [foldl] with a state that may be missing. *)
Lemma members_fold_some {A} (f : option Mgr -> A -> option Mgr) l m m' : (forall x, f None x = None) ->
  (forall m x m', f (Some m) x = Some m' -> same_members m m') -> foldl f (Some m) l = Some m' -> same_members m m'.
Proof.
  intros Hn Hf. revert m. induction l as [|x l IH]; intros m H; cbn [foldl] in H; [injection H as <-; reflexivity|].
  destruct (f (Some m) x) as [m1|] eqn:E; [|exfalso; clear - H Hn; induction l as [|y l IH]; cbn [foldl] in H; [done|]; rewrite Hn in H; auto].
  etransitivity; [exact (Hf m x m1 E)|now apply IH].
Qed.
Ltac members := cbn zeta; repeat match goal with
  | |- same_members ?m ?m => reflexivity
  | |- same_members _ (if ?b then _ else _) => destruct b
  | |- same_members _ (match ?c with _ => _ end) => destruct c
  | |- same_members _ (send _ _ _) => unfold send
  | |- same_members _ (SetState _ _ _) => etransitivity; [|apply members_SetState]
  | |- same_members _ (RestoreState _ _) => etransitivity; [|apply members_RestoreState]
  | |- same_members _ (emit _ ?m) => etransitivity; [|apply (members_stores m); reflexivity]
  | |- same_members _ (with_role_checks ?m _) => etransitivity; [|apply (members_stores m); reflexivity]
  | |- same_members _ (with_proposals ?m _) => etransitivity; [|apply (members_stores m); reflexivity]
  | |- same_members _ (with_boots ?m _) => etransitivity; [|apply (members_stores m); reflexivity]
  | |- same_members _ (on_queue_at _ _ ?m) => etransitivity; [|apply (members_stores m); reflexivity]
  | |- same_members _ (with_timer ?m _) => etransitivity; [|apply (members_stores m); reflexivity]
  | |- same_members _ (SetRoles _ _ _) => etransitivity; [|now apply members_on_player]
  | |- same_members _ (SetComment _ _ _) => etransitivity; [|now apply members_on_player]
  | |- same_members _ (SetSelectedDungeons _ _ _) => etransitivity; [|now apply members_on_player]
  | |- same_members _ (DecreaseKicksLeft _ _) => etransitivity; [|now apply members_on_group]
  | |- same_members _ (SetLeader _ _ _) => etransitivity; [|now apply members_on_group]
  | |- same_members _ (SetTeam _ _ _) => etransitivity; [|now apply members_on_player]
  | |- same_members _ (foldl _ _ _) => etransitivity; [|apply members_foldl; intros]
  end; try reflexivity.

Section Members.
Context {world : LfgWorld}.

Lemma UpdateRoleCheck_members gguid guid roles m : same_members m (UpdateRoleCheck gguid guid roles m).
Proof. unfold UpdateRoleCheck, role_check_player. members. Qed.
Lemma RemoveProposal_members id ty m m' : RemoveProposal id ty m = Some m' -> same_members m m'.
Proof.
  unfold RemoveProposal. destruct (ProposalsStore m !! id) as [p|]; [|done]. destruct (mark_players _ _) as [players R].
  destruct (keys Z.le players); [done|]. cbn zeta. intros H. apply (inj Some) in H as <-. members.
  unfold notify_removed. members.
Qed.
Lemma accepted_members p i upd l t m ty' m' :
  foldl (accepted_player p i upd) (Some (t, m)) l = Some (ty', m') -> same_members m m'.
Proof.
  revert t m. induction l as [|[who q] l IH]; intros t m; cbn [foldl]; [intros H; apply (inj Some) in H; injection H as _ <-; reflexivity|].
  cbn [accepted_player]. destruct (set_order Z.le (GetSelectedDungeons m who)).
  { intros H. exfalso. clear - H. induction l as [|e l IH]; [done|]. apply IH, H. }
  cbn zeta. destruct (GetJoinTime _ _ _) as [joined qq]. intros H. apply IH in H. etransitivity; [|exact H]. members.
Qed.
Lemma UpdateProposal_members id guid a m m' : UpdateProposal id guid a m = Some m' -> same_members m m'.
Proof.
  unfold UpdateProposal. destruct (ProposalsStore m !! id) as [p|]; [|intros H; apply (inj Some) in H as <-; reflexivity].
  destruct (p_players p !! guid) as [pp|]; [|intros H; apply (inj Some) in H as <-; reflexivity].
  cbn zeta. destruct a; cbn [negb]; [|intros H; apply RemoveProposal_members in H; etransitivity; [|exact H]; members].
  destruct (negb _); [intros H; apply (inj Some) in H as <-; members|].
  destruct (foldl _ _ _) as [[ty' m3]|] eqn:Ef; [|done].
  assert (H3 : same_members m m3).
  { apply accepted_members in Ef. etransitivity; [|exact Ef]. members. }
  unfold MakeNewGroup. destruct (GetLFGDungeon _ _); [|done]. intros H. apply (inj Some) in H as <-. etransitivity; [exact H3|]. members.
Qed.
Lemma LeaveLfg_members guid m m' : LeaveLfg guid m = Some m' -> same_members m m'.
Proof.
  unfold LeaveLfg. destruct (GetState m guid); intros H;
    try (destruct (List.find _ _) as [[id p]|]; [apply RemoveProposal_members in H; etransitivity; [|exact H]; members|]);
    apply (inj Some) in H as <-; members; try apply UpdateRoleCheck_members.
Qed.
Lemma JoinLfg_members player grp roles ds comment m : same_members m (JoinLfg player grp roles ds comment m).
Proof.
  unfold JoinLfg. case_if; [reflexivity|]. cbn zeta.
  match goal with |- context [check_join ?mm _ _ _] => set (m1 := mm) end.
  assert (H1 : same_members m m1) by (unfold m1; members).
  case_if; [etransitivity; [exact H1|]; members|]. case_if; [etransitivity; [exact H1|]; members|].
  destruct grp as [g|]; [|etransitivity; [exact H1|]; unfold join_alone; members].
  etransitivity; [exact H1|]. unfold begin_role_check. cbn zeta.
  match goal with |- context [foldl ?f ?acc ?l] => assert (H2 : same_members acc.1 (foldl f acc l).1) end.
  { match goal with |- same_members ?acc.1 (foldl _ _ ?l).1 => generalize acc; generalize l end.
    intros l. induction l as [|j l IH]; intros [mm rs]; cbn [foldl]; [reflexivity|]. etransitivity; [|apply IH].
    unfold begin_member. cbn [fst]. members. }
  destruct (foldl _ _ _) as [m2 rs]. cbn [fst] in H2. etransitivity; [|apply UpdateRoleCheck_members].
  etransitivity; [|apply (members_stores m2); reflexivity]. etransitivity; [|exact H2]. members.
Qed.
Lemma InitBoot_members gguid kicker vict why m : same_members m (InitBoot gguid kicker vict why m).
Proof.
  unfold InitBoot. cbn zeta.
  match goal with |- context [foldl ?f ?acc ?l] => assert (H2 : same_members acc.1 (foldl f acc l).1) end.
  { match goal with |- same_members ?acc.1 (foldl _ _ ?l).1 => generalize acc; generalize l end.
    intros l. induction l as [|j l IH]; intros [mm v]; cbn [foldl]; [reflexivity|]. etransitivity; [|apply IH]. cbn [fst]. members. }
  destruct (foldl _ (SetState gguid LFG_STATE_BOOT m, _) _) as [m2 v]. cbn [fst] in H2. etransitivity; [etransitivity; [|exact H2]|]; members.
Qed.
Lemma UpdateBoot_members guid a m : same_members m (UpdateBoot guid a m).
Proof. unfold UpdateBoot. members. Qed.
Lemma Update_members diff m m' : Update diff m = Some m' -> same_members m m'.
Proof.
  unfold Update. case_if; [intros H; apply (inj Some) in H as <-; reflexivity|]. cbn zeta.
  match goal with |- context [foldl expire_role_check m ?l] => assert (H1 : same_members m (foldl expire_role_check m l)) end.
  { members. unfold expire_role_check, expired_check_player. destruct x. members. }
  set (m1 := foldl expire_role_check m _) in *. destruct (foldl expire_proposal _ _) as [m2|] eqn:E2; [|done].
  apply members_fold_some in E2; [|done|].
  2: { intros m0 e m0' H. unfold expire_proposal in H. case_if; [now apply RemoveProposal_members in H|]. apply (inj Some) in H as <-. reflexivity. }
  match goal with |- context [foldl expire_boot m2 ?l] => assert (H3 : same_members m2 (foldl expire_boot m2 l)) end.
  { members. unfold expire_boot. destruct x. members. }
  set (m3 := foldl expire_boot m2 _) in *. destruct (foldl find_groups_in _ _) as [m4|] eqn:E4; [|done].
  apply members_fold_some in E4; [|done|].
  2: { intros m0 i m0' H. unfold find_groups_in in H. destruct (FindGroups _) as [[n s]|]; [|done]. apply (inj Some) in H as <-. now apply members_stores. }
  assert (H14 : same_members m m4) by (etransitivity; [exact H1|]; etransitivity; [exact E2|]; etransitivity; [exact H3|exact E4]).
  match goal with |- context [match ?c with Some _ => _ | None => None end] => destruct c as [m5|] eqn:E5; [|done] end.
  assert (H5 : same_members m4 m5).
  { revert E5. case_if; [|intros H; apply (inj Some) in H as <-; reflexivity]. apply members_fold_some; [done|].
    intros m0 [id p] m0' H. unfold announce in H. cbn zeta in H.
    match type of H with context [foldl (announce_player p) m0 ?l] => assert (Ha : same_members m0 (foldl (announce_player p) m0 l)) end.
    { members. unfold announce_player. members. }
    case_if; [|apply (inj Some) in H as <-; exact Ha]. destruct (UpdateProposal _ _ _ _) as [m7|] eqn:E7; [|done].
    apply UpdateProposal_members in E7. case_if; [|done]. apply (inj Some) in H as <-. etransitivity; [exact Ha|exact E7]. }
  case_if.
  - intros H. apply members_fold_some in H; [|done|].
    + etransitivity; [exact H14|]. etransitivity; [exact H5|]. etransitivity; [|exact H]. now apply members_stores.
    + intros m0 i m0' H0. unfold update_queue_timers in H0. destruct (UpdateQueueTimers _ _) as [[sent q]|]; [|done].
      apply (inj Some) in H0 as <-. members.
  - intros H. apply (inj Some) in H as <-. etransitivity; [exact H14|]. etransitivity; [exact H5|]. members.
Qed.
Lemma FinishDungeon_members F q gguid d map m : same_members m (FinishDungeon F q gguid d map m).
Proof. unfold FinishDungeon. members. unfold finish_player, give_reward. members. Qed.
Lemma TeleportPlayer_members p grp out op m : same_members m (TeleportPlayer p grp out op m).
Proof. unfold TeleportPlayer, teleport_in. members. Qed.

(** A player who is noted with a group is noted among its members. *)
Definition members_ok (m : Mgr) : Prop :=
  forall p g, g <> 0 -> GetGroup m p = g -> p ∈ GetPlayers m g.
Lemma same_members_ok m m' : same_members m m' -> members_ok m -> members_ok m'.
Proof. intros [Hp Hg] Hm p g Hnz. rewrite Hp, Hg. now apply Hm. Qed.
Lemma members_none : members_ok (new_mgr 0).
Proof. intros p g Hg E. destruct Hg. rewrite <- E. reflexivity. Qed.

Lemma GetGroup_SetGroup guid g m p : GetGroup (SetGroup guid g m) p = if decide (p = guid) then g else GetGroup m p.
Proof. unfold GetGroup, SetGroup. rewrite player_of_on_player. now case_decide. Qed.
Lemma GetPlayers_SetGroup guid g m x : GetPlayers (SetGroup guid g m) x = GetPlayers m x.
Proof. done. Qed.
Lemma GetPlayers_Add gguid guid m x :
  GetPlayers (AddPlayerToGroup gguid guid m) x = if decide (x = gguid) then {[guid]} ∪ GetPlayers m x else GetPlayers m x.
Proof. unfold GetPlayers, AddPlayerToGroup. rewrite group_of_on_group. now case_decide; subst. Qed.
Lemma GetPlayers_Remove gguid guid m x :
  GetPlayers (RemovePlayerFromGroup gguid guid m).2 x = if decide (x = gguid) then GetPlayers m x ∖ {[guid]} else GetPlayers m x.
Proof. unfold GetPlayers, RemovePlayerFromGroup. cbn [snd]. rewrite group_of_on_group. now case_decide; subst. Qed.

Lemma add_member_ok gguid guid m : members_ok m -> members_ok (AddPlayerToGroup gguid guid (SetGroup guid gguid m)).
Proof.
  intros Hm p g Hnz. change (GetGroup (AddPlayerToGroup gguid guid (SetGroup guid gguid m)) p) with (GetGroup (SetGroup guid gguid m) p).
  rewrite GetGroup_SetGroup, GetPlayers_Add, GetPlayers_SetGroup. destruct (decide (p = guid)) as [Ep|Ep]; intros Eg.
  - subst. rewrite decide_True by done. set_solver.
  - specialize (Hm p g Hnz Eg). case_decide; set_solver.
Qed.
Lemma remove_member_ok gguid guid m : members_ok m -> members_ok (RemovePlayerFromGroup gguid guid (SetGroup guid 0 m)).2.
Proof.
  intros Hm p g Hnz. change (GetGroup (RemovePlayerFromGroup gguid guid (SetGroup guid 0 m)).2 p) with (GetGroup (SetGroup guid 0 m) p).
  rewrite GetGroup_SetGroup, GetPlayers_Remove, GetPlayers_SetGroup. destruct (decide (p = guid)) as [Ep|Ep]; intros Eg; [now destruct Hnz|].
  specialize (Hm p g Hnz Eg). case_decide; set_solver.
Qed.
Lemma SetupGroupMember_ok guid gguid m : members_ok m -> members_ok (SetupGroupMember guid gguid m).
Proof.
  intros Hm. unfold SetupGroupMember. cbn zeta. apply add_member_ok. apply (same_members_ok m); [members|done].
Qed.

Lemma remove_members_walk st l m :
  let m' := foldl (remove_group_member st) m l in
  (forall p, GetGroup m' p = if decide (p ∈ l) then 0 else GetGroup m p) /\ (forall g, GetPlayers m' g = GetPlayers m g).
Proof.
  revert m. induction l as [|x l IH]; intros m; cbn [foldl].
  { split; [intros p; now rewrite decide_False by apply not_elem_of_nil|done]. }
  destruct (IH (remove_group_member st m x)) as [H1 H2].
  assert (Hs : same_members (SetGroup x 0 m) (remove_group_member st m x)) by (unfold remove_group_member; members).
  destruct Hs as [Hp Hg]. split.
  - intros p. rewrite H1, Hp, GetGroup_SetGroup. destruct (decide (p ∈ l)) as [Hin|Hin].
    + now rewrite decide_True by now right.
    + destruct (decide (p = x)) as [->|Hne]; [now rewrite decide_True by left|].
      rewrite decide_False; [done|]. now intros [|]%elem_of_cons.
  - intros g. now rewrite H2, Hg.
Qed.
Lemma RemoveGroupData_ok gguid m : members_ok m -> members_ok (RemoveGroupData gguid m).
Proof.
  intros Hm. unfold RemoveGroupData. destruct (GroupsStore m !! gguid) as [d|] eqn:Ed; [|done].
  destruct (remove_members_walk (GetState m gguid) (set_order Z.le (GroupData.m_Players d)) m) as [H1 H2].
  set (m1 := foldl _ m _) in *. intros p g Hnz Eg.
  change (GetGroup m1 p = g) in Eg. rewrite H1 in Eg. case_decide as Hin; [now destruct Hnz|]. rewrite elem_of_set_order in Hin.
  assert (Hne : g <> gguid).
  { intros ->. apply Hin. specialize (Hm p gguid Hnz Eg). unfold GetPlayers, group_of, entry_at in Hm. now rewrite Ed in Hm. }
  assert (E : GetPlayers (with_groups m1 (delete gguid (GroupsStore m1))) g = GetPlayers m1 g).
  { unfold GetPlayers, group_of, entry_at. cbn. now rewrite lookup_delete_ne. }
  rewrite E, H2. now apply Hm.
Qed.

(** Everything that changes the manager: its operations and the hooks. *)
Inductive change : Mgr -> Mgr -> Prop :=
| do_join player grp roles ds comment m : change m (JoinLfg player grp roles ds comment m)
| do_leave guid m m' : LeaveLfg guid m = Some m' -> change m m'
| do_role gguid guid roles m : change m (UpdateRoleCheck gguid guid roles m)
| do_answer id guid a m m' : UpdateProposal id guid a m = Some m' -> change m m'
| do_boot gguid kicker vict why m : change m (InitBoot gguid kicker vict why m)
| do_vote guid a m : change m (UpdateBoot guid a m)
| do_update diff m m' : Update diff m = Some m' -> change m m'
| do_finish F q gguid d map m : change m (FinishDungeon F q gguid d map m)
| do_teleport p grp out op m : change m (TeleportPlayer p grp out op m)
| do_comment guid c m : change m (SetComment guid c m)
| do_options o m : change m (SetOptions o m)
| do_clean m : change m (Clean m)
| do_setup guid gguid m : change m (SetupGroupMember guid gguid m)
| do_load row guid m : change m (LoadFromDB row guid m)
| on_logout guid b m m' : OnLogout guid b m = Some m' -> change m m'
| on_login guid grp team m : change m (OnLogin guid grp team m)
| on_map guid map diff grp m m' : OnMapChanged guid map diff grp m = Some m' -> change m m'
| on_add gguid leader guid m m' : OnAddMember gguid leader guid m = Some m' -> change m m'
| on_remove gguid isLFG guid method kicker why p m m' :
    OnRemoveMember gguid isLFG guid method kicker why p m = Some m' -> change m m'
| on_disband gguid m : change m (OnDisband gguid m)
| on_leader gguid guid m : change m (OnChangeLeader gguid guid m)
| on_invite gguid leader m m' : OnInviteMember gguid leader m = Some m' -> change m m'.

Lemma OnAddMember_ok gguid leader guid m m' : OnAddMember gguid leader guid m = Some m' -> members_ok m -> members_ok m'.
Proof.
  intros H Hm. unfold OnAddMember in H. case_if; [injection H as <-; exact Hm|]. cbn zeta in H.
  match type of H with match ?c with _ => _ end = _ => assert (Hj : forall m1, c = Some m1 -> same_members m m1); [|destruct c as [m1|]; [|done]] end.
  { intros m1. case_if; [intros E1'; apply (inj Some) in E1' as <-; members|].
    match goal with |- match ?c with _ => _ end = _ -> _ => assert (Hl : forall m2, c = Some m2 -> same_members m m2); [|destruct c as [m2|]; [|done]] end.
    { intros m2. case_if; [apply LeaveLfg_members|intros E1'; apply (inj Some) in E1' as <-; reflexivity]. }
    specialize (Hl m2 eq_refl). case_if; intros Em2; [apply LeaveLfg_members in Em2; etransitivity; [exact Hl|exact Em2]|].
    apply (inj Some) in Em2 as <-. exact Hl. }
  apply (inj Some) in H as <-. apply add_member_ok. now apply (same_members_ok m), Hm; apply Hj.
Qed.
Lemma OnRemoveMember_ok gguid isLFG guid method kicker why p m m' :
  OnRemoveMember gguid isLFG guid method kicker why p m = Some m' -> members_ok m -> members_ok m'.
Proof.
  intros H Hm. unfold OnRemoveMember in H. case_if; [injection H as <-; exact Hm|].
  case_if; [apply (inj Some) in H as <-; apply (same_members_ok m); [apply InitBoot_members|exact Hm]|]. cbn zeta in H.
  case_if; [apply (inj Some) in H as <-; now apply remove_member_ok|].
  destruct (LeaveLfg guid m) as [m1|] eqn:El; [|done]. apply LeaveLfg_members in El.
  pose proof (remove_member_ok gguid guid m1 (same_members_ok m m1 El Hm)) as H1.
  destruct (RemovePlayerFromGroup gguid guid (SetGroup guid 0 m1)) as [players m2]. cbn [snd] in H1. apply (inj Some) in H as <-.
  apply (same_members_ok m2); [|exact H1].
  assert (Hr : same_members m2 (removed_player method (GetState m gguid) players isLFG guid p m2)).
  { unfold removed_player. members; (etransitivity; [|apply TeleportPlayer_members]; members). }
  etransitivity; [exact Hr|]. members.
Qed.
Lemma OnMapChanged_members guid map diff grp m m' : OnMapChanged guid map diff grp m = Some m' -> same_members m m'.
Proof.
  unfold OnMapChanged. case_if.
  - destruct grp as [g|]; [intros H; apply (inj Some) in H as <-; members|].
    destruct (LeaveLfg guid m) as [m1|] eqn:El; [|done]. apply LeaveLfg_members in El. intros H. apply (inj Some) in H as <-.
    etransitivity; [exact El|]. members.
  - cbn zeta. match goal with |- match ?c with _ => _ end = _ -> _ => assert (Hl : forall m2, c = Some m2 -> same_members m m2); [|destruct c as [m2|]; [|done]] end.
    { intros m2. destruct grp as [g|]; [|intros H; apply (inj Some) in H as <-; reflexivity].
      case_if; [|intros H; apply (inj Some) in H as <-; reflexivity]. destruct (LeaveLfg (gv_guid g) m) as [m1|] eqn:El; [|done].
      apply LeaveLfg_members in El. intros H. apply (inj Some) in H as <-. etransitivity; [exact El|]. members. }
    intros H. apply (inj Some) in H as <-. etransitivity; [apply (Hl m2 eq_refl)|]. members.
Qed.
Lemma OnLogin_ok guid grp team m : members_ok m -> members_ok (OnLogin guid grp team m).
Proof.
  intros Hm. unfold OnLogin. case_if; [done|]. cbn zeta.
  match goal with |- members_ok (SetTeam _ _ ?mm) => assert (H1 : members_ok mm) end.
  { destruct grp as [g|]; [|done]. case_if; [now apply SetupGroupMember_ok|done]. }
  eapply same_members_ok; [|exact H1]. members.
Qed.
Lemma LoadFromDB_members row guid m : same_members m (LoadFromDB row guid m).
Proof.
  unfold LoadFromDB. destruct row as [[[leader d] st]|]; [|reflexivity]. case_if; [reflexivity|]. cbn zeta.
  assert (H : forall m, same_members m (SetDungeon guid d m)) by (intros; now apply members_on_group).
  case_if; [members|]. destruct (LfgState_of st) as [[]|]; members; (etransitivity; [|apply H]; members).
Qed.

(** C29. Over every sequence of operations and hooks of the dungeon finder, a
    player who is noted with a group is noted among its members: the two stores
    that say who belongs where do not drift apart. *)
Theorem members_invariant m m' : members_ok m -> rtc change m m' -> members_ok m'.
Proof.
  intros Hm. induction 1 as [|m m1 m' Hs _ IH]; [done|]. apply IH. clear IH.
  destruct Hs.
  - apply (same_members_ok m); [|exact Hm]. apply JoinLfg_members.
  - apply (same_members_ok m); [|exact Hm]. now apply (LeaveLfg_members guid).
  - apply (same_members_ok m); [|exact Hm]. apply UpdateRoleCheck_members.
  - apply (same_members_ok m); [|exact Hm]. now apply (UpdateProposal_members id guid a).
  - apply (same_members_ok m); [|exact Hm]. apply InitBoot_members.
  - apply (same_members_ok m); [|exact Hm]. apply UpdateBoot_members.
  - apply (same_members_ok m); [|exact Hm]. now apply (Update_members diff).
  - apply (same_members_ok m); [|exact Hm]. apply FinishDungeon_members.
  - apply (same_members_ok m); [|exact Hm]. apply TeleportPlayer_members.
  - apply (same_members_ok m); [|exact Hm]. members.
  - apply (same_members_ok m); [|exact Hm]. now apply members_stores.
  - apply (same_members_ok m); [|exact Hm]. now apply members_stores.
  - now apply SetupGroupMember_ok.
  - apply (same_members_ok m); [|exact Hm]. apply LoadFromDB_members.
  - apply (same_members_ok m); [|exact Hm]. unfold OnLogout in H. case_if; [apply (inj Some) in H as <-; reflexivity|]. case_if; [|apply (inj Some) in H as <-; reflexivity].
    apply LeaveLfg_members in H. etransitivity; [|exact H]. members.
  - now apply OnLogin_ok.
  - apply (same_members_ok m); [|exact Hm]. now apply (OnMapChanged_members guid map diff grp).
  - now apply (OnAddMember_ok gguid leader guid m).
  - now apply (OnRemoveMember_ok gguid isLFG guid method kicker why p m).
  - unfold OnDisband. case_if; [done|]. now apply RemoveGroupData_ok.
  - apply (same_members_ok m); [|exact Hm]. unfold OnChangeLeader. members.
  - apply (same_members_ok m); [|exact Hm]. unfold OnInviteMember in H. case_if; [apply (inj Some) in H as <-; reflexivity|].
    case_if; [now apply (LeaveLfg_members leader)|apply (inj Some) in H as <-; reflexivity].
Qed.
End Members.

(** ** Instances *)

#[local] Existing Instance sample_world.
(** Three players of group 7 in dungeon 1, which was chosen as a random dungeon;
    player 3 is not in the game. *)
Definition in_dungeon : Mgr :=
  let m := SetDungeon group7 1 (with_group group7 LFG_STATE_DUNGEON [1; 2; 3] (new_mgr 3)) in
  mkMgr 0 3 1 0 (mkDungeons {[1 := mkLFGDungeonData 1 [] 33 LFG_TYPE_RANDOM 0 0 0 80 1 false 0 0 0 0]} ∅ [(1, mkLfgReward 80 500 501)])
    ∅ ∅ ∅ ∅ (PlayersStore m) (GroupsStore m) [].
Definition at_place (guid : Z) : option Finisher :=
  if guid =? 3 then None else Some (mkFinisher 7 33 80 (fun _ => guid =? 1)).
Lemma FinishDungeon_once_witness :
  let m' := FinishDungeon at_place (fun _ => true) group7 1 7 in_dungeon in
  FinishDungeon at_place (fun _ => true) group7 1 7 m' = m' /\
  omap (fun e => match e with RewardQuest g q => Some (g, q) | _ => None end) (trace m') = [(1, 500); (2, 501)].
Proof.
  intros m'. split; [|vm_compute; reflexivity].
  apply (FinishDungeon_once at_place (fun _ => true) group7 1 7 in_dungeon); [vm_compute; reflexivity|].
  apply not_groups. vm_compute. reflexivity.
Defined.

(** Players 1 and 2 form a group and player 2 leaves it. *)
Definition formed : option Mgr :=
  match OnAddMember group7 1 1 (new_mgr 3) with
  | None => None
  | Some m => match OnAddMember group7 1 2 m with
              | None => None
              | Some m => OnRemoveMember group7 false 2 GROUP_REMOVEMETHOD_LEAVE 0 None None m
              end
  end.
Lemma members_invariant_witness : exists m,
  formed = Some m /\ members_ok m /\ GetPlayers m group7 = {[1]} /\ GetGroup m 2 = 0.
Proof.
  destruct formed as [m|] eqn:E; [|exfalso; revert E; vm_compute; discriminate]. exists m. split; [done|]. split.
  - apply (members_invariant (new_mgr 3) m).
    + intros p g Hg Eg. destruct Hg. rewrite <- Eg. reflexivity.
    + unfold formed in E. destruct (OnAddMember group7 1 1 (new_mgr 3)) as [m1|] eqn:E1; [|done].
      destruct (OnAddMember group7 1 2 m1) as [m2|] eqn:E2; [|done].
      eapply rtc_l; [exact (on_add _ _ _ _ _ E1)|]. eapply rtc_l; [exact (on_add _ _ _ _ _ E2)|].
      apply rtc_once. exact (on_remove _ _ _ _ _ _ _ _ _ E).
  - assert (H : option_map (fun m => (elements (GetPlayers m group7), GetGroup m 2)) formed = Some ([1], 0)) by (vm_compute; reflexivity).
    rewrite E in H. cbn in H. injection H as He Hg. split; [|done].
    apply set_eq. intros x. rewrite <- elem_of_elements, He. set_solver.
Defined.

(** The group is always sent to the entrance: the search for a member inside is
    only entered for map 0. *)
Lemma never_to_a_member player members fromOpcode d :
  d_map d <> 0 -> destination player members fromOpcode d = mkPlace 0 (d_map d) (d_x d) (d_y d) (d_z d) (d_o d).
Proof. intros H. unfold destination. rewrite (proj2 (Z.eqb_neq _ _) H). now rewrite andb_false_r. Qed.
