(* ===== verification/WorldPacket.v ===== *)
(** * Packets (src/server/shared/Packets/WorldPacket.h) and the chat packet
    (src/server/game/Chat/Chat.cpp, ChatHandler::BuildChatPacket)

    A packet is an opcode and a byte buffer.  [<<] with a sequence of writes
    runs the writers of [ByteBuffer] on the packet's buffer; how that went is kept
    with the packet, and [built] is the point of the program at which the writes
    stand: it fails when one of them failed. *)

From stdpp Require Import base list.
From Stdlib Require Import ZArith Lia.
From S2P Require Import Prelude ByteBuffer ObjectGuid.
#[local] Open Scope Z_scope.

(** [m_written]: whether the writes so far returned, threw or failed an assertion. *)
Record WorldPacket := mkWorldPacket { m_opcode : Z; m_buffer : ByteBuffer; m_written : outcome exn unit }.

(** [WorldPacket(opcode, res)] and [Initialize(opcode, newres)]; the reserved
    size has no effect on the contents. *)
Definition new_packet (opcode : Z) : WorldPacket := mkWorldPacket (u16 opcode) new_buffer (Ret tt).
Definition Initialize (p : WorldPacket) (opcode : Z) : WorldPacket :=
  mkWorldPacket (u16 opcode) (snd (clear (m_buffer p))) (m_written p).
Definition GetOpcode (p : WorldPacket) : Z := m_opcode p.
Definition SetOpcode (p : WorldPacket) (opcode : Z) : WorldPacket := mkWorldPacket (u16 opcode) (m_buffer p) (m_written p).

(** Writing to a packet: the buffer operations in sequence.  Nothing is written
    behind a write that failed. *)
Definition stream (p : WorldPacket) (m : BB unit) : WorldPacket :=
  match m_written p with
  | Ret _ => let '(o, b) := m (m_buffer p) in mkWorldPacket (m_opcode p) b o
  | Throw _ | Crash => p
  end.
(** The writes of a packet as a step of the code that builds it. *)
Definition built {S} (p : WorldPacket) : action S exn unit := fun s => (m_written p, s).
Definition intact (p : WorldPacket) : Prop := m_written p = Ret tt.

(** What the receiver of a packet reads from its start. *)
Definition payload (p : WorldPacket) : list Z := unread (m_buffer p).

(** ** The chat packet *)

Definition SMSG_MESSAGECHAT : Z := 0x096.
Definition SMSG_GM_MESSAGECHAT : Z := 0x3B3.

Definition CHAT_MSG_WHISPER_FOREIGN : Z := 0x08.
Definition CHAT_MSG_MONSTER_SAY : Z := 0x0C.
Definition CHAT_MSG_MONSTER_PARTY : Z := 0x0D.
Definition CHAT_MSG_MONSTER_YELL : Z := 0x0E.
Definition CHAT_MSG_MONSTER_WHISPER : Z := 0x0F.
Definition CHAT_MSG_MONSTER_EMOTE : Z := 0x10.
Definition CHAT_MSG_CHANNEL : Z := 0x11.
Definition CHAT_MSG_BG_SYSTEM_NEUTRAL : Z := 0x24.
Definition CHAT_MSG_BG_SYSTEM_ALLIANCE : Z := 0x25.
Definition CHAT_MSG_BG_SYSTEM_HORDE : Z := 0x26.
Definition CHAT_MSG_RAID_BOSS_EMOTE : Z := 0x29.
Definition CHAT_MSG_RAID_BOSS_WHISPER : Z := 0x2A.
Definition CHAT_MSG_BATTLENET : Z := 0x2F.
Definition CHAT_MSG_ACHIEVEMENT : Z := 0x30.
Definition CHAT_MSG_GUILD_ACHIEVEMENT : Z := 0x31.

(** [data << uint32(name.length() + 1); data << name;] *)
Definition write_sized (name : list Z) : BB unit :=
  do! write_uint32 (u32 (zlen name + 1)) in write_string name.

(** [receiverGUIDPos = data.wpos(); data << uint64(receiverGUID);] *)
Definition write_receiver (receiverGUID : Z) : BB Z :=
  let! pos := wpos in do! write_uint64 receiverGUID in ret pos.

(** The switch over the chat type: the position of the receiver's guid. *)
Definition chat_header (chatType receiverGUID : Z) (senderName receiverName : list Z)
    (gmMessage : bool) (channelName : list Z) : BB Z :=
  if bool_decide (chatType ∈ [CHAT_MSG_MONSTER_SAY; CHAT_MSG_MONSTER_PARTY; CHAT_MSG_MONSTER_YELL;
       CHAT_MSG_MONSTER_WHISPER; CHAT_MSG_MONSTER_EMOTE; CHAT_MSG_RAID_BOSS_EMOTE;
       CHAT_MSG_RAID_BOSS_WHISPER; CHAT_MSG_BATTLENET]) then
    do! write_sized senderName in
    let! pos := write_receiver receiverGUID in
    do! (if negb (receiverGUID =? 0) && negb (IS_PLAYER_GUID receiverGUID) && negb (IS_PET_GUID receiverGUID)
         then write_sized receiverName else ret tt) in ret pos
  else if chatType =? CHAT_MSG_WHISPER_FOREIGN then
    do! write_sized senderName in write_receiver receiverGUID
  else if bool_decide (chatType ∈ [CHAT_MSG_BG_SYSTEM_NEUTRAL; CHAT_MSG_BG_SYSTEM_ALLIANCE;
       CHAT_MSG_BG_SYSTEM_HORDE]) then
    let! pos := write_receiver receiverGUID in
    do! (if negb (receiverGUID =? 0) && negb (IS_PLAYER_GUID receiverGUID)
         then write_sized receiverName else ret tt) in ret pos
  else if bool_decide (chatType ∈ [CHAT_MSG_ACHIEVEMENT; CHAT_MSG_GUILD_ACHIEVEMENT]) then
    write_receiver receiverGUID
  else
    do! (if gmMessage then write_sized senderName else ret tt) in
    do! (if chatType =? CHAT_MSG_CHANNEL
         then if negb (0 <? zlen channelName) then crash else write_string channelName
         else ret tt) in
    write_receiver receiverGUID.

(** [BuildChatPacket] over guids and names: the packet and the position of the
    receiver's guid, or the failed [ASSERT]. *)
Definition BuildChatPacket (chatType language senderGUID receiverGUID : Z) (message : list Z)
    (chatTag : Z) (senderName receiverName : list Z) (achievementId : Z) (gmMessage : bool)
    (channelName : list Z) : outcome exn (WorldPacket * Z) :=
  let data := new_packet (if negb gmMessage then SMSG_MESSAGECHAT else SMSG_GM_MESSAGECHAT) in
  let body : BB Z :=
    do! write_uint8 chatType in
    do! append_int 4 language in
    do! write_uint64 senderGUID in
    do! write_uint32 0 in
    let! pos := chat_header chatType receiverGUID senderName receiverName gmMessage channelName in
    do! write_sized message in
    do! write_uint8 chatTag in
    do! (if (chatType =? CHAT_MSG_ACHIEVEMENT) || (chatType =? CHAT_MSG_GUILD_ACHIEVEMENT)
         then write_uint32 achievementId else ret tt) in
    ret pos in
  match body (m_buffer data) with
  | (Ret pos, b) => Ret (mkWorldPacket (m_opcode data) b (Ret tt), pos)
  | (Throw e, _) => Throw e
  | (Crash, _) => Crash
  end.

(** A sender or receiver in the world, as the other overload looks at it. *)
Record ChatObject := {
  co_guid : Z; co_name : list Z; co_tag : Z; co_player : bool; co_gm_chat : bool
}.
Definition BuildChatPacket_objects (chatType language : Z) (sender receiver : option ChatObject)
    (message : list Z) (achievementId : Z) (channelName : list Z) : outcome exn (WorldPacket * Z) :=
  let '(senderGUID, senderName, chatTag, gmMessage) :=
    match sender with
    | None => (0, [], 0, false)
    | Some s => (co_guid s, co_name s, (if co_player s then co_tag s else 0), co_player s && co_gm_chat s)
    end in
  let '(receiverGUID, receiverName) :=
    match receiver with None => (0, []) | Some r => (co_guid r, co_name r) end in
  BuildChatPacket chatType language senderGUID receiverGUID message chatTag senderName receiverName
    achievementId gmMessage channelName.

(** ** Writers

    [writes m bs a]: on a well-formed buffer with room, [m] appends the bytes
    [bs] and returns [a] of the position it started from. *)
Definition writes {A} (m : BB A) (bs : list Z) (a : Z -> A) : Prop :=
  Forall (is_u 8) bs /\
  forall b, wf b -> size b + zlen bs <= 10000000 -> m b = (Ret (a (size b)), pushed b bs).

Lemma pushed_nil b : pushed b [] = b.
Proof. destruct b. unfold pushed. cbn. now rewrite Z.add_0_r, app_nil_r. Qed.

Lemma writes_ret {A} (x : A) : writes (ret x) [] (fun _ => x).
Proof. split; [constructor|]. intros b _ _. now rewrite pushed_nil. Qed.

Lemma writes_bind {A B} (m : BB A) (k : A -> BB B) bs1 bs2 a c :
  writes m bs1 a -> (forall p, writes (k (a p)) bs2 (fun q => c p q)) ->
  writes (bind m k) (bs1 ++ bs2) (fun p => c p (p + zlen bs1)).
Proof.
  intros [F1 H1] H2. split; [apply Forall_app; split; [done|apply (H2 0)]|].
  intros b Hwf Hs. unfold zlen in Hs. rewrite length_app in Hs. unfold bind.
  rewrite H1 by (auto; unfold zlen; lia).
  assert (Hwf' : wf (pushed b bs1)) by (apply wf_pushed; auto; lia).
  destruct (H2 (size b)) as [_ H2']. rewrite H2' by (auto; rewrite size_pushed; unfold zlen; lia).
  now rewrite size_pushed, pushed_pushed.
Qed.

(** The same when the first result does not matter. *)
Lemma writes_seq {B} (m : BB unit) (k : BB B) bs1 bs2 c :
  writes m bs1 (fun _ => tt) -> writes k bs2 c ->
  writes (bind m (fun _ => k)) (bs1 ++ bs2) (fun p => c (p + zlen bs1)).
Proof. intros H1 H2. now apply (writes_bind m (fun _ => k) bs1 bs2 (fun _ => tt) (fun _ q => c q)). Qed.

Lemma writes_then {B} (x : B) (m : BB unit) (k : BB B) bs1 bs2 :
  writes m bs1 (fun _ => tt) -> writes k bs2 (fun _ => x) ->
  writes (bind m (fun _ => k)) (bs1 ++ bs2) (fun _ => x).
Proof. intros H1 H2. exact (writes_seq m k bs1 bs2 (fun _ => x) H1 H2). Qed.

Lemma writes_int n v : (0 < n)%nat -> writes (append_int n v) (le_bytes n v) (fun _ => tt).
Proof.
  intros Hn. split; [apply le_bytes_bytes|]. intros b Hwf Hs. unfold zlen in Hs.
  rewrite length_le_bytes in Hs. now apply append_int_spec.
Qed.

Lemma writes_string s : Forall (is_u 8) s -> writes (write_string s) (s ++ [0]) (fun _ => tt).
Proof.
  intros Hs. split.
  - apply Forall_app; split; [done|]. repeat constructor; unfold is_u; lia.
  - intros b Hwf Hsz. unfold zlen in Hsz. rewrite length_app in Hsz; cbn in Hsz.
    apply write_string_spec; auto; lia.
Qed.

Lemma writes_wpos : writes wpos [] (fun p => p).
Proof.
  split; [constructor|]. intros b Hwf _. unfold wpos, bind, get, ret.
  now rewrite pushed_nil, (wf_wpos b Hwf).
Qed.

Lemma writes_u8 v : writes (write_uint8 v) (le_bytes 1 v) (fun _ => tt).
Proof. apply writes_int; lia. Qed.
Lemma writes_u32 v : writes (write_uint32 v) (le_bytes 4 v) (fun _ => tt).
Proof. apply writes_int; lia. Qed.
Lemma writes_u64 v : writes (write_uint64 v) (le_bytes 8 v) (fun _ => tt).
Proof. apply writes_int; lia. Qed.

#[export] Hint Resolve writes_ret writes_then writes_int writes_string writes_u8 writes_u32 writes_u64 : trinity.

(** The packet that a writer leaves. *)
Lemma stream_payload op (m : BB unit) bs a :
  writes m bs a -> zlen bs <= 10000000 -> payload (stream (new_packet op) m) = bs.
Proof.
  intros [_ H] Hs. unfold payload, stream, new_packet. cbn [m_buffer m_written].
  rewrite H by (auto using wf_new; exact Hs). cbn. unfold unread, pushed. now rewrite drop_0.
Qed.

(** A packet built of two writers: the second adds to the first. *)
Lemma stream_stream p (m1 m2 : BB unit) :
  stream (stream p m1) m2 = stream p (do! m1 in m2).
Proof.
  unfold stream, bind. destruct (m_written p) as [u|e|] eqn:E; rewrite ?E; [|done..].
  destruct (m1 (m_buffer p)) as [[v|x|] b] eqn:Em; cbn [m_written m_buffer m_opcode]; done.
Qed.

(** ** Sizes

    [fits n m]: with room for [n] bytes the writer [m] returns and takes no more;
    [grows n m]: it fails the assertion or took at least [n].  The assertion of
    [append] is on the size from before, so what comes behind ten million bytes fails,
    [full]. *)
Definition at_end (b : ByteBuffer) : Prop := _wpos b = size b.
Definition fits {A} (n : Z) (m : BB A) : Prop :=
  forall b, at_end b -> size b + n <= 10000000 ->
  exists a b', m b = (Ret a, b') /\ at_end b' /\ size b <= size b' <= size b + n.
Definition grows {A} (n : Z) (m : BB A) : Prop :=
  forall b, at_end b -> match m b with (Ret _, b') => at_end b' /\ size b + n <= size b' | (Throw _, _) => False | (Crash, _) => True end.
Definition full {A} (m : BB A) : Prop := forall b, 10000000 <= size b -> (m b).1 = Crash.

Lemma fits_ret {A} (a : A) : fits 0 (ret a).
Proof. intros b Hb _. exists a, b. split; [done|]. split; [done|lia]. Qed.
Lemma fits_mono {A} n k (m : BB A) : fits n m -> n <= k -> fits k m.
Proof. intros H Hle b Hb Hs. destruct (H b Hb ltac:(lia)) as (a & b' & E & Hb' & Hs'). exists a, b'. split; [done|]. split; [done|lia]. Qed.
Lemma fits_seq {B} n k (m : BB unit) (r : BB B) : 0 <= k -> fits n m -> fits k r -> fits (n + k) (do! m in r).
Proof.
  intros H0 Hm Hr b Hb Hs. destruct (Hm b Hb ltac:(lia)) as ([] & b1 & E1 & Hb1 & Hs1).
  destruct (Hr b1 Hb1 ltac:(lia)) as (a & b2 & E2 & Hb2 & Hs2). exists a, b2. rewrite (bind_ret _ _ _ _ _ E1). split; [done|]. split; [done|lia].
Qed.
Lemma append_at_end b bs : at_end b -> bs <> [] -> size b < 10000000 -> zlen bs <= 10000000 ->
  append (Some bs) (zlen bs) b = (Ret tt, pushed b bs).
Proof.
  intros Hw Hne Hsz Hmax. unfold at_end in Hw. assert (0 < zlen bs) by (unfold zlen; destruct bs; cbn; [done|lia]). assert (0 <= size b) by (unfold size; lia).
  unfold append, bind, get. rewrite (proj2 (Z.eqb_neq _ _)) by lia. rewrite (proj2 (Z.ltb_lt (size b) 10000000)) by lia. cbn [negb].
  rewrite Hw, uwrap_id by (unfold is_u; lia). rewrite (proj2 (Z.ltb_lt (size b) _)) by lia.
  rewrite length_resize, Z2Nat.id by lia. change (Z.of_nat (length bs)) with (zlen bs). rewrite !Z.ltb_irrefl. cbn [orb].
  unfold put, pushed. rewrite Hw. unfold zlen. rewrite Nat2Z.id, take_ge by lia. do 2 f_equal. unfold size. rewrite Nat2Z.id.
  replace (Z.to_nat (Z.of_nat (length (_storage b)) + Z.of_nat (length bs))) with (length (_storage b) + length bs)%nat by lia.
  now apply write_at_end.
Qed.
Lemma pushed_at_end b bs : at_end b -> at_end (pushed b bs).
Proof. unfold at_end. rewrite size_pushed. cbn. lia. Qed.
Lemma fits_append bs : bs <> [] -> fits (zlen bs) (append (Some bs) (zlen bs)).
Proof.
  intros Hne b Hb Hs. assert (0 < zlen bs) by (unfold zlen; destruct bs; cbn; [done|lia]). assert (0 <= size b) by (unfold size; lia).
  exists tt, (pushed b bs). split; [apply append_at_end; [done|done|lia|lia]|]. split; [now apply pushed_at_end|]. rewrite size_pushed. unfold zlen in *. lia.
Qed.
Lemma fits_int n v : (0 < n)%nat -> fits (Z.of_nat n) (append_int n v).
Proof.
  intros Hn. pose proof (fits_append (le_bytes n v)) as H. unfold zlen in H. rewrite length_le_bytes in H. apply H.
  intros E. apply (f_equal length) in E. rewrite length_le_bytes in E. cbn in E. lia.
Qed.
Lemma fits_u8 v : fits 1 (write_uint8 v).
Proof. apply (fits_int 1). lia. Qed.
Lemma fits_u32 v : fits 4 (write_uint32 v).
Proof. apply (fits_int 4). lia. Qed.
Lemma fits_u64 v : fits 8 (write_uint64 v).
Proof. apply (fits_int 8). lia. Qed.
Lemma fits_string s : fits (zlen s + 1) (write_string s).
Proof.
  unfold write_string. destruct s as [|x s]; [apply (fits_seq 0 1); [lia|apply fits_ret|apply (fits_int 1); lia]|].
  apply fits_seq; [lia|apply (fits_append (x :: s)); discriminate|apply (fits_int 1); lia].
Qed.
Lemma packGUID_loop_length k i guid mark p : (length (packGUID_loop k i guid mark p).2 <= length p + k)%nat.
Proof.
  revert i guid mark p. induction k as [|k IH]; intros i guid mark p; cbn [packGUID_loop]; [cbn; lia|]. destruct (guid =? 0); [cbn; lia|].
  destruct (negb _); [|specialize (IH (i + 1) (Z.shiftr guid 8) mark p); lia].
  etransitivity; [apply IH|]. rewrite length_app. cbn. lia.
Qed.
Lemma packGUID_length guid : 1 <= zlen (packGUID guid) <= 9.
Proof.
  unfold packGUID. pose proof (packGUID_loop_length 8 0 guid 0 []) as H. destruct (packGUID_loop 8 0 guid 0 []) as [m p]. unfold zlen. cbn [length snd] in *. lia.
Qed.
Lemma fits_guid guid : fits 9 (appendPackGUID guid).
Proof.
  pose proof (packGUID_length guid) as H. apply (fits_mono (zlen (packGUID guid))); [|lia]. apply fits_append. intros E. rewrite E in H. unfold zlen in H. cbn in H. lia.
Qed.
Lemma fits_if {A} n (c : bool) (m1 m2 : BB A) : fits n m1 -> fits n m2 -> fits n (if c then m1 else m2).
Proof. now destruct c. Qed.

Lemma grows_ret {A} (a : A) : grows 0 (ret a).
Proof. intros b Hb. cbn. split; [done|lia]. Qed.
Lemma grows_mono {A} n k (m : BB A) : grows n m -> k <= n -> grows k m.
Proof. intros H Hle b Hb. specialize (H b Hb). destruct (m b) as [[a|e|] b']; [|done..]. split; [apply H|]. destruct H. lia. Qed.
Lemma grows_seq {B} n k (m : BB unit) (r : BB B) : grows n m -> grows k r -> grows (n + k) (do! m in r).
Proof.
  intros Hm Hr b Hb. specialize (Hm b Hb). unfold bind. destruct (m b) as [[a|e|] b1]; [|done..]. destruct Hm as [Hb1 H1]. specialize (Hr b1 Hb1).
  destruct (r b1) as [[x|e|] b2]; [|done..]. split; [apply Hr|]. destruct Hr. lia.
Qed.
Lemma grows_append bs : bs <> [] -> zlen bs <= 10000000 -> grows (zlen bs) (append (Some bs) (zlen bs)).
Proof.
  intros Hne Hle b Hb. destruct (Z.ltb_spec (size b) 10000000) as [H|H].
  - rewrite append_at_end by done. split; [now apply pushed_at_end|]. rewrite size_pushed. unfold zlen. lia.
  - assert (0 < zlen bs) by (unfold zlen; destruct bs; cbn; [done|lia]). unfold append, bind, get. rewrite (proj2 (Z.eqb_neq _ _)) by lia. now rewrite (proj2 (Z.ltb_ge _ _)).
Qed.
Lemma grows_int n v : (0 < n <= 8)%nat -> grows (Z.of_nat n) (append_int n v).
Proof.
  intros Hn. pose proof (grows_append (le_bytes n v)) as H. unfold zlen in H. rewrite length_le_bytes in H. apply H; [|lia].
  intros E. apply (f_equal length) in E. rewrite length_le_bytes in E. cbn in E. lia.
Qed.
Lemma grows_string s : zlen s <= 10000000 -> grows (zlen s + 1) (write_string s).
Proof.
  intros Hs. unfold write_string. apply grows_seq; [|apply (grows_int 1); lia]. destruct s as [|x s]; [apply grows_ret|]. now apply (grows_append (x :: s)).
Qed.
Lemma grows_guid guid : grows 0 (appendPackGUID guid).
Proof.
  pose proof (packGUID_length guid) as H. apply (grows_mono (zlen (packGUID guid))); [|lia]. apply grows_append; [|lia]. intros E. rewrite E in H. unfold zlen in H. cbn in H. lia.
Qed.
Lemma full_int n v : (0 < n)%nat -> full (append_int n v).
Proof.
  intros Hn b Hb. unfold append_int, append, bind, get. rewrite length_le_bytes, (proj2 (Z.eqb_neq _ _)) by lia. now rewrite (proj2 (Z.ltb_ge _ _)).
Qed.
Lemma full_seq {A B} (m : BB A) (k : A -> BB B) : full m -> full (let! a := m in k a).
Proof. intros H b Hb. specialize (H b Hb). unfold bind. destruct (m b) as [[a|e|] b']; [discriminate H|discriminate H|done]. Qed.
(** Behind enough bytes there is the assertion. *)
Lemma grows_before {B} n (m : BB unit) (r : BB B) b : at_end b -> grows n m -> (forall b', at_end b' -> size b + n <= size b' -> (r b').1 = Crash) -> ((do! m in r) b).1 = Crash.
Proof.
  intros Hb Hm Hr. specialize (Hm b Hb). unfold bind. destruct (m b) as [[a|e|] b1]; [|done..]. destruct Hm as [H1 H2]. now apply Hr.
Qed.
Lemma stream_crash op (m : BB unit) : (m new_buffer).1 = Crash -> m_written (stream (new_packet op) m) = Crash.
Proof. intros H. unfold stream. cbn [m_written new_packet m_buffer]. now destruct (m new_buffer) as [o b]. Qed.
Lemma intact_new op : intact (new_packet op).
Proof. reflexivity. Qed.
Lemma fits_intact p n (m : BB unit) : intact p -> at_end (m_buffer p) -> fits n m -> size (m_buffer p) + n <= 10000000 ->
  intact (stream p m) /\ at_end (m_buffer (stream p m)) /\ size (m_buffer (stream p m)) <= size (m_buffer p) + n.
Proof.
  intros Hp Hb Hm Hs. destruct (Hm _ Hb Hs) as ([] & b' & E & Hb' & Hs'). unfold intact, stream in *. rewrite Hp, E. cbn. split; [done|]. split; [done|lia].
Qed.
Lemma fits_new op n (m : BB unit) : fits n m -> n <= 10000000 -> intact (stream (new_packet op) m).
Proof. intros Hm Hn. apply (fits_intact _ n); [done|done|done|]. change (size (m_buffer (new_packet op))) with 0. lia. Qed.
Lemma built_intact {S} p (s : S) : intact p -> built p s = (Ret tt, s).
Proof. intros H. unfold built. now rewrite H. Qed.
Lemma fits_then {B} n k (m : BB unit) (r : BB B) : fits n m -> fits k r -> 0 <= k -> fits (n + k) (do! m in r).
Proof. intros Hm Hr H0. now apply fits_seq. Qed.
#[export] Hint Resolve fits_ret fits_u8 fits_u32 fits_u64 fits_string fits_guid : trinity.

(** Field after field: what is left is arithmetic. *)
Ltac fits_fields := first [eassumption | solve [auto with trinity] | eapply fits_then; [fits_fields|fits_fields|try (unfold zlen; lia)]].

(** ** What clients send

    [WorldSocket] refuses a packet of more than 10240 bytes with the four of its
    opcode; no text in one is longer. *)
Definition PACKET_LIMIT : Z := 10236.
Definition TEXT_LIMIT : Z := 10240.
Definition received (b : ByteBuffer) : Prop := wf b /\ size b <= PACKET_LIMIT.
Definition gives {A} (m : BB A) (P : A -> Prop) : Prop :=
  forall b, received b -> match m b with (Ret a, b') => received b' /\ P a | _ => True end.
Lemma gives_ret {A} (a : A) (P : A -> Prop) : P a -> gives (ret a) P.
Proof. intros H b Hb. now split. Qed.
Lemma gives_throw {A} e (P : A -> Prop) : gives (throw e) P.
Proof. now intros b _. Qed.
Lemma gives_bind {A B} (m : BB A) (k : A -> BB B) P Q : gives m P -> (forall a, P a -> gives (k a) Q) -> gives (let! a := m in k a) Q.
Proof.
  intros Hm Hk b Hb. specialize (Hm b Hb). unfold bind. destruct (m b) as [[a|e|] b']; [|done|done]. destruct Hm as [Hb' Ha]. exact (Hk a Ha b' Hb').
Qed.
Lemma gives_seq {A B} (m : BB A) (k : A -> BB B) Q : gives m (fun _ => True) -> (forall a, gives (k a) Q) -> gives (let! a := m in k a) Q.
Proof. intros Hm Hk. apply (gives_bind m k (fun _ => True)); [done|]. intros a _. apply Hk. Qed.
Lemma gives_weaken {A} (m : BB A) (P Q : A -> Prop) : gives m P -> (forall a, P a -> Q a) -> gives m Q.
Proof. intros Hm H b Hb. specialize (Hm b Hb). destruct (m b) as [[a|e|] b']; [|done|done]. destruct Hm. auto. Qed.
Lemma read_size n b : size (read n b).2 = size b.
Proof. unfold read, read_at, bind, get, put, ret. repeat case_if; reflexivity. Qed.
Lemma gives_read n : Z.of_nat n < 2 ^ 62 -> gives (read n) (fun _ => True).
Proof.
  intros Hn b [Hb Hs]. pose proof (safe_read n Hn b Hb) as [_ Hw]. pose proof (read_size n b) as E.
  destruct (read n b) as [[a|e|] b']; [|done|done]. cbn in E, Hw. split; [|done]. split; [done|lia].
Qed.
Lemma gives_chars fuel acc : gives (read_chars fuel acc) (fun s => zlen s <= zlen acc + Z.of_nat fuel).
Proof.
  revert acc. induction fuel as [|fuel IH]; intros acc; cbn [read_chars]; [apply gives_ret; lia|].
  apply (gives_bind _ _ (fun _ => True)); [intros b Hb; now split|]. intros b0 _. destruct (_rpos b0 <? size b0); [|apply gives_ret; lia].
  apply gives_seq; [apply gives_read; lia|]. intros c. destruct (c =? 0); [apply gives_ret; lia|].
  eapply gives_weaken; [apply IH|]. cbn. intros s. unfold zlen. rewrite length_app. cbn [length]. lia.
Qed.
Lemma gives_string : gives read_string (fun s => zlen s <= TEXT_LIMIT).
Proof.
  intros b Hb. pose proof Hb as [Hw Hs]. destruct Hw as [_ Hr _ _]. unfold read_string. rewrite (bind_ret _ _ b b b) by done.
  pose proof (gives_chars (S (Z.to_nat (size b - _rpos b))) [] b Hb) as H. destruct (read_chars _ _ b) as [[s|e|] b']; [|done|done].
  destruct H as [H1 H2]. split; [done|]. unfold zlen in *. cbn [length] in H2. unfold PACKET_LIMIT, TEXT_LIMIT in *. lia.
Qed.
Lemma gives_outcome {A} (m : BB A) P b a : gives m P -> received b -> (m b).1 = Ret a -> P a.
Proof. intros H Hb E. specialize (H b Hb). destruct (m b) as [o b']. cbn in E. subst o. apply H. Qed.

Definition sized (name : list Z) : list Z := le_bytes 4 (u32 (zlen name + 1)) ++ name ++ [0].

Lemma writes_sized name : Forall (is_u 8) name -> writes (write_sized name) (sized name) (fun _ => tt).
Proof. intros H. unfold write_sized, sized. apply writes_then; auto with trinity. Qed.

Lemma writes_receiver g : writes (write_receiver g) (le_bytes 8 g) (fun p => p).
Proof.
  unfold write_receiver.
  assert (H : forall p : Z, writes (do! write_uint64 g in ret p) (le_bytes 8 g ++ []) (fun _ => p))
    by (intros p; apply writes_then; auto with trinity).
  pose proof (writes_bind wpos (fun p => do! write_uint64 g in ret p) [] _ (fun p => p) (fun p _ => p)
                writes_wpos H) as Hw.
  rewrite app_nil_r in Hw. exact Hw.
Qed.

(** What stands before and after the receiver's guid. *)
Definition chat_pre (chatType : Z) (senderName : list Z) (gmMessage : bool) (channelName : list Z) : list Z :=
  if bool_decide (chatType ∈ [CHAT_MSG_MONSTER_SAY; CHAT_MSG_MONSTER_PARTY; CHAT_MSG_MONSTER_YELL;
       CHAT_MSG_MONSTER_WHISPER; CHAT_MSG_MONSTER_EMOTE; CHAT_MSG_RAID_BOSS_EMOTE;
       CHAT_MSG_RAID_BOSS_WHISPER; CHAT_MSG_BATTLENET; CHAT_MSG_WHISPER_FOREIGN]) then sized senderName
  else if bool_decide (chatType ∈ [CHAT_MSG_BG_SYSTEM_NEUTRAL; CHAT_MSG_BG_SYSTEM_ALLIANCE;
       CHAT_MSG_BG_SYSTEM_HORDE; CHAT_MSG_ACHIEVEMENT; CHAT_MSG_GUILD_ACHIEVEMENT]) then []
  else (if gmMessage then sized senderName else []) ++
       (if chatType =? CHAT_MSG_CHANNEL then channelName ++ [0] else []).

Lemma writes_opt (c : bool) (m : BB unit) bs :
  writes m bs (fun _ => tt) -> writes (if c then m else ret tt) (if c then bs else []) (fun _ => tt).
Proof. destruct c; auto with trinity. Qed.

(** The receiver's guid behind [pre], then more. *)
Lemma writes_receiver_then g (m : BB unit) bs :
  writes m bs (fun _ => tt) ->
  writes (let! pos := write_receiver g in do! m in ret pos) (le_bytes 8 g ++ bs) (fun p => p).
Proof.
  intros H. rewrite <- (app_nil_r bs).
  apply (writes_bind (write_receiver g) (fun pos => do! m in ret pos) _ _ (fun p => p) (fun p _ => p));
    [apply writes_receiver|].
  intros p. apply writes_then; auto with trinity.
Qed.

Lemma chat_header_writes chatType g sn rn gm cn :
  Forall (is_u 8) sn -> Forall (is_u 8) rn -> Forall (is_u 8) cn ->
  (chatType = CHAT_MSG_CHANNEL -> cn <> []) ->
  exists post, writes (chat_header chatType g sn rn gm cn)
    (chat_pre chatType sn gm cn ++ le_bytes 8 g ++ post)
    (fun p => p + zlen (chat_pre chatType sn gm cn)) /\
    zlen post <= zlen rn + 5.
Proof.
  intros Hsn Hrn Hcn Hch. pose proof (writes_sized sn Hsn) as Ws. pose proof (writes_sized rn Hrn) as Wr.
  assert (Hlen : forall c : bool, zlen (if c then sized rn else []) <= zlen rn + 5).
  { intros []; unfold zlen, sized; rewrite ?length_app, ?length_le_bytes; cbn [length]; lia. }
  assert (Hz : zlen ([] : list Z) <= zlen rn + 5) by (unfold zlen; cbn; lia).
  unfold chat_header, chat_pre.
  destruct (bool_decide (chatType ∈ [CHAT_MSG_MONSTER_SAY; _; _; _; _; _; _; CHAT_MSG_BATTLENET])) eqn:E1; zbool.
  { rewrite (bool_decide_eq_true_2 (chatType ∈ _)) by (rewrite !elem_of_cons in *; tauto).
    eexists; split; [|apply Hlen]. apply (writes_seq _ _ _ _ (fun p => p)); [exact Ws|].
    apply writes_receiver_then, writes_opt, Wr. }
  destruct (Z.eqb_spec chatType CHAT_MSG_WHISPER_FOREIGN) as [->|Hw].
  { rewrite (bool_decide_eq_true_2 (CHAT_MSG_WHISPER_FOREIGN ∈ _)) by (rewrite !elem_of_cons; tauto).
    exists []; split; [|exact Hz]. rewrite app_nil_r.
    apply (writes_seq _ _ _ _ (fun p => p)); [exact Ws|apply writes_receiver]. }
  rewrite (bool_decide_eq_false_2 (chatType ∈ CHAT_MSG_MONSTER_SAY :: _)) by (rewrite !elem_of_cons in *; tauto).
  destruct (bool_decide (chatType ∈ [CHAT_MSG_BG_SYSTEM_NEUTRAL; _; _])) eqn:E2; zbool.
  { rewrite (bool_decide_eq_true_2 (chatType ∈ CHAT_MSG_BG_SYSTEM_NEUTRAL :: _)) by (rewrite !elem_of_cons in *; tauto).
    eexists; split; [|apply Hlen]. cbn [app].
    assert (W := writes_receiver_then g _ _ (writes_opt (negb (g =? 0) && negb (IS_PLAYER_GUID g)) _ _ Wr)).
    destruct W as [WF WH]. split; [exact WF|]. intros b Hb Hs. rewrite (WH b Hb Hs). do 2 f_equal. unfold zlen; cbn; lia. }
  destruct (bool_decide (chatType ∈ [CHAT_MSG_ACHIEVEMENT; _])) eqn:E3; zbool.
  { rewrite (bool_decide_eq_true_2 (chatType ∈ CHAT_MSG_BG_SYSTEM_NEUTRAL :: _)) by (rewrite !elem_of_cons in *; tauto).
    exists []; split; [|exact Hz]. cbn [app]. rewrite app_nil_r.
    destruct (writes_receiver g) as [WF WH]. split; [exact WF|].
    intros b Hb Hs. rewrite (WH b Hb Hs). do 2 f_equal. unfold zlen; cbn; lia. }
  rewrite (bool_decide_eq_false_2 (chatType ∈ CHAT_MSG_BG_SYSTEM_NEUTRAL :: _)) by (rewrite !elem_of_cons in *; tauto).
  exists []; split; [|exact Hz]. rewrite app_nil_r.
  assert (Hc : writes (if chatType =? CHAT_MSG_CHANNEL
                       then if negb (0 <? zlen cn) then crash else write_string cn else ret tt)
                 (if chatType =? CHAT_MSG_CHANNEL then cn ++ [0] else []) (fun _ => tt)).
  { destruct (Z.eqb_spec chatType CHAT_MSG_CHANNEL) as [Ec|]; [|auto with trinity].
    assert (Hlt : (0 <? zlen cn) = true) by (apply Z.ltb_lt; destruct cn; [now destruct (Hch Ec)|unfold zlen; cbn; lia]).
    rewrite Hlt. now apply writes_string. }
  pose proof (writes_seq _ _ _ _ _ (writes_opt gm _ _ Ws) (writes_seq _ _ _ _ _ Hc (writes_receiver g))) as [WF WH].
  rewrite <- app_assoc. split; [exact WF|]. intros b Hb Hs. rewrite (WH b Hb Hs).
  do 2 f_equal. unfold zlen. rewrite length_app. lia.
Qed.

(** ** Claims *)

Lemma write_at_middle (pre old new post : list Z) :
  length old = length new -> write_at (length pre) new (pre ++ old ++ post) = pre ++ new ++ post.
Proof.
  intros H. unfold write_at. rewrite take_app_length. f_equal. f_equal.
  rewrite app_assoc, drop_app_ge by (rewrite length_app; lia).
  rewrite length_app. replace (length pre + length new - (length pre + length old))%nat with 0%nat by lia.
  apply drop_0.
Qed.

(** [put] of an integer over the bytes of another one. *)
Lemma put_int_middle n v b pre old post :
  _storage b = pre ++ old ++ post -> length old = n -> size b < 2 ^ 63 ->
  put_int n (zlen pre) v b = (Ret tt, mkByteBuffer (_rpos b) (_wpos b) (pre ++ le_bytes n v ++ post)).
Proof.
  intros E Hn Hs. assert (Hsz : size b = zlen pre + Z.of_nat n + zlen post).
  { unfold size, zlen. rewrite E, !length_app. lia. }
  unfold put_int, put_at, bind, get.
  rewrite uwrap_id by (unfold is_u, zlen in *; lia). rewrite length_le_bytes, E.
  rewrite (proj2 (Z.ltb_ge (size b) _)) by (unfold zlen in *; lia). rewrite Z.ltb_irrefl. cbn [orb].
  unfold put. do 2 f_equal. unfold zlen. rewrite !Nat2Z.id, take_ge by (now rewrite length_le_bytes).
  apply write_at_middle. now rewrite length_le_bytes.
Qed.

(** For every chat type the packet starts with the type, the language, the
    sender and a zero, and the position returned is where the receiver's guid
    stands: what a whisper builder does with it, overwriting eight bytes there,
    changes the receiver and nothing else.  Only an unnamed channel message
    fails. *)
Theorem chat_packet_receiver_position chatType language sender g message tag sn rn ach gm cn g' :
  Forall (is_u 8) message -> Forall (is_u 8) sn -> Forall (is_u 8) rn -> Forall (is_u 8) cn ->
  (chatType = CHAT_MSG_CHANNEL -> cn <> []) ->
  zlen message + zlen sn + zlen rn + zlen cn <= 9999000 ->
  exists p post,
    let pre := le_bytes 1 chatType ++ le_bytes 4 language ++ le_bytes 8 sender ++ le_bytes 4 0 ++
               chat_pre chatType sn gm cn in
    BuildChatPacket chatType language sender g message tag sn rn ach gm cn = Ret (p, zlen pre) /\
    _storage (m_buffer p) = pre ++ le_bytes 8 g ++ post /\
    (exists r, post = r ++ sized message ++ le_bytes 1 tag ++
       (if (chatType =? CHAT_MSG_ACHIEVEMENT) || (chatType =? CHAT_MSG_GUILD_ACHIEVEMENT)
        then le_bytes 4 ach else [])) /\
    exists b', put_int 8 (zlen pre) g' (m_buffer p) = (Ret tt, b') /\
      _storage b' = pre ++ le_bytes 8 g' ++ post.
Proof.
  intros Hm Hsn Hrn Hcn Hch Hlen. set (pre := _ ++ _).
  destruct (chat_header_writes chatType g sn rn gm cn Hsn Hrn Hcn Hch) as (r & Hh & Hr).
  set (tail := sized message ++ le_bytes 1 tag ++
       (if (chatType =? CHAT_MSG_ACHIEVEMENT) || (chatType =? CHAT_MSG_GUILD_ACHIEVEMENT)
        then le_bytes 4 ach else [])).
  set (rest := fun q : Z => do! write_sized message in do! write_uint8 tag in
      do! (if (chatType =? CHAT_MSG_ACHIEVEMENT) || (chatType =? CHAT_MSG_GUILD_ACHIEVEMENT)
           then write_uint32 ach else ret tt) in ret q).
  assert (Htail : forall q : Z, writes (rest q) (tail ++ []) (fun _ => q)).
  { intros q. unfold tail, rest. rewrite <- !app_assoc.
    apply writes_then; [now apply writes_sized|]. apply writes_then; [apply writes_u8|].
    apply writes_then; [apply writes_opt, writes_u32|apply writes_ret]. }
  pose proof (writes_bind _ rest _ _ _ (fun p _ => p + zlen (chat_pre chatType sn gm cn)) Hh
                (fun p => Htail (p + zlen (chat_pre chatType sn gm cn)))) as Hrest.
  pose proof (writes_seq _ _ _ _ _ (writes_u8 chatType)
    (writes_seq _ _ _ _ _ (writes_int 4 language ltac:(lia))
      (writes_seq _ _ _ _ _ (writes_u64 sender)
        (writes_seq _ _ _ _ _ (writes_u32 0) Hrest)))) as [HF HW].
  specialize (HW new_buffer wf_new).
  assert (Hsz : zlen (sized message) + zlen (sized sn) <= 5 + zlen message + (5 + zlen sn)).
  { unfold sized, zlen. rewrite !length_app, !length_le_bytes. cbn [length]. lia. }
  assert (Hpre : zlen (chat_pre chatType sn gm cn) <= zlen (sized sn) + zlen cn + 1).
  { unfold chat_pre. repeat case_if; unfold zlen; rewrite ?length_app; cbn [length]; lia. }
  assert (Htl : zlen tail <= zlen (sized message) + 5).
  { unfold tail. case_if; unfold zlen; rewrite ?length_app, ?length_le_bytes; cbn [length]; lia. }
  rewrite app_nil_r in HW. unfold BuildChatPacket. cbn [m_buffer new_packet m_opcode].
  unfold new_packet; cbn [m_buffer m_opcode].
  unfold rest in HW. cbv beta in HW. rewrite HW.
  2: { unfold zlen in *. rewrite !length_app, !length_le_bytes. change (size new_buffer) with 0. lia. }
  eexists _, (r ++ tail). cbn zeta. cbn [m_buffer].
  assert (Epre : zlen pre = size new_buffer + zlen (le_bytes 1 chatType) + zlen (le_bytes 4 language)
      + zlen (le_bytes 8 sender) + zlen (le_bytes 4 0) + zlen (chat_pre chatType sn gm cn)).
  { unfold pre, zlen. rewrite !length_app. change (size new_buffer) with 0. lia. }
  assert (Est : pre ++ le_bytes 8 g ++ r ++ tail
    = le_bytes 1 chatType ++ le_bytes 4 language ++ le_bytes 8 sender ++ le_bytes 4 0 ++
      (chat_pre chatType sn gm cn ++ le_bytes 8 g ++ r) ++ tail).
  { unfold pre. now rewrite <- !app_assoc. }
  split; [do 2 f_equal; lia|]. split; [symmetry; exact Est|]. split; [now exists r|].
  rewrite <- Est. eexists; split; [apply (put_int_middle 8 g' _ pre (le_bytes 8 g) (r ++ tail))|reflexivity].
  - reflexivity.
  - apply length_le_bytes.
  - unfold size, pushed. cbn [_storage m_buffer new_buffer app].
    unfold zlen in *. rewrite !length_app, !length_le_bytes in *. change (size new_buffer) with 0 in *. lia.
Qed.

Lemma chat_packet_receiver_position_witness :
  exists p, BuildChatPacket CHAT_MSG_CHANNEL 0 7 7 [104; 105] 0 [] [] 0 false [84] = Ret (p, 19).
Proof.
  destruct (chat_packet_receiver_position CHAT_MSG_CHANNEL 0 7 7 [104; 105] 0 [] [] 0 false [84] 9)
    as (p & post & H & _); try (apply (bool_decide_unpack _); vm_compute; exact I).
  exists p. exact H.
Defined.
