(* ===== verification/LfgPackets.v ===== *)
(** * Dungeon finder: packets and handlers
    (src/server/game/Handlers/LFGHandler.cpp)

    A handler reads its packet with the readers of [ByteBuffer] and returns the
    operation of the manager it runs; a packet is written with its writers.
    [None] is the element of an empty set or of a map without it.

    The claims: what a join request asks is what the manager is told, up to 127
    dungeons; a request with more never reaches it.  The layouts of the packets
    are lemmas. *)

From stdpp Require Import base gmap list.
From Stdlib Require Import ZArith Lia.
From S2P Require Import Prelude ByteBuffer StdMap ObjectGuid LfgRoles LfgData LfgDungeons LfgQueue WorldPacket LfgMgr LfgScripts.
#[local] Open Scope Z_scope.

Import LFGMgr.

Definition SMSG_LFG_PLAYER_REWARD : Z := 0x1FF.
Definition SMSG_LFG_TELEPORT_DENIED : Z := 0x200.
Definition SMSG_LFG_OFFER_CONTINUE : Z := 0x293.
Definition SMSG_LFG_ROLE_CHOSEN : Z := 0x2BB.
Definition SMSG_LFG_PROPOSAL_UPDATE : Z := 0x361.
Definition SMSG_LFG_ROLE_CHECK_UPDATE : Z := 0x363.
Definition SMSG_LFG_JOIN_RESULT : Z := 0x364.
Definition SMSG_LFG_QUEUE_STATUS : Z := 0x365.
Definition SMSG_LFG_UPDATE_PLAYER : Z := 0x367.
Definition SMSG_LFG_UPDATE_PARTY : Z := 0x368.
Definition SMSG_LFG_UPDATE_SEARCH : Z := 0x369.
Definition SMSG_LFG_BOOT_PROPOSAL_UPDATE : Z := 0x36D.
Definition SMSG_LFG_PLAYER_INFO : Z := 0x36F.
Definition SMSG_LFG_PARTY_INFO : Z := 0x372.
Definition SMSG_LFG_DISABLED : Z := 0x398.

(** ** The numbers of the enumerations *)

Definition update_type_value (t : LfgUpdateType) : Z :=
  match t with
  | LFG_UPDATETYPE_DEFAULT => 0 | LFG_UPDATETYPE_LEADER_UNK1 => 1 | LFG_UPDATETYPE_ROLECHECK_ABORTED => 4
  | LFG_UPDATETYPE_JOIN_QUEUE => 5 | LFG_UPDATETYPE_ROLECHECK_FAILED => 6 | LFG_UPDATETYPE_REMOVED_FROM_QUEUE => 7
  | LFG_UPDATETYPE_PROPOSAL_FAILED => 8 | LFG_UPDATETYPE_PROPOSAL_DECLINED => 9 | LFG_UPDATETYPE_GROUP_FOUND => 10
  | LFG_UPDATETYPE_ADDED_TO_QUEUE => 12 | LFG_UPDATETYPE_PROPOSAL_BEGIN => 13 | LFG_UPDATETYPE_UPDATE_STATUS => 14
  | LFG_UPDATETYPE_GROUP_MEMBER_OFFLINE => 15 | LFG_UPDATETYPE_GROUP_DISBAND_UNK16 => 16
  end.
Definition join_result_value (r : LfgJoinResult) : Z :=
  match r with
  | LFG_JOIN_OK => 0 | LFG_JOIN_FAILED => 1 | LFG_JOIN_GROUPFULL => 2 | LFG_JOIN_INTERNAL_ERROR => 4
  | LFG_JOIN_NOT_MEET_REQS => 5 | LFG_JOIN_PARTY_NOT_MEET_REQS => 6 | LFG_JOIN_MIXED_RAID_DUNGEON => 7
  | LFG_JOIN_MULTI_REALM => 8 | LFG_JOIN_DISCONNECTED => 9 | LFG_JOIN_PARTY_INFO_FAILED => 10
  | LFG_JOIN_DUNGEON_INVALID => 11 | LFG_JOIN_DESERTER => 12 | LFG_JOIN_PARTY_DESERTER => 13
  | LFG_JOIN_RANDOM_COOLDOWN => 14 | LFG_JOIN_PARTY_RANDOM_COOLDOWN => 15 | LFG_JOIN_TOO_MUCH_MEMBERS => 16
  | LFG_JOIN_USING_BG_SYSTEM => 17
  end.
Definition role_check_value (s : LfgRoleCheckState) : Z :=
  match s with
  | LFG_ROLECHECK_DEFAULT => 0 | LFG_ROLECHECK_FINISHED => 1 | LFG_ROLECHECK_INITIALITING => 2
  | LFG_ROLECHECK_MISSING_ROLE => 3 | LFG_ROLECHECK_WRONG_ROLES => 4 | LFG_ROLECHECK_ABORTED => 5
  | LFG_ROLECHECK_NO_ROLE => 6
  end.
Definition proposal_state_value (s : LfgProposalState) : Z :=
  match s with LFG_PROPOSAL_INITIATING => 0 | LFG_PROPOSAL_FAILED => 1 | LFG_PROPOSAL_SUCCESS => 2 end.
Definition b2z (b : bool) : Z := if b then 1 else 0.

(** ** The packets *)

(** [for (it = l.begin(); ...) data << ...]. *)
Fixpoint write_all {A} (f : A -> BB unit) (l : list A) : BB unit :=
  match l with
  | [] => ret tt
  | x :: l => do! f x in write_all f l
  end.
(** The bytes of a list, from those of its elements. *)
Definition total {A} (sz : A -> Z) (l : list A) : Z := foldr (fun x n => sz x + n) 0 l.
Lemma total_nonneg {A} (sz : A -> Z) l : (forall x, 0 <= sz x) -> 0 <= total sz l.
Proof. intros H. unfold total. induction l as [|x l IH]; cbn [foldr]; [lia|]. specialize (H x). lia. Qed.
Lemma total_le {A} (sz : A -> Z) n l : (forall x, x ∈ l -> sz x <= n) -> total sz l <= zlen l * n.
Proof.
  unfold total, zlen. induction l as [|x l IH]; cbn [foldr length]; intros H; [lia|]. pose proof (H x (list_elem_of_here _ _)).
  assert (foldr (fun x n => sz x + n) 0 l <= Z.of_nat (length l) * n) by (apply IH; intros y Hy; apply H; now right). lia.
Qed.
Lemma grows_total {A} (sz : A -> Z) (f : A -> BB unit) l : (forall x, x ∈ l -> grows (sz x) (f x)) -> grows (total sz l) (write_all f l).
Proof.
  induction l as [|x l IH]; intros H; [apply grows_ret|]. apply grows_seq; [apply H; left|]. apply IH. intros y Hy. apply H. now right.
Qed.
Lemma fits_total {A} (sz : A -> Z) (f : A -> BB unit) l : (forall x, 0 <= sz x) -> (forall x, fits (sz x) (f x)) -> fits (total sz l) (write_all f l).
Proof.
  intros H0 H. induction l as [|x l IH]; cbn [write_all]; [apply fits_ret|]. apply fits_seq; [now apply total_nonneg|apply H|exact IH].
Qed.
Lemma fits_all {A} n (f : A -> BB unit) l : 0 <= n -> (forall x, x ∈ l -> fits n (f x)) -> fits (zlen l * n) (write_all f l).
Proof.
  intros H0. induction l as [|x l IH]; intros H; cbn [write_all]; [apply fits_ret|]. apply (fits_mono (n + zlen l * n)); [|unfold zlen; cbn [length]; lia].
  apply fits_seq; [unfold zlen; lia|apply H; left|apply IH; intros y Hy; apply H; now right].
Qed.

Definition BuildPlayerLockDungeonBlock (lock : gmap Z Z) : BB unit :=
  do! write_uint32 (Z.of_nat (base.size lock)) in
  write_all (fun e => do! write_uint32 e.1 in write_uint32 e.2) (entries Z.le lock).
Definition BuildPartyLockDungeonBlock (lockMap : LfgLockPartyMap) : BB unit :=
  do! write_uint8 (Z.of_nat (base.size lockMap)) in
  write_all (fun e => do! write_uint64 e.1 in BuildPlayerLockDungeonBlock e.2) (entries Z.le lockMap).

(** [queued] of the two status packets, and [join] of the second. *)
Definition player_queued (d : LfgUpdateData) : bool :=
  match updateType d with
  | LFG_UPDATETYPE_JOIN_QUEUE | LFG_UPDATETYPE_ADDED_TO_QUEUE => true
  | LFG_UPDATETYPE_UPDATE_STATUS => bool_decide (u_state d = LFG_STATE_QUEUED)
  | _ => false
  end.
Definition party_flags (d : LfgUpdateData) : bool * bool :=
  match updateType d with
  | LFG_UPDATETYPE_ADDED_TO_QUEUE => (true, true)
  | LFG_UPDATETYPE_PROPOSAL_BEGIN => (true, false)
  | LFG_UPDATETYPE_UPDATE_STATUS =>
      (negb (bool_decide (u_state d = LFG_STATE_ROLECHECK)) && negb (bool_decide (u_state d = LFG_STATE_NONE)),
       bool_decide (u_state d = LFG_STATE_QUEUED))
  | _ => (false, false)
  end.
(** The dungeons and the comment, when there are dungeons. *)
Definition write_selection (size : Z) (d : LfgUpdateData) : BB unit :=
  do! write_uint8 size in
  do! write_all write_uint32 (set_order Z.le (u_dungeons d)) in
  write_string (u_comment d).
Definition SendLfgUpdatePlayer (d : LfgUpdateData) : WorldPacket :=
  let size := u8 (Z.of_nat (base.size (u_dungeons d))) in
  stream (new_packet SMSG_LFG_UPDATE_PLAYER)
    (do! write_uint8 (update_type_value (updateType d)) in
     do! write_uint8 (b2z (0 <? size)) in
     if negb (size =? 0) then
       do! write_uint8 (b2z (player_queued d)) in
       do! write_uint8 0 in do! write_uint8 0 in
       write_selection size d
     else ret tt).
Definition SendLfgUpdateParty (d : LfgUpdateData) : WorldPacket :=
  let size := u8 (Z.of_nat (base.size (u_dungeons d))) in
  stream (new_packet SMSG_LFG_UPDATE_PARTY)
    (do! write_uint8 (update_type_value (updateType d)) in
     do! write_uint8 (b2z (0 <? size)) in
     if negb (size =? 0) then
       do! write_uint8 (b2z (party_flags d).1) in
       do! write_uint8 (b2z (party_flags d).2) in
       do! write_uint8 0 in do! write_uint8 0 in
       do! write_all write_uint8 (repeat 0 3) in
       write_selection size d
     else ret tt).

Definition SendLfgRoleChosen (guid roles : Z) : WorldPacket :=
  stream (new_packet SMSG_LFG_ROLE_CHOSEN)
    (do! write_uint64 guid in do! write_uint8 (b2z (0 <? roles)) in write_uint32 roles).

(** One player of a role check; his level when connected. *)
Definition write_member (level : Z -> option Z) (guid roles : Z) : BB unit :=
  do! write_uint64 guid in
  do! write_uint8 (b2z (0 <? roles)) in
  do! write_uint32 roles in
  write_uint8 (default 0 (level guid)).
Definition SendLfgRoleCheckUpdate (t : Dungeons) (level : Z -> option Z) (rc : LfgRoleCheck) : option WorldPacket :=
  let dungeons := shown_dungeons rc in
  let head :=
    do! write_uint32 (role_check_value (rc_state rc)) in
    do! write_uint8 (b2z (bool_decide (rc_state rc = LFG_ROLECHECK_INITIALITING))) in
    do! write_uint8 (Z.of_nat (base.size dungeons)) in
    do! write_all (fun id => write_uint32 (GetLFGDungeonEntry t id)) (set_order Z.le dungeons) in
    write_uint8 (Z.of_nat (base.size (rc_roles rc))) in
  if bool_decide (rc_roles rc = ∅) then Some (stream (new_packet SMSG_LFG_ROLE_CHECK_UPDATE) head)
  else
    match rc_roles rc !! rc_leader rc with
    | None => None
    | Some roles =>
      Some (stream (new_packet SMSG_LFG_ROLE_CHECK_UPDATE)
        (do! head in
         do! write_member level (rc_leader rc) roles in
         write_all (fun e => write_member level e.1 e.2)
           (filter (fun e => e.1 <> rc_leader rc) (entries Z.le (rc_roles rc)))))
    end.

Definition SendLfgJoinResult (d : LfgJoinResultData) : WorldPacket :=
  stream (new_packet SMSG_LFG_JOIN_RESULT)
    (do! write_uint32 (join_result_value (result d)) in
     do! write_uint32 (role_check_value (jr_state d)) in
     if negb (bool_decide (lockmap d = ∅)) then BuildPartyLockDungeonBlock (lockmap d) else ret tt).

Definition SendLfgQueueStatus (d : LfgQueueStatusData) : WorldPacket :=
  stream (new_packet SMSG_LFG_QUEUE_STATUS)
    (do! write_uint32 (s_dungeonId d) in
     do! write_uint32 (s_waitTimeAvg d) in
     do! write_uint32 (s_waitTime d) in
     do! write_uint32 (s_waitTimeTank d) in
     do! write_uint32 (s_waitTimeHealer d) in
     do! write_uint32 (s_waitTimeDps d) in
     do! write_uint8 (s_tanks d) in
     do! write_uint8 (s_healers d) in
     do! write_uint8 (s_dps d) in
     write_uint32 (s_queuedTime d)).

(** A quest, as far as it is shown: its four reward items and their number, which
    the server counts when it loads the quest. *)
Record Quest := mkQuest { q_money : Z; q_xp : Z; q_rewards : list (Z * Z); q_rew_count : Z }.
Definition write_items (display : Z -> option Z) (q : Quest) : BB unit :=
  if negb (q_rew_count q =? 0) then
    write_all (fun e => do! write_uint32 e.1 in do! write_uint32 (default 0 (display e.1)) in write_uint32 e.2)
      (filter (fun e => e.1 <> 0) (q_rewards q))
  else ret tt.
Definition SendLfgPlayerReward (display : Z -> option Z) (rdungeonEntry sdungeonEntry : Z) (done : bool)
    (quest : option Quest) : option WorldPacket :=
  match quest with
  | None => None
  | Some q =>
    if (rdungeonEntry =? 0) || (sdungeonEntry =? 0) then None
    else Some (stream (new_packet SMSG_LFG_PLAYER_REWARD)
      (do! write_uint32 rdungeonEntry in
       do! write_uint32 sdungeonEntry in
       do! write_uint8 (b2z done) in
       do! write_uint32 1 in
       do! write_uint32 (q_money q) in
       do! write_uint32 (q_xp q) in
       do! write_uint32 0 in do! write_uint32 0 in
       do! write_uint8 (q_rew_count q) in
       write_items display q))
  end.

(** [uint8((boot.cancelTime - time(NULL)) / 1000)]. *)
Definition secs_left (now : Z) (boot : LfgPlayerBoot) : Z := u8 (Z.quot (b_cancelTime boot - now) 1000).
Definition SendLfgBootProposalUpdate (now guid : Z) (boot : LfgPlayerBoot) : option WorldPacket :=
  match votes boot !! guid with
  | None => None
  | Some playerVote =>
    let '(votesNum, agreeNum) := count_votes (votes boot) in
    Some (stream (new_packet SMSG_LFG_BOOT_PROPOSAL_UPDATE)
      (do! write_uint8 (b2z (inProgress boot)) in
       do! write_uint8 (b2z (negb (bool_decide (playerVote = LFG_ANSWER_PENDING)))) in
       do! write_uint8 (b2z (bool_decide (playerVote = LFG_ANSWER_AGREE))) in
       do! write_uint64 (victim boot) in
       do! write_uint32 votesNum in
       do! write_uint32 agreeNum in
       do! write_uint32 (secs_left now boot) in
       do! write_uint32 LFG_GROUP_KICK_VOTES_NEEDED in
       write_string (reason boot)))
  end.

(** The dungeon shown to a player: the random one he selected, unless his group is
    in the dungeon already. *)
Definition shown_dungeon (selected : gset Z) (silent : bool) (dungeonId : Z) : option Z :=
  if silent || bool_decide (dungeonId ∈ selected) then Some dungeonId else head (set_order Z.le selected).
Definition write_proposal_player (p : LfgProposal) (guid gguid : Z) (e : Z * LfgProposalPlayer) : BB unit :=
  let player := e.2 in
  do! write_uint32 (role player) in
  do! write_uint8 (b2z (e.1 =? guid)) in
  do! (if LfgData.group_of player =? 0 then do! write_uint8 0 in write_uint8 0
       else do! write_uint8 (b2z (LfgData.group_of player =? p_group p)) in
            write_uint8 (b2z (LfgData.group_of player =? gguid))) in
  do! write_uint8 (b2z (negb (bool_decide (accept player = LFG_ANSWER_PENDING)))) in
  write_uint8 (b2z (bool_decide (accept player = LFG_ANSWER_AGREE))).
Definition SendLfgUpdateProposal (m : Mgr) (guid : Z) (p : LfgProposal) : option WorldPacket :=
  match p_players p !! guid with
  | None => None
  | Some self =>
    let gguid := LfgData.group_of self in
    let silent := negb (isNew p) && (gguid =? p_group p) in
    match shown_dungeon (GetSelectedDungeons m guid) silent (dungeonId p) with
    | None => None
    | Some shown =>
      Some (stream (new_packet SMSG_LFG_PROPOSAL_UPDATE)
        (do! write_uint32 (GetLFGDungeonEntry (tables m) shown) in
         do! write_uint8 (proposal_state_value (p_state p)) in
         do! write_uint32 (p_id p) in
         do! write_uint32 (encounters p) in
         do! write_uint8 (b2z silent) in
         do! write_uint8 (Z.of_nat (base.size (p_players p))) in
         write_all (write_proposal_player p guid gguid) (entries Z.le (p_players p))))
    end
  end.

Definition SendLfgLfrList (b : bool) : WorldPacket := stream (new_packet SMSG_LFG_UPDATE_SEARCH) (write_uint8 (b2z b)).
Definition SendLfgDisabled : WorldPacket := new_packet SMSG_LFG_DISABLED.
Definition SendLfgOfferContinue (dungeonEntry : Z) : WorldPacket :=
  stream (new_packet SMSG_LFG_OFFER_CONTINUE) (write_uint32 dungeonEntry).
Definition SendLfgTeleportError (err : Z) : WorldPacket :=
  stream (new_packet SMSG_LFG_TELEPORT_DENIED) (write_uint32 (u8 err)).

(** ** The handlers *)

Section Handlers.
Context {world : LfgWorld}.

(** The dungeons of a join request.  The counter is a signed byte. *)
Fixpoint read_dungeons (fuel : nat) (i numDungeons : Z) (acc : gset Z) : BB (gset Z) :=
  if i <? numDungeons then
    match fuel with
    | O => crash
    | S fuel =>
      let! dungeon := read_uint32 in
      read_dungeons fuel (s8 (i + 1)) numDungeons ({[Z.land dungeon 0x00FFFFFF]} ∪ acc)
    end
  else ret acc.
(** Each turn takes four bytes of the packet. *)
Definition read_dungeon_set (numDungeons : Z) : BB (gset Z) :=
  let! b := get in read_dungeons (S (Z.to_nat (size b))) 0 numDungeons ∅.

(** The group of the player, its leader and what joining asks of it. *)
Definition may_not_ask (m : Mgr) (player : Joiner) (grp : option (Z * JoinGroup)) : bool :=
  negb (lfg_enabled m) ||
  match grp with
  | Some (leader, g) => negb (leader =? j_guid player) && ((jg_count g =? MAXGROUPSIZE) || negb (jg_isLFG g))
  | None => false
  end.
Definition HandleLfgJoinOpcode (m : Mgr) (player : Joiner) (grp : option (Z * JoinGroup)) : BB Mgr :=
  if may_not_ask m player grp then do! rfinish in ret m
  else
    let! roles := read_uint32 in
    do! read_skip 2 in
    let! numDungeons := read_uint8 in
    if numDungeons =? 0 then do! rfinish in ret m
    else
      let! newDungeons := read_dungeon_set numDungeons in
      do! read_skip 4 in
      let! comment := read_string in
      ret (JoinLfg player (snd <$> grp) (u8 roles) newDungeons comment m).
Definition HandleLfgLeaveOpcode (m : Mgr) (guid : Z) (grp : option GroupView) : option Mgr :=
  let gguid := match grp with Some g => gv_guid g | None => guid end in
  if match grp with Some g => gv_leader g =? guid | None => true end then LeaveLfg gguid m else Some m.
Definition HandleLfgProposalResultOpcode (m : Mgr) (guid : Z) : BB (option Mgr) :=
  let! lfgGroupID := read_uint32 in
  let! accept := read_bool in
  ret (UpdateProposal lfgGroupID guid accept m).
Definition HandleLfgSetRolesOpcode (m : Mgr) (guid : Z) (gguid : option Z) : BB Mgr :=
  let! roles := read_uint8 in
  ret (match gguid with None => m | Some gguid => UpdateRoleCheck gguid guid roles m end).
Definition HandleLfgSetCommentOpcode (m : Mgr) (guid : Z) : BB Mgr :=
  let! comment := read_string in ret (SetComment guid comment m).
Definition HandleLfgSetBootVoteOpcode (m : Mgr) (guid : Z) : BB Mgr :=
  let! agree := read_bool in ret (UpdateBoot guid agree m).
Definition HandleLfgTeleportOpcode (m : Mgr) (player : Traveller) (grp : option GroupView) : BB Mgr :=
  let! out := read_bool in ret (TeleportPlayer player grp out true m).

(** The reward shown for a random dungeon: the first quest, or the other one when
    the first was done. *)
Definition shown_quest (has_quest : Z -> option Quest) (can_reward : Z -> bool) (reward : option LfgReward) : bool * option Quest :=
  match reward with
  | None => (false, None)
  | Some r =>
    match has_quest (firstQuest r) with
    | None => (false, None)
    | Some q => if can_reward (firstQuest r) then (false, Some q) else (true, has_quest (otherQuest r))
    end
  end.
Definition write_random_dungeon (t : Dungeons) (has_quest : Z -> option Quest) (can_reward : Z -> bool)
    (display : Z -> option Z) (level entry : Z) : BB unit :=
  do! write_uint32 entry in
  match shown_quest has_quest can_reward (GetRandomDungeonReward t entry level) with
  | (done, Some q) =>
    do! write_uint8 (b2z done) in
    do! write_uint32 (q_money q) in
    do! write_uint32 (q_xp q) in
    do! write_uint32 0 in do! write_uint32 0 in
    do! write_uint8 (q_rew_count q) in
    write_items display q
  | (_, None) =>
    do! write_uint8 0 in
    do! write_uint32 0 in do! write_uint32 0 in do! write_uint32 0 in do! write_uint32 0 in
    write_uint8 0
  end.
Definition HandleLfgPlayerLockInfoRequestOpcode (m : Mgr) (guid level expansion : Z) (has_quest : Z -> option Quest)
    (can_reward : Z -> bool) (display : Z -> option Z) : WorldPacket :=
  let randomDungeons := GetRandomAndSeasonalDungeons holiday (tables m) level expansion in
  stream (new_packet SMSG_LFG_PLAYER_INFO)
    (do! write_uint8 (Z.of_nat (base.size randomDungeons)) in
     do! write_all (write_random_dungeon (tables m) has_quest can_reward display level) (set_order Z.le randomDungeons) in
     BuildPlayerLockDungeonBlock (locked_dungeons m guid)).
Definition HandleLfgPartyLockInfoRequestOpcode (m : Mgr) (guid : Z) (grp : option GroupView) : option WorldPacket :=
  match grp with
  | None => None
  | Some g =>
    let lockMap := foldl (fun (lockMap : LfgLockPartyMap) p =>
                     if pl_guid p =? guid then lockMap else <[pl_guid p := locked_dungeons m (pl_guid p)]> lockMap)
                     ∅ (gv_members g) in
    Some (stream (new_packet SMSG_LFG_PARTY_INFO) (BuildPartyLockDungeonBlock lockMap))
  end.
Definition HandleLfrJoinOpcode : BB unit := do! read_uint32 in ret tt.
Definition HandleLfrLeaveOpcode : BB unit := do! read_uint32 in ret tt.
(** The two packets, in order. *)
Definition without_dungeons (d : LfgUpdateData) : LfgUpdateData := mkLfgUpdateData (updateType d) (u_state d) ∅ (u_comment d).
Definition HandleLfgGetStatus (m : Mgr) (guid : Z) (in_group : bool) : list WorldPacket :=
  let d := GetLfgStatus m guid in
  if in_group then [SendLfgUpdateParty d; SendLfgUpdatePlayer (without_dungeons d)]
  else [SendLfgUpdatePlayer d; SendLfgUpdateParty (without_dungeons d)].
End Handlers.

(** ** Join requests *)

Section Join.
Context {world : LfgWorld}.

Definition low24 (d : Z) : Z := Z.land d 0x00FFFFFF.
Lemma read_uint32_bytes b v rest : wf b -> unread b = le_bytes 4 v ++ rest ->
  read_uint32 b = (Ret (u32 v), advanced b 4).
Proof.
  intros Hwf E. unfold read_uint32. rewrite read_spec; [|done|rewrite E, length_app, length_le_bytes; lia].
  rewrite E, take_app_le, take_ge by (rewrite length_le_bytes; lia). now rewrite le_value_bytes.
Qed.
Lemma after_bytes b bs rest : wf b -> unread b = bs ++ rest ->
  wf (advanced b (length bs)) /\ unread (advanced b (length bs)) = rest.
Proof.
  intros Hwf E. split; [apply wf_advanced; [done|rewrite E, length_app; lia]|].
  rewrite unread_advanced by done. now rewrite E, drop_app_length.
Qed.
Lemma after_uint32 b v rest : wf b -> unread b = le_bytes 4 v ++ rest -> wf (advanced b 4) /\ unread (advanced b 4) = rest.
Proof. intros Hwf E. exact (after_bytes b (le_bytes 4 v) rest Hwf E). Qed.

(** Up to 127 dungeons are read as they stand. *)
Lemma read_dungeons_spec ds fuel i n acc b rest :
  wf b -> unread b = concat (map (le_bytes 4) ds) ++ rest -> 0 <= i -> i + Z.of_nat (length ds) = n -> n <= 127 ->
  (length ds <= fuel)%nat ->
  read_dungeons fuel i n acc b = (Ret (list_to_set (map (fun d => low24 (u32 d)) ds) ∪ acc), advanced b (4 * length ds)).
Proof.
  revert fuel i acc b. induction ds as [|d ds IH]; intros fuel i acc b Hwf E Hi Hn Hmax Hf.
  { cbn in Hn. destruct fuel; cbn [read_dungeons]; rewrite (proj2 (Z.ltb_ge i n)) by lia; unfold ret, advanced; cbn.
    all: rewrite union_empty_l_L, Z.add_0_r; now destruct b. }
  cbn [length] in *. destruct fuel as [|fuel]; [lia|]. cbn [read_dungeons]. rewrite (proj2 (Z.ltb_lt i n)) by lia.
  cbn [map concat] in E. rewrite <- app_assoc in E. destruct (after_uint32 b d _ Hwf E) as [Hwf' E'].
  rewrite (bind_ret _ _ _ _ _ (read_uint32_bytes b d _ Hwf E)). rewrite swrap_id by (unfold is_s; lia).
  rewrite (IH fuel (i + 1) _ (advanced b 4) Hwf' E') by lia. rewrite advanced_advanced.
  f_equal; [|f_equal; lia]. f_equal. cbn [map list_to_set]. fold (low24 (u32 d)). set_solver.
Qed.
(** With 128 or more the counter never gets there: it wraps, and the packet is
    read to its end, wherever that is. *)
Lemma read_dungeons_overflow fuel i n acc b :
  wf b -> -128 <= i <= 127 -> 128 <= n -> (length (unread b) < 4 * fuel)%nat ->
  exists e b', read_dungeons fuel i n acc b = (Throw e, b').
Proof.
  revert i acc b. induction fuel as [|fuel IH]; intros i acc b Hwf Hi Hn Hf; [lia|].
  cbn [read_dungeons]. rewrite (proj2 (Z.ltb_lt i n)) by lia. unfold read_uint32.
  destruct (decide (length (unread b) < 4)%nat) as [Hs|Hs].
  - rewrite (bind_throw _ _ _ _ _ (read_short b 4 Hwf Hs ltac:(lia))). eauto.
  - rewrite (bind_ret _ _ _ _ _ (read_spec b 4 Hwf ltac:(lia))). apply IH.
    + apply wf_advanced; [done|lia].
    + pose proof (swrap_range 8 (i + 1) ltac:(lia)) as H. unfold is_s in H. lia.
    + done.
    + rewrite unread_advanced by done. rewrite length_drop. lia.
Qed.

(** The bytes of a request: roles, two bytes, the dungeons with their types, four
    bytes, the comment. *)
Definition join_request (roles : Z) (pad : list Z) (ds : list Z) (pad2 comment : list Z) : list Z :=
  le_bytes 4 roles ++ pad ++ [Z.of_nat (length ds)] ++ concat (map (le_bytes 4) ds) ++ pad2 ++ comment ++ [0].

Lemma read_skip_spec b n rest bs : wf b -> unread b = bs ++ rest -> length bs = n ->
  read_skip (Z.of_nat n) b = (Ret tt, advanced b n).
Proof.
  intros Hwf E Hl. pose proof (length_unread b Hwf) as Hu. rewrite E, length_app in Hu. destruct Hwf as [Hw Hr Hb Hs].
  unfold read_skip, bind, get. rewrite uwrap_id by (split; lia). now rewrite (proj2 (Z.ltb_ge (size b) _)) by lia.
Qed.

Lemma read_string_bytes b s rest : wf b -> unread b = s ++ 0 :: rest ->
  Forall (fun c => is_u 8 c /\ c <> 0) s -> read_string b = (Ret s, advanced b (length s + 1)).
Proof.
  intros Hwf E Hs. unfold read_string, bind, get. pose proof (length_unread b Hwf) as Hl.
  rewrite E, length_app in Hl. cbn [length] in Hl.
  rewrite (read_chars_spec s _ [] b rest Hwf E Hs) by lia. done.
Qed.
Lemma read_uint8_byte b x rest : wf b -> unread b = x :: rest -> read_uint8 b = (Ret x, advanced b 1).
Proof.
  intros Hwf E. unfold read_uint8. rewrite (read_spec b 1 Hwf) by (rewrite E; cbn [length]; lia).
  rewrite E. cbn [take le_value]. rewrite take_0. cbn [le_value]. do 2 f_equal. lia.
Qed.
Lemma length_uint32s ds : length (concat (map (le_bytes 4) ds)) = (4 * length ds)%nat.
Proof. induction ds as [|d ds IH]; [done|]. cbn [map concat]. rewrite length_app, length_le_bytes, IH. cbn. lia. Qed.
(** The number of dungeons is in one byte; the set is read, or the packet runs out. *)
Lemma read_dungeon_set_spec ds b rest : wf b -> unread b = concat (map (le_bytes 4) ds) ++ rest ->
  (length ds <= 255)%nat -> Forall (is_u 32) ds ->
  if (length ds <=? 127)%nat
  then read_dungeon_set (Z.of_nat (length ds)) b = (Ret (list_to_set (map low24 ds)), advanced b (4 * length ds))
  else exists e b', read_dungeon_set (Z.of_nat (length ds)) b = (Throw e, b').
Proof.
  intros Hwf E Hds Hd. unfold read_dungeon_set, bind, get.
  assert (Hsz : (length (unread b) <= Z.to_nat (size b))%nat)
    by (pose proof (length_unread b Hwf); destruct Hwf as [? [? ?] ? ?]; lia).
  assert (Hlen : (4 * length ds <= length (unread b))%nat) by (rewrite E, length_app, length_uint32s; lia).
  destruct (Nat.leb_spec (length ds) 127) as [Hle|Hgt].
  - rewrite (read_dungeons_spec ds _ 0 _ ∅ b _ Hwf E) by lia. do 2 f_equal.
    rewrite union_empty_r_L. f_equal. apply map_ext_in. intros d Hin. f_equal.
    apply uwrap_id. rewrite Forall_forall in Hd. apply Hd. now apply list_elem_of_In.
  - apply read_dungeons_overflow; [done|lia|lia|lia].
Qed.

(** A join request of at most 127 dungeons, whatever stands in its unused
    bytes, has the effect of joining with the low byte of the roles, the numbers of
    the dungeons without their types and the comment.  A request that announces
    128 dungeons or more is refused with an exception at the end of the packet,
    whatever it contains, and the manager is not touched. *)
Theorem join_request_handled m player grp roles pad ds pad2 comment b :
  may_not_ask m player grp = false -> wf b -> unread b = join_request roles pad ds pad2 comment ->
  is_u 32 roles -> length pad = 2%nat -> (0 < length ds <= 255)%nat -> Forall (is_u 32) ds ->
  length pad2 = 4%nat -> Forall (fun c => is_u 8 c /\ c <> 0) comment ->
  if (length ds <=? 127)%nat
  then (HandleLfgJoinOpcode m player grp b).1
       = Ret (JoinLfg player (snd <$> grp) (u8 roles) (list_to_set (map low24 ds)) comment m)
  else exists e, (HandleLfgJoinOpcode m player grp b).1 = Throw e.
Proof.
  intros Hmay Hwf E Hr Hp Hds Hd Hp2 Hc. unfold HandleLfgJoinOpcode. rewrite Hmay. unfold join_request in E.
  destruct (after_uint32 b roles _ Hwf E) as [Hwf1 E1].
  rewrite (bind_ret _ _ _ _ _ (read_uint32_bytes b roles _ Hwf E)). rewrite (uwrap_id 32) by done.
  destruct (after_bytes _ pad _ Hwf1 E1) as [Hwf2 E2]. rewrite Hp in Hwf2, E2.
  rewrite (bind_ret _ _ _ _ _ (read_skip_spec _ 2 _ pad Hwf1 E1 Hp)).
  destruct (after_bytes _ [Z.of_nat (length ds)] _ Hwf2 E2) as [Hwf3 E3]. cbn [length] in Hwf3, E3.
  rewrite (bind_ret _ _ _ _ _ (read_uint8_byte _ _ _ Hwf2 E2)). rewrite (proj2 (Z.eqb_neq _ 0)) by lia.
  set (b3 := advanced (advanced (advanced b 4) 2) 1) in *.
  pose proof (read_dungeon_set_spec ds b3 _ Hwf3 E3 ltac:(lia) Hd) as Hset.
  destruct (length ds <=? 127)%nat; [|destruct Hset as (e & b' & Hset); exists e; now rewrite (bind_throw _ _ _ _ _ Hset)].
  rewrite (bind_ret _ _ _ _ _ Hset).
  destruct (after_bytes b3 _ _ Hwf3 E3) as [Hwf4 E4]. rewrite length_uint32s in Hwf4, E4.
  rewrite (bind_ret _ _ _ _ _ (read_skip_spec _ 4 _ pad2 Hwf4 E4 Hp2)).
  destruct (after_bytes _ pad2 _ Hwf4 E4) as [Hwf5 E5]. rewrite Hp2 in Hwf5, E5.
  rewrite (bind_ret _ _ _ _ _ (read_string_bytes _ comment [] Hwf5 E5 Hc)). reflexivity.
Qed.
End Join.

(** The time left to vote is shown in thousands of seconds: always 0. *)
Lemma secs_left_is_zero now boot : 0 <= b_cancelTime boot - now <= LFG_TIME_BOOT -> secs_left now boot = 0.
Proof.
  unfold secs_left, LFG_TIME_BOOT. intros H. rewrite Z.quot_small by lia. reflexivity.
Qed.

#[local] Existing Instance sample_world.
(** A player asks for dungeon 1, a random dungeon. *)
Definition request_bytes : list Z := join_request 2 [0; 0] [0x06000001] [3; 0; 0; 0] [104; 105].
Definition request_buffer : ByteBuffer := mkByteBuffer 0 (zlen request_bytes) request_bytes.
Definition asker : Joiner := mkJoiner 11 true false false false.
Lemma join_request_handled_witness :
  (HandleLfgJoinOpcode (new_mgr 3) asker None request_buffer).1
  = Ret (JoinLfg asker None 2 {[1]} [104; 105] (new_mgr 3)).
Proof.
  assert (Hwf : wf request_buffer).
  { split; [reflexivity|vm_compute; split; discriminate| |vm_compute; reflexivity].
    vm_compute. repeat (constructor; [split; [discriminate|reflexivity]|]). constructor. }
  assert (Hd : Forall (is_u 32) [0x06000001]) by (repeat constructor; unfold is_u; lia).
  assert (Hc : Forall (fun c => is_u 8 c /\ c <> 0) [104; 105]) by (repeat constructor; unfold is_u; lia).
  pose proof (join_request_handled (new_mgr 3) asker None 2 [0; 0] [0x06000001] [3; 0; 0; 0] [104; 105] request_buffer
    ltac:(vm_compute; reflexivity) Hwf ltac:(vm_compute; reflexivity) ltac:(unfold is_u; lia) eq_refl
    ltac:(cbn; lia) Hd eq_refl Hc) as H.
  cbn [length Nat.leb map] in H. rewrite H. replace (low24 0x06000001) with 1 by reflexivity.
  replace (list_to_set [1] : gset Z) with ({[1]} : gset Z) by (cbn; now rewrite union_empty_r_L).
  reflexivity.
Defined.
