(* ===== verification/ActionLogic.v ===== *)
(** * A logic for actions

    Combinators of the state monad of [Prelude] and triples for it: [triple P m Q]
    says that [m], started where [P] holds, returns a value and a state related by
    [Q]; it neither throws nor crashes.  The groups and their loot are programs of
    this monad, and their claims are proved with these rules. *)

From stdpp Require Import base list.
From S2P Require Import Prelude.

Definition gets {S E A} (f : S -> A) : action S E A := fun s => (Ret (f s), s).
Definition modify {S E} (f : S -> S) : action S E unit := fun s => (Ret tt, f s).
Definition when {S E} (b : bool) (m : action S E unit) : action S E unit := if b then m else ret tt.
Definition of_option {S E A} (o : option A) : action S E A :=
  match o with Some a => ret a | None => crash end.
Fixpoint for_each {S E A} (l : list A) (f : A -> action S E unit) : action S E unit :=
  match l with
  | [] => ret tt
  | x :: l => do! f x in for_each l f
  end.
Fixpoint fold_m {S E A B} (f : B -> A -> action S E B) (l : list A) (b : B) : action S E B :=
  match l with
  | [] => ret b
  | x :: l => let! b' := f b x in fold_m f l b'
  end.

Section Triples.
Context {S E : Type}.
Implicit Types P R : S -> Prop.

Definition triple {A} (P : S -> Prop) (m : action S E A) (Q : A -> S -> Prop) : Prop :=
  forall s, P s -> exists a s', m s = (Ret a, s') /\ Q a s'.

Lemma triple_ret {A} (a : A) (Q : A -> S -> Prop) : triple (Q a) (ret a) Q.
Proof. intros s H. now exists a, s. Qed.
Lemma triple_bind {A B} P (m : action S E A) (k : A -> action S E B) (R : A -> S -> Prop) (Q : B -> S -> Prop) :
  triple P m R -> (forall a, triple (R a) (k a) Q) -> triple P (bind m k) Q.
Proof.
  intros Hm Hk s Hs. destruct (Hm s Hs) as (a & s1 & E1 & H1). destruct (Hk a s1 H1) as (b & s2 & E2 & H2).
  exists b, s2. split; [|done]. unfold bind. now rewrite E1.
Qed.
Lemma triple_conseq {A} P P' (m : action S E A) (Q Q' : A -> S -> Prop) :
  triple P m Q -> (forall s, P' s -> P s) -> (forall a s, Q a s -> Q' a s) -> triple P' m Q'.
Proof. intros H HP HQ s Hs. destruct (H s (HP s Hs)) as (a & s' & E1 & H1). exists a, s'. auto. Qed.
Lemma triple_gets {A} (f : S -> A) (Q : A -> S -> Prop) : triple (fun s => Q (f s) s) (gets f) Q.
Proof. intros s H. now exists (f s), s. Qed.
Lemma triple_modify (f : S -> S) (Q : unit -> S -> Prop) : triple (fun s => Q tt (f s)) (modify f) Q.
Proof. intros s H. now exists tt, (f s). Qed.

(** A program that keeps [P]. *)
Definition keeps {A} (P : S -> Prop) (m : action S E A) : Prop := triple P m (fun _ => P).

Lemma keeps_ret {A} P (a : A) : keeps P (ret a).
Proof. apply triple_ret with (Q := fun _ => P). Qed.
Lemma keeps_bind {A B} P (m : action S E A) (k : A -> action S E B) :
  keeps P m -> (forall a, keeps P (k a)) -> keeps P (bind m k).
Proof. intros. now apply triple_bind with (R := fun _ => P). Qed.
(** The second part may use what the first one read. *)
Lemma keeps_gets {A B} P (f : S -> A) (k : A -> action S E B) (Q : B -> S -> Prop) :
  (forall a, triple (fun s => P s /\ f s = a) (k a) Q) -> triple P (bind (gets f) k) Q.
Proof.
  intros H. apply triple_bind with (R := fun a s => P s /\ f s = a); [|done].
  intros s Hs. now exists (f s), s.
Qed.
Lemma keeps_modify P (f : S -> S) : (forall s, P s -> P (f s)) -> keeps P (modify f).
Proof. intros H s Hs. exists tt, (f s). auto. Qed.
Lemma keeps_when P b (m : action S E unit) : (b = true -> keeps P m) -> keeps P (when b m).
Proof. unfold when. destruct b; [auto|]. intros _. apply keeps_ret. Qed.
Lemma keeps_for_each {A} P (l : list A) (f : A -> action S E unit) :
  (forall x, x ∈ l -> keeps P (f x)) -> keeps P (for_each l f).
Proof.
  induction l as [|x l IH]; intros H; [apply keeps_ret|]. apply keeps_bind; [apply H; left|].
  intros _. apply IH. intros y Hy. apply H. now right.
Qed.
(** A loop whose predicate counts the rounds left. *)
Lemma triple_for_each {A} (P : nat -> S -> Prop) (l : list A) (f : A -> action S E unit) n :
  (forall k x, x ∈ l -> triple (P (Datatypes.S k)) (f x) (fun _ => P k)) ->
  triple (P (length l + n)%nat) (for_each l f) (fun _ => P n).
Proof.
  induction l as [|x l IH]; intros H; [apply triple_ret with (Q := fun _ => P n)|].
  apply triple_bind with (R := fun _ => P (length l + n)%nat); [apply H; left|].
  intros _. apply IH. intros k y Hy. apply H. now right.
Qed.
Lemma keeps_fold_m {A B} P (f : B -> A -> action S E B) (l : list A) (b : B) :
  (forall b x, x ∈ l -> keeps P (f b x)) -> keeps P (fold_m f l b).
Proof.
  revert b. induction l as [|x l IH]; intros b H; [apply keeps_ret|]. apply keeps_bind; [apply H; left|].
  intros b'. apply IH. intros c y Hy. apply H. now right.
Qed.

Lemma bind_gets {A B} (f : S -> A) (k : A -> action S E B) s : bind (gets f) k s = k (f s) s.
Proof. done. Qed.
Lemma bind_modify {B} (f : S -> S) (k : unit -> action S E B) s : bind (modify f) k s = k tt (f s).
Proof. done. Qed.
Lemma bind_eq {A B} (m : action S E A) (k : A -> action S E B) s a s' :
  m s = (Ret a, s') -> bind m k s = k a s'.
Proof. unfold bind. now intros ->. Qed.
End Triples.

#[export] Hint Resolve keeps_ret keeps_when keeps_for_each keeps_fold_m : trinity.
