(* ===== verification/GroupTypes.v ===== *)
(** * Groups: the data (src/server/game/Groups/Group.h and Group.cpp)

    A group with its member slots, sub group counters, target icons, loot
    settings, rolls and instance binds, and the operations of the class that look
    at nothing else.  [m_memberMgr] is the list of the references of the players in
    the game that are linked to the group, the latest first: a reference is
    [m_group] or [m_originalGroup] of a player.  The counters are an array of
    [MAX_RAID_SUBGROUPS] bytes that only raids have; an access outside it is
    [None].

    The claims: a target has at most one icon; the round robin of the looter is
    the next eligible member in the circle of members. *)

From stdpp Require Import base gmap list.
From Stdlib Require Import ZArith Lia.
From S2P Require Import Prelude.
#[local] Open Scope Z_scope.

Definition MAXGROUPSIZE : Z := 5.
Definition MAXRAIDSIZE : Z := 40.
Definition MAX_RAID_SUBGROUPS : Z := Z.quot MAXRAIDSIZE MAXGROUPSIZE.
Definition TARGETICONCOUNT : Z := 8.

Inductive RollVote := PASS | NEED | GREED | DISENCHANT | NOT_EMITED_YET | NOT_VALID.
#[export] Instance RollVote_eq_dec : EqDecision RollVote.
Proof. solve_decision. Defined.

Definition MEMBER_STATUS_OFFLINE : Z := 0x0000.
Definition MEMBER_STATUS_ONLINE : Z := 0x0001.
Definition MEMBER_STATUS_PVP : Z := 0x0002.
Definition MEMBER_FLAG_ASSISTANT : Z := 0x01.
Definition MEMBER_FLAG_MAINTANK : Z := 0x02.
Definition MEMBER_FLAG_MAINASSIST : Z := 0x04.
Definition GROUP_ASSIGN_MAINTANK : Z := 0.
Definition GROUP_ASSIGN_MAINASSIST : Z := 1.
Definition GROUPTYPE_NORMAL : Z := 0x00.
Definition GROUPTYPE_BG : Z := 0x01.
Definition GROUPTYPE_RAID : Z := 0x02.
Definition GROUPTYPE_BGRAID : Z := Z.lor GROUPTYPE_BG GROUPTYPE_RAID.
Definition GROUPTYPE_UNK1 : Z := 0x04.
Definition GROUPTYPE_LFG : Z := 0x08.

(** [LootMethod], [ItemQualities], [Difficulty]. *)
Definition FREE_FOR_ALL : Z := 0.
Definition MASTER_LOOT : Z := 2.
Definition GROUP_LOOT : Z := 3.
Definition NEED_BEFORE_GREED : Z := 4.
Definition ITEM_QUALITY_UNCOMMON : Z := 2.
Definition ITEM_QUALITY_ARTIFACT : Z := 6.
Definition DUNGEON_DIFFICULTY_NORMAL : Z := 0.
Definition DUNGEON_DIFFICULTY_HEROIC : Z := 1.
Definition RAID_DIFFICULTY_10MAN_NORMAL : Z := 0.
Definition RAID_DIFFICULTY_10MAN_HEROIC : Z := 2.
Definition MAX_DUNGEON_DIFFICULTY : Z := 3.
Definition MAX_RAID_DIFFICULTY : Z := 4.

Definition ROLL_PASS : Z := 0.
Definition ROLL_NEED : Z := 1.
Definition ROLL_GREED : Z := 2.
Definition ROLL_DISENCHANT : Z := 3.
Definition MAX_ROLL_TYPE : Z := 4.
Definition ROLL_FLAG_TYPE_NEED : Z := 0x02.
Definition ROLL_FLAG_TYPE_DISENCHANT : Z := 0x08.
Definition ROLL_ALL_TYPE_NO_DISENCHANT : Z := 0x07.

(** [roll_loot] is the loot the roll is linked to while it is valid. *)
Record Roll := mkRoll {
  itemGUID : Z;
  itemid : Z;
  itemRandomPropId : Z;
  itemRandomSuffix : Z;
  itemCount : Z;
  roll_loot : option Z;
  playerVote : gmap Z RollVote;
  totalPlayersRolling : Z;
  totalNeed : Z;
  totalGreed : Z;
  totalPass : Z;
  itemSlot : Z;
  rollVoteMask : Z
}.
Definition set_itemGUID (v : Z) (r : Roll) : Roll :=
  mkRoll v (itemid r) (itemRandomPropId r) (itemRandomSuffix r) (itemCount r) (roll_loot r) (playerVote r)
    (totalPlayersRolling r) (totalNeed r) (totalGreed r) (totalPass r) (itemSlot r) (rollVoteMask r).
Definition set_itemid (v : Z) (r : Roll) : Roll :=
  mkRoll (itemGUID r) v (itemRandomPropId r) (itemRandomSuffix r) (itemCount r) (roll_loot r) (playerVote r)
    (totalPlayersRolling r) (totalNeed r) (totalGreed r) (totalPass r) (itemSlot r) (rollVoteMask r).
Definition set_itemRandomPropId (v : Z) (r : Roll) : Roll :=
  mkRoll (itemGUID r) (itemid r) v (itemRandomSuffix r) (itemCount r) (roll_loot r) (playerVote r)
    (totalPlayersRolling r) (totalNeed r) (totalGreed r) (totalPass r) (itemSlot r) (rollVoteMask r).
Definition set_itemRandomSuffix (v : Z) (r : Roll) : Roll :=
  mkRoll (itemGUID r) (itemid r) (itemRandomPropId r) v (itemCount r) (roll_loot r) (playerVote r)
    (totalPlayersRolling r) (totalNeed r) (totalGreed r) (totalPass r) (itemSlot r) (rollVoteMask r).
Definition set_itemCount (v : Z) (r : Roll) : Roll :=
  mkRoll (itemGUID r) (itemid r) (itemRandomPropId r) (itemRandomSuffix r) v (roll_loot r) (playerVote r)
    (totalPlayersRolling r) (totalNeed r) (totalGreed r) (totalPass r) (itemSlot r) (rollVoteMask r).
Definition set_roll_loot (v : option Z) (r : Roll) : Roll :=
  mkRoll (itemGUID r) (itemid r) (itemRandomPropId r) (itemRandomSuffix r) (itemCount r) v (playerVote r)
    (totalPlayersRolling r) (totalNeed r) (totalGreed r) (totalPass r) (itemSlot r) (rollVoteMask r).
Definition set_playerVote (v : gmap Z RollVote) (r : Roll) : Roll :=
  mkRoll (itemGUID r) (itemid r) (itemRandomPropId r) (itemRandomSuffix r) (itemCount r) (roll_loot r) v
    (totalPlayersRolling r) (totalNeed r) (totalGreed r) (totalPass r) (itemSlot r) (rollVoteMask r).
Definition set_totalPlayersRolling (v : Z) (r : Roll) : Roll :=
  mkRoll (itemGUID r) (itemid r) (itemRandomPropId r) (itemRandomSuffix r) (itemCount r) (roll_loot r)
    (playerVote r) v (totalNeed r) (totalGreed r) (totalPass r) (itemSlot r) (rollVoteMask r).
Definition set_totalNeed (v : Z) (r : Roll) : Roll :=
  mkRoll (itemGUID r) (itemid r) (itemRandomPropId r) (itemRandomSuffix r) (itemCount r) (roll_loot r)
    (playerVote r) (totalPlayersRolling r) v (totalGreed r) (totalPass r) (itemSlot r) (rollVoteMask r).
Definition set_totalGreed (v : Z) (r : Roll) : Roll :=
  mkRoll (itemGUID r) (itemid r) (itemRandomPropId r) (itemRandomSuffix r) (itemCount r) (roll_loot r)
    (playerVote r) (totalPlayersRolling r) (totalNeed r) v (totalPass r) (itemSlot r) (rollVoteMask r).
Definition set_totalPass (v : Z) (r : Roll) : Roll :=
  mkRoll (itemGUID r) (itemid r) (itemRandomPropId r) (itemRandomSuffix r) (itemCount r) (roll_loot r)
    (playerVote r) (totalPlayersRolling r) (totalNeed r) (totalGreed r) v (itemSlot r) (rollVoteMask r).
Definition set_itemSlot (v : Z) (r : Roll) : Roll :=
  mkRoll (itemGUID r) (itemid r) (itemRandomPropId r) (itemRandomSuffix r) (itemCount r) (roll_loot r)
    (playerVote r) (totalPlayersRolling r) (totalNeed r) (totalGreed r) (totalPass r) v (rollVoteMask r).
Definition set_rollVoteMask (v : Z) (r : Roll) : Roll :=
  mkRoll (itemGUID r) (itemid r) (itemRandomPropId r) (itemRandomSuffix r) (itemCount r) (roll_loot r)
    (playerVote r) (totalPlayersRolling r) (totalNeed r) (totalGreed r) (totalPass r) (itemSlot r) v.

Record MemberSlot := mkMemberSlot { s_guid : Z; s_name : list Z; s_group : Z; s_flags : Z; s_roles : Z }.
Definition set_s_group (v : Z) (s : MemberSlot) : MemberSlot := mkMemberSlot (s_guid s) (s_name s) v (s_flags s) (s_roles s).
Definition set_s_flags (v : Z) (s : MemberSlot) : MemberSlot := mkMemberSlot (s_guid s) (s_name s) (s_group s) v (s_roles s).
Definition set_s_roles (v : Z) (s : MemberSlot) : MemberSlot := mkMemberSlot (s_guid s) (s_name s) (s_group s) (s_flags s) v.

(** The save is an instance id; the key of a bind is the difficulty and the map. *)
Record InstanceGroupBind := mkInstanceGroupBind { save : option Z; perm : bool }.

Record Group := mkGroup {
  m_memberSlots : list MemberSlot;
  m_memberMgr : list (Z * bool);
  m_invitees : gset Z;
  m_leaderGuid : Z;
  m_leaderName : list Z;
  m_groupType : Z;
  m_dungeonDifficulty : Z;
  m_raidDifficulty : Z;
  m_bgGroup : option Z;
  m_bfGroup : option Z;
  m_targetIcons : list Z;
  m_lootMethod : Z;
  m_lootThreshold : Z;
  m_looterGuid : Z;
  m_masterLooterGuid : Z;
  RollId : list Roll;
  m_boundInstances : gmap (Z * Z) InstanceGroupBind;
  m_subGroupsCounts : option (list Z);
  m_guid : Z;
  m_counter : Z;
  m_maxEnchantingLevel : Z;
  m_dbStoreId : Z
}.
Definition set_m_memberSlots (v : list MemberSlot) (r : Group) : Group :=
  mkGroup v (m_memberMgr r) (m_invitees r) (m_leaderGuid r) (m_leaderName r) (m_groupType r)
    (m_dungeonDifficulty r) (m_raidDifficulty r) (m_bgGroup r) (m_bfGroup r) (m_targetIcons r) (m_lootMethod
    r) (m_lootThreshold r) (m_looterGuid r) (m_masterLooterGuid r) (RollId r) (m_boundInstances r)
    (m_subGroupsCounts r) (m_guid r) (m_counter r) (m_maxEnchantingLevel r) (m_dbStoreId r).
Definition set_m_memberMgr (v : list (Z * bool)) (r : Group) : Group :=
  mkGroup (m_memberSlots r) v (m_invitees r) (m_leaderGuid r) (m_leaderName r) (m_groupType r)
    (m_dungeonDifficulty r) (m_raidDifficulty r) (m_bgGroup r) (m_bfGroup r) (m_targetIcons r) (m_lootMethod
    r) (m_lootThreshold r) (m_looterGuid r) (m_masterLooterGuid r) (RollId r) (m_boundInstances r)
    (m_subGroupsCounts r) (m_guid r) (m_counter r) (m_maxEnchantingLevel r) (m_dbStoreId r).
Definition set_m_invitees (v : gset Z) (r : Group) : Group :=
  mkGroup (m_memberSlots r) (m_memberMgr r) v (m_leaderGuid r) (m_leaderName r) (m_groupType r)
    (m_dungeonDifficulty r) (m_raidDifficulty r) (m_bgGroup r) (m_bfGroup r) (m_targetIcons r) (m_lootMethod
    r) (m_lootThreshold r) (m_looterGuid r) (m_masterLooterGuid r) (RollId r) (m_boundInstances r)
    (m_subGroupsCounts r) (m_guid r) (m_counter r) (m_maxEnchantingLevel r) (m_dbStoreId r).
Definition set_m_leaderGuid (v : Z) (r : Group) : Group :=
  mkGroup (m_memberSlots r) (m_memberMgr r) (m_invitees r) v (m_leaderName r) (m_groupType r)
    (m_dungeonDifficulty r) (m_raidDifficulty r) (m_bgGroup r) (m_bfGroup r) (m_targetIcons r) (m_lootMethod
    r) (m_lootThreshold r) (m_looterGuid r) (m_masterLooterGuid r) (RollId r) (m_boundInstances r)
    (m_subGroupsCounts r) (m_guid r) (m_counter r) (m_maxEnchantingLevel r) (m_dbStoreId r).
Definition set_m_leaderName (v : list Z) (r : Group) : Group :=
  mkGroup (m_memberSlots r) (m_memberMgr r) (m_invitees r) (m_leaderGuid r) v (m_groupType r)
    (m_dungeonDifficulty r) (m_raidDifficulty r) (m_bgGroup r) (m_bfGroup r) (m_targetIcons r) (m_lootMethod
    r) (m_lootThreshold r) (m_looterGuid r) (m_masterLooterGuid r) (RollId r) (m_boundInstances r)
    (m_subGroupsCounts r) (m_guid r) (m_counter r) (m_maxEnchantingLevel r) (m_dbStoreId r).
Definition set_m_groupType (v : Z) (r : Group) : Group :=
  mkGroup (m_memberSlots r) (m_memberMgr r) (m_invitees r) (m_leaderGuid r) (m_leaderName r) v
    (m_dungeonDifficulty r) (m_raidDifficulty r) (m_bgGroup r) (m_bfGroup r) (m_targetIcons r) (m_lootMethod
    r) (m_lootThreshold r) (m_looterGuid r) (m_masterLooterGuid r) (RollId r) (m_boundInstances r)
    (m_subGroupsCounts r) (m_guid r) (m_counter r) (m_maxEnchantingLevel r) (m_dbStoreId r).
Definition set_m_dungeonDifficulty (v : Z) (r : Group) : Group :=
  mkGroup (m_memberSlots r) (m_memberMgr r) (m_invitees r) (m_leaderGuid r) (m_leaderName r) (m_groupType r) v
    (m_raidDifficulty r) (m_bgGroup r) (m_bfGroup r) (m_targetIcons r) (m_lootMethod r) (m_lootThreshold r)
    (m_looterGuid r) (m_masterLooterGuid r) (RollId r) (m_boundInstances r) (m_subGroupsCounts r) (m_guid r)
    (m_counter r) (m_maxEnchantingLevel r) (m_dbStoreId r).
Definition set_m_raidDifficulty (v : Z) (r : Group) : Group :=
  mkGroup (m_memberSlots r) (m_memberMgr r) (m_invitees r) (m_leaderGuid r) (m_leaderName r) (m_groupType r)
    (m_dungeonDifficulty r) v (m_bgGroup r) (m_bfGroup r) (m_targetIcons r) (m_lootMethod r) (m_lootThreshold
    r) (m_looterGuid r) (m_masterLooterGuid r) (RollId r) (m_boundInstances r) (m_subGroupsCounts r) (m_guid
    r) (m_counter r) (m_maxEnchantingLevel r) (m_dbStoreId r).
Definition set_m_bgGroup (v : option Z) (r : Group) : Group :=
  mkGroup (m_memberSlots r) (m_memberMgr r) (m_invitees r) (m_leaderGuid r) (m_leaderName r) (m_groupType r)
    (m_dungeonDifficulty r) (m_raidDifficulty r) v (m_bfGroup r) (m_targetIcons r) (m_lootMethod r)
    (m_lootThreshold r) (m_looterGuid r) (m_masterLooterGuid r) (RollId r) (m_boundInstances r)
    (m_subGroupsCounts r) (m_guid r) (m_counter r) (m_maxEnchantingLevel r) (m_dbStoreId r).
Definition set_m_bfGroup (v : option Z) (r : Group) : Group :=
  mkGroup (m_memberSlots r) (m_memberMgr r) (m_invitees r) (m_leaderGuid r) (m_leaderName r) (m_groupType r)
    (m_dungeonDifficulty r) (m_raidDifficulty r) (m_bgGroup r) v (m_targetIcons r) (m_lootMethod r)
    (m_lootThreshold r) (m_looterGuid r) (m_masterLooterGuid r) (RollId r) (m_boundInstances r)
    (m_subGroupsCounts r) (m_guid r) (m_counter r) (m_maxEnchantingLevel r) (m_dbStoreId r).
Definition set_m_targetIcons (v : list Z) (r : Group) : Group :=
  mkGroup (m_memberSlots r) (m_memberMgr r) (m_invitees r) (m_leaderGuid r) (m_leaderName r) (m_groupType r)
    (m_dungeonDifficulty r) (m_raidDifficulty r) (m_bgGroup r) (m_bfGroup r) v (m_lootMethod r)
    (m_lootThreshold r) (m_looterGuid r) (m_masterLooterGuid r) (RollId r) (m_boundInstances r)
    (m_subGroupsCounts r) (m_guid r) (m_counter r) (m_maxEnchantingLevel r) (m_dbStoreId r).
Definition set_m_lootMethod (v : Z) (r : Group) : Group :=
  mkGroup (m_memberSlots r) (m_memberMgr r) (m_invitees r) (m_leaderGuid r) (m_leaderName r) (m_groupType r)
    (m_dungeonDifficulty r) (m_raidDifficulty r) (m_bgGroup r) (m_bfGroup r) (m_targetIcons r) v
    (m_lootThreshold r) (m_looterGuid r) (m_masterLooterGuid r) (RollId r) (m_boundInstances r)
    (m_subGroupsCounts r) (m_guid r) (m_counter r) (m_maxEnchantingLevel r) (m_dbStoreId r).
Definition set_m_lootThreshold (v : Z) (r : Group) : Group :=
  mkGroup (m_memberSlots r) (m_memberMgr r) (m_invitees r) (m_leaderGuid r) (m_leaderName r) (m_groupType r)
    (m_dungeonDifficulty r) (m_raidDifficulty r) (m_bgGroup r) (m_bfGroup r) (m_targetIcons r) (m_lootMethod
    r) v (m_looterGuid r) (m_masterLooterGuid r) (RollId r) (m_boundInstances r) (m_subGroupsCounts r) (m_guid
    r) (m_counter r) (m_maxEnchantingLevel r) (m_dbStoreId r).
Definition set_m_looterGuid (v : Z) (r : Group) : Group :=
  mkGroup (m_memberSlots r) (m_memberMgr r) (m_invitees r) (m_leaderGuid r) (m_leaderName r) (m_groupType r)
    (m_dungeonDifficulty r) (m_raidDifficulty r) (m_bgGroup r) (m_bfGroup r) (m_targetIcons r) (m_lootMethod
    r) (m_lootThreshold r) v (m_masterLooterGuid r) (RollId r) (m_boundInstances r) (m_subGroupsCounts r)
    (m_guid r) (m_counter r) (m_maxEnchantingLevel r) (m_dbStoreId r).
Definition set_m_masterLooterGuid (v : Z) (r : Group) : Group :=
  mkGroup (m_memberSlots r) (m_memberMgr r) (m_invitees r) (m_leaderGuid r) (m_leaderName r) (m_groupType r)
    (m_dungeonDifficulty r) (m_raidDifficulty r) (m_bgGroup r) (m_bfGroup r) (m_targetIcons r) (m_lootMethod
    r) (m_lootThreshold r) (m_looterGuid r) v (RollId r) (m_boundInstances r) (m_subGroupsCounts r) (m_guid r)
    (m_counter r) (m_maxEnchantingLevel r) (m_dbStoreId r).
Definition set_RollId (v : list Roll) (r : Group) : Group :=
  mkGroup (m_memberSlots r) (m_memberMgr r) (m_invitees r) (m_leaderGuid r) (m_leaderName r) (m_groupType r)
    (m_dungeonDifficulty r) (m_raidDifficulty r) (m_bgGroup r) (m_bfGroup r) (m_targetIcons r) (m_lootMethod
    r) (m_lootThreshold r) (m_looterGuid r) (m_masterLooterGuid r) v (m_boundInstances r) (m_subGroupsCounts
    r) (m_guid r) (m_counter r) (m_maxEnchantingLevel r) (m_dbStoreId r).
Definition set_m_boundInstances (v : gmap (Z * Z) InstanceGroupBind) (r : Group) : Group :=
  mkGroup (m_memberSlots r) (m_memberMgr r) (m_invitees r) (m_leaderGuid r) (m_leaderName r) (m_groupType r)
    (m_dungeonDifficulty r) (m_raidDifficulty r) (m_bgGroup r) (m_bfGroup r) (m_targetIcons r) (m_lootMethod
    r) (m_lootThreshold r) (m_looterGuid r) (m_masterLooterGuid r) (RollId r) v (m_subGroupsCounts r) (m_guid
    r) (m_counter r) (m_maxEnchantingLevel r) (m_dbStoreId r).
Definition set_m_subGroupsCounts (v : option (list Z)) (r : Group) : Group :=
  mkGroup (m_memberSlots r) (m_memberMgr r) (m_invitees r) (m_leaderGuid r) (m_leaderName r) (m_groupType r)
    (m_dungeonDifficulty r) (m_raidDifficulty r) (m_bgGroup r) (m_bfGroup r) (m_targetIcons r) (m_lootMethod
    r) (m_lootThreshold r) (m_looterGuid r) (m_masterLooterGuid r) (RollId r) (m_boundInstances r) v (m_guid
    r) (m_counter r) (m_maxEnchantingLevel r) (m_dbStoreId r).
Definition set_m_guid (v : Z) (r : Group) : Group :=
  mkGroup (m_memberSlots r) (m_memberMgr r) (m_invitees r) (m_leaderGuid r) (m_leaderName r) (m_groupType r)
    (m_dungeonDifficulty r) (m_raidDifficulty r) (m_bgGroup r) (m_bfGroup r) (m_targetIcons r) (m_lootMethod
    r) (m_lootThreshold r) (m_looterGuid r) (m_masterLooterGuid r) (RollId r) (m_boundInstances r)
    (m_subGroupsCounts r) v (m_counter r) (m_maxEnchantingLevel r) (m_dbStoreId r).
Definition set_m_counter (v : Z) (r : Group) : Group :=
  mkGroup (m_memberSlots r) (m_memberMgr r) (m_invitees r) (m_leaderGuid r) (m_leaderName r) (m_groupType r)
    (m_dungeonDifficulty r) (m_raidDifficulty r) (m_bgGroup r) (m_bfGroup r) (m_targetIcons r) (m_lootMethod
    r) (m_lootThreshold r) (m_looterGuid r) (m_masterLooterGuid r) (RollId r) (m_boundInstances r)
    (m_subGroupsCounts r) (m_guid r) v (m_maxEnchantingLevel r) (m_dbStoreId r).
Definition set_m_maxEnchantingLevel (v : Z) (r : Group) : Group :=
  mkGroup (m_memberSlots r) (m_memberMgr r) (m_invitees r) (m_leaderGuid r) (m_leaderName r) (m_groupType r)
    (m_dungeonDifficulty r) (m_raidDifficulty r) (m_bgGroup r) (m_bfGroup r) (m_targetIcons r) (m_lootMethod
    r) (m_lootThreshold r) (m_looterGuid r) (m_masterLooterGuid r) (RollId r) (m_boundInstances r)
    (m_subGroupsCounts r) (m_guid r) (m_counter r) v (m_dbStoreId r).
Definition set_m_dbStoreId (v : Z) (r : Group) : Group :=
  mkGroup (m_memberSlots r) (m_memberMgr r) (m_invitees r) (m_leaderGuid r) (m_leaderName r) (m_groupType r)
    (m_dungeonDifficulty r) (m_raidDifficulty r) (m_bgGroup r) (m_bfGroup r) (m_targetIcons r) (m_lootMethod
    r) (m_lootThreshold r) (m_looterGuid r) (m_masterLooterGuid r) (RollId r) (m_boundInstances r)
    (m_subGroupsCounts r) (m_guid r) (m_counter r) (m_maxEnchantingLevel r) v.

Definition new_group : Group :=
  mkGroup [] [] ∅ 0 [] GROUPTYPE_NORMAL DUNGEON_DIFFICULTY_NORMAL RAID_DIFFICULTY_10MAN_NORMAL None None
    (repeat 0 (Z.to_nat TARGETICONCOUNT)) FREE_FOR_ALL ITEM_QUALITY_UNCOMMON 0 0 [] ∅ None 0 0 0 0.

(** ** Accessors *)

Definition isLFGGroup (g : Group) : bool := negb (Z.land (m_groupType g) GROUPTYPE_LFG =? 0).
Definition isRaidGroup (g : Group) : bool := negb (Z.land (m_groupType g) GROUPTYPE_RAID =? 0).
Definition isBGGroup (g : Group) : bool := bool_decide (m_bgGroup g <> None).
Definition isBFGroup (g : Group) : bool := bool_decide (m_bfGroup g <> None).
(** Groups that are not in the database. *)
Definition is_pvp (g : Group) : bool := isBGGroup g || isBFGroup g.
Definition GetMembersCount (g : Group) : Z := u32 (zlen (m_memberSlots g)).
Definition IsCreated (g : Group) : bool := 0 <? GetMembersCount g.
Definition IsFull (g : Group) : bool :=
  if isRaidGroup g then MAXRAIDSIZE <=? zlen (m_memberSlots g) else MAXGROUPSIZE <=? zlen (m_memberSlots g).
Definition IsLeader (g : Group) (guid : Z) : bool := m_leaderGuid g =? guid.
Definition isRollLootActive (g : Group) : bool := negb (bool_decide (RollId g = [])).
Definition GetDifficulty (g : Group) (isRaid : bool) : Z := if isRaid then m_raidDifficulty g else m_dungeonDifficulty g.

(** [_getMemberCSlot] and [_getMemberWSlot]: the position of the slot, if any. *)
Definition find_slot (guid : Z) (l : list MemberSlot) : option (nat * MemberSlot) :=
  list_find (fun s => s_guid s = guid) l.
Definition getMemberSlot (g : Group) (guid : Z) : option MemberSlot := snd <$> find_slot guid (m_memberSlots g).
Definition alter_slot (guid : Z) (f : MemberSlot -> MemberSlot) (g : Group) : Group :=
  match find_slot guid (m_memberSlots g) with
  | Some (i, s) => set_m_memberSlots (<[i := f s]> (m_memberSlots g)) g
  | None => g
  end.
Definition IsMember (g : Group) (guid : Z) : bool := bool_decide (getMemberSlot g guid <> None).
Definition GetMemberGUID (g : Group) (name : list Z) : Z :=
  match list_find (fun s => s_name s = name) (m_memberSlots g) with Some (_, s) => s_guid s | None => 0 end.
Definition IsAssistant (g : Group) (guid : Z) : bool :=
  match getMemberSlot g guid with Some s => negb (Z.land (s_flags s) MEMBER_FLAG_ASSISTANT =? 0) | None => false end.
Definition SameSubGroup (g : Group) (guid1 guid2 : Z) : bool :=
  match getMemberSlot g guid2 with
  | None => false
  | Some s2 => match getMemberSlot g guid1 with Some s1 => s_group s1 =? s_group s2 | None => false end
  end.
Definition GetMemberGroup (g : Group) (guid : Z) : Z :=
  match getMemberSlot g guid with Some s => s_group s | None => MAX_RAID_SUBGROUPS + 1 end.

(** ** Sub groups *)

Definition count_at (sub : Z) (step : Z) (g : Group) : option Group :=
  match m_subGroupsCounts g with
  | None => Some g
  | Some counts =>
    match counts !! Z.to_nat sub with
    | None => None
    | Some n => Some (set_m_subGroupsCounts (Some (<[Z.to_nat sub := u8 (n + step)]> counts)) g)
    end
  end.
Definition SubGroupCounterIncrease (sub : Z) (g : Group) : option Group := count_at sub 1 g.
Definition SubGroupCounterDecrease (sub : Z) (g : Group) : option Group := count_at sub (-1) g.
Definition HasFreeSlotSubGroup (g : Group) (sub : Z) : option bool :=
  match m_subGroupsCounts g with
  | None => Some false
  | Some counts => (fun n => n <? MAXGROUPSIZE) <$> counts !! Z.to_nat sub
  end.
Definition initRaidSubGroupsCounter (g : Group) : option Group :=
  foldl (fun o s => match o with Some g => SubGroupCounterIncrease (s_group s) g | None => None end)
    (Some (set_m_subGroupsCounts (Some (repeat 0 (Z.to_nat MAX_RAID_SUBGROUPS))) g)) (m_memberSlots g).
(** [AddMember]: the first sub group with a free slot. *)
Definition first_free (counts : list Z) : option Z :=
  (fun p => Z.of_nat p.1) <$> list_find (fun n => n < MAXGROUPSIZE) counts.

(** ** Member flags *)

Definition toggle (flags flag : Z) (apply : bool) : Z :=
  if apply then u8 (Z.lor flags flag) else u8 (Z.land flags (Z.lnot flag)).
Definition ToggleGroupMemberFlag (guid flag : Z) (apply : bool) (g : Group) : Group :=
  alter_slot guid (fun s => set_s_flags (toggle (s_flags s) flag apply) s) g.
Definition RemoveUniqueGroupMemberFlag (flag : Z) (g : Group) : Group :=
  set_m_memberSlots (map (fun s => if negb (Z.land (s_flags s) flag =? 0)
                                   then set_s_flags (toggle (s_flags s) flag false) s else s) (m_memberSlots g)) g.

(** ** Target icons *)

(** [SetTargetIcon]: the icons, and the messages sent in order: who set it, the
    icon and its target.  An icon is taken from its target by the same function
    with no target, on behalf of nobody. *)
Definition IconMessage : Type := (Z * Z * Z)%type.
Definition clear_icon (target : Z) (acc : list Z * list IconMessage) (i : nat) : list Z * list IconMessage :=
  let '(icons, sent) := acc in
  if bool_decide (icons !! i = Some target) then (<[i := 0]> icons, sent ++ [(0, Z.of_nat i, 0)]) else acc.
Definition set_icon (id who target : Z) (icons : list Z) : list Z * list IconMessage :=
  if TARGETICONCOUNT <=? id then (icons, [])
  else
    let '(icons, sent) := if negb (target =? 0) then foldl (clear_icon target) (icons, []) (seq 0 (Z.to_nat TARGETICONCOUNT))
                          else (icons, []) in
    (<[Z.to_nat id := target]> icons, sent ++ [(who, id, target)]).
Definition SetTargetIcon (id who target : Z) (g : Group) : Group * list IconMessage :=
  let '(icons, sent) := set_icon id who target (m_targetIcons g) in (set_m_targetIcons icons g, sent).
(** [SendTargetIconList]: the icons that are set. *)
Definition SendTargetIconList (g : Group) : list (Z * Z) :=
  filter (fun e => e.2 <> 0) (imap (fun i target => (Z.of_nat i, target)) (m_targetIcons g)).

(** ** The round robin of the looter *)

(** [UpdateLooterGuid]: the new looter, or [None] when nothing changes.  [near]
    says that a player is in the game and near the looted object. *)
Definition next_looter (near : Z -> bool) (ifneed : bool) (g : Group) : option Z :=
  if m_lootMethod g =? FREE_FOR_ALL then None
  else
    let old := m_looterGuid g in
    let slots := map s_guid (m_memberSlots g) in
    let pos := match find_slot old (m_memberSlots g) with Some (i, _) => i | None => length slots end in
    if ifneed && bool_decide (find_slot old (m_memberSlots g) <> None) && near old then None
    else
      let from := if bool_decide (find_slot old (m_memberSlots g) <> None) then S pos else pos in
      let found := match List.find near (drop from slots) with
                   | Some p => Some p
                   | None => List.find near (take from slots)
                   end in
      match found with
      | Some p => if negb (old =? p) then Some p else None
      | None => Some 0
      end.

(** The group, and whether an update is sent. *)
Definition UpdateLooterGuid (near : Z -> bool) (ifneed : bool) (g : Group) : Group * bool :=
  match next_looter near ifneed g with Some p => (set_m_looterGuid p g, true) | None => (g, false) end.

(** ** Battleground queues *)

(** What the queue asks of a member; [None] is a reference without a player. *)
Record QueueMember := mkQueueMember {
  qm_team : Z; qm_bracket : option Z; qm_arenaTeam : Z; qm_in_this_queue : bool; qm_in_random_queue : bool;
  qm_in_queue : bool; qm_can_join : bool; qm_free_queue : bool; qm_using_lfg : bool
}.
Definition BATTLEGROUND_AA : Z := 6.
Definition BATTLEGROUND_RB : Z := 32.
Definition ERR_GROUP_JOIN_BATTLEGROUND_FAIL : Z := 0.
Definition ERR_BATTLEGROUND_NONE : Z := -1.
Definition ERR_GROUP_JOIN_BATTLEGROUND_DESERTERS : Z := -2.
Definition ERR_ARENA_TEAM_PARTY_SIZE : Z := -3.
Definition ERR_BATTLEGROUND_TOO_MANY_QUEUES : Z := -4.
Definition ERR_BATTLEGROUND_JOIN_RANGE_INDEX : Z := -10.
Definition ERR_BATTLEGROUND_JOIN_TIMED_OUT : Z := -11.
Definition ERR_BATTLEGROUND_JOIN_FAILED : Z := -12.
Definition ERR_LFG_CANT_USE_BATTLEGROUND : Z := -13.
Definition ERR_IN_RANDOM_BG : Z := -14.
Definition ERR_IN_NON_RANDOM_BG : Z := -15.

Definition cannot_queue (typeId : Z) (isRated : bool) (reference : QueueMember) (m : option QueueMember) : option Z :=
  match m with
  | None => Some ERR_BATTLEGROUND_JOIN_FAILED
  | Some m =>
    if negb (qm_team m =? qm_team reference) then Some ERR_BATTLEGROUND_JOIN_TIMED_OUT
    else if negb (bool_decide (qm_bracket m = qm_bracket reference)) then Some ERR_BATTLEGROUND_JOIN_RANGE_INDEX
    else if isRated && negb (qm_arenaTeam m =? qm_arenaTeam reference) then Some ERR_BATTLEGROUND_JOIN_FAILED
    else if qm_in_this_queue m then Some ERR_BATTLEGROUND_JOIN_FAILED
    else if qm_in_random_queue m then Some ERR_IN_RANDOM_BG
    else if (typeId =? BATTLEGROUND_RB) && qm_in_queue m then Some ERR_IN_NON_RANDOM_BG
    else if negb (typeId =? BATTLEGROUND_AA) && negb (qm_can_join m) then Some ERR_GROUP_JOIN_BATTLEGROUND_DESERTERS
    else if negb (qm_free_queue m) then Some ERR_BATTLEGROUND_TOO_MANY_QUEUES
    else if qm_using_lfg m then Some ERR_LFG_CANT_USE_BATTLEGROUND
    else None
  end.
(** [maxGroupSize] is that of the battleground's entry, if it has one; [members]
    are the linked members, the first being the reference. *)
Definition CanJoinBattlegroundQueue (g : Group) (typeId : Z) (isArena : bool) (maxGroupSize : option Z)
    (MinPlayerCount : Z) (isRated : bool) (members : list (option QueueMember)) : Z :=
  if isLFGGroup g then ERR_LFG_CANT_USE_BATTLEGROUND
  else
    match maxGroupSize with
    | None => ERR_GROUP_JOIN_BATTLEGROUND_FAIL
    | Some size =>
      if size <? GetMembersCount g then ERR_BATTLEGROUND_NONE
      else
        match head members with
        | Some (Some reference) =>
          match qm_bracket reference with
          | None => ERR_BATTLEGROUND_JOIN_FAILED
          | Some _ =>
            match list_find (fun m => cannot_queue typeId isRated reference m <> None) members with
            | Some (_, m) => default 0 (cannot_queue typeId isRated reference m)
            | None => if isArena && negb (zlen members =? MinPlayerCount) then ERR_ARENA_TEAM_PARTY_SIZE else typeId
            end
          end
        | _ => ERR_BATTLEGROUND_JOIN_FAILED
        end
    end.

(** ** The claims on icons *)

(** What a client shows after a message. *)
Definition show_icon (icons : list Z) (m : IconMessage) : list Z := <[Z.to_nat m.1.2 := m.2]> icons.
Definition icon_requests (reqs : list IconMessage) (g : Group) : Group * list IconMessage :=
  foldl (fun acc r => let '(g, sent) := SetTargetIcon r.1.2 r.1.1 r.2 acc.1 in (g, acc.2 ++ sent)) (g, []) reqs.

Definition unique_icons (icons : list Z) : Prop :=
  length icons = Z.to_nat TARGETICONCOUNT /\
  forall i j t, t <> 0 -> icons !! i = Some t -> icons !! j = Some t -> i = j.

Lemma clear_icons t ns icons sent :
  t <> 0 ->
  let r := foldl (clear_icon t) (icons, sent) ns in
  r.1 = imap (fun i x => if bool_decide (x = t /\ i ∈ ns) then 0 else x) icons /\
  exists more, r.2 = sent ++ more /\ foldl show_icon icons more = r.1.
Proof.
  intros Ht. revert icons sent. induction ns as [|n ns IH]; intros icons sent; cbn.
  - split; [|exists []; now rewrite app_nil_r].
    apply list_eq. intros i. rewrite list_lookup_imap. destruct (icons !! i) as [x|]; cbn; [|done].
    rewrite bool_decide_false; [done|]. intros [_ H]. now apply elem_of_nil in H.
  - case_bool_decide as E.
    + destruct (IH (<[n := 0]> icons) (sent ++ [(0, Z.of_nat n, 0)])) as (I & more & S1 & S2). split.
      * rewrite I. apply list_eq. intros i. rewrite !list_lookup_imap.
        destruct (decide (i = n)) as [->|Hi].
        -- rewrite list_lookup_insert_eq by (now apply lookup_lt_Some in E). rewrite E. cbn.
           rewrite bool_decide_false by (intros [? _]; congruence).
           rewrite bool_decide_true; [done|]. split; [done|left].
        -- rewrite list_lookup_insert_ne by done. destruct (icons !! i); cbn; [|done].
           f_equal. apply (f_equal (fun b : bool => if b then 0 else _)).
           apply bool_decide_ext. rewrite elem_of_cons. naive_solver.
      * exists ((0, Z.of_nat n, 0) :: more). rewrite S1, <- app_assoc. split; [done|].
        cbn. unfold show_icon at 2. cbn. now rewrite Nat2Z.id.
    + destruct (IH icons sent) as (I & more & S1 & S2). split; [|now exists more].
      rewrite I. apply list_eq. intros i. rewrite !list_lookup_imap. destruct (icons !! i) eqn:Ei; cbn; [|done].
      f_equal. apply (f_equal (fun b : bool => if b then 0 else _)).
      apply bool_decide_ext. rewrite elem_of_cons. naive_solver.
Qed.

Lemma set_icon_spec id who t icons :
  0 <= id -> unique_icons icons ->
  let r := set_icon id who t icons in
  unique_icons r.1 /\ foldl show_icon icons r.2 = r.1 /\ (id < TARGETICONCOUNT -> r.1 !! Z.to_nat id = Some t).
Proof.
  intros Hid [Hl Hu]. unfold set_icon. destruct (Z.leb_spec TARGETICONCOUNT id) as [Hb|Hb]; cbn.
  { split; [done|]. split; [done|]. lia. }
  assert (Hlt : (Z.to_nat id < length icons)%nat) by (rewrite Hl; unfold TARGETICONCOUNT in *; lia).
  destruct (Z.eqb_spec t 0) as [->|Ht]; cbn [negb].
  - cbn. unfold show_icon. cbn. split; [|split; [done|intros _; now rewrite list_lookup_insert_eq]].
    split; [now rewrite length_insert|]. intros i j u Hu0.
    rewrite !list_lookup_insert. repeat case_decide; naive_solver.
  - destruct (clear_icons t (seq 0 (Z.to_nat TARGETICONCOUNT)) icons [] Ht) as (I & more & S1 & S2).
    destruct (foldl _ _ _) as [cleared sent]. cbn in I, S1, S2 |- *. subst sent.
    assert (Hc : length cleared = length icons) by (rewrite I; apply length_imap).
    assert (Hcl : forall i u, cleared !! i = Some u -> u <> 0 -> u <> t /\ icons !! i = Some u).
    { intros i u Hi Hu0. rewrite I, list_lookup_imap in Hi. destruct (icons !! i) as [x|] eqn:Ei; cbn in Hi; [|done].
      case_bool_decide as E; [congruence|]. injection Hi as <-. split; [|done]. intros ->. apply E. split; [done|].
      apply lookup_lt_Some in Ei. rewrite elem_of_seq. lia. }
    split; [|split; [|intros _; rewrite list_lookup_insert_eq; [done|lia]]].
    + split; [rewrite length_insert; congruence|]. intros i j u Hu0.
      rewrite !list_lookup_insert. repeat case_decide; intros Hi Hj; try naive_solver.
    + rewrite foldl_app, S2. done.
Qed.

(** C35. Over every sequence of requests that set target icons of a new group a
    target has at most one icon, a request that names an icon gives it to its
    target, and a client that follows the messages sent shows exactly the icons
    of the group. *)
Theorem target_icons_correct (reqs : list IconMessage) :
  Forall (fun r => is_u 8 r.1.2) reqs ->
  let r := icon_requests reqs new_group in
  unique_icons (m_targetIcons r.1) /\ foldl show_icon (m_targetIcons new_group) r.2 = m_targetIcons r.1 /\
  (forall who id target, last reqs = Some (who, id, target) -> id < TARGETICONCOUNT ->
     m_targetIcons r.1 !! Z.to_nat id = Some target).
Proof.
  intros H. induction reqs as [|r reqs IH] using rev_ind.
  - split; [|done]. split; [done|]. intros i j t Ht Ei. apply list_elem_of_lookup_2, list_elem_of_In, repeat_spec in Ei. done.
  - apply Forall_app in H as [H [[Hr _] _]%Forall_cons]. specialize (IH H).
    unfold icon_requests in *. rewrite foldl_app. cbn. destruct (foldl _ _ reqs) as [g sent]. cbn.
    destruct IH as (U & S & _). unfold SetTargetIcon.
    destruct r as [[who id] target]. cbn in *.
    pose proof (set_icon_spec id who target _ Hr U) as (U' & S' & L). destruct (set_icon id who target _) as [icons more].
    cbn in *. split; [done|]. split; [now rewrite foldl_app, S|].
    intros ? ? ? E Hid. rewrite last_snoc in E. injection E as <- <- <-. exact (L Hid).
Qed.

Lemma target_icons_correct_witness :
  let reqs := [(7, 0, 42); (7, 3, 42); (8, 3, 43); (8, 200, 42); (7, 0, 43)] in
  let r := icon_requests reqs new_group in
  Forall (fun r : IconMessage => is_u 8 r.1.2) reqs /\ m_targetIcons r.1 = [43; 0; 0; 0; 0; 0; 0; 0] /\
  r.2 = [(7, 0, 42); (0, 0, 0); (7, 3, 42); (8, 3, 43); (0, 3, 0); (7, 0, 43)] /\
  unique_icons (m_targetIcons r.1).
Proof.
  assert (H : Forall (fun r : IconMessage => is_u 8 r.1.2) [(7, 0, 42); (7, 3, 42); (8, 3, 43); (8, 200, 42); (7, 0, 43)])
    by (repeat (apply Forall_cons_2; [unfold is_u; cbn; lia|]); apply Forall_nil_2).
  split; [exact H|]. split; [vm_compute; reflexivity|]. split; [vm_compute; reflexivity|]. exact (proj1 (target_icons_correct _ H)).
Defined.

(** ** The claims on the looter *)

(** The circle of the members, after the looter. *)
Definition circle (g : Group) : list Z :=
  let slots := map s_guid (m_memberSlots g) in
  match find_slot (m_looterGuid g) (m_memberSlots g) with
  | Some (i, _) => drop (S i) slots ++ take (S i) slots
  | None => slots
  end.
(** The looter gives up his turn [n] times. *)
Definition turns (near : Z -> bool) (n : nat) (g : Group) : Group :=
  Nat.iter n (fun g => (UpdateLooterGuid near false g).1) g.

Lemma find_app {A} (f : A -> bool) l k :
  List.find f (l ++ k) = match List.find f l with Some x => Some x | None => List.find f k end.
Proof. induction l as [|x l IH]; [done|]. cbn. destruct (f x); [done|]. apply IH. Qed.
Lemma find_first {A} (f : A -> bool) l x :
  List.find f l = Some x -> exists a b, l = a ++ x :: b /\ f x = true /\ filter (fun x => f x = true) a = [].
Proof.
  induction l as [|y l IH]; [done|]. cbn. destruct (f y) eqn:Ey.
  - intros [= ->]. now exists [], l.
  - intros H. destruct (IH H) as (a & b & -> & Hx & Ha). exists (y :: a), b. split; [done|]. split; [done|].
    rewrite filter_cons_False by congruence. done.
Qed.
Lemma find_none {A} (f : A -> bool) l : List.find f l = None -> filter (fun x => f x = true) l = [].
Proof.
  induction l as [|y l IH]; [done|]. cbn [List.find]. destruct (f y) eqn:Ey; [done|]. intros H.
  rewrite filter_cons_False by congruence. auto.
Qed.

Lemma find_slot_split guid slots :
  NoDup (map s_guid slots) ->
  forall a b, map s_guid slots = a ++ guid :: b -> exists s, find_slot guid slots = Some (length a, s).
Proof.
  unfold find_slot. revert slots. intros slots Hn a. revert slots Hn. induction a as [|x a IH]; intros [|s slots] Hn b E; try done;
    cbn in E; injection E as E1 E2.
  - exists s. cbn. now rewrite decide_True.
  - apply NoDup_cons in Hn as [Hs Hn]. destruct (IH slots Hn b E2) as [s' Hs'].
    exists s'. cbn. rewrite decide_False.
    + rewrite Hs'. done.
    + intros Eg. apply Hs. change (s_guid s ∈ map s_guid slots). rewrite E2, Eg. set_solver.
Qed.
Lemma find_slot_inv guid slots i s :
  find_slot guid slots = Some (i, s) -> s_guid s = guid /\ slots !! i = Some s.
Proof. unfold find_slot. intros H%list_find_Some. naive_solver. Qed.

Lemma set_looter_slots p g : m_memberSlots (set_m_looterGuid p g) = m_memberSlots g.
Proof. done. Qed.

(** The circle after the turn went to [p]. *)
Lemma circle_next g p a b :
  NoDup (map s_guid (m_memberSlots g)) -> circle g = a ++ p :: b ->
  circle (set_m_looterGuid p g) = b ++ a ++ [p].
Proof.
  intros Hn. unfold circle. cbn [m_looterGuid set_m_looterGuid m_memberSlots].
  set (slots := map s_guid (m_memberSlots g)) in *.
  assert (Hp : forall x y, slots = x ++ p :: y ->
    match find_slot p (m_memberSlots g) with
    | Some (i, _) => drop (S i) slots ++ take (S i) slots | None => slots end = y ++ x ++ [p]).
  { intros x y E. destruct (find_slot_split p (m_memberSlots g) Hn x y E) as [s ->]. rewrite E.
    rewrite (cons_middle p x y), app_assoc.
    replace (S (length x)) with (length (x ++ [p])) by (rewrite length_app; cbn; lia).
    now rewrite drop_app_length, take_app_length. }
  destruct (find_slot (m_looterGuid g) (m_memberSlots g)) as [[k s]|] eqn:Ek.
  - intros E. set (d := drop (S k) slots) in *. set (t := take (S k) slots) in *.
    assert (Es : slots = t ++ d) by (symmetry; apply take_drop).
    apply app_eq_inv in E as [(z & Ed & Ez)|(z & Ea & Et)].
    + destruct z as [|q z].
      * cbn in Ez. rewrite app_nil_r in Ed. subst a. rewrite (Hp [] (b ++ d)); [now rewrite <- app_assoc|].
        now rewrite Es, <- Ez.
      * cbn in Ez. injection Ez as <- ->. rewrite (Hp (t ++ a) z); [now rewrite <- !app_assoc|].
        rewrite Es, Ed. now rewrite <- app_assoc.
    + rewrite (Hp z (b ++ d)); [now rewrite Ea, <- !app_assoc|]. rewrite Es, Et. now rewrite <- app_assoc.
  - intros E. now apply Hp.
Qed.

Lemma circle_perm g : circle g ≡ₚ map s_guid (m_memberSlots g).
Proof.
  unfold circle. destruct (find_slot _ _) as [[i s]|]; [|done].
  rewrite (Permutation_app_comm (drop _ _)). now rewrite take_drop.
Qed.

Lemma next_looter_circle near g :
  m_lootMethod g <> FREE_FOR_ALL ->
  let g' := (UpdateLooterGuid near false g).1 in
  g' = set_m_looterGuid (default 0 (List.find near (circle g))) g.
Proof.
  intros Hm. unfold UpdateLooterGuid, next_looter.
  destruct (Z.eqb_spec (m_lootMethod g) FREE_FOR_ALL) as [|_]; [done|]. cbn [andb].
  assert (Hc : forall i, find_slot (m_looterGuid g) (m_memberSlots g) = i ->
    circle g = let from := match i with Some (k, _) => S k | None => length (map s_guid (m_memberSlots g)) end in
               drop from (map s_guid (m_memberSlots g)) ++ take from (map s_guid (m_memberSlots g))).
  { intros i Hi. unfold circle. rewrite Hi. destruct i as [[k s]|]; [done|]. cbn. now rewrite drop_all, firstn_all. }
  rewrite (Hc _ eq_refl). cbn zeta.
  destruct (find_slot _ _) as [[k s]|]; cbn [bool_decide]; rewrite find_app.
  - rewrite bool_decide_true by done. destruct (List.find near (drop _ _)) as [p|].
    + destruct (Z.eqb_spec (m_looterGuid g) p) as [<-|]; [now destruct g|done].
    + destruct (List.find near _) as [p|]; [|done]. destruct (Z.eqb_spec (m_looterGuid g) p) as [<-|]; [now destruct g|done].
  - rewrite bool_decide_false by (intros H; now apply H). destruct (List.find near (drop _ _)) as [p|].
    + destruct (Z.eqb_spec (m_looterGuid g) p) as [<-|]; [now destruct g|done].
    + destruct (List.find near _) as [p|]; [|done]. destruct (Z.eqb_spec (m_looterGuid g) p) as [<-|]; [now destruct g|done].
Qed.

Definition waiting (near : Z -> bool) (g : Group) : list Z := filter (fun p => near p = true) (circle g).
Definition to_the_end {A} (l : list A) : list A := match l with [] => [] | x :: l => l ++ [x] end.

Lemma waiting_next near g :
  m_lootMethod g <> FREE_FOR_ALL -> NoDup (map s_guid (m_memberSlots g)) ->
  let g' := (UpdateLooterGuid near false g).1 in
  m_looterGuid g' = default 0 (head (waiting near g)) /\ waiting near g' = to_the_end (waiting near g) /\
  m_lootMethod g' = m_lootMethod g /\ m_memberSlots g' = m_memberSlots g.
Proof.
  intros Hm Hn. cbn zeta. rewrite (next_looter_circle near g Hm). cbn [m_looterGuid set_m_looterGuid m_lootMethod m_memberSlots].
  unfold waiting. destruct (List.find near (circle g)) as [p|] eqn:E.
  - destruct (find_first _ _ _ E) as (a & b & Ec & Hp & Ha). change (default 0 (Some p)) with p.
    rewrite (circle_next g p a b Hn Ec), Ec, !filter_app, Ha, (filter_cons_True _ p b) by done. cbn [app head].
    split; [done|]. split; [|done]. cbn [to_the_end]. now rewrite (filter_cons_True _ p []) by done.
  - pose proof (find_none _ _ E) as En. rewrite En. split; [done|]. split; [|done]. change (default 0 None) with 0.
    assert (Hp : circle (set_m_looterGuid 0 g) ≡ₚ circle g) by now rewrite !circle_perm.
    apply Permutation_nil_r. cbn [to_the_end]. symmetry. rewrite <- En. now apply filter_Permutation.
Qed.

Lemma to_the_end_lookup {A} (l : list A) n i :
  (i < length l)%nat -> Nat.iter n to_the_end l !! i = l !! ((n + i) mod length l)%nat.
Proof.
  assert (Hl : forall k : list A, length (to_the_end k) = length k).
  { intros [|x k]; [done|]. cbn. rewrite length_app. cbn. lia. }
  revert i. induction n as [|n IH]; intros i Hi.
  - cbn. now rewrite Nat.mod_small.
  - rewrite Nat.iter_succ. assert (Hln : length (Nat.iter n to_the_end l) = length l).
    { clear IH. induction n; [done|]. cbn. now rewrite Hl. }
    destruct (Nat.iter n to_the_end l) as [|x k] eqn:Ek; [cbn in Hln; lia|]. cbn [length] in Hln.
    cbn [to_the_end]. destruct (decide (i = length k)) as [->|Hne].
    + rewrite lookup_app_r, Nat.sub_diag by lia. transitivity ((x :: k) !! 0%nat); [done|].
      rewrite IH by lia. f_equal. replace (S n + length k)%nat with (n + 1 * length l)%nat by lia.
      now rewrite Nat.Div0.mod_add, Nat.add_0_r.
    + rewrite lookup_app_l by lia. transitivity ((x :: k) !! S i); [done|]. rewrite IH by lia. f_equal. f_equal. lia.
Qed.

Lemma turns_S near n g : turns near (S n) g = (UpdateLooterGuid near false (turns near n g)).1.
Proof. done. Qed.

(** C36. When the looted object is under a round robin, the turns go to the
    members near it in the circle that starts after the last looter, each once
    before anyone again; with nobody near there is no looter.  Asked to change the
    looter only if need be, a looter who is near keeps his turn. *)
Theorem looter_round_robin (near : Z -> bool) (g : Group) :
  m_lootMethod g <> FREE_FOR_ALL -> NoDup (map s_guid (m_memberSlots g)) ->
  let c := filter (fun p => near p = true) (circle g) in
  (forall n, m_looterGuid (turns near (S n) g) = default 0 (c !! (n mod length c)%nat)) /\
  (UpdateLooterGuid near true g =
   if IsMember g (m_looterGuid g) && near (m_looterGuid g) then (g, false) else UpdateLooterGuid near false g).
Proof.
  intros Hm Hn. cbn zeta. fold (waiting near g). split.
  - assert (K : forall n, waiting near (turns near n g) = Nat.iter n to_the_end (waiting near g) /\
                m_lootMethod (turns near n g) <> FREE_FOR_ALL /\ m_memberSlots (turns near n g) = m_memberSlots g).
    { intros n. induction n as [|n (W & M & S)]; [done|]. rewrite turns_S, Nat.iter_succ.
      destruct (waiting_next near (turns near n g) M) as (_ & W' & M' & S'); [now rewrite S|].
      rewrite W', M', S', W. done. }
    intros n. destruct (K n) as (W & M & S). rewrite turns_S.
    destruct (waiting_next near (turns near n g) M) as (L & _); [now rewrite S|]. rewrite L, W. f_equal.
    rewrite <- (Nat.add_0_r n) at 2. destruct (waiting near g) as [|x c] eqn:Ew.
    + clear. rewrite lookup_nil. induction n as [|n IH]; [done|]. rewrite Nat.iter_succ. now destruct (Nat.iter n _ _).
    + rewrite <- to_the_end_lookup by (cbn; lia). now destruct (Nat.iter n _ _).
  - unfold UpdateLooterGuid, next_looter, IsMember, getMemberSlot.
    destruct (Z.eqb_spec (m_lootMethod g) FREE_FOR_ALL) as [|_]; [done|].
    destruct (find_slot (m_looterGuid g) (m_memberSlots g)) as [[k s]|]; cbn [fmap option_fmap option_map].
    + rewrite !bool_decide_true by done. cbn [andb]. now destruct (near (m_looterGuid g)).
    + rewrite !bool_decide_false by (intros H; now apply H). done.
Qed.

Definition sample_slot (guid : Z) : MemberSlot := mkMemberSlot guid [] 0 0 0.
Definition sample_group : Group :=
  set_m_lootMethod GROUP_LOOT (set_m_looterGuid 2 (set_m_memberSlots (map sample_slot [1; 2; 3; 4]) new_group)).

Lemma looter_round_robin_witness :
  let near := fun p => negb (p =? 3) in
  map (fun n => m_looterGuid (turns near n sample_group)) [1; 2; 3; 4; 5]%nat = [4; 1; 2; 4; 1] /\
  m_looterGuid (turns near 8 sample_group) = 1.
Proof.
  split; [reflexivity|].
  assert (Hn : NoDup (map s_guid (m_memberSlots sample_group))) by (cbn; repeat (apply NoDup_cons_2; [set_solver|]); apply NoDup_nil_2).
  exact (proj1 (looter_round_robin (fun p => negb (p =? 3)) sample_group ltac:(discriminate) Hn) 7%nat).
Defined.
