(* ===== verification/GroupMgr.v ===== *)
(** * Groups: the manager and the loading from the database
    (src/server/game/Groups/GroupMgr.cpp; LoadGroupFromDB and LoadMemberFromDB of
    Group.cpp)

    Groups are objects of a heap; the manager finds them by the low part of their
    guid and by the number they are stored under.  Loading walks the rows of the
    two queries in their order and hands the members to the dungeon finder, whose
    operations are those of [LfgMgr].  The binds to instances are not loaded here.

    The claims: a new group is stored under the smallest free number; loading
    gives every stored group its members and its sub group counters. *)

From stdpp Require Import base gmap list sorting.
From Stdlib Require Import ZArith Lia Sorting.Sorted.
From S2P Require Import Prelude StdMap ObjectGuid LfgData LfgMgr LfgScripts GroupTypes.
#[local] Open Scope Z_scope.

(** ** The numbers of groups *)

Record GroupMgr := mkGroupMgr {
  NextGroupId : Z;
  NextGroupDbStoreId : Z;
  GroupStore : gmap Z Z;
  GroupDbStore : list (option Z)
}.
Definition new_group_mgr : GroupMgr := mkGroupMgr 1 1 ∅ [].
Definition with_next_id (n : Z) (m : GroupMgr) : GroupMgr := mkGroupMgr n (NextGroupDbStoreId m) (GroupStore m) (GroupDbStore m).
Definition SetNextGroupDbStoreId (n : Z) (m : GroupMgr) : GroupMgr := mkGroupMgr (NextGroupId m) n (GroupStore m) (GroupDbStore m).
Definition with_store (s : gmap Z Z) (m : GroupMgr) : GroupMgr := mkGroupMgr (NextGroupId m) (NextGroupDbStoreId m) s (GroupDbStore m).
Definition with_db_store (l : list (option Z)) (m : GroupMgr) : GroupMgr :=
  mkGroupMgr (NextGroupId m) (NextGroupDbStoreId m) (GroupStore m) l.

Definition GetGroupByDbStoreId (m : GroupMgr) (storageId : Z) : option Z :=
  if storageId <? zlen (GroupDbStore m) then mjoin (GroupDbStore m !! Z.to_nat storageId) else None.

(** The loop of [GenerateNewGroupDbStoreId]: [None] when it ends without a free
    number. *)
Definition slot_free (store : list (option Z)) (i : Z) : bool :=
  ((i <? zlen store) && bool_decide (store !! Z.to_nat i = Some None)) || (zlen store <=? i).
Fixpoint find_free (fuel : nat) (store : list (option Z)) (i : Z) : option Z :=
  match fuel with
  | O => None
  | S fuel => if i <? 0xFFFFFFFF then if slot_free store i then Some i else find_free fuel store (u32 (i + 1)) else None
  end.
(** The number, whether the server is stopped, and the manager. *)
Definition GenerateNewGroupDbStoreId (m : GroupMgr) : Z * bool * GroupMgr :=
  let newStorageId := NextGroupDbStoreId m in
  let next := u32 (NextGroupDbStoreId m + 1) in
  let next' := default next (find_free (S (length (GroupDbStore m))) (GroupDbStore m) next) in
  (newStorageId, newStorageId =? next', SetNextGroupDbStoreId next' m).

(** [resize] and the assignment. *)
Definition store_at (storageId : Z) (group : option Z) (l : list (option Z)) : list (option Z) :=
  <[Z.to_nat storageId := group]> (l ++ repeat None (Z.to_nat (storageId + 1) - length l)).
Definition RegisterGroupDbStoreId (storageId group : Z) (m : GroupMgr) : GroupMgr :=
  with_db_store (store_at storageId (Some group) (GroupDbStore m)) m.
(** [None]: a number outside the vector. *)
Definition FreeGroupDbStoreId (storageId : Z) (m : GroupMgr) : option GroupMgr :=
  let m := if storageId <? NextGroupDbStoreId m then SetNextGroupDbStoreId storageId m else m in
  if storageId <? zlen (GroupDbStore m)
  then Some (with_db_store (<[Z.to_nat storageId := None]> (GroupDbStore m)) m) else None.

(** The number, whether the server is stopped, and the manager. *)
Definition GenerateGroupId (m : GroupMgr) : Z * bool * GroupMgr :=
  (NextGroupId m, 0xFFFFFFFE <=? NextGroupId m, with_next_id (u32 (NextGroupId m + 1)) m).
Definition GetGroupByGUID (m : GroupMgr) (groupId : Z) : option Z := GroupStore m !! groupId.
Definition GetLowGUID (g : Group) : Z := GUID_LOPART (m_guid g).
Definition AddGroup (p : Z) (g : Group) (m : GroupMgr) : GroupMgr := with_store (<[GetLowGUID g := p]> (GroupStore m)) m.
Definition RemoveGroup (g : Group) (m : GroupMgr) : GroupMgr := with_store (delete (GetLowGUID g) (GroupStore m)) m.

(** ** Loading *)

(** A row of the first query; [r_lfg] is the stored dungeon and state. *)
Record GroupRow := mkGroupRow {
  r_leaderGuid : Z; r_lootMethod : Z; r_looterGuid : Z; r_lootThreshold : Z; r_icons : list Z; r_groupType : Z;
  r_difficulty : Z; r_raiddifficulty : Z; r_masterLooterGuid : Z; r_guid : Z; r_lfg : Z * Z
}.
Record MemberRow := mkMemberRow { mr_guid : Z; mr_memberGuid : Z; mr_memberFlags : Z; mr_subgroup : Z; mr_roles : Z }.

Record GroupWorld := mkGroupWorld {
  gw_mgr : GroupMgr;
  gw_heap : gmap Z Group;
  gw_alloc : Z;               (** the next address *)
  gw_lfg : LFGMgr.Mgr;
  gw_deleted : list Z         (** [CHAR_DEL_GROUP_MEMBER] *)
}.
Definition player_guid (low : Z) : Z := MAKE_NEW_GUID low 0 HIGHGUID_PLAYER.

Section Load.
(** [GetPlayerNameByGUID]. *)
Variable GetPlayerName : Z -> option (list Z).

(** The fields that are read after the leader was found. *)
Definition load_settings (row : GroupRow) (name : list Z) (g : Group) : Group :=
  let g := set_m_leaderName name g in
  let g := set_m_lootMethod (r_lootMethod row) g in
  let g := set_m_looterGuid (player_guid (r_looterGuid row)) g in
  let g := set_m_lootThreshold (r_lootThreshold row) g in
  let g := set_m_targetIcons (r_icons row) g in
  let g := set_m_groupType (r_groupType row) g in
  let g := if isRaidGroup g then default g (initRaidSubGroupsCounter g) else g in
  let g := set_m_dungeonDifficulty
    (if MAX_DUNGEON_DIFFICULTY <=? r_difficulty row then DUNGEON_DIFFICULTY_NORMAL else r_difficulty row) g in
  let g := set_m_raidDifficulty
    (if MAX_RAID_DIFFICULTY <=? r_raiddifficulty row then RAID_DIFFICULTY_10MAN_NORMAL else r_raiddifficulty row) g in
  set_m_masterLooterGuid (player_guid (r_masterLooterGuid row)) g.
Definition LoadGroupFromDB (row : GroupRow) (w : GroupWorld) : Group * GroupWorld :=
  let g := set_m_dbStoreId (r_guid row) new_group in
  let '(low, _, mgr) := GenerateGroupId (gw_mgr w) in
  let g := set_m_guid (MAKE_NEW_GUID low 0 HIGHGUID_GROUP) g in
  let g := set_m_leaderGuid (player_guid (r_leaderGuid row)) g in
  let w := mkGroupWorld mgr (gw_heap w) (gw_alloc w) (gw_lfg w) (gw_deleted w) in
  match GetPlayerName (r_leaderGuid row) with
  | None => (g, w)
  | Some name =>
    let g := load_settings row name g in
    (g, if isLFGGroup g
        then mkGroupWorld (gw_mgr w) (gw_heap w) (gw_alloc w)
               (LFGMgr.LoadFromDB (Some (r_leaderGuid row, (r_lfg row).1, (r_lfg row).2)) (m_guid g) (gw_lfg w)) (gw_deleted w)
        else w)
  end.

(** [None]: a sub group outside the counters. *)
Definition LoadMemberFromDB (row : MemberRow) (p : Z) (g : Group) (w : GroupWorld) : option GroupWorld :=
  let guid := player_guid (mr_memberGuid row) in
  match GetPlayerName guid with
  | None => Some (mkGroupWorld (gw_mgr w) (gw_heap w) (gw_alloc w) (gw_lfg w) (gw_deleted w ++ [mr_memberGuid row]))
  | Some name =>
    let slot := mkMemberSlot guid name (mr_subgroup row) (mr_memberFlags row) (mr_roles row) in
    match SubGroupCounterIncrease (mr_subgroup row) (set_m_memberSlots (m_memberSlots g ++ [slot]) g) with
    | None => None
    | Some g => Some (mkGroupWorld (gw_mgr w) (<[p := g]> (gw_heap w)) (gw_alloc w)
                        (LFGMgr.SetupGroupMember guid (m_guid g) (gw_lfg w)) (gw_deleted w))
    end
  end.

(** One row of the first loop of [LoadGroups], and of the second. *)
Definition load_group_row (w : GroupWorld) (row : GroupRow) : GroupWorld :=
  let p := gw_alloc w in
  let '(g, w) := LoadGroupFromDB row w in
  let m := AddGroup p g (gw_mgr w) in
  let storageId := m_dbStoreId g in
  let m := RegisterGroupDbStoreId storageId p m in
  let m := if storageId =? NextGroupDbStoreId m then SetNextGroupDbStoreId (u32 (NextGroupDbStoreId m + 1)) m else m in
  mkGroupWorld m (<[p := g]> (gw_heap w)) (p + 1) (gw_lfg w) (gw_deleted w).
Definition load_member_row (o : option GroupWorld) (row : MemberRow) : option GroupWorld :=
  match o with
  | None => None
  | Some w =>
    match GetGroupByDbStoreId (gw_mgr w) (mr_guid row) with
    | Some p => match gw_heap w !! p with Some g => LoadMemberFromDB row p g w | None => None end
    | None => Some w
    end
  end.
Definition LoadGroups (groups : list GroupRow) (members : list MemberRow) (w : GroupWorld) : option GroupWorld :=
  foldl load_member_row (Some (foldl load_group_row w groups)) members.
End Load.

(** ** Numbers: proofs *)

Lemma stored_slot m i : 0 <= i -> slot_free (GroupDbStore m) i = bool_decide (GetGroupByDbStoreId m i = None).
Proof.
  intros Hi. unfold slot_free, GetGroupByDbStoreId, zlen.
  destruct (Z.ltb_spec i (Z.of_nat (length (GroupDbStore m)))), (Z.leb_spec (Z.of_nat (length (GroupDbStore m))) i); try lia.
  - cbn. rewrite orb_false_r. destruct (lookup_lt_is_Some_2 (GroupDbStore m) (Z.to_nat i)) as [x Ex]; [lia|].
    rewrite Ex. cbn. apply bool_decide_ext. destruct x; naive_solver.
  - reflexivity.
Qed.

Lemma stored_at l i j x :
  0 <= i -> 0 <= j ->
  GetGroupByDbStoreId (mkGroupMgr 0 0 ∅ (store_at i x l)) j =
  if decide (j = i) then x else GetGroupByDbStoreId (mkGroupMgr 0 0 ∅ l) j.
Proof.
  intros Hi Hj. unfold GetGroupByDbStoreId, store_at, zlen. cbn.
  rewrite length_insert, length_app, repeat_length. case_decide as E.
  - subst j. destruct (Z.ltb_spec i (Z.of_nat (length l + (Z.to_nat (i + 1) - length l)))); [|lia].
    rewrite list_lookup_insert_eq; [done|]. rewrite length_app, repeat_length. lia.
  - rewrite list_lookup_insert_ne by lia.
    destruct (Z.ltb_spec j (Z.of_nat (length l))).
    + rewrite lookup_app_l by lia. destruct (Z.ltb_spec j (Z.of_nat (length l + (Z.to_nat (i + 1) - length l)))); [done|lia].
    + case_if; [|done]. rewrite lookup_app_r by lia. destruct (repeat None _ !! _) as [y|] eqn:Ey; [|done].
      apply list_elem_of_lookup_2, list_elem_of_In, repeat_spec in Ey. now subst.
Qed.
Lemma stored_eq m m' j : GroupDbStore m = GroupDbStore m' -> GetGroupByDbStoreId m j = GetGroupByDbStoreId m' j.
Proof. unfold GetGroupByDbStoreId. now intros ->. Qed.
Lemma stored_register id p m j :
  0 <= id -> 0 <= j ->
  GetGroupByDbStoreId (RegisterGroupDbStoreId id p m) j = if decide (j = id) then Some p else GetGroupByDbStoreId m j.
Proof. intros Hi Hj. exact (stored_at (GroupDbStore m) id j (Some p) Hi Hj). Qed.
Lemma stored_free id m m' j :
  0 <= id -> 0 <= j -> FreeGroupDbStoreId id m = Some m' ->
  NextGroupDbStoreId m' = Z.min id (NextGroupDbStoreId m) /\
  GetGroupByDbStoreId m' j = if decide (j = id) then None else GetGroupByDbStoreId m j.
Proof.
  intros Hi Hj. unfold FreeGroupDbStoreId. set (m0 := if id <? NextGroupDbStoreId m then _ else m).
  assert (E0 : GroupDbStore m0 = GroupDbStore m) by (unfold m0; now case_if).
  rewrite E0. destruct (Z.ltb_spec id (zlen (GroupDbStore m))) as [Hl|]; [|done]. intros [= <-].
  split; [unfold m0; cbn; destruct (Z.ltb_spec id (NextGroupDbStoreId m)); cbn; lia|].
  rewrite <- (stored_eq m0 m j E0).
  rewrite (stored_eq _ (mkGroupMgr 0 0 ∅ (store_at id None (GroupDbStore m)))).
  - rewrite stored_at by done. case_decide; [done|]. now apply stored_eq.
  - cbn. unfold store_at, zlen in *. f_equal. replace (_ - _)%nat with 0%nat by lia. now rewrite app_nil_r.
Qed.

Lemma find_free_spec m fuel i :
  0 <= i -> Z.max i (zlen (GroupDbStore m)) < 0xFFFFFFFF -> (length (GroupDbStore m) < fuel + Z.to_nat i)%nat -> (0 < fuel)%nat ->
  exists k, find_free fuel (GroupDbStore m) i = Some k /\ i <= k <= Z.max i (zlen (GroupDbStore m)) /\
    GetGroupByDbStoreId m k = None /\ forall j, i <= j < k -> GetGroupByDbStoreId m j <> None.
Proof.
  unfold zlen. revert i. induction fuel as [|fuel IH]; intros i Hi Hb Hf Hp; [lia|]. cbn.
  destruct (Z.ltb_spec i 4294967295) as [_|]; [|lia]. rewrite stored_slot by done. case_bool_decide as E.
  - exists i. split; [done|]. split; [lia|]. split; [done|]. lia.
  - assert (Hlt : i < Z.of_nat (length (GroupDbStore m))).
    { unfold GetGroupByDbStoreId, zlen in E. destruct (Z.ltb_spec i (Z.of_nat (length (GroupDbStore m)))); [done|now destruct E]. }
    rewrite uwrap_id by (unfold is_u; lia).
    destruct (IH (i + 1)) as (k & Ek & Hk & Hn & Hu); try lia.
    exists k. split; [done|]. split; [lia|]. split; [done|]. intros j Hj.
    destruct (decide (j = i)) as [->|]; [done|]. apply Hu. lia.
Qed.

(** The number to be given next is free, and all below it are taken. *)
Definition ids_ok (m : GroupMgr) : Prop :=
  1 <= NextGroupDbStoreId m /\ GetGroupByDbStoreId m (NextGroupDbStoreId m) = None /\
  forall j, 1 <= j < NextGroupDbStoreId m -> GetGroupByDbStoreId m j <> None.
(** There is room for one more number of 32 bits. *)
Definition ids_left (m : GroupMgr) : Prop := zlen (GroupDbStore m) < 0xFFFFFFFE.

Lemma ids_next_bound m : ids_ok m -> NextGroupDbStoreId m <= Z.max 1 (zlen (GroupDbStore m)).
Proof.
  intros (Hn & Hf & Hu). destruct (Z.le_gt_cases (NextGroupDbStoreId m) (Z.max 1 (zlen (GroupDbStore m)))) as [|Hg]; [done|].
  destruct (Hu (NextGroupDbStoreId m - 1)); [lia|]. unfold GetGroupByDbStoreId.
  destruct (Z.ltb_spec (NextGroupDbStoreId m - 1) (zlen (GroupDbStore m))); [lia|done].
Qed.

Lemma generate_ok m :
  ids_ok m -> ids_left m ->
  exists next, GenerateNewGroupDbStoreId m = (NextGroupDbStoreId m, false, SetNextGroupDbStoreId next m) /\
    NextGroupDbStoreId m < next /\ GetGroupByDbStoreId m next = None /\
    forall j, NextGroupDbStoreId m < j < next -> GetGroupByDbStoreId m j <> None.
Proof.
  intros Hok Hl. pose proof (ids_next_bound m Hok) as Hb. destruct Hok as (Hn & Hf & Hu). unfold ids_left, zlen in *.
  unfold GenerateNewGroupDbStoreId. rewrite uwrap_id by (unfold is_u; lia).
  destruct (find_free_spec m (S (length (GroupDbStore m))) (NextGroupDbStoreId m + 1)) as (k & Ek & Hk & Hkf & Hku);
    unfold zlen; try lia.
  rewrite Ek. exists k. change (default _ (Some k)) with k.
  split; [|split; [lia|]]; [|split; [done|intros j Hj; apply Hku; lia]].
  destruct (Z.eqb_spec (NextGroupDbStoreId m) k); [lia|done].
Qed.

(** A group is created (with the pair of calls of [Create]) or deleted. *)
Inductive id_step : GroupMgr -> GroupMgr -> Prop :=
| step_create m p m' : ids_left m -> (GenerateNewGroupDbStoreId m).2 = m' ->
    id_step m (RegisterGroupDbStoreId (GenerateNewGroupDbStoreId m).1.1 p m')
| step_delete m id p m' : 1 <= id -> GetGroupByDbStoreId m id = Some p -> FreeGroupDbStoreId id m = Some m' -> id_step m m'.

Lemma id_step_ok m m' : ids_ok m -> id_step m m' -> ids_ok m'.
Proof.
  intros Hok H. destruct H as [m p m' Hl E|m id p m' Hid Hg E].
  - destruct (generate_ok m Hok Hl) as (next & En & Hlt & Hf & Hu). rewrite En in *. cbn in E. subst m'. cbn [fst snd].
    destruct Hok as (Hn & Hf0 & Hu0).
    assert (G : forall j, 0 <= j -> GetGroupByDbStoreId (RegisterGroupDbStoreId (NextGroupDbStoreId m) p (SetNextGroupDbStoreId next m)) j =
                if decide (j = NextGroupDbStoreId m) then Some p else GetGroupByDbStoreId m j).
    { intros j Hj. rewrite stored_register by lia. case_decide; [done|]. now apply stored_eq. }
    split; [cbn; lia|]. split; cbn [NextGroupDbStoreId RegisterGroupDbStoreId with_db_store SetNextGroupDbStoreId].
    + rewrite G by lia. rewrite decide_False by lia. done.
    + intros j Hj. rewrite G by lia. case_decide as Ej; [done|].
      destruct (Z.lt_ge_cases j (NextGroupDbStoreId m)); [apply Hu0; lia|apply Hu; lia].
  - destruct Hok as (Hn & Hf & Hu).
    assert (S : forall j, 0 <= j -> NextGroupDbStoreId m' = Z.min id (NextGroupDbStoreId m) /\
      GetGroupByDbStoreId m' j = if decide (j = id) then None else GetGroupByDbStoreId m j).
    { intros j Hj. apply (stored_free id m m' j); [lia|done|done]. }
    destruct (S 0 ltac:(lia)) as (En & _). split; [lia|]. split.
    + destruct (S (NextGroupDbStoreId m')) as (_ & ->); [lia|]. case_decide; [done|]. now rewrite En, Z.min_r by lia.
    + intros j Hj. destruct (S j) as (_ & ->); [lia|]. rewrite decide_False by lia. apply Hu. lia.
Qed.

(** ** Loading: proofs *)

Lemma group_guid_low low : is_u 32 low -> GUID_LOPART (MAKE_NEW_GUID low 0 HIGHGUID_GROUP) = low.
Proof.
  intros Hl. unfold is_u in Hl. rewrite guid_value; [|unfold is_u, HIGHGUID_GROUP; lia|lia|lia|right; unfold is_u; lia].
  assert (Hh : GUID_HIPART (low + 0 * 2 ^ 24 + HIGHGUID_GROUP * 2 ^ 48) = HIGHGUID_GROUP).
  { unfold GUID_HIPART, HIGHGUID_GROUP, uwrap. rewrite Z.shiftr_div_pow2, land_16 by lia.
    replace (low + 0 * 2 ^ 24 + 8016 * 2 ^ 48) with (low + 8016 * 2 ^ 48) by lia.
    rewrite Z.div_add, Z.div_small by lia. done. }
  unfold GUID_LOPART, IsGuidHaveEnPart. rewrite Hh, bool_decide_true by set_solver. cbn [negb].
  unfold uwrap. rewrite land_32. replace (low + 0 * 2 ^ 24 + HIGHGUID_GROUP * 2 ^ 48) with (low + (HIGHGUID_GROUP * 2 ^ 16) * 2 ^ 32) by lia.
  rewrite Z.mod_add, Z.mod_mod, Z.mod_small by lia. done.
Qed.
Lemma player_guid_low low : is_u 32 low -> player_guid low = low.
Proof.
  intros Hl. unfold is_u in Hl. unfold player_guid.
  rewrite guid_value; [unfold HIGHGUID_PLAYER; lia|unfold is_u, HIGHGUID_PLAYER; lia|lia|lia|right; unfold is_u; lia].
Qed.
Lemma GetGroup_Setup guid gguid m p :
  LFGMgr.GetGroup (LFGMgr.SetupGroupMember guid gguid m) p = if decide (p = guid) then gguid else LFGMgr.GetGroup m p.
Proof.
  unfold LFGMgr.SetupGroupMember. cbn zeta.
  change (LFGMgr.GetGroup (LFGMgr.AddPlayerToGroup gguid guid (LFGMgr.SetGroup guid gguid ?m0)) p) with (LFGMgr.GetGroup (LFGMgr.SetGroup guid gguid m0) p).
  rewrite GetGroup_SetGroup. case_decide; [done|].
  unfold LFGMgr.GetGroup, LFGMgr.SetState. case_if; unfold LFGMgr.SetSelectedDungeons.
  - now rewrite LFGMgr.player_of_on_group, LFGMgr.player_of_on_player, decide_False.
  - now rewrite !LFGMgr.player_of_on_player, !decide_False.
Qed.

Section Loading.
Variable GetPlayerName : Z -> option (list Z).

(** The group of a row when it gets the number [low]. *)
Definition fresh_group (row : GroupRow) (low : Z) : Group :=
  let g := set_m_leaderGuid (player_guid (r_leaderGuid row))
             (set_m_guid (MAKE_NEW_GUID low 0 HIGHGUID_GROUP) (set_m_dbStoreId (r_guid row) new_group)) in
  match GetPlayerName (r_leaderGuid row) with Some name => load_settings row name g | None => g end.
(** The members the rows give the group stored under [id]. *)
Definition slots_of (id : Z) (members : list MemberRow) : list MemberSlot :=
  omap (fun r => if mr_guid r =? id
                 then (fun name => mkMemberSlot (player_guid (mr_memberGuid r)) name (mr_subgroup r) (mr_memberFlags r) (mr_roles r))
                        <$> GetPlayerName (player_guid (mr_memberGuid r))
                 else None) members.
Definition in_sub_group (slots : list MemberSlot) (k : nat) : Z :=
  u8 (zlen (filter (fun s => s_group s = Z.of_nat k) slots)).
Definition sub_group_counts (slots : list MemberSlot) : list Z :=
  map (in_sub_group slots) (seq 0 (Z.to_nat MAX_RAID_SUBGROUPS)).
Definition loaded_group (row : GroupRow) (low : Z) (members : list MemberRow) : Group :=
  let g := fresh_group row low in
  let slots := slots_of (r_guid row) members in
  set_m_memberSlots slots (set_m_subGroupsCounts (if isRaidGroup g then Some (sub_group_counts slots) else None) g).

Lemma load_settings_fields row name g :
  m_memberSlots g = [] ->
  let h := load_settings row name g in
  m_memberSlots h = [] /\ m_dbStoreId h = m_dbStoreId g /\ m_guid h = m_guid g /\
  m_subGroupsCounts h = if isRaidGroup h then Some (repeat 0 (Z.to_nat MAX_RAID_SUBGROUPS)) else m_subGroupsCounts g.
Proof.
  intros Hs. unfold load_settings, initRaidSubGroupsCounter. cbn zeta.
  set (g1 := set_m_groupType _ _).
  assert (E1 : m_memberSlots g1 = [] /\ m_dbStoreId g1 = m_dbStoreId g /\ m_guid g1 = m_guid g /\
               m_subGroupsCounts g1 = m_subGroupsCounts g) by now split.
  destruct E1 as (E1 & E2 & E3 & E4). clearbody g1. cbn [m_memberSlots set_m_subGroupsCounts]. rewrite E1. cbn [foldl].
  unfold isRaidGroup in *.
  destruct (negb (Z.land (m_groupType g1) GROUPTYPE_RAID =? 0)) eqn:Er; cbn; rewrite Er; now split_and!.
Qed.
Lemma fresh_group_fields row low :
  let g := fresh_group row low in
  m_memberSlots g = [] /\ m_dbStoreId g = r_guid row /\ m_guid g = MAKE_NEW_GUID low 0 HIGHGUID_GROUP /\
  m_subGroupsCounts g = if isRaidGroup g then Some (repeat 0 (Z.to_nat MAX_RAID_SUBGROUPS)) else None.
Proof.
  unfold fresh_group. set (g0 := set_m_leaderGuid _ _).
  assert (E0 : m_memberSlots g0 = [] /\ m_dbStoreId g0 = r_guid row /\ m_guid g0 = MAKE_NEW_GUID low 0 HIGHGUID_GROUP /\
               m_subGroupsCounts g0 = None /\ isRaidGroup g0 = false) by now split_and!.
  destruct E0 as (E0 & E1 & E2 & E3 & E4). clearbody g0. cbn zeta.
  destruct (GetPlayerName _) as [name|]; [|now rewrite E4].
  destruct (load_settings_fields row name g0 E0) as (-> & -> & -> & ->). now rewrite E3.
Qed.

Lemma loaded_no_members row low : loaded_group row low [] = fresh_group row low.
Proof.
  destruct (fresh_group_fields row low) as (Es & _ & _ & Ec). unfold loaded_group. cbn zeta.
  change (sub_group_counts (slots_of (r_guid row) [])) with (repeat 0 (Z.to_nat MAX_RAID_SUBGROUPS)). rewrite <- Ec.
  change (slots_of (r_guid row) []) with (@nil MemberSlot). rewrite <- Es at 1. now destruct (fresh_group row low).
Qed.

Lemma LoadGroupFromDB_spec row w :
  exists lfg, LoadGroupFromDB GetPlayerName row w =
    (fresh_group row (NextGroupId (gw_mgr w)),
     mkGroupWorld (with_next_id (u32 (NextGroupId (gw_mgr w) + 1)) (gw_mgr w)) (gw_heap w) (gw_alloc w) lfg (gw_deleted w)).
Proof.
  unfold LoadGroupFromDB, fresh_group, GenerateGroupId. cbn zeta. destruct (GetPlayerName _) as [name|]; [|now eexists].
  destruct (isLFGGroup _); eexists; reflexivity.
Qed.

Lemma load_row w row :
  exists lfg, load_group_row GetPlayerName w row =
  let p := gw_alloc w in
  let g := fresh_group row (NextGroupId (gw_mgr w)) in
  let m := RegisterGroupDbStoreId (r_guid row) p
             (with_store (<[GetLowGUID g := p]> (GroupStore (gw_mgr w))) (with_next_id (u32 (NextGroupId (gw_mgr w) + 1)) (gw_mgr w))) in
  mkGroupWorld (if r_guid row =? NextGroupDbStoreId m then SetNextGroupDbStoreId (u32 (NextGroupDbStoreId m + 1)) m else m)
    (<[p := g]> (gw_heap w)) (p + 1) lfg (gw_deleted w).
Proof.
  destruct (LoadGroupFromDB_spec row w) as [lfg E]. exists lfg. unfold load_group_row. cbn zeta. rewrite E.
  destruct (fresh_group_fields row (NextGroupId (gw_mgr w))) as (_ & Ei & _). cbn [gw_mgr gw_heap gw_alloc gw_lfg gw_deleted].
  rewrite Ei. reflexivity.
Qed.

(** The state after the rows of the first query. *)
Record groups_loaded (rows : list GroupRow) (w : GroupWorld) : Prop := mk_groups_loaded {
  gl_alloc : gw_alloc w = 1 + zlen rows;
  gl_next : NextGroupId (gw_mgr w) = 1 + zlen rows;
  gl_rows : forall k row, rows !! k = Some row -> let low := 1 + Z.of_nat k in
    gw_heap w !! low = Some (fresh_group row low) /\ GetGroupByDbStoreId (gw_mgr w) (r_guid row) = Some low /\
    GetGroupByGUID (gw_mgr w) low = Some low;
  gl_used : forall id p, 0 <= id -> GetGroupByDbStoreId (gw_mgr w) id = Some p -> exists row, row ∈ rows /\ r_guid row = id;
  gl_ids : ids_ok (gw_mgr w)
}.

Lemma ids_ok_load m id p m' :
  ids_ok m -> 1 <= id < 0xFFFFFFFF -> (forall j, id <= j -> GetGroupByDbStoreId m j = None) ->
  GroupDbStore m' = GroupDbStore (RegisterGroupDbStoreId id p m) ->
  NextGroupDbStoreId m' = (if id =? NextGroupDbStoreId m then u32 (NextGroupDbStoreId m + 1) else NextGroupDbStoreId m) ->
  ids_ok m'.
Proof.
  intros (Hn & Hf & Hu) Hid Habove Ed En.
  assert (G : forall j, 0 <= j -> GetGroupByDbStoreId m' j = if decide (j = id) then Some p else GetGroupByDbStoreId m j).
  { intros j Hj. rewrite (stored_eq _ _ j Ed). now apply stored_register; lia. }
  destruct (Z.eqb_spec id (NextGroupDbStoreId m)) as [Ei|Ei].
  - rewrite uwrap_id in En by (unfold is_u; lia). split; [lia|]. rewrite En. split.
    + rewrite G, decide_False by lia. apply Habove. lia.
    + intros j Hj. rewrite G by lia. case_decide; [done|]. apply Hu. lia.
  - split; [lia|]. rewrite En. split.
    + rewrite G, decide_False by lia. done.
    + intros j Hj. rewrite G by lia. case_decide; [done|]. now apply Hu.
Qed.

Lemma groups_loaded_snoc rows w row :
  groups_loaded rows w -> 1 <= r_guid row < 0xFFFFFFFF -> (forall r, r ∈ rows -> 1 <= r_guid r < r_guid row) ->
  zlen rows < 0xFFFFFFFE -> groups_loaded (rows ++ [row]) (load_group_row GetPlayerName w row).
Proof.
  intros [Ha Hn Hr Hu Hi] Hid Hlt Hl. destruct (load_row w row) as [lfg ->]. cbn zeta.
  assert (Hlow : is_u 32 (1 + zlen rows)) by (unfold zlen, is_u in *; lia).
  rewrite Hn, Ha. rewrite (uwrap_id 32 (1 + zlen rows + 1)) by (unfold zlen, is_u in *; lia).
  set (g := fresh_group row (1 + zlen rows)).
  assert (Eg : GetLowGUID g = 1 + zlen rows).
  { unfold GetLowGUID, g. destruct (fresh_group_fields row (1 + zlen rows)) as (_ & _ & -> & _). now apply group_guid_low. }
  rewrite Eg. set (m1 := RegisterGroupDbStoreId _ _ _). set (m2 := if _ =? _ then _ else _).
  assert (E2 : GroupDbStore m2 = GroupDbStore m1 /\ GroupStore m2 = GroupStore m1 /\ NextGroupId m2 = 1 + zlen rows + 1)
    by (unfold m2; case_if; now split_and!).
  destruct E2 as (E2 & E2s & E2n).
  assert (G : forall j, 0 <= j -> GetGroupByDbStoreId m2 j = if decide (j = r_guid row) then Some (1 + zlen rows) else GetGroupByDbStoreId (gw_mgr w) j).
  { intros j Hj. rewrite (stored_eq _ _ j E2). unfold m1. rewrite stored_register by lia. case_decide; [done|]. now apply stored_eq. }
  split; cbn [gw_alloc gw_mgr gw_heap].
  - unfold zlen. rewrite length_app. cbn. lia.
  - rewrite E2n. unfold zlen. rewrite length_app. cbn. lia.
  - intros k r Hk. unfold zlen in *. apply lookup_snoc_Some in Hk as [[Hk' Hk]|[-> ->]]; cbn zeta.
    + destruct (Hr k r Hk) as (H1 & H2 & H3). pose proof (Hlt r (list_elem_of_lookup_2 _ _ _ Hk)).
      split; [now rewrite lookup_insert_ne by lia|]. split; [now rewrite G, decide_False by lia|].
      unfold GetGroupByGUID. rewrite E2s. cbn. now rewrite lookup_insert_ne by lia.
    + split; [now rewrite lookup_insert_eq|]. split; [now rewrite G, decide_True by lia|].
      unfold GetGroupByGUID. rewrite E2s. cbn. now rewrite lookup_insert_eq.
  - intros id p Hj. rewrite G by done. case_decide as E.
    + intros _. exists row. split; [apply elem_of_app; right; left|done].
    + intros Hp. destruct (Hu id p Hj Hp) as (r & Hin & Er). exists r. split; [apply elem_of_app; now left|done].
  - apply (ids_ok_load (gw_mgr w) (r_guid row) (1 + zlen rows)); [done|done| | |].
    + intros j Hj. destruct (GetGroupByDbStoreId (gw_mgr w) j) as [p|] eqn:Ep; [|done].
      destruct (Hu j p ltac:(lia) Ep) as (r & Hin & Er). specialize (Hlt r Hin). lia.
    + rewrite E2. done.
    + unfold m2, m1. cbn [NextGroupDbStoreId RegisterGroupDbStoreId with_db_store with_store with_next_id]. now case_if.
Qed.

(** An empty server; [lfg] is the dungeon finder before the groups are loaded. *)
Definition new_world (lfg : LFGMgr.Mgr) : GroupWorld := mkGroupWorld new_group_mgr ∅ 1 lfg [].

(** The rows come in the order of the numbers, which are positive and leave room. *)
Definition rows_ok (rows : list GroupRow) : Prop :=
  StronglySorted (fun r1 r2 => r_guid r1 < r_guid r2) rows /\ Forall (fun r => 1 <= r_guid r < 0xFFFFFFFF) rows /\
  zlen rows < 0xFFFFFFFE.

Lemma rows_ok_snoc rows row :
  rows_ok (rows ++ [row]) ->
  rows_ok rows /\ 1 <= r_guid row < 0xFFFFFFFF /\ (forall r, r ∈ rows -> 1 <= r_guid r < r_guid row) /\ zlen rows < 0xFFFFFFFE.
Proof.
  intros (Hs & Hf & Hl). unfold zlen in *. rewrite length_app in Hl. cbn in Hl.
  apply Forall_app in Hf as [Hf [Hrow _]%Forall_cons].
  assert (Hs' : StronglySorted (fun r1 r2 => r_guid r1 < r_guid r2) rows /\ forall r, r ∈ rows -> r_guid r < r_guid row).
  { clear Hf Hl. induction rows as [|r0 rows IH]; [split; [constructor|set_solver]|].
    cbn in Hs. apply StronglySorted_inv in Hs as [Hs H0]. destruct (IH Hs) as [IH1 IH2].
    apply Forall_app in H0 as [H0 [H1 _]%Forall_cons]. split; [now constructor|]. intros r [->|]%elem_of_cons; [done|auto]. }
  destruct Hs' as [Hs1 Hs2]. split; [split_and!; [done|done|unfold zlen; lia]|]. split; [done|]. split; [|lia].
  intros r Hr. rewrite Forall_forall in Hf. specialize (Hf r Hr). specialize (Hs2 r Hr). lia.
Qed.

Lemma groups_loaded_all rows lfg :
  rows_ok rows -> groups_loaded rows (foldl (load_group_row GetPlayerName) (new_world lfg) rows).
Proof.
  induction rows as [|row rows IH] using rev_ind; intros Hok.
  - split; cbn; [done|done|done| |].
    + intros id p Hj. unfold GetGroupByDbStoreId. cbn. case_if; [|done]. now rewrite lookup_nil.
    + split; [done|]. split; [done|]. cbn. lia.
  - apply rows_ok_snoc in Hok as (Hok & H1 & H2 & H3). rewrite foldl_app. cbn. apply groups_loaded_snoc; auto.
Qed.

Lemma sub_group_counts_snoc slots s :
  0 <= s_group s < MAX_RAID_SUBGROUPS ->
  exists n, sub_group_counts slots !! Z.to_nat (s_group s) = Some n /\
    sub_group_counts (slots ++ [s]) = <[Z.to_nat (s_group s) := u8 (n + 1)]> (sub_group_counts slots).
Proof.
  intros Hs. exists (in_sub_group slots (Z.to_nat (s_group s))).
  assert (L : forall slots k, (k < Z.to_nat MAX_RAID_SUBGROUPS)%nat -> sub_group_counts slots !! k = Some (in_sub_group slots k)).
  { intros l k Hk. unfold sub_group_counts. rewrite list_lookup_fmap, lookup_seq_lt by done. done. }
  split; [apply L; lia|].
  apply list_eq. intros k. destruct (decide (k < Z.to_nat MAX_RAID_SUBGROUPS)%nat) as [Hk|Hk].
  - rewrite L by done. unfold in_sub_group, zlen. rewrite filter_app, length_app. destruct (decide (k = Z.to_nat (s_group s))) as [->|Hne].
    + rewrite list_lookup_insert_eq by (unfold sub_group_counts; rewrite length_map, length_seq; lia).
      rewrite filter_cons_True by lia. cbn [length filter]. rewrite uwrap_add_l. do 2 f_equal. cbn. lia.
    + rewrite list_lookup_insert_ne by done. rewrite L by done. rewrite filter_cons_False by lia. cbn. unfold in_sub_group, zlen.
      do 2 f_equal. lia.
  - rewrite !lookup_ge_None_2; [done|rewrite length_insert|]; unfold sub_group_counts; rewrite length_map, length_seq; lia.
Qed.

Lemma slots_of_snoc id members mr :
  slots_of id (members ++ [mr]) = slots_of id members ++ slots_of id [mr].
Proof. unfold slots_of. apply omap_app. Qed.
Lemma slots_of_one id mr :
  slots_of id [mr] =
  if mr_guid mr =? id then
    match GetPlayerName (player_guid (mr_memberGuid mr)) with
    | Some name => [mkMemberSlot (player_guid (mr_memberGuid mr)) name (mr_subgroup mr) (mr_memberFlags mr) (mr_roles mr)]
    | None => [] end
  else [].
Proof. unfold slots_of. cbn. destruct (_ =? _); [|done]. now destruct (GetPlayerName _). Qed.
Lemma slots_of_other id members mr : slots_of id [mr] = [] -> forall row low, r_guid row = id ->
  loaded_group row low (members ++ [mr]) = loaded_group row low members.
Proof. intros E row low <-. unfold loaded_group. now rewrite slots_of_snoc, E, app_nil_r. Qed.

Lemma member_added row low members mr name :
  mr_guid mr = r_guid row -> GetPlayerName (player_guid (mr_memberGuid mr)) = Some name ->
  0 <= mr_subgroup mr < MAX_RAID_SUBGROUPS ->
  let g := loaded_group row low members in
  let slot := mkMemberSlot (player_guid (mr_memberGuid mr)) name (mr_subgroup mr) (mr_memberFlags mr) (mr_roles mr) in
  SubGroupCounterIncrease (mr_subgroup mr) (set_m_memberSlots (m_memberSlots g ++ [slot]) g) =
  Some (loaded_group row low (members ++ [mr])).
Proof.
  intros Eg En Hs. cbn zeta. unfold loaded_group. rewrite slots_of_snoc, slots_of_one, Eg, Z.eqb_refl, En.
  set (slot := mkMemberSlot _ _ _ _ _). set (slots := slots_of (r_guid row) members).
  destruct (sub_group_counts_snoc slots slot Hs) as (n & Ln & Es). cbn [s_group slot] in Ln, Es.
  unfold SubGroupCounterIncrease, count_at. cbn [m_subGroupsCounts set_m_memberSlots set_m_subGroupsCounts m_memberSlots].
  destruct (isRaidGroup (fresh_group row low)); [|done]. rewrite Ln, Es. done.
Qed.

(** The state after some rows of the second query. *)
Record members_loaded (rows : list GroupRow) (mgr : GroupMgr) (members : list MemberRow) (w : GroupWorld) : Prop := mk_members_loaded {
  ml_mgr : gw_mgr w = mgr;
  ml_groups : forall k row, rows !! k = Some row -> let low := 1 + Z.of_nat k in
    gw_heap w !! low = Some (loaded_group row low members);
  ml_lfg : forall k row s, rows !! k = Some row -> s ∈ slots_of (r_guid row) members ->
    LFGMgr.GetGroup (gw_lfg w) (s_guid s) = MAKE_NEW_GUID (1 + Z.of_nat k) 0 HIGHGUID_GROUP
}.
Definition member_row_ok (r : MemberRow) : Prop := is_u 32 (mr_memberGuid r) /\ 0 <= mr_subgroup r < MAX_RAID_SUBGROUPS.

Lemma slots_of_guid id members s : s ∈ slots_of id members -> exists r, r ∈ members /\ mr_guid r = id /\ s_guid s = player_guid (mr_memberGuid r).
Proof.
  unfold slots_of. rewrite list_elem_of_omap. intros (r & Hr & E). exists r. destruct (Z.eqb_spec (mr_guid r) id); [|done].
  destruct (GetPlayerName _); [|done]. injection E as <-. done.
Qed.

(** What the first query leaves for the second. *)
Definition indexed (rows : list GroupRow) (mgr : GroupMgr) : Prop :=
  (forall k row, rows !! k = Some row -> GetGroupByDbStoreId mgr (r_guid row) = Some (1 + Z.of_nat k)) /\
  (forall id p, 0 <= id -> GetGroupByDbStoreId mgr id = Some p -> exists row, row ∈ rows /\ r_guid row = id) /\
  NoDup (map r_guid rows).

Lemma members_loaded_snoc rows mgr members w mr :
  indexed rows mgr -> members_loaded rows mgr members w -> 0 <= mr_guid mr -> Forall member_row_ok members -> member_row_ok mr ->
  mr_memberGuid mr ∉ map mr_memberGuid members ->
  exists w', load_member_row GetPlayerName (Some w) mr = Some w' /\ members_loaded rows mgr (members ++ [mr]) w'.
Proof.
  intros (Hi & Hu & Hnd) [Hm Hg Hlfg] Hid Hall Hok Hnew. unfold load_member_row. rewrite Hm.
  assert (Hsame : forall w', gw_mgr w' = mgr -> gw_heap w' = gw_heap w -> gw_lfg w' = gw_lfg w ->
            (forall row, row ∈ rows -> slots_of (r_guid row) [mr] = []) -> members_loaded rows mgr (members ++ [mr]) w').
  { intros w' E1 E2 E3 Hs. split; [done| |].
    - intros k row Hk. cbn zeta. rewrite E2, (slots_of_other (r_guid row)); [now apply Hg| |done]. apply Hs. exact (list_elem_of_lookup_2 _ _ _ Hk).
    - intros k row s Hk. rewrite slots_of_snoc, (Hs row) by exact (list_elem_of_lookup_2 _ _ _ Hk). rewrite app_nil_r, E3. now apply Hlfg. }
  destruct (GetGroupByDbStoreId mgr (mr_guid mr)) as [p|] eqn:Ep.
  - destruct (Hu _ _ Hid Ep) as (row & Hrow & Er). apply list_elem_of_lookup in Hrow as [k Hk].
    pose proof (Hi k row Hk) as Ep'. rewrite Er, Ep in Ep'. injection Ep' as ->. rewrite (Hg k row Hk). cbn zeta.
    unfold LoadMemberFromDB. cbn zeta. destruct (GetPlayerName (player_guid (mr_memberGuid mr))) as [name|] eqn:En.
    + rewrite (member_added row _ members mr name) by (try done; now destruct Hok).
      eexists. split; [reflexivity|]. destruct (fresh_group_fields row (1 + Z.of_nat k)) as (_ & _ & Egd & _).
      assert (Hother : forall j r, rows !! j = Some r -> j <> k -> slots_of (r_guid r) [mr] = []).
      { intros j r Hj Hne. rewrite slots_of_one. destruct (Z.eqb_spec (mr_guid mr) (r_guid r)) as [E|]; [|done].
        destruct Hne. apply (NoDup_lookup (map r_guid rows) j k (r_guid r) Hnd).
        - now rewrite list_lookup_fmap, Hj.
        - rewrite list_lookup_fmap, Hk. cbn. congruence. }
      split; cbn [gw_mgr gw_heap gw_lfg]; [done| |].
      * intros j r Hj. cbn zeta. destruct (decide (j = k)) as [->|Hne].
        -- rewrite Hk in Hj. injection Hj as <-. now rewrite lookup_insert_eq.
        -- rewrite lookup_insert_ne by lia. rewrite (slots_of_other (r_guid r)); [now apply Hg| |done]. now apply (Hother j).
      * intros j r s Hj. rewrite slots_of_snoc, GetGroup_Setup, elem_of_app. destruct Hok as [Hu32 _]. rewrite (player_guid_low (mr_memberGuid mr)) by done. intros [Hin|Hin].
        -- rewrite decide_False; [now apply (Hlfg j r)|]. intros E. apply slots_of_guid in Hin as (r' & Hr' & _ & Es).
           rewrite Forall_forall in Hall. destruct (Hall r' Hr') as [H32 _]. rewrite player_guid_low in Es by done.
           apply Hnew. apply list_elem_of_fmap. exists r'. split; [congruence|done].
        -- destruct (decide (j = k)) as [->|Hne]; [|now rewrite (Hother j r Hj Hne) in Hin; apply elem_of_nil in Hin].
           rewrite Hk in Hj. injection Hj as <-. rewrite slots_of_one, Er, Z.eqb_refl, En, list_elem_of_singleton in Hin. subst s. cbn [s_guid].
           rewrite player_guid_low, decide_True by done. exact Egd.
    + eexists. split; [reflexivity|]. apply Hsame; try done. intros r _. rewrite slots_of_one, En. now case_if.
  - eexists. split; [reflexivity|]. apply Hsame; try done. intros r Hr. rewrite slots_of_one.
    destruct (Z.eqb_spec (mr_guid mr) (r_guid r)) as [E|]; [|done]. apply list_elem_of_lookup in Hr as [k Hk].
    pose proof (Hi k r Hk) as H. rewrite <- E in H. congruence.
Qed.

Lemma members_loaded_all rows mgr members w :
  indexed rows mgr -> members_loaded rows mgr [] w -> Forall member_row_ok members -> Forall (fun r => 0 <= mr_guid r) members ->
  NoDup (map mr_memberGuid members) ->
  exists w', foldl (load_member_row GetPlayerName) (Some w) members = Some w' /\ members_loaded rows mgr members w'.
Proof.
  intros Hi H0. induction members as [|mr members IH] using rev_ind; intros Hall Hid Hnd; [now exists w|].
  apply Forall_app in Hall as [Hall [Hmr _]%Forall_cons]. apply Forall_app in Hid as [Hid [Hmid _]%Forall_cons].
  rewrite map_app in Hnd. apply NoDup_app in Hnd as (Hnd & Hdis & _). destruct (IH Hall Hid Hnd) as (w1 & E1 & L1).
  rewrite foldl_app, E1. apply members_loaded_snoc; try done. intros Hin. apply (Hdis _ Hin). left.
Qed.

Lemma indexed_loaded rows w : rows_ok rows -> groups_loaded rows w -> indexed rows (gw_mgr w).
Proof.
  intros (Hs & _) [_ _ Hr Hu _]. split_and!; [intros k row Hk; now apply (Hr k row Hk)|done|].
  clear -Hs. induction Hs as [|r rows Hs IH Hf]; [constructor|]. cbn. apply NoDup_cons. split; [|done].
  intros (r' & E & Hin)%list_elem_of_fmap. rewrite Forall_forall in Hf. specialize (Hf r' Hin). lia.
Qed.

(** Both queries: the loop over the groups and the one over the members. *)
Lemma LoadGroups_loaded rows members lfg :
  rows_ok rows -> Forall member_row_ok members -> Forall (fun r => 0 <= mr_guid r) members -> NoDup (map mr_memberGuid members) ->
  exists w w1, LoadGroups GetPlayerName rows members (new_world lfg) = Some w /\
    groups_loaded rows w1 /\ members_loaded rows (gw_mgr w1) members w.
Proof.
  intros Hr Hm Hid Hnd. pose proof (groups_loaded_all rows lfg Hr) as L. unfold LoadGroups.
  set (w1 := foldl (load_group_row _) _ _) in *.
  destruct (members_loaded_all rows (gw_mgr w1) members w1) as (w & E & M); try done.
  - now apply indexed_loaded.
  - split; [done| |].
    + intros k row Hk. cbn zeta. rewrite loaded_no_members. now apply (gl_rows _ _ L k row Hk).
    + intros k row s Hk Hin. now apply elem_of_nil in Hin.
  - now exists w, w1.
Qed.

(** A loaded group field by field: each setting is that of the row, a difficulty that
    does not exist is the normal one; a group whose leader has no name is left with the
    settings of a new group. *)
Definition row_difficulty (d max : Z) : Z := if d <? max then d else 0.
Definition group_of_row (row : GroupRow) (low : Z) (members : list MemberRow) : Group :=
  let slots := slots_of (r_guid row) members in
  match GetPlayerName (r_leaderGuid row) with
  | Some name =>
    {| m_memberSlots := slots; m_memberMgr := []; m_invitees := ∅;
       m_leaderGuid := player_guid (r_leaderGuid row); m_leaderName := name;
       m_groupType := r_groupType row;
       m_dungeonDifficulty := row_difficulty (r_difficulty row) 3; m_raidDifficulty := row_difficulty (r_raiddifficulty row) 4;
       m_bgGroup := None; m_bfGroup := None; m_targetIcons := r_icons row;
       m_lootMethod := r_lootMethod row; m_lootThreshold := r_lootThreshold row;
       m_looterGuid := player_guid (r_looterGuid row); m_masterLooterGuid := player_guid (r_masterLooterGuid row);
       RollId := []; m_boundInstances := ∅;
       m_subGroupsCounts := if Z.testbit (r_groupType row) 1 then Some (sub_group_counts slots) else None;
       m_guid := MAKE_NEW_GUID low 0 HIGHGUID_GROUP; m_counter := 0; m_maxEnchantingLevel := 0; m_dbStoreId := r_guid row |}
  | None =>
    {| m_memberSlots := slots; m_memberMgr := []; m_invitees := ∅;
       m_leaderGuid := player_guid (r_leaderGuid row); m_leaderName := [];
       m_groupType := 0; m_dungeonDifficulty := 0; m_raidDifficulty := 0;
       m_bgGroup := None; m_bfGroup := None; m_targetIcons := repeat 0 8;
       m_lootMethod := 0; m_lootThreshold := 2; m_looterGuid := 0; m_masterLooterGuid := 0;
       RollId := []; m_boundInstances := ∅; m_subGroupsCounts := None;
       m_guid := MAKE_NEW_GUID low 0 HIGHGUID_GROUP; m_counter := 0; m_maxEnchantingLevel := 0; m_dbStoreId := r_guid row |}
  end.
Lemma raid_bit t : negb (Z.land t GROUPTYPE_RAID =? 0) = Z.testbit t 1.
Proof.
  change GROUPTYPE_RAID with (2 ^ 1). destruct (Z.testbit t 1) eqn:E.
  - apply negb_true_iff, Z.eqb_neq. intros H. assert (Hb : Z.testbit (Z.land t (2 ^ 1)) 1 = true) by (rewrite Z.land_spec, E; reflexivity). now rewrite H in Hb.
  - apply negb_false_iff, Z.eqb_eq. apply Z.bits_inj'. intros n Hn. rewrite Z.land_spec, Z.pow2_bits_eqb, Z.bits_0 by lia.
    destruct (Z.eqb_spec 1 n) as [<-|]; [now rewrite E|apply andb_false_r].
Qed.
Lemma loaded_group_fields row low members : loaded_group row low members = group_of_row row low members.
Proof.
  unfold loaded_group, fresh_group, group_of_row, row_difficulty. destruct (GetPlayerName (r_leaderGuid row)) as [name|]; [|reflexivity].
  rewrite <- !raid_bit. cbv beta iota zeta delta [load_settings initRaidSubGroupsCounter isRaidGroup new_group foldl default from_option id
    m_memberSlots m_memberMgr m_invitees m_leaderGuid m_leaderName m_groupType m_dungeonDifficulty m_raidDifficulty m_bgGroup m_bfGroup m_targetIcons
    m_lootMethod m_lootThreshold m_looterGuid m_masterLooterGuid RollId m_boundInstances m_subGroupsCounts m_guid m_counter m_maxEnchantingLevel
    m_dbStoreId set_m_memberSlots set_m_memberMgr set_m_invitees set_m_leaderGuid set_m_leaderName set_m_groupType set_m_dungeonDifficulty
    set_m_raidDifficulty set_m_bgGroup set_m_bfGroup set_m_targetIcons set_m_lootMethod set_m_lootThreshold set_m_looterGuid set_m_masterLooterGuid
    set_RollId set_m_boundInstances set_m_subGroupsCounts set_m_guid set_m_counter set_m_maxEnchantingLevel set_m_dbStoreId].
  unfold MAX_DUNGEON_DIFFICULTY, MAX_RAID_DIFFICULTY. rewrite !Z.leb_antisym.
  destruct (negb (Z.land (r_groupType row) GROUPTYPE_RAID =? 0)) eqn:E; cbv beta iota zeta delta [m_memberSlots m_memberMgr m_invitees m_leaderGuid m_leaderName m_groupType m_dungeonDifficulty m_raidDifficulty m_bgGroup m_bfGroup m_targetIcons
    m_lootMethod m_lootThreshold m_looterGuid m_masterLooterGuid RollId m_boundInstances m_subGroupsCounts m_guid m_counter m_maxEnchantingLevel
    m_dbStoreId set_m_memberSlots set_m_memberMgr set_m_invitees set_m_leaderGuid set_m_leaderName set_m_groupType set_m_dungeonDifficulty
    set_m_raidDifficulty set_m_bgGroup set_m_bfGroup set_m_targetIcons set_m_lootMethod set_m_lootThreshold set_m_looterGuid set_m_masterLooterGuid
    set_RollId set_m_boundInstances set_m_subGroupsCounts set_m_guid set_m_counter set_m_maxEnchantingLevel set_m_dbStoreId];
    rewrite ?E; destruct (r_difficulty row <? 3), (r_raiddifficulty row <? 4); reflexivity.
Qed.

(** C34. Loading with rows in the order of their numbers gives each stored group,
    found by its number and by its guid, the leader and each setting of its row (loot
    method, looter, threshold, master looter, icons, type, difficulties up to the
    greatest that exists), unless its leader has no name, when it is left with the
    settings of a new group; the members of its rows that have a name, in order, and,
    for a raid, the right sub group counters.  It never writes outside the counters,
    and the dungeon finder notes every member with his group. *)
Theorem LoadGroups_correct (rows : list GroupRow) (members : list MemberRow) (lfg : LFGMgr.Mgr) :
  rows_ok rows -> Forall member_row_ok members -> Forall (fun r => 0 <= mr_guid r) members ->
  NoDup (map mr_memberGuid members) ->
  exists w, LoadGroups GetPlayerName rows members (new_world lfg) = Some w /\
    forall k row, rows !! k = Some row -> exists p g,
      GetGroupByDbStoreId (gw_mgr w) (r_guid row) = Some p /\ gw_heap w !! p = Some g /\
      GetGroupByGUID (gw_mgr w) (GetLowGUID g) = Some p /\
      g = group_of_row row (1 + Z.of_nat k) members /\
      (forall s, s ∈ m_memberSlots g -> LFGMgr.GetGroup (gw_lfg w) (s_guid s) = m_guid g).
Proof.
  intros Hr Hm Hid Hnd. destruct (LoadGroups_loaded rows members lfg Hr Hm Hid Hnd) as (w & w1 & E & L & M).
  exists w. split; [done|]. intros k row Hk. destruct L as [_ _ L _ _]. destruct (L k row Hk) as (_ & L1 & L2).
  destruct M as [M1 M2 M3]. rewrite M1. exists (1 + Z.of_nat k), (loaded_group row (1 + Z.of_nat k) members).
  split; [done|]. split; [now apply M2|].
  destruct (fresh_group_fields row (1 + Z.of_nat k)) as (_ & _ & Eg & _).
  assert (Eg' : m_guid (loaded_group row (1 + Z.of_nat k) members) = MAKE_NEW_GUID (1 + Z.of_nat k) 0 HIGHGUID_GROUP) by exact Eg.
  split; [|split; [apply loaded_group_fields|]].
  - unfold GetLowGUID. rewrite Eg', group_guid_low; [done|]. apply lookup_lt_Some in Hk.
    destruct Hr as (_ & _ & Hl). unfold zlen, is_u in *. lia.
  - intros s Hs. rewrite Eg'. now apply (M3 k row s Hk).
Qed.
End Loading.

(** C33. After loading, and after any number of groups were created and deleted,
    a new group is stored under the smallest positive number that no group has,
    and the server is not stopped. *)
Theorem new_group_number (GetPlayerName : Z -> option (list Z)) rows members lfg w m :
  rows_ok rows -> Forall member_row_ok members -> Forall (fun r => 0 <= mr_guid r) members -> NoDup (map mr_memberGuid members) ->
  LoadGroups GetPlayerName rows members (new_world lfg) = Some w -> rtc id_step (gw_mgr w) m -> ids_left m ->
  exists id m', GenerateNewGroupDbStoreId m = (id, false, m') /\ 1 <= id /\ GetGroupByDbStoreId m id = None /\
    (forall j, 1 <= j < id -> GetGroupByDbStoreId m j <> None).
Proof.
  intros Hr Hm Hid Hnd E Hsteps Hl. destruct (LoadGroups_loaded GetPlayerName rows members lfg Hr Hm Hid Hnd) as (w' & w1 & E' & L & M).
  rewrite E in E'. injection E' as <-. assert (Hok : ids_ok (gw_mgr w)) by (rewrite (ml_mgr _ _ _ _ _ M); apply L).
  assert (Hm' : ids_ok m) by (clear -Hok Hsteps; induction Hsteps; eauto using id_step_ok).
  destruct (generate_ok m Hm' Hl) as (next & En & _). destruct Hm' as (H1 & H2 & H3).
  exists (NextGroupDbStoreId m), (SetNextGroupDbStoreId next m). now split_and!.
Qed.

Definition sample_row (id type : Z) : GroupRow := mkGroupRow 10 GROUP_LOOT 11 ITEM_QUALITY_UNCOMMON (repeat 0 8) type 1 7 12 id (0, 0).
Definition sample_rows : list GroupRow := [sample_row 1 GROUPTYPE_NORMAL; sample_row 2 GROUPTYPE_RAID; sample_row 4 GROUPTYPE_NORMAL].
Definition sample_members : list MemberRow :=
  [mkMemberRow 1 10 0 0 0; mkMemberRow 1 11 0 0 0; mkMemberRow 2 12 1 0 0; mkMemberRow 2 13 0 3 0; mkMemberRow 2 14 0 3 0;
   mkMemberRow 2 99 0 3 0; mkMemberRow 4 15 0 0 0; mkMemberRow 9 16 0 0 0].
Definition sample_name (guid : Z) : option (list Z) := if guid =? 99 then None else Some [guid].

Lemma sample_ok :
  rows_ok sample_rows /\ Forall member_row_ok sample_members /\ Forall (fun r => 0 <= mr_guid r) sample_members /\
  NoDup (map mr_memberGuid sample_members).
Proof.
  split; [|split; [|split]].
  - split; [|split; [|done]].
    + unfold sample_rows. repeat (apply SSorted_cons; [|repeat (apply Forall_cons_2; [cbn; lia|]); apply Forall_nil_2]). apply SSorted_nil.
    + repeat (apply Forall_cons_2; [cbn; lia|]). apply Forall_nil_2.
  - unfold sample_members. repeat (apply Forall_cons_2; [split; split; vm_compute; (discriminate || reflexivity)|]). apply Forall_nil_2.
  - unfold sample_members. repeat (apply Forall_cons_2; [cbn; lia|]). apply Forall_nil_2.
  - cbn. repeat (apply NoDup_cons_2; [set_solver|]). apply NoDup_nil_2.
Qed.

Definition loaded_sample : option GroupWorld := LoadGroups sample_name sample_rows sample_members (new_world (LFGMgr.new_mgr 3)).
Definition raid_sample : option Group := w ← loaded_sample; p ← GetGroupByDbStoreId (gw_mgr w) 2; gw_heap w !! p.

Lemma LoadGroups_correct_witness :
  (m_subGroupsCounts <$> raid_sample) = Some (Some [1; 0; 0; 2; 0; 0; 0; 0]) /\
  (gw_deleted <$> loaded_sample) = Some [99] /\
  ((fun g => (m_looterGuid g, m_masterLooterGuid g, m_dungeonDifficulty g, m_raidDifficulty g)) <$> raid_sample) = Some (11, 12, 1, 0) /\
  exists w, LoadGroups sample_name sample_rows sample_members (new_world (LFGMgr.new_mgr 3)) = Some w.
Proof.
  split; [vm_compute; reflexivity|]. split; [vm_compute; reflexivity|]. split; [vm_compute; reflexivity|]. destruct sample_ok as (H1 & H2 & H3 & H4).
  destruct (LoadGroups_correct sample_name sample_rows sample_members (LFGMgr.new_mgr 3) H1 H2 H3 H4) as (w & E & _).
  exists w. exact E.
Defined.

Lemma sample_numbers :
  (fun w => (GroupDbStore (gw_mgr w), NextGroupDbStoreId (gw_mgr w))) <$>
  LoadGroups sample_name sample_rows sample_members (new_world (LFGMgr.new_mgr 3)) =
  Some ([None; Some 1; Some 2; None; Some 3], 3).
Proof. vm_compute. reflexivity. Qed.

(** Group 3 is created, group 1 deleted. *)
Lemma sample_steps :
  exists w m, LoadGroups sample_name sample_rows sample_members (new_world (LFGMgr.new_mgr 3)) = Some w /\ rtc id_step (gw_mgr w) m /\ ids_left m /\ NextGroupDbStoreId m = 1.
Proof.
  pose proof sample_numbers as H. destruct (LoadGroups _ _ _ _) as [w|]; [|done]. cbn in H. injection H as Hd Hn.
  destruct (gw_mgr w) as [ids n st db] eqn:Em. cbn in Hd, Hn. subst n db. exists w.
  set (m := mkGroupMgr ids 3 st [None; Some 1; Some 2; None; Some 3]) in *.
  set (m1 := RegisterGroupDbStoreId (GenerateNewGroupDbStoreId m).1.1 50 (GenerateNewGroupDbStoreId m).2).
  assert (K : exists m2, FreeGroupDbStoreId 1 m1 = Some m2 /\ ids_left m2 /\ NextGroupDbStoreId m2 = 1)
    by (eexists; split; [reflexivity|]; split; reflexivity).
  destruct K as (m2 & K1 & K2 & K3). exists m2. split; [done|]. split; [|done]. rewrite Em.
  apply (rtc_l _ _ m1); [now apply step_create|]. apply rtc_once. now apply (step_delete _ 1 1).
Qed.

(** The next group is number 1. *)
Lemma new_group_number_witness :
  exists m m', GenerateNewGroupDbStoreId m = (1, false, m') /\ GetGroupByDbStoreId m 1 = None.
Proof.
  destruct sample_ok as (H1 & H2 & H3 & H4). destruct sample_steps as (w & m & E & Hs & Hl & Hn).
  destruct (new_group_number sample_name sample_rows sample_members (LFGMgr.new_mgr 3) w m H1 H2 H3 H4 E Hs Hl) as (id & m' & Eg & _ & Hf & _).
  assert (Ei : id = 1) by (rewrite <- Hn; change (NextGroupDbStoreId m) with (GenerateNewGroupDbStoreId m).1.1; now rewrite Eg).
  subst id. exists m, m'. split; [exact Eg|exact Hf].
Defined.
