(* ===== verification/GroupLoot.v ===== *)
(** * Groups: loot rolls (src/server/game/Groups/Group.cpp, the loot system)

    The state is a group, the loot objects it rolls for, the counter of item
    guids, the timers of the looted objects and the trace of what left.  The rolls
    are those of [RollId] of the group; a roll is linked to its loot, by address,
    until the loot is cleared.  Players, distances and inventories are the class
    [LootView]; what an inventory answers may depend on all that happened before.

    The claims: at the end of a roll the highest draw among those entitled wins,
    before all others need, then greed and disenchant, and gets the item; over
    every sequence of operations the rolls stay sound and nothing fails; the end of
    a loot's rolls ends; a player who repeats his vote ends a roll alone. *)

From stdpp Require Import base gmap list.
From Stdlib Require Import ZArith Lia.
From S2P Require Import Prelude StdMap ObjectGuid ActionLogic GroupTypes.
#[local] Open Scope Z_scope.

Record LootItem := mkLootItem {
  li_itemid : Z; li_randomSuffix : Z; li_randomPropertyId : Z; li_count : Z; li_allowedGUIDs : gset Z;
  is_looted : bool; is_blocked : bool; freeforall : bool; is_underthreshold : bool; follow_loot_rules : bool
}.
Definition set_is_looted (b : bool) (i : LootItem) : LootItem :=
  mkLootItem (li_itemid i) (li_randomSuffix i) (li_randomPropertyId i) (li_count i) (li_allowedGUIDs i)
    b (is_blocked i) (freeforall i) (is_underthreshold i) (follow_loot_rules i).
Definition set_is_blocked (b : bool) (i : LootItem) : LootItem :=
  mkLootItem (li_itemid i) (li_randomSuffix i) (li_randomPropertyId i) (li_count i) (li_allowedGUIDs i)
    (is_looted i) b (freeforall i) (is_underthreshold i) (follow_loot_rules i).
Definition set_is_underthreshold (b : bool) (i : LootItem) : LootItem :=
  mkLootItem (li_itemid i) (li_randomSuffix i) (li_randomPropertyId i) (li_count i) (li_allowedGUIDs i)
    (is_looted i) (is_blocked i) (freeforall i) b (follow_loot_rules i).
Record Loot := mkLoot { items : list LootItem; quest_items : list LootItem; unlootedCount : Z; PlayersLooting : gset Z }.

Record ItemTemplate := mkItemTemplate { it_Quality : Z; it_DisenchantID : Z; it_RequiredDisenchantSkill : Z; it_Flags2 : Z }.
Definition ITEM_FLAGS_EXTRA_NEED_ROLL_DISABLED : Z := 0x100.
Definition EQUIP_ERR_OK : Z := 0.

Definition ACHIEVEMENT_CRITERIA_TYPE_CAST_SPELL : Z := 29.
Definition ACHIEVEMENT_CRITERIA_TYPE_ROLL_NEED_ON_LOOT : Z := 50.
Definition ACHIEVEMENT_CRITERIA_TYPE_ROLL_GREED_ON_LOOT : Z := 51.
Definition ACHIEVEMENT_CRITERIA_TYPE_ROLL_NEED : Z := 93.
Definition ACHIEVEMENT_CRITERIA_TYPE_ROLL_GREED : Z := 94.

(** What leaves: packets (first the receiver), and calls on players. *)
Inductive LootEvent :=
| SMSG_LOOT_START_ROLL (to guid mapid slot itemid suffix prop count countDown voteMask : Z)
| SMSG_LOOT_ROLL (to source slot target itemid suffix prop number type : Z)
| SMSG_LOOT_ROLL_WON (to source slot itemid suffix prop target number type : Z)
| SMSG_LOOT_ALL_PASSED (to guid slot itemid prop suffix : Z)
| SMSG_LOOT_MASTER_LIST (to count : Z) (looters : list Z)
| SendNotifyLootItemRemoved (to slot : Z)
| UpdateAchievementCriteria (player type misc1 misc2 : Z)
| StoreNewItem (player itemid prop : Z) (allowed : gset Z)
| SendEquipError (player msg itemid : Z)
| AutoStoreLoot (player disenchantId : Z)
| SendItemRetrievalMail (player itemid count : Z).

(** A player who is connected. *)
Record LootPlayer := mkLootPlayer { lp_session : bool; lp_in_world : bool; lp_map : Z; lp_pass : bool }.
Class LootView := mkLootView {
  lv_player : Z -> option LootPlayer;               (** [FindConnectedPlayer] *)
  lv_near : Z -> bool;                              (** near the looted object *)
  AllowedForPlayer : LootItem -> Z -> bool;
  CanRollForItemInLFG : Z -> Z -> bool;             (** player, item *)
  GetItemTemplate : Z -> option ItemTemplate;
  CanStoreNewItem : list LootEvent -> Z -> Z -> Z -> Z;   (** player, item, count *)
  disenchant_loot : list LootEvent -> Z -> Z -> list (Z * Z);   (** player, template: items and counts *)
  urand : nat -> Z -> Z -> Z;                       (** by the number of draws *)
  urand_range n : 1 <= urand n 1 100 <= 100
}.

Record LootWorld := mkLootWorld {
  lw_group : Group;
  lw_loots : gmap Z Loot;
  lw_itemGuid : Z;
  lw_timers : gmap Z (Z * Z);                       (** [m_groupLootTimer], [lootingGroupLowGUID] *)
  lw_drawn : nat;
  lw_trace : list LootEvent
}.
Definition with_group (g : Group) (w : LootWorld) : LootWorld :=
  mkLootWorld g (lw_loots w) (lw_itemGuid w) (lw_timers w) (lw_drawn w) (lw_trace w).
Definition with_loots (l : gmap Z Loot) (w : LootWorld) : LootWorld :=
  mkLootWorld (lw_group w) l (lw_itemGuid w) (lw_timers w) (lw_drawn w) (lw_trace w).
Definition with_itemGuid (n : Z) (w : LootWorld) : LootWorld :=
  mkLootWorld (lw_group w) (lw_loots w) n (lw_timers w) (lw_drawn w) (lw_trace w).
Definition with_timers (t : gmap Z (Z * Z)) (w : LootWorld) : LootWorld :=
  mkLootWorld (lw_group w) (lw_loots w) (lw_itemGuid w) t (lw_drawn w) (lw_trace w).
Definition with_drawn (n : nat) (w : LootWorld) : LootWorld :=
  mkLootWorld (lw_group w) (lw_loots w) (lw_itemGuid w) (lw_timers w) n (lw_trace w).
Definition with_trace (t : list LootEvent) (w : LootWorld) : LootWorld :=
  mkLootWorld (lw_group w) (lw_loots w) (lw_itemGuid w) (lw_timers w) (lw_drawn w) t.
Definition M (A : Type) : Type := action LootWorld Empty_set A.

(** The looted object; creatures and game objects have the timer. *)
Record LootedObject := mkLootedObject { lo_id : Z; lo_map : Z; lo_timed : bool }.

Definition vote_code (v : RollVote) : Z :=
  match v with PASS => 0 | NEED => 1 | GREED => 2 | DISENCHANT => 3 | NOT_EMITED_YET => 4 | NOT_VALID => 5 end.

(** The rolls linked to a loot. *)
Definition of_loot (l : Z) (r : Roll) : Prop := roll_loot r = Some l.
#[export] Instance of_loot_dec l r : Decision (of_loot l r).
Proof. unfold of_loot. apply _. Defined.

Section Loot.
Context `{view : LootView}.

(** ** The state *)

Definition emit (e : LootEvent) : M unit := modify (fun w => with_trace (lw_trace w ++ [e]) w).
Definition draw : M Z :=
  let! n := gets lw_drawn in
  do! modify (with_drawn (S n)) in
  ret (urand n 1 100).
Definition rolls (w : LootWorld) : list Roll := RollId (lw_group w).
Definition set_rolls (l : list Roll) (w : LootWorld) : LootWorld := with_group (set_RollId l (lw_group w)) w.
Definition roll_at (i : nat) : M Roll := let! l := gets rolls in of_option (l !! i).
Definition put_roll (i : nat) (r : Roll) : M unit := modify (fun w => set_rolls (<[i := r]> (rolls w)) w).
Definition erase_roll (i : nat) : M unit := modify (fun w => set_rolls (base.delete i (rolls w)) w).
(** The object a loot pointer points at. *)
Definition loot_at (l : Z) : M Loot := let! ls := gets lw_loots in of_option (ls !! l).
Definition alter_loot (l : Z) (f : Loot -> Loot) : M unit :=
  let! loot := loot_at l in
  modify (fun w => with_loots (<[l := f loot]> (lw_loots w)) w).

Definition FindConnected (guid : Z) : option LootPlayer :=
  match lv_player guid with Some p => if lp_session p then Some p else None | None => None end.
(** [FindPlayer], and on the map when one is given. *)
Definition here (allowedMap : option Z) (guid : Z) : bool :=
  match lv_player guid with
  | Some p => lp_in_world p && match allowedMap with Some m => lp_map p =? m | None => true end
  | None => false
  end.

(** ** Items of a loot *)

Definition on_items (f : list LootItem -> list LootItem) (l : Loot) : Loot := mkLoot (f (items l)) (quest_items l) (unlootedCount l) (PlayersLooting l).
Definition on_quest_items (f : list LootItem -> list LootItem) (l : Loot) : Loot := mkLoot (items l) (f (quest_items l)) (unlootedCount l) (PlayersLooting l).
(** The slot counts the items and then the quest items. *)
Definition item_in_slot (slot : Z) (l : Loot) : option LootItem :=
  if zlen (items l) <=? slot then quest_items l !! Z.to_nat (slot - zlen (items l)) else items l !! Z.to_nat slot.
Definition alter_slot_item (slot : Z) (f : LootItem -> LootItem) (l : Loot) : Loot :=
  if zlen (items l) <=? slot then on_quest_items (alter f (Z.to_nat (slot - zlen (items l)))) l
  else on_items (alter f (Z.to_nat slot)) l.

Definition NotifyItemRemoved (l slot : Z) : M unit :=
  let! loot := loot_at l in
  for_each (set_order Z.le (PlayersLooting loot)) (fun guid =>
    if here None guid then emit (SendNotifyLootItemRemoved guid slot)
    else alter_loot l (fun loot => mkLoot (items loot) (quest_items loot) (unlootedCount loot) (PlayersLooting loot ∖ {[guid]}))).
Definition lower_unlooted (l : Loot) : Loot := mkLoot (items l) (quest_items l) (u8 (unlootedCount l - 1)) (PlayersLooting l).

(** ** Messages *)

(** To the connected voters of a roll whose vote is kept by [keep]. *)
Definition send_voters (r : Roll) (keep : RollVote -> bool) (msg : Z -> LootEvent) : M unit :=
  for_each (entries Z.le (playerVote r)) (fun e =>
    when (bool_decide (FindConnected e.1 <> None) && keep e.2) (emit (msg e.1))).
Definition valid_vote (v : RollVote) : bool := negb (bool_decide (v = NOT_VALID)).
Definition SendLootStartRoll (countDown mapid : Z) (r : Roll) : M unit :=
  send_voters r (fun v => bool_decide (v = NOT_EMITED_YET)) (fun to =>
    SMSG_LOOT_START_ROLL to (itemGUID r) mapid (itemSlot r) (itemid r) (itemRandomSuffix r) (itemRandomPropId r)
      (itemCount r) countDown (rollVoteMask r)).
Definition SendLootStartRollToPlayer (countDown mapid p : Z) (canNeed : bool) (r : Roll) : M unit :=
  let voteMask := if canNeed then rollVoteMask r else u8 (Z.land (rollVoteMask r) (Z.lnot ROLL_FLAG_TYPE_NEED)) in
  emit (SMSG_LOOT_START_ROLL p (itemGUID r) mapid (itemSlot r) (itemid r) (itemRandomSuffix r) (itemRandomPropId r)
          (itemCount r) countDown voteMask).
Definition SendLootRoll (source target number type : Z) (r : Roll) : M unit :=
  send_voters r valid_vote (fun to =>
    SMSG_LOOT_ROLL to source (itemSlot r) target (itemid r) (itemRandomSuffix r) (itemRandomPropId r) number type).
Definition SendLootRollWon (source target number type : Z) (r : Roll) : M unit :=
  send_voters r valid_vote (fun to =>
    SMSG_LOOT_ROLL_WON to source (itemSlot r) (itemid r) (itemRandomSuffix r) (itemRandomPropId r) target number type).
Definition SendLootAllPassed (r : Roll) : M unit :=
  send_voters r valid_vote (fun to =>
    SMSG_LOOT_ALL_PASSED to (itemGUID r) (itemSlot r) (itemid r) (itemRandomPropId r) (itemRandomSuffix r)).

(** ** Starting rolls *)

Definition new_roll (guid : Z) (i : LootItem) : Roll :=
  mkRoll guid (li_itemid i) (li_randomPropertyId i) (li_randomSuffix i) (li_count i) None ∅ 0 0 0 0 0 ROLL_ALL_TYPE_NO_DISENCHANT.
Definition new_item_guid : M Z :=
  let! n := gets lw_itemGuid in
  if n <? 0xFFFFFFFE then do! modify (with_itemGuid (n + 1)) in ret (MAKE_NEW_GUID n 0 HIGHGUID_ITEM) else crash.
(** A member who may have the item and is near gets a vote; [autopass]: he may
    have chosen to pass on all loot. *)
Definition add_voter (autopass : bool) (i : LootItem) (r : Roll) (member : Z) : Roll :=
  match FindConnected member with
  | Some p =>
    if AllowedForPlayer i member && lv_near member then
      let r := set_totalPlayersRolling (u8 (totalPlayersRolling r + 1)) r in
      if autopass && lp_pass p
      then set_totalPass (u8 (totalPass r + 1)) (set_playerVote (<[member := PASS]> (playerVote r)) r)
      else set_playerVote (<[member := NOT_EMITED_YET]> (playerVote r)) r
    else r
  | None => r
  end.
Definition collect_voters (autopass : bool) (i : LootItem) (g : Group) (r : Roll) : Roll :=
  foldl (add_voter autopass i) r (map fst (m_memberMgr g)).
Definition start_timer (o : LootedObject) : M unit :=
  when (lo_timed o) (modify (fun w =>
    with_timers (<[lo_id o := (60000, GUID_LOPART (m_guid (lw_group w)))]> (lw_timers w)) w)).
Definition push_roll (r : Roll) : M unit := modify (fun w => set_rolls (rolls w ++ [r]) w).
Definition can_disenchant (g : Group) (t : ItemTemplate) : bool :=
  negb (it_DisenchantID t =? 0) && (it_RequiredDisenchantSkill t <=? m_maxEnchantingLevel g).
Definition allow_disenchant (g : Group) (t : ItemTemplate) (r : Roll) : Roll :=
  if can_disenchant g t then set_rollVoteMask (Z.lor (rollVoteMask r) ROLL_FLAG_TYPE_DISENCHANT) r else r.
Definition forbid_need (t : ItemTemplate) (r : Roll) : Roll :=
  if negb (Z.land (it_Flags2 t) ITEM_FLAGS_EXTRA_NEED_ROLL_DISABLED =? 0)
  then set_rollVoteMask (u8 (Z.land (rollVoteMask r) (Z.lnot ROLL_FLAG_TYPE_NEED))) r else r.
(** [items\[itemSlot\]] and [quest_items\[itemSlot - items.size()\]]. *)
Definition block_item (l slot : Z) : M unit :=
  let! loot := loot_at l in
  do! of_option (items loot !! Z.to_nat slot) in
  alter_loot l (on_items (alter (set_is_blocked true) (Z.to_nat slot))).
Definition block_quest_item (l slot : Z) : M unit :=
  let! loot := loot_at l in
  if slot <? zlen (items loot) then crash
  else
    do! of_option (quest_items loot !! Z.to_nat (slot - zlen (items loot))) in
    alter_loot l (on_quest_items (alter (set_is_blocked true) (Z.to_nat (slot - zlen (items loot))))).

Definition announce_group_loot (o : LootedObject) (guid : Z) (r : Roll) : M unit :=
  do! when (negb (totalPass r =? 0)) (for_each (entries Z.le (playerVote r)) (fun e =>
        when (bool_decide (FindConnected e.1 <> None) && bool_decide (e.2 = PASS)) (SendLootRoll guid e.1 128 ROLL_PASS r))) in
  SendLootStartRoll 60000 (lo_map o) r.
Definition announce_need_before_greed (o : LootedObject) (guid : Z) (r : Roll) : M unit :=
  for_each (entries Z.le (playerVote r)) (fun e =>
    when (bool_decide (FindConnected e.1 <> None))
      (if bool_decide (e.2 = PASS) then SendLootRoll guid e.1 128 ROLL_PASS r
       else SendLootStartRollToPlayer 60000 (lo_map o) e.1 (CanRollForItemInLFG e.1 (itemid r)) r)).

(** The roll for one item in a slot, for the items of both methods ([finish] sets
    the mask, [block] blocks the item, [announce] sends the messages). *)
Definition open_roll (autopass : bool) (finish : Roll -> Roll) (block : Z -> Z -> M unit) (announce : Z -> Roll -> M unit)
    (o : LootedObject) (l slot : Z) (i : LootItem) : M unit :=
  let! guid := new_item_guid in
  let! g := gets lw_group in
  let r := collect_voters autopass i g (new_roll guid i) in
  when (0 <? totalPlayersRolling r) (
    let r := finish (set_itemSlot slot (set_roll_loot (Some l) r)) in
    do! block l slot in
    do! announce guid r in
    do! push_roll r in
    start_timer o).

(** One round of the first loop of [GroupLoot] and of [NeedBeforeGreed]. *)
Definition group_loot_item (o : LootedObject) (l : Z) (k : nat) : M unit :=
  let! loot := loot_at l in
  let! i := of_option (items loot !! k) in
  let! g := gets lw_group in
  if freeforall i then ret tt
  else
    match GetItemTemplate (li_itemid i) with
    | None => ret tt
    | Some t =>
      if u32 (m_lootThreshold g) <=? it_Quality t
      then open_roll true (allow_disenchant g t) block_item (announce_group_loot o) o l (u8 (Z.of_nat k)) i
      else alter_loot l (on_items (alter (set_is_underthreshold true) k))
    end.
Definition need_before_greed_item (o : LootedObject) (l : Z) (k : nat) : M unit :=
  let! loot := loot_at l in
  let! i := of_option (items loot !! k) in
  let! g := gets lw_group in
  if freeforall i then ret tt
  else
    let! t := of_option (GetItemTemplate (li_itemid i)) in
    if u32 (m_lootThreshold g) <=? it_Quality t
    then open_roll true (fun r => forbid_need t (allow_disenchant g t r)) block_item (announce_need_before_greed o) o l (u8 (Z.of_nat k)) i
    else alter_loot l (on_items (alter (set_is_underthreshold true) k)).
(** One round of the second loops; the slots go on after the items. *)
Definition group_loot_quest_item (o : LootedObject) (l : Z) (k : nat) : M unit :=
  let! loot := loot_at l in
  let! i := of_option (quest_items loot !! k) in
  if negb (follow_loot_rules i) then ret tt
  else
    match GetItemTemplate (li_itemid i) with
    | None => ret tt
    | Some _ => open_roll false (fun r => r) block_quest_item (fun _ r => SendLootStartRoll 60000 (lo_map o) r) o l
                  (u8 (zlen (items loot) + Z.of_nat k)) i
    end.
Definition need_before_greed_quest_item (o : LootedObject) (l : Z) (k : nat) : M unit :=
  let! loot := loot_at l in
  let! i := of_option (quest_items loot !! k) in
  if negb (follow_loot_rules i) then ret tt
  else open_roll false (fun r => r) block_quest_item (announce_need_before_greed o) o l (u8 (zlen (items loot) + Z.of_nat k)) i.

Definition GroupLoot (l : Z) (o : LootedObject) : M unit :=
  let! loot := loot_at l in
  do! for_each (seq 0 (length (items loot))) (group_loot_item o l) in
  for_each (seq 0 (length (quest_items loot))) (group_loot_quest_item o l).
Definition NeedBeforeGreed (l : Z) (o : LootedObject) : M unit :=
  let! loot := loot_at l in
  do! for_each (seq 0 (length (items loot))) (need_before_greed_item o l) in
  for_each (seq 0 (length (quest_items loot))) (need_before_greed_quest_item o l).

(** [MasterLoot]: a reference without a player is dereferenced. *)
Definition master_block (i : LootItem) : LootItem := set_is_blocked (negb (is_underthreshold i)) i.
Definition find_player (acc : list (Z * LootPlayer)) (m : Z) : M (list (Z * LootPlayer)) :=
  let! p := of_option (lv_player m) in ret (acc ++ [(m, p)]).
Definition find_players (ms : list Z) : M (list (Z * LootPlayer)) := fold_m find_player ms [].
Definition send_master_list (looters : list Z) (members : list (Z * LootPlayer)) : M unit :=
  for_each members (fun e =>
    when (lv_near e.1) (if lp_session e.2 then emit (SMSG_LOOT_MASTER_LIST e.1 (u8 (zlen looters)) looters) else crash)).
Definition MasterLoot (l : Z) : M unit :=
  do! alter_loot l (on_items (map (fun i => if freeforall i then i else master_block i))) in
  do! alter_loot l (on_quest_items (map (fun i => if negb (follow_loot_rules i) then i else master_block i))) in
  let! g := gets lw_group in
  let! members := find_players (map fst (m_memberMgr g)) in
  send_master_list (map fst (filter (fun e => lp_in_world e.2 && lv_near e.1 = true) members)) members.

(** ** The end of a roll *)

Record Tally := mkTally { maxresul : Z; maxguid : Z; rollvote : RollVote; t_total : Z }.

(** One round of the loops over the votes of [CountTheRoll]. *)
Definition draw_vote (wanted : RollVote -> bool) (allowedMap : option Z) (r : Roll) (t : Tally) (e : Z * RollVote) : M Tally :=
  if negb (wanted e.2) then ret t
  else if negb (here allowedMap e.1) then ret (mkTally (maxresul t) (maxguid t) (rollvote t) (u8 (t_total t - 1)))
  else
    let! n := draw in
    let randomN := u8 n in
    do! SendLootRoll 0 e.1 randomN (vote_code e.2) r in
    ret (if maxresul t <? randomN then mkTally randomN e.1 e.2 (t_total t) else t).
Definition is_need (v : RollVote) : bool := match v with NEED => true | _ => false end.
Definition is_pass (v : RollVote) : bool := match v with PASS => true | _ => false end.
Definition is_greed (v : RollVote) : bool := match v with GREED | DISENCHANT => true | _ => false end.

(** The item of the roll; [None] in the loot would be an access outside it. *)
Definition roll_item (r : Roll) (l : Z) : M LootItem :=
  let! loot := loot_at l in of_option (item_in_slot (itemSlot r) loot).
Definition alter_roll_item (r : Roll) (l : Z) (f : LootItem -> LootItem) : M unit := alter_loot l (alter_slot_item (itemSlot r) f).
Definition mark_looted (r : Roll) (l : Z) : M unit :=
  do! alter_roll_item r l (set_is_looted true) in
  do! NotifyItemRemoved l (itemSlot r) in
  alter_loot l lower_unlooted.
(** The winner of an item gets it, or it becomes free for all when he has no room. *)
Definition give_item (r : Roll) (l winner : Z) : M unit :=
  let! i := roll_item r l in
  let! past := gets lw_trace in
  let msg := CanStoreNewItem past winner (itemid r) (li_count i) in
  if msg =? EQUIP_ERR_OK then
    do! mark_looted r l in
    emit (StoreNewItem winner (itemid r) (li_randomPropertyId i) (li_allowedGUIDs i))
  else
    do! alter_roll_item r l (set_is_blocked false) in
    emit (SendEquipError winner msg (itemid r)).
Definition disenchant_item (r : Roll) (l winner : Z) : M unit :=
  let! i := roll_item r l in
  do! mark_looted r l in
  let! t := of_option (GetItemTemplate (itemid r)) in
  do! emit (UpdateAchievementCriteria winner ACHIEVEMENT_CRITERIA_TYPE_CAST_SPELL 13262 0) in
  let! past := gets lw_trace in
  let msg := CanStoreNewItem past winner (itemid r) (li_count i) in
  if msg =? EQUIP_ERR_OK then emit (AutoStoreLoot winner (it_DisenchantID t))
  else for_each (disenchant_loot past winner (it_DisenchantID t)) (fun e =>
         do! emit (SendEquipError winner msg e.1) in emit (SendItemRetrievalMail winner e.1 e.2)).

Definition need_round (i : nat) (allowedMap : option Z) (l : Z) : M unit :=
  let! r := roll_at i in
  when ((0 <? totalNeed r) && negb (bool_decide (playerVote r = ∅))) (
    let! t := fold_m (draw_vote is_need allowedMap r) (entries Z.le (playerVote r)) (mkTally 0 0 NOT_VALID (totalNeed r)) in
    do! put_roll i (set_totalNeed (if maxguid t =? 0 then 0 else t_total t) r) in
    when (negb (maxguid t =? 0)) (
      do! SendLootRollWon 0 (maxguid t) (maxresul t) ROLL_NEED r in
      when (bool_decide (FindConnected (maxguid t) <> None)) (
        do! emit (UpdateAchievementCriteria (maxguid t) ACHIEVEMENT_CRITERIA_TYPE_ROLL_NEED_ON_LOOT (itemid r) (maxresul t)) in
        give_item r l (maxguid t)))).
Definition greed_round (i : nat) (allowedMap : option Z) (l : Z) : M unit :=
  let! r := roll_at i in
  when ((totalNeed r =? 0) && (0 <? totalGreed r) && negb (bool_decide (playerVote r = ∅))) (
    let! t := fold_m (draw_vote is_greed allowedMap r) (entries Z.le (playerVote r)) (mkTally 0 0 NOT_VALID (totalGreed r)) in
    do! put_roll i (set_totalGreed (if maxguid t =? 0 then 0 else t_total t) r) in
    when (negb (maxguid t =? 0)) (
      do! SendLootRollWon 0 (maxguid t) (maxresul t) (vote_code (rollvote t)) r in
      when (bool_decide (FindConnected (maxguid t) <> None)) (
        do! emit (UpdateAchievementCriteria (maxguid t) ACHIEVEMENT_CRITERIA_TYPE_ROLL_GREED_ON_LOOT (itemid r) (maxresul t)) in
        match rollvote t with
        | GREED => give_item r l (maxguid t)
        | DISENCHANT => disenchant_item r l (maxguid t)
        | _ => ret tt
        end))).
Definition all_passed (i : nat) (l : Z) : M unit :=
  let! r := roll_at i in
  when ((totalNeed r =? 0) && (totalGreed r =? 0)) (
    do! SendLootAllPassed r in
    let! _ := roll_item r l in
    alter_roll_item r l (set_is_blocked false)).

Definition CountTheRoll (i : nat) (allowedMap : option Z) : M unit :=
  let! r := roll_at i in
  match roll_loot r with
  | None => erase_roll i
  | Some l =>
    do! need_round i allowedMap l in
    do! greed_round i allowedMap l in
    do! all_passed i l in
    erase_roll i
  end.

(** ** Votes *)

Definition GetRoll (guid : Z) (l : list Roll) : option (nat * Roll) :=
  list_find (fun r => itemGUID r = guid /\ roll_loot r <> None) l.
Definition add_vote (player : Z) (choice : Z) (r : Roll) : Roll :=
  if choice =? ROLL_PASS then set_playerVote (<[player := PASS]> (playerVote r)) (set_totalPass (u8 (totalPass r + 1)) r)
  else if choice =? ROLL_NEED then set_playerVote (<[player := NEED]> (playerVote r)) (set_totalNeed (u8 (totalNeed r + 1)) r)
  else if choice =? ROLL_GREED then set_playerVote (<[player := GREED]> (playerVote r)) (set_totalGreed (u8 (totalGreed r + 1)) r)
  else if choice =? ROLL_DISENCHANT then
    set_playerVote (<[player := DISENCHANT]> (playerVote r)) (set_totalGreed (u8 (totalGreed r + 1)) r)
  else r.
Definition announce_vote (player : Z) (choice : Z) (r : Roll) : M unit :=
  when (choice <? MAX_ROLL_TYPE)
    (SendLootRoll 0 player (if choice =? ROLL_NEED then 0 else 128) (if choice =? ROLL_NEED then 0 else choice) r).
Definition votes_cast (r : Roll) : Z := totalPass r + totalNeed r + totalGreed r.

Definition CountRollVote (player guid choice : Z) : M unit :=
  let! l := gets rolls in
  match GetRoll guid l with
  | None => ret tt
  | Some (i, r) =>
    match playerVote r !! player, roll_loot r with
    | Some _, Some loot =>
      let! loot := loot_at loot in
      if bool_decide (items loot = []) then ret tt
      else
        do! announce_vote player choice r in
        do! put_roll i (add_vote player choice r) in
        when (totalPlayersRolling r <=? votes_cast (add_vote player choice r)) (CountTheRoll i None)
    | _, _ => ret tt
    end
  end.
(** [HandleLootRoll]: the handler of the packet. *)
Definition HandleLootRoll (player guid rollType : Z) : M unit :=
  do! CountRollVote player guid rollType in
  if rollType =? ROLL_NEED then emit (UpdateAchievementCriteria player ACHIEVEMENT_CRITERIA_TYPE_ROLL_NEED 1 0)
  else when (rollType =? ROLL_GREED) (emit (UpdateAchievementCriteria player ACHIEVEMENT_CRITERIA_TYPE_ROLL_GREED 1 0)).

(** [RemoveMember]: the votes of the one who leaves.  The roll is counted with a
    choice that casts no vote. *)
Definition take_back (v : RollVote) (r : Roll) : Roll :=
  let r := match v with
           | GREED | DISENCHANT => set_totalGreed (u8 (totalGreed r - 1)) r
           | NEED => set_totalNeed (u8 (totalNeed r - 1)) r
           | PASS => set_totalPass (u8 (totalPass r - 1)) r
           | _ => r
           end in
  if valid_vote v then set_totalPlayersRolling (u8 (totalPlayersRolling r - 1)) r else r.
Definition remove_vote (guid : Z) (i : nat) : M unit :=
  let! l := gets rolls in
  match l !! i with
  | None => ret tt
  | Some r =>
    match playerVote r !! guid with
    | None => ret tt
    | Some v =>
      let r := take_back v r in
      do! put_roll i (set_playerVote (base.delete guid (playerVote r)) r) in
      CountRollVote guid (itemGUID r) MAX_ROLL_TYPE
    end
  end.
Definition RemoveFromRolls (guid : Z) : M unit :=
  let! l := gets rolls in
  for_each (seq 0 (length l)) (remove_vote guid).

(** [EndRoll]: after a roll was counted the search starts again. *)
Fixpoint end_loop (fuel : nat) (l : Z) (allowedMap : option Z) (i : nat) : M unit :=
  match fuel with
  | O => crash
  | S fuel =>
    let! rs := gets rolls in
    match rs !! i with
    | None => ret tt
    | Some r =>
      if bool_decide (roll_loot r = Some l) then do! CountTheRoll i allowedMap in end_loop fuel l allowedMap 0
      else end_loop fuel l allowedMap (S i)
    end
  end.
Definition EndRoll (l : Z) (allowedMap : option Z) : M unit :=
  let! rs := gets rolls in
  end_loop (S (length rs) * S (length rs)) l allowedMap 0.

(** [Loot::clear]: the rolls lose their loot. *)
Definition clear_loot (l : Z) : M unit :=
  do! alter_loot l (fun _ => mkLoot [] [] 0 ∅) in
  modify (fun w => set_rolls (map (fun r => if bool_decide (roll_loot r = Some l) then set_roll_loot None r else r) (rolls w)) w).

(** ** What the steps do: equations *)

(** Runs the first action of a sequence by its equation. *)
Ltac step H := rewrite (bind_eq _ _ _ _ _ H).

Definition is_award (e : LootEvent) : bool :=
  match e with StoreNewItem _ _ _ _ | AutoStoreLoot _ _ | SendItemRetrievalMail _ _ _ => true | _ => false end.
Definition awards (l : list LootEvent) : list LootEvent := filter (fun e => is_award e = true) l.
Definition say (more : list LootEvent) (s : LootWorld) : LootWorld := with_trace (lw_trace s ++ more) s.

Lemma say_nil s : say [] s = s.
Proof. unfold say. rewrite app_nil_r. now destruct s. Qed.
Lemma say_say a b s : say b (say a s) = say (a ++ b) s.
Proof. unfold say. cbn. now rewrite app_assoc. Qed.
Lemma awards_app a b : awards (a ++ b) = awards a ++ awards b.
Proof. apply filter_app. Qed.

Lemma emit_all {A} (l : list A) (b : A -> bool) (f : A -> LootEvent) s :
  for_each l (fun x => when (b x) (emit (f x))) s = (Ret tt, say (map f (filter (fun x => b x = true) l)) s).
Proof.
  revert s. induction l as [|x l IH]; intros s; cbn [for_each].
  - cbn. now rewrite say_nil.
  - destruct (b x) eqn:Eb; cbn [when].
    + rewrite filter_cons_True by done. unfold emit at 1. rewrite bind_modify, IH.
      change (with_trace (lw_trace s ++ [f x]) s) with (say [f x] s). now rewrite say_say.
    + rewrite filter_cons_False by congruence. erewrite bind_eq by reflexivity. apply IH.
Qed.

Definition voters (r : Roll) (keep : RollVote -> bool) : list (Z * RollVote) :=
  filter (fun e => bool_decide (FindConnected e.1 <> None) && keep e.2 = true) (entries Z.le (playerVote r)).
Lemma send_voters_eq r keep msg s :
  send_voters r keep msg s = (Ret tt, say (map (fun e => msg e.1) (voters r keep)) s).
Proof. unfold send_voters. apply (emit_all _ (fun e => bool_decide (FindConnected e.1 <> None) && keep e.2) (fun e => msg e.1)). Qed.
Lemma no_awards {A} (f : A -> LootEvent) l : (forall x, is_award (f x) = false) -> awards (map f l) = [].
Proof.
  intros H. induction l as [|x l IH]; [done|]. unfold awards in *. cbn [map]. rewrite filter_cons_False; [done|]. rewrite H. done.
Qed.

Lemma roll_at_eq i r s : rolls s !! i = Some r -> roll_at i s = (Ret r, s).
Proof. intros H. unfold roll_at. rewrite bind_gets, H. done. Qed.
Lemma loot_at_eq l loot s : lw_loots s !! l = Some loot -> loot_at l s = (Ret loot, s).
Proof. intros H. unfold loot_at. rewrite bind_gets, H. done. Qed.
Lemma alter_loot_eq l loot f s :
  lw_loots s !! l = Some loot -> alter_loot l f s = (Ret tt, with_loots (<[l := f loot]> (lw_loots s)) s).
Proof. intros H. unfold alter_loot. step (loot_at_eq l loot s H). done. Qed.
Lemma emit_eq e s : emit e s = (Ret tt, say [e] s).
Proof. done. Qed.
Lemma put_roll_eq i r s : put_roll i r s = (Ret tt, set_rolls (<[i := r]> (rolls s)) s).
Proof. done. Qed.

(** [s'] differs from [s] in messages without awards and in who is looting [l]. *)
Definition notified (l : Z) (s s' : LootWorld) : Prop :=
  exists loot looting more, lw_loots s !! l = Some loot /\ awards more = [] /\
    s' = say more (with_loots (<[l := mkLoot (items loot) (quest_items loot) (unlootedCount loot) looting]> (lw_loots s)) s).

Lemma notified_refl l loot s : lw_loots s !! l = Some loot -> notified l s s.
Proof.
  intros H. exists loot, (PlayersLooting loot), []. split; [done|]. split; [done|]. rewrite say_nil.
  replace (mkLoot _ _ _ _) with loot by now destruct loot. rewrite insert_id by done. now destruct s.
Qed.
Lemma notify_loop l slot ps s0 s :
  notified l s0 s ->
  exists s', for_each ps (fun guid =>
    if here None guid then emit (SendNotifyLootItemRemoved guid slot)
    else alter_loot l (fun loot => mkLoot (items loot) (quest_items loot) (unlootedCount loot) (PlayersLooting loot ∖ {[guid]}))) s = (Ret tt, s') /\
    notified l s0 s'.
Proof.
  revert s. induction ps as [|p ps IH]; intros s Hn; cbn [for_each]; [now exists s|].
  destruct Hn as (loot & looting & more & E1 & E2 & ->). destruct (here None p).
  - step (emit_eq (SendNotifyLootItemRemoved p slot) (say more (with_loots (<[l := mkLoot (items loot) (quest_items loot) (unlootedCount loot) looting]> (lw_loots s0)) s0))).
    apply IH. exists loot, looting, (more ++ [SendNotifyLootItemRemoved p slot]).
    split; [done|]. split; [now rewrite awards_app, E2|]. now rewrite say_say.
  - erewrite bind_eq; [|apply alter_loot_eq; cbn; apply lookup_insert_eq]. apply IH.
    exists loot, (looting ∖ {[p]}), more. split; [done|]. split; [done|].
    unfold say, with_loots, with_trace. cbn. now rewrite insert_insert_eq.
Qed.
Lemma NotifyItemRemoved_eq l slot loot s :
  lw_loots s !! l = Some loot -> exists s', NotifyItemRemoved l slot s = (Ret tt, s') /\ notified l s s'.
Proof.
  intros H. unfold NotifyItemRemoved. step (loot_at_eq l loot s H).
  apply notify_loop. now apply (notified_refl l loot).
Qed.

(** ** The loops over the votes *)

(** The votes of a kind whose players are here, in the order of the guids. *)
Definition entitled (wanted : RollVote -> bool) (allowedMap : option Z) (l : list (Z * RollVote)) : list (Z * RollVote) :=
  filter (fun e => wanted e.2 && here allowedMap e.1 = true) l.
Fixpoint tally_from (wanted : RollVote -> bool) (allowedMap : option Z) (n : nat) (l : list (Z * RollVote)) (t : Tally) : Tally :=
  match l with
  | [] => t
  | e :: l =>
    if negb (wanted e.2) then tally_from wanted allowedMap n l t
    else if negb (here allowedMap e.1)
    then tally_from wanted allowedMap n l (mkTally (maxresul t) (maxguid t) (rollvote t) (u8 (t_total t - 1)))
    else tally_from wanted allowedMap (S n) l
           (if maxresul t <? u8 (urand n 1 100) then mkTally (u8 (urand n 1 100)) e.1 e.2 (t_total t) else t)
  end.

Lemma draw_eq s : draw s = (Ret (urand (lw_drawn s) 1 100), with_drawn (S (lw_drawn s)) s).
Proof. done. Qed.
Lemma draw_vote_eq wanted am r t e s :
  wanted e.2 = true -> here am e.1 = true ->
  exists more, awards more = [] /\
    draw_vote wanted am r t e s =
    (Ret (if maxresul t <? u8 (urand (lw_drawn s) 1 100) then mkTally (u8 (urand (lw_drawn s) 1 100)) e.1 e.2 (t_total t) else t),
     say more (with_drawn (S (lw_drawn s)) s)).
Proof.
  intros Ew Eh. unfold draw_vote. rewrite Ew, Eh. cbn [negb]. step (draw_eq s). cbn zeta. unfold SendLootRoll.
  eexists. split; [|step (send_voters_eq r valid_vote (fun to =>
    SMSG_LOOT_ROLL to 0 (itemSlot r) e.1 (itemid r) (itemRandomSuffix r) (itemRandomPropId r)
      (u8 (urand (lw_drawn s) 1 100)) (vote_code e.2)) (with_drawn (S (lw_drawn s)) s)); reflexivity].
  now apply no_awards.
Qed.

Lemma draws_eq wanted am r l t s :
  exists more, awards more = [] /\
    fold_m (draw_vote wanted am r) l t s =
    (Ret (tally_from wanted am (lw_drawn s) l t), say more (with_drawn (lw_drawn s + length (entitled wanted am l)) s)).
Proof.
  revert t s. induction l as [|e l IH]; intros t s; cbn [fold_m tally_from].
  - exists []. split; [done|]. rewrite say_nil. cbn. rewrite Nat.add_0_r. now destruct s.
  - unfold entitled. destruct (wanted e.2) eqn:Ew; [destruct (here am e.1) eqn:Eh|]; cbn [negb].
    + rewrite filter_cons_True by now rewrite Ew, Eh. destruct (draw_vote_eq wanted am r t e s Ew Eh) as (m1 & A1 & E1). step E1.
      destruct (IH (if maxresul t <? u8 (urand (lw_drawn s) 1 100) then mkTally (u8 (urand (lw_drawn s) 1 100)) e.1 e.2 (t_total t) else t)
                   (say m1 (with_drawn (S (lw_drawn s)) s))) as (more & A & E).
      exists (m1 ++ more). split; [now rewrite awards_app, A, A1|]. rewrite E. f_equal.
      unfold say, with_drawn, with_trace. cbn. now rewrite <- app_assoc, Nat.add_succ_r.
    + rewrite filter_cons_False by now rewrite Ew, Eh.
      assert (E1 : draw_vote wanted am r t e s = (Ret (mkTally (maxresul t) (maxguid t) (rollvote t) (u8 (t_total t - 1))), s))
        by (unfold draw_vote; now rewrite Ew, Eh). step E1. apply IH.
    + rewrite filter_cons_False by now rewrite Ew.
      assert (E1 : draw_vote wanted am r t e s = (Ret t, s)) by (unfold draw_vote; now rewrite Ew). step E1. apply IH.
Qed.

Definition absent (wanted : RollVote -> bool) (allowedMap : option Z) (l : list (Z * RollVote)) : list (Z * RollVote) :=
  filter (fun e => wanted e.2 && negb (here allowedMap e.1) = true) l.
(** The draws of those entitled, from the [n]-th on. *)
Definition drawn_from (n : nat) (l : list (Z * RollVote)) : list ((Z * RollVote) * Z) :=
  imap (fun j e => (e, urand (n + j) 1 100)) l.
(** The first of the highest draws. *)
Definition is_winner (d : list ((Z * RollVote) * Z)) (w : Z) (v : RollVote) (x : Z) : Prop :=
  exists i, d !! i = Some ((w, v), x) /\ forall j e y, d !! j = Some (e, y) -> y <= x /\ ((j < i)%nat -> y < x).

Lemma drawn_cons n e l : drawn_from n (e :: l) = (e, urand n 1 100) :: drawn_from (S n) l.
Proof.
  unfold drawn_from. cbn. rewrite Nat.add_0_r. f_equal. apply imap_ext. intros j x _. cbn. now rewrite Nat.add_succ_r.
Qed.

Lemma tally_spec wanted am l : forall n t, 0 <= maxresul t ->
  let T := tally_from wanted am n l t in
  let d := drawn_from n (entitled wanted am l) in
  (maxresul T = maxresul t /\ maxguid T = maxguid t /\ rollvote T = rollvote t /\ forall j e y, d !! j = Some (e, y) -> y <= maxresul t) \/
  (maxresul t < maxresul T /\ is_winner d (maxguid T) (rollvote T) (maxresul T)).
Proof.
  induction l as [|[p v] l IH]; intros n t Ht; cbn [tally_from fst snd].
  - left. split; [done|]. split; [done|]. split; [done|]. intros j e y Hj. destruct j; discriminate Hj.
  - unfold entitled. destruct (wanted v) eqn:Ew; [destruct (here am p) eqn:Eh|]; cbn [negb].
    + rewrite filter_cons_True by now cbn; rewrite Ew, Eh. cbn zeta. rewrite drawn_cons.
      assert (Eu : u8 (urand n 1 100) = urand n 1 100) by (apply uwrap_id; unfold is_u; pose proof (urand_range n); change (2 ^ 8) with 256; lia).
      rewrite Eu. pose proof (urand_range n) as Hr. destruct (Z.ltb_spec (maxresul t) (urand n 1 100)) as [Hlt|Hge].
      * assert (H0 : 0 <= maxresul (mkTally (urand n 1 100) p v (t_total t))) by (cbn; clear -Hr; lia).
        destruct (IH (S n) (mkTally (urand n 1 100) p v (t_total t)) H0) as [(E1 & E2 & E3 & Hle)|(Hlt' & i & Hi & Hw)]; cbn [maxresul maxguid rollvote] in *.
        -- right. rewrite E1, E2, E3. split; [done|]. exists 0%nat. split; [done|].
           intros [|j] e y; cbn; [intros [= <- <-]; lia|]. intros Hj. split; [now apply (Hle j e)|lia].
        -- right. split; [lia|]. exists (S i). split; [done|]. intros [|j] e y; cbn.
           ++ intros [= <- <-]. split; [lia|]. intros _. lia.
           ++ intros Hj. destruct (Hw j e y Hj) as [Hy Hy2]. split; [done|]. intros. apply Hy2. lia.
      * destruct (IH (S n) t Ht) as [(E1 & E2 & E3 & Hle)|(Hlt' & i & Hi & Hw)].
        -- left. split; [done|]. split; [done|]. split; [done|]. intros [|j] e y; cbn; [intros [= <- <-]; lia|]. apply Hle.
        -- right. split; [done|]. exists (S i). split; [done|]. intros [|j] e y; cbn.
           ++ intros [= <- <-]. lia.
           ++ intros Hj. destruct (Hw j e y Hj) as [Hy Hy2]. split; [done|]. intros. apply Hy2. lia.
    + rewrite filter_cons_False by now cbn; rewrite Ew, Eh.
      exact (IH n (mkTally (maxresul t) (maxguid t) (rollvote t) (u8 (t_total t - 1))) Ht).
    + rewrite filter_cons_False by now cbn; rewrite Ew. now apply IH.
Qed.

Lemma tally_total wanted am l : forall n t,
  zlen (absent wanted am l) <= t_total t -> is_u 8 (t_total t) ->
  t_total (tally_from wanted am n l t) = t_total t - zlen (absent wanted am l).
Proof.
  unfold absent, zlen. induction l as [|[p v] l IH]; intros n t Hle Hu; cbn [tally_from fst snd].
  - cbn. lia.
  - destruct (wanted v) eqn:Ew; [destruct (here am p) eqn:Eh|]; cbn [negb].
    + rewrite filter_cons_False in * by now cbn; rewrite Ew, Eh. rewrite IH by now case_if. now case_if.
    + rewrite filter_cons_True in * by now cbn; rewrite Ew, Eh. cbn [length] in *. unfold is_u in *.
      assert (E1 : u8 (t_total t - 1) = t_total t - 1) by (apply uwrap_id; unfold is_u; lia).
      rewrite IH; cbn [t_total]; rewrite E1; unfold is_u; lia.
    + rewrite filter_cons_False in * by now cbn; rewrite Ew. now apply IH.
Qed.
Lemma wanted_split wanted am l :
  zlen (filter (fun e => wanted e.2 = true) l) = zlen (entitled wanted am l) + zlen (absent wanted am l).
Proof.
  unfold entitled, absent, zlen. induction l as [|[p v] l IH]; [done|].
  destruct (wanted v) eqn:Ew; [destruct (here am p) eqn:Eh|].
  - rewrite (filter_cons_True _ (p, v)) by done. rewrite (filter_cons_True _ (p, v)) by now cbn; rewrite Ew, Eh.
    rewrite (filter_cons_False _ (p, v)) by now cbn; rewrite Ew, Eh. cbn [length]. lia.
  - rewrite (filter_cons_True _ (p, v)) by done. rewrite (filter_cons_False _ (p, v)) by now cbn; rewrite Ew, Eh.
    rewrite (filter_cons_True _ (p, v)) by now cbn; rewrite Ew, Eh. cbn [length]. lia.
  - rewrite !(filter_cons_False _ (p, v)) by now cbn; rewrite Ew. done.
Qed.

(** ** Steps on the item *)

Definition same_items (a b : Loot) : Prop := items a = items b /\ quest_items a = quest_items b.

Lemma alter_slot_length slot f loot :
  length (items (alter_slot_item slot f loot)) = length (items loot) /\
  length (quest_items (alter_slot_item slot f loot)) = length (quest_items loot).
Proof. unfold alter_slot_item. case_if; cbn; now rewrite length_alter. Qed.

Lemma mark_looted_eq r l loot s :
  lw_loots s !! l = Some loot ->
  exists loot' more, mark_looted r l s = (Ret tt, say more (with_loots (<[l := loot']> (lw_loots s)) s)) /\
    same_items loot' (alter_slot_item (itemSlot r) (set_is_looted true) loot) /\
    unlootedCount loot' = u8 (unlootedCount loot - 1) /\ awards more = [].
Proof.
  intros Hl. unfold mark_looted, alter_roll_item. step (alter_loot_eq l loot (alter_slot_item (itemSlot r) (set_is_looted true)) s Hl).
  set (loot1 := alter_slot_item _ _ loot). set (s1 := with_loots _ s).
  assert (H1 : lw_loots s1 !! l = Some loot1) by apply lookup_insert_eq.
  destruct (NotifyItemRemoved_eq l (itemSlot r) loot1 s1 H1) as (s2 & E2 & loot2 & looting & more & E3 & A & ->).
  rewrite H1 in E3. injection E3 as <-. step E2.
  set (loot3 := mkLoot (items loot1) _ _ _).
  rewrite (alter_loot_eq l loot3) by (cbn; apply lookup_insert_eq).
  exists (lower_unlooted loot3), more. split; [|split; [done|split; [|done]]].
  - f_equal. unfold say, with_loots, with_trace, s1. cbn. now rewrite !insert_insert_eq.
  - cbn. unfold loot1, alter_slot_item. now case_if.
Qed.

Lemma roll_item_eq r l loot it s :
  lw_loots s !! l = Some loot -> item_in_slot (itemSlot r) loot = Some it -> roll_item r l s = (Ret it, s).
Proof. intros Hl Hi. unfold roll_item. step (loot_at_eq l loot s Hl). now rewrite Hi. Qed.

(** What the winner gets, from what the inventory answers. *)
Lemma give_item_eq r l w loot it s :
  lw_loots s !! l = Some loot -> item_in_slot (itemSlot r) loot = Some it ->
  exists loot' more, give_item r l w s = (Ret tt, say more (with_loots (<[l := loot']> (lw_loots s)) s)) /\
    if CanStoreNewItem (lw_trace s) w (itemid r) (li_count it) =? EQUIP_ERR_OK
    then same_items loot' (alter_slot_item (itemSlot r) (set_is_looted true) loot) /\
         unlootedCount loot' = u8 (unlootedCount loot - 1) /\
         awards more = [StoreNewItem w (itemid r) (li_randomPropertyId it) (li_allowedGUIDs it)]
    else loot' = alter_slot_item (itemSlot r) (set_is_blocked false) loot /\ awards more = [].
Proof.
  intros Hl Hi. unfold give_item. step (roll_item_eq r l loot it s Hl Hi). rewrite bind_gets. cbn zeta.
  destruct (CanStoreNewItem _ _ _ _ =? EQUIP_ERR_OK).
  - destruct (mark_looted_eq r l loot s Hl) as (loot' & more & E & Hs & Hu & A). step E.
    exists loot', (more ++ [StoreNewItem w (itemid r) (li_randomPropertyId it) (li_allowedGUIDs it)]).
    rewrite emit_eq, say_say. split; [done|]. split; [done|]. split; [done|]. now rewrite awards_app, A.
  - unfold alter_roll_item. step (alter_loot_eq l loot (alter_slot_item (itemSlot r) (set_is_blocked false)) s Hl).
    eexists _, [_]. split; [now rewrite emit_eq|]. done.
Qed.

Definition mails (w msg : Z) (l : list (Z * Z)) : list LootEvent :=
  concat (map (fun e => [SendEquipError w msg e.1; SendItemRetrievalMail w e.1 e.2]) l).
Lemma mails_eq w msg l s :
  for_each l (fun e => do! emit (SendEquipError w msg e.1) in emit (SendItemRetrievalMail w e.1 e.2)) s = (Ret tt, say (mails w msg l) s).
Proof.
  revert s. induction l as [|e l IH]; intros s; cbn [for_each]; [now rewrite say_nil|].
  assert (E : (do! emit (SendEquipError w msg e.1) in emit (SendItemRetrievalMail w e.1 e.2)) s =
              (Ret tt, say [SendEquipError w msg e.1; SendItemRetrievalMail w e.1 e.2] s))
    by (step (emit_eq (SendEquipError w msg e.1) s); rewrite emit_eq, say_say; done).
  step E. rewrite IH, say_say. done.
Qed.
Lemma awards_mails w msg l : awards (mails w msg l) = map (fun e => SendItemRetrievalMail w e.1 e.2) l.
Proof.
  induction l as [|e l IH]; [done|]. unfold mails in *. cbn [map concat]. rewrite awards_app, IH. done.
Qed.

Lemma disenchant_item_eq r l w loot it t s :
  lw_loots s !! l = Some loot -> item_in_slot (itemSlot r) loot = Some it -> GetItemTemplate (itemid r) = Some t ->
  exists loot' more past, disenchant_item r l w s = (Ret tt, say more (with_loots (<[l := loot']> (lw_loots s)) s)) /\
    same_items loot' (alter_slot_item (itemSlot r) (set_is_looted true) loot) /\
    unlootedCount loot' = u8 (unlootedCount loot - 1) /\
    awards more = if CanStoreNewItem past w (itemid r) (li_count it) =? EQUIP_ERR_OK then [AutoStoreLoot w (it_DisenchantID t)]
                  else map (fun e => SendItemRetrievalMail w e.1 e.2) (disenchant_loot past w (it_DisenchantID t)).
Proof.
  intros Hl Hi Ht. unfold disenchant_item. step (roll_item_eq r l loot it s Hl Hi).
  destruct (mark_looted_eq r l loot s Hl) as (loot' & more & E & Hs & Hu & A). step E.
  rewrite Ht. set (s1 := say more _).
  assert (E1 : of_option (E := Empty_set) (Some t) s1 = (Ret t, s1)) by done. step E1.
  set (ev := UpdateAchievementCriteria _ _ _ _). step (emit_eq ev s1). rewrite bind_gets. cbn zeta.
  set (past := lw_trace (say [ev] s1)). exists loot'.
  destruct (CanStoreNewItem past w (itemid r) (li_count it) =? EQUIP_ERR_OK) eqn:Ec.
  - exists (more ++ [ev; AutoStoreLoot w (it_DisenchantID t)]), past. rewrite Ec. split; [|split; [done|split; [done|]]].
    + rewrite emit_eq. unfold s1. now rewrite !say_say.
    + now rewrite awards_app, A.
  - exists (more ++ ev :: mails w (CanStoreNewItem past w (itemid r) (li_count it)) (disenchant_loot past w (it_DisenchantID t))), past.
    rewrite Ec. split; [|split; [done|split; [done|]]].
    + rewrite mails_eq. unfold s1. now rewrite !say_say.
    + rewrite awards_app, A. rewrite <- (awards_mails w (CanStoreNewItem past w (itemid r) (li_count it))). done.
Qed.

(** ** The rounds of the count *)

Definition count_votes (keep : RollVote -> bool) (r : Roll) : Z :=
  zlen (filter (fun e => keep e.2 = true) (entries Z.le (playerVote r))).
(** The totals are at least the votes they count. *)
Record totals_ok (r : Roll) : Prop := mk_totals_ok {
  to_voters : playerVote r !! 0 = None;
  to_need : count_votes is_need r <= totalNeed r;
  to_greed : count_votes is_greed r <= totalGreed r;
  to_bytes : is_u 8 (totalNeed r) /\ is_u 8 (totalGreed r)
}.

Lemma winner_in n E w v x : is_winner (drawn_from n E) w v x -> (w, v) ∈ E.
Proof.
  intros (i & Hi & _). unfold drawn_from in Hi. rewrite list_lookup_imap in Hi. destruct (E !! i) as [e|] eqn:Ee; [|done].
  cbn in Hi. injection Hi as -> _. now apply list_elem_of_lookup_2 in Ee.
Qed.
Lemma entitled_vote wanted am r w v :
  (w, v) ∈ entitled wanted am (entries Z.le (playerVote r)) -> wanted v = true /\ here am w = true /\ playerVote r !! w = Some v.
Proof.
  unfold entitled. intros [H1 H2%elem_of_entries]%list_elem_of_filter. apply andb_prop in H1. now destruct H1.
Qed.

(** The loop of a round: nobody is found when nobody is entitled, otherwise the
    winner, and the total is lowered by those absent. *)
Lemma round_tally wanted am r total n :
  playerVote r !! 0 = None -> count_votes wanted r <= total -> is_u 8 total ->
  let l := entries Z.le (playerVote r) in
  let T := tally_from wanted am n l (mkTally 0 0 NOT_VALID total) in
  match entitled wanted am l with
  | [] => maxguid T = 0
  | _ :: _ => maxguid T <> 0 /\ 0 < t_total T /\ is_winner (drawn_from n (entitled wanted am l)) (maxguid T) (rollvote T) (maxresul T)
  end.
Proof.
  intros Ht Hc Hu. cbn zeta. set (l := entries Z.le (playerVote r)) in *.
  pose proof (tally_spec wanted am l n (mkTally 0 0 NOT_VALID total) ltac:(reflexivity || (cbn; lia))) as Hs. cbn zeta in Hs.
  pose proof (wanted_split wanted am l) as Hsplit. unfold count_votes in Hc. fold l in Hc.
  assert (Hab : zlen (absent wanted am l) <= total) by (unfold zlen in *; lia).
  pose proof (tally_total wanted am l n (mkTally 0 0 NOT_VALID total) Hab Hu) as Htot. cbn [t_total] in Htot.
  destruct (entitled wanted am l) as [|e E] eqn:Ee.
  - destruct Hs as [(_ & -> & _)|(_ & i & Hi & _)]; [done|]. destruct i; discriminate Hi.
  - destruct Hs as [(_ & _ & _ & Hle)|(_ & Hw)].
    + exfalso. specialize (Hle 0%nat e (urand (n + 0) 1 100) eq_refl). cbn in Hle. specialize (urand_range (n + 0)). lia.
    + split; [|split; [|done]].
      * intros E0. rewrite E0 in Hw. apply winner_in in Hw. rewrite <- Ee in Hw. apply entitled_vote in Hw as (_ & _ & Hw).
        rewrite Ht in Hw. done.
      * rewrite Htot. unfold zlen in *. cbn [length] in Hsplit. lia.
Qed.

Definition prize (r : Roll) (it : LootItem) (w : Z) (v : RollVote) (loot loot' : Loot) (past aw : list LootEvent) : Prop :=
  let looted := same_items loot' (alter_slot_item (itemSlot r) (set_is_looted true) loot) /\
                unlootedCount loot' = u8 (unlootedCount loot - 1) in
  let fits := CanStoreNewItem past w (itemid r) (li_count it) =? EQUIP_ERR_OK in
  match FindConnected w with
  | None => loot' = loot /\ aw = []
  | Some _ =>
    match v with
    | DISENCHANT => looted /\ exists t, GetItemTemplate (itemid r) = Some t /\
        aw = if fits then [AutoStoreLoot w (it_DisenchantID t)]
             else map (fun e => SendItemRetrievalMail w e.1 e.2) (disenchant_loot past w (it_DisenchantID t))
    | _ => if fits then looted /\ aw = [StoreNewItem w (itemid r) (li_randomPropertyId it) (li_allowedGUIDs it)]
           else loot' = alter_slot_item (itemSlot r) (set_is_blocked false) loot /\ aw = []
    end
  end.

Lemma roll_won_eq source target number type r s :
  exists more, awards more = [] /\ SendLootRollWon source target number type r s = (Ret tt, say more s).
Proof. eexists. split; [|unfold SendLootRollWon; apply send_voters_eq]. now apply no_awards. Qed.

(** What a round leaves: messages, a loot, the roll with new totals, some draws. *)
Definition round_end (i : nat) (l : Z) (r' : Roll) (loot' : Loot) (more : list LootEvent) (n : nat) (s : LootWorld) : LootWorld :=
  say more (with_loots (<[l := loot']> (lw_loots s)) (set_rolls (<[i := r']> (rolls s)) (with_drawn n s))).

(** The end of a round with a winner. *)
Lemma award_eq s0 i l r r' w x v loot it kind (more0 : list LootEvent) n :
  lw_loots s0 !! l = Some loot -> item_in_slot (itemSlot r) loot = Some it -> awards more0 = [] ->
  (v = DISENCHANT -> GetItemTemplate (itemid r) <> None) -> v = NEED \/ v = GREED \/ v = DISENCHANT ->
  exists loot' more past,
    (do! SendLootRollWon 0 w x (vote_code v) r in
     when (bool_decide (FindConnected w <> None)) (
       do! emit (UpdateAchievementCriteria w kind (itemid r) x) in
       match v with NEED | GREED => give_item r l w | DISENCHANT => disenchant_item r l w | _ => ret tt end))
      (round_end i l r' loot more0 n s0) = (Ret tt, round_end i l r' loot' more n s0) /\
    prize r it w v loot loot' past (awards more).
Proof.
  intros Hl Hi A0 Ht Hv. set (s1 := round_end i l r' loot more0 n s0).
  destruct (roll_won_eq 0 w x (vote_code v) r s1) as (m1 & A1 & E1). step E1.
  assert (Hsay : forall a loot1, say a (round_end i l r' loot1 more0 n s0) = round_end i l r' loot1 (more0 ++ a) n s0)
    by (intros; unfold round_end; now rewrite say_say).
  assert (Hset : forall a b loot2, say b (with_loots (<[l := loot2]> (lw_loots (say a s1))) (say a s1)) = round_end i l r' loot2 ((more0 ++ a) ++ b) n s0).
  { intros a b loot2. unfold s1, round_end, say, with_loots, with_trace. cbn. rewrite insert_insert_eq, !app_assoc. reflexivity. }
  unfold prize. destruct (FindConnected w) as [p|] eqn:Ef.
  2:{ rewrite bool_decide_false by (intros H; now apply H). exists loot, (more0 ++ m1), []. cbn [when]. unfold s1. rewrite Hsay.
      split; [done|]. now rewrite awards_app, A0, A1. }
  rewrite bool_decide_true by done. cbn [when]. set (ev := UpdateAchievementCriteria _ _ _ _). step (emit_eq ev (say m1 s1)).
  rewrite say_say. set (m2 := m1 ++ [ev]).
  assert (A2 : awards (more0 ++ m2) = []) by (unfold m2; now rewrite !awards_app, A0, A1).
  assert (Hl2 : lw_loots (say m2 s1) !! l = Some loot) by (unfold s1, round_end; cbn; now rewrite lookup_insert_eq).
  assert (G : v = NEED \/ v = GREED -> exists loot' more past,
    give_item r l w (say m2 s1) = (Ret tt, round_end i l r' loot' more n s0) /\
    if CanStoreNewItem past w (itemid r) (li_count it) =? EQUIP_ERR_OK
    then (same_items loot' (alter_slot_item (itemSlot r) (set_is_looted true) loot) /\ unlootedCount loot' = u8 (unlootedCount loot - 1)) /\
         awards more = [StoreNewItem w (itemid r) (li_randomPropertyId it) (li_allowedGUIDs it)]
    else loot' = alter_slot_item (itemSlot r) (set_is_blocked false) loot /\ awards more = []).
  { intros _. destruct (give_item_eq r l w loot it (say m2 s1) Hl2 Hi) as (loot' & m3 & E3 & H3).
    exists loot', ((more0 ++ m2) ++ m3), (lw_trace (say m2 s1)). rewrite E3, Hset. split; [done|].
    rewrite awards_app, A2. case_if; [|done]. now destruct H3 as (? & ? & ?). }
  destruct Hv as [->|[->| ->]]; [apply G; now left|apply G; now right|].
  destruct (GetItemTemplate (itemid r)) as [t|] eqn:Et; [|now destruct (Ht eq_refl)].
  destruct (disenchant_item_eq r l w loot it t (say m2 s1) Hl2 Hi Et) as (loot' & m3 & past & E3 & H3 & H4 & H5).
  exists loot', ((more0 ++ m2) ++ m3), past. rewrite E3, Hset. split; [done|]. split; [done|].
  exists t. split; [done|]. now rewrite awards_app, A2.
Qed.

Lemma put_end i l r' loot more n s :
  lw_loots s !! l = Some loot ->
  put_roll i r' (say more (with_drawn n s)) = (Ret tt, round_end i l r' loot more n s).
Proof. intros Hl. rewrite put_roll_eq. f_equal. unfold round_end. rewrite insert_id by done. now destruct s. Qed.
Lemma round_nothing i l r loot s :
  rolls s !! i = Some r -> lw_loots s !! l = Some loot -> round_end i l r loot [] (lw_drawn s) s = s.
Proof.
  intros Hr Hl. unfold round_end. rewrite say_nil, insert_id, list_insert_id by done. unfold set_rolls, rolls.
  now destruct s as [[]].
Qed.

(** A round over the votes [wanted] with total [total]; [set_total] writes it. *)
Lemma round_eq (wanted : RollVote -> bool) (set_total : Z -> Roll -> Roll) (total : Z) kind i am l r loot it s
    (code : RollVote -> Z) (prizes : RollVote -> Z -> M unit) :
  rolls s !! i = Some r -> lw_loots s !! l = Some loot -> item_in_slot (itemSlot r) loot = Some it ->
  playerVote r !! 0 = None -> count_votes wanted r <= total -> is_u 8 total ->
  (forall v, wanted v = true -> v = NEED \/ v = GREED \/ v = DISENCHANT) ->
  (wanted DISENCHANT = true -> GetItemTemplate (itemid r) <> None) ->
  (forall v, wanted v = true -> code v = vote_code v) ->
  (forall v w, wanted v = true -> prizes v w = match v with NEED | GREED => give_item r l w | DISENCHANT => disenchant_item r l w | _ => ret tt end) ->
  exists s', (let! t := fold_m (draw_vote wanted am r) (entries Z.le (playerVote r)) (mkTally 0 0 NOT_VALID total) in
    do! put_roll i (set_total (if maxguid t =? 0 then 0 else t_total t) r) in
    when (negb (maxguid t =? 0)) (
      do! SendLootRollWon 0 (maxguid t) (maxresul t) (code (rollvote t)) r in
      when (bool_decide (FindConnected (maxguid t) <> None)) (
        do! emit (UpdateAchievementCriteria (maxguid t) kind (itemid r) (maxresul t)) in
        prizes (rollvote t) (maxguid t)))) s = (Ret tt, s') /\
  match entitled wanted am (entries Z.le (playerVote r)) with
  | [] => exists more, s' = round_end i l (set_total 0 r) loot more (lw_drawn s) s /\ awards more = []
  | E => exists w v x tot loot' past more, 0 < tot /\ is_winner (drawn_from (lw_drawn s) E) w v x /\
      s' = round_end i l (set_total tot r) loot' more (lw_drawn s + length E) s /\ prize r it w v loot loot' past (awards more)
  end.
Proof.
  intros Hr Hl Hi Ht Hc Hu Hv Hd Hcode Hp. pose proof (round_tally wanted am r total (lw_drawn s) Ht Hc Hu) as HT. cbn zeta in HT.
  destruct (draws_eq wanted am r (entries Z.le (playerVote r)) (mkTally 0 0 NOT_VALID total) s) as (m1 & A1 & E1). step E1.
  set (T := tally_from _ _ _ _ _) in *. clearbody T. set (E := entitled _ _ _) in *.
  destruct E as [|e E0] eqn:EE.
  - rewrite HT. cbn [Z.eqb negb when]. step (put_end i l (set_total 0 r) loot m1 (lw_drawn s + 0) s Hl).
    eexists. split; [reflexivity|]. exists m1. split; [|done]. cbn [length]. now rewrite Nat.add_0_r.
  - destruct HT as (Hw0 & Htot & Hw). apply Z.eqb_neq in Hw0. rewrite Hw0. cbn [negb when].
    step (put_end i l (set_total (t_total T) r) loot m1 (lw_drawn s + length (e :: E0)) s Hl).
    pose proof (winner_in _ _ _ _ _ Hw) as Hin. rewrite <- EE in Hin. unfold E in Hin. apply entitled_vote in Hin as (Hwv & _).
    destruct (award_eq s i l r (set_total (t_total T) r) (maxguid T) (maxresul T) (rollvote T) loot it kind m1 (lw_drawn s + length (e :: E0)) Hl Hi A1)
      as (loot' & more & past & E2 & P2); [intros Ev; apply Hd; now rewrite <- Ev|now apply Hv|].
    rewrite (Hp _ (maxguid T) Hwv), (Hcode _ Hwv). eexists. split; [exact E2|].
    exists (maxguid T), (rollvote T), (maxresul T), (t_total T), loot', past, more. done.
Qed.

Lemma entitled_none wanted am r : count_votes wanted r <= 0 -> entitled wanted am (entries Z.le (playerVote r)) = [].
Proof.
  intros Hc. unfold count_votes in Hc. rewrite (wanted_split wanted am) in Hc. unfold zlen in Hc.
  destruct (entitled _ _ _); [done|]. cbn [length] in Hc. lia.
Qed.

Lemma need_round_eq i am l r loot it s :
  rolls s !! i = Some r -> lw_loots s !! l = Some loot -> item_in_slot (itemSlot r) loot = Some it ->
  totals_ok r -> playerVote r <> ∅ ->
  exists s', need_round i am l s = (Ret tt, s') /\
  match entitled is_need am (entries Z.le (playerVote r)) with
  | [] => exists more, s' = round_end i l (set_totalNeed 0 r) loot more (lw_drawn s) s /\ awards more = []
  | E => exists w v x tot loot' past more, 0 < tot /\ is_winner (drawn_from (lw_drawn s) E) w v x /\
      s' = round_end i l (set_totalNeed tot r) loot' more (lw_drawn s + length E) s /\ prize r it w v loot loot' past (awards more)
  end.
Proof.
  intros Hr Hl Hi Ht Hne. unfold need_round. step (roll_at_eq i r s Hr). pose proof (to_need _ Ht) as Hn. destruct (to_bytes _ Ht) as [Hb _].
  rewrite (bool_decide_false (playerVote r = ∅)) by done. cbn [negb]. rewrite andb_true_r.
  destruct (Z.ltb_spec 0 (totalNeed r)) as [Hpos|Hz]; cbn [when].
  - pose proof (to_voters _ Ht) as H0. apply (round_eq is_need set_totalNeed (totalNeed r) ACHIEVEMENT_CRITERIA_TYPE_ROLL_NEED_ON_LOOT i am l r loot it s (fun _ => ROLL_NEED)
             (fun _ w => give_item r l w)); try done.
    + intros [] Hv; try discriminate Hv. now left.
    + now intros [].
    + now intros [].
  - assert (E0 : totalNeed r = 0) by (unfold is_u in Hb; lia). rewrite entitled_none by lia.
    exists s. split; [done|]. exists []. split; [|done]. replace (set_totalNeed 0 r) with r by (destruct r; cbn in *; now subst).
    symmetry. now apply round_nothing.
Qed.

Lemma greed_round_eq i am l r loot it s :
  rolls s !! i = Some r -> lw_loots s !! l = Some loot -> item_in_slot (itemSlot r) loot = Some it ->
  playerVote r !! 0 = None -> count_votes is_greed r <= totalGreed r -> is_u 8 (totalGreed r) ->
  playerVote r <> ∅ -> totalNeed r = 0 -> GetItemTemplate (itemid r) <> None ->
  exists s', greed_round i am l s = (Ret tt, s') /\
  match entitled is_greed am (entries Z.le (playerVote r)) with
  | [] => exists more, s' = round_end i l (set_totalGreed 0 r) loot more (lw_drawn s) s /\ awards more = []
  | E => exists w v x tot loot' past more, 0 < tot /\ is_winner (drawn_from (lw_drawn s) E) w v x /\
      s' = round_end i l (set_totalGreed tot r) loot' more (lw_drawn s + length E) s /\ prize r it w v loot loot' past (awards more)
  end.
Proof.
  intros Hr Hl Hi Ht Hn Hb Hne Hn0 Htm. unfold greed_round. step (roll_at_eq i r s Hr).
  rewrite (bool_decide_false (playerVote r = ∅)) by done. rewrite Hn0. cbn [negb Z.eqb andb]. rewrite andb_true_r.
  destruct (Z.ltb_spec 0 (totalGreed r)) as [Hpos|Hz]; cbn [when].
  - apply (round_eq is_greed set_totalGreed (totalGreed r) ACHIEVEMENT_CRITERIA_TYPE_ROLL_GREED_ON_LOOT i am l r loot it s vote_code
             (fun v w => match v with GREED => give_item r l w | DISENCHANT => disenchant_item r l w | _ => ret tt end)); try done.
    + intros [] Hv; try discriminate Hv; auto.
    + intros [] w Hv; try discriminate Hv; done.
  - assert (E0 : totalGreed r = 0) by (unfold is_u in Hb; lia). rewrite entitled_none by lia.
    exists s. split; [done|]. exists []. split; [|done]. replace (set_totalGreed 0 r) with r by (destruct r; cbn in *; now subst).
    symmetry. now apply round_nothing.
Qed.

Lemma greed_round_off i am l r s : rolls s !! i = Some r -> totalNeed r <> 0 -> greed_round i am l s = (Ret tt, s).
Proof.
  intros Hr Hn. unfold greed_round. step (roll_at_eq i r s Hr). apply Z.eqb_neq in Hn. rewrite Hn. done.
Qed.
Lemma all_passed_off i l r s : rolls s !! i = Some r -> totalNeed r <> 0 \/ totalGreed r <> 0 -> all_passed i l s = (Ret tt, s).
Proof.
  intros Hr Hn. unfold all_passed. step (roll_at_eq i r s Hr).
  destruct (Z.eqb_spec (totalNeed r) 0), (Z.eqb_spec (totalGreed r) 0); try done. lia.
Qed.
Lemma all_passed_eq i l r loot it s :
  rolls s !! i = Some r -> lw_loots s !! l = Some loot -> item_in_slot (itemSlot r) loot = Some it ->
  totalNeed r = 0 -> totalGreed r = 0 ->
  exists more, awards more = [] /\
    all_passed i l s = (Ret tt, say more (with_loots (<[l := alter_slot_item (itemSlot r) (set_is_blocked false) loot]> (lw_loots s)) s)).
Proof.
  intros Hr Hl Hi Hn Hg. unfold all_passed. step (roll_at_eq i r s Hr). rewrite Hn, Hg. cbn [Z.eqb andb when].
  eexists. split; [|step (send_voters_eq r valid_vote (fun to => SMSG_LOOT_ALL_PASSED to (itemGUID r) (itemSlot r) (itemid r) (itemRandomPropId r) (itemRandomSuffix r)) s)].
  2:{ set (more := map _ _). step (roll_item_eq r l loot it (say more s) Hl Hi). unfold alter_roll_item.
      rewrite (alter_loot_eq l loot _ (say more s) Hl). reflexivity. }
  now apply no_awards.
Qed.
Lemma erase_eq i s : erase_roll i s = (Ret tt, set_rolls (base.delete i (rolls s)) s).
Proof. done. Qed.

Lemma round_end_roll i l r r' loot' more n s : rolls s !! i = Some r -> rolls (round_end i l r' loot' more n s) !! i = Some r'.
Proof. intros H. unfold round_end. cbn. apply list_lookup_insert_eq. now apply lookup_lt_Some in H. Qed.
Lemma round_end_loot i l r' loot' more n s : lw_loots (round_end i l r' loot' more n s) !! l = Some loot'.
Proof. cbn. apply lookup_insert_eq. Qed.

Lemma round_twice i l r1 r2 loot1 loot2 m1 m2 n1 n2 s :
  round_end i l r2 loot2 m2 n2 (round_end i l r1 loot1 m1 n1 s) = round_end i l r2 loot2 (m1 ++ m2) n2 s.
Proof.
  unfold round_end, say, with_loots, with_trace, set_rolls, with_group, with_drawn, rolls. cbn.
  now rewrite insert_insert_eq, list_insert_insert_eq, <- app_assoc.
Qed.

(** A counted roll is gone, its loot is [loot'], and only messages [more] left. *)
Definition counted (i : nat) (l : Z) (loot' : Loot) (more : list LootEvent) (s s' : LootWorld) : Prop :=
  rolls s' = base.delete i (rolls s) /\ lw_loots s' = <[l := loot']> (lw_loots s) /\ lw_trace s' = lw_trace s ++ more /\
  lw_itemGuid s' = lw_itemGuid s /\ set_RollId [] (lw_group s') = set_RollId [] (lw_group s).

Lemma delete_insert {A} (i : nat) (x : A) (k : list A) : base.delete i (<[i := x]> k) = base.delete i k.
Proof. revert i. induction k as [|y k IH]; intros [|i]; cbn; try done. now rewrite IH. Qed.
Lemma counted_end i l r' loot' more n s loot2 more2 :
  rolls s !! i <> None ->
  counted i l loot2 (more ++ more2) s
    (let s1 := say more2 (with_loots (<[l := loot2]> (lw_loots (round_end i l r' loot' more n s))) (round_end i l r' loot' more n s)) in
     set_rolls (base.delete i (rolls s1)) s1).
Proof.
  intros Hi. unfold counted. cbn. split; [|split; [now rewrite insert_insert_eq|split; [now rewrite app_assoc|done]]].
  unfold rolls. cbn. apply delete_insert.
Qed.
Lemma counted_now i l r' loot' more n s :
  rolls s !! i <> None ->
  counted i l loot' more s (set_rolls (base.delete i (rolls (round_end i l r' loot' more n s))) (round_end i l r' loot' more n s)).
Proof.
  intros Hi. unfold counted. cbn. split; [|done].
  unfold rolls. cbn. apply delete_insert.
Qed.

(** What a roll that is counted needs. *)
Record countable (r : Roll) (l : Z) (loot : Loot) (it : LootItem) (s : LootWorld) : Prop := mk_countable {
  co_link : roll_loot r = Some l;
  co_loot : lw_loots s !! l = Some loot;
  co_item : item_in_slot (itemSlot r) loot = Some it;
  co_totals : totals_ok r;
  co_voters : playerVote r <> ∅;
  co_template : GetItemTemplate (itemid r) <> None
}.

(** How a roll with the votes of [r] ends, when the [n]-th draw is next. *)
Definition roll_result (r : Roll) (am : option Z) (n : nat) (it : LootItem) (loot loot' : Loot) (aw : list LootEvent) : Prop :=
  let votes := entries Z.le (playerVote r) in
  match entitled is_need am votes, entitled is_greed am votes with
  | (_ :: _) as E, _ => exists w x past, is_winner (drawn_from n E) w NEED x /\ prize r it w NEED loot loot' past aw
  | [], (_ :: _) as E => exists w v x past, is_winner (drawn_from n E) w v x /\ prize r it w v loot loot' past aw
  | [], [] => loot' = alter_slot_item (itemSlot r) (set_is_blocked false) loot /\ aw = []
  end.

Lemma count_the_roll s i am r l loot it :
  rolls s !! i = Some r -> countable r l loot it s ->
  exists s' loot' more, CountTheRoll i am s = (Ret tt, s') /\ counted i l loot' more s s' /\
    roll_result r am (lw_drawn s) it loot loot' (awards more).
Proof.
  intros Hr [Hk Hl Hi Ht Hv Htm]. unfold CountTheRoll, roll_result. step (roll_at_eq i r s Hr). rewrite Hk.
  destruct (need_round_eq i am l r loot it s Hr Hl Hi Ht Hv) as (s1 & E1 & H1). step E1. cbn zeta.
  destruct (entitled is_need am (entries Z.le (playerVote r))) as [|e E] eqn:EN.
  - destruct H1 as (m1 & -> & A1). set (s1 := round_end i l (set_totalNeed 0 r) loot m1 (lw_drawn s) s).
    pose proof (round_end_roll i l r (set_totalNeed 0 r) loot m1 (lw_drawn s) s Hr) as Hr1.
    pose proof (round_end_loot i l (set_totalNeed 0 r) loot m1 (lw_drawn s) s) as Hl1. fold s1 in Hr1, Hl1.
    destruct Ht as [T1 T2 T3 [T4 T5]].
    destruct (greed_round_eq i am l (set_totalNeed 0 r) loot it s1 Hr1 Hl1 Hi T1 T3 T5 Hv eq_refl Htm) as (s2 & E2 & H2). step E2.
    change (entries Z.le (playerVote (set_totalNeed 0 r))) with (entries Z.le (playerVote r)) in H2.
    destruct (entitled is_greed am (entries Z.le (playerVote r))) as [|e E].
    + destruct H2 as (m2 & -> & A2). set (s2 := round_end _ _ _ _ _ _ _).
      pose proof (round_end_roll i l _ (set_totalGreed 0 (set_totalNeed 0 r)) loot m2 (lw_drawn s1) s1 Hr1) as Hr2.
      pose proof (round_end_loot i l (set_totalGreed 0 (set_totalNeed 0 r)) loot m2 (lw_drawn s1) s1) as Hl2. fold s2 in Hr2, Hl2.
      destruct (all_passed_eq i l _ loot it s2 Hr2 Hl2 Hi eq_refl eq_refl) as (m3 & A3 & E3). step E3. rewrite erase_eq.
      eexists _, _, ((m1 ++ m2) ++ m3). split; [reflexivity|]. split; [|split; [reflexivity|now rewrite !awards_app, A1, A2, A3]].
      unfold s2, s1. rewrite round_twice. apply counted_end. congruence.
    + destruct H2 as (w & v & x & tot & loot' & past & m2 & Htot & Hw & -> & Hp). unfold s1 in *. rewrite round_twice.
      set (s2 := round_end _ _ _ _ _ _ _).
      pose proof (round_end_roll i l r (set_totalGreed tot (set_totalNeed 0 r)) loot' (m1 ++ m2) (lw_drawn s + length (e :: E)) s Hr) as Hr2.
      step (all_passed_off i l _ s2 Hr2 ltac:(right; cbn; lia)). rewrite erase_eq.
      eexists _, loot', (m1 ++ m2). split; [reflexivity|]. split; [apply counted_now; congruence|].
      exists w, v, x, past. split; [exact Hw|]. rewrite awards_app, A1. exact Hp.
  - destruct H1 as (w & v & x & tot & loot' & past & m1 & Htot & Hw & -> & Hp). set (s1 := round_end _ _ _ _ _ _ _) in *.
    pose proof (round_end_roll i l r (set_totalNeed tot r) loot' m1 (lw_drawn s + length (e :: E)) s Hr) as Hr1. fold s1 in Hr1.
    step (greed_round_off i am l _ s1 Hr1 ltac:(cbn; lia)). step (all_passed_off i l _ s1 Hr1 ltac:(left; cbn; lia)).
    assert (Hvn : v = NEED).
    { apply winner_in in Hw. rewrite <- EN in Hw. apply entitled_vote in Hw as (Hw & _). now destruct v. }
    subst v. rewrite erase_eq. eexists _, loot', m1. split; [reflexivity|]. split; [apply counted_now; congruence|]. now exists w, x, past.
Qed.

(** ** Counting votes *)

Definition vote_map (keep : RollVote -> bool) (m : gmap Z RollVote) : gmap Z RollVote := filter (fun e => keep e.2 = true) m.
Lemma count_votes_size keep r : count_votes keep r = Z.of_nat (base.size (vote_map keep (playerVote r))).
Proof.
  unfold count_votes, zlen, vote_map. f_equal. rewrite <- length_map_to_list. apply Permutation_length.
  apply NoDup_Permutation.
  - apply NoDup_filter. apply (NoDup_fmap_1 fst). apply NoDup_entries_fst.
  - apply NoDup_map_to_list.
  - intros [k v]. rewrite list_elem_of_filter, elem_of_entries, elem_of_map_to_list, map_lookup_filter_Some. naive_solver.
Qed.
Lemma vote_map_insert keep (m : gmap Z RollVote) p v :
  (base.size (vote_map keep (<[p := v]> m)) <= base.size (vote_map keep m) + if keep v then 1 else 0)%nat.
Proof.
  unfold vote_map. destruct (keep v) eqn:Ek.
  - rewrite map_filter_insert_True by done. rewrite map_size_insert. case_match; unfold id; lia.
  - rewrite map_filter_insert_False by (cbn; congruence). rewrite map_filter_delete. rewrite map_size_delete. case_match; unfold id; lia.
Qed.
Lemma vote_map_delete keep (m : gmap Z RollVote) p v :
  m !! p = Some v ->
  base.size (vote_map keep m) = (base.size (vote_map keep (base.delete p m)) + if keep v then 1 else 0)%nat.
Proof.
  intros Hp. unfold vote_map. rewrite map_filter_delete. destruct (keep v) eqn:Ek.
  - assert (Hf : filter (fun e : Z * RollVote => keep e.2 = true) m !! p = Some v) by (apply map_lookup_filter_Some; auto).
    rewrite map_size_delete_Some by (now rewrite Hf). 
    assert (base.size (filter (fun e : Z * RollVote => keep e.2 = true) m) <> 0)%nat; [|lia].
    intros E0%map_size_empty_inv. rewrite E0, lookup_empty in Hf. done.
  - rewrite delete_id; [lia|]. apply map_lookup_filter_None. right. intros w Hw. cbn. congruence.
Qed.

(** ** The rolls stay sound *)

Record roll_sound (w : LootWorld) (r : Roll) : Prop := mk_roll_sound {
  rs_link : forall l, roll_loot r = Some l -> exists loot it, lw_loots w !! l = Some loot /\ item_in_slot (itemSlot r) loot = Some it;
  rs_totals : totals_ok r;
  rs_pass : count_votes is_pass r <= totalPass r;
  rs_players : is_u 8 (totalPlayersRolling r);
  rs_cast : votes_cast r < 255;
  rs_template : GetItemTemplate (itemid r) <> None;
  rs_guid : exists n, 0 <= n < lw_itemGuid w /\ itemGUID r = MAKE_NEW_GUID n 0 HIGHGUID_ITEM
}.
Record rolls_ok (w : LootWorld) : Prop := mk_rolls_ok {
  ro_sound : Forall (roll_sound w) (rolls w);
  ro_guids : NoDup (map itemGUID (rolls w));
  ro_counter : 0 <= lw_itemGuid w <= 0xFFFFFFFE
}.

(** The loots keep their items, up to their state. *)
Definition same_kinds (a b : Loot) : Prop :=
  map li_itemid (items a) = map li_itemid (items b) /\ map li_itemid (quest_items a) = map li_itemid (quest_items b).
Definition loots_kept (w w' : LootWorld) : Prop :=
  forall l loot, lw_loots w !! l = Some loot -> exists loot', lw_loots w' !! l = Some loot' /\ same_kinds loot' loot.

Lemma loots_kept_refl w w' : lw_loots w' = lw_loots w -> loots_kept w w'.
Proof. intros E l loot H. exists loot. rewrite E. done. Qed.
Lemma loots_kept_trans w1 w2 w3 : loots_kept w1 w2 -> loots_kept w2 w3 -> loots_kept w1 w3.
Proof.
  intros H1 H2 l loot H. destruct (H1 l loot H) as (x & Hx & [A1 A2]). destruct (H2 l x Hx) as (y & Hy & [B1 B2]).
  exists y. split; [done|]. split; congruence.
Qed.
Lemma loots_kept_insert w w' l loot loot' :
  lw_loots w !! l = Some loot -> lw_loots w' = <[l := loot']> (lw_loots w) -> same_kinds loot' loot -> loots_kept w w'.
Proof.
  intros Hl E Hs k x Hk. rewrite E. destruct (decide (k = l)) as [->|Hne].
  - rewrite lookup_insert_eq. rewrite Hl in Hk. injection Hk as ->. now exists loot'.
  - rewrite lookup_insert_ne by done. now exists x.
Qed.
Lemma alter_kinds f k l : (forall i, li_itemid (f i) = li_itemid i) -> map li_itemid (alter f k l) = map li_itemid l.
Proof.
  intros Hf. revert k. induction l as [|x l IH]; intros [|k]; cbn; try done; [now rewrite Hf|]. f_equal. apply IH.
Qed.
Lemma alter_slot_kinds slot f loot : (forall i, li_itemid (f i) = li_itemid i) -> same_kinds (alter_slot_item slot f loot) loot.
Proof. intros Hf. unfold alter_slot_item. case_if; split; cbn; try done; now apply alter_kinds. Qed.
Lemma same_items_kinds a b c : same_items a b -> same_kinds b c -> same_kinds a c.
Proof. intros [E1 E2] [F1 F2]. split; congruence. Qed.
Lemma kinds_lengths a b : same_kinds a b -> length (items a) = length (items b) /\ length (quest_items a) = length (quest_items b).
Proof. intros [E1%(f_equal length) E2%(f_equal length)]. rewrite !length_map in *. done. Qed.
Lemma item_in_slot_kept slot a b it : same_kinds a b -> item_in_slot slot b = Some it -> exists it', item_in_slot slot a = Some it'.
Proof.
  intros H%kinds_lengths Hi. destruct H as [E1 E2]. unfold item_in_slot, zlen in *. rewrite E1.
  case_if; apply lookup_lt_Some in Hi; apply lookup_lt_is_Some_2; lia.
Qed.

Lemma roll_sound_kept w w' r : loots_kept w w' -> lw_itemGuid w <= lw_itemGuid w' -> roll_sound w r -> roll_sound w' r.
Proof.
  intros Hk Hg [H1 H2 H3 H4 H5 H6 (n & H7 & H8)]. split; try done; [|exists n; split; [lia|done]].
  intros l Hl. destruct (H1 l Hl) as (loot & it & Hloot & Hit). destruct (Hk l loot Hloot) as (loot' & Hl' & Hs).
  exists loot'. destruct (item_in_slot_kept _ _ _ _ Hs Hit) as [it' ?]. now exists it'.
Qed.
Lemma rolls_ok_kept w w' :
  loots_kept w w' -> lw_itemGuid w' = lw_itemGuid w -> rolls w' `sublist_of` rolls w -> rolls_ok w -> rolls_ok w'.
Proof.
  intros Hk Hg Hs [H1 H2 H3]. split.
  - apply Forall_forall. intros r Hr. rewrite Forall_forall in H1. apply (roll_sound_kept w); [done|lia|].
    apply H1. now apply (elem_of_sublist (rolls w')).
  - apply (sublist_NoDup _ (map itemGUID (rolls w))); [done|]. now apply (fmap_sublist itemGUID).
  - now rewrite Hg.
Qed.
Lemma rolls_ok_at w i r : rolls_ok w -> rolls w !! i = Some r -> roll_sound w r.
Proof. intros H Hr. pose proof (ro_sound _ H) as Hf. rewrite Forall_forall in Hf. apply Hf. now apply list_elem_of_lookup_2 in Hr. Qed.

Lemma looted_kinds slot loot : same_kinds (alter_slot_item slot (set_is_looted true) loot) loot.
Proof. now apply alter_slot_kinds. Qed.
Lemma unblocked_kinds slot b loot : same_kinds (alter_slot_item slot (set_is_blocked b) loot) loot.
Proof. now apply alter_slot_kinds. Qed.
Lemma prize_kinds r it w v loot loot' past aw : prize r it w v loot loot' past aw -> same_kinds loot' loot.
Proof.
  unfold prize. destruct (FindConnected w); [|now intros [-> _]].
  destruct v; try (case_if; [intros [[H _] _]; apply (same_items_kinds _ _ _ H), looted_kinds|intros [-> _]; apply unblocked_kinds]).
  intros [[H _] _]. apply (same_items_kinds _ _ _ H), looted_kinds.
Qed.
Lemma roll_result_kinds r am n it loot loot' aw : roll_result r am n it loot loot' aw -> same_kinds loot' loot.
Proof.
  unfold roll_result. destruct (entitled is_need _ _); [destruct (entitled is_greed _ _)|].
  - intros [-> _]. apply unblocked_kinds.
  - intros (? & ? & ? & ? & _ & H). now apply prize_kinds in H.
  - intros (? & ? & ? & _ & H). now apply prize_kinds in H.
Qed.

(** A roll is counted without failing, and nothing else is touched. *)
Definition removed (i : nat) (w w' : LootWorld) : Prop :=
  rolls w' = base.delete i (rolls w) /\ loots_kept w w' /\ lw_itemGuid w' = lw_itemGuid w /\
  set_RollId [] (lw_group w') = set_RollId [] (lw_group w).
Lemma counted_removed i l loot loot' more w w' :
  counted i l loot' more w w' -> lw_loots w !! l = Some loot -> same_kinds loot' loot -> removed i w w'.
Proof.
  intros (H1 & H2 & _ & H4 & H5) Hl Hk. split_and!; try done. now apply (loots_kept_insert w w' l loot loot').
Qed.
Lemma count_safe w i am r :
  (forall l, roll_loot r = Some l -> exists loot it, lw_loots w !! l = Some loot /\ item_in_slot (itemSlot r) loot = Some it) ->
  totals_ok r -> GetItemTemplate (itemid r) <> None -> rolls w !! i = Some r -> exists w', CountTheRoll i am w = (Ret tt, w') /\ removed i w w'.
Proof.
  intros H1 H2 H6 Hr. destruct (roll_loot r) as [l|] eqn:El.
  2:{ unfold CountTheRoll. step (roll_at_eq i r w Hr). rewrite El. eexists. split; [reflexivity|]. split_and!; [done|now apply loots_kept_refl|done|done]. }
  destruct (H1 l eq_refl) as (loot & it & Hl & Hi). destruct (decide (playerVote r = ∅)) as [Ev|Hv].
  - unfold CountTheRoll. step (roll_at_eq i r w Hr). rewrite El.
    assert (E1 : need_round i am l w = (Ret tt, w))
      by (unfold need_round; step (roll_at_eq i r w Hr); rewrite (bool_decide_true (playerVote r = ∅)) by done; now rewrite andb_false_r).
    assert (E2 : greed_round i am l w = (Ret tt, w))
      by (unfold greed_round; step (roll_at_eq i r w Hr); rewrite (bool_decide_true (playerVote r = ∅)) by done; now rewrite andb_false_r).
    step E1. step E2. destruct (decide (totalNeed r = 0 /\ totalGreed r = 0)) as [[En Eg]|Hne].
    + destruct (all_passed_eq i l r loot it w Hr Hl Hi En Eg) as (more & _ & E3). step E3. eexists. split; [reflexivity|].
      apply (counted_removed i l loot (alter_slot_item (itemSlot r) (set_is_blocked false) loot) more); [done|done|apply unblocked_kinds].
    + step (all_passed_off i l r w Hr ltac:(lia)). eexists. split; [reflexivity|]. split_and!; [done|now apply loots_kept_refl|done|done].
  - destruct (count_the_roll w i am r l loot it Hr) as (w' & loot' & more & E & Hc & Hres); [now split|].
    exists w'. split; [done|]. apply (counted_removed i l loot loot' more); [done|done|]. now apply roll_result_kinds in Hres.
Qed.
Lemma removed_ok i w w' : removed i w w' -> rolls_ok w -> rolls_ok w'.
Proof. intros (E & Hk & Hg & _). apply rolls_ok_kept; try done. rewrite E. apply sublist_delete. Qed.

Lemma filter_none {A} (P : A -> Prop) `{forall x, Decision (P x)} (l : list A) : (forall x, x ∈ l -> ~ P x) -> filter P l = [].
Proof.
  induction l as [|x l IH]; intros Hl; [done|]. rewrite filter_cons_False by (apply Hl; left). apply IH. intros y Hy. apply Hl. now right.
Qed.
Lemma filter_all {A} (P : A -> Prop) `{forall x, Decision (P x)} (l : list A) : (forall x, x ∈ l -> P x) -> filter P l = l.
Proof.
  induction l as [|x l IH]; intros Hl; [done|]. rewrite filter_cons_True by (apply Hl; left). f_equal. apply IH.
  intros y Hy. apply Hl. now right.
Qed.

(** ** Ending all rolls of a loot *)


Lemma end_loop_eq l am : forall k fuel i w,
  rolls_ok w -> (length (filter (of_loot l) (rolls w)) = k)%nat -> (forall j r, (j < i)%nat -> rolls w !! j = Some r -> ~ of_loot l r) ->
  (i <= length (rolls w))%nat -> (k * S (length (rolls w)) + (length (rolls w) - i) < fuel)%nat ->
  exists w', end_loop fuel l am i w = (Ret tt, w') /\ rolls w' = filter (fun r => ~ of_loot l r) (rolls w) /\ rolls_ok w'.
Proof.
  intros k. induction k as [k IHk] using lt_wf_ind. intros fuel. induction fuel as [|fuel IH]; intros i w Hok Hk Hi Hle Hf; [lia|].
  cbn [end_loop]. rewrite bind_gets. destruct (rolls w !! i) as [r|] eqn:Er.
  - case_bool_decide as El.
    + pose proof (rolls_ok_at _ _ _ Hok Er) as Hs.
      destruct (count_safe w i am r (rs_link _ _ Hs) (rs_totals _ _ Hs) (rs_template _ _ Hs) Er) as (w1 & E1 & H1). step E1.
      pose proof (removed_ok _ _ _ H1 Hok) as Hok1. destruct H1 as (H1 & _).
      destruct (list_elem_of_split_length _ _ _ Er) as (a & b & Eab & Ha).
      assert (E2 : rolls w1 = a ++ b) by (rewrite H1, Eab, Ha; apply delete_middle).
      assert (Hlen : length (rolls w) = S (length (rolls w1))) by (rewrite E2, Eab, !length_app; cbn; lia).
      assert (Hcnt : k = S (length (filter (of_loot l) (rolls w1)))).
      { rewrite <- Hk, E2, Eab, !filter_app, filter_cons_True, !length_app by done. cbn. lia. }
      destruct (IHk (length (filter (of_loot l) (rolls w1))) ltac:(lia) fuel 0%nat w1 Hok1 eq_refl) as (w' & E' & R' & O').
      * intros j r' Hj. lia.
      * lia.
      * apply lookup_lt_Some in Er. nia.
      * exists w'. split; [done|]. split; [|done]. rewrite R', E2, Eab, !filter_app, filter_cons_False; [done|]. intros H. now apply H.
    + apply (IH (S i)); try done.
      * intros j r' Hj Hr'. destruct (decide (j = i)) as [->|]; [congruence|]. apply (Hi j); [lia|done].
      * apply lookup_lt_Some in Er. lia.
      * apply lookup_lt_Some in Er. lia.
  - exists w. split; [done|]. split; [|done]. symmetry. apply filter_all. intros r Hr.
    apply list_elem_of_lookup in Hr as [j Hj]. apply (Hi j); [|done]. apply lookup_lt_Some in Hj. apply lookup_ge_None in Er. lia.
Qed.

Lemma EndRoll_eq l am w :
  rolls_ok w ->
  exists w', EndRoll l am w = (Ret tt, w') /\ rolls w' = filter (fun r => ~ of_loot l r) (rolls w) /\ rolls_ok w'.
Proof.
  intros Hok. unfold EndRoll. rewrite bind_gets.
  apply (end_loop_eq l am (length (filter (of_loot l) (rolls w)))); try done; try lia.
  pose proof (length_filter (of_loot l) (rolls w)). nia.
Qed.

End Loot.

(** ** Claims *)

(** C31. The outcome of a roll.  [CountTheRoll] on a roll linked to an item returns;
    the roll is removed, nothing else of the group changes, and only its loot and the
    trace do.  If players who are here voted need, the first of the highest draws
    among them wins; otherwise the same among those who voted greed or disenchant;
    otherwise the item is unblocked and nobody gets it.  The winner, when connected,
    gets the item, which is marked as looted and counted off, or what it disenchants
    into, by mail what does not fit; a winner of the item without room for it leaves
    it in the loot, unblocked.  Nobody else gets anything. *)
Theorem CountTheRoll_correct `{view : LootView} s i am r l loot it :
  rolls s !! i = Some r -> countable r l loot it s ->
  exists s' loot' more, CountTheRoll i am s = (Ret tt, s') /\ counted i l loot' more s s' /\
    roll_result r am (lw_drawn s) it loot loot' (awards more).
Proof. apply count_the_roll. Qed.

(** Players 1, 2 and 3 vote need, greed and need on item 49623; later draws are higher. *)
Definition loot_sample_urand (n : nat) (lo hi : Z) : Z := 40 + Z.of_nat n mod 50.
Lemma loot_sample_urand_range n : 1 <= loot_sample_urand n 1 100 <= 100.
Proof. unfold loot_sample_urand. pose proof (Z.mod_pos_bound (Z.of_nat n) 50 ltac:(lia)). lia. Qed.
Definition loot_sample_view : LootView := {|
  lv_player := fun g => if (1 <=? g) && (g <=? 3) then Some (mkLootPlayer true true 571 false) else None;
  lv_near := fun _ => true;
  AllowedForPlayer := fun _ _ => true;
  CanRollForItemInLFG := fun _ _ => true;
  GetItemTemplate := fun id => if id =? 49623 then Some (mkItemTemplate 5 0 0 0) else None;
  CanStoreNewItem := fun _ _ _ _ => EQUIP_ERR_OK;
  disenchant_loot := fun _ _ _ => [];
  urand := loot_sample_urand;
  urand_range := loot_sample_urand_range
|}.
Definition loot_sample_item : LootItem := mkLootItem 49623 0 0 1 ∅ false true false false false.
Definition loot_sample_loot : Loot := mkLoot [loot_sample_item] [] 1 ∅.
Definition loot_sample_roll (votes : gmap Z RollVote) (need greed : Z) : Roll :=
  mkRoll (MAKE_NEW_GUID 5 0 HIGHGUID_ITEM) 49623 0 0 1 (Some 7) votes 3 need greed 0 0 ROLL_ALL_TYPE_NO_DISENCHANT.
Definition loot_sample_world (rs : list Roll) : LootWorld :=
  mkLootWorld (set_RollId rs new_group) {[7 := loot_sample_loot]} 6 ∅ 0 [].
Definition loot_sample_votes : gmap Z RollVote := {[1 := NEED; 2 := GREED; 3 := NEED]}.

Definition loot_sample_need : Roll := loot_sample_roll loot_sample_votes 2 1.
Definition loot_sample : LootWorld := loot_sample_world [loot_sample_need].

Lemma loot_sample_countable :
  @countable loot_sample_view loot_sample_need 7 loot_sample_loot loot_sample_item
    loot_sample.
Proof.
  now split.
Qed.
Lemma CountTheRoll_correct_witness :
  awards (lw_trace (snd (@CountTheRoll loot_sample_view 0 None loot_sample))) =
    [StoreNewItem 3 49623 0 ∅] /\
  exists s' loot' more,
    @CountTheRoll loot_sample_view 0 None loot_sample = (Ret tt, s') /\
    counted 0 7 loot' more loot_sample s' /\
    @roll_result loot_sample_view loot_sample_need None 0 loot_sample_item loot_sample_loot loot' (awards more).
Proof.
  split; [vm_compute; reflexivity|].
  exact (@CountTheRoll_correct loot_sample_view loot_sample 0 None loot_sample_need 7 _ _ eq_refl loot_sample_countable).
Defined.

(** C32. The end of a loot's rolls ends.  [EndRoll] starts its search again after each
    roll it counts; on sound rolls it returns, it has counted every roll linked to
    the loot and no other, and the rolls left are sound and in their order. *)
Theorem EndRoll_ends `{view : LootView} l am w :
  rolls_ok w ->
  exists w', EndRoll l am w = (Ret tt, w') /\ rolls w' = filter (fun r => ~ of_loot l r) (rolls w) /\ rolls_ok w'.
Proof. apply EndRoll_eq. Qed.

Lemma loot_sample_ok : @rolls_ok loot_sample_view loot_sample.
Proof.
  split; [|apply NoDup_singleton|split; discriminate].
  apply Forall_singleton. split; try done.
  - intros l [= <-]. now exists loot_sample_loot, loot_sample_item.
  - exists 5. split; [split; [discriminate|reflexivity]|reflexivity].
Qed.
Lemma EndRoll_ends_witness :
  rolls (snd (@EndRoll loot_sample_view 7 None loot_sample)) = [] /\
  exists w', @EndRoll loot_sample_view 7 None loot_sample = (Ret tt, w') /\
    rolls w' = filter (fun r => ~ of_loot 7 r) (rolls loot_sample) /\
    @rolls_ok loot_sample_view w'.
Proof.
  split; [vm_compute; reflexivity|].
  exact (@EndRoll_ends loot_sample_view 7 None _ loot_sample_ok).
Defined.
