(* ===== verification/GroupLootInv.v ===== *)
(** * Groups: every sequence of operations on loot rolls

    The rolls are sound ([rolls_ok]): linked to an item of a loot, with totals that
    bound the votes they count, and distinct guids.  Every operation of [GroupLoot]
    keeps them so and returns; [LootOp] and [loot_reach] are their sequences. *)

From stdpp Require Import base gmap list.
From Stdlib Require Import ZArith Lia.
From S2P Require Import Prelude StdMap ObjectGuid ActionLogic GroupTypes GroupLoot.
#[local] Open Scope Z_scope.

Create HintDb talk.

Section Loot.
Context `{view : LootView}.
(** Runs the first action of a sequence by its equation. *)
Ltac step H := rewrite (bind_eq _ _ _ _ _ H).

(** ** Votes keep the rolls sound *)

Lemma count_insert keep p v r r' :
  playerVote r' = <[p := v]> (playerVote r) -> count_votes keep r' <= count_votes keep r + if keep v then 1 else 0.
Proof.
  intros E. rewrite !count_votes_size, E. pose proof (vote_map_insert keep (playerVote r) p v). destruct (keep v); lia.
Qed.
Lemma count_delete keep p v r r' :
  playerVote r !! p = Some v -> playerVote r' = base.delete p (playerVote r) ->
  count_votes keep r = count_votes keep r' + if keep v then 1 else 0.
Proof.
  intros Hp E. rewrite !count_votes_size, E. pose proof (vote_map_delete keep (playerVote r) p v Hp). destruct (keep v); lia.
Qed.
Lemma count_nonneg keep r : 0 <= count_votes keep r.
Proof. rewrite count_votes_size. lia. Qed.

Lemma totals_bound w r : roll_sound w r -> 0 <= totalNeed r /\ 0 <= totalGreed r /\ 0 <= totalPass r /\ totalPass r + totalNeed r + totalGreed r < 255.
Proof.
  intros [_ [_ Hn Hg _] Hp _ Hc _ _]. pose proof (count_nonneg is_pass r). pose proof (count_nonneg is_need r). pose proof (count_nonneg is_greed r).
  unfold votes_cast in Hc. lia.
Qed.

(** A vote is added: everything stays sound but the number of votes cast, which
    may reach the number of players. *)
Lemma add_vote_sound w r p v c :
  roll_sound w r -> playerVote r !! p = Some v ->
  let r' := add_vote p c r in
  totals_ok r' /\ count_votes is_pass r' <= totalPass r' /\ votes_cast r' <= votes_cast r + 1 /\
  roll_loot r' = roll_loot r /\ itemSlot r' = itemSlot r /\ itemid r' = itemid r /\ itemGUID r' = itemGUID r /\
  totalPlayersRolling r' = totalPlayersRolling r.
Proof.
  intros Hs Hp. pose proof (totals_bound w r Hs) as (B1 & B2 & B3 & B4). destruct Hs as [_ [T1 T2 T3 [T4 T5]] T6 _ _ _ _].
  assert (Hp0 : p <> 0) by congruence.
  assert (U : forall z, 0 <= z < 255 -> u8 (z + 1) = z + 1) by (intros; apply uwrap_id; unfold is_u; change (2 ^ 8) with 256; lia).
  assert (N : playerVote (add_vote p c r) !! 0 = None).
  { unfold add_vote. repeat case_if; cbn; try (now rewrite lookup_insert_ne by done); done. }
  assert (CN : forall x r1, playerVote r1 = <[p := x]> (playerVote r) -> totalNeed r1 = totalNeed r + (if is_need x then 1 else 0) ->
    count_votes is_need r1 <= totalNeed r1) by (intros x r1 E ->; pose proof (count_insert is_need p x r r1 E); lia).
  assert (CG : forall x r1, playerVote r1 = <[p := x]> (playerVote r) -> totalGreed r1 = totalGreed r + (if is_greed x then 1 else 0) ->
    count_votes is_greed r1 <= totalGreed r1) by (intros x r1 E ->; pose proof (count_insert is_greed p x r r1 E); lia).
  assert (CP : forall x r1, playerVote r1 = <[p := x]> (playerVote r) -> totalPass r1 = totalPass r + (if is_pass x then 1 else 0) ->
    count_votes is_pass r1 <= totalPass r1) by (intros x r1 E ->; pose proof (count_insert is_pass p x r r1 E); lia).
  assert (Z0 : forall z, z = z + (if false then 1 else 0)) by (intros; lia).
  cbn zeta. revert N. unfold add_vote, votes_cast. rewrite !U by lia.
  destruct (c =? ROLL_PASS); [|destruct (c =? ROLL_NEED); [|destruct (c =? ROLL_GREED); [|destruct (c =? ROLL_DISENCHANT)]]]; intros N;
    (split; [split; [exact N|..]|split; [|unfold set_playerVote, set_totalPass, set_totalNeed, set_totalGreed; cbn -[Z.add]; split_and!; (done || lia)]]).
  all: unfold is_u in *; change (2 ^ 8) with 256 in *.
  all: try (split; cbn -[Z.add]; lia).
  all: try done.
  1-3: first [now apply (CN PASS); [|apply Z0]|now apply (CG PASS); [|apply Z0]|now apply (CP PASS)].
  1-3: first [now apply (CN NEED)|now apply (CG NEED); [|apply Z0]|now apply (CP NEED); [|apply Z0]].
  1-3: first [now apply (CN GREED); [|apply Z0]|now apply (CG GREED)|now apply (CP GREED); [|apply Z0]].
  1-3: first [now apply (CN DISENCHANT); [|apply Z0]|now apply (CG DISENCHANT)|now apply (CP DISENCHANT); [|apply Z0]].
Qed.

Lemma rolls_ok_put w i r r' :
  rolls_ok w -> rolls w !! i = Some r -> roll_sound w r' -> itemGUID r' = itemGUID r -> rolls_ok (set_rolls (<[i := r']> (rolls w)) w).
Proof.
  intros [H1 H2 H3] Hr Hs Eg. set (w' := set_rolls _ w).
  assert (K : forall x, roll_sound w x -> roll_sound w' x) by (intros x; apply roll_sound_kept; [now apply loots_kept_refl|done]).
  split; [| |done].
  - apply Forall_insert; [|now apply K]. now apply (Forall_impl (roll_sound w)).
  - change (NoDup (itemGUID <$> <[i := r']> (rolls w))). rewrite list_fmap_insert, Eg, list_insert_id; [done|]. now rewrite list_lookup_fmap, Hr.
Qed.

Lemma GetRoll_Some guid l i r : GetRoll guid l = Some (i, r) -> l !! i = Some r /\ itemGUID r = guid /\ roll_loot r <> None.
Proof. unfold GetRoll. intros H%list_find_Some. naive_solver. Qed.

Definition nothing_but_rolls (w w' : LootWorld) : Prop :=
  loots_kept w w' /\ lw_itemGuid w' = lw_itemGuid w /\ set_RollId [] (lw_group w') = set_RollId [] (lw_group w).
Lemma announce_vote_eq p c r w : exists more, awards more = [] /\ announce_vote p c r w = (Ret tt, say more w).
Proof.
  unfold announce_vote. destruct (c <? MAX_ROLL_TYPE); [|exists []; now rewrite say_nil].
  eexists. split; [|unfold SendLootRoll; apply send_voters_eq]. now apply no_awards.
Qed.

Lemma CountRollVote_safe p guid c w :
  rolls_ok w -> exists w', CountRollVote p guid c w = (Ret tt, w') /\ rolls_ok w' /\ nothing_but_rolls w w'.
Proof.
  intros Hok. assert (Hrefl : nothing_but_rolls w w) by (split_and!; [now apply loots_kept_refl|done|done]).
  unfold CountRollVote. rewrite bind_gets. destruct (GetRoll guid (rolls w)) as [[i r]|] eqn:Eg; [|now exists w].
  apply GetRoll_Some in Eg as (Hr & _ & Hl). pose proof (rolls_ok_at _ _ _ Hok Hr) as Hs.
  destruct (playerVote r !! p) as [v|] eqn:Ep; [|now exists w]. destruct (roll_loot r) as [l|] eqn:El; [|done].
  destruct (rs_link _ _ Hs l El) as (loot & it & Hloot & Hit). step (loot_at_eq l loot w Hloot).
  case_bool_decide; [now exists w|]. destruct (announce_vote_eq p c r w) as (more & _ & Ea). step Ea. step (put_roll_eq i (add_vote p c r) (say more w)).
  set (w1 := set_rolls _ (say more w)).
  destruct (add_vote_sound w r p v c Hs Ep) as (T & P & C & L & S & I & G & R).
  assert (Hr1 : rolls w1 !! i = Some (add_vote p c r)) by (cbn; apply list_lookup_insert_eq; now apply lookup_lt_Some in Hr).
  assert (Hn1 : nothing_but_rolls w w1) by (split_and!; [now apply loots_kept_refl|done|done]).
  assert (Hlink : forall l, roll_loot (add_vote p c r) = Some l -> exists loot it, lw_loots w1 !! l = Some loot /\ item_in_slot (itemSlot (add_vote p c r)) loot = Some it)
    by (rewrite L, S; apply (rs_link _ _ Hs)).
  destruct (Z.leb_spec (totalPlayersRolling r) (votes_cast (add_vote p c r))) as [Hend|Hopen]; cbn [when].
  - destruct (count_safe w1 i None _ Hlink T ltac:(rewrite I; apply (rs_template _ _ Hs)) Hr1) as (w2 & E2 & H2).
    exists w2. split; [done|]. destruct H2 as (D & K & Gu & Gr).
    assert (K2 : loots_kept w w2) by (apply (loots_kept_trans _ w1); [apply Hn1|done]). split; [|now split_and!].
    apply (rolls_ok_kept w); [done|done| |done]. rewrite D. unfold w1, rolls, set_rolls. cbn. rewrite delete_insert. apply sublist_delete.
  - exists w1. split; [done|]. split; [|done].
    apply (rolls_ok_put (say more w) i r); [now apply (rolls_ok_kept w); [apply loots_kept_refl|..]|done| |done].
    pose proof (rs_players _ _ Hs) as Hpl. unfold is_u in Hpl. change (2 ^ 8) with 256 in Hpl.
    split; [exact Hlink|done|done|rewrite R; apply (rs_players _ _ Hs)|lia|rewrite I; apply (rs_template _ _ Hs)|].
    rewrite G. apply (rs_guid _ _ Hs).
Qed.
(** ** A member leaves *)

(** The roll after [remove_vote] of [g]. *)
Definition taken_back (g : Z) (r : Roll) : Roll :=
  match playerVote r !! g with
  | None => r
  | Some v => set_playerVote (base.delete g (playerVote r)) (take_back v r)
  end.
Lemma taken_back_fields g r :
  roll_loot (taken_back g r) = roll_loot r /\ itemSlot (taken_back g r) = itemSlot r /\ itemid (taken_back g r) = itemid r /\
  itemGUID (taken_back g r) = itemGUID r /\ playerVote (taken_back g r) = base.delete g (playerVote r).
Proof.
  unfold taken_back. destruct (playerVote r !! g) as [v|] eqn:Ev; [now destruct v|]. now rewrite delete_id.
Qed.
Lemma taken_back_totals g r v :
  playerVote r !! g = Some v ->
  count_votes is_need r <= totalNeed r < 256 -> count_votes is_greed r <= totalGreed r < 256 -> count_votes is_pass r <= totalPass r < 256 ->
  totalNeed (taken_back g r) = totalNeed r - (if is_need v then 1 else 0) /\
  totalGreed (taken_back g r) = totalGreed r - (if is_greed v then 1 else 0) /\
  totalPass (taken_back g r) = totalPass r - (if is_pass v then 1 else 0).
Proof.
  intros Hg Hn Hgr Hp. assert (exists r0, playerVote r0 = base.delete g (playerVote r)) as [r0 E0] by now eexists (set_playerVote _ r).
  pose proof (count_delete is_need g v r r0 Hg E0). pose proof (count_delete is_greed g v r r0 Hg E0). pose proof (count_delete is_pass g v r r0 Hg E0).
  assert (U : forall z, 0 < z < 256 -> u8 (z - 1) = z - 1) by (intros; apply uwrap_id; unfold is_u; change (2 ^ 8) with 256; lia).
  pose proof (count_nonneg is_need r0). pose proof (count_nonneg is_greed r0). pose proof (count_nonneg is_pass r0).
  unfold taken_back. rewrite Hg. unfold take_back. cbn zeta. destruct (valid_vote v), v; cbn -[uwrap count_votes] in *; rewrite ?U by lia; lia.
Qed.
Lemma taken_back_sound w g r : roll_sound w r -> roll_sound w (taken_back g r).
Proof.
  intros Hs. destruct (playerVote r !! g) as [v|] eqn:Hg; [|unfold taken_back; now rewrite Hg].
  pose proof (totals_bound w r Hs) as (B1 & B2 & B3 & B4). destruct Hs as [H1 [T1 T2 T3 [T4 T5]] H3 H4 H5 H6 H7].
  destruct (taken_back_fields g r) as (F1 & F2 & F3 & F4 & F5).
  destruct (taken_back_totals g r v Hg) as (G1 & G2 & G3); try lia.
  pose proof (fun keep => count_delete keep g v r (taken_back g r) Hg F5) as C.
  pose proof (C is_need). pose proof (C is_greed). pose proof (C is_pass). clear C.
  pose proof (fun keep => count_nonneg keep (taken_back g r)) as N0.
  pose proof (N0 is_need). pose proof (N0 is_greed). pose proof (N0 is_pass). clear N0.
  unfold votes_cast, is_u in *. change (2 ^ 8) with 256 in *.
  split; [now rewrite F1, F2|split|lia| |unfold votes_cast; destruct (is_need v), (is_greed v), (is_pass v); lia|now rewrite F3|now rewrite F4].
  - rewrite F5. now rewrite lookup_delete_None; right.
  - lia.
  - lia.
  - unfold is_u. change (2 ^ 8) with 256. destruct (is_need v), (is_greed v); lia.
  - unfold taken_back. rewrite Hg. unfold take_back.
    destruct v; cbn -[uwrap]; try done; apply uwrap_range; lia.
Qed.

Lemma GetRoll_unique w i r p c :
  NoDup (map itemGUID (rolls w)) -> rolls w !! i = Some r -> playerVote r !! p = None ->
  CountRollVote p (itemGUID r) c w = (Ret tt, w).
Proof.
  intros Hn Hr Hp. unfold CountRollVote. rewrite bind_gets. destruct (GetRoll (itemGUID r) (rolls w)) as [[j r']|] eqn:Eg; [|done].
  apply GetRoll_Some in Eg as (Hj & E & _). assert (j = i) as ->.
  { apply (NoDup_lookup (map itemGUID (rolls w)) j i (itemGUID r)); [done|..]; rewrite list_lookup_fmap; [rewrite Hj|rewrite Hr]; cbn; congruence. }
  rewrite Hr in Hj. injection Hj as <-. now rewrite Hp.
Qed.
Lemma set_rolls_same w : set_rolls (rolls w) w = w.
Proof. now destruct w as [[]]. Qed.
Lemma remove_vote_eq g i r w :
  rolls_ok w -> rolls w !! i = Some r ->
  remove_vote g i w = (Ret tt, set_rolls (<[i := taken_back g r]> (rolls w)) w) /\ rolls_ok (set_rolls (<[i := taken_back g r]> (rolls w)) w).
Proof.
  intros Hok Hr. pose proof (rolls_ok_at _ _ _ Hok Hr) as Hs. destruct (taken_back_fields g r) as (F1 & F2 & F3 & F4 & F5).
  assert (Hok' : rolls_ok (set_rolls (<[i := taken_back g r]> (rolls w)) w)) by (apply (rolls_ok_put w i r); try done; now apply taken_back_sound).
  split; [|done]. unfold remove_vote. rewrite bind_gets, Hr. destruct (playerVote r !! g) as [v|] eqn:Ev.
  - cbn zeta. replace (playerVote (take_back v r)) with (playerVote r) by now destruct v.
    replace (set_playerVote (base.delete g (playerVote r)) (take_back v r)) with (taken_back g r) by (unfold taken_back; now rewrite Ev).
    replace (itemGUID (take_back v r)) with (itemGUID (taken_back g r)) by (rewrite F4; now destruct v).
    step (put_roll_eq i (taken_back g r) w). apply (GetRoll_unique _ i); [apply Hok'| |rewrite F5; apply lookup_delete_eq].
    cbn. apply list_lookup_insert_eq. now apply lookup_lt_Some in Hr.
  - unfold taken_back. rewrite Ev, list_insert_id by done. now rewrite set_rolls_same.
Qed.

Lemma remove_votes_eq g l1 : forall l0 w,
  rolls_ok w -> rolls w = l0 ++ l1 ->
  for_each (seq (length l0) (length l1)) (remove_vote g) w = (Ret tt, set_rolls (l0 ++ map (taken_back g) l1) w) /\
  rolls_ok (set_rolls (l0 ++ map (taken_back g) l1) w).
Proof.
  induction l1 as [|r l1 IH]; intros l0 w Hok E; cbn [length seq for_each map].
  - rewrite app_nil_r in *. rewrite <- E, set_rolls_same. done.
  - assert (Hr : rolls w !! length l0 = Some r) by (rewrite E; now apply list_lookup_middle).
    destruct (remove_vote_eq g _ r w Hok Hr) as [E1 Hok1]. step E1.
    set (w1 := set_rolls _ w) in *. destruct (IH (l0 ++ [taken_back g r]) w1 Hok1) as [E2 Hok2].
    { unfold w1, rolls. cbn. fold (rolls w). rewrite E, <- (Nat.add_0_r (length l0)), insert_app_r. cbn. now rewrite <- app_assoc. }
    rewrite length_app, Nat.add_1_r in E2. rewrite <- app_assoc in E2, Hok2. exact (conj E2 Hok2).
Qed.
Lemma RemoveFromRolls_eq g w :
  rolls_ok w ->
  RemoveFromRolls g w = (Ret tt, set_rolls (map (taken_back g) (rolls w)) w) /\ rolls_ok (set_rolls (map (taken_back g) (rolls w)) w).
Proof. intros Hok. unfold RemoveFromRolls. rewrite bind_gets. now apply (remove_votes_eq g (rolls w) []). Qed.
(** The same as a description: the vote of [g] is gone and each total is lowered by
    what the vote counted for, without a wrap. *)
Definition left_by (g : Z) (r : Roll) : Roll :=
  match playerVote r !! g with
  | None => r
  | Some v =>
    mkRoll (itemGUID r) (itemid r) (itemRandomPropId r) (itemRandomSuffix r) (itemCount r) (roll_loot r)
      (base.delete g (playerVote r))
      (if valid_vote v then u8 (totalPlayersRolling r - 1) else totalPlayersRolling r)
      (totalNeed r - (if is_need v then 1 else 0)) (totalGreed r - (if is_greed v then 1 else 0))
      (totalPass r - (if is_pass v then 1 else 0)) (itemSlot r) (rollVoteMask r)
  end.
Lemma taken_back_eq w g r : roll_sound w r -> taken_back g r = left_by g r.
Proof.
  intros Hs. unfold left_by. destruct (playerVote r !! g) as [v|] eqn:Hg; [|unfold taken_back; now rewrite Hg].
  pose proof (totals_bound w r Hs) as (B1 & B2 & B3 & B4). destruct Hs as [_ [_ T2 T3 _] H3 _ _ _ _].
  destruct (taken_back_totals g r v Hg) as (<- & <- & <-); try lia.
  unfold taken_back. rewrite Hg. unfold take_back. cbn zeta. destruct (valid_vote v), v; done.
Qed.

(** ** A roll is opened *)

Record members_ok (g : Group) : Prop := mk_members_ok {
  mo_nonzero : Forall (fun m => m <> 0) (map fst (m_memberMgr g));
  mo_few : zlen (m_memberMgr g) < 255
}.

(** The votes after some of the members were asked. *)
Record collected (ms : list Z) (r0 r : Roll) : Prop := mk_collected {
  cl_need : totalNeed r = totalNeed r0;
  cl_greed : totalGreed r = totalGreed r0;
  cl_ids : itemGUID r = itemGUID r0 /\ itemid r = itemid r0 /\ roll_loot r = roll_loot r0;
  cl_votes : forall p v, playerVote r !! p = Some v -> p ∈ ms /\ (v = PASS \/ v = NOT_EMITED_YET);
  cl_pass : count_votes is_pass r <= totalPass r <= zlen ms;
  cl_players : is_u 8 (totalPlayersRolling r)
}.
Lemma add_voter_collected autopass i ms r0 r m :
  zlen ms < 254 -> collected ms r0 r -> collected (ms ++ [m]) r0 (add_voter autopass i r m).
Proof.
  intros Hlen [C1 C2 C3 C4 C5 C6].
  assert (Hz : zlen (ms ++ [m]) = zlen ms + 1) by (unfold zlen; rewrite length_app; cbn; lia).
  assert (Hv : forall x p v, x = PASS \/ x = NOT_EMITED_YET -> <[m := x]> (playerVote r) !! p = Some v -> p ∈ ms ++ [m] /\ (v = PASS \/ v = NOT_EMITED_YET)).
  { intros x p v Hx. destruct (decide (p = m)) as [->|Hne].
    - rewrite lookup_insert_eq. intros [= <-]. set_solver.
    - rewrite lookup_insert_ne by done. intros [??]%C4. set_solver. }
  pose proof (count_nonneg is_pass r) as Hn.
  assert (Ht : u8 (totalPass r + 1) = totalPass r + 1) by (apply uwrap_id; unfold is_u; change (2 ^ 8) with 256; lia).
  assert (Hu : is_u 8 (u8 (totalPlayersRolling r + 1))) by (apply uwrap_range; lia).
  assert (Hsame : collected (ms ++ [m]) r0 r) by (split; try done; [intros p v [??]%C4; set_solver|lia]).
  unfold add_voter. destruct (FindConnected m) as [p|]; [|done]. destruct (AllowedForPlayer i m && lv_near m); [|done]. cbn zeta.
  destruct (autopass && lp_pass p); split; try done; try (intros q v; apply Hv; auto).
  - pose proof (count_insert is_pass m PASS r
      (set_totalPass (u8 (totalPass r + 1)) (set_playerVote (<[m := PASS]> (playerVote r)) (set_totalPlayersRolling (u8 (totalPlayersRolling r + 1)) r))) eq_refl) as Hc.
    cbn [is_pass] in Hc. change (totalPass (set_totalPass ?x _)) with x. cbn [set_totalPlayersRolling totalPass playerVote] in *. lia.
  - pose proof (count_insert is_pass m NOT_EMITED_YET r
      (set_playerVote (<[m := NOT_EMITED_YET]> (playerVote r)) (set_totalPlayersRolling (u8 (totalPlayersRolling r + 1)) r)) eq_refl) as Hc.
    cbn [is_pass] in Hc. cbn [set_playerVote set_totalPlayersRolling totalPass playerVote] in *. lia.
Qed.
Lemma collect_voters_collected autopass i g r0 :
  members_ok g -> playerVote r0 = ∅ -> totalPass r0 = 0 -> is_u 8 (totalPlayersRolling r0) ->
  collected (map fst (m_memberMgr g)) r0 (collect_voters autopass i g r0).
Proof.
  intros [_ Hf] Hv Hp Hu. unfold collect_voters. assert (Hl : zlen (map fst (m_memberMgr g)) < 255) by (unfold zlen in *; now rewrite length_map).
  generalize dependent (map fst (m_memberMgr g)). intros ms. induction ms as [|m ms IH] using rev_ind; intros Hl.
  - split; try done; cbn; [intros p v; now rewrite Hv, lookup_empty|]. rewrite Hp. unfold count_votes. rewrite Hv. done.
  - rewrite foldl_snoc. unfold zlen in *. rewrite length_app in Hl. cbn in Hl. apply add_voter_collected; [unfold zlen; lia|]. apply IH. lia.
Qed.
(** What opening a roll needs of the loot: room in a byte for its slots, room for the
    guids of [n] more rolls, and, for the second method, the templates of its items. *)
Record can_open (l : Z) (known : bool) (ni nq : nat) (n : nat) (w : LootWorld) : Prop := mk_can_open {
  cn_ok : rolls_ok w;
  cn_loot : exists loot, lw_loots w !! l = Some loot /\ length (items loot) = ni /\ length (quest_items loot) = nq /\
    (known = true -> Forall (fun id => GetItemTemplate id <> None) (map li_itemid (items loot) ++ map li_itemid (quest_items loot)));
  cn_slots : Z.of_nat ni + Z.of_nat nq <= 256;
  cn_guids : lw_itemGuid w + Z.of_nat n <= 0xFFFFFFFE;
  cn_members : members_ok (lw_group w)
}.
Definition roll_for (autopass : bool) (finish : Roll -> Roll) (w : LootWorld) (l slot : Z) (i : LootItem) : Roll :=
  finish (set_itemSlot slot (set_roll_loot (Some l)
    (collect_voters autopass i (lw_group w) (new_roll (MAKE_NEW_GUID (lw_itemGuid w) 0 HIGHGUID_ITEM) i)))).

Lemma new_item_guid_eq w :
  lw_itemGuid w < 0xFFFFFFFE ->
  new_item_guid w = (Ret (MAKE_NEW_GUID (lw_itemGuid w) 0 HIGHGUID_ITEM), with_itemGuid (lw_itemGuid w + 1) w).
Proof. intros H. unfold new_item_guid. rewrite bind_gets. apply Z.ltb_lt in H. now rewrite H. Qed.
Lemma open_roll_eq autopass finish block announce o l slot i loot loot' w :
  lw_itemGuid w < 0xFFFFFFFE -> lw_loots w !! l = Some loot ->
  (forall s, lw_loots s = lw_loots w -> block l slot s = (Ret tt, with_loots (<[l := loot']> (lw_loots s)) s)) ->
  (forall g r s, exists more, announce g r s = (Ret tt, say more s)) ->
  (forall r, exists m, finish r = set_rollVoteMask m r) ->
  exists w', open_roll autopass finish block announce o l slot i w = (Ret tt, w') /\
    lw_itemGuid w' = lw_itemGuid w + 1 /\ set_RollId [] (lw_group w') = set_RollId [] (lw_group w) /\
    ((totalPlayersRolling (roll_for autopass finish w l slot i) <= 0 /\ rolls w' = rolls w /\ lw_loots w' = lw_loots w) \/
     (0 < totalPlayersRolling (roll_for autopass finish w l slot i) /\
      rolls w' = rolls w ++ [roll_for autopass finish w l slot i] /\ lw_loots w' = <[l := loot']> (lw_loots w))).
Proof.
  intros Hg Hl Hb Ha Hf. unfold open_roll. step (new_item_guid_eq w Hg). rewrite bind_gets. cbn zeta.
  unfold roll_for. set (r0 := collect_voters _ _ _ _). change (lw_group (with_itemGuid _ w)) with (lw_group w). fold r0.
  set (r := finish _). assert (Ep : totalPlayersRolling r = totalPlayersRolling r0) by (unfold r; now destruct (Hf (set_itemSlot slot (set_roll_loot (Some l) r0))) as [m ->]).
  rewrite Ep. set (w1 := with_itemGuid _ w). destruct (Z.ltb_spec 0 (totalPlayersRolling r0)) as [Hp|Hp]; cbn [when].
  - step (Hb w1 eq_refl). set (w2 := with_loots _ w1).
    destruct (Ha (MAKE_NEW_GUID (lw_itemGuid w) 0 HIGHGUID_ITEM) r w2) as [more E]. step E.
    assert (Epush : push_roll r (say more w2) = (Ret tt, set_rolls (rolls w ++ [r]) (say more w2))) by done. step Epush.
    unfold start_timer. destruct (lo_timed o); cbn [when].
    + eexists. split; [reflexivity|]. split_and!; try done. right. done.
    + eexists. split; [reflexivity|]. split_and!; try done. right. done.
  - eexists. split; [reflexivity|]. split_and!; try done. left. done.
Qed.

Lemma item_guid_inj a b : 0 <= a < 0xFFFFFFFE -> 0 <= b < 0xFFFFFFFE -> MAKE_NEW_GUID a 0 HIGHGUID_ITEM = MAKE_NEW_GUID b 0 HIGHGUID_ITEM -> a = b.
Proof.
  intros Ha Hb. assert (V : forall n, 0 <= n < 0xFFFFFFFE -> MAKE_NEW_GUID n 0 HIGHGUID_ITEM = n + 0 * 2 ^ 24 + HIGHGUID_ITEM * 2 ^ 48).
  { intros n Hn. apply guid_value; [split; vm_compute; (discriminate || reflexivity)|lia|lia|]. right. split; [|done]. unfold is_u. change (2 ^ 32) with 4294967296. lia. }
  rewrite !V by done. lia.
Qed.
Lemma roll_for_guid autopass finish l slot i w :
  members_ok (lw_group w) -> (forall r, exists m, finish r = set_rollVoteMask m r) ->
  itemGUID (roll_for autopass finish w l slot i) = MAKE_NEW_GUID (lw_itemGuid w) 0 HIGHGUID_ITEM.
Proof.
  intros Hm Hf. unfold roll_for. edestruct Hf as [m ->].
  set (n := new_roll _ i). change (itemGUID (collect_voters autopass i (lw_group w) n) = itemGUID n).
  apply (cl_ids (map fst (m_memberMgr (lw_group w)))). now apply collect_voters_collected.
Qed.
Lemma roll_for_sound autopass finish l slot i w w' loot it :
  members_ok (lw_group w) -> (forall r, exists m, finish r = set_rollVoteMask m r) ->
  lw_loots w' !! l = Some loot -> item_in_slot slot loot = Some it -> GetItemTemplate (li_itemid i) <> None ->
  0 <= lw_itemGuid w < lw_itemGuid w' -> roll_sound w' (roll_for autopass finish w l slot i).
Proof.
  intros Hm Hf Hl Hi Ht Hg. set (n := new_roll (MAKE_NEW_GUID (lw_itemGuid w) 0 HIGHGUID_ITEM) i).
  assert (C : collected (map fst (m_memberMgr (lw_group w))) n (collect_voters autopass i (lw_group w) n))
    by (apply collect_voters_collected; done).
  unfold roll_for. fold n. set (r0 := collect_voters _ _ _ _) in *. clearbody r0. destruct C as [C1 C2 (C3 & C4 & C5) C6 C7 C8].
  set (r := finish _). assert (exists m, r = set_rollVoteMask m (set_itemSlot slot (set_roll_loot (Some l) r0))) as [m ->] by apply Hf. clear Hf.
  destruct Hm as [Hnz Hfew]. rewrite Forall_forall in Hnz. unfold zlen in *. rewrite length_map in C7.
  assert (C0 : forall keep, keep PASS = false -> keep NOT_EMITED_YET = false -> count_votes keep r0 = 0).
  { intros keep K1 K2. unfold count_votes. rewrite filter_none; [done|].
    intros [p v] [_ [-> | ->]]%elem_of_entries%C6; cbn; congruence. }
  pose proof (count_nonneg is_pass r0).
  split; try done.
  - intros l' [= <-]. now exists loot, it.
  - split; try done.
    + apply eq_None_not_Some. intros [v [Hin _]%C6]. now apply (Hnz 0).
    + change (count_votes is_need r0 <= totalNeed r0). now rewrite C0, C1.
    + change (count_votes is_greed r0 <= totalGreed r0). now rewrite C0, C2.
    + change (is_u 8 (totalNeed r0) /\ is_u 8 (totalGreed r0)). rewrite C1, C2. done.
  - apply C7.
  - change (totalPass r0 + totalNeed r0 + totalGreed r0 < 255). rewrite C1, C2. cbn. lia.
  - cbn. now rewrite C4.
  - exists (lw_itemGuid w). split; [done|]. cbn. now rewrite C3.
Qed.

Lemma open_roll_safe autopass finish block announce o l slot i loot loot' it known ni nq n w :
  can_open l known ni nq (S n) w -> lw_loots w !! l = Some loot -> same_kinds loot' loot -> item_in_slot slot loot' = Some it ->
  GetItemTemplate (li_itemid i) <> None ->
  (forall s, lw_loots s = lw_loots w -> block l slot s = (Ret tt, with_loots (<[l := loot']> (lw_loots s)) s)) ->
  (forall g r s, exists more, announce g r s = (Ret tt, say more s)) ->
  (forall r, exists m, finish r = set_rollVoteMask m r) ->
  exists w', open_roll autopass finish block announce o l slot i w = (Ret tt, w') /\ can_open l known ni nq n w'.
Proof.
  intros [Hok (loot0 & Hl0 & Li & Lq & Hkn) Hsl Hg Hm] Hl Hk Hit Ht Hb Ha Hf. rewrite Hl in Hl0. injection Hl0 as <-.
  destruct (open_roll_eq autopass finish block announce o l slot i loot loot' w ltac:(lia) Hl Hb Ha Hf) as (w' & E & Eg & Er & Hcase).
  exists w'. split; [done|]. pose proof (ro_counter _ Hok) as Hcnt.
  assert (Hm' : members_ok (lw_group w')).
  { assert (Em : m_memberMgr (lw_group w') = m_memberMgr (lw_group w)) by (change (m_memberMgr (set_RollId [] (lw_group w')) = m_memberMgr (set_RollId [] (lw_group w))); congruence).
    destruct Hm. split; now rewrite Em. }
  destruct Hcase as [(_ & Er2 & El2)|(_ & Er2 & El2)].
  - split; try done; [|exists loot; now rewrite El2|lia].
    destruct Hok as [O1 O2 O3]. split; rewrite ?Er2; [|done|lia]. eapply Forall_impl; [exact O1|]. intros r. apply roll_sound_kept; [now apply loots_kept_refl|lia].
  - assert (Hkept : loots_kept w w') by now apply (loots_kept_insert w w' l loot loot').
    assert (Hl' : lw_loots w' !! l = Some loot') by (rewrite El2; apply lookup_insert_eq).
    split; try done; [| |lia].
    + destruct Hok as [O1 O2 O3]. pose proof (roll_for_sound autopass finish l slot i w w' loot' it Hm Hf Hl' Hit Ht ltac:(lia)) as Hs.
      split; rewrite ?Er2; [|rewrite map_app; apply NoDup_app; split; [done|split; [|apply NoDup_singleton]]|lia].
      * apply Forall_app. split; [|now apply Forall_singleton]. eapply Forall_impl; [exact O1|]. intros r. apply roll_sound_kept; [done|lia].
      * intros x (r & -> & Hr)%list_elem_of_fmap Hx%list_elem_of_singleton. rewrite Forall_forall in O1. destruct (rs_guid _ _ (O1 r Hr)) as (k & Hk1 & Hk2).
        rewrite Hk2, roll_for_guid in Hx by done. apply item_guid_inj in Hx; lia.
    + exists loot'. split; [done|]. destruct (kinds_lengths _ _ Hk) as [-> ->]. destruct Hk as [-> ->]. done.
Qed.
(** Programs that only send. *)
Definition talks (m : M unit) : Prop := forall s, exists more, m s = (Ret tt, say more s).
Lemma talks_ret : talks (ret tt).
Proof. intros s. exists []. now rewrite say_nil. Qed.
Lemma talks_bind m (k : unit -> M unit) : talks m -> talks (k tt) -> talks (bind m k).
Proof.
  intros Hm Hk s. destruct (Hm s) as [a Ea]. destruct (Hk (say a s)) as [b Eb]. exists (a ++ b).
  rewrite (bind_eq _ _ _ _ _ Ea), Eb. now rewrite say_say.
Qed.
Lemma talks_when b m : talks m -> talks (when b m).
Proof. destruct b; [done|]. intros _. apply talks_ret. Qed.
Lemma talks_for_each {A} (l : list A) f : (forall x, talks (f x)) -> talks (for_each l f).
Proof. intros H. induction l as [|x l IH]; [apply talks_ret|]. now apply talks_bind. Qed.
Lemma talks_emit e : talks (emit e).
Proof. intros s. now exists [e]. Qed.
Lemma talks_voters r keep msg : talks (send_voters r keep msg).
Proof. intros s. eexists. apply send_voters_eq. Qed.
#[local] Hint Resolve talks_ret talks_bind talks_when talks_for_each talks_emit talks_voters : talk.
Lemma announce_group_loot_talks o g r : talks (announce_group_loot o g r).
Proof. unfold announce_group_loot, SendLootRoll, SendLootStartRoll. auto with talk. Qed.
Lemma announce_need_before_greed_talks o g r : talks (announce_need_before_greed o g r).
Proof.
  unfold announce_need_before_greed, SendLootRoll, SendLootStartRollToPlayer. apply talks_for_each. intros e.
  apply talks_when. case_bool_decide; auto with talk.
Qed.
Lemma SendLootStartRoll_talks c m r : talks (SendLootStartRoll c m r).
Proof. unfold SendLootStartRoll. auto with talk. Qed.

Lemma block_item_eq l slot loot s :
  lw_loots s !! l = Some loot -> items loot !! Z.to_nat slot <> None ->
  block_item l slot s = (Ret tt, with_loots (<[l := on_items (alter (set_is_blocked true) (Z.to_nat slot)) loot]> (lw_loots s)) s).
Proof.
  intros Hl Hi. unfold block_item. step (loot_at_eq l loot s Hl). destruct (items loot !! Z.to_nat slot) as [i|]; [|done].
  assert (E : of_option (E := Empty_set) (Some i) s = (Ret i, s)) by done. step E. now apply alter_loot_eq.
Qed.
Lemma block_quest_item_eq l slot loot s :
  lw_loots s !! l = Some loot -> zlen (items loot) <= slot -> quest_items loot !! Z.to_nat (slot - zlen (items loot)) <> None ->
  block_quest_item l slot s =
    (Ret tt, with_loots (<[l := on_quest_items (alter (set_is_blocked true) (Z.to_nat (slot - zlen (items loot)))) loot]> (lw_loots s)) s).
Proof.
  intros Hl Hs Hi. unfold block_quest_item. step (loot_at_eq l loot s Hl). destruct (Z.ltb_spec slot (zlen (items loot))); [lia|].
  destruct (quest_items loot !! _) as [i|]; [|done].
  assert (E : of_option (E := Empty_set) (Some i) s = (Ret i, s)) by done. step E. now apply alter_loot_eq.
Qed.
Lemma on_items_kinds f k loot : (forall i, li_itemid (f i) = li_itemid i) -> same_kinds (on_items (alter f k) loot) loot.
Proof. intros Hf. split; [now apply alter_kinds|done]. Qed.
Lemma on_quest_items_kinds f k loot : (forall i, li_itemid (f i) = li_itemid i) -> same_kinds (on_quest_items (alter f k) loot) loot.
Proof. intros Hf. split; [done|now apply alter_kinds]. Qed.

Lemma can_open_less l known ni nq n w : can_open l known ni nq (S n) w -> can_open l known ni nq n w.
Proof. intros []. split; try done. lia. Qed.
Lemma can_open_alter l known ni nq n w loot f :
  can_open l known ni nq n w -> lw_loots w !! l = Some loot -> same_kinds (f loot) loot ->
  exists w', alter_loot l f w = (Ret tt, w') /\ can_open l known ni nq n w'.
Proof.
  intros [Hok (loot0 & Hl0 & Li & Lq & Hkn) Hsl Hg Hm] Hl Hk. rewrite Hl in Hl0. injection Hl0 as <-.
  rewrite (alter_loot_eq l loot f w Hl). eexists. split; [reflexivity|]. split; try done.
  - apply (rolls_ok_kept w); try done. now apply (loots_kept_insert w _ l loot (f loot)).
  - exists (f loot). split; [apply lookup_insert_eq|]. destruct (kinds_lengths _ _ Hk) as [-> ->]. now destruct Hk as [-> ->].
Qed.

(** The item of a round, and that a roll for it can be opened. *)
Section Rounds.
Context (l : Z) (known : bool) (ni nq n : nat) (w : LootWorld).
Hypothesis Hopen : can_open l known ni nq (S n) w.

Lemma round_item k : (k < ni)%nat ->
  exists loot i, lw_loots w !! l = Some loot /\ items loot !! k = Some i /\ (known = true -> GetItemTemplate (li_itemid i) <> None) /\
    forall autopass announce finish o, (forall g r, talks (announce g r)) -> (forall r, exists m, finish r = set_rollVoteMask m r) ->
      GetItemTemplate (li_itemid i) <> None ->
      exists w', open_roll autopass finish block_item announce o l (u8 (Z.of_nat k)) i w = (Ret tt, w') /\ can_open l known ni nq n w'.
Proof.
  intros Hk. destruct (cn_loot _ _ _ _ _ _ Hopen) as (loot & Hl & Li & Lq & Hkn). pose proof (cn_slots _ _ _ _ _ _ Hopen) as Hsl.
  destruct (lookup_lt_is_Some_2 (items loot) k) as [i Hi]; [lia|]. exists loot, i. split; [done|]. split; [done|]. split.
  - intros Hkt. specialize (Hkn Hkt). rewrite Forall_app, !Forall_forall in Hkn. apply (proj1 Hkn). apply list_elem_of_fmap. exists i.
    split; [done|]. now apply list_elem_of_lookup_2 in Hi.
  - intros autopass announce finish o Ha Hf Ht.
    assert (E : u8 (Z.of_nat k) = Z.of_nat k) by (apply uwrap_id; unfold is_u; change (2 ^ 8) with 256; lia).
    rewrite E. set (loot' := on_items (alter (set_is_blocked true) k) loot).
    assert (Hit : item_in_slot (Z.of_nat k) loot' = Some (set_is_blocked true i)).
    { unfold item_in_slot, loot', zlen. cbn. rewrite length_alter. destruct (Z.leb_spec (Z.of_nat (length (items loot))) (Z.of_nat k)); [lia|].
      now rewrite Nat2Z.id, list_lookup_alter_eq, Hi. }
    apply (open_roll_safe _ _ _ _ _ _ _ _ loot loot' _ _ _ _ _ _ Hopen Hl (on_items_kinds (set_is_blocked true) k loot ltac:(done)) Hit Ht); [|done|done].
    intros s Es. rewrite (block_item_eq l (Z.of_nat k) loot s); [now rewrite Nat2Z.id|congruence|rewrite Nat2Z.id; congruence].
Qed.
Lemma round_quest_item k : (k < nq)%nat ->
  exists loot i, lw_loots w !! l = Some loot /\ quest_items loot !! k = Some i /\ (known = true -> GetItemTemplate (li_itemid i) <> None) /\
    forall autopass announce finish o, (forall g r, talks (announce g r)) -> (forall r, exists m, finish r = set_rollVoteMask m r) ->
      GetItemTemplate (li_itemid i) <> None ->
      exists w', open_roll autopass finish block_quest_item announce o l (u8 (zlen (items loot) + Z.of_nat k)) i w = (Ret tt, w') /\ can_open l known ni nq n w'.
Proof.
  intros Hk. destruct (cn_loot _ _ _ _ _ _ Hopen) as (loot & Hl & Li & Lq & Hkn). pose proof (cn_slots _ _ _ _ _ _ Hopen) as Hsl.
  destruct (lookup_lt_is_Some_2 (quest_items loot) k) as [i Hi]; [lia|]. exists loot, i. split; [done|]. split; [done|]. split.
  - intros Hkt. specialize (Hkn Hkt). rewrite Forall_app, !Forall_forall in Hkn. apply (proj2 Hkn). apply list_elem_of_fmap. exists i.
    split; [done|]. now apply list_elem_of_lookup_2 in Hi.
  - intros autopass announce finish o Ha Hf Ht. set (slot := zlen (items loot) + Z.of_nat k).
    assert (E : u8 slot = slot) by (apply uwrap_id; unfold is_u, slot, zlen; change (2 ^ 8) with 256; lia).
    assert (Ek : Z.to_nat (slot - zlen (items loot)) = k) by (unfold slot; lia).
    rewrite E. set (loot' := on_quest_items (alter (set_is_blocked true) k) loot).
    assert (Hit : item_in_slot slot loot' = Some (set_is_blocked true i)).
    { unfold item_in_slot, loot'. cbn [items on_quest_items quest_items]. destruct (Z.leb_spec (zlen (items loot)) slot); [|unfold slot in *; lia].
      now rewrite Ek, list_lookup_alter_eq, Hi. }
    apply (open_roll_safe _ _ _ _ _ _ _ _ loot loot' _ _ _ _ _ _ Hopen Hl (on_quest_items_kinds (set_is_blocked true) k loot ltac:(done)) Hit Ht); [|done|done].
    intros s Es. rewrite (block_quest_item_eq l slot loot s); [now rewrite Ek|congruence|unfold slot; lia|rewrite Ek; congruence].
Qed.

Lemma still_open : exists w', @ret LootWorld Empty_set unit tt w = (Ret tt, w') /\ can_open l known ni nq n w'.
Proof. exists w. split; [done|]. now apply can_open_less. Qed.
Lemma under_threshold k loot : lw_loots w !! l = Some loot ->
  exists w', alter_loot l (on_items (alter (set_is_underthreshold true) k)) w = (Ret tt, w') /\ can_open l known ni nq n w'.
Proof. intros Hl. apply (can_open_alter _ _ _ _ _ _ loot); [now apply can_open_less|done|now apply on_items_kinds]. Qed.
End Rounds.

Lemma allow_disenchant_mask g t r : exists m, allow_disenchant g t r = set_rollVoteMask m r.
Proof. unfold allow_disenchant. destruct (can_disenchant g t); [now eexists|]. exists (rollVoteMask r). now destruct r. Qed.
Lemma forbid_need_mask g t r : exists m, forbid_need t (allow_disenchant g t r) = set_rollVoteMask m r.
Proof.
  destruct (allow_disenchant_mask g t r) as [m ->]. unfold forbid_need. case_if; [|now exists m].
  eexists. now destruct r.
Qed.
Lemma no_mask r : exists m, (fun r : Roll => r) r = set_rollVoteMask m r.
Proof. exists (rollVoteMask r). now destruct r. Qed.
#[local] Hint Resolve allow_disenchant_mask forbid_need_mask no_mask announce_group_loot_talks announce_need_before_greed_talks
  SendLootStartRoll_talks : talk.

Ltac at_item Hl Hi := step (loot_at_eq _ _ _ Hl); rewrite Hi; erewrite bind_eq by reflexivity.
Lemma group_loot_item_opens o l ni nq k n : (k < ni)%nat ->
  triple (can_open l false ni nq (S n)) (group_loot_item o l k) (fun _ => can_open l false ni nq n).
Proof.
  intros Hk w Hw. exists tt. destruct (round_item l false ni nq n w Hw k Hk) as (loot & i & Hl & Hi & _ & Hopen).
  unfold group_loot_item. at_item Hl Hi. rewrite bind_gets. destruct (freeforall i); [now apply still_open|].
  destruct (GetItemTemplate (li_itemid i)) as [t|] eqn:Et; [|now apply still_open].
  case_if; [apply Hopen; auto with talk; congruence|now apply (under_threshold _ _ _ _ _ _ Hw k loot)].
Qed.
Lemma need_before_greed_item_opens o l ni nq k n : (k < ni)%nat ->
  triple (can_open l true ni nq (S n)) (need_before_greed_item o l k) (fun _ => can_open l true ni nq n).
Proof.
  intros Hk w Hw. exists tt. destruct (round_item l true ni nq n w Hw k Hk) as (loot & i & Hl & Hi & Ht & Hopen).
  unfold need_before_greed_item. at_item Hl Hi. rewrite bind_gets. destruct (freeforall i); [now apply still_open|].
  destruct (GetItemTemplate (li_itemid i)) as [t|] eqn:Et; [|now destruct (Ht eq_refl)]. erewrite bind_eq by reflexivity.
  case_if; [apply Hopen; auto with talk; congruence|now apply (under_threshold _ _ _ _ _ _ Hw k loot)].
Qed.
Lemma group_loot_quest_item_opens o l ni nq k n : (k < nq)%nat ->
  triple (can_open l false ni nq (S n)) (group_loot_quest_item o l k) (fun _ => can_open l false ni nq n).
Proof.
  intros Hk w Hw. exists tt. destruct (round_quest_item l false ni nq n w Hw k Hk) as (loot & i & Hl & Hi & _ & Hopen).
  unfold group_loot_quest_item. at_item Hl Hi. destruct (follow_loot_rules i); cbn [negb]; [|now apply still_open].
  destruct (GetItemTemplate (li_itemid i)) as [t|] eqn:Et; [|now apply still_open].
  apply Hopen; auto with talk; congruence.
Qed.
Lemma need_before_greed_quest_item_opens o l ni nq k n : (k < nq)%nat ->
  triple (can_open l true ni nq (S n)) (need_before_greed_quest_item o l k) (fun _ => can_open l true ni nq n).
Proof.
  intros Hk w Hw. exists tt. destruct (round_quest_item l true ni nq n w Hw k Hk) as (loot & i & Hl & Hi & Ht & Hopen).
  unfold need_before_greed_quest_item. at_item Hl Hi. destruct (follow_loot_rules i); cbn [negb]; [|now apply still_open].
  apply Hopen; auto with talk.
Qed.

(** What starting the rolls of a loot needs. *)
Definition loot_ready (l : Z) (known : bool) (w : LootWorld) : Prop :=
  exists loot, lw_loots w !! l = Some loot /\ zlen (items loot) + zlen (quest_items loot) <= 256 /\
    lw_itemGuid w + zlen (items loot) + zlen (quest_items loot) <= 0xFFFFFFFE /\ members_ok (lw_group w) /\
    (known = true -> Forall (fun i => GetItemTemplate (li_itemid i) <> None) (items loot ++ quest_items loot)).
Lemma opens_all l known w loot (step quest_step : nat -> M unit) :
  rolls_ok w -> loot_ready l known w -> lw_loots w !! l = Some loot ->
  (forall ni nq k n, (k < ni)%nat -> triple (can_open l known ni nq (S n)) (step k) (fun _ => can_open l known ni nq n)) ->
  (forall ni nq k n, (k < nq)%nat -> triple (can_open l known ni nq (S n)) (quest_step k) (fun _ => can_open l known ni nq n)) ->
  exists w', (do! for_each (seq 0 (length (items loot))) step in for_each (seq 0 (length (quest_items loot))) quest_step) w = (Ret tt, w') /\
    rolls_ok w'.
Proof.
  intros Hok (loot0 & Hl0 & Hsl & Hg & Hm & Hkn) Hl H1 H2. rewrite Hl in Hl0. injection Hl0 as <-. unfold zlen in *.
  set (ni := length (items loot)) in *. set (nq := length (quest_items loot)) in *.
  assert (Hw : can_open l known ni nq (length (seq 0 ni) + length (seq 0 nq)) w).
  { rewrite !length_seq. split; try done; [|lia]. exists loot. split_and!; try done. intros E. specialize (Hkn E). rewrite <- map_app. now apply Forall_fmap. }
  destruct (triple_for_each (can_open l known ni nq) (seq 0 ni) step (length (seq 0 nq))) with (s := w) as ([] & w1 & E1 & Hw1); [|done|].
  - intros k x [_ Hx]%elem_of_seq. now apply H1.
  - destruct (triple_for_each (can_open l known ni nq) (seq 0 nq) quest_step 0) with (s := w1) as ([] & w2 & E2 & Hw2).
    + intros k x [_ Hx]%elem_of_seq. now apply H2.
    + now rewrite Nat.add_0_r.
    + exists w2. split; [|apply Hw2]. rewrite (bind_eq _ _ _ _ _ E1). exact E2.
Qed.

Lemma GroupLoot_safe l o w : rolls_ok w -> loot_ready l false w -> exists w', GroupLoot l o w = (Ret tt, w') /\ rolls_ok w'.
Proof.
  intros Hok Hr. destruct (id Hr) as (loot & Hl & _). unfold GroupLoot. step (loot_at_eq l loot w Hl).
  apply (opens_all l false w loot); try done; intros; [now apply group_loot_item_opens|now apply group_loot_quest_item_opens].
Qed.
Lemma NeedBeforeGreed_safe l o w : rolls_ok w -> loot_ready l true w -> exists w', NeedBeforeGreed l o w = (Ret tt, w') /\ rolls_ok w'.
Proof.
  intros Hok Hr. destruct (id Hr) as (loot & Hl & _). unfold NeedBeforeGreed. step (loot_at_eq l loot w Hl).
  apply (opens_all l true w loot); try done; intros; [now apply need_before_greed_item_opens|now apply need_before_greed_quest_item_opens].
Qed.

(** ** Clearing a loot *)

Lemma clear_loot_safe l w :
  rolls_ok w -> lw_loots w !! l <> None -> exists w', clear_loot l w = (Ret tt, w') /\ rolls_ok w'.
Proof.
  intros [O1 O2 O3] Hl. destruct (lw_loots w !! l) as [loot|] eqn:El; [|done]. unfold clear_loot.
  step (alter_loot_eq l loot (fun _ => mkLoot [] [] 0 ∅) w El). eexists. split; [reflexivity|].
  set (unlink := fun r => if bool_decide (roll_loot r = Some l) then set_roll_loot None r else r).
  split; [| |done].
  - change (Forall (roll_sound (set_rolls (map unlink (rolls w)) (with_loots (<[l := mkLoot [] [] 0 ∅]> (lw_loots w)) w))) (unlink <$> rolls w)).
    apply Forall_fmap. eapply Forall_impl; [exact O1|]. intros r [H1 H2 H3 H4 H5 H6 H7]. unfold unlink, compose.
    case_bool_decide as Er; (split; try done); [destruct H2; now split|].
    intros k Hk. destruct (H1 k Hk) as (x & it & Hx & Hit). exists x, it. split; [|done]. cbn. rewrite lookup_insert_ne by congruence. done.
  - change (NoDup (itemGUID <$> (unlink <$> rolls w))). rewrite <- list_fmap_compose.
    replace (itemGUID ∘ unlink <$> rolls w) with (itemGUID <$> rolls w); [done|]. apply list_fmap_ext. intros i r _. unfold compose, unlink. now case_bool_decide.
Qed.
(** ** Master loot *)

Definition sessions_ok (g : Group) : Prop :=
  Forall (fun m => exists p, lv_player m = Some p /\ lp_session p = true) (map fst (m_memberMgr g)).
Lemma find_players_eq ms s :
  Forall (fun m => exists p, lv_player m = Some p /\ lp_session p = true) ms ->
  exists members, Forall (fun e => lp_session e.2 = true) members /\ find_players ms s = (Ret members, s).
Proof.
  unfold find_players. assert (Hnil : Forall (fun e : Z * LootPlayer => lp_session e.2 = true) []) by apply Forall_nil_2.
  revert Hnil. generalize (@nil (Z * LootPlayer)). induction ms as [|m ms IH]; intros acc Ha Hms; [now exists acc|].
  apply Forall_cons in Hms as [(p & Ep & Es) Hms].
  destruct (IH (acc ++ [(m, p)])) as (members & H1 & H2); [apply Forall_app; split; [done|now apply Forall_singleton]|done|].
  exists members. split; [done|]. cbn [fold_m]. unfold find_player at 1. rewrite Ep. exact H2.
Qed.
Lemma send_master_list_eq looters es s :
  Forall (fun e : Z * LootPlayer => lp_session e.2 = true) es -> exists more, send_master_list looters es s = (Ret tt, say more s).
Proof.
  revert s. induction es as [|e es IH]; intros s Hes; [exists []; now rewrite say_nil|]. apply Forall_cons in Hes as [He Hes].
  unfold send_master_list. cbn [for_each]. rewrite He.
  destruct (talks_when (lv_near e.1) _ (talks_emit (SMSG_LOOT_MASTER_LIST e.1 (u8 (zlen looters)) looters)) s) as [a Ea].
  destruct (IH (say a s) Hes) as [b Eb]. exists (a ++ b). step Ea. fold (send_master_list looters es). now rewrite Eb, say_say.
Qed.
Lemma MasterLoot_safe l w :
  rolls_ok w -> lw_loots w !! l <> None -> sessions_ok (lw_group w) -> exists w', MasterLoot l w = (Ret tt, w') /\ rolls_ok w'.
Proof.
  intros Hok Hl Hm. destruct (lw_loots w !! l) as [loot|] eqn:El; [|done]. unfold MasterLoot.
  set (f1 := on_items _). set (f2 := on_quest_items _). step (alter_loot_eq l loot f1 w El).
  set (w1 := with_loots _ w). assert (E1 : lw_loots w1 !! l = Some (f1 loot)) by apply lookup_insert_eq. step (alter_loot_eq l (f1 loot) f2 w1 E1).
  set (w2 := with_loots _ w1). rewrite bind_gets. change (lw_group w2) with (lw_group w).
  assert (Hk : loots_kept w w2).
  { apply (loots_kept_insert w w2 l loot (f2 (f1 loot))); [done|cbn; now rewrite insert_insert_eq|].
    split; cbn; rewrite <- list_fmap_compose; apply list_fmap_ext; intros j x _; unfold compose; now case_if. }
  assert (Hok2 : rolls_ok w2) by now apply (rolls_ok_kept w).
  destruct (find_players_eq (map fst (m_memberMgr (lw_group w))) w2 Hm) as (members & Hs & Ef). step Ef.
  destruct (send_master_list_eq (map fst (filter (fun e => lp_in_world e.2 && lv_near e.1 = true) members)) members w2 Hs) as [more Em].
  exists (say more w2). split; [exact Em|]. apply (rolls_ok_kept w2); try done. now apply loots_kept_refl.
Qed.

(** ** Every sequence of operations *)

Inductive LootOp :=
| op_fill (l : Z) (loot : Loot)                      (** a looted object gets its loot *)
| op_group_loot (l : Z) (o : LootedObject)
| op_need_before_greed (l : Z) (o : LootedObject)
| op_master_loot (l : Z)
| op_vote (player guid rollType : Z)
| op_leave (player : Z)
| op_members (ms : list (Z * bool))                  (** references come and go *)
| op_end (l : Z) (allowedMap : option Z)
| op_clear (l : Z).
Definition run_op (op : LootOp) : M unit :=
  match op with
  | op_fill l loot => modify (fun w => with_loots (<[l := loot]> (lw_loots w)) w)
  | op_group_loot l o => GroupLoot l o
  | op_need_before_greed l o => NeedBeforeGreed l o
  | op_master_loot l => MasterLoot l
  | op_vote player guid rollType => HandleLootRoll player guid rollType
  | op_leave player => RemoveFromRolls player
  | op_members ms => modify (fun w => with_group (set_m_memberMgr ms (lw_group w)) w)
  | op_end l allowedMap => EndRoll l allowedMap
  | op_clear l => clear_loot l
  end.
(** A loot is filled when no roll is linked to it. *)
Definition op_allowed (op : LootOp) (w : LootWorld) : Prop :=
  match op with
  | op_fill l _ => Forall (fun r => roll_loot r <> Some l) (rolls w)
  | op_group_loot l _ => loot_ready l false w
  | op_need_before_greed l _ => loot_ready l true w
  | op_master_loot l => lw_loots w !! l <> None /\ sessions_ok (lw_group w)
  | op_clear l => lw_loots w !! l <> None
  | op_vote _ _ _ | op_leave _ | op_members _ | op_end _ _ => True
  end.
Inductive loot_reach : LootWorld -> Prop :=
| reach_start w : rolls w = [] -> 0 <= lw_itemGuid w <= 0xFFFFFFFE -> loot_reach w
| reach_op w op w' : loot_reach w -> op_allowed op w -> run_op op w = (Ret tt, w') -> loot_reach w'.

Lemma run_op_safe op w : rolls_ok w -> op_allowed op w -> exists w', run_op op w = (Ret tt, w') /\ rolls_ok w'.
Proof.
  intros Hok. destruct op as [l loot|l o|l o|l|p g c|p|ms|l am|l]; cbn [run_op op_allowed].
  - intros Hl. eexists. split; [reflexivity|]. destruct Hok as [O1 O2 O3]. split; try done.
    rewrite Forall_forall in Hl. apply Forall_forall. intros r Hr. rewrite Forall_forall in O1.
    destruct (O1 r Hr) as [H1 H2 H3 H4 H5 H6 H7]. split; try done. intros k Hk. cbn. rewrite lookup_insert_ne; [now apply H1|].
    intros ->. now apply (Hl r Hr).
  - now apply GroupLoot_safe.
  - now apply NeedBeforeGreed_safe.
  - intros [Hl Hs]. now apply MasterLoot_safe.
  - intros _. destruct (CountRollVote_safe p g c w Hok) as (w1 & E1 & Hok1 & _). unfold HandleLootRoll. step E1.
    assert (Hsay : forall e, exists w', emit e w1 = (Ret tt, w') /\ rolls_ok w').
    { intros e. exists (say [e] w1). split; [done|]. apply (rolls_ok_kept w1); try done. now apply loots_kept_refl. }
    case_if; [apply Hsay|]. destruct (c =? ROLL_GREED); cbn [when]; [apply Hsay|now exists w1].
  - intros _. destruct (RemoveFromRolls_eq p w Hok) as [E H]. eauto.
  - intros _. eexists. split; [reflexivity|]. apply (rolls_ok_kept w); try done. now apply loots_kept_refl.
  - intros _. destruct (EndRoll_eq l am w Hok) as (w' & E & _ & H). eauto.
  - intros Hl. now apply clear_loot_safe.
Qed.
Lemma reach_ok w : loot_reach w -> rolls_ok w.
Proof.
  induction 1 as [w Hr Hg|w op w' Hw IH Ha E].
  - split; [now rewrite Hr| |done]. rewrite Hr. apply NoDup_nil_2.
  - destruct (run_op_safe op w IH Ha) as (w1 & E1 & H1). rewrite E in E1. now injection E1 as <-.
Qed.
(** ** Repeated votes *)

Lemma CountRollVote_eq p guid c w i r l loot :
  GetRoll guid (rolls w) = Some (i, r) -> playerVote r !! p <> None -> roll_loot r = Some l -> lw_loots w !! l = Some loot -> items loot <> [] ->
  exists more, awards more = [] /\
    CountRollVote p guid c w =
      when (totalPlayersRolling r <=? votes_cast (add_vote p c r)) (CountTheRoll i None)
        (set_rolls (<[i := add_vote p c r]> (rolls w)) (say more w)).
Proof.
  intros Hg Hp Hl Hloot Hne. unfold CountRollVote. rewrite bind_gets, Hg. destruct (playerVote r !! p); [|done]. rewrite Hl.
  step (loot_at_eq l loot w Hloot). rewrite bool_decide_false by done.
  destruct (announce_vote_eq p c r w) as (more & A & Ea). step Ea. step (put_roll_eq i (add_vote p c r) (say more w)). now exists more.
Qed.
Lemma GetRoll_insert guid l i r r' :
  GetRoll guid l = Some (i, r) -> itemGUID r' = itemGUID r -> roll_loot r' = roll_loot r -> GetRoll guid (<[i := r']> l) = Some (i, r').
Proof.
  unfold GetRoll. rewrite !list_find_Some. intros (Hr & [G L] & Hbefore) Eg El. split; [|split].
  - apply list_lookup_insert_eq. now apply lookup_lt_Some in Hr.
  - split; congruence.
  - intros j y Hj Hlt. rewrite list_lookup_insert_ne in Hj by lia. now apply (Hbefore j y).
Qed.

(** The only one who needs wins. *)
Lemma entitled_alone p am (m : gmap Z RollVote) :
  m !! p = Some NEED -> here am p = true -> (forall q v, q <> p -> m !! q = Some v -> v <> NEED) ->
  entitled is_need am (entries Z.le m) = [(p, NEED)].
Proof.
  intros Hp Hh Ho. apply Permutation_singleton_r. apply NoDup_Permutation.
  - apply NoDup_filter. apply (NoDup_fmap_1 fst). apply NoDup_entries_fst.
  - apply NoDup_singleton.
  - intros [q v]. unfold entitled. rewrite list_elem_of_filter, elem_of_entries, list_elem_of_singleton. cbn. split.
    + intros [[Hv Hq]%andb_prop Hm]. destruct v; try discriminate Hv. destruct (decide (q = p)) as [->|Hne]; [done|]. now destruct (Ho q NEED Hne Hm).
    + intros [= -> ->]. now rewrite Hh.
Qed.

Definition nobody_else_needs (p : Z) (r : Roll) : Prop := forall q v, q <> p -> playerVote r !! q = Some v -> v <> NEED.
Lemma add_need_fields p r :
  playerVote (add_vote p ROLL_NEED r) = <[p := NEED]> (playerVote r) /\ votes_cast (add_vote p ROLL_NEED r) = totalPass r + u8 (totalNeed r + 1) + totalGreed r.
Proof. done. Qed.
Lemma nobody_else_kept p r : nobody_else_needs p r -> nobody_else_needs p (add_vote p ROLL_NEED r).
Proof.
  intros H q v Hq. destruct (add_need_fields p r) as [-> _]. rewrite lookup_insert_ne by done. now apply H.
Qed.

Lemma last_vote_wins p guid w i r l loot it :
  rolls_ok w -> GetRoll guid (rolls w) = Some (i, r) -> playerVote r !! p <> None -> nobody_else_needs p r -> here None p = true ->
  roll_loot r = Some l -> lw_loots w !! l = Some loot -> items loot <> [] -> item_in_slot (itemSlot r) loot = Some it ->
  totalPlayersRolling r <= votes_cast r + 1 ->
  exists w' loot' past aw, CountRollVote p guid ROLL_NEED w = (Ret tt, w') /\ rolls w' = base.delete i (rolls w) /\
    lw_loots w' = <[l := loot']> (lw_loots w) /\ awards (lw_trace w') = awards (lw_trace w) ++ aw /\ prize r it p NEED loot loot' past aw.
Proof.
  intros Hok Hg Hp Ho Hh Hl Hloot Hne Hit Hlast. destruct (CountRollVote_eq p guid ROLL_NEED w i r l loot Hg Hp Hl Hloot Hne) as (m1 & A1 & ->).
  apply GetRoll_Some in Hg as (Hr & _ & _). pose proof (rolls_ok_at _ _ _ Hok Hr) as Hs. destruct (playerVote r !! p) as [v|] eqn:Ep; [|done].
  destruct (add_vote_sound w r p v ROLL_NEED Hs Ep) as (T & _ & _ & L & S & I & _ & _).
  pose proof (totals_bound w r Hs) as (B1 & B2 & B3 & B4). destruct (add_need_fields p r) as [V C].
  rewrite (uwrap_id 8 (totalNeed r + 1)) in C by (unfold is_u; change (2 ^ 8) with 256; lia). unfold votes_cast at 1 in Hlast.
  destruct (Z.leb_spec (totalPlayersRolling r) (votes_cast (add_vote p ROLL_NEED r))); [|unfold votes_cast in *; lia]. cbn [when].
  set (w1 := set_rolls _ _).
  assert (Hr1 : rolls w1 !! i = Some (add_vote p ROLL_NEED r)) by (cbn; apply list_lookup_insert_eq; now apply lookup_lt_Some in Hr).
  destruct (count_the_roll w1 i None (add_vote p ROLL_NEED r) l loot it Hr1) as (w' & loot' & more & E & Hc & Hres).
  { split; [congruence|done|congruence|done| |rewrite I; apply (rs_template _ _ Hs)]. rewrite V. apply insert_non_empty. }
  unfold roll_result in Hres. cbn zeta in Hres. rewrite V, (entitled_alone p) in Hres; [|apply lookup_insert_eq|done|].
  2:{ intros q x Hq. rewrite lookup_insert_ne by done. now apply Ho. }
  destruct Hres as (q & x & past & Hw & Hpz). apply winner_in in Hw. apply list_elem_of_singleton in Hw. injection Hw as ->.
  destruct Hc as (D1 & D2 & D3 & _). exists w', loot', past, (awards more). split_and!; try done.
  - rewrite D1. unfold w1, rolls. cbn. apply delete_insert.
  - rewrite D3. cbn. now rewrite !awards_app, A1, app_nil_r.
Qed.

Lemma votes_win k : forall p guid w i r l loot it,
  rolls_ok w -> GetRoll guid (rolls w) = Some (i, r) -> playerVote r !! p <> None -> nobody_else_needs p r -> here None p = true ->
  roll_loot r = Some l -> lw_loots w !! l = Some loot -> items loot <> [] -> item_in_slot (itemSlot r) loot = Some it ->
  totalPlayersRolling r = votes_cast r + Z.of_nat (S k) ->
  exists w' loot' past aw, for_each (replicate (S k) tt) (fun _ => CountRollVote p guid ROLL_NEED) w = (Ret tt, w') /\
    rolls w' = base.delete i (rolls w) /\
    lw_loots w' = <[l := loot']> (lw_loots w) /\ awards (lw_trace w') = awards (lw_trace w) ++ aw /\ prize r it p NEED loot loot' past aw.
Proof.
  induction k as [|k IH]; intros p guid w i r l loot it Hok Hg Hp Ho Hh Hl Hloot Hne Hit Hlast.
  - destruct (last_vote_wins p guid w i r l loot it) as (w' & loot' & past & aw & E & H); try done; [lia|].
    exists w', loot', past, aw. split; [|done]. cbn [replicate for_each]. step E. done.
  - destruct (CountRollVote_eq p guid ROLL_NEED w i r l loot Hg Hp Hl Hloot Hne) as (m1 & A1 & E1).
    destruct (CountRollVote_safe p guid ROLL_NEED w Hok) as (w1 & E2 & Hok1 & _). rewrite E1 in E2.
    pose proof (GetRoll_Some _ _ _ _ Hg) as (Hr & _ & _). pose proof (rolls_ok_at _ _ _ Hok Hr) as Hs.
    pose proof (totals_bound w r Hs) as (B1 & B2 & B3 & B4). destruct (add_need_fields p r) as [V C].
    rewrite (uwrap_id 8 (totalNeed r + 1)) in C by (unfold is_u; change (2 ^ 8) with 256; lia).
    destruct (Z.leb_spec (totalPlayersRolling r) (votes_cast (add_vote p ROLL_NEED r))); [unfold votes_cast in *; lia|]. cbn [when] in E2.
    injection E2 as <-. cbn [when] in E1. set (w1 := set_rolls _ _) in *.
    destruct (IH p guid w1 i (add_vote p ROLL_NEED r) l loot it) as (w' & loot' & past & aw & E & D1 & D2 & D3 & D4); try done.
    + cbn. now apply (GetRoll_insert guid (rolls w) i r).
    + rewrite V, lookup_insert_eq. done.
    + now apply nobody_else_kept.
    + change (totalPlayersRolling (add_vote p ROLL_NEED r)) with (totalPlayersRolling r). rewrite C. unfold votes_cast in Hlast. lia.
    + exists w', loot', past, aw. split; [|split_and!; try done].
      * change (replicate (S (S k)) tt) with (tt :: replicate (S k) tt). cbn [for_each]. step E1. exact E.
      * rewrite D1. unfold w1, rolls. cbn. apply delete_insert.
      * rewrite D3. unfold w1. cbn. now rewrite awards_app, A1, app_nil_r.
Qed.
End Loot.

(** ** Claims *)

(** C30. The rolls are sound after every sequence of the operations: loots are
    filled, rolls are started by either method, the master list is sent, players vote
    with any value, members come, go and leave, rolls are ended and loots cleared, in
    any order.  A linked roll points at an item of its loot, its totals bound the votes
    of their kinds, fewer than 255 votes are cast, and the guids of the rolls differ;
    and the next operation, when allowed, returns: no access outside a loot, no null
    template, no missing roll. *)
Theorem rolls_invariant `{view : LootView} w :
  loot_reach w -> rolls_ok w /\ forall op, op_allowed op w -> exists w', run_op op w = (Ret tt, w') /\ rolls_ok w'.
Proof. intros H%reach_ok. split; [done|]. intros op. now apply run_op_safe. Qed.

(** A member who leaves gives back his votes: every roll keeps its place, loses
    the vote of the member and what it counted for, and the number of its players is
    lowered.  No roll ends by this, also when all who are left have voted: the vote
    is erased before [CountRollVote] is asked, which then finds none. *)
Theorem RemoveFromRolls_correct `{view : LootView} g w :
  rolls_ok w -> RemoveFromRolls g w = (Ret tt, set_rolls (map (left_by g) (rolls w)) w).
Proof.
  intros H. rewrite (proj1 (RemoveFromRolls_eq g w H)). f_equal; f_equal. apply map_ext_in.
  intros r Hr%list_elem_of_In. apply (taken_back_eq w). apply (proj1 (Forall_forall _ _) (ro_sound _ H) r Hr).
Qed.

(** A vote can be repeated, and each time it is counted.  A player with a vote in
    a roll who is in the world, while nobody else has voted need, ends the roll alone
    by voting need as often as votes are missing, and the item is his. *)
Theorem repeat_vote_wins `{view : LootView} p guid w i r l loot it :
  rolls_ok w -> GetRoll guid (rolls w) = Some (i, r) -> playerVote r !! p <> None -> nobody_else_needs p r -> here None p = true ->
  roll_loot r = Some l -> lw_loots w !! l = Some loot -> items loot <> [] -> item_in_slot (itemSlot r) loot = Some it ->
  votes_cast r < totalPlayersRolling r ->
  exists w' loot' past aw,
    for_each (replicate (Z.to_nat (totalPlayersRolling r - votes_cast r)) tt) (fun _ => CountRollVote p guid ROLL_NEED) w = (Ret tt, w') /\
    rolls w' = base.delete i (rolls w) /\ lw_loots w' = <[l := loot']> (lw_loots w) /\
    awards (lw_trace w') = awards (lw_trace w) ++ aw /\ prize r it p NEED loot loot' past aw.
Proof.
  intros. replace (Z.to_nat _) with (S (Z.to_nat (totalPlayersRolling r - votes_cast r - 1))) by lia.
  eapply votes_win; try done. lia.
Qed.

(** Players 1, 2 and 3 may roll, nobody has voted; then 1 and 3 have voted need. *)
Definition loot_sample_open : LootWorld :=
  loot_sample_world [loot_sample_roll {[1 := NOT_EMITED_YET; 2 := NOT_EMITED_YET; 3 := NOT_EMITED_YET]} 0 0].
Definition loot_sample_two : LootWorld :=
  loot_sample_world [loot_sample_roll {[1 := NEED; 2 := NOT_EMITED_YET; 3 := NEED]} 2 0].
Lemma loot_sample_open_ok : @rolls_ok loot_sample_view loot_sample_open /\ @rolls_ok loot_sample_view loot_sample_two.
Proof.
  split; (split; [|apply NoDup_singleton|split; discriminate]); apply Forall_singleton; split; try done.
  1,3: intros l [= <-]; now exists loot_sample_loot, loot_sample_item.
  all: exists 5; split; [split; [discriminate|reflexivity]|reflexivity].
Qed.
Lemma RemoveFromRolls_correct_witness :
  (fun r => (totalPlayersRolling r, votes_cast r)) <$> rolls (snd (@RemoveFromRolls loot_sample_view 2 loot_sample_two)) = [(2, 2)] /\
  @RemoveFromRolls loot_sample_view 2 loot_sample_two = (Ret tt, set_rolls (map (left_by 2) (rolls loot_sample_two)) loot_sample_two).
Proof.
  split; [vm_compute; reflexivity|]. exact (@RemoveFromRolls_correct loot_sample_view 2 loot_sample_two (proj2 loot_sample_open_ok)).
Defined.

Lemma loot_sample_nobody : nobody_else_needs 2 (loot_sample_roll {[1 := NOT_EMITED_YET; 2 := NOT_EMITED_YET; 3 := NOT_EMITED_YET]} 0 0).
Proof.
  intros q v _. cbn. intros Hq. apply lookup_insert_Some in Hq as [[_ <-]|[_ Hq]]; [done|].
  apply lookup_insert_Some in Hq as [[_ <-]|[_ Hq]]; [done|]. apply lookup_singleton_Some in Hq as [_ <-]. done.
Qed.
Lemma repeat_vote_wins_witness :
  awards (lw_trace (snd (for_each [tt; tt; tt] (fun _ => @CountRollVote loot_sample_view 2 (MAKE_NEW_GUID 5 0 HIGHGUID_ITEM) ROLL_NEED) loot_sample_open))) =
    [StoreNewItem 2 49623 0 ∅] /\
  exists w' loot' past aw,
    for_each (replicate 3 tt) (fun _ => @CountRollVote loot_sample_view 2 (MAKE_NEW_GUID 5 0 HIGHGUID_ITEM) ROLL_NEED) loot_sample_open = (Ret tt, w') /\
    rolls w' = [] /\ lw_loots w' = <[7 := loot']> (lw_loots loot_sample_open) /\
    awards (lw_trace w') = awards [] ++ aw /\
    @prize loot_sample_view (loot_sample_roll {[1 := NOT_EMITED_YET; 2 := NOT_EMITED_YET; 3 := NOT_EMITED_YET]} 0 0)
      loot_sample_item 2 NEED loot_sample_loot loot' past aw.
Proof.
  split; [vm_compute; reflexivity|].
  exact (@repeat_vote_wins loot_sample_view 2 (MAKE_NEW_GUID 5 0 HIGHGUID_ITEM) loot_sample_open 0 _ 7 loot_sample_loot loot_sample_item
    (proj1 loot_sample_open_ok) eq_refl ltac:(discriminate) loot_sample_nobody eq_refl eq_refl eq_refl ltac:(discriminate) eq_refl eq_refl).
Defined.

(** A world reached by starting the rolls of a loot: three votes later the item is gone. *)
Definition loot_sample_start : LootWorld :=
  mkLootWorld (set_m_memberMgr [(1, false); (2, false); (3, false)] new_group) {[7 := loot_sample_loot]} 6 ∅ 0 [].
Definition loot_sample_started : LootWorld := snd (@GroupLoot loot_sample_view 7 (mkLootedObject 9 571 true) loot_sample_start).
Lemma loot_sample_ready : @loot_ready loot_sample_view 7 false loot_sample_start.
Proof.
  exists loot_sample_loot. split; [done|]. split; [done|]. split; [done|]. split; [|done]. split; [|done].
  repeat (apply Forall_cons_2; [done|]). apply Forall_nil_2.
Qed.
Lemma loot_sample_starts : @GroupLoot loot_sample_view 7 (mkLootedObject 9 571 true) loot_sample_start = (Ret tt, loot_sample_started).
Proof. vm_compute. reflexivity. Qed.
Lemma rolls_invariant_witness :
  length (rolls loot_sample_started) = 1%nat /\ @rolls_ok loot_sample_view loot_sample_started /\
  exists w', @run_op loot_sample_view (op_vote 2 (MAKE_NEW_GUID 6 0 HIGHGUID_ITEM) ROLL_NEED) loot_sample_started = (Ret tt, w') /\
    @rolls_ok loot_sample_view w'.
Proof.
  assert (R0 : @loot_reach loot_sample_view loot_sample_start) by (apply reach_start; [done|split; discriminate]).
  pose proof (@rolls_invariant loot_sample_view loot_sample_started
    (@reach_op loot_sample_view _ (op_group_loot 7 (mkLootedObject 9 571 true)) _ R0 loot_sample_ready loot_sample_starts)) as [H1 H2].
  split; [vm_compute; reflexivity|]. split; [exact H1|]. exact (H2 (op_vote 2 (MAKE_NEW_GUID 6 0 HIGHGUID_ITEM) ROLL_NEED) I).
Defined.
