(* ===== verification/GroupWorld.v ===== *)
(** * Groups: membership (src/server/game/Groups/Group.cpp, the group part of
    src/server/game/Entities/Player/Player.cpp)

    The state is the heap of groups, the players who are connected, with their
    references to groups, the manager of [GroupMgr], the loots of [GroupLoot], the
    tables [groups] and [group_member], the state of the group scripts and the trace
    of the packets and calls that left.  A reference is in the list of the group it
    points to, as the pair of its player and whether it is his original group.

    The scripts are the class [GroupScripts], which says what the groups rely on;
    the dungeon finder is its instance, in [GroupFinder].  Binds to instances are
    calls in the trace. *)

From stdpp Require Import base gmap list.
From Stdlib Require Import ZArith Lia.
From S2P Require Import Prelude StdMap ObjectGuid LfgData LfgScripts ActionLogic GroupTypes GroupMgr GroupLoot.
#[local] Open Scope Z_scope.

(** ** The scripts *)

(** What a hook may ask the server: who is connected, which groups exist. *)
Record HookView := mkHookView { hv_connected : Z -> bool; hv_group_exists : Z -> bool }.
(** The hooks called by a group; a group is named by its guid.
    [script_ok] is the invariant of the scripts. *)
Class GroupScripts := mkGroupScripts {
  Script : Type;
  OnGroupAddMember : HookView -> Z -> Z -> Z -> Script -> option Script;      (** group, leader, player *)
  OnGroupRemoveMember : HookView -> Z -> bool -> Z -> RemoveMethod -> Z -> option (list Z) ->
    option (Traveller * option GroupView) -> Script -> option Script;
  OnGroupChangeLeader : HookView -> Z -> Z -> Script -> option Script;
  OnGroupDisband : HookView -> Z -> Script -> option Script;
  OnGroupInviteMember : HookView -> Z -> Z -> Script -> option Script;        (** group, leader *)
  lfg_finished : Script -> Z -> bool;
  lfg_dungeon : Script -> Z -> Z;
  lfg_dungeon_map : Script -> Z -> Z;
  script_ok : Script -> Prop
}.

(** ** Players *)

Record GPlayer := mkGPlayer {
  gp_name : list Z;
  gp_group : option Z; gp_subgroup : Z;               (** [m_group] and its sub group *)
  gp_original : option Z; gp_originalSub : Z;         (** [m_originalGroup] *)
  gp_invite : option Z;                               (** [m_groupInvite] *)
  gp_leader : bool;                                   (** [PLAYER_FLAGS_GROUP_LEADER] *)
  gp_dungeonDifficulty : Z; gp_raidDifficulty : Z;
  gp_level : Z; gp_enchanting : Z; gp_in_world : bool; gp_logout : bool
}.
Definition set_gp_group (o : option Z) (p : GPlayer) : GPlayer :=
  mkGPlayer (gp_name p) o (gp_subgroup p) (gp_original p) (gp_originalSub p) (gp_invite p) (gp_leader p)
    (gp_dungeonDifficulty p) (gp_raidDifficulty p) (gp_level p) (gp_enchanting p) (gp_in_world p) (gp_logout p).
Definition set_gp_subgroup (z : Z) (p : GPlayer) : GPlayer :=
  mkGPlayer (gp_name p) (gp_group p) z (gp_original p) (gp_originalSub p) (gp_invite p) (gp_leader p)
    (gp_dungeonDifficulty p) (gp_raidDifficulty p) (gp_level p) (gp_enchanting p) (gp_in_world p) (gp_logout p).
Definition set_gp_original (o : option Z) (p : GPlayer) : GPlayer :=
  mkGPlayer (gp_name p) (gp_group p) (gp_subgroup p) o (gp_originalSub p) (gp_invite p) (gp_leader p)
    (gp_dungeonDifficulty p) (gp_raidDifficulty p) (gp_level p) (gp_enchanting p) (gp_in_world p) (gp_logout p).
Definition set_gp_originalSub (z : Z) (p : GPlayer) : GPlayer :=
  mkGPlayer (gp_name p) (gp_group p) (gp_subgroup p) (gp_original p) z (gp_invite p) (gp_leader p)
    (gp_dungeonDifficulty p) (gp_raidDifficulty p) (gp_level p) (gp_enchanting p) (gp_in_world p) (gp_logout p).
Definition set_gp_invite (o : option Z) (p : GPlayer) : GPlayer :=
  mkGPlayer (gp_name p) (gp_group p) (gp_subgroup p) (gp_original p) (gp_originalSub p) o (gp_leader p)
    (gp_dungeonDifficulty p) (gp_raidDifficulty p) (gp_level p) (gp_enchanting p) (gp_in_world p) (gp_logout p).
Definition set_gp_leader (b : bool) (p : GPlayer) : GPlayer :=
  mkGPlayer (gp_name p) (gp_group p) (gp_subgroup p) (gp_original p) (gp_originalSub p) (gp_invite p) b
    (gp_dungeonDifficulty p) (gp_raidDifficulty p) (gp_level p) (gp_enchanting p) (gp_in_world p) (gp_logout p).
Definition set_gp_dungeonDifficulty (d : Z) (p : GPlayer) : GPlayer :=
  mkGPlayer (gp_name p) (gp_group p) (gp_subgroup p) (gp_original p) (gp_originalSub p) (gp_invite p) (gp_leader p)
    d (gp_raidDifficulty p) (gp_level p) (gp_enchanting p) (gp_in_world p) (gp_logout p).
Definition set_gp_raidDifficulty (d : Z) (p : GPlayer) : GPlayer :=
  mkGPlayer (gp_name p) (gp_group p) (gp_subgroup p) (gp_original p) (gp_originalSub p) (gp_invite p) (gp_leader p)
    (gp_dungeonDifficulty p) d (gp_level p) (gp_enchanting p) (gp_in_world p) (gp_logout p).
(** The reference of a player: to his group, or to his original one. *)
Definition ref_of (original : bool) (p : GPlayer) : option Z := if original then gp_original p else gp_group p.
Definition set_ref (original : bool) (o : option Z) (p : GPlayer) : GPlayer :=
  if original then set_gp_original o p else set_gp_group o p.
Definition set_refSub (original : bool) (z : Z) (p : GPlayer) : GPlayer :=
  if original then set_gp_originalSub z p else set_gp_subgroup z p.

(** ** What leaves *)

(** One line of the list of members: name, guid, state, sub group, flags, roles. *)
Definition ListLine : Type := (list Z * Z * Z * Z * Z * Z)%type.
Inductive GroupEvent :=
| SMSG_GROUP_LIST (to type sub flags roles : Z) (lfg : option (Z * Z)) (guid counter count : Z) (lines : list ListLine)
    (leader : Z) (settings : option (Z * Z * Z * Z * Z * Z))
| SMSG_GROUP_LIST_left (to guid counter : Z)
| SMSG_GROUP_UNINVITE (to : Z)
| SMSG_GROUP_DESTROYED (to : Z)
| SMSG_GROUP_SET_LEADER (to : Z) (name : list Z)
| SMSG_GROUP_INVITE (to flag : Z) (name : list Z)
| SMSG_GROUP_DECLINE (to : Z) (name : list Z)
| SMSG_PARTY_COMMAND_RESULT (to operation : Z) (member : list Z) (res val : Z)
| SMSG_PARTY_MEMBER_STATS (to about : Z)
| UpdateObjectVisibility (player : Z)
| UpdateForQuestWorldObjects (player : Z)
| ForceValuesUpdate (player : Z)
| SendDungeonDifficulty (player : Z)
| SendRaidDifficulty (player : Z)
| ShareFields (player : Z)                          (** the update blocks between a new member and the others *)
| homebindIfInstance (player : Z)
| RevalidateInstance (group player : Z)             (** [m_InstanceValid], by the bind of the group *)
| ConvertInstancesToGroup (player group : Z) (switchLeader : bool)
| UnbindPermanent (group : Z)                       (** the first loop of [ChangeLeader] *)
| PlayerResetInstances (player : Z) (isRaid : bool)
| GroupResetInstances (group : Z) (isRaid : bool)
| StopNow.

(** Players in the world, as the hooks and the distance checks see them. *)
Class GroupOutside := mkGroupOutside {
  go_traveller : Z -> option Traveller;              (** [FindPlayer] *)
  go_place : Z -> Place;
  go_far : Z -> Z -> bool;                           (** not in the map, or not in sight *)
  go_alive : Z -> bool;
  go_mapId : Z -> Z
}.

Record LootRest := mkLootRest {
  lr_loots : gmap Z Loot; lr_itemGuid : Z; lr_timers : gmap Z (Z * Z); lr_drawn : nat; lr_trace : list LootEvent
}.

Section World.
Context `{scripts : GroupScripts}.

Record GW := mkGW {
  w_heap : gmap Z Group;
  w_alloc : Z;                                       (** the next address *)
  w_mgr : GroupMgr;
  w_players : gmap Z GPlayer;
  w_script : Script;
  w_loot : LootRest;
  w_dbGroups : gmap Z GroupRow;
  w_dbMembers : gmap Z MemberRow;
  w_bgRaids : gmap (Z * bool) Z;                     (** [m_BgRaids]: by battleground and side, [true] is the Alliance *)
  w_trace : list GroupEvent
}.
Definition with_heap (h : gmap Z Group) (w : GW) : GW :=
  mkGW h (w_alloc w) (w_mgr w) (w_players w) (w_script w) (w_loot w) (w_dbGroups w) (w_dbMembers w) (w_bgRaids w) (w_trace w).
Definition with_alloc (a : Z) (w : GW) : GW :=
  mkGW (w_heap w) a (w_mgr w) (w_players w) (w_script w) (w_loot w) (w_dbGroups w) (w_dbMembers w) (w_bgRaids w) (w_trace w).
Definition with_mgr (m : GroupMgr) (w : GW) : GW :=
  mkGW (w_heap w) (w_alloc w) m (w_players w) (w_script w) (w_loot w) (w_dbGroups w) (w_dbMembers w) (w_bgRaids w) (w_trace w).
Definition with_players (p : gmap Z GPlayer) (w : GW) : GW :=
  mkGW (w_heap w) (w_alloc w) (w_mgr w) p (w_script w) (w_loot w) (w_dbGroups w) (w_dbMembers w) (w_bgRaids w) (w_trace w).
Definition with_script (s : Script) (w : GW) : GW :=
  mkGW (w_heap w) (w_alloc w) (w_mgr w) (w_players w) s (w_loot w) (w_dbGroups w) (w_dbMembers w) (w_bgRaids w) (w_trace w).
Definition with_loot (l : LootRest) (w : GW) : GW :=
  mkGW (w_heap w) (w_alloc w) (w_mgr w) (w_players w) (w_script w) l (w_dbGroups w) (w_dbMembers w) (w_bgRaids w) (w_trace w).
Definition with_dbGroups (d : gmap Z GroupRow) (w : GW) : GW :=
  mkGW (w_heap w) (w_alloc w) (w_mgr w) (w_players w) (w_script w) (w_loot w) d (w_dbMembers w) (w_bgRaids w) (w_trace w).
Definition with_dbMembers (d : gmap Z MemberRow) (w : GW) : GW :=
  mkGW (w_heap w) (w_alloc w) (w_mgr w) (w_players w) (w_script w) (w_loot w) (w_dbGroups w) d (w_bgRaids w) (w_trace w).
Definition with_gtrace (t : list GroupEvent) (w : GW) : GW :=
  mkGW (w_heap w) (w_alloc w) (w_mgr w) (w_players w) (w_script w) (w_loot w) (w_dbGroups w) (w_dbMembers w) (w_bgRaids w) t.
Definition with_bgRaids (r : gmap (Z * bool) Z) (w : GW) : GW :=
  mkGW (w_heap w) (w_alloc w) (w_mgr w) (w_players w) (w_script w) (w_loot w) (w_dbGroups w) (w_dbMembers w) r (w_trace w).

Definition G (A : Type) : Type := action GW Empty_set A.
Definition tell (e : GroupEvent) : G unit := modify (fun w => with_gtrace (w_trace w ++ [e]) w).
(** A group by its address; the address of a deleted group is not in the heap. *)
Definition group_at (q : Z) : G Group := let! h := gets w_heap in of_option (h !! q).
Definition put_group (q : Z) (g : Group) : G unit := modify (fun w => with_heap (<[q := g]> (w_heap w)) w).
Definition alter_group (q : Z) (f : Group -> Group) : G unit := let! g := group_at q in put_group q (f g).
(** A player object, by his guid. *)
Definition player_at (guid : Z) : G GPlayer := let! ps := gets w_players in of_option (ps !! guid).
Definition put_player (guid : Z) (p : GPlayer) : G unit := modify (fun w => with_players (<[guid := p]> (w_players w)) w).
Definition alter_player (guid : Z) (f : GPlayer -> GPlayer) : G unit := let! p := player_at guid in put_player guid (f p).
(** [FindConnectedPlayer], and [FindPlayer]: who is in the world. *)
Definition FindConnectedPlayer (guid : Z) : G (option GPlayer) := gets (fun w => w_players w !! guid).
Definition in_world (o : option GPlayer) : option GPlayer := p ← o; if gp_in_world p then Some p else None.
Definition FindPlayer (guid : Z) : G (option GPlayer) := gets (fun w => in_world (w_players w !! guid)).
End World.
