(* ===== verification/Group.v ===== *)
(** * Groups: the operations on members (src/server/game/Groups/Group.cpp and the
    references of Player.cpp)

    Every operation is a program on the state [GW] of [GroupWorld], in the order of
    the source.  A null pointer, a freed group or player, a failed [ASSERT] and a
    counter outside its array are [crash]. *)

From stdpp Require Import base gmap list.
From Stdlib Require Import ZArith Lia.
From S2P Require Import Prelude StdMap ObjectGuid LfgData LfgScripts ActionLogic GroupTypes GroupMgr GroupLoot GroupWorld.
#[local] Open Scope Z_scope.

Definition LEVELREQUIREMENT_HEROIC : Z := 70.

Section Ops.
Context `{scripts : GroupScripts} `{outside : GroupOutside} `{loots : LootView}.

(** ** Calls to the scripts *)

Definition hook_view : G HookView :=
  gets (fun w => mkHookView (fun guid => bool_decide (w_players w !! guid <> None))
                            (fun guid => bool_decide (GetGroupByGUID (w_mgr w) (GUID_LOPART guid) <> None))).
Definition run_hook (f : HookView -> Script -> option Script) : G unit :=
  let! v := hook_view in
  let! s := gets w_script in
  let! s' := of_option (f v s) in
  modify (with_script s').
Definition group_view (g : Group) : GroupView :=
  mkGroupView (m_guid g) (m_leaderGuid g) (isLFGGroup g) (GetMembersCount g) (map (fun r => go_place r.1) (m_memberMgr g)).
(** The player who is removed, when he is in the world, and his group. *)
Definition removed_view (guid : Z) : G (option (Traveller * option GroupView)) :=
  let! o := FindPlayer guid in
  match o, go_traveller guid with
  | Some p, Some t =>
    match gp_group p with
    | Some q => let! g := group_at q in ret (Some (t, Some (group_view g)))
    | None => ret (Some (t, None))
    end
  | _, _ => ret None
  end.

(** ** References *)

Definition drop_ref (r : Z * bool) (g : Group) : Group := set_m_memberMgr (filter (fun x => x <> r) (m_memberMgr g)) g.
Definition push_ref (r : Z * bool) (g : Group) : Group := set_m_memberMgr (r :: m_memberMgr g) g.
Definition unlink (guid : Z) (original : bool) : G unit :=
  let! p := player_at guid in
  match ref_of original p with
  | None => ret tt
  | Some q => do! alter_group q (drop_ref (guid, original)) in alter_player guid (set_ref original None)
  end.
Definition link (guid : Z) (original : bool) (q : Z) : G unit :=
  do! unlink guid original in
  do! alter_player guid (set_ref original (Some q)) in
  alter_group q (push_ref (guid, original)).
(** [ASSERT(subgroup >= 0)] of an [int8]. *)
Definition assert_sub (sub : Z) : G unit := if 0 <=? s8 sub then ret tt else crash.
Definition SetGroup (guid q sub : Z) : G unit :=
  do! assert_sub sub in
  do! link guid false q in
  do! alter_player guid (set_refSub false (u8 sub)) in
  tell (UpdateObjectVisibility guid).
Definition SetGroup_null (guid : Z) : G unit := do! unlink guid false in tell (UpdateObjectVisibility guid).
Definition SetOriginalGroup (guid : Z) (q : option Z) (sub : Z) : G unit :=
  match q with
  | None => unlink guid true
  | Some q => do! assert_sub sub in do! link guid true q in alter_player guid (set_refSub true (u8 sub))
  end.
Definition SetBattlegroundOrBattlefieldRaid (guid q sub : Z) : G unit :=
  let! p := player_at guid in
  do! SetOriginalGroup guid (gp_group p) (gp_subgroup p) in
  do! unlink guid false in
  do! link guid false q in
  alter_player guid (set_refSub false (u8 sub)).
Definition RemoveFromBattlegroundOrBattlefieldRaid (guid : Z) : G unit :=
  do! unlink guid false in
  let! p := player_at guid in
  do! match gp_original p with
      | Some q => do! link guid false q in alter_player guid (set_refSub false (gp_originalSub p))
      | None => ret tt
      end in
  SetOriginalGroup guid None (-1).
(** [DelinkMember]: the first reference of the player in the list. *)
Definition DelinkMember (q guid : Z) : G unit :=
  let! g := group_at q in
  match List.find (fun r => r.1 =? guid) (m_memberMgr g) with
  | Some r => unlink guid r.2
  | None => ret tt
  end.
(** The group of a side of a battleground. *)
Definition GetBgRaid (bg : Z) (side : bool) : G (option Z) := gets (fun w => w_bgRaids w !! (bg, side)).
(** The old group of the side forgets the battleground, the new one is told. *)
Definition SetBgRaid (bg : Z) (side : bool) (raid : option Z) : G unit :=
  let! old := GetBgRaid bg side in
  do! match old with Some q => alter_group q (set_m_bgGroup None) | None => ret tt end in
  do! match raid with Some q => alter_group q (set_m_bgGroup (Some bg)) | None => ret tt end in
  modify (fun w => with_bgRaids (match raid with Some q => <[(bg, side) := q]> (w_bgRaids w) | None => base.delete (bg, side) (w_bgRaids w) end) w).
(** What the destructor tells the battleground. *)
Definition leave_battleground (q : Z) : G unit :=
  let! g := group_at q in
  match m_bgGroup g with
  | None => ret tt
  | Some bg =>
    let! alliance := GetBgRaid bg true in
    if bool_decide (alliance = Some q) then SetBgRaid bg true None
    else let! horde := GetBgRaid bg false in when (bool_decide (horde = Some q)) (SetBgRaid bg false None)
  end.
(** [delete]: the battleground is told, and the references that are left are
    invalidated. *)
Definition invalidate (r : Z * bool) : G unit := alter_player r.1 (set_ref r.2 None).
Definition delete_group (q : Z) : G unit :=
  do! leave_battleground q in
  let! g := group_at q in
  do! for_each (m_memberMgr g) invalidate in
  modify (fun w => with_heap (base.delete q (w_heap w)) w).
Definition new_group_object : G Z :=
  let! q := gets w_alloc in
  do! modify (with_alloc (q + 1)) in
  do! put_group q new_group in
  ret q.

(** ** The tables *)

Definition INS_GROUP (r : GroupRow) : G unit :=
  modify (fun w => with_dbGroups (match w_dbGroups w !! r_guid r with None => <[r_guid r := r]> (w_dbGroups w) | Some _ => w_dbGroups w end) w).
Definition alter_dbGroup (store : Z) (f : GroupRow -> GroupRow) : G unit :=
  modify (fun w => with_dbGroups (alter f store (w_dbGroups w)) w).
Definition DEL_GROUP (store : Z) : G unit := modify (fun w => with_dbGroups (base.delete store (w_dbGroups w)) w).
(** The key of the table is the member. *)
Definition INS_GROUP_MEMBER (r : MemberRow) : G unit :=
  modify (fun w => with_dbMembers
    (match w_dbMembers w !! mr_memberGuid r with None => <[mr_memberGuid r := r]> (w_dbMembers w) | Some _ => w_dbMembers w end) w).
Definition DEL_GROUP_MEMBER (low : Z) : G unit := modify (fun w => with_dbMembers (base.delete low (w_dbMembers w)) w).
Definition DEL_GROUP_MEMBER_ALL (store : Z) : G unit :=
  modify (fun w => with_dbMembers (filter (fun e => mr_guid e.2 <> store) (w_dbMembers w)) w).
Definition UPD_GROUP_MEMBER_SUBGROUP (low sub : Z) : G unit :=
  modify (fun w => with_dbMembers (alter (fun r => mkMemberRow (mr_guid r) (mr_memberGuid r) (mr_memberFlags r) sub (mr_roles r)) low (w_dbMembers w)) w).
Definition UPD_GROUP_MEMBER_FLAG (low flags : Z) : G unit :=
  modify (fun w => with_dbMembers (alter (fun r => mkMemberRow (mr_guid r) (mr_memberGuid r) flags (mr_subgroup r) (mr_roles r)) low (w_dbMembers w)) w).
Definition UPD_GROUP_LEADER (store low : Z) : G unit :=
  alter_dbGroup store (fun r => mkGroupRow low (r_lootMethod r) (r_looterGuid r) (r_lootThreshold r) (r_icons r) (r_groupType r)
    (r_difficulty r) (r_raiddifficulty r) (r_masterLooterGuid r) (r_guid r) (r_lfg r)).
Definition UPD_GROUP_TYPE (store type : Z) : G unit :=
  alter_dbGroup store (fun r => mkGroupRow (r_leaderGuid r) (r_lootMethod r) (r_looterGuid r) (r_lootThreshold r) (r_icons r) type
    (r_difficulty r) (r_raiddifficulty r) (r_masterLooterGuid r) (r_guid r) (r_lfg r)).

(** ** Packets *)

Definition online_state (g : Group) (o : option GPlayer) : Z :=
  Z.lor (match o with Some p => if gp_logout p then MEMBER_STATUS_OFFLINE else MEMBER_STATUS_ONLINE | None => MEMBER_STATUS_OFFLINE end)
    (if is_pvp g then MEMBER_STATUS_PVP else 0).
Definition list_line (g : Group) (players : gmap Z GPlayer) (s : MemberSlot) : ListLine :=
  (s_name s, s_guid s, online_state g (players !! s_guid s), s_group s, s_flags s, s_roles s).
(** The list for the player of a slot. *)
Definition group_list (g : Group) (players : gmap Z GPlayer) (s : Script) (to : Z) (slot : MemberSlot) : GroupEvent :=
  SMSG_GROUP_LIST to (u8 (m_groupType g)) (s_group slot) (s_flags slot) (s_roles slot)
    (if isLFGGroup g then Some (if lfg_finished s (m_guid g) then 2 else 0, lfg_dungeon s (m_guid g)) else None)
    (m_guid g) (m_counter g) (u32 (GetMembersCount g - 1))
    (map (list_line g players) (filter (fun x => s_guid x <> s_guid slot) (m_memberSlots g)))
    (m_leaderGuid g)
    (if u32 (GetMembersCount g - 1) =? 0 then None
     else Some (m_lootMethod g, if m_lootMethod g =? MASTER_LOOT then m_masterLooterGuid g else 0, m_lootThreshold g,
                m_dungeonDifficulty g, m_raidDifficulty g, if RAID_DIFFICULTY_10MAN_HEROIC <=? m_raidDifficulty g then 1 else 0)).
Definition SendUpdateToPlayer (q playerGUID : Z) (slot : option MemberSlot) : G unit :=
  let! o := FindConnectedPlayer playerGUID in
  match o with
  | None => ret tt
  | Some p =>
    if negb (bool_decide (gp_group p = Some q)) then ret tt
    else
      let! g := group_at q in
      match (match slot with Some s => Some s | None => getMemberSlot g playerGUID end) with
      | None => ret tt
      | Some s =>
        let! players := gets w_players in
        let! script := gets w_script in
        do! alter_group q (fun g => set_m_counter (u32 (m_counter g + 1)) g) in
        tell (group_list g players script playerGUID s)
      end
  end.
Definition SendUpdate (q : Z) : G unit :=
  let! g := group_at q in for_each (m_memberSlots g) (fun s => SendUpdateToPlayer q (s_guid s) (Some s)).
Definition UpdatePlayerOutOfRange (q guid : Z) : G unit :=
  let! o := FindPlayer guid in
  match o with
  | None => ret tt
  | Some _ =>
    let! g := group_at q in
    for_each (m_memberMgr g) (fun r => when (negb (r.1 =? guid) && go_far guid r.1) (tell (SMSG_PARTY_MEMBER_STATS r.1 guid)))
  end.
(** [BroadcastPacket] to all but those who are in another group now. *)
Definition broadcast_set_leader (q : Z) (name : list Z) : G unit :=
  let! g := group_at q in
  for_each (m_memberMgr g) (fun r =>
    let! p := player_at r.1 in
    when (bool_decide (gp_group p = Some q)) (tell (SMSG_GROUP_SET_LEADER r.1 name))).
Definition BroadcastGroupUpdate (q : Z) : G unit :=
  let! g := group_at q in
  for_each (m_memberSlots g) (fun s =>
    let! o := FindPlayer (s_guid s) in
    match o with Some _ => tell (ForceValuesUpdate (s_guid s)) | None => ret tt end).
Definition ResetMaxEnchantingLevel (q : Z) : G unit :=
  do! alter_group q (set_m_maxEnchantingLevel 0) in
  let! g := group_at q in
  for_each (m_memberSlots g) (fun s =>
    let! o := FindPlayer (s_guid s) in
    match o with
    | Some p => alter_group q (fun g => if m_maxEnchantingLevel g <? gp_enchanting p then set_m_maxEnchantingLevel (gp_enchanting p) g else g)
    | None => ret tt
    end).

(** ** Invitations *)

Definition RemoveInvite (q guid : Z) : G unit :=
  do! alter_group q (fun g => set_m_invitees (m_invitees g ∖ {[guid]}) g) in
  alter_player guid (set_gp_invite None).
Definition RemoveAllInvites (q : Z) : G unit :=
  let! g := group_at q in
  do! for_each (set_order Z.le (m_invitees g)) (fun guid => alter_player guid (set_gp_invite None)) in
  alter_group q (set_m_invitees ∅).
Definition AddInvite (q guid : Z) : G bool :=
  let! p := player_at guid in
  if bool_decide (gp_invite p <> None) then ret false
  else
    let! grp := (match gp_group p with
                 | Some q' => let! g' := group_at q' in ret (if is_pvp g' then gp_original p else Some q')
                 | None => ret None
                 end) in
    if bool_decide (grp <> None) then ret false
    else
      do! RemoveInvite q guid in
      do! alter_group q (fun g => set_m_invitees ({[guid]} ∪ m_invitees g) g) in
      do! alter_player guid (set_gp_invite (Some q)) in
      let! g := group_at q in
      do! run_hook (fun v => OnGroupInviteMember v (m_guid g) (m_leaderGuid g)) in
      ret true.
Definition AddLeaderInvite (q guid : Z) : G bool :=
  let! ok := AddInvite q guid in
  if negb ok then ret false
  else
    let! p := player_at guid in
    do! alter_group q (fun g => set_m_leaderName (gp_name p) (set_m_leaderGuid guid g)) in
    ret true.

(** ** A new member *)

Definition counter (f : Group -> option Group) (q : Z) : G unit :=
  let! g := group_at q in
  let! g := of_option (f g) in
  put_group q g.
(** The references of a player who joins. *)
Definition join_refs (q guid sub : Z) : G unit :=
  let! p := player_at guid in
  let! g := group_at q in
  match gp_group p with
  | Some _ => if is_pvp g then SetBattlegroundOrBattlefieldRaid guid q sub else SetOriginalGroup guid (Some q) sub
  | None => SetGroup guid q sub
  end.
(** He takes over the difficulties of the group. *)
Definition join_difficulties (q guid : Z) : G unit :=
  do! tell (PlayerResetInstances guid false) in
  do! tell (PlayerResetInstances guid true) in
  let! p := player_at guid in
  let! g := group_at q in
  when (LEVELREQUIREMENT_HEROIC <=? gp_level p) (
    do! when (negb (gp_dungeonDifficulty p =? m_dungeonDifficulty g))
          (do! alter_player guid (set_gp_dungeonDifficulty (m_dungeonDifficulty g)) in tell (SendDungeonDifficulty guid)) in
    when (negb (gp_raidDifficulty p =? m_raidDifficulty g))
      (do! alter_player guid (set_gp_raidDifficulty (m_raidDifficulty g)) in tell (SendRaidDifficulty guid))).
Definition first_sub_group (g : Group) : option Z :=
  match m_subGroupsCounts g with None => Some 0 | Some counts => first_free counts end.

Definition AddMember (q guid : Z) : G bool :=
  let! g := group_at q in
  let! p := player_at guid in
  match first_sub_group g with
  | None => ret false
  | Some sub =>
    do! alter_group q (fun g => set_m_memberSlots (m_memberSlots g ++ [mkMemberSlot guid (gp_name p) sub 0 0]) g) in
    do! counter (SubGroupCounterIncrease sub) q in
    do! alter_player guid (set_gp_invite None) in
    do! join_refs q guid sub in
    do! tell (RevalidateInstance q guid) in
    do! when (negb (isRaidGroup g)) (alter_group q (set_m_targetIcons (repeat 0 (Z.to_nat TARGETICONCOUNT)))) in
    do! when (negb (is_pvp g)) (INS_GROUP_MEMBER (mkMemberRow (m_dbStoreId g) (GUID_LOPART guid) 0 sub 0)) in
    do! SendUpdate q in
    let! g := group_at q in
    do! run_hook (fun v => OnGroupAddMember v (m_guid g) (m_leaderGuid g) guid) in
    do! when (negb (IsLeader g guid) && negb (is_pvp g)) (join_difficulties q guid) in
    do! UpdatePlayerOutOfRange q guid in
    do! when (isRaidGroup g) (tell (UpdateForQuestWorldObjects guid)) in
    do! tell (ShareFields guid) in
    do! alter_group q (fun g => if m_maxEnchantingLevel g <? gp_enchanting p then set_m_maxEnchantingLevel (gp_enchanting p) g else g) in
    ret true
  end.

(** ** A new group *)

Definition create_settings (low leader : Z) (p : GPlayer) (g : Group) : option Group :=
  let g := set_m_guid (MAKE_NEW_GUID low 0 HIGHGUID_GROUP) g in
  let g := set_m_leaderName (gp_name p) (set_m_leaderGuid leader g) in
  let g := if is_pvp g then set_m_groupType GROUPTYPE_BGRAID g else g in
  match (if isRaidGroup g then initRaidSubGroupsCounter g else Some g) with
  | None => None
  | Some g =>
    let g := if negb (isLFGGroup g) then set_m_lootMethod GROUP_LOOT g else g in
    let g := set_m_masterLooterGuid 0 (set_m_looterGuid leader (set_m_lootThreshold ITEM_QUALITY_UNCOMMON g)) in
    let g := set_m_raidDifficulty RAID_DIFFICULTY_10MAN_NORMAL (set_m_dungeonDifficulty DUNGEON_DIFFICULTY_NORMAL g) in
    Some (if is_pvp g then g else set_m_raidDifficulty (gp_raidDifficulty p) (set_m_dungeonDifficulty (gp_dungeonDifficulty p) g))
  end.
Definition group_row (g : Group) : GroupRow :=
  mkGroupRow (GUID_LOPART (m_leaderGuid g)) (m_lootMethod g) (GUID_LOPART (m_looterGuid g)) (m_lootThreshold g) (map u32 (m_targetIcons g))
    (m_groupType g) (m_dungeonDifficulty g) (m_raidDifficulty g) (GUID_LOPART (m_masterLooterGuid g)) (m_dbStoreId g) (0, 0).
Definition Create (q leader : Z) : G bool :=
  let! p := player_at leader in
  let! m := gets w_mgr in
  let '(low, bad, m) := GenerateGroupId m in
  do! modify (with_mgr m) in
  do! when bad (tell StopNow) in
  do! counter (create_settings low leader p) q in
  do! alter_player leader (set_gp_leader true) in
  let! g := group_at q in
  if negb (is_pvp g) then
    let! m := gets w_mgr in
    let '(store, bad, m) := GenerateNewGroupDbStoreId m in
    do! when bad (tell StopNow) in
    do! modify (with_mgr (RegisterGroupDbStoreId store q m)) in
    do! alter_group q (set_m_dbStoreId store) in
    let! g := group_at q in
    do! INS_GROUP (group_row g) in
    let! ok := AddMember q leader in
    do! (if ok then ret tt else crash) in
    do! tell (ConvertInstancesToGroup leader q false) in
    ret true
  else AddMember q leader.

(** ** The leader *)

Definition ChangeLeader (q newLeaderGuid : Z) : G unit :=
  let! g := group_at q in
  match getMemberSlot g newLeaderGuid with
  | None => ret tt
  | Some slot =>
    let! o := FindConnectedPlayer (s_guid slot) in
    match o with
    | None => ret tt
    | Some newLeader =>
      do! run_hook (fun v => OnGroupChangeLeader v (m_guid g) newLeaderGuid) in
      do! when (negb (is_pvp g)) (
            do! tell (UnbindPermanent q) in
            do! tell (ConvertInstancesToGroup newLeaderGuid q true) in
            UPD_GROUP_LEADER (m_dbStoreId g) (GUID_LOPART newLeaderGuid)) in
      let! old := FindConnectedPlayer (m_leaderGuid g) in
      do! match old with Some _ => alter_player (m_leaderGuid g) (set_gp_leader false) | None => ret tt end in
      do! alter_player newLeaderGuid (set_gp_leader true) in
      do! alter_group q (fun g => ToggleGroupMemberFlag newLeaderGuid MEMBER_FLAG_ASSISTANT false
                                    (set_m_leaderName (gp_name newLeader) (set_m_leaderGuid newLeaderGuid g))) in
      broadcast_set_leader q (s_name slot)
    end
  end.

(** ** The end of a group *)

(** The references of a member who leaves. *)
Definition leave_refs (q : Z) (pvp : bool) (guid : Z) : G unit :=
  if pvp then RemoveFromBattlegroundOrBattlefieldRaid guid
  else
    let! p := player_at guid in
    if bool_decide (gp_original p = Some q) then SetOriginalGroup guid None (-1) else SetGroup_null guid.
Definition disband_member (q : Z) (hideDestroy : bool) (s : MemberSlot) : G unit :=
  let guid := s_guid s in
  let! o := FindConnectedPlayer guid in
  match o with
  | None => ret tt
  | Some _ =>
    let! g := group_at q in
    do! leave_refs q (is_pvp g) guid in
    do! when (isRaidGroup g) (tell (UpdateForQuestWorldObjects guid)) in
    do! when (negb hideDestroy) (tell (SMSG_GROUP_DESTROYED guid)) in
    let! p := player_at guid in
    do! match gp_group p with
        | Some q' => SendUpdate q'
        | None => tell (SMSG_GROUP_LIST_left guid (m_guid g) (m_counter g))
        end in
    tell (homebindIfInstance guid)
  end.
Definition Disband (q : Z) (hideDestroy : bool) : G unit :=
  let! g := group_at q in
  do! run_hook (fun v => OnGroupDisband v (m_guid g)) in
  do! for_each (m_memberSlots g) (disband_member q hideDestroy) in
  do! alter_group q (fun g => set_m_memberSlots [] (set_RollId [] g)) in
  do! RemoveAllInvites q in
  do! when (negb (is_pvp g)) (
        do! DEL_GROUP (m_dbStoreId g) in
        do! DEL_GROUP_MEMBER_ALL (m_dbStoreId g) in
        do! tell (GroupResetInstances q false) in
        do! tell (GroupResetInstances q true) in
        let! m := gets w_mgr in
        let! m := of_option (FreeGroupDbStoreId (m_dbStoreId g) m) in
        modify (with_mgr m)) in
  do! modify (fun w => with_mgr (RemoveGroup g (w_mgr w)) w) in
  delete_group q.

(** ** A member leaves *)

(** The rolls of [GroupLoot], on a group of the heap. *)
Definition loot_world (g : Group) (l : LootRest) : LootWorld :=
  mkLootWorld g (lr_loots l) (lr_itemGuid l) (lr_timers l) (lr_drawn l) (lr_trace l).
Definition on_rolls (q : Z) (m : GroupLoot.M unit) : G unit :=
  let! g := group_at q in
  let! l := gets w_loot in
  match m (loot_world g l) with
  | (Ret _, lw) =>
    do! put_group q (lw_group lw) in
    modify (with_loot (mkLootRest (lw_loots lw) (lw_itemGuid lw) (lw_timers lw) (lw_drawn lw) (lw_trace lw)))
  | _ => crash
  end.
Definition erase_slot (guid : Z) (q : Z) : G unit :=
  let! g := group_at q in
  match find_slot guid (m_memberSlots g) with
  | None => ret tt
  | Some (i, s) =>
    do! counter (SubGroupCounterDecrease (s_group s)) q in
    alter_group q (fun g => set_m_memberSlots (base.delete i (m_memberSlots g)) g)
  end.
(** The first member who is connected. *)
Definition first_connected (g : Group) (players : gmap Z GPlayer) : option Z :=
  List.find (fun guid => bool_decide (players !! guid <> None)) (map s_guid (m_memberSlots g)).
Definition is_kick (m : RemoveMethod) : bool :=
  match m with GROUP_REMOVEMETHOD_KICK | GROUP_REMOVEMETHOD_KICK_LFG => true | _ => false end.
Definition remove_player (q : Z) (method : RemoveMethod) (g : Group) (guid : Z) : G unit :=
  do! (if is_pvp g then RemoveFromBattlegroundOrBattlefieldRaid guid
       else do! leave_refs q false guid in tell (UpdateForQuestWorldObjects guid)) in
  do! when (is_kick method) (tell (SMSG_GROUP_UNINVITE guid)) in
  do! tell (SMSG_GROUP_LIST_left guid (m_guid g) (m_counter g)) in
  tell (homebindIfInstance guid).
Definition pick_leader (q guid : Z) : G unit :=
  let! g := group_at q in
  let! players := gets w_players in
  when (m_leaderGuid g =? guid)
    (match first_connected g players with Some l => ChangeLeader q l | None => ret tt end).
(** The dungeon of the finder is not where the last one is. *)
Definition lfg_over (q : Z) : G bool :=
  let! g := group_at q in
  if isLFGGroup g && (GetMembersCount g =? 1) then
    let! o := FindConnectedPlayer (m_leaderGuid g) in
    let! s := gets w_script in
    let mapId := lfg_dungeon_map s (m_guid g) in
    ret ((mapId =? 0) || match o with None => true | Some _ => go_alive (m_leaderGuid g) && negb (go_mapId (m_leaderGuid g) =? mapId) end)
  else ret false.

Definition RemoveMember (q guid : Z) (method : RemoveMethod) (kicker : Z) (reason : option (list Z)) : G bool :=
  do! BroadcastGroupUpdate q in
  let! g := group_at q in
  let! view := removed_view guid in
  do! run_hook (fun v => OnGroupRemoveMember v (m_guid g) (isLFGGroup g) guid method kicker reason view) in
  if isLFGGroup g && bool_decide (method = GROUP_REMOVEMETHOD_KICK) then ret (negb (bool_decide (m_memberSlots g = [])))
  else if (if is_pvp g || isLFGGroup g then 1 else 2) <? GetMembersCount g then
    let! o := FindConnectedPlayer guid in
    do! match o with Some _ => remove_player q method g guid | None => ret tt end in
    do! when (negb (is_pvp g)) (do! DEL_GROUP_MEMBER (GUID_LOPART guid) in DelinkMember q guid) in
    do! when (match o with Some p => negb (gp_enchanting p =? 0) | None => true end) (ResetMaxEnchantingLevel q) in
    do! on_rolls q (RemoveFromRolls guid) in
    do! erase_slot guid q in
    do! pick_leader q guid in
    do! SendUpdate q in
    let! over := lfg_over q in
    if over then do! Disband q false in ret false
    else
      let! g := group_at q in
      do! when (zlen (m_memberMgr g) <? (if isLFGGroup g || isBGGroup g then 1 else 2)) (Disband q false) in
      ret true
  else do! Disband q false in ret false.

(** [UninviteFromGroup] of a player. *)
Definition UninviteFromGroup (guid : Z) : G unit :=
  let! p := player_at guid in
  match gp_invite p with
  | None => ret tt
  | Some q =>
    do! RemoveInvite q guid in
    let! g := group_at q in
    when (GetMembersCount g <=? 1)
      (if IsCreated g then Disband q true else do! RemoveAllInvites q in delete_group q)
  end.

(** ** Settings *)

Definition ConvertToLFG (q : Z) : G unit :=
  do! alter_group q (fun g => set_m_lootMethod NEED_BEFORE_GREED
        (set_m_groupType (Z.lor (Z.lor (m_groupType g) GROUPTYPE_LFG) GROUPTYPE_UNK1) g)) in
  let! g := group_at q in
  do! when (negb (is_pvp g)) (UPD_GROUP_TYPE (m_dbStoreId g) (u8 (m_groupType g))) in
  SendUpdate q.
Definition ConvertToRaid (q : Z) : G unit :=
  do! alter_group q (fun g => set_m_groupType (Z.lor (m_groupType g) GROUPTYPE_RAID) g) in
  do! counter initRaidSubGroupsCounter q in
  let! g := group_at q in
  do! when (negb (is_pvp g)) (UPD_GROUP_TYPE (m_dbStoreId g) (u8 (m_groupType g))) in
  do! SendUpdate q in
  for_each (m_memberSlots g) (fun s =>
    let! o := FindPlayer (s_guid s) in
    match o with Some _ => tell (UpdateForQuestWorldObjects (s_guid s)) | None => ret tt end).
Definition ChangeMembersGroup (q guid sub : Z) : G unit :=
  let! g := group_at q in
  if negb (isRaidGroup g) then ret tt
  else
    match getMemberSlot g guid with
    | None => ret tt
    | Some slot =>
      let prevSubGroup := s_group slot in
      if prevSubGroup =? sub then ret tt
      else
        do! alter_group q (alter_slot guid (set_s_group sub)) in
        do! counter (SubGroupCounterIncrease sub) q in
        do! counter (SubGroupCounterDecrease prevSubGroup) q in
        do! when (negb (is_pvp g)) (UPD_GROUP_MEMBER_SUBGROUP (GUID_LOPART guid) sub) in
        let! o := FindConnectedPlayer guid in
        do! match o with
            | Some p => alter_player guid (set_refSub (negb (bool_decide (gp_group p = Some q))) sub)
            | None => ret tt
            end in
        SendUpdate q
    end.
Definition SetGroupMemberFlag (q guid : Z) (apply : bool) (flag : Z) : G unit :=
  let! g := group_at q in
  if negb (isRaidGroup g) then ret tt
  else if negb (bool_decide (getMemberSlot g guid <> None)) then ret tt
  else if negb (bool_decide (flag ∈ [MEMBER_FLAG_MAINASSIST; MEMBER_FLAG_MAINTANK; MEMBER_FLAG_ASSISTANT])) then ret tt
  else
    do! when (negb (flag =? MEMBER_FLAG_ASSISTANT)) (alter_group q (RemoveUniqueGroupMemberFlag flag)) in
    do! alter_group q (ToggleGroupMemberFlag guid flag apply) in
    let! g := group_at q in
    do! match getMemberSlot g guid with Some s => UPD_GROUP_MEMBER_FLAG (GUID_LOPART guid) (s_flags s) | None => crash end in
    SendUpdate q.
End Ops.
