(* ===== verification/GroupFrame.v ===== *)
(** * Groups: who is in the world

    No operation on groups connects a player, nor takes one into the world or out of
    it; that is for the server to do.  [Frames] is compositional, and the operations
    are found to have it by their text alone. *)

From stdpp Require Import base gmap list.
From Stdlib Require Import ZArith.
From S2P Require Import Prelude StdMap ObjectGuid LfgData LfgScripts ActionLogic GroupTypes GroupMgr GroupLoot GroupWorld Group.
#[local] Open Scope Z_scope.

Section Frame.
Context `{scripts : GroupScripts} `{outside : GroupOutside} `{loots : LootView}.

(** Each player who is there afterwards was there before, in the world or not. *)
Definition framed (w w' : GW) : Prop :=
  forall p x', w_players w' !! p = Some x' -> exists x, w_players w !! p = Some x /\ gp_in_world x' = gp_in_world x.
Class Frames {A} (m : G A) : Prop := frames_at : forall w, framed w (m w).2.

#[export] Instance framed_preorder : PreOrder framed.
Proof.
  split; [intros w p x H; now exists x|]. intros w1 w2 w3 H1 H2 p x3 H3. destruct (H2 p x3 H3) as (x2 & E2 & ->). apply (H1 p x2 E2).
Qed.
Lemma frames_bind {A B} (m : G A) (k : A -> G B) : Frames m -> (forall a, Frames (k a)) -> Frames (bind m k).
Proof.
  intros Hm Hk w. specialize (Hm w). unfold bind. destruct (m w) as [[a| |] w1]; cbn [snd] in *; [|done|done].
  transitivity w1; [done|]. apply Hk.
Qed.
Lemma frames_ret {A} (a : A) : Frames (ret a : G A).
Proof. now intros w. Qed.
Lemma frames_crash {A} : Frames (crash : G A).
Proof. now intros w. Qed.
Lemma frames_of_option {A} (o : option A) : Frames (of_option o : G A).
Proof. destruct o; [apply frames_ret|apply frames_crash]. Qed.
Lemma frames_gets {A} (f : GW -> A) : Frames (gets f).
Proof. now intros w. Qed.
Lemma frames_modify (f : GW -> GW) : (forall w, w_players (f w) = w_players w) -> Frames (modify f).
Proof. intros H w p x. cbn. rewrite H. intros E. now exists x. Qed.
Lemma frames_when b (m : G unit) : Frames m -> Frames (when b m).
Proof. destruct b; [done|]. intros _. apply frames_ret. Qed.
Lemma frames_for_each {A} (l : list A) (f : A -> G unit) : (forall x, Frames (f x)) -> Frames (for_each l f).
Proof. intros H. induction l as [|x l IH]; cbn [for_each]; [apply frames_ret|]. now apply frames_bind. Qed.
Lemma frames_fold {A B} (f : B -> A -> G B) (l : list A) b : (forall b x, Frames (f b x)) -> Frames (fold_m f l b).
Proof. intros H. revert b. induction l as [|x l IH]; intros b; cbn [fold_m]; [apply frames_ret|]. now apply frames_bind. Qed.
Lemma frames_alter_player p f : (forall x, gp_in_world (f x) = gp_in_world x) -> Frames (alter_player p f).
Proof.
  intros Hf w. unfold alter_player, player_at. unfold bind at 1. unfold bind at 1. cbn. destruct (w_players w !! p) as [x|] eqn:E; cbn; [|done].
  intros j y Hj. cbn in Hj. apply lookup_insert_Some in Hj as [[<- <-]|[_ Hj]]; [now exists x|now exists y].
Qed.
End Frame.

Ltac frame_step :=
  match goal with
  | |- forall _, _ => intro
  | |- Frames (bind _ _) => apply frames_bind
  | |- Frames (ret _) => apply frames_ret
  | |- Frames crash => apply frames_crash
  | |- Frames (of_option _) => apply frames_of_option
  | |- Frames (gets _) => apply frames_gets
  | |- Frames (when _ _) => apply frames_when
  | |- Frames (for_each _ _) => apply frames_for_each
  | |- Frames (modify _) => apply frames_modify; reflexivity
  | |- Frames (match ?x with _ => _ end) => destruct x
  | |- Frames (let _ := _ in _) => cbv zeta
  | |- Frames (alter_player _ _) => apply frames_alter_player; intros; reflexivity
  | |- Frames _ => solve [apply _]
  end.
Tactic Notation "by_frames" reference(d) := intros; unfold d; repeat frame_step.

Section Operations.
Context `{scripts : GroupScripts} `{outside : GroupOutside} `{loots : LootView}.

#[export] Instance frames_set_ref p b o : Frames (alter_player p (set_ref b o)).
Proof. apply frames_alter_player. intros. now destruct b. Qed.
#[export] Instance frames_set_refSub p b z : Frames (alter_player p (set_refSub b z)).
Proof. apply frames_alter_player. intros. now destruct b. Qed.
#[export] Instance frames_tell a : Frames (tell a).
Proof. by_frames tell. Qed.
#[export] Instance frames_group_at a : Frames (group_at a).
Proof. by_frames group_at. Qed.
#[export] Instance frames_put_group a b : Frames (put_group a b).
Proof. by_frames put_group. Qed.
#[export] Instance frames_player_at a : Frames (player_at a).
Proof. by_frames player_at. Qed.
#[export] Instance frames_alter_group a b : Frames (alter_group a b).
Proof. by_frames alter_group. Qed.
#[export] Instance frames_FindConnectedPlayer a : Frames (FindConnectedPlayer a).
Proof. by_frames FindConnectedPlayer. Qed.
#[export] Instance frames_FindPlayer a : Frames (FindPlayer a).
Proof. by_frames FindPlayer. Qed.
#[export] Instance frames_hook_view : Frames (hook_view).
Proof. by_frames hook_view. Qed.
#[export] Instance frames_run_hook a : Frames (run_hook a).
Proof. by_frames run_hook. Qed.
#[export] Instance frames_removed_view a : Frames (removed_view a).
Proof. by_frames removed_view. Qed.
#[export] Instance frames_unlink a b : Frames (unlink a b).
Proof. by_frames unlink. Qed.
#[export] Instance frames_link a b c : Frames (link a b c).
Proof. by_frames link. Qed.
#[export] Instance frames_assert_sub a : Frames (assert_sub a).
Proof. by_frames assert_sub. Qed.
#[export] Instance frames_SetGroup a b c : Frames (SetGroup a b c).
Proof. by_frames SetGroup. Qed.
#[export] Instance frames_SetGroup_null a : Frames (SetGroup_null a).
Proof. by_frames SetGroup_null. Qed.
#[export] Instance frames_SetOriginalGroup a b c : Frames (SetOriginalGroup a b c).
Proof. by_frames SetOriginalGroup. Qed.
#[export] Instance frames_SetBattlegroundOrBattlefieldRaid a b c : Frames (SetBattlegroundOrBattlefieldRaid a b c).
Proof. by_frames SetBattlegroundOrBattlefieldRaid. Qed.
#[export] Instance frames_RemoveFromBattlegroundOrBattlefieldRaid a : Frames (RemoveFromBattlegroundOrBattlefieldRaid a).
Proof. by_frames RemoveFromBattlegroundOrBattlefieldRaid. Qed.
#[export] Instance frames_DelinkMember a b : Frames (DelinkMember a b).
Proof. by_frames DelinkMember. Qed.
#[export] Instance frames_GetBgRaid a b : Frames (GetBgRaid a b).
Proof. by_frames GetBgRaid. Qed.
#[export] Instance frames_SetBgRaid a b c : Frames (SetBgRaid a b c).
Proof. by_frames SetBgRaid. Qed.
#[export] Instance frames_leave_battleground a : Frames (leave_battleground a).
Proof. by_frames leave_battleground. Qed.
#[export] Instance frames_invalidate a : Frames (invalidate a).
Proof. by_frames invalidate. Qed.
#[export] Instance frames_delete_group a : Frames (delete_group a).
Proof. by_frames delete_group. Qed.
#[export] Instance frames_new_group_object : Frames (new_group_object).
Proof. by_frames new_group_object. Qed.
#[export] Instance frames_INS_GROUP a : Frames (INS_GROUP a).
Proof. by_frames INS_GROUP. Qed.
#[export] Instance frames_alter_dbGroup a b : Frames (alter_dbGroup a b).
Proof. by_frames alter_dbGroup. Qed.
#[export] Instance frames_DEL_GROUP a : Frames (DEL_GROUP a).
Proof. by_frames DEL_GROUP. Qed.
#[export] Instance frames_INS_GROUP_MEMBER a : Frames (INS_GROUP_MEMBER a).
Proof. by_frames INS_GROUP_MEMBER. Qed.
#[export] Instance frames_DEL_GROUP_MEMBER a : Frames (DEL_GROUP_MEMBER a).
Proof. by_frames DEL_GROUP_MEMBER. Qed.
#[export] Instance frames_DEL_GROUP_MEMBER_ALL a : Frames (DEL_GROUP_MEMBER_ALL a).
Proof. by_frames DEL_GROUP_MEMBER_ALL. Qed.
#[export] Instance frames_UPD_GROUP_LEADER a b : Frames (UPD_GROUP_LEADER a b).
Proof. by_frames UPD_GROUP_LEADER. Qed.
#[export] Instance frames_UPD_GROUP_TYPE a b : Frames (UPD_GROUP_TYPE a b).
Proof. by_frames UPD_GROUP_TYPE. Qed.
#[export] Instance frames_SendUpdateToPlayer a b c : Frames (SendUpdateToPlayer a b c).
Proof. by_frames SendUpdateToPlayer. Qed.
#[export] Instance frames_SendUpdate a : Frames (SendUpdate a).
Proof. by_frames SendUpdate. Qed.
#[export] Instance frames_UpdatePlayerOutOfRange a b : Frames (UpdatePlayerOutOfRange a b).
Proof. by_frames UpdatePlayerOutOfRange. Qed.
#[export] Instance frames_broadcast_set_leader a b : Frames (broadcast_set_leader a b).
Proof. by_frames broadcast_set_leader. Qed.
#[export] Instance frames_BroadcastGroupUpdate a : Frames (BroadcastGroupUpdate a).
Proof. by_frames BroadcastGroupUpdate. Qed.
#[export] Instance frames_ResetMaxEnchantingLevel a : Frames (ResetMaxEnchantingLevel a).
Proof. by_frames ResetMaxEnchantingLevel. Qed.
#[export] Instance frames_RemoveAllInvites a : Frames (RemoveAllInvites a).
Proof. by_frames RemoveAllInvites. Qed.
#[export] Instance frames_counter a b : Frames (counter a b).
Proof. by_frames counter. Qed.
#[export] Instance frames_join_refs a b c : Frames (join_refs a b c).
Proof. by_frames join_refs. Qed.
#[export] Instance frames_join_difficulties a b : Frames (join_difficulties a b).
Proof. by_frames join_difficulties. Qed.
#[export] Instance frames_AddMember a b : Frames (AddMember a b).
Proof. by_frames AddMember. Qed.
#[export] Instance frames_Create a b : Frames (Create a b).
Proof. by_frames Create. Qed.
#[export] Instance frames_ChangeLeader a b : Frames (ChangeLeader a b).
Proof. by_frames ChangeLeader. Qed.
#[export] Instance frames_leave_refs a b c : Frames (leave_refs a b c).
Proof. by_frames leave_refs. Qed.
#[export] Instance frames_disband_member a b c : Frames (disband_member a b c).
Proof. by_frames disband_member. Qed.
#[export] Instance frames_Disband a b : Frames (Disband a b).
Proof. by_frames Disband. Qed.
#[export] Instance frames_on_rolls a b : Frames (on_rolls a b).
Proof. by_frames on_rolls. Qed.
#[export] Instance frames_erase_slot a b : Frames (erase_slot a b).
Proof. by_frames erase_slot. Qed.
#[export] Instance frames_remove_player a b c d : Frames (remove_player a b c d).
Proof. by_frames remove_player. Qed.
#[export] Instance frames_pick_leader a b : Frames (pick_leader a b).
Proof. by_frames pick_leader. Qed.
#[export] Instance frames_lfg_over a : Frames (lfg_over a).
Proof. by_frames lfg_over. Qed.
#[export] Instance frames_RemoveMember a b c d e : Frames (RemoveMember a b c d e).
Proof. by_frames RemoveMember. Qed.
#[export] Instance frames_ConvertToLFG a : Frames (ConvertToLFG a).
Proof. by_frames ConvertToLFG. Qed.
End Operations.
