(* ===== verification/GroupCore.v ===== *)
(** * Groups: what the operations do to memberships

    [core] is the state without what no other operation asks for: names, flags and
    roles of members, icons, counters of packets, difficulties, the trace.  Every
    operation of [Group] that returns does to the core what a short function of this
    file says; the claims of [GroupInv] are about these functions. *)

From stdpp Require Import base gmap list.
From Stdlib Require Import ZArith Lia.
From S2P Require Import Prelude StdMap ObjectGuid LfgData LfgScripts ActionLogic GroupTypes GroupMgr GroupLoot GroupLootInv GroupWorld Group.
#[local] Open Scope Z_scope.

(** ** The core *)

Record GroupCore := mkGroupCore {
  c_slots : list (Z * Z);                 (** guid and sub group of each member *)
  c_refs : list (Z * bool);
  c_leader : Z;
  c_invitees : gset Z;
  c_counts : option (list Z);
  c_guid : Z; c_store : Z;
  c_pvp : bool; c_bg : option Z; c_raid : bool; c_lfg : bool;
  c_rolls : list Roll
}.
Record PlayerCore := mkPlayerCore { pc_group : option Z; pc_sub : Z; pc_original : option Z; pc_osub : Z; pc_invite : option Z }.

Definition slot_core (s : MemberSlot) : Z * Z := (s_guid s, s_group s).
Definition group_core (g : Group) : GroupCore :=
  mkGroupCore (map slot_core (m_memberSlots g)) (m_memberMgr g) (m_leaderGuid g) (m_invitees g) (m_subGroupsCounts g)
    (m_guid g) (m_dbStoreId g) (is_pvp g) (m_bgGroup g) (isRaidGroup g) (isLFGGroup g) (RollId g).
Definition player_core (p : GPlayer) : PlayerCore :=
  mkPlayerCore (gp_group p) (gp_subgroup p) (gp_original p) (gp_originalSub p) (gp_invite p).
Definition member_core (r : MemberRow) : Z * Z := (mr_guid r, mr_subgroup r).

Definition pc_ref (original : bool) (p : PlayerCore) : option Z := if original then pc_original p else pc_group p.
Definition pc_set_ref (original : bool) (o : option Z) (p : PlayerCore) : PlayerCore :=
  if original then mkPlayerCore (pc_group p) (pc_sub p) o (pc_osub p) (pc_invite p)
  else mkPlayerCore o (pc_sub p) (pc_original p) (pc_osub p) (pc_invite p).
Definition pc_set_sub (original : bool) (z : Z) (p : PlayerCore) : PlayerCore :=
  if original then mkPlayerCore (pc_group p) (pc_sub p) (pc_original p) z (pc_invite p)
  else mkPlayerCore (pc_group p) z (pc_original p) (pc_osub p) (pc_invite p).
Definition pc_set_invite (o : option Z) (p : PlayerCore) : PlayerCore :=
  mkPlayerCore (pc_group p) (pc_sub p) (pc_original p) (pc_osub p) o.
Definition c_set_slots (l : list (Z * Z)) (g : GroupCore) : GroupCore :=
  mkGroupCore l (c_refs g) (c_leader g) (c_invitees g) (c_counts g) (c_guid g) (c_store g) (c_pvp g) (c_bg g) (c_raid g) (c_lfg g) (c_rolls g).
Definition c_set_refs (l : list (Z * bool)) (g : GroupCore) : GroupCore :=
  mkGroupCore (c_slots g) l (c_leader g) (c_invitees g) (c_counts g) (c_guid g) (c_store g) (c_pvp g) (c_bg g) (c_raid g) (c_lfg g) (c_rolls g).
Definition c_set_leader (z : Z) (g : GroupCore) : GroupCore :=
  mkGroupCore (c_slots g) (c_refs g) z (c_invitees g) (c_counts g) (c_guid g) (c_store g) (c_pvp g) (c_bg g) (c_raid g) (c_lfg g) (c_rolls g).
Definition c_set_invitees (s : gset Z) (g : GroupCore) : GroupCore :=
  mkGroupCore (c_slots g) (c_refs g) (c_leader g) s (c_counts g) (c_guid g) (c_store g) (c_pvp g) (c_bg g) (c_raid g) (c_lfg g) (c_rolls g).
Definition c_set_counts (o : option (list Z)) (g : GroupCore) : GroupCore :=
  mkGroupCore (c_slots g) (c_refs g) (c_leader g) (c_invitees g) o (c_guid g) (c_store g) (c_pvp g) (c_bg g) (c_raid g) (c_lfg g) (c_rolls g).
Definition c_set_rolls (l : list Roll) (g : GroupCore) : GroupCore :=
  mkGroupCore (c_slots g) (c_refs g) (c_leader g) (c_invitees g) (c_counts g) (c_guid g) (c_store g) (c_pvp g) (c_bg g) (c_raid g) (c_lfg g) l.

Create HintDb quiet.

Section Core.
Context `{scripts : GroupScripts} `{outside : GroupOutside} `{loots : LootView}.

Record Core := mkCore {
  k_groups : gmap Z GroupCore;
  k_alloc : Z;
  k_mgr : GroupMgr;
  k_players : gmap Z PlayerCore;
  k_script : Script;
  k_loot : LootRest;
  k_dbGroups : gset Z;
  k_dbMembers : gmap Z (Z * Z);
  k_bgRaids : gmap (Z * bool) Z
}.
Definition core (w : GW) : Core :=
  mkCore (group_core <$> w_heap w) (w_alloc w) (w_mgr w) (player_core <$> w_players w) (w_script w) (w_loot w)
    (dom (w_dbGroups w)) (member_core <$> w_dbMembers w) (w_bgRaids w).
Definition k_with_groups (h : gmap Z GroupCore) (c : Core) : Core :=
  mkCore h (k_alloc c) (k_mgr c) (k_players c) (k_script c) (k_loot c) (k_dbGroups c) (k_dbMembers c) (k_bgRaids c).
Definition k_with_alloc (a : Z) (c : Core) : Core :=
  mkCore (k_groups c) a (k_mgr c) (k_players c) (k_script c) (k_loot c) (k_dbGroups c) (k_dbMembers c) (k_bgRaids c).
Definition k_with_mgr (m : GroupMgr) (c : Core) : Core :=
  mkCore (k_groups c) (k_alloc c) m (k_players c) (k_script c) (k_loot c) (k_dbGroups c) (k_dbMembers c) (k_bgRaids c).
Definition k_with_players (p : gmap Z PlayerCore) (c : Core) : Core :=
  mkCore (k_groups c) (k_alloc c) (k_mgr c) p (k_script c) (k_loot c) (k_dbGroups c) (k_dbMembers c) (k_bgRaids c).
Definition k_with_script (s : Script) (c : Core) : Core :=
  mkCore (k_groups c) (k_alloc c) (k_mgr c) (k_players c) s (k_loot c) (k_dbGroups c) (k_dbMembers c) (k_bgRaids c).
Definition k_with_dbGroups (d : gset Z) (c : Core) : Core :=
  mkCore (k_groups c) (k_alloc c) (k_mgr c) (k_players c) (k_script c) (k_loot c) d (k_dbMembers c) (k_bgRaids c).
Definition k_with_dbMembers (d : gmap Z (Z * Z)) (c : Core) : Core :=
  mkCore (k_groups c) (k_alloc c) (k_mgr c) (k_players c) (k_script c) (k_loot c) (k_dbGroups c) d (k_bgRaids c).
Definition k_on_group (q : Z) (f : GroupCore -> GroupCore) (c : Core) : Core := k_with_groups (alter f q (k_groups c)) c.
Definition k_on_player (p : Z) (f : PlayerCore -> PlayerCore) (c : Core) : Core := k_with_players (alter f p (k_players c)) c.

(** ** Running on the core *)

(** [m] returns [a] and leaves the core [c]. *)
Definition runs {A} (m : G A) (w : GW) (a : A) (c : Core) : Prop := exists w', m w = (Ret a, w') /\ core w' = c.

Lemma runs_bind {A B} (m : G A) (k : A -> G B) w a b c1 c2 :
  runs m w a c1 -> (forall w1, core w1 = c1 -> runs (k a) w1 b c2) -> runs (bind m k) w b c2.
Proof. intros (w1 & E1 & H1) Hk. destruct (Hk w1 H1) as (w2 & E2 & H2). exists w2. split; [|done]. now rewrite (bind_eq _ _ _ _ _ E1). Qed.
Lemma runs_ret {A} (a : A) w : runs (ret a) w a (core w).
Proof. now exists w. Qed.
Lemma runs_tell e w : runs (tell e) w tt (core w).
Proof. eexists. split; [reflexivity|]. done. Qed.
Lemma runs_when (b : bool) (m : G unit) w c : (b = true -> runs m w tt c) -> (b = false -> c = core w) -> runs (when b m) w tt c.
Proof. destruct b; cbn [when]; intros H1 H2; [now apply H1|]. rewrite (H2 eq_refl). apply runs_ret. Qed.

(** A program that leaves the core [c] alone. *)
Definition quiet (c : Core) (m : G unit) : Prop := forall w, core w = c -> runs m w tt c.
Lemma quiet_ret c : quiet c (ret tt).
Proof. intros w <-. apply runs_ret. Qed.
Lemma quiet_tell c e : quiet c (tell e).
Proof. intros w <-. apply runs_tell. Qed.
Lemma quiet_bind c m (k : unit -> G unit) : quiet c m -> quiet c (k tt) -> quiet c (bind m k).
Proof. intros Hm Hk w Hw. apply runs_bind with (a := tt) (c1 := c); [now apply Hm|]. intros w1 H1. now apply Hk. Qed.
Lemma quiet_gets {A} c (f : GW -> A) (k : A -> G unit) : (forall w, core w = c -> quiet c (k (f w))) -> quiet c (bind (gets f) k).
Proof. intros Hk w Hw. destruct (Hk w Hw w Hw) as (w' & E & H). exists w'. now rewrite bind_gets. Qed.
Lemma quiet_when c (b : bool) m : (b = true -> quiet c m) -> quiet c (when b m).
Proof. destruct b; cbn [when]; intros H; [now apply H|apply quiet_ret]. Qed.
Lemma quiet_for_each {A} c (l : list A) (f : A -> G unit) : (forall x, x ∈ l -> quiet c (f x)) -> quiet c (for_each l f).
Proof.
  induction l as [|x l IH]; intros H; [apply quiet_ret|]. apply quiet_bind; [apply H; left|]. apply IH. intros y Hy. apply H. now right.
Qed.

Lemma heap_core w q gc : k_groups (core w) !! q = Some gc -> exists g, w_heap w !! q = Some g /\ group_core g = gc.
Proof. cbn. rewrite lookup_fmap_Some. naive_solver. Qed.
Lemma player_core_at w p pc : k_players (core w) !! p = Some pc -> exists x, w_players w !! p = Some x /\ player_core x = pc.
Proof. cbn. rewrite lookup_fmap_Some. naive_solver. Qed.
Lemma group_at_eq w q g : w_heap w !! q = Some g -> group_at q w = (Ret g, w).
Proof. intros H. unfold group_at. rewrite bind_gets, H. done. Qed.
Lemma player_at_eq w p x : w_players w !! p = Some x -> player_at p w = (Ret x, w).
Proof. intros H. unfold player_at. rewrite bind_gets, H. done. Qed.

(** A change of a group whose effect on its core is [fc]. *)
Lemma runs_alter_group w q f fc gc :
  k_groups (core w) !! q = Some gc -> (forall g, group_core g = gc -> group_core (f g) = fc gc) ->
  runs (alter_group q f) w tt (k_on_group q fc (core w)).
Proof.
  intros Hq Hf. destruct (heap_core w q gc Hq) as (g & Hg & Eg). unfold alter_group.
  eexists. split; [rewrite (bind_eq _ _ _ _ _ (group_at_eq w q g Hg)); reflexivity|].
  unfold core, k_on_group, k_with_groups. cbn. f_equal. rewrite fmap_insert, (Hf g Eg). apply map_eq. intros j.
  destruct (decide (j = q)) as [->|Hne].
  - rewrite lookup_insert_eq, lookup_alter_eq, lookup_fmap, Hg. cbn. now rewrite Eg.
  - now rewrite lookup_insert_ne, lookup_alter_ne.
Qed.
Lemma k_on_group_id q c f gc : k_groups c !! q = Some gc -> f gc = gc -> k_on_group q f c = c.
Proof.
  intros Hq Hf. unfold k_on_group, k_with_groups. replace (alter f q (k_groups c)) with (k_groups c); [now destruct c|].
  apply map_eq. intros j. destruct (decide (j = q)) as [->|Hne]; [rewrite lookup_alter_eq, Hq; cbn; now rewrite Hf|now rewrite lookup_alter_ne].
Qed.
Lemma runs_same_group w q f gc :
  k_groups (core w) !! q = Some gc -> (forall g, group_core (f g) = group_core g) -> runs (alter_group q f) w tt (core w).
Proof.
  intros Hq Hf. rewrite <- (k_on_group_id q (core w) (fun x => x) gc Hq eq_refl).
  apply (runs_alter_group w q f (fun x => x) gc Hq). intros g <-. apply Hf.
Qed.
Lemma runs_alter_player w p f fc pc :
  k_players (core w) !! p = Some pc -> (forall x, player_core x = pc -> player_core (f x) = fc pc) ->
  runs (alter_player p f) w tt (k_on_player p fc (core w)).
Proof.
  intros Hp Hf. destruct (player_core_at w p pc Hp) as (x & Hx & Ex). unfold alter_player.
  eexists. split; [rewrite (bind_eq _ _ _ _ _ (player_at_eq w p x Hx)); reflexivity|].
  unfold core, k_on_player, k_with_players. cbn. f_equal. rewrite fmap_insert, (Hf x Ex). apply map_eq. intros j.
  destruct (decide (j = p)) as [->|Hne].
  - rewrite lookup_insert_eq, lookup_alter_eq, lookup_fmap, Hx. cbn. now rewrite Ex.
  - now rewrite lookup_insert_ne, lookup_alter_ne.
Qed.
Lemma k_on_player_id p c f pc : k_players c !! p = Some pc -> f pc = pc -> k_on_player p f c = c.
Proof.
  intros Hq Hf. unfold k_on_player, k_with_players. replace (alter f p (k_players c)) with (k_players c); [now destruct c|].
  apply map_eq. intros j. destruct (decide (j = p)) as [->|Hne]; [rewrite lookup_alter_eq, Hq; cbn; now rewrite Hf|now rewrite lookup_alter_ne].
Qed.
Lemma runs_same_player w p f pc :
  k_players (core w) !! p = Some pc -> (forall x, player_core (f x) = player_core x) -> runs (alter_player p f) w tt (core w).
Proof.
  intros Hq Hf. rewrite <- (k_on_player_id p (core w) (fun x => x) pc Hq eq_refl).
  apply (runs_alter_player w p f (fun x => x) pc Hq). intros g <-. apply Hf.
Qed.
(** ** References *)

Definition sub_ok (z : Z) : Prop := 0 <= z < 128.
(** Players and groups point at each other. *)
Record Links (c : Core) : Prop := mk_Links {
  ln_to : forall p pc b q, k_players c !! p = Some pc -> pc_ref b pc = Some q -> exists gc, k_groups c !! q = Some gc /\ (p, b) ∈ c_refs gc;
  ln_from : forall q gc p b, k_groups c !! q = Some gc -> (p, b) ∈ c_refs gc -> exists pc, k_players c !! p = Some pc /\ pc_ref b pc = Some q;
  ln_once : forall q gc, k_groups c !! q = Some gc -> NoDup (c_refs gc);
  ln_subs : forall p pc, k_players c !! p = Some pc -> sub_ok (pc_sub pc) /\ sub_ok (pc_osub pc)
}.

Definition c_drop (r : Z * bool) (g : GroupCore) : GroupCore := c_set_refs (filter (fun x => x <> r) (c_refs g)) g.
Definition c_push (r : Z * bool) (g : GroupCore) : GroupCore := c_set_refs (r :: c_refs g) g.
(** The reference of a player is in no group any more. *)
Definition c_unlink (p : Z) (b : bool) (c : Core) : Core :=
  k_on_player p (pc_set_ref b None) (k_with_groups (c_drop (p, b) <$> k_groups c) c).
Definition c_link (p : Z) (b : bool) (q : Z) (c : Core) : Core :=
  k_on_group q (c_push (p, b)) (k_on_player p (pc_set_ref b (Some q)) (c_unlink p b c)).
Definition c_join (p : Z) (b : bool) (q sub : Z) (c : Core) : Core := k_on_player p (pc_set_sub b sub) (c_link p b q c).

Lemma c_drop_none r gc : r ∉ c_refs gc -> c_drop r gc = gc.
Proof.
  intros H. unfold c_drop. rewrite filter_all; [now destruct gc|]. intros x Hx ->. done.
Qed.
Lemma pc_set_ref_none b pc : pc_ref b pc = None -> pc_set_ref b None pc = pc.
Proof. destruct b, pc; cbn; now intros ->. Qed.
Lemma pc_ref_set b b' o pc : pc_ref b (pc_set_ref b' o pc) = if decide (b = b') then o else pc_ref b pc.
Proof. destruct b, b'; done. Qed.
Lemma pc_ref_set_sub b b' z pc : pc_ref b (pc_set_sub b' z pc) = pc_ref b pc.
Proof. now destruct b, b'. Qed.
Lemma pc_ref_set_invite b o pc : pc_ref b (pc_set_invite o pc) = pc_ref b pc.
Proof. now destruct b. Qed.

Lemma elem_of_c_drop x r gc : x ∈ c_refs (c_drop r gc) <-> x <> r /\ x ∈ c_refs gc.
Proof. unfold c_drop. cbn. rewrite list_elem_of_filter. done. Qed.
Lemma Links_unlink p b c : Links c -> Links (c_unlink p b c).
Proof.
  intros [H1 H2 H3 H4]. split; unfold c_unlink, k_on_player, k_with_players, k_with_groups; cbn.
  - intros p' pc b' q Hp Hr. destruct (decide (p' = p)) as [->|Hne].
    + rewrite lookup_alter_eq in Hp. destruct (k_players c !! p) as [pc0|] eqn:E0; [|done]. injection Hp as <-.
      rewrite pc_ref_set in Hr. case_decide as Eb; [done|]. destruct (H1 p pc0 b' q E0 Hr) as (gc & Hg & Hin).
      exists (c_drop (p, b) gc). rewrite lookup_fmap, Hg. split; [done|]. apply elem_of_c_drop. split; [congruence|done].
    + rewrite lookup_alter_ne in Hp by done. destruct (H1 p' pc b' q Hp Hr) as (gc & Hg & Hin).
      exists (c_drop (p, b) gc). rewrite lookup_fmap, Hg. split; [done|]. apply elem_of_c_drop. split; [congruence|done].
  - intros q gc p' b' Hg Hin. apply lookup_fmap_Some in Hg as (gc0 & <- & Hg). apply elem_of_c_drop in Hin as [Hne Hin].
    destruct (H2 q gc0 p' b' Hg Hin) as (pc & Hp & Hr). destruct (decide (p' = p)) as [->|Hpne].
    + exists (pc_set_ref b None pc). rewrite lookup_alter_eq, Hp. split; [done|]. rewrite pc_ref_set. case_decide; [congruence|done].
    + exists pc. now rewrite lookup_alter_ne.
  - intros q gc Hg. apply lookup_fmap_Some in Hg as (gc0 & <- & Hg). cbn. apply NoDup_filter. now apply (H3 q).
  - intros p' pc Hp. apply lookup_alter_Some in Hp as [(-> & pc0 & Hp & ->)|[_ Hp]]; [|now apply (H4 p')].
    pose proof (H4 p' pc0 Hp). now destruct b.
Qed.
Lemma unlink_not_linked p b c pc : k_players (c_unlink p b c) !! p = Some pc -> pc_ref b pc = None.
Proof.
  cbn. rewrite lookup_alter_eq. destruct (k_players c !! p) as [pc0|]; [|done]. cbn. intros [= <-]. rewrite pc_ref_set. now case_decide.
Qed.
Lemma Links_link p b q c :
  Links c -> k_players c !! p <> None -> k_groups c !! q <> None -> Links (c_link p b q c).
Proof.
  intros HL Hp Hq. pose proof (Links_unlink p b c HL) as [H1 H2 H3 H4]. unfold c_link. set (c1 := c_unlink p b c) in *.
  destruct (k_players c1 !! p) as [pc1|] eqn:Ep; [|exfalso; cbn in Ep; rewrite lookup_alter_eq in Ep; now destruct (k_players c !! p)].
  destruct (k_groups c1 !! q) as [g1|] eqn:Eq; [|exfalso; cbn in Eq; rewrite lookup_fmap in Eq; now destruct (k_groups c !! q)].
  pose proof (unlink_not_linked p b c pc1 Ep) as Hn.
  split; unfold k_on_group, k_on_player, k_with_players, k_with_groups; cbn [k_groups k_players].
  - intros p' pc b' q' Hp' Hr. destruct (decide (p' = p)) as [->|Hne].
    + rewrite lookup_alter_eq, Ep in Hp'. injection Hp' as <-. rewrite pc_ref_set in Hr. case_decide as Eb.
      * injection Hr as <-. subst b'. exists (c_push (p, b) g1). rewrite lookup_alter_eq, Eq. split; [done|]. cbn. left.
      * destruct (H1 p pc1 b' q' Ep Hr) as (gc & Hg & Hin). destruct (decide (q' = q)) as [->|Hqne].
        -- exists (c_push (p, b) g1). rewrite lookup_alter_eq, Eq. split; [done|]. cbn. right. congruence.
        -- exists gc. now rewrite lookup_alter_ne.
    + rewrite lookup_alter_ne in Hp' by done. destruct (H1 p' pc b' q' Hp' Hr) as (gc & Hg & Hin). destruct (decide (q' = q)) as [->|Hqne].
      * exists (c_push (p, b) g1). rewrite lookup_alter_eq, Eq. split; [done|]. cbn. right. congruence.
      * exists gc. now rewrite lookup_alter_ne.
  - intros q' gc p' b' Hg Hin.
    assert (Hcase : (p', b') = (p, b) /\ q' = q \/ exists g0, k_groups c1 !! q' = Some g0 /\ (p', b') ∈ c_refs g0).
    { destruct (decide (q' = q)) as [->|Hqne].
      - rewrite lookup_alter_eq, Eq in Hg. injection Hg as <-. cbn in Hin. apply elem_of_cons in Hin as [E|Hin]; [now left|right; now exists g1].
      - rewrite lookup_alter_ne in Hg by done. right. now exists gc. }
    destruct Hcase as [[[= -> ->] ->]|(g0 & Hg0 & Hin0)].
    + exists (pc_set_ref b (Some q) pc1). rewrite lookup_alter_eq, Ep. split; [done|]. rewrite pc_ref_set. now case_decide.
    + destruct (H2 q' g0 p' b' Hg0 Hin0) as (pc & Hpc & Hr). destruct (decide (p' = p)) as [->|Hne].
      * rewrite Ep in Hpc. injection Hpc as <-. exists (pc_set_ref b (Some q) pc1). rewrite lookup_alter_eq, Ep. split; [done|].
        rewrite pc_ref_set. case_decide as Eb; [subst b'; congruence|done].
      * exists pc. now rewrite lookup_alter_ne.
  - intros q' gc Hg. destruct (decide (q' = q)) as [->|Hqne].
    + rewrite lookup_alter_eq, Eq in Hg. injection Hg as <-. cbn. apply NoDup_cons. split; [|now apply (H3 q)].
      intros Hin. destruct (H2 q g1 p b Eq Hin) as (pc & Hpc & Hr). rewrite Ep in Hpc. injection Hpc as <-. congruence.
    + rewrite lookup_alter_ne in Hg by done. now apply (H3 q').
  - intros p' pc Hp'. apply lookup_alter_Some in Hp' as [(-> & pc0 & Hp' & ->)|[_ Hp']]; [|now apply (H4 p')].
    pose proof (H4 p' pc0 Hp'). now destruct b.
Qed.

Lemma drop_elsewhere c p b q pc :
  Links c -> k_players c !! p = Some pc -> pc_ref b pc = Some q ->
  c_drop (p, b) <$> k_groups c = alter (c_drop (p, b)) q (k_groups c).
Proof.
  intros HL Hp Hr. apply map_eq. intros j. rewrite lookup_fmap. destruct (decide (j = q)) as [->|Hne]; [now rewrite lookup_alter_eq|].
  rewrite lookup_alter_ne by done. destruct (k_groups c !! j) as [gc|] eqn:Eg; [|done]. cbn. rewrite c_drop_none; [done|].
  intros Hin. destruct (ln_from c HL j gc p b Eg Hin) as (pc' & Hp' & Hr'). congruence.
Qed.
Lemma drop_nowhere c p b pc :
  Links c -> k_players c !! p = Some pc -> pc_ref b pc = None -> c_drop (p, b) <$> k_groups c = k_groups c.
Proof.
  intros HL Hp Hr. apply map_eq. intros j. rewrite lookup_fmap. destruct (k_groups c !! j) as [gc|] eqn:Eg; [|done]. cbn.
  rewrite c_drop_none; [done|]. intros Hin. destruct (ln_from c HL j gc p b Eg Hin) as (pc' & Hp' & Hr'). congruence.
Qed.

Lemma ref_of_core b x : pc_ref b (player_core x) = ref_of b x.
Proof. now destruct b. Qed.
Lemma set_ref_core b o x : player_core (set_ref b o x) = pc_set_ref b o (player_core x).
Proof. now destruct b. Qed.
Lemma set_refSub_core b z x : player_core (set_refSub b z x) = pc_set_sub b z (player_core x).
Proof. now destruct b. Qed.

Lemma runs_unlink w p b : Links (core w) -> k_players (core w) !! p <> None -> runs (unlink p b) w tt (c_unlink p b (core w)).
Proof.
  intros HL Hp. destruct (k_players (core w) !! p) as [pc|] eqn:Ep; [|done]. clear Hp.
  destruct (player_core_at w p pc Ep) as (x & Hx & Ex). unfold unlink.
  assert (E1 := player_at_eq w p x Hx). destruct (ref_of b x) as [q|] eqn:Er.
  - assert (Hr : pc_ref b pc = Some q) by (rewrite <- Ex; now rewrite ref_of_core).
    destruct (ln_to _ HL p pc b q Ep Hr) as (gc & Hg & _).
    assert (R : runs (do! alter_group q (drop_ref (p, b)) in alter_player p (set_ref b None)) w tt (c_unlink p b (core w))).
    { apply runs_bind with (a := tt) (c1 := k_on_group q (c_drop (p, b)) (core w)).
      - now apply (runs_alter_group w q _ _ gc); [|intros g <-].
      - intros w1 H1. unfold c_unlink. rewrite (drop_elsewhere (core w) p b q pc HL Ep Hr).
        change (k_with_groups (alter (c_drop (p, b)) q (k_groups (core w))) (core w)) with (k_on_group q (c_drop (p, b)) (core w)). rewrite <- H1.
        apply (runs_alter_player w1 p _ _ pc); [rewrite H1; exact Ep|intros y <-; apply set_ref_core]. }
    destruct R as (w' & E & H). exists w'. split; [|done]. rewrite (bind_eq _ _ _ _ _ E1), Er. exact E.
  - assert (Hr : pc_ref b pc = None) by (rewrite <- Ex; now rewrite ref_of_core).
    exists w. split; [rewrite (bind_eq _ _ _ _ _ E1), Er; reflexivity|]. unfold c_unlink. rewrite (drop_nowhere (core w) p b pc HL Ep Hr).
    replace (k_with_groups (k_groups (core w)) (core w)) with (core w) by done.
    symmetry. apply (k_on_player_id p (core w) _ pc Ep). now apply pc_set_ref_none.
Qed.
Lemma runs_link w p b q :
  Links (core w) -> k_players (core w) !! p <> None -> k_groups (core w) !! q <> None -> runs (link p b q) w tt (c_link p b q (core w)).
Proof.
  intros HL Hp Hq. unfold link. apply runs_bind with (a := tt) (c1 := c_unlink p b (core w)); [now apply runs_unlink|]. intros w1 H1.
  assert (Hp1 : exists pc1, k_players (core w1) !! p = Some pc1).
  { rewrite H1. cbn. rewrite lookup_alter_eq. cbn in Hp. destruct (player_core <$> w_players w !! p) eqn:E; rewrite lookup_fmap, ?E; [|rewrite lookup_fmap in Hp; done].
    cbn. now eexists. }
  destruct Hp1 as [pc1 Hp1].
  assert (Hq1 : exists g1, k_groups (core w1) !! q = Some g1).
  { rewrite H1. change (exists g1, (c_drop (p, b) <$> k_groups (core w)) !! q = Some g1). rewrite lookup_fmap. destruct (k_groups (core w) !! q); [now eexists|done]. }
  destruct Hq1 as [g1 Hq1].
  apply runs_bind with (a := tt) (c1 := k_on_player p (pc_set_ref b (Some q)) (core w1)).
  - apply (runs_alter_player w1 p _ _ pc1 Hp1). intros y <-. apply set_ref_core.
  - intros w2 H2. unfold c_link. rewrite <- H1, <- H2. apply (runs_alter_group w2 q _ _ g1); [rewrite H2; exact Hq1|now intros g <-].
Qed.
Lemma runs_join w p b q sub :
  Links (core w) -> k_players (core w) !! p <> None -> k_groups (core w) !! q <> None ->
  runs (do! link p b q in alter_player p (set_refSub b sub)) w tt (c_join p b q sub (core w)).
Proof.
  intros HL Hp Hq. apply runs_bind with (a := tt) (c1 := c_link p b q (core w)); [now apply runs_link|]. intros w1 H1.
  destruct (k_players (core w1) !! p) as [pc1|] eqn:E1.
  2:{ exfalso. rewrite H1 in E1. unfold c_link, c_unlink, k_on_group, k_on_player, k_with_players, k_with_groups in E1. cbn [k_players] in E1.
      rewrite !lookup_alter_eq in E1. now destruct (k_players (core w) !! p). }
  unfold c_join. rewrite <- H1. apply (runs_alter_player w1 p _ _ pc1 E1). intros y <-. apply set_refSub_core.
Qed.
(** ** Where the references point *)

Definition rf (c : Core) (p : Z) (b : bool) : option Z := k_players c !! p ≫= pc_ref b.
Definition norefs (c : Core) : gmap Z GroupCore := c_set_refs [] <$> k_groups c.
Definition invite (c : Core) (p : Z) : option (option Z) := pc_invite <$> k_players c !! p.
(** Only references, and sub groups kept with them, differ. *)
Record refs_only (c c' : Core) : Prop := mk_refs_only {
  ro_groups : norefs c' = norefs c;
  ro_invite : forall p, invite c' p = invite c p;
  ro_links : Links c';
  ro_rest : k_alloc c' = k_alloc c /\ k_mgr c' = k_mgr c /\ k_script c' = k_script c /\ k_loot c' = k_loot c /\
            k_dbGroups c' = k_dbGroups c /\ k_dbMembers c' = k_dbMembers c /\ k_bgRaids c' = k_bgRaids c
}.
Lemma refs_only_refl c : Links c -> refs_only c c.
Proof. now split. Qed.
Lemma refs_only_trans c1 c2 c3 : refs_only c1 c2 -> refs_only c2 c3 -> refs_only c1 c3.
Proof.
  intros [A1 A2 _ A4] [B1 B2 B3 B4]. split; [congruence| |done|].
  - intros p. now rewrite B2, A2.
  - destruct A4 as (? & ? & ? & ? & ? & ? & ?), B4 as (? & ? & ? & ? & ? & ? & ?). split_and!; congruence.
Qed.
Lemma invite_connected c p : k_players c !! p <> None <-> invite c p <> None.
Proof. unfold invite. destruct (k_players c !! p); naive_solver. Qed.
Lemma ro_connected c c' p : refs_only c c' -> k_players c !! p <> None -> k_players c' !! p <> None.
Proof. intros H. rewrite !invite_connected. now rewrite (ro_invite _ _ H). Qed.
Lemma norefs_at c q : k_groups c !! q <> None <-> norefs c !! q <> None.
Proof. unfold norefs. rewrite lookup_fmap. destruct (k_groups c !! q); naive_solver. Qed.
Lemma ro_group c c' q : refs_only c c' -> k_groups c !! q <> None -> k_groups c' !! q <> None.
Proof. intros H. rewrite !norefs_at. now rewrite (ro_groups _ _ H). Qed.

Lemma refs_only_unlink c p b : Links c -> refs_only c (c_unlink p b c).
Proof.
  intros HL. split; [| |now apply Links_unlink|done].
  - unfold norefs. cbn. rewrite <- map_fmap_compose. apply map_fmap_ext. intros. now unfold compose.
  - intros p'. unfold invite. cbn. destruct (decide (p' = p)) as [->|]; [|now rewrite lookup_alter_ne].
    rewrite lookup_alter_eq. destruct (k_players c !! p) as [pc|]; [|done]. now destruct b, pc.
Qed.
Lemma rf_unlink c p b p' b' : rf (c_unlink p b c) p' b' = if decide ((p', b') = (p, b)) then None else rf c p' b'.
Proof.
  unfold rf. cbn. destruct (decide (p' = p)) as [->|Hne].
  - rewrite lookup_alter_eq. destruct (k_players c !! p) as [pc|]; cbn; [|now case_decide].
    rewrite pc_ref_set. repeat case_decide; congruence.
  - rewrite lookup_alter_ne by done. case_decide; congruence.
Qed.
Lemma rf_join c p b q sub p' b' : k_players c !! p <> None ->
  rf (c_join p b q sub c) p' b' = if decide ((p', b') = (p, b)) then Some q else rf c p' b'.
Proof.
  intros Hp. unfold rf, c_join, c_link, c_unlink. cbn. destruct (decide (p' = p)) as [->|Hne].
  - rewrite !lookup_alter_eq. destruct (k_players c !! p) as [pc|]; [|done]. cbn. rewrite pc_ref_set_sub, !pc_ref_set.
    repeat case_decide; congruence.
  - rewrite !lookup_alter_ne by done. case_decide; congruence.
Qed.
Lemma refs_only_join c p b q sub :
  Links c -> k_players c !! p <> None -> k_groups c !! q <> None -> sub_ok sub -> refs_only c (c_join p b q sub c).
Proof.
  intros HL Hp Hq Hsub. split; [| | |done].
  - unfold norefs. cbn. apply map_eq. intros j. rewrite !lookup_fmap. destruct (decide (j = q)) as [->|Hne].
    + rewrite lookup_alter_eq, lookup_fmap. now destruct (k_groups c !! q).
    + rewrite lookup_alter_ne, lookup_fmap by done. now destruct (k_groups c !! j).
  - intros p'. unfold invite. cbn. destruct (decide (p' = p)) as [->|]; [|now rewrite !lookup_alter_ne].
    rewrite !lookup_alter_eq. destruct (k_players c !! p) as [pc|]; [|done]. now destruct b, pc.
  - pose proof (Links_link p b q c HL Hp Hq) as [L1 L2 L3 L4]. unfold c_join. set (c1 := c_link p b q c) in *. split; cbn [k_groups k_players k_on_player k_with_players].
    + intros p' pc b' q' Hp' Hr. destruct (decide (p' = p)) as [->|Hne].
      * rewrite lookup_alter_eq in Hp'. destruct (k_players c1 !! p) as [pc1|] eqn:E1; [|done]. injection Hp' as <-.
        rewrite pc_ref_set_sub in Hr. now apply (L1 p pc1).
      * rewrite lookup_alter_ne in Hp' by done. now apply (L1 p' pc).
    + intros q' gc p' b' Hg Hin. destruct (L2 q' gc p' b' Hg Hin) as (pc & Hpc & Hr). destruct (decide (p' = p)) as [->|Hne].
      * exists (pc_set_sub b sub pc). rewrite lookup_alter_eq, Hpc. split; [done|]. now rewrite pc_ref_set_sub.
      * exists pc. now rewrite lookup_alter_ne.
    + exact L3.
    + intros p' pc Hp'. apply lookup_alter_Some in Hp' as [(-> & pc0 & Hp' & ->)|[_ Hp']]; [|now apply (L4 p')].
      pose proof (L4 p' pc0 Hp') as [? ?]. now destruct b.
Qed.

(** [m] returns and only references differ, which then point as [R] says. *)
Definition relinks {A} (m : G A) (w : GW) (a : A) (R : Z -> bool -> option Z) : Prop :=
  exists w', m w = (Ret a, w') /\ refs_only (core w) (core w') /\ forall p b, rf (core w') p b = R p b.
Lemma relinks_runs {A} (m : G A) w a c (R : Z -> bool -> option Z) :
  runs m w a c -> refs_only (core w) c -> (forall p b, rf c p b = R p b) -> relinks m w a R.
Proof. intros (w' & E & <-) H1 H2. now exists w'. Qed.
Lemma relinks_bind {A B} (m : G A) (k : A -> G B) w a b R1 R2 :
  relinks m w a R1 ->
  (forall w1, refs_only (core w) (core w1) -> (forall p b, rf (core w1) p b = R1 p b) -> relinks (k a) w1 b R2) -> relinks (bind m k) w b R2.
Proof.
  intros (w1 & E1 & H1 & F1) Hk. destruct (Hk w1 H1 F1) as (w2 & E2 & H2 & F2). exists w2. split; [now rewrite (bind_eq _ _ _ _ _ E1)|].
  split; [now apply (refs_only_trans _ (core w1))|done].
Qed.
Lemma relinks_quiet {A} (m : G A) w a R : Links (core w) -> runs m w a (core w) -> (forall p b, rf (core w) p b = R p b) -> relinks m w a R.
Proof. intros HL H1 H2. apply (relinks_runs m w a (core w)); [done|now apply refs_only_refl|done]. Qed.

Lemma relinks_unlink w p b :
  Links (core w) -> k_players (core w) !! p <> None ->
  relinks (unlink p b) w tt (fun p' b' => if decide ((p', b') = (p, b)) then None else rf (core w) p' b').
Proof.
  intros HL Hp. apply (relinks_runs _ _ _ (c_unlink p b (core w))); [now apply runs_unlink|now apply refs_only_unlink|]. intros. apply rf_unlink.
Qed.
Lemma relinks_join w p b q sub :
  Links (core w) -> k_players (core w) !! p <> None -> k_groups (core w) !! q <> None -> sub_ok sub ->
  relinks (do! link p b q in alter_player p (set_refSub b sub)) w tt (fun p' b' => if decide ((p', b') = (p, b)) then Some q else rf (core w) p' b').
Proof.
  intros HL Hp Hq Hs. apply (relinks_runs _ _ _ (c_join p b q sub (core w))); [now apply runs_join|now apply refs_only_join|].
  intros. now apply rf_join.
Qed.
Lemma bind_assoc {A B C} (m : G A) (f : A -> G B) (g : B -> G C) w : bind (bind m f) g w = bind m (fun a => bind (f a) g) w.
Proof. unfold bind. destruct (m w) as [[a|e|] s]; done. Qed.
Lemma relinks_eq {A} (m m' : G A) w a R : m w = m' w -> relinks m' w a R -> relinks m w a R.
Proof. intros E (w' & E' & H). exists w'. now rewrite E. Qed.

Lemma u8_sub z : sub_ok z -> u8 z = z.
Proof. intros H. apply uwrap_id. unfold is_u, sub_ok in *. change (2 ^ 8) with 256. lia. Qed.
Lemma assert_sub_eq z w : sub_ok z -> assert_sub z w = (Ret tt, w).
Proof.
  intros H. unfold assert_sub, sub_ok in *. assert (E : s8 z = z) by (apply swrap_id; unfold is_s; change (2 ^ (8 - 1)) with 128; lia).
  rewrite E. destruct (Z.leb_spec 0 z); [done|lia].
Qed.
Lemma relinks_SetGroup w p q sub :
  Links (core w) -> k_players (core w) !! p <> None -> k_groups (core w) !! q <> None -> sub_ok sub ->
  relinks (SetGroup p q sub) w tt (fun p' b' => if decide ((p', b') = (p, false)) then Some q else rf (core w) p' b').
Proof.
  intros HL Hp Hq Hs. unfold SetGroup. eapply relinks_eq; [apply (bind_eq _ _ _ _ _ (assert_sub_eq sub w Hs))|].
  eapply relinks_eq; [symmetry; apply bind_assoc|]. eapply relinks_bind; [apply (relinks_join w p false q (u8 sub)); try done; now rewrite u8_sub|].
  intros w1 H1 F1. apply relinks_quiet; [apply H1|apply runs_tell|done].
Qed.
Lemma relinks_SetGroup_null w p :
  Links (core w) -> k_players (core w) !! p <> None ->
  relinks (SetGroup_null p) w tt (fun p' b' => if decide ((p', b') = (p, false)) then None else rf (core w) p' b').
Proof.
  intros HL Hp. unfold SetGroup_null. eapply relinks_bind; [now apply relinks_unlink|].
  intros w1 H1 F1. apply relinks_quiet; [apply H1|apply runs_tell|done].
Qed.
Lemma relinks_SetOriginalGroup w p o sub :
  Links (core w) -> k_players (core w) !! p <> None -> (forall q, o = Some q -> k_groups (core w) !! q <> None /\ sub_ok sub) ->
  relinks (SetOriginalGroup p o sub) w tt (fun p' b' => if decide ((p', b') = (p, true)) then o else rf (core w) p' b').
Proof.
  intros HL Hp Ho. unfold SetOriginalGroup. destruct o as [q|]; [|now apply relinks_unlink]. destruct (Ho q eq_refl) as [Hq Hs].
  eapply relinks_eq; [apply (bind_eq _ _ _ _ _ (assert_sub_eq sub w Hs))|]. apply relinks_join; try done. now rewrite u8_sub.
Qed.
(** The references of a player after he joins a battleground group, and after he
    leaves it. *)
Lemma rf_at w p x b : w_players w !! p = Some x -> rf (core w) p b = ref_of b x.
Proof. intros H. unfold rf. cbn. rewrite lookup_fmap, H. cbn. apply ref_of_core. Qed.
Lemma connected_at w p : k_players (core w) !! p <> None -> exists x, w_players w !! p = Some x.
Proof. cbn. rewrite lookup_fmap. destruct (w_players w !! p); [now eexists|done]. Qed.
Lemma rf_live c p b q : Links c -> rf c p b = Some q -> k_groups c !! q <> None.
Proof.
  intros HL. unfold rf. destruct (k_players c !! p) as [pc|] eqn:E; [|done]. cbn. intros Hr.
  destruct (ln_to c HL p pc b q E Hr) as (gc & -> & _). done.
Qed.
Lemma subs_at w p x : Links (core w) -> w_players w !! p = Some x -> sub_ok (gp_subgroup x) /\ sub_ok (gp_originalSub x).
Proof. intros HL Hx. apply (ln_subs _ HL p (player_core x)). cbn. now rewrite lookup_fmap, Hx. Qed.

Lemma relinks_SetBattleground w p q sub :
  Links (core w) -> k_players (core w) !! p <> None -> k_groups (core w) !! q <> None -> sub_ok sub ->
  relinks (SetBattlegroundOrBattlefieldRaid p q sub) w tt
    (fun p' b' => if decide (p' = p) then (if b' then rf (core w) p false else Some q) else rf (core w) p' b').
Proof.
  intros HL Hp Hq Hs. destruct (connected_at w p Hp) as [x Hx]. unfold SetBattlegroundOrBattlefieldRaid.
  eapply relinks_eq; [apply (bind_eq _ _ _ _ _ (player_at_eq w p x Hx))|].
  pose proof (rf_at w p x false Hx) as Ex. cbn in Ex. destruct (subs_at w p x HL Hx) as [Hsx _].
  eapply relinks_bind.
  { apply relinks_SetOriginalGroup; [done|done|]. intros q0 E0. split; [|done]. apply (rf_live _ p false); [done|congruence]. }
  intros w1 H1 F1. eapply relinks_bind; [apply relinks_unlink; [apply H1|now apply (ro_connected (core w))]|].
  intros w2 H2 F2. assert (H02 := refs_only_trans _ _ _ H1 H2).
  eapply relinks_eq; [reflexivity|].
  destruct (relinks_join w2 p false q (u8 sub)) as (w3 & E3 & H3 & F3); [apply H2|now apply (ro_connected (core w))|now apply (ro_group (core w))|now rewrite u8_sub|].
  exists w3. split; [exact E3|]. split; [done|]. intros p' b'. rewrite F3, F2, F1.
  destruct (decide (p' = p)) as [->|Hne]; [|rewrite !decide_False by congruence; done].
  destruct b'; [rewrite !decide_False, decide_True by congruence; now rewrite Ex|now rewrite decide_True].
Qed.
Lemma relinks_RemoveFromBattleground w p :
  Links (core w) -> k_players (core w) !! p <> None ->
  relinks (RemoveFromBattlegroundOrBattlefieldRaid p) w tt
    (fun p' b' => if decide (p' = p) then (if b' then None else rf (core w) p true) else rf (core w) p' b').
Proof.
  intros HL Hp. unfold RemoveFromBattlegroundOrBattlefieldRaid. eapply relinks_bind; [now apply relinks_unlink|].
  intros w1 H1 F1. pose proof (ro_connected _ _ p H1 Hp) as Hp1. destruct (connected_at w1 p Hp1) as [x Hx].
  eapply relinks_eq; [apply (bind_eq _ _ _ _ _ (player_at_eq w1 p x Hx))|].
  pose proof (rf_at w1 p x true Hx) as Ex. cbn in Ex. destruct (subs_at w1 p x (ro_links _ _ H1) Hx) as [_ Hsx].
  assert (Ex0 : gp_original x = rf (core w) p true) by (rewrite <- Ex, F1; rewrite decide_False by congruence; done).
  eapply relinks_bind with (R1 := fun p' b' => if decide ((p', b') = (p, false)) then rf (core w) p true else rf (core w) p' b').
  - destruct (gp_original x) as [q|] eqn:Eo.
    + destruct (relinks_join w1 p false q (gp_originalSub x)) as (w2 & E2 & H2 & F2); [apply H1|done| |done|].
      { apply (rf_live _ p true); [apply H1|congruence]. }
      exists w2. split; [exact E2|]. split; [done|]. intros p' b'. rewrite F2, F1. repeat case_decide; congruence.
    + apply relinks_quiet; [apply H1|apply runs_ret|]. intros p' b'. rewrite F1. case_decide; congruence.
  - intros w2 H2 F2. assert (H02 := refs_only_trans _ _ _ H1 H2).
    destruct (relinks_SetOriginalGroup w2 p None (-1)) as (w3 & E3 & H3 & F3); [apply H2|now apply (ro_connected (core w))|done|].
    exists w3. split; [exact E3|]. split; [done|]. intros p' b'. rewrite F3, F2.
    destruct (decide (p' = p)) as [->|Hne]; [|rewrite !decide_False by congruence; done].
    destruct b'; [now rewrite decide_True|rewrite decide_False, decide_True by congruence; done].
Qed.

(** Which references a member loses with a group. *)
Definition left_refs (pvp : bool) (q p : Z) (R : Z -> bool -> option Z) : Z -> bool -> option Z := fun p' b' =>
  if decide (p' = p) then
    if pvp then (if b' then None else R p true)
    else if decide (R p true = Some q) then (if b' then None else R p false)
    else (if b' then R p true else None)
  else R p' b'.
Lemma relinks_leave w q pvp p :
  Links (core w) -> k_players (core w) !! p <> None -> relinks (leave_refs q pvp p) w tt (left_refs pvp q p (rf (core w))).
Proof.
  intros HL Hp. unfold leave_refs. destruct pvp; [now apply relinks_RemoveFromBattleground|].
  destruct (connected_at w p Hp) as [x Hx]. eapply relinks_eq; [apply (bind_eq _ _ _ _ _ (player_at_eq w p x Hx))|].
  pose proof (rf_at w p x true Hx) as Ex. cbn in Ex. unfold left_refs.
  destruct (decide (rf (core w) p true = Some q)) as [Eq|Eq].
  - rewrite bool_decide_true by congruence.
    destruct (relinks_SetOriginalGroup w p None (-1)) as (w3 & E3 & H3 & F3); [done|done|done|].
    exists w3. split; [exact E3|]. split; [done|]. intros p' b'. rewrite F3. destruct (decide (p' = p)) as [->|]; [|now rewrite decide_False by congruence].
    destruct b'; [now rewrite decide_True|now rewrite decide_False by congruence].
  - rewrite bool_decide_false by congruence.
    destruct (relinks_SetGroup_null w p) as (w3 & E3 & H3 & F3); [done|done|].
    exists w3. split; [exact E3|]. split; [done|]. intros p' b'. rewrite F3. destruct (decide (p' = p)) as [->|]; [|now rewrite decide_False by congruence].
    destruct b'; [now rewrite decide_False by congruence|now rewrite decide_True].
Qed.

Lemma find_ref_none p (l : list (Z * bool)) : (forall b, (p, b) ∉ l) -> List.find (fun r => r.1 =? p) l = None.
Proof.
  intros H. induction l as [|[k b] l IH]; [done|]. cbn. destruct (Z.eqb_spec k p) as [->|Hne]; [exfalso; apply (H b); left|].
  apply IH. intros b' Hin. apply (H b'). now right.
Qed.
(** A player without a reference to the group has none to delink. *)
Lemma DelinkMember_none w q p :
  Links (core w) -> k_groups (core w) !! q <> None -> (forall b, rf (core w) p b <> Some q) -> DelinkMember q p w = (Ret tt, w).
Proof.
  intros HL Hq Hr. destruct (k_groups (core w) !! q) as [gc|] eqn:Eq; [|done]. destruct (heap_core w q gc Eq) as (g & Hg & <-).
  unfold DelinkMember. rewrite (bind_eq _ _ _ _ _ (group_at_eq w q g Hg)). rewrite find_ref_none; [done|].
  intros b Hin. destruct (ln_from _ HL q (group_core g) p b Eq Hin) as (pc & Hp & Hpr). apply (Hr b). unfold rf. now rewrite Hp.
Qed.

(** Where a player who joins gets his reference. *)
Definition joined_refs (pvp : bool) (q p : Z) (R : Z -> bool -> option Z) : Z -> bool -> option Z := fun p' b' =>
  if decide (p' = p) then
    match R p false with
    | None => if b' then R p true else Some q
    | Some q0 => if pvp then (if b' then Some q0 else Some q) else (if b' then Some q else Some q0)
    end
  else R p' b'.
Lemma relinks_join_refs w q p sub gc :
  Links (core w) -> k_players (core w) !! p <> None -> k_groups (core w) !! q = Some gc -> sub_ok sub ->
  relinks (join_refs q p sub) w tt (joined_refs (c_pvp gc) q p (rf (core w))).
Proof.
  intros HL Hp Hq Hs. destruct (connected_at w p Hp) as [x Hx]. destruct (heap_core w q gc Hq) as (g & Hg & <-). unfold join_refs.
  eapply relinks_eq; [apply (bind_eq _ _ _ _ _ (player_at_eq w p x Hx))|].
  eapply relinks_eq; [apply (bind_eq _ _ _ _ _ (group_at_eq w q g Hg))|].
  pose proof (rf_at w p x false Hx) as Ex. cbn in Ex. unfold joined_refs. rewrite Ex. change (c_pvp (group_core g)) with (is_pvp g).
  assert (Hq' : k_groups (core w) !! q <> None) by congruence. destruct (gp_group x) as [q0|]; [destruct (is_pvp g)|].
  - destruct (relinks_SetBattleground w p q sub) as (w3 & E3 & H3 & F3); [done..|].
    exists w3. split; [exact E3|]. split; [done|]. intros p' b'. rewrite F3. case_decide; [|done]. destruct b'; congruence.
  - destruct (relinks_SetOriginalGroup w p (Some q) sub) as (w3 & E3 & H3 & F3); [done|done|intros ? [= <-]; done|].
    exists w3. split; [exact E3|]. split; [done|]. intros p' b'. rewrite F3. destruct (decide (p' = p)) as [->|]; [|now rewrite decide_False by congruence].
    destruct b'; [now rewrite decide_True|rewrite decide_False by congruence; congruence].
  - destruct (relinks_SetGroup w p q sub) as (w3 & E3 & H3 & F3); [done..|].
    exists w3. split; [exact E3|]. split; [done|]. intros p' b'. rewrite F3. destruct (decide (p' = p)) as [->|]; [|now rewrite decide_False by congruence].
    destruct b'; [rewrite decide_False by congruence; done|now rewrite decide_True].
Qed.
(** ** Operations that only send *)

Lemma quiet_group_at c q (k : Group -> G unit) :
  k_groups c !! q <> None -> (forall w g, core w = c -> w_heap w !! q = Some g -> quiet c (k g)) -> quiet c (bind (group_at q) k).
Proof.
  intros Hq Hk w Hw. destruct (k_groups c !! q) as [gc|] eqn:Eq; [|done]. rewrite <- Hw in Eq. destruct (heap_core w q gc Eq) as (g & Hg & _).
  destruct (Hk w g Hw Hg w Hw) as (w' & E & H). exists w'. split; [|done]. now rewrite (bind_eq _ _ _ _ _ (group_at_eq w q g Hg)).
Qed.
Lemma quiet_player_at c p (k : GPlayer -> G unit) :
  k_players c !! p <> None -> (forall w x, core w = c -> w_players w !! p = Some x -> quiet c (k x)) -> quiet c (bind (player_at p) k).
Proof.
  intros Hp Hk w Hw. rewrite <- Hw in Hp. destruct (connected_at w p Hp) as [x Hx].
  destruct (Hk w x Hw Hx w Hw) as (w' & E & H). exists w'. split; [|done]. now rewrite (bind_eq _ _ _ _ _ (player_at_eq w p x Hx)).
Qed.
Lemma quiet_alter_group c q f : k_groups c !! q <> None -> (forall g, group_core (f g) = group_core g) -> quiet c (alter_group q f).
Proof.
  intros Hq Hf w <-. destruct (k_groups (core w) !! q) as [gc|] eqn:Eq; [|done]. now apply (runs_same_group w q f gc).
Qed.
Lemma quiet_alter_player c p f : k_players c !! p <> None -> (forall x, player_core (f x) = player_core x) -> quiet c (alter_player p f).
Proof.
  intros Hq Hf w <-. destruct (k_players (core w) !! p) as [pc|] eqn:Eq; [|done]. now apply (runs_same_player w p f pc).
Qed.
#[local] Hint Resolve quiet_ret quiet_tell quiet_bind quiet_when quiet_for_each quiet_alter_group quiet_alter_player : quiet.

Lemma quiet_SendUpdateToPlayer c q p slot : k_groups c !! q <> None -> quiet c (SendUpdateToPlayer q p slot).
Proof.
  intros Hq. unfold SendUpdateToPlayer, FindConnectedPlayer. apply quiet_gets. intros w Hw. destruct (w_players w !! p); [|apply quiet_ret].
  case_bool_decide; cbn [negb]; [|apply quiet_ret]. apply quiet_group_at; [done|]. intros w1 g1 H1 G1.
  destruct (match slot with Some s => Some s | None => _ end); [|apply quiet_ret].
  apply quiet_gets. intros w2 H2. apply quiet_gets. intros w3 H3. apply quiet_bind; [now apply quiet_alter_group|apply quiet_tell].
Qed.
Lemma quiet_SendUpdate c q : k_groups c !! q <> None -> quiet c (SendUpdate q).
Proof. intros Hq. apply quiet_group_at; [done|]. intros. apply quiet_for_each. intros. now apply quiet_SendUpdateToPlayer. Qed.
Lemma quiet_UpdatePlayerOutOfRange c q p : k_groups c !! q <> None -> quiet c (UpdatePlayerOutOfRange q p).
Proof.
  intros Hq. unfold UpdatePlayerOutOfRange, FindPlayer. apply quiet_gets. intros w Hw. destruct (in_world _); [|apply quiet_ret].
  apply quiet_group_at; [done|]. auto with quiet.
Qed.
Lemma ref_connected c q gc r : Links c -> k_groups c !! q = Some gc -> r ∈ c_refs gc -> k_players c !! r.1 <> None.
Proof. destruct r as [p b]. intros HL Hq Hin. destruct (ln_from c HL q gc p b Hq Hin) as (pc & H & _). cbn. now rewrite H. Qed.
Lemma quiet_broadcast c q name : Links c -> k_groups c !! q <> None -> quiet c (broadcast_set_leader q name).
Proof.
  intros HL Hq. apply quiet_group_at; [done|]. intros w g Hw Hg. apply quiet_for_each. intros r Hin. apply quiet_player_at; [|auto with quiet].
  apply (ref_connected c q (group_core g)); [done| |done]. rewrite <- Hw. cbn. now rewrite lookup_fmap, Hg.
Qed.
Lemma quiet_BroadcastGroupUpdate c q : k_groups c !! q <> None -> quiet c (BroadcastGroupUpdate q).
Proof.
  intros Hq. apply quiet_group_at; [done|]. intros w g Hw Hg. apply quiet_for_each. intros s _. apply quiet_gets. intros w1 _.
  destruct (in_world _); auto with quiet.
Qed.
Lemma quiet_ResetMaxEnchantingLevel c q : k_groups c !! q <> None -> quiet c (ResetMaxEnchantingLevel q).
Proof.
  intros Hq. apply quiet_bind; [now apply quiet_alter_group|]. apply quiet_group_at; [done|]. intros w g Hw Hg. apply quiet_for_each. intros s _.
  apply quiet_gets. intros w1 _. destruct (in_world _) as [x|]; [|apply quiet_ret]. apply quiet_alter_group; [done|]. intros g'. now case_if.
Qed.
Lemma quiet_join_difficulties c q p : k_groups c !! q <> None -> k_players c !! p <> None -> quiet c (join_difficulties q p).
Proof.
  intros Hq Hp. unfold join_difficulties. do 2 (apply quiet_bind; [apply quiet_tell|]). apply quiet_player_at; [done|]. intros w x _ _.
  apply quiet_group_at; [done|]. intros w1 g _ _. auto 8 with quiet.
Qed.
End Core.
