(* ===== verification/GroupView.v ===== *)
(** * Groups: what the operations do, seen from outside

    [View] is what a membership is about: the members and settings of the groups, the
    references of the players, their invitations, the manager and the tables.  [spec]
    says that a program returns from every sound world with a given view, and which
    view it leaves; the references and the rolls stay sound ([sane]) in it.

    A group's scripts have to answer ([GroupScriptLaws]); [GroupFinder] shows it of
    the dungeon finder. *)

From stdpp Require Import base gmap list.
From Stdlib Require Import ZArith Lia FunctionalExtensionality.
From S2P Require Import Prelude StdMap ObjectGuid LfgData LfgScripts ActionLogic GroupTypes GroupMgr GroupLoot GroupLootInv GroupWorld Group GroupCore.
#[local] Open Scope Z_scope.

Class GroupScriptLaws `{scripts : GroupScripts} := {
  law_add v g l p s : script_ok s -> exists s', OnGroupAddMember v g l p s = Some s' /\ script_ok s';
  law_remove v g b p m k why pl s : script_ok s -> exists s', OnGroupRemoveMember v g b p m k why pl s = Some s' /\ script_ok s';
  law_leader v g l s : script_ok s -> exists s', OnGroupChangeLeader v g l s = Some s' /\ script_ok s';
  law_disband v g s : script_ok s -> exists s', OnGroupDisband v g s = Some s' /\ script_ok s';
  law_invite v g l s : script_ok s -> exists s', OnGroupInviteMember v g l s = Some s' /\ script_ok s'
}.

(** A group without its references and its rolls. *)
Definition bare (g : GroupCore) : GroupCore := c_set_rolls [] (c_set_refs [] g).

Record View := mkView {
  v_groups : gmap Z GroupCore;
  v_rf : Z -> bool -> option Z;
  v_invite : gmap Z (option Z);             (** of each player who is connected *)
  v_alloc : Z;
  v_mgr : GroupMgr;
  v_dbGroups : gset Z;
  v_dbMembers : gmap Z (Z * Z);
  v_bgRaids : gmap (Z * bool) Z
}.
Definition v_with_groups (h : gmap Z GroupCore) (v : View) : View :=
  mkView h (v_rf v) (v_invite v) (v_alloc v) (v_mgr v) (v_dbGroups v) (v_dbMembers v) (v_bgRaids v).
Definition v_with_rf (r : Z -> bool -> option Z) (v : View) : View :=
  mkView (v_groups v) r (v_invite v) (v_alloc v) (v_mgr v) (v_dbGroups v) (v_dbMembers v) (v_bgRaids v).
Definition v_with_invite (i : gmap Z (option Z)) (v : View) : View :=
  mkView (v_groups v) (v_rf v) i (v_alloc v) (v_mgr v) (v_dbGroups v) (v_dbMembers v) (v_bgRaids v).
Definition v_with_alloc (a : Z) (v : View) : View :=
  mkView (v_groups v) (v_rf v) (v_invite v) a (v_mgr v) (v_dbGroups v) (v_dbMembers v) (v_bgRaids v).
Definition v_with_mgr (m : GroupMgr) (v : View) : View :=
  mkView (v_groups v) (v_rf v) (v_invite v) (v_alloc v) m (v_dbGroups v) (v_dbMembers v) (v_bgRaids v).
Definition v_with_dbGroups (d : gset Z) (v : View) : View :=
  mkView (v_groups v) (v_rf v) (v_invite v) (v_alloc v) (v_mgr v) d (v_dbMembers v) (v_bgRaids v).
Definition v_with_dbMembers (d : gmap Z (Z * Z)) (v : View) : View :=
  mkView (v_groups v) (v_rf v) (v_invite v) (v_alloc v) (v_mgr v) (v_dbGroups v) d (v_bgRaids v).
Definition v_with_bgRaids (r : gmap (Z * bool) Z) (v : View) : View :=
  mkView (v_groups v) (v_rf v) (v_invite v) (v_alloc v) (v_mgr v) (v_dbGroups v) (v_dbMembers v) r.
Definition v_on_group (q : Z) (f : GroupCore -> GroupCore) (v : View) : View := v_with_groups (alter f q (v_groups v)) v.
Definition v_set_invite (p : Z) (o : option Z) (v : View) : View := v_with_invite (alter (fun _ => o) p (v_invite v)) v.

(** The battlegrounds of the groups, and the groups of their sides: each group of a
    battleground is the group of one side. *)
Definition bgs (v : View) : gmap Z (option Z) := c_bg <$> v_groups v.
Record Sides (h : gmap Z (option Z)) (r : gmap (Z * bool) Z) : Prop := mk_Sides {
  sd_at bg side q : r !! (bg, side) = Some q -> h !! q = Some (Some bg);
  sd_of q bg : h !! q = Some (Some bg) -> exists side, r !! (bg, side) = Some q;
  sd_once k k' q : r !! k = Some q -> r !! k' = Some q -> k = k'
}.
Definition v_delete (q : Z) (v : View) : View :=
  v_with_bgRaids (filter (fun e => e.2 <> q) (v_bgRaids v)) (v_with_groups (base.delete q (v_groups v)) v).

Create HintDb views.

Section Specs.
Context `{scripts : GroupScripts} `{outside : GroupOutside} `{loots : LootView}.

Definition view (c : Core) : View :=
  mkView (bare <$> k_groups c) (rf c) (pc_invite <$> k_players c) (k_alloc c) (k_mgr c) (k_dbGroups c) (k_dbMembers c) (k_bgRaids c).
Definition roll_world (l : list Roll) (r : LootRest) : LootWorld := loot_world (set_RollId l new_group) r.
Record sane (c : Core) : Prop := mk_sane {
  sn_links : Links c;
  sn_script : script_ok (k_script c);
  sn_rolls : forall q gc, k_groups c !! q = Some gc -> rolls_ok (roll_world (c_rolls gc) (k_loot c));
  sn_items : rolls_ok (roll_world [] (k_loot c))
}.

(** From every sound world with the view [v], [m] returns. *)
Definition spec {A} (v : View) (m : G A) (Q : A -> View -> Prop) : Prop :=
  forall w, sane (core w) -> view (core w) = v -> exists a w', m w = (Ret a, w') /\ sane (core w') /\ Q a (view (core w')).
Definition yields {A} (v : View) (m : G A) (a : A) (v' : View) : Prop := spec v m (fun a' v1 => a' = a /\ v1 = v').

Lemma spec_conseq {A} v (m : G A) (Q Q' : A -> View -> Prop) : spec v m Q -> (forall a v', Q a v' -> Q' a v') -> spec v m Q'.
Proof. intros H HQ w Hs Hv. destruct (H w Hs Hv) as (a & w' & E & Hs' & H'). exists a, w'. auto. Qed.
Lemma spec_ret {A} v (a : A) (Q : A -> View -> Prop) : Q a v -> spec v (ret a) Q.
Proof. intros H w Hs Hv. exists a, w. now rewrite Hv. Qed.
Lemma spec_bind {A B} v (m : G A) (k : A -> G B) R Q :
  spec v m R -> (forall a v1, R a v1 -> spec v1 (k a) Q) -> spec v (bind m k) Q.
Proof.
  intros Hm Hk w Hs Hv. destruct (Hm w Hs Hv) as (a & w1 & E1 & Hs1 & H1). destruct (Hk a _ H1 w1 Hs1 eq_refl) as (b & w2 & E2 & Hs2 & H2).
  exists b, w2. now rewrite (bind_eq _ _ _ _ _ E1).
Qed.
Lemma yields_bind {A B} v (m : G A) (k : A -> G B) a v1 Q : yields v m a v1 -> spec v1 (k a) Q -> spec v (bind m k) Q.
Proof. intros Hm Hk. apply (spec_bind v m k (fun a' v' => a' = a /\ v' = v1)); [done|]. now intros a' v' [-> ->]. Qed.
Lemma yields_ret {A} v (a : A) : yields v (ret a) a v.
Proof. now apply spec_ret. Qed.
Lemma yields_eq {A} v (m : G A) a v1 v2 : yields v m a v1 -> v1 = v2 -> yields v m a v2.
Proof. now intros H <-. Qed.
Lemma yields_when v (b : bool) m v' : (b = true -> yields v m tt v') -> (b = false -> v' = v) -> yields v (when b m) tt v'.
Proof. destruct b; cbn [when]; intros H1 H2; [now apply H1|]. rewrite (H2 eq_refl). apply yields_ret. Qed.
Lemma yields_for_each {A} (f : View -> A -> View) (l : list A) (m : A -> G unit) v (P : View -> Prop) :
  P v -> (forall v x, x ∈ l -> P v -> yields v (m x) tt (f v x) /\ P (f v x)) -> yields v (for_each l m) tt (foldl f v l).
Proof.
  revert v. induction l as [|x l IH]; intros v Hv Hf; cbn [foldl]; [apply yields_ret|]. destruct (Hf v x) as [H1 H2]; [left|done|].
  apply (yields_bind _ _ _ _ _ _ H1), IH; [done|]. intros v' y Hy. apply Hf. now right.
Qed.

(** ** From the core *)

Lemma runs_spec {A} v (m : G A) Q :
  (forall w, sane (core w) -> view (core w) = v -> exists a c, runs m w a c /\ sane c /\ Q a (view c)) -> spec v m Q.
Proof. intros H w Hs Hv. destruct (H w Hs Hv) as (a & c & (w' & E & <-) & H1 & H2). now exists a, w'. Qed.
Lemma quiet_yields v m : (forall c, sane c -> view c = v -> quiet c m) -> yields v m tt v.
Proof. intros H. apply runs_spec. intros w Hs Hv. exists tt, (core w). split; [now apply H|done]. Qed.
Lemma bare_norefs c : bare <$> k_groups c = c_set_rolls [] <$> norefs c.
Proof. unfold norefs. rewrite <- map_fmap_compose. done. Qed.
Lemma refs_only_view c c' R : refs_only c c' -> (forall p b, rf c' p b = R p b) -> view c' = v_with_rf R (view c).
Proof.
  intros [H1 H2 _ (H4 & H5 & H6 & H7 & H8 & H9 & H10)] HR. unfold view, v_with_rf. cbn. f_equal; try done.
  - now rewrite !bare_norefs, H1.
  - extensionality p. extensionality b. apply HR.
  - apply map_eq. intros p. rewrite !lookup_fmap. apply (H2 p).
Qed.
Lemma refs_only_sane c c' : refs_only c c' -> sane c -> sane c'.
Proof.
  intros [H1 H2 H3 (H4 & H5 & H6 & H7 & H8 & H9 & H10)] [_ S2 S3 S4]. split; [done|now rewrite H6| |now rewrite H7]. intros q gc Hq. rewrite H7.
  assert (Hn : norefs c' !! q = Some (c_set_refs [] gc)) by (unfold norefs; now rewrite lookup_fmap, Hq).
  rewrite H1 in Hn. unfold norefs in Hn. apply lookup_fmap_Some in Hn as (g0 & E0 & Hg0).
  assert (Er : c_rolls gc = c_rolls g0) by now injection E0. rewrite Er. now apply (S3 q).
Qed.
Lemma relinks_yields {A} v (m : G A) a R :
  (forall w, Links (core w) -> view (core w) = v -> relinks m w a R) -> yields v m a (v_with_rf R v).
Proof.
  intros H w Hs Hv. destruct (H w (sn_links _ Hs) Hv) as (w' & E & H1 & H2). exists a, w'. split; [done|].
  split; [now apply (refs_only_sane (core w))|]. split; [done|]. rewrite <- Hv. now apply refs_only_view.
Qed.

(** ** Reading *)

Lemma view_group_at c v q gc : view c = v -> v_groups v !! q = Some gc -> exists g, k_groups c !! q = Some g /\ bare g = gc.
Proof. intros <-. cbn. rewrite lookup_fmap_Some. naive_solver. Qed.
Lemma view_group c v q : view c = v -> v_groups v !! q <> None -> k_groups c !! q <> None.
Proof. intros <-. cbn. rewrite lookup_fmap. destruct (k_groups c !! q); [done|]. easy. Qed.
Lemma view_player c v p : view c = v -> v_invite v !! p <> None -> k_players c !! p <> None.
Proof. intros <-. cbn. rewrite lookup_fmap. destruct (k_players c !! p); [done|]. easy. Qed.
Lemma view_no_player w v p : view (core w) = v -> v_invite v !! p = None -> w_players w !! p = None.
Proof. intros <-. cbn. rewrite !lookup_fmap. now destruct (w_players w !! p). Qed.

Lemma spec_group_at {B} v q gc (k : Group -> G B) Q :
  v_groups v !! q = Some gc -> (forall g, bare (group_core g) = gc -> spec v (k g) Q) -> spec v (bind (group_at q) k) Q.
Proof.
  intros Hq Hk w Hs Hv. destruct (view_group_at _ _ _ _ Hv Hq) as (g0 & Hg0 & E0). destruct (heap_core w q g0 Hg0) as (g & Hg & <-).
  destruct (Hk g E0 w Hs Hv) as (a & w' & E & H). exists a, w'. now rewrite (bind_eq _ _ _ _ _ (group_at_eq w q g Hg)).
Qed.
Lemma spec_player_at {B} v p (k : GPlayer -> G B) Q :
  v_invite v !! p <> None ->
  (forall x, v_rf v p false = gp_group x -> v_rf v p true = gp_original x -> v_invite v !! p = Some (gp_invite x) -> spec v (k x) Q) ->
  spec v (bind (player_at p) k) Q.
Proof.
  intros Hp Hk w Hs Hv. pose proof (view_player _ _ _ Hv Hp) as Hp'. destruct (connected_at w p Hp') as [x Hx].
  destruct (Hk x) with (w := w) as (a & w' & E & H); try done.
  - rewrite <- Hv. exact (rf_at w p x false Hx).
  - rewrite <- Hv. exact (rf_at w p x true Hx).
  - rewrite <- Hv. cbn. now rewrite !lookup_fmap, Hx.
  - exists a, w'. now rewrite (bind_eq _ _ _ _ _ (player_at_eq w p x Hx)).
Qed.
(** Any other thing that is read. *)
Lemma spec_gets {A B} v (f : GW -> A) (k : A -> G B) (P : A -> Prop) Q :
  (forall w, view (core w) = v -> P (f w)) -> (forall a, P a -> spec v (k a) Q) -> spec v (bind (gets f) k) Q.
Proof. intros HP Hk w Hs Hv. rewrite bind_gets. apply Hk; [now apply HP|done|done]. Qed.
Lemma spec_any {A B} v (f : GW -> A) (k : A -> G B) Q : (forall a, spec v (k a) Q) -> spec v (bind (gets f) k) Q.
Proof. intros Hk. apply (spec_gets _ _ _ (fun _ => True)); auto. Qed.
(** Who is connected has an entry among the invitations. *)
Lemma spec_connected {B} v p (k : option GPlayer -> G B) Q :
  (v_invite v !! p = None -> spec v (k None) Q) ->
  (forall x, v_invite v !! p = Some (gp_invite x) -> v_rf v p false = gp_group x -> v_rf v p true = gp_original x -> spec v (k (Some x)) Q) ->
  spec v (bind (FindConnectedPlayer p) k) Q.
Proof.
  intros H0 H1 w Hs Hv. unfold FindConnectedPlayer. rewrite bind_gets. destruct (w_players w !! p) as [x|] eqn:Ex.
  - apply H1; try done; rewrite <- Hv.
    + cbn. now rewrite !lookup_fmap, Ex.
    + exact (rf_at w p x false Ex).
    + exact (rf_at w p x true Ex).
  - apply H0; try done. rewrite <- Hv. cbn. now rewrite !lookup_fmap, Ex.
Qed.
Lemma spec_mgr {B} v (k : GroupMgr -> G B) Q : spec v (k (v_mgr v)) Q -> spec v (bind (gets w_mgr) k) Q.
Proof. intros H. apply (spec_gets _ _ _ (fun m => m = v_mgr v)); [now intros w <-|now intros a ->]. Qed.
(** ** Changing a group or a player *)

Lemma Links_same_refs c c' :
  Links c -> k_players c' = k_players c ->
  (forall q gc', k_groups c' !! q = Some gc' -> exists gc, k_groups c !! q = Some gc /\ c_refs gc' = c_refs gc) ->
  (forall q gc, k_groups c !! q = Some gc -> exists gc', k_groups c' !! q = Some gc' /\ c_refs gc' = c_refs gc) -> Links c'.
Proof.
  intros [H1 H2 H3 H4] Ep Hb Hf. split.
  - intros p pc b q Hp Hr. rewrite Ep in Hp. destruct (H1 p pc b q Hp Hr) as (gc & Hg & Hin). destruct (Hf q gc Hg) as (gc' & Hg' & Er).
    exists gc'. now rewrite Er.
  - intros q gc' p b Hg' Hin. destruct (Hb q gc' Hg') as (gc & Hg & Er). rewrite Er in Hin. rewrite Ep. now apply (H2 q gc).
  - intros q gc' Hg'. destruct (Hb q gc' Hg') as (gc & Hg & ->). now apply (H3 q).
  - intros p pc Hp. rewrite Ep in Hp. now apply (H4 p).
Qed.
Lemma on_group_sane c q g0 g1 :
  sane c -> k_groups c !! q = Some g0 -> c_refs g1 = c_refs g0 -> rolls_ok (roll_world (c_rolls g1) (k_loot c)) ->
  sane (k_on_group q (fun _ => g1) c).
Proof.
  intros [HL HS HR HI] Hq Er Hok. split; [|done| |done].
  - apply (Links_same_refs c); [done|done| |]; cbn.
    + intros j gc' [(-> & y & Hj & ->)|[_ Hj]]%lookup_alter_Some; [exists g0; split; [done|congruence]|now exists gc'].
    + intros j gc Hj. destruct (decide (j = q)) as [->|Hne]; [|exists gc; now rewrite lookup_alter_ne].
      exists g1. rewrite lookup_alter_eq, Hq. split; [done|congruence].
  - cbn. intros j gc [(-> & y & Hj & ->)|[_ Hj]]%lookup_alter_Some; [done|now apply (HR j)].
Qed.
Lemma on_group_view c q g0 g1 fc :
  k_groups c !! q = Some g0 -> bare g1 = fc (bare g0) -> view (k_on_group q (fun _ => g1) c) = v_on_group q fc (view c).
Proof.
  intros Hq Hf. unfold view, v_on_group, v_with_groups. cbn. f_equal. apply map_eq. intros j. rewrite !lookup_fmap.
  destruct (decide (j = q)) as [->|Hne]; [|now rewrite !lookup_alter_ne, lookup_fmap].
  rewrite !lookup_alter_eq, lookup_fmap, Hq. cbn. now rewrite Hf.
Qed.
Lemma spec_alter_group v q f fc gc :
  v_groups v !! q = Some gc -> (forall g, bare (group_core g) = gc -> bare (group_core (f g)) = fc gc) ->
  (forall g, m_memberMgr (f g) = m_memberMgr g /\ RollId (f g) = RollId g) -> yields v (alter_group q f) tt (v_on_group q fc v).
Proof.
  intros Hq Hf Hk. apply runs_spec. intros w Hs Hv. destruct (view_group_at _ _ _ _ Hv Hq) as (g0 & Hg0 & E0).
  destruct (heap_core w q g0 Hg0) as (g & Hg & Eg). destruct (Hk g) as [Hr Hl].
  exists tt, (k_on_group q (fun _ => group_core (f g)) (core w)). split.
  - assert (R : runs (alter_group q (fun _ => f g)) w tt (k_on_group q (fun _ => group_core (f g)) (core w))).
    { apply (runs_alter_group w q (fun _ => f g) (fun _ => group_core (f g)) g0 Hg0). done. }
    destruct R as (w' & E & H). exists w'. split; [|done]. unfold alter_group in E |- *. rewrite (bind_eq _ _ _ _ _ (group_at_eq w q g Hg)) in E.
      rewrite (bind_eq _ _ _ _ _ (group_at_eq w q g Hg)). exact E.
  - split.
    + apply (on_group_sane (core w) q g0); [done|done| |]; [rewrite <- Eg; exact Hr|]. cbn. rewrite Hl. rewrite <- Eg in Hg0.
      exact (sn_rolls _ Hs q _ Hg0).
    + split; [done|]. rewrite <- Hv. apply (on_group_view _ _ g0); [done|]. rewrite E0. apply Hf. now rewrite Eg.
Qed.
Lemma v_on_group_id q v f gc : v_groups v !! q = Some gc -> f gc = gc -> v_on_group q f v = v.
Proof.
  intros Hq Hf. unfold v_on_group, v_with_groups. replace (alter f q (v_groups v)) with (v_groups v); [now destruct v|].
  apply map_eq. intros j. destruct (decide (j = q)) as [->|Hne]; [rewrite lookup_alter_eq, Hq; cbn; now rewrite Hf|now rewrite lookup_alter_ne].
Qed.
Lemma spec_alter_group_same v q f :
  v_groups v !! q <> None -> (forall g, group_core (f g) = group_core g) -> yields v (alter_group q f) tt v.
Proof. intros Hq Hf. apply quiet_yields. intros c Hs Hv. apply quiet_alter_group; [now apply (view_group c v)|done]. Qed.

Lemma spec_set_invite v p o : v_invite v !! p <> None -> yields v (alter_player p (set_gp_invite o)) tt (v_set_invite p o v).
Proof.
  intros Hp. apply runs_spec. intros w Hs Hv. pose proof (view_player _ _ _ Hv Hp) as Hp'.
  destruct (k_players (core w) !! p) as [pc|] eqn:Ep; [|done]. clear Hp'. exists tt, (k_on_player p (pc_set_invite o) (core w)). split.
  { apply (runs_alter_player w p _ _ pc Ep). now intros x <-. }
  destruct Hs as [[H1 H2 H3 H4] HS HR HI]. split; [split; [|done|done|done]|].
  - split; cbn [k_groups k_players k_on_player k_with_players]; [| |done|].
    + intros p' pc' b q [(-> & y & Hy & ->)|[_ Hy]]%lookup_alter_Some Hr; [rewrite pc_ref_set_invite in Hr|]; eauto.
    + intros q gc p' b Hg Hin. destruct (H2 q gc p' b Hg Hin) as (pc' & Hpc & Hr). destruct (decide (p' = p)) as [->|Hne].
      * exists (pc_set_invite o pc'). rewrite lookup_alter_eq, Hpc. split; [done|]. now rewrite pc_ref_set_invite.
      * exists pc'. now rewrite lookup_alter_ne.
    + intros p' pc' [(-> & y & Hy & ->)|[_ Hy]]%lookup_alter_Some; [now apply (H4 p' y)|now apply (H4 p')].
  - split; [done|]. rewrite <- Hv. unfold view, v_set_invite, v_with_invite. cbn. f_equal.
    + extensionality p'. extensionality b. unfold rf. cbn. destruct (decide (p' = p)) as [->|Hne]; [|now rewrite lookup_alter_ne].
      cbn in Ep. rewrite lookup_alter_eq, Ep. cbn. apply pc_ref_set_invite.
    + apply map_eq. intros j. rewrite !lookup_fmap. destruct (decide (j = p)) as [->|Hne]; [|now rewrite !lookup_alter_ne, !lookup_fmap].
      rewrite !lookup_alter_eq, !lookup_fmap. now destruct (w_players w !! p).
Qed.
Lemma spec_alter_player_same v p f :
  v_invite v !! p <> None -> (forall x, player_core (f x) = player_core x) -> yields v (alter_player p f) tt v.
Proof. intros Hq Hf. apply quiet_yields. intros c Hs Hv. apply quiet_alter_player; [now apply (view_player c v)|done]. Qed.

(** What touches neither groups nor players. *)
Lemma spec_modify v (f : GW -> GW) v' :
  (forall w, k_groups (core (f w)) = k_groups (core w) /\ k_players (core (f w)) = k_players (core w) /\
             w_script (f w) = w_script w /\ w_loot (f w) = w_loot w) ->
  (forall w, view (core w) = v -> view (core (f w)) = v') -> yields v (modify f) tt v'.
Proof.
  intros Hk Hf w Hs Hv. exists tt, (f w). split; [done|]. split; [|split; [done|now apply Hf]].
  destruct (Hk w) as (E1 & E2 & E3 & E4). destruct Hs as [[H1 H2 H3 H4] HS HR HI].
  assert (Es : k_script (core (f w)) = k_script (core w)) by exact E3. assert (El : k_loot (core (f w)) = k_loot (core w)) by exact E4.
  split; [split; rewrite ?E1, ?E2; done|now rewrite Es|rewrite E1, El; done|now rewrite El].
Qed.
Lemma spec_tell v e : yields v (tell e) tt v.
Proof. apply quiet_yields. intros. apply quiet_tell. Qed.
Lemma spec_run_hook `{!GroupScriptLaws} v f :
  (forall h s, script_ok s -> exists s', f h s = Some s' /\ script_ok s') -> yields v (run_hook f) tt v.
Proof.
  intros Hf. unfold run_hook, hook_view. apply spec_any. intros h. intros w Hs Hv. rewrite bind_gets.
  destruct (Hf h (w_script w) (sn_script _ Hs)) as (s' & E & Hs'). rewrite E. cbn [of_option]. exists tt, (with_script s' w). split; [done|].
  split; [|now rewrite <- Hv]. destruct Hs as [HL HS HR HI]. split; [|done|exact HR|exact HI]. now apply (Links_same_refs (core w)); eauto.
Qed.

(** A fact of every sound world with the view. *)
Lemma spec_with {A} v (m : G A) Q : (forall c, sane c -> view c = v -> spec v m Q) -> spec v m Q.
Proof. intros H w Hs Hv. now apply (H (core w)). Qed.
Lemma view_rf_live c v p b q : sane c -> view c = v -> v_rf v p b = Some q -> v_groups v !! q <> None.
Proof.
  intros Hs <-. cbn. intros Hr. pose proof (rf_live c p b q (sn_links _ Hs) Hr) as Hq. rewrite lookup_fmap. now destruct (k_groups c !! q).
Qed.
Lemma view_rf_connected c v p b q : sane c -> view c = v -> v_rf v p b = Some q -> v_invite v !! p <> None.
Proof.
  intros Hs <-. cbn. unfold rf. rewrite lookup_fmap. now destruct (k_players c !! p).
Qed.

(** ** Invitations *)

Definition v_remove_invite (q p : Z) (v : View) : View :=
  v_set_invite p None (v_on_group q (fun g => c_set_invitees (c_invitees g ∖ {[p]}) g) v).
Definition v_add_invite (q p : Z) (v : View) : View :=
  v_set_invite p (Some q) (v_on_group q (fun g => c_set_invitees ({[p]} ∪ c_invitees g) g) v).
Definition v_uninvite (s : gset Z) (v : View) : View :=
  v_with_invite (map_imap (fun p o => Some (if decide (p ∈ s) then None else o)) (v_invite v)) v.
Definition v_remove_invites (q : Z) (s : gset Z) (v : View) : View := v_on_group q (c_set_invitees ∅) (v_uninvite s v).

Lemma spec_RemoveInvite v q p : v_groups v !! q <> None -> v_invite v !! p <> None -> yields v (RemoveInvite q p) tt (v_remove_invite q p v).
Proof.
  intros Hq Hp. destruct (v_groups v !! q) as [gc|] eqn:Eq; [|done]. unfold RemoveInvite.
  eapply yields_bind; [apply (spec_alter_group v q _ (fun g => c_set_invitees (c_invitees g ∖ {[p]}) g) gc Eq); [now intros g <-|done]|].
  now apply spec_set_invite.
Qed.
Lemma uninvite_nil v : v_uninvite ∅ v = v.
Proof.
  unfold v_uninvite, v_with_invite. replace (map_imap _ _) with (v_invite v); [now destruct v|]. apply map_eq. intros p.
  rewrite map_lookup_imap. now destruct (v_invite v !! p).
Qed.
Lemma uninvite_one v p s : v_uninvite s (v_set_invite p None v) = v_uninvite ({[p]} ∪ s) v.
Proof.
  unfold v_uninvite, v_set_invite, v_with_invite. cbn. f_equal. apply map_eq. intros j. rewrite !map_lookup_imap.
  destruct (decide (j = p)) as [->|Hne].
  - rewrite lookup_alter_eq. destruct (v_invite v !! p); [cbn|done]. rewrite (decide_True (P := p ∈ {[p]} ∪ s)) by set_solver. now case_decide.
  - rewrite lookup_alter_ne by done. destruct (v_invite v !! j); [cbn|done]. f_equal. apply decide_ext. set_solver.
Qed.
Lemma spec_uninvite v (l : list Z) :
  (forall p, p ∈ l -> v_invite v !! p <> None) ->
  yields v (for_each l (fun guid => alter_player guid (set_gp_invite None))) tt (v_uninvite (list_to_set l) v).
Proof.
  revert v. induction l as [|p l IH]; intros v Hl; cbn [for_each list_to_set]; [rewrite uninvite_nil; apply yields_ret|].
  eapply yields_bind; [apply spec_set_invite, Hl; left|]. rewrite <- uninvite_one. apply IH. intros p' Hp'. cbn.
  destruct (decide (p' = p)) as [->|Hne]; [rewrite lookup_alter_eq|rewrite lookup_alter_ne by done; apply Hl; now right].
  specialize (Hl p (list_elem_of_here _ _)). now destruct (v_invite v !! p).
Qed.
Lemma spec_RemoveAllInvites v q gc :
  v_groups v !! q = Some gc -> (forall p, p ∈ c_invitees gc -> v_invite v !! p <> None) ->
  yields v (RemoveAllInvites q) tt (v_remove_invites q (c_invitees gc) v).
Proof.
  intros Hq Hp. unfold RemoveAllInvites. apply (spec_group_at v q gc); [done|]. intros g Hg.
  assert (Ei : c_invitees gc = m_invitees g) by now rewrite <- Hg. rewrite Ei in *.
  assert (El : list_to_set (set_order Z.le (m_invitees g)) = m_invitees g) by (apply set_eq; intros x; rewrite elem_of_list_to_set; apply elem_of_set_order).
  eapply yields_bind; [apply (spec_uninvite v (set_order Z.le (m_invitees g)))|].
  - intros p Hin. apply Hp. now apply elem_of_set_order in Hin.
  - rewrite El. apply (spec_alter_group (v_uninvite (m_invitees g) v) q _ _ gc); [done|now intros g' <-|done].
Qed.

(** The group a player who is asked may be in. *)
Definition home (v : View) (p : Z) : option Z :=
  match v_rf v p false with
  | Some q => if (match v_groups v !! q with Some gc => c_pvp gc | None => false end) then v_rf v p true else Some q
  | None => None
  end.
Lemma spec_AddInvite `{!GroupScriptLaws} v q p :
  v_groups v !! q <> None -> v_invite v !! p <> None ->
  let free := bool_decide (v_invite v !! p = Some None) && bool_decide (home v p = None) in
  yields v (AddInvite q p) free (if free then v_add_invite q p v else v).
Proof.
  intros Hq Hp. cbn zeta. apply spec_with. intros c0 Hs0 Hv0. unfold AddInvite. apply spec_player_at; [done|]. intros x Hf Ho Hi.
  rewrite Hi. destruct (gp_invite x) as [i|].
  { rewrite bool_decide_eq_true_2, bool_decide_eq_false_2 by done. apply yields_ret. }
  rewrite bool_decide_eq_false_2, (bool_decide_eq_true_2 (Some None = Some None)) by naive_solver. cbn [andb].
  set (b := bool_decide (home v p = None)).
  assert (Hb : spec v (match gp_group x with
                       | Some q' => let! g' := group_at q' in ret (if is_pvp g' then gp_original x else Some q')
                       | None => ret None
                       end) (fun o v' => o = home v p /\ v' = v)).
  { unfold home. rewrite Hf. destruct (gp_group x) as [q'|] eqn:Eg; [|now apply spec_ret].
    destruct (v_groups v !! q') as [gc|] eqn:Eq'; [|now destruct (view_rf_live c0 v p false q' Hs0 Hv0 Hf)].
    apply (spec_group_at v q' gc); [done|]. intros g <-. apply spec_ret. rewrite Ho. done. }
  apply (spec_bind _ _ _ _ _ Hb). intros o v1 [-> ->]. unfold b. clear Hb b. destruct (home v p) as [h|] eqn:Eh.
  { rewrite bool_decide_eq_true_2, bool_decide_eq_false_2 by done. apply yields_ret. }
  rewrite bool_decide_eq_false_2, bool_decide_eq_true_2 by naive_solver.
  destruct (v_groups v !! q) as [gc|] eqn:Eq; [|done].
  eapply yields_bind; [now apply spec_RemoveInvite; [rewrite Eq|]|].
  assert (Eq1 : v_groups (v_remove_invite q p v) !! q = Some (c_set_invitees (c_invitees gc ∖ {[p]}) gc)) by (cbn; now rewrite lookup_alter_eq, Eq).
  eapply yields_bind.
  { apply (spec_alter_group _ q _ (fun g => c_set_invitees ({[p]} ∪ c_invitees g) g) _ Eq1); [now intros g <-|done]. }
  eapply yields_bind.
  { apply spec_set_invite. cbn. rewrite lookup_alter_eq. now destruct (v_invite v !! p). }
  assert (Ev : v_set_invite p (Some q) (v_on_group q (fun g => c_set_invitees ({[p]} ∪ c_invitees g) g) (v_remove_invite q p v)) = v_add_invite q p v).
  { unfold v_add_invite, v_remove_invite, v_set_invite, v_on_group, v_with_groups, v_with_invite. cbn. f_equal.
    - rewrite alter_alter_eq. apply alter_ext. intros g _. unfold compose, c_set_invitees. cbn. f_equal. set_unfold. intros z. destruct (decide (z = p)); naive_solver.
    - rewrite alter_alter_eq. now apply alter_ext. }
  rewrite Ev. apply (spec_group_at _ q (c_set_invitees ({[p]} ∪ c_invitees gc) gc)); [cbn; now rewrite lookup_alter_eq, Eq|]. intros g _.
  eapply yields_bind; [apply spec_run_hook; intros; now apply law_invite|]. apply yields_ret.
Qed.

(** ** The tables *)

Lemma spec_INS_GROUP v r : yields v (INS_GROUP r) tt (v_with_dbGroups ({[r_guid r]} ∪ v_dbGroups v) v).
Proof.
  apply spec_modify; [done|]. intros w <-. unfold view, v_with_dbGroups. cbn. f_equal. destruct (w_dbGroups w !! r_guid r) eqn:E.
  - apply set_eq. intros x. rewrite elem_of_union, elem_of_singleton. split; [now right|]. intros [->|]; [apply elem_of_dom; now rewrite E|done].
  - apply dom_insert_L.
Qed.
Lemma spec_alter_dbGroup v store f : yields v (alter_dbGroup store f) tt v.
Proof. apply spec_modify; [done|]. intros w <-. unfold view. cbn. f_equal. apply dom_alter_L. Qed.
Lemma spec_DEL_GROUP v store : yields v (DEL_GROUP store) tt (v_with_dbGroups (v_dbGroups v ∖ {[store]}) v).
Proof. apply spec_modify; [done|]. intros w <-. unfold view, v_with_dbGroups. cbn. f_equal. apply dom_delete_L. Qed.
Lemma spec_INS_GROUP_MEMBER v r :
  v_dbMembers v !! mr_memberGuid r = None ->
  yields v (INS_GROUP_MEMBER r) tt (v_with_dbMembers (<[mr_memberGuid r := member_core r]> (v_dbMembers v)) v).
Proof.
  intros Hn. apply spec_modify; [done|]. intros w Hv. rewrite <- Hv in Hn |- *. cbn in Hn. rewrite lookup_fmap in Hn.
  unfold view, v_with_dbMembers. cbn. f_equal. destruct (w_dbMembers w !! mr_memberGuid r); [done|]. apply fmap_insert.
Qed.
Lemma spec_DEL_GROUP_MEMBER v low : yields v (DEL_GROUP_MEMBER low) tt (v_with_dbMembers (base.delete low (v_dbMembers v)) v).
Proof. apply spec_modify; [done|]. intros w <-. unfold view, v_with_dbMembers. cbn. f_equal. apply fmap_delete. Qed.
Lemma spec_DEL_GROUP_MEMBER_ALL v store :
  yields v (DEL_GROUP_MEMBER_ALL store) tt (v_with_dbMembers (filter (fun e => e.2.1 <> store) (v_dbMembers v)) v).
Proof.
  apply spec_modify; [done|]. intros w <-. unfold view, v_with_dbMembers. cbn. f_equal. apply map_eq. intros i.
  apply option_eq. intros x. rewrite lookup_fmap, fmap_Some, map_lookup_filter_Some, lookup_fmap, fmap_Some. setoid_rewrite map_lookup_filter_Some.
  cbn. split; [intros (r & [Hr Hs] & ->); eauto|intros [(r & Hr & ->) Hs]; eauto].
Qed.
Lemma spec_UPD_SUBGROUP v low sub :
  yields v (UPD_GROUP_MEMBER_SUBGROUP low sub) tt (v_with_dbMembers (alter (fun e => (e.1, sub)) low (v_dbMembers v)) v).
Proof.
  apply spec_modify; [done|]. intros w <-. unfold view, v_with_dbMembers. cbn. f_equal. apply map_eq. intros j. rewrite lookup_fmap.
  destruct (decide (j = low)) as [->|Hne]; [rewrite !lookup_alter_eq, lookup_fmap|rewrite !lookup_alter_ne, lookup_fmap by done; done].
  now destruct (w_dbMembers w !! low).
Qed.
Lemma spec_UPD_FLAG v low flags : yields v (UPD_GROUP_MEMBER_FLAG low flags) tt v.
Proof.
  apply spec_modify; [done|]. intros w <-. unfold view. cbn. f_equal. apply map_eq. intros j. rewrite !lookup_fmap.
  destruct (decide (j = low)) as [->|Hne]; [rewrite lookup_alter_eq|now rewrite lookup_alter_ne]. now destruct (w_dbMembers w !! low).
Qed.
Lemma spec_with_mgr v m : yields v (modify (with_mgr m)) tt (v_with_mgr m v).
Proof. apply spec_modify; [done|]. now intros w <-. Qed.

(** ** Groups come and go *)

Lemma spec_new_group v :
  (forall q, v_groups v !! q <> None -> q < v_alloc v) ->
  yields v new_group_object (v_alloc v)
    (v_with_groups (<[v_alloc v := bare (group_core new_group)]> (v_groups v)) (v_with_alloc (v_alloc v + 1) v)).
Proof.
  intros Hfresh w Hs Hv. set (q := v_alloc v) in *. exists q, (with_heap (<[q := new_group]> (w_heap w)) (with_alloc (q + 1) w)).
  assert (Hw : w_alloc w = q) by (unfold q; now rewrite <- Hv).
  assert (Hnone : w_heap w !! q = None).
  { destruct (w_heap w !! q) eqn:E; [|done]. exfalso. assert (q < q); [|lia]. apply Hfresh. rewrite <- Hv. change (v_groups (view (core w))) with (bare <$> (group_core <$> w_heap w)). now rewrite !lookup_fmap, E. }
  split; [unfold new_group_object; rewrite bind_gets, Hw; reflexivity|]. split; [|split; [done|]].
  - destruct Hs as [[H1 H2 H3 H4] HS HR HI]. split; [split|done| |done]; cbn [k_groups k_players core].
    + intros p pc b q' Hp Hr. destruct (H1 p pc b q' Hp Hr) as (gc & Hg & Hin). exists gc. split; [|done]. cbn in Hg |- *.
      rewrite fmap_insert, lookup_insert_ne; [done|]. intros <-. rewrite lookup_fmap, Hnone in Hg. done.
    + intros q' gc p b Hg Hin. cbn in Hg. rewrite fmap_insert in Hg. apply lookup_insert_Some in Hg as [(<- & <-)|[_ Hg]].
      * now apply elem_of_nil in Hin.
      * now apply (H2 q' gc).
    + intros q' gc Hg. cbn in Hg. rewrite fmap_insert in Hg. apply lookup_insert_Some in Hg as [(<- & <-)|[_ Hg]]; [apply NoDup_nil_2|now apply (H3 q')].
    + exact H4.
    + intros q' gc Hg. cbn in Hg. rewrite fmap_insert in Hg. apply lookup_insert_Some in Hg as [(<- & <-)|[_ Hg]]; [exact HI|now apply (HR q')].
  - rewrite <- Hv. unfold view, v_with_groups, v_with_alloc. cbn. f_equal. now rewrite !fmap_insert.
Qed.
Lemma no_refs_to c v q gc : sane c -> view c = v -> (forall p b, v_rf v p b <> Some q) -> k_groups c !! q = Some gc -> c_refs gc = [].
Proof.
  intros Hs <- Hr Hg. destruct (c_refs gc) as [|[p b] l] eqn:E; [done|]. destruct (ln_from _ (sn_links _ Hs) q gc p b Hg) as (pc & Hp & Hpr); [rewrite E; left|].
  destruct (Hr p b). cbn. unfold rf. now rewrite Hp.
Qed.
(** ** Battlegrounds *)

Lemma leave_filter h r bg side q : Sides h r -> r !! (bg, side) = Some q -> filter (fun e => e.2 <> q) r = base.delete (bg, side) r.
Proof.
  intros HS Hq. apply map_eq. intros k. apply option_eq. intros j. rewrite map_lookup_filter_Some, lookup_delete_Some. cbn. split.
  - intros [Hk Hj]. split; [|done]. intros <-. congruence.
  - intros [Hne Hk]. split; [done|]. intros ->. apply Hne. exact (sd_once _ _ HS _ _ q Hq Hk).
Qed.
Lemma leave_nobody h r q : Sides h r -> (forall bg, h !! q <> Some (Some bg)) -> filter (fun e => e.2 <> q) r = r.
Proof.
  intros HS Hq. apply map_eq. intros [bg side]. apply option_eq. intros j. rewrite map_lookup_filter_Some. cbn. split; [easy|].
  intros Hk. split; [done|]. intros ->. apply (Hq bg). exact (sd_at _ _ HS bg side q Hk).
Qed.
Lemma sides_core w v : view (core w) = v -> bgs v = m_bgGroup <$> w_heap w /\ v_bgRaids v = w_bgRaids w.
Proof. intros <-. split; [|done]. unfold bgs. cbn. rewrite <- !map_fmap_compose. done. Qed.
(** The side is given up, at most. *)
Lemma leave_battleground_eq w q g :
  w_heap w !! q = Some g -> Sides (m_bgGroup <$> w_heap w) (w_bgRaids w) ->
  exists g', leave_battleground q w = (Ret tt, with_bgRaids (filter (fun e => e.2 <> q) (w_bgRaids w)) (with_heap (<[q := g']> (w_heap w)) w)) /\
    m_memberMgr g' = m_memberMgr g.
Proof.
  intros Hq HS. unfold leave_battleground. rewrite (bind_eq _ _ _ _ _ (group_at_eq w q g Hq)).
  assert (Hh : (m_bgGroup <$> w_heap w) !! q = Some (m_bgGroup g)) by now rewrite lookup_fmap, Hq. destruct (m_bgGroup g) as [bg|] eqn:Eb.
  2:{ exists g. split; [|done]. rewrite (leave_nobody _ _ q HS) by (intros bg; congruence). rewrite insert_id by done. now destruct w. }
  exists (set_m_bgGroup None g). split; [|done]. destruct (sd_of _ _ HS q bg Hh) as [side Hside].
  assert (Hset : SetBgRaid bg side None w = (Ret tt, with_bgRaids (filter (fun e => e.2 <> q) (w_bgRaids w)) (with_heap (<[q := set_m_bgGroup None g]> (w_heap w)) w))).
  { unfold SetBgRaid, GetBgRaid. rewrite bind_gets, Hside. unfold alter_group. unfold bind at 1. rewrite (bind_eq _ _ _ _ _ (group_at_eq w q g Hq)).
    cbn. now rewrite (leave_filter _ _ bg side q HS Hside). }
  unfold GetBgRaid. rewrite bind_gets. case_bool_decide as Ha.
  - assert (E : (bg, true) = (bg, side)) by exact (sd_once _ _ HS _ _ q Ha Hside). injection E as <-. exact Hset.
  - assert (side = false) as -> by (destruct side; done). rewrite bind_gets, Hside, bool_decide_eq_true_2 by done. exact Hset.
Qed.
Lemma spec_delete_group v q :
  v_groups v !! q <> None -> (forall p b, v_rf v p b <> Some q) -> Sides (bgs v) (v_bgRaids v) -> yields v (delete_group q) tt (v_delete q v).
Proof.
  intros Hq Hr HSd. destruct (v_groups v !! q) as [gc|] eqn:Eq; [|done]. intros w Hs Hv. destruct (sides_core w v Hv) as [Eb Er]. rewrite Eb, Er in HSd.
  destruct (view_group_at _ _ _ _ Hv Eq) as (g0 & Hg0 & _). destruct (heap_core w q g0 Hg0) as (g & Hg & Eg).
  assert (En : m_memberMgr g = []) by (change (c_refs (group_core g) = []); rewrite Eg; now apply (no_refs_to (core w) v q)).
  destruct (leave_battleground_eq w q g Hg HSd) as (g' & E1 & E2). set (r := filter _ (w_bgRaids w)) in *.
  exists tt, (with_bgRaids r (with_heap (base.delete q (w_heap w)) w)). split.
  { unfold delete_group. rewrite (bind_eq _ _ _ _ _ E1). set (w1 := with_bgRaids r _).
    assert (Hg1 : w_heap w1 !! q = Some g') by (cbn; now rewrite lookup_insert_eq). rewrite (bind_eq _ _ _ _ _ (group_at_eq w1 q g' Hg1)), E2, En.
    transitivity (Ret (E := Empty_set) tt, with_heap (base.delete q (w_heap w1)) w1); [reflexivity|]. unfold w1. cbn [w_heap with_bgRaids with_heap].
    now rewrite delete_insert_eq. }
  split; [|split; [done|]].
  - destruct Hs as [[H1 H2 H3 H4] HS HR HI]. split; [split|done| |done]; cbn [k_groups k_players core].
    + intros p pc b q' Hp Hpr. destruct (H1 p pc b q' Hp Hpr) as (gc' & Hg' & Hin). exists gc'. split; [|done]. cbn.
      rewrite fmap_delete, lookup_delete_ne; [done|]. intros <-. apply (Hr p b). rewrite <- Hv. cbn in Hp |- *. unfold rf. cbn. now rewrite Hp.
    + intros q' gc' p b Hg' Hin. cbn in Hg'. rewrite fmap_delete in Hg'. apply lookup_delete_Some in Hg' as [_ Hg']. now apply (H2 q' gc').
    + intros q' gc' Hg'. cbn in Hg'. rewrite fmap_delete in Hg'. apply lookup_delete_Some in Hg' as [_ Hg']. now apply (H3 q').
    + exact H4.
    + intros q' gc' Hg'. cbn in Hg'. rewrite fmap_delete in Hg'. apply lookup_delete_Some in Hg' as [_ Hg']. now apply (HR q').
  - unfold v_delete. rewrite Er, <- Hv. unfold view, v_with_groups, v_with_bgRaids. cbn. f_equal. now rewrite !fmap_delete.
Qed.
(** The first group of a side, and none for a side that has none. *)
Definition c_set_bg (bg : Z) (g : GroupCore) : GroupCore :=
  mkGroupCore (c_slots g) (c_refs g) (c_leader g) (c_invitees g) (c_counts g) (c_guid g) (c_store g) true (Some bg) (c_raid g) (c_lfg g) (c_rolls g).
Lemma spec_GetBgRaid {B} v bg side (k : option Z -> G B) Q : spec v (k (v_bgRaids v !! (bg, side))) Q -> spec v (bind (GetBgRaid bg side) k) Q.
Proof. intros H. unfold GetBgRaid. apply (spec_gets _ _ _ (fun o => o = v_bgRaids v !! (bg, side))); [now intros w <-|now intros a ->]. Qed.
Lemma spec_SetBgRaid_new v bg side q gc :
  v_groups v !! q = Some gc -> v_bgRaids v !! (bg, side) = None ->
  yields v (SetBgRaid bg side (Some q)) tt (v_with_bgRaids (<[(bg, side) := q]> (v_bgRaids v)) (v_on_group q (c_set_bg bg) v)).
Proof.
  intros Hq Hn. unfold SetBgRaid. apply spec_GetBgRaid. rewrite Hn. eapply yields_bind; [apply yields_ret|].
  eapply yields_bind; [apply (spec_alter_group v q _ (c_set_bg bg) gc Hq); [now intros g <-|done]|].
  apply spec_modify; [done|]. intros w Hv. pose proof (proj2 (sides_core w _ Hv)) as Er. cbn in Er. rewrite Er, <- Hv. done.
Qed.
Lemma spec_SetBgRaid_none v bg side : v_bgRaids v !! (bg, side) = None -> yields v (SetBgRaid bg side None) tt v.
Proof.
  intros Hn. unfold SetBgRaid. apply spec_GetBgRaid. rewrite Hn. eapply yields_bind; [apply yields_ret|]. eapply yields_bind; [apply yields_ret|].
  apply spec_modify; [done|]. intros w Hv. destruct (sides_core w _ Hv) as [_ Er]. rewrite <- Hv. unfold view. cbn. f_equal. rewrite delete_id; [done|]. now rewrite <- Er.
Qed.

(** ** What only sends *)

Lemma spec_SendUpdate v q : v_groups v !! q <> None -> yields v (SendUpdate q) tt v.
Proof. intros Hq. apply quiet_yields. intros c _ Hv. apply quiet_SendUpdate. now apply (view_group c v). Qed.
Lemma spec_UpdatePlayerOutOfRange v q p : v_groups v !! q <> None -> yields v (UpdatePlayerOutOfRange q p) tt v.
Proof. intros Hq. apply quiet_yields. intros c _ Hv. apply quiet_UpdatePlayerOutOfRange. now apply (view_group c v). Qed.
Lemma spec_broadcast v q name : v_groups v !! q <> None -> yields v (broadcast_set_leader q name) tt v.
Proof. intros Hq. apply quiet_yields. intros c Hs Hv. apply quiet_broadcast; [apply Hs|]. now apply (view_group c v). Qed.
Lemma spec_BroadcastGroupUpdate v q : v_groups v !! q <> None -> yields v (BroadcastGroupUpdate q) tt v.
Proof. intros Hq. apply quiet_yields. intros c _ Hv. apply quiet_BroadcastGroupUpdate. now apply (view_group c v). Qed.
Lemma spec_ResetMaxEnchantingLevel v q : v_groups v !! q <> None -> yields v (ResetMaxEnchantingLevel q) tt v.
Proof. intros Hq. apply quiet_yields. intros c _ Hv. apply quiet_ResetMaxEnchantingLevel. now apply (view_group c v). Qed.
Lemma spec_join_difficulties v q p : v_groups v !! q <> None -> v_invite v !! p <> None -> yields v (join_difficulties q p) tt v.
Proof.
  intros Hq Hp. apply quiet_yields. intros c _ Hv. apply quiet_join_difficulties; [now apply (view_group c v)|now apply (view_player c v)].
Qed.

(** ** References *)

Lemma spec_join_refs v q p sub gc :
  v_groups v !! q = Some gc -> v_invite v !! p <> None -> sub_ok sub ->
  yields v (join_refs q p sub) tt (v_with_rf (joined_refs (c_pvp gc) q p (v_rf v)) v).
Proof.
  intros Hq Hp Hs. apply relinks_yields. intros w HL Hv. destruct (view_group_at _ _ _ _ Hv Hq) as (g0 & Hg0 & E0).
  assert (Ep : c_pvp gc = c_pvp g0) by now rewrite <- E0. rewrite Ep, <- Hv.
  apply (relinks_join_refs w q p sub g0); [done| |done|done]. now apply (view_player _ v).
Qed.
Lemma spec_leave_refs v q pvp p :
  v_invite v !! p <> None -> yields v (leave_refs q pvp p) tt (v_with_rf (left_refs pvp q p (v_rf v)) v).
Proof.
  intros Hp. apply relinks_yields. intros w HL Hv. rewrite <- Hv. apply (relinks_leave w q pvp p HL). now apply (view_player _ v).
Qed.
Lemma spec_RemoveFromBattleground v p :
  v_invite v !! p <> None ->
  yields v (RemoveFromBattlegroundOrBattlefieldRaid p) tt (v_with_rf (left_refs true 0 p (v_rf v)) v).
Proof. intros Hp. exact (spec_leave_refs v 0 true p Hp). Qed.
Lemma spec_DelinkMember v q p :
  v_groups v !! q <> None -> (forall b, v_rf v p b <> Some q) -> yields v (DelinkMember q p) tt v.
Proof.
  intros Hq Hr w Hs Hv. exists tt, w. split; [|done]. apply DelinkMember_none; [apply Hs|now apply (view_group _ v)|]. now rewrite <- Hv in Hr.
Qed.

(** ** Counters and rolls *)

Definition c_count (sub step : Z) (g : GroupCore) : GroupCore :=
  c_set_counts (alter (fun n => u8 (n + step)) (Z.to_nat sub) <$> c_counts g) g.
Definition counts_room (sub : Z) (gc : GroupCore) : Prop := forall counts, c_counts gc = Some counts -> (Z.to_nat sub < length counts)%nat.
Lemma spec_counter v q (f : Group -> option Group) fc gc :
  v_groups v !! q = Some gc ->
  (forall g, bare (group_core g) = gc -> exists g', f g = Some g' /\ bare (group_core g') = fc gc /\ m_memberMgr g' = m_memberMgr g /\ RollId g' = RollId g) ->
  yields v (counter f q) tt (v_on_group q fc v).
Proof.
  intros Hq Hf. unfold counter. intros w Hs Hv. destruct (view_group_at _ _ _ _ Hv Hq) as (g0 & Hg0 & E0).
  destruct (heap_core w q g0 Hg0) as (g & Hg & Eg). destruct (Hf g) as (g' & Ef & Eb & Em & Er); [now rewrite Eg|].
  rewrite (bind_eq _ _ _ _ _ (group_at_eq w q g Hg)), Ef. cbn [of_option].
  exists tt, (with_heap (<[q := g']> (w_heap w)) w). split; [done|].
  assert (Ec : core (with_heap (<[q := g']> (w_heap w)) w) = k_on_group q (fun _ => group_core g') (core w)).
  { unfold core, k_on_group, k_with_groups. cbn. f_equal. rewrite fmap_insert. apply map_eq. intros j. destruct (decide (j = q)) as [->|Hne].
    - now rewrite lookup_insert_eq, lookup_alter_eq, lookup_fmap, Hg.
    - now rewrite lookup_insert_ne, lookup_alter_ne. }
  rewrite Ec. split.
  - apply (on_group_sane _ q g0); [done|done|rewrite <- Eg; exact Em|]. cbn. rewrite Er. rewrite <- Eg in Hg0. exact (sn_rolls _ Hs q _ Hg0).
  - split; [done|]. rewrite <- Hv. apply (on_group_view _ _ g0); [done|]. now rewrite Eb, E0.
Qed.
Lemma spec_count v q sub step gc :
  v_groups v !! q = Some gc -> counts_room sub gc -> yields v (counter (count_at sub step) q) tt (v_on_group q (c_count sub step) v).
Proof.
  intros Hq Hr. apply (spec_counter v q _ _ gc Hq). intros g <-. unfold count_at, counts_room, c_count in *. cbn in *.
  destruct (m_subGroupsCounts g) as [counts|] eqn:E.
  - destruct (lookup_lt_is_Some_2 counts (Z.to_nat sub) (Hr counts eq_refl)) as [n En]. rewrite En. eexists. split; [reflexivity|].
    split; [|done]. replace (<[Z.to_nat sub := u8 (n + step)]> counts) with (alter (fun n => u8 (n + step)) (Z.to_nat sub) counts).
    { unfold bare, c_set_counts. cbn. done. }
    apply list_eq. intros j. destruct (decide (j = Z.to_nat sub)) as [->|Hne].
    + rewrite list_lookup_alter_eq, En, list_lookup_insert_eq; [done|]. now apply lookup_lt_Some in En.
    + now rewrite list_lookup_alter_ne, list_lookup_insert_ne.
  - exists g. split; [done|]. split; [|done]. unfold bare, c_set_counts. unfold group_core. cbn. now rewrite E.
Qed.
Lemma spec_on_rolls v q p : v_groups v !! q <> None -> yields v (on_rolls q (RemoveFromRolls p)) tt v.
Proof.
  intros Hq w Hs Hv. destruct (v_groups v !! q) as [gc|] eqn:Eq; [|done]. destruct (view_group_at _ _ _ _ Hv Eq) as (g0 & Hg0 & _).
  destruct (heap_core w q g0 Hg0) as (g & Hg & Eg).
  assert (Hok : rolls_ok (loot_world g (w_loot w))).
  { apply (rolls_ok_kept (roll_world (RollId g) (w_loot w))); [now apply loots_kept_refl|done|done|]. rewrite <- Eg in Hg0. exact (sn_rolls _ Hs q _ Hg0). }
  destruct (RemoveFromRolls_eq p _ Hok) as [Er Hok']. unfold on_rolls. rewrite (bind_eq _ _ _ _ _ (group_at_eq w q g Hg)), bind_gets.
  rewrite Er. set (l := map (taken_back p) (rolls (loot_world g (w_loot w)))) in *. set (g' := set_RollId l g).
  exists tt, (with_loot (mkLootRest (lr_loots (w_loot w)) (lr_itemGuid (w_loot w)) (lr_timers (w_loot w)) (lr_drawn (w_loot w)) (lr_trace (w_loot w)))
               (with_heap (<[q := g']> (w_heap w)) w)). split; [done|].
  set (w' := with_loot _ _).
  assert (Ec : core w' = k_on_group q (fun _ => group_core g') (core w)).
  { unfold w', core, k_on_group, k_with_groups. cbn. f_equal; [|now destruct (w_loot w)]. rewrite fmap_insert. apply map_eq. intros j.
    destruct (decide (j = q)) as [->|Hne].
    - now rewrite lookup_insert_eq, lookup_alter_eq, lookup_fmap, Hg.
    - now rewrite lookup_insert_ne, lookup_alter_ne. }
  rewrite Ec. split.
  - apply (on_group_sane _ q g0); [done|done|now rewrite <- Eg|]. cbn.
    apply (rolls_ok_kept (set_rolls l (loot_world g (w_loot w)))); [now apply loots_kept_refl|done|done|done].
  - split; [done|]. rewrite <- Hv. rewrite (on_group_view _ q g0 _ (fun x => x)); [|done|now rewrite <- Eg].
    rewrite <- Hv in Eq. now apply (v_on_group_id q _ _ gc).
Qed.
End Specs.
