(* ===== verification/GroupFinder.v ===== *)
(** * Groups: the dungeon finder as the scripts of the groups
    (src/server/game/DungeonFinding/LFGScripts.cpp, as Group.cpp calls it)

    The manager of [LfgMgr] with the hooks of [LfgScripts] is an instance of
    [GroupScripts]: in every state with the invariant of [LfgInvariant] each hook
    returns and leaves such a state, which discharges [GroupScriptLaws].  The world
    the hooks see is that of the call: who is connected, which groups exist. *)

From stdpp Require Import base gmap list.
From Stdlib Require Import ZArith Lia.
From S2P Require Import Prelude StdMap ObjectGuid LfgRoles LfgData LfgQueue LfgMatch LfgMgr LfgInvariant LfgScripts ActionLogic GroupTypes GroupMgr GroupLoot GroupWorld GroupView.
#[local] Open Scope Z_scope.

Import LFGMgr.

Section Hooks.
Context {world : LfgWorld}.
Hypothesis random_range : forall n lo hi, lo <= hi -> lo <= random n lo hi <= hi.

(** Leaving the finder returns: a proposal has players. *)
Lemma LeaveLfg_some guid m : Inv m -> exists m', LeaveLfg guid m = Some m'.
Proof.
  intros Hm. unfold LeaveLfg. destruct (GetState m guid); try (eexists; reflexivity).
  destruct (List.find _ _) as [[id p]|] eqn:Ef; [|eexists; reflexivity].
  apply find_some in Ef as [Hin _]. apply list_elem_of_In, elem_of_entries in Hin. pose proof (inv_proposals _ Hm id p Hin) as Hp.
  apply (RemoveProposal_some _ _ _ (with_p_players p (alter (fun pp => with_accept pp LFG_ANSWER_DENY) (if (if IS_GROUP_GUID guid then guid else GetGroup m guid) =? guid then GetLeader m (if IS_GROUP_GUID guid then guid else GetGroup m guid) else guid) (p_players p)))).
  - cbn. apply lookup_insert_eq.
  - intros E. pose proof (pw_size _ Hp) as Hs. apply (f_equal dom) in E. cbn in E. rewrite dom_alter_L, dom_empty_L in E. apply dom_empty_iff_L in E. now rewrite E in Hs.
Qed.
Lemma leave_returns guid m : Inv m -> exists m', LeaveLfg guid m = Some m' /\ Inv m'.
Proof. intros Hm. destruct (LeaveLfg_some guid m Hm) as [m' E]. exists m'. split; [done|]. exact (LeaveLfg_inv random_range guid m m' E Hm). Qed.
Lemma Inv_people m m' : only_people m m' -> Inv m -> Inv m'.
Proof. intros H. apply core_Inv. now apply people_core. Qed.
(** A step that may be left out. *)
Lemma when_returns (b : bool) (f : Mgr -> option Mgr) m :
  Inv m -> (exists m', f m = Some m' /\ Inv m') -> exists m', (if b then f m else Some m) = Some m' /\ Inv m'.
Proof. intros Hm Hf. destruct b; [done|]. now exists m. Qed.

Lemma OnAddMember_returns gguid leader guid m : Inv m -> exists m', OnAddMember gguid leader guid m = Some m' /\ Inv m'.
Proof.
  intros Hm. unfold OnAddMember. destruct (negb _); [now exists m|]. cbn zeta.
  assert (Hnote : forall m1, Inv m1 -> exists m', Some (AddPlayerToGroup gguid guid (SetGroup guid gguid m1)) = Some m' /\ Inv m').
  { intros m1 H1. eexists. split; [reflexivity|]. apply (Inv_people m1); [|done]. unfold AddPlayerToGroup. people. }
  destruct (leader =? guid).
  - apply Hnote. apply (Inv_people m); [|done]. unfold SetLeader. people.
  - destruct (when_returns (bool_decide (GetState m guid = LFG_STATE_QUEUED)) (LeaveLfg guid) m Hm (leave_returns guid m Hm)) as (m1 & -> & H1).
    destruct (when_returns (bool_decide (GetState m gguid = LFG_STATE_QUEUED)) (LeaveLfg gguid) m1 H1 (leave_returns gguid m1 H1)) as (m2 & -> & H2). now apply Hnote.
Qed.
Lemma TeleportPlayer_people p grp out op m : only_people m (TeleportPlayer p grp out op m).
Proof. unfold TeleportPlayer, teleport_in. cbn zeta. people. Qed.
Lemma removed_people method st n isLFG guid pl m : only_people m (removed_player method st n isLFG guid pl m).
Proof.
  unfold removed_player. destruct pl as [[p grp]|]; [|reflexivity]. cbn zeta. destruct (isLFG && _); [etransitivity; [|apply TeleportPlayer_people]|]; people.
Qed.
Lemma OnRemoveMember_returns gguid isLFG guid method kicker why pl m :
  Inv m -> exists m', OnRemoveMember gguid isLFG guid method kicker why pl m = Some m' /\ Inv m'.
Proof.
  intros Hm. unfold OnRemoveMember. destruct (negb _); [now exists m|].
  destruct (isLFG && _); [eexists; split; [reflexivity|]; apply (core_Inv m); [apply InitBoot_other|done]|]. cbn zeta.
  assert (Hout : forall m1, Inv m1 -> Inv (RemovePlayerFromGroup gguid guid (SetGroup guid 0 m1)).2).
  { intros m1. apply Inv_people. unfold RemovePlayerFromGroup. cbn [snd]. people. }
  destruct (_ && _); [eexists; split; [reflexivity|now apply Hout]|].
  destruct (leave_returns guid m Hm) as (m1 & -> & H1). specialize (Hout m1 H1).
  destruct (RemovePlayerFromGroup gguid guid (SetGroup guid 0 m1)) as [n m2]. cbn [snd] in Hout. eexists. split; [reflexivity|].
  apply (Inv_people m2); [|done]. destruct (_ && _); [etransitivity; [|apply people_send]|]; apply removed_people.
Qed.
Lemma OnDisband_inv gguid m : Inv m -> Inv (OnDisband gguid m).
Proof.
  intros Hm. unfold OnDisband. destruct (negb _); [done|]. unfold RemoveGroupData. destruct (GroupsStore m !! gguid) as [d|]; [|done]. cbn zeta.
  match goal with |- Inv (with_groups (foldl ?f m ?l) ?s) => assert (H : only_people m (foldl f m l)) end.
  { people. unfold remove_group_member. people. }
  apply (core_Inv m); [|done]. destruct H. now split_and!.
Qed.
Lemma OnInviteMember_returns gguid leader m : Inv m -> exists m', OnInviteMember gguid leader m = Some m' /\ Inv m'.
Proof.
  intros Hm. unfold OnInviteMember. destruct (negb _); [now exists m|]. apply (when_returns _ (LeaveLfg leader)); [done|now apply leave_returns].
Qed.
End Hooks.

Section Finder.
(** The rest of the server, as the finder sees it. *)
Context (server : LfgWorld).

Definition finder_world (v : HookView) : LfgWorld :=
  mkLfgWorld time (hv_connected v) social_ignores random two_side_group player_view holiday access_requirement (hv_group_exists v).
#[export] Instance finder_scripts : GroupScripts := {|
  Script := Mgr;
  OnGroupAddMember v g l p := OnAddMember (world := finder_world v) g l p;
  OnGroupRemoveMember v := OnRemoveMember (world := finder_world v);
  OnGroupChangeLeader _ g l m := Some (OnChangeLeader g l m);
  OnGroupDisband _ g m := Some (OnDisband g m);
  OnGroupInviteMember v g l := OnInviteMember (world := finder_world v) g l;
  lfg_finished m g := bool_decide (GetState m g = LFG_STATE_FINISHED_DUNGEON);
  lfg_dungeon m g := GetDungeon m g true;
  lfg_dungeon_map := GetDungeonMapId;
  script_ok := Inv
|}.
Hypothesis random_range : forall n lo hi, lo <= hi -> lo <= random n lo hi <= hi.
Lemma finder_laws : GroupScriptLaws.
Proof.
  split; cbn; intros.
  - now apply OnAddMember_returns.
  - now apply OnRemoveMember_returns.
  - eexists. split; [reflexivity|]. unfold OnChangeLeader. destruct (negb _); [done|]. apply (Inv_people s); [|done]. unfold SetLeader. people.
  - eexists. split; [reflexivity|]. now apply OnDisband_inv.
  - now apply OnInviteMember_returns.
Qed.
End Finder.
