(* ===== verification/GroupOps.v ===== *)
(** * Groups: the operations on members, on views

    One lemma for each operation of [Group]: where it may be called, that it returns,
    and the view it leaves. *)

From stdpp Require Import base gmap list.
From Stdlib Require Import ZArith Lia FunctionalExtensionality.
From S2P Require Import Prelude StdMap ObjectGuid LfgData LfgScripts ActionLogic GroupTypes GroupMgr GroupLoot GroupLootInv GroupWorld Group GroupCore GroupView.
#[local] Open Scope Z_scope.

Section Ops.
Context `{scripts : GroupScripts} `{outside : GroupOutside} `{loots : LootView} `{laws : !GroupScriptLaws}.

(** Rewrites the [let!] of a program into steps of [yields]. *)
Ltac step_with L := eapply yields_bind; [solve [L]|].

Definition c_set_store (s : Z) (g : GroupCore) : GroupCore :=
  mkGroupCore (c_slots g) (c_refs g) (c_leader g) (c_invitees g) (c_counts g) (c_guid g) s (c_pvp g) (c_bg g) (c_raid g) (c_lfg g) (c_rolls g).
Definition members (g : GroupCore) : list Z := map fst (c_slots g).

(** ** A new member *)

Definition c_add (p sub : Z) (g : GroupCore) : GroupCore := c_count sub 1 (c_set_slots (c_slots g ++ [(p, sub)]) g).
Definition add_row (gc : GroupCore) (p sub : Z) (db : gmap Z (Z * Z)) : gmap Z (Z * Z) :=
  if c_pvp gc then db else <[GUID_LOPART p := (c_store gc, sub)]> db.
Definition v_add (q p sub : Z) (gc : GroupCore) (v : View) : View :=
  v_with_dbMembers (add_row gc p sub (v_dbMembers v))
    (v_with_rf (joined_refs (c_pvp gc) q p (v_rf v)) (v_set_invite p None (v_on_group q (c_add p sub) v))).
(** The sub group of the next member. *)
Definition next_sub (gc : GroupCore) : option Z := match c_counts gc with None => Some 0 | Some counts => first_free counts end.

Lemma on_group_at q v f gc : v_groups v !! q = Some gc -> v_groups (v_on_group q f v) !! q = Some (f gc).
Proof. intros H. cbn. now rewrite lookup_alter_eq, H. Qed.
Lemma set_invite_at p o v : v_invite v !! p <> None -> v_invite (v_set_invite p o v) !! p = Some o.
Proof. intros H. cbn. rewrite lookup_alter_eq. now destruct (v_invite v !! p). Qed.

Lemma spec_AddMember v q p gc sub :
  v_groups v !! q = Some gc -> v_invite v !! p <> None -> next_sub gc = Some sub -> sub_ok sub -> counts_room sub gc ->
  (c_pvp gc = false -> v_dbMembers v !! GUID_LOPART p = None) ->
  yields v (AddMember q p) true (v_add q p sub gc v).
Proof.
  intros Hq Hp Hn Hs Hr Hdb. unfold AddMember. apply (spec_group_at v q gc); [done|]. intros g Eg. apply spec_player_at; [done|]. intros x _ _ _.
  assert (En : first_sub_group g = next_sub gc) by now rewrite <- Eg. rewrite En, Hn.
  assert (Epvp : is_pvp g = c_pvp gc) by now rewrite <- Eg. assert (Est : m_dbStoreId g = c_store gc) by now rewrite <- Eg.
  set (f1 := fun g => c_set_slots (c_slots g ++ [(p, sub)]) g).
  eapply yields_bind.
  { apply (spec_alter_group v q _ f1 gc Hq); [|done]. intros g1 <-. unfold bare, f1, group_core. cbn. now rewrite map_app. }
  assert (H1 := on_group_at q v f1 gc Hq).
  eapply yields_bind; [apply (spec_count _ q sub 1 _ H1); exact Hr|].
  set (v2 := v_on_group q (c_count sub 1) (v_on_group q f1 v)).
  assert (E2 : v2 = v_on_group q (c_add p sub) v).
  { unfold v2, v_on_group, v_with_groups. cbn. f_equal. rewrite alter_alter_eq. now apply alter_ext. }
  rewrite E2. clearbody v2. clear E2 v2. assert (H2 := on_group_at q v (c_add p sub) gc Hq). set (v2 := v_on_group q (c_add p sub) v) in *.
  assert (Hp2 : v_invite v2 !! p <> None) by done.
  eapply yields_bind; [now apply spec_set_invite|]. set (v3 := v_set_invite p None v2).
  assert (Hp3 : v_invite v3 !! p <> None) by (unfold v3; now rewrite set_invite_at).
  assert (H3 : v_groups v3 !! q = Some (c_add p sub gc)) by exact H2.
  eapply yields_bind; [now apply (spec_join_refs v3 q p sub _ H3)|].
  change (c_pvp (c_add p sub gc)) with (c_pvp gc). change (v_rf v3) with (v_rf v). set (v4 := v_with_rf _ v3).
  eapply yields_bind; [apply spec_tell|].
  assert (H4 : v_groups v4 !! q <> None) by (change (v_groups v3 !! q <> None); now rewrite H3).
  eapply yields_bind; [apply yields_when; [|reflexivity]; intros _; now apply spec_alter_group_same|].
  eapply yields_bind with (v1 := v_add q p sub gc v).
  { unfold v_add, add_row. rewrite Epvp. apply yields_when; intros Eb; apply (f_equal negb) in Eb; rewrite negb_involutive in Eb; cbn [negb] in Eb; rewrite Eb; [|unfold v4; rewrite Eb; reflexivity].
    rewrite Est. eapply yields_eq; [apply spec_INS_GROUP_MEMBER; now apply Hdb|]. unfold v4. now rewrite Eb. }
  set (v5 := v_add q p sub gc v). assert (H5 : v_groups v5 !! q = Some (c_add p sub gc)) by exact H2.
  assert (H5' : v_groups v5 !! q <> None) by now rewrite H5. assert (Hp5 : v_invite v5 !! p <> None) by exact Hp3. clearbody v5.
  eapply yields_bind; [now apply spec_SendUpdate|]. eapply spec_group_at; [exact H5|]. intros g5 _.
  eapply yields_bind; [apply spec_run_hook; intros; now apply law_add|].
  eapply yields_bind; [apply yields_when; [|reflexivity]; intros _; now apply spec_join_difficulties|].
  eapply yields_bind; [now apply spec_UpdatePlayerOutOfRange|].
  eapply yields_bind; [apply yields_when; [|reflexivity]; intros _; apply spec_tell|].
  eapply yields_bind; [apply spec_tell|].
  eapply yields_bind; [apply spec_alter_group_same; [done|]; intros g6; now case_if|]. apply yields_ret.
Qed.
Lemma spec_AddMember_full v q p gc :
  v_groups v !! q = Some gc -> v_invite v !! p <> None -> next_sub gc = None -> yields v (AddMember q p) false v.
Proof.
  intros Hq Hp Hn. unfold AddMember. apply (spec_group_at v q gc); [done|]. intros g Eg. apply spec_player_at; [done|]. intros x _ _ _.
  assert (En : first_sub_group g = next_sub gc) by now rewrite <- Eg. rewrite En, Hn. apply yields_ret.
Qed.

(** ** A new group *)

(** The settings of a group that gets its guid and its number. *)
Definition c_create (low leader store : Z) (g : GroupCore) : GroupCore :=
  let raid := c_pvp g || c_raid g in
  mkGroupCore (c_slots g) (c_refs g) leader (c_invitees g) (if raid then Some (repeat 0 (Z.to_nat MAX_RAID_SUBGROUPS)) else c_counts g)
    (MAKE_NEW_GUID low 0 HIGHGUID_GROUP) store (c_pvp g) (c_bg g) raid (negb (c_pvp g) && c_lfg g) (c_rolls g).
Definition next_guid (m : GroupMgr) : GroupMgr := (GenerateGroupId m).2.
Definition next_store (m : GroupMgr) : Z := (GenerateNewGroupDbStoreId (next_guid m)).1.1.
Definition create_store (gc : GroupCore) (m : GroupMgr) : Z := if c_pvp gc then c_store gc else next_store m.
Definition create_mgr (q : Z) (gc : GroupCore) (m : GroupMgr) : GroupMgr :=
  if c_pvp gc then next_guid m else RegisterGroupDbStoreId (next_store m) q (GenerateNewGroupDbStoreId (next_guid m)).2.
(** Everything before the leader is added. *)
Definition v_create (q leader : Z) (gc : GroupCore) (v : View) : View :=
  v_with_dbGroups (if c_pvp gc then v_dbGroups v else {[next_store (v_mgr v)]} ∪ v_dbGroups v)
    (v_with_mgr (create_mgr q gc (v_mgr v)) (v_on_group q (c_create (NextGroupId (v_mgr v)) leader (create_store gc (v_mgr v))) v)).
Definition created (leader : Z) (gc : GroupCore) (m : GroupMgr) : GroupCore := c_create (NextGroupId m) leader (create_store gc m) gc.

Lemma create_settings_core low leader x g :
  m_memberSlots g = [] ->
  exists g', create_settings low leader x g = Some g' /\
    bare (group_core g') = c_create low leader (m_dbStoreId g) (bare (group_core g)) /\ m_memberMgr g' = m_memberMgr g /\ RollId g' = RollId g.
Proof.
  intros Hs. unfold create_settings. set (g1 := set_m_leaderName _ _). assert (Ep : is_pvp g1 = is_pvp g) by done. cbn zeta. rewrite Ep.
  set (g2 := if is_pvp g then _ else g1).
  assert (E2 : m_memberSlots g2 = [] /\ is_pvp g2 = is_pvp g /\ isRaidGroup g2 = is_pvp g || isRaidGroup g /\ isLFGGroup g2 = negb (is_pvp g) && isLFGGroup g).
  { unfold g2. destruct (is_pvp g) eqn:E; split_and!; try done. }
  destruct E2 as (E2s & E2p & E2r & E2l).
  assert (E2f : m_leaderGuid g2 = leader /\ m_invitees g2 = m_invitees g /\ m_subGroupsCounts g2 = m_subGroupsCounts g /\
    m_guid g2 = MAKE_NEW_GUID low 0 HIGHGUID_GROUP /\ m_dbStoreId g2 = m_dbStoreId g /\ m_bgGroup g2 = m_bgGroup g /\
    m_memberMgr g2 = m_memberMgr g /\ RollId g2 = RollId g) by (unfold g2; destruct (is_pvp g); now split_and!).
  clearbody g2. destruct E2f as (F1 & F2 & F3 & F4 & F5 & F6 & F7 & F8).
  set (o := if isRaidGroup g2 then initRaidSubGroupsCounter g2 else Some g2).
  assert (Eo : exists g3, o = Some g3 /\ g3 = set_m_subGroupsCounts
                 (if is_pvp g || isRaidGroup g then Some (repeat 0 (Z.to_nat MAX_RAID_SUBGROUPS)) else m_subGroupsCounts g) g2).
  { unfold o. rewrite E2r. destruct (is_pvp g || isRaidGroup g).
    - unfold initRaidSubGroupsCounter. change (m_memberSlots (set_m_subGroupsCounts ?c g2)) with (m_memberSlots g2). rewrite E2s. cbn [foldl]. now eexists.
    - exists g2. split; [done|]. rewrite <- F3. now destruct g2. }
  destruct Eo as (g3 & -> & E3). eexists. split; [reflexivity|].
  set (g4 := if negb (isLFGGroup g3) then set_m_lootMethod GROUP_LOOT g3 else g3).
  assert (H4 : group_core g4 = group_core g3 /\ m_memberMgr g4 = m_memberMgr g3 /\ RollId g4 = RollId g3) by (unfold g4; now destruct (isLFGGroup g3)).
  destruct H4 as (H4 & H4m & H4r). set (g5 := set_m_raidDifficulty _ (set_m_dungeonDifficulty _ (set_m_masterLooterGuid _ _))).
  assert (H5 : group_core g5 = group_core g3) by (rewrite <- H4; done).
  assert (H6 : group_core (if is_pvp g5 then g5 else set_m_raidDifficulty (gp_raidDifficulty x) (set_m_dungeonDifficulty (gp_dungeonDifficulty x) g5)) = group_core g3).
  { rewrite <- H5. now destruct (is_pvp g5). }
  rewrite H6. split; [|split].
  - rewrite E3. unfold bare, c_create, group_core. cbn -[repeat Z.to_nat is_pvp isRaidGroup isLFGGroup m_bgGroup].
    change (is_pvp (set_m_subGroupsCounts ?c g2)) with (is_pvp g2). change (isRaidGroup (set_m_subGroupsCounts ?c g2)) with (isRaidGroup g2).
    change (isLFGGroup (set_m_subGroupsCounts ?c g2)) with (isLFGGroup g2). change (m_bgGroup (set_m_subGroupsCounts ?c g2)) with (m_bgGroup g2).
    rewrite E2s, E2p, E2r, E2l, F1, F2, F4, F5, F6, Hs. done.
  - transitivity (m_memberMgr g3); [|now rewrite E3]. rewrite <- H4m. now destruct (is_pvp g5).
  - transitivity (RollId g3); [|now rewrite E3]. rewrite <- H4r. now destruct (is_pvp g5).
Qed.

Lemma created_sub leader gc m : (c_raid gc = false -> c_counts gc = None) -> next_sub (created leader gc m) = Some 0 /\ counts_room 0 (created leader gc m).
Proof.
  intros Hn. unfold next_sub, counts_room, created, c_create. cbn -[repeat]. destruct (c_pvp gc || c_raid gc) eqn:E.
  - split; [done|]. intros counts [= <-]. vm_compute. lia.
  - apply orb_false_iff in E as [_ E]. rewrite Hn by done. done.
Qed.
Lemma spec_Create v q p gc :
  v_groups v !! q = Some gc -> v_invite v !! p <> None -> c_slots gc = [] -> (c_raid gc = false -> c_counts gc = None) ->
  (c_pvp gc = false -> v_dbMembers v !! GUID_LOPART p = None) ->
  yields v (Create q p) true (v_add q p 0 (created p gc (v_mgr v)) (v_create q p gc v)).
Proof.
  intros Hq Hp Hs Hn Hdb. unfold Create. apply spec_player_at; [done|]. intros x _ _ _. apply spec_mgr. unfold GenerateGroupId at 1. cbn zeta.
  eapply yields_bind; [apply spec_with_mgr|]. change (with_next_id (u32 (NextGroupId (v_mgr v) + 1)) (v_mgr v)) with (next_guid (v_mgr v)).
  set (v1 := v_with_mgr _ v). eapply yields_bind; [apply yields_when; [|reflexivity]; intros _; apply spec_tell|].
  assert (H1 : v_groups v1 !! q = Some gc) by done.
  eapply yields_bind.
  { apply (spec_counter v1 q _ (c_create (NextGroupId (v_mgr v)) p (c_store gc)) gc H1). intros g Eg.
    assert (Es : m_memberSlots g = []) by (rewrite <- Eg in Hs; cbn in Hs; now destruct (m_memberSlots g)).
    destruct (create_settings_core (NextGroupId (v_mgr v)) p x g Es) as (g' & E & Ec & Em & Er). exists g'.
    rewrite Ec, Eg. rewrite <- Eg. done. }
  set (v2 := v_on_group q _ v1). assert (Hp2 : v_invite v2 !! p <> None) by done.
  eapply yields_bind; [apply spec_alter_player_same; [done|now intros y]|].
  assert (H2 := on_group_at q v1 (c_create (NextGroupId (v_mgr v)) p (c_store gc)) gc H1). fold v2 in H2.
  eapply spec_group_at; [exact H2|]. intros g Eg. assert (Epvp : is_pvp g = c_pvp gc) by exact (f_equal c_pvp Eg). rewrite Epvp.
  destruct (created_sub p gc (v_mgr v) Hn) as [Hsub Hroom]. unfold created in Hsub, Hroom. destruct (c_pvp gc) eqn:Ep; cbn [negb].
  - unfold v_create, created, create_store in *. rewrite Ep in *.
    eapply yields_eq; [apply (spec_AddMember v2 q p _ 0 H2); try done|unfold create_mgr; rewrite Ep; reflexivity]. intros E. cbn in E. congruence.
  - apply spec_mgr. destruct (GenerateNewGroupDbStoreId (v_mgr v2)) as [[store bad] m2] eqn:Em.
    change (v_mgr v2) with (next_guid (v_mgr v)) in Em. assert (Est : next_store (v_mgr v) = store) by (unfold next_store; now rewrite Em).
    eapply yields_bind; [apply yields_when; [|reflexivity]; intros _; apply spec_tell|]. eapply yields_bind; [apply spec_with_mgr|].
    set (v3 := v_with_mgr _ v2). eapply yields_bind.
    { apply (spec_alter_group v3 q _ (c_set_store store) _ H2); [|done]. now intros g0 <-. }
    assert (H4 := on_group_at q v3 (c_set_store store) _ H2). set (v4 := v_on_group q _ v3) in *.
    eapply spec_group_at; [exact H4|]. intros g4 Eg4. eapply yields_bind; [apply spec_INS_GROUP|].
    assert (Es4 : r_guid (group_row g4) = store) by (change (c_store (bare (group_core g4)) = store); now rewrite Eg4). rewrite Es4.
    set (v5 := v_with_dbGroups _ v4).
    assert (E5 : v5 = v_create q p gc v).
    { unfold v_create, create_mgr, create_store, v5, v4, v3, v2, v1, v_on_group, v_with_groups, v_with_dbGroups, v_with_mgr.
      rewrite Ep. rewrite Est, Em. cbn -[GenerateNewGroupDbStoreId c_create]. f_equal. rewrite alter_alter_eq. now apply alter_ext. }
    assert (H5 : v_groups v5 !! q = Some (created p gc (v_mgr v))).
    { change (v_groups v4 !! q = Some (created p gc (v_mgr v))). rewrite H4. unfold created, create_store. now rewrite Ep, Est. }
    assert (Hp5 : v_invite v5 !! p <> None) by done. rewrite E5 in *.
    eapply yields_bind; [apply (spec_AddMember _ q p (created p gc (v_mgr v)) 0); try done|].
    + now intros _; apply Hdb.
    + eapply yields_bind; [apply yields_ret|]. eapply yields_bind; [apply spec_tell|]. apply yields_ret.
Qed.

(** ** Slots *)

Lemma members_core g : members (bare (group_core g)) = map s_guid (m_memberSlots g).
Proof. unfold members, bare, group_core. cbn. rewrite map_map. done. Qed.
Lemma slot_member g p : getMemberSlot g p <> None <-> p ∈ members (bare (group_core g)).
Proof.
  rewrite members_core. unfold getMemberSlot, find_slot. destruct (list_find _ _) as [[i s]|] eqn:E; cbn.
  - apply list_find_Some in E as (Hl & <- & _). split; [|done]. intros _. apply list_elem_of_fmap. exists s. split; [done|]. now apply list_elem_of_lookup_2 in Hl.
  - split; [done|]. intros (s & -> & Hs)%list_elem_of_fmap. apply list_find_None in E. rewrite Forall_forall in E. now destruct (E s Hs).
Qed.
Lemma getMemberSlot_guid g p s : getMemberSlot g p = Some s -> s_guid s = p /\ s ∈ m_memberSlots g.
Proof.
  unfold getMemberSlot. destruct (find_slot p _) as [[i s']|] eqn:E; [|done]. cbn. intros [= <-]. apply find_slot_inv in E as [<- Hl].
  split; [done|]. now apply list_elem_of_lookup_2 in Hl.
Qed.
Lemma alter_slot_core p f g : (forall s, slot_core (f s) = slot_core s) -> group_core (alter_slot p f g) = group_core g.
Proof.
  intros Hf. unfold alter_slot. destruct (find_slot p (m_memberSlots g)) as [[i s]|] eqn:E; [|done]. apply find_slot_inv in E as [_ Hl].
  assert (El : map slot_core (<[i := f s]> (m_memberSlots g)) = map slot_core (m_memberSlots g)).
  { change (slot_core <$> <[i := f s]> (m_memberSlots g) = map slot_core (m_memberSlots g)).
    rewrite list_fmap_insert, Hf, list_insert_id; [done|]. now rewrite list_lookup_fmap, Hl. }
  unfold group_core. cbn. now rewrite El.
Qed.
Lemma alter_slot_rest p f g : m_memberMgr (alter_slot p f g) = m_memberMgr g /\ RollId (alter_slot p f g) = RollId g.
Proof. unfold alter_slot. now destruct (find_slot p (m_memberSlots g)) as [[i s]|]. Qed.

(** ** The leader *)

Lemma spec_new_leader v q p gc name slot_name :
  v_groups v !! q = Some gc -> v_invite v !! p <> None ->
  yields v (do! alter_player p (set_gp_leader true) in
            do! alter_group q (fun g => ToggleGroupMemberFlag p MEMBER_FLAG_ASSISTANT false (set_m_leaderName name (set_m_leaderGuid p g))) in
            broadcast_set_leader q slot_name) tt (v_on_group q (c_set_leader p) v).
Proof.
  intros Hq Hp. eapply yields_bind; [now apply spec_alter_player_same|]. eapply yields_bind; [apply (spec_alter_group v q _ (c_set_leader p) gc Hq)|].
  - intros g <-. unfold ToggleGroupMemberFlag. now rewrite alter_slot_core.
  - intros g. unfold ToggleGroupMemberFlag. set (g1 := set_m_leaderName _ _). exact (alter_slot_rest p _ g1).
  - apply spec_broadcast. now rewrite (on_group_at q v _ gc Hq).
Qed.
Lemma spec_ChangeLeader v q p gc :
  v_groups v !! q = Some gc ->
  let ok := bool_decide (p ∈ members gc) && bool_decide (v_invite v !! p <> None) in
  yields v (ChangeLeader q p) tt (if ok then v_on_group q (c_set_leader p) v else v).
Proof.
  intros Hq. cbn zeta. unfold ChangeLeader. apply (spec_group_at v q gc); [done|]. intros g Eg.
  pose proof (slot_member g p) as Hm. rewrite Eg in Hm. destruct (getMemberSlot g p) as [s|] eqn:Es.
  2:{ rewrite bool_decide_eq_false_2 by (rewrite <- Hm; easy). apply yields_ret. }
  rewrite (bool_decide_eq_true_2 (p ∈ members gc)) by now apply Hm. cbn [andb]. destruct (getMemberSlot_guid g p s Es) as [-> _].
  apply spec_connected.
  { intros E. rewrite bool_decide_eq_false_2 by now rewrite E. apply yields_ret. }
  intros x Ex _ _. assert (Hp : v_invite v !! p <> None) by now rewrite Ex. rewrite bool_decide_eq_true_2 by done.
  eapply yields_bind; [apply spec_run_hook; intros; now apply law_leader|].
  eapply yields_bind.
  { apply yields_when; [intros _|reflexivity]. eapply yields_bind; [apply spec_tell|]. eapply yields_bind; [apply spec_tell|]. apply spec_alter_dbGroup. }
  apply spec_connected.
  - intros _. eapply yields_bind; [apply yields_ret|]. now apply (spec_new_leader v q p gc).
  - intros y Ey _ _. eapply yields_bind; [apply spec_alter_player_same; [now rewrite Ey|now intros]|]. now apply (spec_new_leader v q p gc).
Qed.

(** ** The end of a group *)

Definition v_leave (q : Z) (pvp : bool) (v : View) (p : Z) : View :=
  match v_invite v !! p with Some _ => v_with_rf (left_refs pvp q p (v_rf v)) v | None => v end.
Lemma bgs_alter (h : gmap Z GroupCore) f q : (forall g, c_bg (f g) = c_bg g) -> c_bg <$> alter f q h = c_bg <$> h.
Proof.
  intros Hf. apply map_eq. intros j. rewrite !lookup_fmap. destruct (decide (j = q)) as [->|Hne]; [|now rewrite lookup_alter_ne].
  rewrite lookup_alter_eq. destruct (h !! q); [cbn; now rewrite Hf|done].
Qed.
Definition c_clear (g : GroupCore) : GroupCore := c_set_slots [] g.
Definition free_mgr (gc : GroupCore) (m : GroupMgr) : option GroupMgr := if c_pvp gc then Some m else FreeGroupDbStoreId (c_store gc) m.
Definition v_disband (q : Z) (gc : GroupCore) (m : GroupMgr) (v : View) : View :=
  let v := foldl (v_leave q (c_pvp gc)) v (members gc) in
  let v := v_uninvite (c_invitees gc) v in
  let v := if c_pvp gc then v
           else v_with_dbMembers (filter (fun e => e.2.1 <> c_store gc) (v_dbMembers v)) (v_with_dbGroups (v_dbGroups v ∖ {[c_store gc]}) v) in
  v_delete q (v_with_mgr (with_store (base.delete (GUID_LOPART (c_guid gc)) (GroupStore m)) m) v).

Lemma leave_fields q pvp l v : let v' := foldl (v_leave q pvp) v l in
  v_groups v' = v_groups v /\ v_invite v' = v_invite v /\ v_alloc v' = v_alloc v /\ v_mgr v' = v_mgr v /\ v_dbGroups v' = v_dbGroups v /\
  v_dbMembers v' = v_dbMembers v /\ v_bgRaids v' = v_bgRaids v.
Proof.
  cbn zeta. revert v. induction l as [|p l IH]; intros v; cbn [foldl]; [done|]. destruct (IH (v_leave q pvp v p)) as (-> & -> & -> & -> & -> & -> & ->).
  unfold v_leave. now destruct (v_invite v !! p).
Qed.
Lemma spec_disband_member v q gc hide s :
  v_groups v !! q = Some gc -> yields v (disband_member q hide s) tt (v_leave q (c_pvp gc) v (s_guid s)).
Proof.
  intros Hq. unfold disband_member, v_leave. apply spec_connected; [intros ->; apply yields_ret|]. intros x Ex _ _. rewrite Ex.
  assert (Hp : v_invite v !! s_guid s <> None) by now rewrite Ex.
  apply (spec_group_at v q gc); [done|]. intros g Eg. assert (Epvp : is_pvp g = c_pvp gc) by exact (f_equal c_pvp Eg). rewrite Epvp.
  eapply yields_bind; [now apply spec_leave_refs|]. set (v1 := v_with_rf _ v).
  eapply yields_bind; [apply yields_when; [|reflexivity]; intros _; apply spec_tell|].
  eapply yields_bind; [apply yields_when; [|reflexivity]; intros _; apply spec_tell|].
  apply spec_with. intros c1 Hs1 Hv1. apply spec_player_at; [done|]. intros y Ey _ _. destruct (gp_group y) as [q'|].
  - eapply yields_bind; [apply spec_SendUpdate; now apply (view_rf_live c1 v1 (s_guid s) false)|]. apply spec_tell.
  - eapply yields_bind; apply spec_tell.
Qed.
Lemma foldl_map_f {A B C} (f : A -> C -> A) (g : B -> C) l a : foldl (fun a x => f a (g x)) a l = foldl f a (map g l).
Proof. revert a. induction l as [|x l IH]; intros a; cbn; [done|apply IH]. Qed.
Lemma spec_members_leave v q gc hide g :
  v_groups v !! q = Some gc -> bare (group_core g) = gc ->
  yields v (for_each (m_memberSlots g) (disband_member q hide)) tt (foldl (v_leave q (c_pvp gc)) v (members gc)).
Proof.
  intros Hq Eg. rewrite <- Eg at 2. rewrite members_core, <- foldl_map_f.
  apply (yields_for_each _ _ _ _ (fun v => v_groups v !! q = Some gc)); [done|]. intros v1 s _ H1. split; [now apply spec_disband_member|].
  unfold v_leave. now destruct (v_invite v1 !! s_guid s).
Qed.
Lemma spec_Disband v q gc m hide :
  v_groups v !! q = Some gc -> (forall p, p ∈ c_invitees gc -> v_invite v !! p <> None) -> free_mgr gc (v_mgr v) = Some m ->
  (forall p b, v_rf (foldl (v_leave q (c_pvp gc)) v (members gc)) p b <> Some q) -> Sides (bgs v) (v_bgRaids v) ->
  yields v (Disband q hide) tt (v_disband q gc m v).
Proof.
  intros Hq Hinv Hfree Hr HSd. unfold Disband. apply (spec_group_at v q gc); [done|]. intros g Eg.
  assert (Epvp : is_pvp g = c_pvp gc) by exact (f_equal c_pvp Eg). assert (Est : m_dbStoreId g = c_store gc) by exact (f_equal c_store Eg).
  assert (Elow : GetLowGUID g = GUID_LOPART (c_guid gc)) by (unfold GetLowGUID; f_equal; exact (f_equal c_guid Eg)).
  eapply yields_bind; [apply spec_run_hook; intros; now apply law_disband|].
  eapply yields_bind; [apply (spec_members_leave v q gc hide g Hq Eg)|].
  destruct (leave_fields q (c_pvp gc) (members gc) v) as (F1 & F2 & F3 & F4 & F5 & F6 & F7). cbn zeta in *.
  unfold v_disband. set (v1 := foldl _ v _) in *. clearbody v1. cbn zeta.
  assert (H1 : v_groups v1 !! q = Some gc) by now rewrite F1.
  eapply yields_bind with (v1 := v_on_group q c_clear v1).
  { intros w Hs Hv. destruct (view_group_at _ _ _ _ Hv H1) as (g0 & Hg0 & E0). destruct (heap_core w q g0 Hg0) as (h & Hh & Eh).
    set (h' := set_m_memberSlots [] (set_RollId [] h)). unfold alter_group. rewrite (bind_eq _ _ _ _ _ (group_at_eq w q h Hh)).
    exists tt, (with_heap (<[q := h']> (w_heap w)) w). split; [done|].
    assert (Ec : core (with_heap (<[q := h']> (w_heap w)) w) = k_on_group q (fun _ => group_core h') (core w)).
    { unfold core, k_on_group, k_with_groups. cbn. f_equal. rewrite fmap_insert. apply map_eq. intros j. destruct (decide (j = q)) as [->|Hne].
      - now rewrite lookup_insert_eq, lookup_alter_eq, lookup_fmap, Hh.
      - now rewrite lookup_insert_ne, lookup_alter_ne. }
    rewrite Ec. split.
    - apply (on_group_sane _ q g0); [done|done|now rewrite <- Eh|]. exact (sn_items _ Hs).
    - split; [done|]. rewrite <- Hv. apply (on_group_view _ q g0); [done|]. now rewrite <- Eh. }
  set (v2 := v_on_group q c_clear v1). assert (H2 : v_groups v2 !! q = Some (c_clear gc)) by now apply on_group_at.
  eapply yields_bind; [apply (spec_RemoveAllInvites v2 q _ H2); cbn; now rewrite F2|]. change (c_invitees (c_clear gc)) with (c_invitees gc).
  set (v3 := v_remove_invites q _ v2).
  assert (H3 : v_groups v3 !! q <> None) by (unfold v3, v_remove_invites; now rewrite (on_group_at q (v_uninvite _ v2) _ _ H2)).
  rewrite Epvp, Est. set (v4 := v_with_mgr m (if c_pvp gc then v3
    else v_with_dbMembers (filter (fun e => e.2.1 <> c_store gc) (v_dbMembers v3)) (v_with_dbGroups (v_dbGroups v3 ∖ {[c_store gc]}) v3))).
  eapply yields_bind with (v1 := v4).
  { unfold v4, free_mgr in *. assert (Em : v_mgr v3 = v_mgr v) by exact F4. destruct (c_pvp gc); cbn [negb when].
    - injection Hfree as <-. apply spec_ret. split; [done|]. rewrite <- Em. now destruct v3.
    - eapply yields_bind; [apply spec_DEL_GROUP|]. eapply yields_bind; [apply spec_DEL_GROUP_MEMBER_ALL|].
      eapply yields_bind; [apply spec_tell|]. eapply yields_bind; [apply spec_tell|]. apply spec_mgr.
      change (v_mgr (v_with_dbMembers ?a (v_with_dbGroups ?b v3))) with (v_mgr v3). rewrite Em, Hfree. cbn [of_option].
      eapply yields_bind; [apply yields_ret|]. apply spec_with_mgr. }
  set (m' := with_store _ m). eapply yields_bind with (v1 := v_with_mgr m' v4).
  { apply spec_modify; [done|]. intros w Hv. unfold RemoveGroup. rewrite Elow.
    assert (Ew : w_mgr w = m) by (change (v_mgr (view (core w)) = m); now rewrite Hv). rewrite Ew.
    change (v_with_mgr m' (view (core w)) = v_with_mgr m' v4). now rewrite Hv. }
  assert (H5 : v_groups (v_with_mgr m' v4) = v_groups v3) by (unfold v4; now destruct (c_pvp gc)).
  assert (R5 : v_rf (v_with_mgr m' v4) = v_rf v1) by (unfold v4; now destruct (c_pvp gc)).
  assert (B5 : v_bgRaids (v_with_mgr m' v4) = v_bgRaids v) by (rewrite <- F7; unfold v4; now destruct (c_pvp gc)).
  assert (S5 : bgs (v_with_mgr m' v4) = bgs v).
  { unfold bgs. rewrite H5, <- F1. unfold v3, v_remove_invites, v2, v_on_group, v_with_groups. cbn. rewrite !bgs_alter by done. done. }
  eapply yields_eq; [apply spec_delete_group; [now rewrite H5|now rewrite R5|now rewrite B5, S5]|]. unfold v_delete.
  rewrite H5. assert (Ed : base.delete q (v_groups v3) = base.delete q (v_groups v1)).
  { unfold v3, v_remove_invites, v2, v_on_group, v_uninvite, v_with_groups, v_with_invite. cbn. now rewrite !delete_alter_eq. }
  rewrite Ed. unfold v4. now destruct (c_pvp gc).
Qed.

(** ** A member leaves *)

Lemma spec_group_core {B} v q (k : Group -> G B) Q :
  v_groups v !! q <> None ->
  (forall c g, sane c -> view c = v -> k_groups c !! q = Some (group_core g) -> spec v (k g) Q) -> spec v (bind (group_at q) k) Q.
Proof.
  intros Hq Hk w Hs Hv. pose proof (view_group _ _ _ Hv Hq) as Hq'. destruct (k_groups (core w) !! q) as [g0|] eqn:E0; [|done].
  destruct (heap_core w q g0 E0) as (g & Hg & <-). destruct (Hk (core w) g Hs Hv E0 w Hs Hv) as (a & w' & E & H).
  exists a, w'. now rewrite (bind_eq _ _ _ _ _ (group_at_eq w q g Hg)).
Qed.
Lemma spec_removed_view v p : spec v (removed_view p) (fun _ v' => v' = v).
Proof.
  unfold removed_view. apply spec_with. intros c Hs Hv.
  apply (spec_gets _ _ _ (fun o => forall x, o = Some x -> gp_group x = v_rf v p false)).
  - intros w Hw x. unfold in_world. destruct (w_players w !! p) as [y|] eqn:E; [|done]. cbn. destruct (gp_in_world y); [|done]. intros [= <-].
    rewrite <- Hw. symmetry. exact (rf_at w p y false E).
  - intros [x|] Hx; [|now apply spec_ret]. destruct (go_traveller p); [|now apply spec_ret]. rewrite (Hx x eq_refl).
    destruct (v_rf v p false) as [q|] eqn:Er; [|now apply spec_ret]. pose proof (view_rf_live c v p false q Hs Hv Er) as Hq.
    apply spec_group_core; [done|]. intros. now apply spec_ret.
Qed.

Definition c_erase (p : Z) (g : GroupCore) : GroupCore :=
  match list_find (fun e => e.1 = p) (c_slots g) with
  | Some (i, e) => c_count e.2 (-1) (c_set_slots (base.delete i (c_slots g)) g)
  | None => g
  end.
Definition v_left (q p : Z) (gc : GroupCore) (v : View) : View :=
  let v := v_leave q (c_pvp gc) v p in
  let v := if c_pvp gc then v else v_with_dbMembers (base.delete (GUID_LOPART p) (v_dbMembers v)) v in
  v_on_group q (c_erase p) v.
Lemma find_slot_core g p :
  list_find (fun e => e.1 = p) (c_slots (bare (group_core g))) = prod_map id slot_core <$> find_slot p (m_memberSlots g).
Proof. unfold bare, group_core. cbn. change (map slot_core ?l) with (slot_core <$> l). rewrite list_find_fmap. done. Qed.
Lemma spec_erase_slot v q p gc :
  v_groups v !! q = Some gc -> (forall s, (p, s) ∈ c_slots gc -> counts_room s gc) -> yields v (erase_slot p q) tt (v_on_group q (c_erase p) v).
Proof.
  intros Hq Hr. unfold erase_slot. apply (spec_group_at v q gc); [done|]. intros g Eg. pose proof (find_slot_core g p) as Ef. rewrite Eg in Ef.
  destruct (find_slot p (m_memberSlots g)) as [[i s]|] eqn:Es; cbn in Ef.
  - assert (Hin : (p, s_group s) ∈ c_slots gc).
    { apply list_find_Some in Ef as (Hl & E1 & _). rewrite <- E1. now apply list_elem_of_lookup_2 in Hl. }
    eapply yields_bind; [apply (spec_count v q (s_group s) (-1) gc Hq); now apply Hr|].
    eapply yields_eq; [apply (spec_alter_group _ q _ (fun g => c_set_slots (base.delete i (c_slots g)) g) _ (on_group_at q v _ gc Hq)); [|done]|].
    + intros g0 <-. pose proof (list_fmap_delete slot_core (m_memberSlots g0) i) as Ed.
      unfold bare, c_set_slots, group_core. cbn. change (map slot_core ?l) with (slot_core <$> l). now rewrite Ed.
    + unfold v_on_group, v_with_groups. cbn. f_equal. rewrite alter_alter_eq. apply alter_ext. intros g0 E0. rewrite Hq in E0. injection E0 as <-.
      unfold compose, c_erase. now rewrite Ef.
  - eapply yields_eq; [apply yields_ret|]. symmetry. apply (v_on_group_id q v _ gc Hq). unfold c_erase. now rewrite Ef.
Qed.

(** Everything up to the erasure of the slot. *)
Lemma spec_leave v q p gc method g :
  v_groups v !! q = Some gc -> bare (group_core g) = gc -> (forall s, (p, s) ∈ c_slots gc -> counts_room s gc) ->
  (c_pvp gc = false -> forall b, v_rf (v_leave q false v p) p b <> Some q) ->
  forall (k : G bool) Q, spec (v_left q p gc v) k Q ->
  spec v (let! o := FindConnectedPlayer p in
          do! match o with Some _ => remove_player q method g p | None => ret tt end in
          do! when (negb (is_pvp g)) (do! DEL_GROUP_MEMBER (GUID_LOPART p) in DelinkMember q p) in
          do! when (match o with Some x => negb (gp_enchanting x =? 0) | None => true end) (ResetMaxEnchantingLevel q) in
          do! on_rolls q (RemoveFromRolls p) in
          do! erase_slot p q in k) Q.
Proof.
  intros Hq Eg Hroom Hr k Q Hk. assert (Epvp : is_pvp g = c_pvp gc) by exact (f_equal c_pvp Eg).
  set (v1 := v_leave q (c_pvp gc) v p). assert (H1 : v_groups v1 !! q = Some gc) by (unfold v1, v_leave; now destruct (v_invite v !! p)).
  assert (Htail : forall b, spec v1 (do! when (negb (is_pvp g)) (do! DEL_GROUP_MEMBER (GUID_LOPART p) in DelinkMember q p) in
          do! when b (ResetMaxEnchantingLevel q) in do! on_rolls q (RemoveFromRolls p) in do! erase_slot p q in k) Q).
  { intros b. set (v2 := if c_pvp gc then v1 else v_with_dbMembers (base.delete (GUID_LOPART p) (v_dbMembers v1)) v1).
    assert (H2 : v_groups v2 !! q = Some gc) by (unfold v2; now destruct (c_pvp gc)). assert (H2' : v_groups v2 !! q <> None) by now rewrite H2.
    eapply yields_bind with (v1 := v2).
    - unfold v2. rewrite Epvp. destruct (c_pvp gc) eqn:Ep; cbn [negb when]; [apply yields_ret|].
      eapply yields_bind; [apply spec_DEL_GROUP_MEMBER|]. apply spec_DelinkMember; [exact H2'|]. now apply Hr.
    - eapply yields_bind; [apply yields_when; [|reflexivity]; intros _; now apply spec_ResetMaxEnchantingLevel|].
      eapply yields_bind; [now apply spec_on_rolls|]. eapply yields_bind; [now apply (spec_erase_slot v2 q p gc)|]. exact Hk. }
  apply spec_connected.
  - intros En. eapply yields_bind with (v1 := v1); [|apply Htail]. unfold v1, v_leave. rewrite En. apply yields_ret.
  - intros x Ex _ _. eapply yields_bind with (v1 := v1); [|apply Htail]. unfold v1, v_leave, remove_player. rewrite Ex, Epvp.
    assert (Hp : v_invite v !! p <> None) by now rewrite Ex. set (v1' := v_with_rf _ v).
    eapply yields_bind with (v1 := v1').
    { unfold v1'. destruct (c_pvp gc); [now apply spec_RemoveFromBattleground|]. eapply yields_bind; [now apply spec_leave_refs|]. apply spec_tell. }
    eapply yields_bind; [apply yields_when; [|reflexivity]; intros _; apply spec_tell|]. eapply yields_bind; [apply spec_tell|]. apply spec_tell.
Qed.

(** The next leader: the first member who is connected. *)
Definition v_led (q p : Z) (gc : GroupCore) (v : View) : View :=
  if c_leader gc =? p then
    match List.find (fun guid => bool_decide (v_invite v !! guid <> None)) (members gc) with
    | Some l => v_on_group q (c_set_leader l) v
    | None => v
    end
  else v.
Lemma spec_pick_leader v q p gc : v_groups v !! q = Some gc -> yields v (pick_leader q p) tt (v_led q p gc v).
Proof.
  intros Hq. unfold pick_leader, v_led. apply (spec_group_at v q gc); [done|]. intros g Eg.
  assert (El : m_leaderGuid g = c_leader gc) by exact (f_equal c_leader Eg). rewrite El.
  apply (spec_gets _ _ _ (fun ps => first_connected g ps = List.find (fun guid => bool_decide (v_invite v !! guid <> None)) (members gc))).
  - intros w Hw. unfold first_connected. rewrite <- members_core, Eg. f_equal. extensionality guid. apply bool_decide_ext.
    rewrite <- Hw. cbn. rewrite !lookup_fmap. destruct (w_players w !! guid); cbn; [easy|tauto].
  - intros ps ->. destruct (c_leader gc =? p); cbn [when]; [|apply yields_ret]. destruct (List.find _ _) as [l|] eqn:E; [|apply yields_ret].
    apply List.find_some in E as [Hin Hc]. apply list_elem_of_In in Hin. apply bool_decide_eq_true in Hc.
    pose proof (spec_ChangeLeader v q l gc Hq) as H. cbn zeta in H. rewrite !bool_decide_eq_true_2 in H by done. exact H.
Qed.

(** ** Settings *)

Definition c_set_lfg (b : bool) (g : GroupCore) : GroupCore :=
  mkGroupCore (c_slots g) (c_refs g) (c_leader g) (c_invitees g) (c_counts g) (c_guid g) (c_store g) (c_pvp g) (c_bg g) (c_raid g) b (c_rolls g).
Definition c_set_raid (b : bool) (g : GroupCore) : GroupCore :=
  mkGroupCore (c_slots g) (c_refs g) (c_leader g) (c_invitees g) (c_counts g) (c_guid g) (c_store g) (c_pvp g) (c_bg g) b (c_lfg g) (c_rolls g).
Definition count_slots (l : list (Z * Z)) (counts : list Z) : list Z :=
  foldl (fun counts e => alter (fun n => u8 (n + 1)) (Z.to_nat e.2) counts) counts l.
Definition no_counts : list Z := repeat 0 (Z.to_nat MAX_RAID_SUBGROUPS).
Definition c_to_raid (g : GroupCore) : GroupCore := c_set_counts (Some (count_slots (c_slots g) no_counts)) (c_set_raid true g).

Lemma bit_kept t flag bit : Z.land flag bit = 0 -> Z.land (Z.lor t flag) bit = Z.land t bit.
Proof. intros H. rewrite Z.land_lor_distr_l, H. apply Z.lor_0_r. Qed.
Lemma bit_set t flag : flag <> 0 -> (Z.land (Z.lor t flag) flag =? 0) = false.
Proof.
  intros H. replace (Z.land (Z.lor t flag) flag) with flag; [now apply Z.eqb_neq|]. apply Z.bits_inj'. intros n _.
  rewrite Z.land_spec, Z.lor_spec. now destruct (Z.testbit t n), (Z.testbit flag n).
Qed.
Lemma spec_type_row v (g : Group) : yields v (when (negb (is_pvp g)) (UPD_GROUP_TYPE (m_dbStoreId g) (u8 (m_groupType g)))) tt v.
Proof. apply yields_when; [|reflexivity]. intros _. apply spec_alter_dbGroup. Qed.
Lemma spec_ConvertToLFG v q gc : v_groups v !! q = Some gc -> yields v (ConvertToLFG q) tt (v_on_group q (c_set_lfg true) v).
Proof.
  intros Hq. unfold ConvertToLFG. eapply yields_bind; [apply (spec_alter_group v q _ (c_set_lfg true) gc Hq); [|done]|].
  - intros g <-. unfold bare, c_set_lfg, group_core, isRaidGroup, isLFGGroup. cbn [c_slots c_set_rolls c_set_refs c_leader c_invitees c_counts c_guid c_store c_pvp c_bg c_raid c_lfg c_rolls].
    change (m_groupType (set_m_lootMethod ?x (set_m_groupType ?t g))) with t. rewrite (bit_kept _ GROUPTYPE_UNK1 GROUPTYPE_RAID), (bit_kept _ GROUPTYPE_LFG GROUPTYPE_RAID) by done.
    rewrite (bit_kept _ GROUPTYPE_UNK1 GROUPTYPE_LFG), bit_set by done. done.
  - pose proof (on_group_at q v (c_set_lfg true) gc Hq) as H1. eapply spec_group_at; [exact H1|]. intros g _.
    eapply yields_bind; [apply spec_type_row|]. apply spec_SendUpdate. now rewrite H1.
Qed.

Lemma count_slots_init (l : list MemberSlot) g counts :
  m_subGroupsCounts g = Some counts -> (forall s, s ∈ l -> (Z.to_nat (s_group s) < length counts)%nat) ->
  foldl (fun o s => match o with Some g => SubGroupCounterIncrease (s_group s) g | None => None end) (Some g) l =
  Some (set_m_subGroupsCounts (Some (count_slots (map slot_core l) counts)) g).
Proof.
  revert g counts. induction l as [|s l IH]; intros g counts Hg Hl; cbn [foldl map count_slots].
  - rewrite <- Hg. now destruct g.
  - destruct (lookup_lt_is_Some_2 counts (Z.to_nat (s_group s))) as [n En]; [apply Hl; left|].
    unfold SubGroupCounterIncrease at 2, count_at. rewrite Hg, En.
    assert (Ea : <[Z.to_nat (s_group s) := u8 (n + 1)]> counts = alter (fun n => u8 (n + 1)) (Z.to_nat (s_group s)) counts).
    { apply list_eq. intros j. destruct (decide (j = Z.to_nat (s_group s))) as [->|Hne].
      - rewrite list_lookup_alter_eq, En, list_lookup_insert_eq; [done|]. now apply lookup_lt_Some in En.
      - now rewrite list_lookup_alter_ne, list_lookup_insert_ne. }
    rewrite Ea. rewrite (IH _ (alter (fun n => u8 (n + 1)) (Z.to_nat (s_group s)) counts)); [done|done|].
    intros s' Hs'. rewrite length_alter. apply Hl. now right.
Qed.
Lemma spec_ConvertToRaid v q gc :
  v_groups v !! q = Some gc -> (forall e, e ∈ c_slots gc -> (Z.to_nat e.2 < length no_counts)%nat) ->
  yields v (ConvertToRaid q) tt (v_on_group q c_to_raid v).
Proof.
  intros Hq Hs. unfold ConvertToRaid. eapply yields_bind; [apply (spec_alter_group v q _ (c_set_raid true) gc Hq); [|done]|].
  - intros g <-. unfold bare, c_set_raid, group_core, isRaidGroup, isLFGGroup. cbn [c_slots c_set_rolls c_set_refs c_leader c_invitees c_counts c_guid c_store c_pvp c_bg c_raid c_lfg c_rolls].
    change (m_groupType (set_m_groupType ?t g)) with t. rewrite (bit_kept _ GROUPTYPE_RAID GROUPTYPE_LFG), bit_set by done. done.
  - pose proof (on_group_at q v (c_set_raid true) gc Hq) as H1. set (v1 := v_on_group q _ v) in *.
    eapply yields_bind; [apply (spec_counter v1 q _ (fun g => c_set_counts (Some (count_slots (c_slots g) no_counts)) g) _ H1)|].
    + intros g Eg. unfold initRaidSubGroupsCounter. rewrite (count_slots_init _ _ no_counts); [|done|].
      * eexists. split; [reflexivity|]. rewrite <- Eg. done.
      * intros s Hin. apply (Hs (slot_core s)). pose proof (f_equal c_slots Eg) as E. cbn in E. rewrite <- E. now apply list_elem_of_fmap_2.
    + assert (E2 : v_on_group q (fun g => c_set_counts (Some (count_slots (c_slots g) no_counts)) g) v1 = v_on_group q c_to_raid v).
      { unfold v1, v_on_group, v_with_groups. cbn. f_equal. rewrite alter_alter_eq. now apply alter_ext. }
      rewrite E2. pose proof (on_group_at q v c_to_raid gc Hq) as H2. set (v2 := v_on_group q c_to_raid v) in *.
      eapply spec_group_at; [exact H2|]. intros g _. eapply yields_bind; [apply spec_type_row|].
      eapply yields_bind; [apply spec_SendUpdate; now rewrite H2|].
      apply quiet_yields. intros c _ _. apply quiet_for_each. intros s _. apply quiet_gets. intros w _. destruct (in_world _); [apply quiet_tell|apply quiet_ret].
Qed.

Definition c_regroup (p sub : Z) (g : GroupCore) : GroupCore :=
  match list_find (fun e => e.1 = p) (c_slots g) with
  | Some (i, e) => c_count e.2 (-1) (c_count sub 1 (c_set_slots (<[i := (p, sub)]> (c_slots g)) g))
  | None => g
  end.
Definition regroup_rows (gc : GroupCore) (p sub : Z) (db : gmap Z (Z * Z)) : gmap Z (Z * Z) :=
  if c_pvp gc then db else alter (fun e => (e.1, sub)) (GUID_LOPART p) db.
Lemma spec_set_refSub v p b z : v_invite v !! p <> None -> sub_ok z -> yields v (alter_player p (set_refSub b z)) tt v.
Proof.
  intros Hp Hz. apply runs_spec. intros w Hs Hv. pose proof (view_player _ _ _ Hv Hp) as Hp'.
  destruct (k_players (core w) !! p) as [pc|] eqn:Ep; [|done]. exists tt, (k_on_player p (pc_set_sub b z) (core w)). split.
  { apply (runs_alter_player w p _ _ pc Ep). intros x <-. apply set_refSub_core. }
  destruct Hs as [[H1 H2 H3 H4] HS HR HI]. split; [split; [|done|done|done]|].
  - split; cbn [k_groups k_players k_on_player k_with_players]; [| |done|].
    + intros p' pc' b' q [(-> & y & Hy & ->)|[_ Hy]]%lookup_alter_Some Hr; [rewrite pc_ref_set_sub in Hr|]; eauto.
    + intros q gc p' b' Hg Hin. destruct (H2 q gc p' b' Hg Hin) as (pc' & Hpc & Hr). destruct (decide (p' = p)) as [->|Hne].
      * exists (pc_set_sub b z pc'). rewrite lookup_alter_eq, Hpc. split; [done|]. now rewrite pc_ref_set_sub.
      * exists pc'. now rewrite lookup_alter_ne.
    + intros p' pc' [(-> & y & Hy & ->)|[_ Hy]]%lookup_alter_Some; [|now apply (H4 p')].
      pose proof (H4 p' y Hy) as [? ?]. now destruct b.
  - split; [done|]. rewrite <- Hv. unfold view. cbn. f_equal.
    + extensionality p'. extensionality b'. unfold rf. cbn. destruct (decide (p' = p)) as [->|Hne]; [|now rewrite lookup_alter_ne].
      cbn in Ep. rewrite lookup_alter_eq, Ep. cbn. apply pc_ref_set_sub.
    + apply map_eq. intros j. rewrite !lookup_fmap. destruct (decide (j = p)) as [->|Hne]; [|now rewrite lookup_alter_ne, lookup_fmap].
      rewrite lookup_alter_eq, !lookup_fmap. destruct (w_players w !! p); [|done]. now destruct b.
Qed.

Lemma regroup_slot_core p sub g i s :
  find_slot p (m_memberSlots g) = Some (i, s) ->
  bare (group_core (alter_slot p (set_s_group sub) g)) = c_set_slots (<[i := (p, sub)]> (c_slots (bare (group_core g)))) (bare (group_core g)).
Proof.
  intros E. unfold alter_slot. rewrite E. apply find_slot_inv in E as [<- _].
  pose proof (list_fmap_insert slot_core (m_memberSlots g) i (set_s_group sub s)) as El.
  unfold bare, c_set_slots, group_core. cbn. change (map slot_core ?l) with (slot_core <$> l). now rewrite El.
Qed.
Lemma spec_ChangeMembersGroup v q p sub gc prev :
  v_groups v !! q = Some gc -> c_raid gc = true -> (exists i, list_find (fun e => e.1 = p) (c_slots gc) = Some (i, (p, prev))) ->
  sub_ok sub -> prev <> sub -> counts_room sub gc -> counts_room prev gc ->
  yields v (ChangeMembersGroup q p sub) tt (v_with_dbMembers (regroup_rows gc p sub (v_dbMembers v)) (v_on_group q (c_regroup p sub) v)).
Proof.
  intros Hq Hraid [i Hi] Hsub Hne Hr1 Hr2. unfold ChangeMembersGroup. apply (spec_group_at v q gc); [done|]. intros g Eg.
  assert (Er : isRaidGroup g = true) by (rewrite <- Hraid, <- Eg; done). rewrite Er. cbn [negb].
  assert (Epvp : is_pvp g = c_pvp gc) by exact (f_equal c_pvp Eg).
  pose proof (find_slot_core g p) as Ef. rewrite Eg, Hi in Ef. unfold getMemberSlot. destruct (find_slot p (m_memberSlots g)) as [[i' s]|] eqn:Es; [|done].
  cbn in Ef. injection Ef as -> -> ->. cbn [fmap option_fmap option_map snd]. destruct (Z.eqb_spec (s_group s) sub) as [|_]; [done|].
  set (f1 := fun g => c_set_slots (<[i' := (s_guid s, sub)]> (c_slots g)) g).
  eapply yields_bind; [apply (spec_alter_group v q _ f1 gc Hq)|].
  { intros h Eh. pose proof (find_slot_core h (s_guid s)) as Efh. rewrite Eh, Hi in Efh.
    destruct (find_slot (s_guid s) (m_memberSlots h)) as [[j t]|] eqn:Et; [|done]. cbn in Efh. injection Efh as <- _ _.
    rewrite (regroup_slot_core _ _ _ i' t Et), Eh. done. }
  { intros h. apply alter_slot_rest. }
  pose proof (on_group_at q v f1 gc Hq) as H1. set (v1 := v_on_group q f1 v) in *.
  eapply yields_bind; [apply (spec_count v1 q sub 1 _ H1); exact Hr1|].
  pose proof (on_group_at q v1 (c_count sub 1) _ H1) as H2. set (v2 := v_on_group q _ v1) in *.
  eapply yields_bind; [apply (spec_count v2 q (s_group s) (-1) _ H2)|].
  { intros counts E. cbn in E. destruct (c_counts gc) as [counts0|] eqn:Ec; [|done]. cbn in E. injection E as <-. rewrite length_alter. now apply Hr2. }
  pose proof (on_group_at q v2 (c_count (s_group s) (-1)) _ H2) as H3. set (v3 := v_on_group q _ v2) in *.
  set (v4 := v_with_dbMembers (regroup_rows gc (s_guid s) sub (v_dbMembers v3)) v3).
  eapply yields_bind with (v1 := v4).
  { unfold v4, regroup_rows. rewrite Epvp. destruct (c_pvp gc); cbn [negb when]; [apply yields_ret|]. apply spec_UPD_SUBGROUP. }
  assert (E4 : v4 = v_with_dbMembers (regroup_rows gc (s_guid s) sub (v_dbMembers v)) (v_on_group q (c_regroup (s_guid s) sub) v)).
  { unfold v4, v3, v2, v1, v_on_group, v_with_groups, v_with_dbMembers. cbn. f_equal. rewrite !alter_alter_eq. apply alter_ext. intros x Ex. rewrite Hq in Ex.
    injection Ex as <-. unfold compose, c_regroup. now rewrite Hi. }
  rewrite <- E4. assert (H4 : v_groups v4 !! q <> None) by (change (v_groups v3 !! q <> None); now rewrite H3).
  apply spec_connected; [intros; eapply yields_bind; [apply yields_ret|now apply spec_SendUpdate]|]. intros x Ex _ _.
  eapply yields_bind; [apply spec_set_refSub; [now rewrite Ex|done]|now apply spec_SendUpdate].
Qed.
Lemma spec_SetGroupMemberFlag v q p apply flag :
  v_groups v !! q <> None -> yields v (SetGroupMemberFlag q p apply flag) tt v.
Proof.
  intros Hq. destruct (v_groups v !! q) as [gc|] eqn:Eq; [|done]. unfold SetGroupMemberFlag. eapply spec_group_at; [exact Eq|]. intros g Eg.
  destruct (isRaidGroup g); cbn [negb]; [|apply yields_ret]. case_bool_decide as Em; cbn [negb]; [|apply yields_ret].
  case_bool_decide; cbn [negb]; [|apply yields_ret]. rewrite slot_member, Eg in Em.
  assert (Hunique : forall g, group_core (RemoveUniqueGroupMemberFlag flag g) = group_core g).
  { intros h. unfold RemoveUniqueGroupMemberFlag, group_core. cbn. f_equal. rewrite map_map. apply map_ext. intros s. now case_if. }
  eapply yields_bind; [apply yields_when; [|reflexivity]; intros _; apply spec_alter_group_same; [now rewrite Eq|done]|].
  eapply yields_bind; [apply spec_alter_group_same; [now rewrite Eq|]; intros h; now apply alter_slot_core|].
  eapply spec_group_at; [exact Eq|]. intros h Eh. assert (Hm : getMemberSlot h p <> None) by (rewrite slot_member; now rewrite Eh).
  destruct (getMemberSlot h p) as [s|]; [|done]. eapply yields_bind; [apply spec_UPD_FLAG|]. apply spec_SendUpdate. now rewrite Eq.
Qed.
End Ops.
