(* ===== verification/GroupInv.v ===== *)
(** * Groups: the invariant of membership

    Every player is in at most one group of the battleground kind and at most one
    other group ([hb], [hn]); slots, references, counters of sub groups, invitations,
    the manager and the tables all agree with it ([Inv]).  [Led] is what holds between
    two requests: a group that was created has its leader among its members, one that
    was not has him among its invitees. *)

From stdpp Require Import base gmap list.
From Stdlib Require Import ZArith Lia FunctionalExtensionality.
From S2P Require Import Prelude StdMap ObjectGuid LfgData LfgScripts ActionLogic GroupTypes GroupMgr GroupLoot GroupLootInv GroupWorld Group GroupCore GroupView GroupOps.
#[local] Open Scope Z_scope.

(** ** Sub groups *)

Definition in_sub (k : Z) (l : list (Z * Z)) : Z := zlen (filter (fun e => e.2 = k) l).
Definition sub_counts (l : list (Z * Z)) : list Z := map (fun k => in_sub (Z.of_nat k) l) (seq 0 (Z.to_nat MAX_RAID_SUBGROUPS)).
Definition sub_limit (raid : bool) : Z := if raid then MAX_RAID_SUBGROUPS else 1.
Record slots_ok (raid : bool) (l : list (Z * Z)) : Prop := mk_slots_ok {
  so_once : NoDup (map fst l);
  so_subs : forall e, e ∈ l -> 0 <= e.2 < sub_limit raid;
  so_room : forall k, in_sub k l <= MAXGROUPSIZE
}.

Lemma in_sub_app k l e : in_sub k (l ++ [e]) = in_sub k l + (if decide (e.2 = k) then 1 else 0).
Proof.
  unfold in_sub, zlen. rewrite filter_app, length_app, filter_cons, filter_nil. case_decide; cbn [length]; lia.
Qed.
Lemma in_sub_delete k l i e : l !! i = Some e -> in_sub k (base.delete i l) = in_sub k l - (if decide (e.2 = k) then 1 else 0).
Proof.
  intros H. unfold in_sub, zlen. rewrite <- (take_drop_middle l i e H) at 2. rewrite delete_take_drop, !filter_app, filter_cons, !length_app.
  case_decide; cbn [length]; lia.
Qed.
Lemma in_sub_insert k l i e e' :
  l !! i = Some e -> in_sub k (<[i := e']> l) = in_sub k l - (if decide (e.2 = k) then 1 else 0) + (if decide (e'.2 = k) then 1 else 0).
Proof.
  intros H. pose proof (lookup_lt_Some _ _ _ H) as Hl. unfold in_sub, zlen. rewrite <- (take_drop_middle l i e H) at 2.
  rewrite insert_take_drop by done. rewrite !filter_app, !filter_cons, !length_app. repeat case_decide; cbn [length]; lia.
Qed.
Lemma in_sub_nonneg k l : 0 <= in_sub k l.
Proof. unfold in_sub, zlen. lia. Qed.
Lemma in_sub_elem k l i e : l !! i = Some e -> e.2 = k -> 1 <= in_sub k l.
Proof. intros H E. pose proof (in_sub_delete k l i e H) as Hd. rewrite decide_True in Hd by done. pose proof (in_sub_nonneg k (base.delete i l)). lia. Qed.

Lemma sub_counts_length l : length (sub_counts l) = Z.to_nat MAX_RAID_SUBGROUPS.
Proof. unfold sub_counts. now rewrite length_map, length_seq. Qed.
Lemma sub_counts_at l j : (j < Z.to_nat MAX_RAID_SUBGROUPS)%nat -> sub_counts l !! j = Some (in_sub (Z.of_nat j) l).
Proof. intros H. unfold sub_counts. change (map ?f ?x) with (f <$> x). rewrite list_lookup_fmap, lookup_seq_lt by done. done. Qed.
(** The counter of one sub group follows. *)
Lemma sub_counts_alter l l' sub step :
  0 <= sub < MAX_RAID_SUBGROUPS -> is_u 8 (in_sub sub l + step) ->
  (forall k, in_sub k l' = in_sub k l + (if decide (sub = k) then step else 0)) ->
  alter (fun n => u8 (n + step)) (Z.to_nat sub) (sub_counts l) = sub_counts l'.
Proof.
  intros Hs Hu Hl. apply list_eq. intros j. destruct (Nat.lt_ge_cases j (Z.to_nat MAX_RAID_SUBGROUPS)) as [Hj|Hj].
  - rewrite (sub_counts_at l' j Hj), Hl. destruct (decide (j = Z.to_nat sub)) as [->|Hne].
    + rewrite list_lookup_alter_eq, sub_counts_at by done. cbn. rewrite Z2Nat.id by lia. rewrite decide_True by done. now rewrite uwrap_id.
    + rewrite list_lookup_alter_ne by done. rewrite sub_counts_at by done. rewrite decide_False by lia. f_equal. lia.
  - rewrite !lookup_ge_None_2; [done| |]; rewrite ?length_alter, sub_counts_length; lia.
Qed.
Lemma sub_counts_add p sub l :
  0 <= sub < MAX_RAID_SUBGROUPS -> in_sub sub l < MAXGROUPSIZE ->
  alter (fun n => u8 (n + 1)) (Z.to_nat sub) (sub_counts l) = sub_counts (l ++ [(p, sub)]).
Proof.
  intros Hs Hr. apply sub_counts_alter; [done| |intros k; now rewrite in_sub_app].
  pose proof (in_sub_nonneg sub l). unfold is_u, MAXGROUPSIZE in *. change (2 ^ 8) with 256. lia.
Qed.
Lemma sub_counts_delete l i e :
  l !! i = Some e -> 0 <= e.2 < MAX_RAID_SUBGROUPS -> in_sub e.2 l <= MAXGROUPSIZE ->
  alter (fun n => u8 (n + -1)) (Z.to_nat e.2) (sub_counts l) = sub_counts (base.delete i l).
Proof.
  intros Hi Hs Hr. apply sub_counts_alter; [done| |intros k; rewrite (in_sub_delete k l i e Hi); case_decide; lia].
  pose proof (in_sub_elem _ l i e Hi eq_refl). unfold is_u, MAXGROUPSIZE in *. change (2 ^ 8) with 256. lia.
Qed.
Lemma sub_counts_nil : sub_counts [] = no_counts.
Proof. reflexivity. Qed.
Lemma in_sub_le_app k l l' : in_sub k l <= in_sub k (l ++ l').
Proof. unfold in_sub, zlen. rewrite filter_app, length_app. lia. Qed.
Lemma count_slots_ok raid l : slots_ok raid l -> count_slots l no_counts = sub_counts l.
Proof.
  intros [_ Hs Hr]. rewrite <- sub_counts_nil. assert (H : forall l2 l1, l = l1 ++ l2 -> count_slots l2 (sub_counts l1) = sub_counts l).
  { induction l2 as [|[p sub] l2 IH]; intros l1 E; [now rewrite E, app_nil_r|]. cbn [count_slots foldl].
    change (foldl _ ?c l2) with (count_slots l2 c). cbn [snd].
    assert (Hsub : 0 <= sub < sub_limit raid) by (apply (Hs (p, sub)); rewrite E; set_solver).
    assert (Hlim : sub_limit raid <= MAX_RAID_SUBGROUPS) by (destruct raid; vm_compute; discriminate).
    rewrite (sub_counts_add p sub l1); [apply IH; rewrite E; now rewrite <- app_assoc|lia|].
    specialize (Hr sub). rewrite E in Hr. pose proof (in_sub_le_app sub (l1 ++ [(p, sub)]) l2) as Hle. rewrite <- app_assoc in Hle. cbn [app] in Hle.
    rewrite in_sub_app, decide_True in Hle by done. lia. }
  now apply (H l []).
Qed.
(** [first_free] finds the first sub group with room, if there is one. *)
Lemma first_free_counts l :
  match first_free (sub_counts l) with
  | Some sub => 0 <= sub < MAX_RAID_SUBGROUPS /\ in_sub sub l < MAXGROUPSIZE /\ forall k, 0 <= k < sub -> MAXGROUPSIZE <= in_sub k l
  | None => forall k, 0 <= k < MAX_RAID_SUBGROUPS -> MAXGROUPSIZE <= in_sub k l
  end.
Proof.
  unfold first_free. destruct (list_find _ (sub_counts l)) as [[j n]|] eqn:E; cbn.
  - apply list_find_Some in E as (Hj & Hn & Hb). pose proof (lookup_lt_Some _ _ _ Hj) as Hl. rewrite sub_counts_length in Hl.
    rewrite sub_counts_at in Hj by done. injection Hj as <-. split; [unfold MAX_RAID_SUBGROUPS in *; lia|]. split; [done|]. intros k Hk.
    pose proof (Hb (Z.to_nat k) (in_sub k l)) as H. rewrite sub_counts_at in H by lia. rewrite Z2Nat.id in H by lia. specialize (H eq_refl). lia.
  - intros k Hk. apply list_find_None in E. rewrite Forall_forall in E. specialize (E (in_sub k l)). cbn in E.
    assert (Hin : in_sub k l ∈ sub_counts l); [|specialize (E Hin); lia].
    apply list_elem_of_lookup. exists (Z.to_nat k). rewrite sub_counts_at by lia. now rewrite Z2Nat.id by lia.
Qed.

(** ** The invariant *)

Definition upd (f : Z -> option Z) (p : Z) (o : option Z) : Z -> option Z := fun p' => if decide (p' = p) then o else f p'.
(** Where a player in a battleground group and another group points. *)
Definition canon (b n : option Z) (original : bool) : option Z :=
  match b with
  | Some q => if original then n else Some q
  | None => if original then None else n
  end.
Definition kind (pvp : bool) (hb hn : Z -> option Z) : Z -> option Z := if pvp then hb else hn.
Definition registered (g : GroupCore) : Prop := c_guid g <> 0.
#[export] Instance registered_dec g : Decision (registered g).
Proof. unfold registered. apply _. Defined.

(** Guid, number and kind of a group; the groups that have a number are those the
    manager finds under it. *)
Definition settings (g : GroupCore) : Z * Z * bool := (c_guid g, c_store g, c_pvp g).
Record Stored (h : gmap Z (Z * Z * bool)) (m : GroupMgr) (db : gset Z) (alloc : Z) : Prop := mk_Stored {
  st_ids : ids_ok m;
  st_next : is_u 32 (NextGroupId m);
  st_store q guid store : h !! q = Some (guid, store, false) -> guid <> 0 -> 1 <= store /\ GetGroupByDbStoreId m store = Some q;
  st_stored store q : 0 <= store -> GetGroupByDbStoreId m store = Some q -> exists guid, h !! q = Some (guid, store, false) /\ guid <> 0;
  st_db store : store ∈ db <-> 0 <= store /\ GetGroupByDbStoreId m store <> None;
  st_low low q : GetGroupByGUID m low = Some q -> exists guid store b, h !! q = Some (guid, store, b) /\ guid <> 0 /\ GUID_LOPART guid = low;
  st_alloc q : h !! q <> None -> q < alloc
}.

(** The rows of members: those of groups that are no battleground groups. *)
Definition Rows (hn : Z -> option Z) (h : gmap Z GroupCore) (db : gmap Z (Z * Z)) : Prop := forall p e,
  db !! p = Some e <-> exists q gc, hn p = Some q /\ h !! q = Some gc /\ (p, e.2) ∈ c_slots gc /\ c_store gc = e.1.

Record Inv (hb hn : Z -> option Z) (v : View) : Prop := mk_Inv {
  i_members q gc p : v_groups v !! q = Some gc -> (p ∈ members gc <-> kind (c_pvp gc) hb hn p = Some q);
  i_live b p q : kind b hb hn p = Some q -> exists gc, v_groups v !! q = Some gc /\ c_pvp gc = b;
  i_rf p b : v_invite v !! p <> None -> v_rf v p b = canon (hb p) (hn p) b;
  i_slots q gc : v_groups v !! q = Some gc -> slots_ok (c_raid gc) (c_slots gc);
  i_counts q gc : v_groups v !! q = Some gc -> c_counts gc = if c_raid gc then Some (sub_counts (c_slots gc)) else None;
  i_players p : v_invite v !! p <> None \/ hb p <> None \/ hn p <> None -> is_u 32 p;
  i_invited p q : v_invite v !! p = Some (Some q) <-> exists gc, v_groups v !! q = Some gc /\ p ∈ c_invitees gc;
  i_pending p q : v_invite v !! p = Some (Some q) -> hn p = None;
  i_no_pvp_invite q gc : v_groups v !! q = Some gc -> c_pvp gc = true -> c_invitees gc = ∅;
  i_uncreated q gc : v_groups v !! q = Some gc -> ~ registered gc -> c_slots gc = [] /\ c_raid gc = false;
  i_rows : Rows hn (v_groups v) (v_dbMembers v);
  i_stored : Stored (settings <$> v_groups v) (v_mgr v) (v_dbGroups v) (v_alloc v);
  i_sides : Sides (bgs v) (v_bgRaids v)
}.
(** A battleground's group is a raid, and it is created. *)
Definition kind_ok (g : GroupCore) : Prop := bool_decide (c_bg g <> None) = c_pvp g /\ (c_pvp g = true -> registered g /\ c_raid g = true).
Definition led_group (g : GroupCore) : Prop :=
  kind_ok g /\ if decide (registered g) then c_leader g ∈ members g else c_invitees g = ∅ \/ c_leader g ∈ c_invitees g.
Definition Led (v : View) : Prop := forall q gc, v_groups v !! q = Some gc -> led_group gc.

Lemma canon_join pvp q p hb hn (R : Z -> bool -> option Z) p' b' :
  kind pvp hb hn p = None -> (forall b, R p' b = canon (hb p') (hn p') b) ->
  joined_refs pvp q p R p' b' =
  canon (if pvp then upd hb p (Some q) p' else hb p') (if pvp then hn p' else upd hn p (Some q) p') b'.
Proof.
  intros Hn HR. unfold joined_refs, upd. destruct (decide (p' = p)) as [->|Hne]; [|rewrite HR; now destruct pvp].
  rewrite !HR. unfold kind in Hn. destruct pvp; rewrite Hn; unfold canon; [now destruct (hn p), b'|now destruct (hb p), b'].
Qed.
Lemma canon_left pvp q p hb hn (R : Z -> bool -> option Z) p' b' :
  kind pvp hb hn p = Some q -> kind (negb pvp) hb hn p <> Some q -> (forall b, R p' b = canon (hb p') (hn p') b) ->
  left_refs pvp q p R p' b' = canon (if pvp then upd hb p None p' else hb p') (if pvp then hn p' else upd hn p None p') b'.
Proof.
  intros Hk Hk' HR. unfold left_refs, upd. destruct (decide (p' = p)) as [->|Hne]; [|rewrite HR; now destruct pvp].
  unfold kind in Hk, Hk'. destruct pvp; cbn in Hk'; rewrite ?HR, Hk; unfold canon.
  - now destruct b'.
  - destruct (hb p) as [q1|] eqn:Eb.
    + rewrite decide_True by done. now destruct b'.
    + rewrite decide_False by done. now destruct b'.
Qed.
Lemma kind_other hb hn v b p q : Inv hb hn v -> kind b hb hn p = Some q -> kind (negb b) hb hn p <> Some q.
Proof.
  intros HI H H'. destruct (i_live _ _ _ HI b p q H) as (gc & Hg & E). destruct (i_live _ _ _ HI (negb b) p q H') as (gc' & Hg' & E').
  rewrite Hg in Hg'. injection Hg' as <-. rewrite E in E'. now destruct b.
Qed.
Lemma kind_set (pvp b : bool) hb hn p o p' :
  kind b (if pvp then upd hb p o else hb) (if pvp then hn else upd hn p o) p' =
  if decide (b = pvp /\ p' = p) then o else kind b hb hn p'.
Proof. unfold kind, upd. destruct b, pvp; repeat case_decide; naive_solver. Qed.

(** ** A new member *)

Lemma alter_cases (h : gmap Z GroupCore) f q gc j g' :
  h !! q = Some gc -> alter f q h !! j = Some g' -> j = q /\ g' = f gc \/ j <> q /\ h !! j = Some g'.
Proof. intros Hq [(-> & y & Hy & ->)|[Hne Hj]]%lookup_alter_Some; [left; split; [done|congruence]|right; split; [congruence|done]]. Qed.
Lemma alter_at (h : gmap Z GroupCore) f q gc j g' : h !! q = Some gc -> h !! j = Some g' ->
  exists g1, alter f q h !! j = Some g1 /\ (j = q /\ g1 = f gc \/ j <> q /\ g1 = g').
Proof.
  intros Hq Hj. destruct (decide (j = q)) as [->|Hne]; [exists (f gc); rewrite lookup_alter_eq, Hq; naive_solver|].
  exists g'. rewrite lookup_alter_ne by done. auto.
Qed.
(** What the manager knows does not change with the members. *)
Lemma settings_alter (h : gmap Z GroupCore) f q gc : h !! q = Some gc -> settings (f gc) = settings gc -> settings <$> alter f q h = settings <$> h.
Proof.
  intros Hq Hf. apply map_eq. intros j. rewrite !lookup_fmap. destruct (decide (j = q)) as [->|Hne]; [|now rewrite lookup_alter_ne].
  rewrite lookup_alter_eq, Hq. cbn. now rewrite Hf.
Qed.
Lemma bgs_alter_at (h : gmap Z GroupCore) f q gc : h !! q = Some gc -> c_bg (f gc) = c_bg gc -> c_bg <$> alter f q h = c_bg <$> h.
Proof.
  intros Hq Hf. apply map_eq. intros j. rewrite !lookup_fmap. destruct (decide (j = q)) as [->|Hne]; [|now rewrite lookup_alter_ne].
  rewrite lookup_alter_eq, Hq. cbn. now rewrite Hf.
Qed.
(** A group of no side leaves, or comes. *)
Lemma Sides_delete h r q : Sides h r -> Sides (base.delete q h) (filter (fun e => e.2 <> q) r).
Proof.
  intros [H1 H2 H3]. split.
  - intros bg side j [Hj Hne]%map_lookup_filter_Some. cbn in Hne. rewrite lookup_delete_ne by done. now apply (H1 bg side).
  - intros j bg [Hne Hj]%lookup_delete_Some. destruct (H2 j bg Hj) as [side Hs]. exists side. apply map_lookup_filter_Some. now split.
  - intros k k' j [Hk _]%map_lookup_filter_Some [Hk' _]%map_lookup_filter_Some. now apply (H3 k k' j).
Qed.
Lemma Sides_new h r a : Sides h r -> h !! a = None -> Sides (<[a := None]> h) r.
Proof.
  intros [H1 H2 H3] Ha. split; [| |exact H3].
  - intros bg side j Hj. specialize (H1 bg side j Hj). rewrite lookup_insert_ne; [done|congruence].
  - intros j bg [[_ E]|[_ Hj]]%lookup_insert_Some; [done|now apply H2].
Qed.
Lemma Sides_side h r a bg side : Sides h r -> h !! a = None -> r !! (bg, side) = None -> Sides (<[a := Some bg]> h) (<[(bg, side) := a]> r).
Proof.
  intros [H1 H2 H3] Ha Hr. assert (Hold : forall k j, r !! k = Some j -> j <> a) by (intros [b s] j Hk ->; specialize (H1 b s a Hk); congruence). split.
  - intros bg' side' j [[E <-]|[_ Hj]]%lookup_insert_Some; [injection E as <- <-; now rewrite lookup_insert_eq|].
    rewrite lookup_insert_ne; [now apply (H1 bg' side')|]. intros <-. now apply (Hold _ _ Hj).
  - intros j bg' [[<- [= <-]]|[_ Hj]]%lookup_insert_Some; [exists side; now rewrite lookup_insert_eq|].
    destruct (H2 j bg' Hj) as [side' Hs]. exists side'. rewrite lookup_insert_ne; [done|]. congruence.
  - intros k k' j [[<- <-]|[_ Hk]]%lookup_insert_Some [[<- E]|[_ Hk']]%lookup_insert_Some; [done|now destruct (Hold _ _ Hk')|subst; now destruct (Hold _ _ Hk)|now apply (H3 k k' j)].
Qed.
Lemma members_add p sub gc : members (c_add p sub gc) = members gc ++ [p].
Proof. unfold members, c_add. cbn. now rewrite map_app. Qed.
Lemma slots_add raid p sub l :
  slots_ok raid l -> p ∉ map fst l -> 0 <= sub < sub_limit raid -> in_sub sub l < MAXGROUPSIZE -> slots_ok raid (l ++ [(p, sub)]).
Proof.
  intros [H1 H2 H3] Hp Hs Hr. split.
  - rewrite map_app. apply NoDup_app. split; [done|]. split; [|apply NoDup_singleton]. intros x Hx Hx'%list_elem_of_singleton. now subst.
  - intros e [He|He]%elem_of_app; [now apply H2|]. apply list_elem_of_singleton in He. now subst.
  - intros k. rewrite in_sub_app. specialize (H3 k). cbn [snd]. case_decide; [subst; lia|lia].
Qed.
Lemma sub_limit_max raid : sub_limit raid <= MAX_RAID_SUBGROUPS.
Proof. destruct raid; vm_compute; discriminate. Qed.

Lemma slot_member_in p k gc : (p, k) ∈ c_slots gc -> p ∈ members gc.
Proof. intros H. apply list_elem_of_fmap. now exists (p, k). Qed.
(** Rows of a group that is no battleground group are those of its slots. *)
Lemma rows_alter hb hn v q gc f :
  Inv hb hn v -> v_groups v !! q = Some gc -> (c_pvp gc = false -> c_store (f gc) = c_store gc /\ (forall p k, (p, k) ∈ c_slots (f gc) <-> (p, k) ∈ c_slots gc)) ->
  Rows hn (alter f q (v_groups v)) (v_dbMembers v).
Proof.
  intros HI Hq Hf p e. rewrite (i_rows _ _ _ HI p e). split; intros (j & g & Hn & Hg & Hin & Hs); exists j.
  - destruct (i_live _ _ _ HI false p j Hn) as (g0 & Hg0 & Ep). rewrite Hg in Hg0. injection Hg0 as <-.
    destruct (alter_at _ f q gc j g Hq Hg) as (g1 & Hg1 & [[-> ->]|[Hne ->]]); [|now exists g].
    rewrite Hq in Hg. injection Hg as <-. destruct (Hf Ep) as [E1 E2]. exists (f gc). rewrite E1, E2. now split_and!.
  - destruct (i_live _ _ _ HI false p j Hn) as (g0 & Hg0 & Ep). destruct (alter_cases _ f q gc j g Hq Hg) as [[-> ->]|[Hne Hj]]; [|now exists g].
    rewrite Hq in Hg0. injection Hg0 as <-. destruct (Hf Ep) as [E1 E2]. exists gc. rewrite E1, E2 in *. now split_and!.
Qed.
Lemma rows_add hb hn v q p gc sub :
  Inv hb hn v -> v_groups v !! q = Some gc -> is_u 32 p -> kind (c_pvp gc) hb hn p = None ->
  Rows (if c_pvp gc then hn else upd hn p (Some q)) (alter (c_add p sub) q (v_groups v)) (add_row gc p sub (v_dbMembers v)).
Proof.
  intros HI Hq Hu Hk. unfold add_row. destruct (c_pvp gc) eqn:Ep; [apply (rows_alter hb hn v q gc); [done|done|congruence]|].
  rewrite player_low by done. cbn in Hk. assert (Hp : p ∉ members gc) by (rewrite (i_members _ _ _ HI q gc p Hq), Ep; cbn; congruence).
  intros p' e. destruct (decide (p' = p)) as [->|Hne].
  - rewrite lookup_insert_eq. unfold upd. rewrite decide_True by done. split.
    + intros [= <-]. exists q, (c_add p sub gc). rewrite lookup_alter_eq, Hq. split_and!; [done|done| |done]. cbn. set_solver.
    + intros (j & g & [= <-] & Hg & Hin & Hs). rewrite lookup_alter_eq, Hq in Hg. injection Hg as <-. cbn in Hin, Hs.
      apply elem_of_app in Hin as [Hin|Hin]; [now apply slot_member_in in Hin|]. apply list_elem_of_singleton in Hin. destruct e. cbn in *. congruence.
  - rewrite lookup_insert_ne by done. unfold upd. rewrite decide_False by done. rewrite (i_rows _ _ _ HI p' e). split; intros (j & g & Hn & Hg & Hin & Hs); exists j.
    + destruct (alter_at _ (c_add p sub) q gc j g Hq Hg) as (g1 & Hg1 & [[-> ->]|[Hj ->]]); [|now exists g].
      rewrite Hq in Hg. injection Hg as <-. exists (c_add p sub gc). split_and!; [done|done| |done]. cbn. set_solver.
    + destruct (alter_cases _ (c_add p sub) q gc j g Hq Hg) as [[-> ->]|[Hj Hg']]; [|now exists g].
      exists gc. cbn in Hin, Hs. split_and!; [done|done| |done]. apply elem_of_app in Hin as [Hin|Hin]; [done|].
      apply list_elem_of_singleton in Hin. congruence.
Qed.

(** One group changes, and with it where the players belong. *)
Record change (hb hn hb' hn' : Z -> option Z) (v : View) (q : Z) (gc gc' : GroupCore) : Prop := mk_change {
  ch_settings : settings gc' = settings gc /\ c_bg gc' = c_bg gc;
  ch_invitees : c_invitees gc' = c_invitees gc;
  ch_created : registered gc \/ c_slots gc' = [] /\ c_raid gc' = false;
  ch_members p : p ∈ members gc' <-> kind (c_pvp gc) hb' hn' p = Some q;
  ch_others b p j : j <> q \/ b <> c_pvp gc -> kind b hb' hn' p = Some j <-> kind b hb hn p = Some j;
  ch_slots : slots_ok (c_raid gc') (c_slots gc');
  ch_counts : c_counts gc' = if c_raid gc' then Some (sub_counts (c_slots gc')) else None;
  ch_players p : hb' p <> None \/ hn' p <> None -> is_u 32 p;
  ch_pending p j : v_invite v !! p = Some (Some j) -> hn' p = None
}.
Lemma Inv_change hb hn hb' hn' v q gc f R db :
  Inv hb hn v -> v_groups v !! q = Some gc -> change hb hn hb' hn' v q gc (f gc) ->
  (forall p b, v_invite v !! p <> None -> R p b = canon (hb' p) (hn' p) b) -> Rows hn' (alter f q (v_groups v)) db ->
  Inv hb' hn' (v_with_dbMembers db (v_with_rf R (v_on_group q f v))).
Proof.
  intros HI Hq [[Hs Hbg] Hinv Hcr Hm Ho Hsl Hc Hp Hpe] HR Hrows. pose proof Hs as [= Eg Es Ep].
  split; cbn [v_groups v_rf v_mgr v_dbGroups v_dbMembers v_alloc v_invite v_bgRaids v_with_dbMembers v_with_rf v_on_group v_with_groups].
  - intros j g' p' Hj. destruct (alter_cases _ _ q gc j g' Hq Hj) as [[-> ->]|[Hne Hj']]; [rewrite Ep; apply Hm|].
    rewrite (i_members _ _ _ HI j g' p' Hj'). rewrite Ho by auto. done.
  - intros b p' j Hk. assert (Hcase : j = q /\ b = c_pvp gc \/ (j <> q \/ b <> c_pvp gc)).
    { destruct (decide (j = q)); [destruct (decide (b = c_pvp gc))|]; auto. }
    destruct Hcase as [[-> ->]|Hcase]; [exists (f gc); rewrite lookup_alter_eq, Hq; split; [done|exact Ep]|].
    rewrite Ho in Hk by done. destruct (i_live _ _ _ HI b p' j Hk) as (g' & Hg' & Eb).
    destruct (alter_at _ f q gc j g' Hq Hg') as (g1 & Hg1 & [[-> ->]|[Hne ->]]); [|eauto]. rewrite Hq in Hg'. injection Hg' as <-. exists (f gc). now rewrite Ep.
  - exact (fun p' b H => HR p' b H).
  - intros j g' Hj. destruct (alter_cases _ _ q gc j g' Hq Hj) as [[-> ->]|[Hne Hj']]; [done|now apply (i_slots _ _ _ HI j)].
  - intros j g' Hj. destruct (alter_cases _ _ q gc j g' Hq Hj) as [[-> ->]|[Hne Hj']]; [done|now apply (i_counts _ _ _ HI j)].
  - intros p' [H|H]; [apply (i_players _ _ _ HI); now left|now apply Hp].
  - intros p' j. rewrite (i_invited _ _ _ HI). split.
    + intros (g' & Hg' & Hin). destruct (alter_at _ f q gc j g' Hq Hg') as (g1 & Hg1 & [[-> ->]|[Hne ->]]); [|eauto].
      rewrite Hq in Hg'. injection Hg' as <-. exists (f gc). now rewrite Hinv.
    + intros (g' & Hg' & Hin). destruct (alter_cases _ _ q gc j g' Hq Hg') as [[-> ->]|[Hne Hj']]; [|eauto]. exists gc. now rewrite <- Hinv.
  - exact Hpe.
  - intros j g' Hj. destruct (alter_cases _ _ q gc j g' Hq Hj) as [[-> ->]|[Hne Hj']]; [|now apply (i_no_pvp_invite _ _ _ HI j)].
    rewrite Hinv, Ep. apply (i_no_pvp_invite _ _ _ HI q gc Hq).
  - intros j g' Hj Hn. destruct (alter_cases _ _ q gc j g' Hq Hj) as [[-> ->]|[Hne Hj']]; [|now apply (i_uncreated _ _ _ HI j)].
    destruct Hcr as [Hcr|Hcr]; [|done]. destruct Hn. unfold registered in *. now rewrite Eg.
  - exact Hrows.
  - rewrite (settings_alter _ _ q gc Hq) by done. apply (i_stored _ _ _ HI).
  - unfold bgs. cbn. rewrite (bgs_alter_at _ _ q gc Hq) by done. apply (i_sides _ _ _ HI).
Qed.

Lemma set_invite_same p o v : v_invite v !! p = Some o -> v_set_invite p o v = v.
Proof.
  intros H. unfold v_set_invite, v_with_invite. replace (alter _ p (v_invite v)) with (v_invite v); [now destruct v|]. apply map_eq. intros j.
  destruct (decide (j = p)) as [->|Hne]; [now rewrite lookup_alter_eq, H|now rewrite lookup_alter_ne].
Qed.
Lemma Inv_add hb hn v q p gc sub :
  Inv hb hn v -> v_groups v !! q = Some gc -> registered gc -> kind (c_pvp gc) hb hn p = None -> v_invite v !! p = Some None ->
  0 <= sub < sub_limit (c_raid gc) -> in_sub sub (c_slots gc) < MAXGROUPSIZE ->
  Inv (if c_pvp gc then upd hb p (Some q) else hb) (if c_pvp gc then hn else upd hn p (Some q)) (v_add q p sub gc v).
Proof.
  intros HI Hq Hreg Hk Hinv Hsub Hroom.
  assert (Hp : p ∉ members gc) by (rewrite (i_members _ _ _ HI q gc p Hq); congruence).
  assert (Hpu : is_u 32 p) by (apply (i_players _ _ _ HI); left; now rewrite Hinv).
  assert (Ev : v_set_invite p None (v_on_group q (c_add p sub) v) = v_on_group q (c_add p sub) v) by (apply set_invite_same; exact Hinv).
  unfold v_add. rewrite Ev. apply (Inv_change hb hn _ _ v q gc); [done|done| | |now apply (rows_add hb hn)].
  - split; [done|done|now left| | | | | |].
    + intros p'. rewrite kind_set, members_add, elem_of_app, list_elem_of_singleton, (i_members _ _ _ HI q gc p' Hq). case_decide; naive_solver.
    + intros b p' j Hj. rewrite kind_set. case_decide as E; [|done]. destruct E as [-> ->]. rewrite Hk. naive_solver.
    + apply slots_add; [exact (i_slots _ _ _ HI q gc Hq)|done|done|done].
    + unfold c_add, c_count. cbn. rewrite (i_counts _ _ _ HI q gc Hq). destruct (c_raid gc) eqn:Er; [|done]. cbn. f_equal. now apply sub_counts_add.
    + intros p' Hp'. apply (i_players _ _ _ HI). destruct (decide (p' = p)) as [->|Hne]; [left; now rewrite Hinv|]. unfold upd in Hp'.
      destruct (c_pvp gc); rewrite decide_False in Hp' by done; tauto.
    + intros p' j Hp'. assert (Hne : p' <> p) by (intros ->; congruence). pose proof (i_pending _ _ _ HI p' j Hp') as Hx.
      destruct (c_pvp gc); [done|]. unfold upd. now rewrite decide_False.
  - intros p' b Hp'. assert (HR : forall b, v_rf v p' b = canon (hb p') (hn p') b) by (intros; now apply (i_rf _ _ _ HI)).
    rewrite (canon_join _ q p hb hn _ p' b Hk HR). now destruct (c_pvp gc).
Qed.

(** ** A member leaves *)

Lemma find_member p gc : p ∈ members gc -> exists i k, list_find (fun e => e.1 = p) (c_slots gc) = Some (i, (p, k)) /\ c_slots gc !! i = Some (p, k).
Proof.
  intros Hp. destruct (list_find (fun e : Z * Z => e.1 = p) (c_slots gc)) as [[i [p' k]]|] eqn:E.
  - pose proof E as (Hl & E1 & _)%list_find_Some. cbn in E1. subst p'. now exists i, k.
  - apply list_find_None in E. apply list_elem_of_fmap in Hp as ([p' k] & -> & Hin). rewrite Forall_forall in E. now destruct (E _ Hin).
Qed.
Lemma erased (l : list (Z * Z)) i p k x : NoDup (map fst l) -> l !! i = Some (p, k) -> x ∈ base.delete i l <-> x ∈ l /\ x.1 <> p.
Proof.
  intros Hn Hl. rewrite delete_take_drop. rewrite <- (take_drop_middle l i (p, k) Hl) in Hn |- * at 3. rewrite map_app in Hn. cbn in Hn.
  apply NoDup_app in Hn as (H1 & H2 & H3). apply NoDup_cons in H3 as [H3 H4]. rewrite !elem_of_app, elem_of_cons.
  assert (Ha : x ∈ take i l -> x.1 <> p).
  { intros Hx E. apply (H2 p); [|left]. rewrite <- E. now apply list_elem_of_fmap_2. }
  assert (Hb : x ∈ drop (S i) l -> x.1 <> p).
  { intros Hx E. apply H3. rewrite <- E. now apply list_elem_of_fmap_2. }
  destruct x as [px kx]. cbn in *. naive_solver.
Qed.
Lemma slots_delete raid l i e : slots_ok raid l -> l !! i = Some e -> slots_ok raid (base.delete i l).
Proof.
  intros [H1 H2 H3] Hl. split.
  - apply (sublist_NoDup _ (map fst l)); [done|]. apply (fmap_sublist fst). apply sublist_delete.
  - intros x Hx. apply H2. eapply elem_of_sublist; [exact Hx|apply sublist_delete].
  - intros k. rewrite (in_sub_delete k l i e Hl). specialize (H3 k). case_decide; lia.
Qed.

Lemma members_erase hb hn v q p gc :
  Inv hb hn v -> v_groups v !! q = Some gc -> forall p', p' ∈ members (c_erase p gc) <-> p' ∈ members gc /\ p' <> p.
Proof.
  intros HI Hq p'. unfold c_erase. destruct (list_find (fun e : Z * Z => e.1 = p) (c_slots gc)) as [[i [p0 k]]|] eqn:E.
  - pose proof E as (Hl & E1 & _)%list_find_Some. cbn in E1. subst p0. unfold members. cbn. pose proof (so_once _ _ (i_slots _ _ _ HI q gc Hq)) as Hn. split.
    + intros ([px kx] & -> & Hin)%list_elem_of_fmap. apply (erased _ i p k _ Hn Hl) in Hin as [Hin Hne]. split; [|done]. now apply (list_elem_of_fmap_2 fst _ (px, kx)).
    + intros [([px kx] & -> & Hin)%list_elem_of_fmap Hne]. apply (list_elem_of_fmap_2 fst _ (px, kx)). now apply (erased _ i p k _ Hn Hl).
  - split; [|tauto]. intros Hp'. split; [done|]. intros ->. destruct (find_member p gc Hp') as (i & k & Ef & _). congruence.
Qed.
Lemma rows_erase hb hn v q p gc :
  Inv hb hn v -> v_groups v !! q = Some gc -> kind (c_pvp gc) hb hn p = Some q ->
  Rows (if c_pvp gc then hn else upd hn p None) (alter (c_erase p) q (v_groups v))
    (if c_pvp gc then v_dbMembers v else base.delete (GUID_LOPART p) (v_dbMembers v)).
Proof.
  intros HI Hq Hk. destruct (c_pvp gc) eqn:Ep; [apply (rows_alter hb hn v q gc); [done|done|congruence]|]. cbn in Hk.
  rewrite player_low by (apply (i_players _ _ _ HI); right; right; congruence).
  assert (Hp : p ∈ members gc) by (rewrite (i_members _ _ _ HI q gc p Hq), Ep; done).
  assert (Hs : forall x, x ∈ c_slots (c_erase p gc) <-> x ∈ c_slots gc /\ x.1 <> p).
  { destruct (find_member p gc Hp) as (i & k & Ef & Hl). unfold c_erase. rewrite Ef. cbn. intros x.
    apply (erased _ i p k); [apply (i_slots _ _ _ HI q gc Hq)|done]. }
  assert (Est : c_store (c_erase p gc) = c_store gc) by (unfold c_erase; now destruct (list_find _ _) as [[i e]|]).
  intros p' e. destruct (decide (p' = p)) as [->|Hne].
  - rewrite lookup_delete_eq. split; [done|]. intros (j & g & Hx & _). unfold upd in Hx. now rewrite decide_True in Hx.
  - rewrite lookup_delete_ne by done. unfold upd. rewrite decide_False by done. rewrite (i_rows _ _ _ HI p' e). split; intros (j & g & Hn & Hg & Hin & Hst); exists j.
    + destruct (alter_at _ (c_erase p) q gc j g Hq Hg) as (g1 & Hg1 & [[-> ->]|[Hj ->]]); [|now exists g].
      rewrite Hq in Hg. injection Hg as <-. exists (c_erase p gc). rewrite Hs, Est. now split_and!.
    + destruct (alter_cases _ (c_erase p) q gc j g Hq Hg) as [[-> ->]|[Hj Hg']]; [|now exists g].
      exists gc. rewrite Hs, Est in *. destruct Hin as [Hin _]. now split_and!.
Qed.
Lemma v_left_form q p gc v :
  v_left q p gc v = v_with_dbMembers (if c_pvp gc then v_dbMembers v else base.delete (GUID_LOPART p) (v_dbMembers v))
    (v_with_rf (match v_invite v !! p with Some _ => left_refs (c_pvp gc) q p (v_rf v) | None => v_rf v end) (v_on_group q (c_erase p) v)).
Proof. unfold v_left, v_leave. now destruct (v_invite v !! p), (c_pvp gc). Qed.

Lemma erase_settings p gc : settings (c_erase p gc) = settings gc /\ c_invitees (c_erase p gc) = c_invitees gc /\ c_raid (c_erase p gc) = c_raid gc /\ c_leader (c_erase p gc) = c_leader gc.
Proof. unfold c_erase. now destruct (list_find _ _) as [[i e]|]. Qed.
Lemma erase_bg p gc : c_bg (c_erase p gc) = c_bg gc.
Proof. unfold c_erase. now destruct (list_find _ _) as [[i e]|]. Qed.
Lemma Inv_left hb hn v q p gc :
  Inv hb hn v -> v_groups v !! q = Some gc -> kind (c_pvp gc) hb hn p = Some q ->
  Inv (if c_pvp gc then upd hb p None else hb) (if c_pvp gc then hn else upd hn p None) (v_left q p gc v).
Proof.
  intros HI Hq Hk. assert (Hp : p ∈ members gc) by now rewrite (i_members _ _ _ HI q gc p Hq).
  destruct (erase_settings p gc) as (Es & Ei & Er & _). destruct (find_member p gc Hp) as (i & k & Ef & Hl).
  pose proof (i_slots _ _ _ HI q gc Hq) as Hso.
  rewrite v_left_form. apply (Inv_change hb hn _ _ v q gc); [done|done| | |now apply (rows_erase hb hn)].
  - split; [split; [exact Es|apply erase_bg]|done| | | | | | |].
    + left. destruct (decide (registered gc)) as [|Hn]; [done|]. destruct (i_uncreated _ _ _ HI q gc Hq Hn) as [E _]. unfold members in Hp. rewrite E in Hp. now apply elem_of_nil in Hp.
    + intros p'. rewrite kind_set, (members_erase hb hn v q p gc HI Hq), (i_members _ _ _ HI q gc p' Hq). case_decide; naive_solver.
    + intros b p' j Hj. rewrite kind_set. case_decide as E; [|done]. destruct E as [-> ->]. rewrite Hk. naive_solver.
    + rewrite Er. unfold c_erase. rewrite Ef. cbn. now apply (slots_delete _ _ i (p, k)).
    + rewrite Er. unfold c_erase. rewrite Ef. unfold c_count. cbn. rewrite (i_counts _ _ _ HI q gc Hq). destruct (c_raid gc) eqn:E; [|done]. cbn. f_equal.
      apply (sub_counts_delete _ i (p, k)); [done| |apply (so_room _ _ Hso)].
      pose proof (so_subs _ _ Hso (p, k)) as H. apply H. now apply list_elem_of_lookup_2 in Hl.
    + intros p' Hp'. apply (i_players _ _ _ HI). unfold upd in Hp'. destruct (c_pvp gc); case_decide; naive_solver.
    + intros p' j Hp'. pose proof (i_pending _ _ _ HI p' j Hp') as Hx. destruct (c_pvp gc); [done|]. unfold upd. now case_decide.
  - intros p' b Hp'. assert (HR : forall b, v_rf v p' b = canon (hb p') (hn p') b) by (intros; now apply (i_rf _ _ _ HI)).
    destruct (v_invite v !! p) eqn:Ep.
    + rewrite (canon_left _ q p hb hn _ p' b Hk (kind_other _ _ _ _ _ _ HI Hk) HR). now destruct (c_pvp gc).
    + assert (Hne : p' <> p) by (intros ->; congruence). rewrite HR. unfold upd. destruct (c_pvp gc); now rewrite decide_False.
Qed.

(** ** Settings *)

Lemma with_same v : v_with_dbMembers (v_dbMembers v) (v_with_rf (v_rf v) v) = v.
Proof. now destruct v. Qed.
Lemma Inv_same_members hb hn v q gc f :
  Inv hb hn v -> v_groups v !! q = Some gc -> settings (f gc) = settings gc -> c_bg (f gc) = c_bg gc -> c_invitees (f gc) = c_invitees gc -> c_slots (f gc) = c_slots gc ->
  registered gc \/ c_raid (f gc) = false -> slots_ok (c_raid (f gc)) (c_slots gc) ->
  c_counts (f gc) = (if c_raid (f gc) then Some (sub_counts (c_slots gc)) else None) -> Inv hb hn (v_on_group q f v).
Proof.
  intros HI Hq Hs Hbg Hi Hsl Hcr Hok Hc. rewrite <- (with_same (v_on_group q f v)). apply (Inv_change hb hn hb hn v q gc); [done|done| | |].
  - split; rewrite ?Hsl; try done.
    + destruct (decide (registered gc)) as [|Hn]; [now left|]. destruct (i_uncreated _ _ _ HI q gc Hq Hn) as [E _]. destruct Hcr; [now left|now right].
    + intros p. unfold members. rewrite Hsl. exact (i_members _ _ _ HI q gc p Hq).
    + intros p Hp. apply (i_players _ _ _ HI). tauto.
    + intros p j. exact (i_pending _ _ _ HI p j).
  - intros p b Hp. now apply (i_rf _ _ _ HI).
  - apply (rows_alter hb hn v q gc); [done|done|]. intros _. injection Hs as _ E _. rewrite E, Hsl. done.
Qed.
Lemma Inv_set_leader hb hn v q gc l : Inv hb hn v -> v_groups v !! q = Some gc -> Inv hb hn (v_on_group q (c_set_leader l) v).
Proof.
  intros HI Hq. apply (Inv_same_members _ _ _ _ gc); try done; [|exact (i_slots _ _ _ HI q gc Hq)|exact (i_counts _ _ _ HI q gc Hq)].
  destruct (decide (registered gc)) as [|Hn]; [now left|]. right. now destruct (i_uncreated _ _ _ HI q gc Hq Hn).
Qed.
Lemma Inv_set_lfg hb hn v q gc b : Inv hb hn v -> v_groups v !! q = Some gc -> Inv hb hn (v_on_group q (c_set_lfg b) v).
Proof.
  intros HI Hq. apply (Inv_same_members _ _ _ _ gc); try done; [|exact (i_slots _ _ _ HI q gc Hq)|exact (i_counts _ _ _ HI q gc Hq)].
  destruct (decide (registered gc)) as [|Hn]; [now left|]. right. now destruct (i_uncreated _ _ _ HI q gc Hq Hn).
Qed.
Lemma slots_raid raid l : slots_ok raid l -> slots_ok true l.
Proof.
  intros [H1 H2 H3]. split; [done| |done]. intros e He. specialize (H2 e He). pose proof (sub_limit_max raid). cbn. lia.
Qed.
Lemma Inv_to_raid hb hn v q gc : Inv hb hn v -> v_groups v !! q = Some gc -> registered gc -> Inv hb hn (v_on_group q c_to_raid v).
Proof.
  intros HI Hq Hr. pose proof (i_slots _ _ _ HI q gc Hq) as Hs. apply (Inv_same_members _ _ _ _ gc); try done; [now left|now apply (slots_raid (c_raid gc))|].
  unfold c_to_raid. cbn. now rewrite (count_slots_ok (c_raid gc)).
Qed.

(** Another sub group for a member. *)
Lemma map_fst_insert l i p k k' : l !! i = Some (p, k) -> map fst (<[i := (p, k')]> l) = map fst (l : list (Z * Z)).
Proof.
  intros H. change (fst <$> <[i := (p, k')]> l = map fst l). rewrite list_fmap_insert, list_insert_id; [done|]. now rewrite list_lookup_fmap, H.
Qed.
Lemma moved l i p k k' x : NoDup (map fst l) -> l !! i = Some (p, k) ->
  x ∈ <[i := (p, k')]> (l : list (Z * Z)) <-> x = (p, k') \/ x ∈ l /\ x.1 <> p.
Proof.
  intros Hn Hl. pose proof (lookup_lt_Some _ _ _ Hl) as Hlt. rewrite <- (erased l i p k x Hn Hl). rewrite insert_take_drop by done.
  rewrite delete_take_drop, !elem_of_app, elem_of_cons. tauto.
Qed.
Lemma rows_regroup hb hn v q gc p prev sub i :
  Inv hb hn v -> v_groups v !! q = Some gc -> kind (c_pvp gc) hb hn p = Some q ->
  list_find (fun e => e.1 = p) (c_slots gc) = Some (i, (p, prev)) ->
  Rows hn (alter (c_regroup p sub) q (v_groups v)) (regroup_rows gc p sub (v_dbMembers v)).
Proof.
  intros HI Hq Hk Ef. unfold regroup_rows. destruct (c_pvp gc) eqn:Ep; [apply (rows_alter hb hn v q gc); [done|done|congruence]|]. cbn in Hk.
  pose proof Ef as (Hl & _ & _)%list_find_Some. pose proof (so_once _ _ (i_slots _ _ _ HI q gc Hq)) as Hn.
  assert (Hs : forall x, x ∈ c_slots (c_regroup p sub gc) <-> x = (p, sub) \/ x ∈ c_slots gc /\ x.1 <> p).
  { intros x. unfold c_regroup. rewrite Ef. cbn. now apply (moved _ i p prev). }
  assert (Est : c_store (c_regroup p sub gc) = c_store gc) by (unfold c_regroup; now rewrite Ef).
  rewrite player_low by (apply (i_players _ _ _ HI); right; right; congruence).
  assert (Hrow : v_dbMembers v !! p = Some (c_store gc, prev)).
  { apply (i_rows _ _ _ HI). exists q, gc. split_and!; try done. now apply list_elem_of_lookup_2 in Hl. }
  intros p' e. destruct (decide (p' = p)) as [->|Hne].
  - rewrite lookup_alter_eq, Hrow. cbn. split.
    + intros [= <-]. exists q, (c_regroup p sub gc). rewrite lookup_alter_eq, Hq, Hs, Est. split_and!; try done. now left.
    + intros (j & g & Hx & Hg & Hin & Hst). rewrite Hk in Hx. injection Hx as <-. rewrite lookup_alter_eq, Hq in Hg. injection Hg as <-.
      rewrite Hs in Hin. rewrite Est in Hst. destruct e as [e1 e2]. cbn in *. destruct Hin as [[= ->]|[_ []]]; [congruence|done].
  - rewrite lookup_alter_ne by done. rewrite (i_rows _ _ _ HI p' e). split; intros (j & g & Hx & Hg & Hin & Hst); exists j.
    + destruct (alter_at _ (c_regroup p sub) q gc j g Hq Hg) as (g1 & Hg1 & [[-> ->]|[Hj ->]]); [|now exists g].
      rewrite Hq in Hg. injection Hg as <-. exists (c_regroup p sub gc). rewrite Hs, Est. split_and!; try done. now right.
    + destruct (alter_cases _ (c_regroup p sub) q gc j g Hq Hg) as [[-> ->]|[Hj Hg']]; [|now exists g].
      exists gc. rewrite Hs, Est in *. split_and!; try done. destruct Hin as [[= E1 _]|[Hin _]]; [congruence|done].
Qed.
Lemma Inv_regroup hb hn v q gc p prev sub :
  Inv hb hn v -> v_groups v !! q = Some gc -> c_raid gc = true -> (p, prev) ∈ c_slots gc -> 0 <= sub < MAX_RAID_SUBGROUPS -> prev <> sub ->
  in_sub sub (c_slots gc) < MAXGROUPSIZE ->
  Inv hb hn (v_with_dbMembers (regroup_rows gc p sub (v_dbMembers v)) (v_on_group q (c_regroup p sub) v)).
Proof.
  intros HI Hq Hraid Hin Hsub Hne Hroom. pose proof (i_slots _ _ _ HI q gc Hq) as Hso. pose proof (slot_member_in p prev gc Hin) as Hp.
  destruct (find_member p gc Hp) as (i & k & Ef & Hl).
  assert (k = prev) as ->.
  { apply list_elem_of_lookup in Hin as [j Hj]. assert (i = j) as ->; [|congruence].
    apply (NoDup_lookup (map fst (c_slots gc)) i j p (so_once _ _ Hso)); change (map fst ?l) with (fst <$> l); now rewrite list_lookup_fmap, ?Hl, ?Hj. }
  assert (Hk : kind (c_pvp gc) hb hn p = Some q) by now apply (i_members _ _ _ HI q gc p Hq).
  assert (Hreg : registered gc).
  { destruct (decide (registered gc)) as [|Hn]; [done|]. destruct (i_uncreated _ _ _ HI q gc Hq Hn) as [_ E]. congruence. }
  assert (Eg : c_regroup p sub gc = c_count prev (-1) (c_count sub 1 (c_set_slots (<[i := (p, sub)]> (c_slots gc)) gc))) by (unfold c_regroup; now rewrite Ef).
  assert (Esub : forall kk, in_sub kk (<[i := (p, sub)]> (c_slots gc)) = in_sub kk (c_slots gc) - (if decide (prev = kk) then 1 else 0) + (if decide (sub = kk) then 1 else 0))
    by (intros kk; exact (in_sub_insert kk _ i (p, prev) (p, sub) Hl)).
  rewrite <- (with_same (v_on_group q (c_regroup p sub) v)). apply (Inv_change hb hn hb hn v q gc); [done|done| | |].
  - rewrite Eg. split; try done; [now left| | | | |].
    + intros p'. unfold members. cbn. rewrite (map_fst_insert _ i p prev) by done. exact (i_members _ _ _ HI q gc p' Hq).
    + cbn. split.
      * rewrite (map_fst_insert _ i p prev) by done. apply Hso.
      * intros e He. rewrite Hraid. apply list_elem_of_lookup in He as [j Hj]. destruct (decide (j = i)) as [->|Hj'].
        -- rewrite list_lookup_insert_eq in Hj by now apply lookup_lt_Some in Hl. injection Hj as <-. exact Hsub.
        -- rewrite list_lookup_insert_ne in Hj by done. rewrite <- Hraid. apply (so_subs _ _ Hso). now apply list_elem_of_lookup_2 in Hj.
      * intros kk. rewrite Esub. pose proof (so_room _ _ Hso kk). repeat case_decide; subst; lia.
    + unfold c_count. cbn. rewrite (i_counts _ _ _ HI q gc Hq), Hraid. cbn. f_equal.
      rewrite (sub_counts_add p sub (c_slots gc)) by done. apply sub_counts_alter.
      * pose proof (so_subs _ _ Hso (p, prev) Hin) as H. rewrite Hraid in H. exact H.
      * rewrite in_sub_app. cbn [snd]. rewrite decide_False by congruence. pose proof (so_room _ _ Hso prev). pose proof (in_sub_elem prev _ i (p, prev) Hl eq_refl).
        unfold is_u, MAXGROUPSIZE in *. change (2 ^ 8) with 256. lia.
      * intros kk. rewrite Esub, in_sub_app. cbn [snd]. repeat case_decide; lia.
    + intros p' Hp'. apply (i_players _ _ _ HI). tauto.
    + intros p' j. exact (i_pending _ _ _ HI p' j).
  - intros p' b Hp'. now apply (i_rf _ _ _ HI).
  - now apply (rows_regroup hb hn v q gc p prev sub i).
Qed.

(** ** Invitations *)

Definition uninvited (g : GroupCore) : GroupCore := c_set_invitees ∅ g.
Lemma uninvited_at (h h' : gmap Z GroupCore) q gc : uninvited <$> h' = uninvited <$> h -> h' !! q = Some gc ->
  exists g, h !! q = Some g /\ uninvited gc = uninvited g.
Proof.
  intros E Hq. assert (H : (uninvited <$> h') !! q = Some (uninvited gc)) by now rewrite lookup_fmap, Hq.
  rewrite E, lookup_fmap in H. destruct (h !! q) as [g|]; [|done]. cbn in H. injection H as H. exists g. unfold uninvited, c_set_invitees. split; [done|]. congruence.
Qed.
Lemma uninvited_back (h h' : gmap Z GroupCore) q gc : uninvited <$> h' = uninvited <$> h -> h !! q = Some gc ->
  exists g, h' !! q = Some g /\ uninvited g = uninvited gc.
Proof. intros E Hq. destruct (uninvited_at h' h q gc (eq_sym E) Hq) as (g & Hg & Eg). now exists g. Qed.
Lemma Inv_invites hb hn v h i :
  Inv hb hn v -> uninvited <$> h = uninvited <$> v_groups v -> (forall p, i !! p = None <-> v_invite v !! p = None) ->
  (forall p q, i !! p = Some (Some q) <-> exists gc, h !! q = Some gc /\ p ∈ c_invitees gc) ->
  (forall p q, i !! p = Some (Some q) -> hn p = None) ->
  (forall q gc, h !! q = Some gc -> c_pvp gc = true -> c_invitees gc = ∅) ->
  Inv hb hn (v_with_invite i (v_with_groups h v)).
Proof.
  intros HI Eh Hi H1 H2 H3.
  split; cbn [v_groups v_rf v_mgr v_dbGroups v_dbMembers v_alloc v_invite v_with_invite v_with_groups]; try done.
  - intros q gc p Hq. destruct (uninvited_at _ _ q gc Eh Hq) as (g & Hg & E). unfold uninvited, c_set_invitees in E. injection E as E1 E2 E3 E4 E5 E6 E7 E8 E9 E10 E11.
    pose proof (i_members _ _ _ HI q g p Hg) as H. unfold members in *. now rewrite E1, E7.
  - intros b p q Hk. destruct (i_live _ _ _ HI b p q Hk) as (g & Hg & Eb). destruct (uninvited_back _ _ q g Eh Hg) as (g' & Hg' & E). exists g'. split; [done|].
    rewrite <- Eb. exact (f_equal c_pvp E).
  - intros p b Hp. apply (i_rf _ _ _ HI). now rewrite <- Hi.
  - intros q gc Hq. destruct (uninvited_at _ _ q gc Eh Hq) as (g & Hg & E). pose proof (f_equal c_slots E) as E1. pose proof (f_equal c_raid E) as E2. cbn in E1, E2.
    rewrite E1, E2. now apply (i_slots _ _ _ HI q).
  - intros q gc Hq. destruct (uninvited_at _ _ q gc Eh Hq) as (g & Hg & E). pose proof (f_equal c_slots E) as E1. pose proof (f_equal c_raid E) as E2.
    pose proof (f_equal c_counts E) as E3. cbn in E1, E2, E3. rewrite E1, E2, E3. now apply (i_counts _ _ _ HI q).
  - intros p Hp. apply (i_players _ _ _ HI). now rewrite Hi in Hp.
  - intros q gc Hq Hn. destruct (uninvited_at _ _ q gc Eh Hq) as (g & Hg & E). pose proof (f_equal c_slots E) as E1. pose proof (f_equal c_raid E) as E2.
    pose proof (f_equal c_guid E) as E3. cbn in E1, E2, E3. rewrite E1, E2. apply (i_uncreated _ _ _ HI q g Hg). unfold registered in *. now rewrite <- E3.
  - intros p e. rewrite (i_rows _ _ _ HI p e). split; intros (q & g & Hn & Hg & Hin & Hs); exists q.
    + destruct (uninvited_back _ _ q g Eh Hg) as (g' & Hg' & E). exists g'. pose proof (f_equal c_slots E) as E1. pose proof (f_equal c_store E) as E2. cbn in E1, E2.
      rewrite E1, E2. now split_and!.
    + destruct (uninvited_at _ _ q g Eh Hg) as (g' & Hg' & E). exists g'. pose proof (f_equal c_slots E) as E1. pose proof (f_equal c_store E) as E2. cbn in E1, E2.
      rewrite <- E1, <- E2. now split_and!.
  - assert (Es : settings <$> h = settings <$> v_groups v).
    { apply map_eq. intros q. pose proof (f_equal (.!! q) Eh) as E. cbn in E. rewrite !lookup_fmap in *. destruct (h !! q) as [a|], (v_groups v !! q) as [b|]; try done.
      cbn in *. injection E as E. unfold settings. f_equal. congruence. }
    rewrite Es. apply (i_stored _ _ _ HI).
  - assert (Es : c_bg <$> h = c_bg <$> v_groups v).
    { apply map_eq. intros q. pose proof (f_equal (.!! q) Eh) as E. cbn in E. rewrite !lookup_fmap in *. destruct (h !! q) as [a|], (v_groups v !! q) as [b|]; try done.
      cbn in *. injection E as E. f_equal. congruence. }
    unfold bgs. cbn. rewrite Es. apply (i_sides _ _ _ HI).
Qed.

Lemma uninvited_alter (h : gmap Z GroupCore) q f : (forall g, uninvited (f g) = uninvited g) -> uninvited <$> alter f q h = uninvited <$> h.
Proof.
  intros Hf. apply map_eq. intros j. rewrite !lookup_fmap. destruct (decide (j = q)) as [->|Hne]; [|now rewrite lookup_alter_ne].
  rewrite lookup_alter_eq. destruct (h !! q); [cbn; now rewrite Hf|done].
Qed.
Lemma alter_none {A} (m : gmap Z A) f p j : alter f p m !! j = None <-> m !! j = None.
Proof. destruct (decide (j = p)) as [->|Hne]; [rewrite lookup_alter_eq; now destruct (m !! p)|now rewrite lookup_alter_ne]. Qed.
Lemma Inv_remove_invite hb hn v q p gc :
  Inv hb hn v -> v_groups v !! q = Some gc -> v_invite v !! p = Some (Some q) \/ v_invite v !! p = Some None -> Inv hb hn (v_remove_invite q p v).
Proof.
  intros HI Hq Hp. unfold v_remove_invite. apply (Inv_invites hb hn v (alter _ q (v_groups v)) (alter _ p (v_invite v)) HI).
  - now apply uninvited_alter.
  - intros j. apply alter_none.
  - intros p' j. destruct (decide (p' = p)) as [->|Hne].
    + rewrite lookup_alter_eq. split; [destruct (v_invite v !! p); done|]. intros (g & Hg & Hin).
      destruct (alter_cases _ _ q gc j g Hq Hg) as [[-> ->]|[Hj Hg']]; [cbn in Hin; set_solver|].
      assert (H : v_invite v !! p = Some (Some j)) by (apply (i_invited _ _ _ HI); eauto). destruct Hp as [Hp|Hp]; congruence.
    + rewrite lookup_alter_ne by done. rewrite (i_invited _ _ _ HI). split; intros (g & Hg & Hin).
      * destruct (alter_at _ (fun g => c_set_invitees (c_invitees g ∖ {[p]}) g) q gc j g Hq Hg) as (g1 & Hg1 & [[-> ->]|[Hj ->]]); [|eauto].
        rewrite Hq in Hg. injection Hg as <-. eexists. split; [exact Hg1|]. cbn. set_solver.
      * destruct (alter_cases _ _ q gc j g Hq Hg) as [[-> ->]|[Hj Hg']]; [|eauto]. exists gc. split; [done|]. cbn in Hin. set_solver.
  - intros p' j. destruct (decide (p' = p)) as [->|Hne]; [rewrite lookup_alter_eq; now destruct (v_invite v !! p)|].
    rewrite lookup_alter_ne by done. apply (i_pending _ _ _ HI).
  - intros j g Hg. destruct (alter_cases _ _ q gc j g Hq Hg) as [[-> ->]|[Hj Hg']]; [|now apply (i_no_pvp_invite _ _ _ HI j)].
    cbn. intros Hpvp. rewrite (i_no_pvp_invite _ _ _ HI q gc Hq Hpvp). set_solver.
Qed.
Lemma Inv_add_invite hb hn v q p gc :
  Inv hb hn v -> v_groups v !! q = Some gc -> c_pvp gc = false -> v_invite v !! p = Some None -> hn p = None -> Inv hb hn (v_add_invite q p v).
Proof.
  intros HI Hq Hpvp Hp Hn. unfold v_add_invite. apply (Inv_invites hb hn v (alter _ q (v_groups v)) (alter _ p (v_invite v)) HI).
  - now apply uninvited_alter.
  - intros j. apply alter_none.
  - intros p' j. destruct (decide (p' = p)) as [->|Hne].
    + rewrite lookup_alter_eq, Hp. cbn. split.
      * intros [= <-]. destruct (alter_at _ (fun g => c_set_invitees ({[p]} ∪ c_invitees g) g) q gc q gc Hq Hq) as (g1 & Hg1 & [[_ ->]|[? _]]); [|done].
        eexists. split; [exact Hg1|]. cbn. set_solver.
      * intros (g & Hg & Hin). destruct (alter_cases _ _ q gc j g Hq Hg) as [[-> ->]|[Hj Hg']]; [done|].
        assert (H : v_invite v !! p = Some (Some j)) by (apply (i_invited _ _ _ HI); eauto). congruence.
    + rewrite lookup_alter_ne by done. rewrite (i_invited _ _ _ HI). split; intros (g & Hg & Hin).
      * destruct (alter_at _ (fun g => c_set_invitees ({[p]} ∪ c_invitees g) g) q gc j g Hq Hg) as (g1 & Hg1 & [[-> ->]|[Hj ->]]); [|eauto].
        rewrite Hq in Hg. injection Hg as <-. eexists. split; [exact Hg1|]. cbn. set_solver.
      * destruct (alter_cases _ _ q gc j g Hq Hg) as [[-> ->]|[Hj Hg']]; [|eauto]. exists gc. split; [done|]. cbn in Hin. set_solver.
  - intros p' j. destruct (decide (p' = p)) as [->|Hne]; [done|]. rewrite lookup_alter_ne by done. apply (i_pending _ _ _ HI).
  - intros j g Hg. destruct (alter_cases _ _ q gc j g Hq Hg) as [[-> ->]|[Hj Hg']]; [cbn; congruence|now apply (i_no_pvp_invite _ _ _ HI j)].
Qed.
Lemma uninvite_at s v p : v_invite (v_uninvite s v) !! p = (fun o => if decide (p ∈ s) then None else o) <$> v_invite v !! p.
Proof. cbn. rewrite map_lookup_imap. now destruct (v_invite v !! p). Qed.
Lemma Inv_remove_invites hb hn v q gc :
  Inv hb hn v -> v_groups v !! q = Some gc -> Inv hb hn (v_remove_invites q (c_invitees gc) v).
Proof.
  intros HI Hq. assert (Hat : forall p j, v_invite (v_uninvite (c_invitees gc) v) !! p = Some (Some j) <-> v_invite v !! p = Some (Some j) /\ p ∉ c_invitees gc).
  { intros p j. rewrite uninvite_at. destruct (v_invite v !! p) as [o|]; cbn; [|naive_solver]. case_decide; naive_solver. }
  enough (H : Inv hb hn (v_with_invite (v_invite (v_uninvite (c_invitees gc) v)) (v_with_groups (alter (c_set_invitees ∅) q (v_groups v)) v))).
  { unfold v_remove_invites, v_on_group, v_uninvite, v_with_invite, v_with_groups in *. exact H. }
  apply (Inv_invites hb hn v _ _ HI).
  - now apply uninvited_alter.
  - intros p. rewrite uninvite_at. now destruct (v_invite v !! p).
  - intros p j. rewrite Hat. rewrite (i_invited _ _ _ HI). split.
    + intros [(g & Hg & Hin) Hn]. destruct (alter_at _ (c_set_invitees ∅) q gc j g Hq Hg) as (g1 & Hg1 & [[-> ->]|[Hj ->]]); [congruence|eauto].
    + intros (g & Hg & Hin). destruct (alter_cases _ _ q gc j g Hq Hg) as [[-> ->]|[Hj Hg']]; [cbn in Hin; set_solver|]. split; [eauto|].
      intros Hin'. assert (H : v_invite v !! p = Some (Some q)) by (apply (i_invited _ _ _ HI); eauto).
      assert (H' : v_invite v !! p = Some (Some j)) by (apply (i_invited _ _ _ HI); eauto). congruence.
  - intros p j. rewrite Hat. intros [H _]. now apply (i_pending _ _ _ HI p j).
  - intros j g Hg. destruct (alter_cases _ _ q gc j g Hq Hg) as [[-> ->]|[Hj Hg']]; [done|now apply (i_no_pvp_invite _ _ _ HI j)].
Qed.

(** ** The end of a group *)

Definition drop (f : Z -> option Z) (q : Z) : Z -> option Z := fun p => if decide (f p = Some q) then None else f p.
Lemma kind_drop (pvp b : bool) hb hn q p :
  kind b (if pvp then drop hb q else hb) (if pvp then hn else drop hn q) p = if decide (b = pvp /\ kind b hb hn p = Some q) then None else kind b hb hn p.
Proof. unfold kind, drop. destruct b, pvp; repeat case_decide; naive_solver. Qed.

Lemma left_refs_at pvp q p p' R b : left_refs pvp q p R p' b = if decide (p' = p) then left_refs pvp q p R p b else R p' b.
Proof. unfold left_refs. destruct (decide (p' = p)) as [->|]; [|done]. now rewrite (decide_True (P := p = p)). Qed.
Lemma left_refs_ext pvp q p R R' b : (forall b, R p b = R' p b) -> left_refs pvp q p R p b = left_refs pvp q p R' p b.
Proof. intros H. unfold left_refs. rewrite !(decide_True (P := p = p)) by done. now rewrite (H true), (H false). Qed.
Lemma leave_rf q pvp l v p b : NoDup l ->
  v_rf (foldl (v_leave q pvp) v l) p b =
  if decide (p ∈ l /\ v_invite v !! p <> None) then left_refs pvp q p (v_rf v) p b else v_rf v p b.
Proof.
  intros Hn. revert v. induction Hn as [|x l Hx Hn IH]; intros v; cbn [foldl].
  - rewrite decide_False; [done|]. intros [H _]. now apply elem_of_nil in H.
  - rewrite IH. assert (Ei : v_invite (v_leave q pvp v x) = v_invite v) by (unfold v_leave; now destruct (v_invite v !! x)). rewrite Ei.
    assert (ER : forall p' b', v_rf (v_leave q pvp v x) p' b' = if decide (p' = x /\ v_invite v !! x <> None) then left_refs pvp q x (v_rf v) x b' else v_rf v p' b').
    { intros p' b'. unfold v_leave. destruct (v_invite v !! x) eqn:E; cbn [v_rf v_with_rf].
      - rewrite left_refs_at. destruct (decide (p' = x)) as [->|]; [now rewrite decide_True|]. rewrite decide_False; [done|]. tauto.
      - rewrite decide_False; [done|]. tauto. }
    destruct (decide (p = x)) as [->|Hne].
    + rewrite decide_False by tauto. rewrite ER. apply decide_ext. set_solver.
    + rewrite (left_refs_ext pvp q p (v_rf (v_leave q pvp v x)) (v_rf v)) by (intros b'; rewrite ER; rewrite decide_False; [done|tauto]).
      rewrite ER, (decide_False (P := p = x /\ _)) by tauto. apply decide_ext. rewrite elem_of_cons. tauto.
Qed.
Lemma free_some store m q : GetGroupByDbStoreId m store = Some q -> exists m', FreeGroupDbStoreId store m = Some m' /\ GroupStore m' = GroupStore m.
Proof.
  unfold GetGroupByDbStoreId, FreeGroupDbStoreId. destruct (Z.ltb_spec store (zlen (GroupDbStore m))) as [Hl|]; [|done]. intros _.
  destruct (store <? NextGroupDbStoreId m); cbn [GroupDbStore SetNextGroupDbStoreId]; destruct (Z.ltb_spec store (zlen (GroupDbStore m))); try lia; eauto.
Qed.
Lemma free_mgr_some hb hn v q gc : Inv hb hn v -> v_groups v !! q = Some gc -> registered gc ->
  exists m, free_mgr gc (v_mgr v) = Some m /\ GroupStore m = GroupStore (v_mgr v).
Proof.
  intros HI Hq Hr. unfold free_mgr. destruct (c_pvp gc) eqn:Ep; [eauto|].
  destruct (st_store _ _ _ _ (i_stored _ _ _ HI) q (c_guid gc) (c_store gc)) as [_ H]; [|done|now apply (free_some _ _ q)].
  rewrite lookup_fmap, Hq. cbn. unfold settings. now rewrite Ep.
Qed.

Lemma Stored_disband (h : gmap Z (Z * Z * bool)) (m : GroupMgr) (db : gset Z) alloc q guid store (pvp : bool) m' :
  Stored h m db alloc -> h !! q = Some (guid, store, pvp) -> guid <> 0 ->
  (if pvp then Some m else FreeGroupDbStoreId store m) = Some m' -> GroupStore m' = GroupStore m ->
  Stored (base.delete q h) (with_store (base.delete (GUID_LOPART guid) (GroupStore m')) m') (if pvp then db else db ∖ {[store]}) alloc.
Proof.
  intros [S1 S0 S2 S3 S4 S5 S6] Hq Hg Hf Es. set (m1 := with_store _ m').
  assert (G1 : forall j, GetGroupByDbStoreId m1 j = GetGroupByDbStoreId m' j) by done.
  assert (Hcase : (pvp = true /\ m' = m) \/ (pvp = false /\ 1 <= store /\ GetGroupByDbStoreId m store = Some q /\ ids_ok m' /\
    forall j, 0 <= j -> GetGroupByDbStoreId m' j = if decide (j = store) then None else GetGroupByDbStoreId m j)).
  { destruct pvp; [left; split; congruence|right]. destruct (S2 q guid store Hq Hg) as [H1 H2]. split_and!; try done.
    - apply (id_step_ok m m' S1). now apply (step_delete m store q m').
    - intros j Hj. apply (stored_free store m m' j); [lia|done|done]. }
  split.
  - change (ids_ok m'). destruct Hcase as [[_ ->]|(_ & _ & _ & H & _)]; done.
  - change (is_u 32 (NextGroupId m')). destruct pvp; [now injection Hf as <-|]. unfold FreeGroupDbStoreId in Hf.
    destruct (store <? NextGroupDbStoreId m); cbn in Hf; case_if; (done || injection Hf as <-; exact S0).
  - intros q' guid' store' Hq' Hg'. apply lookup_delete_Some in Hq' as [Hne Hq']. destruct (S2 q' guid' store' Hq' Hg') as [H1 H2]. split; [done|]. rewrite G1.
    destruct Hcase as [[_ ->]|(_ & Hs & Hg2 & _ & H)]; [done|]. rewrite H by lia. rewrite decide_False; [done|]. intros ->. congruence.
  - intros s q' Hs. rewrite G1. intros Hq'. assert (Hold : GetGroupByDbStoreId m s = Some q' /\ (pvp = false -> s <> store)).
    { destruct Hcase as [[-> ->]|(-> & _ & _ & _ & H)]; [done|]. rewrite H in Hq' by done. case_decide; [done|]. done. }
    destruct Hold as [Hold Hne]. destruct (S3 s q' Hs Hold) as (guid' & Hh & Hg'). exists guid'. split; [|done]. rewrite lookup_delete_ne; [done|].
    intros <-. rewrite Hq in Hh. injection Hh as -> -> ->. now apply Hne.
  - intros s. rewrite G1. destruct Hcase as [[-> ->]|(-> & Hs & Hg2 & _ & H)]; [apply S4|]. rewrite elem_of_difference, elem_of_singleton, S4. split.
    + intros [[H1 H2] Hne]. split; [done|]. rewrite H by done. now rewrite decide_False.
    + intros [H1 H2]. rewrite H in H2 by done. case_decide; [done|]. done.
  - intros low q'. change (GetGroupByGUID m1 low) with (base.delete (GUID_LOPART guid) (GroupStore m') !! low). rewrite Es. intros [Hne Hl]%lookup_delete_Some.
    destruct (S5 low q' Hl) as (guid' & store' & b & Hh & Hg' & El). exists guid', store', b. split; [|done]. rewrite lookup_delete_ne; [done|]. intros <-.
    rewrite Hq in Hh. injection Hh as <- _ _. done.
  - intros q' Hq'. apply S6. intros E. apply Hq'. rewrite lookup_delete_None. now right.
Qed.

Definition left_to (hb hn : Z -> option Z) (q : Z) (pvp : bool) : Z -> bool -> option Z := fun p =>
  canon (if pvp then drop hb q p else hb p) (if pvp then hn p else drop hn q p).
Lemma disband_rf hb hn v q gc p b :
  Inv hb hn v -> v_groups v !! q = Some gc -> v_invite v !! p <> None ->
  v_rf (foldl (v_leave q (c_pvp gc)) v (members gc)) p b = left_to hb hn q (c_pvp gc) p b.
Proof.
  intros HI Hq Hp. rewrite leave_rf by apply (i_slots _ _ _ HI q gc Hq). unfold left_to, drop.
  assert (HR : forall b, v_rf v p b = canon (hb p) (hn p) b) by (intros; now apply (i_rf _ _ _ HI)).
  destruct (decide (p ∈ members gc)) as [Hm|Hm].
  - rewrite decide_True by done. pose proof Hm as Hk. rewrite (i_members _ _ _ HI q gc p Hq) in Hk.
    rewrite (canon_left _ q p hb hn _ p b Hk (kind_other _ _ _ _ _ _ HI Hk) HR). unfold upd.
    unfold kind in Hk. destruct (c_pvp gc); rewrite Hk; rewrite !decide_True by done; done.
  - rewrite decide_False by tauto. rewrite HR. rewrite (i_members _ _ _ HI q gc p Hq) in Hm. unfold kind in Hm.
    destruct (c_pvp gc); now rewrite decide_False.
Qed.
Lemma disband_no_refs hb hn v q gc :
  Inv hb hn v -> (forall p b, v_rf v p b <> None -> v_invite v !! p <> None) -> v_groups v !! q = Some gc ->
  forall p b, v_rf (foldl (v_leave q (c_pvp gc)) v (members gc)) p b <> Some q.
Proof.
  intros HI Hsane Hq p b H. destruct (v_invite v !! p) as [o|] eqn:Ep.
  - rewrite (disband_rf hb hn v q gc p b HI Hq) in H by now rewrite Ep. unfold left_to in H.
    assert (Hkey : kind (c_pvp gc) (if c_pvp gc then drop hb q else hb) (if c_pvp gc then hn else drop hn q) p = Some q \/ kind (negb (c_pvp gc)) hb hn p = Some q).
    { unfold kind. destruct (c_pvp gc); cbn; unfold canon in H.
      - destruct (drop hb q p); [destruct b; [now right|now left]|destruct b; [done|now right]].
      - destruct (hb p); [destruct b; [now left|now right]|destruct b; [done|now left]]. }
    destruct Hkey as [Hkey|Hkey].
    + rewrite kind_drop in Hkey. case_decide as E; [done|]. apply E. done.
    + destruct (i_live _ _ _ HI (negb (c_pvp gc)) p q Hkey) as (g & Hg & E). rewrite Hq in Hg. injection Hg as <-. now destruct (c_pvp gc).
  - rewrite leave_rf in H by apply (i_slots _ _ _ HI q gc Hq). rewrite decide_False in H by (rewrite Ep; tauto).
    apply (Hsane p b); [congruence|done].
Qed.

Lemma rows_disband hb hn v q gc :
  Inv hb hn v -> v_groups v !! q = Some gc -> c_pvp gc = false -> registered gc ->
  Rows (drop hn q) (base.delete q (v_groups v)) (filter (fun e => e.2.1 <> c_store gc) (v_dbMembers v)).
Proof.
  intros HI Hq Hpvp Hreg p e. rewrite map_lookup_filter_Some. cbn. rewrite (i_rows _ _ _ HI p e). pose proof (i_stored _ _ _ HI) as HS. split.
  - intros [(j & g & Hn & Hg & Hin & Hs) Hne]. exists j, g. assert (Hj : j <> q) by (intros ->; congruence). unfold drop.
    rewrite decide_False by congruence. now rewrite lookup_delete_ne.
  - intros (j & g & Hn & Hg & Hin & Hs). apply lookup_delete_Some in Hg as [Hj Hg]. unfold drop in Hn. case_decide; [done|]. split; [exists j, g; now split_and!|].
    intros E. destruct (i_live _ _ _ HI false p j Hn) as (g' & Hg' & Ep). rewrite Hg in Hg'. injection Hg' as <-.
    assert (Hreg' : registered g).
    { destruct (decide (registered g)) as [|Hn']; [done|]. destruct (i_uncreated _ _ _ HI j g Hg Hn') as [Es _]. rewrite Es in Hin. now apply elem_of_nil in Hin. }
    destruct (st_store _ _ _ _ HS q (c_guid gc) (c_store gc)) as [_ H1]; [rewrite lookup_fmap, Hq; cbn; unfold settings; now rewrite Hpvp|done|].
    destruct (st_store _ _ _ _ HS j (c_guid g) (c_store g)) as [_ H2]; [rewrite lookup_fmap, Hg; cbn; unfold settings; now rewrite Ep|done|]. congruence.
Qed.
Lemma rows_pvp hb hn v q gc : Inv hb hn v -> v_groups v !! q = Some gc -> c_pvp gc = true -> Rows hn (base.delete q (v_groups v)) (v_dbMembers v).
Proof.
  intros HI Hq Hpvp p e. rewrite (i_rows _ _ _ HI p e). split; intros (j & g & Hn & Hg & Hin & Hs); exists j, g.
  - rewrite lookup_delete_ne; [done|]. intros <-. destruct (i_live _ _ _ HI false p q Hn) as (g' & Hg' & Ep). congruence.
  - apply lookup_delete_Some in Hg as [_ Hg]. done.
Qed.
Lemma Inv_disband hb hn v q gc m :
  Inv hb hn v -> v_groups v !! q = Some gc -> registered gc -> free_mgr gc (v_mgr v) = Some m -> GroupStore m = GroupStore (v_mgr v) ->
  Inv (if c_pvp gc then drop hb q else hb) (if c_pvp gc then hn else drop hn q) (v_disband q gc m v).
Proof.
  intros HI Hq Hreg Hf Es. destruct (leave_fields q (c_pvp gc) (members gc) v) as (F1 & F2 & F3 & F4 & F5 & F6 & F7). cbn zeta in *.
  pose proof (fun p b => disband_rf hb hn v q gc p b HI Hq) as HR. unfold v_disband. set (v1 := foldl _ v _) in *. clearbody v1. cbn zeta.
  set (v2 := v_uninvite (c_invitees gc) v1).
  assert (Hinv : forall p, v_invite v2 !! p = (fun o => if decide (o = Some q) then None else o) <$> v_invite v !! p).
  { intros p. unfold v2. rewrite uninvite_at, F2. destruct (v_invite v !! p) as [o|] eqn:Ep; [cbn|done]. f_equal. apply decide_ext. split.
    - intros Hin. assert (H : v_invite v !! p = Some (Some q)) by (apply (i_invited _ _ _ HI); eauto). congruence.
    - intros ->. apply (i_invited _ _ _ HI) in Ep as (g & Hg & Hin). congruence. }
  assert (Hnone : forall p, v_invite v2 !! p <> None -> v_invite v !! p <> None) by (intros p; rewrite Hinv; now destruct (v_invite v !! p)).
  set (v3 := if c_pvp gc then v2 else _).
  assert (E3 : v_groups v3 = v_groups v /\ v_rf v3 = v_rf v1 /\ v_invite v3 = v_invite v2 /\ v_alloc v3 = v_alloc v /\
    v_dbGroups v3 = (if c_pvp gc then v_dbGroups v else v_dbGroups v ∖ {[c_store gc]}) /\
    v_dbMembers v3 = (if c_pvp gc then v_dbMembers v else filter (fun e => e.2.1 <> c_store gc) (v_dbMembers v)) /\ v_bgRaids v3 = v_bgRaids v)
    by (unfold v3; destruct (c_pvp gc); cbn; rewrite ?F1, ?F3, ?F5, ?F6, ?F7; now split_and!).
  clearbody v3. destruct E3 as (G1 & G2 & G3 & G4 & G5 & G6 & G7).
  unfold v_delete. split; cbn [v_groups v_rf v_mgr v_dbGroups v_dbMembers v_alloc v_invite v_bgRaids v_with_mgr v_with_groups v_with_bgRaids]; rewrite ?G1, ?G2, ?G3, ?G4, ?G5, ?G6.
  - intros j g p Hg. apply lookup_delete_Some in Hg as [Hj Hg]. rewrite kind_drop, (i_members _ _ _ HI j g p Hg). case_decide as E; [|done]. naive_solver.
  - intros b p j. rewrite kind_drop. case_decide as E; [done|]. intros Hk. destruct (i_live _ _ _ HI b p j Hk) as (g & Hg & Eb). exists g. split; [|done].
    rewrite lookup_delete_ne; [done|]. intros <-. rewrite Hq in Hg. injection Hg as <-. now apply E.
  - intros p b Hp. rewrite HR by now apply Hnone. unfold left_to. now destruct (c_pvp gc).
  - intros j g Hg. apply lookup_delete_Some in Hg as [Hj Hg]. now apply (i_slots _ _ _ HI j).
  - intros j g Hg. apply lookup_delete_Some in Hg as [Hj Hg]. now apply (i_counts _ _ _ HI j).
  - intros p Hp. apply (i_players _ _ _ HI). destruct Hp as [Hp|[Hp|Hp]]; [left; now apply Hnone|right; left|right; right];
      destruct (c_pvp gc); try done; unfold drop in Hp; now case_decide.
  - intros p j. rewrite Hinv. split.
    + destruct (v_invite v !! p) as [o|] eqn:Ep; [cbn|done]. case_decide; [done|]. intros [= ->]. apply (i_invited _ _ _ HI) in Ep as (g & Hg & Hin).
      exists g. rewrite lookup_delete_ne; [done|]. congruence.
    + intros (g & Hg & Hin). apply lookup_delete_Some in Hg as [Hj Hg]. assert (H : v_invite v !! p = Some (Some j)) by (apply (i_invited _ _ _ HI); eauto).
      rewrite H. cbn. rewrite decide_False; congruence.
  - intros p j. rewrite Hinv. destruct (v_invite v !! p) as [o|] eqn:Ep; [cbn|done]. case_decide; [done|]. intros [= ->].
    pose proof (i_pending _ _ _ HI p j Ep) as Hx. destruct (c_pvp gc); [done|]. unfold drop. now case_decide.
  - intros j g Hg. apply lookup_delete_Some in Hg as [Hj Hg]. now apply (i_no_pvp_invite _ _ _ HI j).
  - intros j g Hg. apply lookup_delete_Some in Hg as [Hj Hg]. now apply (i_uncreated _ _ _ HI j).
  - destruct (c_pvp gc) eqn:Ep; [now apply (rows_pvp hb hn v q gc)|now apply (rows_disband hb hn v q gc)].
  - rewrite fmap_delete. apply (Stored_disband _ (v_mgr v) _ _ q (c_guid gc) (c_store gc) (c_pvp gc) m); [apply (i_stored _ _ _ HI)|now rewrite lookup_fmap, Hq|done|exact Hf|done].
  - unfold bgs. cbn. rewrite ?G1, ?G7, fmap_delete. apply Sides_delete, (i_sides _ _ _ HI).
Qed.

(** ** A new group *)

Lemma next_guid_same m : GroupDbStore (next_guid m) = GroupDbStore m /\ NextGroupDbStoreId (next_guid m) = NextGroupDbStoreId m /\
  GroupStore (next_guid m) = GroupStore m /\ is_u 32 (NextGroupId (next_guid m)).
Proof. split_and!; [done..|]. cbn. apply uwrap_range. lia. Qed.
Lemma Stored_create (h : gmap Z (Z * Z * bool)) m (db : gset Z) alloc q guid store (pvp : bool) gc :
  Stored h m db alloc -> h !! q = Some (0, store, pvp) -> guid <> 0 -> c_pvp gc = pvp -> c_store gc = store -> (pvp = false -> ids_left m) ->
  Stored (<[q := (guid, create_store gc m, pvp)]> h) (create_mgr q gc m) (if pvp then db else {[next_store m]} ∪ db) alloc.
Proof.
  intros [S1 S0 S2 S3 S4 S5 S6] Hq Hg Epvp Est Hl. destruct (next_guid_same m) as (N1 & N2 & N3 & N4).
  set (s := create_store gc m). set (m' := create_mgr q gc m).
  assert (Hlow : GroupStore m' = GroupStore m).
  { unfold m', create_mgr. rewrite Epvp. destruct pvp; [done|]. unfold GenerateNewGroupDbStoreId. cbn -[find_free]. exact N3. }
  assert (Hcase : pvp = true /\ m' = next_guid m /\ s = store \/
    pvp = false /\ s = next_store m /\ 1 <= s /\ GetGroupByDbStoreId m s = None /\ ids_ok m' /\ NextGroupId m' = NextGroupId (next_guid m) /\
    forall j, 0 <= j -> GetGroupByDbStoreId m' j = if decide (j = s) then Some q else GetGroupByDbStoreId m j).
  { unfold m', s, create_mgr, create_store. rewrite Epvp. destruct pvp; [left; now split_and!|right].
    assert (Hok : ids_ok (next_guid m)) by exact S1. assert (Hl' : ids_left (next_guid m)) by (unfold ids_left; rewrite N1; now apply Hl).
    destruct (generate_ok _ Hok Hl') as (next & En & _). unfold next_store. rewrite En. cbn [fst snd].
    destruct Hok as (H1 & H2 & H3). split_and!; try done.
    - pose proof (step_create (next_guid m) q _ Hl' eq_refl) as Hstep. rewrite En in Hstep. cbn [fst snd] in Hstep.
      exact (id_step_ok (next_guid m) _ S1 Hstep).
    - intros j Hj. rewrite stored_register by lia. case_decide; [done|]. now apply stored_eq. }
  assert (Hget : forall j q', 0 <= j -> GetGroupByDbStoreId m j = Some q' -> GetGroupByDbStoreId m' j = Some q').
  { intros j q' Hj Hg'. destruct Hcase as [(_ & -> & _)|(_ & _ & _ & Hn & _ & _ & H)]; [done|]. rewrite H by done. case_decide; [congruence|done]. }
  split.
  - destruct Hcase as [(_ & -> & _)|(_ & _ & _ & _ & H & _)]; done.
  - destruct Hcase as [(_ & -> & _)|(_ & _ & _ & _ & _ & E & _)]; [done|]. now rewrite E.
  - intros q' guid' store' Hq' Hg'. apply lookup_insert_Some in Hq' as [[<- E]|[Hne Hq']].
    + injection E as <- <- E. destruct Hcase as [(E' & _)|(_ & _ & H1 & _ & _ & _ & H)]; [congruence|]. split; [done|]. rewrite H by lia. now rewrite decide_True.
    + destruct (S2 q' guid' store' Hq' Hg') as [H1 H2]. split; [done|]. apply Hget; [lia|done].
  - intros j q' Hj Hq'. assert (Hold : GetGroupByDbStoreId m j = Some q' \/ pvp = false /\ j = s /\ q' = q).
    { destruct Hcase as [(_ & E & _)|(-> & _ & _ & _ & _ & _ & H)]; [left; now rewrite E in Hq'|]. rewrite H in Hq' by done. case_decide; [right; naive_solver|now left]. }
    destruct Hold as [Hold|(-> & -> & ->)]; [|exists guid; now rewrite lookup_insert_eq].
    destruct (S3 j q' Hj Hold) as (guid' & Hh & Hg'). exists guid'. rewrite lookup_insert_ne; [done|]. intros <-. rewrite Hq in Hh. injection Hh as <- _ _. done.
  - intros j. destruct Hcase as [(-> & -> & _)|(-> & Es & H1 & _ & _ & _ & H)]; [apply S4|]. rewrite <- Es, elem_of_union, elem_of_singleton, S4. split.
    + intros [->|[Hj Hn]]; [split; [lia|]; rewrite H by lia; now rewrite decide_True|]. split; [done|]. rewrite H by done. now case_decide.
    + intros [Hj Hn]. rewrite H in Hn by done. case_decide; [now left|now right].
  - intros low q'. unfold GetGroupByGUID. rewrite Hlow. intros Hl'. destruct (S5 low q' Hl') as (guid' & store' & b & Hh & Hg' & E).
    exists guid', store', b. rewrite lookup_insert_ne; [done|]. intros <-. rewrite Hq in Hh. injection Hh as <- _ _. done.
  - intros q' Hq'. apply S6. destruct (decide (q' = q)) as [->|Hne]; [now rewrite Hq|]. now rewrite lookup_insert_ne in Hq'.
Qed.

Lemma created_registered leader gc m : is_u 32 (NextGroupId m) -> registered (created leader gc m).
Proof.
  unfold registered, created, c_create. cbn [c_guid]. intros Hu E. unfold is_u in Hu.
  rewrite guid_value in E; [|unfold is_u, HIGHGUID_GROUP; lia|lia|lia|right; unfold is_u; lia]. unfold HIGHGUID_GROUP in E. lia.
Qed.
Lemma Inv_create hb hn v q leader gc :
  Inv hb hn v -> v_groups v !! q = Some gc -> ~ registered gc -> (c_pvp gc = false -> ids_left (v_mgr v)) -> Inv hb hn (v_create q leader gc v).
Proof.
  intros HI Hq Hn Hl. pose proof (i_stored _ _ _ HI) as HS. destruct (i_uncreated _ _ _ HI q gc Hq Hn) as [Hsl Hraid].
  set (f := c_create (NextGroupId (v_mgr v)) leader (create_store gc (v_mgr v))).
  assert (Hguid : c_guid (f gc) <> 0) by exact (created_registered leader gc _ (st_next _ _ _ _ HS)).
  assert (Egc : c_guid gc = 0) by (unfold registered in Hn; destruct (Z.eq_dec (c_guid gc) 0); tauto).
  assert (Hset : settings <$> alter f q (v_groups v) = <[q := (c_guid (f gc), create_store gc (v_mgr v), c_pvp gc)]> (settings <$> v_groups v)).
  { apply map_eq. intros j. destruct (decide (j = q)) as [->|Hj].
    - now rewrite lookup_insert_eq, lookup_fmap, lookup_alter_eq, Hq.
    - now rewrite lookup_insert_ne, !lookup_fmap, lookup_alter_ne. }
  split; cbn [v_groups v_rf v_mgr v_dbGroups v_dbMembers v_alloc v_invite v_create v_with_dbGroups v_with_mgr v_on_group v_with_groups]; fold f.
  - intros j g p Hj. destruct (alter_cases _ f q gc j g Hq Hj) as [[-> ->]|[Hne Hg]]; [exact (i_members _ _ _ HI q gc p Hq)|exact (i_members _ _ _ HI j g p Hg)].
  - intros b p j Hk. destruct (i_live _ _ _ HI b p j Hk) as (g & Hg & Eb). destruct (alter_at _ f q gc j g Hq Hg) as (g1 & Hg1 & [[-> ->]|[Hne ->]]); [|eauto].
    rewrite Hq in Hg. injection Hg as <-. now exists (f gc).
  - apply (i_rf _ _ _ HI).
  - intros j g Hj. destruct (alter_cases _ f q gc j g Hq Hj) as [[-> ->]|[Hne Hg]]; [|now apply (i_slots _ _ _ HI j)].
    cbn. rewrite Hsl. split; [apply NoDup_nil_2|intros e He; now apply elem_of_nil in He|intros k; vm_compute; discriminate].
  - intros j g Hj. destruct (alter_cases _ f q gc j g Hq Hj) as [[-> ->]|[Hne Hg]]; [|now apply (i_counts _ _ _ HI j)].
    cbn -[repeat sub_counts]. rewrite Hsl, Hraid, orb_false_r. rewrite (i_counts _ _ _ HI q gc Hq), Hraid. now destruct (c_pvp gc).
  - apply (i_players _ _ _ HI).
  - intros p j. rewrite (i_invited _ _ _ HI). split; intros (g & Hg & Hin).
    + destruct (alter_at _ f q gc j g Hq Hg) as (g1 & Hg1 & [[-> ->]|[Hne ->]]); [|eauto]. rewrite Hq in Hg. injection Hg as <-. eauto.
    + destruct (alter_cases _ f q gc j g Hq Hg) as [[-> ->]|[Hne Hg']]; eauto.
  - apply (i_pending _ _ _ HI).
  - intros j g Hj. destruct (alter_cases _ f q gc j g Hq Hj) as [[-> ->]|[Hne Hg]]; [exact (i_no_pvp_invite _ _ _ HI q gc Hq)|exact (i_no_pvp_invite _ _ _ HI j g Hg)].
  - intros j g Hj Hr. destruct (alter_cases _ f q gc j g Hq Hj) as [[-> ->]|[Hne Hg]]; [done|now apply (i_uncreated _ _ _ HI j)].
  - intros p e. rewrite (i_rows _ _ _ HI p e). split; intros (j & g & Hx & Hg & Hin & Hs); exists j.
    + assert (Hj : j <> q) by (intros ->; rewrite Hq in Hg; injection Hg as <-; rewrite Hsl in Hin; now apply elem_of_nil in Hin).
      exists g. now rewrite lookup_alter_ne.
    + destruct (alter_cases _ f q gc j g Hq Hg) as [[-> ->]|[Hne Hg']]; [cbn in Hin; rewrite Hsl in Hin; now apply elem_of_nil in Hin|now exists g].
  - rewrite Hset. apply (Stored_create _ _ _ _ q (c_guid (f gc)) (c_store gc) (c_pvp gc) gc HS); try done.
    rewrite lookup_fmap, Hq. cbn. unfold settings. now rewrite Egc.
  - unfold bgs. cbn. fold f. rewrite (bgs_alter_at _ f q gc Hq) by done. apply (i_sides _ _ _ HI).
Qed.

(** A group object without members is put in the heap, or taken out of it. *)
Record empty_group (g : GroupCore) : Prop := mk_empty_group {
  eg_slots : c_slots g = []; eg_guid : c_guid g = 0; eg_raid : c_raid g = false; eg_counts : c_counts g = None; eg_invitees : c_invitees g = ∅
}.
Definition v_new (g : GroupCore) (v : View) : View := v_with_groups (<[v_alloc v := g]> (v_groups v)) (v_with_alloc (v_alloc v + 1) v).
Lemma alloc_fresh hb hn v q : Inv hb hn v -> v_groups v !! q <> None -> q < v_alloc v.
Proof. intros HI Hq. apply (st_alloc _ _ _ _ (i_stored _ _ _ HI)). rewrite lookup_fmap. now destruct (v_groups v !! q). Qed.
Lemma alloc_none hb hn v : Inv hb hn v -> v_groups v !! v_alloc v = None.
Proof. intros HI. destruct (v_groups v !! v_alloc v) eqn:E; [|done]. pose proof (alloc_fresh hb hn v (v_alloc v) HI) as H. rewrite E in H. specialize (H ltac:(done)). lia. Qed.
Lemma Inv_new_side hb hn v g r :
  Inv hb hn v -> empty_group g -> Sides (<[v_alloc v := c_bg g]> (bgs v)) r -> Inv hb hn (v_with_bgRaids r (v_new g v)).
Proof.
  intros HI [E1 E2 E3 E4 E5] HSd. pose proof (alloc_none hb hn v HI) as Hnone. set (a := v_alloc v) in *.
  assert (Hold : forall j g', <[a := g]> (v_groups v) !! j = Some g' -> j = a /\ g' = g \/ j <> a /\ v_groups v !! j = Some g')
    by (intros j g' [[<- <-]|[Hne H]]%lookup_insert_Some; auto).
  assert (Hback : forall j g', v_groups v !! j = Some g' -> j <> a /\ <[a := g]> (v_groups v) !! j = Some g').
  { intros j g' H. assert (j <> a) by congruence. now rewrite lookup_insert_ne. }
  pose proof (i_stored _ _ _ HI) as [S1 S0 S2 S3 S4 S5 S6].
  split; cbn [v_groups v_rf v_mgr v_dbGroups v_dbMembers v_alloc v_invite v_bgRaids v_new v_with_groups v_with_alloc v_with_bgRaids]; fold a.
  - intros j g' p [[-> ->]|[Hne Hg]]%Hold; [|exact (i_members _ _ _ HI j g' p Hg)]. unfold members. rewrite E1. split; [intros H; now apply elem_of_nil in H|].
    intros Hk. destruct (i_live _ _ _ HI _ p a Hk) as (g1 & Hg1 & _). congruence.
  - intros b p j Hk. destruct (i_live _ _ _ HI b p j Hk) as (g1 & Hg1 & Eb). exists g1. split; [now apply Hback|done].
  - apply (i_rf _ _ _ HI).
  - intros j g' [[-> ->]|[Hne Hg]]%Hold; [|now apply (i_slots _ _ _ HI j)]. rewrite E1.
    split; [apply NoDup_nil_2|intros e He; now apply elem_of_nil in He|intros k; vm_compute; discriminate].
  - intros j g' [[-> ->]|[Hne Hg]]%Hold; [now rewrite E4, E3|now apply (i_counts _ _ _ HI j)].
  - apply (i_players _ _ _ HI).
  - intros p j. rewrite (i_invited _ _ _ HI). split; intros (g' & Hg & Hin); [exists g'; split; [now apply Hback|done]|].
    destruct (Hold j g' Hg) as [[-> ->]|[Hne Hg']]; [rewrite E5 in Hin; set_solver|eauto].
  - apply (i_pending _ _ _ HI).
  - intros j g' [[-> ->]|[Hne Hg]]%Hold; [done|exact (i_no_pvp_invite _ _ _ HI j g' Hg)].
  - intros j g' [[-> ->]|[Hne Hg]]%Hold; [done|exact (i_uncreated _ _ _ HI j g' Hg)].
  - intros p e. rewrite (i_rows _ _ _ HI p e). split; intros (j & g' & Hx & Hg & Hin & Hs); exists j, g'; [split; [done|]; split; [now apply Hback|done]|].
    destruct (Hold j g' Hg) as [[-> ->]|[Hne Hg']]; [rewrite E1 in Hin; now apply elem_of_nil in Hin|done].
  - rewrite fmap_insert. assert (Hn : (settings <$> v_groups v) !! a = None) by now rewrite lookup_fmap, Hnone. split; try done.
    + intros q guid store [[<- E]|[Hne Hq]]%lookup_insert_Some Hg; [unfold settings in E; congruence|eauto].
    + intros s q Hs Hq. destruct (S3 s q Hs Hq) as (guid & Hh & Hg). exists guid. rewrite lookup_insert_ne; [done|congruence].
    + intros low q Hq. destruct (S5 low q Hq) as (guid & store & b & Hh & Hg). exists guid, store, b. rewrite lookup_insert_ne; [done|congruence].
    + intros q Hq. destruct (decide (q = a)) as [->|Hne]; [lia|]. rewrite lookup_insert_ne in Hq by done. specialize (S6 q Hq). lia.
  - unfold bgs. cbn. fold a. rewrite fmap_insert. exact HSd.
Qed.
Lemma Inv_new hb hn v g : Inv hb hn v -> empty_group g -> c_bg g = None -> Inv hb hn (v_new g v).
Proof.
  intros HI He Hb. assert (Hnone : bgs v !! v_alloc v = None) by (unfold bgs; now rewrite lookup_fmap, (alloc_none hb hn v HI)).
  apply (Inv_new_side hb hn v g (v_bgRaids v) HI He). rewrite Hb. now apply Sides_new, Hnone; apply (i_sides _ _ _ HI).
Qed.
Lemma Inv_delete hb hn v q g : Inv hb hn v -> v_groups v !! q = Some g -> ~ registered g -> c_invitees g = ∅ -> Inv hb hn (v_delete q v).
Proof.
  intros HI Hq Hr Hi. destruct (i_uncreated _ _ _ HI q g Hq Hr) as [Hsl Hraid]. pose proof (i_stored _ _ _ HI) as [S1 S0 S2 S3 S4 S5 S6].
  assert (Eg : c_guid g = 0) by (unfold registered in Hr; destruct (Z.eq_dec (c_guid g) 0); tauto).
  assert (Hset : (settings <$> v_groups v) !! q = Some (settings g)) by now rewrite lookup_fmap, Hq.
  unfold v_delete. split; cbn [v_groups v_rf v_mgr v_dbGroups v_dbMembers v_alloc v_invite v_bgRaids v_with_groups v_with_bgRaids].
  - intros j g' p [Hne Hg]%lookup_delete_Some. exact (i_members _ _ _ HI j g' p Hg).
  - intros b p j Hk. destruct (i_live _ _ _ HI b p j Hk) as (g1 & Hg1 & Eb). exists g1. split; [|done]. rewrite lookup_delete_ne; [done|]. intros <-.
    rewrite Hq in Hg1. injection Hg1 as <-. rewrite <- Eb, <- (i_members _ _ _ HI q g p Hq) in Hk. unfold members in Hk. rewrite Hsl in Hk. now apply elem_of_nil in Hk.
  - apply (i_rf _ _ _ HI).
  - intros j g' [Hne Hg]%lookup_delete_Some. exact (i_slots _ _ _ HI j g' Hg).
  - intros j g' [Hne Hg]%lookup_delete_Some. exact (i_counts _ _ _ HI j g' Hg).
  - apply (i_players _ _ _ HI).
  - intros p j. rewrite (i_invited _ _ _ HI). split; intros (g' & Hg & Hin); exists g'; [|split; [now apply lookup_delete_Some in Hg as [_ Hg]|done]].
    split; [|done]. rewrite lookup_delete_ne; [done|]. intros <-. rewrite Hq in Hg. injection Hg as <-. rewrite Hi in Hin. set_solver.
  - apply (i_pending _ _ _ HI).
  - intros j g' [Hne Hg]%lookup_delete_Some. exact (i_no_pvp_invite _ _ _ HI j g' Hg).
  - intros j g' [Hne Hg]%lookup_delete_Some. exact (i_uncreated _ _ _ HI j g' Hg).
  - intros p e. rewrite (i_rows _ _ _ HI p e). split; intros (j & g' & Hx & Hg & Hin & Hs); exists j, g'; [|split; [done|]; split; [now apply lookup_delete_Some in Hg as [_ Hg]|done]].
    split; [done|]. split; [|done]. rewrite lookup_delete_ne; [done|]. intros <-. rewrite Hq in Hg. injection Hg as <-. rewrite Hsl in Hin. now apply elem_of_nil in Hin.
  - rewrite fmap_delete. split; try done.
    + intros j guid store [Hne Hj]%lookup_delete_Some Hg. eauto.
    + intros s j Hs Hj. destruct (S3 s j Hs Hj) as (guid & Hh & Hg). exists guid. rewrite lookup_delete_ne; [done|]. intros <-. rewrite Hset in Hh. injection Hh as Hh _ _. congruence.
    + intros low j Hj. destruct (S5 low j Hj) as (guid & store & b & Hh & Hg & El). exists guid, store, b. rewrite lookup_delete_ne; [done|]. intros <-. rewrite Hset in Hh. injection Hh as Hh _ _. congruence.
    + intros j Hj. apply S6. intros E. apply Hj. rewrite lookup_delete_None. now right.
  - unfold bgs. cbn. rewrite fmap_delete. apply Sides_delete, (i_sides _ _ _ HI).
Qed.
