(* ===== verification/GroupHandler.v ===== *)
(** * Groups: the requests of players (src/server/game/Handlers/GroupHandler.cpp), and
    what logging in and out and battlegrounds do to groups (Player.cpp _LoadGroup,
    LeaveBattleground and CanUninviteFromGroup, WorldSession.cpp LogoutPlayer,
    Battleground.cpp AddOrSetPlayerToCorrectBgGroup, RemovePlayerAtLeave and
    EventPlayerLoggedOut)

    A handler is a program of [Group] for the player who sent the packet, with the
    fields of the packet as arguments.  What it asks of players beyond their groups
    is the class [PartyRules]. *)

From stdpp Require Import base gmap list.
From Stdlib Require Import ZArith Lia.
From S2P Require Import Prelude StdMap ObjectGuid LfgData LfgMgr LfgScripts ActionLogic GroupTypes GroupMgr GroupLoot GroupWorld Group.
#[local] Open Scope Z_scope.

Definition PARTY_OP_INVITE : Z := 0.
Definition PARTY_OP_UNINVITE : Z := 1.
Definition PARTY_OP_LEAVE : Z := 2.
Definition ERR_PARTY_RESULT_OK : Z := 0.
Definition ERR_BAD_PLAYER_NAME_S : Z := 1.
Definition ERR_TARGET_NOT_IN_GROUP_S : Z := 2.
Definition ERR_TARGET_NOT_IN_INSTANCE_S : Z := 3.
Definition ERR_GROUP_FULL : Z := 4.
Definition ERR_ALREADY_IN_GROUP_S : Z := 5.
Definition ERR_NOT_IN_GROUP : Z := 6.
Definition ERR_NOT_LEADER : Z := 7.
Definition ERR_PLAYER_WRONG_FACTION : Z := 8.
Definition ERR_IGNORING_YOU_S : Z := 9.
Definition ERR_INVITE_RESTRICTED : Z := 13.
Definition ERR_PARTY_LFG_BOOT_LIMIT : Z := 20.
Definition ERR_PARTY_LFG_BOOT_IN_PROGRESS : Z := 22.
Definition ERR_PARTY_LFG_BOOT_TOO_FEW_PLAYERS : Z := 23.
Definition ERR_PARTY_LFG_BOOT_IN_COMBAT : Z := 26.
Definition ERR_PARTY_LFG_BOOT_DUNGEON_COMPLETE : Z := 28.
Definition ERR_PARTY_LFG_BOOT_LOOT_ROLLS : Z := 29.

(** The configuration, and what is asked of a player by his guid. *)
Class PartyRules := mkPartyRules {
  normalizePlayerName : list Z -> option (list Z);
  allow_gm_group : bool; allow_two_side : bool;
  is_gm : Z -> bool; team_of : Z -> Z; instance_of : Z -> Z; map_of : Z -> Z;
  ignores : Z -> Z -> bool;                       (** who has whom on his list *)
  in_battleground : Z -> bool;
  in_combat_near : Z -> Z -> bool;                (** in the map of the first, and in combat *)
  guid_of_name : list Z -> Z                      (** [GetPlayerGUIDByName] *)
}.

Inductive BattlegroundStatus := STATUS_NONE | STATUS_WAIT_QUEUE | STATUS_WAIT_JOIN | STATUS_IN_PROGRESS | STATUS_WAIT_LEAVE.
#[export] Instance BattlegroundStatus_eq : EqDecision BattlegroundStatus.
Proof. solve_decision. Defined.
(** The battleground a player is in when he logs out, as far as it decides whether he
    leaves its group: his side, whether he is on its list of players, what it finds
    when he goes. *)
Record BgVisit := mkBgVisit {
  bv_id : Z; bv_side : bool;
  bv_participant : bool;                          (** [IsPlayerInBattleground] *)
  bv_arena : bool;                                (** [isArena] *)
  bv_status : BattlegroundStatus;
  bv_spectator : bool;                            (** [IsSpectator] *)
  bv_ended : bool;                                (** ended by its own [RemovePlayer] *)
  bv_alive : Z;                                   (** [GetAlivePlayersCountByTeam] of his team *)
  bv_enemies : Z                                  (** [GetPlayersCountByTeam] of the other *)
}.
Definition set_bv_participant (b : bool) (v : BgVisit) : BgVisit :=
  mkBgVisit (bv_id v) (bv_side v) b (bv_arena v) (bv_status v) (bv_spectator v) (bv_ended v) (bv_alive v) (bv_enemies v).
Definition set_bv_status (s : BattlegroundStatus) (v : BgVisit) : BgVisit :=
  mkBgVisit (bv_id v) (bv_side v) (bv_participant v) (bv_arena v) s (bv_spectator v) (bv_ended v) (bv_alive v) (bv_enemies v).

Section Handlers.
Context `{scripts : GroupScripts} `{outside : GroupOutside} `{loots : LootView} `{rules : PartyRules}.
(** Kicks left and state of a group of the dungeon finder. *)
Context (lfg_kicks : Script -> Z -> Z) (lfg_state : Script -> Z -> LfgState).

Definition SendPartyResult (me operation : Z) (member : list Z) (res : Z) : G unit := tell (SMSG_PARTY_COMMAND_RESULT me operation member res 0).
(** [::tolower] of each character. *)
Definition tolower (c : Z) : Z := if (65 <=? c) && (c <=? 90) then c + 32 else c.
Definition FindPlayerByName (name : list Z) : G (option Z) :=
  let! ps := gets w_players in
  ret (fst <$> List.find (fun e => gp_in_world e.2 && bool_decide (map tolower (gp_name e.2) = map tolower name)) (entries Z.le ps)).
(** The group, or his original one while the group is a battleground's. *)
Definition group_for_invite (p : GPlayer) : G (option Z) :=
  match gp_group p with
  | Some q => let! g := group_at q in ret (if isBGGroup g then gp_original p else Some q)
  | None => ret None
  end.

(** The answer when the target may not be asked at all. *)
Definition invite_refused (me target : Z) (p t : GPlayer) : option Z :=
  if negb allow_gm_group && negb (is_gm me) && is_gm target then Some ERR_BAD_PLAYER_NAME_S
  else if negb (is_gm me) && negb allow_two_side && negb (team_of me =? team_of target) then Some ERR_PLAYER_WRONG_FACTION
  else if negb (instance_of me =? 0) && negb (instance_of target =? 0) && negb (instance_of me =? instance_of target)
          && (map_of me =? map_of target) then Some ERR_TARGET_NOT_IN_INSTANCE_S
  else if negb (instance_of target =? 0) && negb (gp_dungeonDifficulty t =? gp_dungeonDifficulty p) then Some ERR_IGNORING_YOU_S
  else if ignores target me then Some ERR_IGNORING_YOU_S
  else None.
(** What the inviter's own group answers. *)
Definition invite_forbidden (me : Z) (g : Group) : option Z :=
  if negb (IsLeader g me) && negb (IsAssistant g me) then Some ERR_NOT_LEADER
  else if IsFull g then Some ERR_GROUP_FULL else None.
(** A new group with the inviter as leader, deleted again when one cannot be asked. *)
Definition invite_new (me target : Z) : G bool :=
  let! q := new_group_object in
  let! ok := AddLeaderInvite q me in
  if negb ok then do! delete_group q in ret false
  else
    let! ok := AddInvite q target in
    if negb ok then do! delete_group q in ret false else ret true.
Definition invite_to (me target : Z) (group : option Z) : G bool :=
  match group with Some q => AddInvite q target | None => invite_new me target end.

(** The request, once the player who is asked is found. *)
Definition invite_found (me target : Z) (name : list Z) : G unit :=
  let! p := player_at me in
  let! t := player_at target in
  match invite_refused me target p t with
  | Some err => SendPartyResult me PARTY_OP_INVITE name err
  | None =>
    let! group := group_for_invite p in
    let! group2 := group_for_invite t in
    if bool_decide (group2 <> None) || bool_decide (gp_invite t <> None) then
      do! SendPartyResult me PARTY_OP_INVITE name ERR_ALREADY_IN_GROUP_S in
      when (bool_decide (group2 <> None)) (tell (SMSG_GROUP_INVITE target 0 (gp_name p)))
    else
      let! no := match group with Some q => let! g := group_at q in ret (invite_forbidden me g) | None => ret None end in
      match no with
      | Some err => SendPartyResult me PARTY_OP_INVITE [] err
      | None =>
        let! ok := invite_to me target group in
        when ok (do! tell (SMSG_GROUP_INVITE target 1 (gp_name p)) in SendPartyResult me PARTY_OP_INVITE name ERR_PARTY_RESULT_OK)
      end
  end.
Definition HandleGroupInviteOpcode (me : Z) (membername : list Z) : G unit :=
  match normalizePlayerName membername with
  | None => SendPartyResult me PARTY_OP_INVITE membername ERR_BAD_PLAYER_NAME_S
  | Some name =>
    let! o := FindPlayerByName name in
    match o with
    | None => SendPartyResult me PARTY_OP_INVITE name ERR_BAD_PLAYER_NAME_S
    | Some target => invite_found me target name
    end
  end.

(** The group is created when its first member joins; [false] when it cannot be. *)
Definition accept_create (q : Z) : G bool :=
  let! g := group_at q in
  if IsCreated g then ret true
  else
    let! leader := FindPlayer (m_leaderGuid g) in
    match leader with
    | None => do! RemoveAllInvites q in ret false
    | Some _ =>
      do! RemoveInvite q (m_leaderGuid g) in
      let! _ := Create q (m_leaderGuid g) in
      let! g := group_at q in
      do! modify (fun w => with_mgr (AddGroup q g (w_mgr w)) w) in
      ret true
    end.
Definition HandleGroupAcceptOpcode (me : Z) : G unit :=
  let! p := player_at me in
  match gp_invite p with
  | None => ret tt
  | Some q =>
    do! RemoveInvite q me in
    let! g := group_at q in
    if m_leaderGuid g =? me then ret tt
    else if IsFull g then SendPartyResult me PARTY_OP_INVITE [] ERR_GROUP_FULL
    else
      let! ok := accept_create q in
      if negb ok then ret tt
      else
        let! ok := AddMember q me in
        if negb ok then ret tt else BroadcastGroupUpdate q
  end.
Definition HandleGroupDeclineOpcode (me : Z) : G unit :=
  let! p := player_at me in
  match gp_invite p with
  | None => ret tt
  | Some q =>
    let! g := group_at q in
    let! leader := FindConnectedPlayer (m_leaderGuid g) in
    do! UninviteFromGroup me in
    match leader with Some _ => tell (SMSG_GROUP_DECLINE (m_leaderGuid g) (gp_name p)) | None => ret tt end
  end.

(** ** Sending away *)

Definition CanUninviteFromGroup (me : Z) : G Z :=
  let! p := player_at me in
  match gp_group p with
  | None => ret ERR_NOT_IN_GROUP
  | Some q =>
    let! g := group_at q in
    let! s := gets w_script in
    ret (if isLFGGroup g then
           if lfg_kicks s (m_guid g) =? 0 then ERR_PARTY_LFG_BOOT_LIMIT
           else if bool_decide (lfg_state s (m_guid g) = LFG_STATE_BOOT) then ERR_PARTY_LFG_BOOT_IN_PROGRESS
           else if GetMembersCount g <=? LFGMgr.LFG_GROUP_KICK_VOTES_NEEDED then ERR_PARTY_LFG_BOOT_TOO_FEW_PLAYERS
           else if bool_decide (lfg_state s (m_guid g) = LFG_STATE_FINISHED_DUNGEON) then ERR_PARTY_LFG_BOOT_DUNGEON_COMPLETE
           else if isRollLootActive g then ERR_PARTY_LFG_BOOT_LOOT_ROLLS
           else if existsb (fun r => in_combat_near me r.1) (m_memberMgr g) then ERR_PARTY_LFG_BOOT_IN_COMBAT
           else ERR_PARTY_RESULT_OK
         else if negb (IsLeader g me) && negb (IsAssistant g me) then ERR_NOT_LEADER
         else if in_battleground me then ERR_INVITE_RESTRICTED
         else ERR_PARTY_RESULT_OK)
  end.
(** Both requests, once the member or the invitee is known: 0 is no guid. *)
Definition send_away (me q : Z) (guid invited : option Z) (reason : option (list Z)) (name : list Z) : G unit :=
  match guid, invited with
  | Some guid, _ => let! _ := RemoveMember q guid GROUP_REMOVEMETHOD_KICK me reason in ret tt
  | None, Some player => UninviteFromGroup player
  | None, None => SendPartyResult me PARTY_OP_UNINVITE name ERR_TARGET_NOT_IN_GROUP_S
  end.
Definition HandleGroupUninviteGuidOpcode (me guid : Z) (reason : list Z) : G unit :=
  if guid =? me then ret tt
  else
    let! res := CanUninviteFromGroup me in
    if negb (res =? ERR_PARTY_RESULT_OK) then SendPartyResult me PARTY_OP_UNINVITE [] res
    else
      let! p := player_at me in
      match gp_group p with
      | None => ret tt
      | Some q =>
        let! g := group_at q in
        if IsLeader g guid then SendPartyResult me PARTY_OP_UNINVITE [] ERR_NOT_LEADER
        else send_away me q (if IsMember g guid then Some guid else None) (if bool_decide (guid ∈ m_invitees g) then Some guid else None) (Some reason) []
      end.
(** [GetInvited] by name: the first invitee with it. *)
Definition GetInvitedByName (g : Group) (ps : gmap Z GPlayer) (name : list Z) : option Z :=
  List.find (fun guid => bool_decide (gp_name <$> ps !! guid = Some name)) (set_order Z.le (m_invitees g)).
Definition HandleGroupUninviteOpcode (me : Z) (membername : list Z) : G unit :=
  match normalizePlayerName membername with
  | None => ret tt
  | Some name =>
    let! p := player_at me in
    if bool_decide (gp_name p = name) then ret tt
    else
      let! res := CanUninviteFromGroup me in
      if negb (res =? ERR_PARTY_RESULT_OK) then SendPartyResult me PARTY_OP_UNINVITE [] res
      else
        match gp_group p with
        | None => ret tt
        | Some q =>
          let! g := group_at q in
          let! ps := gets w_players in
          let guid := GetMemberGUID g name in
          send_away me q (if guid =? 0 then None else Some guid) (GetInvitedByName g ps name) None name
        end
  end.

(** ** Leader, roles and sub groups *)

Definition HandleGroupSetLeaderOpcode (me guid : Z) : G unit :=
  let! player := FindConnectedPlayer guid in
  let! p := player_at me in
  match gp_group p, player with
  | Some q, Some x =>
    let! g := group_at q in
    if negb (IsLeader g me) || negb (bool_decide (gp_group x = Some q)) then ret tt
    else do! ChangeLeader q guid in SendUpdate q
  | _, _ => ret tt
  end.
Definition HandleGroupDisbandOpcode (me : Z) : G unit :=
  let! p := player_at me in
  match gp_group p with
  | None => ret tt
  | Some q =>
    if in_battleground me then SendPartyResult me PARTY_OP_INVITE [] ERR_INVITE_RESTRICTED
    else
      do! SendPartyResult me PARTY_OP_LEAVE (gp_name p) ERR_PARTY_RESULT_OK in
      let! _ := RemoveMember q me GROUP_REMOVEMETHOD_LEAVE 0 None in
      ret tt
  end.
Definition HandleLootMethodOpcode (me lootMethod lootMaster lootThreshold : Z) : G unit :=
  let! p := player_at me in
  match gp_group p with
  | None => ret tt
  | Some q =>
    let! g := group_at q in
    if negb (IsLeader g me) then ret tt
    else if NEED_BEFORE_GREED <? lootMethod then ret tt
    else if (lootThreshold <? ITEM_QUALITY_UNCOMMON) || (ITEM_QUALITY_ARTIFACT <? lootThreshold) then ret tt
    else if (lootMethod =? MASTER_LOOT) && negb (IsMember g lootMaster) then ret tt
    else
      do! alter_group q (fun g => set_m_lootThreshold lootThreshold (set_m_masterLooterGuid lootMaster (set_m_lootMethod lootMethod g))) in
      SendUpdate q
  end.
Definition HandleGroupRaidConvertOpcode (me : Z) : G unit :=
  let! p := player_at me in
  match gp_group p with
  | None => ret tt
  | Some q =>
    if in_battleground me then ret tt
    else
      let! g := group_at q in
      if negb (IsLeader g me) || (GetMembersCount g <? 2) then ret tt
      else do! SendPartyResult me PARTY_OP_INVITE [] ERR_PARTY_RESULT_OK in ConvertToRaid q
  end.
Definition HandleGroupChangeSubGroupOpcode (me : Z) (name : list Z) (groupNr : Z) : G unit :=
  let! p := player_at me in
  match gp_group p with
  | None => ret tt
  | Some q =>
    if MAX_RAID_SUBGROUPS <=? groupNr then ret tt
    else
      let! g := group_at q in
      if negb (IsLeader g me) && negb (IsAssistant g me) then ret tt
      else
        let! free := of_option (HasFreeSlotSubGroup g groupNr) in
        if negb free then ret tt
        else
          let! o := FindPlayerByName name in
          ChangeMembersGroup q (default (guid_of_name name) o) groupNr
  end.
Definition HandleGroupAssistantLeaderOpcode (me guid : Z) (apply : bool) : G unit :=
  let! p := player_at me in
  match gp_group p with
  | None => ret tt
  | Some q =>
    let! g := group_at q in
    if negb (IsLeader g me) then ret tt else SetGroupMemberFlag q guid apply MEMBER_FLAG_ASSISTANT
  end.
Definition HandlePartyAssignmentOpcode (me assignment : Z) (apply : bool) (guid : Z) : G unit :=
  let! p := player_at me in
  match gp_group p with
  | None => ret tt
  | Some q =>
    let! g := group_at q in
    if negb (IsLeader g me) && negb (IsAssistant g me) then ret tt
    else
      let assign flag := do! alter_group q (RemoveUniqueGroupMemberFlag flag) in SetGroupMemberFlag q guid apply flag in
      do! (if assignment =? GROUP_ASSIGN_MAINASSIST then assign MEMBER_FLAG_MAINASSIST
           else if assignment =? GROUP_ASSIGN_MAINTANK then assign MEMBER_FLAG_MAINTANK
           else ret tt) in
      SendUpdate q
  end.

(** ** Loading the group *)

(** [_LoadGroup]: the row of the table names the number of the group. *)
Definition LoadGroup (me : Z) : G unit :=
  let! rows := gets w_dbMembers in
  let! m := gets w_mgr in
  do! match rows !! GUID_LOPART me with
      | Some row =>
        match GetGroupByDbStoreId m (mr_guid row) with
        | Some q =>
          let! g := group_at q in
          do! when (IsLeader g me) (alter_player me (set_gp_leader true)) in
          do! SetGroup me q (GetMemberGroup g me) in
          let! p := player_at me in
          when (LEVELREQUIREMENT_HEROIC <=? gp_level p)
            (alter_player me (fun x => set_gp_raidDifficulty (m_raidDifficulty g) (set_gp_dungeonDifficulty (m_dungeonDifficulty g) x)))
        | None => ret tt
        end
      | None => ret tt
      end in
  let! p := player_at me in
  match gp_group p with
  | None => alter_player me (set_gp_leader false)
  | Some q => let! g := group_at q in when (negb (IsLeader g me)) (alter_player me (set_gp_leader false))
  end.
(** ** Battlegrounds *)

(** The first player of a side makes its group, the others join it; who is a member
    already, after a login, gets his references. *)
Definition AddOrSetPlayerToCorrectBgGroup (bg : Z) (side : bool) (me : Z) : G unit :=
  let! raid := GetBgRaid bg side in
  match raid with
  | None =>
    let! q := new_group_object in
    do! SetBgRaid bg side (Some q) in
    let! _ := Create q me in
    ret tt
  | Some q =>
    let! g := group_at q in
    if IsMember g me then SetBattlegroundOrBattlefieldRaid me q (GetMemberGroup g me)
    else
      let! _ := AddMember q me in
      let! p := player_at me in
      match gp_original p with
      | Some q' => let! g' := group_at q' in when (IsLeader g' me) (do! ChangeLeader q me in SendUpdate q)
      | None => ret tt
      end
  end.
(** The group part of [RemovePlayerAtLeave]. *)
Definition RemovePlayerAtLeave_group (bg : Z) (side : bool) (guid : Z) : G unit :=
  let! raid := GetBgRaid bg side in
  match raid with
  | None => ret tt
  | Some q =>
    let! ok := RemoveMember q guid GROUP_REMOVEMETHOD_DEFAULT 0 None in
    when (negb ok) (SetBgRaid bg side None)
  end.
(** ** Logging in and out *)

(** The group part of [Player::LeaveBattleground]: an arena under way keeps who logs
    out.  [RemovePlayerAtLeave] takes him off the list and, if he was on it, out of
    the group of his side. *)
Definition LeaveBattleground (me : Z) (v : BgVisit) : G BgVisit :=
  if (bool_decide (bv_status v = STATUS_IN_PROGRESS) || bool_decide (bv_status v = STATUS_WAIT_JOIN)) && bv_arena v then ret v
  else do! when (bv_participant v) (RemovePlayerAtLeave_group (bv_id v) (bv_side v) me) in ret (set_bv_participant false v).
(** The group part of [EventPlayerLoggedOut], for who is still on the list: an arena
    ends when it has nobody left to fight on his side. *)
Definition EventPlayerLoggedOut (me : Z) (v : BgVisit) : G unit :=
  if negb (bv_participant v) then ret tt
  else
    let over := bool_decide (bv_status v = STATUS_IN_PROGRESS) && negb (bv_spectator v)
                && (bv_ended v || bv_arena v && (bv_alive v <=? 1) && negb (bv_enemies v =? 0)) in
    let v := if over then set_bv_status STATUS_WAIT_LEAVE v else v in
    when (negb (bv_spectator v)) (let! _ := LeaveBattleground me v in ret tt).
(** The group part of [LogoutPlayer], and the end of the player object. *)
Definition LogoutPlayer (me : Z) (socket : bool) (visit : option BgVisit) : G unit :=
  do! match visit with
      | Some v => let! v := LeaveBattleground me v in EventPlayerLoggedOut me v
      | None => ret tt
      end in
  do! UninviteFromGroup me in
  let! p := player_at me in
  do! match gp_group p with
      | Some q =>
        let! g := group_at q in
        when (negb (isRaidGroup g) && socket) (let! _ := RemoveMember q me GROUP_REMOVEMETHOD_DEFAULT 0 None in ret tt)
      | None => ret tt
      end in
  let! p := player_at me in
  do! match gp_group p with Some q => do! SendUpdate q in ResetMaxEnchantingLevel q | None => ret tt end in
  do! unlink me true in
  do! unlink me false in
  modify (fun w => with_players (base.delete me (w_players w)) w).

(** What a login does to the groups: the player object, his group, and the group of
    the battleground and side he is still in. *)
Definition LoginPlayer (me : Z) (p : GPlayer) (current : option (Z * bool)) : G unit :=
  do! modify (fun w => with_players (<[me := p]> (w_players w)) w) in
  do! LoadGroup me in
  match current with
  | Some (bg, side) => AddOrSetPlayerToCorrectBgGroup bg side me
  | None => ret tt
  end.
End Handlers.
