(* ===== verification/GroupReach.v ===== *)
(** * Groups: what every request does, and that the invariant holds

    For each operation with a way into the end of a group, and for each request of
    [GroupHandler]: it returns from every world that satisfies the invariant, and the
    world it leaves satisfies it again. *)

From stdpp Require Import base gmap list.
From Stdlib Require Import ZArith Lia FunctionalExtensionality.
From S2P Require Import Prelude StdMap ObjectGuid LfgData LfgMgr LfgScripts ActionLogic GroupTypes GroupMgr GroupLoot GroupLootInv GroupWorld Group GroupCore GroupView GroupOps GroupInv GroupHandler.
#[local] Open Scope Z_scope.

(** ** Sizes *)

Lemma zlen_filter_split {A} (P Q : A -> Prop) `{forall x, Decision (P x)} `{forall x, Decision (Q x)} (l : list A) :
  (forall x, ~ (P x /\ Q x)) -> zlen (filter (fun x => P x \/ Q x) l) = zlen (filter P l) + zlen (filter Q l).
Proof.
  intros Hd. unfold zlen. induction l as [|x l IH]; [done|]. specialize (Hd x). rewrite !filter_cons. repeat case_decide; cbn [length]; try tauto; lia.
Qed.
Lemma slots_bound_aux (l : list (Z * Z)) n : (forall k, in_sub k l <= MAXGROUPSIZE) -> zlen (filter (fun e => 0 <= e.2 < Z.of_nat n) l) <= MAXGROUPSIZE * Z.of_nat n.
Proof.
  intros Hr. induction n as [|n IH].
  - rewrite filter_none; [vm_compute; discriminate|]. intros x _ Hx. lia.
  - assert (E : filter (fun e => 0 <= e.2 < Z.of_nat (S n)) l = filter (fun e => 0 <= e.2 < Z.of_nat n \/ e.2 = Z.of_nat n) l) by (apply list_filter_iff; intros x; lia).
    rewrite E, zlen_filter_split by (intros x; lia). specialize (Hr (Z.of_nat n)). unfold in_sub in Hr. unfold MAXGROUPSIZE in *. lia.
Qed.
Lemma slots_bound raid l : slots_ok raid l -> zlen l <= MAXGROUPSIZE * sub_limit raid.
Proof.
  intros [_ Hs Hr]. pose proof (slots_bound_aux l (Z.to_nat (sub_limit raid)) Hr) as H. rewrite filter_all in H.
  - rewrite Z2Nat.id in H; [done|]. destruct raid; vm_compute; discriminate.
  - intros e He. rewrite Z2Nat.id by (destruct raid; vm_compute; discriminate). now apply Hs.
Qed.
Lemma members_count raid g : slots_ok raid (c_slots (bare (group_core g))) -> GetMembersCount g = zlen (members (bare (group_core g))).
Proof.
  intros Hs. apply slots_bound in Hs. rewrite members_core. unfold GetMembersCount. cbn in Hs. unfold zlen in *. rewrite length_map in Hs. rewrite length_map.
  apply uwrap_id. unfold is_u. assert (sub_limit raid <= 8) by (destruct raid; vm_compute; discriminate). unfold MAXGROUPSIZE in *. change (2 ^ 32) with 4294967296. lia.
Qed.

(** ** The leaders *)

Lemma Led_groups v v' : v_groups v' = v_groups v -> Led v -> Led v'.
Proof. intros E H q gc. rewrite E. apply H. Qed.
Lemma Led_alter v v' q gc f :
  Led v -> v_groups v !! q = Some gc -> v_groups v' = alter f q (v_groups v) -> led_group (f gc) -> Led v'.
Proof.
  intros H Hq E Hf j g. rewrite E. intros Hj. destruct (alter_cases _ f q gc j g Hq Hj) as [[-> ->]|[_ Hg]]; [exact Hf|now apply (H j)].
Qed.
Lemma Led_delete v v' q : Led v -> v_groups v' = base.delete q (v_groups v) -> Led v'.
Proof. intros H E j g. rewrite E. intros [_ Hg]%lookup_delete_Some. now apply (H j). Qed.

(** What holds between two requests. *)
Definition good (v : View) : Prop := exists hb hn, Inv hb hn v /\ Led v.

Section Reach.
Context `{scripts : GroupScripts} `{outside : GroupOutside} `{loots : LootView} `{laws : !GroupScriptLaws}.

Lemma disband_groups q gc m v : v_groups (v_disband q gc m v) = base.delete q (v_groups v).
Proof.
  unfold v_disband. cbn zeta. destruct (leave_fields q (c_pvp gc) (members gc) v) as (F1 & _). cbn zeta in F1. destruct (c_pvp gc); cbn; now rewrite F1.
Qed.
Lemma disband_sides q gc m v : v_bgRaids (v_disband q gc m v) = filter (fun e => e.2 <> q) (v_bgRaids v).
Proof.
  unfold v_disband. cbn zeta. destruct (leave_fields q (c_pvp gc) (members gc) v) as (_ & _ & _ & _ & _ & _ & F7). cbn zeta in F7. destruct (c_pvp gc); cbn; now rewrite F7.
Qed.
Lemma disband_ids q gc m v : free_mgr gc (v_mgr v) = Some m -> zlen (GroupDbStore (v_mgr (v_disband q gc m v))) = zlen (GroupDbStore (v_mgr v)).
Proof.
  intros Hf. change (v_mgr (v_disband q gc m v)) with (with_store (base.delete (GUID_LOPART (c_guid gc)) (GroupStore m)) m).
  change (GroupDbStore (with_store ?s m)) with (GroupDbStore m). unfold free_mgr, FreeGroupDbStoreId in Hf. destruct (c_pvp gc); [now injection Hf as <-|].
  cbn zeta in Hf. destruct (_ <? zlen _) eqn:E; [|done]. injection Hf as <-. unfold zlen. cbn. rewrite length_insert. now case_if.
Qed.
(** The group is gone, and nobody is in it. *)
Record gone (hb hn : Z -> option Z) (v : View) (q : Z) (pvp : bool) (v' : View) : Prop := mk_gone {
  go_inv : Inv (if pvp then drop hb q else hb) (if pvp then hn else drop hn q) v';
  go_groups : v_groups v' = base.delete q (v_groups v);
  go_players : forall p, v_invite v' !! p = None <-> v_invite v !! p = None;
  go_uninvited : forall p, v_invite v !! p = Some None -> v_invite v' !! p = Some None;
  go_sides : v_bgRaids v' = filter (fun e => e.2 <> q) (v_bgRaids v);
  go_ids : zlen (GroupDbStore (v_mgr v')) = zlen (GroupDbStore (v_mgr v))
}.
Lemma Disband_gone hb hn v q gc hide :
  Inv hb hn v -> v_groups v !! q = Some gc -> registered gc -> spec v (Disband q hide) (fun _ v' => gone hb hn v q (c_pvp gc) v').
Proof.
  intros HI Hq Hreg. apply spec_with. intros c Hs Hv. destruct (free_mgr_some hb hn v q gc HI Hq Hreg) as (m & Hm & Es).
  eapply spec_conseq; [apply (spec_Disband v q gc m hide Hq)|].
  - intros p Hp. assert (H : v_invite v !! p = Some (Some q)) by (apply (i_invited _ _ _ HI); eauto). now rewrite H.
  - done.
  - apply (disband_no_refs hb hn v q gc HI); [|done]. intros p b H. destruct (v_rf v p b) as [q'|] eqn:E; [|done]. now apply (view_rf_connected c v p b q').
  - apply (i_sides _ _ _ HI).
  - intros a v' [_ ->].
    assert (E : forall p, v_invite (v_disband q gc m v) !! p = (fun o => if decide (p ∈ c_invitees gc) then None else o) <$> v_invite v !! p).
    { intros p. destruct (leave_fields q (c_pvp gc) (members gc) v) as (_ & F2 & _). cbn zeta in F2. rewrite <- F2, <- uninvite_at.
      unfold v_disband. cbn zeta. now destruct (c_pvp gc). }
    split; [now apply Inv_disband|apply disband_groups| | |apply disband_sides|now apply disband_ids]; intros p; rewrite E; destruct (v_invite v !! p) as [o|]; try done.
    cbn. intros [= ->]. now case_decide.
Qed.

(** ** A member leaves *)

Definition threshold (gc : GroupCore) : Z := if c_pvp gc || c_lfg gc then 1 else 2.
Definition v_removed (q p : Z) (gc : GroupCore) (v : View) : View := v_led q p (c_erase p gc) (v_left q p gc v).
Lemma good_gone hb hn v q pvp v' : Led v -> gone hb hn v q pvp v' -> good v'.
Proof. intros HL [HI Hg _ _ _ _]. exists (if pvp then drop hb q else hb), (if pvp then hn else drop hn q). split; [done|]. exact (Led_delete v v' q HL Hg). Qed.
(** How [RemoveMember] may end: a vote was started, the member left, the group ended. *)
(** Who of the others is connected, and how many of them a group needs. *)
Definition left_here (v : View) (p : Z) (gc : GroupCore) : list Z := filter (fun x => v_invite v !! x <> None) (members (c_erase p gc)).
Definition fewest (gc : GroupCore) : Z := if c_lfg gc || bool_decide (c_bg gc <> None) then 1 else 2.
Inductive removal (hb hn : Z -> option Z) (v : View) (q p : Z) (gc : GroupCore) (kick : bool) : bool -> View -> Prop :=
| removal_vote ok : c_lfg gc && kick = true -> removal hb hn v q p gc kick ok v
| removal_left : c_lfg gc && kick = false -> threshold gc < zlen (members gc) -> fewest gc <= zlen (left_here v p gc) -> Led (v_removed q p gc v) ->
    removal hb hn v q p gc kick true (v_removed q p gc v)
| removal_gone ok v' : c_lfg gc && kick = false -> (zlen (members gc) <= threshold gc -> ok = false) ->
    (threshold gc < zlen (members gc) -> if ok : bool then zlen (left_here v p gc) < fewest gc else c_lfg gc = true /\ zlen (members gc) = 2) -> gone hb hn v q (c_pvp gc) v' ->
    removal hb hn v q p gc kick ok v'.
Definition left_homes (pvp : bool) (p : Z) (hb hn : Z -> option Z) : (Z -> option Z) * (Z -> option Z) :=
  (if pvp then upd hb p None else hb, if pvp then hn else upd hn p None).
Lemma left_group q p gc v : v_groups (v_left q p gc v) = alter (c_erase p) q (v_groups v).
Proof. rewrite v_left_form. done. Qed.
Lemma left_players q p gc v : v_invite (v_left q p gc v) = v_invite v.
Proof. rewrite v_left_form. done. Qed.
Lemma removed_group q p gc v : v_groups v !! q = Some gc ->
  exists l, v_groups (v_removed q p gc v) = alter (fun g => c_set_leader l (c_erase p g)) q (v_groups v) /\
    (if c_leader gc =? p then forall x, x ∈ members (c_erase p gc) -> v_invite v !! x <> None -> l ∈ members (c_erase p gc) else l = c_leader gc).
Proof.
  intros Hq. unfold v_removed, v_led. destruct (erase_settings p gc) as (_ & _ & _ & El). rewrite El.
  assert (Esame : alter (fun g => c_set_leader (c_leader gc) (c_erase p g)) q (v_groups v) = alter (c_erase p) q (v_groups v)).
  { apply alter_ext. intros x Hx. rewrite Hq in Hx. injection Hx as <-. rewrite <- El. now destruct (c_erase p gc). }
  destruct (c_leader gc =? p).
  - destruct (List.find _ _) as [l|] eqn:E.
    + exists l. split.
      * change (v_groups (v_on_group q ?f ?x)) with (alter f q (v_groups x)). rewrite left_group. rewrite alter_alter_eq. now apply alter_ext.
      * intros _ _ _. apply List.find_some in E as [Hin _]. now apply list_elem_of_In.
    + exists (c_leader gc). rewrite Esame, left_group. split; [done|]. intros x Hx Hc. pose proof (List.find_none _ _ E x) as H.
      rewrite <- list_elem_of_In in H. specialize (H Hx). rewrite left_players in H. now apply bool_decide_eq_false in H.
  - exists (c_leader gc). now rewrite Esame, left_group.
Qed.
Lemma removed_players q p gc v : v_invite (v_removed q p gc v) = v_invite v.
Proof. unfold v_removed, v_led. destruct (c_leader _ =? p); [|apply left_players]. destruct (List.find _ _); [cbn|]; apply left_players. Qed.
Lemma removed_sides q p gc v : v_bgRaids (v_removed q p gc v) = v_bgRaids v.
Proof.
  unfold v_removed, v_led. assert (E : v_bgRaids (v_left q p gc v) = v_bgRaids v) by (unfold v_left, v_leave; now destruct (v_invite v !! p), (c_pvp gc)).
  destruct (c_leader _ =? p); [|exact E]. destruct (List.find _ _); exact E.
Qed.
Lemma removed_mgr q p gc v : v_mgr (v_removed q p gc v) = v_mgr v.
Proof.
  unfold v_removed, v_led. assert (E : v_mgr (v_left q p gc v) = v_mgr v) by (unfold v_left, v_leave; now destruct (v_invite v !! p), (c_pvp gc)).
  destruct (c_leader _ =? p); [|exact E]. destruct (List.find _ _); exact E.
Qed.
Lemma Inv_removed hb hn v q p gc :
  Inv hb hn v -> v_groups v !! q = Some gc -> kind (c_pvp gc) hb hn p = Some q ->
  Inv (if c_pvp gc then upd hb p None else hb) (if c_pvp gc then hn else upd hn p None) (v_removed q p gc v).
Proof.
  intros HI Hq Hk. pose proof (Inv_left hb hn v q p gc HI Hq Hk) as HI1. unfold v_removed, v_led. destruct (c_leader _ =? p); [|done].
  destruct (List.find _ _) as [l|]; [|done]. apply (Inv_set_leader _ _ _ q (c_erase p gc)); [done|]. now rewrite left_group, lookup_alter_eq, Hq.
Qed.
Lemma drop_upd f p q : f p = Some q -> drop (upd f p None) q = drop f q.
Proof. intros H. extensionality x. unfold drop, upd. repeat case_decide; congruence. Qed.
Lemma gone_after hb hn v q p gc v' :
  v_groups v !! q = Some gc -> kind (c_pvp gc) hb hn p = Some q ->
  gone (if c_pvp gc then upd hb p None else hb) (if c_pvp gc then hn else upd hn p None) (v_removed q p gc v) q (c_pvp gc) v' -> gone hb hn v q (c_pvp gc) v'.
Proof.
  intros Hq Hk [H1 H2 H3 H4 H5 H6]. split.
  - unfold kind in Hk. destruct (c_pvp gc); now rewrite drop_upd in H1.
  - rewrite H2. destruct (removed_group q p gc v Hq) as (l & -> & _). apply delete_alter_eq.
  - intros x. now rewrite H3, removed_players.
  - intros x. rewrite <- (removed_players q p gc v). apply H4.
  - now rewrite H5, removed_sides.
  - now rewrite H6, removed_mgr.
Qed.

Lemma erase_kind p gc : kind_ok gc -> kind_ok (c_erase p gc).
Proof. unfold c_erase. now destruct (list_find _ _) as [[i e]|]. Qed.
Lemma spec_lfg_over raid v q gc : v_groups v !! q = Some gc -> slots_ok raid (c_slots gc) ->
  spec v (lfg_over q) (fun over v' => v' = v /\ (over = true -> c_lfg gc = true /\ zlen (members gc) = 1)).
Proof.
  intros E Hs. unfold lfg_over. eapply spec_group_at; [exact E|]. intros g Eg.
  assert (Hcount : GetMembersCount g = zlen (members gc)) by (rewrite <- Eg; apply (members_count raid); now rewrite Eg).
  rewrite Hcount. destruct (isLFGGroup g && (zlen (members gc) =? 1)) eqn:Eo; [|now apply spec_ret].
  apply andb_prop in Eo as [E1 E2]. apply Z.eqb_eq in E2. apply spec_any. intros o. apply spec_any. intros s. apply spec_ret. split; [done|]. intros _.
  split; [rewrite <- Eg; exact E1|exact E2].
Qed.
Lemma erase_lfg p gc : c_lfg (c_erase p gc) = c_lfg gc.
Proof. unfold c_erase. now destruct (list_find _ _) as [[i e]|]. Qed.
Lemma erase_count gc p : p ∈ members gc -> zlen (members (c_erase p gc)) = zlen (members gc) - 1.
Proof.
  intros Hp. destruct (find_member p gc Hp) as (i & k & Ef & Hl). unfold c_erase. rewrite Ef. unfold members, zlen. cbn.
  rewrite !length_map, length_delete by now exists (p, k). apply lookup_lt_Some in Hl. lia.
Qed.
(** A reference is one of a member who is connected. *)
Lemma ref_member hb hn c v q gc r :
  sane c -> view c = v -> Inv hb hn v -> v_groups v !! q = Some (bare gc) -> k_groups c !! q = Some gc -> r ∈ c_refs gc ->
  r.1 ∈ members gc /\ v_invite v !! r.1 <> None.
Proof.
  destruct r as [p b]. intros Hs Hv HI Hq Hk Hr. destruct (ln_from _ (sn_links _ Hs) q gc p b Hk Hr) as (pc & Hp & Hpr). cbn [fst].
  assert (Hc : v_invite v !! p <> None) by (rewrite <- Hv; cbn; now rewrite lookup_fmap, Hp). split; [|done].
  assert (HR : v_rf v p b = Some q) by (rewrite <- Hv; cbn; unfold rf; now rewrite Hp).
  rewrite (i_rf _ _ _ HI p b Hc) in HR. rewrite (i_members _ _ _ HI q (bare gc) p Hq).
  assert (Hkey : hb p = Some q \/ hn p = Some q) by (unfold canon in HR; destruct (hb p), b; naive_solver).
  destruct Hkey as [H|H]; [destruct (i_live _ _ _ HI true p q H) as (g & Hg & E)|destruct (i_live _ _ _ HI false p q H) as (g & Hg & E)];
    rewrite Hq in Hg; injection Hg as <-; now rewrite E.
Qed.
(** Each member who is connected has one reference. *)
Lemma refs_here hb hn c v q gc :
  sane c -> view c = v -> Inv hb hn v -> k_groups c !! q = Some gc ->
  zlen (c_refs gc) = zlen (filter (fun x => v_invite v !! x <> None) (members (bare gc))).
Proof.
  intros Hs Hv HI Hk. assert (Hq : v_groups v !! q = Some (bare gc)) by (rewrite <- Hv; cbn; now rewrite lookup_fmap, Hk).
  assert (Hrf : forall p b, (p, b) ∈ c_refs gc -> canon (hb p) (hn p) b = Some q).
  { intros p b Hr. destruct (ref_member hb hn c v q gc (p, b) Hs Hv HI Hq Hk Hr) as [_ Hc]. rewrite <- (i_rf _ _ _ HI p b Hc).
    destruct (ln_from _ (sn_links _ Hs) q gc p b Hk Hr) as (pc & Hp & Hpr). rewrite <- Hv. cbn. unfold rf. now rewrite Hp. }
  assert (P : Permutation (map fst (c_refs gc)) (filter (fun x => v_invite v !! x <> None) (members (bare gc)))).
  { apply NoDup_Permutation.
    - apply NoDup_fmap_2_strong; [|apply (ln_once _ (sn_links _ Hs) q gc Hk)]. intros [x b] [y b'] H1 H2 E. cbn in E. subst y.
      apply Hrf in H1, H2. f_equal. assert (Hne : hb x = Some q -> hn x <> Some q) by (intros Hb Hn; exact (kind_other hb hn v true x q HI Hb Hn)).
      unfold canon in H1, H2. destruct (hb x) as [j|] eqn:Eb, b, b'; naive_solver.
    - apply NoDup_filter. apply (so_once _ _ (i_slots _ _ _ HI q _ Hq)).
    - intros x. rewrite list_elem_of_filter. split.
      + intros H. apply list_elem_of_fmap in H as (r & -> & Hr). destruct (ref_member hb hn c v q gc r Hs Hv HI Hq Hk Hr). tauto.
      + intros [Hc Hm]. rewrite (i_members _ _ _ HI q (bare gc) x Hq) in Hm.
        assert (Hb : exists b, v_rf v x b = Some q).
        { setoid_rewrite (i_rf _ _ _ HI x); [|done]. unfold kind in Hm. unfold canon. destruct (c_pvp (bare gc)); [rewrite Hm; now exists false|].
          destruct (hb x); [now exists true|now exists false]. }
        destruct Hb as [b Hb]. rewrite <- Hv in Hb. cbn in Hb. unfold rf in Hb. destruct (k_players c !! x) as [pc|] eqn:Ep; [|done].
        destruct (ln_to _ (sn_links _ Hs) x pc b q Ep Hb) as (gc' & Hg' & Hin). rewrite Hk in Hg'. injection Hg' as <-. now apply (list_elem_of_fmap_2 fst _ (x, b)). }
  apply Permutation_length in P. unfold zlen. rewrite <- P. now rewrite length_map.
Qed.
Lemma spec_RemoveMember hb hn v q p gc method kicker reason :
  Inv hb hn v -> Led v -> v_groups v !! q = Some gc -> kind (c_pvp gc) hb hn p = Some q ->
  spec v (RemoveMember q p method kicker reason) (fun ok v' => removal hb hn v q p gc (bool_decide (method = GROUP_REMOVEMETHOD_KICK)) ok v').
Proof.
  intros HI HL Hq Hk. apply spec_with. intros c0 Hs0 Hv0. assert (Hq' : v_groups v !! q <> None) by now rewrite Hq. assert (Hp : p ∈ members gc) by now rewrite (i_members _ _ _ HI q gc p Hq).
  assert (Hreg : registered gc).
  { destruct (decide (registered gc)) as [|Hn]; [done|]. destruct (i_uncreated _ _ _ HI q gc Hq Hn) as [E _]. unfold members in Hp. rewrite E in Hp. now apply elem_of_nil in Hp. }
  unfold RemoveMember. eapply yields_bind; [now apply spec_BroadcastGroupUpdate|]. eapply spec_group_at; [exact Hq|]. intros g Eg.
  eapply spec_bind; [apply spec_removed_view|]. intros view0 v0 ->. eapply yields_bind; [apply spec_run_hook; intros; now apply law_remove|].
  assert (Epvp : is_pvp g = c_pvp gc) by exact (f_equal c_pvp Eg). assert (Elfg : isLFGGroup g = c_lfg gc) by exact (f_equal c_lfg Eg).
  assert (Hcount : GetMembersCount g = zlen (members gc)).
  { rewrite <- Eg. apply (members_count (c_raid gc)). rewrite Eg. apply (i_slots _ _ _ HI q gc Hq). }
  rewrite Elfg, Epvp, Hcount. set (kick := bool_decide (method = GROUP_REMOVEMETHOD_KICK)). destruct (c_lfg gc && kick) eqn:Ekick.
  { apply spec_ret. now apply removal_vote. }
  assert (Et : (if c_pvp gc || c_lfg gc then 1 else 2) = threshold gc) by done. rewrite Et.
  destruct (Z.ltb_spec (threshold gc) (zlen (members gc))) as [Hlt|Hge].
  2:{ eapply spec_bind; [apply (Disband_gone hb hn v q gc); done|]. intros a v' Hg. apply spec_ret. apply removal_gone; [done|done|lia|exact Hg]. }
  pose proof (Inv_removed hb hn v q p gc HI Hq Hk) as HI2. set (v2 := v_removed q p gc v) in *.
  destruct (removed_group q p gc v Hq) as (l & Eg2 & Hlead). fold v2 in Eg2.
  set (gc2 := c_set_leader l (c_erase p gc)). assert (H2 : v_groups v2 !! q = Some gc2) by (rewrite Eg2, lookup_alter_eq, Hq; done).
  destruct (erase_settings p gc) as (Es & Ei & Er & El). pose proof Es as [= Esg Ess Esp].
  assert (H2' : v_groups v2 !! q <> None) by now rewrite H2. assert (Hreg2 : registered gc2) by (unfold registered, gc2; cbn; now rewrite Esg).
  assert (Hgone : forall b : bool, (if b then zlen (left_here v p gc) < fewest gc else c_lfg gc = true /\ zlen (members gc) = 2) ->
    spec v2 (do! Disband q false in ret b) (fun ok v' => removal hb hn v q p gc kick ok v')).
  { intros b Hb. eapply spec_bind; [apply (Disband_gone _ _ v2 q gc2 false HI2 H2 Hreg2)|]. intros a v' Hg. apply spec_ret. apply removal_gone; [done|lia|done|].
    assert (E : c_pvp gc2 = c_pvp gc) by exact Esp. rewrite E in Hg. now apply (gone_after hb hn v q p gc v'). }
  rewrite <- Epvp. apply (spec_leave v q p gc method g Hq Eg).
  - intros s Hin counts Hc. rewrite (i_counts _ _ _ HI q gc Hq) in Hc. pose proof (so_subs _ _ (i_slots _ _ _ HI q gc Hq) _ Hin) as Hs. cbn in Hs.
    destruct (c_raid gc); [|done]. injection Hc as <-. rewrite sub_counts_length. cbn in Hs. unfold MAX_RAID_SUBGROUPS in *. lia.
  - intros Ep b HR. rewrite Ep in Hk. unfold v_leave in HR. destruct (v_invite v !! p) as [o|] eqn:Eo.
    + cbn [v_rf v_with_rf] in HR. rewrite (canon_left false q p hb hn _ p b) in HR; [|done|exact (kind_other _ _ _ false _ _ HI Hk)|intros b'; apply (i_rf _ _ _ HI); now rewrite Eo].
      cbn in HR. unfold upd in HR. rewrite decide_True in HR by done. pose proof (kind_other _ _ _ false _ _ HI Hk) as Ho. cbn in Ho. unfold canon in HR. destruct (hb p), b; naive_solver.
    + now apply (view_rf_connected c0 v p b q Hs0 Hv0 HR).
  - eapply yields_bind; [apply (spec_pick_leader _ q p (c_erase p gc)); rewrite left_group, lookup_alter_eq, Hq; done|]. fold (v_removed q p gc v). fold v2.
    eapply yields_bind; [now apply spec_SendUpdate|]. eapply spec_bind; [apply (spec_lfg_over (c_raid gc2) v2 q gc2 H2 (i_slots _ _ _ HI2 q gc2 H2))|]. intros over v0 [-> Hover].
    assert (Hlfg : c_lfg gc2 = c_lfg gc) by apply erase_lfg. assert (Ebg : c_bg gc2 = c_bg gc) by apply erase_bg. destruct over.
    { apply Hgone. destruct (Hover eq_refl) as [E1 E2]. split; [congruence|]. change (zlen (members (c_erase p gc)) = 1) in E2. rewrite (erase_count gc p Hp) in E2. lia. }
    apply spec_group_core; [done|]. intros c g2 Hs2 Hv2 Hk2.
    assert (Hb : bare (group_core g2) = gc2).
    { assert (E : v_groups v2 !! q = Some (bare (group_core g2))) by (rewrite <- Hv2; cbn [v_groups view]; rewrite lookup_fmap; now rewrite Hk2). congruence. }
    assert (Hhere : zlen (m_memberMgr g2) = zlen (left_here v p gc)).
    { change (m_memberMgr g2) with (c_refs (group_core g2)). rewrite (refs_here _ _ c v2 q (group_core g2) Hs2 Hv2 HI2 Hk2), Hb. unfold v2. now rewrite removed_players. }
    assert (Hneed : (if isLFGGroup g2 || isBGGroup g2 then 1 else 2) = fewest gc).
    { unfold fewest. rewrite <- Hlfg, <- Ebg, <- Hb. done. }
    rewrite Hneed. destruct (zlen (m_memberMgr g2) <? fewest gc) eqn:Esize.
    { cbn [when]. apply Hgone. apply Z.ltb_lt in Esize. now rewrite <- Hhere. }
    cbn [when]. eapply yields_bind; [apply yields_ret|]. apply spec_ret. apply Z.ltb_ge in Esize. apply removal_left; [done|done|now rewrite <- Hhere|]. fold v2.
    assert (Hm : exists r, r ∈ m_memberMgr g2).
    { destruct (m_memberMgr g2) as [|r l']; [|exists r; left]. exfalso. change (zlen (@nil (Z * bool))) with 0 in Esize. unfold fewest in Esize. case_if; lia. }
    destruct Hm as [r Hr].
    destruct (ref_member _ _ c v2 q (group_core g2) r Hs2 Hv2 HI2) as [Hrm Hrc]; [now rewrite Hb|done|done|].
    assert (Hrm2 : r.1 ∈ members (c_erase p gc)) by (change (r.1 ∈ members gc2); rewrite <- Hb; exact Hrm).
    apply (Led_alter v v2 q gc _ HL Hq Eg2). fold gc2. unfold led_group. rewrite decide_True by done. split; [exact (erase_kind _ _ (proj1 (HL q gc Hq)))|]. change (l ∈ members (c_erase p gc)).
    unfold v2 in Hrc. rewrite removed_players in Hrc. revert Hlead. destruct (Z.eqb_spec (c_leader gc) p) as [_|Hne]; intros Hlead; [now apply (Hlead r.1)|].
    pose proof (proj2 (HL q gc Hq)) as Hl. rewrite decide_True in Hl by done. rewrite Hlead. now apply (members_erase hb hn v q p gc HI Hq).
Qed.

(** ** Invitations *)

Lemma member_registered hb hn v q gc p : Inv hb hn v -> v_groups v !! q = Some gc -> p ∈ members gc -> registered gc.
Proof.
  intros HI Hq Hp. destruct (decide (registered gc)) as [|Hn]; [done|]. destruct (i_uncreated _ _ _ HI q gc Hq Hn) as [E _].
  unfold members in Hp. rewrite E in Hp. now apply elem_of_nil in Hp.
Qed.
(** The group a reference points at. *)
Lemma rf_member hb hn v p b q : Inv hb hn v -> v_invite v !! p <> None -> v_rf v p b = Some q ->
  exists gc, v_groups v !! q = Some gc /\ kind (c_pvp gc) hb hn p = Some q /\ p ∈ members gc /\ registered gc.
Proof.
  intros HI Hp HR. rewrite (i_rf _ _ _ HI p b Hp) in HR.
  assert (Hk : exists k, kind k hb hn p = Some q).
  { unfold canon in HR. destruct (hb p) eqn:E; destruct b; try done; [exists false|exists true|exists false]; cbn; congruence. }
  destruct Hk as [k Hk]. destruct (i_live _ _ _ HI k p q Hk) as (gc & Hq & <-). exists gc.
  assert (Hm : p ∈ members gc) by now rewrite (i_members _ _ _ HI q gc p Hq). split_and!; try done. now apply (member_registered hb hn v q gc p).
Qed.
Lemma created_count hb hn v q gc g : Inv hb hn v -> Led v -> v_groups v !! q = Some gc -> bare (group_core g) = gc ->
  GetMembersCount g = zlen (members gc) /\ (IsCreated g = true <-> registered gc).
Proof.
  intros HI HL Hq <-. assert (Hc : GetMembersCount g = zlen (members (bare (group_core g)))).
  { apply (members_count (c_raid (bare (group_core g)))). apply (i_slots _ _ _ HI q _ Hq). }
  split; [done|]. unfold IsCreated. rewrite Hc, Z.ltb_lt. split.
  - intros H. destruct (members (bare (group_core g))) as [|p l] eqn:E; [change (zlen (@nil Z)) with 0 in H; lia|].
    apply (member_registered hb hn v q _ p HI Hq). rewrite E. left.
  - intros Hr. pose proof (proj2 (HL q _ Hq)) as Hl. rewrite decide_True in Hl by done. destruct (members (bare (group_core g))); [now apply elem_of_nil in Hl|].
    unfold zlen. cbn [length]. lia.
Qed.
Lemma remove_invite_players q p v x : v_invite v !! x <> None -> v_invite (v_remove_invite q p v) !! x <> None.
Proof. intros H. change (v_invite (v_remove_invite q p v)) with (alter (fun _ => @None Z) p (v_invite v)). now rewrite alter_none. Qed.
Lemma remove_invite_self q p v : v_invite v !! p <> None -> v_invite (v_remove_invite q p v) !! p = Some None.
Proof. apply (set_invite_at p None (v_on_group q _ v)). Qed.
Lemma remove_invite_group q p v gc : v_groups v !! q = Some gc -> v_groups (v_remove_invite q p v) !! q = Some (c_set_invitees (c_invitees gc ∖ {[p]}) gc).
Proof. intros Hq. exact (on_group_at q v _ gc Hq). Qed.
(** A group without members and invitees is deleted. *)
Lemma spec_delete_empty hb hn v q gc :
  Inv hb hn v -> v_groups v !! q = Some gc -> ~ registered gc -> c_invitees gc = ∅ ->
  yields v (delete_group q) tt (v_delete q v).
Proof.
  intros HI Hq Hr Hi. apply spec_with. intros c Hs Hv. apply spec_delete_group; [now rewrite Hq| |apply (i_sides _ _ _ HI)]. intros p b HR.
  pose proof (view_rf_connected c v p b q Hs Hv HR) as Hp. destruct (rf_member hb hn v p b q HI Hp HR) as (gc' & Hq' & _ & _ & Hr'). rewrite Hq in Hq'. injection Hq' as <-. done.
Qed.
Lemma empty_after_invites hb hn v q gc : Inv hb hn v -> v_groups v !! q = Some gc ->
  Inv hb hn (v_remove_invites q (c_invitees gc) v) /\ v_groups (v_remove_invites q (c_invitees gc) v) = alter (c_set_invitees ∅) q (v_groups v).
Proof. intros HI Hq. split; [now apply Inv_remove_invites|done]. Qed.

Lemma spec_UninviteFromGroup v p :
  good v -> v_invite v !! p <> None ->
  spec v (UninviteFromGroup p) (fun _ v' => good v' /\ v_invite v' !! p = Some None /\ (forall x, v_invite v !! x <> None -> v_invite v' !! x <> None)).
Proof.
  intros (hb & hn & HI & HL) Hp. unfold UninviteFromGroup. apply spec_player_at; [done|]. intros x _ _ Hx.
  destruct (gp_invite x) as [q|]; [|apply spec_ret; split_and!; [now exists hb, hn|done|done]].
  destruct (proj1 (i_invited _ _ _ HI p q) Hx) as (gc & Hq & Hin).
  eapply yields_bind; [apply spec_RemoveInvite; [now rewrite Hq|done]|].
  pose proof (Inv_remove_invite hb hn v q p gc HI Hq (or_introl Hx)) as HI1. pose proof (remove_invite_group q p v gc Hq) as H1.
  pose proof (remove_invite_self q p v Hp) as Hself. pose proof (remove_invite_players q p v) as Hpl.
  assert (Eg1 : v_groups (v_remove_invite q p v) = alter (fun g => c_set_invitees (c_invitees g ∖ {[p]}) g) q (v_groups v)) by done.
  set (v1 := v_remove_invite q p v) in *. set (gc1 := c_set_invitees _ gc) in *.
  eapply spec_group_at; [exact H1|]. intros g Eg. destruct (created_count hb hn v q gc (set_m_invitees (c_invitees gc) g) HI HL Hq) as [Hc Hcr].
  { unfold bare, group_core, c_set_refs, c_set_rolls. cbn. unfold gc1, bare, group_core, c_set_invitees, c_set_refs, c_set_rolls in Eg. cbn in Eg. injection Eg as E1 E2 E3 E4 E5 E6 E7 E8 E9 E10 E11 E12.
    destruct gc. cbn in *. subst. done. }
  change (GetMembersCount (set_m_invitees (c_invitees gc) g)) with (GetMembersCount g) in Hc. change (IsCreated (set_m_invitees (c_invitees gc) g)) with (IsCreated g) in Hcr.
  rewrite Hc. destruct (Z.leb_spec (zlen (members gc)) 1) as [Hle|Hgt]; cbn [when].
  - destruct (IsCreated g) eqn:Ec.
    + assert (Hr : registered gc) by now apply Hcr. eapply spec_conseq; [exact (Disband_gone hb hn v1 q gc1 true HI1 H1 Hr)|].
      intros a v' Hg. pose proof Hg as [HI' Hg' Hpl' Hun _]. split_and!.
      * exists (if c_pvp gc then drop hb q else hb), (if c_pvp gc then hn else drop hn q). split; [exact HI'|].
        apply (Led_delete v v' q HL). rewrite Hg', Eg1. apply delete_alter_eq.
      * now apply Hun.
      * intros y Hy E. apply Hpl' in E. now apply (Hpl y).
    + assert (Hr : ~ registered gc) by (rewrite <- Hcr; congruence).
      eapply yields_bind; [apply (spec_RemoveAllInvites v1 q gc1 H1)|].
      { intros y Hy. assert (Hc2 : v_invite v1 !! y = Some (Some q)) by (apply (i_invited _ _ _ HI1); eauto). now rewrite Hc2. }
      destruct (empty_after_invites hb hn v1 q gc1 HI1 H1) as [HI2 Eg2]. set (v2 := v_remove_invites q _ v1) in *.
      assert (H2 : v_groups v2 !! q = Some (c_set_invitees ∅ gc1)) by now rewrite Eg2, lookup_alter_eq, H1.
      eapply spec_conseq; [apply (spec_delete_empty hb hn v2 q _ HI2 H2); [exact Hr|done]|]. intros a v' [_ ->]. split_and!.
      * exists hb, hn. split; [now apply (Inv_delete hb hn v2 q _ HI2 H2)|]. apply (Led_delete v _ q HL). cbn [v_groups v_delete v_with_bgRaids v_with_groups]. rewrite Eg2, Eg1, !delete_alter_eq. done.
      * cbn [v_invite v_delete v_with_bgRaids v_with_groups]. change (v_invite v2) with (v_invite (v_uninvite (c_invitees gc1) v1)). rewrite uninvite_at, Hself. cbn. now case_decide.
      * intros y Hy. cbn [v_invite v_delete v_with_bgRaids v_with_groups]. change (v_invite v2) with (v_invite (v_uninvite (c_invitees gc1) v1)). rewrite uninvite_at.
        specialize (Hpl y Hy). now destruct (v_invite v1 !! y).
  - apply spec_ret. split_and!; [|done|exact Hpl]. exists hb, hn. split; [done|]. apply (Led_alter v v1 q gc _ HL Hq Eg1).
    split; [exact (proj1 (HL q gc Hq))|]. assert (Hr : registered gc).
    { apply Hcr. unfold IsCreated. change (GetMembersCount g) with (GetMembersCount g). rewrite Hc. apply Z.ltb_lt. lia. }
    rewrite decide_True by exact Hr. pose proof (proj2 (HL q gc Hq)) as Hl. now rewrite decide_True in Hl by done.
Qed.

(** ** Joining *)

Definition Led_but (q : Z) (v : View) : Prop := forall j gc, j <> q -> v_groups v !! j = Some gc -> led_group gc.
Lemma Led_weaken v q : Led v -> Led_but q v.
Proof. intros H j gc _. apply H. Qed.
Lemma Led_but_alter v v' q gc f :
  Led_but q v -> v_groups v !! q = Some gc -> v_groups v' = alter f q (v_groups v) -> led_group (f gc) -> Led v'.
Proof.
  intros H Hq E Hf j g. rewrite E. intros Hj. destruct (alter_cases _ f q gc j g Hq Hj) as [[-> ->]|[Hne Hg]]; [exact Hf|now apply (H j)].
Qed.
(** There is room for one more. *)
Definition has_room (gc : GroupCore) : Prop := c_raid gc = false -> zlen (members gc) < MAXGROUPSIZE.
Lemma next_sub_ok hb hn v q gc sub :
  Inv hb hn v -> v_groups v !! q = Some gc -> has_room gc -> next_sub gc = Some sub ->
  0 <= sub < sub_limit (c_raid gc) /\ in_sub sub (c_slots gc) < MAXGROUPSIZE.
Proof.
  intros HI Hq Hroom. unfold next_sub. rewrite (i_counts _ _ _ HI q gc Hq). destruct (c_raid gc) eqn:Er.
  - pose proof (first_free_counts (c_slots gc)) as H. intros E. rewrite E in H. tauto.
  - intros [= <-]. split; [split; [lia|reflexivity]|]. specialize (Hroom Er). unfold in_sub, members, zlen in *. rewrite length_map in Hroom.
    pose proof (length_filter (fun e : Z * Z => e.2 = 0) (c_slots gc)). lia.
Qed.
Lemma counts_room_ok hb hn v q gc sub : Inv hb hn v -> v_groups v !! q = Some gc -> 0 <= sub < sub_limit (c_raid gc) -> counts_room sub gc.
Proof.
  intros HI Hq Hs counts. rewrite (i_counts _ _ _ HI q gc Hq). destruct (c_raid gc); [|done]. intros [= <-]. rewrite sub_counts_length. cbn in Hs. unfold MAX_RAID_SUBGROUPS in *. lia.
Qed.
Definition joined (pvp : bool) (p q : Z) (hb hn : Z -> option Z) : (Z -> option Z) * (Z -> option Z) :=
  (if pvp then upd hb p (Some q) else hb, if pvp then hn else upd hn p (Some q)).
Lemma spec_AddMember_inv hb hn v q p gc :
  Inv hb hn v -> Led_but q v -> v_groups v !! q = Some gc -> registered gc -> kind_ok gc -> (c_leader gc ∈ members gc \/ c_leader gc = p) ->
  kind (c_pvp gc) hb hn p = None -> v_invite v !! p = Some None -> has_room gc ->
  spec v (AddMember q p) (fun b v' =>
    match next_sub gc with
    | Some sub => b = true /\ v' = v_add q p sub gc v /\ Inv (joined (c_pvp gc) p q hb hn).1 (joined (c_pvp gc) p q hb hn).2 v' /\ Led v'
    | None => b = false /\ v' = v
    end).
Proof.
  intros HI HL Hq Hr Hbg Hlead Hk Hinv Hroom. assert (Hp : v_invite v !! p <> None) by now rewrite Hinv.
  destruct (next_sub gc) as [sub|] eqn:En; [|now apply (spec_AddMember_full v q p gc)].
  destruct (next_sub_ok hb hn v q gc sub HI Hq Hroom En) as [Hsub Hin]. pose proof (sub_limit_max (c_raid gc)) as Hmax.
  eapply spec_conseq; [apply (spec_AddMember v q p gc sub Hq Hp En)|].
  - unfold sub_ok, MAX_RAID_SUBGROUPS in *. cbn in Hmax. change (Z.quot MAXRAIDSIZE MAXGROUPSIZE) with 8 in Hmax. lia.
  - now apply (counts_room_ok hb hn v q).
  - intros Ep. rewrite player_low by (apply (i_players _ _ _ HI); now left). destruct (v_dbMembers v !! p) as [e|] eqn:E; [|done].
    apply (i_rows _ _ _ HI) in E as (j & g & Hn & _). rewrite Ep in Hk. cbn in Hk. congruence.
  - intros b v' [-> ->]. split_and!; [done|done|now apply Inv_add|]. apply (Led_but_alter v _ q gc (c_add p sub) HL Hq); [done|].
    split; [exact Hbg|]. rewrite decide_True by exact Hr. change (c_leader (c_add p sub gc)) with (c_leader gc). rewrite members_add. set_solver.
Qed.
Lemma add_players q p sub gc v : v_invite v !! p = Some None -> v_invite (v_add q p sub gc v) = v_invite v.
Proof.
  intros H. change (v_invite (v_add q p sub gc v)) with (v_invite (v_set_invite p None v)). now rewrite set_invite_same.
Qed.
End Reach.
