(* ===== verification/GroupRequests.v ===== *)
(** * Groups: the requests of players keep the invariant

    Each request of [GroupHandler] returns from every world in which the invariant of
    [GroupInv] holds, and the invariant holds again afterwards. *)

From stdpp Require Import base gmap list.
From Stdlib Require Import ZArith Lia FunctionalExtensionality.
From S2P Require Import Prelude StdMap ObjectGuid LfgData LfgMgr LfgScripts ActionLogic GroupTypes GroupMgr GroupLoot GroupLootInv GroupWorld Group GroupCore GroupView GroupOps GroupInv GroupHandler GroupReach.
#[local] Open Scope Z_scope.

Section Requests.
Context `{scripts : GroupScripts} `{outside : GroupOutside} `{loots : LootView} `{laws : !GroupScriptLaws} `{rules : PartyRules}.
Context (lfg_kicks : Script -> Z -> Z) (lfg_state : Script -> Z -> LfgState).

(** What a request leaves: the invariant, and the same players. *)
Definition same_players (v v' : View) : Prop := forall p, v_invite v !! p <> None -> v_invite v' !! p <> None.
Definition kept (v v' : View) : Prop := good v' /\ same_players v v'.
Lemma kept_refl v : good v -> kept v v.
Proof. now split. Qed.
Lemma kept_trans v1 v2 v3 : kept v1 v2 -> kept v2 v3 -> kept v1 v3.
Proof. intros [_ H1] [H2 H3]. split; [done|]. intros p Hp. now apply H3, H1. Qed.
Lemma kept_same v v' : good v' -> v_invite v' = v_invite v -> kept v v'.
Proof. intros H E. split; [done|]. intros p. now rewrite E. Qed.

Lemma spec_result v me op name res : yields v (SendPartyResult me op name res) tt v.
Proof. apply spec_tell. Qed.
Lemma spec_find_name {B} v name (k : option Z -> G B) Q :
  spec v (k None) Q -> (forall p, v_invite v !! p <> None -> spec v (k (Some p)) Q) -> spec v (bind (FindPlayerByName name) k) Q.
Proof.
  intros H0 H1 w Hs Hv. erewrite bind_eq; [|reflexivity]. destruct (List.find _ _) as [[p x]|] eqn:E; [|now apply H0].
  apply H1; [|done|done]. apply List.find_some in E as [E _]. rewrite <- list_elem_of_In in E. apply elem_of_entries in E.
  rewrite <- Hv. cbn. now rewrite !lookup_fmap, E.
Qed.
(** The group of a player, as a request reads it. *)
Lemma spec_own_group {B} hb hn v me (no : G B) (k : GPlayer -> Z -> G B) Q :
  Inv hb hn v -> v_invite v !! me <> None -> spec v no Q ->
  (forall p q gc, v_groups v !! q = Some gc -> kind (c_pvp gc) hb hn me = Some q -> me ∈ members gc -> registered gc -> v_rf v me false = Some q ->
    gp_group p = Some q -> spec v (k p q) Q) ->
  spec v (let! p := player_at me in match gp_group p with None => no | Some q => k p q end) Q.
Proof.
  intros HI Hme Hno Hk. apply spec_player_at; [done|]. intros p Hf _ _. destruct (gp_group p) as [q|] eqn:E; [|done].
  destruct (rf_member hb hn v me false q HI Hme Hf) as (gc & Hq & H1 & H2 & H3). now apply (Hk p q gc).
Qed.

(** ** Members leave *)

Definition stays_uninvited (v v' : View) : Prop := forall p, v_invite v !! p = Some None -> v_invite v' !! p = Some None.
Lemma removal_kept hb hn v q p gc kick ok v' :
  Inv hb hn v -> Led v -> v_groups v !! q = Some gc -> kind (c_pvp gc) hb hn p = Some q -> removal hb hn v q p gc kick ok v' -> kept v v' /\ stays_uninvited v v'.
Proof.
  intros HI HL Hq Hk [? _|_ _ _ HL'|? v1 _ _ _ Hg].
  - split; [apply kept_refl; now exists hb, hn|now intros x].
  - pose proof (removed_players q p gc v) as E. split; [|intros x; now rewrite E].
    apply kept_same; [|done]. eexists _, _. split; [exact (Inv_removed hb hn v q p gc HI Hq Hk)|done].
  - split; [|exact (go_uninvited _ _ _ _ _ _ Hg)]. split; [exact (good_gone hb hn v q _ v1 HL Hg)|].
    intros x Hx E. apply (go_players _ _ _ _ _ _ Hg) in E. done.
Qed.
Lemma spec_remove_kept hb hn v q p gc method kicker reason :
  Inv hb hn v -> Led v -> v_groups v !! q = Some gc -> kind (c_pvp gc) hb hn p = Some q ->
  spec v (RemoveMember q p method kicker reason) (fun _ v' => kept v v' /\ stays_uninvited v v').
Proof.
  intros HI HL Hq Hk. eapply spec_conseq; [now apply (spec_RemoveMember hb hn v q p gc)|]. intros a v' H. now apply (removal_kept hb hn v q p gc) in H.
Qed.
Lemma spec_uninvite_kept v p : good v -> v_invite v !! p <> None -> spec v (UninviteFromGroup p) (fun _ v' => kept v v').
Proof. intros H Hp. eapply spec_conseq; [now apply spec_UninviteFromGroup|]. intros a v' (H1 & _ & H2). now split. Qed.
Lemma spec_Leave v me : good v -> v_invite v !! me <> None -> spec v (HandleGroupDisbandOpcode me) (fun _ v' => kept v v').
Proof.
  intros (hb & hn & HI & HL) Hme. assert (Hgood : good v) by now exists hb, hn. apply (spec_own_group hb hn); [done|done|apply spec_ret; now apply kept_refl|].
  intros p q gc Hq Hk _ _ _ _. destruct (in_battleground me); [eapply spec_conseq; [apply spec_result|]; intros a v' [_ ->]; now apply kept_refl|].
  eapply yields_bind; [apply spec_result|]. eapply spec_bind; [now apply (spec_remove_kept hb hn v q me gc)|]. intros a v1 [H _]. now apply spec_ret.
Qed.

(** ** Sending away *)

Lemma spec_CanUninvite v me : good v -> v_invite v !! me <> None -> spec v (CanUninviteFromGroup lfg_kicks lfg_state me) (fun _ v' => v' = v).
Proof.
  intros (hb & hn & HI & HL) Hme. apply (spec_own_group hb hn); [done|done|now apply spec_ret|]. intros p q gc Hq _ _ _ _ _.
  eapply spec_group_at; [exact Hq|]. intros g _. apply spec_any. intros s. now apply spec_ret.
Qed.
Lemma IsMember_in g p : IsMember g p = true <-> p ∈ members (bare (group_core g)).
Proof. unfold IsMember. rewrite bool_decide_eq_true. apply slot_member. Qed.
Lemma spec_send_away v me q gc guid invited reason name :
  good v -> v_groups v !! q = Some gc -> v_invite v !! me <> None ->
  (forall p, guid = Some p -> p ∈ members gc) -> (forall p, invited = Some p -> p ∈ c_invitees gc) ->
  spec v (send_away me q guid invited reason name) (fun _ v' => kept v v').
Proof.
  intros (hb & hn & HI & HL) Hq Hme Hg Hi. assert (Hgood : good v) by now exists hb, hn. unfold send_away. destruct guid as [p|]; [|destruct invited as [p|]].
  - eapply spec_bind; [apply (spec_remove_kept hb hn v q p gc); try done; rewrite <- (i_members _ _ _ HI q gc p Hq); now apply Hg|].
    intros a v1 [H _]. now apply spec_ret.
  - apply spec_uninvite_kept; [done|]. assert (H : v_invite v !! p = Some (Some q)) by (apply (i_invited _ _ _ HI); eauto). now rewrite H.
  - eapply spec_conseq; [apply spec_result|]. intros a v' [_ ->]. now apply kept_refl.
Qed.
Lemma spec_say v me op name res : good v -> spec v (SendPartyResult me op name res) (fun _ v' => kept v v').
Proof. intros H. eapply spec_conseq; [apply spec_result|]. intros a v' [_ ->]. now apply kept_refl. Qed.
Lemma spec_UninviteGuid v me guid reason :
  good v -> v_invite v !! me <> None -> spec v (HandleGroupUninviteGuidOpcode lfg_kicks lfg_state me guid reason) (fun _ v' => kept v v').
Proof.
  intros Hgood Hme. unfold HandleGroupUninviteGuidOpcode. destruct (guid =? me); [apply spec_ret; now apply kept_refl|].
  eapply spec_bind; [now apply spec_CanUninvite|]. intros res v0 ->. destruct (negb _); [now apply spec_say|].
  pose proof Hgood as (hb & hn & HI & HL). apply (spec_own_group hb hn); [done|done|apply spec_ret; now apply kept_refl|].
  intros p q gc Hq _ _ _ _ _. eapply spec_group_at; [exact Hq|]. intros g Eg. destruct (IsLeader g guid); [now apply spec_say|].
  apply (spec_send_away v me q gc); try done.
  - intros x. destruct (IsMember g guid) eqn:E; [|done]. intros [= <-]. apply IsMember_in in E. now rewrite Eg in E.
  - intros x. case_bool_decide as E; [|done]. intros [= <-]. now rewrite <- Eg.
Qed.
Lemma GetMemberGUID_in g name : GetMemberGUID g name <> 0 -> GetMemberGUID g name ∈ members (bare (group_core g)).
Proof.
  rewrite members_core. unfold GetMemberGUID. destruct (list_find _ _) as [[i s]|] eqn:E; [|done]. intros _.
  apply list_find_Some in E as (Hl & _). apply list_elem_of_fmap. exists s. split; [done|]. now apply list_elem_of_lookup_2 in Hl.
Qed.
Lemma GetInvitedByName_in g ps name p : GetInvitedByName g ps name = Some p -> p ∈ m_invitees g.
Proof. intros H. apply List.find_some in H as [H _]. apply list_elem_of_In in H. now apply elem_of_set_order in H. Qed.
Lemma spec_Uninvite v me name :
  good v -> v_invite v !! me <> None -> spec v (HandleGroupUninviteOpcode lfg_kicks lfg_state me name) (fun _ v' => kept v v').
Proof.
  intros Hgood Hme. unfold HandleGroupUninviteOpcode. destruct (normalizePlayerName name) as [n|]; [|apply spec_ret; now apply kept_refl].
  apply spec_player_at; [done|]. intros x Hf _ _. case_bool_decide; [apply spec_ret; now apply kept_refl|].
  eapply spec_bind; [now apply spec_CanUninvite|]. intros res v0 ->. destruct (negb _); [now apply spec_say|].
  pose proof Hgood as (hb & hn & HI & HL). destruct (gp_group x) as [q|]; [|apply spec_ret; now apply kept_refl].
  destruct (rf_member hb hn v me false q HI Hme Hf) as (gc & Hq & _). eapply spec_group_at; [exact Hq|]. intros g Eg. apply spec_any. intros ps. cbn zeta.
  apply (spec_send_away v me q gc); try done.
  - intros p. destruct (Z.eqb_spec (GetMemberGUID g n) 0); [done|]. intros [= <-]. rewrite <- Eg. now apply GetMemberGUID_in.
  - intros p Hp. rewrite <- Eg. exact (GetInvitedByName_in g ps n p Hp).
Qed.
Lemma spec_Decline v me : good v -> v_invite v !! me <> None -> spec v (HandleGroupDeclineOpcode me) (fun _ v' => kept v v').
Proof.
  intros Hgood Hme. pose proof Hgood as (hb & hn & HI & HL). unfold HandleGroupDeclineOpcode. apply spec_player_at; [done|]. intros x _ _ Hi.
  destruct (gp_invite x) as [q|]; [|apply spec_ret; now apply kept_refl]. apply (i_invited _ _ _ HI) in Hi as (gc & Hq & _).
  eapply spec_group_at; [exact Hq|]. intros g _. assert (H : forall o : option GPlayer,
    spec v (do! UninviteFromGroup me in match o with Some _ => tell (SMSG_GROUP_DECLINE (m_leaderGuid g) (gp_name x)) | None => ret tt end) (fun _ v' => kept v v')).
  { intros o. eapply spec_bind; [now apply spec_uninvite_kept|]. intros a v1 H. destruct o; [|now apply spec_ret].
    eapply spec_conseq; [apply spec_tell|]. now intros b v' [_ ->]. }
  apply spec_connected; [intros _; exact (H None)|intros y _ _ _; exact (H (Some y))].
Qed.

(** ** Leader, settings and sub groups *)

Lemma spec_kept_ret {A} v m (a : A) : yields v m a v -> good v -> spec v m (fun _ v' => kept v v').
Proof. intros H Hg. eapply spec_conseq; [exact H|]. intros b v' [_ ->]. now apply kept_refl. Qed.
(** A group whose settings changed: its members and its kind are the same. *)
Lemma kept_on_group hb hn v q gc f :
  Inv hb hn (v_on_group q f v) -> Led v -> v_groups v !! q = Some gc -> led_group (f gc) -> kept v (v_on_group q f v).
Proof. intros HI HL Hq Hf. apply kept_same; [|done]. exists hb, hn. split; [done|]. now apply (Led_alter v _ q gc f HL Hq). Qed.
Lemma spec_ChangeLeader_kept v q p gc :
  good v -> v_groups v !! q = Some gc -> registered gc -> spec v (ChangeLeader q p) (fun _ v' => kept v v' /\ v_groups v' !! q <> None).
Proof.
  intros Hgood Hq Hr. pose proof Hgood as (hb & hn & HI & HL). eapply spec_conseq; [now apply (spec_ChangeLeader v q p gc)|]. intros a v' [_ ->].
  assert (H0 : kept v v /\ v_groups v !! q <> None) by (split; [now apply kept_refl|now rewrite Hq]).
  case_bool_decide as Hin; cbn [andb]; [|done]. case_bool_decide; [|done]. split; [|now rewrite (on_group_at q v _ gc Hq)].
  apply (kept_on_group hb hn v q gc); [now apply (Inv_set_leader hb hn v q gc)|done|done|]. split; [exact (proj1 (HL q gc Hq))|].
  rewrite decide_True by exact Hr. exact Hin.
Qed.
Lemma spec_update_kept v0 v q : kept v0 v -> v_groups v !! q <> None -> spec v (SendUpdate q) (fun _ v' => kept v0 v').
Proof. intros H Hq. eapply spec_conseq; [now apply spec_SendUpdate|]. now intros a v' [_ ->]. Qed.
Lemma spec_SetLeader v me guid : good v -> v_invite v !! me <> None -> spec v (HandleGroupSetLeaderOpcode me guid) (fun _ v' => kept v v').
Proof.
  intros Hgood Hme. pose proof Hgood as (hb & hn & HI & HL). unfold HandleGroupSetLeaderOpcode.
  apply spec_connected; intros.
  - apply (spec_own_group hb hn); [done|done|apply spec_ret; now apply kept_refl|]. intros. apply spec_ret. now apply kept_refl.
  - apply (spec_own_group hb hn); [done|done|apply spec_ret; now apply kept_refl|]. intros p q gc Hq _ _ Hr _ _. eapply spec_group_at; [exact Hq|].
    intros g _. destruct (_ || _); [apply spec_ret; now apply kept_refl|].
    eapply spec_bind; [now apply (spec_ChangeLeader_kept v q guid gc)|]. intros a v1 [H1' H2']. now apply spec_update_kept.
Qed.
Lemma spec_LootMethod v me lootMethod lootMaster threshold :
  good v -> v_invite v !! me <> None -> spec v (HandleLootMethodOpcode me lootMethod lootMaster threshold) (fun _ v' => kept v v').
Proof.
  intros Hgood Hme. pose proof Hgood as (hb & hn & HI & HL). apply (spec_own_group hb hn); [done|done|apply spec_ret; now apply kept_refl|].
  intros p q gc Hq _ _ _ _ _. eapply spec_group_at; [exact Hq|]. intros g _. repeat (case_if; [apply spec_ret; now apply kept_refl|]).
  eapply yields_bind; [apply spec_alter_group_same; [now rewrite Hq|done]|]. apply spec_update_kept; [now apply kept_refl|now rewrite Hq].
Qed.
Lemma spec_RaidConvert v me : good v -> v_invite v !! me <> None -> spec v (HandleGroupRaidConvertOpcode me) (fun _ v' => kept v v').
Proof.
  intros Hgood Hme. pose proof Hgood as (hb & hn & HI & HL). apply (spec_own_group hb hn); [done|done|apply spec_ret; now apply kept_refl|].
  intros p q gc Hq _ _ Hr _ _. destruct (in_battleground me); [apply spec_ret; now apply kept_refl|].
  eapply spec_group_at; [exact Hq|]. intros g _. destruct (_ || _); [apply spec_ret; now apply kept_refl|].
  eapply yields_bind; [apply spec_result|]. eapply spec_conseq; [apply (spec_ConvertToRaid v q gc Hq)|].
  - intros e He. pose proof (so_subs _ _ (i_slots _ _ _ HI q gc Hq) e He) as Hs. pose proof (sub_limit_max (c_raid gc)) as Hm.
    unfold no_counts. rewrite length_replicate || rewrite repeat_length. unfold MAX_RAID_SUBGROUPS in *. lia.
  - intros a v' [_ ->]. apply (kept_on_group hb hn v q gc); [now apply (Inv_to_raid hb hn v q gc)|done|done|].
    split; [split; [exact (proj1 (proj1 (HL q gc Hq)))|done]|]. rewrite decide_True by exact Hr. pose proof (proj2 (HL q gc Hq)) as Hl. now rewrite decide_True in Hl.
Qed.
Lemma spec_AssistantLeader v me guid apply :
  good v -> v_invite v !! me <> None -> spec v (HandleGroupAssistantLeaderOpcode me guid apply) (fun _ v' => kept v v').
Proof.
  intros Hgood Hme. pose proof Hgood as (hb & hn & HI & HL). apply (spec_own_group hb hn); [done|done|apply spec_ret; now apply kept_refl|].
  intros p q gc Hq _ _ _ _ _. eapply spec_group_at; [exact Hq|]. intros g _. destruct (negb _); [apply spec_ret; now apply kept_refl|].
  apply (spec_kept_ret v _ tt); [|done]. apply spec_SetGroupMemberFlag. now rewrite Hq.
Qed.
Lemma RemoveUnique_core flag g : group_core (RemoveUniqueGroupMemberFlag flag g) = group_core g.
Proof. unfold RemoveUniqueGroupMemberFlag, group_core. cbn. f_equal. rewrite map_map. apply map_ext. intros s. now case_if. Qed.
Lemma spec_PartyAssignment v me assignment apply guid :
  good v -> v_invite v !! me <> None -> spec v (HandlePartyAssignmentOpcode me assignment apply guid) (fun _ v' => kept v v').
Proof.
  intros Hgood Hme. pose proof Hgood as (hb & hn & HI & HL). apply (spec_own_group hb hn); [done|done|apply spec_ret; now apply kept_refl|].
  intros p q gc Hq _ _ _ _ _. assert (Hq' : v_groups v !! q <> None) by now rewrite Hq. eapply spec_group_at; [exact Hq|]. intros g _.
  destruct (_ && _); [apply spec_ret; now apply kept_refl|]. cbn zeta.
  assert (Ha : forall flag, yields v (do! alter_group q (RemoveUniqueGroupMemberFlag flag) in SetGroupMemberFlag q guid apply flag) tt v).
  { intros flag. eapply yields_bind; [apply spec_alter_group_same; [done|intros; apply RemoveUnique_core]|]. now apply spec_SetGroupMemberFlag. }
  eapply yields_bind with (v1 := v); [repeat case_if; try apply Ha; apply yields_ret|]. now apply spec_update_kept; [apply kept_refl|].
Qed.
Lemma regroup_led p sub gc : led_group gc -> members (c_regroup p sub gc) = members gc -> led_group (c_regroup p sub gc).
Proof.
  intros [Hk Hl] Hm. unfold led_group. rewrite Hm. unfold c_regroup. now destruct (list_find _ _) as [[i e]|].
Qed.
Lemma regroup_members p prev sub gc i : list_find (fun e => e.1 = p) (c_slots gc) = Some (i, (p, prev)) -> members (c_regroup p sub gc) = members gc.
Proof.
  intros E. unfold c_regroup. rewrite E. apply list_find_Some in E as (Hl & _). unfold members. cbn. exact (map_fst_insert _ i p prev sub Hl).
Qed.
Lemma spec_ChangeMembers_kept v q gc guid sub :
  good v -> v_groups v !! q = Some gc -> 0 <= sub < MAX_RAID_SUBGROUPS -> (c_raid gc = true -> in_sub sub (c_slots gc) < MAXGROUPSIZE) ->
  spec v (ChangeMembersGroup q guid sub) (fun _ v' => kept v v').
Proof.
  intros Hgood Hq Hsub Hroom. pose proof Hgood as (hb & hn & HI & HL).
  assert (Hno : forall m, yields v m tt v -> spec v m (fun _ v' => kept v v')) by (intros m H; now apply (spec_kept_ret v m tt)).
  destruct (c_raid gc) eqn:Er.
  2:{ apply Hno. unfold ChangeMembersGroup. eapply spec_group_at; [exact Hq|]. intros g Eg. pose proof (f_equal c_raid Eg) as E. cbn in E. rewrite E, Er. apply yields_ret. }
  destruct (list_find (fun e => e.1 = guid) (c_slots gc)) as [[i [p prev]]|] eqn:Ef.
  2:{ apply Hno. unfold ChangeMembersGroup. eapply spec_group_at; [exact Hq|]. intros g Eg. destruct (negb _); [apply yields_ret|].
      pose proof (find_slot_core g guid) as E. rewrite Eg, Ef in E. unfold getMemberSlot. destruct (find_slot _ _) as [[j s]|]; [done|]. apply yields_ret. }
  pose proof Ef as E. apply list_find_Some in E as (Hl & E & _). cbn in E. subst p.
  assert (Hin : (guid, prev) ∈ c_slots gc) by now apply list_elem_of_lookup_2 in Hl.
  destruct (decide (prev = sub)) as [->|Hne].
  { apply Hno. unfold ChangeMembersGroup. eapply spec_group_at; [exact Hq|]. intros g Eg. destruct (negb _); [apply yields_ret|].
    pose proof (find_slot_core g guid) as E. rewrite Eg, Ef in E. unfold getMemberSlot. destruct (find_slot _ _) as [[j s]|]; [|done]. cbn in E |- *.
    injection E as -> _ ->. rewrite Z.eqb_refl. apply yields_ret. }
  pose proof (so_subs _ _ (i_slots _ _ _ HI q gc Hq) _ Hin) as Hprev. cbn in Hprev.
  eapply spec_conseq; [apply (spec_ChangeMembersGroup v q guid sub gc prev Hq Er); eauto|].
  - unfold sub_ok, MAX_RAID_SUBGROUPS in *. cbn in Hsub. change (Z.quot MAXRAIDSIZE MAXGROUPSIZE) with 8 in Hsub. lia.
  - apply (counts_room_ok hb hn v q); [done|done|]. now rewrite Er.
  - now apply (counts_room_ok hb hn v q).
  - intros a v' [_ ->]. apply kept_same; [|done]. exists hb, hn. split; [apply (Inv_regroup hb hn v q gc guid prev sub); auto|].
    apply (Led_alter v _ q gc (c_regroup guid sub) HL Hq); [done|]. apply regroup_led; [exact (HL q gc Hq)|]. now apply (regroup_members _ prev _ _ i).
Qed.
Lemma free_slot hb hn v q gc g sub :
  Inv hb hn v -> v_groups v !! q = Some gc -> bare (group_core g) = gc -> 0 <= sub < MAX_RAID_SUBGROUPS ->
  exists free, HasFreeSlotSubGroup g sub = Some free /\ (free = true -> c_raid gc = true -> in_sub sub (c_slots gc) < MAXGROUPSIZE).
Proof.
  intros HI Hq Eg Hs. unfold HasFreeSlotSubGroup. pose proof (f_equal c_counts Eg) as E. cbn in E. rewrite E, (i_counts _ _ _ HI q gc Hq).
  destruct (c_raid gc); [|now exists false]. rewrite sub_counts_at by lia. cbn. eexists. split; [reflexivity|].
  rewrite Z2Nat.id by lia. intros H%Z.ltb_lt _. done.
Qed.
Lemma spec_ChangeSubGroup v me name sub :
  good v -> v_invite v !! me <> None -> 0 <= sub -> spec v (HandleGroupChangeSubGroupOpcode me name sub) (fun _ v' => kept v v').
Proof.
  intros Hgood Hme Hs. pose proof Hgood as (hb & hn & HI & HL). apply (spec_own_group hb hn); [done|done|apply spec_ret; now apply kept_refl|].
  intros p q gc Hq _ _ _ _ _. destruct (Z.leb_spec MAX_RAID_SUBGROUPS sub); [apply spec_ret; now apply kept_refl|].
  eapply spec_group_at; [exact Hq|]. intros g Eg. destruct (_ && _); [apply spec_ret; now apply kept_refl|].
  destruct (free_slot hb hn v q gc g sub HI Hq Eg) as (free & -> & Hfree); [lia|]. apply (yields_bind _ _ _ free v); [apply yields_ret|].
  destruct free; cbn [negb]; [|apply spec_ret; now apply kept_refl].
  apply spec_find_name; intros; apply (spec_ChangeMembers_kept v q gc); auto; lia.
Qed.

(** ** Invitations *)

Lemma home_hn hb hn v p : Inv hb hn v -> v_invite v !! p <> None -> home v p = hn p.
Proof.
  intros HI Hp. unfold home. rewrite !(i_rf _ _ _ HI p) by done. unfold canon. destruct (hb p) as [b|] eqn:Eb.
  - destruct (i_live _ _ _ HI true p b Eb) as (gc & Hq & E). now rewrite Hq, E.
  - destruct (hn p) as [q|] eqn:En; [|done]. destruct (i_live _ _ _ HI false p q En) as (gc & Hq & E). now rewrite Hq, E.
Qed.
Lemma spec_AddInvite_inv hb hn v q p gc :
  Inv hb hn v -> v_groups v !! q = Some gc -> c_pvp gc = false -> v_invite v !! p <> None ->
  spec v (AddInvite q p) (fun b v' =>
    if b then v' = v_add_invite q p v /\ Inv hb hn v' /\ v_invite v !! p = Some None /\ hn p = None
    else v' = v /\ ~ (v_invite v !! p = Some None /\ hn p = None)).
Proof.
  intros HI Hq Hpvp Hp. eapply spec_conseq; [apply (spec_AddInvite v q p); [now rewrite Hq|done]|]. cbn zeta. rewrite (home_hn hb hn v p HI Hp).
  intros b v' [-> ->]. case_bool_decide; cbn [andb]; [case_bool_decide|].
  - split_and!; try done. now apply (Inv_add_invite hb hn v q p gc).
  - split; [done|]. tauto.
  - split; [done|]. tauto.
Qed.
Lemma add_invite_group q p v gc : v_groups v !! q = Some gc -> v_groups (v_add_invite q p v) !! q = Some (c_set_invitees ({[p]} ∪ c_invitees gc) gc).
Proof. intros Hq. exact (on_group_at q v _ gc Hq). Qed.
Lemma add_invite_players q p v : same_players v (v_add_invite q p v).
Proof. intros x Hx. change (v_invite (v_add_invite q p v)) with (alter (fun _ => Some q) p (v_invite v)). now rewrite alter_none. Qed.
(** The group that asks, and the group of who is asked. *)
Lemma spec_group_for_invite hb hn v p x :
  Inv hb hn v -> Led v -> v_invite v !! p <> None -> v_rf v p false = gp_group x -> v_rf v p true = gp_original x ->
  spec v (group_for_invite x) (fun o v' => o = hn p /\ v' = v).
Proof.
  intros HI HL Hp Hf Ho. rewrite <- (home_hn hb hn v p HI Hp). unfold group_for_invite, home. rewrite Hf, Ho.
  destruct (gp_group x) as [q|]; [|now apply spec_ret]. destruct (rf_member hb hn v p false q HI Hp Hf) as (gc & Hq & _).
  eapply spec_group_at; [exact Hq|]. intros g Eg. apply spec_ret. rewrite Hq, <- (proj1 (proj1 (HL q gc Hq))).
  pose proof (f_equal c_bg Eg) as E. cbn in E. unfold isBGGroup. now rewrite E.
Qed.
Lemma new_empty : empty_group (bare (group_core new_group)).
Proof. done. Qed.
Lemma spec_AddLeaderInvite_inv hb hn v q p gc :
  Inv hb hn v -> v_groups v !! q = Some gc -> c_pvp gc = false -> v_invite v !! p <> None ->
  spec v (AddLeaderInvite q p) (fun b v' =>
    if b then v' = v_on_group q (c_set_leader p) (v_add_invite q p v) /\ Inv hb hn v'
    else v' = v /\ ~ (v_invite v !! p = Some None /\ hn p = None)).
Proof.
  intros HI Hq Hpvp Hp. unfold AddLeaderInvite. eapply spec_bind; [now apply (spec_AddInvite_inv hb hn v q p gc)|].
  intros [|] v1 H1; cbn [negb]; [|apply spec_ret; tauto]. destruct H1 as (-> & HI1 & _). pose proof (add_invite_group q p v gc Hq) as H1.
  apply spec_player_at; [now apply add_invite_players|]. intros x _ _ _.
  eapply yields_bind; [apply (spec_alter_group _ q _ (c_set_leader p) _ H1); [now intros g <-|done]|]. apply spec_ret. split; [done|].
  now apply (Inv_set_leader hb hn _ q _ p HI1 H1).
Qed.
(** The group that was made for the invitation goes again. *)
Lemma spec_no_invite hb hn v v1 q gc :
  Inv hb hn v1 -> Led v1 -> same_players v v1 -> v_groups v1 !! q = Some gc -> ~ registered gc -> c_invitees gc = ∅ ->
  spec v1 (do! delete_group q in ret false) (fun _ v' => kept v v').
Proof.
  intros HI HL Hsame Hq Hr Hi. eapply yields_bind; [now apply (spec_delete_empty hb hn v1 q gc)|]. apply spec_ret. split; [|exact Hsame].
  exists hb, hn. split; [now apply (Inv_delete hb hn v1 q gc)|]. now apply (Led_delete v1 _ q).
Qed.
Lemma spec_invite_new hb hn v me target :
  Inv hb hn v -> Led v -> v_invite v !! me <> None -> v_invite v !! target = Some None -> me <> target -> hn target = None ->
  spec v (invite_new me target) (fun _ v' => kept v v').
Proof.
  intros HI HL Hme Ht Hne Ht0. set (q := v_alloc v). set (g0 := bare (group_core new_group)). unfold invite_new.
  eapply yields_bind; [apply spec_new_group; intros; now apply (alloc_fresh hb hn)|].
  fold g0. fold (v_new g0 v). fold q. pose proof (Inv_new hb hn v g0 HI new_empty eq_refl) as HI1.
  assert (H1 : v_groups (v_new g0 v) !! q = Some g0) by (cbn; now rewrite lookup_insert_eq).
  assert (HL1 : Led (v_new g0 v)).
  { intros j gc Hj. cbn in Hj. apply lookup_insert_Some in Hj as [[_ <-]|[_ Hj]]; [|exact (HL j gc Hj)]. split; [done|now left]. }
  assert (Hinv : v_invite (v_new g0 v) = v_invite v) by done. set (v1 := v_new g0 v) in *. clearbody v1.
  assert (Hno : ~ registered g0) by (unfold registered; intros H; now apply H).
  eapply spec_bind; [now apply (spec_AddLeaderInvite_inv hb hn v1 q me g0); rewrite ?Hinv|].
  intros [|] v2 H2; cbn [negb].
  2:{ destruct H2 as [-> _]. apply (spec_no_invite hb hn v v1 q g0); try done. intros p. now rewrite Hinv. }
  destruct H2 as [E2 HI2]. pose proof (on_group_at q _ (c_set_leader me) _ (add_invite_group q me v1 g0 H1)) as H2. rewrite <- E2 in H2.
  set (g2 := c_set_leader me _) in H2.
  assert (Ht2 : v_invite v2 !! target = Some None) by (rewrite E2; cbn; rewrite lookup_alter_ne by done; now rewrite Hinv).
  eapply spec_bind; [apply (spec_AddInvite_inv hb hn v2 q target g2); try done; now rewrite Ht2|].
  intros [|] v3 H3; cbn [negb]; [|destruct H3 as [_ []]; now split]. destruct H3 as (-> & HI3 & _). apply spec_ret. split.
  - exists hb, hn. split; [done|]. intros j gc Hj. destruct (decide (j = q)) as [->|Hjq].
    + pose proof (add_invite_group q target v2 g2 H2) as H3. rewrite H3 in Hj. injection Hj as <-. split; [done|]. rewrite decide_False by exact Hno.
      right. cbn. set_solver.
    + apply (HL1 j gc). rewrite E2 in Hj. cbn in Hj. now rewrite !lookup_alter_ne in Hj by done.
  - intros p Hp. apply add_invite_players. rewrite E2. apply (add_invite_players q me v1). now rewrite Hinv.
Qed.
Lemma spec_invite_to hb hn v me target :
  Inv hb hn v -> Led v -> v_invite v !! me <> None -> v_invite v !! target = Some None -> me <> target -> hn target = None ->
  spec v (invite_to me target (hn me)) (fun _ v' => kept v v').
Proof.
  intros HI HL Hme Ht Hne Ht0. unfold invite_to. destruct (hn me) as [q|] eqn:En; [|now apply (spec_invite_new hb hn)].
  destruct (i_live _ _ _ HI false me q En) as (gc & Hq & Ep).
  assert (Hr : registered gc) by (apply (member_registered hb hn v q gc me HI Hq); rewrite (i_members _ _ _ HI q gc me Hq), Ep; exact En).
  eapply spec_conseq; [apply (spec_AddInvite_inv hb hn v q target gc); try done; now rewrite Ht|].
  intros [|] v' H; [|destruct H as [-> _]; apply kept_refl; now exists hb, hn]. destruct H as (-> & HI' & _).
  split; [|apply add_invite_players]. exists hb, hn. split; [done|].
  apply (Led_alter v _ q gc (fun g => c_set_invitees ({[target]} ∪ c_invitees g) g) HL Hq); [done|].
  split; [exact (proj1 (HL q gc Hq))|]. rewrite decide_True by exact Hr. pose proof (proj2 (HL q gc Hq)) as Hl. now rewrite decide_True in Hl.
Qed.
Lemma spec_invite_found v me target name :
  good v -> v_invite v !! me <> None -> v_invite v !! target <> None -> me <> target -> spec v (invite_found me target name) (fun _ v' => kept v v').
Proof.
  intros Hgood Hme Ht Hne. pose proof Hgood as (hb & hn & HI & HL). unfold invite_found.
  apply spec_player_at; [done|]. intros x Hxf Hxo _. apply spec_player_at; [done|]. intros y Hyf Hyo Hy. destruct (invite_refused me target x y); [now apply spec_say|].
  eapply spec_bind; [now apply (spec_group_for_invite hb hn v me)|]. intros o v0 [-> ->].
  eapply spec_bind; [now apply (spec_group_for_invite hb hn v target)|]. intros o v0 [-> ->].
  case_bool_decide as H1; cbn [orb]; [|case_bool_decide as H2].
  - eapply yields_bind; [apply spec_result|]. cbn [when]. apply (spec_kept_ret v _ tt); [apply spec_tell|done].
  - eapply yields_bind; [apply spec_result|]. cbn [when]. apply spec_ret. now apply kept_refl.
  - rewrite H2 in Hy.
    assert (Hno : spec v (match hn me with Some q => let! g := group_at q in ret (invite_forbidden me g) | None => ret None end) (fun _ v' => v' = v)).
    { destruct (hn me) as [q|] eqn:En; [|now apply spec_ret]. destruct (i_live _ _ _ HI false me q En) as (gc & Hq & _).
      eapply spec_group_at; [exact Hq|]. intros g _. now apply spec_ret. }
    eapply spec_bind; [exact Hno|]. intros [err|] v0 ->; [now apply spec_say|]. eapply spec_bind; [now apply (spec_invite_to hb hn v me target)|].
    intros b v1 H. destruct b; cbn [when]; [|now apply spec_ret]. eapply yields_bind; [apply spec_tell|].
    eapply spec_conseq; [apply spec_result|]. now intros a v' [_ ->].
Qed.

(** ** A group is created *)

Lemma next_row hb hn v p : Inv hb hn v -> v_invite v !! p <> None -> hn p = None -> v_dbMembers v !! GUID_LOPART p = None.
Proof.
  intros HI Hp Hn. rewrite player_low by (apply (i_players _ _ _ HI); now left). destruct (v_dbMembers v !! p) as [e|] eqn:E; [|done].
  apply (i_rows _ _ _ HI) in E as (j & g & Hj & _). congruence.
Qed.
Definition v_created (q p : Z) (gc : GroupCore) (v : View) : View := v_add q p 0 (created p gc (v_mgr v)) (v_create q p gc v).
Definition first_member (q p : Z) (gc : GroupCore) (v : View) : GroupCore := c_add p 0 (created p gc (v_mgr v)).
Lemma created_at q p gc v : v_groups v !! q = Some gc -> v_groups (v_created q p gc v) !! q = Some (first_member q p gc v).
Proof.
  intros Hq. unfold v_created, v_add. cbn. rewrite lookup_alter_eq. unfold v_create. cbn. now rewrite lookup_alter_eq, Hq.
Qed.
Lemma spec_Create_inv hb hn v q p gc :
  Inv hb hn v -> v_groups v !! q = Some gc -> ~ registered gc -> kind (c_pvp gc) hb hn p = None -> v_invite v !! p = Some None ->
  (c_pvp gc = false -> ids_left (v_mgr v)) ->
  spec v (Create q p) (fun _ v' => v' = v_created q p gc v /\ Inv (joined (c_pvp gc) p q hb hn).1 (joined (c_pvp gc) p q hb hn).2 v').
Proof.
  intros HI Hq Hr Hk Hinv Hl. destruct (i_uncreated _ _ _ HI q gc Hq Hr) as [Hs Hraid]. assert (Hp : v_invite v !! p <> None) by now rewrite Hinv.
  eapply spec_conseq; [apply (spec_Create v q p gc Hq Hp Hs)|].
  - intros _. now rewrite (i_counts _ _ _ HI q gc Hq), Hraid.
  - intros E. rewrite E in Hk. now apply (next_row hb hn).
  - intros b v' [_ ->]. split; [done|]. pose proof (Inv_create hb hn v q p gc HI Hq Hr Hl) as HI1.
    assert (H1 : v_groups (v_create q p gc v) !! q = Some (created p gc (v_mgr v))) by (unfold v_create; cbn; now rewrite lookup_alter_eq, Hq).
    apply (Inv_add hb hn _ q p _ 0 HI1 H1); try done.
    + apply created_registered. apply (st_next _ _ _ _ (i_stored _ _ _ HI)).
    + split; [lia|]. unfold sub_limit. now case_if.
    + unfold created, c_create. cbn [c_slots]. rewrite Hs. done.
Qed.
Lemma created_led q p gc v : is_u 32 (NextGroupId (v_mgr v)) -> bool_decide (c_bg gc <> None) = c_pvp gc -> led_group (first_member q p gc v).
Proof.
  intros Hu Hb. pose proof (created_registered p gc _ Hu) as Hr. split; [split; [exact Hb|]|].
  - intros E. split; [exact Hr|]. change (c_pvp gc = true) in E. change (c_pvp gc || c_raid gc = true). now rewrite E.
  - rewrite decide_True by exact Hr. unfold first_member. rewrite members_add. apply elem_of_app. right. left.
Qed.
Lemma Led_created v q p gc : Led_but q v -> v_groups v !! q = Some gc -> is_u 32 (NextGroupId (v_mgr v)) -> bool_decide (c_bg gc <> None) = c_pvp gc -> Led (v_created q p gc v).
Proof.
  intros HL Hq Hu Hb j g Hj. destruct (decide (j = q)) as [->|Hne].
  - rewrite (created_at q p gc v Hq) in Hj. injection Hj as <-. now apply created_led.
  - apply (HL j g Hne). unfold v_created, v_add in Hj. cbn in Hj. rewrite lookup_alter_ne in Hj by done. unfold v_create in Hj. cbn in Hj. now rewrite lookup_alter_ne in Hj by done.
Qed.

(** ** Accepting *)

Lemma Inv_mgr hb hn v m :
  Inv hb hn v -> Stored (settings <$> v_groups v) m (v_dbGroups v) (v_alloc v) -> Inv hb hn (v_with_mgr m v).
Proof. intros [H1 H2 H3 H4 H5 H6 H7 H8 H9 H10 H11 _] HS. now split. Qed.
Lemma Stored_add h m db alloc q guid store pvp :
  Stored h m db alloc -> h !! q = Some (guid, store, pvp) -> guid <> 0 ->
  Stored h (with_store (<[GUID_LOPART guid := q]> (GroupStore m)) m) db alloc.
Proof.
  intros [S1 S0 S2 S3 S4 S5 S6] Hq Hg. split; [exact S1|exact S0|exact S2|exact S3|exact S4| |exact S6]. intros low j. unfold GetGroupByGUID. cbn.
  intros [[<- <-]|[_ Hj]]%lookup_insert_Some; [now exists guid, store, pvp|now apply S5].
Qed.
Lemma Inv_AddGroup hb hn v q gc :
  Inv hb hn v -> v_groups v !! q = Some gc -> registered gc ->
  Inv hb hn (v_with_mgr (with_store (<[GUID_LOPART (c_guid gc) := q]> (GroupStore (v_mgr v))) (v_mgr v)) v).
Proof.
  intros HI Hq Hr. apply (Inv_mgr hb hn v _ HI). apply (Stored_add _ _ _ _ q (c_guid gc) (c_store gc) (c_pvp gc)); [apply (i_stored _ _ _ HI)| |exact Hr].
  now rewrite lookup_fmap, Hq.
Qed.
Lemma spec_AddGroup hb hn v q gc g :
  Inv hb hn v -> Led v -> v_groups v !! q = Some gc -> registered gc -> bare (group_core g) = gc ->
  spec v (modify (fun w => with_mgr (AddGroup q g (w_mgr w)) w))
    (fun _ v' => Inv hb hn v' /\ Led v' /\ v_groups v' = v_groups v /\ v_invite v' = v_invite v).
Proof.
  intros HI HL Hq Hr Eg. eapply spec_conseq.
  - apply (spec_modify v _ (v_with_mgr (with_store (<[GUID_LOPART (c_guid gc) := q]> (GroupStore (v_mgr v))) (v_mgr v)) v)); [done|].
    intros w <-. unfold view, v_with_mgr. cbn. f_equal. rewrite <- Eg. done.
  - intros a v' [_ ->]. split_and!; [now apply Inv_AddGroup|exact HL|done|done].
Qed.

(** The group of an invitation, once the player has left its invitees. *)
Record asked (hb hn : Z -> option Z) (v : View) (q me : Z) (gc : GroupCore) : Prop := mk_asked {
  as_inv : Inv hb hn v; as_led : Led v; as_at : v_groups v !! q = Some gc; as_kind : c_pvp gc = false;
  as_invite : v_invite v !! me = Some None; as_home : hn me = None; as_leader : c_leader gc <> me;
  as_pending : ~ registered gc -> c_leader gc ∈ c_invitees gc
}.
Lemma asked_of hb hn v q me gc :
  Inv hb hn v -> Led v -> v_invite v !! me = Some (Some q) -> v_groups v !! q = Some gc -> c_leader gc <> me ->
  asked hb hn (v_remove_invite q me v) q me (c_set_invitees (c_invitees gc ∖ {[me]}) gc).
Proof.
  intros HI HL Hme Hq Hl. destruct (proj1 (i_invited _ _ _ HI me q) Hme) as (gc' & Hq' & Hin). rewrite Hq in Hq'. injection Hq' as <-.
  assert (Hpend : ~ registered gc -> c_leader gc ∈ c_invitees gc ∖ {[me]}).
  { intros Hr. pose proof (proj2 (HL q gc Hq)) as H. rewrite decide_False in H by exact Hr. destruct H as [E|H]; set_solver. }
  split.
  - apply (Inv_remove_invite hb hn v q me gc HI Hq). now left.
  - apply (Led_alter v _ q gc (fun g => c_set_invitees (c_invitees g ∖ {[me]}) g) HL Hq); [done|]. split; [exact (proj1 (HL q gc Hq))|].
    pose proof (proj2 (HL q gc Hq)) as H. destruct (decide (registered gc)) as [Hr|Hr].
    + rewrite decide_True by exact Hr. exact H.
    + rewrite decide_False by exact Hr. right. now apply Hpend.
  - now apply remove_invite_group.
  - change (c_pvp gc = false). destruct (c_pvp gc) eqn:E; [|done]. pose proof (i_no_pvp_invite _ _ _ HI q gc Hq E) as H. set_solver.
  - apply remove_invite_self. now rewrite Hme.
  - exact (i_pending _ _ _ HI me q Hme).
  - exact Hl.
  - exact Hpend.
Qed.
Lemma asked_good hb hn v q me gc : asked hb hn v q me gc -> good v.
Proof. intros H. exists hb, hn. split; apply H. Qed.
Lemma full_core g : IsFull g = if c_raid (bare (group_core g)) then MAXRAIDSIZE <=? zlen (members (bare (group_core g))) else MAXGROUPSIZE <=? zlen (members (bare (group_core g))).
Proof. rewrite members_core. unfold zlen. now rewrite length_map. Qed.
(** The invited player joins a group that exists. *)
Lemma spec_join hb hn v q me gc :
  Inv hb hn v -> Led v -> v_groups v !! q = Some gc -> registered gc -> c_pvp gc = false -> hn me = None -> v_invite v !! me = Some None -> has_room gc ->
  spec v (let! ok := AddMember q me in if negb ok then ret tt else BroadcastGroupUpdate q) (fun _ v' => kept v v').
Proof.
  intros HI HL Hq Hr Hp Hn Hinv Hroom. assert (Hgood : good v) by now exists hb, hn. pose proof (proj2 (HL q gc Hq)) as Hl. rewrite decide_True in Hl by exact Hr.
  eapply spec_bind; [apply (spec_AddMember_inv hb hn v q me gc HI (Led_weaken v q HL) Hq Hr); try done|].
  - exact (proj1 (HL q gc Hq)).
  - now left.
  - now rewrite Hp.
  - intros b v1 H. destruct (next_sub gc) as [sub|]; [|destruct H as [-> ->]; apply spec_ret; now apply kept_refl].
    destruct H as (-> & -> & HI' & HL'). cbn [negb]. eapply spec_conseq; [apply spec_BroadcastGroupUpdate; cbn; rewrite lookup_alter_eq, Hq; done|].
    intros a v' [_ ->]. apply kept_same; [eexists _, _; split; [exact HI'|done]|]. now apply add_players.
Qed.
Lemma spec_accept_create hb hn v q me gc :
  asked hb hn v q me gc -> ids_left (v_mgr v) -> has_room gc ->
  spec v (accept_create q) (fun ok v' => same_players v v' /\
    if ok then exists hn' gc', Inv hb hn' v' /\ Led v' /\ v_groups v' !! q = Some gc' /\ registered gc' /\ c_pvp gc' = false /\ hn' me = None /\
      v_invite v' !! me = Some None /\ has_room gc'
    else good v').
Proof.
  intros HA Hids Hroom. pose proof HA as [HI HL Hq Hp Hinv Hn Hl Hpend]. unfold accept_create. eapply spec_group_at; [exact Hq|]. intros g Eg.
  destruct (created_count hb hn v q gc g HI HL Hq Eg) as [_ Hcr]. destruct (IsCreated g).
  { apply spec_ret. split; [now intros p|]. exists hn, gc. assert (Hr : registered gc) by now apply Hcr. done. }
  assert (Hr : ~ registered gc) by (rewrite <- Hcr; done). specialize (Hpend Hr). pose proof (f_equal c_leader Eg) as El. cbn in El. rewrite El.
  set (l := c_leader gc) in *. assert (Hlinv : v_invite v !! l = Some (Some q)) by (apply (i_invited _ _ _ HI); eauto).
  apply spec_any. intros [x|].
  2:{ eapply yields_bind; [apply (spec_RemoveAllInvites v q gc Hq)|].
      { intros p Hin. assert (H : v_invite v !! p = Some (Some q)) by (apply (i_invited _ _ _ HI); eauto). now rewrite H. }
      destruct (empty_after_invites hb hn v q gc HI Hq) as [HI1 E1]. apply spec_ret. split.
      - intros p H. change (v_invite (v_remove_invites q (c_invitees gc) v)) with (v_invite (v_uninvite (c_invitees gc) v)). rewrite uninvite_at. now destruct (v_invite v !! p).
      - exists hb, hn. split; [done|]. apply (Led_alter v _ q gc (c_set_invitees ∅) HL Hq E1). split; [exact (proj1 (HL q gc Hq))|].
        rewrite decide_False by exact Hr. now left. }
  eapply yields_bind; [apply spec_RemoveInvite; [now rewrite Hq|now rewrite Hlinv]|].
  pose proof (Inv_remove_invite hb hn v q l gc HI Hq (or_introl Hlinv)) as HI1. pose proof (remove_invite_group q l v gc Hq) as H1.
  assert (Hl1 : v_invite (v_remove_invite q l v) !! l = Some None) by (apply remove_invite_self; now rewrite Hlinv).
  assert (Hm1 : v_invite (v_remove_invite q l v) !! me = Some None).
  { change (v_invite (v_remove_invite q l v)) with (alter (fun _ => @None Z) l (v_invite v)). now rewrite lookup_alter_ne. }
  pose proof (remove_invite_players q l v) as Hs1. assert (Hm : v_mgr (v_remove_invite q l v) = v_mgr v) by done.
  assert (HL1 : Led_but q (v_remove_invite q l v)).
  { intros j gj Hne Hj. apply (HL j). cbn in Hj. now rewrite lookup_alter_ne in Hj. }
  set (v1 := v_remove_invite q l v) in *. set (gc1 := c_set_invitees _ gc) in *. clearbody v1.
  assert (Hln : hn l = None) by exact (i_pending _ _ _ HI l q Hlinv). assert (Hp1 : c_pvp gc1 = false) by exact Hp.
  eapply spec_bind; [apply (spec_Create_inv hb hn v1 q l gc1 HI1 H1 Hr); [now rewrite Hp1|done|now rewrite Hm]|].
  intros b v2 [E2 HI2]. rewrite Hp1 in HI2. cbn in HI2. pose proof (created_at q l gc1 v1 H1) as H2. rewrite <- E2 in H2.
  assert (Hu : is_u 32 (NextGroupId (v_mgr v1))) by apply (st_next _ _ _ _ (i_stored _ _ _ HI1)).
  assert (HL2 : Led v2) by (rewrite E2; apply Led_created; try done; exact (proj1 (proj1 (HL q gc Hq)))).
  assert (Hr2 : registered (first_member q l gc1 v1)) by now apply created_registered.
  assert (Ei : v_invite v2 = v_invite v1) by (rewrite E2; now apply (add_players q l 0 _ (v_create q l gc1 v1))).
  eapply spec_group_at; [exact H2|]. intros g2 Eg2. eapply spec_bind; [now apply (spec_AddGroup hb (upd hn l (Some q)) v2 q (first_member q l gc1 v1) g2)|].
  intros a v3 (HI3 & HL3 & Eg3 & Ei3). apply spec_ret. split; [intros p Hp'; rewrite Ei3, Ei; now apply Hs1|].
  exists (upd hn l (Some q)), (first_member q l gc1 v1). rewrite Eg3, Ei3, Ei. destruct (i_uncreated _ _ _ HI q gc Hq Hr) as [Hs Hraid].
  split_and!; try done.
  - unfold upd. now rewrite decide_False.
  - intros _. unfold first_member. rewrite members_add. unfold members, created, c_create. cbn [c_slots]. change (c_slots gc1) with (c_slots gc). rewrite Hs. done.
Qed.
Lemma spec_Accept v me :
  good v -> v_invite v !! me <> None -> ids_left (v_mgr v) ->
  (forall q gc, v_invite v !! me = Some (Some q) -> v_groups v !! q = Some gc -> c_leader gc <> me) ->
  spec v (HandleGroupAcceptOpcode me) (fun _ v' => kept v v').
Proof.
  intros Hgood Hme Hids Hlead. pose proof Hgood as (hb & hn & HI & HL). unfold HandleGroupAcceptOpcode. apply spec_player_at; [done|]. intros x _ _ Hi.
  destruct (gp_invite x) as [q|]; [|apply spec_ret; now apply kept_refl].
  destruct (proj1 (i_invited _ _ _ HI me q) Hi) as (gc & Hq & _). pose proof (asked_of hb hn v q me gc HI HL Hi Hq (Hlead q gc Hi Hq)) as HA.
  eapply yields_bind; [apply spec_RemoveInvite; [now rewrite Hq|done]|]. assert (Hids1 : ids_left (v_mgr (v_remove_invite q me v))) by exact Hids.
  pose proof (remove_invite_players q me v) as Hs. set (v1 := v_remove_invite q me v) in *. set (gc1 := c_set_invitees _ gc) in *. clearbody v1.
  assert (H1 : kept v v1) by (split; [now apply (asked_good hb hn v1 q me gc1)|exact Hs]).
  eapply spec_group_at; [exact (as_at _ _ _ _ _ _ HA)|]. intros g Eg. destruct (_ =? _); [now apply spec_ret|].
  destruct (IsFull g) eqn:Ef; [eapply spec_conseq; [apply spec_result|]; now intros a v' [_ ->]|].
  assert (Hroom : has_room gc1).
  { rewrite full_core, Eg in Ef. intros E. rewrite E in Ef. now apply Z.leb_gt in Ef. }
  eapply spec_bind; [now apply (spec_accept_create hb hn v1 q me gc1)|]. intros ok v2 [Hs2 H2]. destruct ok; cbn [negb].
  - destruct H2 as (hn' & gc' & HI2 & HL2 & Hq2 & Hr2 & Hp2 & Hn2 & Hi2 & Hroom2).
    eapply spec_conseq; [now apply (spec_join hb hn' v2 q me gc')|]. intros a v' H. apply (kept_trans v v1 _ H1). split; [apply H|].
    intros p Hp. apply H. now apply Hs2.
  - apply spec_ret. apply (kept_trans v v1 _ H1). now split.
Qed.
End Requests.
