(* ===== verification/GroupPlay.v ===== *)
(** * Groups: logging in and out, and battlegrounds

    A player who logs in finds his groups again, a player who logs out leaves no
    reference and no invitation behind, and a battleground's group is joined and left
    while the player stays in his own. *)

From stdpp Require Import base gmap list.
From Stdlib Require Import ZArith Lia FunctionalExtensionality.
From S2P Require Import Prelude StdMap ObjectGuid LfgData LfgMgr LfgScripts ActionLogic GroupTypes GroupMgr GroupLoot GroupLootInv GroupWorld Group GroupCore GroupView GroupOps GroupInv GroupHandler GroupReach GroupRequests.
#[local] Open Scope Z_scope.

Section Play.
Context `{scripts : GroupScripts} `{outside : GroupOutside} `{loots : LootView} `{laws : !GroupScriptLaws} `{rules : PartyRules}.

(** ** Battlegrounds *)

(** Nobody's battleground group. *)
Definition outside_bg (v : View) (p : Z) : Prop := forall q gc, v_groups v !! q = Some gc -> c_pvp gc = true -> p ∉ members gc.
Lemma outside_bg_home hb hn v p : Inv hb hn v -> outside_bg v p <-> hb p = None.
Proof.
  intros HI. split.
  - intros H. destruct (hb p) as [q|] eqn:E; [|done]. destruct (i_live _ _ _ HI true p q E) as (gc & Hq & Ep).
    destruct (H q gc Hq Ep). rewrite (i_members _ _ _ HI q gc p Hq), Ep. exact E.
  - intros E q gc Hq Ep. rewrite (i_members _ _ _ HI q gc p Hq), Ep. cbn. congruence.
Qed.
(** A side has the group of its battleground. *)
Lemma side_group hb hn v bg side q :
  Inv hb hn v -> Led v -> v_bgRaids v !! (bg, side) = Some q ->
  exists gc, v_groups v !! q = Some gc /\ c_bg gc = Some bg /\ c_pvp gc = true /\ registered gc /\ c_raid gc = true.
Proof.
  intros HI HL Hs. pose proof (sd_at _ _ (i_sides _ _ _ HI) bg side q Hs) as H. unfold bgs in H. rewrite lookup_fmap in H.
  destruct (v_groups v !! q) as [gc|] eqn:Eq; [|done]. injection H as Eb. exists gc. destruct (HL q gc Eq) as [[Hp Hr] _]. rewrite Eb in Hp.
  rewrite bool_decide_eq_true_2 in Hp by done. destruct (Hr (eq_sym Hp)). now split_and!.
Qed.
Lemma v_on_new f g v : v_on_group (v_alloc v) f (v_new g v) = v_new (f g) v.
Proof. unfold v_on_group, v_new, v_with_groups. cbn. f_equal. apply alter_insert_eq. Qed.

Lemma spec_first_in_bg v bg side me :
  good v -> v_invite v !! me = Some None -> outside_bg v me -> v_bgRaids v !! (bg, side) = None ->
  spec v (AddOrSetPlayerToCorrectBgGroup bg side me) (fun _ v' => kept v v').
Proof.
  intros (hb & hn & HI & HL) Hme Hout Hside. rewrite (outside_bg_home hb hn v me HI) in Hout. unfold AddOrSetPlayerToCorrectBgGroup.
  apply spec_GetBgRaid. rewrite Hside. set (g0 := bare (group_core new_group)). set (q := v_alloc v).
  eapply yields_bind; [apply spec_new_group; intros; now apply (alloc_fresh hb hn)|]. fold g0. fold (v_new g0 v). fold q.
  eapply yields_bind; [apply (spec_SetBgRaid_new _ bg side q g0); [cbn; now rewrite lookup_insert_eq|exact Hside]|].
  change (v_bgRaids (v_new g0 v)) with (v_bgRaids v). unfold q. rewrite v_on_new. fold q. set (r := <[(bg, side) := q]> (v_bgRaids v)). set (g1 := c_set_bg bg g0).
  assert (He : empty_group g1) by done. assert (Hnone : bgs v !! q = None) by (unfold bgs, q; now rewrite lookup_fmap, (alloc_none hb hn v HI)).
  pose proof (Inv_new_side hb hn v g1 r HI He (Sides_side _ _ q bg side (i_sides _ _ _ HI) Hnone Hside)) as HI1. set (v1 := v_with_bgRaids r (v_new g1 v)) in *.
  assert (H1 : v_groups v1 !! q = Some g1) by (cbn; now rewrite lookup_insert_eq).
  assert (HL1 : Led_but q v1).
  { intros j gc Hne Hj. cbn in Hj. fold q in Hj. rewrite lookup_insert_ne in Hj by done. exact (HL j gc Hj). }
  assert (Hi1 : v_invite v1 = v_invite v) by done. clearbody v1. assert (Hr : ~ registered g1) by (unfold registered; intros H; now apply H).
  eapply spec_bind; [apply (spec_Create_inv hb hn v1 q me g1 HI1 H1 Hr); try done; now rewrite Hi1|]. intros b v2 [-> HI2]. apply spec_ret.
  apply kept_same.
  - eexists _, _. split; [exact HI2|]. apply Led_created; try done. apply (st_next _ _ _ _ (i_stored _ _ _ HI1)).
  - unfold v_created. rewrite add_players; [exact Hi1|]. change (v_invite v1 !! me = Some None). now rewrite Hi1.
Qed.
Lemma spec_next_in_bg v bg side q me :
  good v -> v_invite v !! me = Some None -> outside_bg v me -> v_bgRaids v !! (bg, side) = Some q ->
  spec v (AddOrSetPlayerToCorrectBgGroup bg side me) (fun _ v' => kept v v').
Proof.
  intros (hb & hn & HI & HL) Hme Hout Hside. destruct (side_group hb hn v bg side q HI HL Hside) as (gc & Hq & _ & Hp & Hr & Hraid).
  unfold AddOrSetPlayerToCorrectBgGroup. apply spec_GetBgRaid. rewrite Hside. eapply spec_group_at; [exact Hq|]. intros g Eg.
  destruct (IsMember g me) eqn:Em; [apply IsMember_in in Em; rewrite Eg in Em; now destruct (Hout q gc Hq Hp)|].
  rewrite (outside_bg_home hb hn v me HI) in Hout. pose proof (HL q gc Hq) as [Hkind Hl]. rewrite decide_True in Hl by exact Hr.
  eapply spec_bind; [apply (spec_AddMember_inv hb hn v q me gc HI (Led_weaken v q HL) Hq Hr Hkind); try done|].
  - now left.
  - now rewrite Hp.
  - intros E. now rewrite Hraid in E.
  - intros b v1 H. assert (H1 : kept v v1).
    { destruct (next_sub gc) as [sub|]; [|destruct H as [_ ->]; apply kept_refl; now exists hb, hn]. destruct H as (_ & -> & HI1 & HL1).
      apply kept_same; [eexists _, _; split; [exact HI1|exact HL1]|now apply add_players]. }
    assert (H1q : exists gc1, v_groups v1 !! q = Some gc1 /\ registered gc1).
    { destruct (next_sub gc) as [sub|]; [|destruct H as [_ ->]; now exists gc]. destruct H as (_ & -> & _). eexists.
      split; [cbn; rewrite lookup_alter_eq, Hq; reflexivity|exact Hr]. }
    destruct H1q as (gc1 & Hq1 & Hr1). pose proof H1 as [Hgood1 Hs]. assert (Hme1 : v_invite v1 !! me <> None) by (apply Hs; now rewrite Hme).
    apply spec_player_at; [done|]. intros x _ Ho _.
    destruct (gp_original x) as [q'|]; [|now apply spec_ret]. pose proof Hgood1 as (hb1 & hn1 & HI1 & HL1).
    destruct (rf_member hb1 hn1 v1 me true q' HI1 Hme1 Ho) as (gc' & Hq' & _). eapply spec_group_at; [exact Hq'|]. intros g' _.
    destruct (IsLeader g' me); cbn [when]; [|now apply spec_ret]. eapply spec_bind; [now apply (spec_ChangeLeader_kept v1 q me gc1)|].
    intros [] v2 [H2 H2']. apply spec_update_kept; [now apply (kept_trans v v1)|done].
Qed.
(** A member who leaves the battleground leaves its group; the side is free again when
    the group ended. *)
Inductive left_side (hb hn : Z -> option Z) (v : View) (q p : Z) (gc : GroupCore) (bg : Z) (side : bool) : View -> Prop :=
| left_stays : threshold gc < zlen (members gc) -> fewest gc <= zlen (left_here v p gc) -> Led (v_removed q p gc v) -> left_side hb hn v q p gc bg side (v_removed q p gc v)
| left_ends v' : (threshold gc < zlen (members gc) -> zlen (left_here v p gc) < fewest gc \/ c_lfg gc = true /\ zlen (members gc) = 2) -> gone hb hn v q (c_pvp gc) v' -> v_bgRaids v' !! (bg, side) = None -> left_side hb hn v q p gc bg side v'.
Lemma spec_leave_bg hb hn v bg side q gc p :
  Inv hb hn v -> Led v -> v_bgRaids v !! (bg, side) = Some q -> v_groups v !! q = Some gc -> p ∈ members gc ->
  spec v (RemovePlayerAtLeave_group bg side p) (fun _ v' => left_side hb hn v q p gc bg side v').
Proof.
  intros HI HL Hside Hq Hp. unfold RemovePlayerAtLeave_group. apply spec_GetBgRaid. rewrite Hside.
  eapply spec_bind; [apply (spec_RemoveMember hb hn v q p gc GROUP_REMOVEMETHOD_DEFAULT 0 None HI HL Hq); now rewrite <- (i_members _ _ _ HI q gc p Hq)|].
  rewrite bool_decide_eq_false_2 by done. intros ok v' H. inversion H as [? E|_ Hlt Hfew Hled|ok' v'' _ Hok Hfew Hg]; subst.
  - now rewrite andb_false_r in E.
  - cbn [negb when]. apply spec_ret. now apply left_stays.
  - assert (Hnone : v_bgRaids v' !! (bg, side) = None).
    { rewrite (go_sides _ _ _ _ _ _ Hg). apply map_lookup_filter_None. right. intros j Hj. cbn. rewrite Hside in Hj. naive_solver. }
    assert (Hends : left_side hb hn v q p gc bg side v') by (apply left_ends; [destruct ok; tauto|done|done]).
    destruct ok; cbn [negb when]; [now apply spec_ret|]. eapply spec_conseq; [now apply spec_SetBgRaid_none|]. now intros a v1 [_ ->].
Qed.
Lemma left_side_good hb hn v q p gc bg side v' :
  Inv hb hn v -> Led v -> v_groups v !! q = Some gc -> p ∈ members gc -> left_side hb hn v q p gc bg side v' -> kept v v'.
Proof.
  intros HI HL Hq Hp [_ _ Hled|v1 _ Hg _].
  - apply kept_same; [|apply removed_players]. eexists _, _. split; [|exact Hled]. apply (Inv_removed hb hn v q p gc HI Hq). now rewrite <- (i_members _ _ _ HI q gc p Hq).
  - split; [now apply (good_gone hb hn v q (c_pvp gc))|]. intros x Hx E. now apply (go_players _ _ _ _ _ _ Hg) in E.
Qed.

(** ** Logging in *)

(** A player object before his groups are loaded. *)
Record loaded (p : GPlayer) : Prop := mk_loaded {
  lo_group : gp_group p = None; lo_original : gp_original p = None; lo_invite : gp_invite p = None;
  lo_subs : sub_ok (gp_subgroup p) /\ sub_ok (gp_originalSub p)
}.
Definition v_connect (me : Z) (v : View) : View := v_with_invite (<[me := None]> (v_invite v)) v.
Lemma spec_connect v me p :
  v_invite v !! me = None -> loaded p -> yields v (modify (fun w => with_players (<[me := p]> (w_players w)) w)) tt (v_connect me v).
Proof.
  intros Hn [L1 L2 L3 L4] w Hs Hv. pose proof (view_no_player w v me Hv Hn) as Hw.
  assert (Hk : k_players (core w) !! me = None) by (cbn; now rewrite lookup_fmap, Hw).
  exists tt, (with_players (<[me := p]> (w_players w)) w). split; [done|].
  assert (Ek : k_players (core (with_players (<[me := p]> (w_players w)) w)) = <[me := player_core p]> (k_players (core w))) by (cbn; apply fmap_insert).
  assert (Href : forall b, pc_ref b (player_core p) = None) by (intros []; rewrite ref_of_core; [exact L2|exact L1]).
  destruct Hs as [[H1 H2 H3 H4] HS HR HI]. split; [split; [split|done|done|done]|split; [done|]].
  - rewrite Ek. intros p' pc b q [[<- <-]|[_ Hp]]%lookup_insert_Some Hr; [now rewrite Href in Hr|now apply (H1 p' pc)].
  - rewrite Ek. intros q gc p' b Hq Hin. destruct (H2 q gc p' b Hq Hin) as (pc & Hp & Hr). exists pc. split; [|done].
    rewrite lookup_insert_ne; [done|congruence].
  - exact H3.
  - rewrite Ek. intros p' pc [[<- <-]|[_ Hp]]%lookup_insert_Some; [exact L4|now apply (H4 p')].
  - rewrite <- Hv. unfold view, v_connect, v_with_invite. cbn [v_groups v_rf v_invite v_alloc v_mgr v_dbGroups v_dbMembers]. rewrite Ek. f_equal.
    + extensionality p'. extensionality b. unfold rf. rewrite Ek. destruct (decide (p' = me)) as [->|Hne]; [|now rewrite lookup_insert_ne].
      rewrite lookup_insert_eq, Hk. exact (Href b).
    + rewrite fmap_insert. cbn. now rewrite L3.
Qed.
Definition rf_set (me : Z) (b : bool) (o : option Z) (R : Z -> bool -> option Z) : Z -> bool -> option Z :=
  fun p' b' => if decide ((p', b') = (me, b)) then o else R p' b'.
Lemma spec_SetGroup v me q sub :
  v_groups v !! q <> None -> v_invite v !! me <> None -> sub_ok sub ->
  yields v (SetGroup me q sub) tt (v_with_rf (rf_set me false (Some q) (v_rf v)) v).
Proof.
  intros Hq Hp Hs. apply relinks_yields. intros w HL Hv. rewrite <- Hv. apply relinks_SetGroup; try done; [now apply (view_player _ v)|now apply (view_group _ v)].
Qed.
Lemma spec_SetBattleground v me q sub :
  v_groups v !! q <> None -> v_invite v !! me <> None -> sub_ok sub ->
  yields v (SetBattlegroundOrBattlefieldRaid me q sub) tt
    (v_with_rf (fun p' b' => if decide (p' = me) then (if b' then v_rf v me false else Some q) else v_rf v p' b') v).
Proof.
  intros Hq Hp Hs. apply relinks_yields. intros w HL Hv. rewrite <- Hv. apply relinks_SetBattleground; try done; [now apply (view_player _ v)|now apply (view_group _ v)].
Qed.
Lemma member_sub hb hn v q gc g p :
  Inv hb hn v -> v_groups v !! q = Some gc -> bare (group_core g) = gc -> p ∈ members gc -> sub_ok (GetMemberGroup g p).
Proof.
  intros HI Hq Eg Hp. unfold GetMemberGroup, getMemberSlot. pose proof (find_slot_core g p) as E. rewrite Eg in E.
  destruct (find_member p gc Hp) as (i & k & Ef & Hl). rewrite Ef in E. destruct (find_slot p (m_memberSlots g)) as [[j s]|]; [|done]. cbn in E |- *.
  injection E as _ _ <-. pose proof (so_subs _ _ (i_slots _ _ _ HI q gc Hq) (p, k)) as H. pose proof (sub_limit_max (c_raid gc)) as Hm.
  unfold sub_ok, MAX_RAID_SUBGROUPS in *. cbn in H. change (Z.quot MAXRAIDSIZE MAXGROUPSIZE) with 8 in Hm.
  assert (0 <= k < sub_limit (c_raid gc)) by (apply H; now apply list_elem_of_lookup_2 in Hl). lia.
Qed.
Lemma spec_leader_flag v me (b : bool) : v_invite v !! me <> None -> yields v (alter_player me (set_gp_leader b)) tt v.
Proof. intros Hp. apply spec_alter_player_same; [done|]. now intros x. Qed.
(** The row of the table names the group he is a member of. *)
Lemma own_row hb hn v me :
  Inv hb hn v -> is_u 32 me ->
  match v_dbMembers v !! GUID_LOPART me with
  | Some e => exists q gc, hn me = Some q /\ v_groups v !! q = Some gc /\ me ∈ members gc /\ GetGroupByDbStoreId (v_mgr v) e.1 = Some q
  | None => hn me = None
  end.
Proof.
  intros HI Hu. rewrite player_low by done. pose proof (i_rows _ _ _ HI me) as Hrows. destruct (v_dbMembers v !! me) as [e|].
  - destruct (proj1 (Hrows e) eq_refl) as (q & gc & Hn & Hq & Hin & Es). exists q, gc. pose proof (slot_member_in _ _ _ Hin) as Hm. split_and!; try done.
    destruct (i_live _ _ _ HI false me q Hn) as (g & Hg & Ep). rewrite Hq in Hg. injection Hg as <-.
    apply (st_store _ _ _ _ (i_stored _ _ _ HI) q (c_guid gc)); [|exact (member_registered hb hn v q gc me HI Hq Hm)].
    rewrite lookup_fmap, Hq. cbn. unfold settings. now rewrite Es, Ep.
  - destruct (hn me) as [q|] eqn:Hn; [|done]. destruct (i_live _ _ _ HI false me q Hn) as (gc & Hq & Ep).
    assert (Hm : me ∈ members gc) by (rewrite (i_members _ _ _ HI q gc me Hq), Ep; exact Hn).
    destruct (find_member me gc Hm) as (i & k & _ & Hl). apply list_elem_of_lookup_2 in Hl.
    assert (H : None = Some (c_store gc, k)) by (apply Hrows; exists q, gc; split_and!; [done|exact Hq|exact Hl|reflexivity]). discriminate H.
Qed.
Lemma spec_row {B} v me (k : gmap Z MemberRow -> G B) Q :
  (forall rows, member_core <$> rows !! GUID_LOPART me = v_dbMembers v !! GUID_LOPART me -> spec v (k rows) Q) -> spec v (bind (gets w_dbMembers) k) Q.
Proof. intros H. apply (spec_gets _ _ _ (fun rows => member_core <$> rows !! GUID_LOPART me = v_dbMembers v !! GUID_LOPART me)); [|done]. intros w <-. cbn. now rewrite lookup_fmap. Qed.
Lemma v_same_rf v : v_with_rf (v_rf v) v = v.
Proof. now destruct v. Qed.
Lemma spec_load_end v me :
  v_invite v !! me <> None -> yields v (let! p := player_at me in match gp_group p with
    | None => alter_player me (set_gp_leader false)
    | Some q => let! g := group_at q in when (negb (IsLeader g me)) (alter_player me (set_gp_leader false)) end) tt v.
Proof.
  intros Hp. apply spec_with. intros c Hs Hv. apply spec_player_at; [done|]. intros x Hf _ _. destruct (gp_group x) as [q|]; [|now apply spec_leader_flag].
  pose proof (view_rf_live c v me false q Hs Hv Hf) as Hq. destruct (v_groups v !! q) as [gc|] eqn:E; [|done]. eapply spec_group_at; [exact E|]. intros g _.
  apply yields_when; [|done]. intros _. now apply spec_leader_flag.
Qed.
Lemma spec_LoadGroup hb hn v me :
  Inv hb hn v -> is_u 32 me -> v_rf v me false = None ->
  yields (v_connect me v) (LoadGroup me) tt (v_with_rf (rf_set me false (hn me) (v_rf v)) (v_connect me v)).
Proof.
  intros HI Hu Hnone. set (v1 := v_connect me v). assert (Hp : v_invite v1 !! me <> None) by (cbn; now rewrite lookup_insert_eq).
  unfold LoadGroup. apply (spec_row v1 me). intros rows Hrow. apply spec_mgr. change (v_mgr v1) with (v_mgr v). change (v_dbMembers v1) with (v_dbMembers v) in Hrow.
  pose proof (own_row hb hn v me HI Hu) as Hown. rewrite <- Hrow in Hown.
  set (v2 := v_with_rf _ v1). assert (Hp2 : v_invite v2 !! me <> None) by exact Hp.
  apply (yields_bind _ _ _ tt v2); [|now apply (spec_load_end v2 me)]. destruct (rows !! GUID_LOPART me) as [row|]; cbn [fmap option_fmap option_map] in Hown.
  - destruct Hown as (q & gc & Hn & Hq & Hm & Hs). change (member_core row).1 with (mr_guid row) in Hs. rewrite Hs. assert (Hq1 : v_groups v1 !! q = Some gc) by exact Hq.
    eapply spec_group_at; [exact Hq1|]. intros g Eg. eapply yields_bind; [apply yields_when; [intros _; now apply spec_leader_flag|reflexivity]|].
    pose proof (member_sub hb hn v q gc g me HI Hq Eg Hm) as Hsub.
    eapply yields_bind; [apply spec_SetGroup; [rewrite Hq1; discriminate|exact Hp|exact Hsub]|].
    change (v_rf v1) with (v_rf v). rewrite <- Hn. fold v2. apply spec_player_at; [done|]. intros x _ _ _.
    apply yields_when; [|done]. intros _. apply spec_alter_player_same; [done|]. now intros y.
  - replace v2 with v1; [apply yields_ret|]. unfold v2. rewrite Hown. rewrite <- (v_same_rf v1) at 1. f_equal.
    extensionality p. extensionality b. unfold rf_set. change (v_rf v1) with (v_rf v). case_decide as E; [|done]. injection E as -> ->. done.
Qed.
(** His references are those of his groups. *)
Lemma Inv_connect hb hn v me R :
  Inv hb hn v -> v_invite v !! me = None -> is_u 32 me -> (forall b, R me b = canon (hb me) (hn me) b) -> (forall p b, p <> me -> R p b = v_rf v p b) ->
  Inv hb hn (v_with_rf R (v_connect me v)).
Proof.
  intros HI Hme Hu HR HR'. destruct HI as [H1 H2 H3 H4 H5 H6 H7 H8 H9 H10 H11 H12].
  split; try done; cbn [v_groups v_rf v_mgr v_dbGroups v_dbMembers v_alloc v_invite v_with_rf v_connect v_with_invite].
  - intros p b. destruct (decide (p = me)) as [->|Hne]; [intros _; apply HR|]. rewrite lookup_insert_ne by done. rewrite HR' by done. apply H3.
  - intros p. destruct (decide (p = me)) as [->|Hne]; [done|]. rewrite lookup_insert_ne by done. apply H6.
  - intros p q. destruct (decide (p = me)) as [->|Hne]; [|rewrite lookup_insert_ne by done; apply H7].
    rewrite lookup_insert_eq, <- H7, Hme. done.
  - intros p q. destruct (decide (p = me)) as [->|Hne]; [now rewrite lookup_insert_eq|]. rewrite lookup_insert_ne by done. apply H8.
Qed.
(** The battleground and side a player is still in, as the login finds it. *)
Definition still_in (v : View) (me : Z) (current : option (Z * bool)) : Prop :=
  match current with
  | Some k => exists q gc, v_bgRaids v !! k = Some q /\ v_groups v !! q = Some gc /\ me ∈ members gc
  | None => outside_bg v me
  end.
Lemma spec_Login v me p current :
  good v -> v_invite v !! me = None -> is_u 32 me -> loaded p -> still_in v me current ->
  spec v (LoginPlayer me p current) (fun _ v' => good v' /\ same_players v v' /\ v_invite v' !! me <> None /\ v_groups v' = v_groups v /\ v_bgRaids v' = v_bgRaids v).
Proof.
  intros (hb & hn & HI & HL) Hme Hu Hp Hraid. apply spec_with. intros c0 Hs0 Hv0.
  assert (Hnone : forall b, v_rf v me b = None).
  { intros b. destruct (v_rf v me b) as [q|] eqn:E; [|done]. now destruct (view_rf_connected c0 v me b q Hs0 Hv0 E). }
  assert (Hsame : forall R, same_players v (v_with_rf R (v_connect me v)) /\ v_invite (v_with_rf R (v_connect me v)) !! me <> None /\
    v_groups (v_with_rf R (v_connect me v)) = v_groups v /\ v_bgRaids (v_with_rf R (v_connect me v)) = v_bgRaids v).
  { intros R. split; [|split; [cbn; now rewrite lookup_insert_eq|done]]. intros x Hx. cbn. destruct (decide (x = me)) as [->|Hne]; [now rewrite lookup_insert_eq|now rewrite lookup_insert_ne]. }
  unfold LoginPlayer. eapply yields_bind; [now apply spec_connect|]. eapply yields_bind; [now apply (spec_LoadGroup hb hn v me HI Hu)|].
  set (R := rf_set me false (hn me) (v_rf v)). set (v1 := v_with_rf R (v_connect me v)).
  assert (HR : forall b, R me b = if b then None else hn me) by (intros []; unfold R, rf_set; case_decide; congruence).
  assert (HR' : forall p' b, p' <> me -> R p' b = v_rf v p' b) by (intros; unfold R, rf_set; case_decide; congruence).
  destruct current as [[bg side]|].
  - destruct Hraid as (q & gc & Hside & Hq & Hm). destruct (side_group hb hn v bg side q HI HL Hside) as (gc' & Hq' & _ & Ep & _).
    rewrite Hq in Hq'. injection Hq' as <-. assert (Hb : hb me = Some q) by (rewrite (i_members _ _ _ HI q gc me Hq), Ep in Hm; exact Hm).
    assert (Hq1 : v_groups v1 !! q = Some gc) by exact Hq. unfold AddOrSetPlayerToCorrectBgGroup. apply spec_GetBgRaid.
    change (v_bgRaids v1) with (v_bgRaids v). rewrite Hside.
    eapply spec_group_at; [exact Hq1|]. intros g Eg. rewrite (proj2 (IsMember_in g me)) by now rewrite Eg.
    pose proof (member_sub hb hn v q gc g me HI Hq Eg Hm) as Hsub.
    eapply spec_conseq; [apply spec_SetBattleground; [rewrite Hq1; discriminate|exact (proj1 (proj2 (Hsame R)))|exact Hsub]|]. intros a v2 [_ ->].
    set (R2 := fun p' b' => _). change (v_with_rf R2 v1) with (v_with_rf R2 (v_connect me v)). split; [|apply Hsame].
    exists hb, hn. split; [|exact HL]. apply (Inv_connect hb hn v me R2 HI Hme Hu).
    + intros b. unfold R2. rewrite decide_True by done. rewrite Hb. change (v_rf v1) with R. rewrite HR. now destruct b.
    + intros p' b Hne. unfold R2. rewrite decide_False by done. now apply HR'.
  - apply spec_ret. split; [|apply Hsame]. exists hb, hn. split; [|exact HL]. apply (Inv_connect hb hn v me R HI Hme Hu); [|exact HR'].
    intros b. apply (outside_bg_home hb hn v me HI) in Hraid. rewrite HR, Hraid. now destruct b.
Qed.

(** ** Logging out *)

Lemma spec_unlink v me b : v_invite v !! me <> None -> yields v (unlink me b) tt (v_with_rf (rf_set me b None (v_rf v)) v).
Proof. intros Hp. apply relinks_yields. intros w HL Hv. rewrite <- Hv. apply relinks_unlink; [done|]. now apply (view_player _ v). Qed.
Definition v_disconnect (me : Z) (v : View) : View := v_with_invite (base.delete me (v_invite v)) v.
Lemma spec_disconnect v me :
  (forall b, v_rf v me b = None) -> yields v (modify (fun w => with_players (base.delete me (w_players w)) w)) tt (v_disconnect me v).
Proof.
  intros Hr w Hs Hv. exists tt, (with_players (base.delete me (w_players w)) w). split; [done|].
  assert (Ek : k_players (core (with_players (base.delete me (w_players w)) w)) = base.delete me (k_players (core w))) by (cbn; apply fmap_delete).
  destruct Hs as [[H1 H2 H3 H4] HS HR HI]. split; [split; [split|done|done|done]|split; [done|]].
  - rewrite Ek. intros p pc b q [_ Hp]%lookup_delete_Some Hpr. now apply (H1 p pc).
  - rewrite Ek. intros q gc p b Hq Hin. destruct (H2 q gc p b Hq Hin) as (pc & Hp & Hpr). exists pc. split; [|done].
    rewrite lookup_delete_ne; [done|]. intros <-. specialize (Hr b). rewrite <- Hv in Hr. cbn [v_rf view] in Hr. unfold rf in Hr. rewrite Hp in Hr. cbn in Hr. congruence.
  - exact H3.
  - rewrite Ek. intros p pc [_ Hp]%lookup_delete_Some. now apply (H4 p).
  - rewrite <- Hv. unfold view, v_disconnect, v_with_invite. cbn [v_groups v_rf v_invite v_alloc v_mgr v_dbGroups v_dbMembers]. rewrite Ek. f_equal.
    + extensionality p. extensionality b. unfold rf. rewrite Ek. destruct (decide (p = me)) as [->|Hne]; [|now rewrite lookup_delete_ne].
      rewrite lookup_delete_eq. specialize (Hr b). rewrite <- Hv in Hr. symmetry. exact Hr.
    + apply fmap_delete.
Qed.
Lemma Inv_disconnect hb hn v me R :
  Inv hb hn v -> v_invite v !! me = Some None -> (forall p b, p <> me -> R p b = v_rf v p b) -> Inv hb hn (v_disconnect me (v_with_rf R v)).
Proof.
  intros HI Hme HR. assert (Hd : forall p o, base.delete me (v_invite v) !! p = Some o <-> p <> me /\ v_invite v !! p = Some o).
  { intros p o. rewrite lookup_delete_Some. naive_solver. }
  destruct HI as [H1 H2 H3 H4 H5 H6 H7 H8 H9 H10 H11 H12].
  split; try done; cbn [v_groups v_rf v_mgr v_dbGroups v_dbMembers v_alloc v_invite v_with_rf v_disconnect v_with_invite].
  - intros p b Hp. destruct (decide (p = me)) as [->|Hne]; [now rewrite lookup_delete_eq in Hp|]. rewrite lookup_delete_ne in Hp by done. rewrite HR by done. now apply H3.
  - intros p Hp. apply H6. destruct Hp as [Hp|Hp]; [left|now right]. destruct (decide (p = me)) as [->|Hne]; [now rewrite lookup_delete_eq in Hp|]. now rewrite lookup_delete_ne in Hp.
  - intros p q. rewrite Hd, <- H7. split; [tauto|]. intros E. split; [|done]. intros ->. congruence.
  - intros p q E. apply Hd in E as [_ E]. now apply (H8 p q).
Qed.
(** The side of the battleground he is in has him in its group. *)
Definition on_list (v : View) (me : Z) (visit : option BgVisit) : Prop :=
  forall b q, visit = Some b -> bv_participant b = true -> v_bgRaids v !! (bv_id b, bv_side b) = Some q ->
  exists gc, v_groups v !! q = Some gc /\ me ∈ members gc.
(** Whether he leaves its group when he logs out. *)
Definition leaves (b : BgVisit) : bool :=
  bv_participant b &&
  (negb (bv_arena b) ||
   match bv_status b with
   | STATUS_WAIT_JOIN => false
   | STATUS_IN_PROGRESS => negb (bv_spectator b) && (bv_ended b || (bv_alive b <=? 1) && negb (bv_enemies b =? 0))
   | _ => true
   end).
Definition leave_at_logout (me : Z) (visit : option BgVisit) : G unit :=
  match visit with Some b => when (leaves b) (RemovePlayerAtLeave_group (bv_id b) (bv_side b) me) | None => ret tt end.
Lemma logout_visit me b w : (let! b := LeaveBattleground me b in EventPlayerLoggedOut me b) w = leave_at_logout me (Some b) w.
Proof.
  unfold leave_at_logout, leaves, EventPlayerLoggedOut, LeaveBattleground.
  destruct b as [id side p a st sp e al en]. cbn [bv_id bv_side bv_participant bv_arena bv_status bv_spectator bv_ended bv_alive bv_enemies].
  destruct p, a, st, sp, e; cbv -[RemovePlayerAtLeave_group Z.leb Z.eqb]; try reflexivity; destruct (al <=? 1), (en =? 0); try reflexivity;
    destruct (RemovePlayerAtLeave_group id side me w) as [[[]|[]|] w']; reflexivity.
Qed.
Lemma spec_leave_at_logout v me visit : good v -> on_list v me visit -> spec v (leave_at_logout me visit) (fun _ v' => kept v v').
Proof.
  intros Hgood Hl. pose proof Hgood as (hb & hn & HI & HL). destruct visit as [b|]; [|apply spec_ret; now apply kept_refl]. cbn [leave_at_logout].
  destruct (leaves b) eqn:El; cbn [when]; [|apply spec_ret; now apply kept_refl]. apply andb_prop in El as [Hp _].
  destruct (v_bgRaids v !! (bv_id b, bv_side b)) as [q|] eqn:Hs.
  - destruct (Hl b q eq_refl Hp Hs) as (gc & Hq & Hm). eapply spec_conseq; [now apply (spec_leave_bg hb hn v _ _ q gc me)|].
    intros a v'. now apply left_side_good.
  - unfold RemovePlayerAtLeave_group. apply spec_GetBgRaid. rewrite Hs. apply spec_ret. now apply kept_refl.
Qed.
(** The logout after the battleground. *)
Definition logout_rest (me : Z) (socket : bool) : G unit := LogoutPlayer me socket None.
Lemma logout_split me socket visit w : LogoutPlayer me socket visit w = (do! leave_at_logout me visit in logout_rest me socket) w.
Proof.
  destruct visit as [b|]; [|reflexivity]. unfold logout_rest, LogoutPlayer. unfold bind at 1. rewrite logout_visit. reflexivity.
Qed.
Definition left_behind (me : Z) (v v' : View) : Prop := forall p, p <> me -> v_invite v !! p <> None -> v_invite v' !! p <> None.
Lemma spec_logout_split v me socket visit Q :
  spec v (do! leave_at_logout me visit in logout_rest me socket) Q -> spec v (LogoutPlayer me socket visit) Q.
Proof. intros H w Hs Hv. rewrite logout_split. now apply H. Qed.
Lemma spec_logout_rest v me socket :
  good v -> v_invite v !! me <> None ->
  spec v (logout_rest me socket) (fun _ v' => good v' /\ left_behind me v v' /\ v_invite v' !! me = None).
Proof.
  intros Hgood Hme. unfold logout_rest, LogoutPlayer. eapply yields_bind; [apply yields_ret|]. eapply spec_bind; [now apply spec_UninviteFromGroup|]. intros [] v1 (Hgood1 & Hinv1 & Hs1).
  assert (Hme1 : v_invite v1 !! me <> None) by now rewrite Hinv1.
  pose proof Hgood1 as (hb & hn & HI & HL). apply spec_player_at; [done|]. intros x Hf _ _.
  apply (spec_bind _ _ _ (fun _ v2 => kept v1 v2 /\ v_invite v2 !! me = Some None)).
  { assert (H1 : kept v1 v1 /\ v_invite v1 !! me = Some None) by (split; [now apply kept_refl|done]).
    destruct (gp_group x) as [q|]; [|now apply spec_ret]. destruct (rf_member hb hn v1 me false q HI Hme1 Hf) as (gc & Hq & Hk & _).
    eapply spec_group_at; [exact Hq|]. intros g _. destruct (negb _ && _); cbn [when]; [|now apply spec_ret].
    eapply spec_bind; [now apply (spec_remove_kept hb hn v1 q me gc)|]. intros b v2 [H2 H2']. apply spec_ret. split; [done|now apply H2']. }
  intros [] v2 [[Hgood2 Hs2] Hinv2]. assert (Hme2 : v_invite v2 !! me <> None) by now rewrite Hinv2. apply spec_with. intros c0 Hs0 Hv0.
  apply spec_player_at; [done|]. intros y Hf2 _ _. eapply yields_bind with (v1 := v2).
  { destruct (gp_group y) as [q|]; [|apply yields_ret]. pose proof (view_rf_live c0 v2 me false q Hs0 Hv0 Hf2) as Hq.
    eapply yields_bind; [now apply spec_SendUpdate|now apply spec_ResetMaxEnchantingLevel]. }
  eapply yields_bind; [now apply spec_unlink|]. eapply yields_bind; [now apply spec_unlink|].
  set (R := rf_set me false None _). assert (HR : forall b, R me b = None) by (intros []; unfold R, rf_set; cbn; repeat case_decide; congruence).
  eapply spec_conseq; [apply spec_disconnect; exact HR|]. intros [] v' [_ ->].
  change (v_with_rf R (v_with_rf (rf_set me true None (v_rf v2)) v2)) with (v_with_rf R v2). destruct Hgood2 as (hb2 & hn2 & HI2 & HL2). split_and!.
  - exists hb2, hn2. split; [|exact HL2]. apply (Inv_disconnect hb2 hn2 v2 me R HI2 Hinv2). intros p b Hne.
    unfold R, rf_set. cbn. repeat case_decide; congruence.
  - intros p Hne Hp. cbn. rewrite lookup_delete_ne by done. now apply Hs2, Hs1.
  - cbn. apply lookup_delete_eq.
Qed.
Lemma spec_Logout v me socket visit :
  good v -> v_invite v !! me <> None -> on_list v me visit ->
  spec v (LogoutPlayer me socket visit) (fun _ v' => good v' /\ left_behind me v v' /\ v_invite v' !! me = None).
Proof.
  intros Hgood Hme Hl. apply spec_logout_split. eapply spec_bind; [now apply spec_leave_at_logout|].
  intros [] v1 [Hgood1 Hs1]. eapply spec_conseq; [apply spec_logout_rest; [done|now apply Hs1]|]. intros a v' (H1 & H2 & H3). split_and!; try done.
  intros p Hne Hp. now apply H2, Hs1.
Qed.
End Play.
