(* ===== verification/GroupForm.v ===== *)
(** * Groups: the group of an accepted proposal
    (src/server/game/DungeonFinding/LFGMgr.cpp MakeNewGroup, with what it calls of
    src/server/game/Groups/Group.cpp)

    The dungeon finder takes the players of a proposal out of their groups and puts
    them together in a new one, or in the one it completes.  What this asks of the
    finder is the class [FormScripts]; the manager of [LfgMgr] is its instance. *)

From stdpp Require Import base gmap list.
From Stdlib Require Import ZArith Lia.
From S2P Require Import Prelude StdMap ObjectGuid LfgData LfgDungeons LfgMgr LfgInvariant LfgScripts ActionLogic GroupTypes GroupMgr GroupLoot GroupLootInv GroupWorld Group GroupFrame GroupCore GroupView GroupFinder GroupOps GroupInv GroupReach GroupRequests GroupPlay.
#[local] Open Scope Z_scope.

Import LFGMgr.

Class FormScripts `{scripts : GroupScripts} := mkFormScripts {
  fs_GetLFGDungeon : Script -> Z -> option LFGDungeonData;
  fs_GetGroup : Script -> Z -> Z;
  fs_SetState : Z -> LfgState -> Script -> Script;
  fs_SetDungeon : Z -> Z -> Script -> Script;
  fs_SaveToDB : Z -> Z -> Script -> Script;
  fs_cooldown : Z -> Script -> Script;
  fs_TeleportPlayer : Traveller -> option GroupView -> Script -> Script
}.
(** None of it breaks the scripts. *)
Class FormLaws `{forming : FormScripts} := {
  fl_state g st s : script_ok s -> script_ok (fs_SetState g st s);
  fl_dungeon g d s : script_ok s -> script_ok (fs_SetDungeon g d s);
  fl_save g store s : script_ok s -> script_ok (fs_SaveToDB g store s);
  fl_cooldown p s : script_ok s -> script_ok (fs_cooldown p s);
  fl_teleport t g s : script_ok s -> script_ok (fs_TeleportPlayer t g s)
}.

Section Form.
Context `{scripts : GroupScripts} `{outside : GroupOutside} `{loots : LootView} `{forming : !FormScripts}.

Definition on_script (f : Script -> Script) : G unit := modify (fun w => with_script (f (w_script w)) w).
Definition UPD_GROUP_DIFFICULTY (store d : Z) : G unit :=
  alter_dbGroup store (fun r => mkGroupRow (r_leaderGuid r) (r_lootMethod r) (r_looterGuid r) (r_lootThreshold r) (r_icons r) (r_groupType r)
    d (r_raiddifficulty r) (r_masterLooterGuid r) (r_guid r) (r_lfg r)).
Definition SetLfgRoles (q guid roles : Z) : G unit :=
  let! g := group_at q in
  if bool_decide (getMemberSlot g guid = None) then ret tt
  else do! alter_group q (alter_slot guid (set_s_roles roles)) in SendUpdate q.
Definition SetDungeonDifficulty (q d : Z) : G unit :=
  do! alter_group q (set_m_dungeonDifficulty d) in
  let! g := group_at q in
  do! when (negb (is_pvp g)) (UPD_GROUP_DIFFICULTY (m_dbStoreId g) (u8 d)) in
  for_each (m_memberMgr g) (fun r => do! alter_player r.1 (set_gp_dungeonDifficulty d) in tell (SendDungeonDifficulty r.1)).
(** A player who is in the world is brought into the dungeon. *)
Definition TeleportPlayer_in (guid : Z) : G unit :=
  let! view := removed_view guid in
  match view with Some (t, grp) => on_script (fs_TeleportPlayer t grp) | None => ret tt end.

(** The leader of the proposal in front, the others in the order of the map. *)
Definition form_order (p : LfgProposal) : list Z :=
  foldl (fun l guid => if guid =? p_leader p then guid :: l else l ++ [guid]) [] (keys Z.le (p_players p)).
Definition to_teleport (p : LfgProposal) (s : Script) : list Z :=
  filter (fun guid => isNew p = true \/ fs_GetGroup s guid <> p_group p) (keys Z.le (p_players p)).
Definition new_lfg_group (pguid : Z) : G Z :=
  let! q := new_group_object in
  do! ConvertToLFG q in
  let! _ := Create q pguid in
  let! g := group_at q in
  do! on_script (fs_SetState (m_guid g) LFG_STATE_PROPOSAL) in
  do! modify (fun w => with_mgr (AddGroup q g (w_mgr w)) w) in
  ret q.
(** One player: out of the group he is in, and into the one that is formed. *)
Definition form_member (p : LfgProposal) (d : LFGDungeonData) (grp : option Z) (pguid : Z) : G (option Z) :=
  let! o := FindPlayer pguid in
  match o with
  | None => ret grp
  | Some x =>
    do! match gp_group x with
        | Some q' => when (negb (bool_decide (grp = Some q'))) (let! _ := RemoveMember q' pguid GROUP_REMOVEMETHOD_DEFAULT 0 None in ret tt)
        | None => ret tt
        end in
    let! q := match grp with
              | None => new_lfg_group pguid
              | Some q => do! when (negb (bool_decide (gp_group x = Some q))) (let! _ := AddMember q pguid in ret tt) in ret q
              end in
    let! pp := of_option (p_players p !! pguid) in
    do! SetLfgRoles q pguid (role pp) in
    do! when (d_type d =? LFG_TYPE_RANDOM) (on_script (fs_cooldown pguid)) in
    ret (Some q)
  end.
Definition found_group (m : GroupMgr) (p : LfgProposal) : option Z :=
  if p_group p =? 0 then None else GetGroupByGUID m (GUID_LOPART (p_group p)).
Definition MakeNewGroup (p : LfgProposal) : G unit :=
  let! s := gets w_script in
  let! d := of_option (fs_GetLFGDungeon s (dungeonId p)) in
  let! m := gets w_mgr in
  let! grp := fold_m (form_member p d) (form_order p) (found_group m p) in
  let! q := of_option grp in
  do! SetDungeonDifficulty q (difficulty d) in
  let! g := group_at q in
  do! on_script (fs_SetDungeon (m_guid g) (Entry d)) in
  do! on_script (fs_SetState (m_guid g) LFG_STATE_DUNGEON) in
  do! on_script (fs_SaveToDB (m_guid g) (m_dbStoreId g)) in
  do! for_each (to_teleport p s) TeleportPlayer_in in
  SendUpdate q.
End Form.

(** ** What its parts do *)

Section Parts.
Context `{scripts : GroupScripts} `{outside : GroupOutside} `{loots : LootView} `{forming : !FormScripts}.
Context `{laws : !GroupScriptLaws} `{form_laws : !FormLaws}.

Lemma spec_on_script v f : (forall s, script_ok s -> script_ok (f s)) -> yields v (on_script f) tt v.
Proof.
  intros Hf w Hs Hv. exists tt, (with_script (f (w_script w)) w). split; [done|]. split; [|now rewrite <- Hv].
  destruct Hs as [HL HS HR HI]. split; [|now apply Hf|exact HR|exact HI]. now apply (Links_same_refs (core w)); eauto.
Qed.
Lemma spec_SetLfgRoles v q p roles : v_groups v !! q <> None -> yields v (SetLfgRoles q p roles) tt v.
Proof.
  intros Hq. unfold SetLfgRoles. apply spec_group_core; [done|]. intros _ g _ _ _. case_bool_decide; [apply yields_ret|].
  eapply yields_bind; [apply spec_alter_group_same; [done|]; intros h; now apply alter_slot_core|]. now apply spec_SendUpdate.
Qed.
Lemma spec_SetDungeonDifficulty v q d : v_groups v !! q <> None -> yields v (SetDungeonDifficulty q d) tt v.
Proof.
  intros Hq. unfold SetDungeonDifficulty. eapply yields_bind; [now apply spec_alter_group_same|].
  apply spec_group_core; [done|]. intros c g Hs Hv Hk. eapply yields_bind; [apply yields_when; [intros _; apply spec_alter_dbGroup|reflexivity]|].
  assert (Hf : forall r, r ∈ m_memberMgr g -> v_invite v !! r.1 <> None).
  { intros [p b] Hr. destruct (ln_from _ (sn_links _ Hs) q (group_core g) p b Hk Hr) as (pc & Hp & _). rewrite <- Hv. cbn. now rewrite lookup_fmap, Hp. }
  clear Hs Hv Hk c. induction (m_memberMgr g) as [|r l IH]; cbn [for_each]; [apply yields_ret|].
  eapply yields_bind; [|apply IH; intros r' Hr'; apply Hf; now right].
  eapply yields_bind; [apply spec_alter_player_same; [apply Hf; left|done]|apply spec_tell].
Qed.
Lemma spec_Teleport_in v p : yields v (TeleportPlayer_in p) tt v.
Proof.
  unfold TeleportPlayer_in. eapply spec_bind; [apply spec_removed_view|]. intros [[t grp]|] v' ->; [|apply yields_ret].
  apply spec_on_script. intros s. apply fl_teleport.
Qed.

(** A new group has its first player as leader and only member. *)
Record fresh_lfg (hn : Z -> option Z) (v : View) (p q : Z) (hn' : Z -> option Z) (gc : GroupCore) (v' : View) : Prop := mk_fresh {
  fr_new : v_groups v !! q = None; fr_home : hn' = upd hn p (Some q);
  fr_at : v_groups v' !! q = Some gc; fr_registered : registered gc; fr_members : members gc = [p]; fr_leader : c_leader gc = p;
  fr_kind : c_pvp gc = false /\ c_raid gc = false /\ c_lfg gc = true;
  fr_others : forall j, j <> q -> v_groups v' !! j = v_groups v !! j;
  fr_invite : v_invite v' = v_invite v
}.
Lemma spec_new_lfg_group hb hn v p :
  Inv hb hn v -> Led v -> hn p = None -> v_invite v !! p = Some None -> ids_left (v_mgr v) ->
  spec v (new_lfg_group p) (fun q v' => exists hn' gc, Inv hb hn' v' /\ Led v' /\ fresh_lfg hn v p q hn' gc v').
Proof.
  intros HI HL Hn Hinv Hids. set (g0 := bare (group_core new_group)). set (q := v_alloc v). pose proof (alloc_none hb hn v HI) as Hnew.
  unfold new_lfg_group. eapply yields_bind; [apply spec_new_group; intros; now apply (alloc_fresh hb hn)|]. fold g0. fold (v_new g0 v). fold q.
  eapply yields_bind; [apply (spec_ConvertToLFG _ q g0); cbn; now rewrite lookup_insert_eq|]. unfold q. rewrite v_on_new. fold q.
  set (g1 := c_set_lfg true g0). pose proof (Inv_new hb hn v g1 HI ltac:(done) eq_refl) as HI1.
  assert (H1 : v_groups (v_new g1 v) !! q = Some g1) by (cbn; now rewrite lookup_insert_eq).
  assert (Ho1 : forall j, j <> q -> v_groups (v_new g1 v) !! j = v_groups v !! j) by (intros j Hne; cbn; now rewrite lookup_insert_ne).
  assert (Ei1 : v_invite (v_new g1 v) = v_invite v) by done. assert (Em1 : v_mgr (v_new g1 v) = v_mgr v) by done.
  set (v1 := v_new g1 v) in *. clearbody v1. assert (Hr : ~ registered g1) by (unfold registered; intros H; now apply H).
  eapply spec_bind; [apply (spec_Create_inv hb hn v1 q p g1 HI1 H1 Hr); [exact Hn|now rewrite Ei1|now rewrite Em1]|].
  intros b v2 [E2 HI2]. change (joined (c_pvp g1) p q hb hn) with (hb, upd hn p (Some q)) in HI2. cbn [fst snd] in HI2.
  pose proof (created_at q p g1 v1 H1) as H2. rewrite <- E2 in H2. set (gc := first_member q p g1 v1) in *.
  assert (Hu : is_u 32 (NextGroupId (v_mgr v1))) by apply (st_next _ _ _ _ (i_stored _ _ _ HI1)).
  assert (Hrc : registered gc) by now apply created_registered.
  assert (HL2 : Led v2). { rewrite E2. apply Led_created; try done. intros j g Hne Hj. rewrite Ho1 in Hj by done. exact (HL j g Hj). }
  assert (Ei2 : v_invite v2 = v_invite v).
  { rewrite E2, <- Ei1. apply (add_players q p 0 _ (v_create q p g1 v1)). change (v_invite v1 !! p = Some None). now rewrite Ei1. }
  assert (Ho2 : forall j, j <> q -> v_groups v2 !! j = v_groups v !! j).
  { intros j Hne. rewrite E2, <- Ho1 by done. unfold v_created, v_add. cbn. rewrite lookup_alter_ne by done. unfold v_create. cbn. now rewrite lookup_alter_ne. }
  eapply spec_group_at; [exact H2|]. intros g Eg. eapply yields_bind; [apply spec_on_script; intros s; apply fl_state|].
  eapply spec_bind; [now apply (spec_AddGroup hb (upd hn p (Some q)) v2 q gc g)|]. intros a v3 (HI3 & HL3 & Eg3 & Ei3).
  apply spec_ret. exists (upd hn p (Some q)), gc. split; [done|]. split; [done|]. split; try done.
  - now rewrite Eg3.
  - intros j Hne. rewrite Eg3. now apply Ho2.
  - now rewrite Ei3.
Qed.

(** A player leaves a group that is no battleground's. *)
Record went (hb hn : Z -> option Z) (v : View) (p q : Z) (hn' : Z -> option Z) (v' : View) : Prop := mk_went {
  we_inv : Inv hb hn' v'; we_led : Led v'; we_home : hn' p = None; we_ids : ids_left (v_mgr v) -> ids_left (v_mgr v');
  we_others : forall j, j <> q -> v_groups v' !! j = v_groups v !! j;
  we_players : forall x, v_invite v !! x = None <-> v_invite v' !! x = None;
  we_uninvited : stays_uninvited v v'
}.
Lemma spec_go hb hn v q p gc :
  Inv hb hn v -> Led v -> v_groups v !! q = Some gc -> c_pvp gc = false -> hn p = Some q ->
  spec v (let! _ := RemoveMember q p GROUP_REMOVEMETHOD_DEFAULT 0 None in ret tt) (fun _ v' => exists hn', went hb hn v p q hn' v').
Proof.
  intros HI HL Hq Hp Hn. assert (Hk : kind (c_pvp gc) hb hn p = Some q) by now rewrite Hp.
  eapply spec_bind; [apply (spec_RemoveMember hb hn v q p gc _ 0 None HI HL Hq Hk)|]. rewrite bool_decide_eq_false_2 by done.
  intros ok v' H. apply spec_ret. inversion H as [? E|_ _ _ HL'|ok' v1 _ _ _ Hg]; subst.
  - now rewrite andb_false_r in E.
  - exists (upd hn p None). pose proof (Inv_removed hb hn v q p gc HI Hq Hk) as HI'. rewrite Hp in HI'. destruct (removed_group q p gc v Hq) as (l & Eg & _).
    split; try done.
    + unfold upd. now rewrite decide_True.
    + now rewrite removed_mgr.
    + intros j Hne. rewrite Eg. now rewrite lookup_alter_ne.
    + intros x. now rewrite removed_players.
    + intros x. now rewrite removed_players.
  - exists (drop hn q). destruct Hg as [H1 H2 H3 H4 _ H6]. rewrite Hp in H1. split; try done.
    + exact (Led_delete v v' q HL H2).
    + unfold drop. now rewrite decide_True.
    + unfold ids_left. now rewrite H6.
    + intros j Hne. rewrite H2. now rewrite lookup_delete_ne.
Qed.

(** ** Specifications that know who is in the world *)

Definition in_worlds (W : Z -> bool) (w : GW) : Prop := forall p x, w_players w !! p = Some x -> gp_in_world x = W p.
Definition spec_in (W : Z -> bool) {A} (v : View) (m : G A) (Q : A -> View -> Prop) : Prop :=
  forall w, sane (core w) -> view (core w) = v -> in_worlds W w ->
  exists a w', m w = (Ret a, w') /\ sane (core w') /\ in_worlds W w' /\ Q a (view (core w')).
Lemma in_of W {A} v (m : G A) Q `{!Frames m} : spec v m Q -> spec_in W v m Q.
Proof.
  intros H w Hs Hv HW. destruct (H w Hs Hv) as (a & w' & E & Hs' & HQ). exists a, w'. split_and!; try done. intros p x' Hp.
  pose proof (frames_at (m := m) w) as Hf. rewrite E in Hf. destruct (Hf p x' Hp) as (x & Hx & ->). now apply HW.
Qed.
Lemma in_bind W {A B} v (m : G A) (k : A -> G B) P Q :
  spec_in W v m P -> (forall a v1, P a v1 -> spec_in W v1 (k a) Q) -> spec_in W v (bind m k) Q.
Proof.
  intros Hm Hk w Hs Hv HW. destruct (Hm w Hs Hv HW) as (a & w1 & E & Hs1 & HW1 & H1). destruct (Hk a _ H1 w1 Hs1 eq_refl HW1) as (b & w2 & E2 & H2).
  exists b, w2. now rewrite (bind_eq _ _ _ _ _ E).
Qed.
Lemma in_ret W {A} v (a : A) (Q : A -> View -> Prop) : Q a v -> spec_in W v (ret a) Q.
Proof. intros H w Hs Hv HW. exists a, w. now rewrite Hv. Qed.
Lemma in_yields W {A B} v (m : G A) a v1 (k : A -> G B) Q `{!Frames m} : yields v m a v1 -> spec_in W v1 (k a) Q -> spec_in W v (bind m k) Q.
Proof. intros Hm Hk. apply (in_bind W v m k (fun b v2 => b = a /\ v2 = v1)); [now apply in_of|]. now intros b v2 [-> ->]. Qed.
Lemma in_FindPlayer W {B} v p (k : option GPlayer -> G B) Q :
  (W p && bool_decide (v_invite v !! p <> None) = false -> spec_in W v (k None) Q) ->
  (forall x, W p = true -> v_invite v !! p = Some (gp_invite x) -> v_rf v p false = gp_group x -> spec_in W v (k (Some x)) Q) ->
  spec_in W v (bind (FindPlayer p) k) Q.
Proof.
  intros H0 H1 w Hs Hv HW. unfold FindPlayer. rewrite bind_gets. unfold in_world. destruct (w_players w !! p) as [x|] eqn:Ex; cbn.
  - pose proof (HW p x Ex) as E. destruct (gp_in_world x).
    + apply H1; try done; rewrite <- Hv; [cbn; now rewrite !lookup_fmap, Ex|exact (rf_at w p x false Ex)].
    + apply H0; try done. now rewrite <- E.
  - apply H0; try done. rewrite bool_decide_eq_false_2; [apply andb_false_r|]. rewrite <- Hv. cbn. now rewrite !lookup_fmap, Ex.
Qed.
End Parts.

(** ** The players of a proposal come together *)

Section Together.
Context `{scripts : GroupScripts} `{outside : GroupOutside} `{loots : LootView} `{forming : !FormScripts}.
Context `{laws : !GroupScriptLaws} `{form_laws : !FormLaws}.

#[export] Instance frames_on_script f : Frames (on_script f).
Proof. by_frames on_script. Qed.
#[export] Instance frames_SetLfgRoles q p r : Frames (SetLfgRoles q p r).
Proof. by_frames SetLfgRoles. Qed.
#[export] Instance frames_new_lfg_group p : Frames (new_lfg_group p).
Proof. by_frames new_lfg_group. Qed.

(** The players asked, who of them is in the world, and the group from before. *)
Context (W : Z -> bool) (v0 : View) (S : list Z) (hb : Z -> option Z) (grp0 : option Z).
Hypothesis five : zlen S <= MAXGROUPSIZE.
Hypothesis nowhere : forall p, p ∈ S -> v_invite v0 !! p <> None -> hb p = None.

Definition found (p : Z) : bool := W p && bool_decide (v_invite v0 !! p <> None).
(** Who was found among those looked for so far is in the group. *)
Definition gathered (v : View) (past : list Z) (grp : option Z) : Prop :=
  match grp with
  | None => grp0 = None /\ (forall p, p ∈ past -> found p = false)
  | Some q => exists gc, v_groups v !! q = Some gc /\ registered gc /\ c_pvp gc = false /\ (forall x, x ∈ members gc -> x ∈ S) /\
      (forall p, p ∈ past -> found p = true -> p ∈ members gc) /\
      match grp0 with
      | Some q0 => q = q0
      | None => c_lfg gc = true /\ List.find found past = Some (c_leader gc)
      end
  end.
Record forming_at (v : View) (past : list Z) (grp : option Z) : Prop := mk_forming {
  fo_inv : exists hn, Inv hb hn v; fo_led : Led v;
  fo_free p : p ∈ S -> v_invite v !! p <> None -> v_invite v !! p = Some None;
  fo_same p : v_invite v0 !! p = None <-> v_invite v !! p = None;
  fo_ids : grp = None -> ids_left (v_mgr v);
  fo_grp : gathered v past grp
}.

Lemma room_for hb' hn v q gc p :
  Inv hb' hn v -> v_groups v !! q = Some gc -> (forall x, x ∈ members gc -> x ∈ S) -> p ∈ S -> p ∉ members gc ->
  zlen (members gc) < MAXGROUPSIZE /\ exists sub, next_sub gc = Some sub.
Proof.
  intros HI Hq Hsub Hp Hm. assert (H : zlen (members gc) < MAXGROUPSIZE).
  { assert (Hn : NoDup (p :: members gc)) by (constructor; [done|]; exact (so_once _ _ (i_slots _ _ _ HI q gc Hq))).
    assert (Hl : (length (p :: members gc) <= length S)%nat).
    { apply submseteq_length, NoDup_submseteq; [done|]. intros x [->|Hx]%elem_of_cons; [done|now apply Hsub]. }
    unfold zlen in *. cbn in Hl. lia. }
  split; [done|]. unfold next_sub. rewrite (i_counts _ _ _ HI q gc Hq). destruct (c_raid gc); [|now exists 0].
  pose proof (first_free_counts (c_slots gc)) as Hf. destruct (first_free _) as [sub|]; [now exists sub|]. exfalso.
  specialize (Hf 0 ltac:(unfold MAX_RAID_SUBGROUPS; vm_compute; split; congruence)).
  pose proof (length_filter (fun e : Z * Z => e.2 = 0) (c_slots gc)). unfold in_sub, members, zlen in *. rewrite length_map in H. lia.
Qed.
Lemma found_step past p : found p = false -> List.find found (past ++ [p]) = List.find found past.
Proof. intros H. induction past as [|x l IH]; cbn; [now rewrite H|]. now destruct (found x). Qed.
Lemma found_first past p : (forall x, x ∈ past -> found x = false) -> found p = true -> List.find found (past ++ [p]) = Some p.
Proof.
  intros H Hp. induction past as [|x l IH]; cbn; [now rewrite Hp|]. rewrite (H x ltac:(left)). apply IH. intros y Hy. apply H. now right.
Qed.
Lemma found_more past p l : List.find found past = Some l -> List.find found (past ++ [p]) = Some l.
Proof. induction past as [|x l' IH]; cbn; [done|]. now destruct (found x). Qed.

(** Out of the old group, unless it is the one that is formed. *)
Record left_old (v : View) (grp : option Z) (hn : Z -> option Z) (x : Z) (hn1 : Z -> option Z) (v1 : View) : Prop := mk_left_old {
  lo_inv : Inv hb hn1 v1; lo_led : Led v1;
  lo_home : hn1 x = None \/ (exists q, grp = Some q /\ hn x = Some q) /\ hn1 = hn /\ v1 = v;
  lo_ids : ids_left (v_mgr v) -> ids_left (v_mgr v1);
  lo_grp : forall q, grp = Some q -> v_groups v1 !! q = v_groups v !! q;
  lo_players : forall p, v_invite v !! p = None <-> v_invite v1 !! p = None;
  lo_uninvited : stays_uninvited v v1
}.
Lemma spec_leave_old v grp hn x :
  Inv hb hn v -> Led v ->
  spec v (match hn x with
          | Some q' => when (negb (bool_decide (grp = Some q'))) (let! _ := RemoveMember q' x GROUP_REMOVEMETHOD_DEFAULT 0 None in ret tt)
          | None => ret tt
          end) (fun _ v1 => exists hn1, left_old v grp hn x hn1 v1).
Proof.
  intros HI HL. destruct (hn x) as [q'|] eqn:Ex.
  2:{ apply spec_ret. exists hn. split; try done; [now left|now intros p]. }
  case_bool_decide as Eg; cbn [negb when].
  { apply spec_ret. exists hn. split; try done; [|now intros p]. right. split_and!; [now exists q'|done|done]. }
  destruct (i_live _ _ _ HI false x q' Ex) as (gc & Hq & Ep).
  eapply spec_conseq; [now apply (spec_go hb hn v q' x gc)|]. intros _ v1 (hn1 & [H1 H2 H3 H4 H5 H6 H7]). exists hn1. split; try done; [now left|].
  intros q Hq'. apply H5. intros ->. congruence.
Qed.
(** Into the new one. *)
Lemma spec_into v grp hn past x hn1 v1 :
  Inv hb hn v -> forming_at v past grp -> x ∈ S -> v_invite v !! x <> None -> W x = true -> left_old v grp hn x hn1 v1 ->
  spec v1 (match grp with
           | None => new_lfg_group x
           | Some q => do! when (negb (bool_decide (hn x = Some q))) (let! _ := AddMember q x in ret tt) in ret q
           end) (fun q v2 => forming_at v2 (past ++ [x]) (Some q)).
Proof.
  intros HI [_ _ Hfree Hsame Hids Hgrp] Hx Hc HW [HI1 HL1 Hhome Hids1 Hgrp1 Hp1 Hu1]. pose proof (Hfree x Hx Hc) as Hinv.
  assert (Hinv1 : v_invite v1 !! x = Some None) by now apply Hu1.
  assert (Hfound : found x = true) by (unfold found; rewrite HW, bool_decide_eq_true_2; [done|now rewrite Hsame]).
  assert (Hfree1 : forall p, p ∈ S -> v_invite v1 !! p <> None -> v_invite v1 !! p = Some None).
  { intros p Hp H. apply Hu1, Hfree; [done|]. now rewrite Hp1. }
  assert (Hsame1 : forall p, v_invite v0 !! p = None <-> v_invite v1 !! p = None) by (intros p; now rewrite Hsame, Hp1).
  destruct grp as [q|]; cbn [gathered] in Hgrp.
  - destruct Hgrp as (gc & Hq & Hr & Hpvp & Hsub & Hpast & H0). specialize (Hgrp1 q eq_refl). rewrite Hq in Hgrp1.
    assert (Hlead : forall gc', c_lfg gc' = c_lfg gc -> c_leader gc' = c_leader gc ->
              match grp0 with Some q0 => q = q0 | None => c_lfg gc' = true /\ List.find found (past ++ [x]) = Some (c_leader gc') end).
    { intros gc' -> ->. destruct grp0; [done|]. destruct H0 as [H01 H02]. split; [done|]. now apply found_more. }
    case_bool_decide as Eq; cbn [negb when].
    + assert (Hm : x ∈ members gc) by (rewrite (i_members _ _ _ HI q gc x Hq), Hpvp; exact Eq).
      eapply yields_bind; [apply yields_ret|]. apply spec_ret. split; try done; [now exists hn1|]. exists gc. split_and!; try done; [|now apply Hlead].
      intros p [Hp|Hp%list_elem_of_singleton]%elem_of_app Hf; [now apply Hpast|now rewrite Hp].
    + destruct Hhome as [Hn1|[(q' & [= <-] & Eq') _]]; [|done].
      assert (Hm : x ∉ members gc) by (rewrite (i_members _ _ _ HI1 q gc x Hgrp1), Hpvp; cbn; congruence).
      destruct (room_for hb hn1 v1 q gc x HI1 Hgrp1 Hsub Hx Hm) as [Hroom [sub Hs]]. pose proof (HL1 q gc Hgrp1) as [Hkind Hl]. rewrite decide_True in Hl by exact Hr.
      apply (spec_bind _ _ _ (fun _ v2 => v2 = v_add q x sub gc v1 /\ Inv (joined (c_pvp gc) x q hb hn1).1 (joined (c_pvp gc) x q hb hn1).2 v2 /\ Led v2)).
      { eapply spec_bind; [apply (spec_AddMember_inv hb hn1 v1 q x gc HI1 (Led_weaken v1 q HL1) Hgrp1 Hr Hkind); [now left|now rewrite Hpvp|done|now intros _]|].
        rewrite Hs. intros b v2 H2. apply spec_ret. exact (proj2 H2). }
      intros _ v2 (E2 & HI2 & HL2). rewrite Hpvp in HI2. cbn [fst snd] in HI2.
      assert (Ei2 : v_invite v2 = v_invite v1) by (rewrite E2; now apply add_players).
      apply spec_ret. split; rewrite ?Ei2; try done; [eexists; exact HI2|]. exists (c_add x sub gc).
      split_and!; [rewrite E2; cbn; now rewrite lookup_alter_eq, Hgrp1|done|done| | |now apply Hlead]; rewrite members_add.
      * intros p [Hp|Hp%list_elem_of_singleton]%elem_of_app; [now apply Hsub|now rewrite Hp].
      * intros p [Hp|Hp]%elem_of_app Hf; apply elem_of_app; [left; now apply Hpast|now right].
  - destruct Hgrp as [H0 Hpast]. destruct Hhome as [Hn1|[(q' & ? & _) _]]; [|done].
    eapply spec_conseq; [apply (spec_new_lfg_group hb hn1 v1 x HI1 HL1 Hn1 Hinv1); auto|]. intros q v2 (hn2 & gc & HI2 & HL2 & F).
    destruct F as [_ _ F1 F2 F3 F4 (F5 & _ & F6) _ F7]. split; rewrite ?F7; try done; [now exists hn2|].
    exists gc. split_and!; try done.
    + intros p. rewrite F3, list_elem_of_singleton. now intros ->.
    + intros p [Hp|Hp]%elem_of_app Hf; [now rewrite Hpast in Hf|now rewrite F3].
    + rewrite H0. split; [done|]. rewrite F4. now apply found_first.
Qed.
Lemma spec_form_member p d v past grp x pp :
  forming_at v past grp -> x ∈ S -> p_players p !! x = Some pp -> spec_in W v (form_member p d grp x) (fun grp' v' => forming_at v' (past ++ [x]) grp').
Proof.
  intros H Hx Hpp. pose proof H as [[hn HI] HL Hfree Hsame Hids Hgrp]. unfold form_member. apply in_FindPlayer.
  - intros Hno. apply in_ret. split; try done; [now exists hn|].
    assert (Hf : found x = false).
    { unfold found. rewrite <- Hno. f_equal. apply bool_decide_ext. now rewrite Hsame. }
    destruct grp as [q|]; cbn [gathered] in *.
    + destruct Hgrp as (gc & G1 & G2 & G3 & G4 & G5 & G6). exists gc. split_and!; try done; [|destruct grp0; [done|]; now rewrite found_step].
      intros y [Hy|Hy%list_elem_of_singleton]%elem_of_app; [now apply G5|]. subst y. now rewrite Hf.
    + destruct Hgrp as [G1 G2]. split; [done|]. intros y [Hy|Hy%list_elem_of_singleton]%elem_of_app; [now apply G2|now subst y].
  - intros y HW Hi Hr. assert (Hc : v_invite v !! x <> None) by now rewrite Hi.
    assert (Hb : hb x = None) by (apply nowhere; [done|]; now rewrite Hsame).
    rewrite (i_rf _ _ _ HI x false Hc), Hb in Hr. cbn in Hr. rewrite <- Hr.
    eapply in_bind; [apply in_of; [|now apply spec_leave_old]; repeat frame_step|]. intros [] v1 [hn1 H1].
    eapply in_bind; [apply in_of; [|now apply (spec_into v grp hn past x hn1 v1)]; repeat frame_step|]. intros q v2 H2.
    rewrite Hpp. cbn [of_option]. eapply in_yields; [apply frames_ret|apply yields_ret|].
    destruct (fo_grp _ _ _ H2) as (gc & Hq & _).
    eapply in_yields; [apply _|apply spec_SetLfgRoles; now rewrite Hq|].
    eapply in_yields; [apply frames_when; apply _|apply yields_when; [intros _; apply spec_on_script; intros s; apply fl_cooldown|reflexivity]|].
    now apply in_ret.
Qed.
Lemma spec_form_members p d v past l grp :
  forming_at v past grp -> (forall x, x ∈ l -> x ∈ S /\ is_Some (p_players p !! x)) ->
  spec_in W v (fold_m (form_member p d) l grp) (fun grp' v' => forming_at v' (past ++ l) grp').
Proof.
  revert v past grp. induction l as [|x l IH]; intros v past grp H Hl; cbn [fold_m]; [apply in_ret; now rewrite app_nil_r|].
  destruct (Hl x ltac:(left)) as [Hx [pp Hpp]]. eapply in_bind; [now apply (spec_form_member p d v past grp x pp)|]. intros grp' v' H'.
  replace (past ++ x :: l) with ((past ++ [x]) ++ l) by now rewrite <- app_assoc. apply IH; [done|]. intros y Hy. apply Hl. now right.
Qed.
End Together.

(** ** The whole of it *)

Section Whole.
Context `{scripts : GroupScripts} `{outside : GroupOutside} `{loots : LootView} `{forming : !FormScripts}.
Context `{laws : !GroupScriptLaws} `{form_laws : !FormLaws}.

Lemma elem_of_form_order p x : x ∈ form_order p <-> is_Some (p_players p !! x).
Proof.
  assert (H : forall l acc, x ∈ foldl (fun l guid => if guid =? p_leader p then guid :: l else l ++ [guid]) acc l <-> x ∈ acc \/ x ∈ l).
  { induction l as [|y l IH]; intros acc; cbn [foldl]; [split; [now left|intros [H|H%elem_of_nil]; done]|]. rewrite IH, elem_of_cons.
    destruct (y =? p_leader p); [rewrite elem_of_cons|rewrite elem_of_app, list_elem_of_singleton]; tauto. }
  unfold form_order. rewrite H, elem_of_nil, elem_of_keys. tauto.
Qed.
Definition world_of (w : GW) (p : Z) : bool := match w_players w !! p with Some x => gp_in_world x | None => false end.
Lemma world_of_worlds w : in_worlds (world_of w) w.
Proof. intros p x Hp. unfold world_of. now rewrite Hp. Qed.
Lemma spec_form_end v p s q d :
  v_groups v !! q <> None ->
  yields v (do! SetDungeonDifficulty q (difficulty d) in
            let! g := group_at q in
            do! on_script (fs_SetDungeon (m_guid g) (Entry d)) in
            do! on_script (fs_SetState (m_guid g) LFG_STATE_DUNGEON) in
            do! on_script (fs_SaveToDB (m_guid g) (m_dbStoreId g)) in
            do! for_each (to_teleport p s) TeleportPlayer_in in
            SendUpdate q) tt v.
Proof.
  intros Hq. eapply yields_bind; [now apply spec_SetDungeonDifficulty|]. apply spec_group_core; [done|]. intros _ g _ _ _.
  eapply yields_bind; [apply spec_on_script; intros s'; apply fl_dungeon|]. eapply yields_bind; [apply spec_on_script; intros s'; apply fl_state|].
  eapply yields_bind; [apply spec_on_script; intros s'; apply fl_save|].
  eapply yields_bind; [|now apply spec_SendUpdate]. induction (to_teleport p s) as [|x l IH]; cbn [for_each]; [apply yields_ret|].
  eapply yields_bind; [apply spec_Teleport_in|exact IH].
Qed.

Lemma run_MakeNewGroup hb hn w p d :
  let S := keys Z.le (p_players p) in let grp0 := found_group (w_mgr w) p in let v := view (core w) in
  sane (core w) -> Inv hb hn v -> Led v -> fs_GetLFGDungeon (w_script w) (dungeonId p) = Some d -> zlen S <= MAXGROUPSIZE -> ids_left (v_mgr v) ->
  (forall x, x ∈ S -> v_invite v !! x <> None -> v_invite v !! x = Some None /\ hb x = None) ->
  (forall q, grp0 = Some q -> exists gc, v_groups v !! q = Some gc /\ registered gc /\ c_pvp gc = false /\ forall x, x ∈ members gc -> x ∈ S) ->
  grp0 <> None \/ (exists x, x ∈ S /\ found (world_of w) v x = true) ->
  exists w' q, MakeNewGroup p w = (Ret tt, w') /\ sane (core w') /\ forming_at (world_of w) v S hb grp0 (view (core w')) (form_order p) (Some q).
Proof.
  intros S grp0 v Hs HI HL Hd Hfive Hids Hfree Hgrp Hsome.
  assert (H0 : forming_at (world_of w) v S hb grp0 v [] grp0).
  { split; try done; [now exists hn|intros x Hx Hc; now apply Hfree|]. destruct grp0 as [q|] eqn:Eg; cbn [gathered].
    - destruct (Hgrp q eq_refl) as (gc & G1 & G2 & G3 & G4). exists gc. split_and!; try done. intros x Hx. now apply elem_of_nil in Hx.
    - split; [done|]. intros x Hx. now apply elem_of_nil in Hx. }
  unfold MakeNewGroup. rewrite bind_gets, Hd. cbn [of_option]. rewrite (bind_eq _ _ _ _ _ (eq_refl : ret d w = (Ret d, w))), bind_gets. fold grp0.
  assert (Hnow : forall x, x ∈ S -> v_invite v !! x <> None -> hb x = None) by (intros x Hx Hc; now apply Hfree).
  destruct (spec_form_members (world_of w) v S hb grp0 Hfive Hnow p d v [] (form_order p) grp0 H0) with (w := w) as (grp & w1 & E1 & Hs1 & _ & H1); try done.
  { intros x Hx. apply elem_of_form_order in Hx. split; [|done]. now apply elem_of_keys. }
  { apply world_of_worlds. }
  rewrite (bind_eq _ _ _ _ _ E1). cbn [app] in H1. destruct grp as [q|].
  2:{ exfalso. destruct (fo_grp _ _ _ _ _ _ _ _ H1) as [G0 Gn]. destruct Hsome as [|(x & Hx & Hf)]; [done|]. rewrite Gn in Hf; [done|].
      apply elem_of_form_order. now apply elem_of_keys in Hx. }
  cbn [of_option]. rewrite (bind_eq _ _ _ _ _ (eq_refl : ret q w1 = (Ret q, w1))).
  destruct (fo_grp _ _ _ _ _ _ _ _ H1) as (gc & Hq & _).
  destruct (spec_form_end (view (core w1)) p (w_script w) q d ltac:(now rewrite Hq) w1 Hs1 eq_refl) as (a & w2 & E2 & Hs2 & -> & Ev).
  exists w2, q. split; [exact E2|]. split; [done|]. now rewrite Ev.
Qed.
End Whole.

(** ** The dungeon finder *)

Section FinderForm.
Context (server : LfgWorld).

#[export] Instance finder_form : FormScripts (scripts := finder_scripts server) := {|
  fs_GetLFGDungeon m id := GetLFGDungeon (tables m) id;
  fs_GetGroup := LFGMgr.GetGroup;
  fs_SetState := LFGMgr.SetState;
  fs_SetDungeon := LFGMgr.SetDungeon;
  fs_SaveToDB := LFGMgr.SaveToDB;
  fs_cooldown p m := emit (CastSpell p LFG_SPELL_DUNGEON_COOLDOWN) m;
  fs_TeleportPlayer t g m := TeleportPlayer t g false false m
|}.
Lemma finder_form_laws : FormLaws (scripts := finder_scripts server).
Proof.
  split; cbn; intros; [unfold LFGMgr.SetState; destruct (IS_GROUP_GUID g)| |unfold LFGMgr.SaveToDB; destruct (negb _); [done|]| |];
    apply (Inv_people s); try done; solve [people|apply TeleportPlayer_people].
Qed.
End FinderForm.
