(* ===== verification/GroupRuns.v ===== *)
(** * Groups: every run of requests

    [request] is what players, the server and the dungeon finder ask of the groups, [allowed] when,
    and [reach] the worlds a run of requests leads to.  Each request returns in each
    of these worlds; [typed] and [linked] say what holds of their groups, players and
    tables, in the words of the source. *)

From stdpp Require Import base gmap list strings.
From Stdlib Require Import ZArith Lia FunctionalExtensionality.
From S2P Require Import Prelude StdMap Util ObjectGuid LfgData LfgMgr LfgInvariant LfgScripts ActionLogic GroupTypes GroupMgr GroupLoot GroupLootInv GroupWorld Group GroupCore GroupView GroupFinder GroupOps GroupInv GroupHandler GroupReach GroupRequests GroupPlay GroupForm.
#[local] Open Scope Z_scope.

Inductive request :=
| Invite (me : Z) (name : list Z)
| Accept (me : Z)
| Decline (me : Z)
| UninviteGuid (me guid : Z) (reason : list Z)
| Uninvite (me : Z) (name : list Z)
| SetLeader (me guid : Z)
| Leave (me : Z)
| LootMethod (me lootMethod lootMaster lootThreshold : Z)
| RaidConvert (me : Z)
| ChangeSubGroup (me : Z) (name : list Z) (groupNr : Z)
| AssistantLeader (me guid : Z) (apply : bool)
| PartyAssignment (me assignment : Z) (apply : bool) (guid : Z)
| Login (me : Z) (p : GPlayer) (current : option (Z * bool))
| Logout (me : Z) (socket : bool) (visit : option BgVisit)
| EnterBg (bg : Z) (side : bool) (me : Z)
| LeaveBg (bg : Z) (side : bool) (me : Z)
| Remove (q guid : Z) (method : RemoveMethod)
| Form (p : LfgProposal).

Section Runs.
Context `{scripts : GroupScripts} `{outside : GroupOutside} `{loots : LootView} `{laws : !GroupScriptLaws} `{rules : PartyRules} `{forming : !FormScripts} `{form_laws : !FormLaws}.
Context (lfg_kicks : Script -> Z -> Z) (lfg_state : Script -> Z -> LfgState).

Definition run_request (r : request) : G unit :=
  match r with
  | Invite me name => HandleGroupInviteOpcode me name
  | Accept me => HandleGroupAcceptOpcode me
  | Decline me => HandleGroupDeclineOpcode me
  | UninviteGuid me guid reason => HandleGroupUninviteGuidOpcode lfg_kicks lfg_state me guid reason
  | Uninvite me name => HandleGroupUninviteOpcode lfg_kicks lfg_state me name
  | SetLeader me guid => HandleGroupSetLeaderOpcode me guid
  | Leave me => HandleGroupDisbandOpcode me
  | LootMethod me m l t => HandleLootMethodOpcode me m l t
  | RaidConvert me => HandleGroupRaidConvertOpcode me
  | ChangeSubGroup me name n => HandleGroupChangeSubGroupOpcode me name n
  | AssistantLeader me guid apply => HandleGroupAssistantLeaderOpcode me guid apply
  | PartyAssignment me a apply guid => HandlePartyAssignmentOpcode me a apply guid
  | Login me p current => LoginPlayer me p current
  | Logout me socket visit => LogoutPlayer me socket visit
  | EnterBg bg side me => AddOrSetPlayerToCorrectBgGroup bg side me
  | LeaveBg bg side me => RemovePlayerAtLeave_group bg side me
  | Remove q guid method => let! _ := RemoveMember q guid method 0 None in ret tt
  | Form p => MakeNewGroup p
  end.

Definition connected (w : GW) (p : Z) : Prop := w_players w !! p <> None.
(** A member of a group of the heap. *)
Definition member_of (w : GW) (p q : Z) : Prop := exists g, w_heap w !! q = Some g /\ IsMember g p = true.
Definition in_bg (w : GW) (p q : Z) : Prop := exists g, w_heap w !! q = Some g /\ IsMember g p = true /\ is_pvp g = true.
Definition named (w : GW) (name : list Z) : outcome Empty_set (option Z) :=
  match normalizePlayerName name with Some n => (FindPlayerByName n w).1 | None => Ret None end.
(** The battleground a player is still in when he logs in. *)
Definition logs_into (w : GW) (me : Z) (current : option (Z * bool)) : Prop :=
  match current with
  | Some k => exists q, w_bgRaids w !! k = Some q /\ member_of w me q
  | None => forall q, ~ in_bg w me q
  end.
(** The battleground he is in when he logs out has him on its list, and in the group
    of his side. *)
Definition visit_side (visit : option BgVisit) : option (Z * bool) :=
  b ← visit; if bv_participant b then Some (bv_id b, bv_side b) else None.
Definition in_side (w : GW) (me : Z) (k : Z * bool) : Prop := forall q, w_bgRaids w !! k = Some q -> member_of w me q.
(** A proposal has a dungeon, five players at most who are not invited and in no
    battleground's group, somebody to lead a new group, and nobody else in the group
    that it completes. *)
Record formable (w : GW) (p : LfgProposal) : Prop := mk_formable {
  fm_dungeon : exists d, fs_GetLFGDungeon (w_script w) (dungeonId p) = Some d;
  fm_ids : ids_left (w_mgr w);
  fm_five : zlen (keys Z.le (p_players p)) <= MAXGROUPSIZE;
  fm_free x y : is_Some (p_players p !! x) -> w_players w !! x = Some y -> gp_invite y = None /\ forall q, ~ in_bg w x q;
  fm_group q g : found_group (w_mgr w) p = Some q -> w_heap w !! q = Some g -> is_pvp g = false /\ forall x, IsMember g x = true -> is_Some (p_players p !! x);
  fm_some : found_group (w_mgr w) p <> None \/ exists x y, is_Some (p_players p !! x) /\ w_players w !! x = Some y /\ gp_in_world y = true
}.
(** When a request may come: its player is connected, nobody invites himself or
    accepts his own invitation, numbers for groups are left; a battleground takes
    players who are neither invited nor in another one, and sends away its own; a
    proposal is [formable]. *)
Definition allowed (w : GW) (r : request) : Prop :=
  match r with
  | Invite me name => connected w me /\ named w name <> Ret (Some me)
  | Accept me => connected w me /\ ids_left (w_mgr w) /\
      forall p q g, w_players w !! me = Some p -> gp_invite p = Some q -> w_heap w !! q = Some g -> m_leaderGuid g <> me
  | ChangeSubGroup me _ n => connected w me /\ 0 <= n
  | Decline me | UninviteGuid me _ _ | Uninvite me _ | SetLeader me _ | Leave me | LootMethod me _ _ _ | RaidConvert me
  | AssistantLeader me _ _ | PartyAssignment me _ _ _ => connected w me
  | Logout me _ visit => connected w me /\ forall k, visit_side visit = Some k -> in_side w me k
  | Login me p current => ~ connected w me /\ is_u 32 me /\ loaded p /\ logs_into w me current
  | EnterBg _ _ me => (exists p, w_players w !! me = Some p /\ gp_invite p = None) /\ (forall q, ~ in_bg w me q)
  | LeaveBg bg side me => in_side w me (bg, side)
  | Remove q guid _ => member_of w guid q
  | Form p => formable w p
  end.
Inductive reach (w0 : GW) : GW -> Prop :=
| reach_start : reach w0 w0
| reach_step w r o w' : reach w0 w -> allowed w r -> run_request r w = (o, w') -> reach w0 w'.

(** ** The invariant *)

Definition sound (w : GW) : Prop := sane (core w) /\ good (view (core w)).
Lemma spec_run {A} w (m : G A) v Q : sound w -> view (core w) = v -> spec v m Q -> exists a w', m w = (Ret a, w') /\ sane (core w') /\ Q a (view (core w')).
Proof. intros [Hs _] Hv H. now apply (H w Hs). Qed.
Lemma connected_view w p : connected w p -> v_invite (view (core w)) !! p <> None.
Proof. unfold connected. cbn. rewrite !lookup_fmap. now destruct (w_players w !! p). Qed.
Lemma player_view w p x : w_players w !! p = Some x -> v_invite (view (core w)) !! p = Some (gp_invite x).
Proof. intros H. cbn. now rewrite !lookup_fmap, H. Qed.
Lemma group_view_at w q g : w_heap w !! q = Some g -> v_groups (view (core w)) !! q = Some (bare (group_core g)).
Proof. intros H. cbn. now rewrite !lookup_fmap, H. Qed.
Lemma group_of_view w q gc : v_groups (view (core w)) !! q = Some gc -> exists g, w_heap w !! q = Some g /\ gc = bare (group_core g).
Proof. cbn. rewrite !lookup_fmap. destruct (w_heap w !! q) as [g|]; [|done]. cbn. intros [= <-]. now exists g. Qed.
Lemma in_bg_view w p q : in_bg w p q <-> exists gc, v_groups (view (core w)) !! q = Some gc /\ c_pvp gc = true /\ p ∈ members gc.
Proof.
  split.
  - intros (g & Hq & Hm & Hp). exists (bare (group_core g)). split; [now apply group_view_at|]. split; [exact Hp|]. now apply IsMember_in.
  - intros (gc & Hq & Hp & Hm). apply group_of_view in Hq as (g & Hq & ->). exists g. split; [done|]. split; [now apply IsMember_in|exact Hp].
Qed.
Lemma member_view w p q : member_of w p q -> exists gc, v_groups (view (core w)) !! q = Some gc /\ p ∈ members gc.
Proof. intros (g & Hq & Hm). exists (bare (group_core g)). split; [now apply group_view_at|now apply IsMember_in]. Qed.
Lemma logs_into_view w me current : logs_into w me current -> still_in (view (core w)) me current.
Proof.
  destruct current as [k|]; cbn [logs_into still_in].
  - intros (q & Hk & (gc & Hq & Hm)%member_view). now exists q, gc.
  - intros H q gc Hq Hp Hm. apply (H q). apply in_bg_view. now exists gc.
Qed.
Lemma outside_view w p : (forall q, ~ in_bg w p q) -> outside_bg (view (core w)) p.
Proof. intros H q gc Hq Hp Hm. apply (H q). apply in_bg_view. now exists gc. Qed.

Lemma on_list_view w me visit : (forall k, visit_side visit = Some k -> in_side w me k) -> on_list (view (core w)) me visit.
Proof. intros H b q -> Hp Hk. apply member_view. apply (H (bv_id b, bv_side b)); [cbn; now rewrite Hp|exact Hk]. Qed.

Lemma spec_sound w (m : G unit) Q :
  sound w -> spec (view (core w)) m Q -> (forall v', Q tt v' -> good v') -> exists w', m w = (Ret tt, w') /\ sound w'.
Proof.
  intros H Hm HQ. destruct (spec_run w m _ Q H eq_refl Hm) as ([] & w' & E & Hs & Hv). exists w'. split; [done|]. split; [done|]. now apply HQ.
Qed.
Lemma invite_runs w me name : sound w -> connected w me -> named w name <> Ret (Some me) -> exists w', HandleGroupInviteOpcode me name w = (Ret tt, w') /\ sound w'.
Proof.
  intros H Hme Hn. pose proof H as [_ Hgood]. apply connected_view in Hme. unfold HandleGroupInviteOpcode, named in *.
  assert (Hsay : forall op n res, exists w', SendPartyResult me op n res w = (Ret tt, w') /\ sound w').
  { intros op n res. apply (spec_sound w _ _ H (spec_say _ me op n res Hgood)). now intros v' [? _]. }
  destruct (normalizePlayerName name) as [n|]; [|apply Hsay].
  assert (Ef : exists o, FindPlayerByName n w = (Ret o, w) /\ (forall p, o = Some p -> v_invite (view (core w)) !! p <> None)).
  { eexists. split; [reflexivity|]. intros p Hp. destruct (List.find _ _) as [[p' x]|] eqn:E; [|done]. cbn in Hp. injection Hp as ->.
    apply List.find_some in E as [E _]. rewrite <- list_elem_of_In in E. apply elem_of_entries in E. apply connected_view. unfold connected. now rewrite E. }
  destruct Ef as (o & Ef & Ho). rewrite (bind_eq _ _ _ _ _ Ef). rewrite Ef in Hn. cbn in Hn. destruct o as [p|]; [|apply Hsay].
  assert (Hne : me <> p) by (intros ->; now apply Hn).
  apply (spec_sound w _ _ H (spec_invite_found _ me p n Hgood Hme (Ho p eq_refl) Hne)). now intros v' [? _].
Qed.
Lemma form_runs w p : sound w -> formable w p ->
  exists w' q hb hn, MakeNewGroup p w = (Ret tt, w') /\ sound w' /\ Inv hb hn (view (core w)) /\
    forming_at (world_of w) (view (core w)) (keys Z.le (p_players p)) hb (found_group (w_mgr w) p) (view (core w')) (form_order p) (Some q).
Proof.
  intros [Hs (hb & hn & HI & HL)] [[d Hd] Hids Hfive Hfree Hgrp Hsome].
  destruct (run_MakeNewGroup hb hn w p d Hs HI HL Hd Hfive Hids) as (w' & q & E & Hs' & H).
  - intros x Hx%elem_of_keys Hc. destruct (w_players w !! x) as [y|] eqn:Ey; [|destruct Hc; cbn; now rewrite !lookup_fmap, Ey].
    destruct (Hfree x y Hx Ey) as [Hi Hout]. rewrite (player_view w x y Ey), Hi. split; [done|]. apply (outside_bg_home hb hn _ x HI). now apply outside_view.
  - intros q Hq. assert (Hl : exists low, GetGroupByGUID (w_mgr w) low = Some q) by (unfold found_group in Hq; case_if; [done|eexists; exact Hq]).
    destruct Hl as [low Hl]. destruct (st_low _ _ _ _ (i_stored _ _ _ HI) low q Hl) as (guid & store & pvp & Hh & Hg0 & _).
    rewrite lookup_fmap in Hh. destruct (v_groups (view (core w)) !! q) as [gc|] eqn:Egc; [|done]. injection Hh as <- _ _.
    pose proof Egc as Egc'. apply group_of_view in Egc' as (g & Hg & ->). destruct (Hgrp q g Hq Hg) as [Hp Hm].
    exists (bare (group_core g)). split_and!; try done.
    intros x Hx. apply elem_of_keys, Hm. now apply IsMember_in.
  - destruct Hsome as [|(x & y & Hx & Hy & Hw)]; [now left|right]. exists x. split; [now apply elem_of_keys|]. unfold found, world_of. rewrite Hy, Hw.
    rewrite (player_view w x y Hy). now apply bool_decide_eq_true.
  - exists w', q, hb, hn. split_and!; try done. destruct (fo_inv _ _ _ _ _ _ _ _ H) as [hn' HI']. split; [done|]. exists hb, hn'. split; [done|]. apply (fo_led _ _ _ _ _ _ _ _ H).
Qed.
Lemma ignore_spec {A} v (m : G A) Q : spec v m (fun _ v' => Q v') -> spec v (let! _ := m in ret tt) (fun _ v' => Q v').
Proof. intros H. eapply spec_bind; [exact H|]. intros a v1 H1. now apply spec_ret. Qed.
Lemma request_runs w r : sound w -> allowed w r -> exists w', run_request r w = (Ret tt, w') /\ sound w'.
Proof.
  intros H Ha. pose proof H as [_ Hgood]. pose proof Hgood as (hb & hn & HI & HL). set (v := view (core w)) in *.
  assert (Hk : forall m : G unit, spec v m (fun _ v' => kept v v') -> exists w', m w = (Ret tt, w') /\ sound w').
  { intros m Hm. apply (spec_sound w m _ H Hm). now intros v' [? _]. }
  destruct r; cbn [allowed run_request] in *.
  - destruct Ha. now apply invite_runs.
  - destruct Ha as (Hme & Hids & Hl). apply Hk, spec_Accept; [done|now apply connected_view|done|]. intros q gc Hi Hq.
    apply group_of_view in Hq as (g & Hq & ->). unfold connected in Hme. destruct (w_players w !! me) as [p|] eqn:Ep; [|done].
    unfold v in Hi. rewrite (player_view w me p Ep) in Hi. injection Hi as Hi. now apply (Hl p q g).
  - apply Hk, spec_Decline; [done|now apply connected_view].
  - apply Hk, spec_UninviteGuid; [done|now apply connected_view].
  - apply Hk, spec_Uninvite; [done|now apply connected_view].
  - apply Hk, spec_SetLeader; [done|now apply connected_view].
  - apply Hk, spec_Leave; [done|now apply connected_view].
  - apply Hk, spec_LootMethod; [done|now apply connected_view].
  - apply Hk, spec_RaidConvert; [done|now apply connected_view].
  - destruct Ha. apply Hk, spec_ChangeSubGroup; [done|now apply connected_view|done].
  - apply Hk, spec_AssistantLeader; [done|now apply connected_view].
  - apply Hk, spec_PartyAssignment; [done|now apply connected_view].
  - destruct Ha as (Hme & Hu & Hp & Hr). assert (Hme' : v_invite v !! me = None).
    { unfold connected in Hme. cbn. rewrite !lookup_fmap. destruct (w_players w !! me); [|done]. now destruct Hme. }
    apply (spec_sound w _ _ H (spec_Login v me p current Hgood Hme' Hu Hp (logs_into_view w me current Hr))). now intros v' [? _].
  - destruct Ha as [Hme Hv]. apply (spec_sound w _ _ H (spec_Logout v me socket visit Hgood (connected_view w me Hme) (on_list_view w me visit Hv))). now intros v' [? _].
  - destruct Ha as ((p & Hp & Hi) & Hout). apply Hk. apply outside_view in Hout.
    assert (Hinv : v_invite v !! me = Some None) by (unfold v; rewrite (player_view w me p Hp); now rewrite Hi).
    destruct (v_bgRaids v !! (bg, side)) as [q|] eqn:Hs; [now apply (spec_next_in_bg v bg side q)|now apply spec_first_in_bg].
  - apply Hk. destruct (v_bgRaids v !! (bg, side)) as [q|] eqn:Hs.
    + destruct (member_view w me q (Ha q Hs)) as (gc & Hq & Hm). eapply spec_conseq; [now apply (spec_leave_bg hb hn v bg side q gc me)|].
      intros a v'. now apply (left_side_good hb hn v q me gc bg side).
    + unfold RemovePlayerAtLeave_group. apply spec_GetBgRaid. rewrite Hs. apply spec_ret. now apply kept_refl.
  - destruct Ha as (g & Hq & Hm). apply Hk, ignore_spec. apply group_view_at in Hq. apply IsMember_in in Hm.
    eapply spec_conseq; [apply (spec_remove_kept hb hn v q guid _ method 0 None HI HL Hq)|now intros a v' [? _]].
    now rewrite <- (i_members _ _ _ HI q _ guid Hq).
  - destruct (form_runs w p H Ha) as (w' & q & h1 & h2 & E & Hs & _). now exists w'.
Qed.
Lemma reach_sound w0 w : sound w0 -> reach w0 w -> sound w.
Proof.
  intros H0. induction 1 as [|w r o w' _ IH Ha E]; [done|]. destruct (request_runs w r IH Ha) as (w1 & E1 & H1). congruence.
Qed.

(** ** What it says of a world *)

(** The values of the fields are of their types: sub groups, counters and sizes. *)
Definition in_group (k : Z) (g : Group) : list MemberSlot := filter (fun s => s_group s = k) (m_memberSlots g).
Record typed (w : GW) : Prop := mk_typed {
  ty_sub q g s : w_heap w !! q = Some g -> s ∈ m_memberSlots g -> 0 <= s_group s < (if isRaidGroup g then MAX_RAID_SUBGROUPS else 1);
  ty_room q g k : w_heap w !! q = Some g -> zlen (in_group k g) <= MAXGROUPSIZE;
  ty_counts q g : w_heap w !! q = Some g ->
    m_subGroupsCounts g = if isRaidGroup g then Some (map (fun k => zlen (in_group (Z.of_nat k) g)) (seq 0 8)) else None;
  ty_size q g : w_heap w !! q = Some g ->
    GetMembersCount g = zlen (m_memberSlots g) /\ GetMembersCount g <= (if isRaidGroup g then MAXRAIDSIZE else MAXGROUPSIZE);
  ty_guid q g s : w_heap w !! q = Some g -> s ∈ m_memberSlots g -> is_u 32 (s_guid s);
  ty_refSub p x : w_players w !! p = Some x -> 0 <= gp_subgroup x < 128 /\ 0 <= gp_originalSub x < 128
}.
(** Members, references, invitations, numbers and tables agree. *)
Record linked (w : GW) : Prop := mk_linked {
  lk_once q g : w_heap w !! q = Some g -> NoDup (map s_guid (m_memberSlots g));
  lk_one p q q' g g' : w_heap w !! q = Some g -> w_heap w !! q' = Some g' -> IsMember g p = true -> IsMember g' p = true ->
    is_pvp g = is_pvp g' -> q = q';
  lk_ref p x q : w_players w !! p = Some x -> (member_of w p q <-> gp_group x = Some q \/ gp_original x = Some q);
  lk_original p x q : w_players w !! p = Some x -> gp_original x = Some q ->
    exists b, gp_group x = Some b /\ in_bg w p b /\ ~ in_bg w p q;
  lk_mgr q g p b : w_heap w !! q = Some g -> ((p, b) ∈ m_memberMgr g <-> exists x, w_players w !! p = Some x /\ ref_of b x = Some q);
  lk_leader q g : w_heap w !! q = Some g -> IsCreated g = true -> IsMember g (m_leaderGuid g) = true;
  lk_invite p x q : w_players w !! p = Some x -> (gp_invite x = Some q <-> exists g, w_heap w !! q = Some g /\ p ∈ m_invitees g);
  lk_pending p x q g : w_players w !! p = Some x -> gp_invite x <> None -> w_heap w !! q = Some g -> IsMember g p = true -> is_pvp g = true;
  lk_row p store sub : (exists r, w_dbMembers w !! p = Some r /\ mr_guid r = store /\ mr_subgroup r = sub) <->
    exists q g s, w_heap w !! q = Some g /\ is_pvp g = false /\ s ∈ m_memberSlots g /\ s_guid s = p /\ s_group s = sub /\ m_dbStoreId g = store;
  lk_store q g : w_heap w !! q = Some g -> IsCreated g = true -> is_pvp g = false ->
    GetGroupByDbStoreId (w_mgr w) (m_dbStoreId g) = Some q /\ w_dbGroups w !! m_dbStoreId g <> None;
  lk_found low q : GetGroupByGUID (w_mgr w) low = Some q -> exists g, w_heap w !! q = Some g /\ GetLowGUID g = low;
  lk_side bg side q : w_bgRaids w !! (bg, side) = Some q -> exists g, w_heap w !! q = Some g /\ m_bgGroup g = Some bg /\ IsCreated g = true /\ isRaidGroup g = true;
  lk_of_side q g bg : w_heap w !! q = Some g -> m_bgGroup g = Some bg ->
    exists side, forall k, w_bgRaids w !! k = Some q <-> k = (bg, side)
}.

Lemma in_group_core k g : zlen (in_group k g) = in_sub k (map slot_core (m_memberSlots g)).
Proof.
  unfold in_group, in_sub, zlen. induction (m_memberSlots g) as [|s l IH]; [done|]. cbn [map]. rewrite !filter_cons. cbn [snd slot_core].
  repeat case_decide; cbn [length]; try done; lia.
Qed.
Lemma sound_typed w : sound w -> typed w.
Proof.
  intros [Hs (hb & hn & HI & HL)]. assert (Hslots : forall q g, w_heap w !! q = Some g -> slots_ok (isRaidGroup g) (map slot_core (m_memberSlots g))).
  { intros q g Hq. exact (i_slots _ _ _ HI q _ (group_view_at w q g Hq)). }
  split.
  - intros q g s Hq Hin. exact (so_subs _ _ (Hslots q g Hq) (slot_core s) (list_elem_of_fmap_2 slot_core _ _ Hin)).
  - intros q g k Hq. rewrite in_group_core. apply (so_room _ _ (Hslots q g Hq)).
  - intros q g Hq. pose proof (i_counts _ _ _ HI q _ (group_view_at w q g Hq)) as E. cbn [c_counts bare c_set_rolls c_set_refs group_core c_raid c_slots] in E.
    rewrite E. destruct (isRaidGroup g); [|done]. f_equal. apply map_ext. intros k. now rewrite in_group_core.
  - intros q g Hq. pose proof (members_count (isRaidGroup g) g (Hslots q g Hq)) as E. rewrite members_core in E. unfold zlen in *. rewrite length_map in E.
    split; [done|]. rewrite E. pose proof (slots_bound _ _ (Hslots q g Hq)) as H. unfold zlen in H. rewrite length_map in H. destruct (isRaidGroup g); [change (MAXGROUPSIZE * sub_limit true) with 40 in H; change MAXRAIDSIZE with 40|change (MAXGROUPSIZE * sub_limit false) with 5 in H; change MAXGROUPSIZE with 5]; lia.
  - intros q g s Hq Hin. apply (i_players _ _ _ HI). right. assert (Hm : s_guid s ∈ members (bare (group_core g))).
    { rewrite members_core. now apply list_elem_of_fmap_2. }
    rewrite (i_members _ _ _ HI q _ _ (group_view_at w q g Hq)) in Hm. unfold kind in Hm. destruct (c_pvp _); [left|right]; congruence.
  - intros p x Hp. apply (ln_subs _ (sn_links _ Hs) p (player_core x)). cbn. now rewrite lookup_fmap, Hp.
Qed.
Lemma member_home hb hn w p q g : Inv hb hn (view (core w)) -> w_heap w !! q = Some g -> (IsMember g p = true <-> kind (is_pvp g) hb hn p = Some q).
Proof. intros HI Hq. rewrite IsMember_in. exact (i_members _ _ _ HI q _ p (group_view_at w q g Hq)). Qed.
Lemma member_of_home hb hn w p q : Inv hb hn (view (core w)) -> member_of w p q <-> hb p = Some q \/ hn p = Some q.
Proof.
  intros HI. split.
  - intros (g & Hq & Hm). rewrite (member_home hb hn w p q g HI Hq) in Hm. destruct (is_pvp g); auto.
  - intros H. assert (Hk : exists b, kind b hb hn p = Some q) by (destruct H; [now exists true|now exists false]). destruct Hk as [b Hk].
    destruct (i_live _ _ _ HI b p q Hk) as (gc & Hq & Ep). apply group_of_view in Hq as (g & Hq & ->). exists g. split; [done|].
    apply (member_home hb hn w p q g HI Hq). change (is_pvp g) with (c_pvp (bare (group_core g))). now rewrite Ep.
Qed.
Lemma refs_home hb hn w p x b : Inv hb hn (view (core w)) -> w_players w !! p = Some x -> ref_of b x = canon (hb p) (hn p) b.
Proof. intros HI Hp. rewrite <- (i_rf _ _ _ HI p b) by now rewrite (player_view w p x Hp). symmetry. exact (rf_at w p x b Hp). Qed.
Lemma in_bg_home hb hn w p q : Inv hb hn (view (core w)) -> in_bg w p q <-> hb p = Some q.
Proof.
  intros HI. split.
  - intros (g & Hq & Hm & Ep). rewrite (member_home hb hn w p q g HI Hq), Ep in Hm. exact Hm.
  - intros H. destruct (i_live _ _ _ HI true p q H) as (gc & Hq & Ep). apply group_of_view in Hq as (g & Hq & ->). exists g. split; [done|].
    split; [|exact Ep]. apply (member_home hb hn w p q g HI Hq). change (is_pvp g) with (c_pvp (bare (group_core g))). rewrite Ep. exact H.
Qed.
Lemma sound_linked w : sound w -> linked w.
Proof.
  intros [Hs (hb & hn & HI & HL)]. pose proof (fun q g => group_view_at w q g) as Hv. split.
  - intros q g Hq. rewrite <- members_core. exact (so_once _ _ (i_slots _ _ _ HI q _ (Hv q g Hq))).
  - intros p q q' g g' Hq Hq' Hm Hm' Ep. rewrite (member_home hb hn w p _ _ HI Hq) in Hm. rewrite (member_home hb hn w p _ _ HI Hq') in Hm'. congruence.
  - intros p x q Hp. rewrite (member_of_home hb hn w p q HI). pose proof (refs_home hb hn w p x false HI Hp) as Ef. pose proof (refs_home hb hn w p x true HI Hp) as Eo.
    cbn in Ef, Eo. rewrite Ef, Eo. unfold canon. destruct (hb p); naive_solver.
  - intros p x q Hp Ho. pose proof (refs_home hb hn w p x false HI Hp) as Ef. pose proof (refs_home hb hn w p x true HI Hp) as Eo. cbn in Ef, Eo.
    rewrite Ho in Eo. unfold canon in *. destruct (hb p) as [b|] eqn:Eb; [|done]. exists b. split; [done|]. rewrite !(in_bg_home hb hn w p _ HI).
    split; [done|]. rewrite Eb. intros [= ->]. symmetry in Eo. exact (kind_other hb hn _ true p q HI Eb Eo).
  - intros q g p b Hq. split.
    + intros Hin. destruct (ln_from _ (sn_links _ Hs) q (group_core g) p b) as (pc & Hp & Hr); [cbn; now rewrite lookup_fmap, Hq|done|].
      cbn in Hp. rewrite lookup_fmap in Hp. destruct (w_players w !! p) as [x|]; [|done]. injection Hp as <-. exists x. split; [done|]. now rewrite ref_of_core in Hr.
    + intros (x & Hp & Hr). destruct (ln_to _ (sn_links _ Hs) p (player_core x) b q) as (gc & Hg & Hin); [cbn; now rewrite lookup_fmap, Hp|now rewrite ref_of_core|].
      cbn in Hg. rewrite lookup_fmap, Hq in Hg. now injection Hg as <-.
  - intros q g Hq Hc. pose proof (HL q _ (Hv q g Hq)) as [_ Hl]. destruct (created_count hb hn _ q _ g HI HL (Hv q g Hq) eq_refl) as [_ Hr].
    rewrite decide_True in Hl by now apply Hr. now apply IsMember_in.
  - intros p x q Hp. pose proof (i_invited _ _ _ HI p q) as E. rewrite (player_view w p x Hp) in E. split.
    + intros Hi. destruct (proj1 E) as (gc & Hq & Hin); [congruence|]. apply group_of_view in Hq as (g & Hq & ->). now exists g.
    + intros (g & Hq & Hin). assert (H : Some (gp_invite x) = Some (Some q)) by (apply E; exists (bare (group_core g)); split; [now apply Hv|done]). congruence.
  - intros p x q g Hp Hi Hq Hm. destruct (gp_invite x) as [j|] eqn:Ei; [|done].
    pose proof (i_pending _ _ _ HI p j) as H. rewrite (player_view w p x Hp), Ei in H. specialize (H eq_refl).
    rewrite (member_home hb hn w p q g HI Hq) in Hm. destruct (is_pvp g); [done|]. cbn in Hm. congruence.
  - intros p store sub. pose proof (i_rows _ _ _ HI p (store, sub)) as E. cbn [fst snd v_dbMembers view core k_dbMembers] in E. rewrite lookup_fmap in E. split.
    + intros (r & Hr & <- & <-). rewrite Hr in E. destruct (proj1 E eq_refl) as (q & gc & Hn & Hq & Hin & Es). destruct (i_live _ _ _ HI false p q Hn) as (gc' & Hq' & Ep).
      rewrite Hq in Hq'. injection Hq' as <-. apply group_of_view in Hq as (g & Hq & ->). apply list_elem_of_fmap in Hin as (s & E1 & Hin). injection E1 as -> ->.
      now exists q, g, s.
    + intros (q & g & s & Hq & Ep & Hin & <- & <- & <-). destruct (w_dbMembers w !! s_guid s) as [r|] eqn:Er.
      * assert (H : member_core <$> Some r = Some (m_dbStoreId g, s_group s)); [|injection H as <- <-; now exists r]. apply E.
        exists q, (bare (group_core g)). assert (Hk := proj1 (member_home hb hn w (s_guid s) q g HI Hq)). rewrite Ep in Hk. split; [apply Hk|].
        { apply IsMember_in. rewrite members_core. now apply list_elem_of_fmap_2. }
        split; [now apply Hv|]. split; [now apply (list_elem_of_fmap_2 slot_core)|done].
      * assert (H : None = Some (m_dbStoreId g, s_group s)); [|discriminate H]. apply E.
        exists q, (bare (group_core g)). assert (Hk := proj1 (member_home hb hn w (s_guid s) q g HI Hq)). rewrite Ep in Hk. split; [apply Hk|].
        { apply IsMember_in. rewrite members_core. now apply list_elem_of_fmap_2. }
        split; [now apply Hv|]. split; [now apply (list_elem_of_fmap_2 slot_core)|done].
  - intros q g Hq Hc Ep. destruct (created_count hb hn _ q _ g HI HL (Hv q g Hq) eq_refl) as [_ Hr]. pose proof (i_stored _ _ _ HI) as HS.
    destruct (st_store _ _ _ _ HS q (m_guid g) (m_dbStoreId g)) as [H1 H2]; [|now apply Hr|].
    { rewrite lookup_fmap, (Hv q g Hq). cbn. unfold settings. cbn. now rewrite Ep. }
    split; [exact H2|]. assert (Hdb : m_dbStoreId g ∈ v_dbGroups (view (core w))) by (apply (st_db _ _ _ _ HS); split; [lia|]; cbn in H2 |- *; now rewrite H2).
    cbn in Hdb. now apply elem_of_dom in Hdb as [r ->].
  - intros low q Hl. destruct (st_low _ _ _ _ (i_stored _ _ _ HI) low q Hl) as (guid & store & b & Hh & Hg & El). rewrite lookup_fmap in Hh.
    destruct (v_groups (view (core w)) !! q) as [gc|] eqn:Eq; [|done]. apply group_of_view in Eq as (g & Hq & ->). injection Hh as E _ _. exists g.
    split; [done|]. unfold GetLowGUID. now rewrite E.
  - intros bg side q Hside. destruct (side_group hb hn _ bg side q HI HL Hside) as (gc & Hgc & Eb & _ & Hr & Er). apply group_of_view in Hgc as (g & Hq & ->).
    exists g. split; [done|]. split; [exact Eb|]. split; [|exact Er]. now apply (created_count hb hn _ q _ g HI HL (Hv q g Hq) eq_refl).
  - intros q g bg Hq Hb. assert (Hh : bgs (view (core w)) !! q = Some (Some bg)) by (unfold bgs; rewrite lookup_fmap, (Hv q g Hq); cbn; now rewrite Hb).
    destruct (sd_of _ _ (i_sides _ _ _ HI) q bg Hh) as [side Hsd]. exists side. intros k. split; [|now intros ->].
    intros Hk. exact (sd_once _ _ (i_sides _ _ _ HI) k (bg, side) q Hk Hsd).
Qed.
End Runs.

(** ** The claims *)

Section Claims.
Context `{scripts : GroupScripts} `{outside : GroupOutside} `{loots : LootView} `{laws : !GroupScriptLaws} `{rules : PartyRules} `{forming : !FormScripts} `{form_laws : !FormLaws}.
Context (lfg_kicks : Script -> Z -> Z) (lfg_state : Script -> Z -> LfgState).

(** C1. In every world that a run of [allowed] requests of players, the server and the
    dungeon finder leads to, in whatever order they come, every player is in at most
    one battleground group and one other group, his references point there, groups
    list the references to them, a created group is led by a member, and invitations,
    numbers of groups and the table of members agree with the groups.  [allowed] asks
    what the code does not: that nobody invites himself or accepts his own invitation,
    that who enters a battleground has no pending invitation
    ([invited_into_battleground]) and is in no other one, and who leaves one is in its
    group, that numbers for groups are left and that proposals are [formable]. *)
Theorem reachable_linked w0 w : sound w0 -> reach lfg_kicks lfg_state w0 w -> linked w.
Proof. intros H Hr. apply sound_linked. exact (reach_sound lfg_kicks lfg_state w0 w H Hr). Qed.

(** C15. In every world reached by [allowed] requests the fields have values of their
    types: sub groups are those of a party or a raid with at most five members each,
    the counters of a raid are exactly the sizes of its sub groups, sizes do not wrap
    around, and the sub group of a reference is no negative [int8]. *)
Theorem reachable_typed w0 w : sound w0 -> reach lfg_kicks lfg_state w0 w -> typed w.
Proof. intros H Hr. apply sound_typed. exact (reach_sound lfg_kicks lfg_state w0 w H Hr). Qed.

(** C2. Every [allowed] request is handled: in each world that a run of allowed requests
    leads to it returns, that is no group or player is used after it is gone, no
    counter is out of its array, no assertion fails, and the next request finds such a
    world again.  Not allowed, and crashing, are the acceptance after inviting oneself
    and what follows when an invited player enters a battleground. *)
Theorem requests_return w0 w r :
  sound w0 -> reach lfg_kicks lfg_state w0 w -> allowed w r -> exists w', run_request lfg_kicks lfg_state r w = (Ret tt, w') /\ reach lfg_kicks lfg_state w0 w'.
Proof.
  intros H Hr Ha. destruct (request_runs lfg_kicks lfg_state w r (reach_sound lfg_kicks lfg_state w0 w H Hr) Ha) as (w' & E & _).
  exists w'. split; [done|]. exact (reach_step lfg_kicks lfg_state w0 w r (Ret tt) w' Hr Ha E).
Qed.
End Claims.

(** ** Checking a run *)

Section Check.
Context `{scripts : GroupScripts} `{outside : GroupOutside} `{loots : LootView} `{rules : PartyRules} `{forming : !FormScripts}.
Context (lfg_kicks : Script -> Z -> Z) (lfg_state : Script -> Z -> LfgState).

Definition connectedb (w : GW) (p : Z) : bool := bool_decide (w_players w !! p <> None).
Definition outside_bgb (w : GW) (p : Z) : bool := forallb (fun e => negb (IsMember e.2 p && is_pvp e.2)) (map_to_list (w_heap w)).
Definition memberb (w : GW) (p q : Z) : bool := match w_heap w !! q with Some g => IsMember g p | None => false end.
Definition in_sideb (w : GW) (p : Z) (k : Z * bool) : bool := match w_bgRaids w !! k with Some q => memberb w p q | None => true end.
Definition sub_okb (z : Z) : bool := (0 <=? z) && (z <? 128).
Definition loadedb (p : GPlayer) : bool :=
  bool_decide (gp_group p = None /\ gp_original p = None /\ gp_invite p = None) && sub_okb (gp_subgroup p) && sub_okb (gp_originalSub p).
(** [allowed], decided. *)
Definition formableb (w : GW) (p : LfgProposal) : bool :=
  let l := keys Z.le (p_players p) in
  bool_decide (fs_GetLFGDungeon (w_script w) (dungeonId p) <> None) && (zlen (GroupDbStore (w_mgr w)) <? 0xFFFFFFFE) && (zlen l <=? MAXGROUPSIZE) &&
  forallb (fun x => match w_players w !! x with Some y => bool_decide (gp_invite y = None) && outside_bgb w x | None => true end) l &&
  match found_group (w_mgr w) p with
  | Some q => match w_heap w !! q with
              | Some g => negb (is_pvp g) && forallb (fun s => bool_decide (s_guid s ∈ l)) (m_memberSlots g)
              | None => true end
  | None => existsb (fun x => match w_players w !! x with Some y => gp_in_world y | None => false end) l
  end.
Definition allowedb (w : GW) (r : request) : bool :=
  match r with
  | Invite me name => connectedb w me && match named w name with Ret o => negb (bool_decide (o = Some me)) | _ => true end
  | Accept me => connectedb w me && (zlen (GroupDbStore (w_mgr w)) <? 0xFFFFFFFE) &&
      match w_players w !! me with
      | Some p => match gp_invite p with
        | Some q => match w_heap w !! q with Some g => negb (m_leaderGuid g =? me) | None => true end
        | None => true end
      | None => true end
  | ChangeSubGroup me _ n => connectedb w me && (0 <=? n)
  | Decline me | UninviteGuid me _ _ | Uninvite me _ | SetLeader me _ | Leave me | LootMethod me _ _ _ | RaidConvert me
  | AssistantLeader me _ _ | PartyAssignment me _ _ _ => connectedb w me
  | Logout me _ visit => connectedb w me && match visit_side visit with Some k => in_sideb w me k | None => true end
  | Login me p current => negb (connectedb w me) && (0 <=? me) && (me <? 2 ^ 32) && loadedb p &&
      match current with Some k => match w_bgRaids w !! k with Some q => memberb w me q | None => false end | None => outside_bgb w me end
  | EnterBg _ _ me => match w_players w !! me with Some p => bool_decide (gp_invite p = None) | None => false end && outside_bgb w me
  | LeaveBg bg side me => in_sideb w me (bg, side)
  | Remove q guid _ => memberb w guid q
  | Form p => formableb w p
  end.
Lemma outside_bgb_ok w p : outside_bgb w p = true -> forall q, ~ in_bg w p q.
Proof.
  unfold outside_bgb. rewrite forallb_forall. intros H q (g & Hq & Hm & Ep). specialize (H (q, g)). cbn in H. rewrite Hm, Ep in H. apply elem_of_map_to_list in Hq.
  rewrite <- list_elem_of_In in H. now specialize (H Hq).
Qed.
Lemma memberb_ok w p q : memberb w p q = true -> member_of w p q.
Proof. unfold memberb, member_of. destruct (w_heap w !! q) as [g|]; [|done]. intros H. now exists g. Qed.
Lemma in_sideb_ok w p k : in_sideb w p k = true -> in_side w p k.
Proof. unfold in_sideb. intros H q Hq. rewrite Hq in H. now apply memberb_ok. Qed.
Lemma loadedb_ok p : loadedb p = true -> loaded p.
Proof.
  unfold loadedb, sub_okb. intros [[H1 H2]%andb_prop H3]%andb_prop. apply bool_decide_eq_true in H1 as (? & ? & ?). split; try done. unfold sub_ok. lia.
Qed.
Lemma formableb_ok w p : formableb w p = true -> formable w p.
Proof.
  unfold formableb. rewrite !andb_true_iff. intros [[[[H1%bool_decide_eq_true H2] H3] H4] H5]. rewrite forallb_forall in H4. split.
  - destruct (fs_GetLFGDungeon _ _) as [d|]; [now exists d|done].
  - unfold ids_left. lia.
  - lia.
  - intros x y Hx Hy. specialize (H4 x). rewrite <- list_elem_of_In, elem_of_keys, Hy in H4. apply andb_prop in H4 as [Hi Ho]; [|done].
    apply bool_decide_eq_true in Hi. split; [done|]. now apply outside_bgb_ok.
  - intros q g Hq Hg. rewrite Hq, Hg in H5. apply andb_prop in H5 as [Hp Hs]. apply negb_true_iff in Hp. split; [done|].
    intros x Hx. rewrite forallb_forall in Hs. apply IsMember_in in Hx. rewrite members_core in Hx. apply list_elem_of_fmap in Hx as (s & -> & Hin).
    rewrite list_elem_of_In in Hin. apply Hs, bool_decide_eq_true, elem_of_keys in Hin. exact Hin.
  - destruct (found_group (w_mgr w) p) as [q|]; [now left|right]. apply existsb_exists in H5 as (x & Hx & H5). rewrite <- list_elem_of_In, elem_of_keys in Hx.
    destruct (w_players w !! x) as [y|] eqn:Ey; [|done]. now exists x, y.
Qed.
Lemma allowedb_ok w r : allowedb w r = true -> allowed w r.
Proof.
  destruct r; cbn [allowedb allowed]; rewrite ?andb_true_iff; unfold connectedb, connected; try (now intros H%bool_decide_eq_true).
  - intros [H1%bool_decide_eq_true H2]. split; [done|]. intros E. rewrite E in H2. now rewrite bool_decide_eq_true_2 in H2.
  - intros [[H1%bool_decide_eq_true H2] H3]. split; [done|]. split; [unfold ids_left; lia|]. intros p q g Hp Hi Hq.
    rewrite Hp, Hi, Hq in H3. lia.
  - intros [H1%bool_decide_eq_true H2]. split; [done|lia].
  - intros [[[[H1 H2] H3] H4] H5]. apply negb_true_iff, bool_decide_eq_false in H1. split; [done|]. split; [unfold is_u; lia|]. split; [now apply loadedb_ok|].
    destruct current as [k|]; cbn; [|now apply outside_bgb_ok]. destruct (w_bgRaids w !! k) as [q|]; [|done]. exists q. split; [done|now apply memberb_ok].
  - intros [H1%bool_decide_eq_true H2]. split; [done|]. intros k Hk. rewrite Hk in H2. now apply in_sideb_ok.
  - intros [H1 H2]. split; [|now apply outside_bgb_ok].
    destruct (w_players w !! me) as [p|]; [|done]. exists p. split; [done|]. now apply bool_decide_eq_true in H1.
  - apply in_sideb_ok.
  - apply memberb_ok.
  - apply formableb_ok.
Qed.
Fixpoint run_all (l : list request) (w : GW) : GW :=
  match l with [] => w | r :: l => run_all l (run_request lfg_kicks lfg_state r w).2 end.
Fixpoint all_allowed (l : list request) (w : GW) : bool :=
  match l with [] => true | r :: l => allowedb w r && all_allowed l (run_request lfg_kicks lfg_state r w).2 end.
Lemma reach_all w0 l w : reach lfg_kicks lfg_state w0 w -> all_allowed l w = true -> reach lfg_kicks lfg_state w0 (run_all l w).
Proof.
  revert w. induction l as [|r l IH]; intros w H Ha; [done|]. cbn [all_allowed run_all] in *. apply andb_prop in Ha as [H1 H2]. apply IH; [|done].
  apply (reach_step lfg_kicks lfg_state w0 w r (run_request lfg_kicks lfg_state r w).1); [done|now apply allowedb_ok|apply surjective_pairing].
Qed.
End Check.

(** ** A world and a run *)

Module Demo.
Definition demo_outside : GroupOutside := mkGroupOutside (fun _ => None) (fun p => mkPlace p 0 0 0 0 0) (fun _ _ => false) (fun _ => true) (fun _ => 0).
Definition demo_rules : PartyRules :=
  mkPartyRules Some true true (fun _ => false) (fun _ => 0) (fun _ => 0) (fun _ => 0) (fun _ _ => false) (fun _ => false) (fun _ _ => false) (fun _ => 0).
#[export] Existing Instance demo_outside.
#[export] Existing Instance demo_rules.
#[export] Existing Instance loot_sample_view.
#[export] Instance demo_scripts : GroupScripts := finder_scripts LFGMgr.sample_world.
#[export] Instance demo_laws : GroupScriptLaws.
Proof. apply finder_laws. exact sample_random. Qed.
#[export] Instance demo_form : FormScripts := finder_form LFGMgr.sample_world.
#[export] Instance demo_form_laws : FormLaws.
Proof. apply finder_form_laws. Qed.
(** Nobody is connected and there are no groups; the finder is enabled and knows
    dungeon 1. *)
Definition finder : LFGMgr.Mgr :=
  LFGMgr.mkMgr 0 3 1 0 (LfgDungeons.mkDungeons {[1 := LfgDungeons.mkLFGDungeonData 1 [] 0 LfgDungeons.LFG_TYPE_DUNGEON 0 0 0 80 0 false 0 0 0 0]} ∅ []) ∅ ∅ ∅ ∅ ∅ ∅ [].
Definition empty_world : GW :=
  mkGW ∅ 1 (mkGroupMgr 1 1 ∅ []) ∅ (finder : Script) (mkLootRest ∅ 1 ∅ 0 []) ∅ ∅ ∅ [].
Definition player (name : list Z) : GPlayer := mkGPlayer name None 0 None 0 None false 0 0 80 0 true false.
Lemma empty_sound : sound empty_world.
Proof.
  split.
  - split; [split|split|..]; try (intros *; cbn; rewrite ?fmap_empty, ?lookup_empty; discriminate).
    split; [apply Forall_nil_2|apply NoDup_nil_2|cbn; lia].
  - exists (fun _ => None), (fun _ => None). split.
    + assert (E : forall q, v_groups (view (core empty_world)) !! q = None) by reflexivity.
      assert (Ep : forall q, v_invite (view (core empty_world)) !! q = None) by reflexivity.
      split; try (intros *; rewrite E; discriminate).
      * intros [] p q; discriminate.
      * intros p b. rewrite Ep. done.
      * intros p H. rewrite Ep in H. tauto.
      * intros p q. rewrite Ep. split; [discriminate|]. intros (gc & Hq & _). now rewrite E in Hq.
      * intros p q. rewrite Ep. discriminate.
      * intros p e. cbn. rewrite fmap_empty, lookup_empty. split; [discriminate|]. intros (q & gc & H & _). discriminate.
      * split; try (intros *; cbn; rewrite ?fmap_empty, ?lookup_empty; discriminate).
        -- split_and!; [cbn; lia|reflexivity|cbn; lia].
        -- cbn. unfold is_u. lia.
        -- intros store q _. unfold GetGroupByDbStoreId. cbn. case_if; discriminate.
        -- intros store. unfold GetGroupByDbStoreId. cbn. split; [intros H%elem_of_empty; done|]. intros [_ H]. destruct H. now case_if.
        -- intros q H. now destruct H.
      * split; try (intros *; cbn; rewrite lookup_empty; discriminate). intros q bg H. discriminate H.
    + intros q gc. cbn. rewrite !fmap_empty, lookup_empty. discriminate.
Qed.
(** Three players meet, form a raid and get leaders; all go to a battleground, and
    one logs out of it and in again. *)
Definition story : list request :=
  [Login 1 (player (str "Ann")) None; Login 2 (player (str "Bob")) None; Login 3 (player (str "Cid")) None;
   Invite 1 (str "Bob"); Accept 2; RaidConvert 1; Invite 1 (str "Cid"); Accept 3; SetLeader 1 2; ChangeSubGroup 2 (str "Cid") 4;
   EnterBg 7 true 2; EnterBg 7 true 1; EnterBg 7 false 3; LeaveBg 7 false 3; EnterBg 8 false 3;
   Logout 3 true (Some (mkBgVisit 8 false true false STATUS_IN_PROGRESS false false 1 1)); Login 3 (player (str "Cid")) None].
Definition kicks (m : Script) (g : Z) : Z := LFGMgr.GetKicksLeft m g.
Definition state (m : Script) (g : Z) : LfgState := LFGMgr.GetState m g.
Definition met : GW := run_all kicks state story empty_world.
Lemma met_reached : reach kicks state empty_world met.
Proof. apply reach_all; [apply reach_start|]. vm_compute. reflexivity. Qed.

(** Why a battleground takes nobody with an invitation: joining its group forgets the
    invitation but not the invitee.  When he is gone, the inviter's logout or decline
    uses the player object that was deleted. *)
Definition forgotten : GW :=
  run_all kicks state [Login 1 (player (str "Ann")) None; Login 2 (player (str "Bob")) None; Invite 1 (str "Bob"); EnterBg 7 true 2;
    Logout 2 true (Some (mkBgVisit 7 true true false STATUS_IN_PROGRESS false false 1 1))] empty_world.
Example invited_into_battleground : (run_request kicks state (Logout 1 true None) forgotten).1 = Crash /\ (run_request kicks state (Decline 1) forgotten).1 = Crash.
Proof. vm_compute. split; reflexivity. Qed.

Lemma reachable_linked_witness : reach kicks state empty_world met /\ linked met.
Proof. split; [exact met_reached|]. exact (reachable_linked kicks state empty_world met empty_sound met_reached). Defined.
Lemma reachable_typed_witness : reach kicks state empty_world met /\ typed met.
Proof. split; [exact met_reached|]. exact (reachable_typed kicks state empty_world met empty_sound met_reached). Defined.
(** The leader kicks somebody. *)
Lemma requests_return_witness :
  allowed met (Uninvite 2 (str "Cid")) /\ exists w', run_request kicks state (Uninvite 2 (str "Cid")) met = (Ret tt, w') /\ reach kicks state empty_world w'.
Proof.
  assert (H : allowed met (Uninvite 2 (str "Cid"))) by (apply allowedb_ok; vm_compute; reflexivity).
  split; [exact H|]. exact (requests_return kicks state empty_world met _ empty_sound met_reached H).
Defined.
End Demo.
