(* ===== verification/GroupFates.v ===== *)
(** * Groups: what one request does, in the words of the source

    How a member leaves and who leads after him, when a group has no room, what a
    player finds who logs in again, a request that leaves a pointer to a group that is
    gone, and the group that an accepted proposal of the dungeon finder becomes. *)

From stdpp Require Import base gmap list strings.
From Stdlib Require Import ZArith Lia FunctionalExtensionality.
From S2P Require Import Prelude StdMap Util ObjectGuid LfgRoles LfgData LfgMgr LfgInvariant LfgScripts ActionLogic GroupTypes GroupMgr GroupLoot GroupLootInv GroupWorld Group GroupCore GroupView GroupFinder GroupOps GroupInv GroupHandler GroupReach GroupRequests GroupPlay GroupForm GroupRuns.
#[local] Open Scope Z_scope.

Section Fates.
Context `{scripts : GroupScripts} `{outside : GroupOutside} `{loots : LootView} `{laws : !GroupScriptLaws} `{rules : PartyRules}.

Definition roster (g : Group) : list Z := map s_guid (m_memberSlots g).
(** Nobody is in the group or invited to it, and neither manager, table nor
    battleground know it. *)
Record disbanded (q : Z) (g : Group) (w : GW) : Prop := mk_disbanded {
  db_gone : w_heap w !! q = None;
  db_players p x : w_players w !! p = Some x -> gp_group x <> Some q /\ gp_original x <> Some q /\ gp_invite x <> Some q;
  db_found low : GetGroupByGUID (w_mgr w) low <> Some q;
  db_stored store : 0 <= store -> GetGroupByDbStoreId (w_mgr w) store <> Some q;
  db_rows p r : is_pvp g = false -> w_dbMembers w !! p = Some r -> mr_guid r <> m_dbStoreId g;
  db_side k : w_bgRaids w !! k <> Some q
}.
(** The member is out of the group, and the first of the others who is connected
    leads when he was the leader. *)
Record parted (q p : Z) (g : Group) (w w' : GW) : Prop := mk_parted {
  lg_roster : exists g', w_heap w' !! q = Some g' /\ roster g' = filter (fun x => x <> p) (roster g) /\
    m_leaderGuid g' = if m_leaderGuid g =? p
                      then default p (List.find (fun x => bool_decide (w_players w !! x <> None)) (filter (fun x => x <> p) (roster g)))
                      else m_leaderGuid g;
  lg_refs x : w_players w' !! p = Some x -> gp_group x <> Some q /\ gp_original x <> Some q;
  lg_others j h : j <> q -> w_heap w !! j = Some h -> exists h', w_heap w' !! j = Some h' /\ roster h' = roster h
}.

(** How many members a group needs for one to leave without its end, and who of the
    others is connected. *)
Definition least (g : Group) : Z := if is_pvp g || isLFGGroup g then 1 else 2.
Definition others_here (w : GW) (p : Z) (g : Group) : list Z :=
  filter (fun x => w_players w !! x <> None) (filter (fun x => x <> p) (roster g)).

(** ** A member leaves *)

Lemma roster_core g : members (bare (group_core g)) = roster g.
Proof. apply members_core. Qed.
Lemma delete_filter (l : list (Z * Z)) i p k :
  NoDup (map fst l) -> l !! i = Some (p, k) -> map fst (base.delete i l) = filter (fun x => x <> p) (map fst l).
Proof.
  intros Hn Hi. rewrite <- (take_drop_middle l i _ Hi) in Hn |- * at 2. rewrite delete_take_drop, !map_app, filter_app. cbn [map fst] in Hn |- *.
  rewrite map_app in Hn. cbn [map fst] in Hn. rewrite filter_cons_False by tauto. apply NoDup_app in Hn as (_ & H1 & [H2 _]%NoDup_cons).
  rewrite !filter_all; [done| |]; intros x Hx; [intros ->; apply H2; done|intros ->; apply (H1 p Hx); left].
Qed.
Lemma erase_roster hb hn v q gc p : Inv hb hn v -> v_groups v !! q = Some gc -> p ∈ members gc -> members (c_erase p gc) = filter (fun x => x <> p) (members gc).
Proof.
  intros HI Hq Hp. destruct (find_member p gc Hp) as (i & k & Ef & Hl). unfold c_erase. rewrite Ef. unfold members. cbn.
  exact (delete_filter _ i p k (so_once _ _ (i_slots _ _ _ HI q gc Hq)) Hl).
Qed.
(** What the invariant says of a group that is gone. *)
Lemma gone_disbanded hb hn w q g w' pvp :
  Inv hb hn (view (core w)) -> w_heap w !! q = Some g -> registered (bare (group_core g)) -> pvp = is_pvp g ->
  gone hb hn (view (core w)) q pvp (view (core w')) -> disbanded q g w'.
Proof.
  intros HI Hq Hreg -> [HI' Hg _ _ Hsides _]. set (hb' := if is_pvp g then drop hb q else hb) in *. set (hn' := if is_pvp g then hn else drop hn q) in *.
  pose proof (group_view_at w q g Hq) as Hv.
  assert (Hnone : w_heap w' !! q = None).
  { destruct (w_heap w' !! q) as [g'|] eqn:E; [|done]. apply group_view_at in E. rewrite Hg, lookup_delete_eq in E. done. }
  split; [done| | | | |].
  - intros p x Hp. assert (Hr : forall b, ref_of b x <> Some q).
    { intros b Hb. rewrite (refs_home hb' hn' w' p x b HI' Hp) in Hb. assert (H : member_of w' p q).
      { apply (member_of_home hb' hn' w' p q HI'). unfold canon in Hb. destruct (hb' p), b; naive_solver. }
      destruct H as (g' & Hg' & _). congruence. }
    split; [exact (Hr false)|]. split; [exact (Hr true)|]. intros Hi. pose proof (player_view w' p x Hp) as Hpv. rewrite Hi in Hpv.
    apply (i_invited _ _ _ HI') in Hpv as (gc & Hgc & _). apply group_of_view in Hgc as (g' & Hg' & _). congruence.
  - intros low Hl. destruct (st_low _ _ _ _ (i_stored _ _ _ HI') low q Hl) as (? & ? & ? & Hh & _). rewrite lookup_fmap, Hg, lookup_delete_eq in Hh. done.
  - intros store Hs Hl. destruct (st_stored _ _ _ _ (i_stored _ _ _ HI') store q Hs Hl) as (? & Hh & _). rewrite lookup_fmap, Hg, lookup_delete_eq in Hh. done.
  - intros p r Ep Hr Es. pose proof (i_rows _ _ _ HI' p (member_core r)) as [Hrow _]. cbn [v_dbMembers view core k_dbMembers] in Hrow. rewrite lookup_fmap, Hr in Hrow.
    destruct (Hrow eq_refl) as (j & gj & Hn & Hj & _ & Ej). change (member_core r).1 with (mr_guid r) in Ej. rewrite Hg in Hj. apply lookup_delete_Some in Hj as [Hne Hj].
    apply Hne. unfold hn' in Hn. rewrite Ep in Hn. unfold drop in Hn. case_decide; [done|]. destruct (i_live _ _ _ HI false p j Hn) as (gj' & Hj' & Epj). rewrite Hj in Hj'. injection Hj' as <-.
    assert (Hreg' : registered gj). { apply (member_registered hb hn _ j gj p HI Hj). rewrite (i_members _ _ _ HI j gj p Hj), Epj. exact Hn. }
    pose proof (st_store _ _ _ _ (i_stored _ _ _ HI) j (c_guid gj) (c_store gj)) as H1. rewrite lookup_fmap, Hj in H1. cbn in H1. unfold settings in H1. rewrite Epj in H1. destruct (H1 eq_refl Hreg') as [_ H1'].
    pose proof (st_store _ _ _ _ (i_stored _ _ _ HI) q (m_guid g) (m_dbStoreId g)) as H2. rewrite lookup_fmap, Hv in H2. cbn in H2. unfold settings in H2. cbn in H2. rewrite Ep in H2. destruct (H2 eq_refl Hreg) as [_ H2'].
    rewrite Ej, Es in H1'. congruence.
  - intros k Hk. change (w_bgRaids w') with (v_bgRaids (view (core w'))) in Hk. rewrite Hsides in Hk. now apply map_lookup_filter_Some in Hk as [_ Hk].
Qed.
Lemma removed_leader q p gc v :
  v_groups v !! q = Some gc -> exists gc', v_groups (v_removed q p gc v) !! q = Some gc' /\ members gc' = members (c_erase p gc) /\
    c_leader gc' = if c_leader gc =? p then default p (List.find (fun x => bool_decide (v_invite v !! x <> None)) (members (c_erase p gc))) else c_leader gc.
Proof.
  intros Hq. destruct (erase_settings p gc) as (_ & _ & _ & El). assert (H1 : v_groups (v_left q p gc v) !! q = Some (c_erase p gc)).
  { now rewrite left_group, lookup_alter_eq, Hq. }
  unfold v_removed, v_led. rewrite left_players, El. destruct (Z.eqb_spec (c_leader gc) p) as [E|_]; [|exists (c_erase p gc); split_and!; [exact H1|reflexivity|exact El]].
  destruct (List.find _ _) as [l|]; [|exists (c_erase p gc); split_and!; [exact H1|reflexivity|now rewrite El, E]].
  eexists. split; [exact (on_group_at q _ (c_set_leader l) _ H1)|split; reflexivity].
Qed.
Lemma removed_others q p gc v j : j <> q -> v_groups (v_removed q p gc v) !! j = v_groups v !! j.
Proof.
  intros Hne. assert (H1 : v_groups (v_left q p gc v) !! j = v_groups v !! j) by (rewrite left_group; now apply lookup_alter_ne).
  unfold v_removed, v_led. destruct (c_leader _ =? p); [|done]. destruct (List.find _ _); [|done]. cbn. now rewrite lookup_alter_ne.
Qed.
Lemma find_ext {A} (f g : A -> bool) l : (forall x, f x = g x) -> List.find f l = List.find g l.
Proof. intros H. induction l as [|x l IH]; cbn; [done|]. rewrite H. now destruct (g x). Qed.
Lemma same_roster w w' q g : w_heap w !! q = Some g -> v_groups (view (core w')) !! q = v_groups (view (core w)) !! q ->
  exists g', w_heap w' !! q = Some g' /\ bare (group_core g') = bare (group_core g).
Proof. intros Hq E. rewrite (group_view_at w q g Hq) in E. apply group_of_view in E as (g' & Hg' & E). now exists g'. Qed.
Lemma removed_left hb hn w q p g w' :
  Inv hb hn (view (core w)) -> w_heap w !! q = Some g -> IsMember g p = true ->
  view (core w') = v_removed q p (bare (group_core g)) (view (core w)) -> parted q p g w w'.
Proof.
  intros HI Hq Hm Ev. pose proof (group_view_at w q g Hq) as Hv. apply IsMember_in in Hm.
  pose proof (erase_roster hb hn _ q _ p HI Hv Hm) as Er. rewrite roster_core in Er.
  assert (Hk : kind (is_pvp g) hb hn p = Some q) by (rewrite (i_members _ _ _ HI q _ p Hv) in Hm; exact Hm).
  pose proof (Inv_removed hb hn _ q p _ HI Hv Hk) as HI'. change (c_pvp (bare (group_core g))) with (is_pvp g) in HI'. rewrite <- Ev in HI'. split.
  - destruct (removed_leader q p _ _ Hv) as (gc' & Hg' & Em & El). rewrite <- Ev in Hg'. apply group_of_view in Hg' as (g' & Hg' & ->). exists g'. split; [done|].
    rewrite roster_core in Em. rewrite Em, Er. split; [done|]. rewrite Er in El. change (m_leaderGuid g') with (c_leader (bare (group_core g'))). rewrite El.
    change (c_leader (bare (group_core g))) with (m_leaderGuid g). case_if; [|done]. f_equal. apply find_ext. intros x. apply bool_decide_ext. cbn. rewrite !lookup_fmap.
    destruct (w_players w !! x); cbn; [easy|tauto].
  - intros x Hp. set (hb' := if is_pvp g then upd hb p None else hb) in *. set (hn' := if is_pvp g then hn else upd hn p None) in *.
    assert (Hr : forall b, ref_of b x <> Some q).
    { intros b Hb. rewrite (refs_home hb' hn' w' p x b HI' Hp) in Hb. assert (H : hb' p = Some q \/ hn' p = Some q) by (unfold canon in Hb; destruct (hb' p), b; naive_solver).
      pose proof (kind_other hb hn _ (is_pvp g) p q HI Hk) as Ho. unfold hb', hn', upd, kind in *. destruct (is_pvp g); cbn in Ho; rewrite decide_True in H by done; naive_solver. }
    split; [exact (Hr false)|exact (Hr true)].
  - intros j h Hne Hj. destruct (same_roster w w' j h Hj) as (h' & Hj' & E); [rewrite Ev; now apply removed_others|]. exists h'. split; [done|]. now rewrite <- !roster_core, E.
Qed.

Lemma fewest_least hb hn w q g : Inv hb hn (view (core w)) -> Led (view (core w)) -> w_heap w !! q = Some g ->
  fewest (bare (group_core g)) = least g /\ threshold (bare (group_core g)) = least g.
Proof.
  intros HI HL Hq. split; [|done]. pose proof (proj1 (proj1 (HL q _ (group_view_at w q g Hq)))) as E. unfold fewest. rewrite E.
  unfold least. cbn. now rewrite orb_comm.
Qed.
Lemma others_fewer w p g : IsMember g p = true -> zlen (others_here w p g) < zlen (roster g).
Proof.
  intros Hm%IsMember_in. rewrite roster_core in Hm. unfold others_here, zlen. pose proof (length_filter (fun x => w_players w !! x <> None) (filter (fun x => x <> p) (roster g))).
  pose proof (length_filter_lt (fun x => x <> p) (roster g) p Hm ltac:(auto)). lia.
Qed.
Lemma left_here_others hb hn w q g p : Inv hb hn (view (core w)) -> w_heap w !! q = Some g -> IsMember g p = true ->
  left_here (view (core w)) p (bare (group_core g)) = others_here w p g.
Proof.
  intros HI Hq Hm%IsMember_in. pose proof (group_view_at w q g Hq) as Hv. unfold left_here, others_here.
  rewrite (erase_roster hb hn _ q _ p HI Hv Hm), roster_core. apply list_filter_iff. intros x. cbn. rewrite !lookup_fmap. now destruct (w_players w !! x).
Qed.

(** C14. A member who is removed leaves the group: his references are dropped, the
    others keep their order and the first of them who is connected leads when he was
    the leader.  A group of too few members, or with too few of the others connected,
    ends with nobody in it, invited to it or finding it (the answer is [true] all the
    same when it had enough members), as does a group of the finder
    with one member left outside its dungeon.  A kick in a group of the dungeon finder
    only starts a vote. *)
Theorem RemoveMember_outcome w q p g method kicker reason :
  sound w -> w_heap w !! q = Some g -> IsMember g p = true ->
  exists ok w', RemoveMember q p method kicker reason w = (Ret ok, w') /\ sound w' /\
    (if isLFGGroup g && bool_decide (method = GROUP_REMOVEMETHOD_KICK) then exists g', w_heap w' !! q = Some g' /\ roster g' = roster g
     else if zlen (roster g) <=? least g then ok = false /\ disbanded q g w'
     else if zlen (others_here w p g) <? least g then (isLFGGroup g = false -> ok = true) /\ disbanded q g w'
     else ok = true /\ parted q p g w w' \/ ok = false /\ isLFGGroup g = true /\ zlen (roster g) = 2 /\ disbanded q g w').
Proof.
  intros [Hs (hb & hn & HI & HL)] Hq Hm. pose proof (group_view_at w q g Hq) as Hv. pose proof Hm as Hin. apply IsMember_in in Hin.
  assert (Hk : kind (is_pvp g) hb hn p = Some q) by (rewrite (i_members _ _ _ HI q _ p Hv) in Hin; exact Hin).
  pose proof (member_registered hb hn _ q _ p HI Hv Hin) as Hreg.
  destruct (spec_RemoveMember hb hn _ q p _ method kicker reason HI HL Hv Hk w Hs eq_refl) as (ok & w' & E & Hs' & H).
  exists ok, w'. split; [done|]. split; [split; [done|exact (proj1 (proj1 (removal_kept hb hn _ q p _ _ _ _ HI HL Hv Hk H)))]|].
  change (isLFGGroup g) with (c_lfg (bare (group_core g))). destruct (fewest_least hb hn w q g HI HL Hq) as [Ef Et]. pose proof (left_here_others hb hn w q g p HI Hq Hm) as Eh.
  remember (view (core w')) as v' eqn:Ev. destruct H as [ok Hv'|Hv' Hlt Hfew _|ok v' Hv' Hok Hfew Hg]; rewrite ?Ef, ?Et, ?Eh, ?roster_core in *.
  - rewrite Hv'. destruct (same_roster w w' q g Hq) as (g' & Hg' & E'); [now rewrite <- Ev|]. exists g'. split; [done|]. now rewrite <- !roster_core, E'.
  - rewrite Hv'. destruct (Z.leb_spec (zlen (roster g)) (least g)); [lia|]. destruct (Z.ltb_spec (zlen (others_here w p g)) (least g)); [lia|].
    left. split; [done|]. now apply (removed_left hb hn).
  - rewrite Hv'. subst v'. pose proof (gone_disbanded hb hn w q g w' _ HI Hq Hreg eq_refl Hg) as Hd.
    destruct (Z.leb_spec (zlen (roster g)) (least g)) as [Hle|Hlt]; [split; [now apply Hok|done]|]. specialize (Hfew Hlt).
    destruct (Z.ltb_spec (zlen (others_here w p g)) (least g)).
    { split; [|done]. intros Hn. destruct ok; [done|]. destruct Hfew as [Hlfg _]. now rewrite Hlfg in Hn. }
    destruct ok; [lia|]. right. now destruct Hfew.
Qed.

(** C17. Who leaves a battleground leaves its group.  It goes on without him while one
    of the others is connected; else it ends and its side has no group any more: the
    next player who enters makes a new one, and a group that was deleted is never used. *)
Theorem leave_bg_outcome w bg side q g p :
  sound w -> w_bgRaids w !! (bg, side) = Some q -> w_heap w !! q = Some g -> IsMember g p = true ->
  exists w', RemovePlayerAtLeave_group bg side p w = (Ret tt, w') /\ sound w' /\
    let ended := disbanded q g w' /\ w_bgRaids w' !! (bg, side) = None in
    if zlen (others_here w p g) <? 1 then ended
    else w_bgRaids w' !! (bg, side) = Some q /\ parted q p g w w' \/ isLFGGroup g = true /\ zlen (roster g) = 2 /\ ended.
Proof.
  intros [Hs (hb & hn & HI & HL)] Hside Hq Hm. pose proof (group_view_at w q g Hq) as Hv. pose proof Hm as Hin. apply IsMember_in in Hin.
  destruct (side_group hb hn _ bg side q HI HL Hside) as (gc & Hgc & _ & Ep & Hreg & _). rewrite Hv in Hgc. injection Hgc as <-.
  destruct (spec_leave_bg hb hn _ bg side q _ p HI HL Hside Hv Hin w Hs eq_refl) as ([] & w' & E & Hs' & H). exists w'. split; [done|].
  split; [split; [done|exact (proj1 (left_side_good hb hn _ q p _ bg side _ HI HL Hv Hin H))]|]. cbn zeta.
  destruct (fewest_least hb hn w q g HI HL Hq) as [Ef Et]. pose proof (left_here_others hb hn w q g p HI Hq Hm) as Eh.
  assert (El : least g = 1) by (rewrite <- Et; unfold threshold; now rewrite Ep).
  remember (view (core w')) as v' eqn:Ev. destruct H as [Hlt Hfew _|v' Hfew Hg Hnone]; rewrite Ef, Et, Eh, El, roster_core in *.
  - destruct (Z.ltb_spec (zlen (others_here w p g)) 1); [lia|]. left.
    split; [|now apply (removed_left hb hn)]. change (w_bgRaids w') with (v_bgRaids (view (core w'))). now rewrite <- Ev, removed_sides.
  - subst v'. assert (Hd : disbanded q g w' /\ w_bgRaids w' !! (bg, side) = None).
    { split; [exact (gone_disbanded hb hn w q g w' _ HI Hq Hreg eq_refl Hg)|exact Hnone]. }
    destruct (Z.ltb_spec (zlen (others_here w p g)) 1) as [|Hge]; [exact Hd|]. right.
    assert (Hlt : 1 < zlen (roster g)) by (pose proof (others_fewer w p g Hm); lia). destruct (Hfew Hlt) as [?|[E1 E2]]; [lia|done].
Qed.

(** ** Room *)

Lemma slots_full_aux (l : list (Z * Z)) n : (forall k, 0 <= k < Z.of_nat n -> MAXGROUPSIZE <= in_sub k l) ->
  MAXGROUPSIZE * Z.of_nat n <= zlen (filter (fun e => 0 <= e.2 < Z.of_nat n) l).
Proof.
  induction n as [|n IH]; intros H; [unfold MAXGROUPSIZE; unfold zlen; lia|].
  assert (E : filter (fun e => 0 <= e.2 < Z.of_nat (S n)) l = filter (fun e => 0 <= e.2 < Z.of_nat n \/ e.2 = Z.of_nat n) l) by (apply list_filter_iff; intros x; lia).
  rewrite E, zlen_filter_split by (intros x; lia). assert (H1 := H (Z.of_nat n) ltac:(lia)). unfold in_sub in H1.
  assert (H2 : MAXGROUPSIZE * Z.of_nat n <= zlen (filter (fun e => 0 <= e.2 < Z.of_nat n) l)) by (apply IH; intros k Hk; apply H; lia).
  unfold MAXGROUPSIZE in *. lia.
Qed.
Lemma slots_short l sub : slots_ok true l -> 0 <= sub < MAX_RAID_SUBGROUPS -> in_sub sub l < MAXGROUPSIZE -> zlen l < MAXRAIDSIZE.
Proof.
  intros [_ Hs Hr] Hsub Hlt. pose proof (slots_bound_aux (l ++ [(0, sub)]) 8) as H. rewrite filter_all in H.
  - assert (H1 : zlen (l ++ [(0, sub)]) <= MAXGROUPSIZE * Z.of_nat 8); [|unfold zlen in *; rewrite length_app in H1; change MAXRAIDSIZE with 40; unfold MAXGROUPSIZE in H1; cbn in H1; lia].
    apply H. intros k. rewrite in_sub_app. cbn [snd]. case_decide as E; [subst; lia|]. specialize (Hr k). lia.
  - intros e [He| ->%list_elem_of_singleton]%elem_of_app; [exact (Hs e He)|exact Hsub].
Qed.
Lemma next_sub_full hb hn v q gc : Inv hb hn v -> v_groups v !! q = Some gc -> has_room gc ->
  (next_sub gc = None <-> (if c_raid gc then MAXRAIDSIZE else MAXGROUPSIZE) <= zlen (members gc)).
Proof.
  intros HI Hq Hroom. assert (El : zlen (members gc) = zlen (c_slots gc)) by (unfold zlen, members; now rewrite length_map).
  unfold next_sub. rewrite (i_counts _ _ _ HI q gc Hq). destruct (c_raid gc) eqn:Er.
  - pose proof (first_free_counts (c_slots gc)) as H. rewrite El. destruct (first_free _) as [sub|].
    + split; [done|]. intros Hfull. destruct H as (Hs & Hlt & _). pose proof (i_slots _ _ _ HI q gc Hq) as Hso. rewrite Er in Hso.
      assert (Hin : zlen (c_slots gc) < MAXRAIDSIZE); [|lia]. clear Hfull.
      exact (slots_short (c_slots gc) sub Hso Hs Hlt).
    + split; [|done]. intros _. pose proof (slots_full_aux (c_slots gc) 8 H) as H1. pose proof (length_filter (fun e : Z * Z => 0 <= e.2 < Z.of_nat 8) (c_slots gc)) as H2.
      change MAXRAIDSIZE with 40. unfold zlen, MAXGROUPSIZE in *. lia.
  - split; [done|]. intros H. specialize (Hroom Er). lia.
Qed.

Lemma no_home hb hn w p g :
  Inv hb hn (view (core w)) -> (forall j h, w_heap w !! j = Some h -> is_pvp h = is_pvp g -> IsMember h p = false) -> kind (is_pvp g) hb hn p = None.
Proof.
  intros HI Hout. destruct (kind (is_pvp g) hb hn p) as [j|] eqn:Ek; [|done]. destruct (i_live _ _ _ HI _ p j Ek) as (gj & Hj & Ep).
  apply group_of_view in Hj as (h & Hh & ->). pose proof (proj2 (member_home hb hn w p j h HI Hh)) as Hm. change (is_pvp h = is_pvp g) in Ep.
  rewrite (Hout j h Hh Ep), Ep in Hm. now specialize (Hm Ek).
Qed.

(** C19. A player who is in no other group of the kind, and has no invitation waiting,
    gets into a raid exactly when it is not full: a raid takes forty members however they are spread over its sub
    groups, and a full raid is left as it was.  A party takes him in any case, as its
    sixth member too.  He comes last, and where there was room the world is sound as
    before. *)
Theorem AddMember_room w q p g x :
  sound w -> w_heap w !! q = Some g -> IsCreated g = true -> w_players w !! p = Some x -> gp_invite x = None ->
  (forall j h, w_heap w !! j = Some h -> is_pvp h = is_pvp g -> IsMember h p = false) ->
  let refused := isRaidGroup g && IsFull g in
  exists w' g', AddMember q p w = (Ret (negb refused), w') /\ w_heap w' !! q = Some g' /\
    roster g' = (if refused then roster g else roster g ++ [p]) /\ (isRaidGroup g || negb (IsFull g) = true -> sound w').
Proof.
  intros [Hs (hb & hn & HI & HL)] Hq Hc Hp Hi Hout refused. subst refused. pose proof (group_view_at w q g Hq) as Hv.
  pose proof (player_view w p x Hp) as Hpv. rewrite Hi in Hpv. set (gc := bare (group_core g)) in *.
  destruct (created_count hb hn _ q gc g HI HL Hv eq_refl) as [_ Hr]. apply Hr in Hc. clear Hr.
  pose proof (HL q gc Hv) as [Hkind Hl]. rewrite decide_True in Hl by exact Hc.
  pose proof (no_home hb hn w p g HI Hout) as Hk. change (kind (c_pvp gc) hb hn p = None) in Hk.
  pose proof (full_core g) as Ef. fold gc in Ef. change (isRaidGroup g) with (c_raid gc) in *.
  destruct (c_raid gc || negb (IsFull g)) eqn:Er.
  - assert (Hroom : has_room gc).
    { intros E. rewrite E in Er, Ef. cbn in Er. apply negb_true_iff in Er. rewrite Er in Ef. symmetry in Ef. now apply Z.leb_gt in Ef. }
    pose proof (next_sub_full hb hn _ q gc HI Hv Hroom) as Hfull.
    assert (Efull : c_raid gc && IsFull g = true <-> next_sub gc = None).
    { rewrite Hfull, Ef. destruct (c_raid gc) eqn:E; cbn [andb]; [apply Z.leb_le|]. cbn in Er. rewrite Ef in Er. apply negb_true_iff, Z.leb_gt in Er. split; [done|lia]. }
    destruct (spec_AddMember_inv hb hn _ q p gc HI (Led_weaken _ q HL) Hv Hc Hkind (or_introl Hl) Hk Hpv Hroom w Hs eq_refl) as (ok & w' & E & Hs' & H).
    destruct (next_sub gc) as [sub|].
    + destruct H as (-> & Ev & HI' & HL'). assert (En : c_raid gc && IsFull g = false) by (apply not_true_is_false; intros Et; discriminate (proj1 Efull Et)).
      assert (Hv' : v_groups (view (core w')) !! q = Some (c_add p sub gc)) by (rewrite Ev; exact (on_group_at q _ (c_add p sub) gc Hv)).
      pose proof Hv' as Hg'. apply group_of_view in Hg' as (g' & Hg' & E'). exists w', g'. rewrite En. split_and!; [exact E|done| |].
      * rewrite <- roster_core, <- E', members_add. unfold gc. now rewrite roster_core.
      * intros _. split; [done|]. eexists _, _. split; [exact HI'|exact HL'].
    + destruct H as [-> Ev]. rewrite (proj2 Efull eq_refl). destruct (same_roster w w' q g Hq) as (g' & Hg' & E'); [now rewrite Ev|].
      exists w', g'. split_and!; [exact E|done|now rewrite <- !roster_core, E'|]. intros _. split; [done|]. exists hb, hn. now rewrite Ev.
  - apply orb_false_iff in Er as [Er Efull]. rewrite Er. cbn [andb negb].
    pose proof (i_counts _ _ _ HI q gc Hv) as Hcount. rewrite Er in Hcount.
    destruct (spec_AddMember (view (core w)) q p gc 0 Hv ltac:(now rewrite Hpv) ltac:(unfold next_sub; now rewrite Hcount) ltac:(unfold sub_ok; lia)
      ltac:(unfold counts_room; now rewrite Hcount)) with (w := w) as (ok & w' & E & Hs' & -> & Ev); try done.
    { intros Ep. rewrite player_low by (apply (i_players _ _ _ HI); left; now rewrite Hpv). destruct (v_dbMembers _ !! p) as [e|] eqn:Erow; [|done].
      apply (i_rows _ _ _ HI) in Erow as (j & gj & Hn & _). rewrite Ep in Hk. cbn in Hk. congruence. }
    assert (Hv' : v_groups (view (core w')) !! q = Some (c_add p 0 gc)) by (rewrite Ev; exact (on_group_at q _ (c_add p 0) gc Hv)).
    apply group_of_view in Hv' as (g' & Hg' & E'). exists w', g'. split_and!; [exact E|done| |done].
    rewrite <- roster_core, <- E', members_add. unfold gc. now rewrite roster_core.
Qed.

(** ** Logging out and in again *)

(** The homes are those of the slots. *)
Lemma homes_groups hb hn hb' hn' v v' p :
  Inv hb hn v -> Inv hb' hn' v' -> v_groups v' = v_groups v -> hb' p = hb p /\ hn' p = hn p.
Proof.
  intros H H' E. assert (Hk : forall b q, kind b hb hn p = Some q <-> kind b hb' hn' p = Some q).
  { intros b q. split; intros Hq.
    - destruct (i_live _ _ _ H b p q Hq) as (gc & Hg & <-). rewrite <- (i_members _ _ _ H q gc p Hg) in Hq. rewrite <- (i_members _ _ _ H' q gc p); [done|now rewrite E].
    - destruct (i_live _ _ _ H' b p q Hq) as (gc & Hg & <-). rewrite <- (i_members _ _ _ H' q gc p Hg) in Hq. rewrite <- (i_members _ _ _ H q gc p); [done|now rewrite <- E]. }
  assert (Ho : forall o o' : option Z, (forall q, o = Some q <-> o' = Some q) -> o' = o).
  { intros o o' Hoo. destruct o as [q|]; [now apply Hoo|]. destruct o' as [q|]; [|done]. symmetry. now apply Hoo. }
  split; apply Ho; [exact (Hk true)|exact (Hk false)].
Qed.
Lemma spec_logout_stays v me socket :
  good v -> v_invite v !! me = Some None ->
  (forall q gc, v_rf v me false = Some q -> v_groups v !! q = Some gc -> c_raid gc = true \/ socket = false) ->
  spec v (logout_rest me socket) (fun _ v' => v_groups v' = v_groups v /\ v_bgRaids v' = v_bgRaids v).
Proof.
  intros (hb & hn & HI & HL) Hi Hraid. assert (Hme : v_invite v !! me <> None) by now rewrite Hi. apply spec_with. intros c0 Hs0 Hv0. unfold logout_rest, LogoutPlayer.
  eapply yields_bind; [apply yields_ret|]. eapply yields_bind with (v1 := v).
  { unfold UninviteFromGroup. apply spec_player_at; [done|]. intros x _ _ Hx. rewrite Hi in Hx. injection Hx as <-. apply yields_ret. }
  apply spec_player_at; [done|]. intros x Hf _ _. eapply yields_bind with (v1 := v).
  { destruct (gp_group x) as [q|]; [|apply yields_ret]. pose proof (view_rf_live c0 v me false q Hs0 Hv0 Hf) as Hq.
    destruct (v_groups v !! q) as [gc|] eqn:Eq; [|done]. eapply spec_group_at; [exact Eq|]. intros g Eg. pose proof (f_equal c_raid Eg) as Er. cbn in Er. rewrite Er.
    destruct (Hraid q gc Hf Eq) as [-> | ->]; rewrite ?andb_false_r; apply yields_ret. }
  apply spec_player_at; [done|]. intros y Hf2 _ _. eapply yields_bind with (v1 := v).
  { destruct (gp_group y) as [q|]; [|apply yields_ret]. pose proof (view_rf_live c0 v me false q Hs0 Hv0 Hf2) as Hq.
    eapply yields_bind; [now apply spec_SendUpdate|now apply spec_ResetMaxEnchantingLevel]. }
  eapply yields_bind; [now apply spec_unlink|]. eapply yields_bind; [now apply spec_unlink|].
  set (R := rf_set me false None _). assert (HR : forall b, R me b = None) by (intros []; unfold R, rf_set; cbn; repeat case_decide; congruence).
  eapply spec_conseq; [apply spec_disconnect; exact HR|]. now intros [] v' [_ ->].
Qed.
Lemma run_both {A} w (m : G A) (P Q : A -> View -> Prop) :
  sane (core w) -> spec (view (core w)) m P -> spec (view (core w)) m Q ->
  exists a w', m w = (Ret a, w') /\ sane (core w') /\ P a (view (core w')) /\ Q a (view (core w')).
Proof.
  intros Hs H1 H2. destruct (H1 w Hs eq_refl) as (a & w' & E & Hs' & HP). destruct (H2 w Hs eq_refl) as (a2 & w2 & E2 & _ & HQ).
  rewrite E in E2. injection E2 as <- <-. now exists a, w'.
Qed.

(** Who leaves the group of a side keeps his other group. *)
Lemma spec_leave_side hb hn v me bg side q gc :
  Inv hb hn v -> Led v -> v_invite v !! me = Some None -> v_bgRaids v !! (bg, side) = Some q -> v_groups v !! q = Some gc -> me ∈ members gc ->
  spec v (RemovePlayerAtLeave_group bg side me)
    (fun _ v' => exists hb', Inv hb' hn v' /\ Led v' /\ hb' me = None /\ v_invite v' !! me = Some None /\
       forall j, hn me = Some j -> v_groups v' !! j = v_groups v !! j).
Proof.
  intros HI HL Hi Hside Hq Hm. destruct (side_group hb hn v bg side q HI HL Hside) as (gc' & Hq' & _ & Ep & _). rewrite Hq in Hq'. injection Hq' as <-.
  pose proof Hm as Hk. rewrite (i_members _ _ _ HI q gc me Hq) in Hk. rewrite Ep in Hk. cbn in Hk.
  assert (Hother : forall j, hn me = Some j -> j <> q) by (intros j Hj ->; pose proof (kind_other hb hn v true me q HI Hk) as H; now apply H).
  eapply spec_conseq; [now apply (spec_leave_bg hb hn v bg side q gc me)|]. intros a v' [_ _ Hled|v1 _ Hg _].
  - exists (upd hb me None). pose proof (Inv_removed hb hn v q me gc HI Hq) as H. rewrite Ep in H. specialize (H Hk). cbn in H. split_and!; [exact H|exact Hled| | |].
    + unfold upd. now rewrite decide_True.
    + now rewrite removed_players.
    + intros j Hj. apply removed_others. now apply Hother.
  - pose proof (go_inv _ _ _ _ _ _ Hg) as H. rewrite Ep in H. exists (drop hb q). split_and!; [exact H| | | |].
    + apply (Led_delete v _ q HL). apply (go_groups _ _ _ _ _ _ Hg).
    + unfold drop. now rewrite decide_True.
    + now apply (go_uninvited _ _ _ _ _ _ Hg).
    + intros j Hj. rewrite (go_groups _ _ _ _ _ _ Hg). apply lookup_delete_ne. intros E. symmetry in E. now apply (Hother j Hj).
Qed.
(** Out and in again, after the battleground: the references are those of his groups. *)
Lemma relogin_from hb hn w me x' current socket :
  sane (core w) -> Inv hb hn (view (core w)) -> Led (view (core w)) -> v_invite (view (core w)) !! me = Some None ->
  (forall q gc, canon (hb me) (hn me) false = Some q -> v_groups (view (core w)) !! q = Some gc -> c_raid gc = true \/ socket = false) ->
  still_in (view (core w)) me current -> loaded x' ->
  exists w1 w2 y, logout_rest me socket w = (Ret tt, w1) /\ w_players w1 !! me = None /\ LoginPlayer me x' current w1 = (Ret tt, w2) /\ sound w2 /\
    w_players w2 !! me = Some y /\ gp_group y = canon (hb me) (hn me) false /\ gp_original y = canon (hb me) (hn me) true.
Proof.
  intros Hs HI HL Hv Hstay Hraid Hx'. assert (Hgood : good (view (core w))) by now exists hb, hn.
  assert (Hv' : v_invite (view (core w)) !! me <> None) by now rewrite Hv.
  destruct (run_both w (logout_rest me socket) _ _ Hs (spec_logout_rest _ me socket Hgood Hv')
    (spec_logout_stays _ me socket Hgood Hv ltac:(intros q gc Hr; rewrite (i_rf _ _ _ HI me false Hv') in Hr; now apply Hstay)))
    as ([] & w1 & E1 & Hs1 & (Hgood1 & _ & Hout1) & Eg1 & Er1).
  assert (Hno1 : w_players w1 !! me = None) by now apply (view_no_player w1 _ me eq_refl).
  assert (Hraid1 : still_in (view (core w1)) me current) by (unfold still_in, outside_bg in *; now rewrite Eg1, Er1).
  assert (Hu : is_u 32 me) by (apply (i_players _ _ _ HI); now left).
  destruct (spec_Login _ me x' current Hgood1 Hout1 Hu Hx' Hraid1 w1 Hs1 eq_refl) as ([] & w2 & E2 & Hs2 & Hgood2 & _ & Hme2 & Eg2 & _).
  assert (Hy : exists y, w_players w2 !! me = Some y).
  { cbn in Hme2. rewrite !lookup_fmap in Hme2. destruct (w_players w2 !! me) as [y|]; [now exists y|done]. }
  destruct Hy as [y Hy]. exists w1, w2, y. pose proof Hgood2 as (hb2 & hn2 & HI2 & HL2).
  destruct (homes_groups hb hn hb2 hn2 _ _ me HI HI2 (eq_trans Eg2 Eg1)) as [Eb En].
  pose proof (fun b => refs_home hb2 hn2 w2 me y b HI2 Hy) as Hr2. rewrite Eb, En in Hr2.
  split_and!; try done; [exact (Hr2 false)|exact (Hr2 true)].
Qed.

(** C16. A player without a waiting invitation who logs out of a raid, or loses his
    connection, and logs in again has the references to his groups that he had, although the player object is a new
    one.  A logout takes him out of the battleground he is in, unless it is an arena
    under way that goes on without him: then the group he had beside it is his group
    again, else both references are as before. *)
Theorem relogin_restores w me x x' visit socket :
  sound w -> w_players w !! me = Some x -> gp_invite x = None -> logs_into w me (visit_side visit) ->
  (forall q g, gp_group x = Some q \/ gp_original x = Some q -> w_heap w !! q = Some g -> isRaidGroup g = true \/ socket = false) -> loaded x' ->
  let out := match visit with Some b => leaves b | None => false end in
  exists w1 w2 y, LogoutPlayer me socket visit w = (Ret tt, w1) /\ w_players w1 !! me = None /\
    LoginPlayer me x' (if out then None else visit_side visit) w1 = (Ret tt, w2) /\ sound w2 /\ w_players w2 !! me = Some y /\
    if out then gp_group y = gp_original x /\ gp_original y = None else gp_group y = gp_group x /\ gp_original y = gp_original x.
Proof.
  intros [Hs (hb & hn & HI & HL)] Hme Hi Hside Hstay Hx' out. pose proof (player_view w me x Hme) as Hv. rewrite Hi in Hv. subst out.
  pose proof (refs_home hb hn w me x false HI Hme) as Hf. pose proof (refs_home hb hn w me x true HI Hme) as Ho. cbn in Hf, Ho.
  assert (Hraid : forall q gc, canon (hb me) (hn me) false = Some q \/ canon (hb me) (hn me) true = Some q -> v_groups (view (core w)) !! q = Some gc -> c_raid gc = true \/ socket = false).
  { intros q gc Hq (g & Hg & ->)%group_of_view. rewrite <- Hf, <- Ho in Hq. exact (Hstay q g Hq Hg). }
  assert (Hkeep : forall visit, match visit with Some b => leaves b | None => false end = false -> LogoutPlayer me socket visit w = logout_rest me socket w).
  { intros [b|] Hb; rewrite logout_split; cbn [leave_at_logout]; [rewrite Hb|]; reflexivity. }
  destruct (match visit with Some b => leaves b | None => false end) eqn:Eout.
  - destruct visit as [b|]; [|done]. pose proof Eout as Hp. unfold leaves in Hp. apply andb_prop in Hp as [Hp _]. unfold visit_side in Hside. cbn in Hside. rewrite Hp in Hside.
    apply logs_into_view in Hside as (q & gc & Hk & Hq & Hm). pose proof Hm as Hb. rewrite (i_members _ _ _ HI q gc me Hq) in Hb.
    destruct (side_group hb hn _ _ _ q HI HL Hk) as (gc' & Hq' & _ & Ep & _). rewrite Hq in Hq'. injection Hq' as <-. rewrite Ep in Hb. cbn in Hb.
    rewrite Hb in Ho, Hraid. cbn in Ho, Hraid.
    destruct (spec_leave_side hb hn _ me _ _ q gc HI HL Hv Hk Hq Hm w Hs eq_refl) as ([] & w0 & E0 & Hs0 & hb' & HI0 & HL0 & Hb0 & Hv0 & Hg0).
    destruct (relogin_from hb' hn w0 me x' None socket Hs0 HI0 HL0 Hv0) as (w1 & w2 & y & E1 & H1 & E2 & H2 & Hy & Hyg & Hyo); [|now apply (outside_bg_home hb' hn)|done|].
    { intros j gc' Hj Hgc'. rewrite Hb0 in Hj. cbn in Hj. rewrite Hg0 in Hgc' by done. apply (Hraid j gc'); [now right|done]. }
    exists w1, w2, y. rewrite Hb0 in Hyg, Hyo. cbn in Hyg, Hyo. split_and!; try done; [|congruence].
    rewrite logout_split. cbn [leave_at_logout]. rewrite Eout. cbn [when]. now rewrite (bind_eq _ _ _ _ _ E0).
  - destruct (relogin_from hb hn w me x' (visit_side visit) socket Hs HI HL Hv) as (w1 & w2 & y & E1 & H1 & E2 & H2 & Hy & Hyg & Hyo);
      [intros j gc' Hj; apply Hraid; now left|now apply logs_into_view|done|].
    exists w1, w2, y. rewrite Hkeep by done. split_and!; try done; congruence.
Qed.

(** ** Pointers to groups that are gone *)

Lemma group_at_gone w q : w_heap w !! q = None -> group_at q w = (Crash, w).
Proof. intros H. unfold group_at. rewrite bind_gets, H. done. Qed.
Lemma bind_crash {A B} (m : G A) (k : A -> G B) w w' : m w = (Crash, w') -> bind m k w = (Crash, w').
Proof. intros H. unfold bind. now rewrite H. Qed.
Lemma alter_group_gone w q f : w_heap w !! q = None -> alter_group q f w = (Crash, w).
Proof. intros H. unfold alter_group. apply bind_crash. now apply group_at_gone. Qed.
Lemma spec_invite_self hb hn v me :
  Inv hb hn v -> v_invite v !! me = Some None -> hn me = None ->
  spec v (invite_new me me) (fun ok v' => ok = false /\ v_invite v' !! me = Some (Some (v_alloc v)) /\ v_groups v' !! v_alloc v = None).
Proof.
  intros HI Hme Hn. set (q := v_alloc v). set (g0 := bare (group_core new_group)). unfold invite_new.
  eapply yields_bind; [apply spec_new_group; intros; now apply (alloc_fresh hb hn)|]. fold g0. fold (v_new g0 v). fold q. pose proof (Inv_new hb hn v g0 HI new_empty eq_refl) as HI1.
  assert (H1 : v_groups (v_new g0 v) !! q = Some g0) by (cbn; now rewrite lookup_insert_eq).
  assert (Hi1 : v_invite (v_new g0 v) !! me = Some None) by exact Hme. set (v1 := v_new g0 v) in *. clearbody v1.
  assert (Hp1 : v_invite v1 !! me <> None) by now rewrite Hi1.
  eapply spec_bind; [now apply (spec_AddLeaderInvite_inv hb hn v1 q me g0)|]. intros [|] v2 H2; cbn [negb]; [|destruct H2 as [_ []]; done].
  destruct H2 as [E2 HI2]. pose proof (on_group_at q _ (c_set_leader me) _ (add_invite_group q me v1 g0 H1)) as H2. rewrite <- E2 in H2.
  assert (Hi2 : v_invite v2 !! me = Some (Some q)) by (rewrite E2; cbn; now rewrite lookup_alter_eq, Hi1).
  eapply spec_bind; [apply (spec_AddInvite_inv hb hn v2 q me _ HI2 H2); [done|now rewrite Hi2]|].
  intros [|] v3 H3; cbn [negb]; [destruct H3 as (_ & _ & E & _); congruence|]. destruct H3 as [-> _]. apply spec_with. intros c Hs Hv.
  eapply yields_bind; [apply spec_delete_group; [now rewrite H2| |apply (i_sides _ _ _ HI2)]|].
  - intros p b HR. pose proof (view_rf_connected c v2 p b q Hs Hv HR) as Hp.
    destruct (rf_member hb hn v2 p b q HI2 Hp HR) as (gc' & Hq' & _ & _ & Hr'). rewrite H2 in Hq'. injection Hq' as <-. now apply Hr'.
  - apply spec_ret. split; [done|]. split; [exact Hi2|]. cbn. apply lookup_delete_eq.
Qed.
(** C20. Who invites himself, which only the client prevents, makes a group that is
    deleted at once while he stays invited to it: accepting the invitation then uses
    the deleted group. *)
Theorem invite_self_dangles w me name x :
  sound w -> named w name = Ret (Some me) -> w_players w !! me = Some x -> gp_group x = None -> gp_invite x = None -> invite_refused me me x x = None ->
  exists w' x' q, HandleGroupInviteOpcode me name w = (Ret tt, w') /\ w_players w' !! me = Some x' /\ gp_invite x' = Some q /\ w_heap w' !! q = None /\
    (HandleGroupAcceptOpcode me w').1 = Crash.
Proof.
  intros [Hs (hb & hn & HI & HL)] Hname Hme Hg Hi Hok. pose proof (player_view w me x Hme) as Hv. rewrite Hi in Hv.
  assert (Hn : hn me = None).
  { pose proof (refs_home hb hn w me x false HI Hme) as Hf. cbn in Hf. rewrite Hg in Hf. unfold canon in Hf. now destruct (hb me). }
  destruct (spec_invite_self hb hn _ me HI Hv Hn w Hs eq_refl) as (ok & w' & E & _ & -> & Hi' & Hq').
  set (q := v_alloc (view (core w))) in *. assert (Hrun : HandleGroupInviteOpcode me name w = (Ret tt, w')).
  { unfold HandleGroupInviteOpcode, named in *. destruct (normalizePlayerName name) as [n|]; [|done].
    assert (Ef : FindPlayerByName n w = (Ret (Some me), w)).
    { rewrite (surjective_pairing (FindPlayerByName n w)), Hname. reflexivity. }
    rewrite (bind_eq _ _ _ _ _ Ef). unfold invite_found. rewrite !(bind_eq _ _ _ _ _ (player_at_eq w me x Hme)), Hok.
    assert (Eg : group_for_invite x w = (Ret None, w)) by (unfold group_for_invite; now rewrite Hg). rewrite !(bind_eq _ _ _ _ _ Eg).
    rewrite Hi. cbn [orb]. rewrite !bool_decide_eq_false_2 by tauto. cbn [orb]. erewrite bind_eq; [|reflexivity]. unfold invite_to. now rewrite (bind_eq _ _ _ _ _ E). }
  destruct (w_players w' !! me) as [x'|] eqn:Hx'; [|cbn in Hi'; rewrite !lookup_fmap, Hx' in Hi'; done].
  rewrite (player_view w' me x' Hx') in Hi'. injection Hi' as Hi'.
  assert (Hgone : w_heap w' !! q = None) by (destruct (w_heap w' !! q) as [g'|] eqn:Eg'; [apply group_view_at in Eg'; congruence|done]).
  exists w', x', q. split_and!; try done. unfold HandleGroupAcceptOpcode. rewrite (bind_eq _ _ _ _ _ (player_at_eq w' me x' Hx')), Hi'.
  erewrite bind_crash; [reflexivity|]. unfold RemoveInvite. apply bind_crash. now apply alter_group_gone.
Qed.

End Fates.

(** ** The group of an accepted proposal *)

Section Formed.
Context `{scripts : GroupScripts} `{outside : GroupOutside} `{loots : LootView} `{laws : !GroupScriptLaws} `{rules : PartyRules} `{forming : !FormScripts} `{form_laws : !FormLaws}.

(** The leader comes first. *)
Lemma form_order_leader p : is_Some (p_players p !! p_leader p) -> exists l, form_order p = p_leader p :: l.
Proof.
  set (f := fun l guid => if guid =? p_leader p then guid :: l else l ++ [guid]). change (form_order p) with (foldl f [] (keys Z.le (p_players p))).
  assert (Hkeep : forall l a, exists b, foldl f (p_leader p :: a) l = p_leader p :: b).
  { induction l as [|x l IH]; intros a; cbn [foldl]; [now exists a|]. unfold f at 2. destruct (Z.eqb_spec x (p_leader p)) as [->|_]; [apply IH|apply (IH (a ++ [x]))]. }
  intros H. apply (elem_of_keys Z.le) in H. revert H. generalize (keys Z.le (p_players p)), (@nil Z). induction l as [|x l IH]; intros a H; [now apply elem_of_nil in H|]. cbn [foldl].
  unfold f at 2. destruct (Z.eqb_spec x (p_leader p)) as [->|Hne]; [apply Hkeep|]. apply IH. apply elem_of_cons in H as [H|H]; [congruence|done].
Qed.
Lemma found_world w x : found (world_of w) (view (core w)) x = world_of w x.
Proof.
  unfold found, world_of. destruct (w_players w !! x) as [y|] eqn:E; [|done]. rewrite (player_view w x y E), bool_decide_eq_true_2 by done. apply andb_true_r.
Qed.

(** The players of a proposal and the group they have come together in. *)
Record formed (w : GW) (p : LfgProposal) (q : Z) (g : Group) (w' : GW) : Prop := mk_formed {
  fd_at : w_heap w' !! q = Some g; fd_home : is_pvp g = false;
  fd_all x : is_Some (p_players p !! x) -> world_of w x = true -> IsMember g x = true;
  fd_only x : IsMember g x = true -> is_Some (p_players p !! x);
  fd_refs x y : is_Some (p_players p !! x) -> world_of w x = true -> w_players w' !! x = Some y -> gp_group y = Some q /\ gp_original y = None;
  fd_leader : match found_group (w_mgr w) p with
              | Some q0 => q = q0
              | None => isLFGGroup g = true /\ List.find (world_of w) (form_order p) = Some (m_leaderGuid g) /\
                        (is_Some (p_players p !! p_leader p) -> world_of w (p_leader p) = true -> m_leaderGuid g = p_leader p)
              end
}.
(** C18. An accepted proposal brings its players together: whoever of them is in the
    world leaves his old group and is in the formed one, which has no other members
    and is the group the proposal completes, or else a new dungeon finder group
    led by the first of them who is there, the proposal's leader when he is. *)
Theorem MakeNewGroup_gathers w p :
  sound w -> formable w p -> exists w' q g, MakeNewGroup p w = (Ret tt, w') /\ sound w' /\ formed w p q g w'.
Proof.
  intros H Hf. destruct (form_runs w p H Hf) as (w' & q & hb & hn & E & Hs & HI & F).
  destruct F as [[hn' HI'] _ _ _ _ (gc & Hq & _ & Hpvp & Hsub & Hall & Hlead)]. apply group_of_view in Hq as (g & Hg & ->).
  assert (Hin : forall x, is_Some (p_players p !! x) -> world_of w x = true -> IsMember g x = true).
  { intros x Hx Hw. apply IsMember_in, Hall; [now apply elem_of_form_order|now rewrite found_world]. }
  exists w', q, g. split; [done|]. split; [done|]. split; [done|exact Hpvp|exact Hin| | |].
  - intros x Hx%IsMember_in. exact (proj1 (elem_of_keys Z.le _ x) (Hsub x Hx)).
  - intros x y Hx Hw Hy. pose proof (Hin x Hx Hw) as Hm. rewrite (member_home hb hn' w' x q g HI' Hg) in Hm. change (is_pvp g = false) in Hpvp. rewrite Hpvp in Hm. cbn in Hm.
    assert (Hb : hb x = None).
    { unfold world_of in Hw. destruct (w_players w !! x) as [z|] eqn:Ez; [|done]. apply (outside_bg_home hb hn _ x HI). apply outside_view. now apply (fm_free _ _ Hf x z). }
    pose proof (fun b => refs_home hb hn' w' x y b HI' Hy) as Hr. rewrite Hb, Hm in Hr. split; [exact (Hr false)|exact (Hr true)].
  - destruct (found_group (w_mgr w) p) as [q0|]; [done|]. destruct Hlead as [Hl Hfind]. split; [exact Hl|].
    assert (Hfind' : List.find (world_of w) (form_order p) = Some (m_leaderGuid g)).
    { rewrite <- (find_ext (found (world_of w) (view (core w))) (world_of w)) by apply found_world. exact Hfind. }
    split; [done|]. intros Hp Hw. destruct (form_order_leader p Hp) as [l El]. rewrite El in Hfind'. cbn in Hfind'. rewrite Hw in Hfind'. now injection Hfind'.
Qed.
End Formed.

(** ** Examples *)

Import Demo.
(** A fourth player has come. *)
Definition four : GW := run_all kicks state (story ++ [Login 4 (player (str "Dee")) None]) empty_world.
Lemma four_sound : sound four.
Proof. apply (reach_sound kicks state empty_world _ empty_sound). apply reach_all; [apply reach_start|]. vm_compute. reflexivity. Qed.
Definition one : GW := run_all kicks state [Login 1 (player (str "Ann")) None; EnterBg 7 true 1] empty_world.
Lemma one_sound : sound one.
Proof. apply (reach_sound kicks state empty_world _ empty_sound). apply reach_all; [apply reach_start|]. vm_compute. reflexivity. Qed.
Definition group_in (w : GW) (q : Z) : Group := default new_group (w_heap w !! q).
Definition player_in (w : GW) (p : Z) : GPlayer := default (player []) (w_players w !! p).

Lemma RemoveMember_outcome_witness :
  roster (group_in four 1) = [1; 2; 3] /\ m_leaderGuid (group_in four 1) = 2 /\
  exists w', RemoveMember 1 2 GROUP_REMOVEMETHOD_KICK 1 None four = (Ret true, w') /\ parted 1 2 (group_in four 1) four w'.
Proof.
  split; [vm_compute; reflexivity|]. split; [vm_compute; reflexivity|].
  assert (E1 : isLFGGroup (group_in four 1) = false) by (vm_compute; reflexivity).
  assert (E2 : (zlen (roster (group_in four 1)) <=? least (group_in four 1)) = false) by (vm_compute; reflexivity).
  assert (E3 : (zlen (others_here four 2 (group_in four 1)) <? least (group_in four 1)) = false) by (vm_compute; reflexivity).
  destruct (RemoveMember_outcome four 1 2 (group_in four 1) GROUP_REMOVEMETHOD_KICK 1 None four_sound ltac:(vm_compute; reflexivity) ltac:(vm_compute; reflexivity))
    as (ok & w' & E & _ & H).
  rewrite E1, E2, E3 in H. cbn [andb] in H. destruct H as [[Hok H]|(_ & Hlfg & _)]; [|exact (False_rect _ (diff_false_true Hlfg))].
  exists w'. split; [rewrite <- Hok; exact E|exact H].
Defined.
(** A party of five, and somebody who comes to it all the same. *)
Definition full_party : GW :=
  run_all kicks state (map (fun e => Login e.1 (player (str e.2)) None) [(1, "Ann"); (2, "Bob"); (3, "Cid"); (4, "Dee"); (5, "Eve"); (6, "Fay")]
    ++ concat (map (fun e => [Invite 1 (str e.2); Accept e.1]) [(2, "Bob"); (3, "Cid"); (4, "Dee"); (5, "Eve")])) empty_world.
Lemma full_party_sound : sound full_party.
Proof. apply (reach_sound kicks state empty_world _ empty_sound). apply reach_all; [apply reach_start|]. vm_compute. reflexivity. Qed.
Definition elsewhere (w : GW) (p : Z) : bool := forallb (fun e => negb (IsMember e.2 p)) (map_to_list (w_heap w)).
Lemma elsewhere_ok w p (b : bool) : elsewhere w p = true -> forall j h, w_heap w !! j = Some h -> is_pvp h = b -> IsMember h p = false.
Proof.
  unfold elsewhere. rewrite forallb_forall. intros H j h Hj _. apply elem_of_map_to_list in Hj. rewrite list_elem_of_In in Hj. apply negb_true_iff. exact (H _ Hj).
Qed.
Lemma AddMember_room_witness :
  (exists w' g', AddMember 1 4 four = (Ret true, w') /\ w_heap w' !! 1 = Some g' /\ roster g' = [1; 2; 3; 4] /\ sound w') /\
  exists w' g', AddMember 1 6 full_party = (Ret true, w') /\ w_heap w' !! 1 = Some g' /\ roster g' = [1; 2; 3; 4; 5; 6].
Proof.
  split.
  - assert (Er : isRaidGroup (group_in four 1) && IsFull (group_in four 1) = false) by (vm_compute; reflexivity).
    destruct (AddMember_room four 1 4 (group_in four 1) (player_in four 4) four_sound ltac:(vm_compute; reflexivity) ltac:(vm_compute; reflexivity)
      ltac:(vm_compute; reflexivity) ltac:(vm_compute; reflexivity) (elsewhere_ok four 4 _ ltac:(vm_compute; reflexivity))) as (w' & g' & E & Hg & Hr & Hs).
    rewrite Er in E, Hr. exists w', g'. split_and!; [exact E|exact Hg|exact Hr|apply Hs; vm_compute; reflexivity].
  - assert (Er : isRaidGroup (group_in full_party 1) && IsFull (group_in full_party 1) = false) by (vm_compute; reflexivity).
    destruct (AddMember_room full_party 1 6 (group_in full_party 1) (player_in full_party 6) full_party_sound ltac:(vm_compute; reflexivity) ltac:(vm_compute; reflexivity)
      ltac:(vm_compute; reflexivity) ltac:(vm_compute; reflexivity) (elsewhere_ok full_party 6 _ ltac:(vm_compute; reflexivity))) as (w' & g' & E & Hg & Hr & _).
    rewrite Er in E, Hr. exists w', g'. split_and!; [exact E|exact Hg|exact Hr].
Defined.
(** Bob logs out of his battleground; had it been an arena with others of his side
    alive, he would be in it still. *)
Definition bob_visit (arena : bool) : option BgVisit := Some (mkBgVisit 7 true true arena STATUS_IN_PROGRESS false false 2 1).
Lemma relogin_restores_witness :
  (gp_group (player_in four 2), gp_original (player_in four 2)) = (Some 2, Some 1) /\
  (exists w1 w2 y, LogoutPlayer 2 true (bob_visit false) four = (Ret tt, w1) /\ w_players w1 !! 2 = None /\
    LoginPlayer 2 (player (str "Bob")) None w1 = (Ret tt, w2) /\ w_players w2 !! 2 = Some y /\ gp_group y = Some 1 /\ gp_original y = None) /\
  exists w1 w2 y, LogoutPlayer 2 true (bob_visit true) four = (Ret tt, w1) /\ w_players w1 !! 2 = None /\
    LoginPlayer 2 (player (str "Bob")) (Some (7, true)) w1 = (Ret tt, w2) /\ w_players w2 !! 2 = Some y /\ gp_group y = Some 2 /\ gp_original y = Some 1.
Proof.
  assert (E1 : gp_group (player_in four 2) = Some 2) by (vm_compute; reflexivity).
  assert (E2 : gp_original (player_in four 2) = Some 1) by (vm_compute; reflexivity).
  assert (Hraid : forall q g, gp_group (player_in four 2) = Some q \/ gp_original (player_in four 2) = Some q -> w_heap four !! q = Some g -> isRaidGroup g = true \/ true = false).
  { intros q g Hq Hg. left. rewrite E1, E2 in Hq.
    destruct Hq as [Hq|Hq]; apply (inj Some) in Hq as <-; [assert (Eg : w_heap four !! 2 = Some (group_in four 2)) by (vm_compute; reflexivity)|
      assert (Eg : w_heap four !! 1 = Some (group_in four 1)) by (vm_compute; reflexivity)]; rewrite Eg in Hg; apply (inj Some) in Hg as <-; vm_compute; reflexivity. }
  assert (Hbg : forall arena, logs_into four 2 (visit_side (bob_visit arena))).
  { intros arena. exists 2. split; [vm_compute; reflexivity|]. apply memberb_ok. vm_compute. reflexivity. }
  split; [now rewrite E1, E2|].
  pose proof (fun arena => relogin_restores four 2 (player_in four 2) (player (str "Bob")) (bob_visit arena) true four_sound ltac:(vm_compute; reflexivity)
    ltac:(vm_compute; reflexivity) (Hbg arena) Hraid ltac:(apply loadedb_ok; vm_compute; reflexivity)) as H. cbn zeta in H.
  pose proof (H false) as Ha. pose proof (H true) as Hb. clear H. revert Ha Hb. rewrite E1, E2.
  assert (La : match bob_visit false with Some b => leaves b | None => false end = true) by (vm_compute; reflexivity).
  assert (Lb : match bob_visit true with Some b => leaves b | None => false end = false) by (vm_compute; reflexivity). rewrite La, Lb. intros Ha Hb. split.
  - destruct Ha as (w1 & w2 & y & H1 & H2 & H3 & _ & H4). exists w1, w2, y. exact (conj H1 (conj H2 (conj H3 H4))).
  - destruct Hb as (w1 & w2 & y & H1 & H2 & H3 & _ & H4). exists w1, w2, y. exact (conj H1 (conj H2 (conj H3 H4))).
Defined.
Lemma invite_self_dangles_witness :
  exists w' x' q, HandleGroupInviteOpcode 4 (str "Dee") four = (Ret tt, w') /\ w_players w' !! 4 = Some x' /\ gp_invite x' = Some q /\ w_heap w' !! q = None /\
    (HandleGroupAcceptOpcode 4 w').1 = Crash.
Proof.
  exact (invite_self_dangles (rules := demo_rules) four 4 (str "Dee") (player_in four 4) four_sound ltac:(vm_compute; reflexivity) ltac:(vm_compute; reflexivity)
    ltac:(vm_compute; reflexivity) ltac:(vm_compute; reflexivity) ltac:(vm_compute; reflexivity)).
Defined.
Lemma leave_bg_outcome_witness :
  roster (group_in one 1) = [1] /\ others_here one 1 (group_in one 1) = [] /\ exists w', RemovePlayerAtLeave_group 7 true 1 one = (Ret tt, w') /\ disbanded 1 (group_in one 1) w' /\ w_bgRaids w' !! (7, true) = None.
Proof.
  split; [vm_compute; reflexivity|]. split; [vm_compute; reflexivity|].
  destruct (leave_bg_outcome one 7 true 1 (group_in one 1) 1 one_sound ltac:(vm_compute; reflexivity) ltac:(vm_compute; reflexivity) ltac:(vm_compute; reflexivity))
    as (w' & E & _ & H). exists w'. split; [exact E|].
  assert (E0 : (zlen (others_here one 1 (group_in one 1)) <? 1) = true) by (vm_compute; reflexivity). rewrite E0 in H. exact H.
Defined.
(** Ann and Bob are a group; they and three others get a place in dungeon 1, where Cid
    leads. *)
Definition five : GW :=
  run_all kicks state [Login 1 (player (str "Ann")) None; Login 2 (player (str "Bob")) None; Login 3 (player (str "Cid")) None; Login 4 (player (str "Dee")) None;
    Login 5 (player (str "Eve")) None; Invite 1 (str "Bob"); Accept 2] empty_world.
Lemma five_sound : sound five.
Proof. apply (reach_sound kicks state empty_world _ empty_sound). apply reach_all; [apply reach_start|]. vm_compute. reflexivity. Qed.
Definition match_of_five : LfgProposal :=
  mkLfgProposal 1 1 LFG_PROPOSAL_SUCCESS 0 3 0 0 true [] []
    (list_to_map (map (fun e => (e.1, mkLfgProposalPlayer e.2 LFG_ANSWER_AGREE 0)) [(1, LfgRoles.PLAYER_ROLE_TANK); (2, LfgRoles.PLAYER_ROLE_HEALER); (3, LfgRoles.PLAYER_ROLE_DAMAGE); (4, LfgRoles.PLAYER_ROLE_DAMAGE); (5, LfgRoles.PLAYER_ROLE_DAMAGE)])).
Lemma MakeNewGroup_gathers_witness :
  roster (group_in five 1) = [1; 2] /\
  exists w' q g, MakeNewGroup match_of_five five = (Ret tt, w') /\ formed five match_of_five q g w' /\ isLFGGroup g = true /\ m_leaderGuid g = 3.
Proof.
  split; [vm_compute; reflexivity|].
  destruct (MakeNewGroup_gathers five match_of_five five_sound ltac:(apply formableb_ok; vm_compute; reflexivity)) as (w' & q & g & E & _ & H).
  exists w', q, g. split; [exact E|]. split; [exact H|].
  assert (E0 : found_group (w_mgr five) match_of_five = None) by (vm_compute; reflexivity). pose proof (fd_leader _ _ _ _ _ H) as Hl. rewrite E0 in Hl.
  destruct Hl as (H1 & _ & H2). split; [exact H1|]. apply H2; [exists (mkLfgProposalPlayer LfgRoles.PLAYER_ROLE_DAMAGE LFG_ANSWER_AGREE 0)|]; vm_compute; reflexivity.
Defined.
