(* ===== verification/Channel.v ===== *)
(** * Chat channels (src/server/game/Chat/Channels/Channel.h and Channel.cpp)

    A channel keeps its members with their flags, the banned guids, the owner
    and its settings.  Every operation of the class is a state-changing program
    [CH]: it reads and writes the channel and appends to a trace what leaves it
    (packets per receiver, calls on players, database statements), in the order
    of the code.  The players, the world configuration and the object lookup
    are the record [World].

    Claims: the ownership and flag invariant over every sequence of operations,
    who may change what, who can join, the succession of owners, the ghost
    member an owner leaves who kicks himself, the member list packet, and the
    database round trip. *)

From stdpp Require Import base gmap list strings sorting.
From Stdlib Require Import ZArith Lia.
From S2P Require Import Prelude ByteBuffer Util Columns ObjectGuid WorldPacket.
#[local] Open Scope Z_scope.

(** ** Constants *)

Inductive ChatNotify :=
| CHAT_JOINED_NOTICE | CHAT_LEFT_NOTICE | CHAT_YOU_JOINED_NOTICE | CHAT_YOU_LEFT_NOTICE
| CHAT_WRONG_PASSWORD_NOTICE | CHAT_NOT_MEMBER_NOTICE | CHAT_NOT_MODERATOR_NOTICE
| CHAT_PASSWORD_CHANGED_NOTICE | CHAT_OWNER_CHANGED_NOTICE | CHAT_PLAYER_NOT_FOUND_NOTICE
| CHAT_NOT_OWNER_NOTICE | CHAT_CHANNEL_OWNER_NOTICE | CHAT_MODE_CHANGE_NOTICE
| CHAT_ANNOUNCEMENTS_ON_NOTICE | CHAT_ANNOUNCEMENTS_OFF_NOTICE | CHAT_MODERATION_ON_NOTICE
| CHAT_MODERATION_OFF_NOTICE | CHAT_MUTED_NOTICE | CHAT_PLAYER_KICKED_NOTICE | CHAT_BANNED_NOTICE
| CHAT_PLAYER_BANNED_NOTICE | CHAT_PLAYER_UNBANNED_NOTICE | CHAT_PLAYER_NOT_BANNED_NOTICE
| CHAT_PLAYER_ALREADY_MEMBER_NOTICE | CHAT_INVITE_NOTICE | CHAT_INVITE_WRONG_FACTION_NOTICE
| CHAT_WRONG_FACTION_NOTICE | CHAT_INVALID_NAME_NOTICE | CHAT_NOT_MODERATED_NOTICE
| CHAT_PLAYER_INVITED_NOTICE | CHAT_PLAYER_INVITE_BANNED_NOTICE | CHAT_THROTTLED_NOTICE
| CHAT_NOT_IN_AREA_NOTICE | CHAT_NOT_IN_LFG_NOTICE | CHAT_VOICE_ON_NOTICE | CHAT_VOICE_OFF_NOTICE.

Definition notify_code (n : ChatNotify) : Z :=
  match n with
  | CHAT_JOINED_NOTICE => 0x00 | CHAT_LEFT_NOTICE => 0x01
  | CHAT_YOU_JOINED_NOTICE => 0x02 | CHAT_YOU_LEFT_NOTICE => 0x03
  | CHAT_WRONG_PASSWORD_NOTICE => 0x04 | CHAT_NOT_MEMBER_NOTICE => 0x05
  | CHAT_NOT_MODERATOR_NOTICE => 0x06 | CHAT_PASSWORD_CHANGED_NOTICE => 0x07
  | CHAT_OWNER_CHANGED_NOTICE => 0x08 | CHAT_PLAYER_NOT_FOUND_NOTICE => 0x09
  | CHAT_NOT_OWNER_NOTICE => 0x0A | CHAT_CHANNEL_OWNER_NOTICE => 0x0B
  | CHAT_MODE_CHANGE_NOTICE => 0x0C | CHAT_ANNOUNCEMENTS_ON_NOTICE => 0x0D
  | CHAT_ANNOUNCEMENTS_OFF_NOTICE => 0x0E | CHAT_MODERATION_ON_NOTICE => 0x0F
  | CHAT_MODERATION_OFF_NOTICE => 0x10 | CHAT_MUTED_NOTICE => 0x11
  | CHAT_PLAYER_KICKED_NOTICE => 0x12 | CHAT_BANNED_NOTICE => 0x13
  | CHAT_PLAYER_BANNED_NOTICE => 0x14 | CHAT_PLAYER_UNBANNED_NOTICE => 0x15
  | CHAT_PLAYER_NOT_BANNED_NOTICE => 0x16 | CHAT_PLAYER_ALREADY_MEMBER_NOTICE => 0x17
  | CHAT_INVITE_NOTICE => 0x18 | CHAT_INVITE_WRONG_FACTION_NOTICE => 0x19
  | CHAT_WRONG_FACTION_NOTICE => 0x1A | CHAT_INVALID_NAME_NOTICE => 0x1B
  | CHAT_NOT_MODERATED_NOTICE => 0x1C | CHAT_PLAYER_INVITED_NOTICE => 0x1D
  | CHAT_PLAYER_INVITE_BANNED_NOTICE => 0x1E | CHAT_THROTTLED_NOTICE => 0x1F
  | CHAT_NOT_IN_AREA_NOTICE => 0x20 | CHAT_NOT_IN_LFG_NOTICE => 0x21
  | CHAT_VOICE_ON_NOTICE => 0x22 | CHAT_VOICE_OFF_NOTICE => 0x23
  end.

Definition CHANNEL_FLAG_CUSTOM : Z := 0x01.
Definition CHANNEL_FLAG_TRADE : Z := 0x04.
Definition CHANNEL_FLAG_NOT_LFG : Z := 0x08.
Definition CHANNEL_FLAG_GENERAL : Z := 0x10.
Definition CHANNEL_FLAG_CITY : Z := 0x20.
Definition CHANNEL_FLAG_LFG : Z := 0x40.
Definition CHANNEL_DBC_FLAG_TRADE : Z := 0x00008.
Definition CHANNEL_DBC_FLAG_CITY_ONLY2 : Z := 0x00020.
Definition CHANNEL_DBC_FLAG_LFG : Z := 0x40000.
Definition MEMBER_FLAG_NONE : Z := 0x00.
Definition MEMBER_FLAG_OWNER : Z := 0x01.
Definition MEMBER_FLAG_MODERATOR : Z := 0x02.
Definition MEMBER_FLAG_MUTED : Z := 0x08.
Definition SMSG_CHANNEL_NOTIFY : Z := 0x099.
Definition SMSG_CHANNEL_LIST : Z := 0x09B.
Definition SMSG_USERLIST_ADD : Z := 0x3F0.
Definition SMSG_USERLIST_REMOVE : Z := 0x3F1.
Definition SMSG_USERLIST_UPDATE : Z := 0x3F2.
Definition RBAC_PERM_TWO_SIDE_INTERACTION_CHANNEL : Z := 26.
Definition RBAC_PERM_WHO_SEE_ALL_SEC_LEVELS : Z := 35.
Definition RBAC_PERM_SILENTLY_JOIN_CHANNEL : Z := 45.
Definition RBAC_PERM_CHANGE_CHANNEL_NOT_MODERATOR : Z := 46.
Definition SEC_PLAYER : Z := 0.
Definition LANG_UNIVERSAL : Z := 0.

(** ** Members *)

Record PlayerInfo := mkPlayerInfo { player : Z; flags : Z }.
(** The value a map's [operator[]] creates for a missing key. *)
Definition empty_info : PlayerInfo := mkPlayerInfo 0 0.

Definition has_flag (fl mask : Z) : bool := negb (Z.land fl mask =? 0).
Definition set_flag (mask : Z) (state : bool) (i : PlayerInfo) : PlayerInfo :=
  mkPlayerInfo (player i) (if state then u8 (Z.lor (flags i) mask)
                           else u8 (Z.land (flags i) (Z.lnot mask))).
Definition IsOwner (i : PlayerInfo) : bool := has_flag (flags i) MEMBER_FLAG_OWNER.
Definition SetOwnerFlag := set_flag MEMBER_FLAG_OWNER.
Definition IsModerator (i : PlayerInfo) : bool := has_flag (flags i) MEMBER_FLAG_MODERATOR.
Definition SetModeratorFlag := set_flag MEMBER_FLAG_MODERATOR.
Definition IsMuted (i : PlayerInfo) : bool := has_flag (flags i) MEMBER_FLAG_MUTED.
Definition SetMutedFlag := set_flag MEMBER_FLAG_MUTED.

Record Channel := mkChannel {
  _announce : bool; _ownership : bool; _IsSaved : bool;
  _flags : Z; _channelId : Z; _Team : Z; _ownerGUID : Z;
  _name : list Z; _password : list Z;
  playersStore : gmap Z PlayerInfo;
  bannedStore : gset Z
}.

Definition GetName (c : Channel) : list Z := _name c.
Definition GetChannelId (c : Channel) : Z := _channelId c.
Definition IsConstant (c : Channel) : bool := negb (_channelId c =? 0).
Definition IsAnnounce (c : Channel) : bool := _announce c.
Definition GetPassword (c : Channel) : list Z := _password c.
Definition GetFlags (c : Channel) : Z := _flags c.
Definition IsLFG (c : Channel) : bool := has_flag (GetFlags c) CHANNEL_FLAG_LFG.
Definition HasChannelFlag (c : Channel) (flag : Z) : bool := has_flag (_flags c) flag.
Definition GetNumPlayers (c : Channel) : Z := u32 (Z.of_nat (base.size (playersStore c))).
Definition IsOn (c : Channel) (who : Z) : bool := bool_decide (is_Some (playersStore c !! who)).
Definition IsBanned (c : Channel) (guid : Z) : bool := bool_decide (guid ∈ bannedStore c).
Definition GetPlayerFlags (c : Channel) (guid : Z) : Z :=
  match playersStore c !! guid with Some i => flags i | None => 0 end.
(** the element [operator[]] refers to *)
Definition info_at (c : Channel) (guid : Z) : PlayerInfo := default empty_info (playersStore c !! guid).

Definition with_announce (c : Channel) (b : bool) : Channel :=
  mkChannel b (_ownership c) (_IsSaved c) (_flags c) (_channelId c) (_Team c) (_ownerGUID c)
    (_name c) (_password c) (playersStore c) (bannedStore c).
Definition with_ownership (c : Channel) (b : bool) : Channel :=
  mkChannel (_announce c) b (_IsSaved c) (_flags c) (_channelId c) (_Team c) (_ownerGUID c)
    (_name c) (_password c) (playersStore c) (bannedStore c).
Definition with_owner (c : Channel) (g : Z) : Channel :=
  mkChannel (_announce c) (_ownership c) (_IsSaved c) (_flags c) (_channelId c) (_Team c) g
    (_name c) (_password c) (playersStore c) (bannedStore c).
Definition with_password (c : Channel) (p : list Z) : Channel :=
  mkChannel (_announce c) (_ownership c) (_IsSaved c) (_flags c) (_channelId c) (_Team c) (_ownerGUID c)
    (_name c) p (playersStore c) (bannedStore c).
Definition with_players (c : Channel) (m : gmap Z PlayerInfo) : Channel :=
  mkChannel (_announce c) (_ownership c) (_IsSaved c) (_flags c) (_channelId c) (_Team c) (_ownerGUID c)
    (_name c) (_password c) m (bannedStore c).
Definition with_banned (c : Channel) (s : gset Z) : Channel :=
  mkChannel (_announce c) (_ownership c) (_IsSaved c) (_flags c) (_channelId c) (_Team c) (_ownerGUID c)
    (_name c) (_password c) (playersStore c) s.

(** A [std::map] or [std::set] is walked in the order of its keys. *)
Definition keys_in_order (X : gset Z) : list Z := merge_sort Z.le (elements X).
Definition members (c : Channel) : list Z := keys_in_order (dom (playersStore c)).

(** ** The packets *)

Definition MakeNotifyPacket (c : Channel) (notify_type : ChatNotify) : WorldPacket :=
  stream (Initialize (new_packet 0) SMSG_CHANNEL_NOTIFY)
    (do! write_uint8 (notify_code notify_type) in write_string (_name c)).
(** The notices that carry one guid, two guids or one name. *)
Definition notify_guid (c : Channel) (n : ChatNotify) (guid : Z) : WorldPacket :=
  stream (MakeNotifyPacket c n) (write_uint64 guid).
Definition notify_guids (c : Channel) (n : ChatNotify) (bad good : Z) : WorldPacket :=
  stream (MakeNotifyPacket c n) (do! write_uint64 bad in write_uint64 good).
Definition notify_name (c : Channel) (n : ChatNotify) (name : list Z) : WorldPacket :=
  stream (MakeNotifyPacket c n) (write_string name).

Definition MakeJoined (c : Channel) (guid : Z) := notify_guid c CHAT_JOINED_NOTICE guid.
Definition MakeLeft (c : Channel) (guid : Z) := notify_guid c CHAT_LEFT_NOTICE guid.
Definition MakeYouJoined (c : Channel) : WorldPacket :=
  stream (MakeNotifyPacket c CHAT_YOU_JOINED_NOTICE)
    (do! write_uint8 (GetFlags c) in do! write_uint32 (GetChannelId c) in write_uint32 0).
Definition MakeYouLeft (c : Channel) : WorldPacket :=
  stream (MakeNotifyPacket c CHAT_YOU_LEFT_NOTICE)
    (do! write_uint32 (GetChannelId c) in write_uint8 (Z.b2z (IsConstant c))).
Definition MakeWrongPassword (c : Channel) := MakeNotifyPacket c CHAT_WRONG_PASSWORD_NOTICE.
Definition MakeNotMember (c : Channel) := MakeNotifyPacket c CHAT_NOT_MEMBER_NOTICE.
Definition MakeNotModerator (c : Channel) := MakeNotifyPacket c CHAT_NOT_MODERATOR_NOTICE.
Definition MakePasswordChanged (c : Channel) (guid : Z) := notify_guid c CHAT_PASSWORD_CHANGED_NOTICE guid.
Definition MakeOwnerChanged (c : Channel) (guid : Z) := notify_guid c CHAT_OWNER_CHANGED_NOTICE guid.
Definition MakePlayerNotFound (c : Channel) (name : list Z) := notify_name c CHAT_PLAYER_NOT_FOUND_NOTICE name.
Definition MakeNotOwner (c : Channel) := MakeNotifyPacket c CHAT_NOT_OWNER_NOTICE.
Definition MakeModeChange (c : Channel) (guid oldflags : Z) : WorldPacket :=
  stream (MakeNotifyPacket c CHAT_MODE_CHANGE_NOTICE)
    (do! write_uint64 guid in do! write_uint8 oldflags in write_uint8 (GetPlayerFlags c guid)).
Definition MakeAnnouncementsOn (c : Channel) (guid : Z) := notify_guid c CHAT_ANNOUNCEMENTS_ON_NOTICE guid.
Definition MakeAnnouncementsOff (c : Channel) (guid : Z) := notify_guid c CHAT_ANNOUNCEMENTS_OFF_NOTICE guid.
Definition MakeMuted (c : Channel) := MakeNotifyPacket c CHAT_MUTED_NOTICE.
Definition MakePlayerKicked (c : Channel) (bad good : Z) := notify_guids c CHAT_PLAYER_KICKED_NOTICE bad good.
Definition MakeBanned (c : Channel) := MakeNotifyPacket c CHAT_BANNED_NOTICE.
Definition MakePlayerBanned (c : Channel) (bad good : Z) := notify_guids c CHAT_PLAYER_BANNED_NOTICE bad good.
Definition MakePlayerUnbanned (c : Channel) (bad good : Z) := notify_guids c CHAT_PLAYER_UNBANNED_NOTICE bad good.
Definition MakePlayerNotBanned (c : Channel) (name : list Z) := notify_name c CHAT_PLAYER_NOT_BANNED_NOTICE name.
Definition MakePlayerAlreadyMember (c : Channel) (guid : Z) := notify_guid c CHAT_PLAYER_ALREADY_MEMBER_NOTICE guid.
Definition MakeInvite (c : Channel) (guid : Z) := notify_guid c CHAT_INVITE_NOTICE guid.
Definition MakeInviteWrongFaction (c : Channel) := MakeNotifyPacket c CHAT_INVITE_WRONG_FACTION_NOTICE.
Definition MakeWrongFaction (c : Channel) := MakeNotifyPacket c CHAT_WRONG_FACTION_NOTICE.
Definition MakeInvalidName (c : Channel) := MakeNotifyPacket c CHAT_INVALID_NAME_NOTICE.
Definition MakeNotModerated (c : Channel) := MakeNotifyPacket c CHAT_NOT_MODERATED_NOTICE.
Definition MakePlayerInvited (c : Channel) (name : list Z) := notify_name c CHAT_PLAYER_INVITED_NOTICE name.
Definition MakePlayerInviteBanned (c : Channel) (name : list Z) := notify_name c CHAT_PLAYER_INVITE_BANNED_NOTICE name.
Definition MakeThrottled (c : Channel) := MakeNotifyPacket c CHAT_THROTTLED_NOTICE.
Definition MakeNotInArea (c : Channel) := MakeNotifyPacket c CHAT_NOT_IN_AREA_NOTICE.
Definition MakeNotInLfg (c : Channel) := MakeNotifyPacket c CHAT_NOT_IN_LFG_NOTICE.
Definition MakeVoiceOn (c : Channel) (guid : Z) := notify_guid c CHAT_VOICE_ON_NOTICE guid.
Definition MakeVoiceOff (c : Channel) (guid : Z) := notify_guid c CHAT_VOICE_OFF_NOTICE guid.

(** ** The world around a channel *)

(** What a channel asks of a player and of his session. *)
Record Player := {
  GetGUID : Z; PlayerName : list Z; GetTeam : Z;
  HasPermission : Z -> bool; GetSecurity : Z; GetGroup : bool;
  HasIgnore : Z -> bool; isGMVisible : bool; IsVisibleGloballyFor : Z -> bool;
  GetChatTag : Z; CanGMChat : bool
}.

(** The configuration, the connected players by name and by guid, the names of
    the character cache, the built-in channels and the row of the [channels]
    table for the name and team at hand. *)
Record World := {
  CONFIG_PRESERVE_CUSTOM_CHANNELS : bool;
  CONFIG_PRESERVE_CUSTOM_CHANNEL_DURATION : Z;
  CONFIG_RESTRICTED_LFG_CHANNEL : bool;
  CONFIG_ALLOW_TWO_SIDE_INTERACTION_CHANNEL : bool;
  CONFIG_GM_LEVEL_IN_WHO_LIST : Z;
  FindPlayerByName : list Z -> option Player;
  FindConnectedPlayer : Z -> option Player;
  GetPlayerNameByGUID : Z -> option (list Z);
  ChatChannelsFlags : Z -> option Z
}.

(** The statements of the character database. *)
Inductive stmt :=
| CHAR_INS_CHANNEL (name : list Z) (team : Z)
| CHAR_UPD_CHANNEL (announce ownership : bool) (password banList name : list Z) (team : Z)
| CHAR_UPD_CHANNEL_USAGE (name : list Z) (team : Z)
| CHAR_DEL_OLD_CHANNELS (duration : Z).

Inductive event :=
| SendPacket (to : Z) (p : WorldPacket)
| Player_JoinedChannel (guid : Z)
| Player_LeftChannel (guid : Z)
| Execute (s : stmt).

Record St := mkSt { chan : Channel; trace : list event }.
Abbreviation CH := (action St exn).

Definition this : CH Channel := let! s := get in ret (chan s).
Definition modify (f : Channel -> Channel) : CH unit :=
  let! s := get in put (mkSt (f (chan s)) (trace s)).
Definition emits (es : list event) : CH unit :=
  let! s := get in put (mkSt (chan s) (trace s ++ es)).
Definition emit (e : event) : CH unit := emits [e].
Definition when (b : bool) (m : CH unit) : CH unit := if b then m else ret tt.

(** [playersStore[guid].Set...]: the element is created when it is missing. *)
Definition modify_player (guid : Z) (f : PlayerInfo -> PlayerInfo) : CH unit :=
  modify (fun c => with_players c (<[guid := f (info_at c guid)]> (playersStore c))).
(** [playersStore[guid]] read through [operator[]]. *)
Definition player_at (guid : Z) : CH PlayerInfo :=
  do! modify_player guid (fun i => i) in let! c := this in ret (info_at c guid).

(** The stored row: announce, ownership, password and the banned list. *)
Abbreviation Row := (bool * bool * list Z * option (list Z))%type.

Section Operations.
Context (w : World).

Definition MakeChannelOwner (c : Channel) : WorldPacket :=
  let name := match GetPlayerNameByGUID w (_ownerGUID c) with
              | Some (x :: name) => x :: name
              | _ => str "PLAYER_NOT_FOUND"
              end in
  stream (MakeNotifyPacket c CHAT_CHANNEL_OWNER_NOTICE)
    (write_string (if IsConstant c || (_ownerGUID c =? 0) then str "Nobody" else name)).

(** ** Sending *)

Definition SendToAll (data : WorldPacket) (guid : Z) : CH unit :=
  let! c := this in
  emits (flat_map (fun k => match FindConnectedPlayer w k with
                            | None => []
                            | Some p => if (guid =? 0) || negb (HasIgnore p (GUID_LOPART guid))
                                        then [SendPacket k data] else []
                            end) (members c)).
Definition SendToAllButOne (data : WorldPacket) (who : Z) : CH unit :=
  let! c := this in
  emits (flat_map (fun k => if negb (k =? who)
                            then match FindConnectedPlayer w k with
                                 | None => []
                                 | Some _ => [SendPacket k data]
                                 end else []) (members c)).
Definition SendToOne (data : WorldPacket) (who : Z) : CH unit :=
  match FindConnectedPlayer w who with
  | None => ret tt
  | Some _ => emit (SendPacket who data)
  end.

(** ** The database *)

Definition banlist_text (s : gset Z) : list Z := flat_map (fun g => dec g ++ [32]) (keys_in_order s).

Definition UpdateChannelInDB : CH unit :=
  let! c := this in
  when (_IsSaved c)
    (emit (Execute (CHAR_UPD_CHANNEL (_announce c) (_ownership c) (_password c)
                      (banlist_text (bannedStore c)) (_name c) (_Team c)))).
Definition UpdateChannelUseageInDB : CH unit :=
  let! c := this in emit (Execute (CHAR_UPD_CHANNEL_USAGE (_name c) (_Team c))).
Definition CleanOldChannelsInDB : CH unit :=
  when (0 <? CONFIG_PRESERVE_CUSTOM_CHANNEL_DURATION w)
    (emit (Execute (CHAR_DEL_OLD_CHANNELS (u32 (CONFIG_PRESERVE_CUSTOM_CHANNEL_DURATION w * DAY))))).

Definition load_banned (text : list Z) : gset Z :=
  foldl (fun s tok => let banned_guid := u64 (atol tok) in
                      if negb (banned_guid =? 0) then {[ banned_guid ]} ∪ s else s)
        ∅ (Tokenizer text 32).

(** [Channel(name, channelId, team)], with the row the query returns. *)
Definition new_channel (result : option Row) (name : list Z) (channelId team : Z)
    : Channel * list event :=
  match ChatChannelsFlags w channelId with
  | Some fl =>
    let f0 := CHANNEL_FLAG_GENERAL in
    let f1 := if has_flag fl CHANNEL_DBC_FLAG_TRADE then Z.lor f0 CHANNEL_FLAG_TRADE else f0 in
    let f2 := if has_flag fl CHANNEL_DBC_FLAG_CITY_ONLY2 then Z.lor f1 CHANNEL_FLAG_CITY else f1 in
    let f3 := if has_flag fl CHANNEL_DBC_FLAG_LFG then Z.lor f2 CHANNEL_FLAG_LFG
              else Z.lor f2 CHANNEL_FLAG_NOT_LFG in
    (mkChannel false false false f3 channelId team 0 name [] ∅ ∅, [])
  | None =>
    if CONFIG_PRESERVE_CUSTOM_CHANNELS w then
      match result with
      | Some (announce, ownership, password, banned) =>
        (mkChannel announce ownership true CHANNEL_FLAG_CUSTOM channelId team 0 name password ∅
           (match banned with Some text => load_banned text | None => ∅ end), [])
      | None => (mkChannel true true true CHANNEL_FLAG_CUSTOM channelId team 0 name [] ∅ ∅,
                 [Execute (CHAR_INS_CHANNEL name team)])
      end
    else (mkChannel true true false CHANNEL_FLAG_CUSTOM channelId team 0 name [] ∅ ∅, [])
  end.
End Operations.

(** ** Operations *)

Section Handlers.
Context (w : World).
#[local] Abbreviation SendToAll := (SendToAll w).
#[local] Abbreviation SendToAllButOne := (SendToAllButOne w).
#[local] Abbreviation SendToOne := (SendToOne w).

(** [SetModerator(uint64, bool)] and [SetMute(uint64, bool)] of the header. *)
Definition SetModerator_guid (guid : Z) (set : bool) : CH unit :=
  let! i := player_at guid in
  when (negb (Bool.eqb (IsModerator i) set))
    (let! c := this in
     let oldFlag := GetPlayerFlags c guid in
     do! modify_player guid (SetModeratorFlag set) in
     let! c := this in SendToAll (MakeModeChange c guid oldFlag) 0).
Definition SetMute_guid (guid : Z) (set : bool) : CH unit :=
  let! i := player_at guid in
  when (negb (Bool.eqb (IsMuted i) set))
    (let! c := this in
     let oldFlag := GetPlayerFlags c guid in
     do! modify_player guid (SetMutedFlag set) in
     let! c := this in SendToAll (MakeModeChange c guid oldFlag) 0).

(** [SetOwner(uint64 guid, bool exclaim)] *)
Definition SetOwner_guid (guid : Z) (exclaim : bool) : CH unit :=
  let! c := this in
  do! when (negb (_ownerGUID c =? 0) && IsOn c (_ownerGUID c))
        (modify_player (_ownerGUID c) (SetOwnerFlag false)) in
  do! modify (fun c => with_owner c guid) in
  when (negb (guid =? 0))
    (let! c := this in
     let oldFlag := GetPlayerFlags c guid in
     do! modify_player guid (SetModeratorFlag true) in
     do! modify_player guid (SetOwnerFlag true) in
     let! c := this in
     do! SendToAll (MakeModeChange c guid oldFlag) 0 in
     do! when exclaim (SendToAll (MakeOwnerChanged c guid) 0) in
     UpdateChannelInDB).

Definition JoinNotify (guid : Z) : CH unit :=
  let! c := this in
  let data := stream (new_packet (if IsConstant c then SMSG_USERLIST_ADD else SMSG_USERLIST_UPDATE))
    (do! write_uint64 guid in do! write_uint8 (GetPlayerFlags c guid) in
     do! write_uint8 (GetFlags c) in do! write_uint32 (GetNumPlayers c) in write_string (GetName c)) in
  if IsConstant c then SendToAllButOne data guid else SendToAll data 0.
Definition LeaveNotify (guid : Z) : CH unit :=
  let! c := this in
  let data := stream (new_packet SMSG_USERLIST_REMOVE)
    (do! write_uint64 guid in do! write_uint8 (GetFlags c) in
     do! write_uint32 (GetNumPlayers c) in write_string (GetName c)) in
  if IsConstant c then SendToAllButOne data guid else SendToAll data 0.

Definition JoinChannel (player : Player) (pass : list Z) : CH unit :=
  let guid := GetGUID player in
  let! c := this in
  if IsOn c guid then
    when (negb (IsConstant c)) (SendToOne (MakePlayerAlreadyMember c guid) guid)
  else if IsBanned c guid then SendToOne (MakeBanned c) guid
  else if negb (bool_decide (_password c = [])) && negb (bool_decide (pass = _password c))
  then SendToOne (MakeWrongPassword c) guid
  else if HasChannelFlag c CHANNEL_FLAG_LFG && CONFIG_RESTRICTED_LFG_CHANNEL w &&
          (GetSecurity player =? SEC_PLAYER) && GetGroup player
  then SendToOne (MakeNotInLfg c) guid
  else
    do! emit (Player_JoinedChannel guid) in
    do! when (_announce c && negb (HasPermission player RBAC_PERM_SILENTLY_JOIN_CHANNEL))
          (SendToAll (MakeJoined c guid) 0) in
    do! modify_player guid (fun _ => mkPlayerInfo guid MEMBER_FLAG_NONE) in
    let! c := this in
    do! SendToOne (MakeYouJoined c) guid in
    do! JoinNotify guid in
    when (negb (IsConstant c))
      (do! when (negb (bool_decide (playersStore c = ∅))) UpdateChannelUseageInDB in
       when ((_ownerGUID c =? 0) && _ownership c)
         (do! SetOwner_guid guid (1 <? Z.of_nat (base.size (playersStore c))) in
          modify_player guid (SetModeratorFlag true))).

(** [playersStore.begin()->second.player] *)
Definition first_player (c : Channel) : Z :=
  match members c with k :: _ => player (info_at c k) | [] => 0 end.

Definition LeaveChannel (player : Player) (send : bool) : CH unit :=
  let guid := GetGUID player in
  let! c := this in
  if negb (IsOn c guid) then when send (SendToOne (MakeNotMember c) guid)
  else
    do! when send (do! SendToOne (MakeYouLeft c) guid in emit (Player_LeftChannel guid)) in
    let! i := player_at guid in
    let changeowner := IsOwner i in
    do! modify (fun c => with_players c (delete guid (playersStore c))) in
    let! c := this in
    do! when (_announce c && negb (HasPermission player RBAC_PERM_SILENTLY_JOIN_CHANNEL))
          (SendToAll (MakeLeft c guid) 0) in
    do! LeaveNotify guid in
    when (negb (IsConstant c))
      (do! UpdateChannelUseageInDB in
       when (changeowner && _ownership c && negb (bool_decide (playersStore c = ∅)))
         (let newowner := first_player c in
          do! modify_player newowner (SetModeratorFlag true) in
          SetOwner_guid newowner true)).

(** The two tests most commands start with: membership, then moderator rights. *)
Definition guarded (player : Player) (k : CH unit) : CH unit :=
  let guid := GetGUID player in
  let! c := this in
  if negb (IsOn c guid) then SendToOne (MakeNotMember c) guid
  else
    let! i := player_at guid in
    if negb (IsModerator i) && negb (HasPermission player RBAC_PERM_CHANGE_CHANNEL_NOT_MODERATOR)
    then SendToOne (MakeNotModerator c) guid
    else k.

Definition victim_of (bad : option Player) : Z := match bad with Some b => GetGUID b | None => 0 end.

Definition KickOrBan (player : Player) (badname : list Z) (ban : bool) : CH unit :=
  let good := GetGUID player in
  guarded player
    (let! c := this in
     let bad := FindPlayerByName w badname in
     let victim := victim_of bad in
     if (victim =? 0) || negb (IsOn c victim) then SendToOne (MakePlayerNotFound c badname) good
     else
       let changeowner := _ownerGUID c =? victim in
       if negb (HasPermission player RBAC_PERM_CHANGE_CHANNEL_NOT_MODERATOR) && changeowner &&
          negb (good =? _ownerGUID c)
       then SendToOne (MakeNotOwner c) good
       else
         do! (if ban && negb (IsBanned c victim) then
                do! modify (fun c => with_banned c ({[ victim ]} ∪ bannedStore c)) in
                do! UpdateChannelInDB in
                when (negb (HasPermission player RBAC_PERM_SILENTLY_JOIN_CHANNEL))
                  (let! c := this in SendToAll (MakePlayerBanned c victim good) 0)
              else
                when (negb (HasPermission player RBAC_PERM_SILENTLY_JOIN_CHANNEL))
                  (SendToAll (MakePlayerKicked c victim good) 0)) in
         do! modify (fun c => with_players c (delete victim (playersStore c))) in
         do! emit (Player_LeftChannel victim) in
         let! c := this in
         when (changeowner && _ownership c && negb (bool_decide (playersStore c = ∅)))
           (let newowner := good in
            do! modify_player newowner (SetModeratorFlag true) in
            SetOwner_guid newowner true)).
Definition Kick (player : Player) (badname : list Z) : CH unit := KickOrBan player badname false.
Definition Ban (player : Player) (badname : list Z) : CH unit := KickOrBan player badname true.

Definition UnBan (player : Player) (badname : list Z) : CH unit :=
  let good := GetGUID player in
  guarded player
    (let! c := this in
     let victim := victim_of (FindPlayerByName w badname) in
     if (victim =? 0) || negb (IsBanned c victim) then SendToOne (MakePlayerNotFound c badname) good
     else
       do! modify (fun c => with_banned c (bannedStore c ∖ {[ victim ]})) in
       let! c := this in
       do! SendToAll (MakePlayerUnbanned c victim good) 0 in
       UpdateChannelInDB).

Definition Password (player : Player) (pass : list Z) : CH unit :=
  let guid := GetGUID player in
  guarded player
    (do! modify (fun c => with_password c pass) in
     let! c := this in
     do! SendToAll (MakePasswordChanged c guid) 0 in
     UpdateChannelInDB).

(** The victim is absent, not on the channel, or of the other side without the
    permission on both ends. *)
Definition not_reachable (c : Channel) (player : Player) (newp : option Player) : bool :=
  let victim := victim_of newp in
  (victim =? 0) || negb (IsOn c victim) ||
  match newp with
  | None => false
  | Some p => negb (GetTeam player =? GetTeam p) &&
              (negb (HasPermission player RBAC_PERM_TWO_SIDE_INTERACTION_CHANNEL) ||
               negb (HasPermission p RBAC_PERM_TWO_SIDE_INTERACTION_CHANNEL))
  end.

Definition SetMode (player : Player) (p2n : list Z) (mod_ set : bool) : CH unit :=
  let guid := GetGUID player in
  guarded player
    (let! c := this in
     if (guid =? _ownerGUID c) && bool_decide (p2n = PlayerName player) && mod_ then ret tt
     else
       let newp := FindPlayerByName w p2n in
       let victim := victim_of newp in
       if not_reachable c player newp then SendToOne (MakePlayerNotFound c p2n) guid
       else if (_ownerGUID c =? victim) && negb (_ownerGUID c =? guid)
       then SendToOne (MakeNotOwner c) guid
       else if mod_ then SetModerator_guid victim set else SetMute_guid victim set).
Definition SetModerator (player : Player) (newname : list Z) : CH unit := SetMode player newname true true.
Definition UnsetModerator (player : Player) (newname : list Z) : CH unit := SetMode player newname true false.
Definition SetMute (player : Player) (newname : list Z) : CH unit := SetMode player newname false true.
Definition UnsetMute (player : Player) (newname : list Z) : CH unit := SetMode player newname false false.

Definition SetOwner (player : Player) (newname : list Z) : CH unit :=
  let guid := GetGUID player in
  let! c := this in
  if negb (IsOn c guid) then SendToOne (MakeNotMember c) guid
  else if negb (HasPermission player RBAC_PERM_CHANGE_CHANNEL_NOT_MODERATOR) && negb (guid =? _ownerGUID c)
  then SendToOne (MakeNotOwner c) guid
  else
    let newp := FindPlayerByName w newname in
    let victim := victim_of newp in
    if not_reachable c player newp then SendToOne (MakePlayerNotFound c newname) guid
    else
      do! modify_player victim (SetModeratorFlag true) in
      SetOwner_guid victim true.

Definition SendWhoOwner (guid : Z) : CH unit :=
  let! c := this in
  SendToOne (if IsOn c guid then MakeChannelOwner w c else MakeNotMember c) guid.

(** ** List: who is on the channel *)

Definition visible_to (player : Player) (k : Z) : bool :=
  match FindConnectedPlayer w k with
  | None => false
  | Some m => (HasPermission player RBAC_PERM_WHO_SEE_ALL_SEC_LEVELS ||
               (GetSecurity m <=? CONFIG_GM_LEVEL_IN_WHO_LIST w)) &&
              IsVisibleGloballyFor m (GetGUID player)
  end.
(** The loop over the members: the number of entries written. *)
Fixpoint list_loop (c : Channel) (player : Player) (ks : list Z) (count : Z) : BB Z :=
  match ks with
  | [] => ret count
  | k :: ks =>
    if visible_to player k then
      do! write_uint64 k in
      do! write_uint8 (flags (info_at c k)) in
      list_loop c player ks (u32 (count + 1))
    else list_loop c player ks count
  end.
Definition list_body (c : Channel) (player : Player) : BB unit :=
  do! write_uint8 1 in
  do! write_string (GetName c) in
  do! write_uint8 (GetFlags c) in
  let! pos := wpos in
  do! write_uint32 0 in
  let! count := list_loop c player (members c) 0 in
  put_int 4 pos count.
Definition List_ (player : Player) : CH unit :=
  let guid := GetGUID player in
  let! c := this in
  if negb (IsOn c guid) then SendToOne (MakeNotMember c) guid
  else SendToOne (stream (new_packet SMSG_CHANNEL_LIST) (list_body c player)) guid.

Definition Announce (player : Player) : CH unit :=
  let guid := GetGUID player in
  guarded player
    (do! modify (fun c => with_announce c (negb (_announce c))) in
     let! c := this in
     do! SendToAll (if _announce c then MakeAnnouncementsOn c guid else MakeAnnouncementsOff c guid) 0 in
     UpdateChannelInDB).

Definition chat_object (p : Player) : ChatObject :=
  {| co_guid := GetGUID p; co_name := PlayerName p; co_tag := GetChatTag p; co_player := true;
     co_gm_chat := CanGMChat p |}.

Definition Say (guid : Z) (what : list Z) (lang : Z) : CH unit :=
  if bool_decide (what = []) then ret tt
  else
    let lang := if CONFIG_ALLOW_TWO_SIDE_INTERACTION_CHANNEL w then LANG_UNIVERSAL else lang in
    let! c := this in
    if negb (IsOn c guid) then SendToOne (MakeNotMember c) guid
    else
      let! i := player_at guid in
      if IsMuted i then SendToOne (MakeMuted c) guid
      else
        let built := match FindConnectedPlayer w guid with
                     | Some p => BuildChatPacket_objects CHAT_MSG_CHANNEL lang (Some (chat_object p))
                                   (Some (chat_object p)) what 0 (_name c)
                     | None => BuildChatPacket CHAT_MSG_CHANNEL lang guid guid what 0 [] [] 0 false (_name c)
                     end in
        match built with
        | Ret (data, _) => let! i := player_at guid in SendToAll data (if negb (IsModerator i) then guid else 0)
        | Throw e => throw e
        | Crash => crash
        end.

Definition Invite (player : Player) (newname : list Z) : CH unit :=
  let guid := GetGUID player in
  let! c := this in
  if negb (IsOn c guid) then SendToOne (MakeNotMember c) guid
  else
    match FindPlayerByName w newname with
    | None => SendToOne (MakePlayerNotFound c newname) guid
    | Some newp =>
      if negb (isGMVisible newp) then SendToOne (MakePlayerNotFound c newname) guid
      else if IsBanned c (GetGUID newp) then SendToOne (MakePlayerInviteBanned c newname) guid
      else if negb (GetTeam newp =? GetTeam player) &&
              (negb (HasPermission player RBAC_PERM_TWO_SIDE_INTERACTION_CHANNEL) ||
               negb (HasPermission newp RBAC_PERM_TWO_SIDE_INTERACTION_CHANNEL))
      then SendToOne (MakeInviteWrongFaction c) guid
      else if IsOn c (GetGUID newp) then SendToOne (MakePlayerAlreadyMember c (GetGUID newp)) guid
      else
        do! when (negb (HasIgnore newp (GUID_LOPART guid))) (SendToOne (MakeInvite c guid) (GetGUID newp)) in
        SendToOne (MakePlayerInvited c (PlayerName newp)) guid
    end.

Definition Voice (guid1 guid2 : Z) : CH unit := ret tt.
Definition DeVoice (guid1 guid2 : Z) : CH unit := ret tt.

(** The operations a session can call, as one command. *)
Inductive Command :=
| CJoin (p : Player) (pass : list Z) | CLeave (p : Player) (send : bool)
| CKickOrBan (p : Player) (badname : list Z) (ban : bool) | CUnBan (p : Player) (badname : list Z)
| CPassword (p : Player) (pass : list Z) | CSetMode (p : Player) (name : list Z) (mod_ set : bool)
| CSetOwner (p : Player) (name : list Z) | CSendWhoOwner (guid : Z) | CList (p : Player)
| CAnnounce (p : Player) | CSay (guid : Z) (what : list Z) (lang : Z)
| CInvite (p : Player) (name : list Z) | CSetOwnership (b : bool).

Definition run_command (cmd : Command) : CH unit :=
  match cmd with
  | CJoin p pass => JoinChannel p pass
  | CLeave p send => LeaveChannel p send
  | CKickOrBan p name ban => KickOrBan p name ban
  | CUnBan p name => UnBan p name
  | CPassword p pass => Password p pass
  | CSetMode p name m s => SetMode p name m s
  | CSetOwner p name => SetOwner p name
  | CSendWhoOwner g => SendWhoOwner g
  | CList p => List_ p
  | CAnnounce p => Announce p
  | CSay g what lang => Say g what lang
  | CInvite p name => Invite p name
  | CSetOwnership b => modify (fun c => with_ownership c b)
  end.
End Handlers.

(** ** The stored channel *)

(** The [channels] table: rows by name and team, with the time of last use.  The name
    is a [varchar(128)], the password a [varchar(32)], the banned players a [text]. *)
Abbreviation Table := (gmap (list Z * Z) (Row * Z)).
Definition NAME_COLUMN : Z := 128.
Definition PASSWORD_COLUMN : Z := 32.
Definition TEXT_COLUMN : Z := 65535.
Definition exec_stmt `{columns : TextColumns} (now : Z) (db : Table) (s : stmt) : Table :=
  match s with
  | CHAR_INS_CHANNEL name team =>
    match db !! (held NAME_COLUMN name, team) with
    | Some _ => db
    | None => <[(held NAME_COLUMN name, team) := ((true, true, [], None), now)]> db
    end
  | CHAR_UPD_CHANNEL announce ownership password banList name team =>
    match db !! (name, team) with
    | Some _ => <[(name, team) := ((announce, ownership, held PASSWORD_COLUMN password, Some (held TEXT_COLUMN banList)), now)]> db
    | None => db
    end
  | CHAR_UPD_CHANNEL_USAGE name team =>
    match db !! (name, team) with
    | Some (row, _) => <[(name, team) := (row, now)]> db
    | None => db
    end
  | CHAR_DEL_OLD_CHANNELS duration =>
    filter (fun e => ~ (snd (fst (fst (fst e.2))) = true /\ snd e.2 + duration < now)) db
  end.
Definition exec_events `{columns : TextColumns} (now : Z) (db : Table) (es : list event) : Table :=
  foldl (fun db e => match e with Execute s => exec_stmt now db s | _ => db end) db es.

(** The row of a saved channel has what the columns hold of its settings. *)
Definition InSync `{columns : TextColumns} (db : Table) (c : Channel) : Prop :=
  _IsSaved c = true ->
  exists o b tm, db !! (_name c, _Team c) = Some ((_announce c, o, held PASSWORD_COLUMN (_password c), b), tm) /\
    default [] b = held TEXT_COLUMN (banlist_text (bannedStore c)).

(** ** Reasoning about operations

    [eff m c c']: run on the channel [c], whatever was sent before, [m] returns,
    leaves the channel [c'] and only adds to the trace; and the statements it
    adds keep the database in step with the channel. *)
Definition persists (c : Channel) (es : list event) (c' : Channel) : Prop :=
  forall (columns : TextColumns) now db, InSync db c -> InSync (exec_events now db es) c'.
Definition eff (m : CH unit) (c c' : Channel) : Prop :=
  forall t, exists t', m (mkSt c t) = (Ret tt, mkSt c' (t ++ t')) /\ persists c t' c'.
(** The same, for an operation that may also fail. *)
Definition final (m : CH unit) (c c' : Channel) : Prop :=
  forall t, exists o t', m (mkSt c t) = (o, mkSt c' (t ++ t')) /\ persists c t' c'.

Lemma eff_final m c c' : eff m c c' -> final m c c'.
Proof. intros H t. destruct (H t) as [t' E]. now exists (Ret tt), t'. Qed.

(** Two channels with the same stored settings. *)
Definition same_settings (c c' : Channel) : Prop :=
  _IsSaved c' = _IsSaved c /\ _name c' = _name c /\ _Team c' = _Team c /\
  _announce c' = _announce c /\ _password c' = _password c /\ bannedStore c' = bannedStore c.
Lemma InSync_same `{columns : TextColumns} db c c' : same_settings c c' -> InSync db c -> InSync db c'.
Proof. unfold InSync. intros (-> & -> & -> & -> & -> & ->). done. Qed.

(** Events that are no database statement. *)
Definition quiet (e : event) : Prop := match e with Execute _ => False | _ => True end.
Lemma exec_quiet `{columns : TextColumns} now db es : Forall quiet es -> exec_events now db es = db.
Proof. intros H. induction H as [|[] es Hq _ IH]; cbn; try done; now destruct Hq. Qed.

Lemma eff_ret c : eff (ret tt) c c.
Proof. intros t; exists []. split; [now rewrite app_nil_r|intros columns now db H; exact H]. Qed.

Lemma eff_emits es c : Forall quiet es -> eff (emits es) c c.
Proof.
  intros Hq t; exists es. split; [done|]. intros columns now db H. now rewrite exec_quiet.
Qed.
Lemma eff_emit e c : quiet e -> eff (emit e) c c.
Proof. intros. apply eff_emits. now repeat constructor. Qed.

Lemma eff_modify f c : same_settings c (f c) -> eff (modify f) c (f c).
Proof.
  intros Hs t; exists []. split; [now rewrite app_nil_r|]. intros columns now db H. now apply (InSync_same db c).
Qed.

Lemma eff_modify_player g f c :
  eff (modify_player g f) c (with_players c (<[g := f (info_at c g)]> (playersStore c))).
Proof. apply (eff_modify (fun c => with_players c _)). repeat split. Qed.

Lemma InSync_update `{columns : TextColumns} now db c :
  InSync db c -> _IsSaved c = true -> forall b,
  InSync (exec_stmt now db (CHAR_UPD_CHANNEL (_announce b) (_ownership b) (_password b)
            (banlist_text (bannedStore b)) (_name c) (_Team c)))
    (mkChannel (_announce b) (_ownership b) true (_flags b) (_channelId b) (_Team c) (_ownerGUID b)
       (_name c) (_password b) (playersStore b) (bannedStore b)).
Proof.
  intros H Hs b. destruct (H Hs) as (o & bl & tm & E & _). intros _.
  unfold exec_stmt. cbn [_name _Team _announce _password bannedStore]. rewrite E.
  rewrite lookup_insert_eq. eauto 6.
Qed.

Lemma eff_seq (m k : CH unit) c c1 c2 : eff m c c1 -> eff k c1 c2 -> eff (do! m in k) c c2.
Proof.
  intros Hm Hk t. destruct (Hm t) as (t1 & E1 & P1). destruct (Hk (t ++ t1)) as (t2 & E2 & P2).
  exists (t1 ++ t2). split; [unfold bind; rewrite E1, E2; now rewrite app_assoc|].
  intros columns now db H. unfold exec_events. rewrite foldl_app. apply P2, P1, H.
Qed.

Lemma eff_this (k : Channel -> CH unit) c c' : eff (k c) c c' -> eff (let! x := this in k x) c c'.
Proof. intros H t. exact (H t). Qed.
Lemma final_this (k : Channel -> CH unit) c c' : final (k c) c c' -> final (let! x := this in k x) c c'.
Proof. intros H t. exact (H t). Qed.

Lemma with_players_id c : with_players c (playersStore c) = c.
Proof. now destruct c. Qed.

Lemma touch_present c g : IsOn c g = true ->
  with_players c (<[g := info_at c g]> (playersStore c)) = c.
Proof.
  unfold IsOn, info_at; intros H; zbool. destruct H as [i Hi]. rewrite Hi. cbn.
  rewrite insert_id by done. apply with_players_id.
Qed.

Lemma eff_player_at g (k : PlayerInfo -> CH unit) c c' :
  IsOn c g = true -> eff (k (info_at c g)) c c' -> eff (let! i := player_at g in k i) c c'.
Proof.
  intros Hon H t. unfold player_at, modify_player, modify, this, bind, get, put, ret. cbn.
  rewrite (touch_present c g Hon). exact (H t).
Qed.
Lemma final_player_at g (k : PlayerInfo -> CH unit) c c' :
  IsOn c g = true -> final (k (info_at c g)) c c' -> final (let! i := player_at g in k i) c c'.
Proof.
  intros Hon H t. unfold player_at, modify_player, modify, this, bind, get, put, ret. cbn.
  rewrite (touch_present c g Hon). exact (H t).
Qed.

Lemma eff_when (b : bool) m c c' : (b = true -> eff m c c') -> (b = false -> c' = c) -> eff (when b m) c c'.
Proof. destruct b; intros H1 H2; [now apply H1|]. rewrite H2 by done. apply eff_ret. Qed.

Lemma eff_when_same (b : bool) m c : eff m c c -> eff (when b m) c c.
Proof. intros; now apply eff_when. Qed.

Lemma quiet_flat_map {A} (f : A -> list event) l : (forall a, Forall quiet (f a)) -> Forall quiet (flat_map f l).
Proof. intros H. induction l; cbn; [constructor|now apply Forall_app]. Qed.

Lemma eff_SendToAll w d g c : eff (SendToAll w d g) c c.
Proof.
  apply eff_this, eff_emits, quiet_flat_map. intros k.
  destruct (FindConnectedPlayer w k); [case_if|]; now repeat constructor.
Qed.
Lemma eff_SendToAllButOne w d g c : eff (SendToAllButOne w d g) c c.
Proof.
  apply eff_this, eff_emits, quiet_flat_map. intros k.
  case_if; [destruct (FindConnectedPlayer w k)|]; now repeat constructor.
Qed.
Lemma eff_SendToOne w d g c : eff (SendToOne w d g) c c.
Proof. unfold SendToOne. destruct (FindConnectedPlayer w g); [now apply eff_emit|apply eff_ret]. Qed.

(** Storing the settings, whatever was stored before. *)
Lemma store_settings c0 c t :
  exists t', UpdateChannelInDB (mkSt c t) = (Ret tt, mkSt c (t ++ t')) /\
    (_IsSaved c = _IsSaved c0 -> _name c = _name c0 -> _Team c = _Team c0 -> persists c0 t' c).
Proof.
  unfold UpdateChannelInDB, this, bind, get, ret, when. cbn [chan]. destruct (_IsSaved c) eqn:Es.
  - eexists; split; [reflexivity|]. intros Es0 En Et columns now db H. cbn [exec_events foldl].
    rewrite En, Et. pose proof (InSync_update now db c0 H (eq_sym Es0) c) as H1. intros _.
    destruct (H1 eq_refl) as (o & b & tm & E & Eb). cbn [_name _Team _announce _password bannedStore] in E, Eb. rewrite En, Et. eauto 6.
  - exists []. split; [now rewrite app_nil_r|]. intros _ _ _ columns now db _ Hs. congruence.
Qed.
Lemma eff_UpdateChannelInDB c : eff UpdateChannelInDB c c.
Proof. intros t. destruct (store_settings c c t) as (t' & E & H). exists t'. split; [exact E|now apply H]. Qed.

(** A change of the settings that is announced and then stored. *)
Lemma eff_modify_stored f (k : Channel -> CH unit) c :
  _IsSaved (f c) = _IsSaved c -> _name (f c) = _name c -> _Team (f c) = _Team c ->
  (forall t, exists es, k (f c) (mkSt (f c) t) = (Ret tt, mkSt (f c) (t ++ es)) /\ Forall quiet es) ->
  eff (do! modify f in let! c1 := this in do! k c1 in UpdateChannelInDB) c (f c).
Proof.
  intros H1 H2 H3 Hk t. destruct (Hk t) as (es & Ek & Hq).
  destruct (store_settings c (f c) (t ++ es)) as (t' & E & H). exists (es ++ t'). split.
  - unfold modify, this, bind, get, put, ret. cbn [chan trace]. rewrite Ek, E. now rewrite app_assoc.
  - intros columns now db Hdb. unfold exec_events. rewrite foldl_app. fold (exec_events now db es).
    rewrite exec_quiet by done. now apply H.
Qed.
Lemma SendToAll_quiet w d g c t :
  exists es, SendToAll w d g (mkSt c t) = (Ret tt, mkSt c (t ++ es)) /\ Forall quiet es.
Proof.
  eexists; split; [reflexivity|]. apply quiet_flat_map. intros k. cbn [chan].
  destruct (FindConnectedPlayer w k); [case_if|]; now repeat constructor.
Qed.

Lemma eff_UpdateChannelUseageInDB c : eff UpdateChannelUseageInDB c c.
Proof.
  intros t. eexists; split; [reflexivity|]. intros columns now db H Hs. destruct (H Hs) as (o & b & tm & E & Eb).
  cbn [chan exec_events foldl exec_stmt]. rewrite E, lookup_insert_eq. eauto 6.
Qed.
Lemma eff_JoinNotify w g c : eff (JoinNotify w g) c c.
Proof. apply eff_this. cbv zeta. destruct (IsConstant c); [apply eff_SendToAllButOne|apply eff_SendToAll]. Qed.
Lemma eff_LeaveNotify w g c : eff (LeaveNotify w g) c c.
Proof. apply eff_this. cbv zeta. destruct (IsConstant c); [apply eff_SendToAllButOne|apply eff_SendToAll]. Qed.

Create HintDb channel.
#[export] Hint Resolve eff_ret eff_modify_player eff_SendToAll eff_SendToAllButOne eff_SendToOne
  eff_UpdateChannelInDB eff_UpdateChannelUseageInDB eff_JoinNotify eff_LeaveNotify eff_when_same
  eff_final : channel.

(** One step of a program: a read, a write or a message. *)
Ltac eff_step :=
  first
  [ apply eff_this; cbv beta zeta
  | eapply eff_seq; [solve [auto with channel | now apply eff_emit | apply eff_modify_player]|cbv beta]
  | solve [auto with channel | now apply eff_emit | apply eff_modify_player] ].

(** *** Pure descriptions of the composite updates *)

(** What [SetOwner(guid)] does to the channel. *)
Definition owner_cleared (c : Channel) : Channel :=
  if negb (_ownerGUID c =? 0) && IsOn c (_ownerGUID c)
  then with_players c (<[_ownerGUID c := SetOwnerFlag false (info_at c (_ownerGUID c))]> (playersStore c))
  else c.
Definition owner_result (c : Channel) (g : Z) : Channel :=
  let c1 := with_owner (owner_cleared c) g in
  if g =? 0 then c1
  else with_players c1 (<[g := SetOwnerFlag true (SetModeratorFlag true (info_at c1 g))]> (playersStore c1)).

Lemma info_at_insert c g i : info_at (with_players c (<[g := i]> (playersStore c))) g = i.
Proof. unfold info_at. cbn. now rewrite lookup_insert_eq. Qed.

Lemma eff_SetOwner_guid w g ex c : eff (SetOwner_guid w g ex) c (owner_result c g).
Proof.
  unfold SetOwner_guid. eff_step.
  eapply eff_seq with (c1 := owner_cleared c).
  { unfold owner_cleared. apply eff_when; intros ->; [apply eff_modify_player|done]. }
  eapply eff_seq; [apply (eff_modify (fun c => with_owner c g)); repeat split|]. cbv beta. unfold owner_result.
  set (c1 := with_owner (owner_cleared c) g).
  destruct (g =? 0); cbn [negb when]; [apply eff_ret|].
  eff_step. eapply eff_seq; [apply eff_modify_player|]. eapply eff_seq; [apply eff_modify_player|].
  rewrite info_at_insert. cbn [with_players playersStore]. rewrite insert_insert_eq.
  eff_step. eff_step. eff_step. auto with channel.
Qed.
#[export] Hint Resolve eff_SetOwner_guid : channel.

(** The abstract view of every operation: what it makes of the channel. *)
Definition updated (c : Channel) (g : Z) (f : PlayerInfo -> PlayerInfo) : Channel :=
  with_players c (<[g := f (info_at c g)]> (playersStore c)).
Definition without (c : Channel) (g : Z) : Channel := with_players c (delete g (playersStore c)).
Definition nonempty (c : Channel) : bool := negb (bool_decide (playersStore c = ∅)).
Definition allowed (p : Player) (c : Channel) : bool :=
  IsOn c (GetGUID p) &&
  (IsModerator (info_at c (GetGUID p)) || HasPermission p RBAC_PERM_CHANGE_CHANNEL_NOT_MODERATOR).
Definition may_join (w : World) (p : Player) (pass : list Z) (c : Channel) : bool :=
  negb (IsBanned c (GetGUID p)) && (bool_decide (_password c = []) || bool_decide (pass = _password c)) &&
  negb (HasChannelFlag c CHANNEL_FLAG_LFG && CONFIG_RESTRICTED_LFG_CHANNEL w &&
        (GetSecurity p =? SEC_PLAYER) && GetGroup p).

Definition join_result (w : World) (p : Player) (pass : list Z) (c : Channel) : Channel :=
  let g := GetGUID p in
  if IsOn c g || negb (may_join w p pass c) then c
  else let c1 := with_players c (<[g := mkPlayerInfo g MEMBER_FLAG_NONE]> (playersStore c)) in
       if negb (IsConstant c) && ((_ownerGUID c =? 0) && _ownership c)
       then updated (owner_result c1 g) g (SetModeratorFlag true) else c1.

Definition leave_result (p : Player) (c : Channel) : Channel :=
  let g := GetGUID p in
  if negb (IsOn c g) then c
  else let c1 := without c g in
       if negb (IsConstant c) && (IsOwner (info_at c g) && _ownership c && nonempty c1)
       then owner_result (updated c1 (first_player c1) (SetModeratorFlag true)) (first_player c1)
       else c1.

Definition kick_result (w : World) (p : Player) (badname : list Z) (ban : bool) (c : Channel) : Channel :=
  let g := GetGUID p in
  let victim := victim_of (FindPlayerByName w badname) in
  if negb (allowed p c) || (victim =? 0) || negb (IsOn c victim) ||
     (negb (HasPermission p RBAC_PERM_CHANGE_CHANNEL_NOT_MODERATOR) && (_ownerGUID c =? victim) &&
      negb (g =? _ownerGUID c))
  then c
  else let c1 := if ban then with_banned c ({[ victim ]} ∪ bannedStore c) else c in
       let c2 := without c1 victim in
       if (_ownerGUID c =? victim) && _ownership c && nonempty c2
       then owner_result (updated c2 g (SetModeratorFlag true)) g else c2.

Definition unban_result (w : World) (p : Player) (badname : list Z) (c : Channel) : Channel :=
  let victim := victim_of (FindPlayerByName w badname) in
  if negb (allowed p c) || (victim =? 0) || negb (IsBanned c victim) then c
  else with_banned c (bannedStore c ∖ {[ victim ]}).

Definition mode_result (w : World) (p : Player) (name : list Z) (mod_ set : bool) (c : Channel) : Channel :=
  let g := GetGUID p in
  let newp := FindPlayerByName w name in
  let victim := victim_of newp in
  if negb (allowed p c) || ((g =? _ownerGUID c) && bool_decide (name = PlayerName p) && mod_) ||
     not_reachable c p newp || ((_ownerGUID c =? victim) && negb (_ownerGUID c =? g))
  then c
  else if mod_ then (if Bool.eqb (IsModerator (info_at c victim)) set then c
                     else updated c victim (SetModeratorFlag set))
       else (if Bool.eqb (IsMuted (info_at c victim)) set then c
             else updated c victim (SetMutedFlag set)).

Definition set_owner_result (w : World) (p : Player) (name : list Z) (c : Channel) : Channel :=
  let g := GetGUID p in
  let newp := FindPlayerByName w name in
  let victim := victim_of newp in
  if negb (IsOn c g) ||
     (negb (HasPermission p RBAC_PERM_CHANGE_CHANNEL_NOT_MODERATOR) && negb (g =? _ownerGUID c)) ||
     not_reachable c p newp
  then c else owner_result (updated c victim (SetModeratorFlag true)) victim.

Definition command_result (w : World) (cmd : Command) (c : Channel) : Channel :=
  match cmd with
  | CJoin p pass => join_result w p pass c
  | CLeave p _ => leave_result p c
  | CKickOrBan p name ban => kick_result w p name ban c
  | CUnBan p name => unban_result w p name c
  | CPassword p pass => if allowed p c then with_password c pass else c
  | CSetMode p name m s => mode_result w p name m s c
  | CSetOwner p name => set_owner_result w p name c
  | CAnnounce p => if allowed p c then with_announce c (negb (_announce c)) else c
  | CSetOwnership b => with_ownership c b
  | CSendWhoOwner _ | CList _ | CSay _ _ _ | CInvite _ _ => c
  end.

(** ** Every operation against its abstract view *)

Lemma eff_eq m c c1 c2 : eff m c c1 -> c1 = c2 -> eff m c c2.
Proof. now intros ? <-. Qed.

Lemma eff_guarded w p k c c' :
  (allowed p c = true -> eff k c c') -> (allowed p c = false -> c' = c) -> eff (guarded w p k) c c'.
Proof.
  unfold allowed. intros H1 H2. unfold guarded. eff_step.
  destruct (IsOn c (GetGUID p)) eqn:E; cbn [negb andb] in *.
  - apply eff_player_at; [done|].
    destruct (IsModerator _), (HasPermission p _); cbn [negb andb orb] in *;
      try (now apply H1). rewrite H2 by done. auto with channel.
  - rewrite H2 by done. auto with channel.
Qed.

Lemma eff_JoinChannel w p pass c : eff (JoinChannel w p pass) c (join_result w p pass c).
Proof.
  unfold JoinChannel, join_result, may_join. eff_step. set (g := GetGUID p).
  destruct (IsOn c g); cbn [orb]; [auto with channel|].
  destruct (IsBanned c g); cbn [negb andb]; [auto with channel|].
  replace (negb (bool_decide (_password c = [])) && negb (bool_decide (pass = _password c)))
    with (negb (bool_decide (_password c = []) || bool_decide (pass = _password c))) by now rewrite negb_orb.
  destruct (bool_decide (_password c = []) || _); cbn [negb andb]; [|auto with channel].
  destruct (HasChannelFlag c _ && _ && _ && _); cbn [negb]; [auto with channel|].
  eff_step. eff_step. eapply eff_seq; [apply eff_modify_player|].
  eff_step. eff_step. eff_step. cbn [with_players _ownerGUID _ownership].
  change (IsConstant (with_players c ?m)) with (IsConstant c). destruct (IsConstant c); cbn [negb when andb]; [apply eff_ret|].
  eff_step. apply eff_when; [intros ->|intros ->; done].
  eapply eff_seq; [apply eff_SetOwner_guid|]. apply eff_modify_player.
Qed.

Lemma eff_LeaveChannel w p send c : eff (LeaveChannel w p send) c (leave_result p c).
Proof.
  unfold LeaveChannel, leave_result. eff_step. set (g := GetGUID p).
  destruct (IsOn c g) eqn:E; cbn [negb]; [|auto with channel].
  eapply eff_seq.
  { apply eff_when_same. eff_step. now apply eff_emit. }
  apply eff_player_at; [done|]. eapply eff_seq; [apply (eff_modify (fun c => without c g)); repeat split|].
  cbv beta. eff_step. eff_step. eff_step. change (IsConstant (without c g)) with (IsConstant c).
  change (_ownership (without c g)) with (_ownership c). destruct (IsConstant c); cbn [negb when andb]; [apply eff_ret|].
  eff_step. fold (nonempty (without c g)).
  apply eff_when; [intros ->|intros ->; done].
  eapply eff_seq; [apply eff_modify_player|]. apply eff_SetOwner_guid.
Qed.

(** The same when the change is stored first and announced afterwards. *)
Lemma eff_ban_stored v (k : CH unit) c :
  eff k (with_banned c ({[ v ]} ∪ bannedStore c)) (with_banned c ({[ v ]} ∪ bannedStore c)) ->
  eff (do! modify (fun c => with_banned c ({[ v ]} ∪ bannedStore c)) in do! UpdateChannelInDB in k)
    c (with_banned c ({[ v ]} ∪ bannedStore c)).
Proof.
  intros Hk t. set (c1 := with_banned c _).
  destruct (store_settings c c1 t) as (t1 & E1 & H1). destruct (Hk (t ++ t1)) as (t2 & E2 & H2).
  exists (t1 ++ t2). split.
  - unfold modify, bind, get, put. cbn [chan trace]. fold c1. rewrite E1. fold c1 in E2. rewrite E2. now rewrite app_assoc.
  - intros columns now db H. unfold exec_events. rewrite foldl_app. apply H2, H1; [done..|exact H].
Qed.

Lemma eff_KickOrBan w p name ban c : eff (KickOrBan w p name ban) c (kick_result w p name ban c).
Proof.
  unfold KickOrBan, kick_result. set (g := GetGUID p). set (v := victim_of _).
  apply eff_guarded; intros ->; cbn [negb orb]; [|done]. eff_step. fold v.
  destruct (v =? 0), (IsOn c v); cbn [negb orb]; try (auto with channel; fail).
  destruct (negb (HasPermission p _) && (_ownerGUID c =? v) && negb (g =? _ownerGUID c)); [auto with channel|].
  set (c1 := if ban then with_banned c ({[ v ]} ∪ bannedStore c) else c).
  apply eff_seq with (c1 := c1).
  { unfold c1. destruct ban; cbn [andb]; [|auto with channel].
    destruct (IsBanned c v) eqn:Eb; cbn [negb].
    - eapply eff_eq; [apply eff_when_same; auto with channel|]. unfold IsBanned in Eb; zbool.
      destruct c; unfold with_banned; cbn in *. f_equal. set_solver.
    - apply eff_ban_stored. apply eff_when_same. eff_step. auto with channel. }
  assert (Ec1 : _ownerGUID c1 = _ownerGUID c /\ _ownership c1 = _ownership c) by (unfold c1; now destruct ban).
  destruct Ec1 as [Eo1 Eo2].
  eapply eff_seq; [apply (eff_modify (fun c => without c v)); repeat split|]. cbv beta. eff_step. eff_step.
  change (_ownership (without c1 v)) with (_ownership c1).
  rewrite Eo2. fold (nonempty (without c1 v)).
  apply eff_when; [intros ->|intros ->; done].
  eapply eff_seq; [apply eff_modify_player|]. apply eff_SetOwner_guid.
Qed.

Lemma eff_UnBan w p name c : eff (UnBan w p name) c (unban_result w p name c).
Proof.
  unfold UnBan, unban_result. set (v := victim_of _).
  apply eff_guarded; intros ->; cbn [negb orb]; [|done]. eff_step. fold v.
  destruct (v =? 0), (IsBanned c v); cbn [negb orb]; try (auto with channel; fail).
  apply (eff_modify_stored (fun c => with_banned c _)
           (fun c => SendToAll w (MakePlayerUnbanned c v _) 0)); auto using SendToAll_quiet.
Qed.

Lemma eff_Password w p pass c : eff (Password w p pass) c (if allowed p c then with_password c pass else c).
Proof.
  unfold Password. apply eff_guarded; intros ->; [|done].
  apply (eff_modify_stored (fun c => with_password c _)
           (fun c => SendToAll w (MakePasswordChanged c _) 0)); auto using SendToAll_quiet.
Qed.

Lemma eff_Announce w p c :
  eff (Announce w p) c (if allowed p c then with_announce c (negb (_announce c)) else c).
Proof.
  unfold Announce. apply eff_guarded; intros ->; [|done].
  apply (eff_modify_stored (fun c => with_announce c (negb (_announce c)))
           (fun c => SendToAll w (if _announce c then MakeAnnouncementsOn c (GetGUID p)
                                  else MakeAnnouncementsOff c (GetGUID p)) 0)); auto using SendToAll_quiet.
Qed.

Lemma not_reachable_on c p newp : not_reachable c p newp = false -> IsOn c (victim_of newp) = true.
Proof. unfold not_reachable. destruct (IsOn c (victim_of newp)); [done|]. cbn. now rewrite orb_true_r. Qed.

Lemma eff_SetMode w p name m s c : eff (SetMode w p name m s) c (mode_result w p name m s c).
Proof.
  unfold SetMode, mode_result. set (g := GetGUID p). set (v := victim_of _).
  apply eff_guarded; intros ->; cbn [negb orb]; [|done]. eff_step.
  destruct ((g =? _ownerGUID c) && _ && m); cbn [orb]; [apply eff_ret|]. fold v.
  destruct (not_reachable c p _) eqn:En; cbn [orb]; [auto with channel|]. apply not_reachable_on in En.
  destruct ((_ownerGUID c =? v) && _); [auto with channel|].
  destruct m; [unfold SetModerator_guid|unfold SetMute_guid]; (apply eff_player_at; [exact En|]).
  - destruct (Bool.eqb _ _); cbn [negb when]; [apply eff_ret|].
    eff_step. eapply eff_seq; [apply eff_modify_player|]. eff_step. auto with channel.
  - destruct (Bool.eqb _ _); cbn [negb when]; [apply eff_ret|].
    eff_step. eapply eff_seq; [apply eff_modify_player|]. eff_step. auto with channel.
Qed.

Lemma eff_SetOwner w p name c : eff (SetOwner w p name) c (set_owner_result w p name c).
Proof.
  unfold SetOwner, set_owner_result. eff_step. set (g := GetGUID p). set (v := victim_of _).
  destruct (IsOn c g); cbn [negb orb]; [|auto with channel].
  destruct (negb (HasPermission p _) && negb (g =? _ownerGUID c)); cbn [orb]; [auto with channel|].
  destruct (not_reachable c p _); [auto with channel|].
  eapply eff_seq; [apply eff_modify_player|]. apply eff_SetOwner_guid.
Qed.

Lemma eff_Invite w p name c : eff (Invite w p name) c c.
Proof.
  unfold Invite. eff_step. destruct (negb (IsOn c _)); [auto with channel|].
  destruct (FindPlayerByName w name); [|auto with channel].
  repeat (match goal with |- eff (if ?b then _ else _) _ _ => destruct b end; [auto with channel|]).
  eff_step. auto with channel.
Qed.

Lemma final_Say w g what lang c : final (Say w g what lang) c c.
Proof.
  unfold Say. destruct (bool_decide (what = [])); [auto with channel|]. apply final_this. cbv zeta.
  destruct (IsOn c g) eqn:E; cbn [negb]; [|auto with channel].
  apply final_player_at; [done|]. destruct (IsMuted _); [auto with channel|].
  match goal with |- final (match ?b with _ => _ end) _ _ => destruct b as [[data pos]|e|] end.
  - apply final_player_at; [done|]. auto with channel.
  - intros t. exists (Throw e), []. split; [now rewrite app_nil_r|intros columns now db H; exact H].
  - intros t. exists Crash, []. split; [now rewrite app_nil_r|intros columns now db H; exact H].
Qed.

(** Every command leaves the channel its abstract view describes. *)
Lemma run_command_result w cmd c : final (run_command w cmd) c (command_result w cmd c).
Proof.
  destruct cmd; cbn [run_command command_result];
    auto using eff_final, eff_JoinChannel, eff_LeaveChannel, eff_KickOrBan, eff_UnBan, eff_Password,
      eff_SetMode, eff_SetOwner, eff_Announce, eff_Invite, final_Say.
  - apply eff_final. apply eff_this. destruct (IsOn c _); auto with channel.
  - apply eff_final. apply eff_this. destruct (negb _); auto with channel.
  - apply eff_final. apply (eff_modify (fun c => with_ownership c b)); repeat split.
Qed.

(** The channel after a command and after a sequence of commands. *)
Definition after (w : World) (cmd : Command) (c : Channel) : Channel :=
  chan (snd (run_command w cmd (mkSt c []))).
Definition run_commands (w : World) (cmds : list Command) (s : St) : St :=
  foldl (fun s cmd => snd (run_command w cmd s)) s cmds.

Lemma after_result w cmd c : after w cmd c = command_result w cmd c.
Proof. unfold after. destruct (run_command_result w cmd c []) as (o & t' & -> & _). done. Qed.

Lemma run_command_after w cmd s : chan (snd (run_command w cmd s)) = command_result w cmd (chan s).
Proof. destruct s as [c t]. destruct (run_command_result w cmd c t) as (o & t' & -> & _). done. Qed.

Lemma owner_result_settings c g :
  let c' := owner_result c g in
  _IsSaved c' = _IsSaved c /\ _name c' = _name c /\ _Team c' = _Team c.
Proof. unfold owner_result, owner_cleared. repeat case_if; done. Qed.

Lemma command_keeps_identity w cmd c :
  let c' := command_result w cmd c in
  _IsSaved c' = _IsSaved c /\ _name c' = _name c /\ _Team c' = _Team c.
Proof.
  destruct cmd; cbn [command_result];
    unfold join_result, leave_result, kick_result, unban_result, mode_result, set_owner_result;
    repeat case_if; try done; cbn -[owner_result];
    try (match goal with |- context [owner_result ?a ?b] => destruct (owner_result_settings a b) as (-> & -> & ->) end);
    now repeat case_if.
Qed.

(** ** The invariant *)

(** Keys are the members' guids, no member has guid zero, flags are bytes and
    only the recorded owner carries the owner flag. *)
Record Inv (c : Channel) : Prop := {
  inv_player : forall g i, playersStore c !! g = Some i -> player i = g /\ is_u 8 (flags i);
  inv_owner : forall g i, playersStore c !! g = Some i -> IsOwner i = true -> g = _ownerGUID c;
  inv_zero : playersStore c !! 0 = None
}.

(** An owner who kicks or bans himself: the case that breaks it. *)
Definition owner_kicks_himself (w : World) (cmd : Command) (c : Channel) : bool :=
  match cmd with
  | CKickOrBan p name _ => (_ownerGUID c =? victim_of (FindPlayerByName w name)) &&
                           (victim_of (FindPlayerByName w name) =? GetGUID p)
  | _ => false
  end.
Definition actor_ok (cmd : Command) : Prop :=
  match cmd with
  | CJoin p _ => GetGUID p <> 0
  | _ => True
  end.

Lemma flag_facts i b :
  is_u 8 (flags i) ->
  is_u 8 (flags (SetModeratorFlag b i)) /\ is_u 8 (flags (SetMutedFlag b i)) /\ is_u 8 (flags (SetOwnerFlag b i)) /\
  IsOwner (SetModeratorFlag b i) = IsOwner i /\ IsOwner (SetMutedFlag b i) = IsOwner i /\
  IsOwner (SetOwnerFlag b i) = b /\ IsModerator (SetModeratorFlag b i) = b /\
  IsModerator (SetOwnerFlag b i) = IsModerator i /\ IsMuted (SetMutedFlag b i) = b /\
  IsMuted (SetModeratorFlag b i) = IsMuted i /\ IsMuted (SetOwnerFlag b i) = IsMuted i.
Proof.
  intros Hf. destruct i as [g fl]. cbn [flags] in Hf.
  assert (H : forallb (fun n => let i := mkPlayerInfo g (Z.of_nat n) in
     bool_decide (is_u 8 (flags (SetModeratorFlag b i))) && bool_decide (is_u 8 (flags (SetMutedFlag b i))) &&
     bool_decide (is_u 8 (flags (SetOwnerFlag b i))) &&
     Bool.eqb (IsOwner (SetModeratorFlag b i)) (IsOwner i) && Bool.eqb (IsOwner (SetMutedFlag b i)) (IsOwner i) &&
     Bool.eqb (IsOwner (SetOwnerFlag b i)) b && Bool.eqb (IsModerator (SetModeratorFlag b i)) b &&
     Bool.eqb (IsModerator (SetOwnerFlag b i)) (IsModerator i) && Bool.eqb (IsMuted (SetMutedFlag b i)) b &&
     Bool.eqb (IsMuted (SetModeratorFlag b i)) (IsMuted i) && Bool.eqb (IsMuted (SetOwnerFlag b i)) (IsMuted i))
     (seq 0 256) = true) by (destruct b; vm_compute; reflexivity).
  rewrite forallb_forall in H. specialize (H (Z.to_nat fl)). unfold is_u in Hf.
  rewrite Z2Nat.id in H by lia. cbn zeta in H.
  assert (Hin : In (Z.to_nat fl) (seq 0 256)) by (apply in_seq; lia). apply H in Hin.
  repeat (apply andb_prop in Hin as [Hin ?]). zbool.
  repeat match goal with H : Bool.eqb _ _ = true |- _ => apply Bool.eqb_prop in H end.
  split_and!; assumption.
Qed.

Lemma on_info c g : IsOn c g = true -> playersStore c !! g = Some (info_at c g).
Proof. unfold IsOn, info_at; intros H; zbool. destruct H as [i ->]. done. Qed.

Lemma on_nonzero c g : Inv c -> IsOn c g = true -> g <> 0.
Proof. intros Hi H ->. apply on_info in H. rewrite (inv_zero c Hi) in H. done. Qed.

(** Changing one member in a way that respects the owner. *)
Lemma Inv_updated c g f :
  Inv c -> IsOn c g = true ->
  (forall i, player (f i) = player i) -> (forall i, is_u 8 (flags i) -> is_u 8 (flags (f i))) ->
  (IsOwner (f (info_at c g)) = true -> g = _ownerGUID c) ->
  Inv (updated c g f).
Proof.
  intros Hi Hon Hp Hf Ho. pose proof (on_info c g Hon) as Hg. split; cbn [updated with_players playersStore _ownerGUID].
  - intros k i. rewrite lookup_insert_Some. intros [[<- <-]|[_ Hk]]; [|now apply (inv_player c Hi)].
    destruct (inv_player c Hi g _ Hg) as [E ?]. rewrite Hp, E. auto.
  - intros k i. rewrite lookup_insert_Some. intros [[<- <-]|[_ Hk]]; [auto|now apply (inv_owner c Hi)].
  - rewrite lookup_insert_ne; [apply Hi|]. now apply (on_nonzero c).
Qed.

Lemma Inv_moderator c g b : Inv c -> IsOn c g = true -> Inv (updated c g (SetModeratorFlag b)).
Proof.
  intros Hi Hon. pose proof (on_info c g Hon) as Hg. destruct (inv_player c Hi g _ Hg) as [_ Hfl].
  apply Inv_updated; auto; [intros i H; now apply flag_facts|].
  destruct (flag_facts _ b Hfl) as (_ & _ & _ & -> & _). now apply (inv_owner c Hi).
Qed.
Lemma Inv_muted c g b : Inv c -> IsOn c g = true -> Inv (updated c g (SetMutedFlag b)).
Proof.
  intros Hi Hon. pose proof (on_info c g Hon) as Hg. destruct (inv_player c Hi g _ Hg) as [_ Hfl].
  apply Inv_updated; auto; [intros i H; now apply flag_facts|].
  destruct (flag_facts _ b Hfl) as (_ & _ & _ & _ & -> & _). now apply (inv_owner c Hi).
Qed.

(** After the old owner lost his flag, nobody has it. *)
Lemma owner_cleared_spec c :
  Inv c -> Inv (owner_cleared c) /\
  (forall g i, playersStore (owner_cleared c) !! g = Some i -> IsOwner i = false) /\
  (forall g, IsOn (owner_cleared c) g = IsOn c g) /\
  (forall g, g <> _ownerGUID c -> playersStore (owner_cleared c) !! g = playersStore c !! g).
Proof.
  intros Hi. unfold owner_cleared.
  destruct (negb (_ownerGUID c =? 0) && IsOn c (_ownerGUID c)) eqn:E.
  - apply andb_prop in E as [_ Hon]. set (o := _ownerGUID c) in *.
    pose proof (on_info c o Hon) as Ho. destruct (inv_player c Hi o _ Ho) as [_ Hfl].
    destruct (flag_facts _ false Hfl) as (_ & _ & _ & _ & _ & Hcl & _).
    split; [|split; [|split]].
    + apply (Inv_updated c o (SetOwnerFlag false)); auto. intros i H; now apply flag_facts.
    + intros g i. cbn. rewrite lookup_insert_Some. intros [[<- <-]|[Hne Hk]]; [exact Hcl|].
      destruct (IsOwner i) eqn:Ei; [|done]. destruct Hne. symmetry. now apply (inv_owner c Hi g i).
    + intros g. unfold IsOn. cbn. apply bool_decide_ext. rewrite lookup_insert_is_Some.
      destruct (decide (o = g)) as [->|]; [|tauto]. rewrite Ho. split; [eauto|tauto].
    + intros g Hg. cbn. now rewrite lookup_insert_ne.
  - split; [done|]. split; [|done]. intros g i Hg. destruct (IsOwner i) eqn:Eo; [|done].
    pose proof (inv_owner c Hi g i Hg Eo) as ->. exfalso.
    assert (Hon : IsOn c (_ownerGUID c) = true) by (apply bool_decide_eq_true; eauto).
    rewrite Hon, andb_true_r in E. zbool. rewrite E in Hg. rewrite (inv_zero c Hi) in Hg. done.
Qed.

Lemma owner_result_spec c g :
  Inv c -> IsOn c g = true ->
  Inv (owner_result c g) /\ _ownerGUID (owner_result c g) = g /\
  IsOwner (info_at (owner_result c g) g) = true /\ IsModerator (info_at (owner_result c g) g) = true /\
  IsMuted (info_at (owner_result c g) g) = IsMuted (info_at c g) /\
  (forall k, IsOn (owner_result c g) k = IsOn c k) /\
  (forall k, k <> g -> k <> _ownerGUID c -> playersStore (owner_result c g) !! k = playersStore c !! k).
Proof.
  intros Hi Hon. destruct (owner_cleared_spec c Hi) as (Hic & Hno & Hson & Hother).
  pose proof (on_nonzero c g Hi Hon) as Hg0. unfold owner_result.
  rewrite (proj2 (Z.eqb_neq g 0) Hg0). set (c1 := with_owner (owner_cleared c) g).
  assert (Hic1 : Inv c1).
  { split; [apply (inv_player _ Hic)| |apply (inv_zero _ Hic)].
    intros k i Hk Ho. now rewrite (Hno k i Hk) in Ho. }
  assert (Hon1 : IsOn c1 g = true) by (rewrite <- Hon; apply Hson).
  pose proof (on_info c1 g Hon1) as Hg1. destruct (inv_player c1 Hic1 g _ Hg1) as [_ Hfl].
  destruct (flag_facts _ true Hfl) as (Hf1 & _ & _ & _ & _ & _ & Hm & _ & _ & Hmu & _).
  destruct (flag_facts _ true Hf1) as (_ & _ & Hf2 & _ & _ & Ho2 & _ & Hm2 & _ & _ & Hmu2).
  split; [|split; [done|]].
  { apply (Inv_updated c1 g (fun i => SetOwnerFlag true (SetModeratorFlag true i))); auto.
    intros i H. apply flag_facts. now apply flag_facts. }
  rewrite info_at_insert. split; [done|]. split; [now rewrite Hm2|]. split; [|split].
  - rewrite Hmu2, Hmu. unfold info_at, c1, owner_cleared. cbn.
    destruct (negb (_ownerGUID c =? 0) && IsOn c (_ownerGUID c)) eqn:E; [|done].
    cbn. destruct (decide (_ownerGUID c = g)) as [->|]; [|now rewrite lookup_insert_ne].
    rewrite lookup_insert_eq. cbn. pose proof (on_info c g Hon) as Hgc.
    destruct (inv_player c Hi g _ Hgc) as [_ Hflc]. unfold info_at at 1. rewrite Hgc.
    now apply flag_facts.
  - intros k. rewrite <- (Hson k). unfold IsOn. cbn. apply bool_decide_ext. rewrite lookup_insert_is_Some.
    destruct (decide (g = k)) as [<-|]; [|tauto]. cbn in Hg1. rewrite Hg1. split; [eauto|tauto].
  - intros k Hk1 Hk2. cbn. rewrite lookup_insert_ne by done. now apply Hother.
Qed.

Lemma Inv_without c g : Inv c -> Inv (without c g).
Proof.
  intros Hi. split; cbn.
  - intros k i H. apply lookup_delete_Some in H as [_ H]. now apply (inv_player c Hi).
  - intros k i H. apply lookup_delete_Some in H as [_ H]. now apply (inv_owner c Hi).
  - rewrite lookup_delete_None. right. apply Hi.
Qed.

Lemma IsOn_updated c g f k : IsOn c g = true -> IsOn (updated c g f) k = IsOn c k.
Proof.
  intros H. unfold IsOn. cbn. apply bool_decide_ext. rewrite lookup_insert_is_Some.
  unfold IsOn in H; zbool. destruct (decide (g = k)) as [<-|]; [|tauto]. split; [done|tauto].
Qed.

(** The first member of a non-empty channel is a member. *)
Lemma elem_of_members c k : k ∈ members c <-> IsOn c k = true.
Proof.
  unfold members, keys_in_order, IsOn. rewrite (merge_sort_Permutation Z.le), elem_of_elements, elem_of_dom.
  now rewrite bool_decide_eq_true.
Qed.

Lemma first_member c : nonempty c = true -> exists k ks, members c = k :: ks.
Proof.
  unfold nonempty. intros H. zbool. destruct (members c) as [|k ks] eqn:E; [|eauto].
  exfalso. apply H. apply map_empty. intros k. apply eq_None_not_Some. intros Hs.
  assert (Hk : k ∈ members c) by (apply elem_of_members; now apply bool_decide_eq_true).
  rewrite E in Hk. now apply elem_of_nil in Hk.
Qed.

Lemma first_player_on c : Inv c -> nonempty c = true ->
  IsOn c (first_player c) = true /\ forall k, IsOn c k = true -> first_player c <= k.
Proof.
  intros Hi Hne. destruct (first_member c Hne) as (k & ks & E). unfold first_player. rewrite E.
  assert (Hk : IsOn c k = true) by (apply elem_of_members; rewrite E; apply list_elem_of_here).
  pose proof (on_info c k Hk) as Hl. destruct (inv_player c Hi k _ Hl) as [-> _]. split; [done|].
  intros j Hj. apply elem_of_members in Hj. rewrite E in Hj.
  pose proof (Sorted_merge_sort Z.le (elements (dom (playersStore c)))) as Hs.
  unfold members, keys_in_order in E. rewrite E in Hs. apply elem_of_cons in Hj as [->|Hj]; [lia|].
  apply Sorted_StronglySorted in Hs; [|intros ?; lia]. inversion_clear Hs as [|? ? _ Hall].
  rewrite Forall_forall in Hall. now apply Hall.
Qed.

Lemma Inv_fields c c' :
  Inv c -> playersStore c' = playersStore c -> _ownerGUID c' = _ownerGUID c -> Inv c'.
Proof. intros [H1 H2 H3] Ep Eo. split; rewrite ?Ep, ?Eo; auto. Qed.

Lemma Inv_moved_owner c g h :
  Inv c -> IsOn c g = true -> h = g -> Inv (owner_result (updated c g (SetModeratorFlag true)) h).
Proof.
  intros Hi Hon ->. assert (Hu := Inv_moderator c g true Hi Hon).
  apply (owner_result_spec (updated c g (SetModeratorFlag true)) g Hu). now rewrite IsOn_updated.
Qed.

Lemma Inv_join w p pass c : Inv c -> GetGUID p <> 0 -> Inv (join_result w p pass c).
Proof.
  intros Hi Hg. unfold join_result. set (g := GetGUID p) in *. case_if; [done|].
  set (c1 := with_players c _).
  assert (Hi1 : Inv c1).
  { split; cbn; [| |rewrite lookup_insert_ne by done; apply Hi];
      intros k i; rewrite lookup_insert_Some; intros [[<- <-]|[_ H]].
    - split; [done|unfold is_u, MEMBER_FLAG_NONE; cbn; lia].
    - now apply (inv_player c Hi).
    - intros H. now vm_compute in H.
    - now apply (inv_owner c Hi). }
  assert (Hon1 : IsOn c1 g = true).
  { apply bool_decide_eq_true. cbn. rewrite lookup_insert_eq. eauto. }
  case_if; [|done]. destruct (owner_result_spec c1 g Hi1 Hon1) as (Hi2 & _ & _ & _ & _ & Hson & _).
  apply Inv_moderator; [done|]. now rewrite Hson.
Qed.

Lemma Inv_leave p c : Inv c -> Inv (leave_result p c).
Proof.
  intros Hi. unfold leave_result. case_if; [done|]. pose proof (Inv_without c (GetGUID p) Hi) as Hi1.
  case_if; [|done]. repeat (apply andb_prop in E0 as [? E0] || apply andb_prop in E0 as [E0 ?]).
  apply Inv_moved_owner; [done| |done]. now apply first_player_on.
Qed.

Lemma allowed_on p c : allowed p c = true -> IsOn c (GetGUID p) = true.
Proof. unfold allowed; intros H; now apply andb_prop in H. Qed.

Lemma Inv_kick w p name ban c :
  Inv c -> (_ownerGUID c =? victim_of (FindPlayerByName w name)) &&
           (victim_of (FindPlayerByName w name) =? GetGUID p) = false ->
  Inv (kick_result w p name ban c).
Proof.
  intros Hi Hns. unfold kick_result. set (v := victim_of _) in *. set (g := GetGUID p) in *.
  case_if; [done|]. rewrite !orb_false_iff in E. destruct E as [[[E1 _] _] _]. zbool.
  set (c1 := if ban then _ else c).
  assert (Hi2 : Inv (without c1 v)).
  { apply Inv_without, (Inv_fields c); [done| |]; unfold c1; now destruct ban. }
  case_if; [|done]. apply andb_prop in E as [E Hne]. apply andb_prop in E as [Eo _].
  destruct Hns as [Hns|Hns]; [congruence|]. apply Z.eqb_neq in Hns. zbool.
  apply Inv_moved_owner; [done| |done].
  apply allowed_on in E1. fold g in E1. unfold IsOn in *. zbool. apply bool_decide_eq_true. cbn.
  replace (playersStore c1) with (playersStore c) by (unfold c1; now destruct ban).
  rewrite lookup_delete_ne by congruence. done.
Qed.

Lemma Inv_command w cmd c :
  Inv c -> actor_ok cmd -> owner_kicks_himself w cmd c = false -> Inv (command_result w cmd c).
Proof.
  intros Hi Ha Hk. destruct cmd; cbn [command_result actor_ok owner_kicks_himself] in *;
    auto using Inv_join, Inv_leave, Inv_kick; try (case_if; [|done]); try (now apply (Inv_fields c)).
  - unfold unban_result. case_if; [done|]. now apply (Inv_fields c).
  - unfold mode_result. set (v := victim_of _). case_if; [done|].
    rewrite !orb_false_iff in E. destruct E as [[_ En] _]. apply not_reachable_on in En.
    repeat case_if; auto using Inv_moderator, Inv_muted.
  - unfold set_owner_result. case_if; [done|]. rewrite !orb_false_iff in E. destruct E as [_ En].
    apply not_reachable_on in En. now apply Inv_moved_owner.
Qed.

(** ** Claims *)

(** No owner kicks himself during the commands, and players have guids. *)
Fixpoint orderly (w : World) (cmds : list Command) (c : Channel) : Prop :=
  match cmds with
  | [] => True
  | cmd :: cmds => actor_ok cmd /\ owner_kicks_himself w cmd c = false /\ orderly w cmds (after w cmd c)
  end.

Lemma new_channel_Inv w result name id team : Inv (fst (new_channel w result name id team)).
Proof.
  unfold new_channel. destruct (ChatChannelsFlags w id), (CONFIG_PRESERVE_CUSTOM_CHANNELS w),
    result as [[[[? ?] ?] ?]|]; split; intros *;
    cbn [fst playersStore]; rewrite ?lookup_empty; easy.
Qed.

(** C38. From its construction on, through every sequence of joins, leaves,
    kicks, bans, mode and owner changes and messages in which no owner kicks
    himself, a channel keeps its members consistent: each entry is filed under
    its own guid, flags are bytes, and at most the recorded owner has the owner
    flag. *)
Theorem channel_invariant w result name id team cmds :
  let c := fst (new_channel w result name id team) in
  orderly w cmds c ->
  Inv (chan (run_commands w cmds (mkSt c (snd (new_channel w result name id team))))).
Proof.
  intros c. assert (H : forall s, Inv (chan s) -> orderly w cmds (chan s) -> Inv (chan (run_commands w cmds s))).
  { clear c. induction cmds as [|cmd cmds IH]; intros s Hi; cbn; [done|]. intros (Ha & Hk & Ho).
    rewrite after_result in Ho. apply IH; rewrite run_command_after; [now apply Inv_command|done]. }
  intros Ho. apply H; [apply new_channel_Inv|done].
Qed.

(** The player and world of the examples. *)
Definition player_n (n : Z) : Player :=
  {| GetGUID := n; PlayerName := [65 + n]; GetTeam := 0; HasPermission := fun _ => false;
     GetSecurity := 0; GetGroup := false; HasIgnore := fun _ => false; isGMVisible := true;
     IsVisibleGloballyFor := fun _ => true; GetChatTag := 0; CanGMChat := false |}.
Definition small_world : World :=
  {| CONFIG_PRESERVE_CUSTOM_CHANNELS := true; CONFIG_PRESERVE_CUSTOM_CHANNEL_DURATION := 14;
     CONFIG_RESTRICTED_LFG_CHANNEL := false; CONFIG_ALLOW_TWO_SIDE_INTERACTION_CHANNEL := false;
     CONFIG_GM_LEVEL_IN_WHO_LIST := 0;
     FindPlayerByName := fun n => match n with [c] => Some (player_n (c - 65)) | _ => None end;
     FindConnectedPlayer := fun g => if (0 <? g) && (g <? 10) then Some (player_n g) else None;
     GetPlayerNameByGUID := fun g => Some [65 + g];
     ChatChannelsFlags := fun id => if id =? 0 then None else Some 0 |}.
Definition team_channel : Channel := fst (new_channel small_world None [116; 101; 97; 109] 0 469).

Definition session_example : list Command :=
  [CJoin (player_n 1) []; CJoin (player_n 2) []; CPassword (player_n 1) [120]; CJoin (player_n 3) [120];
   CSetMode (player_n 1) [68] true true; CKickOrBan (player_n 3) [67] true; CLeave (player_n 1) true;
   CSay 3 [104; 105] 7].
Lemma channel_invariant_witness :
  Inv (chan (run_commands small_world session_example (mkSt team_channel [Execute (CHAR_INS_CHANNEL [116; 101; 97; 109] 469)]))).
Proof.
  apply (channel_invariant small_world None [116; 101; 97; 109] 0 469 session_example).
  vm_compute. repeat split; discriminate.
Defined.

(** An owner who kicks or bans himself while others stay is put back: the
    channel lists a ghost under his guid that belongs to player zero, owns the
    channel and is a moderator, although he has left the channel and, after a
    ban, is banned from it. *)
Theorem owner_self_kick_ghost w p name ban c :
  Inv c -> allowed p c = true -> _ownership c = true ->
  _ownerGUID c = GetGUID p -> victim_of (FindPlayerByName w name) = GetGUID p ->
  nonempty (without c (GetGUID p)) = true ->
  let c' := after w (CKickOrBan p name ban) c in
  player (info_at c' (GetGUID p)) = 0 /\ IsOn c' (GetGUID p) = true /\ _ownerGUID c' = GetGUID p /\
  IsOwner (info_at c' (GetGUID p)) = true /\ IsModerator (info_at c' (GetGUID p)) = true /\
  (ban = true -> IsBanned c' (GetGUID p) = true) /\
  (forall k, k <> GetGUID p -> playersStore c' !! k = playersStore c !! k).
Proof.
  intros Hi Ha Ho Eo Ev Hne. cbn zeta. rewrite after_result. cbn [command_result].
  pose proof (allowed_on p c Ha) as Hon. pose proof (on_nonzero c _ Hi Hon) as Hg.
  unfold kick_result. rewrite Ha, Ev, Hon, Eo, Z.eqb_refl, (proj2 (Z.eqb_neq _ 0) Hg). cbn [negb orb andb].
  rewrite andb_false_r. rewrite Ho.
  set (g := GetGUID p) in *. set (c1 := if ban then _ else c).
  assert (Hp1 : playersStore c1 = playersStore c) by (unfold c1; now destruct ban).
  assert (Eo1 : _ownerGUID c1 = g) by (rewrite <- Eo; unfold c1; now destruct ban).
  assert (Hne1 : nonempty (without c1 g) = true) by (unfold nonempty, without in *; cbn in *; now rewrite Hp1).
  rewrite Hne1. cbn [andb].
  set (c2 := updated (without c1 g) g (SetModeratorFlag true)).
  assert (Hc2 : info_at c2 g = SetModeratorFlag true empty_info).
  { unfold c2, updated. rewrite info_at_insert. unfold info_at. cbn. now rewrite lookup_delete_eq. }
  assert (Hcl : owner_cleared c2 = with_players c2 (<[g := SetOwnerFlag false (info_at c2 g)]> (playersStore c2))).
  { unfold owner_cleared. change (_ownerGUID c2) with (_ownerGUID c1). rewrite Eo1, (proj2 (Z.eqb_neq g 0) Hg).
    assert (Hon2 : IsOn c2 g = true) by (apply bool_decide_eq_true; cbn; rewrite lookup_insert_eq; eauto).
    now rewrite Hon2. }
  assert (Hinfo : info_at (owner_result c2 g) g
            = SetOwnerFlag true (SetModeratorFlag true (SetOwnerFlag false (SetModeratorFlag true empty_info)))).
  { unfold owner_result. rewrite (proj2 (Z.eqb_neq g 0) Hg), info_at_insert, Hcl, Hc2.
    unfold info_at. cbn [with_owner with_players playersStore]. now rewrite lookup_insert_eq. }
  rewrite Hinfo. unfold owner_result. rewrite (proj2 (Z.eqb_neq g 0) Hg), Hcl.
  split_and!; try reflexivity.
  - apply bool_decide_eq_true. cbn. rewrite lookup_insert_eq. eauto.
  - intros ->. apply bool_decide_eq_true. cbn. set_solver.
  - intros k Hk. cbn. rewrite !lookup_insert_ne, lookup_delete_ne by congruence. now rewrite Hp1.
Qed.

Definition crowded_channel : Channel :=
  chan (run_commands small_world [CJoin (player_n 1) []; CJoin (player_n 2) []] (mkSt team_channel [])).
Lemma crowded_Inv : Inv crowded_channel.
Proof.
  assert (H : Inv (command_result small_world (CJoin (player_n 2) [])
                     (command_result small_world (CJoin (player_n 1) []) team_channel))).
  { apply Inv_command; [apply Inv_command; [apply new_channel_Inv| |]| |]; easy. }
  unfold crowded_channel, run_commands. cbn [foldl]. rewrite !run_command_after. exact H.
Qed.
Lemma owner_self_kick_ghost_witness :
  let c' := after small_world (CKickOrBan (player_n 1) [66] true) crowded_channel in
  player (info_at c' 1) = 0 /\ IsBanned c' 1 = true /\ IsOwner (info_at c' 1) = true.
Proof.
  destruct (owner_self_kick_ghost small_world (player_n 1) [66] true crowded_channel crowded_Inv)
    as (H1 & _ & _ & H4 & _ & H6 & _); try (vm_compute; reflexivity).
  split; [exact H1|]. split; [apply H6; reflexivity|exact H4].
Defined.

(** Who gives a command that changes the settings or another member. *)
Definition commander (cmd : Command) : option Player :=
  match cmd with
  | CKickOrBan p _ _ | CUnBan p _ | CPassword p _ | CSetMode p _ _ _ | CSetOwner p _ | CAnnounce p => Some p
  | _ => None
  end.

(** C39. A command changes the channel only for somebody entitled to it: its
    giver is on the channel and a moderator of it, or has the permission to
    change channels without being one, or is handing over his ownership; and
    against the owner nobody without that permission but himself achieves
    anything: he stays on the channel, its owner, with his flags. *)
Theorem channel_authority w cmd p c :
  Inv c -> commander cmd = Some p -> after w cmd c <> c ->
  (IsOn c (GetGUID p) = true /\
   (IsModerator (info_at c (GetGUID p)) = true \/
    HasPermission p RBAC_PERM_CHANGE_CHANNEL_NOT_MODERATOR = true \/
    ((exists name, cmd = CSetOwner p name) /\ _ownerGUID c = GetGUID p))) /\
  (HasPermission p RBAC_PERM_CHANGE_CHANNEL_NOT_MODERATOR = false -> GetGUID p <> _ownerGUID c ->
   _ownerGUID (after w cmd c) = _ownerGUID c /\
   playersStore (after w cmd c) !! _ownerGUID c = playersStore c !! _ownerGUID c).
Proof.
  intros Hi Hc. rewrite after_result. unfold allowed.
  assert (Hal : allowed p c = true -> IsOn c (GetGUID p) = true /\
     (IsModerator (info_at c (GetGUID p)) = true \/
      HasPermission p RBAC_PERM_CHANGE_CHANNEL_NOT_MODERATOR = true \/
      ((exists name, cmd = CSetOwner p name) /\ _ownerGUID c = GetGUID p))).
  { unfold allowed. intros H. apply andb_prop in H as [? H]. apply orb_prop in H. tauto. }
  destruct cmd; cbn [commander command_result] in *; try discriminate; injection Hc as ->.
  - unfold kick_result. set (v := victim_of _). set (g := GetGUID p) in *. case_if; [done|]. intros _.
    rewrite !orb_false_iff in E. destruct E as [[[Ea _] _] En]. apply negb_false_iff in Ea. split; [now apply Hal|].
    intros Hp Hg. rewrite Hp in En. cbn [negb andb] in En.
    rewrite (proj2 (Z.eqb_neq g _) Hg), andb_true_r in En. rewrite En. cbn [andb]. apply Z.eqb_neq in En.
    cbn. replace (playersStore (if ban then _ else c)) with (playersStore c) by now destruct ban.
    rewrite lookup_delete_ne by congruence. now destruct ban.
  - unfold unban_result. case_if; [done|]. intros _. rewrite !orb_false_iff in E. destruct E as [[Ea _] _].
    apply negb_false_iff in Ea. split; [now apply Hal|done].
  - case_if; [|done]. intros _. split; [now apply Hal|done].
  - unfold mode_result. set (v := victim_of _). set (g := GetGUID p) in *. case_if; [done|].
    rewrite !orb_false_iff in E. destruct E as [[[Ea _] _] En]. apply negb_false_iff in Ea. intros _. split; [now apply Hal|].
    intros Hp Hg. assert (Hv : v <> _ownerGUID c).
    { intros Hv. rewrite Hv, Z.eqb_refl in En. cbn in En. apply negb_false_iff, Z.eqb_eq in En. congruence. }
    repeat case_if; cbn; try done; now rewrite lookup_insert_ne.
  - unfold set_owner_result. set (v := victim_of _). set (g := GetGUID p) in *. case_if; [done|].
    rewrite !orb_false_iff in E. destruct E as [[Eon En] _]. apply negb_false_iff in Eon. intros _. split.
    + split; [done|]. destruct (HasPermission p _); [auto|]. cbn in En.
      apply negb_false_iff, Z.eqb_eq in En. right; right. split; [eauto|congruence].
    + intros Hp Hg. rewrite Hp in En. cbn in En. apply negb_false_iff, Z.eqb_eq in En. congruence.
  - case_if; [|done]. intros _. split; [now apply Hal|done].
Qed.

Lemma channel_authority_witness :
  IsModerator (info_at crowded_channel 1) = true.
Proof.
  destruct (channel_authority small_world (CPassword (player_n 1) [120]) (player_n 1) crowded_channel crowded_Inv)
    as [[_ [H|[H|[[n H] _]]]] _].
  - reflexivity.
  - intros H. apply (f_equal _password) in H. vm_compute in H. discriminate H.
  - exact H.
  - discriminate H.
  - discriminate H.
Defined.

(** Joining: a player who is not on the channel gets on exactly when he is
    not banned, the password is empty or given, and the restriction of the
    group-finder channel does not hit him; he enters without rights unless the
    channel is a custom one with ownership and no owner, when he becomes owner
    and moderator; nobody else is touched. *)
Theorem join_channel_correct w p pass c :
  Inv c -> GetGUID p <> 0 -> IsOn c (GetGUID p) = false ->
  let g := GetGUID p in
  let c' := after w (CJoin p pass) c in
  IsOn c' g = may_join w p pass c /\
  (may_join w p pass c = false -> c' = c) /\
  (may_join w p pass c = true ->
     let owned := negb (IsConstant c) && ((_ownerGUID c =? 0) && _ownership c) in
     IsOwner (info_at c' g) = owned /\ IsModerator (info_at c' g) = owned /\ IsMuted (info_at c' g) = false /\
     _ownerGUID c' = (if owned then g else _ownerGUID c)) /\
  (forall k, k <> g -> playersStore c' !! k = playersStore c !! k) /\
  bannedStore c' = bannedStore c.
Proof.
  intros Hi Hg Hon. cbn zeta. rewrite after_result. cbn [command_result]. unfold join_result.
  set (g := GetGUID p) in *. rewrite Hon. cbn [orb]. destruct (may_join w p pass c); cbn [negb].
  2: { rewrite Hon. repeat split; auto; discriminate. }
  set (c1 := with_players c _).
  assert (Hinfo1 : info_at c1 g = mkPlayerInfo g MEMBER_FLAG_NONE) by apply info_at_insert.
  assert (Hon1 : IsOn c1 g = true) by (apply bool_decide_eq_true; cbn; rewrite lookup_insert_eq; eauto).
  assert (Hi1 : Inv c1).
  { split; cbn; [| |rewrite lookup_insert_ne by done; apply Hi];
      intros k i; rewrite lookup_insert_Some; intros [[<- <-]|[_ H]].
    - split; [done|unfold is_u, MEMBER_FLAG_NONE; cbn; lia].
    - now apply (inv_player c Hi).
    - intros H. now vm_compute in H.
    - now apply (inv_owner c Hi). }
  destruct (negb (IsConstant c) && ((_ownerGUID c =? 0) && _ownership c)) eqn:E.
  - destruct (owner_result_spec c1 g Hi1 Hon1) as (Hi2 & Eo & Ow & Mo & Mu & Hson & Hoth).
    assert (Hon2 : IsOn (owner_result c1 g) g = true) by (now rewrite Hson).
    pose proof (on_info _ _ Hon2) as Hl. destruct (inv_player _ Hi2 g _ Hl) as [_ Hfl].
    destruct (flag_facts _ true Hfl) as (_ & _ & _ & F1 & _ & _ & F2 & _ & _ & F3 & _).
    split; [now rewrite IsOn_updated|]. split; [discriminate|]. split; [|split].
    + intros _. unfold updated. rewrite info_at_insert. rewrite F1, F2, F3, Mu, Hinfo1, Ow.
      repeat split; try reflexivity. exact Eo.
    + intros k Hk. cbn. rewrite lookup_insert_ne by congruence.
      apply andb_prop in E as [_ E]. apply andb_prop in E as [E _]. zbool.
      destruct (decide (k = _ownerGUID c)) as [->|Hko].
      * rewrite E, (inv_zero _ Hi2). symmetry. apply (inv_zero _ Hi).
      * rewrite Hoth by done. cbn. now rewrite lookup_insert_ne by congruence.
    + cbn. unfold owner_result, owner_cleared. repeat case_if; reflexivity.
  - split; [done|]. split; [discriminate|]. rewrite Hinfo1. repeat split; try reflexivity.
    intros k Hk. cbn. now rewrite lookup_insert_ne by congruence.
Qed.

Lemma join_channel_correct_witness :
  IsOn (after small_world (CJoin (player_n 3) []) crowded_channel) 3 = true.
Proof.
  destruct (join_channel_correct small_world (player_n 3) [] crowded_channel crowded_Inv) as [H _];
    [discriminate|reflexivity|]. cbn zeta in H. exact H.
Defined.

(** Leaving: the member is off the channel and the others keep their
    places; when the owner of a custom channel with ownership leaves and others
    remain, the one with the smallest guid becomes owner and moderator, and
    otherwise no member's flags change. *)
Theorem leave_channel_correct w p send c :
  Inv c -> IsOn c (GetGUID p) = true ->
  let g := GetGUID p in
  let c' := after w (CLeave p send) c in
  IsOn c' g = false /\ (forall k, k <> g -> IsOn c' k = IsOn c k) /\
  if negb (IsConstant c) && (IsOwner (info_at c g) && _ownership c && nonempty (without c g))
  then exists h, IsOn c h = true /\ h <> g /\ (forall k, IsOn c k = true -> k <> g -> h <= k) /\
         _ownerGUID c' = h /\ IsOwner (info_at c' h) = true /\ IsModerator (info_at c' h) = true /\
         (forall k, k <> g -> k <> h -> playersStore c' !! k = playersStore c !! k)
  else forall k, k <> g -> playersStore c' !! k = playersStore c !! k.
Proof.
  intros Hi Hon. cbn zeta. rewrite after_result. cbn [command_result]. unfold leave_result.
  set (g := GetGUID p) in *. rewrite Hon. cbn [negb].
  assert (Hoff : IsOn (without c g) g = false).
  { unfold IsOn. apply bool_decide_eq_false. cbn. rewrite lookup_delete_eq. now intros [? ?]. }
  assert (Hoth : forall k, k <> g -> playersStore (without c g) !! k = playersStore c !! k).
  { intros k Hk. cbn. now rewrite lookup_delete_ne by congruence. }
  assert (Hson : forall k, k <> g -> IsOn (without c g) k = IsOn c k).
  { intros k Hk. unfold IsOn. now rewrite Hoth. }
  change (IsConstant (without c g)) with (IsConstant c). change (_ownership (without c g)) with (_ownership c).
  case_if; [|auto]. apply andb_prop in E as [_ E]. apply andb_prop in E as [E Hne]. apply andb_prop in E as [Ho _].
  pose proof (Inv_without c g Hi) as Hi1. destruct (first_player_on _ Hi1 Hne) as [Hf Hmin].
  set (h := first_player (without c g)) in *.
  assert (Hhg : h <> g) by (intros E; rewrite E, Hoff in Hf; discriminate).
  assert (Hi2 := Inv_moderator _ h true Hi1 Hf).
  assert (Hf2 : IsOn (updated (without c g) h (SetModeratorFlag true)) h = true) by (now rewrite IsOn_updated).
  destruct (owner_result_spec _ h Hi2 Hf2) as (_ & Eo & Ow & Mo & _ & Hs & Ho2).
  assert (Eg : _ownerGUID c = g) by (symmetry; apply (inv_owner c Hi g _ (on_info c g Hon) Ho)).
  split; [now rewrite Hs, IsOn_updated|]. split; [intros k Hk; rewrite Hs, IsOn_updated by done; auto|].
  exists h. split; [rewrite <- Hson; done|]. split; [done|].
  split; [intros k Hk1 Hk2; apply Hmin; now rewrite Hson|]. split_and!; try done.
  intros k Hk1 Hk2. rewrite Ho2; [|done|cbn; congruence].
  cbn. rewrite lookup_insert_ne by congruence. now apply Hoth.
Qed.

Lemma leave_channel_correct_witness :
  _ownerGUID (after small_world (CLeave (player_n 1) true) crowded_channel) = 2.
Proof.
  destruct (leave_channel_correct small_world (player_n 1) true crowded_channel crowded_Inv) as (_ & _ & H);
    [reflexivity|]. cbn zeta in H.
  assert (E : negb (IsConstant crowded_channel) &&
     (IsOwner (info_at crowded_channel (GetGUID (player_n 1))) && _ownership crowded_channel &&
      nonempty (without crowded_channel (GetGUID (player_n 1)))) = true) by (vm_compute; reflexivity).
  rewrite E in H. destruct H as (h & H1 & H2 & H3 & H4 & _). rewrite H4.
  assert (Hle : h <= 2) by (apply H3; [vm_compute; reflexivity|discriminate]).
  assert (Hz : h <> 0) by (intros ->; vm_compute in H1; discriminate H1).
  assert (Hn : h < 0 -> False) by (intros Hn; destruct h; [lia|lia|]; vm_compute in H1; discriminate H1).
  change (GetGUID (player_n 1)) with 1 in H2. lia.
Defined.

(** *** The member list *)

Definition list_entries (w : World) (c : Channel) (p : Player) : list Z :=
  filter (fun k => visible_to w p k = true) (members c).
Definition entry_bytes (c : Channel) (k : Z) : list Z := le_bytes 8 k ++ le_bytes 1 (flags (info_at c k)).

Lemma list_loop_writes w c p ks count :
  0 <= count -> count + zlen ks < 2 ^ 32 ->
  writes (list_loop w c p ks count)
    (flat_map (entry_bytes c) (filter (fun k => visible_to w p k = true) ks))
    (fun _ => count + zlen (filter (fun k => visible_to w p k = true) ks)).
Proof.
  revert count; induction ks as [|k ks IH]; intros count H0 Hc; cbn [list_loop].
  - rewrite filter_nil. cbn. pose proof (writes_ret count) as H. unfold zlen; cbn. now rewrite Z.add_0_r.
  - rewrite filter_cons. unfold zlen in *. cbn [length] in Hc.
    destruct (visible_to w p k) eqn:E.
    + rewrite decide_True by done. cbn [flat_map length]. unfold entry_bytes at 1. rewrite <- app_assoc.
      apply writes_then; [apply writes_u64|]. apply writes_then; [apply writes_u8|].
      rewrite (uwrap_id 32) by (unfold is_u; lia).
      replace (count + Z.of_nat (S _)) with (count + 1 + Z.of_nat (length (filter (fun k => visible_to w p k = true) ks))) by lia.
      apply IH; lia.
    + rewrite decide_False by congruence. apply IH; lia.
Qed.

Lemma zlen_flat_map {A} (f : A -> list Z) l n : (forall a, zlen (f a) = n) -> zlen (flat_map f l) = n * zlen l.
Proof.
  intros H. induction l as [|a l IH]; cbn; [unfold zlen; cbn; lia|].
  unfold zlen in *. rewrite length_app. cbn [length]. rewrite Nat2Z.inj_add, H, IH. lia.
Qed.

(** The member list a player asks for: after the fixed head, the name and
    the flags of the channel stands the number of entries, patched in afterwards,
    and then exactly one entry per connected member the player may see, in the
    order of their guids, with the member's flags. *)
Theorem member_list_packet w c p :
  Forall (is_u 8) (_name c) -> zlen (_name c) + 9 * zlen (members c) <= 9999000 ->
  payload (stream (new_packet SMSG_CHANNEL_LIST) (list_body w c p)) =
    [1] ++ (_name c ++ [0]) ++ le_bytes 1 (_flags c) ++
    le_bytes 4 (zlen (list_entries w c p)) ++ flat_map (entry_bytes c) (list_entries w c p).
Proof.
  intros Hn Hs. unfold payload, stream, new_packet, list_body. cbn [m_buffer].
  set (head := [1] ++ (_name c ++ [0]) ++ le_bytes 1 (_flags c)).
  set (es := list_entries w c p).
  assert (Hlen : zlen es <= zlen (members c)).
  { unfold es, list_entries, zlen. pose proof (length_filter (fun k => visible_to w p k = true) (members c)). lia. }
  assert (Hent : zlen (flat_map (entry_bytes c) es) = 9 * zlen es).
  { apply zlen_flat_map. intros k. unfold entry_bytes, zlen. rewrite length_app, !length_le_bytes. lia. }
  pose proof (length_zlength (_name c)). pose proof (length_zlength (members c)). pose proof (length_zlength es).
  assert (Hloop := list_loop_writes w c p (members c) 0 ltac:(lia) ltac:(unfold zlen in *; lia)).
  fold (list_entries w c p) in Hloop. fold es in Hloop. cbn [Z.add] in Hloop.
  (* everything before the count *)
  assert (Hhead : writes (do! write_uint8 1 in do! write_string (GetName c) in write_uint8 (GetFlags c)) head (fun _ => tt)).
  { unfold head. apply writes_then; [apply (writes_u8 1)|]. apply writes_then; [now apply writes_string|apply writes_u8]. }
  assert (Hbody : forall q : Z, writes (do! write_uint32 0 in list_loop w c p (members c) 0)
            (le_bytes 4 0 ++ flat_map (entry_bytes c) es) (fun _ => zlen es)).
  { intros q. apply writes_then; [apply writes_u32|exact Hloop]. }
  assert (Hhl : zlen head = zlen (_name c) + 3).
  { unfold head, zlen. rewrite !length_app, length_le_bytes. cbn [length]. lia. }
  destruct Hhead as [HF1 HH]. destruct (Hbody 0) as [HF2 HB].
  specialize (HH new_buffer wf_new ltac:(change (size new_buffer) with 0; unfold zlen in *; lia)).
  assert (Hwf1 : wf (pushed new_buffer head)).
  { apply wf_pushed; [apply wf_new|done|]. change (size new_buffer) with 0. unfold zlen in *; lia. }
  assert (Hs1 : size (pushed new_buffer head) = zlen head) by (now rewrite size_pushed).
  specialize (HB (pushed new_buffer head) Hwf1).
  assert (Hfits : size (pushed new_buffer head) + zlen (le_bytes 4 0 ++ flat_map (entry_bytes c) es) <= 10000000).
  { rewrite Hs1. unfold zlen in *. rewrite length_app, length_le_bytes. lia. }
  specialize (HB Hfits). rewrite pushed_pushed in HB.
  assert (Hput := put_int_middle 4 (zlen es) (pushed new_buffer (head ++ le_bytes 4 0 ++ flat_map (entry_bytes c) es))
                    head (le_bytes 4 0) (flat_map (entry_bytes c) es) eq_refl (length_le_bytes 4 0)).
  assert (Hsz : size (pushed new_buffer (head ++ le_bytes 4 0 ++ flat_map (entry_bytes c) es)) < 2 ^ 63).
  { rewrite size_pushed, length_app. change (size new_buffer) with 0. rewrite Hs1 in Hfits. unfold zlen in *. lia. }
  specialize (Hput Hsz).
  assert (Hall : (do! write_uint8 1 in do! write_string (GetName c) in do! write_uint8 (GetFlags c) in
     let! pos := wpos in do! write_uint32 0 in let! count := list_loop w c p (members c) 0 in put_int 4 pos count)
     new_buffer = (Ret tt, mkByteBuffer 0 (zlen head + zlen (le_bytes 4 0 ++ flat_map (entry_bytes c) es))
                     (head ++ le_bytes 4 (zlen es) ++ flat_map (entry_bytes c) es))).
  { unfold bind in *. revert HH.
    destruct (write_uint8 1 new_buffer) as [[[]|e|] b1]; try discriminate.
    destruct (write_string (GetName c) b1) as [[[]|e|] b2]; try discriminate. intros ->.
    unfold wpos, bind, get, ret. rewrite (wf_wpos _ Hwf1), Hs1.
    revert HB. destruct (write_uint32 0 (pushed new_buffer head)) as [[[]|e|] b3]; try discriminate. intros ->.
    rewrite Hput. unfold pushed. cbn [_rpos _wpos new_buffer]. do 2 f_equal.
    unfold zlen. rewrite (length_app head). lia. }
  rewrite Hall. unfold unread. cbn [m_buffer _rpos _storage snd]. rewrite drop_0. unfold head.
  now rewrite <- !app_assoc.
Qed.

Lemma member_list_packet_witness :
  payload (stream (new_packet SMSG_CHANNEL_LIST) (list_body small_world crowded_channel (player_n 2)))
  = [1; 116; 101; 97; 109; 0; 1; 2; 0; 0; 0; 1; 0; 0; 0; 0; 0; 0; 0; 3; 2; 0; 0; 0; 0; 0; 0; 0; 0].
Proof.
  rewrite (member_list_packet small_world crowded_channel (player_n 2)).
  - vm_compute. reflexivity.
  - apply (bool_decide_unpack _); vm_compute; exact I.
  - vm_compute. discriminate.
Defined.


Lemma load_banned_text s :
  (forall g, g ∈ s -> 0 < g < 2 ^ 63) -> load_banned (banlist_text s) = s.
Proof.
  intros Hs. unfold load_banned, banlist_text.
  assert (Hk : forall g, g ∈ keys_in_order s <-> g ∈ s).
  { intros g. unfold keys_in_order. now rewrite (merge_sort_Permutation Z.le), elem_of_elements. }
  assert (E : flat_map (fun g => dec g ++ [32]) (keys_in_order s)
              = flat_map (fun t => t ++ [32]) (map dec (keys_in_order s))).
  { now rewrite !flat_map_concat_map, map_map. }
  rewrite E, Tokenizer_terminated.
  - assert (Hfold : forall ks (acc : gset Z), (forall g, g ∈ ks -> 0 < g < 2 ^ 63) ->
      foldl (fun s tok => let banned_guid := u64 (atol tok) in
                          if negb (banned_guid =? 0) then {[ banned_guid ]} ∪ s else s) acc (map dec ks)
      = list_to_set ks ∪ acc).
    { induction ks as [|g ks IH]; intros acc H; cbn [map foldl list_to_set]; [set_solver|].
      assert (Hg : 0 < g < 2 ^ 63) by (apply H, list_elem_of_here).
      rewrite <- (app_nil_r (dec g)), atol_dec by (cbn; lia || exact I). cbv zeta.
      rewrite uwrap_id by (unfold is_u; lia). rewrite (proj2 (Z.eqb_neq g 0)) by lia. cbn [negb].
      rewrite IH by (intros; apply H, list_elem_of_further; done). set_solver. }
    rewrite Hfold by (intros g Hg; apply Hs; now apply Hk). apply set_eq. intros g.
    rewrite elem_of_union, elem_of_list_to_set, Hk. set_solver.
  - apply Forall_map, Forall_forall. intros g Hg. apply Hk, Hs in Hg. cbn.
    split; apply not_in_dec; try reflexivity; unfold is_u; lia.
Qed.

Lemma banlist_plain s : (forall g, g ∈ s -> 0 < g < 2 ^ 63) -> Forall (fun c => 0 < c < 128) (banlist_text s).
Proof.
  intros Hs. unfold banlist_text, keys_in_order.
  assert (Hk : forall g, g ∈ merge_sort Z.le (elements s) -> g ∈ s) by (intros g; now rewrite (merge_sort_Permutation Z.le), elem_of_elements).
  induction (merge_sort Z.le (elements s)) as [|g l IH]; cbn [flat_map]; [constructor|]. apply Forall_app. split; [|apply IH; intros x Hx; apply Hk; now right].
  apply Forall_app. split; [|repeat constructor; lia]. apply Forall_forall. intros c Hc.
  pose proof (Hs g (Hk g (list_elem_of_here _ _))) as Hg. pose proof (dec_digits g ltac:(unfold is_u; lia)) as Hd.
  unfold is_digits, isdigit in Hd. rewrite Forall_forall in Hd. specialize (Hd c Hc). cbn in Hd. lia.
Qed.

(** The writes of a notice succeed: a name comes with a request, which is shorter than
    its packet, so that nothing is near the limit of a buffer. *)
Lemma notice_intact c n (m : BB unit) k : fits k m -> zlen (_name c) + k <= 9000000 -> intact (stream (MakeNotifyPacket c n) m).
Proof.
  intros Hm Hk. assert (Hf : fits (1 + (zlen (_name c) + 1)) (do! write_uint8 (notify_code n) in write_string (_name c))).
  { apply fits_seq; [unfold zlen; lia|auto with trinity..]. }
  assert (Hk0 : 0 <= k) by (destruct (Z.lt_ge_cases k 0) as [Hn|]; [|done];
    destruct (Hm new_buffer) as (? & ? & _ & _ & H); [done|change (size new_buffer) with 0; lia|change (size new_buffer) with 0 in H; lia]).
  destruct (fits_intact (Initialize (new_packet 0) SMSG_CHANNEL_NOTIFY) _ _ (intact_new _) eq_refl Hf) as (H1 & H2 & H3).
  { change (0 + (1 + (zlen (_name c) + 1)) <= 10000000). lia. }
  apply (fits_intact _ k m H1 H2 Hm). change (size (m_buffer (Initialize (new_packet 0) SMSG_CHANNEL_NOTIFY))) with 0 in H3. unfold MakeNotifyPacket. lia.
Qed.

(** C40. Every change of the settings of a stored channel reaches the database:
    when a custom channel whose name its column holds is created and any commands are
    given, executing the statements sent meanwhile and constructing the channel anew
    from its row gives the announce setting the channel had and the password as its
    column of 32 characters holds it, a longer one cut off; and the banned players,
    when the list of their guids is no longer than the [text] column takes.  It has no
    members and no owner. *)
Theorem channel_persistence `{column_laws : TextColumnLaws} w name team cmds now db :
  ChatChannelsFlags w 0 = None -> CONFIG_PRESERVE_CUSTOM_CHANNELS w = true ->
  db !! (name, team) = None -> held NAME_COLUMN name = name ->
  let s0 := let '(c, es) := new_channel w None name 0 team in mkSt c es in
  let s := run_commands w cmds s0 in
  exists row tm, exec_events now db (trace s) !! (name, team) = Some (row, tm) /\
    let c' := fst (new_channel w (Some row) name 0 team) in
    _announce c' = _announce (chan s) /\ _password c' = held PASSWORD_COLUMN (_password (chan s)) /\
    (Forall (fun c => 0 < c < 128) (_password (chan s)) -> zlen (_password (chan s)) <= PASSWORD_COLUMN -> _password c' = _password (chan s)) /\
    ((forall g, g ∈ bannedStore (chan s) -> 0 < g < 2 ^ 63) -> zlen (banlist_text (bannedStore (chan s))) <= TEXT_COLUMN ->
     bannedStore c' = bannedStore (chan s)) /\
    playersStore c' = ∅ /\ _ownerGUID c' = 0.
Proof.
  intros Hf Hp Hnone Hname. cbv zeta.
  assert (Hrun : forall cmds s, InSync (exec_events now db (trace s)) (chan s) ->
    let s' := run_commands w cmds s in
    InSync (exec_events now db (trace s')) (chan s') /\ _IsSaved (chan s') = _IsSaved (chan s) /\
    _name (chan s') = _name (chan s) /\ _Team (chan s') = _Team (chan s)).
  { clear. induction cmds as [|cmd cmds IH]; intros s Hs; [done|]. cbn [run_commands foldl].
    destruct s as [c t]. destruct (run_command_result w cmd c t) as (o & t' & E & P).
    fold (run_commands w cmds (snd (run_command w cmd (mkSt c t)))). rewrite E. cbn [snd].
    destruct (IH (mkSt (command_result w cmd c) (t ++ t'))) as (H1 & H2 & H3 & H4).
    - cbn [trace chan]. unfold exec_events. rewrite foldl_app. apply P. exact Hs.
    - cbv zeta in *. rewrite H2, H3, H4. split; [exact H1|]. cbn [chan].
      apply command_keeps_identity. }
  unfold new_channel. rewrite Hf, Hp.
  set (s0 := mkSt _ _). destruct (Hrun cmds s0) as (Hsync & Hsv & Hn & Ht).
  { intros _. cbn [s0 trace chan exec_events foldl exec_stmt _name _Team _password bannedStore]. rewrite Hname, Hnone, lookup_insert_eq.
    do 3 eexists. rewrite held_nil. split; [reflexivity|]. symmetry. apply held_nil. }
  cbv zeta in Hsync, Hsv, Hn, Ht. destruct (Hsync Hsv) as (o & b & tm & E & Eb).
  rewrite Hn, Ht in E. cbn [s0 chan _name _Team] in E. do 2 eexists. split; [exact E|]. cbn [fst].
  split_and!; try reflexivity; cbn [_password bannedStore]; [apply held_short|]. intros Hb Hlen.
  rewrite <- (load_banned_text (bannedStore (chan (run_commands w cmds s0)))) by exact Hb.
  rewrite (held_short TEXT_COLUMN _ (banlist_plain _ Hb) Hlen) in Eb. rewrite <- Eb. destruct b; reflexivity.
Qed.

#[local] Existing Instance cut_columns.
#[local] Existing Instance cut_laws.
(** A password that comes back, and one that does not. *)
Definition long_password : list Z := repeat 120 40.
Lemma channel_persistence_witness :
  (exists row tm,
    exec_events 1000 ∅ (trace (run_commands small_world session_example
      (mkSt team_channel [Execute (CHAR_INS_CHANNEL [116; 101; 97; 109] 469)]))) !! ([116; 101; 97; 109], 469)
      = Some (row, tm) /\
    bannedStore (fst (new_channel small_world (Some row) [116; 101; 97; 109] 0 469)) = {[ 2 ]} /\
    _password (fst (new_channel small_world (Some row) [116; 101; 97; 109] 0 469)) = [120]) /\
  exists row tm,
    exec_events 1000 ∅ (trace (run_commands small_world [CJoin (player_n 1) []; CPassword (player_n 1) long_password]
      (mkSt team_channel [Execute (CHAR_INS_CHANNEL [116; 101; 97; 109] 469)]))) !! ([116; 101; 97; 109], 469)
      = Some (row, tm) /\
    _password (fst (new_channel small_world (Some row) [116; 101; 97; 109] 0 469)) = repeat 120 32.
Proof.
  split.
  - destruct (channel_persistence small_world [116; 101; 97; 109] 469 session_example 1000 ∅)
      as (row & tm & E & _ & Hp & _ & Hb & _); try reflexivity.
    assert (Eb : bannedStore (chan (run_commands small_world session_example
        (let '(c, es) := new_channel small_world None [116; 101; 97; 109] 0 469 in mkSt c es))) = {[ 2 ]})
      by (vm_compute; reflexivity).
    exists row, tm. split; [exact E|]. split; [|rewrite Hp; vm_compute; reflexivity]. rewrite Hb; [vm_compute; reflexivity| |vm_compute; congruence].
    intros g Hg. rewrite Eb in Hg. apply elem_of_singleton in Hg. lia.
  - destruct (channel_persistence small_world [116; 101; 97; 109] 469 [CJoin (player_n 1) []; CPassword (player_n 1) long_password] 1000 ∅)
      as (row & tm & E & _ & Hp & _); try reflexivity.
    exists row, tm. split; [exact E|]. rewrite Hp. vm_compute. reflexivity.
Defined.
