(* ===== verification/ChannelMgr.v ===== *)
(** * The channels of a team (src/server/game/Chat/Channels/ChannelMgr.h and
    ChannelMgr.cpp)

    A manager keeps the channels of one side under their lower-case names.  The
    channel a name refers to is found by that key, and a session's command on a
    channel is a lookup followed by the channel's operation.  [Utf8toWStr] is the
    decoder of the utf8 library, a parameter. *)

From stdpp Require Import base gmap list strings.
From Stdlib Require Import ZArith Lia.
From S2P Require Import Prelude ByteBuffer Util ObjectGuid WorldPacket Channel.
#[local] Open Scope Z_scope.

Definition ALLIANCE : Z := 469.
Definition HORDE : Z := 67.

Record ChannelMgr := mkChannelMgr { channels : gmap (list Z) Channel; team : Z }.
Definition new_mgr : ChannelMgr := mkChannelMgr ∅ 0.
Definition setTeam (m : ChannelMgr) (newTeam : Z) : ChannelMgr := mkChannelMgr (channels m) newTeam.

Inductive side := AllianceChannelMgr | HordeChannelMgr.
(** [forTeam]: which of the two singletons; [None] is NULL. *)
Definition forTeam (w : World) (t : Z) : option side :=
  if CONFIG_ALLOW_TWO_SIDE_INTERACTION_CHANNEL w then Some AllianceChannelMgr
  else if t =? ALLIANCE then Some AllianceChannelMgr
  else if t =? HORDE then Some HordeChannelMgr
  else None.

Definition MakeNotOnPacket (name : list Z) : WorldPacket :=
  stream (Initialize (new_packet 0) SMSG_CHANNEL_NOTIFY) (do! write_uint8 5 in write_string name).

Section Manager.
Context (Utf8toWStr : list Z -> option (list Z)).
(** The row of the [channels] table the constructor of a channel reads. *)
Context (select : list Z -> Z -> option Row).
Context (w : World).

(** The key a name is filed under. *)
Definition key_of (name : list Z) : option (list Z) := option_map wstrToLower (Utf8toWStr name).

(** [GetJoinChannel]: the channel's key, the manager and the statements of the
    constructor when the channel is new. *)
Definition GetJoinChannel (m : ChannelMgr) (name : list Z) (channelId : Z)
    : option (list Z) * ChannelMgr * list event :=
  match key_of name with
  | None => (None, m, [])
  | Some wname =>
    match channels m !! wname with
    | Some _ => (Some wname, m, [])
    | None => let '(nchan, es) := new_channel w (select name (team m)) name channelId (team m) in
              (Some wname, mkChannelMgr (<[wname := nchan]> (channels m)) (team m), es)
    end
  end.

Definition GetChannel (m : ChannelMgr) (name : list Z) (player : Player) (pkt : bool)
    : option (list Z) * list event :=
  match key_of name with
  | None => (None, [])
  | Some wname =>
    match channels m !! wname with
    | Some _ => (Some wname, [])
    | None => (None, if pkt then [SendPacket (GetGUID player) (MakeNotOnPacket name)] else [])
    end
  end.

Definition LeftChannel (m : ChannelMgr) (name : list Z) : ChannelMgr :=
  match key_of name with
  | None => m
  | Some wname =>
    match channels m !! wname with
    | None => m
    | Some channel =>
      if (GetNumPlayers channel =? 0) && negb (IsConstant channel)
      then mkChannelMgr (delete wname (channels m)) (team m) else m
    end
  end.

(** A command on the channel filed under [key]. *)
Definition on_channel (m : ChannelMgr) (key : list Z) (cmd : Command) : ChannelMgr * list event :=
  match channels m !! key with
  | None => (m, [])
  | Some c => let s := snd (run_command w cmd (mkSt c [])) in
              (mkChannelMgr (<[key := chan s]> (channels m)) (team m), trace s)
  end.
End Manager.

(** ** The packet handlers (src/server/game/Handlers/ChannelHandler.cpp)

    A handler reads its arguments from the received buffer and acts on the
    manager of the player's side.  The world's two managers are the state. *)

Record Server := mkServer { alliance : ChannelMgr; horde : ChannelMgr }.
Definition mgr_of (s : Server) (x : side) : ChannelMgr :=
  match x with AllianceChannelMgr => alliance s | HordeChannelMgr => horde s end.
Definition set_mgr (s : Server) (x : side) (m : ChannelMgr) : Server :=
  match x with AllianceChannelMgr => mkServer m (horde s) | HordeChannelMgr => mkServer (alliance s) m end.

Definition SMSG_CHANNEL_MEMBER_COUNT : Z := 0x3D5.

Section Handlers.
Context (Utf8toWStr : list Z -> option (list Z)).
Context (normalizePlayerName : list Z -> option (list Z)).
Context (select : list Z -> Z -> option Row).
(** The built-in channel exists and the player's zone admits it. *)
Context (CanJoinConstantChannel : Player -> Z -> bool).
Context (w : World).

(** What a handler leaves: the state and what was sent. *)
Definition Reply : Type := Server * list event.
Definition Handler : Type := Player -> Server -> BB Reply.

(** [if (ChannelMgr* cMgr = ChannelMgr::forTeam(...)) if (Channel* channel =
    cMgr->GetChannel(channelName, GetPlayer())) channel->...]. *)
Definition with_channel (p : Player) (s : Server) (channelName : list Z) (cmd : Command) : Reply :=
  match forTeam w (GetTeam p) with
  | None => (s, [])
  | Some x =>
    match GetChannel Utf8toWStr (mgr_of s x) channelName p true with
    | (Some key, es) => let '(m1, es1) := on_channel w (mgr_of s x) key cmd in (set_mgr s x m1, es ++ es1)
    | (None, es) => (s, es)
    end
  end.

Definition HandleJoinChannel : Handler := fun p s =>
  let! channelId := read_uint32 in
  let! unknown1 := read_uint8 in
  let! unknown2 := read_uint8 in
  let! channelName := read_string in
  let! password := read_string in
  ret (if negb (channelId =? 0) && negb (CanJoinConstantChannel p channelId) then (s, [])
       else if bool_decide (channelName = []) then (s, [])
       else match forTeam w (GetTeam p) with
            | None => (s, [])
            | Some x =>
              let m := setTeam (mgr_of s x) (GetTeam p) in
              match GetJoinChannel Utf8toWStr select w m channelName channelId with
              | (Some key, m1, es) =>
                let '(m2, es2) := on_channel w m1 key (CJoin p password) in (set_mgr s x m2, es ++ es2)
              | (None, m1, es) => (set_mgr s x m1, es)
              end
            end).

Definition HandleLeaveChannel : Handler := fun p s =>
  let! unk := read_uint32 in
  let! channelName := read_string in
  ret (if bool_decide (channelName = []) then (s, [])
       else match forTeam w (GetTeam p) with
            | None => (s, [])
            | Some x =>
              let '(s1, es) := with_channel p s channelName (CLeave p true) in
              (set_mgr s1 x (LeftChannel Utf8toWStr (mgr_of s1 x) channelName), es)
            end).

(** The handlers with a channel name alone, and with a target's name. *)
Definition named (cmd : Command) : Handler := fun p s =>
  let! channelName := read_string in
  ret (with_channel p s channelName cmd).
Definition targeted (cmd : list Z -> Command) : Handler := fun p s =>
  let! channelName := read_string in
  let! targetName := read_string in
  ret (match normalizePlayerName targetName with
       | None => (s, [])
       | Some name => with_channel p s channelName (cmd name)
       end).

Definition HandleChannelList : Handler := fun p => named (CList p) p.
Definition HandleChannelPassword : Handler := fun p s =>
  let! channelName := read_string in
  let! password := read_string in
  ret (with_channel p s channelName (CPassword p password)).
Definition HandleChannelSetOwner : Handler := fun p => targeted (CSetOwner p) p.
Definition HandleChannelOwner : Handler := fun p => named (CSendWhoOwner (GetGUID p)) p.
Definition HandleChannelModerator : Handler := fun p => targeted (fun n => CSetMode p n true true) p.
Definition HandleChannelUnmoderator : Handler := fun p => targeted (fun n => CSetMode p n true false) p.
Definition HandleChannelMute : Handler := fun p => targeted (fun n => CSetMode p n false true) p.
Definition HandleChannelUnmute : Handler := fun p => targeted (fun n => CSetMode p n false false) p.
Definition HandleChannelInvite : Handler := fun p => targeted (CInvite p) p.
Definition HandleChannelKick : Handler := fun p => targeted (fun n => CKickOrBan p n false) p.
Definition HandleChannelBan : Handler := fun p => targeted (fun n => CKickOrBan p n true) p.
Definition HandleChannelUnban : Handler := fun p => targeted (CUnBan p) p.
Definition HandleChannelAnnouncements : Handler := fun p => named (CAnnounce p) p.
Definition HandleChannelDisplayListQuery : Handler := HandleChannelList.

Definition HandleGetChannelMemberCount : Handler := fun p s =>
  let! channelName := read_string in
  ret (match forTeam w (GetTeam p) with
       | None => (s, [])
       | Some x =>
         match GetChannel Utf8toWStr (mgr_of s x) channelName p true with
         | (Some key, es) =>
           match channels (mgr_of s x) !! key with
           | None => (s, es)
           | Some c =>
             (s, es ++ [SendPacket (GetGUID p)
                          (stream (new_packet SMSG_CHANNEL_MEMBER_COUNT)
                             (do! write_string (GetName c) in do! write_uint8 (GetFlags c) in
                              write_uint32 (GetNumPlayers c)))])
           end
         | (None, es) => (s, es)
         end
       end).
Definition HandleSetChannelWatch : Handler := fun p s =>
  let! channelName := read_string in ret (s, []).

(** Every handler under its own name. *)
Inductive Opcode :=
| CMSG_JOIN_CHANNEL | CMSG_LEAVE_CHANNEL | CMSG_CHANNEL_LIST | CMSG_CHANNEL_PASSWORD
| CMSG_CHANNEL_SET_OWNER | CMSG_CHANNEL_OWNER | CMSG_CHANNEL_MODERATOR | CMSG_CHANNEL_UNMODERATOR
| CMSG_CHANNEL_MUTE | CMSG_CHANNEL_UNMUTE | CMSG_CHANNEL_INVITE | CMSG_CHANNEL_KICK | CMSG_CHANNEL_BAN
| CMSG_CHANNEL_UNBAN | CMSG_CHANNEL_ANNOUNCEMENTS | CMSG_CHANNEL_DISPLAY_LIST
| CMSG_GET_CHANNEL_MEMBER_COUNT | CMSG_SET_CHANNEL_WATCH.
Definition handler (op : Opcode) : Handler :=
  match op with
  | CMSG_JOIN_CHANNEL => HandleJoinChannel
  | CMSG_LEAVE_CHANNEL => HandleLeaveChannel
  | CMSG_CHANNEL_LIST => HandleChannelList
  | CMSG_CHANNEL_PASSWORD => HandleChannelPassword
  | CMSG_CHANNEL_SET_OWNER => HandleChannelSetOwner
  | CMSG_CHANNEL_OWNER => HandleChannelOwner
  | CMSG_CHANNEL_MODERATOR => HandleChannelModerator
  | CMSG_CHANNEL_UNMODERATOR => HandleChannelUnmoderator
  | CMSG_CHANNEL_MUTE => HandleChannelMute
  | CMSG_CHANNEL_UNMUTE => HandleChannelUnmute
  | CMSG_CHANNEL_INVITE => HandleChannelInvite
  | CMSG_CHANNEL_KICK => HandleChannelKick
  | CMSG_CHANNEL_BAN => HandleChannelBan
  | CMSG_CHANNEL_UNBAN => HandleChannelUnban
  | CMSG_CHANNEL_ANNOUNCEMENTS => HandleChannelAnnouncements
  | CMSG_CHANNEL_DISPLAY_LIST => HandleChannelDisplayListQuery
  | CMSG_GET_CHANNEL_MEMBER_COUNT => HandleGetChannelMemberCount
  | CMSG_SET_CHANNEL_WATCH => HandleSetChannelWatch
  end.
End Handlers.

(** ** What a request may touch *)

(** The channel name in a request: behind six bytes in a join, behind four in
    a leave, at the start of the others. *)
Definition packet_channel (op : Opcode) : BB (list Z) :=
  match op with
  | CMSG_JOIN_CHANNEL => let! a := read_uint32 in let! b := read_uint8 in let! c := read_uint8 in read_string
  | CMSG_LEAVE_CHANNEL => let! a := read_uint32 in read_string
  | _ => read_string
  end.

(** [s'] differs from [s] at most in the channel filed under [key] of side [x]
    (and in the team the manager gives to new channels). *)
Definition touches_only (x : side) (key : option (list Z)) (s s' : Server) : Prop :=
  (forall y, y <> x -> mgr_of s' y = mgr_of s y) /\
  (forall k, Some k <> key -> channels (mgr_of s' x) !! k = channels (mgr_of s x) !! k).

Lemma touches_refl x key s : touches_only x key s s.
Proof. split; done. Qed.

#[export] Instance side_eq_dec : EqDecision side.
Proof. solve_decision. Defined.

Lemma mgr_of_set_eq s x m : mgr_of (set_mgr s x m) x = m.
Proof. now destruct x. Qed.
Lemma mgr_of_set_ne s x m y : y <> x -> mgr_of (set_mgr s x m) y = mgr_of s y.
Proof. now destruct x, y. Qed.

Lemma touches_set x key s m :
  (forall k, Some k <> key -> channels m !! k = channels (mgr_of s x) !! k) ->
  touches_only x key s (set_mgr s x m).
Proof. intros H. split; [intros; now apply mgr_of_set_ne|]. now rewrite mgr_of_set_eq. Qed.

Lemma touches_trans x key s1 s2 s3 :
  touches_only x key s1 s2 -> touches_only x key s2 s3 -> touches_only x key s1 s3.
Proof. intros [H1 H2] [H3 H4]. split; intros; [now rewrite H3, H1|now rewrite H4, H2]. Qed.

Lemma on_channel_other w m key cmd k : k <> key -> channels (on_channel w m key cmd).1 !! k = channels m !! k.
Proof.
  intros Hk. unfold on_channel. destruct (channels m !! key); [|done]. cbn. now rewrite lookup_insert_ne.
Qed.

Section Frame.
Context (dec_utf8 : list Z -> option (list Z)).
Context (normalize : list Z -> option (list Z)).
Context (select : list Z -> Z -> option Row).
Context (can_join : Player -> Z -> bool).
Context (w : World).

Lemma GetChannel_key m name p pkt key es :
  GetChannel dec_utf8 m name p pkt = (Some key, es) -> key_of dec_utf8 name = Some key /\ es = [] /\
  is_Some (channels m !! key).
Proof.
  unfold GetChannel. destruct (key_of dec_utf8 name) as [wname|]; [|easy].
  destruct (channels m !! wname) eqn:E; [|easy]. intros [= <- <-]. rewrite E. eauto.
Qed.

Lemma with_channel_touches p s name cmd x :
  forTeam w (GetTeam p) = Some x ->
  touches_only x (key_of dec_utf8 name) s (with_channel dec_utf8 w p s name cmd).1.
Proof.
  intros Hx. unfold with_channel. rewrite Hx.
  destruct (GetChannel _ _ _ _ _) as [[key|] es] eqn:E; [|apply touches_refl].
  apply GetChannel_key in E as (Hk & _). destruct (on_channel _ _ _ _) as [m1 es1] eqn:Eo. cbn.
  apply touches_set. intros k Hne. rewrite Hk in Hne.
  pose proof (on_channel_other w (mgr_of s x) key cmd k) as H. rewrite Eo in H. apply H. congruence.
Qed.

Lemma LeftChannel_other m name k :
  Some k <> key_of dec_utf8 name -> channels (LeftChannel dec_utf8 m name) !! k = channels m !! k.
Proof.
  intros Hk. unfold LeftChannel. destruct (key_of dec_utf8 name) as [wname|]; [|done].
  destruct (channels m !! wname); [|done]. case_if; [|done]. cbn. rewrite lookup_delete_ne; [done|congruence].
Qed.

(** A read in front of a handler's work. *)
Lemma bind_inv {S E A B} (m : action S E A) (k : A -> action S E B) s r s' :
  bind m k s = (Ret r, s') -> exists a s1, m s = (Ret a, s1) /\ k a s1 = (Ret r, s').
Proof. unfold bind. destruct (m s) as [[a|e|] s1]; [eauto|discriminate..]. Qed.

Lemma GetJoinChannel_touches m name id key m1 es :
  GetJoinChannel dec_utf8 select w m name id = (key, m1, es) ->
  key = key_of dec_utf8 name /\ (forall k, Some k <> key -> channels m1 !! k = channels m !! k).
Proof.
  unfold GetJoinChannel. destruct (key_of dec_utf8 name) as [wname|]; [|now intros [= <- <- <-]].
  destruct (channels m !! wname); [now intros [= <- <- <-]|].
  destruct (new_channel _ _ _ _ _) as [c es']. intros [= <- <- <-]. split; [done|].
  intros k Hk. cbn. rewrite lookup_insert_ne; [done|congruence].
Qed.
End Frame.

(** Every step of a parse that a handler and [packet_channel] share. *)
Ltac parse H :=
  match type of H with
  | bind _ _ _ = (Ret _, _) => apply bind_inv in H as (? & ? & ?E & H); cbv beta in H
  end.

(** ** Claims *)

(** A request touches nothing but the channel it names: whatever the
    opcode, the packet and the player, the managers of the other side keep all
    their channels, and in the manager of the player's side only the channel
    filed under the lower-case form of the name in the packet can change. *)
Theorem request_touches_only_its_channel dec_utf8 normalize select can_join w op p s b :
  match handler dec_utf8 normalize select can_join w op p s b with
  | (Ret (s', es), _) =>
    exists name b1, packet_channel op b = (Ret name, b1) /\
      match forTeam w (GetTeam p) with
      | None => s' = s
      | Some x => touches_only x (key_of dec_utf8 name) s s'
      end
  | _ => True
  end.
Proof.
  destruct (handler _ _ _ _ _ op p s b) as [[[s' es]|e|] b'] eqn:H; [|done..].
  assert (Hnamed : forall cmd, named dec_utf8 w cmd p s b = (Ret (s', es), b') ->
    exists name b1, read_string b = (Ret name, b1) /\
      match forTeam w (GetTeam p) with None => s' = s | Some x => touches_only x (key_of dec_utf8 name) s s' end).
  { intros cmd Hn. unfold named in Hn. parse Hn. injection Hn as Hn _. do 2 eexists; split; [eassumption|].
    destruct (forTeam w (GetTeam p)) eqn:Ef; [|unfold with_channel in Hn; rewrite Ef in Hn; congruence].
    pose proof (with_channel_touches dec_utf8 w p s x cmd s0 Ef) as Ht. now rewrite Hn in Ht. }
  assert (Htarget : forall cmd, targeted dec_utf8 normalize w cmd p s b = (Ret (s', es), b') ->
    exists name b1, read_string b = (Ret name, b1) /\
      match forTeam w (GetTeam p) with None => s' = s | Some x => touches_only x (key_of dec_utf8 name) s s' end).
  { intros cmd Hn. unfold targeted in Hn. parse Hn. parse Hn. injection Hn as Hn _.
    do 2 eexists; split; [eassumption|]. destruct (normalize _) as [n|].
    - destruct (forTeam w (GetTeam p)) eqn:Ef; [|unfold with_channel in Hn; rewrite Ef in Hn; congruence].
      pose proof (with_channel_touches dec_utf8 w p s x (cmd n) s0 Ef) as Ht. now rewrite Hn in Ht.
    - injection Hn as <- <-. destruct (forTeam _ _); [apply touches_refl|done]. }
  destruct op; cbn [handler packet_channel] in *; eauto.
  - (* join *)
    unfold HandleJoinChannel in H. parse H. parse H. parse H. parse H. parse H. injection H as H _.
    do 2 eexists. split; [unfold bind; now rewrite E, E0, E1, E2|].
    destruct (negb _ && negb _); [injection H as <- <-; destruct (forTeam _ _); [apply touches_refl|done]|].
    destruct (bool_decide _); [injection H as <- <-; destruct (forTeam _ _); [apply touches_refl|done]|].
    destruct (forTeam w (GetTeam p)) as [x'|]; [|congruence]. cbv zeta in H.
    destruct (GetJoinChannel _ _ _ _ _ _) as [[key m1] es1] eqn:Eg.
    apply GetJoinChannel_touches in Eg as [-> Ho]. destruct (key_of dec_utf8 x5) as [key|].
    + destruct (on_channel _ _ _ _) as [m2 es2] eqn:Eo. injection H as <- _. apply touches_set.
      intros k Hk. pose proof (on_channel_other w m1 key (CJoin p x7) k) as Hc. rewrite Eo in Hc.
      cbn in Hc. rewrite Hc by congruence. now apply Ho.
    + injection H as <- _. apply touches_set. exact Ho.
  - (* leave *)
    unfold HandleLeaveChannel in H. parse H. parse H. injection H as H _.
    do 2 eexists. split; [unfold bind; now rewrite E, E0|].
    destruct (bool_decide _); [injection H as <- <-; destruct (forTeam _ _); [apply touches_refl|done]|].
    destruct (forTeam w (GetTeam p)) as [x'|] eqn:Ef; [|congruence].
    destruct (with_channel _ _ _ _ _ _) as [s1 es1] eqn:Ew. injection H as <- _.
    eapply touches_trans.
    + pose proof (with_channel_touches dec_utf8 w p s x1 (CLeave p true) x' Ef) as Ht. rewrite Ew in Ht. exact Ht.
    + apply touches_set. intros k Hk. now apply LeftChannel_other.
  - (* password *)
    unfold HandleChannelPassword in H. parse H. parse H. injection H as H _.
    do 2 eexists; split; [eassumption|].
    destruct (forTeam w (GetTeam p)) eqn:Ef; [|unfold with_channel in H; rewrite Ef in H; congruence].
    pose proof (with_channel_touches dec_utf8 w p s x (CPassword p x1) _ Ef) as Ht. now rewrite H in Ht.
  - (* member count *)
    unfold HandleGetChannelMemberCount in H. parse H. injection H as H _. do 2 eexists; split; [eassumption|].
    destruct (forTeam w (GetTeam p)) as [x'|]; [|congruence].
    destruct (GetChannel _ _ _ _ _) as [[key|] es1]; [|injection H as <- _; apply touches_refl].
    destruct (channels _ !! key); injection H as <- _; apply touches_refl.
  - (* watch *)
    unfold HandleSetChannelWatch in H. parse H. injection H as <- _. do 2 eexists; split; [eassumption|].
    destruct (forTeam _ _); [apply touches_refl|done].
Qed.

Lemma leave_result_on p c k :
  Inv c -> IsOn c (GetGUID p) = true -> IsOn (leave_result p c) k = IsOn (without c (GetGUID p)) k.
Proof.
  intros Hi Hon. unfold leave_result. set (g := GetGUID p) in *. rewrite Hon. cbn [negb]. case_if; [|done].
  apply andb_prop in E as [_ E]. apply andb_prop in E as [_ Hne].
  pose proof (Inv_without c g Hi) as Hi1. destruct (first_player_on _ Hi1 Hne) as [Hf _].
  destruct (owner_result_spec (updated (without c g) (first_player (without c g)) (SetModeratorFlag true))
              (first_player (without c g))) as (_ & _ & _ & _ & _ & Hs & _).
  - now apply Inv_moderator.
  - now rewrite IsOn_updated.
  - now rewrite Hs, IsOn_updated.
Qed.

Lemma on_dom c c' : (forall k, IsOn c' k = IsOn c k) -> dom (playersStore c') = dom (playersStore c).
Proof.
  intros H. apply set_eq. intros k. rewrite !elem_of_dom. specialize (H k). unfold IsOn in H.
  split; intros Hs; apply (bool_decide_eq_true (is_Some _)); [rewrite <- H|rewrite H];
    now apply bool_decide_eq_true.
Qed.

Lemma GetNumPlayers_zero c :
  Z.of_nat (base.size (playersStore c)) < 2 ^ 32 -> (GetNumPlayers c =? 0) = negb (nonempty c).
Proof.
  intros Hs. unfold GetNumPlayers, nonempty. rewrite negb_involutive, uwrap_id by (unfold is_u; lia).
  apply eq_true_iff_eq. rewrite Z.eqb_eq, bool_decide_eq_true, <- (map_size_empty_iff (playersStore c)). clear. lia.
Qed.

(** When the last member of a custom channel leaves by request, the manager
    drops the channel, so the next to join it creates it anew and owns it; a
    built-in channel, or one with other members, stays, without the member who
    left. *)
Theorem leave_request_drops_empty_channel dec_utf8 w p s b name b1 b2 unk x key c :
  forTeam w (GetTeam p) = Some x -> key_of dec_utf8 name = Some key -> name <> [] ->
  read_uint32 b = (Ret unk, b1) -> read_string b1 = (Ret name, b2) ->
  channels (mgr_of s x) !! key = Some c -> Inv c -> IsOn c (GetGUID p) = true ->
  Z.of_nat (base.size (playersStore c)) < 2 ^ 32 ->
  exists s' es, HandleLeaveChannel dec_utf8 w p s b = (Ret (s', es), b2) /\
    channels (mgr_of s' x) !! key =
      (if IsConstant c || nonempty (without c (GetGUID p)) then Some (after w (CLeave p true) c) else None) /\
    IsOn (after w (CLeave p true) c) (GetGUID p) = false.
Proof.
  intros Hx Hk Hn Hr1 Hr2 Hc Hi Hon Hsz. unfold HandleLeaveChannel, bind. rewrite Hr1, Hr2.
  rewrite (bool_decide_eq_false_2 _ Hn), Hx. unfold with_channel, GetChannel. rewrite Hx, Hk, Hc.
  unfold on_channel. rewrite Hc. fold (after w (CLeave p true) c). cbv zeta. cbn [app].
  do 2 eexists. split; [reflexivity|]. rewrite !mgr_of_set_eq.
  rewrite after_result. cbn [command_result]. set (c' := leave_result p c).
  assert (Hdom : dom (playersStore c') = dom (playersStore (without c (GetGUID p)))).
  { apply on_dom. intros k. now apply leave_result_on. }
  assert (Hne : nonempty c' = nonempty (without c (GetGUID p))).
  { unfold nonempty. f_equal. apply bool_decide_ext. rewrite <- !dom_empty_iff_L. now rewrite Hdom. }
  assert (Hsz' : Z.of_nat (base.size (playersStore c')) < 2 ^ 32).
  { rewrite <- size_dom, Hdom, size_dom. cbn.
    assert (base.size (delete (GetGUID p) (playersStore c)) <= base.size (playersStore c))%nat; [|lia].
    apply map_subseteq_size, delete_subseteq. }
  assert (Hcc : IsConstant c' = IsConstant c).
  { unfold c', leave_result. repeat case_if; try done; unfold owner_result, owner_cleared; repeat case_if; done. }
  split.
  - unfold LeftChannel. rewrite Hk. cbn [channels]. rewrite lookup_insert_eq.
    rewrite GetNumPlayers_zero, Hne, Hcc by done.
    clearbody c'; destruct (nonempty (without c (GetGUID p))), (IsConstant c); cbn [negb andb orb channels];
      rewrite ?lookup_insert_eq, ?lookup_delete_eq; done.
  - unfold c'. rewrite leave_result_on by done. unfold IsOn. apply bool_decide_eq_false. cbn.
    rewrite lookup_delete_eq. now intros [? ?].
Qed.

Definition lonely_channel : Channel :=
  chan (run_commands small_world [CJoin (player_n 1) []] (mkSt team_channel [])).
Definition ally (n : Z) : Player :=
  {| GetGUID := n; PlayerName := [65 + n]; GetTeam := ALLIANCE; HasPermission := fun _ => false;
     GetSecurity := 0; GetGroup := false; HasIgnore := fun _ => false; isGMVisible := true;
     IsVisibleGloballyFor := fun _ => true; GetChatTag := 0; CanGMChat := false |}.
Definition one_channel : Server :=
  mkServer (mkChannelMgr {[ [116] := lonely_channel ]} 469) new_mgr.
Lemma leave_request_drops_empty_channel_witness :
  exists s' es, HandleLeaveChannel Some small_world (ally 1) one_channel
      (mkByteBuffer 0 6 [0; 0; 0; 0; 84; 0]) = (Ret (s', es), mkByteBuffer 6 6 [0; 0; 0; 0; 84; 0]) /\
    channels (alliance s') !! [116] = None.
Proof.
  destruct (leave_request_drops_empty_channel Some small_world (ally 1) one_channel
    (mkByteBuffer 0 6 [0; 0; 0; 0; 84; 0]) [84] (mkByteBuffer 4 6 [0; 0; 0; 0; 84; 0])
    (mkByteBuffer 6 6 [0; 0; 0; 0; 84; 0]) 0 AllianceChannelMgr [116] lonely_channel)
    as (s' & es & H & Hd & _); try reflexivity.
  - discriminate.
  - unfold lonely_channel, run_commands. cbn [foldl]. rewrite run_command_after. cbn [chan].
    apply Inv_command; [apply new_channel_Inv|discriminate|reflexivity].
  - exists s', es. split; [exact H|exact Hd].
Defined.
