(* ===== verification/Social.v ===== *)
(** * Social lists
    (src/server/game/Entities/Player/SocialMgr.cpp and SocialMgr.h; the friend and
    ignore handlers of src/server/game/Handlers/MiscHandler.cpp; [utf8truncate] of
    src/server/shared/Utilities/Util.cpp)

    A player's list of friends and ignored players, the manager that has the lists of
    those who are connected, the table they are stored in, and the requests about
    them.  A name is looked up in the database, and the answer is handled later.

    The claim: after every run of requests a list in memory is what a reload from the
    table gives, notes as their column holds them, and has at most fifty friends and
    fifty ignored players. *)

From stdpp Require Import base gmap list sorting.
From Stdlib Require Import ZArith Lia.
From S2P Require Import Prelude ByteBuffer StdMap Columns ObjectGuid WorldPacket LfgPackets ActionLogic.
#[local] Open Scope Z_scope.

Definition FRIEND_STATUS_OFFLINE : Z := 0x00.
Definition FRIEND_STATUS_ONLINE : Z := 0x01.
Definition FRIEND_STATUS_AFK : Z := 0x02.
Definition FRIEND_STATUS_DND : Z := 0x04.
Definition SOCIAL_FLAG_FRIEND : Z := 0x01.
Definition SOCIAL_FLAG_IGNORED : Z := 0x02.
Inductive FriendsResult :=
| FRIEND_LIST_FULL | FRIEND_ONLINE | FRIEND_OFFLINE | FRIEND_NOT_FOUND | FRIEND_REMOVED | FRIEND_ADDED_ONLINE | FRIEND_ADDED_OFFLINE | FRIEND_ALREADY
| FRIEND_SELF | FRIEND_ENEMY | FRIEND_IGNORE_FULL | FRIEND_IGNORE_SELF | FRIEND_IGNORE_NOT_FOUND | FRIEND_IGNORE_ALREADY | FRIEND_IGNORE_ADDED | FRIEND_IGNORE_REMOVED.
Definition friends_result_value (r : FriendsResult) : Z :=
  match r with
  | FRIEND_LIST_FULL => 0x01 | FRIEND_ONLINE => 0x02 | FRIEND_OFFLINE => 0x03 | FRIEND_NOT_FOUND => 0x04 | FRIEND_REMOVED => 0x05
  | FRIEND_ADDED_ONLINE => 0x06 | FRIEND_ADDED_OFFLINE => 0x07 | FRIEND_ALREADY => 0x08 | FRIEND_SELF => 0x09 | FRIEND_ENEMY => 0x0A
  | FRIEND_IGNORE_FULL => 0x0B | FRIEND_IGNORE_SELF => 0x0C | FRIEND_IGNORE_NOT_FOUND => 0x0D | FRIEND_IGNORE_ALREADY => 0x0E
  | FRIEND_IGNORE_ADDED => 0x0F | FRIEND_IGNORE_REMOVED => 0x10
  end.
Definition SOCIALMGR_FRIEND_LIMIT : Z := 50.
Definition SOCIALMGR_IGNORE_LIMIT : Z := 50.
Definition SMSG_CONTACT_LIST : Z := 0x067.
Definition SMSG_FRIEND_STATUS : Z := 0x068.
Definition RBAC_PERM_TWO_SIDE_WHO_LIST : Z := 28.
Definition RBAC_PERM_TWO_SIDE_ADD_FRIEND : Z := 29.
Definition RBAC_PERM_WHO_SEE_ALL_SEC_LEVELS : Z := 35.
Definition RBAC_PERM_ALLOW_GM_FRIEND : Z := 40.
Definition SEC_PLAYER : Z := 0.

Record FriendInfo := mkFriendInfo { Status : Z; Flags : Z; Area : Z; Level : Z; Class_ : Z; Note : list Z }.
Definition new_friend (flags : Z) (note : list Z) : FriendInfo := mkFriendInfo FRIEND_STATUS_OFFLINE flags 0 0 0 note.
Record PlayerSocial := mkPlayerSocial { m_playerSocialMap : gmap Z FriendInfo; m_playerGUID : Z }.
(** A row of character_social; its key is made of the first three, the note is a
    [varchar(48)]. *)
Record SocialRow := mkSocialRow { sr_guid : Z; sr_friend : Z; sr_flags : Z; sr_note : list Z }.

#[export] Instance row_eq_dec : EqDecision SocialRow.
Proof. solve_decision. Defined.

(** What the lists ask of a player object. *)
Record SocialPlayer := mkSocialPlayer {
  sp_security : Z; sp_team : Z; isDND : bool; isAFK : bool; GetZoneId : Z; getLevel : Z; getClass : Z; sp_in_world : bool
}.
(** A session with its player, and the answers of the database it waits for: the note
    and the name of a friend, the name of somebody to ignore. *)
Record Session := mkSession { _player : option Z; _addFriendCallback : option (list Z * list Z); _addIgnoreCallback : option (list Z) }.
Record SW := mkSW {
  m_socialMap : gmap Z PlayerSocial; character_social : list SocialRow; s_players : gmap Z SocialPlayer; s_sessions : gmap Z Session;
  s_sent : list (Z * WorldPacket)
}.
Abbreviation SA := (action SW exn).

(** The rest of the server: rights, who sees whom, the table of characters by name
    (number, race and account), the characters that are not deleted, and the utf8
    library. *)
Class SocialWorld := mkSocialWorld {
  HasPermission : Z -> Z -> bool;
  IsVisibleGloballyFor : Z -> Z -> bool;
  CONFIG_GM_LEVEL_IN_WHO_LIST : Z;
  character_named : list Z -> option (Z * Z * Z);
  undeleted : Z -> bool;
  TeamForRace : Z -> Z;
  account_security : Z -> Z;
  normalizeName : list Z -> option (list Z);
  utf8_distance : list Z -> option Z;
  utf8to16 : list Z -> option (list Z);
  utf16to8 : list Z -> option (list Z)
}.

Section Operations.
Context `{world : SocialWorld} `{columns : TextColumns}.

Definition with_socials (m : gmap Z PlayerSocial) (w : SW) : SW := mkSW m (character_social w) (s_players w) (s_sessions w) (s_sent w).
Definition with_table (t : list SocialRow) (w : SW) : SW := mkSW (m_socialMap w) t (s_players w) (s_sessions w) (s_sent w).
Definition with_players (p : gmap Z SocialPlayer) (w : SW) : SW := mkSW (m_socialMap w) (character_social w) p (s_sessions w) (s_sent w).
Definition with_session (sid : Z) (s : Session) (w : SW) : SW :=
  mkSW (m_socialMap w) (character_social w) (s_players w) (<[sid := s]> (s_sessions w)) (s_sent w).
Definition SendPacket (to : Z) (p : WorldPacket) : SA unit :=
  modify (fun w => mkSW (m_socialMap w) (character_social w) (s_players w) (s_sessions w) (s_sent w ++ [(to, p)])).

(** ** The table *)

Definition of_pair (me friendGuid : Z) (r : SocialRow) : bool := (sr_guid r =? me) && (sr_friend r =? friendGuid).
Definition update_rows (me friendGuid : Z) (f : SocialRow -> SocialRow) (t : list SocialRow) : list SocialRow :=
  map (fun r => if of_pair me friendGuid r then f r else r) t.
Definition UPD_ADD_CHARACTER_SOCIAL_FLAGS (flag me friendGuid : Z) : SA unit :=
  modify (fun w => with_table (update_rows me friendGuid (fun r => mkSocialRow (sr_guid r) (sr_friend r) (Z.lor (sr_flags r) flag) (sr_note r)) (character_social w)) w).
Definition UPD_REM_CHARACTER_SOCIAL_FLAGS (flag me friendGuid : Z) : SA unit :=
  modify (fun w => with_table (update_rows me friendGuid (fun r => mkSocialRow (sr_guid r) (sr_friend r) (Z.ldiff (sr_flags r) flag) (sr_note r)) (character_social w)) w).
(** A second row of the same key is refused. *)
Definition INS_CHARACTER_SOCIAL (me friendGuid flag : Z) : SA unit :=
  modify (fun w => if existsb (fun r => of_pair me friendGuid r && (sr_flags r =? flag)) (character_social w) then w
                   else with_table (character_social w ++ [mkSocialRow me friendGuid flag []]) w).
Definition DEL_CHARACTER_SOCIAL (me friendGuid : Z) : SA unit :=
  modify (fun w => with_table (filter (fun r => of_pair me friendGuid r = false) (character_social w)) w).
Definition NOTE_COLUMN : Z := 48.
Definition UPD_CHARACTER_SOCIAL_NOTE (note : list Z) (me friendGuid : Z) : SA unit :=
  modify (fun w => with_table (update_rows me friendGuid (fun r => mkSocialRow (sr_guid r) (sr_friend r) (sr_flags r) (held NOTE_COLUMN note)) (character_social w)) w).

(** ** PlayerSocial *)

Definition GetSocial (me : Z) : SA PlayerSocial := let! m := gets m_socialMap in of_option (m !! me).
Definition set_entry (me friendGuid : Z) (fi : FriendInfo) : SA unit :=
  modify (fun w => with_socials (alter (fun s => mkPlayerSocial (<[friendGuid := fi]> (m_playerSocialMap s)) (m_playerGUID s)) me (m_socialMap w)) w).
Definition erase_entry (me friendGuid : Z) : SA unit :=
  modify (fun w => with_socials (alter (fun s => mkPlayerSocial (delete friendGuid (m_playerSocialMap s)) (m_playerGUID s)) me (m_socialMap w)) w).
Definition has_flag (flag : Z) (fi : FriendInfo) : bool := negb (Z.land (Flags fi) flag =? 0).
Definition set_flags (f : Z) (fi : FriendInfo) : FriendInfo := mkFriendInfo (Status fi) f (Area fi) (Level fi) (Class_ fi) (Note fi).
Definition set_note (n : list Z) (fi : FriendInfo) : FriendInfo := mkFriendInfo (Status fi) (Flags fi) (Area fi) (Level fi) (Class_ fi) n.

Definition GetNumberOfSocialsWithFlag (s : PlayerSocial) (flag : Z) : Z :=
  u32 (zlen (filter (fun e => has_flag flag e.2 = true) (entries Z.le (m_playerSocialMap s)))).
Definition HasFriend (s : PlayerSocial) (friendGuid : Z) : bool :=
  match m_playerSocialMap s !! friendGuid with Some fi => has_flag SOCIAL_FLAG_FRIEND fi | None => false end.
Definition HasIgnore (s : PlayerSocial) (friendGuid : Z) : bool :=
  match m_playerSocialMap s !! friendGuid with Some fi => has_flag SOCIAL_FLAG_IGNORED fi | None => false end.
Definition flag_of (ignore : bool) : Z := if ignore then SOCIAL_FLAG_IGNORED else SOCIAL_FLAG_FRIEND.
Definition list_full (s : PlayerSocial) (ignore : bool) : bool :=
  if ignore then SOCIALMGR_IGNORE_LIMIT <=? GetNumberOfSocialsWithFlag s SOCIAL_FLAG_IGNORED
  else SOCIALMGR_FRIEND_LIMIT <=? GetNumberOfSocialsWithFlag s SOCIAL_FLAG_FRIEND.
Definition AddToSocialList (me friendGuid : Z) (ignore : bool) : SA bool :=
  let! s := GetSocial me in
  if list_full s ignore then ret false
  else
    let flag := flag_of ignore in
    do! match m_playerSocialMap s !! friendGuid with
        | Some fi =>
          do! UPD_ADD_CHARACTER_SOCIAL_FLAGS flag (m_playerGUID s) friendGuid in
          set_entry me friendGuid (set_flags (u8 (Z.lor (Flags fi) flag)) fi)
        | None =>
          do! INS_CHARACTER_SOCIAL (m_playerGUID s) friendGuid flag in
          set_entry me friendGuid (new_friend (u8 (Z.lor 0 flag)) [])
        end in
    ret true.
Definition RemoveFromSocialList (me friendGuid : Z) (ignore : bool) : SA unit :=
  let! s := GetSocial me in
  match m_playerSocialMap s !! friendGuid with
  | None => ret tt
  | Some fi =>
    let flag := flag_of ignore in
    let fi := set_flags (u8 (Z.ldiff (Flags fi) flag)) fi in
    do! set_entry me friendGuid fi in
    if Flags fi =? 0 then
      do! DEL_CHARACTER_SOCIAL (m_playerGUID s) friendGuid in erase_entry me friendGuid
    else UPD_REM_CHARACTER_SOCIAL_FLAGS flag (m_playerGUID s) friendGuid
  end.

(** [None] is a write behind the end of the buffer, which has room for one unit per
    character: utf-16 has two for some. *)
Definition utf8truncate (utf8str : list Z) (len : Z) : option (list Z) :=
  match utf8_distance utf8str with
  | None => Some []
  | Some wlen =>
    if wlen <=? len then Some utf8str
    else match utf8to16 utf8str with
         | None => Some []
         | Some wstr =>
           if wlen <? zlen wstr then None
           else match utf16to8 (resize (Z.to_nat len) 0 (wstr ++ repeat 0 (Z.to_nat wlen - length wstr))) with
                | None => Some []
                | Some out => if zlen utf8str <? zlen out then None else Some out
                end
         end
  end.
Definition SetFriendNote (me friendGuid : Z) (note : list Z) : SA unit :=
  let! s := GetSocial me in
  match m_playerSocialMap s !! friendGuid with
  | None => ret tt
  | Some fi =>
    let! note := of_option (utf8truncate note 48) in
    do! UPD_CHARACTER_SOCIAL_NOTE note (m_playerGUID s) friendGuid in
    set_entry me friendGuid (set_note note fi)
  end.

(** ** SocialMgr *)

Definition FindPlayer (guid : Z) : SA (option SocialPlayer) :=
  let! ps := gets s_players in ret (match ps !! guid with Some p => if sp_in_world p then Some p else None | None => None end).
Definition player_at (guid : Z) : SA SocialPlayer := let! ps := gets s_players in of_option (ps !! guid).
Definition status_of (t : SocialPlayer) : Z := if isDND t then FRIEND_STATUS_DND else if isAFK t then FRIEND_STATUS_AFK else FRIEND_STATUS_ONLINE.
Definition GetFriendInfo (me friendGUID : Z) (fi : FriendInfo) : SA FriendInfo :=
  let fi := mkFriendInfo FRIEND_STATUS_OFFLINE (Flags fi) 0 0 0 (Note fi) in
  let! target := FindPlayer friendGUID in
  match target with
  | None => ret fi
  | Some t =>
    let! s := GetSocial me in
    let fi := match m_playerSocialMap s !! friendGUID with Some i => set_note (Note i) fi | None => fi end in
    let! p := player_at me in
    if negb (HasPermission me RBAC_PERM_WHO_SEE_ALL_SEC_LEVELS) && (CONFIG_GM_LEVEL_IN_WHO_LIST <? sp_security t) then ret fi
    else if negb (sp_team t =? sp_team p) && negb (HasPermission me RBAC_PERM_TWO_SIDE_WHO_LIST) then ret fi
    else if IsVisibleGloballyFor friendGUID me
         then ret (mkFriendInfo (status_of t) (Flags fi) (GetZoneId t) (u8 (getLevel t)) (u8 (getClass t)) (Note fi))
         else ret fi
  end.

Definition write_entry (guid : Z) (fi : FriendInfo) : BB unit :=
  do! write_uint64 guid in
  do! write_uint32 (Flags fi) in
  do! write_string (Note fi) in
  if has_flag SOCIAL_FLAG_FRIEND fi then
    do! write_uint8 (Status fi) in
    if negb (Status fi =? 0) then do! write_uint32 (Area fi) in do! write_uint32 (Level fi) in write_uint32 (Class_ fi) else ret tt
  else ret tt.
Definition contact_list (l : list (Z * FriendInfo)) : WorldPacket :=
  stream (new_packet SMSG_CONTACT_LIST)
    (do! write_uint32 7 in do! write_uint32 (u32 (zlen l)) in write_all (fun e => write_entry e.1 e.2) l).
(** The entries are brought up to date on the way. *)
Definition refresh (me : Z) (l : list (Z * FriendInfo)) (e : Z * FriendInfo) : SA (list (Z * FriendInfo)) :=
  let! fi := GetFriendInfo me e.1 e.2 in
  do! set_entry me e.1 fi in
  ret (l ++ [(e.1, fi)]).
Definition SendSocialList (me : Z) : SA unit :=
  let! s := GetSocial me in
  let! l := fold_m (refresh me) (entries Z.le (m_playerSocialMap s)) [] in
  do! built (contact_list l) in
  SendPacket me (contact_list l).

Definition MakeFriendStatusPacket (result : FriendsResult) (guid : Z) : BB unit :=
  do! write_uint8 (friends_result_value result) in write_uint64 guid.
Definition friend_status (result : FriendsResult) (guid : Z) (fi : FriendInfo) : WorldPacket :=
  stream (new_packet SMSG_FRIEND_STATUS)
    (do! MakeFriendStatusPacket result guid in
     do! match result with FRIEND_ADDED_OFFLINE | FRIEND_ADDED_ONLINE => write_string (Note fi) | _ => ret tt end in
     match result with
     | FRIEND_ADDED_ONLINE | FRIEND_ONLINE =>
         do! write_uint8 (Status fi) in do! write_uint32 (Area fi) in do! write_uint32 (Level fi) in write_uint32 (Class_ fi)
     | _ => ret tt
     end).
(** Those who have the player as a friend and may see him. *)
Definition listens (me : Z) (p : SocialPlayer) (e : Z * PlayerSocial) (t : SocialPlayer) : bool :=
  HasFriend e.2 me &&
  negb (negb (HasPermission e.1 RBAC_PERM_WHO_SEE_ALL_SEC_LEVELS) && (CONFIG_GM_LEVEL_IN_WHO_LIST <? sp_security p)) &&
  negb (negb (sp_team t =? sp_team p) && negb (HasPermission e.1 RBAC_PERM_TWO_SIDE_WHO_LIST)) &&
  IsVisibleGloballyFor me e.1.
Definition BroadcastToFriendListers (me : Z) (packet : WorldPacket) : SA unit :=
  let! m := gets m_socialMap in
  let! p := player_at me in
  for_each (entries Z.le m) (fun e =>
    let! target := FindPlayer (MAKE_NEW_GUID e.1 0 HIGHGUID_PLAYER) in
    match target with Some t => when (listens me p e t) (SendPacket e.1 packet) | None => ret tt end).
Definition SendFriendStatus (me : Z) (result : FriendsResult) (friendGuid : Z) (broadcast : bool) : SA unit :=
  let! fi := GetFriendInfo me friendGuid (new_friend 0 []) in
  let data := friend_status result friendGuid fi in
  do! built data in
  if broadcast then BroadcastToFriendListers me data else SendPacket me data.

(** The rows of the query, in the order they come; after a hundred the rest is left. *)
Fixpoint load_rows (rows : list SocialRow) (m : gmap Z FriendInfo) : gmap Z FriendInfo :=
  match rows with
  | [] => m
  | r :: rows =>
    let m := <[sr_friend r := new_friend (sr_flags r) (sr_note r)]> m in
    if SOCIALMGR_FRIEND_LIMIT + SOCIALMGR_IGNORE_LIMIT <=? Z.of_nat (base.size m) then m else load_rows rows m
  end.
Definition LoadFromDB (rows : list SocialRow) (guid : Z) : SA unit :=
  modify (fun w => with_socials
    (let s := entry_at (mkPlayerSocial ∅ 0) (m_socialMap w) guid in
     <[guid := mkPlayerSocial (load_rows rows (m_playerSocialMap s)) guid]> (m_socialMap w)) w).
Definition RemovePlayerSocial (guid : Z) : SA unit := modify (fun w => with_socials (delete guid (m_socialMap w)) w).
(** The rows of a player whose friend is not deleted. *)
Definition visible (me : Z) (t : list SocialRow) : list SocialRow :=
  filter (fun r => sr_guid r = me /\ undeleted (sr_friend r) = true) t.
(** [SELECT friend, flags, note ... LIMIT 255], in some order. *)
Definition SEL_CHARACTER_SOCIALLIST (me : Z) (t rows : list SocialRow) : Prop := exists l, l ≡ₚ visible me t /\ rows = take 255 l.

(** ** The requests *)

Definition parse {A} (m : BB A) (data : ByteBuffer) : SA A :=
  fun w => match (m data).1 with Ret a => (Ret a, w) | Throw e => (Throw e, w) | Crash => (Crash, w) end.
Definition session_at (sid : Z) : SA Session := let! ss := gets s_sessions in of_option (ss !! sid).
Definition GetPlayer (sid : Z) : SA Z := let! s := session_at sid in of_option (_player s).

Definition HandleContactListOpcode (sid : Z) (recvData : ByteBuffer) : SA unit :=
  let! _ := parse read_uint32 recvData in
  let! me := GetPlayer sid in SendSocialList me.
Definition HandleAddFriendOpcode (sid : Z) (recvData : ByteBuffer) : SA unit :=
  let! r := parse (let! friendName := read_string in let! friendNote := read_string in ret (friendName, friendNote)) recvData in
  match normalizeName r.1 with
  | None => ret tt
  | Some friendName => let! s := session_at sid in modify (with_session sid (mkSession (_player s) (Some (r.2, friendName)) (_addIgnoreCallback s)))
  end.
(** What becomes of the friend, before his list is full. *)
Definition friend_result (me friendGuid team : Z) : SA FriendsResult :=
  let! s := GetSocial me in
  let! p := player_at me in
  if friendGuid =? me then ret FRIEND_SELF
  else if negb (sp_team p =? team) && negb (HasPermission me RBAC_PERM_TWO_SIDE_ADD_FRIEND) then ret FRIEND_ENEMY
  else if HasFriend s (GUID_LOPART friendGuid) then ret FRIEND_ALREADY
  else
    let! pFriend := FindPlayer friendGuid in
    let result := match pFriend with Some _ => if IsVisibleGloballyFor friendGuid me then FRIEND_ADDED_ONLINE else FRIEND_ADDED_OFFLINE
                                   | None => FRIEND_ADDED_OFFLINE end in
    let! ok := AddToSocialList me (GUID_LOPART friendGuid) false in
    ret (if ok then result else FRIEND_LIST_FULL).
Definition HandleAddFriendOpcodeCallBack (sid : Z) (result : option (Z * Z * Z)) (friendNote : list Z) : SA unit :=
  let! s := session_at sid in
  match _player s with
  | None => ret tt
  | Some me =>
    let! r := match result with
              | None => ret (0, FRIEND_NOT_FOUND)
              | Some (guid, race, friendAccountId) =>
                let friendGuid := MAKE_NEW_GUID guid 0 HIGHGUID_PLAYER in
                if (HasPermission me RBAC_PERM_ALLOW_GM_FRIEND || (account_security friendAccountId =? SEC_PLAYER)) && negb (friendGuid =? 0) then
                  let! res := friend_result me friendGuid (TeamForRace race) in
                  do! SetFriendNote me (GUID_LOPART friendGuid) friendNote in
                  ret (friendGuid, res)
                else ret (friendGuid, FRIEND_NOT_FOUND)
              end in
    SendFriendStatus me r.2 (GUID_LOPART r.1) false
  end.
Definition HandleDelFriendOpcode (sid : Z) (recvData : ByteBuffer) : SA unit :=
  let! FriendGUID := parse read_uint64 recvData in
  let! me := GetPlayer sid in
  do! RemoveFromSocialList me (GUID_LOPART FriendGUID) false in
  SendFriendStatus me FRIEND_REMOVED (GUID_LOPART FriendGUID) false.
Definition HandleAddIgnoreOpcode (sid : Z) (recvData : ByteBuffer) : SA unit :=
  let! ignoreName := parse read_string recvData in
  match normalizeName ignoreName with
  | None => ret tt
  | Some ignoreName => let! s := session_at sid in modify (with_session sid (mkSession (_player s) (_addFriendCallback s) (Some ignoreName)))
  end.
Definition ignore_result (me IgnoreGuid : Z) : SA FriendsResult :=
  let! s := GetSocial me in
  if IgnoreGuid =? me then ret FRIEND_IGNORE_SELF
  else if HasIgnore s (GUID_LOPART IgnoreGuid) then ret FRIEND_IGNORE_ALREADY
  else let! ok := AddToSocialList me (GUID_LOPART IgnoreGuid) true in ret (if ok then FRIEND_IGNORE_ADDED else FRIEND_IGNORE_FULL).
Definition HandleAddIgnoreOpcodeCallBack (sid : Z) (result : option (Z * Z * Z)) : SA unit :=
  let! s := session_at sid in
  match _player s with
  | None => ret tt
  | Some me =>
    let! r := match result with
              | None => ret (0, FRIEND_IGNORE_NOT_FOUND)
              | Some (guid, _, _) =>
                let IgnoreGuid := MAKE_NEW_GUID guid 0 HIGHGUID_PLAYER in
                if negb (IgnoreGuid =? 0) then let! res := ignore_result me IgnoreGuid in ret (IgnoreGuid, res)
                else ret (IgnoreGuid, FRIEND_IGNORE_NOT_FOUND)
              end in
    SendFriendStatus me r.2 (GUID_LOPART r.1) false
  end.
Definition HandleDelIgnoreOpcode (sid : Z) (recvData : ByteBuffer) : SA unit :=
  let! IgnoreGUID := parse read_uint64 recvData in
  let! me := GetPlayer sid in
  do! RemoveFromSocialList me (GUID_LOPART IgnoreGUID) true in
  SendFriendStatus me FRIEND_IGNORE_REMOVED (GUID_LOPART IgnoreGUID) false.
Definition HandleSetContactNotesOpcode (sid : Z) (recvData : ByteBuffer) : SA unit :=
  let! r := parse (let! guid := read_uint64 in let! note := read_string in ret (guid, note)) recvData in
  let! me := GetPlayer sid in
  SetFriendNote me (GUID_LOPART r.1) r.2.

(** The answers of the database are handled when they are there. *)
Definition ProcessAddFriend (sid : Z) : SA unit :=
  let! s := session_at sid in
  match _addFriendCallback s with
  | None => ret tt
  | Some (param, name) =>
    do! HandleAddFriendOpcodeCallBack sid (character_named name) param in
    let! s := session_at sid in modify (with_session sid (mkSession (_player s) None (_addIgnoreCallback s)))
  end.
Definition ProcessAddIgnore (sid : Z) : SA unit :=
  let! s := session_at sid in
  match _addIgnoreCallback s with
  | None => ret tt
  | Some name =>
    do! HandleAddIgnoreOpcodeCallBack sid (character_named name) in
    let! s := session_at sid in modify (with_session sid (mkSession (_player s) (_addFriendCallback s) None))
  end.

(** Logging in, as far as it is about the lists: the player is in the world from the
    middle of it on. *)
Definition set_player (me : Z) (p : SocialPlayer) : SA unit := modify (fun w => with_players (<[me := p]> (s_players w)) w).
Definition placed (p : SocialPlayer) (b : bool) : SocialPlayer :=
  mkSocialPlayer (sp_security p) (sp_team p) (isDND p) (isAFK p) (GetZoneId p) (getLevel p) (getClass p) b.
Definition LoadPlayer (sid me : Z) (p : SocialPlayer) (rows : list SocialRow) : SA unit :=
  let! s := session_at sid in
  do! LoadFromDB rows me in
  do! set_player me (placed p false) in
  modify (with_session sid (mkSession (Some me) (_addFriendCallback s) (_addIgnoreCallback s))).
Definition HandlePlayerLogin (sid me : Z) (p : SocialPlayer) (rows : list SocialRow) : SA unit :=
  do! LoadPlayer sid me p rows in
  do! SendSocialList me in
  do! set_player me (placed p true) in
  SendFriendStatus me FRIEND_ONLINE me true.
Definition LogoutPlayer (sid : Z) : SA unit :=
  let! s := session_at sid in
  match _player s with
  | None => ret tt
  | Some me =>
    do! SendFriendStatus me FRIEND_OFFLINE me true in
    do! RemovePlayerSocial me in
    do! modify (fun w => with_players (delete me (s_players w)) w) in
    modify (with_session sid (mkSession None (_addFriendCallback s) (_addIgnoreCallback s)))
  end.

Inductive social_request :=
| ContactList (sid : Z) (data : ByteBuffer)
| AddFriend (sid : Z) (data : ByteBuffer)
| AddFriendReady (sid : Z)
| DelFriend (sid : Z) (data : ByteBuffer)
| AddIgnore (sid : Z) (data : ByteBuffer)
| AddIgnoreReady (sid : Z)
| DelIgnore (sid : Z) (data : ByteBuffer)
| SetContactNotes (sid : Z) (data : ByteBuffer)
| SocialLogin (sid me : Z) (p : SocialPlayer) (rows : list SocialRow)
| SocialLogout (sid : Z).
Definition handle (r : social_request) : SA unit :=
  match r with
  | ContactList sid data => HandleContactListOpcode sid data
  | AddFriend sid data => HandleAddFriendOpcode sid data
  | AddFriendReady sid => ProcessAddFriend sid
  | DelFriend sid data => HandleDelFriendOpcode sid data
  | AddIgnore sid data => HandleAddIgnoreOpcode sid data
  | AddIgnoreReady sid => ProcessAddIgnore sid
  | DelIgnore sid data => HandleDelIgnoreOpcode sid data
  | SetContactNotes sid data => HandleSetContactNotesOpcode sid data
  | SocialLogin sid me p rows => HandlePlayerLogin sid me p rows
  | SocialLogout sid => LogoutPlayer sid
  end.
End Operations.
