(* ===== verification/SocialRuns.v ===== *)
(** * Social lists: every run of requests

    [stored] is what the table says of a player's list; each operation is shown to
    change the list in memory and [stored] in the same way, and the invariant
    [social_ok] follows for every run. *)

From stdpp Require Import base gmap list strings sorting fin_maps.
From Stdlib Require Import ZArith Lia.
From S2P Require Import Prelude ByteBuffer StdMap Util Columns ObjectGuid WorldPacket LfgPackets ActionLogic Social.
#[local] Open Scope Z_scope.

Section Runs.
Context `{world : SocialWorld} `{column_laws : TextColumnLaws}.

Abbreviation SocialMapping := (gmap Z (Z * list Z)).

(** What a list has, and what the table holds of it. *)
Definition listed (m : gmap Z FriendInfo) : SocialMapping := (fun fi => (Flags fi, Note fi)) <$> m.
Definition saved (m : gmap Z FriendInfo) : SocialMapping := (fun fi => (Flags fi, held NOTE_COLUMN (Note fi))) <$> m.
Definition stored_rows (l : list SocialRow) : SocialMapping := list_to_map (map (fun r => (sr_friend r, (sr_flags r, sr_note r))) l).
Definition stored (me : Z) (t : list SocialRow) : SocialMapping := stored_rows (visible me t).
Definition row_key (r : SocialRow) : Z * Z := (sr_guid r, sr_friend r).
Definition flagged (flag : Z) (e : Z * (Z * list Z)) : Prop := Z.land e.2.1 flag <> 0.
#[local] Instance flagged_dec flag e : Decision (flagged flag e).
Proof. unfold flagged. apply _. Defined.
Definition count (flag : Z) (m : SocialMapping) : Z := Z.of_nat (base.size (filter (flagged flag) m)).

(** ** Statements on the table *)

Definition of_friend (friendGuid : Z) (r : SocialRow) : Prop := sr_friend r = friendGuid.
Lemma stored_cons me r t :
  stored me (r :: t) = if decide (sr_guid r = me /\ undeleted (sr_friend r) = true) then <[sr_friend r := (sr_flags r, sr_note r)]> (stored me t) else stored me t.
Proof. unfold stored, visible. rewrite filter_cons. now case_decide. Qed.
Lemma of_pair_true me f r : of_pair me f r = true <-> sr_guid r = me /\ sr_friend r = f.
Proof. unfold of_pair. rewrite andb_true_iff, !Z.eqb_eq. done. Qed.
(** An update of the rows of a pair, given by what it does to flags and note. *)
Definition upd_row (h : Z * list Z -> Z * list Z) (r : SocialRow) : SocialRow :=
  mkSocialRow (sr_guid r) (sr_friend r) (h (sr_flags r, sr_note r)).1 (h (sr_flags r, sr_note r)).2.
Lemma stored_update me f h t j : stored j (update_rows me f (upd_row h) t) = if decide (j = me) then alter h f (stored me t) else stored j t.
Proof.
  induction t as [|r t IH].
  { unfold stored, visible. cbn. destruct (decide (j = me)); [|done]. symmetry. apply map_eq. intros i. unfold stored_rows. cbn.
    destruct (decide (i = f)) as [->|]; [now rewrite lookup_alter_eq, !lookup_empty|now rewrite lookup_alter_ne, lookup_empty]. }
  cbn [update_rows map]. rewrite !stored_cons. fold (update_rows me f (upd_row h) t). rewrite IH. clear IH.
  assert (E : forall b : bool, (let r' := if b then upd_row h r else r in sr_guid r' = sr_guid r /\ sr_friend r' = sr_friend r)) by now intros [].
  destruct (E (of_pair me f r)) as [E1 E2]. rewrite E1, E2. destruct (decide (j = me)) as [->|Hne].
  - case_decide as H; [|done]. destruct (of_pair me f r) eqn:Ep.
    + apply of_pair_true in Ep as [_ <-]. rewrite alter_insert_eq, insert_alter_eq. unfold upd_row. cbn. f_equal. symmetry. apply surjective_pairing.
    + rewrite alter_insert_ne; [done|]. intros ->. destruct H as [H _]. assert (H' : of_pair me (sr_friend r) r = true) by now apply of_pair_true. congruence.
  - case_decide as H; [|done]. destruct (of_pair me f r) eqn:Ep; [|done]. apply of_pair_true in Ep as [Ep _]. destruct H. congruence.
Qed.
Lemma keys_update me f h t : map row_key (update_rows me f (upd_row h) t) = map row_key t.
Proof. unfold update_rows. rewrite map_map. apply map_ext. intros r. now destruct (of_pair me f r). Qed.
Lemma stored_delete me f t j : stored j (filter (fun r => of_pair me f r = false) t) = if decide (j = me) then delete f (stored me t) else stored j t.
Proof.
  induction t as [|r t IH].
  { unfold stored, visible, stored_rows. cbn. destruct (decide (j = me)); [|done]. symmetry. apply delete_empty. }
  rewrite filter_cons. destruct (of_pair me f r) eqn:Ep.
  - rewrite decide_False by done. rewrite IH, !stored_cons. apply of_pair_true in Ep as [<- <-]. destruct (decide (j = sr_guid r)) as [->|Hne].
    + case_decide; [|done]. symmetry. apply delete_insert_eq.
    + rewrite (decide_False (P := sr_guid r = j /\ _)) by (intros [? _]; congruence). done.
  - rewrite decide_True by done. rewrite !stored_cons, IH. destruct (decide (j = me)) as [->|Hne]; [|done]. case_decide as H; [|done].
    rewrite delete_insert_ne; [done|]. intros ->. destruct H as [H _]. assert (H' : of_pair me (sr_friend r) r = true) by now apply of_pair_true. congruence.
Qed.
Lemma stored_lookup_none me f t : stored me t !! f = None -> undeleted f = true -> forall r, r ∈ t -> of_pair me f r = false.
Proof.
  intros H Ha r Hr. destruct (of_pair me f r) eqn:Ep; [|done]. apply of_pair_true in Ep as [Eg Ef]. exfalso.
  apply not_elem_of_list_to_map_2 in H. apply H. rewrite <- Ef. change (list_fmap _ _ fst ?l) with (map fst l). rewrite map_map. cbn. apply list_elem_of_fmap_2.
  unfold visible. apply list_elem_of_filter. split; [|done]. split; [done|]. now rewrite Ef.
Qed.
Lemma stored_append me f fl t j :
  stored me t !! f = None -> undeleted f = true ->
  stored j (t ++ [mkSocialRow me f fl []]) = if decide (j = me) then <[f := (fl, [])]> (stored me t) else stored j t.
Proof.
  intros H Ha. unfold stored, visible. rewrite filter_app, filter_cons, filter_nil. destruct (decide (j = me)) as [->|Hne].
  - rewrite decide_True by done. unfold stored_rows. rewrite map_app. cbn [map]. apply list_to_map_snoc. now apply not_elem_of_list_to_map_2.
  - rewrite decide_False by (cbn; intros [? _]; congruence). now rewrite app_nil_r.
Qed.

(** ** Counting *)

Lemma listed_insert flag f p m : count flag (<[f := p]> m) <= count flag m + 1.
Proof.
  unfold count. rewrite map_filter_insert. case_decide.
  - rewrite map_size_insert. case_match; unfold id; lia.
  - assert (H1 : filter (flagged flag) (delete f m) ⊆ filter (flagged flag) m) by apply map_filter_subseteq_mono, delete_subseteq.
    apply map_subseteq_size in H1. lia.
Qed.
Lemma count_insert_le flag f p m :
  (flagged flag (f, p) -> exists q, m !! f = Some q /\ flagged flag (f, q)) -> count flag (<[f := p]> m) <= count flag m.
Proof.
  intros H. unfold count. rewrite map_filter_insert. case_decide as Hf.
  - destruct (H Hf) as (q & Hq & Hfq). rewrite map_size_insert, (map_lookup_filter_Some_2 _ _ _ q) by done. unfold id. lia.
  - assert (H1 : filter (flagged flag) (delete f m) ⊆ filter (flagged flag) m) by apply map_filter_subseteq_mono, delete_subseteq.
    apply map_subseteq_size in H1. lia.
Qed.
Lemma listed_delete flag f m : count flag (delete f m) <= count flag m.
Proof.
  unfold count. assert (H1 : filter (flagged flag) (delete f m) ⊆ filter (flagged flag) m) by apply map_filter_subseteq_mono, delete_subseteq.
  apply map_subseteq_size in H1. lia.
Qed.
Definition flags_ok (fl : Z) : Prop := 1 <= fl <= 3.
Lemma flags_either fl : flags_ok fl -> Z.land fl 1 <> 0 \/ Z.land fl 2 <> 0.
Proof. intros H. assert (fl = 1 \/ fl = 2 \/ fl = 3) as [->|[->| ->]] by (unfold flags_ok in H; lia); [left|right|left]; vm_compute; congruence. Qed.
Lemma size_counts m : (forall f p, m !! f = Some p -> flags_ok p.1) -> Z.of_nat (base.size m) <= count 1 m + count 2 m.
Proof.
  intros H. rewrite <- (map_filter_union_complement (flagged 1) m) at 1. rewrite map_size_disj_union by apply map_disjoint_filter_complement.
  unfold count. assert (H1 : filter (fun v => ~ flagged 1 v) m ⊆ filter (flagged 2) m).
  { apply map_subseteq_spec. intros f p. rewrite !map_lookup_filter_Some. intros [Hp Hn]. split; [done|]. destruct (flags_either p.1 (H f p Hp)) as [H1|H2]; [now destruct Hn|exact H2]. }
  apply map_subseteq_size in H1. lia.
Qed.
Lemma entries_perm {A} (m : gmap Z A) : entries Z.le m ≡ₚ map_to_list m.
Proof.
  apply NoDup_Permutation; [apply NoDup_fmap_1 with (f := fst), NoDup_entries_fst|apply NoDup_map_to_list|].
  intros [k v]. rewrite elem_of_entries. symmetry. apply elem_of_map_to_list.
Qed.
Definition short_notes (m : gmap Z FriendInfo) : Prop := forall f fi, m !! f = Some fi -> zlen (Note fi) <= TEXT_LIMIT.
Lemma short_insert m f fi : short_notes m -> zlen (Note fi) <= TEXT_LIMIT -> short_notes (<[f := fi]> m).
Proof. intros H Hf i x [[_ <-]|[_ Hx]]%lookup_insert_Some; [done|now apply (H i)]. Qed.
Lemma number_count s flag : is_u 32 (count flag (saved (m_playerSocialMap s))) -> GetNumberOfSocialsWithFlag s flag = count flag (saved (m_playerSocialMap s)).
Proof.
  intros H. rewrite <- (uwrap_id 32 (count _ _) H). unfold GetNumberOfSocialsWithFlag, zlen, count. f_equal. f_equal. rewrite entries_perm. clear H.
  generalize (m_playerSocialMap s) as m. intros m. induction m as [|f fi m Hf IH] using map_ind.
  { unfold saved. rewrite fmap_empty, map_to_list_empty, map_filter_empty, map_size_empty. done. }
  rewrite map_to_list_insert by done. unfold saved in *. rewrite fmap_insert, filter_cons, map_filter_insert.
  assert (Hn : (fun fi => (Flags fi, held NOTE_COLUMN (Note fi))) <$> m !! f = None) by now rewrite Hf.
  assert (E : flagged flag (f, (Flags fi, held NOTE_COLUMN (Note fi))) <-> has_flag flag fi = true) by (unfold flagged, has_flag; cbn; rewrite negb_true_iff, Z.eqb_neq; done).
  cbn [snd]. destruct (decide (has_flag flag fi = true)) as [H|H].
  - rewrite decide_True by now apply E. cbn [length]. rewrite IH, map_size_insert_None; [done|]. apply map_lookup_filter_None_2. left. now rewrite lookup_fmap.
  - rewrite decide_False by now rewrite E. rewrite IH, delete_id; [done|]. now rewrite lookup_fmap.
Qed.

(** ** The lists and the table agree *)

(** An entry of the table: its flags, and a note as the column holds it. *)
Definition entry_ok (p : Z * list Z) : Prop := flags_ok p.1 /\ held NOTE_COLUMN p.2 = p.2 /\ zlen p.2 <= TEXT_LIMIT.
Record lists_ok (w : SW) : Prop := mk_lists_ok {
  lo_keys : NoDup (map row_key (character_social w));
  lo_entries me f p : stored me (character_social w) !! f = Some p -> entry_ok p;
  lo_limits me : count SOCIAL_FLAG_FRIEND (stored me (character_social w)) <= SOCIALMGR_FRIEND_LIMIT /\
                 count SOCIAL_FLAG_IGNORED (stored me (character_social w)) <= SOCIALMGR_IGNORE_LIMIT;
  lo_lists me s : m_socialMap w !! me = Some s -> m_playerGUID s = me /\ saved (m_playerSocialMap s) = stored me (character_social w);
  lo_notes me s : m_socialMap w !! me = Some s -> short_notes (m_playerSocialMap s)
}.
Lemma lo_flags w : lists_ok w -> forall me f p, stored me (character_social w) !! f = Some p -> flags_ok p.1.
Proof. intros H me f p Hp. now apply (lo_entries w H me f p). Qed.
Definition list_at (me : Z) (m : SocialMapping) (j : Z) (t : list SocialRow) : SocialMapping := if decide (j = me) then m else stored j t.
(** The list of one player is [m] now, in memory and in the table. *)
Lemma commit w me m ms t' :
  lists_ok w -> NoDup (map row_key t') -> (forall j, stored j t' = list_at me m j (character_social w)) ->
  (forall f p, m !! f = Some p -> entry_ok p) -> count SOCIAL_FLAG_FRIEND m <= SOCIALMGR_FRIEND_LIMIT -> count SOCIAL_FLAG_IGNORED m <= SOCIALMGR_IGNORE_LIMIT ->
  saved ms = m -> short_notes ms ->
  lists_ok (mkSW (alter (fun s => mkPlayerSocial ms (m_playerGUID s)) me (m_socialMap w)) t' (s_players w) (s_sessions w) (s_sent w)).
Proof.
  intros [Hk Hf Hl Hls Hns] Hk' Ht Hfm H1 H2 Hms Hshort. split; cbn [character_social m_socialMap]; [done| | | |].
  - intros j f p. rewrite Ht. unfold list_at. case_decide; [apply Hfm|apply Hf].
  - intros j. rewrite Ht. unfold list_at. case_decide; [done|apply Hl].
  - intros j s. rewrite Ht. unfold list_at. destruct (decide (j = me)) as [->|Hne].
    + rewrite lookup_alter_eq. destruct (m_socialMap w !! me) as [s0|] eqn:E; [|done]. cbn. intros [= <-]. cbn. split; [now apply (Hls me s0)|done].
    + rewrite lookup_alter_ne by done. apply Hls.
  - intros j s. destruct (decide (j = me)) as [->|Hne]; [|rewrite lookup_alter_ne by done; apply Hns].
    rewrite lookup_alter_eq. destruct (m_socialMap w !! me); [|done]. cbn. intros [= <-]. exact Hshort.
Qed.
Lemma saved_lookup m f : saved m !! f = (fun fi => (Flags fi, held NOTE_COLUMN (Note fi))) <$> m !! f.
Proof. apply lookup_fmap. Qed.
Lemma saved_insert m f fi : saved (<[f := fi]> m) = <[f := (Flags fi, held NOTE_COLUMN (Note fi))]> (saved m).
Proof. unfold saved. now rewrite fmap_insert. Qed.
Lemma saved_delete m f : saved (delete f m) = delete f (saved m).
Proof. unfold saved. now rewrite fmap_delete. Qed.

(** The world between two requests, but for the lists. *)
Definition frame (ps : gmap Z SocialPlayer) (ss : gmap Z Session) (w : SW) : Prop :=
  s_players w = ps /\ s_sessions w = ss /\ forall me, is_Some (ps !! me) <-> is_Some (m_socialMap w !! me).
Definition inside (ps : gmap Z SocialPlayer) (ss : gmap Z Session) (w : SW) : Prop := lists_ok w /\ frame ps ss w.

Lemma frame_alter ps ss w me g t' sent :
  frame ps ss w -> frame ps ss (mkSW (alter g me (m_socialMap w)) t' (s_players w) (s_sessions w) sent).
Proof.
  intros (H1 & H2 & H3). split_and!; try done. intros j. cbn. rewrite H3. destruct (decide (j = me)) as [->|Hne].
  - rewrite lookup_alter_eq. now rewrite fmap_is_Some.
  - now rewrite lookup_alter_ne.
Qed.
Lemma social_at ps ss w me : inside ps ss w -> is_Some (ps !! me) ->
  exists s, m_socialMap w !! me = Some s /\ GetSocial me w = (Ret s, w) /\ m_playerGUID s = me /\ saved (m_playerSocialMap s) = stored me (character_social w).
Proof.
  intros [Hl (_ & _ & Hm)] Hp. destruct (proj1 (Hm me) Hp) as [s Hs]. exists s. split; [done|]. split; [unfold GetSocial, bind, gets; now rewrite Hs|]. now apply (lo_lists w Hl).
Qed.
Lemma alter_set me f fi s (m : gmap Z PlayerSocial) : m !! me = Some s ->
  alter (fun s => mkPlayerSocial (<[f := fi]> (m_playerSocialMap s)) (m_playerGUID s)) me m = alter (fun s' => mkPlayerSocial (<[f := fi]> (m_playerSocialMap s)) (m_playerGUID s')) me m.
Proof. intros Hs. apply alter_ext. intros s' Hs'. congruence. Qed.

Lemma flag_land (b : bool) fl : Z.land (Z.lor fl (flag_of b)) (flag_of (negb b)) = Z.land fl (flag_of (negb b)).
Proof. rewrite Z.land_lor_distr_l. destruct b; apply Z.lor_0_r. Qed.
Lemma flags_lor (b : bool) fl : flags_ok fl -> flags_ok (Z.lor fl (flag_of b)) /\ u8 (Z.lor fl (flag_of b)) = Z.lor fl (flag_of b).
Proof.
  intros H. assert (fl = 1 \/ fl = 2 \/ fl = 3) as [->|[->| ->]] by (unfold flags_ok in H; lia); destruct b; vm_compute; intuition congruence.
Qed.
Lemma flags_ldiff (b : bool) fl : flags_ok fl ->
  u8 (Z.ldiff fl (flag_of b)) = Z.ldiff fl (flag_of b) /\ (Z.ldiff fl (flag_of b) = 0 \/ flags_ok (Z.ldiff fl (flag_of b))) /\
  forall c, Z.land (Z.ldiff fl (flag_of b)) (flag_of c) <> 0 -> Z.land fl (flag_of c) <> 0.
Proof.
  intros H. assert (fl = 1 \/ fl = 2 \/ fl = 3) as [->|[->| ->]] by (unfold flags_ok in H; lia); destruct b; vm_compute;
    (split; [done|split; [first [now left|right; split; congruence]|intros []; congruence]]).
Qed.
Lemma count_add (b c : bool) m f fl n : fl = 0 \/ (exists n', m !! f = Some (fl, n')) ->
  count (flag_of c) (<[f := (Z.lor fl (flag_of b), n)]> m) <= count (flag_of c) m + (if decide (c = b) then 1 else 0).
Proof.
  intros H. case_decide as E; [apply listed_insert|]. rewrite Z.add_0_r. apply count_insert_le. unfold flagged. cbn. assert (c = negb b) as -> by (now destruct b, c).
  rewrite flag_land. intros Hn. destruct H as [->|[n' H]]; [now rewrite Z.land_0_l in Hn|]. exists (fl, n'). now split.
Qed.
Lemma list_limits ps ss w me c : inside ps ss w -> 0 <= count (flag_of c) (stored me (character_social w)) <= 50.
Proof. intros [Hl _]. destruct (lo_limits w Hl me). split; [unfold count; lia|]. destruct c; assumption. Qed.
Lemma not_full ps ss w me s b : inside ps ss w -> saved (m_playerSocialMap s) = stored me (character_social w) ->
  list_full s b = (50 <=? count (flag_of b) (stored me (character_social w))).
Proof.
  intros H E. pose proof (list_limits ps ss w me b H) as Hb. unfold list_full. destruct b; rewrite number_count, E; try done; rewrite E; unfold is_u; cbn [flag_of] in Hb; lia.
Qed.

(** A program that keeps [P], or ends the server where [C] holds. *)
Definition may {A} (C : Prop) (P : SW -> Prop) (m : SA A) : Prop := forall w, P w -> (exists a w', m w = (Ret a, w') /\ P w') \/ C /\ (m w).1 = Crash.
Lemma may_keeps {A} C P (m : SA A) : keeps P m -> may C P m.
Proof. intros H w Hw. left. now apply H. Qed.
Lemma may_bind {A B} C P (m : SA A) (k : A -> SA B) : may C P m -> (forall a, may C P (k a)) -> may C P (let! a := m in k a).
Proof.
  intros Hm Hk w Hw. destruct (Hm w Hw) as [(a & w1 & E & H1)|[Hc E]].
  - rewrite (bind_ret _ _ _ _ _ E). now apply Hk.
  - right. split; [done|]. unfold bind. destruct (m w) as [o w']. cbn in E. now subst o.
Qed.
Lemma keeps_Add ps ss me f b : is_Some (ps !! me) -> undeleted f = true -> keeps (inside ps ss) (AddToSocialList me f b).
Proof.
  intros Hme Hf w H. destruct (social_at ps ss w me H Hme) as (s & Hs & Eg & Em & Es). pose proof H as [Hl Hfr].
  unfold AddToSocialList. rewrite (bind_ret _ _ _ _ _ Eg), (not_full ps ss w me s b H Es). destruct (Z.leb_spec 50 (count (flag_of b) (stored me (character_social w)))) as [Hfull|Hfull]; [now exists false, w|].
  assert (Hcount : forall fl n, fl = 0 \/ (exists n', stored me (character_social w) !! f = Some (fl, n')) ->
            forall c, count (flag_of c) (<[f := (Z.lor fl (flag_of b), n)]> (stored me (character_social w))) <= 50).
  { intros fl n Hfl c. pose proof (count_add b c (stored me (character_social w)) f fl n Hfl) as Hc. pose proof (list_limits ps ss w me c H). destruct (decide (c = b)) as [->|]; lia. }
  rewrite Em. pose proof (saved_lookup (m_playerSocialMap s) f) as Hsaved. rewrite Es in Hsaved.
  destruct (m_playerSocialMap s !! f) as [fi|] eqn:Efi; cbn in Hsaved.
  - destruct (flags_lor b (Flags fi) (lo_flags w Hl me f _ Hsaved)) as [Hok Eu]. eexists true, _. split; [reflexivity|]. split; [|now apply frame_alter].
    cbn [m_socialMap with_table]. rewrite (alter_set me f _ s (m_socialMap w) Hs), Eu.
    apply (commit w me (<[f := (Z.lor (Flags fi) (flag_of b), held NOTE_COLUMN (Note fi))]> (stored me (character_social w)))); try done.
    + exact (eq_ind_r _ (lo_keys w Hl) (keys_update me f (fun p => (Z.lor p.1 (flag_of b), p.2)) _)).
    + intros j. etransitivity; [exact (stored_update me f (fun p => (Z.lor p.1 (flag_of b), p.2)) _ j)|]. unfold list_at. case_decide; [|done]. subst j. apply map_eq. intros i. destruct (decide (i = f)) as [->|].
      * now rewrite lookup_alter_eq, lookup_insert_eq, Hsaved.
      * now rewrite lookup_alter_ne, lookup_insert_ne by done.
    + intros i p. rewrite lookup_insert_Some. intros [[<- <-]|[_ Hp]]; [split; [exact Hok|exact (proj2 (lo_entries w Hl me f _ Hsaved))]|now apply (lo_entries w Hl me i)].
    + apply (Hcount (Flags fi) (held NOTE_COLUMN (Note fi)) ltac:(right; eauto) false).
    + apply (Hcount (Flags fi) (held NOTE_COLUMN (Note fi)) ltac:(right; eauto) true).
    + rewrite saved_insert, Es. reflexivity.
    + apply short_insert; [exact (lo_notes w Hl me s Hs)|exact (lo_notes w Hl me s Hs f fi Efi)].
  - assert (Hno : existsb (fun r => of_pair me f r && (sr_flags r =? flag_of b)) (character_social w) = false).
    { apply not_true_is_false. intros (r & Hr & [Hp _]%andb_prop)%existsb_exists. rewrite <- list_elem_of_In in Hr. now rewrite (stored_lookup_none me f _ Hsaved Hf r Hr) in Hp. }
    eexists true, _. split; [unfold INS_CHARACTER_SOCIAL, bind, modify, set_entry, ret; rewrite Hno; reflexivity|]. split; [|now apply frame_alter].
    cbn [m_socialMap with_table]. rewrite (alter_set me f _ s (m_socialMap w) Hs).
    apply (commit w me (<[f := (flag_of b, [])]> (stored me (character_social w)))); try done.
    + cbn [character_social with_table]. rewrite map_app. apply NoDup_app. split; [apply Hl|]. split; [|apply NoDup_singleton]. intros k Hk Ek%list_elem_of_singleton. subst k.
      apply list_elem_of_fmap in Hk as (r & Ek & Hr). pose proof (stored_lookup_none me f _ Hsaved Hf r Hr) as Hp. injection Ek as E1 E2.
      assert (Hp' : of_pair me f r = true) by now apply of_pair_true. congruence.
    + intros j. cbn [character_social with_table]. rewrite stored_append by done. reflexivity.
    + intros i p. rewrite lookup_insert_Some. intros [[<- <-]|[_ Hp]]; [split; [destruct b; vm_compute; split; congruence|split; [apply held_nil|vm_compute; congruence]]|now apply (lo_entries w Hl me i)].
    + apply (Hcount 0 [] ltac:(now left) false).
    + apply (Hcount 0 [] ltac:(now left) true).
    + rewrite saved_insert, Es. cbn [Note new_friend]. rewrite held_nil. now destruct b.
    + apply short_insert; [exact (lo_notes w Hl me s Hs)|vm_compute; congruence].
Qed.
Lemma NoDup_map_filter {A B} (g : A -> B) (P : A -> Prop) `{forall x, Decision (P x)} (l : list A) : NoDup (map g l) -> NoDup (map g (filter P l)).
Proof.
  induction l as [|x l IH]; [done|]. cbn [map]. intros [Hx Hl]%NoDup_cons. rewrite filter_cons. case_decide; [|now apply IH]. cbn [map]. constructor; [|now apply IH].
  intros (y & E & [_ Hy]%list_elem_of_filter)%list_elem_of_fmap. apply Hx. rewrite E. now apply list_elem_of_fmap_2.
Qed.
(** A world written out. *)
Ltac world_parts := unfold with_socials, with_table, with_players, with_session; cbn [m_socialMap s_players s_sessions s_sent character_social].
Lemma keeps_Remove ps ss me f b : is_Some (ps !! me) -> keeps (inside ps ss) (RemoveFromSocialList me f b).
Proof.
  intros Hme w H. destruct (social_at ps ss w me H Hme) as (s & Hs & Eg & Em & Es). pose proof H as [Hl Hfr].
  unfold RemoveFromSocialList. rewrite (bind_ret _ _ _ _ _ Eg), Em. pose proof (saved_lookup (m_playerSocialMap s) f) as Hsaved. rewrite Es in Hsaved.
  destruct (m_playerSocialMap s !! f) as [fi|] eqn:Efi; [|now exists tt, w]. cbn in Hsaved.
  destruct (flags_ldiff b (Flags fi) (lo_flags w Hl me f _ Hsaved)) as (Eu & Hok & Hland). cbn [Flags set_flags]. rewrite Eu.
  pose proof (list_limits ps ss w me false H) as H1. pose proof (list_limits ps ss w me true H) as H2.
  destruct (Z.eqb_spec (Z.ldiff (Flags fi) (flag_of b)) 0) as [E0|E0].
  - eexists tt, _. split; [reflexivity|]. world_parts. rewrite alter_alter_eq.
    split; [|now apply frame_alter].
    rewrite (alter_ext _ (fun s' => mkPlayerSocial (delete f (m_playerSocialMap s)) (m_playerGUID s')) (m_socialMap w) me).
    2:{ intros s' Hs'. cbn. rewrite delete_insert_eq. congruence. }
    apply (commit w me (delete f (stored me (character_social w)))); try done.
    + apply NoDup_map_filter, Hl.
    + intros j. apply stored_delete.
    + intros i p [_ Hp]%lookup_delete_Some. now apply (lo_entries w Hl me i).
    + pose proof (listed_delete SOCIAL_FLAG_FRIEND f (stored me (character_social w))). cbn [flag_of] in H1. unfold SOCIALMGR_FRIEND_LIMIT. lia.
    + pose proof (listed_delete SOCIAL_FLAG_IGNORED f (stored me (character_social w))). cbn [flag_of] in H2. unfold SOCIALMGR_IGNORE_LIMIT. lia.
    + now rewrite saved_delete, Es.
    + intros i x [_ Hx]%lookup_delete_Some. now apply (lo_notes w Hl me s Hs i).
  - destruct Hok as [|Hok]; [done|]. eexists tt, _. split; [reflexivity|]. world_parts. split; [|now apply frame_alter].
    rewrite (alter_set me f _ s (m_socialMap w) Hs).
    assert (Hc : forall c, count (flag_of c) (<[f := (Z.ldiff (Flags fi) (flag_of b), held NOTE_COLUMN (Note fi))]> (stored me (character_social w))) <= 50).
    { intros c. pose proof (list_limits ps ss w me c H). etransitivity; [apply count_insert_le|]; [|lia]. intros Hfl. exists (Flags fi, held NOTE_COLUMN (Note fi)). split; [done|]. now apply Hland. }
    apply (commit w me (<[f := (Z.ldiff (Flags fi) (flag_of b), held NOTE_COLUMN (Note fi))]> (stored me (character_social w)))); try done.
    + exact (eq_ind_r _ (lo_keys w Hl) (keys_update me f (fun p => (Z.ldiff p.1 (flag_of b), p.2)) _)).
    + intros j. etransitivity; [exact (stored_update me f (fun p => (Z.ldiff p.1 (flag_of b), p.2)) _ j)|]. unfold list_at. case_decide; [|done]. subst j.
      apply map_eq. intros i. destruct (decide (i = f)) as [->|]; [now rewrite lookup_alter_eq, lookup_insert_eq, Hsaved|now rewrite lookup_alter_ne, lookup_insert_ne by done].
    + intros i p. rewrite lookup_insert_Some. intros [[<- <-]|[_ Hp]]; [split; [exact Hok|exact (proj2 (lo_entries w Hl me f _ Hsaved))]|now apply (lo_entries w Hl me i)].
    + exact (Hc false).
    + exact (Hc true).
    + now rewrite saved_insert, Es.
    + apply short_insert; [exact (lo_notes w Hl me s Hs)|exact (lo_notes w Hl me s Hs f fi Efi)].
Qed.
(** A note that overflows the buffer of [utf8truncate] and is for somebody on the list
    ends the program; every other one keeps the invariant. *)
Definition overflows (note : list Z) : Prop := utf8truncate note 48 = None.
Lemma truncate_short note n : utf8truncate note 48 = Some n -> zlen n <= zlen note.
Proof.
  assert (H0 : 0 <= zlen note) by (unfold zlen; lia). assert (H1 : zlen (@nil Z) = 0) by done. unfold utf8truncate. destruct (utf8_distance note) as [k|]; [|intros [= <-]; lia].
  case_if; [intros [= <-]; lia|]. destruct (utf8to16 note) as [u|]; [|intros [= <-]; lia]. case_if; [done|].
  destruct (utf16to8 _) as [o|]; [|intros [= <-]; lia]. destruct (Z.ltb_spec (zlen note) (zlen o)); [done|]. now intros [= <-].
Qed.
Lemma may_Note ps ss me f note : is_Some (ps !! me) -> zlen note <= TEXT_LIMIT -> may (overflows note) (inside ps ss) (SetFriendNote me f note).
Proof.
  intros Hme Hsize w H. destruct (social_at ps ss w me H Hme) as (s & Hs & Eg & Em & Es). pose proof H as [Hl Hfr].
  unfold SetFriendNote. rewrite (bind_ret _ _ _ _ _ Eg), Em. pose proof (saved_lookup (m_playerSocialMap s) f) as Hsaved. rewrite Es in Hsaved.
  destruct (m_playerSocialMap s !! f) as [fi|] eqn:Efi; [|left; now exists tt, w]. cbn in Hsaved. unfold overflows. destruct (utf8truncate note 48) as [n|] eqn:En; [|now right].
  pose proof (truncate_short note n En) as Hshort.
  left. eexists tt, _. split; [reflexivity|]. world_parts. split; [|now apply frame_alter].
  rewrite (alter_set me f _ s (m_socialMap w) Hs).
  assert (Hc : forall c, count (flag_of c) (<[f := (Flags fi, held NOTE_COLUMN n)]> (stored me (character_social w))) <= 50).
  { intros c. pose proof (list_limits ps ss w me c H). etransitivity; [apply count_insert_le|]; [|lia]. intros Hfl. now exists (Flags fi, held NOTE_COLUMN (Note fi)). }
  apply (commit w me (<[f := (Flags fi, held NOTE_COLUMN n)]> (stored me (character_social w)))); try done.
  - exact (eq_ind_r _ (lo_keys w Hl) (keys_update me f (fun p => (p.1, held NOTE_COLUMN n)) _)).
  - intros j. etransitivity; [exact (stored_update me f (fun p => (p.1, held NOTE_COLUMN n)) _ j)|]. unfold list_at. case_decide; [|done]. subst j.
    apply map_eq. intros i. destruct (decide (i = f)) as [->|]; [now rewrite lookup_alter_eq, lookup_insert_eq, Hsaved|now rewrite lookup_alter_ne, lookup_insert_ne by done].
  - intros i p. rewrite lookup_insert_Some. intros [[<- <-]|[_ Hp]]; [|now apply (lo_entries w Hl me i)].
    pose proof (held_less NOTE_COLUMN n). split; [exact (lo_flags w Hl me f _ Hsaved)|split; [apply held_again|cbn; lia]].
  - exact (Hc false).
  - exact (Hc true).
  - now rewrite saved_insert, Es.
  - apply short_insert; [exact (lo_notes w Hl me s Hs)|cbn; lia].
Qed.

(** ** What is sent, and brought up to date *)

Lemma inside_sent ps ss w sent : inside ps ss w -> inside ps ss (mkSW (m_socialMap w) (character_social w) (s_players w) (s_sessions w) sent).
Proof. intros [[H1 H2 H3 H4 H5] H]. now split; [split|]. Qed.
Lemma keeps_Send ps ss to p : keeps (inside ps ss) (SendPacket to p).
Proof. apply keeps_modify. intros w H. now apply inside_sent. Qed.
Lemma FindPlayer_eq g (w : SW) : exists o, FindPlayer g w = (Ret o, w).
Proof. unfold FindPlayer, bind, gets. now eexists. Qed.
Lemma keeps_FindPlayer ps ss g : keeps (inside ps ss) (FindPlayer g).
Proof. intros w H. destruct (FindPlayer_eq g w) as [o E]. now exists o, w. Qed.
Lemma player_eq ps ss me w : inside ps ss w -> is_Some (ps !! me) -> exists p, player_at me w = (Ret p, w).
Proof. intros [_ (<- & _)] [p Hp]. exists p. unfold player_at, bind, gets. now rewrite Hp. Qed.

Lemma GetFriendInfo_keeps ps ss w me f fi :
  inside ps ss w -> is_Some (ps !! me) -> exists fi', GetFriendInfo me f fi w = (Ret fi', w) /\ Flags fi' = Flags fi /\
    (forall p, stored me (character_social w) !! f = Some p -> held NOTE_COLUMN (Note fi) = p.2 -> held NOTE_COLUMN (Note fi') = p.2) /\
    (zlen (Note fi) <= TEXT_LIMIT -> zlen (Note fi') <= TEXT_LIMIT).
Proof.
  intros H Hme. destruct (social_at ps ss w me H Hme) as (s & Hs & Eg & Em & Es). destruct (player_eq ps ss me w H Hme) as [p Ep].
  unfold GetFriendInfo. destruct (FindPlayer_eq f w) as [o Eo]. rewrite (bind_ret _ _ _ _ _ Eo). destruct o as [t|]; [|now eexists].
  rewrite (bind_ret _ _ _ _ _ Eg), (bind_ret _ _ _ _ _ Ep). pose proof (saved_lookup (m_playerSocialMap s) f) as Hsaved. rewrite Es in Hsaved.
  set (fi1 := match m_playerSocialMap s !! f with Some i => _ | None => _ end).
  assert (H1 : Flags fi1 = Flags fi /\ (forall p, stored me (character_social w) !! f = Some p -> held NOTE_COLUMN (Note fi) = p.2 -> held NOTE_COLUMN (Note fi1) = p.2) /\
    (zlen (Note fi) <= TEXT_LIMIT -> zlen (Note fi1) <= TEXT_LIMIT)).
  { unfold fi1. destruct (m_playerSocialMap s !! f) as [i|] eqn:Ei; [|done]. split; [done|]. cbn in Hsaved. split; [intros q Hq _; rewrite Hsaved in Hq; now injection Hq as <-|].
    intros _. exact (lo_notes w (proj1 H) me s Hs f i Ei). }
  destruct H1 as (H1 & H2 & H3). repeat case_if; eexists; (split; [reflexivity|now split_and!]).
Qed.
Lemma stored_set ps ss w me f fi :
  inside ps ss w -> is_Some (ps !! me) -> stored me (character_social w) !! f = Some (Flags fi, held NOTE_COLUMN (Note fi)) -> zlen (Note fi) <= TEXT_LIMIT ->
  exists w', set_entry me f fi w = (Ret tt, w') /\ inside ps ss w' /\ character_social w' = character_social w.
Proof.
  intros H Hme Hp Hn. destruct (social_at ps ss w me H Hme) as (s & Hs & Eg & Em & Es). pose proof H as [Hl Hfr].
  eexists. split; [reflexivity|]. world_parts. split; [|done]. split; [|now apply frame_alter]. rewrite (alter_set me f _ s (m_socialMap w) Hs).
  apply (commit w me (stored me (character_social w))); try apply Hl.
  - intros j. unfold list_at. case_decide; congruence.
  - now rewrite saved_insert, Es, insert_id.
  - apply short_insert; [exact (lo_notes w Hl me s Hs)|done].
Qed.
Definition on_list_now (M : SocialMapping) (e : Z * FriendInfo) : Prop := M !! e.1 = Some (Flags e.2, held NOTE_COLUMN (Note e.2)) /\ zlen (Note e.2) <= TEXT_LIMIT.
Lemma refresh_list ps ss me M l : is_Some (ps !! me) -> forall acc w,
  Forall (on_list_now M) l -> Forall (fun e => zlen (Note e.2) <= TEXT_LIMIT) acc -> inside ps ss w -> stored me (character_social w) = M ->
  exists l' w', fold_m (refresh me) l acc w = (Ret l', w') /\ inside ps ss w' /\ length l' = (length acc + length l)%nat /\ Forall (fun e => zlen (Note e.2) <= TEXT_LIMIT) l'.
Proof.
  intros Hme. induction l as [|[f fi] l IH]; intros acc w Hl Hacc H HM; cbn [fold_m]; [exists acc, w; cbn; split_and!; try done; lia|].
  apply Forall_cons in Hl as [[Hf Hs] Hl]. cbn [fst snd] in *. unfold refresh at 1. cbn [fst snd].
  destruct (GetFriendInfo_keeps ps ss w me f fi H Hme) as (fi' & E & Ef & En & Es).
  rewrite HM in En. specialize (En _ Hf eq_refl). specialize (Es Hs). cbn in En.
  destruct (stored_set ps ss w me f fi' H Hme) as (w' & E' & H' & Et); [rewrite HM, Hf, Ef, En; done|done|].
  destruct (IH (acc ++ [(f, fi')]) w' Hl) as (l' & w2 & E2 & H2 & Elen & Hl'); [apply Forall_app; now split; [|apply Forall_singleton]|done|now rewrite Et|].
  exists l', w2. split; [|split; [done|split; [rewrite Elen, length_app; cbn; lia|done]]].
  unfold bind at 1. unfold bind at 1. rewrite E. unfold bind at 1. rewrite E'. exact E2.
Qed.

(** ** The packets have room *)

Definition entry_size (fi : FriendInfo) : Z := zlen (Note fi) + 26.
Lemma fits_entry g fi : fits (entry_size fi) (write_entry g fi).
Proof.
  apply (fits_mono (8 + (4 + (zlen (Note fi) + 1 + (1 + (4 + (4 + 4))))))); [|unfold entry_size; lia]. assert (0 <= zlen (Note fi)) by (unfold zlen; lia).
  unfold write_entry. do 3 (apply fits_seq; [lia|auto with trinity|]).
  apply fits_if; [|apply (fits_mono 0); [apply fits_ret|lia]]. apply fits_seq; [lia|auto with trinity|].
  apply fits_if; [|apply (fits_mono 0); [apply fits_ret|lia]]. do 2 (apply fits_seq; [lia|auto with trinity|]). auto with trinity.
Qed.
Lemma contact_list_intact l : zlen l <= 100 -> Forall (fun e => zlen (Note e.2) <= TEXT_LIMIT) l -> intact (contact_list l).
Proof.
  intros Hn Hl. assert (H : fits (zlen l * (TEXT_LIMIT + 26)) (write_all (fun e => write_entry e.1 e.2) l)).
  { apply fits_all; [unfold TEXT_LIMIT; lia|]. intros e He. rewrite Forall_forall in Hl. specialize (Hl e He). apply (fits_mono (entry_size e.2)); [apply fits_entry|unfold entry_size; lia]. }
  unfold contact_list. apply (fits_new _ (4 + (4 + zlen l * (TEXT_LIMIT + 26)))); [|unfold TEXT_LIMIT; lia].
  assert (0 <= zlen l * (TEXT_LIMIT + 26)) by (unfold zlen, TEXT_LIMIT; lia). do 2 (apply fits_seq; [lia|auto with trinity|]). exact H.
Qed.
Lemma friend_status_intact r g fi : zlen (Note fi) <= TEXT_LIMIT -> intact (friend_status r g fi).
Proof.
  intros H. assert (0 <= zlen (Note fi)) by (unfold zlen; lia). unfold friend_status. apply (fits_new _ (1 + 8 + ((zlen (Note fi) + 1) + (1 + (4 + (4 + 4)))))); [|unfold TEXT_LIMIT in H; lia].
  apply fits_seq; [lia|apply fits_seq; [lia|auto with trinity..]|]. apply fits_seq; [lia| |].
  - destruct r; try (apply (fits_mono 0); [apply fits_ret|lia]); auto with trinity.
  - destruct r; try (apply (fits_mono 0); [apply fits_ret|lia]); (do 3 (apply fits_seq; [lia|auto with trinity|]); auto with trinity).
Qed.
Lemma entries_count (m : gmap Z FriendInfo) me w : lists_ok w -> saved m = stored me (character_social w) -> zlen (entries Z.le m) <= 100.
Proof.
  intros Hl E. pose proof (size_counts (stored me (character_social w)) (lo_flags w Hl me)) as H. destruct (lo_limits w Hl me).
  rewrite <- E in H. unfold saved in H. rewrite map_size_fmap in H. unfold zlen. rewrite entries_perm, length_map_to_list.
  unfold saved, SOCIALMGR_FRIEND_LIMIT, SOCIALMGR_IGNORE_LIMIT, SOCIAL_FLAG_FRIEND, SOCIAL_FLAG_IGNORED in *. rewrite <- E in *. lia.
Qed.
Lemma keeps_SendSocialList ps ss me : is_Some (ps !! me) -> keeps (inside ps ss) (SendSocialList me).
Proof.
  intros Hme w H. destruct (social_at ps ss w me H Hme) as (s & Hs & Eg & Em & Es). unfold SendSocialList. rewrite (bind_ret _ _ _ _ _ Eg).
  destruct (refresh_list ps ss me (stored me (character_social w)) (entries Z.le (m_playerSocialMap s)) Hme [] w) as (l & w1 & E1 & H1 & El & Hl); [|constructor|done|done|].
  { apply Forall_forall. intros [f fi] He%elem_of_entries. split; [rewrite <- Es, saved_lookup; cbn in *; now rewrite He|exact (lo_notes w (proj1 H) me s Hs f fi He)]. }
  rewrite (bind_ret _ _ _ _ _ E1). pose proof (entries_count _ me w (proj1 H) Es) as Hn. unfold zlen in Hn. cbn in El. rewrite <- El in Hn.
  rewrite (bind_ret _ _ _ _ _ (built_intact _ w1 (contact_list_intact l Hn Hl))). exact (keeps_Send ps ss me (contact_list l) w1 H1).
Qed.
Lemma keeps_Broadcast ps ss me p : is_Some (ps !! me) -> keeps (inside ps ss) (BroadcastToFriendListers me p).
Proof.
  intros Hme w H. unfold BroadcastToFriendListers. destruct (player_eq ps ss me w H Hme) as [pl Ep].
  rewrite (bind_ret (gets m_socialMap) _ w (m_socialMap w) w) by done. rewrite (bind_ret _ _ _ _ _ Ep).
  apply (keeps_for_each (inside ps ss)); [|done]. intros [j s] _. apply keeps_bind; [apply keeps_FindPlayer|]. intros [t|]; [|apply keeps_ret].
  apply keeps_when. intros _. apply keeps_Send.
Qed.
Lemma keeps_Status ps ss me r f b : is_Some (ps !! me) -> keeps (inside ps ss) (SendFriendStatus me r f b).
Proof.
  intros Hme w H. unfold SendFriendStatus. destruct (GetFriendInfo_keeps ps ss w me f (new_friend 0 []) H Hme) as (fi & E & _ & _ & Hn). rewrite (bind_ret _ _ _ _ _ E).
  rewrite (bind_ret _ _ _ _ _ (built_intact _ w (friend_status_intact r f fi (Hn ltac:(vm_compute; congruence))))).
  destruct b; [now apply keeps_Broadcast|now apply keeps_Send].
Qed.

(** ** The requests *)

Record social_ok (w : SW) : Prop := mk_social_ok {
  so_inside : inside (s_players w) (s_sessions w) w;
  so_sessions sid s me : s_sessions w !! sid = Some s -> _player s = Some me -> is_Some (s_players w !! me);
  so_one sid1 sid2 s1 s2 me : s_sessions w !! sid1 = Some s1 -> s_sessions w !! sid2 = Some s2 -> _player s1 = Some me -> _player s2 = Some me -> sid1 = sid2;
  so_asked sid s note name : s_sessions w !! sid = Some s -> _addFriendCallback s = Some (note, name) -> zlen note <= TEXT_LIMIT
}.
(** Whoever is found by name is not deleted: the name of a deleted character is empty. *)
Class SocialLaws : Prop := named_alive name g race account : character_named name = Some (g, race, account) -> is_u 32 g /\ undeleted g = true.
Context `{laws : SocialLaws}.

Definition logged_in (w : SW) (sid : Z) : Prop := exists s me, s_sessions w !! sid = Some s /\ _player s = Some me.
(** When a request comes, and that its packet is one of [WorldSocket]. *)
Definition social_allowed (w : SW) (r : social_request) : Prop :=
  match r with
  | ContactList sid data | AddFriend sid data | DelFriend sid data | AddIgnore sid data | DelIgnore sid data | SetContactNotes sid data => logged_in w sid /\ received data
  | AddFriendReady sid | AddIgnoreReady sid | SocialLogout sid => is_Some (s_sessions w !! sid)
  | SocialLogin sid me p rows => (exists s, s_sessions w !! sid = Some s /\ _player s = None) /\ s_players w !! me = None /\
      SEL_CHARACTER_SOCIALLIST me (character_social w) rows
  end.
(** The requests whose note overflows the buffer of [utf8truncate]. *)
Definition read_note (data : ByteBuffer) : outcome exn (Z * list Z) := ((let! guid := read_uint64 in let! note := read_string in ret (guid, note)) data).1.
Definition note_overflows (w : SW) (r : social_request) : Prop :=
  match r with
  | SetContactNotes _ data => exists guid note, read_note data = Ret (guid, note) /\ overflows note
  | AddFriendReady sid => exists s note name, s_sessions w !! sid = Some s /\ _addFriendCallback s = Some (note, name) /\ overflows note
  | _ => False
  end.
Inductive social_reach (w0 : SW) : SW -> Prop :=
| social_start : social_reach w0 w0
| social_step w r o w' : social_reach w0 w -> social_allowed w r -> handle r w = (o, w') -> o <> Crash -> social_reach w0 w'.

(** A request returns, or throws because its packet is too short, with such a world;
    or it crashes where [C] holds. *)
Definition settles (C : Prop) (m : SA unit) (w : SW) : Prop := (m w).1 <> Crash /\ social_ok (m w).2 \/ C /\ (m w).1 = Crash.
Lemma ok_inside w w' : social_ok w -> inside (s_players w) (s_sessions w) w' -> social_ok w'.
Proof. intros [H1 H2 H3 H4] H'. pose proof H' as [_ (Ep & Es & _)]. split; rewrite ?Ep, ?Es; done. Qed.
Lemma settles_may C w (m : SA unit) : social_ok w -> may C (inside (s_players w) (s_sessions w)) m -> settles C m w.
Proof.
  intros H Hm. destruct (Hm w (so_inside w H)) as [(u & w' & E & H')|Hc]; [left|now right]. rewrite E. split; [done|]. now apply (ok_inside w).
Qed.
Lemma ok_keeps w (m : SA unit) : social_ok w -> keeps (inside (s_players w) (s_sessions w)) m -> exists w', m w = (Ret tt, w') /\ social_ok w'.
Proof.
  intros H Hm. destruct (Hm w (so_inside w H)) as ([] & w' & E & H'). exists w'. split; [done|]. now apply (ok_inside w).
Qed.
Lemma ok_session w sid s s' : social_ok w -> s_sessions w !! sid = Some s -> _player s' = _player s ->
  (forall note name, _addFriendCallback s' = Some (note, name) -> zlen note <= TEXT_LIMIT) -> social_ok (with_session sid s' w).
Proof.
  intros [[H1 (_ & _ & H2)] H3 H4 H5] Hs E Hn. assert (Hp : forall i t me, <[sid := s']> (s_sessions w) !! i = Some t -> _player t = Some me -> exists t', s_sessions w !! i = Some t' /\ _player t' = Some me).
  { intros i t me [[<- <-]|[_ Ht]]%lookup_insert_Some Hme; [exists s; split; congruence|now exists t]. }
  split; world_parts.
  - split; [now destruct H1|]. now split_and!.
  - intros i t me Ht Hme. destruct (Hp i t me Ht Hme) as (t' & Ht' & Hme'). now apply (H3 i t').
  - intros i j t1 t2 me Ht1 Ht2 Hm1 Hm2. destruct (Hp i t1 me Ht1 Hm1) as (t1' & ? & ?). destruct (Hp j t2 me Ht2 Hm2) as (t2' & ? & ?). now apply (H4 i j t1' t2' me).
  - intros i t note name [[<- <-]|[_ Ht]]%lookup_insert_Some Hc; [now apply (Hn note name)|now apply (H5 i t note name)].
Qed.
Lemma parse_eq {A} (m : BB A) data w : safe m -> wf data -> (exists a, (m data).1 = Ret a /\ parse m data w = (Ret a, w)) \/ (exists e, parse m data w = (Throw e, w)).
Proof.
  intros Hm Hd. destruct (Hm data Hd) as [Hc _]. unfold parse. destruct (m data).1 as [a|e|]; [left|right|done]; now eexists.
Qed.
(** A request that begins with reading its packet. *)
Lemma ok_parse {A} C (m : BB A) data (k : A -> SA unit) w : social_ok w -> safe m -> received data ->
  (forall a, (m data).1 = Ret a -> settles C (k a) w) -> settles C (let! a := parse m data in k a) w.
Proof.
  intros H Hm [Hd _] Hk. unfold settles. destruct (parse_eq m data w Hm Hd) as [(a & Ea & E)|(e & E)].
  - rewrite (bind_ret _ _ _ _ _ E). now apply Hk.
  - rewrite (bind_throw _ _ _ _ _ E). now left.
Qed.
Lemma player_of w sid s me : s_sessions w !! sid = Some s -> _player s = Some me -> GetPlayer sid w = (Ret me, w) /\ session_at sid w = (Ret s, w).
Proof. intros Hs Hp. unfold GetPlayer, session_at, bind, gets. rewrite Hs. cbn. now rewrite Hp. Qed.
Lemma keeps_friend_result ps ss me f team : is_Some (ps !! me) -> is_u 32 f -> undeleted f = true -> keeps (inside ps ss) (friend_result me f team).
Proof.
  intros Hme Hu Ha w H. destruct (social_at ps ss w me H Hme) as (s & Hs & Eg & _). destruct (player_eq ps ss me w H Hme) as [p Ep].
  unfold friend_result. rewrite (bind_ret _ _ _ _ _ Eg), (bind_ret _ _ _ _ _ Ep), (player_low f Hu). do 3 (case_if; [now eexists _, w|]).
  destruct (FindPlayer_eq f w) as [o Eo]. rewrite (bind_ret _ _ _ _ _ Eo). refine (keeps_bind (inside ps ss) _ _ (keeps_Add ps ss me f false Hme Ha) _ w H).
  intros b. apply keeps_ret.
Qed.
Lemma keeps_ignore_result ps ss me f : is_Some (ps !! me) -> is_u 32 f -> undeleted f = true -> keeps (inside ps ss) (ignore_result me f).
Proof.
  intros Hme Hu Ha w H. destruct (social_at ps ss w me H Hme) as (s & Hs & Eg & _). unfold ignore_result. rewrite (bind_ret _ _ _ _ _ Eg), (player_low f Hu).
  do 2 (case_if; [now eexists _, w|]). refine (keeps_bind (inside ps ss) _ _ (keeps_Add ps ss me f true Hme Ha) _ w H). intros b. apply keeps_ret.
Qed.
Lemma may_AddFriend_callback w sid name param s :
  social_ok w -> s_sessions w !! sid = Some s -> zlen param <= TEXT_LIMIT ->
  may (overflows param) (inside (s_players w) (s_sessions w)) (HandleAddFriendOpcodeCallBack sid (character_named name) param).
Proof.
  intros Hok Hs Hn w1 H1. pose proof H1 as [_ (_ & Ess & _)]. assert (Es1 : session_at sid w1 = (Ret s, w1)) by (unfold session_at, bind, gets; now rewrite Ess, Hs).
  unfold HandleAddFriendOpcodeCallBack. rewrite (bind_ret _ _ _ _ _ Es1). destruct (_player s) as [me|] eqn:Eme; [|left; now exists tt, w1].
  pose proof (so_sessions w Hok sid s me Hs Eme) as Hme. revert w1 H1 Ess Es1. intros w1 H1 _ _.
  refine (may_bind _ (inside _ _) _ _ _ (fun r => may_keeps _ _ _ (keeps_Status _ _ me _ _ _ Hme)) w1 H1). destruct (character_named name) as [[[g race] account]|] eqn:En; [|apply may_keeps, keeps_ret].
  destruct (laws _ _ _ _ En) as [Hu Ha]. rewrite (player_guid g Hu). case_if; [|apply may_keeps, keeps_ret].
  apply may_bind; [now apply may_keeps, keeps_friend_result|]. intros r. apply may_bind; [now apply may_Note|]. intros _. apply may_keeps, keeps_ret.
Qed.
Lemma keeps_AddIgnore_callback w sid name s :
  social_ok w -> s_sessions w !! sid = Some s -> keeps (inside (s_players w) (s_sessions w)) (HandleAddIgnoreOpcodeCallBack sid (character_named name)).
Proof.
  intros Hok Hs w1 H1. pose proof H1 as [_ (_ & Ess & _)]. assert (Es1 : session_at sid w1 = (Ret s, w1)) by (unfold session_at, bind, gets; now rewrite Ess, Hs).
  unfold HandleAddIgnoreOpcodeCallBack. rewrite (bind_ret _ _ _ _ _ Es1). destruct (_player s) as [me|] eqn:Eme; [|now exists tt, w1].
  pose proof (so_sessions w Hok sid s me Hs Eme) as Hme. revert w1 H1 Ess Es1. intros w1 H1 _ _.
  refine (keeps_bind (inside _ _) _ _ _ (fun r => keeps_Status _ _ me _ _ _ Hme) w1 H1). destruct (character_named name) as [[[g race] account]|] eqn:En; [|apply keeps_ret].
  destruct (laws _ _ _ _ En) as [Hu Ha]. rewrite (player_guid g Hu). case_if; [|apply keeps_ret].
  apply keeps_bind; [now apply keeps_ignore_result|]. intros r. apply keeps_ret.
Qed.

(** ** Logging in and out *)

Lemma load_rows_saved rows m :
  NoDup (map sr_friend rows) -> (forall r, r ∈ rows -> m !! sr_friend r = None) -> Z.of_nat (base.size m) + zlen rows <= 100 ->
  listed (load_rows rows m) = stored_rows rows ∪ listed m.
Proof.
  revert m. induction rows as [|r rows IH]; intros m Hn Hm Hs; cbn [load_rows]; [unfold stored_rows; cbn; now rewrite (left_id_L ∅ (∪))|].
  cbn [map] in Hn. apply NoDup_cons in Hn as [Hr Hn]. pose proof (Hm r ltac:(left)) as Hr0. set (m1 := <[sr_friend r := _]> m).
  assert (Hsize : base.size m1 = Datatypes.S (base.size m)) by now apply map_size_insert_None. unfold zlen in *. cbn [length] in Hs.
  assert (E : stored_rows (r :: rows) ∪ listed m = stored_rows rows ∪ listed m1).
  { unfold m1, listed. rewrite fmap_insert. fold (listed m). cbn [Flags Note new_friend]. unfold stored_rows. cbn [map list_to_map foldr]. fold (stored_rows rows). cbn.
    rewrite <- insert_union_l. rewrite <- insert_union_r; [done|]. apply not_elem_of_list_to_map_1. change (list_fmap _ _ fst ?l) with (map fst l). now rewrite map_map. }
  rewrite E. destruct (Z.leb_spec (SOCIALMGR_FRIEND_LIMIT + SOCIALMGR_IGNORE_LIMIT) (Z.of_nat (base.size m1))) as [H|H].
  - unfold SOCIALMGR_FRIEND_LIMIT, SOCIALMGR_IGNORE_LIMIT in H. destruct rows; [|cbn [length] in Hs; lia]. unfold stored_rows. cbn. now rewrite (left_id_L ∅ (∪)).
  - apply IH; [done| |lia]. intros r' Hr'. unfold m1. rewrite lookup_insert_ne; [apply Hm; now right|]. intros Ef. apply Hr. rewrite Ef. now apply list_elem_of_fmap_2.
Qed.
Lemma visible_friends w me : lists_ok w -> NoDup (map sr_friend (visible me (character_social w))).
Proof.
  intros [Hk _ _ _ _]. apply (NoDup_map_filter row_key (fun r => sr_guid r = me /\ undeleted (sr_friend r) = true)) in Hk. fold (visible me (character_social w)) in Hk.
  assert (Hg : forall r, r ∈ visible me (character_social w) -> sr_guid r = me) by (intros r [[? _] _]%list_elem_of_filter; done).
  induction (visible me (character_social w)) as [|r l IH]; [constructor|]. cbn [map] in *. apply NoDup_cons in Hk as [Hr Hk]. constructor.
  - intros (r' & E & Hr')%list_elem_of_fmap. apply Hr. apply list_elem_of_fmap. exists r'. split; [|done]. unfold row_key. rewrite E, (Hg r), (Hg r'); [done|now right|left].
  - apply IH; [done|]. intros r' Hr'. apply Hg. now right.
Qed.
(** The list that is loaded is the stored one. *)
Lemma load_stored w me rows : lists_ok w -> SEL_CHARACTER_SOCIALLIST me (character_social w) rows -> listed (load_rows rows ∅) = stored me (character_social w).
Proof.
  intros H (l & Hl & ->). pose proof (visible_friends w me H) as Hv. set (v := visible me (character_social w)) in *.
  assert (Hn : NoDup (map fst (map (fun r => (sr_friend r, (sr_flags r, sr_note r))) v))) by now rewrite map_map.
  assert (Hsize : (length v <= 100)%nat).
  { pose proof (size_counts (stored me (character_social w)) (lo_flags w H me)) as Hs. destruct (lo_limits w H me) as [H1 H2].
    unfold stored, stored_rows in Hs, H1, H2. fold v in Hs, H1, H2. rewrite map_size_list_to_map in Hs by exact Hn. rewrite length_map in Hs.
    unfold SOCIALMGR_FRIEND_LIMIT, SOCIALMGR_IGNORE_LIMIT, SOCIAL_FLAG_FRIEND, SOCIAL_FLAG_IGNORED in *. lia. }
  pose proof (Permutation_length Hl) as El. rewrite take_ge by lia. rewrite load_rows_saved.
  - unfold listed. rewrite fmap_empty, (right_id_L ∅ (∪)). unfold stored, stored_rows. fold v. apply list_to_map_proper; [|now rewrite Hl].
    change (list_fmap _ _ fst ?x) with (map fst x). rewrite map_map. cbn. change (NoDup (map sr_friend l)). now rewrite Hl.
  - now rewrite Hl.
  - intros r _. apply lookup_empty.
  - rewrite map_size_empty. unfold zlen. lia.
Qed.
Lemma loaded_saved w me rows : lists_ok w -> SEL_CHARACTER_SOCIALLIST me (character_social w) rows ->
  saved (load_rows rows ∅) = stored me (character_social w) /\ short_notes (load_rows rows ∅).
Proof.
  intros H Hsel. pose proof (load_stored w me rows H Hsel) as E. set (m := load_rows rows ∅) in *.
  assert (Hin : forall f fi, m !! f = Some fi -> entry_ok (Flags fi, Note fi)).
  { intros f fi Hf. apply (lo_entries w H me f). rewrite <- E. unfold listed. now rewrite lookup_fmap, Hf. }
  split; [rewrite <- E; unfold saved, listed; apply map_fmap_ext; intros f fi Hf; destruct (Hin f fi Hf) as (_ & E' & _); cbn in E'; now rewrite E'|].
  intros f fi Hf. now destruct (Hin f fi Hf) as (_ & _ & ?).
Qed.
(** The player has come, his session has him and his list is loaded. *)
Lemma login_ok w sid s me p ms :
  social_ok w -> s_sessions w !! sid = Some s -> _player s = None -> s_players w !! me = None -> saved ms = stored me (character_social w) -> short_notes ms ->
  social_ok (mkSW (<[me := mkPlayerSocial ms me]> (m_socialMap w)) (character_social w) (<[me := p]> (s_players w))
    (<[sid := mkSession (Some me) (_addFriendCallback s) (_addIgnoreCallback s)]> (s_sessions w)) (s_sent w)).
Proof.
  intros [[[Hk Hf Hl Hls Hns] (_ & _ & Hm)] Hss Hone Hasked] Hs Hno Hme Hms Hshort.
  assert (Hnone : forall i t, s_sessions w !! i = Some t -> _player t <> Some me) by (intros i t Ht E; destruct (Hss i t me Ht E) as [x Hx]; congruence).
  split; cbn.
  - split; [split; try done|split_and!; try done]; cbn.
    + intros j t [[<- <-]|[_ Ht]]%lookup_insert_Some; [now split|now apply Hls].
    + intros j t [[<- <-]|[_ Ht]]%lookup_insert_Some; [exact Hshort|now apply (Hns j)].
    + intros j. cbn. destruct (decide (j = me)) as [->|Hne]; [rewrite !lookup_insert_eq; split; now eexists|]. now rewrite !lookup_insert_ne by done.
  - intros i t j [[<- <-]|[_ Ht]]%lookup_insert_Some Hj.
    + injection Hj as <-. rewrite lookup_insert_eq. now eexists.
    + destruct (decide (j = me)) as [->|Hne]; [rewrite lookup_insert_eq; now eexists|]. rewrite lookup_insert_ne by done. now apply (Hss i t).
  - intros i j t1 t2 x [[<- <-]|[_ Ht1]]%lookup_insert_Some [[<- <-]|[_ Ht2]]%lookup_insert_Some H1 H2; [done| | |now apply (Hone i j t1 t2 x)].
    + injection H1 as <-. now destruct (Hnone _ _ Ht2).
    + injection H2 as <-. now destruct (Hnone _ _ Ht1).
  - intros i t note name [[<- <-]|[_ Ht]]%lookup_insert_Some; [now apply (Hasked sid s)|now apply (Hasked i t)].
Qed.
Lemma set_player_ok w me p : social_ok w -> is_Some (s_players w !! me) -> social_ok (with_players (<[me := p]> (s_players w)) w).
Proof.
  intros [[[H1 H2 H3 H4 H5] (_ & _ & Hm)] Hss Hone Hasked] Hme.
  assert (Hd : forall j, is_Some (<[me := p]> (s_players w) !! j) <-> is_Some (s_players w !! j)).
  { intros j. destruct (decide (j = me)) as [->|Hne]; [rewrite lookup_insert_eq; split; [done|now eexists]|now rewrite lookup_insert_ne]. }
  split; world_parts; [split; [now split|split_and!; try done]| |done|done].
  - intros j. rewrite Hd. apply Hm.
  - intros sid s j Hs Hj. apply Hd. now apply (Hss sid s).
Qed.
Lemma Login_ok w sid me p rows : social_ok w -> social_allowed w (SocialLogin sid me p rows) -> exists w', HandlePlayerLogin sid me p rows w = (Ret tt, w') /\ social_ok w'.
Proof.
  intros H ((s & Hs & Hno) & Hme & Hsel). pose proof (so_inside w H) as [Hl (_ & _ & Hm)]. unfold HandlePlayerLogin.
  pose proof (loaded_saved w me rows Hl Hsel) as [Hload Hshort].
  assert (Hnone : m_socialMap w !! me = None) by (destruct (m_socialMap w !! me) as [x|] eqn:E; [|done]; destruct (proj2 (Hm me) ltac:(now rewrite E)) as [y Hy]; congruence).
  pose proof (login_ok w sid s me (placed p false) (load_rows rows ∅) H Hs Hno Hme Hload Hshort) as H1. set (w1 := mkSW _ _ _ _ _) in H1.
  assert (E1 : LoadPlayer sid me p rows w = (Ret tt, w1)).
  { unfold LoadPlayer, LoadFromDB, entry_at, session_at, bind, modify, gets, set_player, with_socials, with_players, with_session. rewrite Hs. cbn. now rewrite Hnone. }
  rewrite (bind_ret _ _ _ _ _ E1). clear E1. assert (Hme1 : is_Some (s_players w1 !! me)) by (cbn; rewrite lookup_insert_eq; now eexists).
  destruct (ok_keeps w1 (SendSocialList me) H1 (keeps_SendSocialList _ _ me Hme1)) as (w2 & E2 & H2). rewrite (bind_ret _ _ _ _ _ E2).
  assert (Hme2 : is_Some (s_players w2 !! me)).
  { pose proof (keeps_SendSocialList (s_players w1) (s_sessions w1) me Hme1 w1 (so_inside w1 H1)) as (? & w2' & E2' & _ & Ep & _). rewrite E2 in E2'. injection E2' as _ <-. now rewrite Ep. }
  pose proof (set_player_ok w2 me (placed p true) H2 Hme2) as H3. rewrite (bind_ret (set_player me (placed p true)) _ w2 tt (with_players (<[me := placed p true]> (s_players w2)) w2)) by done.
  apply ok_keeps; [done|]. apply keeps_Status. cbn. rewrite lookup_insert_eq. now eexists.
Qed.
Lemma Logout_ok w sid : social_ok w -> is_Some (s_sessions w !! sid) -> exists w', LogoutPlayer sid w = (Ret tt, w') /\ social_ok w'.
Proof.
  intros H [s Hs]. assert (Es : session_at sid w = (Ret s, w)) by (unfold session_at, bind, gets; now rewrite Hs).
  unfold LogoutPlayer. rewrite (bind_ret _ _ _ _ _ Es). destruct (_player s) as [me|] eqn:Eme; [|now exists w].
  pose proof (so_sessions w H sid s me Hs Eme) as Hme. destruct (keeps_Status _ _ me FRIEND_OFFLINE me true Hme w (so_inside w H)) as ([] & w1 & E1 & H1).
  rewrite (bind_ret _ _ _ _ _ E1). eexists. split; [reflexivity|]. world_parts. destruct H as [_ Hss Hone Hasked]. destruct H1 as [[Hk Hf Hl Hls Hns] (Ep & Ess & Hm)]. rewrite Ep, Ess.
  assert (Hses : forall i t j, <[sid := mkSession None (_addFriendCallback s) (_addIgnoreCallback s)]> (s_sessions w) !! i = Some t -> _player t = Some j -> i <> sid /\ s_sessions w !! i = Some t).
  { intros i t j [[<- <-]|[Hne Ht]]%lookup_insert_Some Hj; [done|now split]. }
  split; cbn.
  - split; [split; try done|split_and!; try done]; cbn; [intros j t [_ Ht]%lookup_delete_Some; now apply Hls|intros j t [_ Ht]%lookup_delete_Some; now apply (Hns j)|].
    intros j. cbn. destruct (decide (j = me)) as [->|Hne]; [rewrite !lookup_delete_eq; split; intros [? ?]; done|]. rewrite !lookup_delete_ne by done. apply Hm.
  - intros i t j Ht Hj. destruct (Hses i t j Ht Hj) as [Hne Ht']. rewrite lookup_delete_ne; [now apply (Hss i t)|]. intros ->. apply Hne. now apply (Hone i sid t s j).
  - intros i j t1 t2 x Ht1 Ht2 H1 H2. destruct (Hses i t1 x Ht1 H1), (Hses j t2 x Ht2 H2). now apply (Hone i j t1 t2 x).
  - intros i t note name [[<- <-]|[_ Ht]]%lookup_insert_Some; [now apply (Hasked sid s)|now apply (Hasked i t)].
Qed.

(** ** Every request *)

Lemma returns_settles C w (m : SA unit) : (exists w', m w = (Ret tt, w') /\ social_ok w') -> settles C m w.
Proof. intros (w' & E & H). left. now rewrite E. Qed.
Lemma player_request C w sid (k : Z -> SA unit) : social_ok w -> logged_in w sid ->
  (forall me, is_Some (s_players w !! me) -> may C (inside (s_players w) (s_sessions w)) (k me)) ->
  settles C (let! me := GetPlayer sid in k me) w.
Proof.
  intros H (s & me & Hs & Hp) Hk. destruct (player_of w sid s me Hs Hp) as [E _]. unfold settles. rewrite (bind_ret _ _ _ _ _ E).
  apply settles_may; [done|]. apply Hk. exact (so_sessions w H sid s me Hs Hp).
Qed.
Lemma session_change C w sid s f : social_ok w -> s_sessions w !! sid = Some s -> _player (f s) = _player s ->
  (forall note name, _addFriendCallback (f s) = Some (note, name) -> zlen note <= TEXT_LIMIT) ->
  settles C (let! s := session_at sid in modify (with_session sid (f s))) w.
Proof.
  intros H Hs Hf Hn. apply returns_settles. eexists. split; [unfold session_at, bind, gets; rewrite Hs; reflexivity|]. now apply (ok_session w sid s).
Qed.
Lemma safe_uint64 : safe read_uint64. Proof. apply safe_read. vm_compute. reflexivity. Qed.
Lemma safe_uint32 : safe read_uint32. Proof. apply safe_read. vm_compute. reflexivity. Qed.
Lemma safe_two {A B} (m : BB A) (n : BB B) : safe m -> safe n -> safe (let! a := m in let! b := n in ret (a, b)).
Proof. intros Hm Hn. apply safe_bind; [done|]. intros a. apply safe_bind; [done|]. intros b. apply safe_ret. Qed.
Lemma gives_two {A B} (m : BB A) (n : BB B) P : gives m (fun _ => True) -> gives n P -> gives (let! a := m in let! b := n in ret (a, b)) (fun r => P r.2).
Proof. intros Hm Hn. apply gives_seq; [done|]. intros a. apply (gives_bind _ _ P); [done|]. intros b Hb. now apply gives_ret. Qed.
(** The answer is handled, and forgotten. *)
Lemma ready C w sid s (m : SA unit) (f : Session -> Session) :
  social_ok w -> s_sessions w !! sid = Some s -> (forall s, _player (f s) = _player s) ->
  (forall note name, _addFriendCallback (f s) = Some (note, name) -> zlen note <= TEXT_LIMIT) -> may C (inside (s_players w) (s_sessions w)) m ->
  settles C (do! m in let! s := session_at sid in modify (with_session sid (f s))) w.
Proof.
  intros H Hs Hf Hn Hm. destruct (Hm w (so_inside w H)) as [([] & w1 & E & H1)|[Hc E]].
  - unfold settles. rewrite (bind_ret _ _ _ _ _ E). pose proof H1 as [_ (Ep & Es & _)].
    apply (session_change C w1 sid s f (ok_inside w w1 H H1)); [now rewrite Es|apply Hf|done].
  - right. split; [done|]. unfold bind at 1. destruct (m w) as [o w']. cbn in E. now subst o.
Qed.
Lemma settles_ret C w : social_ok w -> settles C (ret tt) w.
Proof. intros H. now left. Qed.
Lemma request_ok w r : social_ok w -> social_allowed w r -> settles (note_overflows w r) (handle r) w.
Proof.
  intros H Ha. destruct r; cbn [social_allowed handle] in *.
  - destruct Ha as [Hin Hd]. apply ok_parse; [done|exact safe_uint32|done|]. intros a _. apply player_request; [done..|]. intros me Hme. now apply may_keeps, keeps_SendSocialList.
  - destruct Ha as [(s & me & Hs & Hp) Hd]. apply ok_parse; [done|apply safe_two; exact safe_read_string|done|]. intros [name note] Er. cbn [fst snd].
    assert (Hn : zlen note <= TEXT_LIMIT) by exact (gives_outcome _ _ data _ (gives_two _ _ _ (gives_weaken _ _ _ gives_string (fun _ _ => I)) gives_string) Hd Er).
    destruct (normalizeName name) as [n|]; [|now apply settles_ret]. apply (session_change _ w sid s (fun s => mkSession (_player s) (Some (note, n)) (_addIgnoreCallback s))); try done.
    now intros note' name' [= <- <-].
  - destruct Ha as [s Hs]. unfold ProcessAddFriend, settles. rewrite (bind_ret _ _ _ s w) by (unfold session_at, bind, gets; now rewrite Hs).
    destruct (_addFriendCallback s) as [[param name]|] eqn:Ec; [|now apply settles_ret].
    apply (ready _ w sid s _ (fun s => mkSession (_player s) None (_addIgnoreCallback s))); [done..|].
    intros w1 H1. destruct (may_AddFriend_callback w sid name param s H Hs (so_asked w H sid s _ _ Hs Ec) w1 H1) as [Hk|[Hc E]]; [now left|right].
    split; [|done]. now exists s, param, name.
  - destruct Ha as [Hin Hd]. apply ok_parse; [done|exact safe_uint64|done|]. intros a _. apply player_request; [done..|]. intros me Hme.
    apply may_keeps, keeps_bind; [now apply keeps_Remove|]. intros _. now apply keeps_Status.
  - destruct Ha as [(s & me & Hs & Hp) Hd]. apply ok_parse; [done|exact safe_read_string|done|]. intros name _.
    destruct (normalizeName name) as [n|]; [|now apply settles_ret]. apply (session_change _ w sid s (fun s => mkSession (_player s) (_addFriendCallback s) (Some n))); try done.
    exact (fun note nm => so_asked w H sid s note nm Hs).
  - destruct Ha as [s Hs]. unfold ProcessAddIgnore, settles. rewrite (bind_ret _ _ _ s w) by (unfold session_at, bind, gets; now rewrite Hs).
    destruct (_addIgnoreCallback s) as [name|] eqn:Ec; [|now apply settles_ret].
    apply (ready _ w sid s _ (fun s => mkSession (_player s) (_addFriendCallback s) None)); [done..|exact (fun note nm => so_asked w H sid s note nm Hs)|].
    now apply may_keeps, (keeps_AddIgnore_callback w sid name s).
  - destruct Ha as [Hin Hd]. apply ok_parse; [done|exact safe_uint64|done|]. intros a _. apply player_request; [done..|]. intros me Hme.
    apply may_keeps, keeps_bind; [now apply keeps_Remove|]. intros _. now apply keeps_Status.
  - destruct Ha as (Hin & Hd). apply ok_parse; [done|apply safe_two; [exact safe_uint64|exact safe_read_string]|done|]. intros [guid note] Er. cbn [fst snd].
    assert (Hn : zlen note <= TEXT_LIMIT) by exact (gives_outcome _ _ data _ (gives_two _ _ _ (gives_read 8 ltac:(lia)) gives_string) Hd Er).
    apply player_request; [done..|]. intros me Hme w1 H1. destruct (may_Note _ _ me (GUID_LOPART guid) note Hme Hn w1 H1) as [Hk|[Hc E]]; [now left|right].
    split; [|done]. now exists guid, note.
  - apply returns_settles. now apply Login_ok.
  - apply returns_settles. now apply Logout_ok.
Qed.
Lemma social_reach_ok w0 w : social_ok w0 -> social_reach w0 w -> social_ok w.
Proof.
  intros H0. induction 1 as [|w r o w' _ IH Ha E Ho]; [done|]. pose proof (request_ok w r IH Ha) as H. unfold settles in H. rewrite E in H. destruct H as [[_ H]|[_ H]]; [exact H|now destruct Ho].
Qed.

(** C13. Friends and ignored players survive: after a run of any requests that did not
    crash the server, what logging in again would load of the list of a player who is
    connected is what he has in memory, flags and notes (as the [varchar(48)] of the
    note holds them), in whatever order the rows come; he has at most fifty friends
    and fifty ignored players.  The next request returns or finds its packet too
    short, but for one case: a note behind whose copy [utf8truncate] writes, when it
    is for somebody on the list. *)
Theorem social_lists_reload w0 w :
  social_ok w0 -> social_reach w0 w ->
  (forall me s rows, m_socialMap w !! me = Some s -> SEL_CHARACTER_SOCIALLIST me (character_social w) rows ->
     exists s', m_socialMap (LoadFromDB rows me (RemovePlayerSocial me w).2).2 !! me = Some s' /\
       m_playerGUID s' = m_playerGUID s /\ listed (m_playerSocialMap s') = saved (m_playerSocialMap s)) /\
  (forall me s, m_socialMap w !! me = Some s ->
     GetNumberOfSocialsWithFlag s SOCIAL_FLAG_FRIEND <= SOCIALMGR_FRIEND_LIMIT /\ GetNumberOfSocialsWithFlag s SOCIAL_FLAG_IGNORED <= SOCIALMGR_IGNORE_LIMIT) /\
  (forall r, social_allowed w r -> (handle r w).1 = Crash -> note_overflows w r).
Proof.
  intros H0 Hr. pose proof (social_reach_ok w0 w H0 Hr) as H. pose proof (so_inside w H) as [Hl _]. split_and!.
  - intros me s rows Hs Hsel. destruct (lo_lists w Hl me s Hs) as [Hg Hm]. unfold LoadFromDB, RemovePlayerSocial, modify, entry_at, with_socials. cbn.
    rewrite lookup_insert_eq, lookup_delete_eq. eexists. split; [reflexivity|]. cbn. split; [done|]. rewrite Hm. now apply load_stored.
  - intros me s Hs. destruct (lo_lists w Hl me s Hs) as [_ Hm]. destruct (lo_limits w Hl me) as [H1 H2]. unfold SOCIALMGR_FRIEND_LIMIT, SOCIALMGR_IGNORE_LIMIT in *.
    rewrite !number_count, Hm; [lia|rewrite Hm; unfold is_u, count in *; lia..].
  - intros r Ha Hc. destruct (request_ok w r H Ha) as [[Hn _]|[Hn _]]; [congruence|exact Hn].
Qed.
(** A note of more than 48 characters, some outside of the basic plane, is written
    behind the end of the buffer. *)
Lemma note_crashes w me f note n u :
  social_ok w -> is_Some (s_players w !! me) -> (exists s, m_socialMap w !! me = Some s /\ is_Some (m_playerSocialMap s !! f)) ->
  utf8_distance note = Some n -> 48 < n -> utf8to16 note = Some u -> n < zlen u -> (SetFriendNote me f note w).1 = Crash.
Proof.
  intros H Hme (s & Hs & [fi Hf]) Hn Hlen Hu Hlt. destruct (social_at _ _ w me (so_inside w H) Hme) as (s' & Hs' & Eg & _). rewrite Hs in Hs'. injection Hs' as <-.
  unfold SetFriendNote. rewrite (bind_ret _ _ _ _ _ Eg), Hf. unfold utf8truncate. rewrite Hn, Hu.
  rewrite (proj2 (Z.leb_gt n 48) Hlen), (proj2 (Z.ltb_lt n (zlen u)) Hlt). done.
Qed.
End Runs.

(** ** Example *)

Module SocialDemo.
Definition names : list (list Z * (Z * Z * Z)) := [(str "Ann", (1, 1, 11)); (str "Bob", (2, 1, 12)); (str "Cid", (3, 1, 13))].
#[export] Instance demo_social : SocialWorld := {|
  HasPermission := fun _ _ => false; IsVisibleGloballyFor := fun _ _ => true; CONFIG_GM_LEVEL_IN_WHO_LIST := 0;
  character_named := fun n => snd <$> List.find (fun e => bool_decide (e.1 = n)) names;
  undeleted := fun _ => true; TeamForRace := fun _ => 469; account_security := fun _ => 0; normalizeName := Some;
  utf8_distance := fun s => Some (zlen s); utf8to16 := Some; utf16to8 := Some |}.
#[export] Instance demo_social_laws : SocialLaws.
Proof.
  intros n g r a H. change (snd <$> List.find (fun e => bool_decide (e.1 = n)) names = Some (g, r, a)) in H. destruct (List.find _ names) as [[n' [[g' r'] a']]|] eqn:E; [|done]. injection H as <- _ _. apply List.find_some in E as [E _].
  split; [|done]. destruct E as [E|[E|[E|[]]]]; injection E as _ <- _ _; vm_compute; split; congruence.
Qed.
#[export] Existing Instance cut_columns.
#[export] Existing Instance cut_laws.
Definition packet (m : BB unit) : ByteBuffer := (m new_buffer).2.
Definition person : SocialPlayer := mkSocialPlayer 0 469 false false 12 80 1 true.
(** Three sessions, nobody logged in; the second player has the first on his list. *)
Definition start : SW :=
  mkSW ∅ [mkSocialRow 2 1 1 [104; 105]] ∅ (list_to_map [(1, mkSession None None None); (2, mkSession None None None); (3, mkSession None None None)]) [].
Lemma start_ok : social_ok start.
Proof.
  assert (E : forall me, stored me (character_social start) = if decide (2 = me) then {[1 := (1, [104; 105])]} else ∅).
  { intros me. unfold stored, visible, start. cbn [character_social]. rewrite filter_cons, filter_nil. cbn [sr_guid sr_friend]. destruct (decide (2 = me)) as [H|H].
    - rewrite decide_True by done. reflexivity.
    - rewrite decide_False by (now intros [? _]). reflexivity. }
  assert (Ec : forall me fl, (fl = 1 \/ fl = 2) -> count fl (stored me (character_social start)) <= 50).
  { intros me fl H. rewrite E. destruct (decide (2 = me)), H as [-> | ->]; vm_compute; congruence. }
  split; [split; [split|split_and!; [done..|]]| | |].
  - vm_compute. repeat constructor; set_solver.
  - intros me f p. rewrite E. destruct (decide (2 = me)); [|now rewrite lookup_empty]. intros [_ <-]%lookup_singleton_Some.
    split; [vm_compute; split; congruence|split; vm_compute; [reflexivity|congruence]].
  - intros me. split; apply Ec; auto.
  - intros me s. cbn. now rewrite lookup_empty.
  - intros me s. cbn. now rewrite lookup_empty.
  - intros me. cbn. rewrite !lookup_empty. split; intros [? H]; discriminate H.
  - intros sid s me Hs Hp. exfalso. apply elem_of_list_to_map_2 in Hs. repeat (apply elem_of_cons in Hs as [Hs|Hs]; [injection Hs as _ ->; discriminate|]). now apply elem_of_nil in Hs.
  - intros sid1 sid2 s1 s2 me Hs _ Hp _. exfalso. apply elem_of_list_to_map_2 in Hs. repeat (apply elem_of_cons in Hs as [Hs|Hs]; [injection Hs as _ ->; discriminate|]). now apply elem_of_nil in Hs.
  - intros sid s note name Hs Hc. exfalso. apply elem_of_list_to_map_2 in Hs. repeat (apply elem_of_cons in Hs as [Hs|Hs]; [injection Hs as _ ->; discriminate|]). now apply elem_of_nil in Hs.
Qed.
(** Bob logs in with Ann on his list and makes Cid his friend. *)
Definition ask : ByteBuffer := packet (do! write_string (str "Cid") in write_string (str "healer")).
Definition w1 : SW := (handle (SocialLogin 2 2 person [mkSocialRow 2 1 1 [104; 105]]) start).2.
Definition w2 : SW := (handle (AddFriend 2 ask) w1).2.
Definition w3 : SW := (handle (AddFriendReady 2) w2).2.
Lemma step_reached w r : social_reach start w -> social_allowed w r -> (handle r w).1 <> Crash -> social_reach start (handle r w).2.
Proof. intros H Ha Ho. exact (social_step start w r _ _ H Ha (surjective_pairing _) Ho). Qed.
Lemma ask_received : received ask.
Proof. split; [split; [reflexivity|vm_compute; split; congruence| |reflexivity]|vm_compute; congruence]. apply (bool_decide_unpack _). vm_compute. exact I. Qed.
Lemma w3_reached : social_reach start w3.
Proof.
  apply step_reached; [apply step_reached; [apply step_reached; [apply social_start| |]| |]| |]; try (vm_compute; congruence).
  - split; [eexists; split; [vm_compute; reflexivity|reflexivity]|]. split; [reflexivity|]. exists [mkSocialRow 2 1 1 [104; 105]]. split; [|reflexivity].
    assert (E : visible 2 (character_social start) = [mkSocialRow 2 1 1 [104; 105]]) by (vm_compute; reflexivity). now rewrite E.
  - split; [eexists _, 2; split; [vm_compute; reflexivity|reflexivity]|exact ask_received].
  - eexists. vm_compute. reflexivity.
Qed.
(** A logout and a login find Cid on Bob's list, with his note. *)
Lemma social_lists_reload_witness :
  (exists s, m_socialMap w3 !! 2 = Some s /\ HasFriend s 3 = true /\ HasFriend s 1 = true /\ saved (m_playerSocialMap s) !! 3 = Some (1, str "healer")) /\
  character_social w3 = [mkSocialRow 2 1 1 [104; 105]; mkSocialRow 2 3 1 (str "healer")] /\ (forall r, social_allowed w3 r -> (handle r w3).1 = Crash -> note_overflows w3 r).
Proof.
  split; [eexists; split; [vm_compute; reflexivity|split_and!; vm_compute; reflexivity]|]. split; [vm_compute; reflexivity|].
  exact (proj2 (proj2 (social_lists_reload start w3 start_ok w3_reached))).
Defined.
End SocialDemo.
