(* ===== verification/Calendar.v ===== *)
(** * The calendar
    (src/server/game/Calendar/CalendarMgr.cpp and CalendarMgr.h)

    Events and the invitations to them, the numbers they are given and give back, the
    two tables, and the packets about them.  Invitations are objects reached through
    the vectors of their events; an access to a deleted one crashes, and so does an
    iterator that is moved on from an element that was erased.  A packet that grows
    over the ten million bytes of its buffer's assertion crashes where it is built. *)

From stdpp Require Import base gmap list strings.
From Stdlib Require Import ZArith Lia.
From S2P Require Import Prelude ByteBuffer StdMap Util Columns ObjectGuid WorldPacket LfgPackets ActionLogic.
#[local] Open Scope Z_scope.

Definition CALENDAR_FLAG_INVITES_LOCKED : Z := 0x010.
Definition CALENDAR_FLAG_WITHOUT_INVITES : Z := 0x040.
Definition CALENDAR_FLAG_GUILD_EVENT : Z := 0x400.
Definition CALENDAR_RANK_PLAYER : Z := 0.
Definition CALENDAR_SENDTYPE_GET : Z := 0.
Definition CALENDAR_SENDTYPE_ADD : Z := 1.
Definition CALENDAR_SENDTYPE_COPY : Z := 2.
Definition CALENDAR_REPEAT_NEVER : Z := 0.
Definition CALENDAR_STATUS_INVITED : Z := 0.
Definition CALENDAR_STATUS_SIGNED_UP : Z := 6.
Definition CALENDAR_STATUS_NOT_SIGNED_UP : Z := 7.
Definition CALENDAR_STATUS_TENTATIVE : Z := 8.
Definition CALENDAR_STATUS_REMOVED : Z := 9.
Definition CALENDAR_MAX_INVITES : Z := 100.
Inductive CalendarError :=
| CALENDAR_ERROR_OTHER_INVITES_EXCEEDED | CALENDAR_ERROR_EVENT_INVALID | CALENDAR_ERROR_GUILD_PLAYER_NOT_IN_GUILD | CALENDAR_ERROR_ALREADY_INVITED_TO_EVENT_S
| CALENDAR_ERROR_PLAYER_NOT_FOUND | CALENDAR_ERROR_NOT_ALLIED | CALENDAR_ERROR_IGNORING_YOU_S | CALENDAR_ERROR_EVENT_LOCKED
| CALENDAR_ERROR_DELETE_CREATOR_FAILED | CALENDAR_ERROR_NO_INVITE | CALENDAR_ERROR_NO_GUILD_INVITES.
Definition calendar_error_value (e : CalendarError) : Z :=
  match e with
  | CALENDAR_ERROR_OTHER_INVITES_EXCEEDED => 4 | CALENDAR_ERROR_EVENT_INVALID => 6 | CALENDAR_ERROR_GUILD_PLAYER_NOT_IN_GUILD => 9
  | CALENDAR_ERROR_ALREADY_INVITED_TO_EVENT_S => 10 | CALENDAR_ERROR_PLAYER_NOT_FOUND => 11 | CALENDAR_ERROR_NOT_ALLIED => 12
  | CALENDAR_ERROR_IGNORING_YOU_S => 13 | CALENDAR_ERROR_EVENT_LOCKED => 21 | CALENDAR_ERROR_DELETE_CREATOR_FAILED => 22
  | CALENDAR_ERROR_NO_INVITE => 29 | CALENDAR_ERROR_NO_GUILD_INVITES => 38
  end.
Definition SMSG_CALENDAR_SEND_EVENT : Z := 0x437.
Definition SMSG_CALENDAR_EVENT_INVITE : Z := 0x43A.
Definition SMSG_CALENDAR_EVENT_INVITE_REMOVED : Z := 0x43B.
Definition SMSG_CALENDAR_EVENT_STATUS : Z := 0x43C.
Definition SMSG_CALENDAR_COMMAND_RESULT : Z := 0x43D.
Definition SMSG_CALENDAR_EVENT_INVITE_ALERT : Z := 0x440.
Definition SMSG_CALENDAR_EVENT_INVITE_REMOVED_ALERT : Z := 0x441.
Definition SMSG_CALENDAR_EVENT_REMOVED_ALERT : Z := 0x443.
Definition SMSG_CALENDAR_EVENT_UPDATED_ALERT : Z := 0x444.
Definition SMSG_CALENDAR_EVENT_MODERATOR_STATUS_ALERT : Z := 0x445.
Definition SMSG_CALENDAR_CLEAR_PENDING_ACTION : Z := 0x4BB.

(** ** Events and invitations *)

Record CalendarInvite := mkInvite {
  i_inviteId : Z; i_eventId : Z; i_invitee : Z; i_senderGUID : Z; i_statusTime : Z; i_status : Z; i_rank : Z; i_text : list Z
}.
Record CalendarEvent := mkEvent {
  e_eventId : Z; e_creatorGUID : Z; e_guildId : Z; e_type : Z; e_dungeonId : Z; e_eventTime : Z; e_flags : Z; e_timezoneTime : Z;
  e_title : list Z; e_description : list Z
}.
Definition IsGuildEvent (e : CalendarEvent) : bool := negb (Z.land (e_flags e) CALENDAR_FLAG_GUILD_EVENT =? 0).
Definition IsGuildAnnouncement (e : CalendarEvent) : bool := negb (Z.land (e_flags e) CALENDAR_FLAG_WITHOUT_INVITES =? 0).
Definition copy_invite (i : CalendarInvite) (inviteId eventId : Z) : CalendarInvite :=
  mkInvite inviteId eventId (i_invitee i) (i_senderGUID i) (i_statusTime i) (i_status i) (i_rank i) (i_text i).
Definition copy_event (e : CalendarEvent) (eventId : Z) : CalendarEvent :=
  mkEvent eventId (e_creatorGUID e) (e_guildId e) (e_type e) (e_dungeonId e) (e_eventTime e) (e_flags e) (e_timezoneTime e) (e_title e) (e_description e).
Definition SetGuildId (g : Z) (e : CalendarEvent) : CalendarEvent :=
  mkEvent (e_eventId e) (e_creatorGUID e) g (e_type e) (e_dungeonId e) (e_eventTime e) (e_flags e) (e_timezoneTime e) (e_title e) (e_description e).
Definition SetEventTime (t : Z) (e : CalendarEvent) : CalendarEvent :=
  mkEvent (e_eventId e) (e_creatorGUID e) (e_guildId e) (e_type e) (e_dungeonId e) t (e_flags e) (e_timezoneTime e) (e_title e) (e_description e).
Definition SetStatus (s : Z) (i : CalendarInvite) : CalendarInvite :=
  mkInvite (i_inviteId i) (i_eventId i) (i_invitee i) (i_senderGUID i) (i_statusTime i) s (i_rank i) (i_text i).
Definition SetStatusTime (t : Z) (i : CalendarInvite) : CalendarInvite :=
  mkInvite (i_inviteId i) (i_eventId i) (i_invitee i) (i_senderGUID i) t (i_status i) (i_rank i) (i_text i).
Definition SetRank (r : Z) (i : CalendarInvite) : CalendarInvite :=
  mkInvite (i_inviteId i) (i_eventId i) (i_invitee i) (i_senderGUID i) (i_statusTime i) (i_status i) r (i_text i).

(** Rows of calendar_events and calendar_invites, by the id they are keyed with: the
    titles, descriptions and texts as the columns have them
    (sql/base/characters_database.sql). *)
Definition CALENDAR_COLUMN : Z := 255.
Record EventRow := mkEventRow {
  er_creator : Z; er_title : list Z; er_description : list Z; er_type : Z; er_dungeon : Z; er_eventtime : Z; er_flags : Z; er_time2 : Z
}.
Record InviteRow := mkInviteRow {
  ir_event : Z; ir_invitee : Z; ir_sender : Z; ir_status : Z; ir_statustime : Z; ir_rank : Z; ir_text : list Z
}.
Definition event_row `{columns : TextColumns} (e : CalendarEvent) : EventRow :=
  mkEventRow (GUID_LOPART (e_creatorGUID e)) (held CALENDAR_COLUMN (e_title e)) (held CALENDAR_COLUMN (e_description e)) (u8 (e_type e)) (e_dungeonId e)
    (u32 (e_eventTime e)) (e_flags e) (u32 (e_timezoneTime e)).
Definition invite_row `{columns : TextColumns} (i : CalendarInvite) : InviteRow :=
  mkInviteRow (i_eventId i) (GUID_LOPART (i_invitee i)) (GUID_LOPART (i_senderGUID i)) (u8 (i_status i)) (u32 (i_statusTime i)) (u8 (i_rank i))
    (held CALENDAR_COLUMN (i_text i)).

Record Mail := mkMail { m_receiver : Z; m_subject : list Z; m_body : list Z }.
(** The manager, the objects its vectors point to, the tables, and what was sent. *)
Record CalendarMgr := mkCalendar {
  _events : gmap Z CalendarEvent; _invites : gmap Z (list Z); _freeEventIds : list Z; _freeInviteIds : list Z; _maxEventId : Z; _maxInviteId : Z;
  i_heap : gmap Z CalendarInvite; calendar_events : gmap Z EventRow; calendar_invites : gmap Z InviteRow; c_mail : list Mail; c_sent : list (Z * WorldPacket)
}.
Abbreviation CA := (action CalendarMgr exn).

Record CalendarPlayer := mkCalendarPlayer { cp_level : Z; cp_guildId : Z; cp_team : Z; cp_in_world : bool }.
(** The rest of the server: who is connected, what the tables of characters say, the
    connected members of a guild, the clock and the time zone.  [malloc] gives an
    address that is not in use. *)
Class CalendarWorld := mkCalendarWorld {
  FindConnectedPlayer : Z -> option CalendarPlayer;
  GetLevelFromDB : Z -> Z;
  GetGuildIdFromDB : Z -> Z;
  GetGuildById : Z -> option (list Z);
  FindPlayerByName : list Z -> option Z;
  race_by_name : list Z -> option (Z * Z);
  TeamForRace : Z -> Z;
  social_flags : Z -> Z -> option Z;
  CONFIG_ALLOW_TWO_SIDE_INTERACTION_CALENDAR : bool;
  now : Z; localtime_r : Z -> tm; mktime : tm -> Z; timezone : Z;
  malloc : gset Z -> Z
}.

Section Manager.
Context `{columns : TextColumns} `{world : CalendarWorld}.

Definition FindPlayer (guid : Z) : option CalendarPlayer :=
  match FindConnectedPlayer guid with Some p => if cp_in_world p then Some p else None | None => None end.

Definition with_events (x : gmap Z CalendarEvent) (c : CalendarMgr) : CalendarMgr :=
  mkCalendar x (_invites c) (_freeEventIds c) (_freeInviteIds c) (_maxEventId c) (_maxInviteId c) (i_heap c) (calendar_events c) (calendar_invites c) (c_mail c) (c_sent c).
Definition with_invites (x : gmap Z (list Z)) (c : CalendarMgr) : CalendarMgr :=
  mkCalendar (_events c) x (_freeEventIds c) (_freeInviteIds c) (_maxEventId c) (_maxInviteId c) (i_heap c) (calendar_events c) (calendar_invites c) (c_mail c) (c_sent c).
Definition with_event_ids (free : list Z) (max : Z) (c : CalendarMgr) : CalendarMgr :=
  mkCalendar (_events c) (_invites c) free (_freeInviteIds c) max (_maxInviteId c) (i_heap c) (calendar_events c) (calendar_invites c) (c_mail c) (c_sent c).
Definition with_invite_ids (free : list Z) (max : Z) (c : CalendarMgr) : CalendarMgr :=
  mkCalendar (_events c) (_invites c) (_freeEventIds c) free (_maxEventId c) max (i_heap c) (calendar_events c) (calendar_invites c) (c_mail c) (c_sent c).
Definition with_heap (x : gmap Z CalendarInvite) (c : CalendarMgr) : CalendarMgr :=
  mkCalendar (_events c) (_invites c) (_freeEventIds c) (_freeInviteIds c) (_maxEventId c) (_maxInviteId c) x (calendar_events c) (calendar_invites c) (c_mail c) (c_sent c).
Definition with_tables (x : gmap Z EventRow) (y : gmap Z InviteRow) (c : CalendarMgr) : CalendarMgr :=
  mkCalendar (_events c) (_invites c) (_freeEventIds c) (_freeInviteIds c) (_maxEventId c) (_maxInviteId c) (i_heap c) x y (c_mail c) (c_sent c).
Definition with_output (x : list Mail) (y : list (Z * WorldPacket)) (c : CalendarMgr) : CalendarMgr :=
  mkCalendar (_events c) (_invites c) (_freeEventIds c) (_freeInviteIds c) (_maxEventId c) (_maxInviteId c) (i_heap c) (calendar_events c) (calendar_invites c) x y.

(** ** Numbers *)

Definition FreeEventId (id : Z) : CA unit :=
  modify (fun c => if id =? _maxEventId c then with_event_ids (_freeEventIds c) (u64 (_maxEventId c - 1)) c
                   else with_event_ids (_freeEventIds c ++ [id]) (_maxEventId c) c).
Definition GetFreeEventId : CA Z :=
  fun c => match _freeEventIds c with
           | [] => let id := u64 (_maxEventId c + 1) in (Ret id, with_event_ids [] id c)
           | eventId :: free => (Ret eventId, with_event_ids free (_maxEventId c) c)
           end.
Definition FreeInviteId (id : Z) : CA unit :=
  modify (fun c => if id =? _maxInviteId c then with_invite_ids (_freeInviteIds c) (u64 (_maxInviteId c - 1)) c
                   else with_invite_ids (_freeInviteIds c ++ [id]) (_maxInviteId c) c).
Definition GetFreeInviteId : CA Z :=
  fun c => match _freeInviteIds c with
           | [] => let id := u64 (_maxInviteId c + 1) in (Ret id, with_invite_ids [] id c)
           | inviteId :: free => (Ret inviteId, with_invite_ids free (_maxInviteId c) c)
           end.

(** ** Objects *)

Definition invite_at (a : Z) : CA CalendarInvite := let! h := gets i_heap in of_option (h !! a).
Definition new_invite (i : CalendarInvite) : CA Z :=
  fun c => let a := malloc (dom (i_heap c)) in (Ret a, with_heap (<[a := i]> (i_heap c)) c).
Definition set_invite (a : Z) (i : CalendarInvite) : CA unit := modify (fun c => with_heap (<[a := i]> (i_heap c)) c).
(** The destructor gives the number back. *)
Definition delete_invite (a : Z) : CA unit :=
  let! i := invite_at a in
  do! FreeInviteId (i_inviteId i) in
  modify (fun c => with_heap (delete a (i_heap c)) c).
Definition GetEvent (eventId : Z) : CA (option (Z * CalendarEvent)) :=
  gets (fun c => List.find (fun x => e_eventId x.2 =? eventId) (entries Z.le (_events c))).
Fixpoint find_invite (inviteId : Z) (l : list Z) : CA (option Z) :=
  match l with
  | [] => ret None
  | a :: l => let! i := invite_at a in if i_inviteId i =? inviteId then ret (Some a) else find_invite inviteId l
  end.
Definition all_invites (c : CalendarMgr) : list Z := concat (map snd (entries Z.le (_invites c))).
Definition GetInvite (inviteId : Z) : CA (option Z) := let! l := gets all_invites in find_invite inviteId l.
(** [operator[]] makes an empty vector where there is none. *)
Definition GetEventInvites (eventId : Z) : CA (list Z) :=
  fun c => let l := entry_at [] (_invites c) eventId in (Ret l, with_invites (<[eventId := l]> (_invites c)) c).
Fixpoint invites_of (guid : Z) (l : list Z) : CA (list Z) :=
  match l with
  | [] => ret []
  | a :: l => let! i := invite_at a in let! rest := invites_of guid l in ret (if i_invitee i =? guid then a :: rest else rest)
  end.
Definition GetPlayerInvites (guid : Z) : CA (list Z) := let! l := gets all_invites in invites_of guid l.
Definition pending (i : CalendarInvite) : bool :=
  (i_status i =? CALENDAR_STATUS_INVITED) || (i_status i =? CALENDAR_STATUS_TENTATIVE) || (i_status i =? CALENDAR_STATUS_NOT_SIGNED_UP).
Definition GetPlayerNumPending (guid : Z) : CA Z :=
  let! l := GetPlayerInvites guid in
  fold_m (fun n a => let! i := invite_at a in ret (if pending i then u32 (n + 1) else n)) l 0.
(** The events of the vectors with an invitation of the player. *)
Fixpoint invited_events (guid : Z) (l : list (Z * list Z)) (s : gset Z) : CA (gset Z) :=
  match l with
  | [] => ret s
  | (eventId, v) :: l =>
    let! mine := invites_of guid v in
    let! e := GetEvent eventId in
    invited_events guid l (match mine, e with _ :: _, Some (a, _) => {[a]} ∪ s | _, _ => s end)
  end.
Definition GetPlayerEvents (guid : Z) : CA (gset Z) :=
  let! l := gets (fun c => entries Z.le (_invites c)) in
  let! s := invited_events guid l ∅ in
  match FindConnectedPlayer guid with
  | None => ret s
  | Some p => gets (fun c => s ∪ dom (filter (fun x => e_guildId x.2 = cp_guildId p) (_events c)))
  end.

(** ** Packets *)

Definition SendDirectMessage (to : Z) (p : WorldPacket) : CA unit := modify (fun c => with_output (c_mail c) (c_sent c ++ [(to, p)]) c).
Definition SendMail (m : Mail) : CA unit := modify (fun c => with_output (c_mail c ++ [m]) (c_sent c) c).
(** A packet is built, then used. *)
Definition with_packet (p : WorldPacket) (k : WorldPacket -> CA unit) : CA unit := do! built p in k p.
Definition packed_time (t : Z) : BB unit := AppendPackedTime localtime_r t.
Definition to_guild (guildId : Z) (packet : WorldPacket) : CA unit :=
  match GetGuildById guildId with Some members => for_each members (fun p => SendDirectMessage p packet) | None => ret tt end.
Definition SendPacketToAllEventRelatives (packet : WorldPacket) (e : CalendarEvent) : CA unit :=
  do! when (IsGuildEvent e || IsGuildAnnouncement e) (to_guild (e_guildId e) packet) in
  let! invites := GetEventInvites (e_eventId e) in
  for_each invites (fun a =>
    let! i := invite_at a in
    match FindConnectedPlayer (i_invitee i) with
    | Some p => when (negb (IsGuildEvent e) || negb (cp_guildId p =? e_guildId e)) (SendDirectMessage (i_invitee i) packet)
    | None => ret tt
    end).
Definition no_response_time : Z := 946684800.
Definition level_of (guid : Z) (o : option CalendarPlayer) : Z := match o with Some p => cp_level p | None => GetLevelFromDB guid end.
Definition invite_packet (i : CalendarInvite) : WorldPacket :=
  stream (new_packet SMSG_CALENDAR_EVENT_INVITE)
    (do! appendPackGUID (i_invitee i) in
     do! write_uint64 (i_eventId i) in
     do! write_uint64 (i_inviteId i) in
     do! write_uint8 (u8 (level_of (i_invitee i) (FindConnectedPlayer (i_invitee i)))) in
     do! write_uint8 (u8 (i_status i)) in
     do! write_uint8 (b2z (negb (i_statusTime i =? no_response_time))) in
     do! (if negb (i_statusTime i =? no_response_time) then packed_time (i_statusTime i) else ret tt) in
     write_uint8 (b2z (negb (i_senderGUID i =? i_invitee i)))).
Definition SendCalendarEventInvite (i : CalendarInvite) : CA unit :=
  let! o := GetEvent (i_eventId i) in
  with_packet (invite_packet i) (fun packet =>
  match o with
  | None => match FindConnectedPlayer (i_senderGUID i) with Some _ => SendDirectMessage (i_senderGUID i) packet | None => ret tt end
  | Some (_, e) => when (negb (e_creatorGUID e =? i_invitee i)) (SendPacketToAllEventRelatives packet e)
  end).
Definition update_packet (e : CalendarEvent) (oldEventTime : Z) : WorldPacket :=
  stream (new_packet SMSG_CALENDAR_EVENT_UPDATED_ALERT)
    (do! write_uint8 1 in do! write_uint64 (e_eventId e) in do! packed_time oldEventTime in do! write_uint32 (e_flags e) in
     do! packed_time (e_eventTime e) in do! write_uint8 (u8 (e_type e)) in do! write_uint32 (u32 (e_dungeonId e)) in do! write_string (e_title e) in
     do! write_string (e_description e) in do! write_uint8 CALENDAR_REPEAT_NEVER in do! write_uint32 CALENDAR_MAX_INVITES in write_uint32 0).
Definition SendCalendarEventUpdateAlert (e : CalendarEvent) (oldEventTime : Z) : CA unit :=
  with_packet (update_packet e oldEventTime) (fun packet => SendPacketToAllEventRelatives packet e).
Definition SendCalendarEventStatus (e : CalendarEvent) (i : CalendarInvite) : CA unit :=
  with_packet (stream (new_packet SMSG_CALENDAR_EVENT_STATUS)
    (do! appendPackGUID (i_invitee i) in do! write_uint64 (e_eventId e) in do! packed_time (e_eventTime e) in do! write_uint32 (e_flags e) in
     do! write_uint8 (u8 (i_status i)) in do! write_uint8 (u8 (i_rank i)) in packed_time (i_statusTime i)))
    (fun packet => SendPacketToAllEventRelatives packet e).
Definition SendCalendarEventRemovedAlert (e : CalendarEvent) : CA unit :=
  with_packet (stream (new_packet SMSG_CALENDAR_EVENT_REMOVED_ALERT)
    (do! write_uint8 1 in do! write_uint64 (e_eventId e) in packed_time (e_eventTime e)))
    (fun packet => SendPacketToAllEventRelatives packet e).
Definition SendCalendarEventInviteRemove (e : CalendarEvent) (i : CalendarInvite) (flags : Z) : CA unit :=
  with_packet (stream (new_packet SMSG_CALENDAR_EVENT_INVITE_REMOVED)
    (do! appendPackGUID (i_invitee i) in do! write_uint64 (i_eventId i) in do! write_uint32 flags in write_uint8 1))
    (fun packet => SendPacketToAllEventRelatives packet e).
Definition SendCalendarEventModeratorStatusAlert (e : CalendarEvent) (i : CalendarInvite) : CA unit :=
  with_packet (stream (new_packet SMSG_CALENDAR_EVENT_MODERATOR_STATUS_ALERT)
    (do! appendPackGUID (i_invitee i) in do! write_uint64 (i_eventId i) in do! write_uint8 (u8 (i_rank i)) in write_uint8 1))
    (fun packet => SendPacketToAllEventRelatives packet e).
Definition alert_packet (e : CalendarEvent) (i : CalendarInvite) : WorldPacket :=
  stream (new_packet SMSG_CALENDAR_EVENT_INVITE_ALERT)
    (do! write_uint64 (e_eventId e) in do! write_string (e_title e) in do! packed_time (e_eventTime e) in do! write_uint32 (e_flags e) in
     do! write_uint32 (e_type e) in do! write_uint32 (u32 (e_dungeonId e)) in do! write_uint64 (i_inviteId i) in do! write_uint8 (u8 (i_status i)) in
     do! write_uint8 (u8 (i_rank i)) in do! appendPackGUID (e_creatorGUID e) in appendPackGUID (i_senderGUID i)).
Definition SendCalendarEventInviteAlert (e : CalendarEvent) (i : CalendarInvite) : CA unit :=
  with_packet (alert_packet e i) (fun packet =>
  if IsGuildEvent e || IsGuildAnnouncement e then to_guild (e_guildId e) packet
  else match FindConnectedPlayer (i_invitee i) with Some _ => SendDirectMessage (i_invitee i) packet | None => ret tt end).
Definition write_invitee (e : CalendarEvent) (i : CalendarInvite) : BB unit :=
  let invitee := FindPlayer (i_invitee i) in
  let guild := match invitee with Some p => cp_guildId p | None => GetGuildIdFromDB (i_invitee i) end in
  do! appendPackGUID (i_invitee i) in do! write_uint8 (u8 (level_of (i_invitee i) invitee)) in do! write_uint8 (u8 (i_status i)) in do! write_uint8 (u8 (i_rank i)) in
  do! write_uint8 (b2z (IsGuildEvent e && (e_guildId e =? guild))) in do! write_uint64 (i_inviteId i) in do! packed_time (i_statusTime i) in write_string (i_text i).
Definition event_packet (e : CalendarEvent) (sendType : Z) (l : list CalendarInvite) : WorldPacket :=
  stream (new_packet SMSG_CALENDAR_SEND_EVENT)
    (do! write_uint8 sendType in do! appendPackGUID (e_creatorGUID e) in do! write_uint64 (e_eventId e) in do! write_string (e_title e) in
     do! write_string (e_description e) in do! write_uint8 (u8 (e_type e)) in do! write_uint8 CALENDAR_REPEAT_NEVER in do! write_uint32 CALENDAR_MAX_INVITES in
     do! write_uint32 (u32 (e_dungeonId e)) in do! write_uint32 (e_flags e) in do! packed_time (e_eventTime e) in do! packed_time (e_timezoneTime e) in
     do! write_uint32 (e_guildId e) in do! write_uint32 (u32 (zlen l)) in write_all (write_invitee e) l).
Fixpoint read_invites (l : list Z) : CA (list CalendarInvite) :=
  match l with [] => ret [] | a :: l => let! i := invite_at a in let! rest := read_invites l in ret (i :: rest) end.
Definition SendCalendarEvent (guid : Z) (e : CalendarEvent) (sendType : Z) : CA unit :=
  match FindConnectedPlayer guid with
  | None => ret tt
  | Some _ => let! v := GetEventInvites (e_eventId e) in let! l := read_invites v in with_packet (event_packet e sendType l) (SendDirectMessage guid)
  end.
Definition SendCalendarEventInviteRemoveAlert (guid : Z) (e : CalendarEvent) (status : Z) : CA unit :=
  match FindConnectedPlayer guid with
  | None => ret tt
  | Some _ => with_packet (stream (new_packet SMSG_CALENDAR_EVENT_INVITE_REMOVED_ALERT)
      (do! write_uint64 (e_eventId e) in do! packed_time (e_eventTime e) in do! write_uint32 (e_flags e) in write_uint8 (u8 status)))
      (SendDirectMessage guid)
  end.
Definition SendCalendarClearPendingAction (guid : Z) : CA unit :=
  match FindConnectedPlayer guid with None => ret tt | Some _ => SendDirectMessage guid (new_packet SMSG_CALENDAR_CLEAR_PENDING_ACTION) end.
Definition SendCalendarCommandResult (guid : Z) (err : CalendarError) (param : list Z) : CA unit :=
  match FindConnectedPlayer guid with
  | None => ret tt
  | Some _ => with_packet (stream (new_packet SMSG_CALENDAR_COMMAND_RESULT)
      (do! write_uint32 0 in do! write_uint8 0 in
       do! match err with
           | CALENDAR_ERROR_OTHER_INVITES_EXCEEDED | CALENDAR_ERROR_ALREADY_INVITED_TO_EVENT_S | CALENDAR_ERROR_IGNORING_YOU_S => write_string param
           | _ => write_uint8 0
           end in
       write_uint32 (calendar_error_value err)))
      (SendDirectMessage guid)
  end.

(** ** Changes *)

Definition UpdateEvent (e : CalendarEvent) : CA unit :=
  modify (fun c => with_tables (<[e_eventId e := event_row e]> (calendar_events c)) (calendar_invites c) c).
Definition UpdateInvite (i : CalendarInvite) : CA unit :=
  modify (fun c => with_tables (calendar_events c) (<[i_inviteId i := invite_row i]> (calendar_invites c)) c).
Definition DEL_CALENDAR_INVITE (id : Z) : CA unit := modify (fun c => with_tables (calendar_events c) (delete id (calendar_invites c)) c).
Definition DEL_CALENDAR_EVENT (id : Z) : CA unit := modify (fun c => with_tables (delete id (calendar_events c)) (calendar_invites c) c).
(** The new event's address is of the set from here on. *)
Definition AddEvent (e : CalendarEvent) (sendType : Z) : CA unit :=
  do! modify (fun c => with_events (<[malloc (dom (_events c)) := e]> (_events c)) c) in
  do! UpdateEvent e in
  SendCalendarEvent (e_creatorGUID e) e sendType.
Definition push_invite (eventId a : Z) : CA unit :=
  modify (fun c => with_invites (<[eventId := entry_at [] (_invites c) eventId ++ [a]]> (_invites c)) c).
Definition AddInvite (e : CalendarEvent) (invite : Z) : CA unit :=
  let! i := invite_at invite in
  do! when (negb (IsGuildAnnouncement e)) (SendCalendarEventInvite i) in
  do! when (negb (IsGuildEvent e) || (i_invitee i =? e_creatorGUID e)) (SendCalendarEventInviteAlert e i) in
  when (negb (IsGuildAnnouncement e)) (do! push_invite (i_eventId i) invite in UpdateInvite i).
Definition BuildCalendarMailSubject (e : CalendarEvent) (remover : Z) : list Z := dec remover ++ str ":" ++ e_title e.
Definition BuildCalendarMailBody (e : CalendarEvent) : list Z := dec (u32 (pack_tm (localtime_r (e_eventTime e)))).
(** The receiver of a mail is a low guid. *)
Definition remove_one (mail : Z -> Mail) (remover a : Z) : CA unit :=
  let! i := invite_at a in
  do! DEL_CALENDAR_INVITE (i_inviteId i) in
  do! when (negb (remover =? 0) && negb (i_invitee i =? remover)) (SendMail (mail (GUID_LOPART (i_invitee i)))) in
  delete_invite a.
Definition RemoveEvent (eventId remover : Z) : CA unit :=
  let! o := GetEvent eventId in
  match o with
  | None => SendCalendarCommandResult remover CALENDAR_ERROR_EVENT_INVALID []
  | Some (a, e) =>
    do! SendCalendarEventRemovedAlert e in
    let! eventInvites := GetEventInvites eventId in
    do! for_each eventInvites (remove_one (fun to => mkMail to (BuildCalendarMailSubject e remover) (BuildCalendarMailBody e)) remover) in
    do! modify (fun c => with_invites (delete eventId (_invites c)) c) in
    do! DEL_CALENDAR_EVENT eventId in
    do! FreeEventId (e_eventId e) in
    modify (fun c => with_events (delete a (_events c)) c)
  end.
Fixpoint position (inviteId : Z) (l : list Z) (k : nat) : CA (option (nat * Z)) :=
  match l with
  | [] => ret None
  | a :: l => let! i := invite_at a in if i_inviteId i =? inviteId then ret (Some (k, a)) else position inviteId l (S k)
  end.
Definition RemoveInvite (inviteId eventId : Z) : CA unit :=
  let! o := GetEvent eventId in
  match o with
  | None => ret tt
  | Some (_, e) =>
    let! v := GetEventInvites eventId in
    let! p := position inviteId v 0 in
    match p with
    | None => ret tt
    | Some (k, a) =>
      let! i := invite_at a in
      do! DEL_CALENDAR_INVITE (i_inviteId i) in
      do! when (negb (IsGuildEvent e)) (SendCalendarEventInviteRemoveAlert (i_invitee i) e CALENDAR_STATUS_REMOVED) in
      do! SendCalendarEventInviteRemove e i (e_flags e) in
      do! delete_invite a in
      modify (fun c => with_invites (alter (base.delete k) eventId (_invites c)) c)
    end
  end.
(** The walk over the events: an event that was erased on the way is not visited, and
    from the current one, when it was erased, there is no next. *)
Fixpoint each_event (l : list Z) (chosen : CalendarEvent -> bool) (remover : Z) : CA unit :=
  match l with
  | [] => ret tt
  | a :: l =>
    let! es := gets _events in
    match es !! a with
    | None => each_event l chosen remover
    | Some e =>
      do! when (chosen e) (RemoveEvent (e_eventId e) remover) in
      let! es := gets _events in
      if bool_decide (a ∈ dom es) then each_event l chosen remover else crash
    end
  end.
Definition RemoveAllPlayerEventsAndInvites (guid : Z) : CA unit :=
  let! es := gets _events in
  do! each_event (keys Z.le es) (fun e => e_creatorGUID e =? guid) 0 in
  let! playerInvites := GetPlayerInvites guid in
  for_each playerInvites (fun a => let! i := invite_at a in RemoveInvite (i_inviteId i) (i_eventId i)).
Definition RemovePlayerGuildEventsAndSignups (guid guildId : Z) : CA unit :=
  let! es := gets _events in
  do! each_event (keys Z.le es) (fun e => (e_creatorGUID e =? guid) && (IsGuildEvent e || IsGuildAnnouncement e)) guid in
  let! playerInvites := GetPlayerInvites guid in
  for_each playerInvites (fun a =>
    let! i := invite_at a in
    let! o := GetEvent (i_eventId i) in
    match o with
    | Some (_, e) => when (IsGuildEvent e && (e_guildId e =? guildId)) (RemoveInvite (i_inviteId i) (i_eventId i))
    | None => ret tt
    end).

(** ** Loading *)

Definition event_of (row : Z * EventRow) : CalendarEvent :=
  let r := row.2 in
  let creator := MAKE_NEW_GUID (er_creator r) 0 HIGHGUID_PLAYER in
  let guildId := if negb (Z.land (er_flags r) CALENDAR_FLAG_GUILD_EVENT =? 0) || negb (Z.land (er_flags r) CALENDAR_FLAG_WITHOUT_INVITES =? 0)
                 then GetGuildIdFromDB creator else 0 in
  mkEvent row.1 creator guildId (er_type r) (er_dungeon r) (er_eventtime r) (er_flags r) (er_time2 r) (er_title r) (er_description r).
Definition load_event (row : Z * EventRow) : CA unit :=
  modify (fun c => with_event_ids (_freeEventIds c) (Z.max (_maxEventId c) row.1) (with_events (<[malloc (dom (_events c)) := event_of row]> (_events c)) c)).
Definition invite_of (row : Z * InviteRow) : CalendarInvite :=
  let r := row.2 in
  mkInvite row.1 (ir_event r) (MAKE_NEW_GUID (ir_invitee r) 0 HIGHGUID_PLAYER) (MAKE_NEW_GUID (ir_sender r) 0 HIGHGUID_PLAYER)
    (ir_statustime r) (ir_status r) (ir_rank r) (ir_text r).
Definition load_invite (row : Z * InviteRow) : CA unit :=
  let! a := new_invite (invite_of row) in
  do! push_invite (ir_event row.2) a in
  modify (fun c => with_invite_ids (_freeInviteIds c) (Z.max (_maxInviteId c) row.1) c).
(** The numbers below the greatest that are not in use. *)
Definition free_event (id : Z) : CA unit :=
  let! o := GetEvent id in
  match o with Some _ => ret tt | None => modify (fun c => with_event_ids (_freeEventIds c ++ [id]) (_maxEventId c) c) end.
Definition free_invite (id : Z) : CA unit :=
  let! o := GetInvite id in
  match o with Some _ => ret tt | None => modify (fun c => with_invite_ids (_freeInviteIds c ++ [id]) (_maxInviteId c) c) end.
Definition LoadFromDB (events : list (Z * EventRow)) (invites : list (Z * InviteRow)) : CA unit :=
  do! modify (fun c => with_invite_ids (_freeInviteIds c) 0 (with_event_ids (_freeEventIds c) 0 c)) in
  do! for_each events load_event in
  do! for_each invites load_invite in
  let! n := gets _maxEventId in
  do! for_each (seqZ 1 (n - 1)) free_event in
  let! m := gets _maxInviteId in
  for_each (seqZ 1 (m - 1)) free_invite.
End Manager.
