(* ===== verification/CalendarHandler.v ===== *)
(** * The calendar: requests
    (src/server/game/Handlers/CalendarHandler.cpp)

    Each handler reads its packet with the readers of [ByteBuffer] and runs the
    manager of [Calendar].  The filters by guild and by arena team, and the requests
    about saved instances, are not of the calendar's state and are left out. *)

From stdpp Require Import base gmap list strings.
From Stdlib Require Import ZArith Lia.
From S2P Require Import Prelude ByteBuffer StdMap Util Columns ObjectGuid WorldPacket LfgPackets ActionLogic Calendar.
#[local] Open Scope Z_scope.

Definition SMSG_CALENDAR_SEND_CALENDAR : Z := 0x436.
Definition SMSG_CALENDAR_SEND_NUM_PENDING : Z := 0x448.
Definition SOCIAL_FLAG_IGNORED : Z := 0x02.

(** What the calendar of a player shows of his instances: those he is bound to, with
    whether for good, and the times raids are reset. *)
Record BoundInstance := mkBound { bi_perm : bool; bi_map : Z; bi_difficulty : Z; bi_reset : Z; bi_id : Z }.
Class CalendarInstances := mkCalendarInstances {
  GetBoundInstances : Z -> list BoundInstance;
  GetResetTimeMap : list (Z * Z);
  IsRaid : Z -> bool
}.

Section Handlers.
Context `{columns : TextColumns} `{world : CalendarWorld} `{instances : CalendarInstances}.

(** Reading a part of the packet, and what is left of it. *)
Definition reading {A} (m : BB A) (data : ByteBuffer) : CA (A * ByteBuffer) :=
  fun c => match m data with (Ret a, rest) => (Ret (a, rest), c) | (Throw e, _) => (Throw e, c) | (Crash, _) => (Crash, c) end.
Definition set_event (a : Z) (e : CalendarEvent) : CA unit := modify (fun c => with_events (<[a := e]> (_events c)) c).
Definition read_time : BB Z := ReadPackedTime mktime timezone.
Definition too_old (t : Z) : bool := t <? now - 86400.
Definition error (me : Z) (e : CalendarError) : CA unit := SendCalendarCommandResult me e [].

(** ** The calendar of a player *)

Definition write_invite_of (x : CalendarInvite * option CalendarEvent) : BB unit :=
  let i := x.1 in
  do! write_uint64 (i_eventId i) in do! write_uint64 (i_inviteId i) in do! write_uint8 (u8 (i_status i)) in do! write_uint8 (u8 (i_rank i)) in
  match x.2 with
  | Some e => do! write_uint8 (b2z (IsGuildEvent e)) in appendPackGUID (e_creatorGUID e)
  | None => do! write_uint8 0 in appendPackGUID (i_senderGUID i)
  end.
Definition write_event_of (e : CalendarEvent) : BB unit :=
  do! write_uint64 (e_eventId e) in do! write_string (e_title e) in do! write_uint32 (e_type e) in do! packed_time (e_eventTime e) in
  do! write_uint32 (e_flags e) in do! write_uint32 (u32 (e_dungeonId e)) in appendPackGUID (e_creatorGUID e).
Definition write_instance (b : BoundInstance) : BB unit :=
  do! write_uint32 (bi_map b) in do! write_uint32 (bi_difficulty b) in do! write_uint32 (u32 (bi_reset b - now)) in write_uint64 (bi_id b).
(** The first reset of each raid map. *)
Fixpoint raid_resets (l : list (Z * Z)) (sent : list Z) : list (Z * Z) :=
  match l with
  | [] => []
  | (key, t) :: l =>
    let mapId := PAIR32_LOPART key in
    if bool_decide (mapId ∈ sent) then raid_resets l sent
    else if IsRaid mapId then (mapId, t) :: raid_resets l (mapId :: sent) else raid_resets l sent
  end.
Definition write_reset (x : Z * Z) : BB unit := do! write_uint32 (u32 x.1) in do! write_uint32 (u32 (x.2 - now)) in write_uint32 0.
Definition calendar_packet (me : Z) (invites : list (CalendarInvite * option CalendarEvent)) (events : list CalendarEvent) : WorldPacket :=
  let bound := filter (fun b => bi_perm b = true) (GetBoundInstances me) in
  let resets := raid_resets GetResetTimeMap [] in
  stream (new_packet SMSG_CALENDAR_SEND_CALENDAR)
    (do! write_uint32 (u32 (zlen invites)) in do! write_all write_invite_of invites in
     do! write_uint32 (u32 (zlen events)) in do! write_all write_event_of events in
     do! write_uint32 (u32 now) in do! packed_time now in
     do! write_uint32 (u32 (zlen bound)) in do! write_all write_instance bound in
     do! write_uint32 1135753200 in
     do! write_uint32 (u32 (zlen resets)) in do! write_all write_reset resets in
     write_uint32 0).
Definition with_event (acc : list (CalendarInvite * option CalendarEvent)) (a : Z) : CA (list (CalendarInvite * option CalendarEvent)) :=
  let! i := invite_at a in let! o := GetEvent (i_eventId i) in ret (acc ++ [(i, snd <$> o)]).
Definition HandleCalendarGetCalendar (me : Z) : CA unit :=
  let! l := GetPlayerInvites me in
  let! invites := fold_m with_event l [] in
  let! s := GetPlayerEvents me in
  let! es := gets _events in
  with_packet (calendar_packet me invites (omap (fun a => es !! a) (set_order Z.le s))) (SendDirectMessage me).
Definition HandleCalendarGetEvent (me : Z) (recvData : ByteBuffer) : CA unit :=
  let! r := reading read_uint64 recvData in
  let! o := GetEvent r.1 in
  match o with Some (_, e) => SendCalendarEvent me e CALENDAR_SENDTYPE_GET | None => error me CALENDAR_ERROR_EVENT_INVALID end.
Definition HandleCalendarGetNumPending (me : Z) : CA unit :=
  let! n := GetPlayerNumPending me in
  with_packet (stream (new_packet SMSG_CALENDAR_SEND_NUM_PENDING) (write_uint32 n)) (SendDirectMessage me).

(** ** Events *)

Record EventRequest := mkEventRequest {
  rq_title : list Z; rq_description : list Z; rq_type : Z; rq_dungeonId : Z; rq_eventTime : Z; rq_time2 : Z; rq_flags : Z
}.
Definition read_event : BB EventRequest :=
  let! title := read_string in let! description := read_string in let! type := read_uint8 in let! repeatable := read_uint8 in let! maxInvites := read_uint32 in
  let! dungeonId := read_int 4 in let! eventTime := read_time in let! time2 := read_time in let! flags := read_uint32 in
  ret (mkEventRequest title description type dungeonId eventTime time2 flags).
Fixpoint read_invitees (n : nat) : BB (list (Z * Z * Z)) :=
  match n with
  | O => ret []
  | S n => let! invitee := readPackGUID in let! status := read_uint8 in let! rank := read_uint8 in let! l := read_invitees n in ret ((invitee, status, rank) :: l)
  end.
Definition read_invite_list : BB (list (Z * Z * Z)) :=
  let! inviteCount := read_uint32 in read_invitees (Z.to_nat (Z.min inviteCount 100)).
Definition add_one (e : CalendarEvent) (sender : Z) (x : Z * Z * Z) : CA unit :=
  let! id := GetFreeInviteId in
  let! a := new_invite (mkInvite id (e_eventId e) x.1.1 sender no_response_time x.1.2 x.2 []) in
  AddInvite e a.
(** The invitation of an announcement is a local object: it is gone, and has given its
    number zero back, at the end of the block. *)
Definition announce (e : CalendarEvent) (sender : Z) : CA unit :=
  let! a := new_invite (mkInvite 0 (e_eventId e) 0 sender no_response_time CALENDAR_STATUS_NOT_SIGNED_UP CALENDAR_RANK_PLAYER []) in
  do! AddInvite e a in
  delete_invite a.
(** A packet that ends within the list deletes the event again. *)
Definition invitees_or_free (rest : ByteBuffer) (eventId : Z) : CA (list (Z * Z * Z)) :=
  match (read_invite_list rest).1 with
  | Ret l => ret l
  | Throw x => do! FreeEventId eventId in throw x
  | Crash => crash
  end.
Definition HandleCalendarAddEvent (me : Z) (recvData : ByteBuffer) : CA unit :=
  let! r := reading read_event recvData in
  let q := r.1 in
  if too_old (rq_eventTime q) then ret tt
  else
    let! id := GetFreeEventId in
    let e := mkEvent id me 0 (rq_type q) (rq_dungeonId q) (rq_eventTime q) (rq_flags q) (rq_time2 q) (rq_title q) (rq_description q) in
    let e := if IsGuildEvent e || IsGuildAnnouncement e then match FindPlayer me with Some p => SetGuildId (cp_guildId p) e | None => e end else e in
    do! (if IsGuildAnnouncement e then announce e me
         else let! l := invitees_or_free r.2 id in for_each l (add_one e me)) in
    AddEvent e CALENDAR_SENDTYPE_ADD.
Definition apply_request (q : EventRequest) (e : CalendarEvent) : CalendarEvent :=
  mkEvent (e_eventId e) (e_creatorGUID e) (e_guildId e) (rq_type q) (rq_dungeonId q) (rq_eventTime q) (rq_flags q) (rq_time2 q) (rq_title q) (rq_description q).
Definition HandleCalendarUpdateEvent (me : Z) (recvData : ByteBuffer) : CA unit :=
  let! r := reading (let! eventId := read_uint64 in let! inviteId := read_uint64 in let! q := read_event in ret (eventId, q)) recvData in
  let '(eventId, q) := r.1 in
  if too_old (rq_eventTime q) then ret tt
  else
    let! o := GetEvent eventId in
    match o with
    | Some (a, e) =>
      do! set_event a (apply_request q e) in
      do! UpdateEvent (apply_request q e) in
      SendCalendarEventUpdateAlert (apply_request q e) (e_eventTime e)
    | None => error me CALENDAR_ERROR_EVENT_INVALID
    end.
Definition HandleCalendarRemoveEvent (me : Z) (recvData : ByteBuffer) : CA unit :=
  let! r := reading read_uint64 recvData in RemoveEvent r.1 me.
Definition copy_one (e : CalendarEvent) (a : Z) : CA unit :=
  let! i := invite_at a in
  let! id := GetFreeInviteId in
  let! b := new_invite (copy_invite i id (e_eventId e)) in
  AddInvite e b.
Definition HandleCalendarCopyEvent (me : Z) (recvData : ByteBuffer) : CA unit :=
  let! r := reading (let! eventId := read_uint64 in let! inviteId := read_uint64 in let! t := read_time in ret (eventId, t)) recvData in
  let '(eventId, eventTime) := r.1 in
  if too_old eventTime then ret tt
  else
    let! o := GetEvent eventId in
    match o with
    | Some (_, oldEvent) =>
      let! id := GetFreeEventId in
      let newEvent := SetEventTime eventTime (copy_event oldEvent id) in
      do! AddEvent newEvent CALENDAR_SENDTYPE_COPY in
      let! invites := GetEventInvites eventId in
      for_each invites (copy_one newEvent)
    | None => error me CALENDAR_ERROR_EVENT_INVALID
    end.

(** ** Invitations *)

Record Invitee := mkInvitee { in_guid : Z; in_team : Z; in_guildId : Z }.
(** Who is invited: somebody in the world, or a character of the database. *)
Definition invitee_named (name : list Z) : option Invitee :=
  match FindPlayerByName name with
  | Some guid => match FindConnectedPlayer guid with Some p => Some (mkInvitee guid (cp_team p) (cp_guildId p)) | None => None end
  | None =>
    match race_by_name name with
    | Some (guid, race) => let guid := MAKE_NEW_GUID guid 0 HIGHGUID_PLAYER in
        if guid =? 0 then None else Some (mkInvitee guid (TeamForRace race) (GetGuildIdFromDB guid))
    | None => None
    end
  end.
Definition my_team (me : Z) : Z := match FindConnectedPlayer me with Some p => cp_team p | None => 0 end.
Definition my_guild (me : Z) : Z := match FindConnectedPlayer me with Some p => cp_guildId p | None => 0 end.
Definition ignored_by (guid me : Z) : bool := match social_flags guid me with Some f => negb (Z.land f SOCIAL_FLAG_IGNORED =? 0) | None => false end.
Definition event_invite (me eventId inviteId : Z) (name : list Z) (isPreInvite isGuildEvent : bool) : CA unit :=
  match invitee_named name with
  | None => error me CALENDAR_ERROR_PLAYER_NOT_FOUND
  | Some x =>
    if negb (my_team me =? in_team x) && negb CONFIG_ALLOW_TWO_SIDE_INTERACTION_CALENDAR then error me CALENDAR_ERROR_NOT_ALLIED
    else if ignored_by (in_guid x) me then SendCalendarCommandResult me CALENDAR_ERROR_IGNORING_YOU_S name
    else if negb isPreInvite then
      let! o := GetEvent eventId in
      match o with
      | Some (_, e) =>
        if IsGuildEvent e && (e_guildId e =? in_guildId x) then error me CALENDAR_ERROR_NO_GUILD_INVITES
        else
          let! id := GetFreeInviteId in
          let! a := new_invite (mkInvite id eventId (in_guid x) me no_response_time CALENDAR_STATUS_INVITED CALENDAR_RANK_PLAYER []) in
          AddInvite e a
      | None => error me CALENDAR_ERROR_EVENT_INVALID
      end
    else if isGuildEvent && (in_guildId x =? my_guild me) then error me CALENDAR_ERROR_NO_GUILD_INVITES
    else
      (* a local object again, with the number of the packet *)
      let i := mkInvite inviteId 0 (in_guid x) me no_response_time CALENDAR_STATUS_INVITED CALENDAR_RANK_PLAYER [] in
      do! SendCalendarEventInvite i in
      FreeInviteId inviteId
  end.
Definition read_invitation : BB (Z * Z * list Z * bool * bool) :=
  let! eventId := read_uint64 in let! inviteId := read_uint64 in let! name := read_string in let! pre := read_bool in let! guild := read_bool in
  ret (eventId, inviteId, name, pre, guild).
Definition HandleCalendarEventInvite (me : Z) (recvData : ByteBuffer) : CA unit :=
  let! r := reading read_invitation recvData in
  let '(eventId, inviteId, name, pre, guild) := r.1 in
  event_invite me eventId inviteId name pre guild.
Definition HandleCalendarEventSignup (me : Z) (recvData : ByteBuffer) : CA unit :=
  let! r := reading (let! eventId := read_uint64 in let! tentative := read_bool in ret (eventId, tentative)) recvData in
  let '(eventId, tentative) := r.1 in
  let! o := GetEvent eventId in
  match o with
  | Some (_, e) =>
    if IsGuildEvent e && negb (e_guildId e =? my_guild me) then error me CALENDAR_ERROR_GUILD_PLAYER_NOT_IN_GUILD
    else
      let! id := GetFreeInviteId in
      let! a := new_invite (mkInvite id eventId me me now (if tentative : bool then CALENDAR_STATUS_TENTATIVE else CALENDAR_STATUS_SIGNED_UP) CALENDAR_RANK_PLAYER []) in
      do! AddInvite e a in
      SendCalendarClearPendingAction me
  | None => error me CALENDAR_ERROR_EVENT_INVALID
  end.
(** A change of an invitation of an event, by their numbers. *)
Definition with_both (me eventId inviteId : Z) (locked : CalendarEvent -> bool) (k : CalendarEvent -> Z -> CalendarInvite -> CA unit) : CA unit :=
  let! o := GetEvent eventId in
  match o with
  | Some (_, e) =>
    if locked e then error me CALENDAR_ERROR_EVENT_LOCKED
    else
      let! p := GetInvite inviteId in
      match p with Some a => let! i := invite_at a in k e a i | None => error me CALENDAR_ERROR_NO_INVITE end
  | None => error me CALENDAR_ERROR_EVENT_INVALID
  end.
Definition HandleCalendarEventRsvp (me : Z) (recvData : ByteBuffer) : CA unit :=
  let! r := reading (let! eventId := read_uint64 in let! inviteId := read_uint64 in let! status := read_uint32 in ret (eventId, inviteId, status)) recvData in
  let '(eventId, inviteId, status) := r.1 in
  with_both me eventId inviteId (fun e => negb (status =? CALENDAR_STATUS_REMOVED) && negb (Z.land (e_flags e) CALENDAR_FLAG_INVITES_LOCKED =? 0)) (fun e a i =>
    let i := SetStatusTime now (SetStatus status i) in
    do! set_invite a i in
    do! UpdateInvite i in
    do! SendCalendarEventStatus e i in
    SendCalendarClearPendingAction me).
Definition HandleCalendarEventRemoveInvite (me : Z) (recvData : ByteBuffer) : CA unit :=
  let! r := reading (let! invitee := readPackGUID in let! inviteId := read_uint64 in let! ownerInviteId := read_uint64 in let! eventId := read_uint64 in
                     ret (invitee, inviteId, eventId)) recvData in
  let '(invitee, inviteId, eventId) := r.1 in
  let! o := GetEvent eventId in
  match o with
  | Some (_, e) => if e_creatorGUID e =? invitee then error me CALENDAR_ERROR_DELETE_CREATOR_FAILED else RemoveInvite inviteId eventId
  | None => error me CALENDAR_ERROR_NO_INVITE
  end.
Definition read_moderation : BB (Z * Z * Z * Z) :=
  let! invitee := readPackGUID in let! eventId := read_uint64 in let! inviteId := read_uint64 in let! ownerInviteId := read_uint64 in let! v := read_uint8 in
  ret (invitee, eventId, inviteId, v).
Definition HandleCalendarEventStatus (me : Z) (recvData : ByteBuffer) : CA unit :=
  let! r := reading read_moderation recvData in
  let '(invitee, eventId, inviteId, status) := r.1 in
  with_both me eventId inviteId (fun _ => false) (fun e a i =>
    let i := SetStatus status i in
    do! set_invite a i in
    do! UpdateInvite i in
    do! SendCalendarEventStatus e i in
    SendCalendarClearPendingAction invitee).
Definition HandleCalendarEventModeratorStatus (me : Z) (recvData : ByteBuffer) : CA unit :=
  let! r := reading read_moderation recvData in
  let '(invitee, eventId, inviteId, rank) := r.1 in
  with_both me eventId inviteId (fun _ => false) (fun e a i =>
    let i := SetRank rank i in
    do! set_invite a i in
    do! UpdateInvite i in
    SendCalendarEventModeratorStatusAlert e i).
Definition HandleCalendarComplain (me : Z) (recvData : ByteBuffer) : CA unit :=
  let! _ := reading (let! eventId := read_uint64 in read_uint64) recvData in ret tt.

Inductive calendar_request :=
| GetCalendar (me : Z)
| GetEventRequest (me : Z) (data : ByteBuffer)
| GetNumPending (me : Z)
| AddEventRequest (me : Z) (data : ByteBuffer)
| UpdateEventRequest (me : Z) (data : ByteBuffer)
| RemoveEventRequest (me : Z) (data : ByteBuffer)
| CopyEvent (me : Z) (data : ByteBuffer)
| EventInvite (me : Z) (data : ByteBuffer)
| EventSignup (me : Z) (data : ByteBuffer)
| EventRsvp (me : Z) (data : ByteBuffer)
| EventRemoveInvite (me : Z) (data : ByteBuffer)
| EventStatus (me : Z) (data : ByteBuffer)
| EventModeratorStatus (me : Z) (data : ByteBuffer)
| Complain (me : Z) (data : ByteBuffer).
Definition handle (r : calendar_request) : CA unit :=
  match r with
  | GetCalendar me => HandleCalendarGetCalendar me
  | GetEventRequest me data => HandleCalendarGetEvent me data
  | GetNumPending me => HandleCalendarGetNumPending me
  | AddEventRequest me data => HandleCalendarAddEvent me data
  | UpdateEventRequest me data => HandleCalendarUpdateEvent me data
  | RemoveEventRequest me data => HandleCalendarRemoveEvent me data
  | CopyEvent me data => HandleCalendarCopyEvent me data
  | EventInvite me data => HandleCalendarEventInvite me data
  | EventSignup me data => HandleCalendarEventSignup me data
  | EventRsvp me data => HandleCalendarEventRsvp me data
  | EventRemoveInvite me data => HandleCalendarEventRemoveInvite me data
  | EventStatus me data => HandleCalendarEventStatus me data
  | EventModeratorStatus me data => HandleCalendarEventModeratorStatus me data
  | Complain me data => HandleCalendarComplain me data
  end.
End Handlers.
