(* ===== verification/CalendarInv.v ===== *)
(** * The calendar: its invariant

    [numbers] is what the numbers of events and invitations have in common, [ev_ok]
    and [ids_ok] what it means for the two tables, [vec_ok] that no vector points to a
    deleted invitation, and [texts_ok] that no text is longer than what a client can
    send.  Packets leave all of it alone: two calendars are [same] when they differ in
    the packets sent and in empty vectors only. *)

From stdpp Require Import base gmap list.
From Stdlib Require Import ZArith Lia.
From S2P Require Import Prelude ByteBuffer StdMap Util Columns ObjectGuid WorldPacket LfgPackets ActionLogic Calendar CalendarHandler.
#[local] Open Scope Z_scope.

(** ** Numbers *)

(** The numbers up to the greatest are in use or free, each once. *)
Record numbers (live : Z -> Prop) (free : list Z) (max : Z) : Prop := mk_numbers {
  nb_max : is_u 64 max;
  nb_all id : 1 <= id <= max <-> live id \/ id ∈ free;
  nb_apart id : live id -> id ∉ free;
  nb_once : NoDup free
}.
Definition get_number (free : list Z) (max : Z) : Z * list Z * Z :=
  match free with [] => (u64 (max + 1), [], u64 (max + 1)) | id :: free => (id, free, max) end.
Definition give_back (id : Z) (free : list Z) (max : Z) : list Z * Z :=
  if id =? max then (free, u64 (max - 1)) else (free ++ [id], max).

Lemma numbers_ext live live' free max : (forall id, live id <-> live' id) -> numbers live free max -> numbers live' free max.
Proof. intros E [H1 H2 H3 H4]. split; try done; intros id; rewrite <- E; auto. Qed.
Lemma numbers_get live free max : numbers live free max -> max < 2 ^ 64 - 1 ->
  let '(id, free', max') := get_number free max in ~ live id /\ numbers (fun x => live x \/ x = id) free' max' /\ max' <= max + 1 /\ 1 <= id.
Proof.
  intros [H1 H2 H3 H4] Hmax. unfold get_number. destruct free as [|id free].
  - assert (Eu : u64 (max + 1) = max + 1) by (apply uwrap_id; unfold is_u in *; lia). rewrite Eu. split; [|split; [|split; [lia|unfold is_u in H1; lia]]].
    + intros H. assert (Hr : 1 <= max + 1 <= max) by (apply H2; now left). lia.
    + split; [unfold is_u in *; lia| |intros x _; apply not_elem_of_nil|constructor]. intros x. rewrite elem_of_nil. specialize (H2 x). rewrite elem_of_nil in H2.
      unfold is_u in H1. destruct (decide (x = max + 1)); [split; [auto|lia]|]. split; [intros Hx; left; left|intros [[Hx| ->]|[]]]; try lia.
      * assert (Hx' : live x \/ False) by (apply H2; lia). tauto.
      * apply (or_introl (B := False)), H2 in Hx. lia.
  - apply NoDup_cons in H4 as [H4 H5]. assert (Hid : 1 <= id <= max) by (apply H2; right; left). split; [intros H; apply (H3 id H); left|]. split; [|lia].
    split; [done| |intros x [Hx| ->]; [intros H; apply (H3 x Hx); now right|done]|done]. intros x. rewrite H2, elem_of_cons. tauto.
Qed.
Lemma numbers_free live free max id : numbers live free max -> live id ->
  let '(free', max') := give_back id free max in numbers (fun x => live x /\ x <> id) free' max' /\ max' <= max.
Proof.
  intros [H1 H2 H3 H4] Hl. unfold give_back. assert (Hid : 1 <= id <= max) by (apply H2; now left). unfold is_u in H1. destruct (Z.eqb_spec id max) as [->|Hne].
  - assert (Eu : u64 (max - 1) = max - 1) by (apply uwrap_id; unfold is_u; lia). rewrite Eu. split; [|lia]. split; [unfold is_u; lia| |intros x [Hx _]; now apply H3|done].
    intros x. specialize (H2 x). split; [intros Hx; assert (Hx' : live x \/ x ∈ free) by (apply H2; lia); destruct Hx'; [left; split; [done|lia]|now right]|].
    intros [[Hx Hne]|Hx]; [assert (1 <= x <= max) by (apply H2; now left); lia|]. assert (1 <= x <= max) by (apply H2; now right).
    destruct (decide (x = max)) as [->|]; [now destruct (H3 max Hl)|lia].
  - split; [|lia]. split; [done| |intros x [Hx Hn] [Hf|Hf%list_elem_of_singleton]%elem_of_app; [now apply (H3 x)|done]|].
    + intros x. rewrite H2, elem_of_app, list_elem_of_singleton. destruct (decide (x = id)) as [->|]; tauto.
    + apply NoDup_app. split; [done|]. split; [|apply NoDup_singleton]. intros x Hx Ex%list_elem_of_singleton. subst x. now apply (H3 id).
Qed.

(** ** The invariant *)

Definition vec (vs : gmap Z (list Z)) (ev : Z) : list Z := entry_at [] vs ev.
Definition live_event (es : gmap Z CalendarEvent) (id : Z) : Prop := exists a e, es !! a = Some e /\ e_eventId e = id.
Definition live_invite (h : gmap Z CalendarInvite) (id : Z) : Prop := exists a i, h !! a = Some i /\ i_inviteId i = id.
(** An event that is made has its number before it is in the set: [p]. *)
Record ev_ok `{columns : TextColumns} (p : option Z) (es : gmap Z CalendarEvent) (free : list Z) (max : Z) (t : gmap Z EventRow) : Prop := mk_ev_ok {
  ev_numbers : numbers (fun id => live_event es id \/ p = Some id) free max;
  ev_pending id : p = Some id -> ~ live_event es id;
  ev_unique a b e f : es !! a = Some e -> es !! b = Some f -> e_eventId e = e_eventId f -> a = b;
  ev_rows id r : t !! id = Some r <-> exists a e, es !! a = Some e /\ e_eventId e = id /\ r = event_row e
}.
Record vec_ok (p : option Z) (es : gmap Z CalendarEvent) (vs : gmap Z (list Z)) (h : gmap Z CalendarInvite) : Prop := mk_vec_ok {
  vc_live ev a : a ∈ vec vs ev -> exists i, h !! a = Some i /\ i_eventId i = ev;
  vc_once ev : NoDup (vec vs ev);
  vc_home ev a : a ∈ vec vs ev -> live_event es ev \/ p = Some ev
}.
Definition stored (vs : gmap Z (list Z)) (h : gmap Z CalendarInvite) (a : Z) (i : CalendarInvite) : Prop := a ∈ vec vs (i_eventId i) /\ h !! a = Some i.
Record ids_ok `{columns : TextColumns} (h : gmap Z CalendarInvite) (free : list Z) (max : Z) (vs : gmap Z (list Z)) (t : gmap Z InviteRow) : Prop := mk_ids_ok {
  id_numbers : numbers (live_invite h) free max;
  id_unique a b i j : h !! a = Some i -> h !! b = Some j -> i_inviteId i = i_inviteId j -> a = b;
  id_rows id r : t !! id = Some r <-> exists a i, stored vs h a i /\ i_inviteId i = id /\ r = invite_row i
}.
(** Titles, descriptions and texts fit into the packet they came with. *)
Definition small (e : CalendarEvent) : Prop := zlen (e_title e) <= TEXT_LIMIT /\ zlen (e_description e) <= TEXT_LIMIT.
Definition texts_ok (es : gmap Z CalendarEvent) (h : gmap Z CalendarInvite) : Prop :=
  (forall a e, es !! a = Some e -> small e) /\ (forall a i, h !! a = Some i -> zlen (i_text i) <= TEXT_LIMIT).
(** [plain]: no announcement was made and nobody was invited in advance. *)
Record calendar_ok `{columns : TextColumns} (plain : bool) (p : option Z) (c : CalendarMgr) : Prop := mk_calendar_ok {
  co_events : ev_ok p (_events c) (_freeEventIds c) (_maxEventId c) (calendar_events c);
  co_vectors : vec_ok p (_events c) (_invites c) (i_heap c);
  co_ids : plain = true -> ids_ok (i_heap c) (_freeInviteIds c) (_maxInviteId c) (_invites c) (calendar_invites c);
  co_texts : texts_ok (_events c) (i_heap c)
}.

(** ** What packets leave alone *)

Record same (c c' : CalendarMgr) : Prop := mk_same {
  sm_events : _events c' = _events c; sm_vec ev : vec (_invites c') ev = vec (_invites c) ev;
  sm_eids : _freeEventIds c' = _freeEventIds c /\ _maxEventId c' = _maxEventId c;
  sm_iids : _freeInviteIds c' = _freeInviteIds c /\ _maxInviteId c' = _maxInviteId c;
  sm_heap : i_heap c' = i_heap c; sm_tables : calendar_events c' = calendar_events c /\ calendar_invites c' = calendar_invites c; sm_mail : c_mail c' = c_mail c
}.
#[export] Instance same_preorder : PreOrder same.
Proof.
  split; [intros c; now split|]. intros c1 c2 c3 [A1 A2 [A3 A4] [A5 A6] A7 [A8 A9] A10] [B1 B2 [B3 B4] [B5 B6] B7 [B8 B9] B10].
  split; try congruence; try (split; congruence).
Qed.
#[export] Instance calendar_ok_proper `{columns : TextColumns} plain p : Proper (same ==> impl) (calendar_ok plain p).
Proof.
  intros c c' [S1 S2 [S3 S4] [S5 S6] S7 [S8 S9] _] [H1 H2 H3 H4]. split; rewrite ?S1, ?S3, ?S4, ?S5, ?S6, ?S7, ?S8, ?S9.
  - exact H1.
  - destruct H2 as [A B C]. split; intros ev; try intros a; rewrite S2; [apply A|apply B|apply C].
  - intros Hp. destruct (H3 Hp) as [A B C]. split; [done..|]. intros id r. rewrite C. unfold stored. now setoid_rewrite S2.
  - exact H4.
Qed.
(** No vector points to nothing. *)
Definition refs (c : CalendarMgr) : Prop := forall ev a, a ∈ vec (_invites c) ev -> is_Some (i_heap c !! a).
#[export] Instance refs_proper : Proper (same ==> impl) refs.
Proof. intros c c' S H ev a. rewrite (sm_vec _ _ S), (sm_heap _ _ S). apply H. Qed.
Lemma ok_refs `{columns : TextColumns} plain p c : calendar_ok plain p c -> refs c.
Proof. intros [_ H _ _] ev a Ha. destruct (vc_live _ _ _ _ H ev a Ha) as (i & -> & _). now eexists. Qed.

Section Silent.
Context `{columns : TextColumns} `{world : CalendarWorld}.

Definition silent {A} (m : CA A) : Prop := forall c, refs c -> exists a c', m c = (Ret a, c') /\ same c c'.
Lemma silent_ret {A} (a : A) : silent (ret a).
Proof. intros c _. now exists a, c. Qed.
Lemma silent_bind {A B} (m : CA A) (k : A -> CA B) : silent m -> (forall a, silent (k a)) -> silent (bind m k).
Proof.
  intros Hm Hk c H. destruct (Hm c H) as (a & c1 & E1 & S1). destruct (Hk a c1) as (b & c2 & E2 & S2); [now rewrite <- S1|].
  exists b, c2. rewrite (bind_ret _ _ _ _ _ E1). split; [done|]. now transitivity c1.
Qed.
Lemma silent_when b (m : CA unit) : silent m -> silent (when b m).
Proof. intros H. destruct b; [exact H|apply silent_ret]. Qed.
Lemma silent_each {A} (f : A -> CA unit) l : (forall x, x ∈ l -> silent (f x)) -> silent (for_each l f).
Proof. induction l as [|x l IH]; intros H; [apply silent_ret|]. apply silent_bind; [apply H; left|]. intros _. apply IH. intros y Hy. apply H. now right. Qed.
Lemma silent_send to p : silent (SendDirectMessage to p).
Proof. intros c _. eexists tt, _. split; [reflexivity|]. now split. Qed.
Lemma silent_GetEvent id : silent (GetEvent id).
Proof. intros c _. now eexists _, c. Qed.
Lemma touch_same c ev : same c (with_invites (<[ev := entry_at [] (_invites c) ev]> (_invites c)) c).
Proof.
  split; try done. intros e. unfold vec, entry_at. cbn. destruct (decide (e = ev)) as [->|Hne]; [now rewrite lookup_insert_eq|now rewrite lookup_insert_ne].
Qed.
Lemma vectors_eq ev c : exists c', GetEventInvites ev c = (Ret (vec (_invites c) ev), c') /\ same c c'.
Proof. eexists. split; [reflexivity|]. apply touch_same. Qed.
Lemma silent_guild g p : silent (to_guild g p).
Proof. unfold to_guild. destruct (GetGuildById g) as [l|]; [|apply silent_ret]. apply silent_each. intros x _. apply silent_send. Qed.
(** What is done with the pointers of a vector. *)
Lemma silent_vector {B} ev (k : list Z -> CA B) :
  (forall l, (forall c, refs c -> (forall a, a ∈ l -> is_Some (i_heap c !! a)) -> exists b c', k l c = (Ret b, c') /\ same c c')) ->
  silent (let! l := GetEventInvites ev in k l).
Proof.
  intros Hk c H. destruct (vectors_eq ev c) as (c1 & E1 & S1). rewrite (bind_ret _ _ _ _ _ E1). assert (H1 : refs c1) by now rewrite <- S1.
  destruct (Hk (vec (_invites c) ev) c1 H1) as (b & c2 & E2 & S2); [|exists b, c2; split; [done|now transitivity c1]].
  intros a Ha. rewrite (sm_heap _ _ S1). now apply (H ev).
Qed.
Lemma invite_eq c a i : i_heap c !! a = Some i -> invite_at a c = (Ret i, c).
Proof. intros H. unfold invite_at, bind, gets. now rewrite H. Qed.
Lemma silent_each_invite (f : Z -> CalendarInvite -> CA unit) l c :
  (forall a i, silent (f a i)) -> refs c -> (forall a, a ∈ l -> is_Some (i_heap c !! a)) ->
  exists u c', for_each l (fun a => let! i := invite_at a in f a i) c = (Ret u, c') /\ same c c'.
Proof.
  intros Hf. revert c. induction l as [|a l IH]; intros c H Hl; [now exists tt, c|]. cbn [for_each]. destruct (Hl a ltac:(left)) as [i Hi].
  destruct (Hf a i c H) as ([] & c1 & E1 & S1). destruct (IH c1) as (u & c2 & E2 & S2); [now rewrite <- S1|intros b Hb; rewrite (sm_heap _ _ S1); apply Hl; now right|].
  exists u, c2. assert (E : (let! i := invite_at a in f a i) c = (Ret tt, c1)) by now rewrite (bind_ret _ _ _ _ _ (invite_eq c a i Hi)).
  rewrite (bind_ret _ _ _ _ _ E). split; [done|]. now transitivity c1.
Qed.
Lemma silent_relatives packet e : silent (SendPacketToAllEventRelatives packet e).
Proof.
  unfold SendPacketToAllEventRelatives. apply silent_bind; [apply silent_when, silent_guild|]. intros _. apply silent_vector. intros l c H Hl.
  apply silent_each_invite; [|done..]. intros a i. destruct (FindConnectedPlayer (i_invitee i)); [apply silent_when, silent_send|apply silent_ret].
Qed.
(** What is built is used when all the writes succeed. *)
Lemma silent_packet p (k : WorldPacket -> CA unit) : intact p -> silent (k p) -> silent (with_packet p k).
Proof. intros Hp Hk. unfold with_packet. apply silent_bind; [|now intros _]. intros c _. exists tt, c. split; [now apply built_intact|done]. Qed.
Lemma fits_time t : fits 4 (packed_time t).
Proof. apply (fits_int 4). lia. Qed.
#[local] Hint Resolve fits_time : trinity.
Ltac packet_fits := eapply fits_new; [fits_fields|unfold small, TEXT_LIMIT in *; lia].
Lemma invite_intact i : intact (invite_packet i).
Proof.
  unfold invite_packet. apply (fits_new _ (9 + (8 + (8 + (1 + (1 + (1 + (4 + 1)))))))); [|lia]. do 6 (apply fits_seq; [lia|auto with trinity|]).
  apply fits_seq; [lia| |auto with trinity]. apply fits_if; [auto with trinity|]. apply (fits_mono 0); [apply fits_ret|lia].
Qed.
Lemma update_intact e t : small e -> intact (update_packet e t).
Proof. intros He. unfold update_packet. packet_fits. Qed.
Lemma alert_intact e i : small e -> intact (alert_packet e i).
Proof. intros He. unfold alert_packet. packet_fits. Qed.
(** The bytes of an invitation in the packet with an event, and of the whole packet. *)
Definition invitee_bytes (i : CalendarInvite) : Z := zlen (i_text i) + 26.
Definition event_bytes (e : CalendarEvent) (l : list CalendarInvite) : Z := zlen (e_title e) + zlen (e_description e) + 59 + total invitee_bytes l.
Lemma fits_invitee e i : fits (invitee_bytes i) (write_invitee e i).
Proof. unfold write_invitee. cbv zeta. eapply fits_mono; [fits_fields|unfold invitee_bytes; lia]. Qed.
Lemma invitees_nonneg l : 0 <= total invitee_bytes l.
Proof. apply total_nonneg. intros i. unfold invitee_bytes, zlen. lia. Qed.
Lemma event_intact e t l : event_bytes e l <= 10000000 -> intact (event_packet e t l).
Proof.
  intros H. unfold event_packet, event_bytes in *. pose proof (invitees_nonneg l). assert (Hl : fits (total invitee_bytes l) (write_all (write_invitee e) l)).
  { apply fits_total; [intros i; unfold invitee_bytes, zlen; lia|apply fits_invitee]. }
  eapply fits_new; [fits_fields|lia].
Qed.
Lemma silent_invite i : silent (SendCalendarEventInvite i).
Proof.
  unfold SendCalendarEventInvite. apply silent_bind; [apply silent_GetEvent|]. intros o. apply silent_packet; [apply invite_intact|]. destruct o as [[a e]|]; [apply silent_when, silent_relatives|].
  destruct (FindConnectedPlayer _); [apply silent_send|apply silent_ret].
Qed.
Lemma silent_update e t : small e -> silent (SendCalendarEventUpdateAlert e t).
Proof. intros He. apply silent_packet; [now apply update_intact|]. apply silent_relatives. Qed.
Lemma silent_status e i : silent (SendCalendarEventStatus e i).
Proof. apply silent_packet; [packet_fits|]. apply silent_relatives. Qed.
Lemma silent_gone e : silent (SendCalendarEventRemovedAlert e).
Proof. apply silent_packet; [packet_fits|]. apply silent_relatives. Qed.
Lemma silent_uninvited e i flags : silent (SendCalendarEventInviteRemove e i flags).
Proof. apply silent_packet; [packet_fits|]. apply silent_relatives. Qed.
Lemma silent_moderator e i : silent (SendCalendarEventModeratorStatusAlert e i).
Proof. apply silent_packet; [packet_fits|]. apply silent_relatives. Qed.
Lemma silent_alert e i : small e -> silent (SendCalendarEventInviteAlert e i).
Proof. intros He. apply silent_packet; [now apply alert_intact|]. destruct (_ || _); [apply silent_guild|]. destruct (FindConnectedPlayer _); [apply silent_send|apply silent_ret]. Qed.
Lemma silent_read l c : (forall a, a ∈ l -> is_Some (i_heap c !! a)) -> exists r, read_invites l c = (Ret r, c) /\ Forall2 (fun a i => i_heap c !! a = Some i) l r.
Proof.
  induction l as [|a l IH]; intros H; [exists []; split; [done|constructor]|]. destruct (H a ltac:(left)) as [i Hi]. destruct IH as (r & E & Hr); [intros b Hb; apply H; now right|].
  exists (i :: r). cbn. rewrite (bind_ret _ _ _ _ _ (invite_eq c a i Hi)), (bind_ret _ _ _ _ _ E). split; [done|]. now constructor.
Qed.
(** An event with all who are invited to it: a packet that may be too long. *)
Lemma event_sent guid e t c : refs c -> exists l c1, Forall2 (fun a i => i_heap c !! a = Some i) (vec (_invites c) (e_eventId e)) l /\ same c c1 /\
  SendCalendarEvent guid e t c = match FindConnectedPlayer guid with None => (Ret tt, c) | Some _ => with_packet (event_packet e t l) (SendDirectMessage guid) c1 end.
Proof.
  intros H. destruct (vectors_eq (e_eventId e) c) as (c1 & E1 & S1). destruct (silent_read (vec (_invites c) (e_eventId e)) c1) as (r & E & Hr).
  { intros a Ha. rewrite (sm_heap _ _ S1). now apply (H (e_eventId e)). }
  rewrite (sm_heap _ _ S1) in Hr. exists r, c1. split; [done|]. split; [done|]. unfold SendCalendarEvent. destruct (FindConnectedPlayer guid); [|done].
  now rewrite (bind_ret _ _ _ _ _ E1), (bind_ret _ _ _ _ _ E).
Qed.
Lemma event_silent guid e t c : refs c -> (forall l, Forall2 (fun a i => i_heap c !! a = Some i) (vec (_invites c) (e_eventId e)) l -> event_bytes e l <= 10000000) ->
  exists u c', SendCalendarEvent guid e t c = (Ret u, c') /\ same c c'.
Proof.
  intros H Hl. destruct (event_sent guid e t c H) as (l & c1 & Hv & S & ->). destruct (FindConnectedPlayer guid); [|now exists tt, c].
  destruct (silent_packet (event_packet e t l) (SendDirectMessage guid) (event_intact e t l (Hl l Hv)) (silent_send guid _) c1) as (u & c' & E & S'); [now rewrite <- S|].
  exists u, c'. split; [done|]. now transitivity c1.
Qed.
(** A hundred invitations fit into the packet. *)
Lemma event_fits e (c : CalendarMgr) v l : small e -> (forall a i, i_heap c !! a = Some i -> zlen (i_text i) <= TEXT_LIMIT) -> zlen v <= CALENDAR_MAX_INVITES ->
  Forall2 (fun a i => i_heap c !! a = Some i) v l -> event_bytes e l <= 10000000.
Proof.
  intros [H1 H2] Ht Hv Hl. assert (El : zlen l = zlen v) by (unfold zlen; now rewrite (Forall2_length _ _ _ Hl)).
  assert (Hb : total invitee_bytes l <= zlen l * (TEXT_LIMIT + 26)).
  { apply total_le. intros i Hi. apply list_elem_of_lookup in Hi as [k Hk]. destruct (Forall2_lookup_r _ _ _ _ _ Hl Hk) as (a & _ & Ha). specialize (Ht a i Ha). unfold invitee_bytes. lia. }
  unfold event_bytes, TEXT_LIMIT, CALENDAR_MAX_INVITES in *. lia.
Qed.
Lemma silent_result guid err s : zlen s <= TEXT_LIMIT -> silent (SendCalendarCommandResult guid err s).
Proof.
  intros Hs. unfold SendCalendarCommandResult. destruct (FindConnectedPlayer guid); [|apply silent_ret]. apply silent_packet; [|apply silent_send].
  apply (fits_new _ (4 + (1 + ((zlen s + 1) + 4)))); [|unfold TEXT_LIMIT in Hs; lia]. assert (0 <= zlen s) by (unfold zlen; lia).
  do 2 (apply fits_seq; [lia|auto with trinity|]). apply fits_seq; [lia| |auto with trinity]. destruct err; first [apply fits_string|apply (fits_mono 1); [auto with trinity|lia]].
Qed.
Lemma silent_clear guid : silent (SendCalendarClearPendingAction guid).
Proof. unfold SendCalendarClearPendingAction. destruct (FindConnectedPlayer guid); [apply silent_send|apply silent_ret]. Qed.
Lemma silent_removed guid e s : silent (SendCalendarEventInviteRemoveAlert guid e s).
Proof. unfold SendCalendarEventInviteRemoveAlert. destruct (FindConnectedPlayer guid); [|apply silent_ret]. apply silent_packet; [packet_fits|apply silent_send]. Qed.
End Silent.
#[export] Hint Resolve silent_ret silent_when silent_send silent_GetEvent silent_relatives silent_invite silent_update silent_status silent_gone silent_uninvited silent_moderator silent_alert silent_result silent_clear silent_removed : trinity.

(** ** What operations change *)

Section Changes.
Context `{columns : TextColumns}.

Lemma live_insert es a e id : es !! a = None -> live_event (<[a := e]> es) id <-> live_event es id \/ e_eventId e = id.
Proof.
  intros Ha. split.
  - intros (b & f & [[<- <-]|[_ Hb]]%lookup_insert_Some & Hf); [now right|left; now exists b, f].
  - intros [(b & f & Hb & Hf)|He]; [|exists a, e; split; [apply lookup_insert_eq|done]]. exists b, f. split; [|done]. rewrite lookup_insert_ne; [done|congruence].
Qed.
Lemma live_delete es a e id : (forall b f, es !! b = Some f -> e_eventId e = e_eventId f -> a = b) -> es !! a = Some e ->
  live_event (delete a es) id <-> live_event es id /\ id <> e_eventId e.
Proof.
  intros Hu Ha. split.
  - intros (b & f & [Hne Hb]%lookup_delete_Some & <-). split; [now exists b, f|]. intros E. apply Hne. now apply (Hu b f).
  - intros [(b & f & Hb & <-) Hne]. exists b, f. split; [|done]. apply lookup_delete_Some. split; [|done]. intros <-. congruence.
Qed.
(** The new event is in the set and in the table. *)
Lemma ev_added es free max t a e : ev_ok (Some (e_eventId e)) es free max t -> es !! a = None ->
  ev_ok None (<[a := e]> es) free max (<[e_eventId e := event_row e]> t).
Proof.
  intros [H1 H2 H3 H4] Ha. assert (Hno : forall b f, es !! b = Some f -> e_eventId f <> e_eventId e) by (intros b f Hb Hf; apply (H2 _ eq_refl); now exists b, f).
  split; [| |intros b f x y|].
  - eapply numbers_ext; [|exact H1]. intros id. rewrite live_insert by done. split; [intros [?|[= ->]]; auto|intros [[?| ->]|[=]]; auto].
  - intros id [=].
  - intros [[<- <-]|[Hb Hx]]%lookup_insert_Some [[<- <-]|[Hf Hy]]%lookup_insert_Some E; [done|now destruct (Hno f y)|now destruct (Hno b x)|now apply (H3 b f x y)].
  - intros id r. rewrite lookup_insert_Some, H4. split.
    + intros [[<- <-]|[Hne (b & f & Hb & Hf & ->)]]; [exists a, e; split; [apply lookup_insert_eq|done]|]. exists b, f. split; [|done]. rewrite lookup_insert_ne; [done|congruence].
    + intros (b & f & [[<- <-]|[Hne Hb]]%lookup_insert_Some & <- & ->); [now left|right]. split; [intros E; now apply (Hno b f)|now exists b, f].
Qed.
Lemma ev_removed es free max t a e : ev_ok None es free max t -> es !! a = Some e ->
  ev_ok None (delete a es) (give_back (e_eventId e) free max).1 (give_back (e_eventId e) free max).2 (delete (e_eventId e) t).
Proof.
  intros [H1 H2 H3 H4] Ha. assert (Hu : forall b f, es !! b = Some f -> e_eventId e = e_eventId f -> a = b) by (intros b f Hb E; exact (H3 a b e f Ha Hb E)).
  assert (Hl : live_event es (e_eventId e) \/ None = Some (e_eventId e)) by (left; now exists a, e).
  pose proof (numbers_free _ _ _ _ H1 Hl) as Hn. destruct (give_back _ _ _) as [free' max']. destruct Hn as [Hn _]. split; cbn [fst snd]; [| |intros b f x y|].
  - eapply numbers_ext; [|exact Hn]. intros id. rewrite (live_delete es a e id Hu Ha). split; [intros [[?|[=]] ?]; auto|intros [[? ?]|[=]]; auto].
  - intros id [=].
  - intros [_ Hx]%lookup_delete_Some [_ Hy]%lookup_delete_Some. now apply (H3 b f x y).
  - intros id r. rewrite lookup_delete_Some, H4. split.
    + intros [Hne (b & f & Hb & <- & ->)]. exists b, f. split; [|done]. apply lookup_delete_Some. split; [intros <-; congruence|done].
    + intros (b & f & [Hne Hb]%lookup_delete_Some & <- & ->). split; [intros E; now apply Hne, (Hu b f)|now exists b, f].
Qed.
(** An event keeps its number when it is changed. *)
Lemma ev_changed es free max t a e f : ev_ok None es free max t -> es !! a = Some e -> e_eventId f = e_eventId e ->
  ev_ok None (<[a := f]> es) free max (<[e_eventId f := event_row f]> t).
Proof.
  intros [H1 H2 H3 H4] Ha Ef. assert (Hl : forall b x, <[a := f]> es !! b = Some x -> exists y, es !! b = Some y /\ e_eventId x = e_eventId y).
  { intros b x [[<- <-]|[_ Hb]]%lookup_insert_Some; [now exists e|now exists x]. }
  split; [| |intros b d y z Hb Hy E|].
  - eapply numbers_ext; [|exact H1]. intros id. split.
    + intros [(b & x & Hb & <-)|[=]]. left. destruct (decide (b = a)) as [->|Hne]; [exists a, f; split; [apply lookup_insert_eq|congruence]|]. exists b, x. now rewrite lookup_insert_ne.
    + intros [(b & x & Hb & <-)|[=]]. left. destruct (Hl b x Hb) as (y & Hy & ->). now exists b, y.
  - intros id [=].
  - destruct (Hl b y Hb) as (y' & Hy' & Ey), (Hl d z Hy) as (z' & Hz' & Ez). apply (H3 b d y' z'); congruence.
  - intros id r. rewrite lookup_insert_Some, H4, Ef. split.
    + intros [[<- <-]|[Hne (b & x & Hb & Hx & ->)]]; [exists a, f; split; [apply lookup_insert_eq|done]|]. exists b, x. split; [|done]. rewrite lookup_insert_ne; [done|congruence].
    + intros (b & x & [[<- <-]|[Hne Hb]]%lookup_insert_Some & <- & ->); [now left|right]. split; [|now exists b, x]. intros E. apply Hne. now apply (H3 a b e x).
Qed.

Lemma vec_insert vs ev l j : vec (<[ev := l]> vs) j = if decide (j = ev) then l else vec vs j.
Proof. unfold vec, entry_at. case_decide as E; [subst; now rewrite lookup_insert_eq|now rewrite lookup_insert_ne]. Qed.
Lemma vec_delete vs ev j : vec (delete ev vs) j = if decide (j = ev) then [] else vec vs j.
Proof. unfold vec, entry_at. case_decide as E; [subst; now rewrite lookup_delete_eq|now rewrite lookup_delete_ne]. Qed.
(** Another invitation exists, in no vector yet. *)
Lemma vec_new p es vs h a i : vec_ok p es vs h -> h !! a = None -> vec_ok p es vs (<[a := i]> h) /\ forall ev, a ∉ vec vs ev.
Proof.
  intros [H1 H2 H3] Ha. assert (Hno : forall ev, a ∉ vec vs ev) by (intros ev Hin; destruct (H1 ev a Hin) as (j & Hj & _); congruence).
  split; [|done]. split; [|done|done]. intros ev b Hb. destruct (H1 ev b Hb) as (j & Hj & Ej). exists j. split; [|done]. rewrite lookup_insert_ne; [done|]. intros ->. now apply (Hno ev).
Qed.
Lemma ids_new h free max vs t a i : ids_ok h free max vs t -> h !! a = None -> (forall ev, a ∉ vec vs ev) -> max < 2 ^ 64 - 1 ->
  i_inviteId i = (get_number free max).1.1 ->
  ids_ok (<[a := i]> h) (get_number free max).1.2 (get_number free max).2 vs t /\ (get_number free max).2 <= max + 1.
Proof.
  intros [H1 H2 H3] Ha Hno Hm Ei. pose proof (numbers_get _ _ _ H1 Hm) as Hn. destruct (get_number free max) as [[id free'] max']. destruct Hn as (Hid & Hn & Hle & _).
  cbn [fst snd] in *. subst id. split; [|done]. split; [|intros b c x y|].
  - eapply numbers_ext; [|exact Hn]. intros x. split.
    + intros [(b & j & Hb & <-)| ->]; [|exists a, i; split; [apply lookup_insert_eq|done]]. exists b, j. split; [|done]. rewrite lookup_insert_ne; [done|congruence].
    + intros (b & j & [[<- <-]|[_ Hb]]%lookup_insert_Some & <-); [now right|left; now exists b, j].
  - intros [[<- <-]|[_ Hb]]%lookup_insert_Some [[<- <-]|[_ Hc]]%lookup_insert_Some E; [done| | |now apply (H2 b c x y)]; exfalso; apply Hid; [now exists c, y|now exists b, x].
  - intros x r. rewrite H3. unfold stored. split.
    + intros (b & j & [Hb Hj] & Hx). exists b, j. split; [|done]. split; [done|]. rewrite lookup_insert_ne; [done|]. intros ->. now apply (Hno (i_eventId j)).
    + intros (b & j & [Hb [[<- <-]|[_ Hj]]%lookup_insert_Some] & Hx); [now apply Hno in Hb|]. now exists b, j.
Qed.
(** It comes to the end of the vector of its event. *)
Lemma vec_pushed p es vs h a i : vec_ok p es vs h -> h !! a = Some i -> (forall ev, a ∉ vec vs ev) -> live_event es (i_eventId i) \/ p = Some (i_eventId i) ->
  vec_ok p es (<[i_eventId i := vec vs (i_eventId i) ++ [a]]> vs) h.
Proof.
  intros [H1 H2 H3] Ha Hno Hl. split; intros ev; try intros b; rewrite vec_insert; case_decide as E; auto.
  - subst ev. intros [Hb|Hb%list_elem_of_singleton]%elem_of_app; [now apply H1|subst b; now exists i].
  - subst ev. apply NoDup_app. split; [apply H2|]. split; [|apply NoDup_singleton]. intros b Hb Eb%list_elem_of_singleton. subst b. now apply (Hno (i_eventId i)).
  - now subst ev.
  - apply H3.
Qed.
Lemma ids_pushed h free max vs t a i : ids_ok h free max vs t -> h !! a = Some i -> (forall ev, a ∉ vec vs ev) ->
  ids_ok h free max (<[i_eventId i := vec vs (i_eventId i) ++ [a]]> vs) (<[i_inviteId i := invite_row i]> t).
Proof.
  intros [H1 H2 H3] Ha Hno. split; [done..|]. assert (Hs : forall b j, stored (<[i_eventId i := vec vs (i_eventId i) ++ [a]]> vs) h b j <-> stored vs h b j \/ (b = a /\ j = i)).
  { intros b j. unfold stored. rewrite vec_insert. case_decide as E; [rewrite E, elem_of_app, list_elem_of_singleton; split; [intros [[?| ->] ?]; [now left|right; split; congruence]|intros [[? ?]|[-> ->]]; auto]|].
    split; [auto|]. intros [[? ?]|[-> ->]]; [done|congruence]. }
  intros id r. rewrite lookup_insert_Some, H3. setoid_rewrite Hs. split.
  - intros [[<- <-]|[Hne (b & j & Hb & Hj & ->)]]; [exists a, i; auto|exists b, j; auto].
  - intros (b & j & [Hb|[-> ->]] & <- & ->); [|now left]. right. split; [|now exists b, j]. intros E. destruct Hb as [Hb Hj]. assert (a = b) as <- by now apply (H2 a b i j). now apply Hno in Hb.
Qed.
(** An invitation that is in a vector is deleted, and gone from the vector. *)
Lemma vec_dropped p es vs h ev k a : vec_ok p es vs h -> vec vs ev !! k = Some a -> vec_ok p es (<[ev := base.delete k (vec vs ev)]> vs) (delete a h).
Proof.
  intros [H1 H2 H3] Hk. assert (Hin : a ∈ vec vs ev) by now apply list_elem_of_lookup_2 in Hk.
  assert (Hsub : forall b, b ∈ base.delete k (vec vs ev) -> b ∈ vec vs ev /\ b <> a).
  { intros b Hb. apply list_elem_of_lookup in Hb as [n Hn]. rewrite list_lookup_delete in Hn. assert (Hn' : exists m, vec vs ev !! m = Some b /\ m <> k) by (case_decide; eexists; split; [exact Hn|lia|exact Hn|lia]).
    destruct Hn' as (m & Hm & Hne). split; [now apply list_elem_of_lookup_2 in Hm|]. intros ->. apply Hne. exact (NoDup_lookup _ _ _ _ (H2 ev) Hm Hk). }
  assert (Hother : forall j b, j <> ev -> b ∈ vec vs j -> b <> a).
  { intros j b Hne Hb ->. destruct (H1 j a Hb) as (x & Hx & Ex), (H1 ev a Hin) as (y & Hy & Ey). congruence. }
  split; intros j; try intros b; rewrite vec_insert; case_decide as E; subst; auto.
  - intros [Hb Hne]%Hsub. destruct (H1 ev b Hb) as (i & Hi & Ei). exists i. now rewrite lookup_delete_ne.
  - intros Hb. destruct (H1 j b Hb) as (i & Hi & Ei). exists i. rewrite lookup_delete_ne; [done|]. intros ->. now apply (Hother j b E Hb).
  - apply (sublist_NoDup _ (vec vs ev)); [apply H2|apply sublist_delete].
  - intros [Hb _]%Hsub. now apply (H3 ev b).
  - apply H3.
Qed.
Lemma dropped_elem p es vs h ev k a j b : vec_ok p es vs h -> vec vs ev !! k = Some a ->
  b ∈ vec (<[ev := base.delete k (vec vs ev)]> vs) j <-> b ∈ vec vs j /\ b <> a.
Proof.
  intros [H1 H2 H3] Hk. assert (Hin : a ∈ vec vs ev) by now apply list_elem_of_lookup_2 in Hk. rewrite vec_insert. case_decide as E.
  - subst j. rewrite <- (take_drop_middle _ _ _ Hk) at 2. rewrite delete_take_drop. specialize (H2 ev). rewrite <- (take_drop_middle _ _ _ Hk) in H2.
    apply NoDup_app in H2 as (_ & Ht & Hd%NoDup_cons). rewrite !elem_of_app, elem_of_cons. split.
    + intros [Hb|Hb]; (split; [tauto|intros ->]); [now apply (Ht a Hb); left|tauto].
    + tauto.
  - split; [|tauto]. intros Hb. split; [done|]. intros ->. destruct (H1 j a Hb) as (x & Hx & Ex), (H1 ev a Hin) as (y & Hy & Ey). congruence.
Qed.
Lemma ids_dropped p es h free max vs t ev k a i : vec_ok p es vs h -> ids_ok h free max vs t -> vec vs ev !! k = Some a -> h !! a = Some i ->
  ids_ok (delete a h) (give_back (i_inviteId i) free max).1 (give_back (i_inviteId i) free max).2 (<[ev := base.delete k (vec vs ev)]> vs) (delete (i_inviteId i) t) /\
  (give_back (i_inviteId i) free max).2 <= max.
Proof.
  intros Hv [H1 H2 H3] Hk Ha. assert (Hl : live_invite h (i_inviteId i)) by now exists a, i.
  pose proof (numbers_free _ _ _ _ H1 Hl) as Hn. destruct (give_back _ _ _) as [free' max']. destruct Hn as [Hn Hle]. cbn [fst snd]. split; [|done].
  assert (Hu : forall b j, h !! b = Some j -> i_inviteId j = i_inviteId i -> b = a) by (intros b j Hb E; exact (H2 b a j i Hb Ha E)). split.
  - eapply numbers_ext; [|exact Hn]. intros x. split.
    + intros [(b & j & Hb & <-) Hne]. exists b, j. split; [|done]. apply lookup_delete_Some. split; [intros ->; congruence|done].
    + intros (b & j & [Hne Hb]%lookup_delete_Some & <-). split; [now exists b, j|]. intros E. apply Hne. symmetry. now apply (Hu b j).
  - intros b c x y [_ Hb]%lookup_delete_Some [_ Hc]%lookup_delete_Some. now apply H2.
  - intros x r. rewrite lookup_delete_Some, H3. unfold stored. setoid_rewrite (dropped_elem p es vs h ev k a _ _ Hv Hk). setoid_rewrite lookup_delete_Some. split.
    + intros [Hne (b & j & [Hb Hj] & <- & ->)]. exists b, j. assert (b <> a) by (intros ->; congruence). split_and!; congruence.
    + intros (b & j & [[Hb Hne] [_ Hj]] & <- & ->). split; [|now exists b, j]. intros E. now apply Hne, (Hu b j).
Qed.
(** An invitation keeps its numbers when it is changed. *)
Lemma heap_changed (h : gmap Z CalendarInvite) a i j b x : h !! a = Some i -> i_inviteId j = i_inviteId i -> i_eventId j = i_eventId i -> <[a := j]> h !! b = Some x ->
  exists y, h !! b = Some y /\ i_inviteId x = i_inviteId y /\ i_eventId x = i_eventId y.
Proof. intros Ha Ei Ee [[<- <-]|[_ Hb]]%lookup_insert_Some; [now exists i|now exists x]. Qed.
Lemma heap_changed_back (h : gmap Z CalendarInvite) a i j b y : h !! a = Some i -> i_inviteId j = i_inviteId i -> i_eventId j = i_eventId i -> h !! b = Some y ->
  exists x, <[a := j]> h !! b = Some x /\ i_inviteId x = i_inviteId y /\ i_eventId x = i_eventId y.
Proof.
  intros Ha Ei Ee Hb. destruct (decide (b = a)) as [->|Hne]; [exists j; split; [apply lookup_insert_eq|split; congruence]|]. exists y. now rewrite lookup_insert_ne.
Qed.
Lemma vec_changed p es vs h a i j : vec_ok p es vs h -> h !! a = Some i -> i_inviteId j = i_inviteId i -> i_eventId j = i_eventId i -> vec_ok p es vs (<[a := j]> h).
Proof.
  intros [H1 H2 H3] Ha Ei Ee. split; [|done..]. intros ev b Hb. destruct (H1 ev b Hb) as (y & Hy & <-). destruct (heap_changed_back h a i j b y Ha Ei Ee Hy) as (x & Hx & _ & Ex). now exists x.
Qed.
Lemma ids_changed h free max vs t a i j : ids_ok h free max vs t -> h !! a = Some i -> a ∈ vec vs (i_eventId i) -> i_inviteId j = i_inviteId i -> i_eventId j = i_eventId i ->
  ids_ok (<[a := j]> h) free max vs (<[i_inviteId j := invite_row j]> t).
Proof.
  intros [H1 H2 H3] Ha Hin Ei Ee. split.
  - eapply numbers_ext; [|exact H1]. intros x. split.
    + intros (b & y & Hb & <-). destruct (heap_changed_back h a i j b y Ha Ei Ee Hb) as (z & Hz & E & _). now exists b, z.
    + intros (b & y & Hb & <-). destruct (heap_changed h a i j b y Ha Ei Ee Hb) as (z & Hz & E & _). now exists b, z.
  - intros b c x y Hb Hc E. destruct (heap_changed h a i j b x Ha Ei Ee Hb) as (x' & Hx & Ex & _), (heap_changed h a i j c y Ha Ei Ee Hc) as (y' & Hy & Ey & _). apply (H2 b c x' y'); congruence.
  - intros x r. rewrite lookup_insert_Some, H3. unfold stored. setoid_rewrite lookup_insert_Some. split.
    + intros [[<- <-]|[Hne (b & y & [Hb Hy] & Ex & ->)]]; [exists a, j; rewrite Ee; auto|]. exists b, y. split_and!; [done| |done..]. right. split; [intros <-; congruence|done].
    + intros (b & y & [Hb [[<- <-]|[Hne Hy]]] & <- & ->); [now left|right]. split; [intros E; apply Hne; apply (H2 a b i y); congruence|now exists b, y].
Qed.
End Changes.
