(* ===== verification/CalendarSteps.v ===== *)
(** * The calendar: what its operations do

    Each operation of the manager from a calendar that is in order: it returns, the
    calendar is in order again, and what is added, removed or changed. *)

From stdpp Require Import base gmap list.
From Stdlib Require Import ZArith Lia.
From S2P Require Import Prelude ByteBuffer StdMap Util Columns ObjectGuid WorldPacket LfgPackets ActionLogic Calendar CalendarHandler CalendarInv.
#[local] Open Scope Z_scope.

Section Steps.
Context `{columns : TextColumns} `{world : CalendarWorld}.

(** Allocation gives an address not in use. *)
Class CalendarLaws : Prop := malloc_fresh s : malloc s ∉ s.
Context `{laws : CalendarLaws}.

Implicit Types (plain : bool) (p : option Z) (c : CalendarMgr) (e : CalendarEvent) (i : CalendarInvite).

(** Numbers of invitations that are left. *)
Definition room plain (n : Z) c : Prop := plain = true -> _maxInviteId c + n < 2 ^ 64.
Definition home p c (ev : Z) : Prop := live_event (_events c) ev \/ p = Some ev.
(** Invitations were added, at most [n]. *)
Record more plain (n : Z) c c' : Prop := mk_more {
  mo_events : _events c' = _events c;
  mo_eids : _freeEventIds c' = _freeEventIds c /\ _maxEventId c' = _maxEventId c;
  mo_heap a i : i_heap c !! a = Some i -> i_heap c' !! a = Some i;
  mo_vec ev : zlen (vec (_invites c') ev) <= zlen (vec (_invites c) ev) + n;
  mo_max : plain = true -> _maxInviteId c' <= _maxInviteId c + n
}.
Lemma same_more plain c c' : same c c' -> more plain 0 c c'.
Proof. intros [S1 S2 S3 [S4 S5] S6 S7 S8]. split; [done|done|now rewrite S6|intros ev; rewrite S2; lia|lia]. Qed.
Lemma more_trans plain n m c1 c2 c3 : more plain n c1 c2 -> more plain m c2 c3 -> more plain (n + m) c1 c3.
Proof. intros [A1 [A2 A3] A4 A6 A5] [B1 [B2 B3] B4 B6 B5]. split; [congruence|split; congruence|auto|intros ev; specialize (A6 ev); specialize (B6 ev); lia|]. intros Hp. specialize (A5 Hp). specialize (B5 Hp). lia. Qed.
Lemma more_none plain c : more plain 1 c c.
Proof. split; [done|done|auto|intros ev; lia|lia]. Qed.
Lemma more_home plain n p c c' ev : more plain n c c' -> home p c ev -> home p c' ev.
Proof. intros [E _ _ _ _]. unfold home. now rewrite E. Qed.
Lemma more_room plain n m c c' : more plain n c c' -> room plain (n + m) c -> room plain m c'.
Proof. intros [_ _ _ _ H] Hr Hp. specialize (H Hp). specialize (Hr Hp). lia. Qed.
Lemma same_home p c c' ev : same c c' -> home p c ev -> home p c' ev.
Proof. intros S. unfold home. now rewrite (sm_events _ _ S). Qed.

(** What does not matter: an operation in front that leaves everything alone. *)
Lemma silent_first {A B} (m : CA A) (k : A -> CA B) c (Q : B -> CalendarMgr -> Prop) : silent m -> refs c ->
  (forall a c1, same c c1 -> exists b c', k a c1 = (Ret b, c') /\ Q b c') -> exists b c', bind m k c = (Ret b, c') /\ Q b c'.
Proof. intros Hm H Hk. destruct (Hm c H) as (a & c1 & E & S). rewrite (bind_ret _ _ _ _ _ E). now apply Hk. Qed.

(** ** Events are found *)

Lemma find_event id c : exists o, GetEvent id c = (Ret o, c) /\
  match o with Some (a, e) => _events c !! a = Some e /\ e_eventId e = id | None => ~ live_event (_events c) id end.
Proof.
  eexists. split; [reflexivity|]. destruct (List.find _ _) as [[a e]|] eqn:E.
  - apply List.find_some in E as [Hin Hid]. apply list_elem_of_In, elem_of_entries in Hin. apply Z.eqb_eq in Hid. done.
  - intros (a & e & Ha & Hid). assert (Hf : (e_eventId (a, e).2 =? id) = false) by now apply (List.find_none _ _ E), list_elem_of_In, elem_of_entries. cbn in Hf. now apply Z.eqb_neq in Hf.
Qed.

(** ** Invitations are added *)

Lemma small_of plain p c a e : calendar_ok plain p c -> _events c !! a = Some e -> small e.
Proof. intros H. exact (proj1 (co_texts _ _ _ H) a e). Qed.
Lemma texts_new es h a i : texts_ok es h -> zlen (i_text i) <= TEXT_LIMIT -> texts_ok es (<[a := i]> h).
Proof. intros [H1 H2] Hi. split; [done|]. intros b j [[_ <-]|[_ Hb]]%lookup_insert_Some; [done|now apply (H2 b)]. Qed.
Lemma texts_less es h a : texts_ok es h -> texts_ok es (delete a h).
Proof. intros [H1 H2]. split; [done|]. intros b j [_ Hb]%lookup_delete_Some. now apply (H2 b). Qed.
Lemma texts_event es h a e : texts_ok es h -> small e -> texts_ok (<[a := e]> es) h.
Proof. intros [H1 H2] He. split; [|done]. intros b f [[_ <-]|[_ Hb]]%lookup_insert_Some; [done|now apply (H1 b)]. Qed.
Lemma texts_gone es h a : texts_ok es h -> texts_ok (delete a es) h.
Proof. intros [H1 H2]. split; [|done]. intros b f [_ Hb]%lookup_delete_Some. now apply (H1 b). Qed.

Lemma new_ok plain p c i : calendar_ok plain p c -> zlen (i_text i) <= TEXT_LIMIT -> room plain 1 c -> (plain = true -> i_inviteId i = (get_number (_freeInviteIds c) (_maxInviteId c)).1.1) ->
  let n := get_number (_freeInviteIds c) (_maxInviteId c) in
  let a := malloc (dom (i_heap c)) in
  let c1 := with_heap (<[a := i]> (i_heap c)) (with_invite_ids n.1.2 n.2 c) in
  calendar_ok plain p c1 /\ more plain 1 c c1 /\ i_heap c1 !! a = Some i /\ forall ev, a ∉ vec (_invites c1) ev.
Proof.
  intros [H1 H2 H3 H4] Hx Hr Hi n a c1. assert (Ha : i_heap c !! a = None) by (apply not_elem_of_dom, malloc_fresh).
  destruct (vec_new _ _ _ _ a i H2 Ha) as [Hv Hno]. split; [|split; [|split; [apply lookup_insert_eq|done]]].
  - split; [done|done| |now apply texts_new]. intros Hp. specialize (Hr Hp). exact (proj1 (ids_new _ _ _ _ _ a i (H3 Hp) Ha Hno ltac:(lia) (Hi Hp))).
  - split; [done|done| |intros ev; cbn; lia|].
    + intros b j Hb. cbn. rewrite lookup_insert_ne; [done|congruence].
    + intros Hp. specialize (Hr Hp). exact (proj2 (ids_new _ _ _ _ _ a i (H3 Hp) Ha Hno ltac:(lia) (Hi Hp))).
Qed.
Lemma AddInvite_ok plain p e a i c : small e -> calendar_ok plain p c -> i_heap c !! a = Some i -> (forall ev, a ∉ vec (_invites c) ev) -> home p c (i_eventId i) ->
  exists u c', AddInvite e a c = (Ret u, c') /\ calendar_ok plain p c' /\ more plain 1 c c' /\ (plain = true -> _maxInviteId c' <= _maxInviteId c) /\
    if IsGuildAnnouncement e then same c c' else calendar_invites c' = <[i_inviteId i := invite_row i]> (calendar_invites c).
Proof.
  intros Hsm H Ha Hno Hh. unfold AddInvite. rewrite (bind_ret _ _ _ _ _ (invite_eq c a i Ha)).
  apply silent_first; [auto with trinity|exact (ok_refs _ _ _ H)|]. intros _ c1 S1. assert (H1 : calendar_ok plain p c1) by now rewrite <- S1.
  apply silent_first; [auto with trinity|exact (ok_refs _ _ _ H1)|]. intros _ c2 S2. assert (H2 : calendar_ok plain p c2) by now rewrite <- S2.
  assert (S : same c c2) by now transitivity c1. destruct (IsGuildAnnouncement e); cbn [negb when].
  { exists tt, c2. split; [done|]. split; [done|]. split; [exact (more_trans plain 0 1 c c2 c2 (same_more _ _ _ S) (more_none plain c2))|].
    split; [|done]. intros _. rewrite (proj2 (sm_iids _ _ S)). lia. }
  eexists tt, _. split; [reflexivity|]. assert (Ha2 : i_heap c2 !! a = Some i) by now rewrite (sm_heap _ _ S).
  assert (Hno2 : forall ev, a ∉ vec (_invites c2) ev) by (intros ev; now rewrite (sm_vec _ _ S)). split; [|split; [|split; [|cbn; now rewrite (proj2 (sm_tables _ _ S))]]].
  - destruct H2 as [A B C D]. split; [done| | |exact D].
    + apply vec_pushed; [done..|]. now apply (same_home p c c2).
    + intros Hp. now apply ids_pushed; [apply C|..].
  - apply (same_more plain) in S as [S1' S2' S3' S4' S5']. split; [done|done|done| |intros Hp; specialize (S5' Hp); cbn; lia].
    intros ev. specialize (S4' ev). cbn. rewrite vec_insert. case_decide as E; [subst ev|lia]. fold (vec (_invites c2) (i_eventId i)). unfold zlen in *. rewrite length_app. cbn [length]. lia.
  - intros _. cbn. rewrite (proj2 (sm_iids _ _ S)). lia.
Qed.
Lemma add_new_ok plain p e (mk : Z -> CalendarInvite) ev c : (forall id, i_inviteId (mk id) = id) -> (forall id, i_eventId (mk id) = ev) -> (forall id, zlen (i_text (mk id)) <= TEXT_LIMIT) -> small e ->
  calendar_ok plain p c -> room plain 1 c -> home p c ev ->
  exists u c', (let! id := GetFreeInviteId in let! a := new_invite (mk id) in AddInvite e a) c = (Ret u, c') /\ calendar_ok plain p c' /\ more plain 1 c c'.
Proof.
  intros Hid Hev Htx Hsm H Hr Hh. set (id := (get_number (_freeInviteIds c) (_maxInviteId c)).1.1).
  destruct (new_ok plain p c (mk id) H (Htx id) Hr ltac:(done)) as (H1 & M1 & Ha & Hno).
  assert (E : GetFreeInviteId c = (Ret id, with_invite_ids (get_number (_freeInviteIds c) (_maxInviteId c)).1.2 (get_number (_freeInviteIds c) (_maxInviteId c)).2 c)).
  { unfold GetFreeInviteId, id, get_number. now destruct (_freeInviteIds c). }
  rewrite (bind_ret _ _ _ _ _ E). unfold bind at 1, new_invite. cbv zeta iota beta.
  edestruct (AddInvite_ok plain p e _ (mk id) _ Hsm H1 Ha Hno) as (u & c' & E' & H' & M' & Mx & _).
  - apply (more_home plain 1 p c _ _ M1). now rewrite Hev.
  - exists u, c'. split; [exact E'|]. split; [done|]. destruct M1 as [A1 A2 A3 A4 A5], M' as [B1 B2 B3 B4 B5]. cbn [_invites with_heap with_invite_ids] in *.
    split; [congruence|split; [rewrite (proj1 B2); apply A2|rewrite (proj2 B2); apply A2]|auto|exact B4|]. intros Hp. specialize (A5 Hp). specialize (Mx Hp). lia.
Qed.
(** One invitation after the other. *)
Lemma add_each {A} plain p (f : A -> CA unit) ev (l : list A) c (Q : A -> CalendarMgr -> Prop) :
  (forall x c, x ∈ l -> Q x c -> calendar_ok plain p c -> room plain 1 c -> home p c ev -> exists u c', f x c = (Ret u, c') /\ calendar_ok plain p c' /\ more plain 1 c c') ->
  (forall x c c', Q x c -> more plain 1 c c' -> Q x c') -> (forall x, x ∈ l -> Q x c) ->
  calendar_ok plain p c -> room plain (zlen l) c -> home p c ev ->
  exists u c', for_each l f c = (Ret u, c') /\ calendar_ok plain p c' /\ more plain (zlen l) c c'.
Proof.
  intros Hf HQ. revert c. induction l as [|x l IH]; intros c Hq H Hr Hh.
  { exists tt, c. split; [done|]. split; [done|]. now apply same_more. }
  assert (El : zlen (x :: l) = 1 + zlen l) by (unfold zlen; cbn [length]; lia). rewrite El in *.
  destruct (Hf x c ltac:(left) (Hq x ltac:(left)) H) as ([] & c1 & E & H1 & M1); [intros Hp; specialize (Hr Hp); unfold zlen in Hr; lia|done|].
  cbn [for_each]. rewrite (bind_ret _ _ _ _ _ E). destruct (IH) with (c := c1) as (u & c' & E' & H' & M'); [intros y d Hy; apply Hf; now right| |done|now apply (more_room plain 1 _ c)|now apply (more_home plain 1 p c)|].
  - intros y Hy. apply (HQ y c); [apply Hq; now right|done].
  - exists u, c'. split; [done|]. split; [done|]. exact (more_trans _ _ _ _ _ _ M1 M').
Qed.
(** The local invitation of an announcement. *)
Lemma announce_ok p e me c : small e -> IsGuildAnnouncement e = true -> home p c (e_eventId e) -> calendar_ok false p c ->
  exists u c', announce e me c = (Ret u, c') /\ calendar_ok false p c' /\ _events c' = _events c /\ _maxEventId c' = _maxEventId c /\ _freeEventIds c' = _freeEventIds c /\
    forall ev, vec (_invites c') ev = vec (_invites c) ev.
Proof.
  intros Hsm He Hh [H1 H2 _ H4]. unfold announce. set (i := mkInvite 0 _ 0 me _ _ _ []). set (a := malloc (dom (i_heap c))). set (c1 := with_heap (<[a := i]> (i_heap c)) c).
  assert (Ha : i_heap c !! a = None) by (apply not_elem_of_dom, malloc_fresh). destruct (vec_new _ _ _ _ a i H2 Ha) as [Hv Hno].
  rewrite (bind_ret _ _ _ a c1) by done. assert (Hok : calendar_ok false p c1) by (split; [done|done|done|now apply texts_new]).
  destruct (AddInvite_ok false p e a i c1 Hsm Hok) as ([] & c2 & E & Hok2 & _ & _ & S); [apply lookup_insert_eq|done|done|]. rewrite He in S. rewrite (bind_ret _ _ _ _ _ E).
  assert (Ha2 : i_heap c2 !! a = Some i) by (rewrite (sm_heap _ _ S); apply lookup_insert_eq). unfold delete_invite. rewrite (bind_ret _ _ _ _ _ (invite_eq c2 a i Ha2)).
  destruct S as [S1 S2 [S3 S4] [S5 S6] S7 [S8 S9] _]. eexists tt, _. split; [reflexivity|].
  assert (Hd : i_heap (with_heap (delete a (i_heap c2)) c2) = i_heap c) by (cbn; rewrite S7; cbn; rewrite delete_insert_eq; now apply delete_id).
  destruct Hok2 as [A B _ D]. destruct (i_inviteId i =? _maxInviteId c2); cbn in *; (split; [|done]); (split; [done| |done|now apply texts_less]); cbn; destruct B as [B1 B2 B3]; split; [|done|done| |done|done];
    intros ev b Hb; destruct (B1 ev b Hb) as (j & Hj & Ej); exists j; (split; [|done]); rewrite lookup_delete_ne; [done| |done|]; intros <-; rewrite S2 in Hb; now apply (Hno ev).
Qed.

(** ** Events are made *)

Lemma take_event_id plain c : calendar_ok plain None c -> _maxEventId c < 2 ^ 64 - 1 ->
  exists id free max, GetFreeEventId c = (Ret id, with_event_ids free max c) /\ calendar_ok plain (Some id) (with_event_ids free max c) /\
    vec (_invites c) id = [] /\ max <= _maxEventId c + 1 /\ ~ live_event (_events c) id.
Proof.
  intros [H1 H2 H3 H4] Hm. pose proof (numbers_get _ _ _ (ev_numbers _ _ _ _ _ H1) Hm) as Hn. set (n := get_number (_freeEventIds c) (_maxEventId c)) in *.
  exists n.1.1, n.1.2, n.2. split; [unfold GetFreeEventId, n, get_number; now destruct (_freeEventIds c)|]. destruct n as [[id free] max]. cbn [fst snd]. destruct Hn as (Hid & Hn & Hle & _).
  assert (Hl : ~ live_event (_events c) id) by (intros H; apply Hid; now left). split_and!; [|destruct (vec _ id) as [|a l] eqn:E; [done|]|done|done].
  - destruct H1 as [A B C D]. split; [split|destruct H2 as [E F G]; split|done|done]; try done.
    + eapply numbers_ext; [|exact Hn]. intros x. split; [intros [[?|[=]]| ->]; auto|intros [?|[= ->]]; auto].
    + now intros x [= ->].
    + intros ev a Ha. destruct (G ev a Ha) as [?|[=]]. now left.
  - exfalso. destruct (vc_home _ _ _ _ H2 id a) as [?|[=]]; [rewrite E; left|done].
Qed.
(** A number that was only taken is given back. *)
Lemma free_event_id plain id c : calendar_ok plain (Some id) c -> vec (_invites c) id = [] ->
  exists u free max, FreeEventId id c = (Ret u, with_event_ids free max c) /\ calendar_ok plain None (with_event_ids free max c) /\ max <= _maxEventId c.
Proof.
  intros [[A B C D] [E F G] H3 H4] Hv. pose proof (numbers_free _ _ _ _ A (or_intror eq_refl)) as Hn. set (n := give_back id (_freeEventIds c) (_maxEventId c)) in *.
  exists tt, n.1, n.2. split; [unfold FreeEventId, modify, n, give_back; now destruct (id =? _maxEventId c)|]. destruct n as [free max]. destruct Hn as [Hn Hle]. cbn [fst snd]. split; [|done].
  split; [split|split|done|done]; try done.
  - eapply numbers_ext; [|exact Hn]. intros x. specialize (B x). split; [intros [[?|[= ->]] ?]; auto; done|intros [?|[=]]]. split; [now left|]. intros ->. now apply B.
  - intros ev a Ha. change (a ∈ vec (_invites c) ev) in Ha. destruct (G ev a Ha) as [?|[= <-]]; [now left|]. rewrite Hv in Ha. now apply elem_of_nil in Ha.
Qed.
Lemma AddEvent_ok plain e t c : small e -> zlen (vec (_invites c) (e_eventId e)) <= CALENDAR_MAX_INVITES -> calendar_ok plain (Some (e_eventId e)) c ->
  exists u c', AddEvent e t c = (Ret u, c') /\ calendar_ok plain None c' /\ (exists a, _events c !! a = None /\ _events c' = <[a := e]> (_events c)) /\
    (forall ev, vec (_invites c') ev = vec (_invites c) ev) /\ i_heap c' = i_heap c /\ _maxInviteId c' = _maxInviteId c /\ _maxEventId c' = _maxEventId c.
Proof.
  intros Hsm Hlen [H1 H2 H3 H4]. unfold AddEvent. set (a := malloc (dom (_events c))). assert (Ha : _events c !! a = None) by (apply not_elem_of_dom, malloc_fresh).
  set (c1 := with_tables (<[e_eventId e := event_row e]> (calendar_events c)) (calendar_invites c) (with_events (<[a := e]> (_events c)) c)).
  assert (Hok : calendar_ok plain None c1).
  { split; [now apply ev_added| |done|now apply texts_event]. destruct H2 as [A B C]. split; [done|done|]. intros ev b Hb. left. apply live_insert; [done|]. destruct (C ev b Hb) as [?|[= ->]]; auto. }
  rewrite bind_modify. unfold UpdateEvent. rewrite bind_modify. fold a. fold c1. destruct (event_silent (e_creatorGUID e) e t c1 (ok_refs _ _ _ Hok)) as ([] & c' & E & S).
  { intros l Hl. exact (event_fits e c1 _ l Hsm (proj2 (co_texts _ _ _ Hok)) Hlen Hl). }
  exists tt, c'. split; [exact E|]. split; [now rewrite <- S|]. destruct S as [S1 S2 [S3 S4] [S5 S6] S7 _ _]. split; [now exists a|]. now split_and!.
Qed.
Lemma event_update_ok plain a e f c : small f -> calendar_ok plain None c -> _events c !! a = Some e -> e_eventId f = e_eventId e ->
  calendar_ok plain None (with_tables (<[e_eventId f := event_row f]> (calendar_events c)) (calendar_invites c) (with_events (<[a := f]> (_events c)) c)).
Proof.
  intros Hsm [H1 H2 H3 H4] Ha Ef. split; [now apply (ev_changed _ _ _ _ a e)| |done|now apply texts_event]. destruct H2 as [A B C]. split; [done|done|]. intros ev b Hb. destruct (C ev b Hb) as [(x & y & Hx & <-)|[=]]. left.
  cbn. destruct (decide (x = a)) as [->|Hne]; [exists a, f; split; [apply lookup_insert_eq|congruence]|]. exists x, y. now rewrite lookup_insert_ne.
Qed.
Lemma invite_update_ok plain p a i j c : calendar_ok plain p c -> i_heap c !! a = Some i -> a ∈ vec (_invites c) (i_eventId i) -> i_inviteId j = i_inviteId i -> i_eventId j = i_eventId i -> i_text j = i_text i ->
  calendar_ok plain p (with_tables (calendar_events c) (<[i_inviteId j := invite_row j]> (calendar_invites c)) (with_heap (<[a := j]> (i_heap c)) c)).
Proof.
  intros [H1 H2 H3 H4] Ha Hin Ei Ee Et. split; [done|now apply (vec_changed _ _ _ _ a i)| |apply texts_new; [done|rewrite Et; now apply (proj2 H4 a)]].
  intros Hp. apply (ids_changed _ _ _ _ _ a i); auto.
Qed.

(** ** Invitations and events are removed *)

Definition mail_to (mail : Z -> Mail) (remover : Z) i : option Mail := if negb (remover =? 0) && negb (i_invitee i =? remover) then Some (mail (GUID_LOPART (i_invitee i))) else None.
(** The invitations of a list were deleted: their rows and their objects are gone, and
    mails were sent; the vectors are as before. *)
Record gone plain (mail : Z -> Mail) (remover : Z) (l : list (Z * CalendarInvite)) c c' : Prop := mk_gone {
  go_events : _events c' = _events c; go_eids : _freeEventIds c' = _freeEventIds c /\ _maxEventId c' = _maxEventId c; go_vec : _invites c' = _invites c;
  go_heap : i_heap c' = foldl (fun h x => delete x.1 h) (i_heap c) l;
  go_tables : calendar_events c' = calendar_events c /\ calendar_invites c' = foldl (fun t x => delete (i_inviteId x.2) t) (calendar_invites c) l;
  go_mail : c_mail c' = c_mail c ++ omap (fun x => mail_to mail remover x.2) l; go_sent : c_sent c' = c_sent c;
  go_max : plain = true -> _maxInviteId c' <= _maxInviteId c
}.
Definition shortened (ev : Z) (l : list Z) c : CalendarMgr := with_invites (<[ev := l]> (_invites c)) c.
Lemma dropped_ok plain p ev k a i c : calendar_ok plain p c -> vec (_invites c) ev !! k = Some a -> i_heap c !! a = Some i ->
  let n := give_back (i_inviteId i) (_freeInviteIds c) (_maxInviteId c) in
  let c' := with_heap (delete a (i_heap c)) (with_invite_ids n.1 n.2 (with_tables (calendar_events c) (delete (i_inviteId i) (calendar_invites c)) c)) in
  calendar_ok plain p (with_invites (<[ev := base.delete k (vec (_invites c) ev)]> (_invites c)) c') /\ (plain = true -> n.2 <= _maxInviteId c).
Proof.
  intros [H1 H2 H3 H4] Hk Ha n c'. split; [split|].
  - done.
  - exact (vec_dropped _ _ _ _ ev k a H2 Hk).
  - intros Hp. exact (proj1 (ids_dropped _ _ _ _ _ _ _ ev k a i H2 (H3 Hp) Hk Ha)).
  - exact (texts_less _ _ a H4).
  - intros Hp. exact (proj2 (ids_dropped _ _ _ _ _ _ _ ev k a i H2 (H3 Hp) Hk Ha)).
Qed.
Lemma delete_invite_eq a i c : i_heap c !! a = Some i ->
  delete_invite a c = (Ret tt, with_heap (delete a (i_heap c)) (with_invite_ids (give_back (i_inviteId i) (_freeInviteIds c) (_maxInviteId c)).1 (give_back (i_inviteId i) (_freeInviteIds c) (_maxInviteId c)).2 c)).
Proof. intros Ha. unfold delete_invite. rewrite (bind_ret _ _ _ _ _ (invite_eq c a i Ha)). unfold FreeInviteId. rewrite bind_modify. unfold modify, give_back. now destruct (i_inviteId i =? _maxInviteId c). Qed.
Lemma shortened_refl plain p ev c : calendar_ok plain p c <-> calendar_ok plain p (shortened ev (vec (_invites c) ev) c).
Proof.
  assert (S : same c (shortened ev (vec (_invites c) ev) c)) by apply touch_same. split; intros H; [now rewrite <- S|].
  assert (S' : same (shortened ev (vec (_invites c) ev) c) c); [|now rewrite <- S']. destruct S as [? S2 ? ? ? ? ?]. split; try done.
Qed.
Lemma remove_one_ok plain p mail remover ev a l c : calendar_ok plain p (shortened ev (a :: l) c) ->
  exists i c', i_heap c !! a = Some i /\ remove_one mail remover a c = (Ret tt, c') /\ calendar_ok plain p (shortened ev l c') /\ gone plain mail remover [(a, i)] c c'.
Proof.
  intros H. assert (Hv : vec (_invites (shortened ev (a :: l) c)) ev = a :: l) by (cbn; rewrite vec_insert; now rewrite decide_True).
  assert (Hi : is_Some (i_heap c !! a)) by (apply (ok_refs _ _ _ H ev); rewrite Hv; left). destruct Hi as [i Hi].
  pose proof (dropped_ok plain p ev 0 a i _ H ltac:(now rewrite Hv) Hi) as [Hok Hmax]. rewrite Hv in Hok. cbn [base.delete list_delete] in Hok.
  unfold remove_one. rewrite (bind_ret _ _ _ _ _ (invite_eq c a i Hi)). unfold DEL_CALENDAR_INVITE. rewrite bind_modify.
  set (c1 := with_tables _ _ c). set (c2 := (when (negb (remover =? 0) && negb (i_invitee i =? remover)) (SendMail (mail (GUID_LOPART (i_invitee i)))) c1).2).
  assert (E2 : when (negb (remover =? 0) && negb (i_invitee i =? remover)) (SendMail (mail (GUID_LOPART (i_invitee i)))) c1 = (Ret tt, c2)) by (unfold c2; now destruct (_ && _)).
  assert (Em : c2 = with_output (c_mail c ++ omap (fun x => mail_to mail remover x.2) [(a, i)]) (c_sent c) c1).
  { unfold c2, mail_to. cbn. destruct (_ && _); [done|]. cbn. rewrite app_nil_r. now destruct c. }
  rewrite (bind_ret _ _ _ _ _ E2). exists i. eexists. split; [done|]. rewrite (delete_invite_eq a i) by now rewrite Em. split; [reflexivity|]. rewrite Em. cbn in *. split.
  - apply (shortened_refl _ _ ev) in Hok. cbn in *. unfold shortened in *. cbn in *. rewrite !insert_insert_eq in Hok. rewrite vec_insert, decide_True in Hok by done.
    destruct Hok as [A B C D]. split; cbn in *; [done|done| |exact D]. intros Hp. exact (C Hp).
  - split; cbn; done.
Qed.
Lemma gone_trans plain mail remover l1 l2 c1 c2 c3 : gone plain mail remover l1 c1 c2 -> gone plain mail remover l2 c2 c3 -> gone plain mail remover (l1 ++ l2) c1 c3.
Proof.
  intros [A1 [A2 A3] A4 A5 [A6 A7] A8 A9 A10] [B1 [B2 B3] B4 B5 [B6 B7] B8 B9 B10].
  split; rewrite ?foldl_app, ?omap_app, ?app_assoc; try split; try congruence. intros Hp. specialize (A10 Hp). specialize (B10 Hp). lia.
Qed.
Lemma remove_each plain p mail remover ev l c : calendar_ok plain p (shortened ev l c) -> NoDup l ->
  exists ais c', map fst ais = l /\ Forall (fun x => i_heap c !! x.1 = Some x.2) ais /\ for_each l (remove_one mail remover) c = (Ret tt, c') /\
    calendar_ok plain p (shortened ev [] c') /\ gone plain mail remover ais c c'.
Proof.
  revert c. induction l as [|a l IH]; intros c H Hnd.
  { exists [], c. split_and!; [done|done|done|done|]. split; cbn; rewrite ?app_nil_r; auto. lia. }
  destruct (remove_one_ok plain p mail remover ev a l c H) as (i & c1 & Hi & E & H1 & G1). cbn [for_each]. rewrite (bind_ret _ _ _ _ _ E). apply NoDup_cons in Hnd as [Hna Hnd].
  destruct (IH c1 H1 Hnd) as (ais & c' & El & Hais & E' & H' & G'). exists ((a, i) :: ais), c'. split_and!; [now rewrite <- El| |done|done|exact (gone_trans _ _ _ _ _ _ _ _ G1 G')].
  constructor; [done|]. rewrite Forall_forall in Hais |- *. intros [b j] Hb. specialize (Hais _ Hb). rewrite (go_heap _ _ _ _ _ _ G1) in Hais. cbn in *. now apply lookup_delete_Some in Hais as [_ Hais].
Qed.
(** An event whose vector is empty goes. *)
Lemma event_gone plain a e c : calendar_ok plain None (shortened (e_eventId e) [] c) -> _events c !! a = Some e ->
  let n := give_back (e_eventId e) (_freeEventIds c) (_maxEventId c) in
  calendar_ok plain None (with_events (delete a (_events c)) (with_event_ids n.1 n.2 (with_tables (delete (e_eventId e) (calendar_events c)) (calendar_invites c)
    (with_invites (delete (e_eventId e) (_invites c)) c)))).
Proof.
  intros [H1 H2 H3 H4] Ha n. assert (Hv : forall ev, vec (delete (e_eventId e) (_invites c)) ev = vec (<[e_eventId e := []]> (_invites c)) ev) by (intros ev; now rewrite vec_delete, vec_insert).
  split; [exact (ev_removed _ _ _ _ a e H1 Ha)| | |exact (texts_gone _ _ a H4)].
  - destruct H2 as [A B C]. split; [intros ev b; cbn; rewrite Hv; apply A|intros ev; cbn; rewrite Hv; apply B|].
    intros ev b. cbn. rewrite Hv. intros Hb. left. destruct (C ev b Hb) as [Hl|[=]]. apply (live_delete _ a e); [intros d f Hd E; exact (ev_unique _ _ _ _ _ H1 a d e f Ha Hd E)|done|].
    split; [done|]. intros ->. rewrite vec_insert, decide_True in Hb by done. now apply elem_of_nil in Hb.
  - intros Hp. destruct (H3 Hp) as [A B C]. split; [done|done|]. intros id r. cbn. rewrite (C id r). unfold stored. cbn. now setoid_rewrite Hv.
Qed.
Lemma FreeEventId_eq id c : FreeEventId id c = (Ret tt, with_event_ids (give_back id (_freeEventIds c) (_maxEventId c)).1 (give_back id (_freeEventIds c) (_maxEventId c)).2 c).
Proof. unfold FreeEventId, modify, give_back. now destruct (id =? _maxEventId c). Qed.
Definition remove_mail e (remover : Z) (to : Z) : Mail := mkMail to (BuildCalendarMailSubject e remover) (BuildCalendarMailBody e).
Lemma RemoveEvent_ok plain id remover a e c : calendar_ok plain None c -> _events c !! a = Some e -> e_eventId e = id ->
  exists ais c', RemoveEvent id remover c = (Ret tt, c') /\ calendar_ok plain None c' /\ map fst ais = vec (_invites c) id /\
    Forall (fun x => i_heap c !! x.1 = Some x.2) ais /\ _events c' = delete a (_events c) /\ (forall ev, vec (_invites c') ev = if decide (ev = id) then [] else vec (_invites c) ev) /\
    i_heap c' = foldl (fun h x => delete x.1 h) (i_heap c) ais /\ calendar_events c' = delete id (calendar_events c) /\
    calendar_invites c' = foldl (fun t x => delete (i_inviteId x.2) t) (calendar_invites c) ais /\
    c_mail c' = c_mail c ++ omap (fun x => mail_to (remove_mail e remover) remover x.2) ais /\ (plain = true -> _maxInviteId c' <= _maxInviteId c) /\ _maxEventId c' <= _maxEventId c.
Proof.
  intros H Ha He. unfold RemoveEvent. destruct (find_event id c) as (o & Eo & Ho). rewrite (bind_ret _ _ _ _ _ Eo).
  destruct o as [[b f]|]; [|exfalso; apply Ho; now exists a, e]. destruct Ho as [Hb Hf]. assert (a = b) as -> by (apply (ev_unique _ _ _ _ _ (co_events _ _ _ H) a b e f); congruence).
  rewrite Ha in Hb. injection Hb as <-. clear Hf. assert (Hq : silent (SendCalendarEventRemovedAlert e)) by apply silent_gone.
  destruct (Hq c (ok_refs _ _ _ H)) as ([] & c1 & E1 & S1). rewrite (bind_ret _ _ _ _ _ E1). destruct (vectors_eq id c1) as (c2 & E2 & S2). rewrite (bind_ret _ _ _ _ _ E2).
  rewrite (sm_vec _ _ S1). assert (S : same c c2) by now transitivity c1. clear S1 S2 E1 E2 Hq.
  assert (H2 : calendar_ok plain None (shortened id (vec (_invites c) id) c2)) by (rewrite <- (sm_vec _ _ S id); apply shortened_refl; now rewrite <- S).
  destruct (remove_each plain None (remove_mail e remover) remover id _ c2 H2 (vc_once _ _ _ _ (co_vectors _ _ _ H) id)) as (ais & c3 & Eais & Hais & E3 & H3 & G).
  fold (remove_mail e remover). rewrite (bind_ret _ _ _ _ _ E3), bind_modify. unfold DEL_CALENDAR_EVENT. rewrite bind_modify, (bind_ret _ _ _ _ _ (FreeEventId_eq _ _)), He.
  destruct S as [S1 S2 [S3 S4] [S5 S6] S7 [S8 S9] S10], G as [G1 [G2 G3] G4 G5 [G6 G7] G8 _ G9]. assert (Ha3 : _events c3 !! b = Some e) by now rewrite G1, S1.
  rewrite <- He in H3. pose proof (event_gone plain b e c3 H3 Ha3) as Hok. rewrite He in Hok. exists ais. eexists. split; [reflexivity|]. split; [exact Hok|]. cbn.
  split_and!; [done| |congruence| |congruence..| |].
  - now rewrite S7 in Hais.
  - intros ev. rewrite vec_delete, G4. case_decide; [done|]. now rewrite <- (S2 ev).
  - intros Hp. rewrite <- S6. now apply G9.
  - rewrite <- S4, <- G3, G2, S3. pose proof (ev_numbers _ _ _ _ _ (co_events _ _ _ H)) as Hn. assert (Hl : live_event (_events c) id \/ None = Some id) by (left; now exists b, e).
    pose proof (numbers_free _ _ _ _ Hn Hl) as Hm. rewrite G3, S4. now destruct (give_back id (_freeEventIds c) (_maxEventId c)).
Qed.
Lemma position_ok id v n c : (forall a, a ∈ v -> is_Some (i_heap c !! a)) -> exists o, position id v n c = (Ret o, c) /\
  match o with
  | Some (k, a) => exists m i, k = (n + m)%nat /\ v !! m = Some a /\ i_heap c !! a = Some i /\ i_inviteId i = id
  | None => forall a i, a ∈ v -> i_heap c !! a = Some i -> i_inviteId i <> id
  end.
Proof.
  revert n. induction v as [|a v IH]; intros n Hv; [exists None; split; [done|]; intros a i Ha; now apply elem_of_nil in Ha|]. destruct (Hv a ltac:(left)) as [i Hi]. cbn [position].
  rewrite (bind_ret _ _ _ _ _ (invite_eq c a i Hi)). destruct (Z.eqb_spec (i_inviteId i) id) as [He|He].
  - eexists. split; [reflexivity|]. exists O, i. split; [lia|done].
  - destruct (IH (S n)) as (o & E & Ho); [intros b Hb; apply Hv; now right|]. exists o. split; [exact E|]. destruct o as [[k b]|].
    + destruct Ho as (m & j & -> & Hm & Hj & Ej). exists (S m), j. split; [lia|done].
    + intros b j [->|Hb]%elem_of_cons Hj; [congruence|now apply (Ho b)].
Qed.
Lemma vec_alter (vs : gmap Z (list Z)) (k : nat) ev j : vec (alter (base.delete k) ev vs) j = vec (<[ev := base.delete k (vec vs ev)]> vs) j.
Proof.
  rewrite vec_insert. unfold vec, entry_at. case_decide as E; [subst; rewrite lookup_alter_eq; now destruct (vs !! ev)|now rewrite lookup_alter_ne].
Qed.
(** An invitation is gone, and nothing else. *)
Record dropped plain (ev a : Z) c c' : Prop := mk_dropped {
  dr_events : _events c' = _events c; dr_heap : i_heap c' = delete a (i_heap c);
  dr_vec j b : b ∈ vec (_invites c') j <-> b ∈ vec (_invites c) j /\ b <> a;
  dr_max : (plain = true -> _maxInviteId c' <= _maxInviteId c) /\ _maxEventId c' = _maxEventId c
}.
Lemma RemoveInvite_ok plain inviteId ev c : calendar_ok plain None c ->
  exists u c', RemoveInvite inviteId ev c = (Ret u, c') /\ calendar_ok plain None c' /\
    ((same c c' /\ forall a i, a ∈ vec (_invites c) ev -> i_heap c !! a = Some i -> i_inviteId i <> inviteId) \/
     exists a i, a ∈ vec (_invites c) ev /\ i_heap c !! a = Some i /\ i_inviteId i = inviteId /\ dropped plain ev a c c').
Proof.
  intros H. unfold RemoveInvite. destruct (find_event ev c) as (o & Eo & Ho). rewrite (bind_ret _ _ _ _ _ Eo). destruct o as [[x e]|].
  2:{ exists tt, c. split; [done|]. split; [done|]. left. split; [done|]. intros a i Hin. destruct (vc_home _ _ _ _ (co_vectors _ _ _ H) ev a Hin) as [?|[=]]. done. }
  destruct (vectors_eq ev c) as (c1 & E1 & S1). rewrite (bind_ret _ _ _ _ _ E1). assert (H1 : calendar_ok plain None c1) by now rewrite <- S1.
  pose proof (ok_refs _ _ _ H) as Hr. destruct (position_ok inviteId (vec (_invites c) ev) 0 c1) as (q & E2 & Hq); [intros a Ha; rewrite (sm_heap _ _ S1); now apply (Hr ev)|].
  rewrite (bind_ret _ _ _ _ _ E2). rewrite (sm_heap _ _ S1) in Hq. destruct q as [[k a]|]; [|exists tt, c1; auto]. destruct Hq as (m & i & -> & Hm & Hi & Hid). cbn [Nat.add].
  assert (Hi1 : i_heap c1 !! a = Some i) by now rewrite (sm_heap _ _ S1). rewrite (bind_ret _ _ _ _ _ (invite_eq c1 a i Hi1)). unfold DEL_CALENDAR_INVITE. rewrite bind_modify.
  set (c2 := with_tables _ _ c1). assert (R2 : refs c2) by (intros j b Hb; apply (ok_refs _ _ _ H1 j); exact Hb).
  destruct (silent_when (negb (IsGuildEvent e)) _ (silent_removed (i_invitee i) e CALENDAR_STATUS_REMOVED) c2 R2) as (u & c3 & E3 & S3). rewrite (bind_ret _ _ _ _ _ E3).
  assert (Hq : silent (SendCalendarEventInviteRemove e i (e_flags e))) by apply silent_uninvited. assert (R3 : refs c3) by now rewrite <- S3.
  destruct (Hq c3 R3) as (u' & c4 & E4 & S4). rewrite (bind_ret _ _ _ _ _ E4). assert (S : same c2 c4) by now transitivity c3. clear S3 S4 E3 E4 Hq R3 R2.
  assert (Hi4 : i_heap c4 !! a = Some i) by now rewrite (sm_heap _ _ S). rewrite (bind_ret _ _ _ _ _ (delete_invite_eq a i c4 Hi4)). eexists tt, _. split; [reflexivity|].
  rewrite <- (sm_vec _ _ S1) in Hm. pose proof (dropped_ok plain None ev m a i c1 H1 Hm Hi1) as [Hok Hmax]. pose proof (fun j b => dropped_elem _ _ _ _ ev m a j b (co_vectors _ _ _ H1) Hm) as Hd.
  destruct S as [T1 T2 [T3 T4] [T5 T6] T7 [T8 T9] T10], S1 as [U1 U2 [U3 U4] [U5 U6] U7 [U8 U9] U10]. unfold modify. cbn [snd].
  assert (Hvec : forall j, vec (alter (base.delete m) ev (_invites c4)) j = vec (<[ev := base.delete m (vec (_invites c1) ev)]> (_invites c1)) j).
  { intros j. rewrite vec_alter, !vec_insert, (T2 ev). case_decide; [done|]. apply (T2 j). }
  split; [|right; exists a, i; split_and!; [now rewrite <- U2; apply list_elem_of_lookup_2 in Hm|done|done|]].
  - match type of Hok with calendar_ok _ _ ?x => assert (Sx : same x (with_invites (alter (base.delete m) ev (_invites c4)) (with_heap (delete a (i_heap c4))
      (with_invite_ids (give_back (i_inviteId i) (_freeInviteIds c4) (_maxInviteId c4)).1 (give_back (i_inviteId i) (_freeInviteIds c4) (_maxInviteId c4)).2 c4)))) end.
    { split; cbn; rewrite ?T1, ?T3, ?T4, ?T5, ?T6, ?T7, ?T8, ?T9, ?T10; try done. }
    now rewrite Sx in Hok.
  - split; cbn; rewrite ?T1, ?T3, ?T4, ?T5, ?T6, ?T7, ?T8, ?T9, ?T10; cbn; rewrite ?U1, ?U4, ?U7; try done.
    + intros j b. rewrite Hvec, (Hd j b). now rewrite U2.
    + rewrite <- U6. split; [|done]. exact Hmax.
Qed.
End Steps.
