(* ===== verification/CalendarRuns.v ===== *)
(** * The calendar: every run of requests

    From a calendar that is in order every request returns and leaves it in order, but
    for the two that build a packet of a size without bound: those for a player's
    calendar and for an event with all who are invited.
    [plain] requests are those that make no announcement and invite nobody to an event
    that is not made yet; with them the numbers of the invitations are in order too. *)

From stdpp Require Import base gmap list strings.
From Stdlib Require Import ZArith Lia.
From S2P Require Import Prelude ByteBuffer StdMap Util Columns ObjectGuid WorldPacket LfgPackets ActionLogic Calendar CalendarHandler CalendarInv CalendarSteps.
#[local] Open Scope Z_scope.

(** ** The packets are read safely *)

Lemma safe_int n : (n <= 8)%nat -> safe (read n).
Proof. intros H. apply safe_read. lia. Qed.
Lemma safe_signed_int n : (n <= 8)%nat -> safe (read_int n).
Proof. intros H. apply safe_bind; [now apply safe_int|]. intros a. apply safe_ret. Qed.
Lemma safe_bool : safe read_bool.
Proof. apply safe_bind; [apply safe_signed_int; lia|]. intros a. apply safe_ret. Qed.
Lemma safe_uint8 : safe read_uint8. Proof. apply safe_int. lia. Qed.
Lemma safe_dword : safe read_uint32. Proof. apply safe_int. lia. Qed.
Lemma safe_qword : safe read_uint64. Proof. apply safe_int. lia. Qed.
Lemma safe_signed : safe (read_int 4).
Proof. apply safe_signed_int. lia. Qed.
Create HintDb calendar.
#[export] Hint Resolve safe_bool safe_uint8 safe_dword safe_qword safe_signed safe_read_string safe_readPackGUID safe_ret : calendar.
(** Field after field. *)
Ltac safe_fields := repeat (first [solve [auto with calendar]|apply safe_bind; [auto with calendar|intros ?]]).

Section Runs.
Context `{columns : TextColumns} `{world : CalendarWorld} `{instances : CalendarInstances} `{laws : !CalendarLaws}.
Implicit Types (plain : bool) (c : CalendarMgr).

Lemma safe_time : safe read_time.
Proof. unfold read_time, ReadPackedTime. safe_fields. Qed.
#[local] Hint Resolve safe_time : calendar.
Lemma safe_event : safe read_event.
Proof. unfold read_event. safe_fields. Qed.
#[local] Hint Resolve safe_event : calendar.
Lemma safe_invitees n : safe (read_invitees n).
Proof. induction n as [|n IH]; cbn [read_invitees]; safe_fields. Qed.
Lemma safe_invite_list : safe read_invite_list.
Proof. unfold read_invite_list. apply safe_bind; [auto with calendar|]. intros n. apply safe_invitees. Qed.
Lemma length_invitees n b l b' : read_invitees n b = (Ret l, b') -> length l = n.
Proof.
  revert b l b'. induction n as [|n IH]; intros b l b' H; [now injection H as <- _|]. cbn [read_invitees] in H. unfold bind in H.
  destruct (readPackGUID b) as [[x|e|] b1]; [|done..]. destruct (read_uint8 b1) as [[y|e|] b2]; [|done..]. destruct (read_uint8 b2) as [[z|e|] b3]; [|done..].
  destruct (read_invitees n b3) as [[l'|e|] b4] eqn:E; [|done..]. injection H as <- _. cbn. f_equal. now apply (IH b3 l' b4).
Qed.
(** Texts come with a packet, and are no longer. *)
Lemma gives_number n : (n <= 8)%nat -> gives (read n) (fun _ => True).
Proof. intros H. apply gives_read. lia. Qed.
Lemma gives_signed n : (n <= 8)%nat -> gives (read_int n) (fun _ => True).
Proof. intros H. apply gives_seq; [now apply gives_number|]. intros a. now apply gives_ret. Qed.
Lemma gives_bool : gives read_bool (fun _ => True).
Proof. apply gives_seq; [apply gives_signed; lia|]. intros a. now apply gives_ret. Qed.
Lemma gives_time : gives read_time (fun _ => True).
Proof. unfold read_time, ReadPackedTime. apply gives_seq; [apply gives_number; lia|]. intros a. now apply gives_ret. Qed.
Lemma gives_event : gives read_event (fun q => zlen (rq_title q) <= TEXT_LIMIT /\ zlen (rq_description q) <= TEXT_LIMIT).
Proof.
  unfold read_event. apply (gives_bind _ _ _ _ gives_string). intros title Ht. apply (gives_bind _ _ _ _ gives_string). intros description Hd.
  do 2 (apply gives_seq; [apply gives_number; lia|intros ?]). apply gives_seq; [apply gives_number; lia|intros ?]. apply gives_seq; [apply gives_signed; lia|intros ?].
  do 2 (apply gives_seq; [apply gives_time|intros ?]). apply gives_seq; [apply gives_number; lia|intros ?]. now apply gives_ret.
Qed.
Lemma gives_update : gives (let! eventId := read_uint64 in let! inviteId := read_uint64 in let! q := read_event in ret (eventId, q))
  (fun x => zlen (rq_title x.2) <= TEXT_LIMIT /\ zlen (rq_description x.2) <= TEXT_LIMIT).
Proof.
  do 2 (apply gives_seq; [apply gives_number; lia|intros ?]). apply (gives_bind _ _ _ _ gives_event). intros q Hq. now apply gives_ret.
Qed.
Lemma gives_invitation : gives read_invitation (fun x => zlen x.1.1.2 <= TEXT_LIMIT).
Proof.
  unfold read_invitation. do 2 (apply gives_seq; [apply gives_number; lia|intros ?]). apply (gives_bind _ _ _ _ gives_string). intros name Hn.
  do 2 (apply gives_seq; [apply gives_bool|intros ?]). now apply gives_ret.
Qed.
Lemma given {A} (m : BB A) P data a rest : gives m P -> received data -> m data = (Ret a, rest) -> P a.
Proof. intros H Hd E. apply (gives_outcome m P data); [done|done|now rewrite E]. Qed.
Lemma reading_eq {A} (m : BB A) data c : safe m -> wf data ->
  (exists a rest, m data = (Ret a, rest) /\ wf rest /\ reading m data c = (Ret (a, rest), c)) \/ (exists e, reading m data c = (Throw e, c)).
Proof.
  intros Hm Hd. destruct (Hm data Hd) as [H1 H2]. unfold reading. destruct (m data) as [[a|e|] rest]; [left; now exists a, rest|right; now exists e|done].
Qed.

(** ** Requests return *)

Definition returns_ok plain (m : CA unit) c : Prop := exists o c', m c = (o, c') /\ o <> Crash /\ calendar_ok plain None c'.
Lemma ok_reading {A} plain (m : BB A) data (k : A * ByteBuffer -> CA unit) c : calendar_ok plain None c -> safe m -> wf data ->
  (forall a rest, m data = (Ret a, rest) -> wf rest -> returns_ok plain (k (a, rest)) c) -> returns_ok plain (let! r := reading m data in k r) c.
Proof.
  intros H Hm Hd Hk. destruct (reading_eq m data c Hm Hd) as [(a & rest & E & Hw & Er)|[e Er]].
  - unfold returns_ok. rewrite (bind_ret _ _ _ _ _ Er). now apply Hk.
  - exists (Throw e), c. unfold bind. now rewrite Er.
Qed.
Lemma ok_silent plain (m : CA unit) c : calendar_ok plain None c -> silent m -> returns_ok plain m c.
Proof. intros H Hm. destruct (Hm c (ok_refs _ _ _ H)) as (u & c' & E & S). exists (Ret u), c'. split; [done|]. split; [done|]. now rewrite <- S. Qed.
Lemma ok_ret plain c : calendar_ok plain None c -> returns_ok plain (ret tt) c.
Proof. intros H. now exists (Ret tt), c. Qed.
Lemma ok_bind plain (m : CA unit) (k : unit -> CA unit) c c' : m c = (Ret tt, c') -> returns_ok plain (k tt) c' -> returns_ok plain (bind m k) c.
Proof. intros E H. unfold returns_ok. now rewrite (bind_ret _ _ _ _ _ E). Qed.
Lemma silent_error me x : silent (error me x).
Proof. apply silent_result. unfold zlen, TEXT_LIMIT. cbn. lia. Qed.
#[local] Hint Resolve silent_error fits_time : trinity.

(** Looking for invitations changes nothing. *)
Lemma elem_of_all_invites c a : a ∈ all_invites c <-> exists ev, a ∈ vec (_invites c) ev.
Proof.
  unfold all_invites. rewrite list_elem_of_In, List.in_concat. split.
  - intros (l & Hl & Ha). apply List.in_map_iff in Hl as ([ev v] & <- & Hin). apply list_elem_of_In in Ha, Hin. apply elem_of_entries in Hin.
    exists ev. unfold vec, entry_at. now rewrite Hin.
  - intros [ev Ha]. unfold vec, entry_at in Ha. destruct (_invites c !! ev) as [v|] eqn:Ev; [|now apply elem_of_nil in Ha]. exists v. split; [|now apply list_elem_of_In].
    apply List.in_map_iff. exists (ev, v). split; [done|]. now apply list_elem_of_In, elem_of_entries.
Qed.
Lemma all_alive c a : refs c -> a ∈ all_invites c -> is_Some (i_heap c !! a).
Proof. intros H Ha. apply elem_of_all_invites in Ha as [ev Hev]. now apply (H ev). Qed.
Lemma invites_of_eq guid l c : (forall a, a ∈ l -> is_Some (i_heap c !! a)) ->
  exists r, invites_of guid l c = (Ret r, c) /\ sublist r l /\ forall a, a ∈ r <-> a ∈ l /\ exists i, i_heap c !! a = Some i /\ i_invitee i = guid.
Proof.
  induction l as [|a l IH]; intros H; [exists []; split; [done|]; split; [constructor|]; intros a; rewrite elem_of_nil; tauto|]. destruct (H a ltac:(left)) as [i Hi].
  destruct IH as (r & E & Hsub & Hr); [intros b Hb; apply H; now right|]. cbn [invites_of]. rewrite (bind_ret _ _ _ _ _ (invite_eq c a i Hi)), (bind_ret _ _ _ _ _ E).
  eexists. split; [reflexivity|]. split; [destruct (i_invitee i =? guid); now constructor|]. intros b. destruct (Z.eqb_spec (i_invitee i) guid) as [He|He]; rewrite ?elem_of_cons, Hr.
  - split; [intros [->|[? ?]]; [split; [now left|now exists i]|auto]|intros [[->|?] ?]; auto].
  - split; [intros [? ?]; auto|]. intros [[->|?] (j & Hj & Ej)]; [congruence|]. split; [done|now exists j].
Qed.
Lemma GetPlayerInvites_eq guid c : refs c -> exists r, GetPlayerInvites guid c = (Ret r, c) /\ sublist r (all_invites c) /\
  forall a, a ∈ r <-> a ∈ all_invites c /\ exists i, i_heap c !! a = Some i /\ i_invitee i = guid.
Proof. intros H. apply (invites_of_eq guid (all_invites c) c). intros a. now apply all_alive. Qed.
Lemma find_invite_eq id l c : (forall a, a ∈ l -> is_Some (i_heap c !! a)) -> exists o, find_invite id l c = (Ret o, c) /\
  match o with Some a => a ∈ l /\ exists i, i_heap c !! a = Some i /\ i_inviteId i = id | None => forall a i, a ∈ l -> i_heap c !! a = Some i -> i_inviteId i <> id end.
Proof.
  induction l as [|a l IH]; intros H; [exists None; split; [done|]; intros a i Ha; now apply elem_of_nil in Ha|]. destruct (H a ltac:(left)) as [i Hi]. cbn [find_invite].
  rewrite (bind_ret _ _ _ _ _ (invite_eq c a i Hi)). destruct (Z.eqb_spec (i_inviteId i) id) as [He|He].
  - exists (Some a). split; [done|]. split; [left|now exists i].
  - destruct IH as (o & E & Ho); [intros b Hb; apply H; now right|]. exists o. split; [done|]. destruct o as [b|].
    + destruct Ho as [Hb Hj]. split; [now right|done].
    + intros b j [->|Hb]%elem_of_cons Hj; [congruence|now apply (Ho b)].
Qed.
Lemma GetInvite_eq id c : refs c -> exists o, GetInvite id c = (Ret o, c) /\
  match o with Some a => a ∈ all_invites c /\ exists i, i_heap c !! a = Some i /\ i_inviteId i = id
             | None => forall a i, a ∈ all_invites c -> i_heap c !! a = Some i -> i_inviteId i <> id end.
Proof. intros H. apply (find_invite_eq id (all_invites c) c). intros a. now apply all_alive. Qed.
Lemma fold_reads {A B} (f : B -> A -> CA B) l b c : (forall b a, a ∈ l -> exists b', f b a c = (Ret b', c)) -> exists b', fold_m f l b c = (Ret b', c).
Proof.
  revert b. induction l as [|a l IH]; intros b H; [now exists b|]. destruct (H b a ltac:(left)) as [b' E]. cbn [fold_m]. rewrite (bind_ret _ _ _ _ _ E).
  apply IH. intros d x Hx. apply H. now right.
Qed.
Lemma invited_events_eq guid l s c : (forall ev v a, (ev, v) ∈ l -> a ∈ v -> is_Some (i_heap c !! a)) -> exists r, invited_events guid l s c = (Ret r, c).
Proof.
  revert s. induction l as [|[ev v] l IH]; intros s H; [now exists s|]. destruct (invites_of_eq guid v c) as (r & E & _); [intros a; apply (H ev); left|].
  cbn [invited_events]. rewrite (bind_ret _ _ _ _ _ E). destruct (find_event ev c) as (o & Eo & _). rewrite (bind_ret _ _ _ _ _ Eo). apply IH. intros ev' v' a Hin. apply (H ev'). now right.
Qed.
Lemma GetPlayerEvents_eq guid c : refs c -> exists s, GetPlayerEvents guid c = (Ret s, c).
Proof.
  intros H. unfold GetPlayerEvents. rewrite bind_gets. destruct (invited_events_eq guid (entries Z.le (_invites c)) ∅ c) as [r E].
  { intros ev v a Hin Ha. apply elem_of_entries in Hin. apply (H ev). unfold vec, entry_at. now rewrite Hin. }
  rewrite (bind_ret _ _ _ _ _ E). destruct (FindConnectedPlayer guid); [now eexists|now exists r].
Qed.

(** ** One request after the other *)

(** The bytes of a calendar: of the invitations, the events shown with their titles, the
    instances and the resets. *)
Definition calendar_bytes (me invites : Z) (events : list CalendarEvent) : Z :=
  invites * 28 + total (fun e => zlen (e_title e) + 34) events + zlen (filter (fun b => bi_perm b = true) (GetBoundInstances me)) * 20 + zlen (raid_resets GetResetTimeMap []) * 12 + 32.
Lemma calendar_intact me invites events : calendar_bytes me (zlen invites) events <= 10000000 -> intact (calendar_packet me invites events).
Proof.
  unfold calendar_bytes, calendar_packet. intros H. assert (0 <= total (fun e => zlen (e_title e) + 34) events) by (apply total_nonneg; intros e; unfold zlen; lia).
  assert (H1 : fits (zlen invites * 28) (write_all write_invite_of invites)).
  { apply fits_all; [lia|]. intros [i o] _. unfold write_invite_of. cbn [fst snd]. apply (fits_mono (8 + (8 + (1 + (1 + (1 + 9)))))); [|lia].
    do 4 (apply fits_seq; [lia|auto with trinity|]). destruct o; (apply fits_seq; [lia|auto with trinity|auto with trinity]). }
  assert (H2 : fits (total (fun e => zlen (e_title e) + 34) events) (write_all write_event_of events)).
  { apply fits_total; [intros e; unfold zlen; lia|]. intros e. unfold write_event_of. eapply fits_mono; [fits_fields|lia]. }
  assert (H3 : forall l, fits (zlen l * 20) (write_all write_instance l)).
  { intros l. apply fits_all; [lia|]. intros b _. unfold write_instance. eapply fits_mono; [fits_fields|lia]. }
  assert (H4 : forall l, fits (zlen l * 12) (write_all write_reset l)).
  { intros l. apply fits_all; [lia|]. intros b _. unfold write_reset. eapply fits_mono; [fits_fields|lia]. }
  set (T := total _ events) in *. eapply fits_new; [fits_fields|lia].
Qed.
(** With the titles alone the buffer is full. *)
Lemma calendar_overflow me invites events : Forall small events -> 10000000 <= total (fun e => zlen (e_title e)) events -> m_written (calendar_packet me invites events) = Crash.
Proof.
  intros Hs H. unfold calendar_packet. set (rest := do! write_uint32 (u32 now) in _).
  assert (Hw : grows 0 (write_all write_invite_of invites)).
  { apply (grows_mono (total (fun _ => 0) invites)); [|apply total_nonneg; lia]. apply grows_total. intros [i o] _. unfold write_invite_of. cbn [fst snd]. apply (grows_mono (8 + (8 + (1 + (1 + (1 + 0)))))); [|lia].
    do 2 (apply grows_seq; [apply (grows_int 8); lia|]). do 2 (apply grows_seq; [apply (grows_int 1); lia|]). destruct o; (apply grows_seq; [apply (grows_int 1); lia|apply grows_guid]). }
  assert (He : grows (total (fun e => zlen (e_title e)) events) (write_all write_event_of events)).
  { apply grows_total. intros e He. rewrite Forall_forall in Hs. destruct (Hs e He) as [Ht _]. unfold write_event_of. apply (grows_mono (8 + ((zlen (e_title e) + 1) + (4 + (4 + (4 + (4 + 0))))))); [|lia].
    apply grows_seq; [apply (grows_int 8); lia|]. apply grows_seq; [apply grows_string; unfold TEXT_LIMIT in Ht; lia|]. do 4 (apply grows_seq; [apply (grows_int 4); lia|]). apply grows_guid. }
  assert (Hf : full rest) by (apply full_seq, full_int; lia). apply stream_crash.
  apply (grows_before 4); [done|apply (grows_int 4); lia|]. intros b1 Hb1 H1. apply (grows_before 0); [done|exact Hw|]. intros b2 Hb2 H2.
  apply (grows_before 4); [done|apply (grows_int 4); lia|]. intros b3 Hb3 H3. eapply grows_before; [done|exact He|]. intros b4 _ H4.
  apply Hf. change (size new_buffer) with 0 in H1. lia.
Qed.
(** The events and the invitations a player is shown. *)
Definition shown_events (me : Z) c : list CalendarEvent :=
  match (GetPlayerEvents me c).1 with Ret s => omap (fun a => _events c !! a) (set_order Z.le s) | _ => [] end.
Definition shown_invites (me : Z) c : Z := match (GetPlayerInvites me c).1 with Ret l => zlen l | _ => 0 end.
Lemma with_events_eq l acc c : (forall a, a ∈ l -> is_Some (i_heap c !! a)) -> exists r, fold_m with_event l acc c = (Ret r, c) /\ zlen r = zlen acc + zlen l.
Proof.
  revert acc. induction l as [|a l IH]; intros acc H; [exists acc; split; [done|unfold zlen; cbn; lia]|]. destruct (H a ltac:(left)) as [i Hi]. destruct (find_event (i_eventId i) c) as (o & Eo & _).
  destruct (IH (acc ++ [(i, snd <$> o)])) as (r & E & El); [intros b Hb; apply H; now right|]. exists r. cbn [fold_m].
  rewrite (bind_ret _ _ _ (acc ++ [(i, snd <$> o)]) c) by (unfold with_event; now rewrite (bind_ret _ _ _ _ _ (invite_eq c a i Hi)), (bind_ret _ _ _ _ _ Eo)).
  split; [done|]. rewrite El. unfold zlen. rewrite length_app. cbn [length]. lia.
Qed.
Lemma GetCalendar_eq me c : refs c -> exists invites, zlen invites = shown_invites me c /\
  HandleCalendarGetCalendar me c = with_packet (calendar_packet me invites (shown_events me c)) (SendDirectMessage me) c.
Proof.
  intros Hr. unfold HandleCalendarGetCalendar, shown_invites, shown_events. destruct (GetPlayerInvites_eq me c Hr) as (r & E & _ & Hin). rewrite E, (bind_ret _ _ _ _ _ E).
  destruct (with_events_eq r [] c) as (l & El & Hl); [intros a [Ha _]%Hin; now apply all_alive|]. rewrite (bind_ret _ _ _ _ _ El). destruct (GetPlayerEvents_eq me c Hr) as [s Es].
  rewrite Es, (bind_ret _ _ _ _ _ Es), bind_gets. exists l. split; [exact Hl|done].
Qed.
Lemma GetCalendar_ok plain me c : calendar_ok plain None c -> calendar_bytes me (shown_invites me c) (shown_events me c) <= 10000000 -> returns_ok plain (HandleCalendarGetCalendar me) c.
Proof.
  intros H Hb. destruct (GetCalendar_eq me c (ok_refs _ _ _ H)) as (l & El & E). rewrite <- El in Hb. unfold returns_ok. rewrite E. apply ok_silent; [done|]. apply silent_packet; [now apply calendar_intact|auto with trinity].
Qed.
Lemma shown_small plain me c : calendar_ok plain None c -> Forall small (shown_events me c).
Proof.
  intros H. apply Forall_forall. intros e He. unfold shown_events in He. destruct (GetPlayerEvents me c).1 as [s|?|]; [|now apply elem_of_nil in He..].
  apply list_elem_of_omap in He as (a & _ & Ha). exact (small_of _ _ _ _ _ H Ha).
Qed.
Lemma GetCalendar_crash plain me c : calendar_ok plain None c -> 10000000 <= total (fun e => zlen (e_title e)) (shown_events me c) -> (HandleCalendarGetCalendar me c).1 = Crash.
Proof.
  intros H Ht. destruct (GetCalendar_eq me c (ok_refs _ _ _ H)) as (l & _ & E). rewrite E. unfold with_packet, bind, built. now rewrite (calendar_overflow me l _ (shown_small _ _ _ H) Ht).
Qed.
Lemma GetNumPending_ok plain me c : calendar_ok plain None c -> returns_ok plain (HandleCalendarGetNumPending me) c.
Proof.
  intros H. pose proof (ok_refs _ _ _ H) as Hr. unfold HandleCalendarGetNumPending, GetPlayerNumPending, returns_ok. destruct (GetPlayerInvites_eq me c Hr) as (r & E & _ & Hin).
  destruct (fold_reads (fun n a => let! i := invite_at a in ret (if pending i then u32 (n + 1) else n)) r 0 c) as [n En].
  { intros b a [Ha _]%Hin. destruct (all_alive c a Hr Ha) as [i Hi]. rewrite (bind_ret _ _ _ _ _ (invite_eq c a i Hi)). now eexists. }
  rewrite (bind_ret _ _ _ n c) by now rewrite (bind_ret _ _ _ _ _ E). apply ok_silent; [done|]. apply silent_packet; [|auto with trinity]. apply (fits_new _ 4); [auto with trinity|lia].
Qed.
(** The event that is asked for and the invitations to it. *)
Definition asked (data : ByteBuffer) c (e : CalendarEvent) (l : list CalendarInvite) : Prop :=
  (read_uint64 data).1 = Ret (e_eventId e) /\ (exists a, _events c !! a = Some e) /\ Forall2 (fun a i => i_heap c !! a = Some i) (entry_at [] (_invites c) (e_eventId e)) l.
Lemma GetEvent_ok plain me data c : calendar_ok plain None c -> wf data -> (forall e l, asked data c e l -> event_bytes e l <= 10000000) -> returns_ok plain (HandleCalendarGetEvent me data) c.
Proof.
  intros H Hd Hb. apply ok_reading; [done|auto with calendar|done|]. intros id rest Eid _. cbn [fst]. destruct (find_event id c) as (o & Eo & Ho). unfold returns_ok. rewrite (bind_ret _ _ _ _ _ Eo).
  destruct o as [[a e]|]; [|apply ok_silent; [done|auto with trinity]]. destruct Ho as [Ha He].
  destruct (event_silent me e CALENDAR_SENDTYPE_GET c (ok_refs _ _ _ H)) as (u & c' & E & S).
  { intros l Hl. apply Hb. split; [now rewrite Eid, He|]. split; [now exists a|exact Hl]. }
  exists (Ret u), c'. split; [done|]. split; [done|]. now rewrite <- S.
Qed.

(** There are numbers left for an event and the invitations to it. *)
Definition spare plain c : Prop :=
  _maxEventId c < 2 ^ 64 - 1 /\ (plain = true -> forall ev, _maxInviteId c + CALENDAR_MAX_INVITES + zlen (vec (_invites c) ev) < 2 ^ 64).
Lemma spare_room plain n c : spare plain c -> n <= CALENDAR_MAX_INVITES -> room plain n c.
Proof. intros [_ H] Hn Hp. specialize (H Hp 0). unfold zlen in H. lia. Qed.
Lemma add_loop plain p (f : Z * Z * Z -> CA unit) ev l c :
  (forall x c, calendar_ok plain p c -> room plain 1 c -> home p c ev -> exists u c', f x c = (Ret u, c') /\ calendar_ok plain p c' /\ more plain 1 c c') ->
  calendar_ok plain p c -> room plain (zlen l) c -> home p c ev ->
  exists u c', for_each l f c = (Ret u, c') /\ calendar_ok plain p c' /\ more plain (zlen l) c c'.
Proof. intros Hf. apply (add_each plain p f ev l c (fun _ _ => True)); auto. Qed.
Definition makes_announcement (data : ByteBuffer) : Prop := exists q rest, read_event data = (Ret q, rest) /\ Z.land (rq_flags q) CALENDAR_FLAG_WITHOUT_INVITES <> 0.
Lemma AddEvent_request_ok plain me data c : calendar_ok plain None c -> received data -> spare plain c -> (plain = true -> ~ makes_announcement data) ->
  returns_ok plain (HandleCalendarAddEvent me data) c.
Proof.
  intros H Hrec Hs Hp. pose proof (proj1 Hrec) as Hd. apply ok_reading; [done|auto with calendar|done|]. intros q rest Eq Hrest. pose proof (given _ _ _ _ _ gives_event Hrec Eq) as Hq. cbn [fst snd]. destruct (too_old (rq_eventTime q)); [now apply ok_ret|].
  destruct (take_event_id plain c H (proj1 Hs)) as (id & free & max & E & H1 & Hv & _ & _). unfold returns_ok. rewrite (bind_ret _ _ _ _ _ E).
  set (c1 := with_event_ids free max c) in *. set (e0 := mkEvent id me 0 _ _ _ _ _ _ _). set (e := if IsGuildEvent e0 || IsGuildAnnouncement e0 then _ else e0).
  assert (He : e_eventId e = id /\ IsGuildAnnouncement e = negb (Z.land (rq_flags q) CALENDAR_FLAG_WITHOUT_INVITES =? 0) /\ small e).
  { unfold e. destruct (_ || _); [destruct (FindPlayer me)|]; done. }
  destruct He as (Hid & Ha & Hsm). assert (Hadd : forall d, zlen (vec (_invites d) id) <= CALENDAR_MAX_INVITES -> calendar_ok plain (Some id) d -> returns_ok plain (AddEvent e CALENDAR_SENDTYPE_ADD) d).
  { intros d Hlen Hok. rewrite <- Hid in Hok, Hlen. destruct (AddEvent_ok plain e CALENDAR_SENDTYPE_ADD d Hsm Hlen Hok) as (u & d' & Ed & Hd' & _). exists (Ret u), d'. done. }
  assert (Hhome : forall d, home (Some id) d id) by (intros d; now right). fold (returns_ok plain (do! (if IsGuildAnnouncement e then announce e me else let! l := invitees_or_free rest id in for_each l (add_one e me)) in AddEvent e CALENDAR_SENDTYPE_ADD) c1).
  destruct (IsGuildAnnouncement e) eqn:Hann.
  - symmetry in Ha. rewrite negb_true_iff, Z.eqb_neq in Ha. destruct plain; [exfalso; apply Hp; [done|now exists q, rest]|].
    destruct (announce_ok (Some id) e me c1 Hsm Hann) as ([] & c2 & E2 & H2 & _ & _ & _ & V2); [rewrite Hid; apply Hhome|done|]. apply (ok_bind _ _ _ _ c2 E2). apply Hadd; [|done]. rewrite V2. change (_invites c1) with (_invites c). rewrite Hv. done.
  - pose proof (safe_invite_list rest Hrest) as [Hl _]. unfold invitees_or_free. destruct (read_invite_list rest) as [[l|x|] rest'] eqn:El; cbn [fst] in *; [| |done].
    + assert (Hlen : zlen l <= CALENDAR_MAX_INVITES).
      { unfold read_invite_list, bind in El. destruct (read_uint32 rest) as [[n|?|] r'] eqn:En; [|done..]. apply length_invitees in El. unfold zlen. rewrite El. unfold CALENDAR_MAX_INVITES. lia. }
      destruct (add_loop plain (Some id) (add_one e me) id l c1) as ([] & c2 & E2 & H2 & M2); [|done|exact (spare_room plain _ c Hs Hlen)|apply Hhome|].
      { intros x d Hok Hr Hh. apply (add_new_ok plain (Some id) e (fun n => mkInvite n (e_eventId e) x.1.1 me no_response_time x.1.2 x.2 []) id d); done. }
      apply (ok_bind _ _ _ _ c2); [exact E2|]. apply Hadd; [|done]. pose proof (mo_vec _ _ _ _ M2 id) as Hm. change (_invites c1) with (_invites c) in Hm. rewrite Hv in Hm. unfold zlen in *. cbn in Hm. lia.
    + destruct (free_event_id plain id c1 H1 Hv) as ([] & f2 & m2 & E2 & H2 & _). exists (Throw x), (with_event_ids f2 m2 c1). unfold bind. now rewrite E2.
Qed.
Lemma UpdateEvent_request_ok plain me data c : calendar_ok plain None c -> received data -> returns_ok plain (HandleCalendarUpdateEvent me data) c.
Proof.
  intros H Hrec. pose proof (proj1 Hrec) as Hd. apply ok_reading; [done|safe_fields|done|]. intros [id q] rest Eq _. pose proof (given _ _ _ _ _ gives_update Hrec Eq) as Hq. cbn [fst]. destruct (too_old (rq_eventTime q)); [now apply ok_ret|].
  destruct (find_event id c) as (o & Eo & Ho). unfold returns_ok. rewrite (bind_ret _ _ _ _ _ Eo). destruct o as [[a e]|]; [|apply ok_silent; [done|auto with trinity]].
  destruct Ho as [Ha _]. unfold set_event, UpdateEvent. rewrite !bind_modify. apply ok_silent; [|now apply silent_update]. exact (event_update_ok plain a e (apply_request q e) c Hq H Ha eq_refl).
Qed.
Lemma RemoveEvent_request_ok plain me data c : calendar_ok plain None c -> wf data -> returns_ok plain (HandleCalendarRemoveEvent me data) c.
Proof.
  intros H Hd. apply ok_reading; [done|auto with calendar|done|]. intros id rest _ _. cbn [fst]. destruct (find_event id c) as (o & Eo & Ho). destruct o as [[a e]|].
  - destruct Ho as [Ha He]. destruct (RemoveEvent_ok plain id me a e c H Ha He) as (ais & c' & E & H' & _). now exists (Ret tt), c'.
  - unfold RemoveEvent, returns_ok. rewrite (bind_ret _ _ _ _ _ Eo). apply ok_silent; [done|apply (silent_error me)].
Qed.
Lemma CopyEvent_ok plain me data c : calendar_ok plain None c -> wf data -> spare plain c -> returns_ok plain (HandleCalendarCopyEvent me data) c.
Proof.
  intros H Hd Hs. apply ok_reading; [done|safe_fields|done|]. intros [ev t] rest _ _. cbn [fst]. destruct (too_old t); [now apply ok_ret|].
  destruct (find_event ev c) as (o & Eo & Ho). unfold returns_ok. rewrite (bind_ret _ _ _ _ _ Eo). destruct o as [[a e]|]; [|apply ok_silent; [done|auto with trinity]].
  destruct (take_event_id plain c H (proj1 Hs)) as (id & free & max & E & H1 & Hv & _ & _). rewrite (bind_ret _ _ _ _ _ E). cbv zeta. set (e' := SetEventTime t (copy_event e id)). assert (Hsm : small e') by (destruct Ho as [Ho _]; exact (small_of _ _ _ _ _ H Ho)).
  destruct (AddEvent_ok plain e' CALENDAR_SENDTYPE_COPY (with_event_ids free max c)) as ([] & c2 & E2 & H2 & (b & Hb & Ee) & V2 & P2 & I2 & _); [exact Hsm|cbn; rewrite Hv; done|exact H1|]. rewrite (bind_ret _ _ _ _ _ E2).
  destruct (vectors_eq ev c2) as (c3 & E3 & S3). rewrite (bind_ret _ _ _ _ _ E3). assert (H3 : calendar_ok plain None c3) by now rewrite <- S3.
  destruct (add_each plain None (copy_one e') id (vec (_invites c2) ev) c3 (fun a d => is_Some (i_heap d !! a))) as (u & c4 & E4 & H4 & _).
  - intros x d _ [i Hi] Hok Hr Hh. unfold copy_one. rewrite (bind_ret _ _ _ _ _ (invite_eq d x i Hi)). assert (Ht : zlen (i_text i) <= TEXT_LIMIT) by exact (proj2 (co_texts _ _ _ Hok) x i Hi). now apply (add_new_ok plain None e' (fun n => copy_invite i n (e_eventId e')) id d).
  - intros x d d' [i Hi] M. exists i. now apply (mo_heap _ _ _ _ M).
  - intros x Hx. rewrite (sm_heap _ _ S3). now apply (ok_refs _ _ _ H2 ev).
  - done.
  - intros Hp. rewrite (proj2 (sm_iids _ _ S3)), I2. rewrite V2. pose proof (proj2 Hs Hp ev). unfold CALENDAR_MAX_INVITES in *. cbn in *. change (_invites (with_event_ids free max c)) with (_invites c). lia.
  - left. rewrite (sm_events _ _ S3), Ee. exists b, e'. split; [apply lookup_insert_eq|done].
  - now exists (Ret u), c4.
Qed.
Lemma add_new_request plain e (mk : Z -> CalendarInvite) ev c (k : CA unit) : (forall id, i_inviteId (mk id) = id) -> (forall id, i_eventId (mk id) = ev) -> (forall id, zlen (i_text (mk id)) <= TEXT_LIMIT) -> small e ->
  calendar_ok plain None c -> spare plain c -> live_event (_events c) ev -> silent k ->
  returns_ok plain (let! id := GetFreeInviteId in let! a := new_invite (mk id) in do! AddInvite e a in k) c.
Proof.
  intros Hid Hev Htx Hsm H Hs Hl Hk. destruct (add_new_ok plain None e mk ev c Hid Hev Htx Hsm H) as ([] & c' & E & H' & _); [now apply spare_room|now left|].
  assert (E' : (let! id := GetFreeInviteId in let! a := new_invite (mk id) in do! AddInvite e a in k) c = k c').
  { unfold bind in *. destruct (GetFreeInviteId c) as [[id|?|] c1]; [|done..]. destruct (new_invite (mk id) c1) as [[a|?|] c2]; [|done..]. destruct (AddInvite e a c2) as [[u|?|] c3]; [|done..]. now injection E as _ ->. }
  unfold returns_ok. rewrite E'. now apply ok_silent.
Qed.
Definition invites_in_advance (data : ByteBuffer) : Prop := exists x rest, read_invitation data = (Ret x, rest) /\ x.1.2 = true.
Lemma event_invite_ok plain me ev id name pre guild c : zlen name <= TEXT_LIMIT -> calendar_ok plain None c -> spare plain c -> (plain = true -> pre = false) -> returns_ok plain (event_invite me ev id name pre guild) c.
Proof.
  intros Hn H Hs Hp. unfold event_invite. destruct (invitee_named name) as [x|]; [|apply ok_silent; auto with trinity].
  destruct (_ && _); [apply ok_silent; auto with trinity|]. destruct (ignored_by _ _); [apply ok_silent; auto with trinity|]. destruct pre; cbn [negb].
  - destruct (_ && _); [apply ok_silent; auto with trinity|]. destruct plain; [now discriminate Hp|]. cbv zeta.
    destruct (silent_invite (mkInvite id 0 (in_guid x) me no_response_time CALENDAR_STATUS_INVITED CALENDAR_RANK_PLAYER []) c (ok_refs _ _ _ H)) as ([] & c1 & E & S).
    unfold returns_ok. rewrite (bind_ret _ _ _ _ _ E). assert (H1 : calendar_ok false None c1) by now rewrite <- S. exists (Ret tt). eexists. split; [reflexivity|]. split; [done|].
    destruct H1 as [A B _ D]. destruct (id =? _maxInviteId c1); now split.
  - destruct (find_event ev c) as (o & Eo & Ho). unfold returns_ok. rewrite (bind_ret _ _ _ _ _ Eo). destruct o as [[a e]|]; [|apply ok_silent; auto with trinity].
    destruct (_ && _); [apply ok_silent; auto with trinity|]. destruct Ho as [Ha He].
    destruct (add_new_ok plain None e (fun id => mkInvite id ev (in_guid x) me no_response_time CALENDAR_STATUS_INVITED CALENDAR_RANK_PLAYER []) ev c) as (u & c' & E & H' & _); try done.
    + exact (small_of _ _ _ _ _ H Ha).
    + now apply spare_room.
    + left. now exists a, e.
    + now exists (Ret u), c'.
Qed.
Lemma EventInvite_ok plain me data c : calendar_ok plain None c -> received data -> spare plain c -> (plain = true -> ~ invites_in_advance data) ->
  returns_ok plain (HandleCalendarEventInvite me data) c.
Proof.
  intros H Hrec Hs Hp. pose proof (proj1 Hrec) as Hd. apply ok_reading; [done|unfold read_invitation; safe_fields|done|]. intros x rest Ex _. pose proof (given _ _ _ _ _ gives_invitation Hrec Ex) as Hn. cbn [fst]. destruct x as [[[[ev id] name] pre] guild].
  apply event_invite_ok; [done|done|done|]. intros Ht. destruct pre; [|done]. exfalso. apply (Hp Ht). now exists (ev, id, name, true, guild), rest.
Qed.
Lemma EventSignup_ok plain me data c : calendar_ok plain None c -> wf data -> spare plain c -> returns_ok plain (HandleCalendarEventSignup me data) c.
Proof.
  intros H Hd Hs. apply ok_reading; [done|safe_fields|done|]. intros [ev tentative] rest _ _. cbn [fst]. destruct (find_event ev c) as (o & Eo & Ho). unfold returns_ok.
  rewrite (bind_ret _ _ _ _ _ Eo). destruct o as [[a e]|]; [|apply ok_silent; auto with trinity]. destruct (_ && _); [apply ok_silent; auto with trinity|]. destruct Ho as [Ha He].
  apply (add_new_request plain e (fun id => mkInvite id ev me me now (if tentative then CALENDAR_STATUS_TENTATIVE else CALENDAR_STATUS_SIGNED_UP) CALENDAR_RANK_PLAYER []) ev c);
    [done|done|done|exact (small_of _ _ _ _ _ H Ha)|done|done|now exists a, e|auto with trinity].
Qed.
(** The invitation that is changed keeps its numbers. *)
Lemma with_both_ok plain me ev id locked (f : CalendarInvite -> CalendarInvite) (k : CalendarEvent -> CalendarInvite -> CA unit) c :
  calendar_ok plain None c -> (forall i, i_inviteId (f i) = i_inviteId i /\ i_eventId (f i) = i_eventId i /\ i_text (f i) = i_text i) -> (forall e i, silent (k e i)) ->
  returns_ok plain (with_both me ev id locked (fun e a i => do! set_invite a (f i) in do! UpdateInvite (f i) in k e (f i))) c.
Proof.
  intros H Hf Hk. unfold with_both, returns_ok. destruct (find_event ev c) as (o & Eo & Ho). rewrite (bind_ret _ _ _ _ _ Eo). destruct o as [[x e]|]; [|apply ok_silent; auto with trinity].
  destruct (locked e); [apply ok_silent; auto with trinity|]. destruct (GetInvite_eq id c (ok_refs _ _ _ H)) as (q & Eq & Hq). rewrite (bind_ret _ _ _ _ _ Eq).
  destruct q as [a|]; [|apply ok_silent; auto with trinity]. destruct Hq as (Hin & i & Hi & _). rewrite (bind_ret _ _ _ _ _ (invite_eq c a i Hi)). unfold set_invite, UpdateInvite. rewrite !bind_modify.
  apply ok_silent; [|apply Hk]. apply elem_of_all_invites in Hin as [v Hv]. destruct (vc_live _ _ _ _ (co_vectors _ _ _ H) v a Hv) as (i' & Hi' & <-). assert (i' = i) as -> by congruence.
  exact (invite_update_ok plain None a i (f i) c H Hi Hv (proj1 (Hf i)) (proj1 (proj2 (Hf i))) (proj2 (proj2 (Hf i)))).
Qed.
Lemma silent_answer e i guid : silent (do! SendCalendarEventStatus e i in SendCalendarClearPendingAction guid).
Proof. apply silent_bind; [apply silent_status|]. auto with trinity. Qed.
Lemma safe_moderation : safe read_moderation.
Proof. unfold read_moderation. safe_fields. Qed.
#[local] Hint Resolve safe_moderation : calendar.
Lemma EventRsvp_ok plain me data c : calendar_ok plain None c -> wf data -> returns_ok plain (HandleCalendarEventRsvp me data) c.
Proof.
  intros H Hd. apply ok_reading; [done|safe_fields|done|]. intros [[ev id] status] rest _ _. cbn [fst].
  apply (with_both_ok plain me ev id _ (fun i => SetStatusTime now (SetStatus status i)) (fun e i => do! SendCalendarEventStatus e i in SendCalendarClearPendingAction me)); [done..|].
  intros. apply silent_answer.
Qed.
Lemma EventStatus_ok plain me data c : calendar_ok plain None c -> wf data -> returns_ok plain (HandleCalendarEventStatus me data) c.
Proof.
  intros H Hd. apply ok_reading; [done|auto with calendar|done|]. intros [[[invitee ev] id] status] rest _ _. cbn [fst].
  apply (with_both_ok plain me ev id _ (SetStatus status) (fun e i => do! SendCalendarEventStatus e i in SendCalendarClearPendingAction invitee)); [done..|]. intros. apply silent_answer.
Qed.
Lemma EventModeratorStatus_ok plain me data c : calendar_ok plain None c -> wf data -> returns_ok plain (HandleCalendarEventModeratorStatus me data) c.
Proof.
  intros H Hd. apply ok_reading; [done|auto with calendar|done|]. intros [[[invitee ev] id] rank] rest _ _. cbn [fst].
  apply (with_both_ok plain me ev id _ (SetRank rank) (fun e i => SendCalendarEventModeratorStatusAlert e i)); [done..|]. intros. apply silent_moderator.
Qed.
Lemma EventRemoveInvite_ok plain me data c : calendar_ok plain None c -> wf data -> returns_ok plain (HandleCalendarEventRemoveInvite me data) c.
Proof.
  intros H Hd. apply ok_reading; [done|safe_fields|done|]. intros [[invitee id] ev] rest _ _. cbn [fst]. destruct (find_event ev c) as (o & Eo & _). unfold returns_ok.
  rewrite (bind_ret _ _ _ _ _ Eo). destruct o as [[a e]|]; [|apply ok_silent; auto with trinity]. destruct (e_creatorGUID e =? invitee); [apply ok_silent; auto with trinity|].
  destruct (RemoveInvite_ok plain id ev c H) as (u & c' & E & H' & _). now exists (Ret u), c'.
Qed.

Definition request_data (r : calendar_request) : option ByteBuffer :=
  match r with
  | GetCalendar _ | GetNumPending _ => None
  | GetEventRequest _ d | AddEventRequest _ d | UpdateEventRequest _ d | RemoveEventRequest _ d | CopyEvent _ d | EventInvite _ d | EventSignup _ d | EventRsvp _ d
  | EventRemoveInvite _ d | EventStatus _ d | EventModeratorStatus _ d | Complain _ d => Some d
  end.
Definition plain_request (r : calendar_request) : Prop :=
  match r with AddEventRequest _ d => ~ makes_announcement d | EventInvite _ d => ~ invites_in_advance d | _ => True end.
Definition calendar_allowed plain c (r : calendar_request) : Prop :=
  (forall d, request_data r = Some d -> received d) /\ (plain = true -> plain_request r) /\ spare plain c.
(** The packet a request builds has room for what there is to show. *)
Definition packet_room c (r : calendar_request) : Prop :=
  match r with
  | GetCalendar me => calendar_bytes me (shown_invites me c) (shown_events me c) <= 10000000
  | GetEventRequest me data => forall e l, asked data c e l -> event_bytes e l <= 10000000
  | _ => True
  end.
Lemma calendar_request_ok plain r c : calendar_ok plain None c -> calendar_allowed plain c r -> packet_room c r -> returns_ok plain (handle r) c.
Proof.
  intros H (Hd & Hp & Hs) Hroom. destruct r; cbn [handle request_data plain_request packet_room] in *; try (specialize (Hd _ eq_refl); pose proof (proj1 Hd) as Hw).
  - now apply GetCalendar_ok.
  - now apply GetEvent_ok.
  - now apply GetNumPending_ok.
  - now apply AddEvent_request_ok.
  - now apply UpdateEvent_request_ok.
  - now apply RemoveEvent_request_ok.
  - now apply CopyEvent_ok.
  - now apply EventInvite_ok.
  - now apply EventSignup_ok.
  - now apply EventRsvp_ok.
  - now apply EventRemoveInvite_ok.
  - now apply EventStatus_ok.
  - now apply EventModeratorStatus_ok.
  - apply ok_reading; [done|safe_fields|done|]. intros. now apply ok_ret.
Qed.
(** Room or not, what a request that did not crash leaves is in order. *)
Lemma kept_packet plain p me c o c' : calendar_ok plain None c -> with_packet p (SendDirectMessage me) c = (o, c') -> o <> Crash -> calendar_ok plain None c'.
Proof.
  intros H E Ho. unfold with_packet, bind, built in E. destruct (m_written p) as [u|x|]; [|now injection E as <- <-|now injection E as <- <-].
  destruct (silent_send me p c (ok_refs _ _ _ H)) as (v & c1 & E1 & S). rewrite E in E1. injection E1 as _ ->. now rewrite <- S.
Qed.
Lemma returns_kept plain (m : CA unit) c o c' : returns_ok plain m c -> m c = (o, c') -> calendar_ok plain None c'.
Proof. intros (o1 & c1 & E1 & _ & H) E. rewrite E in E1. now injection E1 as _ ->. Qed.
Lemma calendar_kept plain r c o c' : calendar_ok plain None c -> calendar_allowed plain c r -> handle r c = (o, c') -> o <> Crash -> calendar_ok plain None c'.
Proof.
  intros H Ha E Ho. assert (Hr : (exists me, r = GetCalendar me) \/ (exists me data, r = GetEventRequest me data) \/ packet_room c r) by (destruct r; cbn; eauto).
  destruct Hr as [[me ->]|[(me & data & ->)|Hr]]; [| |exact (returns_kept plain _ c o c' (calendar_request_ok plain r c H Ha Hr) E)]; cbn [handle] in E.
  - destruct (GetCalendar_eq me c (ok_refs _ _ _ H)) as (l & _ & El). rewrite El in E. exact (kept_packet _ _ _ _ _ _ H E Ho).
  - destruct Ha as [Hd _]. specialize (Hd data eq_refl) as [Hd _]. unfold HandleCalendarGetEvent in E.
    destruct (reading_eq read_uint64 data c safe_qword Hd) as [(id & rest & _ & _ & Er)|[x Er]]; [|unfold bind in E; rewrite Er in E; now injection E as <- <-].
    rewrite (bind_ret _ _ _ _ _ Er) in E. destruct (find_event id c) as (q & Eq & _). cbn [fst] in E. rewrite (bind_ret _ _ _ _ _ Eq) in E.
    destruct q as [[a e]|]; [|exact (returns_kept plain _ c o c' (ok_silent plain _ c H (silent_error me _)) E)].
    destruct (event_sent me e CALENDAR_SENDTYPE_GET c (ok_refs _ _ _ H)) as (l & c1 & _ & S & Es). rewrite Es in E. assert (H1 : calendar_ok plain None c1) by now rewrite <- S.
    destruct (FindConnectedPlayer me); [exact (kept_packet _ _ _ _ _ _ H1 E Ho)|now injection E as <- <-].
Qed.
End Runs.
