(* ===== verification/CalendarLoad.v ===== *)
(** * The calendar: loading

    What [LoadFromDB] makes of the tables is in order, and has the rows of the tables:
    a calendar survives a restart of the server, as far as its columns have it. *)

From stdpp Require Import base gmap list.
From Stdlib Require Import ZArith Lia.
From S2P Require Import Prelude ByteBuffer StdMap Util Columns ObjectGuid WorldPacket LfgPackets ActionLogic Calendar CalendarHandler CalendarInv CalendarSteps CalendarRuns.
#[local] Open Scope Z_scope.

Section Load.
Context `{columns : TextColumns} `{column_laws : !TextColumnLaws} `{world : CalendarWorld} `{instances : CalendarInstances} `{laws : !CalendarLaws}.
Implicit Types c : CalendarMgr.

(** A text that came out of a column. *)
Definition kept (s : list Z) : Prop := held CALENDAR_COLUMN s = s /\ zlen s <= TEXT_LIMIT.
Lemma kept_held s : zlen s <= TEXT_LIMIT -> kept (held CALENDAR_COLUMN s).
Proof. intros H. split; [apply held_again|]. pose proof (held_less CALENDAR_COLUMN s). lia. Qed.
Definition event_row_ok (x : Z * EventRow) : Prop :=
  1 <= x.1 /\ is_u 64 x.1 /\ is_u 32 (er_creator x.2) /\ is_u 8 (er_type x.2) /\ is_u 32 (er_eventtime x.2) /\ is_u 32 (er_time2 x.2) /\
  kept (er_title x.2) /\ kept (er_description x.2).
Definition invite_row_ok (x : Z * InviteRow) : Prop :=
  1 <= x.1 /\ is_u 64 x.1 /\ is_u 32 (ir_invitee x.2) /\ is_u 32 (ir_sender x.2) /\ is_u 8 (ir_status x.2) /\ is_u 32 (ir_statustime x.2) /\ is_u 8 (ir_rank x.2) /\
  kept (ir_text x.2).

(** ** The greatest number *)

Definition greatest {A} (d : list (Z * A)) (max : Z) : Prop := (forall x, x ∈ d -> x.1 <= max) /\ (max = 0 \/ exists x, x ∈ d /\ x.1 = max).
Lemma greatest_snoc {A} (d : list (Z * A)) max (x : Z * A) : greatest d max -> 0 <= max -> greatest (d ++ [x]) (Z.max max x.1).
Proof.
  intros [H1 H2] H0. split.
  - intros y [Hy| ->%list_elem_of_singleton]%elem_of_app; [specialize (H1 y Hy)|]; lia.
  - destruct (Z.max_spec max x.1) as [[Hlt ->]|[Hle ->]].
    + right. exists x. split; [apply elem_of_app; right; apply list_elem_of_here|done].
    + destruct H2 as [->|(y & Hy & Ey)]; [now left|right]. exists y. split; [apply elem_of_app; now left|done].
Qed.

(** ** Events *)

Record events_loaded (d : list (Z * EventRow)) (es : gmap Z CalendarEvent) (max : Z) : Prop := mk_events_loaded {
  le_rows id r : (id, r) ∈ d <-> exists a e, es !! a = Some e /\ e_eventId e = id /\ r = event_row e;
  le_values a e : es !! a = Some e -> exists r, (e_eventId e, r) ∈ d /\ e = event_of (e_eventId e, r);
  le_unique a b e f : es !! a = Some e -> es !! b = Some f -> e_eventId e = e_eventId f -> a = b;
  le_max : greatest d max /\ is_u 64 max
}.
Definition only_events c c' : Prop := exists es max, c' = with_event_ids (_freeEventIds c) max (with_events es c).
Lemma load_event_ok d x c : events_loaded d (_events c) (_maxEventId c) -> event_row_ok x -> (forall r, (x.1, r) ∉ d) ->
  exists c', load_event x c = (Ret tt, c') /\ only_events c c' /\ events_loaded (d ++ [x]) (_events c') (_maxEventId c').
Proof.
  intros [H1 Hval H2 [H3 H4]] (Hx & Hu & Hc & Ht & He & Hz & [Ktitle _] & [Kdescr _]) Hno. destruct x as [id r]. cbn [fst snd] in *. unfold load_event, modify. cbn [fst snd].
  set (e := event_of (id, r)). set (a := malloc (dom (_events c))).
  assert (Ha : _events c !! a = None) by (apply not_elem_of_dom, malloc_fresh).
  assert (Er : event_row e = r).
  { unfold event_row, e, event_of. cbn. rewrite player_guid, player_low, Ktitle, Kdescr by done. rewrite !uwrap_id by done. now destruct r. }
  assert (Hn : forall b f, _events c !! b = Some f -> e_eventId f <> id).
  { intros b f Hb Hf. apply (Hno (event_row f)). apply H1. now exists b, f. }
  eexists. split; [reflexivity|]. split; [now eexists _, _|]. cbn. split.
  - intros id' r'. rewrite elem_of_app, list_elem_of_singleton, H1. split.
    + intros [(b & f & Hb & Hf & ->)|[= -> ->]]; [|exists a, e; split; [apply lookup_insert_eq|auto]]. exists b, f. split; [|auto]. rewrite lookup_insert_ne; [done|congruence].
    + intros (b & f & [[<- <-]|[_ Hb]]%lookup_insert_Some & <- & ->); [right; now rewrite Er|left; now exists b, f].
  - intros b f [[<- <-]|[_ Hb]]%lookup_insert_Some; [exists r; split; [apply elem_of_app; right; apply list_elem_of_here|done]|].
    destruct (Hval b f Hb) as (r' & Hr' & Ef). exists r'. split; [apply elem_of_app; now left|exact Ef].
  - intros b b' f f' [[<- <-]|[_ Hb]]%lookup_insert_Some [[<- <-]|[_ Hb']]%lookup_insert_Some E; [done| | |now apply (H2 b b' f f')]; exfalso; [now apply (Hn b' f')|now apply (Hn b f)].
  - split; [apply greatest_snoc with (x := (id, r)); [done|unfold is_u in H4; lia]|]. unfold is_u in *. lia.
Qed.
Lemma load_events_ok l d c : events_loaded d (_events c) (_maxEventId c) -> Forall event_row_ok l -> NoDup (map fst (d ++ l)) ->
  exists c', for_each l load_event c = (Ret tt, c') /\ only_events c c' /\ events_loaded (d ++ l) (_events c') (_maxEventId c').
Proof.
  revert d c. induction l as [|x l IH]; intros d c H Hl Hnd.
  { exists c. split; [done|]. split; [exists (_events c), (_maxEventId c); now destruct c|]. now rewrite app_nil_r. }
  inversion Hl as [|? ? Hx Hl']; subst. destruct (load_event_ok d x c H Hx) as (c1 & E & (es & max & Ec) & H1).
  { intros r Hr. rewrite map_app in Hnd. apply NoDup_app in Hnd as (_ & Hd & _). apply (Hd x.1); [|left]. now apply (list_elem_of_fmap_2' fst _ (x.1, r) x.1). }
  cbn [for_each]. rewrite (bind_ret _ _ _ _ _ E). destruct (IH (d ++ [x]) c1 H1 Hl') as (c' & E' & (es' & max' & Ec') & H'); [now rewrite <- app_assoc|].
  exists c'. split; [done|]. split; [|now rewrite <- app_assoc in H']. exists es', max'. now rewrite Ec', Ec.
Qed.

(** ** Invitations *)

Record invites_loaded (es : gmap Z CalendarEvent) (d : list (Z * InviteRow)) (vs : gmap Z (list Z)) (h : gmap Z CalendarInvite) (max : Z) : Prop := mk_invites_loaded {
  li_vec : vec_ok None es vs h;
  li_stored a i : h !! a = Some i -> a ∈ vec vs (i_eventId i);
  li_rows id r : (id, r) ∈ d <-> exists a i, h !! a = Some i /\ i_inviteId i = id /\ r = invite_row i;
  li_values a i : h !! a = Some i -> exists r, (i_inviteId i, r) ∈ d /\ i = invite_of (i_inviteId i, r);
  li_unique a b i j : h !! a = Some i -> h !! b = Some j -> i_inviteId i = i_inviteId j -> a = b;
  li_max : greatest d max /\ is_u 64 max
}.
Definition only_invites c c' : Prop := exists vs h max, c' = with_invite_ids (_freeInviteIds c) max (with_invites vs (with_heap h c)).
Lemma load_invite_ok d x c : invites_loaded (_events c) d (_invites c) (i_heap c) (_maxInviteId c) -> invite_row_ok x -> live_event (_events c) (ir_event x.2) -> (forall r, (x.1, r) ∉ d) ->
  exists c', load_invite x c = (Ret tt, c') /\ only_invites c c' /\ invites_loaded (_events c) (d ++ [x]) (_invites c') (i_heap c') (_maxInviteId c').
Proof.
  intros [H1 H2 H3 Hval H4 [H5 H6]] (Hx & Hu & Hi & Hs & Ht & Hst & Hr & [Ktext _]) Hl Hno. destruct x as [id r]. cbn [fst snd] in *. unfold load_invite. cbn [fst snd]. set (i := invite_of (id, r)).
  set (a := malloc (dom (i_heap c))). assert (Ha : i_heap c !! a = None) by (apply not_elem_of_dom, malloc_fresh).
  assert (Er : invite_row i = r).
  { unfold invite_row, i, invite_of. cbn. rewrite !player_guid, !player_low, Ktext by done. rewrite !uwrap_id by done. now destruct r. }
  assert (Hn : forall b j, i_heap c !! b = Some j -> i_inviteId j <> id) by (intros b j Hb Hj; apply (Hno (invite_row j)), H3; now exists b, j).
  destruct (vec_new _ _ _ _ a i H1 Ha) as [Hv Hnot]. pose proof (vec_pushed _ _ _ _ a i Hv (lookup_insert_eq _ _ _) Hnot (or_introl Hl)) as Hp.
  eexists. split; [reflexivity|]. split; [now eexists _, _, _|]. cbn. fold i a. split; [exact Hp| | | | |].
  - intros b j. rewrite vec_insert. change (ir_event r) with (i_eventId i). intros [[<- <-]|[Hne Hb]]%lookup_insert_Some; [rewrite decide_True by done; apply elem_of_app; right; apply list_elem_of_here|].
    case_decide as E; [|now apply H2]. apply elem_of_app. left. rewrite <- E. now apply H2.
  - intros id' r'. rewrite elem_of_app, list_elem_of_singleton, H3. split.
    + intros [(b & j & Hb & Hj & ->)|[= -> ->]]; [|exists a, i; split; [apply lookup_insert_eq|auto]]. exists b, j. split; [|auto]. rewrite lookup_insert_ne; [done|congruence].
    + intros (b & j & [[<- <-]|[_ Hb]]%lookup_insert_Some & <- & ->); [right; now rewrite Er|left; now exists b, j].
  - intros b j [[<- <-]|[_ Hb]]%lookup_insert_Some; [exists r; split; [apply elem_of_app; right; apply list_elem_of_here|done]|].
    destruct (Hval b j Hb) as (r' & Hr' & Ej). exists r'. split; [apply elem_of_app; now left|exact Ej].
  - intros b b' j j' [[<- <-]|[_ Hb]]%lookup_insert_Some [[<- <-]|[_ Hb']]%lookup_insert_Some E; [done| | |now apply (H4 b b' j j')]; exfalso; [now apply (Hn b' j')|now apply (Hn b j)].
  - split; [apply greatest_snoc with (x := (id, r)); [done|unfold is_u in H6; lia]|]. unfold is_u in *. lia.
Qed.
Lemma load_invites_ok l d c : invites_loaded (_events c) d (_invites c) (i_heap c) (_maxInviteId c) -> Forall invite_row_ok l -> Forall (fun x => live_event (_events c) (ir_event x.2)) l ->
  NoDup (map fst (d ++ l)) ->
  exists c', for_each l load_invite c = (Ret tt, c') /\ only_invites c c' /\ invites_loaded (_events c) (d ++ l) (_invites c') (i_heap c') (_maxInviteId c').
Proof.
  revert d c. induction l as [|x l IH]; intros d c H Hl He Hnd.
  { exists c. split; [done|]. split; [exists (_invites c), (i_heap c), (_maxInviteId c); now destruct c|]. now rewrite app_nil_r. }
  inversion Hl as [|? ? Hx Hl']; subst. inversion He as [|? ? Hx' He']; subst. destruct (load_invite_ok d x c H Hx Hx') as (c1 & E & (vs & h & max & Ec) & H1).
  { intros r Hr. rewrite map_app in Hnd. apply NoDup_app in Hnd as (_ & Hd & _). apply (Hd x.1); [|left]. now apply (list_elem_of_fmap_2' fst _ (x.1, r) x.1). }
  cbn [for_each]. rewrite (bind_ret _ _ _ _ _ E). assert (Ee : _events c1 = _events c) by now rewrite Ec. destruct (IH (d ++ [x]) c1) as (c' & E' & (vs' & h' & max' & Ec') & H'); [now rewrite Ee|done|now rewrite Ee|now rewrite <- app_assoc|].
  exists c'. split; [done|]. split; [|rewrite <- app_assoc, Ee in H'; exact H']. exists vs', h', max'. now rewrite Ec', Ec.
Qed.

(** ** The numbers in between *)

Lemma free_events_ok l c : exists fs, for_each l free_event c = (Ret tt, with_event_ids (_freeEventIds c ++ fs) (_maxEventId c) c) /\
  (forall id, id ∈ fs <-> id ∈ l /\ ~ live_event (_events c) id) /\ (NoDup l -> NoDup fs).
Proof.
  revert c. induction l as [|id l IH]; intros c.
  { exists []. rewrite app_nil_r. split; [now destruct c|]. split; [|constructor]. intros id. rewrite elem_of_nil. tauto. }
  cbn [for_each]. unfold free_event at 1. destruct (find_event id c) as (o & Eo & Ho). destruct o as [[a e]|].
  - assert (Hl : live_event (_events c) id) by now exists a, e. rewrite (bind_ret _ _ _ tt c) by now rewrite (bind_ret _ _ _ _ _ Eo). destruct (IH c) as (fs & E & H1 & H2). exists fs. split; [done|]. split.
    + intros x. rewrite H1, elem_of_cons. split; [tauto|]. intros [[->|?] ?]; [done|auto].
    + intros Hnd. apply H2. now apply NoDup_cons in Hnd.
  - set (c1 := with_event_ids (_freeEventIds c ++ [id]) (_maxEventId c) c). rewrite (bind_ret _ _ _ tt c1) by now rewrite (bind_ret _ _ _ _ _ Eo). destruct (IH c1) as (fs & E & H1 & H2).
    exists (id :: fs). split; [rewrite E; unfold c1; cbn; now rewrite <- app_assoc|]. split.
    + intros x. rewrite !elem_of_cons, H1. split; [intros [->|[? ?]]; auto|intros [[->|?] ?]; auto].
    + intros [Hn Hnd]%NoDup_cons. apply NoDup_cons. split; [|now apply H2]. now intros [? _]%H1.
Qed.
Lemma free_invites_ok l c : refs c -> exists fs, for_each l free_invite c = (Ret tt, with_invite_ids (_freeInviteIds c ++ fs) (_maxInviteId c) c) /\
  (forall id, id ∈ fs <-> id ∈ l /\ forall a i, a ∈ all_invites c -> i_heap c !! a = Some i -> i_inviteId i <> id) /\ (NoDup l -> NoDup fs).
Proof.
  revert c. induction l as [|id l IH]; intros c Hr.
  { exists []. rewrite app_nil_r. split; [now destruct c|]. split; [|constructor]. intros id. rewrite elem_of_nil. tauto. }
  cbn [for_each]. unfold free_invite at 1. destruct (GetInvite_eq id c Hr) as (o & Eo & Ho). destruct o as [a|].
  - destruct Ho as (Ha & i & Hi & Hid). rewrite (bind_ret _ _ _ tt c) by now rewrite (bind_ret _ _ _ _ _ Eo). destruct (IH c Hr) as (fs & E & H1 & H2). exists fs. split; [done|]. split.
    + intros x. rewrite H1, elem_of_cons. split; [tauto|]. intros [[->|?] Hx]; [now destruct (Hx a i Ha Hi)|auto].
    + intros Hnd. apply H2. now apply NoDup_cons in Hnd.
  - set (c1 := with_invite_ids (_freeInviteIds c ++ [id]) (_maxInviteId c) c). rewrite (bind_ret _ _ _ tt c1) by now rewrite (bind_ret _ _ _ _ _ Eo). destruct (IH c1 Hr) as (fs & E & H1 & H2).
    exists (id :: fs). split; [rewrite E; unfold c1; cbn; now rewrite <- app_assoc|]. split.
    + intros x. rewrite !elem_of_cons, H1. split; [intros [->|[? ?]]; auto|intros [[->|?] ?]; auto].
    + intros [Hn Hnd]%NoDup_cons. apply NoDup_cons. split; [|now apply H2]. now intros [? _]%H1.
Qed.
(** What is in use, and what lies between, are the numbers up to the greatest. *)
Lemma numbers_loaded {A} (d : list (Z * A)) (live : Z -> Prop) (fs : list Z) max : greatest d max -> is_u 64 max ->
  (forall id, live id <-> exists r, (id, r) ∈ d) -> (forall x, x ∈ d -> 1 <= x.1) -> (forall id, id ∈ fs <-> id ∈ seqZ 1 (max - 1) /\ ~ live id) -> NoDup fs -> numbers live fs max.
Proof.
  intros [H1 H2] Hu Hl Hpos Hfs Hnd. split; [done| |intros id Hid Hf; apply Hfs in Hf; tauto|done]. intros id. rewrite Hfs, elem_of_seqZ. split.
  - intros Hid. destruct (decide (id = max)) as [->|Hne].
    + destruct H2 as [->|([x r] & Hx & Ex)]; [lia|]. left. apply Hl. exists r. cbn in Ex. now rewrite <- Ex.
    + assert (D : live id \/ ~ live id) by (rewrite Hl; destruct (decide (id ∈ map fst d)) as [Hin|Hin];
        [left; apply list_elem_of_fmap in Hin as ([y r] & -> & Hy); now exists r|right; intros [r Hr]; apply Hin; now apply (list_elem_of_fmap_2' fst _ (id, r) id)]).
      destruct D; [now left|right]. split; [lia|done].
  - intros [Hid|[Hid _]]; [|lia]. apply Hl in Hid as [r Hr]. split; [apply (Hpos _ Hr)|apply (H1 _ Hr)].
Qed.

(** ** A restart *)

(** What a server that starts finds: an empty manager, and the tables. *)
Definition stopped c : CalendarMgr := mkCalendar ∅ ∅ [] [] 0 0 ∅ (calendar_events c) (calendar_invites c) [] [].
Lemma lopart_32 g : is_u 32 (GUID_LOPART g).
Proof. unfold GUID_LOPART. destruct (IsGuidHaveEnPart g); apply uwrap_range; lia. Qed.
Lemma rows_ok c : calendar_ok true None c ->
  (forall id r, calendar_events c !! id = Some r -> event_row_ok (id, r)) /\
  (forall id r, calendar_invites c !! id = Some r -> invite_row_ok (id, r) /\ exists er, calendar_events c !! ir_event r = Some er).
Proof.
  intros [H1 H2 H3 H4]. specialize (H3 eq_refl). split; intros id r Hr.
  - apply (ev_rows _ _ _ _ _ H1) in Hr as (a & e & Ha & <- & ->). assert (Hid : 1 <= e_eventId e <= _maxEventId c) by (apply (nb_all _ _ _ (ev_numbers _ _ _ _ _ H1)); left; left; now exists a, e).
    pose proof (nb_max _ _ _ (ev_numbers _ _ _ _ _ H1)) as Hm. unfold event_row_ok, event_row. cbn. destruct (proj1 H4 a e Ha) as [Kt Kd].
    split_and!; try (apply uwrap_range; lia); try (now apply kept_held); [lia|unfold is_u in *; lia|apply lopart_32].
  - apply (id_rows _ _ _ _ _ H3) in Hr as (a & i & [Hin Ha] & <- & ->). assert (Hid : 1 <= i_inviteId i <= _maxInviteId c) by (apply (nb_all _ _ _ (id_numbers _ _ _ _ _ H3)); left; now exists a, i).
    pose proof (nb_max _ _ _ (id_numbers _ _ _ _ _ H3)) as Hm. split.
    + unfold invite_row_ok, invite_row. cbn. split_and!; try (apply uwrap_range; lia); try apply lopart_32; [lia|unfold is_u in *; lia|]. apply kept_held. exact (proj2 H4 a i Ha).
    + destruct (vc_home _ _ _ _ H2 _ a Hin) as [(b & e & Hb & He)|[=]]. exists (event_row e). cbn. apply (ev_rows _ _ _ _ _ H1). now exists b, e.
Qed.
Lemma map_rows {A} (m : gmap Z A) l : l ≡ₚ map_to_list m -> (forall x, x ∈ l <-> m !! x.1 = Some x.2) /\ NoDup (map fst l).
Proof. intros E. split; [intros [k v]; rewrite E; apply elem_of_map_to_list|]. rewrite E. apply NoDup_fst_map_to_list. Qed.
Lemma none_loaded : events_loaded [] ∅ 0.
Proof.
  split; [|intros a e Ha; exact (False_rect _ (lookup_empty_Some _ _ Ha))|intros a b e f Ha; exact (False_rect _ (lookup_empty_Some _ _ Ha))|split; [split; [|now left]|unfold is_u; lia]].
  - intros id r. rewrite elem_of_nil. split; [done|]. intros (a & e & Ha & _). exact (False_rect _ (lookup_empty_Some _ _ Ha)).
  - intros x Hx. now apply elem_of_nil in Hx.
Qed.
Lemma none_invited es : invites_loaded es [] ∅ ∅ 0.
Proof.
  split; [split| | | | |split; [split; [|now left]|unfold is_u; lia]]; try (intros ? ? Hx; now apply elem_of_nil in Hx).
  - intros ev. constructor.
  - intros a i Ha. exact (False_rect _ (lookup_empty_Some _ _ Ha)).
  - intros id r. rewrite elem_of_nil. split; [done|]. intros (a & i & Ha & _). exact (False_rect _ (lookup_empty_Some _ _ Ha)).
  - intros a i Ha. exact (False_rect _ (lookup_empty_Some _ _ Ha)).
  - intros a b i j Ha. exact (False_rect _ (lookup_empty_Some _ _ Ha)).
  - intros x Hx. now apply elem_of_nil in Hx.
Qed.
Lemma LoadFromDB_ok c events invites : calendar_ok true None c -> events ≡ₚ map_to_list (calendar_events c) -> invites ≡ₚ map_to_list (calendar_invites c) ->
  exists c', LoadFromDB events invites (stopped c) = (Ret tt, c') /\ calendar_ok true None c' /\ calendar_events c' = calendar_events c /\ calendar_invites c' = calendar_invites c /\
    (forall a e, _events c' !! a = Some e -> exists r, calendar_events c !! e_eventId e = Some r /\ e = event_of (e_eventId e, r)) /\
    (forall a i, i_heap c' !! a = Some i -> exists r, calendar_invites c !! i_inviteId i = Some r /\ i = invite_of (i_inviteId i, r)).
Proof.
  intros H Ee Ei. destruct (rows_ok c H) as [Re Ri]. apply map_rows in Ee as [Me Ne], Ei as [Mi Ni]. unfold LoadFromDB. rewrite bind_modify.
  set (c0 := with_invite_ids _ 0 _). destruct (load_events_ok events [] c0) as (c1 & E1 & (es & max & O1) & L1).
  { exact none_loaded. }
  { apply Forall_forall. intros [id r] Hx. apply Re. now apply (Me (id, r)). }
  { done. }
  rewrite (bind_ret _ _ _ _ _ E1). cbn [app] in L1. destruct L1 as [Lr Lval Lu [Lm Lb]].
  assert (Hlive : forall id, live_event (_events c1) id <-> exists r, (id, r) ∈ events).
  { intros id. split; [intros (a & e & Ha & He); exists (event_row e); apply Lr; now exists a, e|]. intros [r Hr]. apply Lr in Hr as (a & e & Ha & He & _). now exists a, e. }
  destruct (load_invites_ok invites [] c1) as (c2 & E2 & (vs & h & max2 & O2) & L2).
  { rewrite O1. exact (none_invited es). }
  { apply Forall_forall. intros [id r] Hx. apply (Ri id r). now apply (Mi (id, r)). }
  { apply Forall_forall. intros [id r] Hx. destruct (Ri id r) as [_ [er Her]]; [now apply (Mi (id, r))|]. apply Hlive. exists er. now apply (Me (ir_event r, er)). }
  { done. }
  rewrite (bind_ret _ _ _ _ _ E2), bind_gets. cbn [app] in L2. assert (Ev2 : _events c2 = _events c1) by now rewrite O2.
  destruct (free_events_ok (seqZ 1 (_maxEventId c2 - 1)) c2) as (fs & E3 & F1 & F2). rewrite (bind_ret _ _ _ _ _ E3), bind_gets. set (c3 := with_event_ids _ _ c2).
  destruct L2 as [V2 S2 R2 Val2 U2 [M2 B2]]. assert (R3 : refs c3) by (intros ev a Ha; destruct (vc_live _ _ _ _ V2 ev a Ha) as (i & Hi & _); now exists i).
  destruct (free_invites_ok (seqZ 1 (_maxInviteId c3 - 1)) c3 R3) as (gs & E4 & G1 & G2). rewrite E4. eexists. split; [reflexivity|].
  assert (Hlive' : forall id, live_invite (i_heap c2) id <-> exists r, (id, r) ∈ invites).
  { intros id. split; [intros (a & i & Ha & Hi); exists (invite_row i); apply R2; now exists a, i|]. intros [r Hr]. apply R2 in Hr as (a & i & Ha & Hi & _). now exists a, i. }
  assert (Ve : forall a e, _events c2 !! a = Some e -> exists r, calendar_events c !! e_eventId e = Some r /\ e = event_of (e_eventId e, r)).
  { intros a e. rewrite Ev2. intros Ha. destruct (Lval a e Ha) as (r & Hr & Er). exists r. split; [now apply (Me (e_eventId e, r))|exact Er]. }
  assert (Vi : forall a i, i_heap c2 !! a = Some i -> exists r, calendar_invites c !! i_inviteId i = Some r /\ i = invite_of (i_inviteId i, r)).
  { intros a i Ha. destruct (Val2 a i Ha) as (r & Hr & Er). exists r. split; [now apply (Mi (i_inviteId i, r))|exact Er]. }
  split; [|split; [|split; [|split; [exact Ve|exact Vi]]]]; [|unfold c3; now rewrite O2, O1..]. assert (F3 : _freeEventIds c2 = [] /\ _maxEventId c2 = _maxEventId c1 /\ _freeInviteIds c2 = []) by now rewrite O2, O1.
  destruct F3 as (F3 & F4 & F5). split; cbn; rewrite ?F3, ?F5; cbn.
  - assert (Hn : numbers (live_event (_events c2)) fs (_maxEventId c2)).
    { apply (numbers_loaded events); rewrite ?F4; try done; [now rewrite Ev2| |now rewrite <- F4|apply F2, NoDup_seqZ].
      intros [id r] Hx. apply (Re id r). now apply (Me (id, r)). }
    split; [|done|now rewrite Ev2|].
    + eapply numbers_ext; [|exact Hn]. intros id. split; [auto|intros [?|[=]]; done].
    + intros id r. rewrite Ev2, <- Lr, (Me (id, r)). now rewrite O2, O1.
  - rewrite Ev2. exact V2.
  - intros _. split; [|done|].
    + apply (numbers_loaded invites); [done..|exact Hlive'| | |apply G2, NoDup_seqZ].
      * intros [id r] Hx. apply (Ri id r). now apply (Mi (id, r)).
      * intros id. rewrite G1. cbn. split; intros [Hs Hn]; (split; [done|]).
        -- intros (a & i & Ha & Hi). apply (Hn a i); [|done|done]. apply elem_of_all_invites. exists (i_eventId i). exact (S2 a i Ha).
        -- intros a i _ Ha Hi. apply Hn. now exists a, i.
    + intros id r. transitivity ((id, r) ∈ invites); [rewrite (Mi (id, r)); now rewrite O2, O1|]. rewrite R2. unfold stored. split; intros (a & i & Ha & Hi & ->); exists a, i; [|destruct Ha]; auto.
  - split.
    + intros a e Ha. destruct (Ve a e Ha) as (r & Hr & ->). destruct (Re _ r Hr) as (_ & _ & _ & _ & _ & _ & [_ Kt] & [_ Kd]). now split.
    + intros a i Ha. destruct (Vi a i Ha) as (r & Hr & ->). destruct (proj1 (Ri _ r Hr)) as (_ & _ & _ & _ & _ & _ & _ & [_ Kt]). exact Kt.
Qed.
End Load.
