(* ===== verification/CalendarFates.v ===== *)
(** * The calendar: what comes of it

    Runs of requests and restarts, and what they lead to: a calendar that stays in
    order and outlives the server, and the operations that break it. *)

From stdpp Require Import base gmap list strings.
From Stdlib Require Import ZArith Lia.
From S2P Require Import Prelude ByteBuffer StdMap Util Columns ObjectGuid WorldPacket LfgPackets ActionLogic Calendar CalendarHandler CalendarInv CalendarSteps CalendarRuns CalendarLoad.
#[local] Open Scope Z_scope.

Section Fates.
Context `{columns : TextColumns} `{column_laws : !TextColumnLaws} `{world : CalendarWorld} `{instances : CalendarInstances} `{laws : !CalendarLaws}.
Implicit Types (plain : bool) (c : CalendarMgr).

(** ** Runs *)

(** A run ends with the request that crashes.  The server starts again, with the rows in any order. *)
Definition restarted c c' : Prop :=
  exists events invites, events ≡ₚ map_to_list (calendar_events c) /\ invites ≡ₚ map_to_list (calendar_invites c) /\ LoadFromDB events invites (stopped c) = (Ret tt, c').
Inductive calendar_reach plain c0 : CalendarMgr -> Prop :=
| calendar_start : calendar_reach plain c0 c0
| calendar_step c r o c' : calendar_reach plain c0 c -> calendar_allowed plain c r -> handle r c = (o, c') -> o <> Crash -> calendar_reach plain c0 c'
| calendar_restart c c' : plain = true -> calendar_reach plain c0 c -> restarted c c' -> calendar_reach plain c0 c'.
Lemma restarted_ok c c' : calendar_ok true None c -> restarted c c' -> calendar_ok true None c' /\ calendar_events c' = calendar_events c /\ calendar_invites c' = calendar_invites c.
Proof. intros H (es & vs & He & Hi & E). destruct (LoadFromDB_ok c es vs H He Hi) as (c1 & E1 & H1). rewrite E in E1. injection E1 as <-. tauto. Qed.
Lemma calendar_reach_ok plain c0 c : calendar_ok plain None c0 -> calendar_reach plain c0 c -> calendar_ok plain None c.
Proof.
  intros H0. induction 1 as [|c r o c' _ IH Ha E Ho|c c' -> _ IH Hr]; [done| |now apply restarted_ok in Hr as [? _]].
  exact (calendar_kept plain r c o c' IH Ha E Ho).
Qed.

(** C11. Whatever is asked of the calendar in packets that the server receives,
    malformed ones, announcements and invitations in advance included, each request
    returns or finds its packet too short, as long as numbers are left; only the two
    that send a player's whole calendar, or an event with all its invitations, need
    that what they write takes at most the ten million bytes of the buffer's assertion.
    A calendar whose titles alone take as much crashes.  No two events have the same
    number, the table has exactly the rows of the events, and what the vectors point to
    exists and is of an event that exists. *)
Theorem calendar_runs_return plain c0 c :
  calendar_ok plain None c0 -> calendar_reach plain c0 c ->
  (forall r, calendar_allowed plain c r -> packet_room c r -> (handle r c).1 <> Crash) /\
  (forall me, 10000000 <= total (fun e => zlen (e_title e)) (shown_events me c) -> (handle (GetCalendar me) c).1 = Crash) /\
  (forall a b e f, _events c !! a = Some e -> _events c !! b = Some f -> e_eventId e = e_eventId f -> a = b) /\
  (forall id r, calendar_events c !! id = Some r <-> exists a e, _events c !! a = Some e /\ e_eventId e = id /\ r = event_row e) /\
  (forall ev a, a ∈ entry_at [] (_invites c) ev -> exists i b e, i_heap c !! a = Some i /\ i_eventId i = ev /\ _events c !! b = Some e /\ e_eventId e = ev).
Proof.
  intros H0 Hr. pose proof (calendar_reach_ok plain c0 c H0 Hr) as H. split; [|split; [|split; [|split]]].
  - intros r Ha Hroom. destruct (calendar_request_ok plain r c H Ha Hroom) as (o & c' & -> & Ho & _). exact Ho.
  - intros me. exact (GetCalendar_crash plain me c H).
  - exact (ev_unique _ _ _ _ _ (co_events _ _ _ H)).
  - exact (ev_rows _ _ _ _ _ (co_events _ _ _ H)).
  - intros ev a Ha. destruct (vc_live _ _ _ _ (co_vectors _ _ _ H) ev a Ha) as (i & Hi & Ei), (vc_home _ _ _ _ (co_vectors _ _ _ H) ev a Ha) as [(b & e & Hb & He)|[=]]. now exists i, b, e.
Qed.

(** What the tables have of an event, and of an invitation. *)
Definition kept_guild (e : CalendarEvent) (creator : Z) : Z := if IsGuildEvent e || IsGuildAnnouncement e then GetGuildIdFromDB creator else 0.
Definition low_player (guid : Z) : Z := MAKE_NEW_GUID (GUID_LOPART guid) 0 HIGHGUID_PLAYER.
Definition kept_event (e : CalendarEvent) : CalendarEvent :=
  mkEvent (e_eventId e) (low_player (e_creatorGUID e)) (kept_guild e (low_player (e_creatorGUID e))) (u8 (e_type e)) (e_dungeonId e)
    (u32 (e_eventTime e)) (e_flags e) (u32 (e_timezoneTime e)) (held 255 (e_title e)) (held 255 (e_description e)).
Definition kept_invite (i : CalendarInvite) : CalendarInvite :=
  mkInvite (i_inviteId i) (i_eventId i) (low_player (i_invitee i)) (low_player (i_senderGUID i)) (u32 (i_statusTime i)) (u8 (i_status i)) (u8 (i_rank i)) (held 255 (i_text i)).
(** Nothing of it is lost: the texts are of at most 255 characters of one byte, the
    numbers fit into their columns, and the creator is of the guild still. *)
Definition plain_text (s : list Z) : Prop := Forall (fun x => 0 < x < 128) s /\ zlen s <= 255.
Definition whole_event (e : CalendarEvent) : Prop :=
  low_player (e_creatorGUID e) = e_creatorGUID e /\ kept_guild e (e_creatorGUID e) = e_guildId e /\ is_u 8 (e_type e) /\
  is_u 32 (e_eventTime e) /\ is_u 32 (e_timezoneTime e) /\ plain_text (e_title e) /\ plain_text (e_description e).
Definition whole_invite (i : CalendarInvite) : Prop :=
  low_player (i_invitee i) = i_invitee i /\ low_player (i_senderGUID i) = i_senderGUID i /\
  is_u 32 (i_statusTime i) /\ is_u 8 (i_status i) /\ is_u 8 (i_rank i) /\ plain_text (i_text i).
Lemma whole_event_kept e : whole_event e -> kept_event e = e.
Proof.
  intros (Hc & Hg & Ht & H1 & H2 & [Hp1 Hl1] & [Hp2 Hl2]). unfold kept_event. rewrite Hc, Hg, !held_short by done. rewrite !uwrap_id by done. now destruct e.
Qed.
Lemma whole_invite_kept i : whole_invite i -> kept_invite i = i.
Proof. intros (H1 & H2 & H3 & H4 & H5 & [Hp Hl]). unfold kept_invite. rewrite H1, H2, held_short by done. rewrite !uwrap_id by done. now destruct i. Qed.

(** C12. A calendar outlives the server: as long as nobody announces anything or
    invites to an event that is not made yet, loading the tables, in whatever order
    their rows come, gives exactly the events and the invitations that were there, each
    with what its columns have of it: the guild of a guild's event from the creator's
    row, texts cut to 255 characters, statuses and ranks to a byte.  Those that fit are
    the same to the last field.  And numbers that are free are free again. *)
Theorem calendar_outlives_server c0 c events invites :
  calendar_ok true None c0 -> calendar_reach true c0 c -> events ≡ₚ map_to_list (calendar_events c) -> invites ≡ₚ map_to_list (calendar_invites c) ->
  exists c', LoadFromDB events invites (stopped c) = (Ret tt, c') /\ calendar_ok true None c' /\
    (forall e', (exists a, _events c' !! a = Some e') <-> exists a e, _events c !! a = Some e /\ e' = kept_event e) /\
    (forall i', (exists a, stored (_invites c') (i_heap c') a i') <-> exists a i, stored (_invites c) (i_heap c) a i /\ i' = kept_invite i) /\
    (forall a e, _events c !! a = Some e -> whole_event e -> exists a', _events c' !! a' = Some e) /\
    (forall a i, stored (_invites c) (i_heap c) a i -> whole_invite i -> exists a', stored (_invites c') (i_heap c') a' i).
Proof.
  intros H0 Hr He Hi. pose proof (calendar_reach_ok true c0 c H0 Hr) as H. destruct (LoadFromDB_ok c events invites H He Hi) as (c' & E & H' & Ee & Ei & Ve & Vi).
  pose proof (ev_rows _ _ _ _ _ (co_events _ _ _ H)) as R. pose proof (ev_rows _ _ _ _ _ (co_events _ _ _ H')) as R'. rewrite Ee in R'.
  pose proof (id_rows _ _ _ _ _ (co_ids _ _ _ H eq_refl)) as S. pose proof (id_rows _ _ _ _ _ (co_ids _ _ _ H' eq_refl)) as S'. rewrite Ei in S'.
  assert (He1 : forall a e', _events c' !! a = Some e' -> exists b e, _events c !! b = Some e /\ e_eventId e = e_eventId e' /\ e' = kept_event e).
  { intros a e' Ha. destruct (Ve a e' Ha) as (r & Hx & Er). apply R in Hx as (b & e & Hb & Hid & ->). exists b, e. rewrite <- Hid in Er. done. }
  assert (Hi1 : forall a i', i_heap c' !! a = Some i' -> exists b i, stored (_invites c) (i_heap c) b i /\ i_inviteId i = i_inviteId i' /\ i' = kept_invite i).
  { intros a i' Ha. destruct (Vi a i' Ha) as (r & Hx & Er). apply S in Hx as (b & i & Hb & Hid & ->). exists b, i. rewrite <- Hid in Er. done. }
  assert (He2 : forall a e, _events c !! a = Some e -> exists a', _events c' !! a' = Some (kept_event e)).
  { intros a e Ha. destruct (proj1 (R' (e_eventId e) (event_row e))) as (a' & e' & Ha' & Hid & _); [apply R; now exists a, e|].
    destruct (He1 a' e' Ha') as (b & f & Hb & Hf & ->). assert (b = a) as -> by (apply (ev_unique _ _ _ _ _ (co_events _ _ _ H) b a f e Hb Ha); congruence).
    exists a'. congruence. }
  assert (Hi2 : forall a i, stored (_invites c) (i_heap c) a i -> exists a', stored (_invites c') (i_heap c') a' (kept_invite i)).
  { intros a i Ha. destruct (proj1 (S' (i_inviteId i) (invite_row i))) as (a' & i' & Ha' & Hid & _); [apply S; now exists a, i|].
    destruct (Hi1 a' i' (proj2 Ha')) as (b & j & [Hb Hj] & Hn & ->). destruct Ha as [Ha Hh].
    assert (b = a) as -> by (apply (id_unique _ _ _ _ _ (co_ids _ _ _ H eq_refl) b a j i Hj Hh); congruence). exists a'. congruence. }
  exists c'. split; [done|]. split; [done|]. split; [|split; [|split]].
  - intros e'. split; [|intros (a & e & Ha & ->); now apply (He2 a)]. intros [a Ha]. destruct (He1 a e' Ha) as (b & e & Hb & _ & ->). now exists b, e.
  - intros i'. split; [|intros (a & i & Ha & ->); now apply (Hi2 a)]. intros [a [_ Ha]]. destruct (Hi1 a i' Ha) as (b & i & Hb & _ & ->). now exists b, i.
  - intros a e Ha Hw. rewrite <- (whole_event_kept e Hw). now apply (He2 a).
  - intros a i Ha Hw. rewrite <- (whole_invite_kept i Hw). now apply (Hi2 a).
Qed.

(** ** A number that is used twice *)

Definition read_signup : BB (Z * bool) := let! eventId := read_uint64 in let! tentative := read_bool in ret (eventId, tentative).
Lemma reading_ret {A} (m : BB A) data a rest c : m data = (Ret a, rest) -> reading m data c = (Ret (a, rest), c).
Proof. intros E. unfold reading. now rewrite E. Qed.
(** C22. Inviting somebody to an event that is not made yet frees the number in the
    packet, whosever it is: the next invitation gets the number of one that exists, and
    its row is written over the other's. *)
Theorem invitation_number_used_twice c me data name rest ev0 x me2 data2 rest2 b e a i :
  calendar_ok true None c -> _freeInviteIds c = [] -> spare true c ->
  stored (_invites c) (i_heap c) a i -> i_inviteId i <> _maxInviteId c ->
  read_invitation data = (Ret (ev0, i_inviteId i, name, true, false), rest) ->
  invitee_named name = Some x -> my_team me = in_team x -> ignored_by (in_guid x) me = false ->
  read_signup data2 = (Ret (e_eventId e, false), rest2) -> _events c !! b = Some e -> IsGuildEvent e = false -> IsGuildAnnouncement e = false ->
  exists c', (do! handle (EventInvite me data) in handle (EventSignup me2 data2)) c = (Ret tt, c') /\
    exists a' j, a <> a' /\ i_heap c' !! a = Some i /\ i_heap c' !! a' = Some j /\ i_invitee j = me2 /\ i_inviteId j = i_inviteId i /\
      calendar_invites c' !! i_inviteId i = Some (invite_row j).
Proof.
  intros H Hf Hs [Hin Ha] Hne Er Ex Ht Hig Er2 Hb Hg Hann. cbn [handle]. set (id := i_inviteId i) in *.
  set (i0 := mkInvite id 0 (in_guid x) me no_response_time CALENDAR_STATUS_INVITED CALENDAR_RANK_PLAYER []).
  destruct (silent_invite i0 c (ok_refs _ _ _ H)) as ([] & c1 & E1 & S1). set (c2 := with_invite_ids [id] (_maxInviteId c) c1).
  assert (E2 : HandleCalendarEventInvite me data c = (Ret tt, c2)).
  { unfold HandleCalendarEventInvite. rewrite (bind_ret _ _ _ _ _ (reading_ret _ _ _ _ c Er)). cbn [fst]. unfold event_invite. rewrite Ex, Ht, Z.eqb_refl, Hig. cbn [negb andb].
    fold i0. rewrite (bind_ret _ _ _ _ _ E1). unfold FreeInviteId, modify. destruct (sm_iids _ _ S1) as [F1 F2]. rewrite F1, F2, Hf, (proj2 (Z.eqb_neq _ _) Hne). done. }
  rewrite (bind_ret _ _ _ _ _ E2). unfold HandleCalendarEventSignup. fold read_signup. rewrite (bind_ret _ _ _ _ _ (reading_ret _ _ _ _ c2 Er2)). cbn [fst].
  destruct (find_event (e_eventId e) c2) as (o & Eo & Ho). rewrite (bind_ret _ _ _ _ _ Eo). assert (Ee : _events c2 = _events c) by exact (sm_events _ _ S1). rewrite Ee in Ho.
  destruct o as [[b' e']|]; [|exfalso; apply Ho; now exists b, e]. destruct Ho as [Hb' He']. assert (b' = b) as -> by exact (ev_unique _ _ _ _ _ (co_events _ _ _ H) _ _ _ _ Hb' Hb He').
  rewrite Hb in Hb'. injection Hb' as <-. rewrite Hg. cbn [andb]. set (j := mkInvite id (e_eventId e) me2 me2 now CALENDAR_STATUS_SIGNED_UP CALENDAR_RANK_PLAYER []).
  rewrite (bind_ret _ _ _ id (with_invite_ids [] (_maxInviteId c) c2)) by done. set (c3 := with_invite_ids [] _ c2). set (a' := malloc (dom (i_heap c3))). set (c4 := with_heap (<[a' := j]> (i_heap c3)) c3).
  rewrite (bind_ret _ _ _ a' c4) by done. assert (Eh : i_heap c3 = i_heap c) by exact (sm_heap _ _ S1).
  assert (Ha' : i_heap c !! a' = None) by (rewrite <- Eh; apply not_elem_of_dom, malloc_fresh). assert (Hok1 : calendar_ok true None c1) by now rewrite <- S1.
  destruct (vec_new _ _ _ _ a' j (co_vectors _ _ _ Hok1)) as [Hv Hno]; [now rewrite (sm_heap _ _ S1)|].
  assert (Hok : calendar_ok false None c4) by (split; [exact (co_events _ _ _ Hok1)|exact Hv|done|]; apply texts_new; [exact (co_texts _ _ _ Hok1)|done]).
  destruct (AddInvite_ok false None e a' j c4 (small_of _ _ _ _ _ H Hb) Hok) as ([] & c5 & E5 & H5 & M5 & _ & R5); [apply lookup_insert_eq|done|left; change (_events c4) with (_events c2); rewrite Ee; now exists b, e|].
  rewrite Hann in R5. rewrite (bind_ret _ _ _ _ _ E5). destruct (silent_clear me2 c5 (ok_refs _ _ _ H5)) as ([] & c6 & E6 & S6). exists c6. split; [exact E6|].
  assert (Hna : a <> a') by congruence. exists a', j. split; [done|]. rewrite (sm_heap _ _ S6). split; [apply (mo_heap _ _ _ _ M5); cbn; rewrite lookup_insert_ne by done; now rewrite (sm_heap _ _ S1)|].
  split; [apply (mo_heap _ _ _ _ M5), lookup_insert_eq|]. split; [done|]. split; [done|]. rewrite (proj2 (sm_tables _ _ S6)), R5. apply lookup_insert_eq.
Qed.

(** ** A character is deleted *)

Lemma each_event_none l chosen remover c : (forall a e, a ∈ l -> _events c !! a = Some e -> chosen e = false) -> each_event l chosen remover c = (Ret tt, c).
Proof.
  induction l as [|a l IH]; intros H; [done|]. cbn [each_event]. rewrite bind_gets. destruct (_events c !! a) as [e|] eqn:Ha; [|apply IH; intros b f Hb; apply H; now right].
  rewrite (H a e ltac:(left) Ha). cbn [when]. rewrite (bind_ret _ _ _ tt c) by done. rewrite bind_gets, bool_decide_true by (apply elem_of_dom; now exists e).
  apply IH. intros b f Hb. apply H. now right.
Qed.
Lemma each_event_crash plain l chosen remover c : calendar_ok plain None c -> (exists a e, a ∈ l /\ _events c !! a = Some e /\ chosen e = true) -> (each_event l chosen remover c).1 = Crash.
Proof.
  intros H. induction l as [|a l IH]; intros (b & f & Hb & Hf & Hc); [now apply elem_of_nil in Hb|]. cbn [each_event]. rewrite bind_gets. destruct (_events c !! a) as [e|] eqn:Ha.
  - destruct (chosen e) eqn:Ee; cbn [when].
    + destruct (RemoveEvent_ok plain (e_eventId e) remover a e c H Ha eq_refl) as (ais & c' & E & _ & _ & _ & Ed & _). rewrite (bind_ret _ _ _ _ _ E), bind_gets, Ed.
      rewrite bool_decide_false; [done|]. rewrite dom_delete. set_solver.
    + rewrite (bind_ret _ _ _ tt c) by done. rewrite bind_gets, bool_decide_true by (apply elem_of_dom; now exists e). apply IH. exists b, f. apply elem_of_cons in Hb as [->|Hb]; [congruence|done].
  - apply IH. exists b, f. apply elem_of_cons in Hb as [->|Hb]; [congruence|done].
Qed.
(** Every invitation of a list of different ones goes, and no other. *)
Lemma remove_invites l c : calendar_ok true None c -> NoDup l -> (forall a, a ∈ l -> a ∈ all_invites c) ->
  exists c', for_each l (fun a => let! i := invite_at a in RemoveInvite (i_inviteId i) (i_eventId i)) c = (Ret tt, c') /\ calendar_ok true None c' /\
    (forall ev a, a ∈ vec (_invites c') ev <-> a ∈ vec (_invites c) ev /\ a ∉ l) /\ (forall a, a ∉ l -> i_heap c' !! a = i_heap c !! a) /\ _events c' = _events c.
Proof.
  revert c. induction l as [|a l IH]; intros c H Hnd Hl.
  { exists c. split; [done|]. split; [done|]. split; [|done]. intros ev a. rewrite elem_of_nil. tauto. }
  apply NoDup_cons in Hnd as [Hna Hnd]. destruct (proj1 (elem_of_all_invites c a) (Hl a ltac:(left))) as [ev Hev].
  destruct (vc_live _ _ _ _ (co_vectors _ _ _ H) ev a Hev) as (i & Hi & Ei). cbn [for_each]. destruct (RemoveInvite_ok true (i_inviteId i) (i_eventId i) c H) as ([] & c1 & E & H1 & Hc).
  rewrite (bind_ret _ _ _ tt c1) by now rewrite (bind_ret _ _ _ _ _ (invite_eq c a i Hi)). rewrite Ei in Hc. destruct Hc as [[_ Hc]|(b & j & Hb & Hj & Ej & [D1 D2 D3 _])]; [now destruct (Hc a i Hev Hi)|].
  assert (b = a) as -> by exact (id_unique _ _ _ _ _ (co_ids _ _ _ H eq_refl) b a j i Hj Hi Ej). destruct (IH c1 H1 Hnd) as (c' & E' & H' & V' & P' & Q').
  { intros x Hx. destruct (proj1 (elem_of_all_invites c x) (Hl x ltac:(now right))) as [ev' Hx']. apply elem_of_all_invites. exists ev'. apply D3. split; [done|]. now intros ->. }
  exists c'. split; [done|]. split; [done|]. split_and!; [| |congruence].
  - intros ev' x. rewrite V', D3, elem_of_cons. tauto.
  - intros x Hx. rewrite elem_of_cons in Hx. rewrite P' by tauto. rewrite D2. apply lookup_delete_ne. intros ->. tauto.
Qed.
Lemma NoDup_all_invites p c : vec_ok p (_events c) (_invites c) (i_heap c) -> NoDup (all_invites c).
Proof.
  intros H. unfold all_invites. assert (G : forall l, NoDup (map fst l) -> (forall k v, (k, v) ∈ l -> _invites c !! k = Some v) -> NoDup (concat (map snd l))).
  { induction l as [|[ev v] l IH]; intros Hnd Hl; [constructor|]. cbn in *. apply NoDup_cons in Hnd as [Hn Hnd]. assert (Ev : vec (_invites c) ev = v) by (unfold vec, entry_at; now rewrite (Hl ev v ltac:(left))).
    apply NoDup_app. split; [rewrite <- Ev; apply (vc_once _ _ _ _ H)|]. split; [|apply IH; [done|intros k w Hx; apply Hl; now right]].
    intros a Ha Hc. apply list_elem_of_In, List.in_concat in Hc as (v' & Hv' & Ha'). apply List.in_map_iff in Hv' as ([ev' w] & <- & Hin). apply list_elem_of_In in Ha', Hin. cbn in Ha'.
    rewrite <- Ev in Ha. destruct (vc_live _ _ _ _ H ev a Ha) as (i & Hi & Ei), (vc_live _ _ _ _ H ev' a) as (i' & Hi' & Ei'); [unfold vec, entry_at; now rewrite (Hl ev' w ltac:(now right))|].
    apply Hn. assert (ev = ev') as -> by congruence. now apply (list_elem_of_fmap_2' fst _ (ev', w) ev'). }
  apply G; [apply NoDup_entries_fst|]. intros ev v Hx. exact (proj1 (elem_of_entries _ _ _ _) Hx).
Qed.
(** C23. Deleting a character who created an event that still exists crashes: the walk
    over the events goes on from the one that was just erased.  When there is none, and
    nothing was announced and nobody invited in advance, so that no number is used
    twice, his invitations are removed, everybody else's stay, and so do all events. *)
Theorem deleted_character_calendar plain c0 c guid :
  calendar_ok plain None c0 -> calendar_reach plain c0 c ->
  ((exists a e, _events c !! a = Some e /\ e_creatorGUID e = guid) -> (RemoveAllPlayerEventsAndInvites guid c).1 = Crash) /\
  (plain = true -> (forall a e, _events c !! a = Some e -> e_creatorGUID e <> guid) ->
     exists c', RemoveAllPlayerEventsAndInvites guid c = (Ret tt, c') /\ calendar_ok true None c' /\ _events c' = _events c /\
       forall ev a, a ∈ entry_at [] (_invites c') ev <-> a ∈ entry_at [] (_invites c) ev /\ exists i, i_heap c' !! a = Some i /\ i_heap c !! a = Some i /\ i_invitee i <> guid).
Proof.
  intros H0 Hr. pose proof (calendar_reach_ok plain c0 c H0 Hr) as H. unfold RemoveAllPlayerEventsAndInvites. rewrite bind_gets. split.
  - intros (a & e & Ha & He). assert (Hc : (each_event (keys Z.le (_events c)) (fun e => e_creatorGUID e =? guid) 0 c).1 = Crash).
    { apply (each_event_crash plain); [done|]. exists a, e. split; [apply elem_of_keys; now exists e|]. split; [done|]. now apply Z.eqb_eq. }
    unfold bind at 1. destruct (each_event _ _ _ c) as [[u|?|] c1]; [discriminate Hc|discriminate Hc|done].
  - intros -> Hno. rewrite (bind_ret _ _ _ tt c) by (apply each_event_none; intros a e _ Ha; apply Z.eqb_neq; now apply (Hno a)).
    pose proof (ok_refs _ _ _ H) as Hrefs. destruct (GetPlayerInvites_eq guid c Hrefs) as (r & E & Hsub & Hin). rewrite (bind_ret _ _ _ _ _ E).
    assert (Hnd : NoDup r) by exact (sublist_NoDup _ _ (NoDup_all_invites _ _ (co_vectors _ _ _ H)) Hsub).
    destruct (remove_invites r c H Hnd) as (c' & E' & H' & V' & P' & Q'); [now intros a [Ha _]%Hin|]. exists c'. split; [done|]. split; [done|]. split; [done|].
    intros ev a. change (a ∈ vec (_invites c') ev <-> a ∈ vec (_invites c) ev /\ exists i, i_heap c' !! a = Some i /\ i_heap c !! a = Some i /\ i_invitee i <> guid). rewrite V'. split.
    + intros [Ha Hn]. split; [done|]. destruct (Hrefs ev a Ha) as [i Hi]. exists i. rewrite P' by done. split_and!; [done..|]. intros Eg. apply Hn, Hin. split; [apply elem_of_all_invites; now exists ev|now exists i].
    + intros [Ha (i & _ & Hi & Hg)]. split; [done|]. intros (_ & j & Hj & Ej)%Hin. congruence.
Qed.

(** ** An event is removed *)

Lemma deleted_all {A} (l : list (Z * A)) (h : gmap Z A) b : foldl (fun h x => delete x.1 h) h l !! b = if decide (b ∈ map fst l) then None else h !! b.
Proof.
  revert h. induction l as [|[a x] l IH]; intros h; [cbn; now rewrite decide_False by apply not_elem_of_nil|]. cbn [foldl fst map]. rewrite IH. destruct (decide (b ∈ map fst l)) as [Hb|Hb].
  - now rewrite decide_True by now right.
  - destruct (decide (b = a)) as [->|Hne]; [rewrite decide_True by left; apply lookup_delete_eq|]. rewrite decide_False by now intros [?|?]%elem_of_cons. now apply lookup_delete_ne.
Qed.
Lemma deleted_rows {A} (l : list (Z * CalendarInvite)) (t : gmap Z A) n r :
  foldl (fun t x => delete (i_inviteId x.2) t) t l !! n = Some r <-> t !! n = Some r /\ forall i, i ∈ map snd l -> i_inviteId i <> n.
Proof.
  revert t. induction l as [|[a i] l IH]; intros t; [split; [intros H; split; [done|]; intros i Hi; now apply elem_of_nil in Hi|now intros [? _]]|].
  cbn [foldl map snd]. rewrite IH, lookup_delete_Some. setoid_rewrite elem_of_cons. split.
  - intros [[Hne H] Hl]. split; [done|]. intros j [->|Hj]; auto.
  - intros [H Hl]. split; [split; [auto|done]|auto].
Qed.
Lemma mails_sent e remover (l : list (Z * CalendarInvite)) :
  omap (fun x => mail_to (remove_mail e remover) remover x.2) l =
  if remover =? 0 then [] else map (fun i => remove_mail e remover (GUID_LOPART (i_invitee i))) (filter (fun i => i_invitee i <> remover) (map snd l)).
Proof.
  destruct (Z.eqb_spec remover 0) as [->|Hr]; (induction l as [|[a i] l IH]; [done|]); cbn [omap list_omap map snd]; unfold mail_to at 1; cbn [snd]; [exact IH|].
  rewrite filter_cons, (proj2 (Z.eqb_neq remover 0) Hr). cbn [negb andb].
  destruct (Z.eqb_spec (i_invitee i) remover) as [E|E]; cbn [negb]; [rewrite decide_False by (now intros H); exact IH|]. rewrite decide_True by done. cbn [map]. f_equal. exact IH.
Qed.
(** C21. Removing an event removes it and exactly the invitations to it, from memory and
    its row; of the table of invitations the rows with their numbers, which are exactly
    the rows of the event when nothing was announced and nobody invited in advance (a
    number may be used twice otherwise).  When somebody removes it, a mail goes to each
    who was invited but to himself, in the order they were invited: to his low guid,
    with the remover and the title as its subject and the packed time of the event as
    its body.  Everything else stays. *)
Theorem RemoveEvent_correct plain c0 c id remover a e :
  calendar_ok plain None c0 -> calendar_reach plain c0 c -> _events c !! a = Some e -> e_eventId e = id ->
  exists c' invited, RemoveEvent id remover c = (Ret tt, c') /\ calendar_ok plain None c' /\
    Forall2 (fun b i => i_heap c !! b = Some i) (entry_at [] (_invites c) id) invited /\
    _events c' = delete a (_events c) /\ calendar_events c' = delete id (calendar_events c) /\
    (forall b i, stored (_invites c') (i_heap c') b i <-> stored (_invites c) (i_heap c) b i /\ i_eventId i <> id) /\
    (forall n r, calendar_invites c' !! n = Some r <-> calendar_invites c !! n = Some r /\ forall i, i ∈ invited -> i_inviteId i <> n) /\
    (plain = true -> forall n r, calendar_invites c' !! n = Some r <-> calendar_invites c !! n = Some r /\ ir_event r <> id) /\
    c_mail c' = c_mail c ++ if remover =? 0 then [] else
      map (fun i => mkMail (GUID_LOPART (i_invitee i)) (dec remover ++ str ":" ++ e_title e) (dec (u32 (pack_tm (localtime_r (e_eventTime e))))))
        (filter (fun i => i_invitee i <> remover) invited).
Proof.
  intros H0 Hr Ha He. pose proof (calendar_reach_ok plain c0 c H0 Hr) as H.
  destruct (RemoveEvent_ok plain id remover a e c H Ha He) as (ais & c' & E & H' & El & Hais & Ee & Ev & Eh & Et & Ei & Em & _). exists c', (map snd ais). do 2 (split; [done|]).
  assert (Hst : forall b i, stored (_invites c') (i_heap c') b i <-> stored (_invites c) (i_heap c) b i /\ i_eventId i <> id).
  { intros b i. unfold stored. rewrite Ev, Eh, deleted_all, El. split.
    - intros [Hb Hi]. destruct (decide (i_eventId i = id)); [now apply elem_of_nil in Hb|]. destruct (decide (b ∈ vec (_invites c) id)); [done|auto].
    - intros [[Hb Hi] Hne]. rewrite decide_False by done. split; [done|]. rewrite decide_False; [done|]. intros Hin. destruct (vc_live _ _ _ _ (co_vectors _ _ _ H) id b Hin) as (j & Hj & Ej). congruence. }
  split; [|do 3 (split; [done|]); split; [|split; [|now rewrite Em, mails_sent]]].
  - change (entry_at [] (_invites c) id) with (vec (_invites c) id). rewrite <- El. clear - Hais. induction Hais as [|[b i] l Hb _ IH]; [constructor|]. cbn. constructor; [exact Hb|exact IH].
  - intros n r. rewrite Ei. apply deleted_rows.
  - intros -> n r. rewrite (id_rows _ _ _ _ _ (co_ids _ _ _ H' eq_refl) n r), (id_rows _ _ _ _ _ (co_ids _ _ _ H eq_refl) n r). setoid_rewrite Hst. split.
    + intros (b & i & [Hs Hne] & Hn & ->). split; [now exists b, i|done].
    + intros [(b & i & Hs & Hn & ->) Hne]. exists b, i. done.
Qed.

(** ** Whose events a player sees *)

Definition invited_to c guid (a : Z) e (l : list (Z * list Z)) : Prop :=
  _events c !! a = Some e /\ exists v b i, (e_eventId e, v) ∈ l /\ b ∈ v /\ i_heap c !! b = Some i /\ i_invitee i = guid.
Lemma invited_events_spec guid l s c : calendar_ok false None c -> (forall ev v a, (ev, v) ∈ l -> a ∈ v -> is_Some (i_heap c !! a)) ->
  exists r, invited_events guid l s c = (Ret r, c) /\ forall a, a ∈ r <-> a ∈ s \/ exists e, invited_to c guid a e l.
Proof.
  intros H. revert s. induction l as [|[ev v] l IH]; intros s Hl.
  { exists s. split; [done|]. intros a. split; [auto|]. intros [?|(e & _ & w & b & i & Hx & _)]; [done|now apply elem_of_nil in Hx]. }
  destruct (invites_of_eq guid v c) as (r & E & _ & Hr); [intros a; apply (Hl ev); left|]. cbn [invited_events]. rewrite (bind_ret _ _ _ _ _ E). destruct (find_event ev c) as (o & Eo & Ho).
  rewrite (bind_ret _ _ _ _ _ Eo). set (s' := match r, o with _ :: _, Some (a, _) => {[a]} ∪ s | _, _ => s end).
  assert (Hs' : forall a, a ∈ s' <-> a ∈ s \/ exists e, _events c !! a = Some e /\ e_eventId e = ev /\ exists b i, b ∈ v /\ i_heap c !! b = Some i /\ i_invitee i = guid).
  { intros a. unfold s'. destruct r as [|b0 r].
    { split; [auto|]. intros [?|(e & _ & _ & b & i & Hb & Hi & Hg)]; [done|]. assert (Hx : b ∈ []) by (apply Hr; split; [done|now exists i]). now apply elem_of_nil in Hx. }
    assert (Hb0 : b0 ∈ v /\ exists i, i_heap c !! b0 = Some i /\ i_invitee i = guid) by (apply Hr; left). destruct Hb0 as (Hb0 & i0 & Hi0 & Hg0). destruct o as [[a' e']|].
    - destruct Ho as [Ha' He']. rewrite elem_of_union, elem_of_singleton. split.
      + intros [->|?]; [right; exists e'; split; [done|]; split; [done|now exists b0, i0]|auto].
      + intros [?|(e & Ha & He & _)]; [auto|]. left. apply (ev_unique _ _ _ _ _ (co_events _ _ _ H) a a' e e' Ha Ha'). congruence.
    - split; [auto|]. intros [?|(e & Ha & He & _)]; [done|]. exfalso. apply Ho. now exists a, e. }
  destruct (IH s') as (r' & E' & Hr'); [intros ev' w a Hx; apply (Hl ev'); now right|]. exists r'. split; [done|]. intros a. rewrite Hr', Hs'. unfold invited_to. split.
  - intros [[?|(e & Ha & He & b & i & Hb & Hi & Hg)]|(e & Ha & w & b & i & Hx & Hb & Hi & Hg)]; [auto| |]; right; exists e; (split; [done|]).
    + exists v, b, i. rewrite He. split; [left|done].
    + exists w, b, i. split; [now right|done].
  - intros [?|(e & Ha & w & b & i & [[= He ->]|Hx]%elem_of_cons & Hb & Hi & Hg)]; [auto| |].
    + left. right. exists e. split; [done|]. split; [done|]. now exists b, i.
    + right. exists e. split; [done|]. now exists w, b, i.
Qed.
(** C24. A player's calendar shows the events he is invited to and those filed under the
    number of his guild.  Events that are of no guild are filed under 0, and so is a
    player without a guild who is connected: he is shown everybody's private events. *)
Theorem player_events_correct plain c0 c guid :
  calendar_ok plain None c0 -> calendar_reach plain c0 c ->
  exists s, GetPlayerEvents guid c = (Ret s, c) /\
    (forall a, a ∈ s <-> exists e, _events c !! a = Some e /\
       ((exists b i, b ∈ entry_at [] (_invites c) (e_eventId e) /\ i_heap c !! b = Some i /\ i_invitee i = guid) \/
        exists p, FindConnectedPlayer guid = Some p /\ cp_guildId p = e_guildId e)) /\
    (forall p, FindConnectedPlayer guid = Some p -> cp_guildId p = 0 -> forall a e, _events c !! a = Some e -> e_guildId e = 0 -> a ∈ s).
Proof.
  intros H0 Hr. pose proof (calendar_reach_ok plain c0 c H0 Hr) as H. pose proof (ok_refs _ _ _ H) as Hrefs. assert (Hf : calendar_ok false None c) by (destruct H; now split).
  unfold GetPlayerEvents. rewrite bind_gets. destruct (invited_events_spec guid (entries Z.le (_invites c)) ∅ c Hf) as (r & E & Hin).
  { intros ev v a Hx Ha. apply elem_of_entries in Hx. apply (Hrefs ev). unfold vec, entry_at. now rewrite Hx. }
  rewrite (bind_ret _ _ _ _ _ E). assert (Hi : forall a, a ∈ r <-> exists e, _events c !! a = Some e /\ exists b i, b ∈ entry_at [] (_invites c) (e_eventId e) /\ i_heap c !! b = Some i /\ i_invitee i = guid).
  { intros a. rewrite Hin. unfold invited_to. split.
    - intros [Hx|(e & Ha & v & b & i & Hx & Hb & Hj & Hg)]; [now apply elem_of_empty in Hx|]. exists e. split; [done|]. exists b, i. apply elem_of_entries in Hx. unfold entry_at. rewrite Hx. done.
    - intros (e & Ha & b & i & Hb & Hj & Hg). right. exists e. split; [done|]. unfold entry_at in Hb. destruct (_invites c !! e_eventId e) as [v|] eqn:Ev; [|now apply elem_of_nil in Hb].
      exists v, b, i. split; [now apply elem_of_entries|done]. }
  destruct (FindConnectedPlayer guid) as [p|]; eexists; (split; [reflexivity|]).
  - assert (Hall : forall a, a ∈ r ∪ dom (filter (fun x : Z * CalendarEvent => e_guildId x.2 = cp_guildId p) (_events c)) <-> a ∈ r \/ exists e, _events c !! a = Some e /\ e_guildId e = cp_guildId p).
    { intros a. rewrite elem_of_union, elem_of_dom. unfold is_Some. setoid_rewrite map_lookup_filter_Some. done. }
    split.
    + intros a. rewrite Hall, Hi. split.
      * intros [(e & Ha & Hx)|(e & Ha & Hx)]; exists e; split; auto. right. now exists p.
      * intros (e & Ha & [Hx|(p' & [= <-] & Hx)]); [left|right]; exists e; auto.
    + intros p' [= <-] Hz a e Ha He. apply Hall. right. exists e. split; [done|congruence].
  - split; [|done]. intros a. rewrite Hi. split; intros (e & Ha & Hx); exists e; (split; [done|]); [now left|]. destruct Hx as [?|(p & [=] & _)]. done.
Qed.
End Fates.

(** ** Example *)

Module CalendarDemo.
#[local] Existing Instance cut_columns.
#[local] Existing Instance cut_laws.
Definition player (guid : Z) : option CalendarPlayer :=
  if bool_decide (guid ∈ [1; 2; 3]) then Some (mkCalendarPlayer 80 (if guid =? 1 then 5 else 0) 469 true) else None.
Definition next_address (s : gset Z) : Z := foldr Z.max 0 (elements s) + 1.
#[export] Instance demo_calendar : CalendarWorld := {|
  FindConnectedPlayer := player; GetLevelFromDB := fun _ => 1; GetGuildIdFromDB := fun _ => 0; GetGuildById := fun g => if g =? 5 then Some [1] else None;
  FindPlayerByName := fun n => if bool_decide (n = str "Bob") then Some 2 else None; race_by_name := fun _ => None; TeamForRace := fun _ => 469; social_flags := fun _ _ => None;
  CONFIG_ALLOW_TWO_SIDE_INTERACTION_CALENDAR := false; now := 1000; localtime_r := fun t => mk_tm 0 0 1 0 0 100; mktime := fun _ => 2000; timezone := 0; malloc := next_address |}.
#[export] Instance demo_instances : CalendarInstances := {| GetBoundInstances := fun _ => []; GetResetTimeMap := []; IsRaid := fun _ => false |}.
Lemma max_bound l (x : Z) : x ∈ l -> x <= foldr Z.max 0 l.
Proof. induction l as [|y l IH]; intros H; [now apply elem_of_nil in H|]. cbn. apply elem_of_cons in H as [->|H]; [lia|specialize (IH H); lia]. Qed.
#[export] Instance demo_laws : CalendarLaws.
Proof. intros s H. apply elem_of_elements, max_bound in H. change (malloc s) with (foldr Z.max 0 (elements s) + 1) in H. lia. Qed.
Definition packet (m : BB unit) : ByteBuffer := (m new_buffer).2.
(** Nothing in the calendar yet. *)
Definition start : CalendarMgr := mkCalendar ∅ ∅ [] [] 0 0 ∅ ∅ ∅ [] [].
Lemma no_numbers (live : Z -> Prop) : (forall id, ~ live id) -> numbers live [] 0.
Proof. intros H. split; [unfold is_u; lia| |intros id Hid; now apply H in Hid|constructor]. intros id. rewrite elem_of_nil. specialize (H id). split; [lia|tauto]. Qed.
Lemma calendar_start_ok : calendar_ok true None start.
Proof.
  assert (Hv : forall ev a, a ∉ vec (_invites start) ev) by (intros ev a Ha; now apply elem_of_nil in Ha).
  assert (He : forall a e, _events start !! a <> Some e) by (intros a e; apply lookup_empty_Some). assert (Hh : forall a i, i_heap start !! a <> Some i) by (intros a i; apply lookup_empty_Some).
  split; [split|split|intros _; split|].
  - apply no_numbers. intros id [(a & e & Ha & _)|[=]]. now apply He in Ha.
  - intros id [=].
  - intros a b e f Ha. now apply He in Ha.
  - intros id r. split; [intros Hr; exact (False_rect _ (lookup_empty_Some _ _ Hr))|]. intros (a & e & Ha & _). now apply He in Ha.
  - intros ev a Ha. now apply Hv in Ha.
  - intros ev. constructor.
  - intros ev a Ha. now apply Hv in Ha.
  - apply no_numbers. intros id (a & i & Ha & _). now apply Hh in Ha.
  - intros a b i j Ha. now apply Hh in Ha.
  - intros id r. split; [intros Hr; exact (False_rect _ (lookup_empty_Some _ _ Hr))|]. intros (a & i & [Ha _] & _). now apply Hv in Ha.
  - split; [intros a e Ha; now apply He in Ha|intros a i Ha; now apply Hh in Ha].
Qed.
(** The first player makes an event for the second and himself, and the third signs up. *)
Definition new_event : ByteBuffer := packet
  (do! write_string (str "raid") in do! write_string [] in do! write_uint8 0 in do! write_uint8 0 in do! write_uint32 100 in do! write_uint32 0 in do! write_uint32 7 in do! write_uint32 7 in
   do! write_uint32 0 in do! write_uint32 2 in do! appendPackGUID 1 in do! write_uint8 1 in do! write_uint8 2 in do! appendPackGUID 2 in do! write_uint8 0 in write_uint8 0).
Definition sign_up : ByteBuffer := packet (do! write_uint64 1 in write_uint8 0).
Definition w1 : CalendarMgr := (handle (AddEventRequest 1 new_event) start).2.
Definition w2 : CalendarMgr := (handle (EventSignup 3 sign_up) w1).2.
Lemma data_wf r (d0 : ByteBuffer) : request_data r = Some d0 -> received d0 -> forall d, request_data r = Some d -> received d.
Proof. intros E H d E'. congruence. Qed.
Ltac wf_packet := split; [split; [vm_compute; reflexivity|vm_compute; split; congruence|apply (bool_decide_unpack _); vm_compute; exact I|vm_compute; reflexivity]|vm_compute; discriminate].
Lemma spare_small w n : _maxEventId w < 2 ^ 64 - 1 -> forallb (fun x => zlen x.2 <=? n) (map_to_list (_invites w)) = true -> 0 <= n -> _maxInviteId w + CALENDAR_MAX_INVITES + n < 2 ^ 64 -> spare true w.
Proof.
  intros H1 H2 H0 H3. split; [done|]. intros _ ev. assert (Hl : zlen (vec (_invites w) ev) <= n); [|lia]. unfold vec, entry_at. destruct (_invites w !! ev) as [v|] eqn:Ev; [|exact H0].
  apply elem_of_map_to_list in Ev. rewrite forallb_forall in H2. apply list_elem_of_In in Ev. specialize (H2 _ Ev). now apply Z.leb_le in H2.
Qed.
Ltac few_invites := apply (spare_small _ 10); [vm_compute; reflexivity|vm_compute; reflexivity|lia|vm_compute; reflexivity].
Lemma one_more plain c0 c r : calendar_reach plain c0 c -> calendar_allowed plain c r -> match (handle r c).1 with Crash => false | _ => true end = true -> calendar_reach plain c0 (handle r c).2.
Proof.
  intros H Ha Ho. eapply calendar_step; [exact H|exact Ha|apply surjective_pairing|]. intros E. rewrite E in Ho. discriminate Ho.
Qed.
Lemma w2_reached : calendar_reach true start w2.
Proof.
  apply one_more; [apply one_more; [apply calendar_start| |vm_compute; reflexivity]| |vm_compute; reflexivity].
  - split; [apply (data_wf (AddEventRequest 1 new_event) new_event eq_refl); wf_packet|]. split; [|few_invites].
    intros _ (q & rest & E & Hn). assert (Eq : exists r, read_event new_event = (Ret (mkEventRequest (str "raid") [] 0 0 2000 2000 0), r)) by (eexists; vm_compute; reflexivity).
    destruct Eq as [r Er]. rewrite Er in E. injection E as <- _. now apply Hn.
  - split; [apply (data_wf (EventSignup 3 sign_up) sign_up eq_refl); wf_packet|]. split; [done|]. few_invites.
Qed.
Lemma every_event w (P : CalendarEvent -> bool) : forallb (fun x => P x.2) (map_to_list (_events w)) = true -> forall a e, _events w !! a = Some e -> P e = true.
Proof. intros H a e Ha. apply elem_of_map_to_list, list_elem_of_In in Ha. rewrite forallb_forall in H. exact (H _ Ha). Qed.
Lemma w2_private a e : _events w2 !! a = Some e -> e_creatorGUID e = 1 /\ e_guildId e = 0 /\ IsGuildEvent e = false /\ IsGuildAnnouncement e = false.
Proof.
  intros Ha. assert (H : (e_creatorGUID e =? 1) && (e_guildId e =? 0) && negb (IsGuildEvent e) && negb (IsGuildAnnouncement e) = true).
  { apply (every_event w2 (fun e => (e_creatorGUID e =? 1) && (e_guildId e =? 0) && negb (IsGuildEvent e) && negb (IsGuildAnnouncement e))) with (a := a); [vm_compute; reflexivity|exact Ha]. }
  clear Ha. rewrite !andb_true_iff, !negb_true_iff, !Z.eqb_eq in H. tauto.
Qed.
Lemma w2_has : exists a e, _events w2 !! a = Some e /\ e_eventId e = 1 /\ e_title e = str "raid" /\ e_creatorGUID e = 1 /\ whole_event e /\ e_eventTime e = 2000.
Proof.
  eexists 1, _. split; [vm_compute; reflexivity|]. do 3 (split; [reflexivity|]). split; [|reflexivity]. unfold whole_event, plain_text. cbn [e_creatorGUID e_guildId e_type e_eventTime e_timezoneTime e_title e_description].
  split_and!; try (vm_compute; reflexivity); try (vm_compute; discriminate); apply (bool_decide_unpack _); vm_compute; exact I.
Qed.
Lemma calendar_runs_return_witness : (handle (GetCalendar 2) w2).1 <> Crash /\ exists r, calendar_events w2 !! 1 = Some r /\ er_title r = str "raid".
Proof.
  destruct (calendar_runs_return true start w2 calendar_start_ok w2_reached) as (H1 & _ & _ & H3 & _). split.
  - apply H1; [split; [intros d Hd; discriminate Hd|]; split; [intros _; exact I|few_invites]|]. vm_compute. discriminate.
  - destruct w2_has as (a & e & Ha & Hid & Ht & _). exists (event_row e). split; [apply H3; exists a, e; split; [exact Ha|split; [exact Hid|reflexivity]]|].
    unfold event_row. cbn [er_title]. rewrite Ht. vm_compute. reflexivity.
Defined.
Lemma calendar_outlives_server_witness :
  exists c', LoadFromDB (map_to_list (calendar_events w2)) (map_to_list (calendar_invites w2)) (stopped w2) = (Ret tt, c') /\ calendar_ok true None c' /\
    base.size (calendar_invites w2) = 3%nat /\ exists a e, _events c' !! a = Some e /\ e_eventId e = 1 /\ e_title e = str "raid" /\ e_creatorGUID e = 1 /\ e_eventTime e = 2000.
Proof.
  destruct (calendar_outlives_server start w2 (map_to_list (calendar_events w2)) (map_to_list (calendar_invites w2)) calendar_start_ok w2_reached (Permutation_refl _) (Permutation_refl _)) as (c' & E & H & _ & _ & He & _).
  exists c'. split; [exact E|]. split; [exact H|]. split; [vm_compute; reflexivity|]. destruct w2_has as (a & e & Ha & Hid & Ht & Hc & Hw & Htime). destruct (He a e Ha Hw) as [a' Ha'].
  exists a', e. exact (conj Ha' (conj Hid (conj Ht (conj Hc Htime)))).
Defined.
(** Bob is invited in advance with the number of an invitation that exists. *)
Definition in_advance : ByteBuffer := packet (do! write_uint64 0 in do! write_uint64 1 in do! write_string (str "Bob") in do! write_uint8 1 in write_uint8 0).
Lemma invitation_number_used_twice_witness :
  exists c', (do! handle (EventInvite 1 in_advance) in handle (EventSignup 3 sign_up)) w2 = (Ret tt, c') /\
    exists a i a' j, a <> a' /\ i_heap c' !! a = Some i /\ i_heap c' !! a' = Some j /\ i_invitee i = 1 /\ i_invitee j = 3 /\ i_inviteId j = i_inviteId i /\
      calendar_invites c' !! i_inviteId i = Some (invite_row j).
Proof.
  assert (Hr : exists rest, read_invitation in_advance = (Ret (0, 1, str "Bob", true, false), rest)) by (eexists; vm_compute; reflexivity). destruct Hr as [rest Hr].
  assert (Hs : exists rest, read_signup sign_up = (Ret (1, false), rest)) by (eexists; vm_compute; reflexivity). destruct Hs as [rest2 Hs].
  assert (Hi : exists i, i_heap w2 !! 1 = Some i /\ i_inviteId i = 1 /\ i_eventId i = 1 /\ i_invitee i = 1) by (eexists; split; [vm_compute; reflexivity|split_and!; reflexivity]).
  destruct Hi as (i & Hh & Hid & Hev & Hg). assert (Hin : 1 ∈ vec (_invites w2) 1) by (apply (bool_decide_unpack _); vm_compute; exact I).
  assert (Hst : stored (_invites w2) (i_heap w2) 1 i) by (unfold stored; rewrite Hev; exact (conj Hin Hh)).
  destruct w2_has as (b & e & Hb & He & _). destruct (w2_private b e Hb) as (_ & _ & Hf1 & Hf2).
  destruct (invitation_number_used_twice w2 1 in_advance (str "Bob") rest 0 (mkInvitee 2 469 0) 3 sign_up rest2 b e 1 i) as (c' & E & a' & j & H);
    [exact (calendar_reach_ok true start w2 calendar_start_ok w2_reached)|vm_compute; reflexivity|few_invites|exact Hst|rewrite Hid; vm_compute; congruence|rewrite Hid; exact Hr|reflexivity|reflexivity|reflexivity|rewrite He; exact Hs|exact Hb|exact Hf1|exact Hf2|].
  exists c'. split; [exact E|]. exists 1, i, a', j. destruct H as (H1 & H2 & H3 & H4 & H5 & H6). exact (conj H1 (conj H2 (conj H3 (conj Hg (conj H4 (conj H5 H6)))))).
Defined.
Lemma deleted_character_calendar_witness : (RemoveAllPlayerEventsAndInvites 1 w2).1 = Crash /\ exists c', RemoveAllPlayerEventsAndInvites 3 w2 = (Ret tt, c') /\ _events c' = _events w2.
Proof.
  split.
  - destruct w2_has as (a & e & Ha & _ & _ & Hc & _). apply (proj1 (deleted_character_calendar true start w2 1 calendar_start_ok w2_reached)). exists a, e. split; [exact Ha|exact Hc].
  - destruct (proj2 (deleted_character_calendar true start w2 3 calendar_start_ok w2_reached) eq_refl) as (c' & E & _ & He & _); [|exists c'; split; [exact E|exact He]].
    intros a e Ha. rewrite (proj1 (w2_private a e Ha)). discriminate.
Defined.
Definition remove_body (e : CalendarEvent) : list Z := dec (u32 (pack_tm (localtime_r (e_eventTime e)))).
Lemma RemoveEvent_correct_witness : exists c' e, RemoveEvent 1 2 w2 = (Ret tt, c') /\ calendar_events c' = delete 1 (calendar_events w2) /\ e_title e = str "raid" /\
  c_mail c' = [mkMail 1 (dec 2 ++ str ":raid") (remove_body e); mkMail 3 (dec 2 ++ str ":raid") (remove_body e)].
Proof.
  destruct w2_has as (a & e & Ha & He & Ht & _). destruct (RemoveEvent_correct true start w2 1 2 a e calendar_start_ok w2_reached Ha He) as (c' & inv & E & _ & Hi & _ & Et & _ & _ & _ & Hm).
  exists c', e. split; [exact E|]. split; [exact Et|]. split; [exact Ht|]. rewrite Hm. assert (Ev : exists x y z, entry_at [] (_invites w2) 1 = [x; y; z] /\ exists i j k, i_heap w2 !! x = Some i /\ i_heap w2 !! y = Some j /\
    i_heap w2 !! z = Some k /\ i_invitee i = 1 /\ i_invitee j = 2 /\ i_invitee k = 3).
  { eexists _, _, _. split; [vm_compute; reflexivity|]. eexists _, _, _. split; [vm_compute; reflexivity|]. split; [vm_compute; reflexivity|]. split; [vm_compute; reflexivity|]. split_and!; reflexivity. }
  destruct Ev as (x & y & z & Ev & i & j & k & Hx & Hy & Hz & Ei & Ej & Ek). rewrite Ev in Hi. apply Forall2_cons_inv_l in Hi as (i' & l1 & Hi' & Hi & ->). apply Forall2_cons_inv_l in Hi as (j' & l2 & Hj' & Hi & ->).
  apply Forall2_cons_inv_l in Hi as (k' & l3 & Hk' & Hi & ->). apply Forall2_nil_inv_l in Hi as ->. rewrite Hx in Hi'. rewrite Hy in Hj'. rewrite Hz in Hk'. injection Hi' as <-. injection Hj' as <-. injection Hk' as <-.
  rewrite !filter_cons, filter_nil, Ei, Ej, Ek. rewrite (decide_True (P := 1 <> 2)), (decide_False (P := 2 <> 2)), (decide_True (P := 3 <> 2)) by lia. cbn [map Z.eqb]. rewrite Ei, Ek, Ht. assert (Em : c_mail w2 = []) by (vm_compute; reflexivity). rewrite Em. unfold remove_body. reflexivity.
Defined.
Lemma player_events_correct_witness : exists s, GetPlayerEvents 2 w2 = (Ret s, w2) /\ exists a, a ∈ s.
Proof.
  destruct (player_events_correct true start w2 2 calendar_start_ok w2_reached) as (s & E & _ & Hs). exists s. split; [exact E|]. destruct w2_has as (a & e & Ha & _). exists a.
  apply (Hs (mkCalendarPlayer 80 0 469 true) eq_refl eq_refl a e Ha). exact (proj1 (proj2 (w2_private a e Ha))).
Defined.
End CalendarDemo.
