(* ===== verification/EventMap.v ===== *)
(** * EventMap: the timer of the creature scripts
    (src/server/shared/Utilities/Util.h, class EventMap, and Util.cpp)

    Events wait in a multimap from due time to data word; the data word packs
    the event id, a group bit and a phase bit (0xPPGGEEEE). *)

From stdpp Require Import base gmap list sorting.
From Stdlib Require Import ZArith Lia.
From S2P Require Import Prelude Multimap.
#[local] Open Scope Z_scope.

Record EventMap := mkEventMap {
  _time : Z;
  _phase : Z;
  _eventMap : list (Z * Z);
  _lastEvent : Z
}.

Definition new_event_map : EventMap := mkEventMap 0 0 [] 0.
Definition set_store (m : EventMap) (l : list (Z * Z)) : EventMap :=
  mkEventMap (_time m) (_phase m) l (_lastEvent m).
Definition set_phase_mask (m : EventMap) (p : Z) : EventMap :=
  mkEventMap (_time m) p (_eventMap m) (_lastEvent m).

Definition Reset (m : EventMap) : EventMap := mkEventMap 0 0 [] (_lastEvent m).
Definition Update (m : EventMap) (time : Z) : EventMap :=
  mkEventMap (u32 (_time m + time)) (_phase m) (_eventMap m) (_lastEvent m).
Definition GetTimer (m : EventMap) : Z := _time m.
Definition GetPhaseMask (m : EventMap) : Z := _phase m.
Definition Empty (m : EventMap) : bool := match _eventMap m with [] => true | _ => false end.

(** ** Phases *)

Definition SetPhase (m : EventMap) (phase : Z) : EventMap :=
  if phase =? 0 then set_phase_mask m 0
  else if phase <=? 8 then set_phase_mask m (u8 (Z.shiftl 1 (phase - 1)))
  else m.
Definition AddPhase (m : EventMap) (phase : Z) : EventMap :=
  if negb (phase =? 0) && (phase <=? 8)
  then set_phase_mask m (u8 (Z.lor (_phase m) (Z.shiftl 1 (phase - 1))))
  else m.
Definition RemovePhase (m : EventMap) (phase : Z) : EventMap :=
  if negb (phase =? 0) && (phase <=? 8)
  then set_phase_mask m (u8 (Z.land (_phase m) (Z.lnot (Z.shiftl 1 (phase - 1)))))
  else m.
Definition IsInPhase (m : EventMap) (phase : Z) : bool :=
  (phase <=? 8) && ((phase =? 0) || negb (Z.land (_phase m) (Z.shiftl 1 (phase - 1)) =? 0)).

(** ** Scheduling *)

Definition event_data (eventId group phase : Z) : Z :=
  let d := if negb (group =? 0) && (group <=? 8)
           then Z.lor eventId (u32 (Z.shiftl 1 (group + 15))) else eventId in
  if negb (phase =? 0) && (phase <=? 8)
  then Z.lor d (u32 (Z.shiftl 1 (phase + 23))) else d.

Definition ScheduleEvent (m : EventMap) (eventId time group phase : Z) : EventMap :=
  set_store m (mm_insert (u32 (_time m + time)) (event_data eventId group phase) (_eventMap m)).

Definition id_of (data : Z) : Z := Z.land data 0x0000FFFF.

Definition CancelEvent (m : EventMap) (eventId : Z) : EventMap :=
  if Empty m then m
  else set_store m (mm_erase_if (fun e => eventId =? id_of e.2) (_eventMap m)).

Definition in_group (group : Z) (data : Z) : bool :=
  negb (Z.land data (u32 (Z.shiftl 1 (group + 15))) =? 0).

Definition CancelEventGroup (m : EventMap) (group : Z) : EventMap :=
  if (group =? 0) || (8 <? group) || Empty m then m
  else set_store m (mm_erase_if (fun e => in_group group e.2) (_eventMap m)).

Definition RescheduleEvent (m : EventMap) (eventId time group phase : Z) : EventMap :=
  ScheduleEvent (CancelEvent m eventId) eventId time group phase.

Definition Repeat (m : EventMap) (time : Z) : EventMap :=
  set_store m (mm_insert (u32 (_time m + time)) (_lastEvent m) (_eventMap m)).

(** [Repeat(minTime, maxTime)]: the delay is drawn by [urand]. *)
Definition Repeat_between (urand : Z -> Z -> Z) (m : EventMap) (minTime maxTime : Z) : EventMap :=
  Repeat m (urand minTime maxTime).

(** ** Execution *)

(** the phase test of [ExecuteEvent]: the event is for other phases than the
    current ones *)
Definition blocked (phase data : Z) : bool :=
  negb (phase =? 0) && negb (Z.land data 0xFF000000 =? 0) &&
  (Z.land (Z.shiftr data 24) phase =? 0).

(** The loop of [ExecuteEvent] over the store: the id to run, the store and the
    last event it leaves. *)
Fixpoint execute_loop (time phase last : Z) (l : list (Z * Z)) : Z * list (Z * Z) * Z :=
  match l with
  | [] => (0, [], last)
  | (t, d) :: l' =>
    if time <? t then (0, l, last)
    else if blocked phase d then execute_loop time phase last l'
    else (id_of d, l', d)
  end.
Definition ExecuteEvent (m : EventMap) : Z * EventMap :=
  let '(id, l, last) := execute_loop (_time m) (_phase m) (_lastEvent m) (_eventMap m) in
  (id, mkEventMap (_time m) (_phase m) l last).

(** [DelayEvents(delay)] and [DelayEvents(delay, group)]. *)
Definition DelayEvents (m : EventMap) (delay : Z) : EventMap :=
  mkEventMap (if delay <? _time m then _time m - delay else 0) (_phase m) (_eventMap m) (_lastEvent m).

Definition DelayEventsGroup (m : EventMap) (delay group : Z) : EventMap :=
  if (group =? 0) || (8 <? group) || Empty m then m
  else
    let delayed := foldl (fun dm e => if in_group group e.2
                                      then mm_insert (u32 (e.1 + delay)) e.2 dm else dm)
                         [] (_eventMap m) in
    set_store m (mm_insert_all delayed (mm_erase_if (fun e => in_group group e.2) (_eventMap m))).

(** ** Queries *)

Definition GetNextEventTimeOf (m : EventMap) (eventId : Z) : Z :=
  if Empty m then 0
  else match list_find (fun e => eventId = id_of e.2) (_eventMap m) with
       | Some (_, e) => e.1
       | None => 0
       end.
Definition GetNextEventTime (m : EventMap) : Z :=
  match _eventMap m with [] => 0 | e :: _ => e.1 end.
Definition GetTimeUntilEvent (m : EventMap) (eventId : Z) : Z :=
  match list_find (fun e => eventId = id_of e.2) (_eventMap m) with
  | Some (_, e) => u32 (e.1 - _time m)
  | None => 2 ^ 32 - 1
  end.

(** ** Invariant *)

Record wf (m : EventMap) : Prop := {
  wf_time : is_u 32 (_time m);
  wf_phase : is_u 8 (_phase m);
  wf_last : is_u 32 (_lastEvent m);
  wf_sorted : mm_sorted (_eventMap m);
  wf_store : Forall (fun e => is_u 32 e.1 /\ is_u 32 e.2) (_eventMap m)
}.

(** Every event that is due now, in the order the store keeps them, and what a
    script that calls [ExecuteEvent] until it is idle gets to run. *)
Definition due (time : Z) (l : list (Z * Z)) : list (Z * Z) := filter (fun e => e.1 <= time) l.
Definition pending (time : Z) (l : list (Z * Z)) : list (Z * Z) := filter (fun e => time < e.1) l.
Fixpoint drain (fuel : nat) (m : EventMap) : list Z * EventMap :=
  match fuel with
  | O => ([], m)
  | S fuel =>
    let '(id, m') := ExecuteEvent m in
    if id =? 0 then ([], m')
    else let '(ids, m'') := drain fuel m' in (id :: ids, m'')
  end.

(** ** Lemmas: the data word *)

Lemma is_u_lor w a b : 0 <= w -> is_u w a -> is_u w b -> is_u w (Z.lor a b).
Proof.
  intros Hw Ha Hb. replace (Z.lor a b) with (uwrap w (Z.lor a b)); [now apply uwrap_range|].
  apply Z.bits_inj'; intros i Hi. rewrite testbit_uwrap by lia. case_bool_decide; [done|].
  rewrite Z.lor_spec, (testbit_above w a), (testbit_above w b) by (auto; lia). done.
Qed.

Lemma event_data_range id g p : is_u 32 id -> is_u 32 (event_data id g p).
Proof.
  intros Hid. unfold event_data.
  repeat case_if; repeat apply is_u_lor; auto; try apply uwrap_range; lia.
Qed.

Lemma testbit_bit n j : 0 <= n < 32 -> 0 <= j -> Z.testbit (u32 (Z.shiftl 1 n)) j = bool_decide (j = n).
Proof.
  intros Hn Hj. rewrite testbit_uwrap, testbit_shiftl1 by lia.
  repeat case_bool_decide; auto; lia.
Qed.

(** the bits of the data word: the id below, one group bit, one phase bit *)
Lemma testbit_event_data id g p j :
  is_u 16 id -> 0 <= g -> 0 <= p -> 0 <= j ->
  Z.testbit (event_data id g p) j =
  Z.testbit id j || bool_decide (1 <= g <= 8 /\ j = g + 15) || bool_decide (1 <= p <= 8 /\ j = p + 23).
Proof.
  intros Hid Hg Hp Hj. unfold event_data.
  destruct (negb (g =? 0) && (g <=? 8)) eqn:Eg; destruct (negb (p =? 0) && (p <=? 8)) eqn:Ep.
  all: zbool; rewrite ?Z.lor_spec, ?testbit_bit by (zbool; lia).
  all: destruct (Z.testbit id j); cbn; auto; repeat case_bool_decide; zbool; try lia; auto.
Qed.

Lemma in_group_testbit g d : 1 <= g <= 8 -> in_group g d = Z.testbit d (g + 15).
Proof.
  intros Hg. unfold in_group. rewrite Z.shiftl_1_l, uwrap_id.
  - rewrite land_pow2_nonzero by lia. apply negb_involutive.
  - split; [apply Z.pow_nonneg; lia|apply Z.pow_lt_mono_r; lia].
Qed.

Lemma id_of_event_data id g p : is_u 16 id -> 0 <= g -> 0 <= p -> id_of (event_data id g p) = id.
Proof.
  intros Hid Hg Hp. unfold id_of. change 0xFFFF with (Z.ones 16).
  apply Z.bits_inj'; intros j Hj.
  rewrite Z.land_spec, testbit_event_data, Z.testbit_ones_nonneg by (auto; lia).
  destruct (j <? 16) eqn:E; zbool.
  - rewrite !bool_decide_eq_false_2 by lia. now rewrite !orb_false_r, andb_true_r.
  - rewrite andb_false_r. symmetry. now apply (testbit_above 16).
Qed.

(** the phase byte of the data word, shifted down *)
Lemma testbit_phase_byte id g p j :
  is_u 16 id -> 0 <= g -> 0 <= p -> 24 <= j ->
  Z.testbit (event_data id g p) j = bool_decide (1 <= p <= 8 /\ j = p + 23).
Proof.
  intros. rewrite testbit_event_data, (testbit_above 16 id) by (auto; lia).
  rewrite (bool_decide_eq_false_2 (1 <= g <= 8 /\ _)) by lia. done.
Qed.
Lemma high_byte_zero d :
  0 <= d -> (Z.land d 0xFF000000 =? 0) = true <-> forall j, 24 <= j < 32 -> Z.testbit d j = false.
Proof.
  intros Hd. change 0xFF000000 with (Z.shiftl (Z.ones 8) 24). rewrite Z.eqb_eq. split.
  - intros Hz j Hj. apply (f_equal (fun v => Z.testbit v j)) in Hz. revert Hz.
    rewrite Z.land_spec, Z.bits_0, Z.shiftl_spec, Z.testbit_ones_nonneg by lia.
    rewrite (proj2 (Z.ltb_lt _ _)) by lia. now rewrite andb_true_r.
  - intros Hbits. apply Z.bits_inj'; intros j Hj. rewrite Z.land_spec, Z.bits_0, Z.shiftl_spec by lia.
    destruct (decide (24 <= j)); [|rewrite (Z.testbit_neg_r (Z.ones 8)) by lia; apply andb_false_r].
    rewrite Z.testbit_ones_nonneg by lia. destruct (j - 24 <? 8) eqn:E; [|apply andb_false_r].
    zbool. now rewrite Hbits by lia.
Qed.

Lemma blocked_event_data id g p ph :
  is_u 16 id -> 0 <= g -> 0 <= p ->
  blocked ph (event_data id g p) =
    bool_decide (ph <> 0 /\ 1 <= p <= 8 /\ Z.testbit ph (p - 1) = false).
Proof.
  intros Hid Hg Hp. assert (Hd : 0 <= event_data id g p).
  { apply (event_data_range id g p). unfold is_u in *; lia. }
  unfold blocked. destruct (ph =? 0) eqn:E0; zbool.
  { symmetry. apply bool_decide_eq_false_2. now intros [? _]. }
  destruct (Z.land (event_data id g p) 0xFF000000 =? 0) eqn:Eh; cbn.
  - pose proof (proj1 (high_byte_zero _ Hd) Eh) as Hz. symmetry. apply bool_decide_eq_false_2.
    intros (_ & Hp8 & _). specialize (Hz (p + 23)).
    rewrite testbit_phase_byte, bool_decide_eq_true_2 in Hz by (auto; lia). discriminate Hz; lia.
  - destruct (decide (1 <= p <= 8)) as [Hp8|Hp8].
    + replace (Z.land (Z.shiftr (event_data id g p) 24) ph) with (Z.land ph (2 ^ (p - 1))).
      2: { apply Z.bits_inj'; intros j Hj.
           rewrite !Z.land_spec, Z.shiftr_spec, testbit_phase_byte, testbit_pow2 by (auto; lia).
           rewrite andb_comm. f_equal. apply bool_decide_ext. lia. }
      rewrite land_pow2_nonzero by lia. destruct (Z.testbit ph (p - 1)); cbn; symmetry;
        [apply bool_decide_eq_false_2|apply bool_decide_eq_true_2]; intuition congruence.
    + exfalso. apply Bool.not_true_iff_false in Eh. apply Eh, high_byte_zero; auto. intros j Hj.
      rewrite testbit_phase_byte by (auto; lia). apply bool_decide_eq_false_2. lia.
Qed.

(** ** Lemmas: the invariant *)

Lemma wf_set_store m l :
  wf m -> mm_sorted l -> Forall (fun e => is_u 32 e.1 /\ is_u 32 e.2) l -> wf (set_store m l).
Proof. intros []; now split. Qed.
Lemma wf_set_phase_mask m p : wf m -> wf (set_phase_mask m (u8 p)).
Proof. intros []; split; cbn; auto. apply uwrap_range; lia. Qed.
Lemma wf_insert m k d : wf m -> is_u 32 d -> wf (set_store m (mm_insert (u32 k) d (_eventMap m))).
Proof.
  intros Hm Hd. apply wf_set_store; auto; destruct Hm; auto with trinity.
  apply mm_insert_Forall; auto. split; [apply uwrap_range; lia|done].
Qed.
Lemma wf_erase m f : wf m -> wf (set_store m (mm_erase_if f (_eventMap m))).
Proof.
  intros Hm. apply wf_set_store; auto; destruct Hm; auto with trinity.
  rewrite Forall_forall in *. intros x [_ Hx]%elem_of_mm_erase_if. auto.
Qed.
#[export] Hint Resolve wf_set_store wf_set_phase_mask wf_insert wf_erase event_data_range : trinity.

Lemma wf_Update m t : wf m -> wf (Update m t).
Proof. intros []; split; cbn; auto. apply uwrap_range; lia. Qed.
Lemma wf_SetPhase m p : wf m -> wf (SetPhase m p).
Proof. intros; unfold SetPhase; repeat case_if; auto with trinity. exact (wf_set_phase_mask m 0 H). Qed.
Lemma wf_CancelEvent m id : wf m -> wf (CancelEvent m id).
Proof. intros; unfold CancelEvent; case_if; auto with trinity. Qed.
Lemma wf_CancelEventGroup m g : wf m -> wf (CancelEventGroup m g).
Proof. intros; unfold CancelEventGroup; case_if; auto with trinity. Qed.
Lemma wf_ScheduleEvent m id t g p : wf m -> is_u 32 id -> wf (ScheduleEvent m id t g p).
Proof. intros; unfold ScheduleEvent; auto with trinity. Qed.

Lemma execute_loop_wf time phase last l id l' last' :
  execute_loop time phase last l = (id, l', last') ->
  is_u 32 last -> mm_sorted l -> Forall (fun e => is_u 32 e.1 /\ is_u 32 e.2) l ->
  is_u 32 last' /\ mm_sorted l' /\ Forall (fun e => is_u 32 e.1 /\ is_u 32 e.2) l'.
Proof.
  induction l as [|[t d] l IH]; cbn; intros E Hlast Hs Hf; [now simplify_eq|].
  repeat case_if; simplify_eq; auto; inversion_clear Hf as [|? ? [? ?] ?];
    eauto using mm_tail_sorted.
Qed.
Lemma wf_ExecuteEvent m : wf m -> wf (ExecuteEvent m).2.
Proof.
  intros []. unfold ExecuteEvent.
  destruct (execute_loop _ _ _ _) as [[id l'] last'] eqn:E.
  destruct (execute_loop_wf _ _ _ _ _ _ _ E) as (? & ? & ?); auto. now split.
Qed.

Lemma delayed_perm group delay l acc :
  foldl (fun dm e => if in_group group e.2 then mm_insert (u32 (e.1 + delay)) e.2 dm else dm) acc l
  ≡ₚ ((fun e => (u32 (e.1 + delay), e.2)) <$> filter (fun e => in_group group e.2 = true) l) ++ acc.
Proof.
  revert acc; induction l as [|e l IH]; intros acc; [done|].
  cbn [foldl]. rewrite filter_cons. destruct (in_group group e.2) eqn:E; case_decide; try done.
  rewrite IH, mm_insert_perm. cbn. now rewrite Permutation_middle.
Qed.

Lemma delay_store_perm group delay l :
  mm_insert_all
    (foldl (fun dm e => if in_group group e.2 then mm_insert (u32 (e.1 + delay)) e.2 dm else dm) [] l)
    (mm_erase_if (fun e => in_group group e.2) l) ≡ₚ
  (fun e => if in_group group e.2 then (u32 (e.1 + delay), e.2) else e) <$> l.
Proof.
  rewrite mm_insert_all_perm, delayed_perm, app_nil_r.
  induction l as [|e l IH]; [done|].
  unfold mm_erase_if in *. rewrite !filter_cons, fmap_cons.
  destruct (in_group group e.2) eqn:E; repeat case_decide; try done; cbn; rewrite <- IH; [done|].
  now rewrite Permutation_middle.
Qed.

Lemma wf_DelayEventsGroup m delay group : wf m -> wf (DelayEventsGroup m delay group).
Proof.
  intros Hm. unfold DelayEventsGroup. case_if; auto.
  apply wf_set_store; auto; destruct Hm; auto with trinity.
  rewrite delay_store_perm. apply Forall_fmap.
  eapply Forall_impl; [eassumption|]. intros e [? ?]; cbn.
  destruct (in_group group e.2); cbn; auto. split; auto. apply uwrap_range; lia.
Qed.

(** ** Lemmas: execution *)

Definition runnable (time phase : Z) (e : Z * Z) : Prop := e.1 <= time /\ blocked phase e.2 = false.
#[export] Instance runnable_dec time phase e : Decision (runnable time phase e).
Proof. unfold runnable; apply _. Defined.

Lemma execute_loop_split time phase last l :
  exists dropped rest, l = dropped ++ rest /\
    Forall (fun e => e.1 <= time /\ blocked phase e.2 = true) dropped /\
    match rest with
    | [] => execute_loop time phase last l = (0, [], last)
    | (t, d) :: l' =>
      (time < t /\ execute_loop time phase last l = (0, rest, last)) \/
      (runnable time phase (t, d) /\ execute_loop time phase last l = (id_of d, l', d))
    end.
Proof.
  induction l as [|[t d] l IH]; [by exists [], []|].
  cbn [execute_loop]. destruct (time <? t) eqn:Et; zbool.
  { exists [], ((t, d) :: l). split_and!; auto. }
  destruct (blocked phase d) eqn:Eb.
  - destruct IH as (dropped & rest & -> & Hd & Hr).
    exists ((t, d) :: dropped), rest. split_and!; auto.
  - exists [], ((t, d) :: l). split_and!; auto. right. now split.
Qed.

Lemma filter_all_out {A} (P : A -> Prop) `{forall x, Decision (P x)} l :
  Forall (fun x => ~ P x) l -> filter P l = [].
Proof. induction 1; [done|]. rewrite filter_cons_False by assumption. done. Qed.
Lemma filter_all_in {A} (P : A -> Prop) `{forall x, Decision (P x)} l :
  Forall P l -> filter P l = l.
Proof. induction 1; [done|]. rewrite filter_cons_True by assumption. now f_equal. Qed.

Lemma sorted_later time e (l : list (Z * Z)) :
  mm_sorted (e :: l) -> time < e.1 -> Forall (fun x => time < x.1) (e :: l).
Proof.
  intros Hs He. constructor; auto. inversion_clear Hs as [|? ? ? Hall].
  eapply Forall_impl; [apply Hall|]; cbn; lia.
Qed.

Lemma mm_sorted_app_r (l1 l2 : list (Z * Z)) : mm_sorted (l1 ++ l2) -> mm_sorted l2.
Proof. induction l1; cbn; auto. inversion_clear 1; auto. Qed.

(** what is left to run when the next entry is not due: nothing *)
Lemma nothing_runnable time phase dropped rest :
  mm_sorted (dropped ++ rest) ->
  Forall (fun e => e.1 <= time /\ blocked phase e.2 = true) dropped ->
  match rest with [] => True | (t, _) :: _ => time < t end ->
  filter (runnable time phase) (dropped ++ rest) = [] /\ pending time (dropped ++ rest) = rest.
Proof.
  intros Hs Hd Hr. unfold pending. rewrite !filter_app.
  rewrite (filter_all_out (runnable time phase) dropped), (filter_all_out (fun e => time < e.1) dropped).
  2,3: eapply Forall_impl; [apply Hd|]; unfold runnable; cbn; intros ? [? ?]; first [lia | intros [_ ?]; congruence].
  assert (Hlater : Forall (fun x => time < x.1) rest).
  { destruct rest as [|[t d] rest]; [constructor|]. apply sorted_later; auto.
    now apply mm_sorted_app_r in Hs. }
  rewrite filter_all_out, filter_all_in; auto.
  eapply Forall_impl; [apply Hlater|]. unfold runnable; cbn. lia.
Qed.

Lemma next_runnable time phase dropped e rest :
  Forall (fun e => e.1 <= time /\ blocked phase e.2 = true) dropped -> runnable time phase e ->
  filter (runnable time phase) (dropped ++ e :: rest) = e :: filter (runnable time phase) rest /\
  pending time (dropped ++ e :: rest) = pending time rest.
Proof.
  intros Hd He. unfold pending. rewrite !filter_app.
  rewrite (filter_all_out (runnable time phase) dropped), (filter_all_out (fun e => time < e.1) dropped).
  2,3: eapply Forall_impl; [apply Hd|]; unfold runnable; cbn; intros ? [? ?]; first [lia | intros [_ ?]; congruence].
  rewrite filter_cons_True by auto. rewrite filter_cons_False by (destruct He; lia). done.
Qed.

Lemma drain_spec fuel m :
  mm_sorted (_eventMap m) -> Forall (fun e => e.1 <= _time m -> id_of e.2 <> 0) (_eventMap m) ->
  (length (_eventMap m) < fuel)%nat ->
  (drain fuel m).1 = (id_of ∘ snd) <$> filter (runnable (_time m) (_phase m)) (_eventMap m) /\
  _eventMap (drain fuel m).2 = pending (_time m) (_eventMap m).
Proof.
  revert m; induction fuel as [|fuel IH]; intros m Hs Hid Hf; [lia|].
  cbn [drain]. unfold ExecuteEvent.
  destruct (execute_loop_split (_time m) (_phase m) (_lastEvent m) (_eventMap m))
    as (dropped & rest & El & Hd & Hr).
  rewrite El in Hs, Hid, Hf |- *. rewrite El in Hr. destruct rest as [|[t d] rest].
  - rewrite Hr. cbn. destruct (nothing_runnable (_time m) (_phase m) dropped []) as [-> ->]; auto.
  - destruct Hr as [[Ht ->]|[Hrun ->]].
    + cbn [Z.eqb fst snd _eventMap].
      destruct (nothing_runnable (_time m) (_phase m) dropped ((t, d) :: rest)) as [-> ->]; auto.
    + apply Forall_app in Hid as [_ Hid]. inversion_clear Hid as [|? ? Hne Hid'].
      rewrite (proj2 (Z.eqb_neq _ _)) by (apply Hne, Hrun).
      destruct (next_runnable (_time m) (_phase m) dropped (t, d) rest) as [-> ->]; auto.
      specialize (IH (mkEventMap (_time m) (_phase m) rest d)). cbn [_eventMap _time _phase] in IH.
      destruct (drain fuel _) as [ids m''] eqn:Ed. cbn [fst snd] in *.
      destruct IH as [-> ->]; auto.
      * apply mm_sorted_app_r in Hs. eauto using mm_tail_sorted.
      * rewrite length_app in Hf; cbn in Hf; lia.
Qed.

(** ** Theorems *)

(** Every operation of the event map keeps its invariant: the timer, the
    phase mask and the last event in their widths, the store sorted by due time. *)
Theorem eventmap_invariant m id t g p :
  wf m -> is_u 32 id ->
  wf (Reset m) /\ wf (Update m t) /\ wf (SetPhase m p) /\ wf (AddPhase m p) /\
  wf (RemovePhase m p) /\ wf (ScheduleEvent m id t g p) /\ wf (RescheduleEvent m id t g p) /\
  wf (Repeat m t) /\ wf (CancelEvent m id) /\ wf (CancelEventGroup m g) /\
  wf (ExecuteEvent m).2 /\ (0 <= t -> wf (DelayEvents m t)) /\ wf (DelayEventsGroup m t g).
Proof.
  intros Hm Hid. pose proof Hm as [? ? ? ? ?].
  split_and!; auto using wf_SetPhase, wf_ScheduleEvent, wf_CancelEvent, wf_CancelEventGroup,
    wf_ExecuteEvent, wf_DelayEventsGroup, wf_Update.
  - split; cbn; auto; try (split; lia); constructor.
  - unfold AddPhase; case_if; auto with trinity.
  - unfold RemovePhase; case_if; auto with trinity.
  - unfold RescheduleEvent; auto using wf_ScheduleEvent, wf_CancelEvent.
  - unfold Repeat; auto with trinity.
  - intros Ht. split; cbn; auto. unfold is_u in *. case_if; zbool; lia.
Qed.

Definition eventmap_example : EventMap :=
  ScheduleEvent (ScheduleEvent (ScheduleEvent new_event_map 1 5000 0 0) 2 3000 4 2) 3 3000 0 1.
Lemma wf_new_event_map : wf new_event_map.
Proof. split; cbn; try (split; lia); constructor. Qed.
Lemma wf_eventmap_example : wf eventmap_example.
Proof. repeat apply wf_ScheduleEvent; try (split; lia). apply wf_new_event_map. Qed.
Lemma eventmap_invariant_witness : wf (ScheduleEvent new_event_map 1 5000 0 0).
Proof.
  apply (eventmap_invariant new_event_map 1 5000 0 0 wf_new_event_map). split; lia.
Defined.

(** The data word keeps its three fields apart: an event scheduled with a
    16-bit id, a group and a phase gives back that id, belongs to exactly that
    group, and is blocked exactly when phases are active and its own is not
    among them. *)
Theorem event_data_fields id g p g' ph :
  is_u 16 id -> 0 <= g -> 0 <= p -> 1 <= g' <= 8 -> is_u 8 ph ->
  id_of (event_data id g p) = id /\
  in_group g' (event_data id g p) = bool_decide (g' = g) /\
  blocked ph (event_data id g p) =
    bool_decide (ph <> 0 /\ 1 <= p <= 8 /\ Z.testbit ph (p - 1) = false).
Proof.
  intros Hid Hg Hp Hg' Hph. split_and!; [now apply id_of_event_data| |now apply blocked_event_data].
  rewrite in_group_testbit, testbit_event_data by (auto; lia).
  rewrite (testbit_above 16 id) by (auto; lia). repeat case_bool_decide; auto; lia.
Qed.
Lemma event_data_fields_witness :
  id_of (event_data 7 3 2) = 7 /\ in_group 3 (event_data 7 3 2) = bool_decide (3 = 3) /\
  blocked 1 (event_data 7 3 2) = bool_decide (1 <> 0 /\ 1 <= 2 <= 8 /\ Z.testbit 1 (2 - 1) = false).
Proof. apply (event_data_fields 7 3 2 3 1); unfold is_u; lia. Defined.

(** C26. A script that calls [ExecuteEvent] until it is idle runs exactly the
    events that are due and not blocked by the phase mask, each once and in due
    time order, and leaves exactly the events that are not due yet; one call
    more than there are events is always enough. *)
Theorem drain_runs_due_events m :
  wf m -> Forall (fun e => e.1 <= _time m -> id_of e.2 <> 0) (_eventMap m) ->
  let '(ids, m') := drain (S (length (_eventMap m))) m in
  ids = (id_of ∘ snd) <$> filter (runnable (_time m) (_phase m)) (_eventMap m) /\
  _eventMap m' = pending (_time m) (_eventMap m).
Proof.
  intros [] Hid. pose proof (drain_spec (S (length (_eventMap m))) m) as H.
  destruct (drain _ m) as [ids m']. apply H; auto; lia.
Qed.
Lemma drain_runs_due_events_witness :
  drain 4 (SetPhase (Update eventmap_example 4000) 1) =
  ([3], mkEventMap 4000 1 [(5000, 1)] (event_data 3 0 1)) /\
  (drain 4 (SetPhase (Update eventmap_example 4000) 1)).1 = [3].
Proof.
  split; [reflexivity|].
  pose proof (drain_runs_due_events (SetPhase (Update eventmap_example 4000) 1)) as H.
  specialize (H (wf_SetPhase _ 1 (wf_Update _ 4000 wf_eventmap_example))).
  specialize (H ltac:(apply (bool_decide_unpack _); vm_compute; exact I)).
  now destruct H as [H _].
Defined.

(** [DelayEvents(delay)] pushes every event back by the delay, up to the
    timer's own value: the time until an event grows by [min delay timer], so a
    delay at or above the timer delays by exactly the timer. *)
Theorem delay_events_shift m delay id e :
  wf m -> 0 <= delay ->
  list_find (fun e => id = id_of e.2) (_eventMap m) = Some e ->
  GetTimeUntilEvent (DelayEvents m delay) id
  = u32 (GetTimeUntilEvent m id + Z.min delay (_time m)).
Proof.
  intros [Ht _ _ _ _] Hd Hf. unfold GetTimeUntilEvent, DelayEvents; cbn.
  rewrite Hf. destruct e as [i [t d]]; cbn. rewrite uwrap_add_l. f_equal.
  unfold is_u in Ht. case_if; zbool; lia.
Qed.
Lemma delay_events_shift_witness :
  GetTimeUntilEvent (DelayEvents (Update eventmap_example 1000) 2500) 1 = 5000.
Proof.
  rewrite (delay_events_shift (Update eventmap_example 1000) 2500 1 (2%nat, (5000, 1)));
    [reflexivity|exact (wf_Update _ 1000 wf_eventmap_example)|lia|reflexivity].
Defined.
