(* ===== verification/Timer.v ===== *)
(** * Timers (src/server/shared/Utilities/Timer.h)

    The interval timer, the two trackers and the periodic timer, with the widths
    of their fields: [time_t] is a signed 64-bit integer.  Claims: an interval
    timer that is reset when it passed never drifts, a periodic timer never
    fires twice for one period, and the difference of two readings of the
    millisecond clock is exact until the clock wraps, when it is one short. *)

From stdpp Require Import base list.
From Stdlib Require Import ZArith Lia.
From S2P Require Import Prelude.
#[local] Open Scope Z_scope.

(** [getMSTimeDiff(oldMSTime, newMSTime)] *)
Definition getMSTimeDiff (oldMSTime newMSTime : Z) : Z :=
  if newMSTime <? oldMSTime then u32 (u32 (0xFFFFFFFF - oldMSTime) + newMSTime)
  else u32 (newMSTime - oldMSTime).

(** ** IntervalTimer *)

Record IntervalTimer := mkIntervalTimer { _interval : Z; _current : Z }.
Definition new_interval_timer : IntervalTimer := mkIntervalTimer 0 0.
Definition IT_Update (t : IntervalTimer) (diff : Z) : IntervalTimer :=
  let current := s64 (_current t + diff) in
  mkIntervalTimer (_interval t) (if current <? 0 then 0 else current).
Definition IT_Passed (t : IntervalTimer) : bool := _interval t <=? _current t.
(** [%=] is the remainder of C++; the remainder by zero is undefined
    ([None]). *)
Definition IT_Reset (t : IntervalTimer) : option IntervalTimer :=
  if _interval t <=? _current t then
    if _interval t =? 0 then None
    else Some (mkIntervalTimer (_interval t) (Z.rem (_current t) (_interval t)))
  else Some t.
Definition SetCurrent (t : IntervalTimer) (current : Z) : IntervalTimer := mkIntervalTimer (_interval t) current.
Definition SetInterval (t : IntervalTimer) (interval : Z) : IntervalTimer := mkIntervalTimer interval (_current t).
Definition GetInterval (t : IntervalTimer) : Z := _interval t.
Definition GetCurrent (t : IntervalTimer) : Z := _current t.

(** ** TimeTracker and TimeTrackerSmall *)

Record TimeTracker := mkTimeTracker { i_expiryTime : Z }.
Definition TT_Update (t : TimeTracker) (diff : Z) : TimeTracker := mkTimeTracker (s64 (i_expiryTime t - diff)).
Definition TT_Passed (t : TimeTracker) : bool := i_expiryTime t <=? 0.
Definition TT_Reset (t : TimeTracker) (interval : Z) : TimeTracker := mkTimeTracker interval.
Definition TT_GetExpiry (t : TimeTracker) : Z := i_expiryTime t.

Record TimeTrackerSmall := mkTimeTrackerSmall { small_expiryTime : Z }.
Definition new_tracker_small (expiry : Z) : TimeTrackerSmall := mkTimeTrackerSmall (s32 expiry).
Definition TTS_Update (t : TimeTrackerSmall) (diff : Z) : TimeTrackerSmall :=
  mkTimeTrackerSmall (s32 (small_expiryTime t - diff)).
Definition TTS_Passed (t : TimeTrackerSmall) : bool := small_expiryTime t <=? 0.
Definition TTS_Reset (t : TimeTrackerSmall) (interval : Z) : TimeTrackerSmall := mkTimeTrackerSmall (s32 interval).
Definition TTS_GetExpiry (t : TimeTrackerSmall) : Z := small_expiryTime t.

(** ** PeriodicTimer *)

Record PeriodicTimer := mkPeriodicTimer { i_period : Z; i_expireTime : Z }.
(** [Update(const uint32 diff)]: the subtraction and the addition are unsigned
    and converted back to [int32]. *)
Definition PT_Update (t : PeriodicTimer) (diff : Z) : bool * PeriodicTimer :=
  let expire := s32 (u32 (u32 (i_expireTime t) - diff)) in
  if 0 <? expire then (false, mkPeriodicTimer (i_period t) expire)
  else (true, mkPeriodicTimer (i_period t)
                (s32 (u32 (u32 expire + (if s32 diff <? i_period t then u32 (i_period t) else diff))))).
Definition SetPeriodic (t : PeriodicTimer) (period start_time : Z) : PeriodicTimer := mkPeriodicTimer period start_time.
Definition TUpdate (t : PeriodicTimer) (diff : Z) : PeriodicTimer :=
  mkPeriodicTimer (i_period t) (s32 (i_expireTime t - diff)).
Definition TPassed (t : PeriodicTimer) : bool := i_expireTime t <=? 0.
Definition TReset (t : PeriodicTimer) (diff period : Z) : PeriodicTimer :=
  mkPeriodicTimer (i_period t) (s32 (i_expireTime t + (if diff <? period then period else diff))).

(** ** Use: a timer ticked by the main loop *)

(** [timer.Update(diff); if (timer.Passed()) timer.Reset();] over many ticks:
    the timer and how many ticks it passed. *)
Fixpoint tick_all (t : IntervalTimer) (diffs : list Z) : option (IntervalTimer * list bool) :=
  match diffs with
  | [] => Some (t, [])
  | d :: diffs =>
    let t1 := IT_Update t d in
    let passed := IT_Passed t1 in
    match (if passed then IT_Reset t1 else Some t1) with
    | None => None
    | Some t2 => match tick_all t2 diffs with
                 | None => None
                 | Some (t3, l) => Some (t3, passed :: l)
                 end
    end
  end.
Definition total (diffs : list Z) : Z := foldr Z.add 0 diffs.

(** A periodic timer over many updates: which of them fired. *)
Fixpoint fire_all (t : PeriodicTimer) (diffs : list Z) : PeriodicTimer * list bool :=
  match diffs with
  | [] => (t, [])
  | d :: diffs => let '(b, t1) := PT_Update t d in
                  let '(t2, l) := fire_all t1 diffs in (t2, b :: l)
  end.

Lemma tick_step interval c d :
  0 < interval < 2 ^ 62 -> 0 <= c < interval -> 0 <= d < 2 ^ 62 ->
  let t1 := IT_Update (mkIntervalTimer interval c) d in
  IT_Passed t1 = (interval <=? c + d) /\
  (if IT_Passed t1 then IT_Reset t1 else Some t1) = Some (mkIntervalTimer interval ((c + d) mod interval)).
Proof.
  intros Hi Hc Hd. unfold IT_Update, IT_Passed, IT_Reset. cbn [_interval _current].
  rewrite swrap_id by (unfold is_s; lia). rewrite (proj2 (Z.ltb_ge (c + d) 0)) by lia. split; [done|].
  destruct (Z.leb_spec interval (c + d)).
  - rewrite (proj2 (Z.eqb_neq interval 0)) by lia. now rewrite Z.rem_mod_nonneg by lia.
  - now rewrite Z.mod_small by lia.
Qed.

(** The count of intervals passed in a tick that starts [c] into one. *)
Definition crosses (interval c d : Z) : bool := negb ((c + d) / interval =? c / interval).

(** An interval timer that is ticked and reset whenever it passed does not
    drift: after any ticks its current value is the total time modulo the
    interval, and it passed in exactly the ticks in which the total time
    reached a new multiple of the interval. *)
Theorem interval_timer_no_drift interval diffs :
  0 < interval < 2 ^ 62 -> Forall (fun d => 0 <= d < 2 ^ 62) diffs ->
  exists l, tick_all (mkIntervalTimer interval 0) diffs
            = Some (mkIntervalTimer interval (total diffs mod interval), l) /\
    length l = length diffs /\
    forall i d, diffs !! i = Some d ->
      l !! i = Some (crosses interval (total (take i diffs)) d).
Proof.
  intros Hi Hd.
  assert (H : forall c0, 0 <= c0 ->
    exists l, tick_all (mkIntervalTimer interval (c0 mod interval)) diffs
              = Some (mkIntervalTimer interval ((c0 + total diffs) mod interval), l) /\
      length l = length diffs /\
      forall i d, diffs !! i = Some d -> l !! i = Some (crosses interval (c0 + total (take i diffs)) d)).
  { induction Hd as [|d diffs Hd0 _ IH]; intros c0 Hc0.
    - exists []. cbn. rewrite Z.add_0_r. repeat split; try done.
    - pose proof (Z.mod_pos_bound c0 interval ltac:(lia)) as Hm.
      destruct (tick_step interval (c0 mod interval) d Hi Hm Hd0) as [Hp Hr]. cbn zeta in Hp, Hr.
      cbn [tick_all]. rewrite Hr, Zplus_mod_idemp_l.
      destruct (IH (c0 + d)) as (l & -> & Hl & Hat); [lia|].
      eexists; split; [cbn [total foldr]; rewrite Z.add_assoc; reflexivity|].
      split; [cbn; now rewrite Hl|]. intros [|i] e He.
      + injection He as ->. cbn. f_equal. rewrite Hp. unfold crosses. rewrite Z.add_0_r.
        pose proof (Z.div_mod c0 interval ltac:(lia)) as Hdm.
        assert (E : (c0 + e) / interval = c0 / interval + (c0 mod interval + e) / interval).
        { rewrite Hdm at 1. replace (_ + _ + e) with (c0 mod interval + e + c0 / interval * interval) by lia.
          rewrite Z.div_add by lia. lia. }
        rewrite E. destruct (Z.leb_spec interval (c0 mod interval + e)) as [Hle|Hlt].
        * assert (1 <= (c0 mod interval + e) / interval) by (apply Z.div_le_lower_bound; lia).
          symmetry. apply negb_true_iff, Z.eqb_neq. lia.
        * rewrite (Z.div_small (c0 mod interval + e)) by lia. symmetry. apply negb_false_iff, Z.eqb_eq. lia.
      + change (l !! i = Some (crosses interval (c0 + (d + total (take i diffs))) e)).
        rewrite (Hat i e He). do 2 f_equal. lia. }
  destruct (H 0) as (l & E & Hl & Hat); [lia|]. rewrite Z.mod_0_l in E by lia. exists l. done.
Qed.

Lemma interval_timer_no_drift_witness :
  tick_all (mkIntervalTimer 100 0) [60; 60; 250] = Some (mkIntervalTimer 100 70, [false; true; true]).
Proof.
  destruct (interval_timer_no_drift 100 [60; 60; 250]) as (l & E & Hl & Hat); [lia| |].
  - apply (bool_decide_unpack _); vm_compute; exact I.
  - rewrite E. pose proof (Hat 0%nat 60 eq_refl) as H0. pose proof (Hat 1%nat 60 eq_refl) as H1.
    pose proof (Hat 2%nat 250 eq_refl) as H2. destruct l as [|a [|b [|c [|]]]]; try discriminate.
    cbn in H0, H1, H2. injection H0 as ->. injection H1 as ->. injection H2 as ->. reflexivity.
Defined.

(** A periodic timer that is updated with steps shorter than its period
    fires exactly once per period: it fires in the update in which the time
    since the start first reaches the start time, and after it has fired, again
    when another period is complete; never in two updates for one period, and
    its remaining time stays positive and at most a period. *)
Theorem periodic_timer_once_per_period period start diffs :
  0 < period < 2 ^ 30 -> 0 < start <= period -> Forall (fun d => 0 <= d < period) diffs ->
  let '(t, l) := fire_all (mkPeriodicTimer period start) diffs in
  0 < i_expireTime t <= period /\ i_period t = period /\
  forall i d, diffs !! i = Some d ->
    l !! i = Some (crosses period (period - start + total (take i diffs)) d).
Proof.
  intros Hp Hs Hd. revert start Hs. induction Hd as [|d diffs Hd0 _ IH]; intros start Hs.
  - cbn. repeat split; try lia. intros i d Hi. now rewrite lookup_nil in Hi.
  - cbn [fire_all]. unfold PT_Update. cbn [i_period i_expireTime].
    assert (E1 : s32 (u32 (u32 start - d)) = start - d).
    { rewrite swrap_uwrap by lia. unfold swrap, uwrap. rewrite (Z.mod_small start) by lia.
      rewrite Z.mod_small by lia. lia. }
    rewrite E1, (swrap_id 32 d) by (unfold is_s; lia). rewrite (proj2 (Z.ltb_lt d period)) by lia.
    assert (E2 : s32 (u32 (u32 (start - d) + u32 period)) = start - d + period).
    { rewrite uwrap_add_l, uwrap_add_r, swrap_uwrap by lia. apply swrap_id; [lia|]. unfold is_s; lia. }
    rewrite E2. pose proof (Z.div_mod (period - start) period ltac:(lia)) as _.
    destruct (Z.ltb_spec 0 (start - d)) as [Hpos|Hneg].
    + specialize (IH (start - d) ltac:(lia)). destruct (fire_all _ diffs) as [t l].
      destruct IH as (H1 & H2 & Hat). split; [done|]. split; [done|]. intros [|i] e He.
      * injection He as ->. cbn. f_equal. unfold crosses. rewrite Z.add_0_r, !Z.div_small by lia. done.
      * change (l !! i = Some (crosses period (period - start + (d + total (take i diffs))) e)).
        rewrite (Hat i e He). do 2 f_equal. lia.
    + specialize (IH (start - d + period) ltac:(lia)). destruct (fire_all _ diffs) as [t l].
      destruct IH as (H1 & H2 & Hat). split; [done|]. split; [done|]. intros [|i] e He.
      * injection He as ->. cbn. f_equal. unfold crosses. rewrite Z.add_0_r.
        rewrite (Z.div_small (period - start)) by lia.
        assert ((period - start + e) / period = 1) as -> by (symmetry; apply Z.div_unique with (period - start + e - period); lia).
        done.
      * change (l !! i = Some (crosses period (period - start + (d + total (take i diffs))) e)).
        rewrite (Hat i e He). f_equal. unfold crosses.
        replace (period - start + (d + total (take i diffs)))
          with (period - (start - d + period) + total (take i diffs) + 1 * period) by lia.
        replace (period - (start - d + period) + total (take i diffs) + 1 * period + e)
          with (period - (start - d + period) + total (take i diffs) + e + 1 * period) by lia.
        rewrite !Z.div_add by lia. f_equal.
        destruct (Z.eqb_spec ((period - (start - d + period) + total (take i diffs) + e) / period)
                    ((period - (start - d + period) + total (take i diffs)) / period));
          symmetry; [apply Z.eqb_eq|apply Z.eqb_neq]; lia.
Qed.

Lemma periodic_timer_once_per_period_witness :
  fire_all (mkPeriodicTimer 100 50) [40; 40; 90; 30] = (mkPeriodicTimer 100 50, [false; true; true; false]).
Proof.
  pose proof (periodic_timer_once_per_period 100 50 [40; 40; 90; 30]) as H.
  assert (E : fire_all (mkPeriodicTimer 100 50) [40; 40; 90; 30] = (mkPeriodicTimer 100 50, [false; true; true; false]))
    by (vm_compute; reflexivity).
  rewrite E in H. destruct H as (_ & _ & H); [lia|lia| |].
  - apply (bool_decide_unpack _); vm_compute; exact I.
  - pose proof (H 1%nat 40 eq_refl) as H1. vm_compute in H1. exact E.
Defined.

(** The difference of two readings of the 32-bit millisecond clock: exact
    when the clock did not wrap between them; when it did, one millisecond less
    than the time that passed. *)
Theorem getMSTimeDiff_exact_or_one_short start elapsed :
  is_u 32 start -> 0 <= elapsed < 2 ^ 32 ->
  getMSTimeDiff start (u32 (start + elapsed)) =
    if start + elapsed <? 2 ^ 32 then elapsed else elapsed - 1.
Proof.
  unfold is_u, getMSTimeDiff, uwrap. intros Hs He. destruct (Z.ltb_spec (start + elapsed) (2 ^ 32)).
  - rewrite (Z.mod_small (start + elapsed)) by lia. rewrite (proj2 (Z.ltb_ge _ _)) by lia.
    rewrite Z.mod_small; lia.
  - assert (E : (start + elapsed) mod 2 ^ 32 = start + elapsed - 2 ^ 32).
    { symmetry. apply Z.mod_unique with 1; lia. }
    rewrite E, (proj2 (Z.ltb_lt _ _)) by lia. rewrite (Z.mod_small (_ - start)) by lia.
    rewrite Z.mod_small; lia.
Qed.

Lemma getMSTimeDiff_exact_or_one_short_witness : getMSTimeDiff 4294967290 (u32 (4294967290 + 10)) = 9.
Proof. apply (getMSTimeDiff_exact_or_one_short 4294967290 10); [unfold is_u|]; lia. Defined.
