(* ===== verification/EventProcessor.v ===== *)
(** * The delayed events of objects (src/server/shared/Utilities/EventProcessor.h
    and EventProcessor.cpp)

    A processor keeps pointers to event objects in a multimap by due time.  The
    objects live in a heap, the map from pointers to the fields of the base
    class; [delete] takes a pointer out of it, and using a pointer that is not
    in it is [None].  The virtual [Execute], [Abort] and [IsDeletable] of the
    derived classes, and the world [W] they work on, are parameters: what an
    event does to the processor while it runs is a list of actions (create an
    event, add one, mark one for abortion).  A virtual destructor is taken as the
    end of the call before it: its effect on the world is part of that call's.

    The claims: as long as events schedule only into the future and do not
    misuse pointers, an update ends, handles every due event once in order of
    time, executes none that was marked for abortion, and leaves a well-formed
    processor with nothing due; [KillAllEvents] aborts every event once, deletes
    what it may and leaves the rest marked, so that no update executes it. *)

From stdpp Require Import base gmap list sorting.
From Stdlib Require Import ZArith Lia.
From S2P Require Import Prelude Multimap.
#[local] Open Scope Z_scope.

Record BasicEvent := mkBasicEvent { to_Abort : bool; m_addTime : Z; m_execTime : Z }.
Definition new_event : BasicEvent := mkBasicEvent false 0 0.

Record EventProcessor := mkEventProcessor {
  m_time : Z;
  m_events : list (Z * Z);
  m_aborting : bool;
  heap : gmap Z BasicEvent
}.
Definition new_processor : EventProcessor := mkEventProcessor 0 [] false ∅.

Definition with_events (s : EventProcessor) (l : list (Z * Z)) : EventProcessor :=
  mkEventProcessor (m_time s) l (m_aborting s) (heap s).
Definition with_heap (s : EventProcessor) (h : gmap Z BasicEvent) : EventProcessor :=
  mkEventProcessor (m_time s) (m_events s) (m_aborting s) h.

(** [AddEvent(Event, e_time, set_addtime)]; [None] is a dangling pointer. *)
Definition AddEvent (s : EventProcessor) (ev e_time : Z) (set_addtime : bool) : option EventProcessor :=
  match heap s !! ev with
  | None => None
  | Some e =>
    let e' := mkBasicEvent (to_Abort e) (if set_addtime then m_time s else m_addTime e) e_time in
    Some (mkEventProcessor (m_time s) (mm_insert e_time ev (m_events s)) (m_aborting s) (<[ev := e']> (heap s)))
  end.
Definition CalculateTime (s : EventProcessor) (t_offset : Z) : Z := u64 (m_time s + t_offset).

(** What an event may do to the processor while it runs. *)
Inductive act :=
| ANew (ev : Z)
| AAdd (ev e_time : Z) (set_addtime : bool)
| AMark (ev : Z).
Definition apply_act (s : EventProcessor) (a : act) : option EventProcessor :=
  match a with
  | ANew ev => Some (with_heap s (<[ev := new_event]> (heap s)))
  | AAdd ev t b => AddEvent s ev t b
  | AMark ev => match heap s !! ev with
                | None => None
                | Some e => Some (with_heap s (<[ev := mkBasicEvent true (m_addTime e) (m_execTime e)]> (heap s)))
                end
  end.
Fixpoint apply_acts (s : EventProcessor) (l : list act) : option EventProcessor :=
  match l with
  | [] => Some s
  | a :: l => match apply_act s a with None => None | Some s' => apply_acts s' l end
  end.

(** What the processor did to an event. *)
Inductive done_to := Executed (ev : Z) | Aborted (ev : Z).
Definition done_ptr (d : done_to) : Z := match d with Executed e | Aborted e => e end.

(** The place of an entry of key [k] at [i] after the insertions of [acts]:
    those with a smaller key go before it. *)
Definition shift (i : nat) (k : Z) (acts : list act) : nat :=
  (i + length (filter (fun a => match a with AAdd _ t _ => (t <? k)%Z | _ => false end = true) acts))%nat.

(** An event for the witnesses: the odd ones run again after 50 ms, the others
    make a new event due in 10 ms and are done; the world counts the calls. *)
Definition sample_execute (w : Z) (s : EventProcessor) (ev t p_time : Z) : Z * bool * list act :=
  if 2 ^ 64 <=? t + 50 then (w, true, [])
  else if Z.odd ev then (w + 1, false, [AAdd ev (t + 50) true])
  else let f := fresh (dom (heap s)) in (w + 1, true, [ANew f; AAdd f (t + 10) false]).
Definition sample_abort (w : Z) (_ : EventProcessor) (_ _ : Z) : Z * list act := (w - 1, []).
(** Three events: 4 and 6 due at 100 and 120 (6 marked), 7 due at 110, 8 at 900. *)
Definition sample_processor : EventProcessor :=
  mkEventProcessor 90 [(100, 4); (110, 7); (120, 6); (900, 8)] false
    (<[4 := new_event]> (<[7 := new_event]> (<[6 := mkBasicEvent true 0 120]> (<[8 := new_event]> ∅)))).

Section Processor.
Context {W : Type}.
(** [Execute(e_time, p_time)] of an event: whether it is done for good, and
    what it did to the processor; [Abort(e_time)]; [IsDeletable()]. *)
Context (Execute : W -> EventProcessor -> Z -> Z -> Z -> W * bool * list act).
Context (Abort : W -> EventProcessor -> Z -> Z -> W * list act).
Context (IsDeletable : W -> Z -> bool).

(** One round of the main loop for the event taken from the queue. *)
Definition run_event (w : W) (s : EventProcessor) (ev p_time : Z) : option (done_to * W * EventProcessor) :=
  match heap s !! ev with
  | None => None
  | Some e =>
    if negb (to_Abort e) then
      let '(w', finished, acts) := Execute w s ev (m_time s) p_time in
      match apply_acts s acts with
      | None => None
      | Some s' => Some (Executed ev, w', if finished : bool then with_heap s' (delete ev (heap s')) else s')
      end
    else
      let '(w', acts) := Abort w s ev (m_time s) in
      match apply_acts s acts with
      | None => None
      | Some s' => Some (Aborted ev, w', with_heap s' (delete ev (heap s')))
      end
  end.

(** The main loop; [None] is a dangling pointer or, at the end of the fuel, a
    loop that did not end. *)
Fixpoint update_loop (fuel : nat) (w : W) (s : EventProcessor) (p_time : Z)
    : option (list done_to * W * EventProcessor) :=
  match m_events s with
  | (t, ev) :: rest =>
    if t <=? m_time s then
      match fuel with
      | O => None
      | S fuel =>
        match run_event w (with_events s rest) ev p_time with
        | None => None
        | Some (d, w1, s1) => match update_loop fuel w1 s1 p_time with
                              | None => None
                              | Some (l, w2, s2) => Some (d :: l, w2, s2)
                              end
        end
      end
    else Some ([], w, s)
  | [] => Some ([], w, s)
  end.
Definition advance (s : EventProcessor) (p_time : Z) : EventProcessor :=
  mkEventProcessor (u64 (m_time s + p_time)) (m_events s) (m_aborting s) (heap s).
Definition Update (fuel : nat) (w : W) (s : EventProcessor) (p_time : Z) :
    option (list done_to * W * EventProcessor) :=
  update_loop fuel w (advance s p_time) p_time.

Definition mark_abort (s : EventProcessor) (ev : Z) (e : BasicEvent) : EventProcessor :=
  with_heap s (<[ev := mkBasicEvent true (m_addTime e) (m_execTime e)]> (heap s)).

(** The loop of [KillAllEvents], with the iterator [i] as a position in the
    queue.  [++i] comes before [Abort], whose insertions shift both iterators;
    an iterator at the end stays there. *)
Fixpoint kill_loop (fuel : nat) (force : bool) (w : W) (s : EventProcessor) (i : nat)
    : option (list done_to * W * EventProcessor) :=
  match drop i (m_events s) with
  | [] => Some ([], w, s)
  | (t, ev) :: rest =>
    match fuel, heap s !! ev with
    | S fuel, Some e =>
      let s1 := mark_abort s ev e in
      let '(w', acts) := Abort w s1 ev (m_time s1) in
      match apply_acts s1 acts with
      | None => None
      | Some s2 =>
        let i' := match rest with [] => length (m_events s2) | r :: _ => shift (S i) r.1 acts end in
        let next :=
          if force || IsDeletable w' ev then
            let s3 := with_heap s2 (delete ev (heap s2)) in
            if negb force
            then kill_loop fuel force w' (with_events s3 (delete (shift i t acts) (m_events s3))) (i' - 1)
            else kill_loop fuel force w' s3 i'
          else kill_loop fuel force w' s2 i' in
        match next with
        | None => None
        | Some (l, w2, s4) => Some (Aborted ev :: l, w2, s4)
        end
      end
    | _, _ => None
    end
  end.
Definition KillAllEvents (fuel : nat) (w : W) (s : EventProcessor) (force : bool)
    : option (list done_to * W * EventProcessor) :=
  match kill_loop fuel force w (mkEventProcessor (m_time s) (m_events s) true (heap s)) 0 with
  | None => None
  | Some (l, w', s') => Some (l, w', if force then with_events s' [] else s')
  end.

(** ** Well-formedness and the contract of the events *)

Record wf (s : EventProcessor) : Prop := mk_wf {
  wf_sorted : mm_sorted (m_events s);
  wf_nodup : NoDup (map snd (m_events s));
  wf_heap : Forall (fun e => is_Some (heap s !! e.2)) (m_events s)
}.

(** The actions of a running event: new objects at new addresses, events added
    once and into the future, and the event itself only if it stays alive. *)
Fixpoint acts_ok (s : EventProcessor) (self : Z) (finished : bool) (l : list act) : Prop :=
  match l with
  | [] => True
  | a :: l =>
    match a with
    | ANew ev => heap s !! ev = None
    | AAdd ev t _ => m_time s < t < 2 ^ 64 /\ is_Some (heap s !! ev) /\ (ev ∉ map snd (m_events s)) /\
                     (finished = true -> ev <> self)
    | AMark ev => is_Some (heap s !! ev)
    end /\
    match apply_act s a with None => False | Some s' => acts_ok s' self finished l end
  end.
Definition behaved : Prop :=
  forall w s ev p_time, wf s -> (ev ∉ map snd (m_events s)) -> is_Some (heap s !! ev) ->
    (let '(_, finished, acts) := Execute w s ev (m_time s) p_time in acts_ok s ev finished acts) /\
    (let '(_, acts) := Abort w s ev (m_time s) in acts_ok s ev true acts).
Definition quiet : Prop := forall w s ev t, (Abort w s ev t).2 = [].

(** The entries due now, in order. *)
Definition due (s : EventProcessor) : list (Z * Z) := filter (fun e => e.1 <= m_time s) (m_events s).
Definition marked (s : EventProcessor) (ev : Z) : Prop :=
  exists e, heap s !! ev = Some e /\ to_Abort e = true.

(** What the actions of an event may change. *)
Record acted (self : Z) (finished : bool) (s s' : EventProcessor) : Prop := {
  acted_wf : wf s';
  acted_time : m_time s' = m_time s;
  acted_due : due s' = due s;
  acted_kept : forall x, x ∈ m_events s -> x ∈ m_events s';
  acted_heap : forall ev, is_Some (heap s !! ev) -> is_Some (heap s' !! ev);
  acted_marked : forall ev, marked s ev -> marked s' ev;
  acted_self : finished = true -> self ∉ map snd (m_events s) -> self ∉ map snd (m_events s')
}.

Lemma filter_insert_later t ev l m :
  m < t -> filter (fun e : Z * Z => e.1 <= m) (mm_insert t ev l) = filter (fun e => e.1 <= m) l.
Proof.
  intros Ht. induction l as [|[k v] l IH]; cbn [mm_insert].
  - rewrite filter_cons_False by (cbn; lia). done.
  - case_if; rewrite !filter_cons; cbn.
    + repeat case_decide; try lia; done.
    + rewrite IH. done.
Qed.

Lemma AddEvent_acted s self fin ev t b s' :
  wf s -> m_time s < t -> (ev ∉ map snd (m_events s)) -> (fin = true -> ev <> self) ->
  AddEvent s ev t b = Some s' -> acted self fin s s'.
Proof.
  intros [Hs Hn Hh] Ht Hev Hself. unfold AddEvent.
  destruct (heap s !! ev) as [e|] eqn:He; [|done]. intros [= <-].
  assert (Hup : forall x, is_Some (heap s !! x) ->
    is_Some (<[ev := mkBasicEvent (to_Abort e) (if b then m_time s else m_addTime e) t]> (heap s) !! x))
    by (intros x Hx; destruct (decide (x = ev)) as [->|]; simplify_map_eq; eauto).
  split; cbn.
  - split; cbn; [now apply mm_insert_sorted| |].
    + rewrite mm_insert_perm. cbn. now constructor.
    + apply mm_insert_Forall; [cbn; simplify_map_eq; eauto|].
      eapply Forall_impl; [apply Hh|]. intros x. apply Hup.
  - done.
  - unfold due; cbn. now apply filter_insert_later.
  - intros x Hx. rewrite elem_of_mm_insert. now right.
  - apply Hup.
  - intros x (e0 & Hx & Hm). unfold marked; cbn. destruct (decide (x = ev)) as [->|]; simplify_map_eq; eauto.
  - intros Hf Hnot. rewrite mm_insert_perm. cbn. specialize (Hself Hf). rewrite not_elem_of_cons. done.
Qed.

(** Changing an object, or making one, leaves the queue alone. *)
Lemma with_heap_acted s self fin ev e :
  wf s -> (marked s ev -> to_Abort e = true) -> acted self fin s (with_heap s (<[ev := e]> (heap s))).
Proof.
  intros [Hs Hn Hh] Hm. split; cbn; try done.
  - split; cbn; [done|done|]. eapply Forall_impl; [apply Hh|].
    intros x Hx. cbn. destruct (decide (x.2 = ev)) as [->|]; simplify_map_eq; eauto.
  - intros x Hx. destruct (decide (x = ev)) as [->|]; simplify_map_eq; eauto.
  - intros x (e0 & Hx & Ht). unfold marked; cbn. destruct (decide (x = ev)) as [->|]; simplify_map_eq; eauto.
    exists e. split; [done|]. apply Hm. exists e0. done.
Qed.

Lemma acted_refl self fin s : wf s -> acted self fin s s.
Proof. intros. split; auto. Qed.
Lemma acted_trans self fin s1 s2 s3 : acted self fin s1 s2 -> acted self fin s2 s3 -> acted self fin s1 s3.
Proof. intros [] []. split; try congruence; auto. Qed.

Lemma act_acted s self fin a s' l :
  wf s -> acts_ok s self fin (a :: l) -> apply_act s a = Some s' -> acted self fin s s'.
Proof.
  intros Hwf [Ha _]. destruct a as [ev|ev t b|ev]; cbn.
  - intros [= <-]. apply with_heap_acted; [done|]. intros (e & He & _). congruence.
  - destruct Ha as ((Ht & _) & _ & Hev & Hs). now apply AddEvent_acted.
  - destruct (heap s !! ev) as [e|]; [|done]. intros [= <-]. now apply with_heap_acted.
Qed.

Lemma acts_acted s self fin l :
  wf s -> acts_ok s self fin l -> exists s', apply_acts s l = Some s' /\ acted self fin s s'.
Proof.
  revert s; induction l as [|a l IH]; intros s Hwf Hok; cbn [apply_acts].
  - exists s. auto using acted_refl.
  - pose proof Hok as [_ Hl]. destruct (apply_act s a) as [s1|] eqn:E; [|done].
    pose proof (act_acted _ _ _ _ _ _ Hwf Hok E) as H1.
    destruct (IH s1) as (s' & Es & H2); [apply H1|done|].
    exists s'. split; [done|]. now apply acted_trans with s1.
Qed.

(** ** The main loop *)

Lemma wf_tail s e rest : wf s -> m_events s = e :: rest ->
  wf (with_events s rest) /\ (e.2 ∉ map snd rest) /\ is_Some (heap s !! e.2).
Proof.
  intros [Hs Hn Hh] E. rewrite E in *. inversion Hn; inversion Hh; subst.
  split; [|done]. split; cbn; [now apply mm_tail_sorted in Hs|done|done].
Qed.

Lemma due_cons s t ev rest : m_events s = (t, ev) :: rest -> t <= m_time s ->
  due s = (t, ev) :: due (with_events s rest).
Proof. intros E Ht. unfold due. rewrite E, filter_cons_True by done. done. Qed.

(** Nothing is due when the head of the queue is not. *)
Lemma due_none s : wf s -> Forall (fun e => m_time s < e.1) (m_events s) <-> due s = [].
Proof.
  intros _. unfold due. induction (m_events s) as [|e l IH]; [done|].
  rewrite Forall_cons, filter_cons. case_decide; [split; [lia|done]|]. rewrite IH. split; [easy|]. split; [lia|done].
Qed.
Lemma head_later s t ev rest : wf s -> m_events s = (t, ev) :: rest -> m_time s < t -> 
  Forall (fun e => m_time s < e.1) (m_events s).
Proof.
  intros [Hs _ _] E Ht. rewrite E in *. apply Forall_forall. intros x [->|Hx]%elem_of_cons; [done|].
  apply (mm_head_least _ _ _ Hs) in Hx. cbn in Hx. lia.
Qed.

(** Deleting an event that is not queued. *)
Lemma delete_wf s ev : wf s -> (ev ∉ map snd (m_events s)) -> wf (with_heap s (delete ev (heap s))).
Proof.
  intros [Hs Hn Hh] Hev. split; cbn; [done|done|]. rewrite Forall_forall in *. intros x Hx.
  rewrite lookup_delete_ne; [now apply Hh|]. intros ->. apply Hev. now apply list_elem_of_fmap_2.
Qed.
Lemma delete_marked s ev x : x <> ev -> marked s x -> marked (with_heap s (delete ev (heap s))) x.
Proof. intros Hx (e & He & Hm). exists e. cbn. now rewrite lookup_delete_ne by congruence. Qed.

(** What one round does. *)
Record ran (ev : Z) (s : EventProcessor) (d : done_to) (s' : EventProcessor) : Prop := mk_ran {
  ran_ptr : done_ptr d = ev;
  ran_executed : d = Executed ev -> ~ marked s ev;
  ran_wf : wf s';
  ran_time : m_time s' = m_time s;
  ran_due : due s' = due s;
  ran_kept : forall x, x ∈ m_events s -> x ∈ m_events s';
  ran_marked : forall x, x <> ev -> marked s x -> marked s' x
}.

Lemma acted_ran ev (fin : bool) s s' d :
  acted ev fin s s' -> (ev ∉ map snd (m_events s)) -> done_ptr d = ev -> (d = Executed ev -> ~ marked s ev) ->
  ran ev s d (if fin then with_heap s' (delete ev (heap s')) else s').
Proof.
  intros [] Hev Hd Hm. destruct fin; constructor; cbn; auto using delete_wf, delete_marked.
Qed.

Lemma run_event_ran w s ev p_time :
  behaved -> wf s -> (ev ∉ map snd (m_events s)) -> is_Some (heap s !! ev) ->
  exists d w' s', run_event w s ev p_time = Some (d, w', s') /\ ran ev s d s'.
Proof.
  intros Hb Hwf Hev [e He]. destruct (Hb w s ev p_time Hwf Hev) as [Hx Ha]; [eauto|].
  unfold run_event. rewrite He. case_if; zbool.
  - destruct (Execute w s ev (m_time s) p_time) as [[w' fin] acts].
    destruct (acts_acted _ _ _ _ Hwf Hx) as (s' & -> & Hs'). do 3 eexists. split; [reflexivity|].
    apply acted_ran; [done|done|done|]. intros _ (e' & He' & Hm). congruence.
  - destruct (Abort w s ev (m_time s)) as [w' acts].
    destruct (acts_acted _ _ _ _ Hwf Ha) as (s' & -> & Hs'). do 3 eexists. split; [reflexivity|].
    apply (acted_ran ev true); done.
Qed.

Lemma NoDup_due s : wf s -> NoDup (map snd (due s)).
Proof. intros [_ Hn _]. unfold due. eapply sublist_NoDup; [apply Hn|]. apply fmap_sublist, sublist_filter. Qed.

Record updated (s : EventProcessor) (log : list done_to) (s' : EventProcessor) : Prop := mk_updated {
  updated_log : map done_ptr log = map snd (due s);
  updated_marked : forall ev, marked s ev -> Executed ev ∉ log;
  updated_wf : wf s';
  updated_time : m_time s' = m_time s;
  updated_due : Forall (fun e => m_time s' < e.1) (m_events s');
  updated_kept : forall x, x ∈ m_events s -> m_time s < x.1 -> x ∈ m_events s'
}.

Lemma updated_nil s : wf s -> Forall (fun e => m_time s < e.1) (m_events s) -> updated s [] s.
Proof.
  intros Hwf Hl. constructor; auto.
  - now rewrite (proj1 (due_none s Hwf) Hl).
  - intros ev _. apply not_elem_of_nil.
Qed.

Lemma updated_cons s t ev rest d s1 log s' :
  wf s -> m_events s = (t, ev) :: rest -> t <= m_time s ->
  ran ev (with_events s rest) d s1 -> updated s1 log s' -> updated s (d :: log) s'.
Proof.
  intros Hwf E Ht [] []. destruct (wf_tail _ _ _ Hwf E) as (Hwf1 & Hev & _).
  assert (Hlog : map done_ptr log = map snd (due (with_events s rest))) by (rewrite updated_log0; now f_equal).
  constructor; auto.
  - rewrite (due_cons _ _ _ _ E Ht). cbn [map done_ptr fst snd]. now rewrite ran_ptr0, Hlog.
  - intros x Hx [Hd|Hl]%elem_of_cons.
    + cbn in *. subst d. cbn in *. subst x. now apply ran_executed0.
    + destruct (decide (x = ev)) as [->|Hne]; [|now apply (updated_marked0 x); [apply ran_marked0|]].
      pose proof (NoDup_due s Hwf) as Hn. rewrite (due_cons _ _ _ _ E Ht) in Hn.
      cbn [map snd] in Hn. apply NoDup_cons in Hn as [Hn _]. apply Hn. rewrite <- Hlog.
      now apply (list_elem_of_fmap_2 done_ptr) in Hl.
  - cbn in *. congruence.
  - intros x Hx Hlt. rewrite E in Hx. apply elem_of_cons in Hx as [->|Hx]; [cbn in Hlt; lia|].
    apply updated_kept0; [now apply ran_kept0|]. cbn in *. lia.
Qed.

Lemma update_loop_runs fuel w s p_time :
  behaved -> wf s -> (length (due s) <= fuel)%nat ->
  exists log w' s', update_loop fuel w s p_time = Some (log, w', s') /\ updated s log s'.
Proof.
  intros Hb. revert w s. induction fuel as [|fuel IH]; intros w s Hwf Hfuel; cbn [update_loop];
    destruct (m_events s) as [|[t ev] rest] eqn:E.
  all: try (do 3 eexists; split; [reflexivity|apply updated_nil; [done|rewrite E; constructor]]).
  all: case_if; zbool; [|do 3 eexists; split; [reflexivity|]; apply updated_nil; [done|];
    now apply (head_later _ _ _ _ Hwf E)].
  all: rewrite (due_cons _ _ _ _ E E0) in Hfuel; cbn [length] in Hfuel.
  1: lia.
  destruct (wf_tail _ _ _ Hwf E) as (Hwf1 & Hev & Hh).
  destruct (run_event_ran w _ ev p_time Hb Hwf1 Hev Hh) as (d & w1 & s1 & -> & Hr).
  destruct (IH w1 s1) as (log & w' & s' & -> & Hu); [apply Hr|rewrite (ran_due _ _ _ _ Hr); lia|].
  do 3 eexists. split; [reflexivity|]. now apply (updated_cons _ t ev rest d s1).
Qed.

(** C37. While events behave, an update with fuel for the due entries ends; it
    handles every due event once, in order of time, executes none that was
    marked for abortion, leaves a well-formed queue in which everything is due
    later, and keeps every entry that was not due. *)
Theorem update_runs_due_events fuel w s p_time :
  behaved -> wf s -> (length (due (advance s p_time)) <= fuel)%nat ->
  exists log w' s',
    Update fuel w s p_time = Some (log, w', s') /\
    map done_ptr log = map snd (filter (fun e => e.1 <= u64 (m_time s + p_time)) (m_events s)) /\
    (forall ev, marked s ev -> Executed ev ∉ log) /\
    wf s' /\ m_time s' = u64 (m_time s + p_time) /\
    Forall (fun e => m_time s' < e.1) (m_events s') /\
    (forall x, x ∈ m_events s -> m_time s' < x.1 -> x ∈ m_events s').
Proof.
  intros Hb [] Hf. destruct (update_loop_runs fuel w (advance s p_time) p_time Hb) as (log & w' & s' & E & []);
    [constructor; done|done|].
  exists log, w', s'. cbn in updated_time0. rewrite updated_time0 in *. repeat (split; [done|]). done.
Qed.

(** ** Killing all events *)

(** From the entries [rest] at the iterator on: which of them are left, and what
    became of the objects; [l] is what is left in the end. *)
Record killed (force : bool) (kept rest : list (Z * Z)) (s : EventProcessor)
    (log : list done_to) (s' : EventProcessor) (l : list (Z * Z)) : Prop := mk_killed {
  killed_log : log = map (fun e => Aborted e.2) rest;
  killed_events : m_events s' = kept ++ (if force then rest else l);
  killed_left : sublist l rest;
  killed_force : force = true -> l = [];
  killed_objects : forall x, x ∈ rest -> (x ∈ l /\ marked s' x.2) \/ ((x ∉ l) /\ heap s' !! x.2 = None);
  killed_others : forall p, (p ∉ map snd rest) -> heap s' !! p = heap s !! p;
  killed_time : m_time s' = m_time s
}.

Lemma killed_cons force kept kept1 t ev e (gone : bool) rest s s1 log s' l :
  killed force kept1 rest s1 log s' l -> NoDup (map snd ((t, ev) :: rest)) ->
  heap s1 !! ev = (if gone then None else Some e) -> to_Abort e = true ->
  (forall p, p <> ev -> heap s1 !! p = heap s !! p) -> m_time s1 = m_time s ->
  (force = true -> gone = true) ->
  kept1 = (if gone && negb force then kept else kept ++ [(t, ev)]) ->
  killed force kept ((t, ev) :: rest) s (Aborted ev :: log) s' (if gone then l else (t, ev) :: l).
Proof.
  intros [] Hn He Hm Hp Ht Hf ->. cbn [map snd] in Hn. apply NoDup_cons in Hn as [Hn _].
  assert (Hin : (t, ev) ∉ rest) by (intros Hx; apply Hn; now apply (list_elem_of_fmap_2 snd) in Hx).
  constructor.
  - cbn. now f_equal.
  - rewrite killed_events0. destruct gone, force; cbn; rewrite <- ?app_assoc; try done.
  - destruct gone; now constructor.
  - intros H. rewrite (Hf H). auto.
  - specialize (killed_others0 ev Hn). intros x [->|Hx]%elem_of_cons; cbn [snd].
    + destruct gone.
      * right. split; [|congruence]. intros Hx. apply Hin. eapply elem_of_sublist; eassumption.
      * left. split; [left|]. exists e. split; congruence.
    + assert (x <> (t, ev)) by congruence.
      destruct (killed_objects0 x Hx), gone; rewrite ?elem_of_cons; intuition.
  - intros p [Hpe Hpr]%not_elem_of_cons. rewrite killed_others0 by done. now apply Hp.
  - congruence.
Qed.

Lemma kill_loop_killed (force : bool) fuel w s kept rest :
  quiet -> m_events s = kept ++ rest -> NoDup (map snd rest) ->
  Forall (fun e => is_Some (heap s !! e.2)) rest -> (length rest <= fuel)%nat ->
  exists log w' s' l, kill_loop fuel force w s (length kept) = Some (log, w', s') /\
    killed force kept rest s log s' l.
Proof.
  intros Hq. revert w s kept rest.
  induction fuel as [|fuel IH]; intros w s kept [|[t ev] rest] E Hn Hh Hf; cbn in Hf; try lia;
    cbn [kill_loop]; rewrite E, drop_app_length.
  1, 2: exists [], w, s, []; split; [done|]; constructor; rewrite ?E; try (now destruct force); set_solver.
  apply Forall_cons in Hh as [[e He] Hh]. cbn [snd] in He. rewrite He.
  set (s1 := mark_abort s ev e). specialize (Hq w s1 ev (m_time s1)).
  destruct (Abort w s1 ev (m_time s1)) as [w' acts]. cbn in Hq. subst acts. cbn [apply_acts].
  unfold shift. rewrite filter_nil. cbn [length]. rewrite Nat.add_0_r.
  replace (match rest with [] => _ | _ => _ end) with (S (length kept))
    by (destruct rest; cbn; rewrite ?E, ?length_app; cbn; lia).
  assert (Hn' := Hn). cbn [map snd] in Hn'. apply NoDup_cons in Hn' as [Hev Hn'].
  set (gone := force || IsDeletable w' ev).
  set (kept1 := if gone && negb force then kept else kept ++ [(t, ev)]).
  set (s2 := mkEventProcessor (m_time s) (kept1 ++ rest) (m_aborting s)
               (if gone then delete ev (heap s1) else heap s1)).
  assert (Hother : forall p, p <> ev -> heap s2 !! p = heap s !! p)
    by (intros p Hp; subst s2; cbn; destruct gone; cbn; now simplify_map_eq).
  destruct (IH w' s2 kept1 rest) as (log & w2 & s' & l & Hl & Hk); [done|done| |lia|].
  { rewrite Forall_forall in *. intros x Hx. rewrite Hother; [now apply Hh|].
    intros Heq. apply Hev. rewrite <- Heq. now apply list_elem_of_fmap_2. }
  exists (Aborted ev :: log), w2, s', (if gone then l else (t, ev) :: l). split.
  - match goal with |- context [match ?X with _ => _ end = _] => replace X with (kill_loop fuel force w' s2 (length kept1)) end.
    + now rewrite Hl.
    + subst s2 kept1. unfold with_events, with_heap. destruct s as [m q a h]; cbn in E |- *; subst q.
      destruct gone, force; cbn;
        rewrite ?length_app, ?Nat.add_1_r, ?delete_middle, ?Nat.sub_0_r, <- ?app_assoc; try done.
  - eapply (killed_cons force kept kept1 t ev (mkBasicEvent true (m_addTime e) (m_execTime e)) gone);
      [eassumption|done| |done|done|done|now intros ->|done].
    subst s2; cbn; destruct gone; cbn; now simplify_map_eq.
Qed.

(** When aborting an event does not use the processor, [KillAllEvents] ends
    and aborts every event once, in order; an event that stays is marked, so that
    no later update executes it, one that does not is destroyed, and when forced
    nothing stays.  The queue stays well-formed and other objects unchanged. *)
Theorem kill_all_aborts fuel w s force :
  quiet -> wf s -> (length (m_events s) <= fuel)%nat ->
  exists log w' s',
    KillAllEvents fuel w s force = Some (log, w', s') /\
    log = map (fun e => Aborted e.2) (m_events s) /\
    wf s' /\ m_time s' = m_time s /\ sublist (m_events s') (m_events s) /\
    (force = true -> m_events s' = []) /\
    (forall x, x ∈ m_events s ->
      (x ∈ m_events s' /\ marked s' x.2) \/ ((x ∉ m_events s') /\ heap s' !! x.2 = None)) /\
    (forall p, (p ∉ map snd (m_events s)) -> heap s' !! p = heap s !! p).
Proof.
  intros Hq [Hs Hn Hh] Hf.
  destruct (kill_loop_killed force fuel w (mkEventProcessor (m_time s) (m_events s) true (heap s)) [] (m_events s))
    as (log & w' & s' & l & Hl & []); [done..|].
  unfold KillAllEvents. cbn [length] in Hl. rewrite Hl.
  set (s2 := if force then with_events s' [] else s').
  assert (E : m_events s2 = l) by (subst s2; destruct force; cbn in *; [now rewrite killed_force0|done]).
  assert (Eh : heap s2 = heap s') by (subst s2; now destruct force).
  assert (Et : m_time s2 = m_time s') by (subst s2; now destruct force).
  exists log, w', s2. rewrite E, Et. unfold marked in *. rewrite Eh.
  repeat (split; [try done|]); try done.
  subst s2. split; rewrite E.
  - now apply mm_sublist_sorted with (m_events s).
  - eapply sublist_NoDup; [apply Hn|]. now apply fmap_sublist.
  - rewrite Eh. apply Forall_forall. intros x Hx.
    destruct (killed_objects0 x) as [(_ & e & -> & _)|[? _]]; [|eauto|done].
    eapply elem_of_sublist; eassumption.
Qed.
End Processor.

Lemma sample_behaved : behaved sample_execute sample_abort.
Proof.
  intros w s ev p_time Hwf Hev Hself. split; [|exact I]. unfold sample_execute.
  case_if; [exact I|]. zbool. case_if; cbn.
  - split; [|unfold AddEvent; now destruct Hself as [e ->]].
    split; [lia|]. split; [done|]. split; [done|now intros].
  - set (f := fresh (dom (heap s))).
    assert (Hf : heap s !! f = None) by (apply not_elem_of_dom, is_fresh).
    split; [done|]. unfold AddEvent; cbn. rewrite !lookup_insert_eq. split; [|done]. split; [lia|].
    split; [done|]. split; [|intros _ Heq; destruct Hself; congruence].
    intros ([? ?] & -> & Hx)%list_elem_of_fmap. destruct Hwf as [_ _ Hh]. rewrite Forall_forall in Hh.
    destruct (Hh _ Hx). congruence.
Qed.

Lemma sample_wf : wf sample_processor.
Proof.
  split; cbn.
  - repeat constructor; cbn; lia.
  - apply (bool_decide_unpack _). now vm_compute.
  - repeat constructor; eauto.
Qed.

Lemma update_runs_due_events_witness :
  exists log w' s',
    Update sample_execute sample_abort 3 0 sample_processor 35 = Some (log, w', s') /\
    map done_ptr log = [4; 7; 6] /\ wf s' /\ m_time s' = 125.
Proof.
  destruct (update_runs_due_events sample_execute sample_abort 3 0 sample_processor 35)
    as (log & w' & s' & E & Hlog & _ & Hwf & Ht & _);
    [apply sample_behaved|apply sample_wf|vm_compute; lia|].
  exists log, w', s'. repeat split; [exact E|exact Hlog|apply Hwf..|exact Ht].
Defined.

Lemma kill_all_aborts_witness :
  exists log w' s',
    KillAllEvents sample_abort (fun _ ev => Z.odd ev) 4 0 sample_processor false = Some (log, w', s') /\
    log = map Aborted [4; 7; 6; 8] /\ wf s' /\ m_time s' = 90.
Proof.
  destruct (kill_all_aborts sample_abort (fun _ ev => Z.odd ev) 4 0 sample_processor false)
    as (log & w' & s' & E & Hlog & Hwf & Ht & _);
    [now intros|apply sample_wf|cbn; lia|].
  exists log, w', s'. repeat split; [exact E|exact Hlog|apply Hwf..|exact Ht].
Defined.

(** The runs of the witnesses, evaluated. *)
Example update_sample :
  option_map (fun r => (r.1, m_events r.2)) (Update sample_execute sample_abort 3 0 sample_processor 35)
  = Some ([Executed 4; Executed 7; Aborted 6], 1, [(135, 9); (175, 7); (900, 8)]).
Proof. vm_compute. reflexivity. Qed.
Example kill_sample :
  option_map (fun r => (r.1, m_events r.2)) (KillAllEvents sample_abort (fun _ ev => Z.odd ev) 4 0 sample_processor false)
  = Some ([Aborted 4; Aborted 7; Aborted 6; Aborted 8], -4, [(100, 4); (120, 6); (900, 8)]).
Proof. vm_compute. reflexivity. Qed.
