(* ===== verification/RBAC.v ===== *)
(** * RBAC: account permissions
    (src/server/game/Accounts/RBAC.cpp, RBAC.h and the RBAC part of AccountMgr.cpp)

    [AccountMgr] owns the permission definitions and the default permissions of
    the security levels; [RBACData] is one account's granted and denied sets with
    the set computed from them.  The rows of the login database are a table
    changed by the statements the code executes; a statement keeps the meaning of
    its SQL text in LoginDatabase.cpp. *)

From stdpp Require Import base gmap list strings fin_sets sorting.
From Stdlib Require Import ZArith Lia.
From S2P Require Import Prelude.
#[local] Open Scope Z_scope.

Inductive RBACCommandResult :=
| RBAC_OK
| RBAC_CANT_ADD_ALREADY_ADDED
| RBAC_CANT_REVOKE_NOT_IN_LIST
| RBAC_IN_GRANTED_LIST
| RBAC_IN_DENIED_LIST
| RBAC_ID_DOES_NOT_EXISTS.
#[export] Instance RBACCommandResult_eq_dec : EqDecision RBACCommandResult.
Proof. solve_decision. Defined.

Record RBACPermission := mkPermission {
  perm_id : Z;
  perm_name : string;
  perm_links : gset Z
}.
Definition GetLinkedPermissions (p : RBACPermission) : gset Z := perm_links p.
Definition AddLinkedPermission (p : RBACPermission) (id : Z) : RBACPermission :=
  mkPermission (perm_id p) (perm_name p) ({[id]} ∪ perm_links p).
Definition RemoveLinkedPermission (p : RBACPermission) (id : Z) : RBACPermission :=
  mkPermission (perm_id p) (perm_name p) (perm_links p ∖ {[id]}).

(** [AccountMgr]: [_permissions] maps an id to a pointer, [None] for the null
    pointer that [operator[]] leaves behind. *)
Record AccountMgr := mkAccountMgr {
  _permissions : gmap Z (option RBACPermission);
  _defaultPermissions : gmap Z (gset Z)
}.

Definition GetRBACPermission (mgr : AccountMgr) (permissionId : Z) : option RBACPermission :=
  match _permissions mgr !! permissionId with
  | Some p => p
  | None => None
  end.
Definition GetRBACDefaultPermissions (mgr : AccountMgr) (secLevel : Z) : gset Z :=
  default ∅ (_defaultPermissions mgr !! secLevel).
Definition ClearRBAC (mgr : AccountMgr) : AccountMgr := mkAccountMgr ∅ ∅.

Record RBACData := mkRBACData {
  _id : Z;
  _name : string;
  _realmId : Z;
  _secLevel : Z;
  _grantedPerms : gset Z;
  _deniedPerms : gset Z;
  _globalPerms : gset Z
}.
Definition new_RBACData (id : Z) (name : string) (realmId secLevel : Z) : RBACData :=
  mkRBACData id name realmId secLevel ∅ ∅ ∅.

Definition with_granted (d : RBACData) (s : gset Z) : RBACData :=
  mkRBACData (_id d) (_name d) (_realmId d) (_secLevel d) s (_deniedPerms d) (_globalPerms d).
Definition with_denied (d : RBACData) (s : gset Z) : RBACData :=
  mkRBACData (_id d) (_name d) (_realmId d) (_secLevel d) (_grantedPerms d) s (_globalPerms d).
Definition with_global (d : RBACData) (s : gset Z) : RBACData :=
  mkRBACData (_id d) (_name d) (_realmId d) (_secLevel d) (_grantedPerms d) (_deniedPerms d) s.

Definition HasPermission (d : RBACData) (permission : Z) : bool := bool_decide (permission ∈ _globalPerms d).
Definition HasGrantedPermission (d : RBACData) (p : Z) : bool := bool_decide (p ∈ _grantedPerms d).
Definition HasDeniedPermission (d : RBACData) (p : Z) : bool := bool_decide (p ∈ _deniedPerms d).
Definition AddGrantedPermission (d : RBACData) (p : Z) : RBACData := with_granted d ({[p]} ∪ _grantedPerms d).
Definition RemoveGrantedPermission (d : RBACData) (p : Z) : RBACData := with_granted d (_grantedPerms d ∖ {[p]}).
Definition AddDeniedPermission (d : RBACData) (p : Z) : RBACData := with_denied d ({[p]} ∪ _deniedPerms d).
Definition RemoveDeniedPermission (d : RBACData) (p : Z) : RBACData := with_denied d (_deniedPerms d ∖ {[p]}).
Definition ClearData (d : RBACData) : RBACData :=
  mkRBACData (_id d) (_name d) (_realmId d) (_secLevel d) ∅ ∅ ∅.

(** ** The set operations *)

(** [*s.begin()] of a [std::set]: its least element. *)
Definition set_begin (s : gset Z) : option Z :=
  match elements s with
  | [] => None
  | x :: l => Some (foldl Z.min x l)
  end.

(** [AddPermissions(permsFrom, permsTo)] and [RemovePermissions(permsFrom,
    permsTo)]: both give the new value of the second argument, the only one they
    take by reference to change. *)
Definition AddPermissions (permsFrom permsTo : gset Z) : gset Z :=
  foldl (fun to p => {[p]} ∪ to) permsTo (elements permsFrom).
Definition RemovePermissions (permsFrom permsTo : gset Z) : gset Z :=
  foldl (fun to p => to ∖ {[p]}) permsTo (elements permsFrom).

(** One turn of the loop of [ExpandPermissions] with [permissionId] taken out of
    [toCheck]. *)
Definition expand_step (mgr : AccountMgr) (permissionId : Z) (toCheck permissions : gset Z) : gset Z * gset Z :=
  match GetRBACPermission mgr permissionId with
  | None => (toCheck, permissions)
  | Some permission =>
    let permissions' := {[permissionId]} ∪ permissions in
    (foldl (fun tc q => if bool_decide (q ∈ permissions') then tc else {[q]} ∪ tc)
           toCheck (elements (GetLinkedPermissions permission)), permissions')
  end.
Fixpoint expand_loop (mgr : AccountMgr) (fuel : nat) (toCheck permissions : gset Z) : gset Z :=
  match fuel with
  | O => permissions
  | S fuel =>
    match set_begin toCheck with
    | None => permissions
    | Some permissionId =>
      let '(tc, perms) := expand_step mgr permissionId (toCheck ∖ {[permissionId]}) permissions in
      expand_loop mgr fuel tc perms
    end
  end.

(** Everything that can ever be queued, and a bound on the turns. *)
Definition link_universe (mgr : AccountMgr) (s : gset Z) : gset Z :=
  s ∪ ⋃ ((fun x => match x.2 with Some p => perm_links p | None => ∅ end) <$> map_to_list (_permissions mgr)).
Definition expand_fuel (mgr : AccountMgr) (s : gset Z) : nat :=
  S ((size (dom (_permissions mgr)) + 1) * (size (link_universe mgr s) + 1)).

Definition ExpandPermissions (mgr : AccountMgr) (permissions : gset Z) : gset Z :=
  expand_loop mgr (expand_fuel mgr permissions) permissions ∅.

(** [CalculateNewPermissions], with the arguments of [RemovePermissions] in the
    order of the call. *)
Definition CalculateNewPermissions (mgr : AccountMgr) (d : RBACData) : RBACData :=
  let globalPerms := ExpandPermissions mgr (_grantedPerms d) in
  let revoked := ExpandPermissions mgr (_deniedPerms d) in
  let revoked' := RemovePermissions globalPerms revoked in
  with_global d globalPerms.

(** ** The account's table in the login database *)

Inductive db_stmt :=
| INS_RBAC_ACCOUNT_PERMISSION (accountId permissionId : Z) (granted : bool) (realmId : Z)
| DEL_RBAC_ACCOUNT_PERMISSION (accountId permissionId realmId : Z)
| DEL_ACCOUNT_ACCESS (accountId : Z)
| DEL_ACCOUNT_ACCESS_BY_REALM (accountId realmId : Z)
| INS_ACCOUNT_ACCESS (accountId level realmId : Z).

(** [rbac_account_permissions]: (accountId, permissionId, realmId) to granted. *)
Abbreviation perm_table := (gmap (Z * Z * Z) bool).

Definition exec_stmt (t : perm_table) (s : db_stmt) : perm_table :=
  match s with
  | INS_RBAC_ACCOUNT_PERMISSION a p g r => <[(a, p, r) := g]> t
  | DEL_RBAC_ACCOUNT_PERMISSION a p r => delete (a, p, -1) (delete (a, p, r) t)
  | _ => t
  end.
Definition exec_stmts (t : perm_table) (ss : list db_stmt) : perm_table := foldl exec_stmt t ss.

(** The rows of LOGIN_SEL_RBAC_ACCOUNT_PERMISSIONS, ordered by permission and
    realm. *)
Definition row_le (a b : Z * Z * bool) : Prop := a.1.1 < b.1.1 \/ (a.1.1 = b.1.1 /\ a.1.2 <= b.1.2).
#[export] Instance row_le_dec a b : Decision (row_le a b).
Proof. unfold row_le; apply _. Defined.
Definition select_rows (t : perm_table) (accountId realmId : Z) : list (Z * bool) :=
  (fun r => (r.1.1, r.2)) <$>
    merge_sort row_le
      (omap (fun kv => let '((a, p, r), g) := kv in
                       if bool_decide (a = accountId /\ (r = realmId \/ r = -1))
                       then Some (p, r, g) else None) (map_to_list t)).

(** ** Commands *)

Definition SavePermission (d : RBACData) (permission : Z) (granted : bool) (realmId : Z) : list db_stmt :=
  [INS_RBAC_ACCOUNT_PERMISSION (_id d) permission granted realmId].

Definition GrantPermission (mgr : AccountMgr) (d : RBACData) (permissionId realmId : Z)
  : RBACCommandResult * RBACData * list db_stmt :=
  match GetRBACPermission mgr permissionId with
  | None => (RBAC_ID_DOES_NOT_EXISTS, d, [])
  | Some _ =>
    if HasDeniedPermission d permissionId then (RBAC_IN_DENIED_LIST, d, [])
    else if HasGrantedPermission d permissionId then (RBAC_CANT_ADD_ALREADY_ADDED, d, [])
    else
      let d := AddGrantedPermission d permissionId in
      if realmId =? 0 then (RBAC_OK, d, [])
      else (RBAC_OK, CalculateNewPermissions mgr d, SavePermission d permissionId true realmId)
  end.

Definition DenyPermission (mgr : AccountMgr) (d : RBACData) (permissionId realmId : Z)
  : RBACCommandResult * RBACData * list db_stmt :=
  match GetRBACPermission mgr permissionId with
  | None => (RBAC_ID_DOES_NOT_EXISTS, d, [])
  | Some _ =>
    if HasGrantedPermission d permissionId then (RBAC_IN_GRANTED_LIST, d, [])
    else if HasDeniedPermission d permissionId then (RBAC_CANT_ADD_ALREADY_ADDED, d, [])
    else
      let d := AddDeniedPermission d permissionId in
      if realmId =? 0 then (RBAC_OK, d, [])
      else (RBAC_OK, CalculateNewPermissions mgr d, SavePermission d permissionId false realmId)
  end.

Definition RevokePermission (mgr : AccountMgr) (d : RBACData) (permissionId realmId : Z)
  : RBACCommandResult * RBACData * list db_stmt :=
  if negb (HasGrantedPermission d permissionId) && negb (HasDeniedPermission d permissionId)
  then (RBAC_CANT_REVOKE_NOT_IN_LIST, d, [])
  else
    let d := RemoveDeniedPermission (RemoveGrantedPermission d permissionId) permissionId in
    if realmId =? 0 then (RBAC_OK, d, [])
    else (RBAC_OK, CalculateNewPermissions mgr d,
          [DEL_RBAC_ACCOUNT_PERMISSION (_id d) permissionId realmId]).

Definition load_row (mgr : AccountMgr) (d : RBACData) (row : Z * bool) : RBACData :=
  if row.2 then (GrantPermission mgr d row.1 0).1.2 else (DenyPermission mgr d row.1 0).1.2.
Definition LoadFromDB (mgr : AccountMgr) (t : perm_table) (d : RBACData) : RBACData :=
  let d := ClearData d in
  let d := foldl (load_row mgr) d (select_rows t (_id d) (_realmId d)) in
  let d := foldl (fun d p => (GrantPermission mgr d p 0).1.2) d
             (merge_sort Z.le (elements (GetRBACDefaultPermissions mgr (_secLevel d)))) in
  CalculateNewPermissions mgr d.

Definition SetSecurityLevel (mgr : AccountMgr) (t : perm_table) (d : RBACData) (level : Z) : RBACData :=
  LoadFromDB mgr t (mkRBACData (_id d) (_name d) (_realmId d) level
                      (_grantedPerms d) (_deniedPerms d) (_globalPerms d)).

(** [AccountMgr::UpdateAccountAccess]: [rbac] is [None] for an offline account. *)
Definition UpdateAccountAccess (mgr : AccountMgr) (t : perm_table) (rbac : option RBACData)
  (accountId securityLevel realmId : Z) : option RBACData * list db_stmt :=
  let rbac := match rbac with
              | Some d => if securityLevel =? _secLevel d
                          then Some (SetSecurityLevel mgr t d securityLevel) else Some d
              | None => None
              end in
  let del := if realmId =? -1 then [DEL_ACCOUNT_ACCESS accountId]
             else [DEL_ACCOUNT_ACCESS_BY_REALM accountId (u32 realmId)] in
  let ins := if negb (securityLevel =? 0) then [INS_ACCOUNT_ACCESS accountId securityLevel realmId] else [] in
  (rbac, del ++ ins).

(** [AccountMgr::HasPermission]; [GetSecurity] reads the account's level from the
    database. *)
Definition AccountHasPermission (mgr : AccountMgr) (t : perm_table) (GetSecurity : Z -> Z)
  (accountId permissionId realmId : Z) : bool :=
  if accountId =? 0 then false
  else HasPermission (LoadFromDB mgr t (new_RBACData accountId "" realmId (GetSecurity accountId))) permissionId.

(** ** Loading the definitions *)

Definition load_permission (mgr : AccountMgr) (row : Z * string) : AccountMgr :=
  mkAccountMgr (<[row.1 := Some (mkPermission row.1 row.2 ∅)]> (_permissions mgr)) (_defaultPermissions mgr).

(** One row of [rbac_linked_permissions]: [cur] is the pair of local variables
    [permissionId] and [permission], the pointer as the key it points to (it is
    null until the first change of id, and for a key [operator[]] just made). *)
Definition load_link (st : outcome unit (AccountMgr * (Z * option Z))) (row : Z * Z)
  : outcome unit (AccountMgr * (Z * option Z)) :=
  match st with
  | Ret (mgr, (permissionId, permission)) =>
    let '(newId, linkedPermissionId) := row in
    let '(mgr, permissionId, permission) :=
      if negb (permissionId =? newId)
      then match _permissions mgr !! newId with
           | Some (Some _) => (mgr, newId, Some newId)
           | Some None => (mgr, newId, None)
           | None => (mkAccountMgr (<[newId := None]> (_permissions mgr)) (_defaultPermissions mgr), newId, None)
           end
      else (mgr, permissionId, permission) in
    if linkedPermissionId =? permissionId then Ret (mgr, (permissionId, permission))
    else match permission with
         | None => Crash
         | Some key =>
           match _permissions mgr !! key with
           | Some (Some p) =>
             Ret (mkAccountMgr (<[key := Some (AddLinkedPermission p linkedPermissionId)]> (_permissions mgr))
                    (_defaultPermissions mgr), (permissionId, permission))
           | _ => Crash
           end
         end
  | Throw e => Throw e
  | Crash => Crash
  end.

Definition load_default (mgr : AccountMgr) (row : Z * Z) : AccountMgr :=
  let secId := u8 row.1 in
  mkAccountMgr (_permissions mgr)
    (<[secId := {[row.2]} ∪ GetRBACDefaultPermissions mgr secId]> (_defaultPermissions mgr)).

(** [AccountMgr::LoadRBAC] on the rows of its three queries. *)
Definition LoadRBAC (mgr : AccountMgr) (perms : list (Z * string)) (links defaults : list (Z * Z))
  : outcome unit AccountMgr :=
  let mgr := ClearRBAC mgr in
  match perms with
  | [] => Ret mgr
  | _ =>
    let mgr := foldl load_permission mgr perms in
    match links with
    | [] => Ret mgr
    | _ => match foldl load_link (Ret (mgr, (0, None))) links with
           | Ret (mgr, _) => Ret (foldl load_default mgr defaults)
           | Throw e => Throw e
           | Crash => Crash
           end
    end
  end.

(** ** The specification of the expansion: reachability over the links *)

Inductive linked_from (mgr : AccountMgr) (s : gset Z) : Z -> Prop :=
| linked_base p P : p ∈ s -> GetRBACPermission mgr p = Some P -> linked_from mgr s p
| linked_step p P q Q :
    linked_from mgr s p -> GetRBACPermission mgr p = Some P -> q ∈ perm_links P ->
    GetRBACPermission mgr q = Some Q -> linked_from mgr s q.

(** ** Lemmas: the loop *)

Lemma foldl_min_elem (l : list Z) x : foldl Z.min x l = x \/ foldl Z.min x l ∈ l.
Proof.
  revert x; induction l as [|y l IH]; intros x; cbn; [auto|].
  destruct (IH (Z.min x y)) as [E|E]; [|set_solver].
  rewrite E. destruct (Z.min_spec x y) as [[_ ->]|[_ ->]]; set_solver.
Qed.
Lemma set_begin_Some s x : set_begin s = Some x -> x ∈ s.
Proof.
  unfold set_begin. destruct (elements s) as [|y l] eqn:E; [done|]. intros [= <-].
  apply elem_of_elements. rewrite E. destruct (foldl_min_elem l y) as [->|]; set_solver.
Qed.
Lemma set_begin_None s : set_begin s = None -> s = ∅.
Proof.
  unfold set_begin. destruct (elements s) eqn:E; [|done]. intros _.
  apply elements_empty_iff in E. set_solver.
Qed.

Lemma elem_of_queue_links (P tc : gset Z) (l : list Z) x :
  x ∈ foldl (fun tc q => if bool_decide (q ∈ P) then tc else {[q]} ∪ tc) tc l <->
  x ∈ tc \/ (x ∈ l /\ x ∉ P).
Proof.
  revert tc; induction l as [|y l IH]; intros tc; cbn; [set_solver|].
  rewrite IH. case_bool_decide; set_solver.
Qed.

Lemma expand_step_spec mgr p tc ps tc' ps' :
  expand_step mgr p tc ps = (tc', ps') ->
  (GetRBACPermission mgr p = None /\ tc' = tc /\ ps' = ps) \/
  (exists P, GetRBACPermission mgr p = Some P /\ ps' = {[p]} ∪ ps /\
     forall x, x ∈ tc' <-> x ∈ tc \/ (x ∈ perm_links P /\ x ∉ ps')).
Proof.
  unfold expand_step. destruct (GetRBACPermission mgr p) as [P|]; intros [= <- <-]; [right|left; auto].
  exists P. split_and!; auto. intros x. unfold GetLinkedPermissions.
  rewrite elem_of_queue_links. set_solver.
Qed.

Lemma GetRBACPermission_dom mgr p P :
  GetRBACPermission mgr p = Some P -> p ∈ dom (_permissions mgr).
Proof.
  unfold GetRBACPermission. destruct (_permissions mgr !! p) eqn:E; [|done].
  intros _. apply elem_of_dom. eauto.
Qed.

Lemma links_in_universe mgr s p P q :
  GetRBACPermission mgr p = Some P -> q ∈ perm_links P -> q ∈ link_universe mgr s.
Proof.
  unfold GetRBACPermission. destruct (_permissions mgr !! p) as [[P'|]|] eqn:E; try done.
  intros [= ->] Hq. unfold link_universe. apply elem_of_union_r, elem_of_union_list. exists (perm_links P). split; [|done].
  apply list_elem_of_fmap. exists (p, Some P). split; [done|]. now apply elem_of_map_to_list.
Qed.

(** What the loop keeps: the permissions found are reachable, everything
    reachable in one step is found or queued, the queue holds nothing found. *)
Record expand_inv (mgr : AccountMgr) (s tc ps : gset Z) : Prop := {
  inv_sound : forall p, p ∈ ps -> linked_from mgr s p;
  inv_queue : forall p P, p ∈ tc -> GetRBACPermission mgr p = Some P -> linked_from mgr s p;
  inv_base : forall p P, p ∈ s -> GetRBACPermission mgr p = Some P -> p ∈ ps ∪ tc;
  inv_links : forall p P q Q, p ∈ ps -> GetRBACPermission mgr p = Some P -> q ∈ perm_links P ->
    GetRBACPermission mgr q = Some Q -> q ∈ ps ∪ tc;
  inv_disj : tc ## ps;
  inv_dom : ps ⊆ dom (_permissions mgr);
  inv_univ : tc ⊆ link_universe mgr s
}.
Definition expand_measure (mgr : AccountMgr) (s tc ps : gset Z) : nat :=
  size (dom (_permissions mgr) ∖ ps) * (size (link_universe mgr s) + 1) + size tc.

Lemma expand_inv_start mgr s : expand_inv mgr s s ∅.
Proof. split; try set_solver; eauto using linked_from. unfold link_universe. set_solver. Qed.

Lemma expand_inv_done mgr s ps : expand_inv mgr s ∅ ps -> forall p, p ∈ ps <-> linked_from mgr s p.
Proof.
  intros [] p. split; [auto|]. induction 1 as [p P Hp E|p P q Q _ IH E Hq EQ].
  - specialize (inv_base0 p P Hp E). set_solver.
  - specialize (inv_links0 p P q Q IH E Hq EQ). set_solver.
Qed.

Lemma expand_inv_step mgr s tc ps p tc' ps' :
  expand_inv mgr s tc ps -> p ∈ tc -> expand_step mgr p (tc ∖ {[p]}) ps = (tc', ps') ->
  expand_inv mgr s tc' ps' /\ (expand_measure mgr s tc' ps' < expand_measure mgr s tc ps)%nat.
Proof.
  intros [Hs Hq Hb Hl Hd Hdom Hu] Hp Hstep.
  assert (Hsz : (size (tc ∖ {[p]}) < size tc)%nat).
  { rewrite size_difference by set_solver. rewrite size_singleton.
    assert (size tc <> 0%nat); [|lia]. apply size_non_empty_iff. set_solver. }
  destruct (expand_step_spec _ _ _ _ _ _ Hstep) as [(EN & -> & ->)|(P & EP & -> & Htc)].
  - split; [|unfold expand_measure; lia]. split; set_solver.
  - assert (Hlp : linked_from mgr s p) by eauto.
    assert (Hdp : p ∈ dom (_permissions mgr)) by eauto using GetRBACPermission_dom.
    assert (Hu' : tc' ⊆ link_universe mgr s).
    { intros x [Hx|[Hx _]]%Htc; [set_solver|]. eauto using links_in_universe. }
    split.
    + split; [| | | | | |exact Hu'].
      * intros x [->%elem_of_singleton|Hx]%elem_of_union; auto.
      * intros x X [Hx|[Hx _]]%Htc EX; [|eauto using linked_from].
        apply elem_of_difference in Hx as [Hx _]. eauto.
      * intros x X Hx EX. specialize (Hb x X Hx EX).
        rewrite elem_of_union, Htc. destruct (decide (x = p)) as [e|e]; clear -Hb e; set_solver.
      * intros x X q Q Hx EX Hxq EQ. rewrite elem_of_union, Htc.
        destruct (decide (q ∈ {[p]} ∪ ps)) as [|Hn]; [auto|].
        destruct (decide (x = p)) as [->|Hxp]; [right; right; split; [congruence|done]|].
        assert (Hx' : x ∈ ps) by (clear -Hx Hxp; set_solver).
        specialize (Hl x X q Q Hx' EX Hxq EQ).
        destruct (decide (q = p)) as [e|e]; clear -Hl Hn e; set_solver.
      * intros x Hx Hx'. apply Htc in Hx as [Hx|[_ Hx]]; [|done]. clear -Hd Hx Hx'. set_solver.
      * clear -Hdom Hdp. set_solver.
    + unfold expand_measure. apply subseteq_size in Hu'.
      assert (Hlt : (size (dom (_permissions mgr) ∖ ({[p]} ∪ ps)) < size (dom (_permissions mgr) ∖ ps))%nat).
      { apply subset_size. set_solver. }
      nia.
Qed.

Lemma expand_loop_spec mgr s fuel tc ps :
  expand_inv mgr s tc ps -> (expand_measure mgr s tc ps < fuel)%nat ->
  forall p, p ∈ expand_loop mgr fuel tc ps <-> linked_from mgr s p.
Proof.
  revert tc ps; induction fuel as [|fuel IH]; intros tc ps Hinv Hf; [lia|]. cbn [expand_loop].
  destruct (set_begin tc) as [p|] eqn:E.
  - apply set_begin_Some in E. destruct (expand_step _ _ _ _) as [tc' ps'] eqn:Es.
    destruct (expand_inv_step _ _ _ _ _ _ _ Hinv E Es). apply IH; auto; lia.
  - apply set_begin_None in E. subst. now apply expand_inv_done.
Qed.

Lemma elem_of_ExpandPermissions mgr s p : p ∈ ExpandPermissions mgr s <-> linked_from mgr s p.
Proof.
  apply (expand_loop_spec mgr s); [apply expand_inv_start|].
  unfold expand_measure, expand_fuel.
  assert (size (dom (_permissions mgr) ∖ ∅) <= size (dom (_permissions mgr)))%nat
    by (apply subseteq_size; set_solver).
  assert (size s <= size (link_universe mgr s))%nat
    by (apply subseteq_size; unfold link_universe; set_solver).
  nia.
Qed.

(** ** Lemmas: what the commands do to the two sets *)

Definition exists_perm (mgr : AccountMgr) (p : Z) : Prop := is_Some (GetRBACPermission mgr p).
#[export] Instance exists_perm_dec mgr p : Decision (exists_perm mgr p).
Proof. unfold exists_perm; apply _. Defined.

Record rbac_inv (mgr : AccountMgr) (d : RBACData) : Prop := {
  rbac_disjoint : _grantedPerms d ## _deniedPerms d;
  rbac_exist : forall p, p ∈ _grantedPerms d ∪ _deniedPerms d -> exists_perm mgr p
}.

Lemma grant_cases mgr d p r res d' ss :
  GrantPermission mgr d p r = (res, d', ss) ->
  (res <> RBAC_OK /\ d' = d /\ ss = [] /\
     (GetRBACPermission mgr p = None \/ p ∈ _deniedPerms d \/ p ∈ _grantedPerms d)) \/
  (res = RBAC_OK /\ exists_perm mgr p /\ (p ∉ _deniedPerms d) /\ (p ∉ _grantedPerms d) /\
     _grantedPerms d' = {[p]} ∪ _grantedPerms d /\ _deniedPerms d' = _deniedPerms d /\ _id d' = _id d /\
     (r = 0 /\ ss = [] \/
      r <> 0 /\ d' = CalculateNewPermissions mgr (AddGrantedPermission d p) /\
      ss = [INS_RBAC_ACCOUNT_PERMISSION (_id d) p true r])).
Proof.
  unfold GrantPermission, HasDeniedPermission, HasGrantedPermission, exists_perm.
  destruct (GetRBACPermission mgr p) as [P|] eqn:E.
  2: { intros [= <- <- <-]. left. split_and!; auto; done. }
  destruct (bool_decide (p ∈ _deniedPerms d)) eqn:Hd; zbool; [intros [= <- <- <-]; left; split_and!; [done|auto..]|].
  destruct (bool_decide (p ∈ _grantedPerms d)) eqn:Hg; zbool; [intros [= <- <- <-]; left; split_and!; [done|auto..]|].
  destruct (r =? 0) eqn:Er; intros [= <- <- <-]; zbool; right; split_and!; eauto.
Qed.
Lemma deny_cases mgr d p r res d' ss :
  DenyPermission mgr d p r = (res, d', ss) ->
  (res <> RBAC_OK /\ d' = d /\ ss = [] /\
     (GetRBACPermission mgr p = None \/ p ∈ _deniedPerms d \/ p ∈ _grantedPerms d)) \/
  (res = RBAC_OK /\ exists_perm mgr p /\ (p ∉ _deniedPerms d) /\ (p ∉ _grantedPerms d) /\
     _deniedPerms d' = {[p]} ∪ _deniedPerms d /\ _grantedPerms d' = _grantedPerms d /\ _id d' = _id d /\
     (r = 0 /\ ss = [] \/
      r <> 0 /\ d' = CalculateNewPermissions mgr (AddDeniedPermission d p) /\
      ss = [INS_RBAC_ACCOUNT_PERMISSION (_id d) p false r])).
Proof.
  unfold DenyPermission, HasDeniedPermission, HasGrantedPermission, exists_perm.
  destruct (GetRBACPermission mgr p) as [P|] eqn:E.
  2: { intros [= <- <- <-]. left. split_and!; auto; done. }
  destruct (bool_decide (p ∈ _grantedPerms d)) eqn:Hg; zbool; [intros [= <- <- <-]; left; split_and!; [done|auto..]|].
  destruct (bool_decide (p ∈ _deniedPerms d)) eqn:Hd; zbool; [intros [= <- <- <-]; left; split_and!; [done|auto..]|].
  destruct (r =? 0) eqn:Er; intros [= <- <- <-]; zbool; right; split_and!; eauto.
Qed.
Lemma revoke_cases mgr d p r res d' ss :
  RevokePermission mgr d p r = (res, d', ss) ->
  (res = RBAC_CANT_REVOKE_NOT_IN_LIST /\ d' = d /\ ss = [] /\
     (p ∉ _deniedPerms d) /\ (p ∉ _grantedPerms d)) \/
  (res = RBAC_OK /\ p ∈ _grantedPerms d ∪ _deniedPerms d /\
     _grantedPerms d' = (_grantedPerms d ∖ {[p]}) /\ _deniedPerms d' = (_deniedPerms d ∖ {[p]}) /\
     _id d' = _id d /\
     (r = 0 /\ ss = [] \/
      r <> 0 /\ d' = CalculateNewPermissions mgr (RemoveDeniedPermission (RemoveGrantedPermission d p) p) /\
      ss = [DEL_RBAC_ACCOUNT_PERMISSION (_id d) p r])).
Proof.
  unfold RevokePermission, HasDeniedPermission, HasGrantedPermission.
  destruct (bool_decide (p ∈ _grantedPerms d)) eqn:Hg; destruct (bool_decide (p ∈ _deniedPerms d)) eqn:Hd;
    cbn [negb andb]; zbool.
  4: { intros [= <- <- <-]. left. split_and!; auto; done. }
  all: destruct (r =? 0) eqn:Er; intros [= <- <- <-]; zbool; right; split_and!; try set_solver; eauto.
Qed.

Lemma rbac_inv_grant mgr d p r : rbac_inv mgr d -> rbac_inv mgr (GrantPermission mgr d p r).1.2.
Proof.
  intros [Hd He]. destruct (GrantPermission mgr d p r) as [[res d'] ss] eqn:E. cbn.
  destruct (grant_cases _ _ _ _ _ _ _ E) as [(_ & -> & _)|(_ & Hex & Hnd & _ & Eg & Edn & _)].
  - now split.
  - split; rewrite Eg, Edn; set_solver.
Qed.
Lemma rbac_inv_deny mgr d p r : rbac_inv mgr d -> rbac_inv mgr (DenyPermission mgr d p r).1.2.
Proof.
  intros [Hd He]. destruct (DenyPermission mgr d p r) as [[res d'] ss] eqn:E. cbn.
  destruct (deny_cases _ _ _ _ _ _ _ E) as [(_ & -> & _)|(_ & Hex & _ & Hng & Edn & Eg & _)].
  - now split.
  - split; rewrite Eg, Edn; set_solver.
Qed.
Lemma rbac_inv_revoke mgr d p r : rbac_inv mgr d -> rbac_inv mgr (RevokePermission mgr d p r).1.2.
Proof.
  intros [Hd He]. destruct (RevokePermission mgr d p r) as [[res d'] ss] eqn:E. cbn.
  destruct (revoke_cases _ _ _ _ _ _ _ E) as [(_ & -> & _)|(_ & _ & Eg & Edn & _)].
  - now split.
  - split; rewrite Eg, Edn; set_solver.
Qed.
Lemma rbac_inv_clear mgr d : rbac_inv mgr (ClearData d).
Proof. split; cbn; set_solver. Qed.
Lemma rbac_inv_calculate mgr d : rbac_inv mgr d -> rbac_inv mgr (CalculateNewPermissions mgr d).
Proof. intros [? ?]; now split. Qed.
#[export] Hint Resolve rbac_inv_grant rbac_inv_deny rbac_inv_revoke rbac_inv_clear rbac_inv_calculate : trinity.

Lemma rbac_inv_load mgr t d : rbac_inv mgr (LoadFromDB mgr t d).
Proof.
  unfold LoadFromDB. apply rbac_inv_calculate.
  match goal with |- rbac_inv _ (foldl _ (foldl _ _ ?rows) _) => generalize rows as rs end.
  intros rs. generalize (merge_sort Z.le (elements (GetRBACDefaultPermissions mgr
    (_secLevel (foldl (load_row mgr) (ClearData d) rs))))) as ds.
  assert (Hrows : forall d, rbac_inv mgr d -> rbac_inv mgr (foldl (load_row mgr) d rs)).
  { induction rs as [|[p [|]] rs IH]; intros d' Hd'; cbn; auto;
      apply IH; unfold load_row; cbn; auto with trinity. }
  intros ds. specialize (Hrows (ClearData d) (rbac_inv_clear mgr d)). revert Hrows.
  generalize (foldl (load_row mgr) (ClearData d) rs).
  induction ds as [|p ds IH]; intros d' Hd'; cbn; auto. apply IH; auto with trinity.
Qed.

(** ** The account as a transition system

    What happens to the data of a connected account: the three commands with a
    realm, a reload, a change of level. *)
Inductive rbac_step (mgr : AccountMgr) : RBACData * perm_table -> RBACData * perm_table -> Prop :=
| step_grant d t p r : r <> 0 -> rbac_step mgr (d, t)
    ((GrantPermission mgr d p r).1.2, exec_stmts t (GrantPermission mgr d p r).2)
| step_deny d t p r : r <> 0 -> rbac_step mgr (d, t)
    ((DenyPermission mgr d p r).1.2, exec_stmts t (DenyPermission mgr d p r).2)
| step_revoke d t p r : r <> 0 -> rbac_step mgr (d, t)
    ((RevokePermission mgr d p r).1.2, exec_stmts t (RevokePermission mgr d p r).2)
| step_reload d t : rbac_step mgr (d, t) (LoadFromDB mgr t d, t)
| step_level d t l : rbac_step mgr (d, t) (SetSecurityLevel mgr t d l, t).

(** A command with the table it changes, and those that last: see below. *)
Inductive perm_command := CGrant (p r : Z) | CDeny (p r : Z) | CRevoke (p r : Z).
Definition perform (mgr : AccountMgr) (s : RBACData * perm_table) (c : perm_command) : RBACData * perm_table :=
  let '(_, d, ss) := match c with
                     | CGrant p r => GrantPermission mgr s.1 p r
                     | CDeny p r => DenyPermission mgr s.1 p r
                     | CRevoke p r => RevokePermission mgr s.1 p r
                     end in (d, exec_stmts s.2 ss).
Definition lasting (mgr : AccountMgr) (d0 : RBACData) (c : perm_command) : Prop :=
  match c with
  | CGrant _ r | CDeny _ r => r = _realmId d0 \/ r = -1
  | CRevoke p r => r = _realmId d0 /\ p ∉ GetRBACDefaultPermissions mgr (_secLevel d0)
  end.

Definition computed (mgr : AccountMgr) (d : RBACData) : Prop :=
  _globalPerms d = ExpandPermissions mgr (_grantedPerms d).

Lemma step_invariant mgr s s' :
  rbac_step mgr s s' -> rbac_inv mgr s.1 /\ computed mgr s.1 -> rbac_inv mgr s'.1 /\ computed mgr s'.1.
Proof.
  intros Hstep [Hinv Hc]. destruct Hstep; cbn [fst] in *; split; auto with trinity;
    try apply rbac_inv_load; try reflexivity.
  - destruct (GrantPermission mgr d p r) as [[res d'] ss] eqn:E. cbn.
    destruct (grant_cases _ _ _ _ _ _ _ E) as [(_ & -> & _)|(_&_&_&_&_&_&_&[[? _]|(_ & -> & _)])]; done.
  - destruct (DenyPermission mgr d p r) as [[res d'] ss] eqn:E. cbn.
    destruct (deny_cases _ _ _ _ _ _ _ E) as [(_ & -> & _)|(_&_&_&_&_&_&_&[[? _]|(_ & -> & _)])]; done.
  - destruct (RevokePermission mgr d p r) as [[res d'] ss] eqn:E. cbn.
    destruct (revoke_cases _ _ _ _ _ _ _ E) as [(_ & -> & _)|(_&_&_&_&_&[[? _]|(_ & -> & _)])]; done.
Qed.

(** ** Lemmas: loading from the table *)

Definition first_row (rows : list (Z * bool)) (p : Z) : option bool :=
  (fun x => x.2.2) <$> list_find (fun row => row.1 = p) rows.
(** the row that decides a permission: the one for all realms, if any *)
Definition deciding (t : perm_table) (a r p : Z) : option bool :=
  match t !! (a, p, -1) with Some g => Some g | None => t !! (a, p, r) end.

Lemma first_row_cons row rows p :
  first_row (row :: rows) p = if decide (row.1 = p) then Some row.2 else first_row rows p.
Proof.
  unfold first_row. cbn. case_decide; [done|]. destruct (list_find _ rows) as [[i x]|]; done.
Qed.

Lemma load_row_granted mgr d q (g : bool) p :
  p ∈ _grantedPerms (load_row mgr d (q, g)) <->
  p ∈ _grantedPerms d \/ (g = true /\ p = q /\ exists_perm mgr p /\ (p ∉ _deniedPerms d)).
Proof.
  unfold load_row. destruct g; cbn.
  - destruct (GrantPermission mgr d q 0) as [[res d'] ss] eqn:E. cbn.
    destruct (grant_cases _ _ _ _ _ _ _ E) as [(_ & -> & _ & Hc)|(_ & Hex & Hnd & _ & Eg & _)].
    + unfold exists_perm. split; [auto|]. intros [|(_ & -> & [? Hex] & ?)]; [done|].
      destruct Hc as [|[]]; congruence || done.
    + rewrite Eg, elem_of_union, elem_of_singleton. naive_solver.
  - destruct (DenyPermission mgr d q 0) as [[res d'] ss] eqn:E. cbn.
    destruct (deny_cases _ _ _ _ _ _ _ E) as [(_ & -> & _)|(_ & _ & _ & _ & _ & Eg & _)];
      rewrite ?Eg; naive_solver.
Qed.
Lemma load_row_denied mgr d q (g : bool) p :
  p ∈ _deniedPerms (load_row mgr d (q, g)) <->
  p ∈ _deniedPerms d \/ (g = false /\ p = q /\ exists_perm mgr p /\ (p ∉ _grantedPerms d)).
Proof.
  unfold load_row. destruct g; cbn.
  - destruct (GrantPermission mgr d q 0) as [[res d'] ss] eqn:E. cbn.
    destruct (grant_cases _ _ _ _ _ _ _ E) as [(_ & -> & _)|(_ & _ & _ & _ & _ & Ed & _)];
      rewrite ?Ed; naive_solver.
  - destruct (DenyPermission mgr d q 0) as [[res d'] ss] eqn:E. cbn.
    destruct (deny_cases _ _ _ _ _ _ _ E) as [(_ & -> & _ & Hc)|(_ & Hex & _ & Hng & Ed & _)].
    + unfold exists_perm. split; [auto|]. intros [|(_ & -> & [? Hex] & ?)]; [done|].
      destruct Hc as [|[]]; congruence || done.
    + rewrite Ed, elem_of_union, elem_of_singleton. naive_solver.
Qed.

Lemma load_rows_spec mgr rows d p :
  (p ∈ _grantedPerms (foldl (load_row mgr) d rows) <->
   p ∈ _grantedPerms d \/ (exists_perm mgr p /\ (p ∉ _deniedPerms d) /\ first_row rows p = Some true)) /\
  (p ∈ _deniedPerms (foldl (load_row mgr) d rows) <->
   p ∈ _deniedPerms d \/ (exists_perm mgr p /\ (p ∉ _grantedPerms d) /\ first_row rows p = Some false)).
Proof.
  revert d; induction rows as [|[q g] rows IH]; intros d; cbn [foldl].
  { cbn. naive_solver. }
  destruct (IH (load_row mgr d (q, g))) as [-> ->].
  rewrite load_row_granted, load_row_denied, first_row_cons. cbn.
  destruct (decide (exists_perm mgr p)); destruct (decide (p ∈ _grantedPerms d));
    destruct (decide (p ∈ _deniedPerms d)); destruct (decide (q = p)); destruct g;
    split; split; naive_solver.
Qed.

Lemma grant_defaults_spec mgr ds d p :
  (p ∈ _grantedPerms (foldl (fun d p => (GrantPermission mgr d p 0).1.2) d ds) <->
   p ∈ _grantedPerms d \/ (exists_perm mgr p /\ (p ∉ _deniedPerms d) /\ p ∈ ds)) /\
  _deniedPerms (foldl (fun d p => (GrantPermission mgr d p 0).1.2) d ds) = _deniedPerms d.
Proof.
  revert d; induction ds as [|q ds IH]; intros d; cbn [foldl]; [set_solver|].
  change ((GrantPermission mgr d q 0).1.2) with (load_row mgr d (q, true)).
  destruct (IH (load_row mgr d (q, true))) as [-> ->]. rewrite load_row_granted.
  assert (E : _deniedPerms (load_row mgr d (q, true)) = _deniedPerms d).
  { apply set_eq. intros x. rewrite load_row_denied. naive_solver. }
  rewrite E. split; [|done]. rewrite elem_of_cons. naive_solver.
Qed.

(** the record fields that loading never touches *)
Definition same_account (d d' : RBACData) : Prop :=
  _id d = _id d' /\ _name d = _name d' /\ _realmId d = _realmId d' /\ _secLevel d = _secLevel d'.
Lemma same_account_grant mgr d p r : same_account (GrantPermission mgr d p r).1.2 d.
Proof. unfold GrantPermission. destruct (GetRBACPermission mgr p); repeat case_if; cbn; split_and!; done. Qed.
Lemma same_account_deny mgr d p r : same_account (DenyPermission mgr d p r).1.2 d.
Proof. unfold DenyPermission. destruct (GetRBACPermission mgr p); repeat case_if; cbn; split_and!; done. Qed.
Lemma same_account_trans d1 d2 d3 : same_account d1 d2 -> same_account d2 d3 -> same_account d1 d3.
Proof. unfold same_account. intuition congruence. Qed.
Lemma same_account_rows mgr rows d : same_account (foldl (load_row mgr) d rows) d.
Proof.
  revert d; induction rows as [|[q g] rows IH]; intros d; cbn; [by split_and!|].
  eapply same_account_trans; [apply IH|]. unfold load_row; destruct g; cbn;
    [apply same_account_grant|apply same_account_deny].
Qed.
Lemma same_account_defaults mgr ds d :
  same_account (foldl (fun d p => (GrantPermission mgr d p 0).1.2) d ds) d.
Proof.
  revert d; induction ds as [|q ds IH]; intros d; cbn; [by split_and!|].
  eapply same_account_trans; [apply IH|apply same_account_grant].
Qed.

#[local] Instance row_le_total : Total row_le.
Proof. intros a b. unfold row_le. lia. Qed.
#[local] Instance row_le_trans : Transitive row_le.
Proof. intros a b c. unfold row_le. lia. Qed.

Lemma list_find_least l p i x :
  StronglySorted row_le l -> list_find (fun r : Z * Z * bool => r.1.1 = p) l = Some (i, x) ->
  forall y, y ∈ l -> y.1.1 = p -> x.1.2 <= y.1.2.
Proof.
  intros Hs; revert i; induction Hs as [|z l Hs IH Hall]; intros i Hf y Hy Hp; [done|].
  cbn in Hf. case_decide as Hz.
  - simplify_eq. apply elem_of_cons in Hy as [->|Hy]; [lia|].
    rewrite Forall_forall in Hall. specialize (Hall _ Hy). unfold row_le in Hall. lia.
  - destruct (list_find _ l) as [[j x']|] eqn:E; [|done]. cbn in Hf. simplify_eq.
    apply elem_of_cons in Hy as [->|Hy]; [done|]. eauto.
Qed.

Lemma elem_of_sorted_rows (t : perm_table) a r x :
  x ∈ merge_sort row_le
      (omap (fun kv => let '((a', p, r'), g) := kv in
                       if bool_decide (a' = a /\ (r' = r \/ r' = -1))
                       then Some (p, r', g) else None) (map_to_list t)) <->
  t !! (a, x.1.1, x.1.2) = Some x.2 /\ (x.1.2 = r \/ x.1.2 = -1).
Proof.
  rewrite merge_sort_Permutation, list_elem_of_omap. destruct x as [[p rr] g]; cbn. split.
  - intros ([[[a' p'] r'] g'] & Hin & Hc). apply elem_of_map_to_list in Hin.
    case_bool_decide as Hb; simplify_eq. destruct Hb as [-> Hr]. auto.
  - intros [Ht Hr]. exists ((a, p, rr), g). split; [now apply elem_of_map_to_list|].
    rewrite bool_decide_eq_true_2 by auto. done.
Qed.

Lemma first_row_select t a r p : 0 <= r -> first_row (select_rows t a r) p = deciding t a r p.
Proof.
  intros Hr. unfold select_rows, first_row.
  match goal with |- context [merge_sort row_le ?l0] => set (l := merge_sort row_le l0) end.
  assert (Hin : forall x, x ∈ l <-> t !! (a, x.1.1, x.1.2) = Some x.2 /\ (x.1.2 = r \/ x.1.2 = -1))
    by apply elem_of_sorted_rows.
  assert (Hs : StronglySorted row_le l) by (apply StronglySorted_merge_sort; apply _).
  clearbody l. rewrite list_find_fmap. cbn. unfold deciding.
  change (list_find ((fun row : Z * bool => row.1 = p) ∘ (fun r0 : Z * Z * bool => (r0.1.1, r0.2))) l)
    with (list_find (fun r0 : Z * Z * bool => r0.1.1 = p) l).
  destruct (list_find (fun r0 : Z * Z * bool => r0.1.1 = p) l) as [[i x]|] eqn:Ef; cbn.
  - pose proof (list_find_least l p i x Hs Ef) as Hleast.
    apply list_find_Some in Ef as (Hx & Hp & _). apply list_elem_of_lookup_2, Hin in Hx as [Hx Hxr].
    destruct x as [[p' rr] g]; cbn in *; subst p'.
    destruct (t !! (a, p, -1)) as [g0|] eqn:E1.
    + specialize (Hleast (p, -1, g0)). rewrite Hin in Hleast. cbn in Hleast.
      assert (rr = -1) by (assert (rr <= -1) by (apply Hleast; auto); lia). congruence.
    + destruct Hxr; congruence.
  - apply list_find_None in Ef. rewrite Forall_forall in Ef.
    destruct (t !! (a, p, -1)) as [g0|] eqn:E1.
    { exfalso. apply (Ef (p, -1, g0)); [|done]. apply Hin. auto. }
    destruct (t !! (a, p, r)) as [g0|] eqn:E2; [|done].
    exfalso. apply (Ef (p, r, g0)); [|done]. apply Hin. auto.
Qed.

(** What a reload gives, by the row that decides each permission. *)
Lemma LoadFromDB_spec mgr t d p :
  0 <= _realmId d ->
  (p ∈ _grantedPerms (LoadFromDB mgr t d) <->
   exists_perm mgr p /\
   (deciding t (_id d) (_realmId d) p = Some true \/
    (deciding t (_id d) (_realmId d) p <> Some false /\ p ∈ GetRBACDefaultPermissions mgr (_secLevel d)))) /\
  (p ∈ _deniedPerms (LoadFromDB mgr t d) <->
   exists_perm mgr p /\ deciding t (_id d) (_realmId d) p = Some false) /\
  same_account (LoadFromDB mgr t d) d.
Proof.
  intros Hr. unfold LoadFromDB, CalculateNewPermissions.
  cbn [_grantedPerms _deniedPerms with_global].
  set (rows := select_rows t (_id (ClearData d)) (_realmId (ClearData d))).
  set (d1 := foldl (load_row mgr) (ClearData d) rows).
  assert (H1 : same_account d1 (ClearData d)) by apply same_account_rows.
  destruct (load_rows_spec mgr rows (ClearData d) p) as [G1 D1]. fold d1 in G1, D1.
  set (ds := merge_sort Z.le (elements (GetRBACDefaultPermissions mgr (_secLevel d1)))).
  assert (Hds : p ∈ ds <-> p ∈ GetRBACDefaultPermissions mgr (_secLevel d)).
  { unfold ds. rewrite merge_sort_Permutation, elem_of_elements.
    destruct H1 as (_ & _ & _ & ->). done. }
  destruct (grant_defaults_spec mgr ds d1 p) as [G2 D2].
  rewrite G2, D2, Hds, G1, D1, (first_row_select t _ _ p Hr : first_row rows p = _).
  cbn [ClearData _id _realmId _grantedPerms _deniedPerms].
  split_and!.
  - destruct (deciding t (_id d) (_realmId d) p) as [[]|]; set_solver.
  - set_solver.
  - apply (same_account_trans _ d1); [exact (same_account_defaults mgr ds d1)|].
    apply (same_account_trans _ (ClearData d)); [done|by split_and!].
Qed.

(** ** Lemmas: the table after a command *)

Lemma deciding_insert t a p r0 g r q :
  deciding t a r p = None -> r0 = r \/ r0 = -1 ->
  deciding (<[(a, p, r0) := g]> t) a r q = if decide (q = p) then Some g else deciding t a r q.
Proof.
  unfold deciding. intros Hn Hr.
  assert (Hm : t !! (a, p, -1) = None /\ t !! (a, p, r) = None) by (case_match; done).
  destruct Hm as [Hm1 Hm2]. case_decide as Hq.
  - subst q. destruct Hr as [-> | ->]; [|by rewrite lookup_insert_eq].
    destruct (decide (r = -1)) as [->|]; [by rewrite lookup_insert_eq|].
    rewrite lookup_insert_ne by congruence. by rewrite Hm1, lookup_insert_eq.
  - rewrite !lookup_insert_ne by congruence. done.
Qed.
Lemma deciding_delete t a p r q :
  deciding (delete (a, p, -1) (delete (a, p, r) t)) a r q
  = if decide (q = p) then None else deciding t a r q.
Proof.
  unfold deciding. case_decide as Hq.
  - subst q. rewrite lookup_delete_eq.
    destruct (decide (r = -1)) as [->|]; [by rewrite lookup_delete_eq|].
    rewrite lookup_delete_ne by congruence. by rewrite lookup_delete_eq.
  - rewrite !lookup_delete_ne by congruence. done.
Qed.

Lemma rbac_eq mgr d1 d2 :
  same_account d1 d2 -> computed mgr d1 -> computed mgr d2 ->
  (forall p, p ∈ _grantedPerms d1 <-> p ∈ _grantedPerms d2) ->
  (forall p, p ∈ _deniedPerms d1 <-> p ∈ _deniedPerms d2) -> d1 = d2.
Proof.
  intros (E1 & E2 & E3 & E4) C1 C2 Hg Hd. apply set_eq in Hg. apply set_eq in Hd.
  unfold computed in *. destruct d1, d2; cbn in *. by subst.
Qed.

(** To compare memory with a reload from a changed table: for the permission the
    command is about, the sets say what the table says; the others agree with
    the load before. *)
Lemma reload_eq mgr t t' d0 d' p :
  0 <= _realmId d0 -> same_account (LoadFromDB mgr t d0) d0 -> same_account d' (LoadFromDB mgr t d0) ->
  computed mgr d' ->
  (forall q, if decide (q = p)
     then (q ∈ _grantedPerms d' <-> exists_perm mgr q /\
             (deciding t' (_id d0) (_realmId d0) q = Some true \/
              (deciding t' (_id d0) (_realmId d0) q <> Some false /\
               q ∈ GetRBACDefaultPermissions mgr (_secLevel d0)))) /\
          (q ∈ _deniedPerms d' <-> exists_perm mgr q /\ deciding t' (_id d0) (_realmId d0) q = Some false)
     else deciding t' (_id d0) (_realmId d0) q = deciding t (_id d0) (_realmId d0) q /\
          (q ∈ _grantedPerms d' <-> q ∈ _grantedPerms (LoadFromDB mgr t d0)) /\
          (q ∈ _deniedPerms d' <-> q ∈ _deniedPerms (LoadFromDB mgr t d0))) ->
  LoadFromDB mgr t' d0 = d'.
Proof.
  intros Hr Ha Ha' Hc Hq.
  assert (Hall : forall q, (q ∈ _grantedPerms (LoadFromDB mgr t' d0) <-> q ∈ _grantedPerms d') /\
                           (q ∈ _deniedPerms (LoadFromDB mgr t' d0) <-> q ∈ _deniedPerms d')).
  { intros q. specialize (Hq q). destruct (LoadFromDB_spec mgr t' d0 q Hr) as (-> & -> & _).
    case_decide; [by destruct Hq as [-> ->]|]. destruct Hq as (-> & -> & ->).
    destruct (LoadFromDB_spec mgr t d0 q Hr) as (-> & -> & _). done. }
  apply (rbac_eq mgr); [|reflexivity|done|intros q; apply Hall..].
  destruct (LoadFromDB_spec mgr t' d0 p Hr) as (_ & _ & H').
  unfold same_account in *. intuition congruence.
Qed.

(** ** Theorems *)

(** C4. The expansion of a permission set terminates and is exactly the set of
    existing permissions reachable over the linked permissions: the worklist of
    [ExpandPermissions] computes the transitive closure, cycles included. *)
Theorem expand_permissions_closure mgr s p :
  p ∈ ExpandPermissions mgr s <-> linked_from mgr s p.
Proof. apply elem_of_ExpandPermissions. Qed.

(** C3. What an account may do after [CalculateNewPermissions] is what is
    reachable from the granted permissions, whatever is denied: the denied set
    does not take anything away, since the call hands the two sets to
    [RemovePermissions] in the wrong order. *)
Theorem denied_permissions_have_no_effect mgr d denied p :
  HasPermission (CalculateNewPermissions mgr (with_denied d denied)) p = true <->
  linked_from mgr (_grantedPerms d) p.
Proof. unfold HasPermission. rewrite bool_decide_eq_true. apply elem_of_ExpandPermissions. Qed.

(** C6. In every state an account can reach by commands, reloads and level
    changes from a load, no permission is both granted and denied, only existing
    permissions are in either set, and the computed set is the closure of the
    granted one. *)
Theorem rbac_reachable_invariant mgr t d s' :
  rtc (rbac_step mgr) (LoadFromDB mgr t d, t) s' ->
  rbac_inv mgr s'.1 /\ (forall p, HasPermission s'.1 p = true <-> linked_from mgr (_grantedPerms s'.1) p).
Proof.
  intros Hsteps. assert (H : rbac_inv mgr s'.1 /\ computed mgr s'.1).
  { assert (H0 : rbac_inv mgr (LoadFromDB mgr t d, t).1 /\ computed mgr (LoadFromDB mgr t d, t).1).
    { split; [apply rbac_inv_load|reflexivity]. }
    revert H0. induction Hsteps; eauto using step_invariant. }
  destruct H as [? Hc]. split; [done|]. intros p. unfold HasPermission.
  rewrite bool_decide_eq_true, Hc. apply elem_of_ExpandPermissions.
Qed.

Definition mgr_example : AccountMgr :=
  mkAccountMgr (<[1 := Some (mkPermission 1 "role" {[2]})]> (<[2 := Some (mkPermission 2 "cmd" {[1]})]> ∅))
    (<[0 := {[1]}]> ∅).
Definition account_example : RBACData := new_RBACData 7 "player" 1 0.
Lemma rbac_reachable_invariant_witness :
  rbac_inv mgr_example (DenyPermission mgr_example (LoadFromDB mgr_example ∅ account_example) 2 1).1.2.
Proof.
  exact (proj1 (rbac_reachable_invariant mgr_example ∅ account_example
    ((DenyPermission mgr_example (LoadFromDB mgr_example ∅ account_example) 2 1).1.2,
     exec_stmts ∅ (DenyPermission mgr_example (LoadFromDB mgr_example ∅ account_example) 2 1).2)
    (rtc_once _ _ (step_deny _ _ _ 2 1 ltac:(discriminate))))).
Defined.

(** One command, or a refused one, from a loaded account. *)
Lemma command_persists mgr t d0 c :
  0 < _realmId d0 -> lasting mgr d0 c ->
  let s := perform mgr (LoadFromDB mgr t d0, t) c in LoadFromDB mgr s.2 d0 = s.1.
Proof.
  intros Hr Hc. assert (Hr0 : 0 <= _realmId d0) by lia. set (d := LoadFromDB mgr t d0). cbv zeta.
  pose proof (fun p => LoadFromDB_spec mgr t d0 p Hr0) as Hspec. fold d in Hspec.
  assert (Eid : _id d = _id d0) by apply (Hspec 0). assert (Hacc : same_account d d0) by apply (Hspec 0).
  unfold perform. destruct c as [p r|p r|p r]; cbn [fst snd lasting] in *; destruct (Hspec p) as (Gp & Dp & _).
  - destruct (GrantPermission mgr d p r) as [[res d'] ss] eqn:E. destruct (grant_cases _ _ _ _ _ _ _ E)
      as [(_ & -> & -> & _)|(_ & Hex & Hnd & Hng & Eg & Ed & _ & [[? _]|(_ & Ed' & ->)])]; [done|lia|]. cbn [fst snd].
    assert (Hdec : deciding t (_id d0) (_realmId d0) p = None).
    { destruct (deciding t (_id d0) (_realmId d0) p) as [[]|]; naive_solver. }
    apply (reload_eq mgr t _ d0 d' p); auto; [subst d'; done..|]. intros q. unfold exec_stmts; cbn [foldl exec_stmt].
    rewrite Eid, deciding_insert by auto. rewrite Eg, Ed. case_decide; subst; set_solver.
  - destruct (DenyPermission mgr d p r) as [[res d'] ss] eqn:E. destruct (deny_cases _ _ _ _ _ _ _ E)
      as [(_ & -> & -> & _)|(_ & Hex & Hnd & Hng & Ed & Eg & _ & [[? _]|(_ & Ed' & ->)])]; [done|lia|]. cbn [fst snd].
    assert (Hdec : deciding t (_id d0) (_realmId d0) p = None).
    { destruct (deciding t (_id d0) (_realmId d0) p) as [[]|]; naive_solver. }
    apply (reload_eq mgr t _ d0 d' p); auto; [subst d'; done..|]. intros q. unfold exec_stmts; cbn [foldl exec_stmt].
    rewrite Eid, deciding_insert by auto. rewrite Eg, Ed. case_decide; subst; set_solver.
  - destruct Hc as [Hreal Hdef]. destruct (RevokePermission mgr d p r) as [[res d'] ss] eqn:E. destruct (revoke_cases _ _ _ _ _ _ _ E)
      as [(_ & -> & -> & _)|(_ & Hin & Eg & Ed & _ & [[? _]|(_ & Ed' & ->)])]; [done|lia|]. cbn [fst snd].
    apply (reload_eq mgr t _ d0 d' p); auto; [subst d'; done..|]. intros q. unfold exec_stmts; cbn [foldl exec_stmt].
    rewrite Eid, Hreal, deciding_delete. rewrite Eg, Ed. case_decide; subst; set_solver.
Qed.

(** C5. What is in memory lasts, with two exceptions.  From a loaded account, any
    sequence of grants and denials for the account's realm or for all realms and of
    revocations for its realm of permissions that are no defaults of its level,
    refused ones included, leaves the data that a reload from the changed table
    gives.  A default that is revoked for the realm is granted again by the reload.
    And a revocation for all realms (the default of the command) of what a row of the
    realm grants or denies deletes another row: the permission is gone from memory,
    and back with the reload. *)
Theorem permission_commands_persist mgr t d0 :
  0 < _realmId d0 ->
  (forall cs, Forall (lasting mgr d0) cs ->
     let s := foldl (perform mgr) (LoadFromDB mgr t d0, t) cs in LoadFromDB mgr s.2 d0 = s.1) /\
  (forall p, p ∈ GetRBACDefaultPermissions mgr (_secLevel d0) -> p ∈ _grantedPerms (LoadFromDB mgr t d0) ->
     let s := perform mgr (LoadFromDB mgr t d0, t) (CRevoke p (_realmId d0)) in
     (p ∉ _grantedPerms s.1) /\ p ∈ _grantedPerms (LoadFromDB mgr s.2 d0)) /\
  (forall p g, exists_perm mgr p -> t !! (_id d0, p, _realmId d0) = Some g -> t !! (_id d0, p, -1) = None ->
     let s := perform mgr (LoadFromDB mgr t d0, t) (CRevoke p (-1)) in
     (p ∉ _grantedPerms s.1 ∪ _deniedPerms s.1) /\
     p ∈ (if g : bool then _grantedPerms (LoadFromDB mgr s.2 d0) else _deniedPerms (LoadFromDB mgr s.2 d0))).
Proof.
  intros Hr. assert (Hr0 : 0 <= _realmId d0) by lia. split_and!.
  - intros cs. generalize t. clear t. induction cs as [|c cs IH]; intros t Hcs; [done|]. inversion_clear Hcs as [|? ? Hc Hcs'].
    pose proof (command_persists mgr t d0 c Hr Hc) as E. cbn [foldl]. destruct (perform mgr (LoadFromDB mgr t d0, t) c) as [d' t']. cbn [fst snd] in E.
    rewrite <- E. now apply IH.
  - intros p Hdef Hg. set (d := LoadFromDB mgr t d0) in *. destruct (LoadFromDB_spec mgr t d0 p Hr0) as (Gp & _ & Hacc). fold d in Gp, Hacc.
    assert (Eid : _id d = _id d0) by apply Hacc. unfold perform. cbn [fst snd]. destruct (RevokePermission mgr d p (_realmId d0)) as [[res d'] ss] eqn:E.
    destruct (revoke_cases _ _ _ _ _ _ _ E) as [(_ & _ & _ & _ & ?)|(_ & _ & Eg & _ & _ & [[? _]|(_ & _ & ->)])]; [done|lia|]. cbn [fst snd].
    split; [rewrite Eg; set_solver|]. destruct (LoadFromDB_spec mgr (exec_stmts t [DEL_RBAC_ACCOUNT_PERMISSION (_id d) p (_realmId d0)]) d0 p Hr0) as (G & _). apply G.
    unfold exec_stmts. cbn [foldl exec_stmt]. rewrite Eid, deciding_delete. rewrite decide_True by done. split; [now apply Gp|]. right. split; [discriminate|done].
  - intros p g Hex Hrow Hno. set (d := LoadFromDB mgr t d0) in *. destruct (LoadFromDB_spec mgr t d0 p Hr0) as (Gp & Dp & Hacc). fold d in Gp, Dp, Hacc.
    assert (Eid : _id d = _id d0) by apply Hacc. assert (Hdec : deciding t (_id d0) (_realmId d0) p = Some g) by (unfold deciding; now rewrite Hno).
    assert (Hin : p ∈ _grantedPerms d ∪ _deniedPerms d) by (rewrite Hdec in Gp, Dp; destruct g; set_solver).
    unfold perform. cbn [fst snd]. destruct (RevokePermission mgr d p (-1)) as [[res d'] ss] eqn:E.
    destruct (revoke_cases _ _ _ _ _ _ _ E) as [(_ & _ & _ & ? & ?)|(_ & _ & Eg & Ed & _ & [[? _]|(_ & _ & ->)])]; [set_solver|lia|]. cbn [fst snd].
    split; [rewrite Eg, Ed; set_solver|].
    assert (Hdec' : deciding (exec_stmts t [DEL_RBAC_ACCOUNT_PERMISSION (_id d) p (-1)]) (_id d0) (_realmId d0) p = Some g).
    { unfold deciding, exec_stmts. cbn [foldl exec_stmt]. rewrite Eid, lookup_delete_eq, !lookup_delete_ne by (intros [=]; lia). exact Hrow. }
    destruct (LoadFromDB_spec mgr (exec_stmts t [DEL_RBAC_ACCOUNT_PERMISSION (_id d) p (-1)]) d0 p Hr0) as (G & D & _). rewrite Hdec' in G, D.
    destruct g; [apply G|apply D]; auto.
Qed.

Lemma permission_commands_persist_witness :
  LoadFromDB mgr_example (<[(8, 2, 1) := false]> ∅) (new_RBACData 8 "gm" 1 3) =
  (DenyPermission mgr_example (LoadFromDB mgr_example ∅ (new_RBACData 8 "gm" 1 3)) 2 1).1.2 /\
  ~ (2 ∈ _deniedPerms (RevokePermission mgr_example (LoadFromDB mgr_example (<[(8, 2, 1) := false]> ∅) (new_RBACData 8 "gm" 1 3)) 2 (-1)).1.2).
Proof.
  split.
  - destruct (permission_commands_persist mgr_example ∅ (new_RBACData 8 "gm" 1 3) ltac:(cbn; lia)) as (H & _).
    apply (H [CDeny 2 1]). repeat constructor.
  - destruct (permission_commands_persist mgr_example (<[(8, 2, 1) := false]> ∅) (new_RBACData 8 "gm" 1 3) ltac:(cbn; lia)) as (_ & _ & H).
    destruct (H 2 false) as [Hn _]; [apply (bool_decide_unpack _); vm_compute; exact I|reflexivity|reflexivity|].
    intros Hd. apply Hn. apply elem_of_union. right. exact Hd.
Defined.

(** ** Loading the definitions *)

Definition declared (perms : list (Z * string)) (p : Z) : Prop := p ∈ perms.*1.

(** What the loader keeps while it goes over the link rows done so far. *)
Record load_inv (perms : list (Z * string)) (done : list (Z * Z)) (defs : gmap Z (gset Z))
  (st : AccountMgr * (Z * option Z)) : Prop := {
  li_declared : forall k, exists_perm st.1 k <-> declared perms k;
  li_links : forall k P, GetRBACPermission st.1 k = Some P ->
    forall q, q ∈ perm_links P <-> (k, q) ∈ done /\ q <> k;
  li_pointer : match st.2.2 with
               | Some key => key = st.2.1 /\ declared perms key
               | None => st.2.1 = 0 \/ ~ declared perms st.2.1
               end;
  li_defaults : _defaultPermissions st.1 = defs
}.

Lemma GetRBACPermission_insert m ds k v p :
  GetRBACPermission (mkAccountMgr (<[k := v]> m) ds) p
  = if decide (k = p) then v else GetRBACPermission (mkAccountMgr m ds) p.
Proof.
  unfold GetRBACPermission; cbn. rewrite lookup_insert. repeat case_decide; done.
Qed.
Lemma GetRBACPermission_Some m ds k P :
  GetRBACPermission (mkAccountMgr m ds) k = Some P <-> m !! k = Some (Some P).
Proof. unfold GetRBACPermission; cbn. destruct (m !! k) as [[|]|]; naive_solver. Qed.

Lemma load_permissions_declared perms mgr k :
  exists_perm (foldl load_permission mgr perms) k <-> exists_perm mgr k \/ declared perms k.
Proof.
  unfold declared, exists_perm. revert mgr.
  induction perms as [|[i n] perms IH]; intros [m ds]; cbn [foldl]; [set_solver|].
  rewrite IH. unfold load_permission at 1. cbn [_permissions _defaultPermissions fst snd].
  rewrite GetRBACPermission_insert, fmap_cons, elem_of_cons. cbn. case_decide; naive_solver.
Qed.
Lemma load_permissions_links perms mgr :
  (forall k P, GetRBACPermission mgr k = Some P -> perm_links P = ∅) ->
  forall k P, GetRBACPermission (foldl load_permission mgr perms) k = Some P -> perm_links P = ∅.
Proof.
  revert mgr; induction perms as [|[i n] perms IH]; intros [m ds] H; cbn [foldl]; [done|].
  apply IH. intros k P. unfold load_permission. cbn [_permissions _defaultPermissions fst snd].
  rewrite GetRBACPermission_insert. case_decide; [|apply H]. by intros [= <-].
Qed.
Lemma load_permissions_defaults perms mgr :
  _defaultPermissions (foldl load_permission mgr perms) = _defaultPermissions mgr.
Proof. revert mgr; induction perms as [|[i n] perms IH]; intros mgr; cbn; [done|]. by rewrite IH. Qed.

(** the first half of a row: follow the id change *)
Definition follow (mgr : AccountMgr) (pid : Z) (ptr : option Z) (newId : Z) : AccountMgr * Z * option Z :=
  if negb (pid =? newId)
  then match _permissions mgr !! newId with
       | Some (Some _) => (mgr, newId, Some newId)
       | Some None => (mgr, newId, None)
       | None => (mkAccountMgr (<[newId := None]> (_permissions mgr)) (_defaultPermissions mgr), newId, None)
       end
  else (mgr, pid, ptr).

Lemma follow_inv perms done defs mgr pid ptr newId mgr' pid' ptr' :
  load_inv perms done defs (mgr, (pid, ptr)) -> follow mgr pid ptr newId = (mgr', pid', ptr') ->
  load_inv perms done defs (mgr', (pid', ptr')) /\ pid' = newId.
Proof.
  intros [Hd Hl Hp Hf] E. unfold follow in E. cbn in *.
  destruct (pid =? newId) eqn:Ei; cbn in E; zbool.
  { simplify_eq. split; [by split|done]. }
  destruct mgr as [m ds]. cbn in *.
  destruct (m !! newId) as [[P|]|] eqn:Em; simplify_eq; (split; [|done]); split; cbn; auto.
  - split; [done|]. apply Hd. exists P. by apply GetRBACPermission_Some.
  - right. rewrite <- Hd. intros [P HP%GetRBACPermission_Some]. congruence.
  - intros k. rewrite <- Hd. unfold exists_perm. rewrite GetRBACPermission_insert.
    case_decide as Hk; [subst|done]. split; [by intros []|].
    intros [P HP%GetRBACPermission_Some]. congruence.
  - intros k P. rewrite GetRBACPermission_insert. case_decide; [done|]. apply Hl.
  - right. rewrite <- Hd. intros [P HP%GetRBACPermission_Some]. congruence.
Qed.

Lemma load_link_step perms done defs mgr pid ptr id l :
  load_inv perms done defs (mgr, (pid, ptr)) ->
  (id <> 0 -> declared perms id -> exists st', load_link (Ret (mgr, (pid, ptr))) (id, l) = Ret st' /\
     load_inv perms (done ++ [(id, l)]) defs st') /\
  (~ declared perms id -> l <> id -> load_link (Ret (mgr, (pid, ptr))) (id, l) = Crash).
Proof.
  intros Hinv. unfold load_link. fold (follow mgr pid ptr id).
  destruct (follow mgr pid ptr id) as [[mgr' pid'] ptr'] eqn:Ef.
  destruct (follow_inv _ _ _ _ _ _ _ _ _ _ Hinv Ef) as [Hinv' ->].
  destruct Hinv' as [Hd Hl Hp Hf]. cbn in Hp. split.
  - intros Hid Hdec. destruct (l =? id) eqn:El; zbool.
    { eexists; split; [done|]. split; auto. cbn in *. intros k P HP q. rewrite (Hl k P HP).
      rewrite elem_of_app, list_elem_of_singleton. naive_solver. }
    destruct ptr' as [key|]; [|naive_solver]. destruct Hp as [-> _].
    destruct mgr' as [m ds]. cbn in *. destruct (proj2 (Hd id) Hdec) as [P HP].
    pose proof (proj1 (GetRBACPermission_Some _ _ _ _) HP) as Hm. rewrite Hm.
    eexists; split; [done|]. split; cbn; auto.
    + intros k. rewrite <- Hd. unfold exists_perm. rewrite GetRBACPermission_insert.
      case_decide; subst; rewrite ?HP; split; eauto.
    + intros k Q. rewrite GetRBACPermission_insert. case_decide as Hk.
      * subst. intros [= <-] q. cbn. rewrite elem_of_union, elem_of_singleton, (Hl _ _ HP).
        rewrite elem_of_app, list_elem_of_singleton. naive_solver.
      * intros HQ q. rewrite (Hl _ _ HQ), elem_of_app, list_elem_of_singleton. naive_solver.
  - intros Hnd Hne. rewrite (proj2 (Z.eqb_neq l id)) by done.
    destruct ptr' as [key|]; [|done]. destruct Hp as [-> ?]. done.
Qed.

Lemma load_links_crash links : foldl load_link Crash links = Crash.
Proof. induction links; done. Qed.

Lemma load_links_ok perms defs links done st :
  load_inv perms done defs st -> Forall (fun row => row.1 <> 0 /\ declared perms row.1) links ->
  exists st', foldl load_link (Ret st) links = Ret st' /\ load_inv perms (done ++ links) defs st'.
Proof.
  intros Hinv Hf; revert done st Hinv.
  induction Hf as [|[id l] links [Hid Hd] Hf IH]; intros done [mgr [pid ptr]] Hinv; cbn [foldl].
  { exists (mgr, (pid, ptr)). by rewrite app_nil_r. }
  destruct (load_link_step _ _ _ _ _ _ id l Hinv) as [Hok _].
  destruct (Hok Hid Hd) as (st' & -> & Hinv'). destruct (IH _ _ Hinv') as (st'' & -> & H'').
  exists st''. by rewrite <- app_assoc in H''.
Qed.

Lemma load_default_spec mgr rows sec p :
  p ∈ GetRBACDefaultPermissions (foldl load_default mgr rows) sec <->
  p ∈ GetRBACDefaultPermissions mgr sec \/ exists s, (s, p) ∈ rows /\ u8 s = sec.
Proof.
  revert mgr; induction rows as [|[s q] rows IH]; intros mgr; cbn [foldl]; [set_solver|].
  rewrite IH. unfold load_default, GetRBACDefaultPermissions at 1. cbn [_defaultPermissions fst snd].
  rewrite lookup_insert. case_decide; cbn.
  - subst. rewrite elem_of_union, elem_of_singleton. setoid_rewrite elem_of_cons. naive_solver.
  - setoid_rewrite elem_of_cons. fold (GetRBACDefaultPermissions mgr sec). naive_solver.
Qed.
Lemma load_default_permissions mgr rows :
  _permissions (foldl load_default mgr rows) = _permissions mgr.
Proof. revert mgr; induction rows as [|[s q] rows IH]; intros mgr; cbn; [done|]. by rewrite IH. Qed.

Lemma load_inv_start perms mgr :
  load_inv perms [] ∅ (foldl load_permission (ClearRBAC mgr) perms, (0, None)).
Proof.
  split; cbn.
  - intros k. rewrite load_permissions_declared. split; [|auto].
    intros [[P HP]|]; [|done]. by apply GetRBACPermission_Some in HP.
  - intros k P HP q. apply load_permissions_links in HP; [|by intros ? ? ?%GetRBACPermission_Some].
    rewrite HP. set_solver.
  - auto.
  - by rewrite load_permissions_defaults.
Qed.

(** [LoadRBAC] builds what the three tables say: on tables whose link rows
    are all about declared permissions, the declared permissions exist, each is
    linked to exactly the other permissions its rows name (a link to itself is
    skipped) and each level has its default permissions. *)
Theorem load_rbac_correct mgr perms links defaults :
  perms <> [] -> links <> [] ->
  Forall (fun row => row.1 <> 0 /\ declared perms row.1) links ->
  exists mgr', LoadRBAC mgr perms links defaults = Ret mgr' /\
    (forall p, exists_perm mgr' p <-> declared perms p) /\
    (forall p P, GetRBACPermission mgr' p = Some P ->
       forall q, q ∈ perm_links P <-> (p, q) ∈ links /\ q <> p) /\
    (forall sec p, p ∈ GetRBACDefaultPermissions mgr' sec <-> exists s, (s, p) ∈ defaults /\ u8 s = sec).
Proof.
  intros Hp Hl Hf. unfold LoadRBAC.
  destruct (load_links_ok perms ∅ links [] _ (load_inv_start perms mgr) Hf) as ([mgr' cur] & E & Hinv).
  destruct perms as [|row perms]; [done|]. destruct links as [|lrow links]; [done|]. rewrite E.
  exists (foldl load_default mgr' defaults). destruct Hinv as [Hd Hlk _ Hdef]. cbn in Hdef.
  unfold exists_perm, GetRBACPermission in *. rewrite load_default_permissions. cbn in *.
  split_and!; auto. intros sec p. rewrite load_default_spec.
  unfold GetRBACDefaultPermissions at 1. rewrite Hdef, lookup_empty. set_solver.
Qed.

Lemma load_rbac_correct_witness :
  exists mgr', LoadRBAC (mkAccountMgr ∅ ∅) [(1, "role"%string); (2, "cmd"%string)] [(1, 2); (1, 1); (2, 1)] [(0, 1)]
    = Ret mgr' /\ (forall p, exists_perm mgr' p <-> declared [(1, "role"%string); (2, "cmd"%string)] p).
Proof.
  destruct (load_rbac_correct (mkAccountMgr ∅ ∅) [(1, "role"%string); (2, "cmd"%string)]
    [(1, 2); (1, 1); (2, 1)] [(0, 1)] ltac:(done) ltac:(done)) as (mgr' & E & H & _).
  - repeat constructor; cbn; try lia; unfold declared; cbn; set_solver.
  - by exists mgr'.
Defined.
